(* ===== verification/_CoqProject ===== *)
-Q . S2P
Prelude.v
Packet.v
CommPlugin.v
Ring.v
Base64.v
Utf8.v
Sha1.v
Buflist.v
Text.v
WsRx.v
WsRecv.v
WsTx.v
WsSend.v
HttpHead.v
HttpPlugin.v
Tokenize.v
Lex.v
HttpParse.v
HttpSafe.v
HttpUri.v
HttpReq.v
Vhost.v
Upgrade.v
H1.v
Handshake.v
H1Ok.v
Dll.v
Timers.v
Poll.v
Timeouts.v
AhPool.v
Peers.v
Lejp.v
LejpOk.v
Huffman.v
HpackTable.v
Hpack.v
HpackStore.v
HpackOk.v
HpackField.v
HpackBlock.v
HpackSend.v
