(* ===== verification/Prelude.v ===== *)
(** * C_server: a verification development

    C_server is a server for field controllers (comlink v2): three protocol
    plugins, for websocket and for HTTP, that run inside lwsws, the server
    application of the copy of libwebsockets in the repository.  This library
    models the server as its Dockerfile builds it (lwsws, CMAKE_BUILD_TYPE=DEBUG,
    so assert() is active; LWS_WITH_LWSWS, which sets LWS_WITH_LIBUV, so the
    event loop is libuv's; HTTP/1, websocket without extensions, no CGI, no
    proxy; Linux on x86-64) and proves what its parts do, for connections without
    TLS.  Definitions are translated from the C code and can be run; every
    access to an array, a heap block or a list node is checked, and a failing
    access or assert is a [Fault] of the result type [res] below.

    ** The parts and their files

    All paths are under src/libwebsockets/.

    The application (plugins/):
    - Packet.v: the controllers' packet format, checksums and replies
      (plugin_lws_websocket/functions.h);
    - CommPlugin.v: callback_lws_websocket
      (plugin_lws_websocket/protocol_lws_websocket.c), with its state per vhost
      and per session;
    - HttpPlugin.v: callback_lws_packet and callback_post_request
      (plugin_lws_packet/, plugin_lws_http/), for any connection that keeps the
      laws of the class [HttpSession], which H1Ok.v shows of the real one.

    A websocket connection (lib/roles/ws/, lib/core/):
    - WsRx.v models receiving (ops-ws.c, server-ws.c), WsRecv.v proves it;
    - WsTx.v models sending (output.c, ops-ws.c, service.c), WsSend.v proves it
      and puts both directions together;
    - Upgrade.v models the handshake (server-ws.c, roles/http/server/server.c)
      for any connection of the class [HttpConn], Handshake.v proves it and
      follows a connection from its first byte.

    An HTTP/1 connection (lib/roles/http/, lib/roles/h1/):
    - Lex.v: the generated table of header names (lextable.h);
    - HttpParse.v models the request parser and the header store (parsers.c);
      HttpSafe.v (memory safety), HttpUri.v (the path) and HttpReq.v (whole
      requests) prove it;
    - Vhost.v: vhosts, mounts, types and logins (server.c);
    - HttpHead.v: response headers (header.c);
    - H1.v models the connection (ops-h1.c, server.c, header.c) on top of these,
      H1Ok.v proves what it answers;
    - AhPool.v: the pool of header stores with its waiting list (parsers.c,
      misc/peer-limits.c);
    - Peers.v: the addresses the server knows, with their limits
      (misc/peer-limits.c; what core/adopt.c, libwebsockets.c and context.c do
      with them).

    What the event loop works on (lib/core/, lib/plat/unix/, lib/event-libs/libuv/):
    - Dll.v: doubly linked lists (libwebsockets.c), on a heap of nodes;
    - Timers.v: the microsecond timers of connections (libwebsockets.c);
    - Timeouts.v: their timeouts in seconds, the check once per second with a
      clock that may jump, and the timed callbacks of protocols (libwebsockets.c,
      service.c);
    - Poll.v: the poll table, and what libuv is asked to poll for each entry
      (pollfd.c, unix-fds.c, libuv.c).

    The configuration:
    - Lejp.v models the JSON stream parser (misc/lejp.c) and the loop that
      feeds it a file (roles/http/server/lejp-conf.c), LejpOk.v proves it.

    Header compression of HTTP/2 (lib/roles/h2/):
    - Huffman.v: the Huffman code of strings (huftable.h, minihuf.c, hpack.c);
    - HpackTable.v: the static and the dynamic table (hpack.c);
    - Hpack.v models the decoder, which fills the header store of a stream, and
      the headers of responses (hpack.c); HpackStore.v has the lemmas about the
      header store, HpackOk.v says what header blocks mean, HpackField.v and
      HpackBlock.v prove that the decoder reads them so, HpackSend.v proves the
      headers of responses.

    Shared helpers: Ring.v (misc/lws-ring.c), Base64.v (misc/base64-decode.c),
    Utf8.v, Text.v, Tokenize.v and Buflist.v (core/libwebsockets.c), Sha1.v
    (misc/sha-1.c).  This file holds C integers and memory, the result type,
    and the tactics and hints all files use.

    ** What the theorems show

    - End to end: a websocket client that sends a well-formed upgrade request
      and then frames, cut up in any way, gets the 101 answer of RFC 6455 and
      the callbacks and replies of the frame specification
      (Handshake.ws_from_first_byte, WsSend.ws_end_to_end); any number of POSTs
      on a connection are answered in order (H1Ok.posts_answered); commands
      reach system() only for packets whose checksum was accepted
      (CommPlugin.commands_only_for_valid_packets).
    - Equivalence with references: SHA-1 with FIPS 180-1, the UTF-8 table with
      the encoding of scalar values, the header name table with its list of
      names, the Huffman table with the list of codes, the path normalisation
      with a function on segments.
    - Header blocks of HTTP/2 are read as the standard means them, field by
      field, and what the server writes is read back
      (HpackBlock.header_block_read, HpackSend.sent_headers_read).
    - Refinement: the ring buffer and the buffered segments are queues; the
      linked lists are lists; the timers and the poll table are maps, with libuv
      polling what the map says, and so is the hash table of peers; the header
      store pool is a set of owners with a queue; the ring of HPACK serves the
      dynamic table of the standard.
    - Safety on any input: the HTTP parser, the websocket receiver, the
      tokenizer and the escaping functions stay in their buffers and return,
      except where a theorem says how they do not.
    - Liveness and termination: buffered bytes are sent, due timers fire, overdue
      connections are closed, nobody waits for a header store needlessly; and a
      pipelined POST makes the server loop for ever.
    - Round trips: base64, URL coding, JSON documents.

    Theorems whose name says what goes wrong (reads_past, overruns, aborts,
    loses, spoils, ...) prove a fault of the code on a concrete or general input.
    The conditions a theorem puts on its input are in its comment; where the code
    goes wrong without one of them, the comment names the theorem that shows it.

    ** Bounds and fuel

    A loop that is not structural has a number of turns as argument and gives
    [Fault Unfinished] when they are used up; the theorems say that the number
    they give is enough (the length of the input, the size of the heap for a
    walk along a list, two turns of lws_read_h1 for a request), or are for any
    number.  C integers are [Z] with their width written out where it can
    matter; lengths and positions are [nat] where the arrays they point into
    are shorter than their type allows, which the invariants show.

    ** Not modelled

    The socket, the allocator, the clock, random numbers, system() and the
    threads of other programs are parameters.  So are the parts of the library
    behind an interface of its own: serving files (lws_http_serve, fops-zip),
    closing and adopting connections beyond what a component needs of them.
    The loop itself is libuv's, which is known by uv_poll_start and uv_poll_stop;
    the poll() loop of unix-service.c is compiled but does not run, and neither is
    modelled.  TLS is part of the build (wrappers around OpenSSL) and left out:
    a connection is as it is without.  Other event libraries and platforms, CGI,
    the reverse proxy, permessage-deflate and stream compression are not part of
    the build.
    The frames and streams of HTTP/2 (http2.c, ops-h2.c) are compiled in but
    only reached over TLS or by an h2c upgrade; of HTTP/2, header compression is
    modelled.  The client side of the library is not used by the server: WsTx.v
    has the client role for what it shares with the server, sending, and a client
    that reads ends in the fault [NotModelled].  The example programs (client.c,
    redisClient.c, httpClient.c), other plugins, test applications and
    minimal-examples are separate programs. *)

From stdpp Require Import base numbers list strings gmap.
From Stdlib Require Import ZArith Lia Ascii.

Declare Scope c_scope.
Delimit Scope c_scope with C.

#[global] Open Scope Z_scope.

(** ** Integers at their C width

    A value of a w-bit unsigned type is a [Z] in [0, 2^w); a conversion to the
    type is the remainder.  A signed type is the two's complement
    representative, as on the x86-64 ABI the server is built for. *)

Definition u8 (z : Z) : Z := z `mod` 256.
Definition u16 (z : Z) : Z := z `mod` 65536.
Definition u32 (z : Z) : Z := z `mod` 4294967296.
Definition u64 (z : Z) : Z := z `mod` 18446744073709551616.
Definition s8 (z : Z) : Z := (z + 128) `mod` 256 - 128.
Definition s32 (z : Z) : Z := (z + 2147483648) `mod` 4294967296 - 2147483648.
Definition s64 (z : Z) : Z :=
  (z + 9223372036854775808) `mod` 18446744073709551616 - 9223372036854775808.

Definition INT_MAX : Z := 2147483647.
Definition INT_MIN : Z := -2147483648.
Definition LONG_MAX : Z := 9223372036854775807.
Definition LONG_MIN : Z := -9223372036854775808.

Definition is_byte (z : Z) : Prop := 0 <= z < 256.

#[global] Instance is_byte_dec z : Decision (is_byte z).
Proof. unfold is_byte. apply _. Defined.

(** The bytes of a string literal of the source. *)
Fixpoint bs (s : string) : list Z :=
  match s with
  | EmptyString => []
  | String c s' => Z.of_N (N_of_ascii c) :: bs s'
  end.

(** The code of a character constant of the source. *)
Definition chr (c : ascii) : Z := Z.of_N (N_of_ascii c).

(** ** Outcomes of C code

    [Fault] is an execution the C standard gives no meaning to, or that stops
    the process, or that leaves the code that is modelled: the theorems state
    when it cannot happen. *)

Inductive fault :=
  | OutOfBounds      (** a write or read past the end of an object *)
  | NullDeref        (** a null pointer passed where a string is read *)
  | AssertFailed     (** a failing assert(): the process aborts *)
  | BadFormat        (** an integer used as a format string pointer *)
  | UseAfterFree     (** an access to an object that was freed *)
  | DivByZero        (** an integer division by zero: SIGFPE *)
  | BadShift         (** a shift by the width of the type or more *)
  | Unfinished       (** a loop that has not ended in the steps it was given *)
  | NotModelled.     (** a path into code that the model leaves out *)

#[global] Instance fault_eq_dec : EqDecision fault.
Proof. solve_decision. Defined.

Inductive res (A : Type) :=
  | Ok (a : A)
  | Fault (f : fault).
Arguments Ok {A} a.
Arguments Fault {A} f.

#[global] Instance res_ret : MRet res := @Ok.
#[global] Instance res_bind : MBind res := λ A B k m,
  match m with Ok a => k a | Fault f => Fault f end.

Definition is_ok {A} (r : res A) : bool :=
  match r with Ok _ => true | Fault _ => false end.

(** [check b f]: carry on when [b] holds, else fault. *)
Definition check (b : bool) (f : fault) : res unit :=
  if b then Ok tt else Fault f.

Lemma res_bind_ok {A B} (k : A → res B) a : (Ok a ≫= k) = k a.
Proof. reflexivity. Qed.

Lemma bind_Ok_inv {A B} (m : res A) (k : A → res B) b :
  (m ≫= k) = Ok b → ∃ a, m = Ok a ∧ k a = Ok b.
Proof. destruct m; simpl; [eauto | discriminate]. Qed.

Lemma check_true b f : b = true → check b f = Ok tt.
Proof. intros ->. reflexivity. Qed.

Lemma check_Ok_inv b f u : check b f = Ok u → b = true.
Proof. destruct b; [reflexivity | discriminate]. Qed.

(** ** Memory: a C object is the list of its bytes *)

(** Overwrite the bytes of [m] from offset [off] with [src]. *)
Definition blit (m : list Z) (off : nat) (src : list Z) : list Z :=
  take off m ++ src ++ drop (off + length src) m.

(** memcpy of [src] to [m + off]: a fault when it leaves the object. *)
Definition memcpy (m : list Z) (off : nat) (src : list Z) : res (list Z) :=
  if bool_decide (off + length src ≤ length m)%nat
  then Ok (blit m off src) else Fault OutOfBounds.

(** The string a [char *] that points at [m] denotes: the bytes before the
    first NUL ([None] when the object has none). *)
Fixpoint c_str (m : list Z) : option (list Z) :=
  match m with
  | [] => None
  | b :: m' => if b =? 0 then Some [] else cons b <$> c_str m'
  end.

(** ** Arrays *)

(** An element of an array. *)
Definition elem {A} (l : list A) (i : Z) : res A :=
  if i <? 0 then Fault OutOfBounds
  else match l !! Z.to_nat i with Some x => Ok x | None => Fault OutOfBounds end.

Definition store {A} (l : list A) (i : Z) (x : A) : res (list A) :=
  _ ← elem l i; Ok (<[Z.to_nat i := x]> l).

Lemma elem_ok {A} (l : list A) (i : nat) x : l !! i = Some x → elem l (Z.of_nat i) = Ok x.
Proof. intros E. unfold elem. rewrite (proj2 (Z.ltb_ge _ _)) by lia. by rewrite Nat2Z.id, E. Qed.

Lemma store_ok {A} (l : list A) (i : nat) x : (i < length l)%nat → store l (Z.of_nat i) x = Ok (<[i := x]> l).
Proof.
  intros Hi. unfold store. destruct (lookup_lt_is_Some_2 l i Hi) as [y Ey]. rewrite (elem_ok _ _ _ Ey), res_bind_ok. by rewrite Nat2Z.id.
Qed.

(** No byte of a string is NUL. *)
Definition no_nul (s : list Z) : Prop := Forall (λ b, b ≠ 0) s.

#[global] Instance no_nul_dec s : Decision (no_nul s).
Proof. unfold no_nul. apply _. Defined.

Lemma length_blit m off src :
  (off + length src ≤ length m)%nat → length (blit m off src) = length m.
Proof.
  intros. unfold blit. rewrite !length_app, length_take, length_drop. lia.
Qed.

Lemma blit_lookup_lt m off src i :
  (i < off)%nat → (off ≤ length m)%nat → blit m off src !! i = m !! i.
Proof.
  intros. unfold blit. rewrite lookup_app_l by (rewrite length_take; lia).
  by rewrite lookup_take_lt by lia.
Qed.

Lemma blit_lookup_in m off src i :
  (off ≤ length m)%nat → (off ≤ i < off + length src)%nat →
  blit m off src !! i = src !! (i - off)%nat.
Proof.
  intros. unfold blit.
  rewrite lookup_app_r by (rewrite length_take; lia).
  rewrite length_take, Nat.min_l by lia.
  by rewrite lookup_app_l by lia.
Qed.

Lemma blit_lookup_ge m off src i :
  (off + length src ≤ length m)%nat → (off + length src ≤ i)%nat →
  blit m off src !! i = m !! i.
Proof.
  intros. unfold blit.
  rewrite lookup_app_r by (rewrite length_take; lia).
  rewrite length_take, Nat.min_l by lia.
  rewrite lookup_app_r by lia. rewrite lookup_drop. f_equal. lia.
Qed.

Lemma blit_nil m off : blit m off [] = m.
Proof. unfold blit. simpl. rewrite Nat.add_0_r. apply take_drop. Qed.

Lemma take_blit m off src n :
  (n ≤ off)%nat → (off ≤ length m)%nat → take n (blit m off src) = take n m.
Proof.
  intros. unfold blit. rewrite take_app_le by (rewrite length_take; lia).
  rewrite take_take. f_equal. lia.
Qed.

Lemma memcpy_Ok m off src :
  (off + length src ≤ length m)%nat → memcpy m off src = Ok (blit m off src).
Proof. intros. unfold memcpy. by rewrite bool_decide_true. Qed.

Lemma memcpy_Fault m off src :
  (length m < off + length src)%nat → memcpy m off src = Fault OutOfBounds.
Proof. intros. unfold memcpy. rewrite bool_decide_false by lia. done. Qed.

Lemma memcpy_length m off src m' : memcpy m off src = Ok m' → length m' = length m.
Proof.
  unfold memcpy. case_bool_decide; [|discriminate].
  intros [= <-]. by apply length_blit.
Qed.

(** What was copied is read back. *)
Lemma memcpy_read m off src m' :
  memcpy m off src = Ok m' →
  take (length src) (drop off m') = src ∧ (off + length src ≤ length m)%nat.
Proof.
  unfold memcpy. case_bool_decide as Hb; [|discriminate].
  intros [= <-]. split; [|done]. unfold blit.
  rewrite drop_app_length' by (rewrite length_take; lia). apply take_app_length.
Qed.

Lemma c_str_terminated s rest : no_nul s → c_str (s ++ 0 :: rest) = Some s.
Proof.
  induction 1 as [|b s Hb Hs IH]; simpl; [reflexivity|].
  destruct (Z.eqb_spec b 0); [contradiction|]. by rewrite IH.
Qed.

Lemma c_str_no_nul m s : c_str m = Some s → no_nul s.
Proof.
  revert s. induction m as [|b m IH]; intros s; simpl; [discriminate|].
  destruct (Z.eqb_spec b 0) as [->|Hb]; [intros [= <-]; constructor|].
  destruct (c_str m) as [s'|]; simpl; [|discriminate].
  intros [= <-]. constructor; [done|]. by apply IH.
Qed.

(** The bytes of a string, then its NUL, are what the object starts with. *)
Lemma c_str_spec m s : c_str m = Some s → ∃ rest, m = s ++ 0 :: rest.
Proof.
  revert s. induction m as [|b m IH]; intros s; simpl; [discriminate|].
  destruct (Z.eqb_spec b 0) as [->|Hb]; [intros [= <-]; by exists m|].
  destruct (c_str m) as [s'|]; simpl; [|discriminate].
  intros [= <-]. destruct (IH _ eq_refl) as [rest ->]. by exists rest.
Qed.

(** ** Decimal numbers: the [%d] conversion and [atoi] *)

(** [sprintf("%d", n)] of a non-negative [n]: the digits, most significant
    first; [fuel] bounds the number of digits. *)
Fixpoint dec_go (fuel : nat) (n : Z) (acc : list Z) : list Z :=
  match fuel with
  | O => acc
  | S f =>
      let acc' := (48 + n `mod` 10) :: acc in
      if n `div` 10 =? 0 then acc' else dec_go f (n `div` 10) acc'
  end.

(** The text [%d] prints for an [int]: at most ten digits and a sign. *)
Definition fmt_d (z : Z) : list Z :=
  if z <? 0 then 45 :: dec_go 10 (- z) [] else dec_go 10 z [].

#[global] Arguments fmt_d _ : simpl never.

Definition is_digit (b : Z) : bool := (48 <=? b) && (b <=? 57).

(** isspace() in the C locale. *)
Definition is_space (b : Z) : bool := (b =? 32) || ((9 <=? b) && (b <=? 13)).

Fixpoint skip_space (s : list Z) : list Z :=
  match s with
  | b :: s' => if is_space b then skip_space s' else s
  | [] => []
  end.

(** strtol's digit loop in base ten: the longest run of digits. *)
Fixpoint digits_val (s : list Z) (acc : Z) : Z :=
  match s with
  | b :: s' => if is_digit b then digits_val s' (acc * 10 + (b - 48)) else acc
  | [] => acc
  end.

(** strtol(s, NULL, 10): the result saturates at the limits of a long. *)
Definition strtol (s : list Z) : Z :=
  let s1 := skip_space s in
  let '(sign, s2) :=
    match s1 with
    | b :: s' => if b =? 45 then (-1, s') else if b =? 43 then (1, s') else (1, s1)
    | [] => (1, [])
    end in
  Z.max LONG_MIN (Z.min LONG_MAX (sign * digits_val s2 0)).

(** atoi(s) is [(int)strtol(s, NULL, 10)]. *)
Definition atoi (s : list Z) : Z := s32 (strtol s).

(** ** Tactics and hints *)

(** Case analysis on the integer comparisons of the goal and hypotheses. *)
Ltac zcases :=
  repeat match goal with
  | |- context [?a =? ?b] => destruct (Z.eqb_spec a b)
  | |- context [?a <? ?b] => destruct (Z.ltb_spec a b)
  | |- context [?a <=? ?b] => destruct (Z.leb_spec a b)
  | H : context [?a =? ?b] |- _ => destruct (Z.eqb_spec a b)
  | H : context [?a <? ?b] |- _ => destruct (Z.ltb_spec a b)
  | H : context [?a <=? ?b] |- _ => destruct (Z.leb_spec a b)
  end.

(** Prove a decidable closed proposition by evaluating its decision. *)
Ltac by_compute := refine (bool_decide_unpack _ _); vm_compute; exact I.

(** Peel the binds of a computation that returned [Ok]. *)
Ltac res_inv :=
  repeat match goal with
  | H : (_ ≫= _) = Ok _ |- _ =>
      let x := fresh "x" in let Hx := fresh "Hx" in
      apply bind_Ok_inv in H as (x & Hx & H)
  | H : check _ _ = Ok _ |- _ => apply check_Ok_inv in H
  | H : Ok _ = Ok _ |- _ => injection H as H
  | H : mret _ = Ok _ |- _ => injection H as H
  end.

Create HintDb cwidth.
Create Rewrite HintDb cwidth.

Lemma u8_range z : 0 <= u8 z < 256.
Proof. apply Z.mod_pos_bound. lia. Qed.
Lemma u16_range z : 0 <= u16 z < 65536.
Proof. apply Z.mod_pos_bound. lia. Qed.
Lemma u32_range z : 0 <= u32 z < 4294967296.
Proof. apply Z.mod_pos_bound. lia. Qed.
Lemma u64_range z : 0 <= u64 z < 18446744073709551616.
Proof. apply Z.mod_pos_bound. lia. Qed.
Lemma s32_range z : INT_MIN <= s32 z <= INT_MAX.
Proof.
  unfold s32, INT_MIN, INT_MAX.
  pose proof (Z.mod_pos_bound (z + 2147483648) 4294967296). lia.
Qed.
Lemma u8_is_byte z : is_byte (u8 z).
Proof. apply u8_range. Qed.

Lemma u8_small z : 0 <= z < 256 → u8 z = z.
Proof. intros. by apply Z.mod_small. Qed.
Lemma u16_small z : 0 <= z < 65536 → u16 z = z.
Proof. intros. by apply Z.mod_small. Qed.
Lemma u32_small z : 0 <= z < 4294967296 → u32 z = z.
Proof. intros. by apply Z.mod_small. Qed.
Lemma u64_small z : 0 <= z < 18446744073709551616 → u64 z = z.
Proof. intros. by apply Z.mod_small. Qed.
Lemma s32_small z : INT_MIN <= z <= INT_MAX → s32 z = z.
Proof.
  unfold INT_MIN, INT_MAX, s32. intros. rewrite Z.mod_small by lia. lia.
Qed.
Lemma s8_small z : -128 <= z < 128 → s8 z = z.
Proof. intros. unfold s8. rewrite Z.mod_small by lia. lia. Qed.

#[export] Hint Resolve u8_range u16_range u32_range u64_range s32_range u8_is_byte : cwidth.
#[export] Hint Rewrite u8_small u16_small u32_small u64_small s32_small s8_small
  using (solve [lia | assumption]) : cwidth.

Lemma u8_u8 z : u8 (u8 z) = u8 z.
Proof. apply u8_small, u8_range. Qed.
Lemma u8_add_l a b : u8 (u8 a + b) = u8 (a + b).
Proof. unfold u8. by rewrite Zplus_mod_idemp_l. Qed.
Lemma u8_add_r a b : u8 (a + u8 b) = u8 (a + b).
Proof. unfold u8. by rewrite Zplus_mod_idemp_r. Qed.
Lemma u32_add_l a b : u32 (u32 a + b) = u32 (a + b).
Proof. unfold u32. by rewrite Zplus_mod_idemp_l. Qed.

Lemma mod_cong_s8 a b : a `mod` 256 = b `mod` 256 → s8 a = s8 b.
Proof.
  intros H. unfold s8. f_equal. rewrite <- (Zplus_mod_idemp_l a), H.
  by rewrite Zplus_mod_idemp_l.
Qed.
Lemma s8_mod z : s8 z `mod` 256 = z `mod` 256.
Proof.
  unfold s8. rewrite Zminus_mod_idemp_l. f_equal. lia.
Qed.
Lemma s8_u8 z : s8 (u8 z) = s8 z.
Proof. apply mod_cong_s8. unfold u8. by rewrite Zmod_mod. Qed.
Lemma s8_add a b : s8 (s8 a + s8 b) = s8 (a + b).
Proof.
  apply mod_cong_s8. rewrite Zplus_mod, !s8_mod. by rewrite <- Zplus_mod.
Qed.

(** ** Bit fields as arithmetic *)

Lemma lor_shiftl_add x y k :
  0 <= k → 0 <= y < 2 ^ k → Z.lor (Z.shiftl x k) y = x * 2 ^ k + y.
Proof.
  intros Hk Hy. rewrite <- (Z.shiftl_mul_pow2 x k) by done.
  assert (Z.land (Z.shiftl x k) y = 0) as H0.
  { apply Z.bits_inj'. intros i Hi. rewrite Z.land_spec, Z.bits_0.
    destruct (Z.ltb_spec i k).
    - rewrite Z.shiftl_spec_low by done. done.
    - rewrite <- (Z.mod_small y (2 ^ k)) by done.
      rewrite Z.mod_pow2_bits_high by lia. apply andb_false_r. }
  pose proof (Z.add_lor_land (Z.shiftl x k) y). lia.
Qed.

(** Masks and shifts by constants as remainders and quotients. *)
Lemma land_mask x k m : 0 <= k → m = 2 ^ k - 1 → Z.land x m = x `mod` 2 ^ k.
Proof.
  intros Hk ->. rewrite <- Z.land_ones by done. f_equal. rewrite Z.ones_equiv. lia.
Qed.

(** A mask of the high bits of a byte (or of any [w]-bit value). *)
Lemma land_high x k w m :
  0 <= k <= w → 0 <= x < 2 ^ w → m = 2 ^ w - 2 ^ k →
  Z.land x m = x - x `mod` 2 ^ k.
Proof.
  intros Hk Hx ->. rewrite <- (Z.land_ones x k) by lia.
  assert (Z.land x (2 ^ w - 2 ^ k) + Z.land x (Z.ones k) = x); [|lia].
  assert (Z.land x (2 ^ w - 2 ^ k) = Z.ldiff x (Z.ones k)) as ->.
  { assert (2 ^ w - 2 ^ k = Z.ldiff (Z.ones w) (Z.ones k)) as ->.
    { rewrite Z.ldiff_ones_r by lia.
      replace (Z.shiftr (Z.ones w) k) with (Z.ones (w - k)).
      - rewrite Z.shiftl_mul_pow2, Z.ones_equiv by lia.
        replace (2 ^ w) with (2 ^ (w - k) * 2 ^ k) by (rewrite <- Z.pow_add_r by lia; f_equal; lia).
        lia.
      - rewrite Z.shiftr_div_pow2 by lia. rewrite Z.ones_div_pow2 by lia. done. }
    apply Z.bits_inj'. intros i Hi. rewrite Z.land_spec, !Z.ldiff_spec.
    destruct (Z.ltb_spec i w).
    - rewrite Z.ones_spec_low by lia. done.
    - rewrite <- (Z.mod_small x (2 ^ w)) by done.
      by rewrite Z.mod_pow2_bits_high by lia. }
  rewrite Z.add_nocarry_lxor.
  - apply Z.bits_inj'. intros i Hi. rewrite Z.lxor_spec, Z.ldiff_spec, Z.land_spec.
    by destruct (Z.testbit x i), (Z.testbit (Z.ones k) i).
  - apply Z.bits_inj'. intros i Hi. rewrite Z.land_spec, Z.ldiff_spec, Z.land_spec, Z.bits_0.
    by destruct (Z.testbit x i), (Z.testbit (Z.ones k) i).
Qed.

(** ** Decimal round trip *)

Lemma is_digit_iff b : is_digit b = true ↔ 48 <= b <= 57.
Proof. unfold is_digit. rewrite andb_true_iff, !Z.leb_le. lia. Qed.

Lemma digits_val_app ds rest acc :
  Forall (λ b, is_digit b = true) ds →
  digits_val (ds ++ rest) acc = digits_val rest (digits_val ds acc).
Proof.
  intros Hds. revert acc. induction Hds as [|d ds Hd _ IH]; intros acc; simpl; [done|].
  rewrite Hd. apply IH.
Qed.

Lemma digits_val_stop b rest acc : is_digit b = false → digits_val (b :: rest) acc = acc.
Proof. intros H. simpl. by rewrite H. Qed.

Lemma dec_go_spec fuel n acc :
  0 <= n < 10 ^ Z.of_nat fuel →
  ∃ ds, dec_go fuel n acc = ds ++ acc
      ∧ Forall (λ b, is_digit b = true) ds
      ∧ digits_val ds 0 = n
      ∧ (∀ k : nat, (1 ≤ k)%nat → n < 10 ^ Z.of_nat k → (length ds ≤ k)%nat)
      ∧ (fuel = O ∨ (1 ≤ length ds)%nat).
Proof.
  revert n acc. induction fuel as [|f IH]; intros n acc Hn.
  { exists []. simpl in *. repeat split; try done; try lia; auto. }
  cbn [dec_go].
  assert (Hd : is_digit (48 + n `mod` 10) = true).
  { apply is_digit_iff. pose proof (Z.mod_pos_bound n 10). lia. }
  destruct (Z.eqb_spec (n `div` 10) 0) as [Hq|Hq].
  - exists [48 + n `mod` 10]. split; [done|]. split; [by constructor|].
    split; [|split; [simpl; lia | right; simpl; lia]].
    simpl. rewrite Hd. pose proof (Z.div_mod n 10). lia.
  - rewrite Nat2Z.inj_succ, Z.pow_succ_r in Hn by lia.
    destruct (IH (n `div` 10) ((48 + n `mod` 10) :: acc)) as (ds & -> & Hall & Hval & Hlen & _).
    { split; [apply Z.div_pos; lia|]. apply Z.div_lt_upper_bound; lia. }
    exists (ds ++ [48 + n `mod` 10]).
    repeat split.
    + by rewrite <- app_assoc.
    + apply Forall_app. split; [done|]. by constructor.
    + rewrite digits_val_app by done. rewrite Hval. simpl. rewrite Hd.
      pose proof (Z.div_mod n 10). lia.
    + intros k Hk Hlt. rewrite length_app. simpl.
      destruct k as [|[|k]]; [lia| |].
      * change (10 ^ Z.of_nat 1) with 10 in Hlt. rewrite Z.div_small in Hq by lia. lia.
      * rewrite Nat2Z.inj_succ, Z.pow_succ_r in Hlt by lia.
        assert (length ds ≤ S k)%nat; [|lia]. apply Hlen; [lia|].
        apply Z.div_lt_upper_bound; lia.
    + right. rewrite length_app. simpl. lia.
Qed.

(** The digits [%d] prints for a non-negative int. *)
Lemma fmt_d_spec n :
  0 <= n <= INT_MAX →
  Forall (λ b, is_digit b = true) (fmt_d n)
  ∧ digits_val (fmt_d n) 0 = n
  ∧ (1 ≤ length (fmt_d n))%nat
  ∧ (∀ k : nat, (1 ≤ k)%nat → n < 10 ^ Z.of_nat k → (length (fmt_d n) ≤ k)%nat).
Proof.
  unfold INT_MAX. intros Hn. unfold fmt_d.
  destruct (Z.ltb_spec n 0); [lia|].
  destruct (dec_go_spec 10 n []) as (ds & -> & H1 & H2 & H3 & H4).
  { change (10 ^ Z.of_nat 10) with 10000000000. lia. }
  rewrite app_nil_r. destruct H4; [lia|]. auto.
Qed.

Lemma digit_no_space b : is_digit b = true → is_space b = false ∧ (b =? 45) = false ∧ (b =? 43) = false.
Proof.
  intros H%is_digit_iff. unfold is_space. zcases; simpl; try lia; auto.
Qed.

(** atoi of a text that starts with a run of digits. *)
Lemma atoi_digits ds rest :
  ds ≠ [] → Forall (λ b, is_digit b = true) ds →
  match rest with [] => True | b :: _ => is_digit b = false end →
  0 <= digits_val ds 0 <= INT_MAX →
  atoi (ds ++ rest) = digits_val ds 0.
Proof.
  intros Hne Hds Hrest Hr. unfold atoi.
  assert (strtol (ds ++ rest) = digits_val ds 0) as ->; [|apply s32_small; unfold INT_MIN, INT_MAX in *; lia].
  unfold strtol. destruct ds as [|d ds]; [done|].
  assert (is_digit d = true) as Hd by by inversion Hds.
  destruct (digit_no_space d Hd) as (Hs & Hm & Hp).
  cbn [app skip_space]. rewrite Hs, Hm, Hp.
  change (d :: ds ++ rest) with ((d :: ds) ++ rest).
  rewrite digits_val_app by done.
  assert (∀ a, digits_val rest a = a) as Hstop.
  { intros a. destruct rest as [|b rest]; [done|]. by apply digits_val_stop. }
  rewrite Hstop. unfold LONG_MIN, LONG_MAX, INT_MAX in *. lia.
Qed.

(** [atoi] reads back what [%d] printed. *)
Lemma atoi_fmt_d n rest :
  0 <= n <= INT_MAX →
  match rest with [] => True | b :: _ => is_digit b = false end →
  atoi (fmt_d n ++ rest) = n.
Proof.
  intros Hn Hrest. destruct (fmt_d_spec n Hn) as (H1 & H2 & H3 & _).
  rewrite atoi_digits; try done.
  - intros E. rewrite E in H3. simpl in H3. lia.
  - by rewrite H2.
Qed.

(** ** Properties of all bytes by evaluation *)

Lemma forall_bytes (P : Z → bool) :
  forallb P (seqZ 0 256) = true → ∀ c, is_byte c → P c = true.
Proof.
  intros H c Hc. rewrite forallb_forall in H.
  apply H, list_elem_of_In, elem_of_seqZ. unfold is_byte in Hc. lia.
Qed.

Lemma forall_bytes_dec (P : Z → Prop) `{∀ c, Decision (P c)} :
  forallb (λ c, bool_decide (P c)) (seqZ 0 256) = true → ∀ c, is_byte c → P c.
Proof.
  intros H' c Hc. by apply (forall_bytes _ H'), bool_decide_eq_true in Hc.
Qed.
