(* ===== verification/Packet.v ===== *)
(** * Controller packets of the comlink plugin

    Models plugins/plugin_lws_websocket/functions.h: the checksum of a packet,
    its verification, the split of a packet into fields, the ACK / NACK replies
    and the shell commands that forward a packet.

    A [char *] argument is the list of its bytes without the final NUL; fixed
    size buffers and heap blocks are explicit, and leaving one is
    [Fault OutOfBounds]. *)

From stdpp Require Import base numbers list strings.
From Stdlib Require Import ZArith Lia Ascii.
From S2P Require Import Prelude.

Definition COMMA : Z := 44.

(** ** Checksums *)

(** [checksum(ptr, sz)]: the sum of [sz] bytes, in an unsigned char. *)
Fixpoint checksum_loop (ptr : list Z) (sz : nat) (chk : Z) {struct sz} : res Z :=
  match sz with
  | O => Ok chk
  | S sz' =>
      match ptr with
      | b :: ptr' => checksum_loop ptr' sz' (u8 (chk + b))
      | [] => Fault OutOfBounds
      end
  end.

Definition checksum (ptr : list Z) (sz : nat) : res Z := checksum_loop ptr sz 0.

(** [findLastIndex(str, x)]: one more than the index of the last [x], 0 if
    there is none. *)
Fixpoint findLastIndex_loop (str : list Z) (x : Z) (i : nat) (index : Z) : Z :=
  match str with
  | [] => index
  | b :: str' => findLastIndex_loop str' x (S i) (if b =? x then Z.of_nat i else index)
  end.

Definition findLastIndex (str : list Z) (x : Z) : nat :=
  Z.to_nat (findLastIndex_loop str x 0 (-1) + 1).

(** [hexToInt(hex)]: shifts before every digit but the first; a character that
    is not a hex digit counts as zero. *)
Definition hex_digit (c : Z) : Z :=
  if (47 <? c) && (c <? 58) then c - 48
  else if (64 <? c) && (c <? 71) then c - 55
  else if (96 <? c) && (c <? 103) then c - 87
  else 0.

Fixpoint hexToInt_loop (hex : list Z) (result : Z) : Z :=
  match hex with
  | [] => result
  | c :: hex' =>
      let result := u32 (result + hex_digit c) in
      hexToInt_loop hex'
        (match hex' with [] => result | _ => u32 (Z.shiftl result 4) end)
  end.

Definition hexToInt (hex : list Z) : Z := hexToInt_loop hex 0.

(** The text a packet of type 7 (PC_NOTES) ends with instead of a checksum. *)
Definition EOT : list Z := bs "EOT" ++ [13; 10].

(** [isCRCValid(packetType, packet)].  [packet] is the text of a C string, up
    to its terminator: a list of bytes other than 0, whose length is what
    strlen() gives.  [str] is [unsigned char str[5]]: the
    text after the last comma and its NUL have to fit. *)
Definition isCRCValid (packetType : Z) (packet : list Z) : res bool :=
  let lastindex := findLastIndex packet COMMA in
  let len := length packet in
  checkSum ← checksum packet lastindex;
  str ← memcpy (replicate 5 0) 0 (drop lastindex packet);
  str ← memcpy str (len - lastindex) [0];
  let s := default [] (c_str str) in
  let crcInPacket := atoi s in
  if (packetType =? 7) && bool_decide (s = EOT) then Ok true
  else Ok (crcInPacket =? checkSum).

(** *** The older routines on [char] counters *)

(** Reading [tuBuf[i]] of a NUL-terminated string. *)
Definition str_read (s : list Z) (i : Z) : res Z :=
  if (0 <=? i) && (i <=? Z.of_nat (length s))
  then Ok (nth (Z.to_nat i) s 0) else Fault OutOfBounds.

(** [uCalTCPCheckSum]: the counter is a [char], so it wraps from 127 to -128;
    [fuel] is the number of values it can take before that. *)
Fixpoint uCal_loop (fuel : nat) (tuBuf : list Z) (tuIndex tuCnt tuCheckSum : Z) : res Z :=
  match fuel with
  | O => Fault OutOfBounds
  | S f =>
      if tuCnt <? tuIndex then
        b ← str_read tuBuf tuCnt;
        uCal_loop f tuBuf tuIndex (s8 (tuCnt + 1)) (s8 (tuCheckSum + s8 b))
      else Ok tuCheckSum
  end.

Definition uCalTCPCheckSum (tuBuf : list Z) (tuIndex : Z) : res Z :=
  uCal_loop 130 tuBuf tuIndex 0 0.

(** The scan of [uVerifyCheckSum] for the last comma, with a [char] index. *)
Fixpoint uVerify_scan (fuel : nat) (tuBuf : list Z) (tuIndex tuCheckSumIndex : Z) : res Z :=
  match fuel with
  | O => Fault OutOfBounds
  | S f =>
      b ← str_read tuBuf tuIndex;
      if b =? 0 then Ok tuCheckSumIndex
      else uVerify_scan f tuBuf (s8 (tuIndex + 1))
             (if b =? COMMA then s8 (tuIndex + 1) else tuCheckSumIndex)
  end.

Definition uVerifyCheckSum (tuBuf : list Z) : res Z :=
  tuCheckSumIndex ← uVerify_scan 130 tuBuf 0 0;
  tuCalCheckSum ← uCalTCPCheckSum tuBuf tuCheckSumIndex;
  tail ← (if 0 <=? tuCheckSumIndex
          then Ok (drop (Z.to_nat tuCheckSumIndex) tuBuf) else Fault OutOfBounds);
  let tuRcvdCheckSum := s8 (atoi tail) in
  Ok (if tuRcvdCheckSum =? tuCalCheckSum then 1 else 0).

(** ** Splitting a packet into fields *)

(** strtok(): skip delimiters, then take the bytes up to the next one; the
    scan resumes after it. *)
Fixpoint strtok_skip (d : Z) (s : list Z) : list Z :=
  match s with
  | b :: s' => if b =? d then strtok_skip d s' else s
  | [] => []
  end.

Fixpoint strtok_word (d : Z) (s : list Z) : list Z * list Z :=
  match s with
  | [] => ([], [])
  | b :: s' =>
      if b =? d then ([], s')
      else let '(w, rest) := strtok_word d s' in (b :: w, rest)
  end.

Definition strtok (d : Z) (s : list Z) : option (list Z * list Z) :=
  match strtok_skip d s with
  | [] => None
  | s1 => Some (strtok_word d s1)
  end.

(** The counting loop of [str_split]: how many delimiters, and the position of
    the last one. *)
Fixpoint split_scan (d : Z) (s : list Z) (i count : nat) (last : option nat) : nat * option nat :=
  match s with
  | [] => (count, last)
  | b :: s' =>
      if b =? d then split_scan d s' (S i) (S count) (Some i)
      else split_scan d s' (S i) count last
  end.

(** The number of slots allocated: one per delimiter, one for a trailing token
    ([last_comma < a_str + strlen(a_str) - 1], true when it is NULL), one for
    the final NULL. *)
Definition split_count (d : Z) (s : list Z) : nat :=
  let '(count, last) := split_scan d s 0 0 None in
  let trailing :=
    match last with
    | None => true
    | Some i => Z.of_nat i <? Z.of_nat (length s) - 1
    end in
  (count + (if trailing then 1 else 0) + 1)%nat.

(** The token loop; [ndebug] says whether assert() is compiled out.  [fuel] is
    more than the number of tokens of [s]. *)
Fixpoint split_loop (ndebug : bool) (fuel : nat) (d : Z) (s : list Z) (idx count : nat)
    (result : list (list Z)) : res (list (list Z)) :=
  match fuel with
  | O => Fault OutOfBounds
  | S f =>
      match strtok d s with
      | Some (token, rest) =>
          _ ← check (ndebug || bool_decide (idx < count)%nat) AssertFailed;
          _ ← check (bool_decide (idx < count)%nat) OutOfBounds;
          split_loop ndebug f d rest (S idx) count (result ++ [token])
      | None =>
          _ ← check (ndebug || bool_decide (idx = count - 1)%nat) AssertFailed;
          _ ← check (bool_decide (idx < count)%nat) OutOfBounds;
          Ok result
      end
  end.

(** [str_split(a_str, a_delim)]: the array of copied tokens, up to its NULL. *)
Definition str_split (ndebug : bool) (a_str : list Z) (a_delim : Z) : res (list (list Z)) :=
  split_loop ndebug (S (length a_str)) a_delim a_str 0 (split_count a_delim a_str) [].

(** [concat(s1, s2)]. *)
Definition concat (s1 s2 : list Z) : list Z := s1 ++ s2.

(** ** Replies and commands *)

(** strcat onto a string in a buffer of [cap] bytes. *)
Definition strcat (cap : nat) (temp s : list Z) : res (list Z) :=
  if bool_decide (length temp + length s < cap)%nat
  then Ok (temp ++ s) else Fault OutOfBounds.

Definition getRedisCommand (host port key packet : list Z) : res (list Z) :=
  temp ← strcat 200 [] (bs "/usr/local/bin/redisClient -h ");
  temp ← strcat 200 temp host;
  temp ← strcat 200 temp (bs " -p ");
  temp ← strcat 200 temp port;
  temp ← strcat 200 temp (bs " -k ");
  temp ← strcat 200 temp key;
  temp ← strcat 200 temp (bs " -v ");
  temp ← strcat 200 temp packet;
  strcat 200 temp (bs " &").

Definition getHttpCommand (host packet : list Z) : res (list Z) :=
  temp ← strcat 200 [] (bs "wget --post-data ");
  temp ← strcat 200 temp (bs "packet=");
  temp ← strcat 200 temp packet;
  temp ← strcat 200 temp (bs " ");
  temp ← strcat 200 temp host;
  strcat 200 temp (bs " --connect-timeout=5 --tries=2 -O /dev/null &").

(** sprintf into a buffer of [cap] bytes. *)
Definition sprintf (cap : nat) (text : list Z) : res (list Z) :=
  if bool_decide (length text < cap)%nat then Ok text else Fault OutOfBounds.

(** The checksum as a decimal text of three digits, in [char chk_[5]]. *)
Definition chk_text (chk : Z) : res (list Z) :=
  if chk <=? 9 then sprintf 5 (bs "00" ++ fmt_d chk)
  else if chk <=? 99 then sprintf 5 (bs "0" ++ fmt_d chk)
  else sprintf 5 (fmt_d chk).

(** [getACK(pType)]: into [char packetType[4]] and a block of 20 bytes. *)
Definition getACK (pType : Z) : res (list Z) :=
  packetType ← sprintf 4 (fmt_d pType);
  ack ← strcat 20 [] (bs "11,");
  ack ← strcat 20 ack packetType;
  ack ← strcat 20 ack (bs ",");
  chk ← checksum ack (length ack);
  chk_ ← chk_text chk;
  ack ← strcat 20 ack chk_;
  strcat 20 ack (bs ",@~!11").

(** [getNck(pType)]: the same with the code 16. *)
Definition getNck (pType : Z) : res (list Z) :=
  packetType ← sprintf 4 (fmt_d pType);
  nack ← strcat 20 [] (bs "16,");
  nack ← strcat 20 nack packetType;
  nack ← strcat 20 nack (bs ",");
  chk ← checksum nack (length nack);
  chk_ ← chk_text chk;
  nack ← strcat 20 nack chk_;
  strcat 20 nack (bs ",@~!16").

(** ** Lemmas: checksums *)

Definition bsum (l : list Z) : Z := foldr Z.add 0 l.

Lemma bsum_app l1 l2 : bsum (l1 ++ l2) = bsum l1 + bsum l2.
Proof. unfold bsum. induction l1 as [|x l1 IH]; simpl; [done|]. rewrite IH. lia. Qed.

Lemma checksum_loop_spec ptr sz chk :
  (sz ≤ length ptr)%nat → 0 <= chk < 256 →
  checksum_loop ptr sz chk = Ok (u8 (chk + bsum (take sz ptr))).
Proof.
  revert ptr chk. induction sz as [|sz IH]; intros ptr chk Hsz Hc; simpl.
  { change (bsum []) with 0. rewrite Z.add_0_r, u8_small by done. done. }
  destruct ptr as [|b ptr]; simpl in *; [lia|].
  rewrite IH by (auto with cwidth; lia).
  rewrite u8_add_l. do 2 f_equal. fold (bsum (take sz ptr)). lia.
Qed.

Lemma checksum_spec ptr sz :
  (sz ≤ length ptr)%nat → checksum ptr sz = Ok (u8 (bsum (take sz ptr))).
Proof. intros. unfold checksum. by rewrite checksum_loop_spec by lia. Qed.

Lemma checksum_all p : checksum p (length p) = Ok (u8 (bsum p)).
Proof. rewrite checksum_spec by done. by rewrite firstn_all. Qed.

Lemma findLastIndex_loop_none s x i acc :
  x ∉ s → findLastIndex_loop s x i acc = acc.
Proof.
  revert i acc. induction s as [|b s IH]; intros i acc Hx; simpl; [done|].
  apply not_elem_of_cons in Hx as [Hb Hs]. rewrite IH by done.
  destruct (Z.eqb_spec b x); congruence.
Qed.

Lemma findLastIndex_loop_app s1 s2 x i acc :
  findLastIndex_loop (s1 ++ s2) x i acc
  = findLastIndex_loop s2 x (i + length s1) (findLastIndex_loop s1 x i acc).
Proof.
  revert i acc. induction s1 as [|b s1 IH]; intros i acc; simpl.
  { by rewrite Nat.add_0_r. }
  rewrite IH. f_equal. lia.
Qed.

Lemma findLastIndex_last body tail x :
  x ∉ tail → findLastIndex (body ++ x :: tail) x = S (length body).
Proof.
  intros Hx. unfold findLastIndex. rewrite findLastIndex_loop_app. simpl.
  rewrite findLastIndex_loop_none by done. rewrite Z.eqb_refl. lia.
Qed.

Lemma findLastIndex_none s x : x ∉ s → findLastIndex s x = O.
Proof. intros. unfold findLastIndex. by rewrite findLastIndex_loop_none. Qed.

(** The copy of the tail into [str[5]], read back as a string. *)
Lemma crc_tail_copy (tail : list Z) :
  no_nul tail → (length tail < 5)%nat →
  ∃ m1 m2, memcpy (replicate 5 0) 0 tail = Ok m1
         ∧ memcpy m1 (length tail) [0] = Ok m2 ∧ c_str m2 = Some tail.
Proof.
  intros Hnul Hlen.
  destruct tail as [|a [|b [|c [|d [|e tail]]]]]; simpl in Hlen; try lia;
    do 2 eexists; (split; [vm_compute; reflexivity|]);
    (split; [vm_compute; reflexivity|]);
    match goal with
    | |- c_str ?m = Some ?t => change m with (t ++ 0 :: drop (S (length t)) m)
    end; by apply c_str_terminated.
Qed.

Lemma isCRCValid_eq t body tail :
  COMMA ∉ tail → no_nul tail →
  isCRCValid t (body ++ COMMA :: tail)
  = if bool_decide (length tail < 5)%nat
    then Ok (atoi tail =? u8 (bsum body + COMMA)) else Fault OutOfBounds.
Proof.
  intros Hc Hn. unfold isCRCValid. rewrite findLastIndex_last by done.
  replace (body ++ COMMA :: tail) with ((body ++ [COMMA]) ++ tail) by by rewrite <- app_assoc.
  assert (S (length body) = length (body ++ [COMMA])) as -> by (rewrite length_app; simpl; lia).
  rewrite checksum_spec by (rewrite (length_app _ tail); lia).
  rewrite take_app_length, drop_app_length, res_bind_ok, (length_app _ tail).
  replace (length (body ++ [COMMA]) + length tail - length (body ++ [COMMA]))%nat
    with (length tail) by lia.
  case_bool_decide as H5.
  - destruct (crc_tail_copy tail Hn H5) as (m1 & m2 & -> & Hm2 & Hs).
    rewrite res_bind_ok, Hm2, res_bind_ok, Hs. simpl.
    rewrite (bool_decide_false (tail = EOT)) by (intros ->; vm_compute in H5; lia).
    rewrite andb_false_r. by rewrite bsum_app.
  - destruct (decide (length tail = 5)%nat) as [E|E].
    + rewrite memcpy_Ok by (rewrite length_replicate; lia). rewrite res_bind_ok.
      rewrite memcpy_Fault; [done|].
      rewrite length_blit by (rewrite length_replicate; lia). rewrite length_replicate. simpl. lia.
    + rewrite memcpy_Fault by (rewrite length_replicate; lia). done.
Qed.

(** ** Lemmas: the three-digit checksum text *)

Definition chk_text_ok (c : Z) : bool :=
  match chk_text c with
  | Ok t => bool_decide (length t = 3%nat) && forallb is_digit t && (digits_val t 0 =? c)
  | Fault _ => false
  end.

Lemma chk_text_spec c :
  is_byte c →
  ∃ t, chk_text c = Ok t ∧ length t = 3%nat
     ∧ Forall (λ b, is_digit b = true) t ∧ digits_val t 0 = c.
Proof.
  intros Hc.
  assert (forallb chk_text_ok (seqZ 0 256) = true) as Hall by (vm_compute; reflexivity).
  rewrite forallb_forall in Hall.
  assert (chk_text_ok c = true) as H.
  { apply Hall, list_elem_of_In, elem_of_seqZ. unfold is_byte in Hc. lia. }
  unfold chk_text_ok in H. destruct (chk_text c) as [t|]; [|discriminate].
  apply andb_true_iff in H as [[H1 H2]%andb_true_iff H3].
  exists t. repeat split.
  - by apply bool_decide_eq_true in H1.
  - apply Forall_forall. intros x Hx. rewrite forallb_forall in H2.
    apply H2. by apply list_elem_of_In.
  - by apply Z.eqb_eq.
Qed.

Lemma digits_no_comma (t : list Z) : Forall (λ b, is_digit b = true) t → (COMMA ∉ t) ∧ no_nul t.
Proof.
  intros H. split.
  - intros Hin. rewrite Forall_forall in H. apply H, is_digit_iff in Hin. unfold COMMA in *. lia.
  - eapply Forall_impl; [exact H|]. simpl. intros b Hb%is_digit_iff. lia.
Qed.

Lemma atoi_chk_text c t :
  is_byte c → chk_text c = Ok t → atoi t = c.
Proof.
  intros Hc Ht. destruct (chk_text_spec c Hc) as (t' & E & Hlen & Hd & Hv).
  assert (t' = t) as -> by congruence.
  rewrite <- (app_nil_r t), atoi_digits; try done.
  - by intros ->.
  - rewrite Hv. unfold is_byte, INT_MAX in *. lia.
Qed.

Lemma isCRCValid_chk_text ty body t :
  chk_text (u8 (bsum body + COMMA)) = Ok t →
  isCRCValid ty (body ++ COMMA :: t) = Ok true.
Proof.
  intros Ht. pose proof (u8_is_byte (bsum body + COMMA)) as Hb.
  destruct (chk_text_spec _ Hb) as (t' & E & Hlen & Hd & Hv).
  assert (t' = t) as -> by congruence.
  destruct (digits_no_comma t Hd) as [Hc Hn].
  rewrite isCRCValid_eq by done. rewrite bool_decide_true by lia.
  rewrite (atoi_chk_text _ _ Hb Ht), Z.eqb_refl. done.
Qed.

(** Two bytes that are congruent modulo 256 are equal. *)
Lemma byte_diff x y a : is_byte x → is_byte y → u8 (a + x) = u8 (a + y) → x = y.
Proof.
  unfold is_byte, u8. intros Hx Hy H.
  pose proof (Z.div_mod (a + x) 256). pose proof (Z.div_mod (a + y) 256). lia.
Qed.

(** ** Lemmas: tokens *)

(** Fields joined by the delimiter. *)
Fixpoint join (d : Z) (toks : list (list Z)) : list Z :=
  match toks with
  | [] => []
  | [t] => t
  | t :: toks' => t ++ d :: join d toks'
  end.

Definition good_token (d : Z) (t : list Z) : Prop := t ≠ [] ∧ d ∉ t.

Lemma strtok_word_app d t rest :
  d ∉ t → strtok_word d (t ++ d :: rest) = (t, rest).
Proof.
  induction t as [|b t IH]; intros Hd; simpl; [by rewrite Z.eqb_refl|].
  apply not_elem_of_cons in Hd as [Hb Ht].
  destruct (Z.eqb_spec b d); [congruence|]. by rewrite IH.
Qed.

Lemma strtok_word_end d t : d ∉ t → strtok_word d t = (t, []).
Proof.
  induction t as [|b t IH]; intros Hd; simpl; [done|].
  apply not_elem_of_cons in Hd as [Hb Ht].
  destruct (Z.eqb_spec b d); [congruence|]. by rewrite IH.
Qed.

Lemma strtok_good d t s :
  good_token d t → strtok d (t ++ s) = Some (strtok_word d (t ++ s)).
Proof.
  intros [Hne Hd]. destruct t as [|b t]; [done|]. unfold strtok. simpl.
  apply not_elem_of_cons in Hd as [Hb _].
  by rewrite !(proj2 (Z.eqb_neq b d)) by done.
Qed.

Fixpoint delims (d : Z) (s : list Z) : nat :=
  match s with
  | [] => O
  | b :: s' => if b =? d then S (delims d s') else delims d s'
  end.

Lemma split_scan_count d s i c l : (split_scan d s i c l).1 = (c + delims d s)%nat.
Proof.
  revert i c l. induction s as [|b s IH]; intros i c l; simpl; [lia|].
  destruct (b =? d); rewrite IH; simpl; lia.
Qed.

Lemma split_scan_last d s i c l :
  (split_scan d s i c l).2
  = match findLastIndex_loop s d i (-1) with
    | Zneg _ => l
    | z => Some (Z.to_nat z)
    end.
Proof.
  revert i c l. induction s as [|b s IH] using rev_ind; intros i c l; [done|].
  rewrite findLastIndex_loop_app. simpl.
  assert (split_scan d (s ++ [b]) i c l
    = let '(c', l') := split_scan d s i c l in
      split_scan d [b] (i + length s) c' l') as ->.
  { clear. revert i c l. induction s as [|x s IH]; intros i c l; simpl.
    - by rewrite Nat.add_0_r.
    - destruct (x =? d); rewrite IH;
        replace (S i + length s)%nat with (i + S (length s))%nat by lia; done. }
  specialize (IH i c l). destruct (split_scan d s i c l) as [c' l']. simpl in *.
  destruct (b =? d); simpl; [|done].
  destruct (Z.of_nat (i + length s)) eqn:E; try lia; f_equal; lia.
Qed.

(** Does the text end in the middle of a field? *)
Definition open_end (d : Z) (s : list Z) : bool :=
  match last s with None => false | Some b => negb (b =? d) end.

Lemma split_count_spec d s :
  s ≠ [] → split_count d s = (delims d s + (if open_end d s then 1 else 0) + 1)%nat.
Proof.
  intros Hne. unfold split_count.
  pose proof (split_scan_count d s 0 0 None) as H1.
  pose proof (split_scan_last d s 0 0 None) as H2.
  destruct (split_scan d s 0 0 None) as [c l]. simpl in *. subst c. simpl.
  destruct (exists_last Hne) as (s' & b & ->).
  unfold open_end. rewrite last_snoc.
  rewrite findLastIndex_loop_app in H2. simpl in H2. rewrite length_app. simpl.
  assert (∀ i : nat, findLastIndex_loop s' d 0 (-1) <= Z.of_nat (length s') - 1) as Hub.
  { intros _. clear. rewrite <- (rev_involutive s').
    induction (rev s') as [|x r IH]; simpl; [lia|].
    rewrite findLastIndex_loop_app, length_app. simpl. destruct (x =? d); lia. }
  specialize (Hub O).
  destruct (Z.eqb_spec b d) as [->|Hb]; simpl.
  - destruct (Z.of_nat (length s')) eqn:E; subst l; try lia;
      rewrite (proj2 (Z.ltb_ge _ _)) by lia; lia.
  - destruct (findLastIndex_loop s' d 0 (-1)) eqn:E; subst l;
      try rewrite (proj2 (Z.ltb_lt _ _)) by lia; lia.
Qed.

(** All the tokens strtok() finds. *)
Fixpoint tokens (fuel : nat) (d : Z) (s : list Z) : list (list Z) :=
  match fuel with
  | O => []
  | S f =>
      match strtok d s with
      | Some (t, rest) => t :: tokens f d rest
      | None => []
      end
  end.

Lemma strtok_skip_spec d s :
  ∃ k : nat, s = replicate k d ++ strtok_skip d s
    ∧ (∀ b s', strtok_skip d s = b :: s' → b ≠ d).
Proof.
  induction s as [|b s (k & IH1 & IH2)]; simpl.
  { by exists O. }
  destruct (Z.eqb_spec b d) as [->|Hb].
  - exists (S k). simpl. split; [by rewrite <- IH1|done].
  - exists O. split; [done|]. intros ?? [= <- <-]. done.
Qed.

Lemma strtok_word_spec d s t rest :
  strtok_word d s = (t, rest) →
  (d ∉ t) ∧ (s = t ++ d :: rest ∨ (s = t ∧ rest = [])).
Proof.
  revert t rest. induction s as [|b s IH]; intros t rest; simpl.
  { intros [= <- <-]. split; [apply not_elem_of_nil|by right]. }
  destruct (Z.eqb_spec b d) as [->|Hb].
  { intros [= <- <-]. split; [apply not_elem_of_nil|by left]. }
  destruct (strtok_word d s) as [w r]. intros [= <- <-].
  destruct (IH w r eq_refl) as [Hd Hs]. split.
  - apply not_elem_of_cons. split; [congruence|done].
  - destruct Hs as [->|[-> ->]]; [by left|by right].
Qed.

Lemma strtok_spec d s t rest :
  strtok d s = Some (t, rest) →
  good_token d t
  ∧ ∃ k : nat, s = replicate k d ++ t ++ d :: rest ∨ (s = replicate k d ++ t ∧ rest = []).
Proof.
  unfold strtok. destruct (strtok_skip_spec d s) as (k & Hs & Hb).
  destruct (strtok_skip d s) as [|b s'] eqn:E; [discriminate|].
  intros H. assert (strtok_word d (b :: s') = (t, rest)) as H' by congruence.
  destruct (strtok_word_spec _ _ _ _ H') as [Hd Ht]. split.
  - split; [|done]. intros ->. specialize (Hb _ _ eq_refl).
    destruct Ht as [[= ? ?]|[? ?]]; [congruence|done].
  - exists k. rewrite Hs. destruct Ht as [->|[-> ->]]; [by left|by right].
Qed.

Lemma strtok_none d s : strtok d s = None → ∃ k : nat, s = replicate k d.
Proof.
  unfold strtok. destruct (strtok_skip_spec d s) as (k & Hs & _).
  destruct (strtok_skip d s); [|discriminate]. intros _. exists k. by rewrite Hs, app_nil_r.
Qed.

Lemma split_loop_spec nd fuel d s idx count result :
  (length s < fuel)%nat → (idx + length (tokens fuel d s) < count)%nat →
  split_loop nd fuel d s idx count result
  = if nd || bool_decide (idx + length (tokens fuel d s) = count - 1)%nat
    then Ok (result ++ tokens fuel d s) else Fault AssertFailed.
Proof.
  revert s idx result. induction fuel as [|f IH]; intros s idx result Hf Hc; [lia|].
  simpl in *. destruct (strtok d s) as [[t rest]|] eqn:E; simpl in *.
  - rewrite (bool_decide_true (idx < count)%nat) by lia. rewrite orb_true_r. simpl.
    assert (length rest < length s)%nat as Hlt.
    { apply strtok_spec in E as [[Hne _] (k & [->|[-> ->]])];
        rewrite ?length_app; simpl; destruct t; simpl in *; try done; lia. }
    rewrite IH by lia. rewrite <- app_assoc. simpl.
    by rewrite Nat.add_succ_r.
  - rewrite Nat.add_0_r in *. rewrite (bool_decide_true (idx < count)%nat) by lia.
    rewrite app_nil_r. by destruct (nd || _).
Qed.

Lemma delims_app d s1 s2 : delims d (s1 ++ s2) = (delims d s1 + delims d s2)%nat.
Proof. induction s1 as [|b s1 IH]; simpl; [done|]. destruct (b =? d); rewrite IH; lia. Qed.

Lemma delims_replicate d k : delims d (replicate k d) = k.
Proof. induction k as [|k IH]; simpl; [done|]. by rewrite Z.eqb_refl, IH. Qed.

Lemma delims_none d s : d ∉ s → delims d s = O.
Proof.
  induction s as [|b s IH]; intros H; simpl; [done|].
  apply not_elem_of_cons in H as [Hb Hs].
  rewrite (proj2 (Z.eqb_neq b d)) by done. auto.
Qed.

Lemma open_end_app d s1 s2 : s2 ≠ [] → open_end d (s1 ++ s2) = open_end d s2.
Proof.
  intros Hne. destruct (exists_last Hne) as (s' & b & ->).
  unfold open_end. by rewrite app_assoc, !last_snoc.
Qed.

Lemma open_end_good d t : good_token d t → open_end d t = true.
Proof.
  intros [Hne Hd]. destruct (exists_last Hne) as (s' & b & ->).
  unfold open_end. rewrite last_snoc. apply not_elem_of_app in Hd as [_ Hb].
  apply not_elem_of_cons in Hb as [Hb _]. by rewrite (proj2 (Z.eqb_neq b d)).
Qed.

Lemma open_end_delim d s rest : open_end d (s ++ d :: rest) = open_end d rest.
Proof.
  destruct rest as [|b rest].
  - unfold open_end. rewrite last_snoc. by rewrite Z.eqb_refl.
  - rewrite open_end_app by done. change (d :: b :: rest) with ([d] ++ (b :: rest)).
    by rewrite open_end_app.
Qed.

(** There are at most as many tokens as fields; as many means no field is
    empty. *)
Lemma tokens_count fuel d s :
  (length s < fuel)%nat →
  let n := (delims d s + (if open_end d s then 1 else 0))%nat in
  (length (tokens fuel d s) ≤ n)%nat
  ∧ (length (tokens fuel d s) = n →
     s = join d (tokens fuel d s)
     ∨ (tokens fuel d s ≠ [] ∧ s = join d (tokens fuel d s) ++ [d])).
Proof.
  revert s. induction fuel as [|f IH]; intros s Hf; [lia|]. simpl.
  destruct (strtok d s) as [[t rest]|] eqn:E.
  - destruct (strtok_spec _ _ _ _ E) as [Hg (k & [->|[-> ->]])]; clear E.
    + rewrite !length_app in Hf. simpl in Hf.
      destruct (IH rest) as [IH1 IH2]; [lia|].
      rewrite !delims_app, delims_replicate, (delims_none d t) by apply Hg.
      rewrite app_assoc, open_end_delim. simpl. rewrite Z.eqb_refl.
      split; [lia|]. intros Heq. assert (k = O) as -> by lia. simpl.
      destruct IH2 as [IH2|[IHn IH2]]; [lia| |]; destruct (tokens f d rest) as [|t' ts] eqn:Et.
      * right. split; [done|]. by rewrite IH2.
      * left. by rewrite IH2 at 1.
      * done.
      * right. split; [done|]. rewrite IH2 at 1. by rewrite <- !app_assoc.
    + destruct f as [|f]; [rewrite length_app in Hf; destruct t; [by destruct Hg|simpl in Hf; lia]|].
      rewrite delims_app, delims_replicate, (delims_none d t) by apply Hg.
      rewrite open_end_app by apply Hg. rewrite open_end_good by done. simpl.
      split; [lia|]. intros Heq. assert (k = O) as -> by lia. by left.
  - destruct (strtok_none _ _ E) as [k ->]. simpl. rewrite delims_replicate.
    split; [lia|]. intros Heq. assert (k = O) as -> by lia. by left.
Qed.

Lemma tokens_good fuel d s : Forall (good_token d) (tokens fuel d s).
Proof.
  revert s. induction fuel as [|f IH]; intros s; simpl; [constructor|].
  destruct (strtok d s) as [[t rest]|] eqn:E; [|constructor].
  constructor; [|apply IH]. by apply strtok_spec in E as [? _].
Qed.

Lemma tokens_join fuel d toks e :
  Forall (good_token d) toks → toks ≠ [] → (length (join d toks ++ e) < fuel)%nat →
  e = [] ∨ e = [d] → tokens fuel d (join d toks ++ e) = toks.
Proof.
  intros Hg. revert fuel. induction Hg as [|t toks Ht Hts IH]; intros fuel Hne Hf He; [done|].
  destruct fuel as [|f]; [lia|].
  destruct toks as [|t' toks].
  - cbn [join] in *. simpl. rewrite strtok_good by done.
    destruct He as [-> | ->].
    + rewrite app_nil_r, strtok_word_end by apply Ht. by destruct f.
    + rewrite strtok_word_app by apply Ht. by destruct f.
  - change (join d (t :: t' :: toks)) with (t ++ d :: join d (t' :: toks)) in *.
    rewrite <- app_assoc, <- app_comm_cons in *. rewrite length_app in Hf. cbn [length] in Hf.
    cbn [tokens]. rewrite strtok_good, strtok_word_app by (done || apply Ht).
    f_equal. apply IH; [done|lia|done].
Qed.

Lemma join_shape d toks e :
  Forall (good_token d) toks → toks ≠ [] → e = [] ∨ e = [d] →
  S (length toks) = split_count d (join d toks ++ e).
Proof.
  intros Hg Hne He. rewrite split_count_spec.
  2: { inversion Hg as [|t ts Ht]; subst; [done|].
       destruct t as [|b t]; [by destruct Ht|]. by destruct ts. }
  rewrite delims_app.
  assert (delims d (join d toks) = length toks - 1 ∧ open_end d (join d toks) = true)%nat as [-> Ho].
  { clear e He. induction Hg as [|t toks Ht Hts IH]; [done|].
    destruct toks as [|t' toks].
    - cbn [join]. rewrite delims_none by apply Ht. by rewrite open_end_good.
    - destruct IH as [IH1 IH2]; [done|].
      change (join d (t :: t' :: toks)) with (t ++ d :: join d (t' :: toks)).
      rewrite delims_app, open_end_delim, delims_none by apply Ht.
      cbn [delims]. rewrite Z.eqb_refl, IH1. simpl. split; [lia|done]. }
  destruct toks as [|t toks]; [done|].
  destruct He as [-> | ->].
  - rewrite app_nil_r, Ho. cbn [delims length]. lia.
  - unfold open_end. rewrite last_snoc. cbn [delims length]. rewrite Z.eqb_refl. simpl. lia.
Qed.

(** ** Lemmas: the [char] counters *)

Lemma str_read_Ok s (i : nat) : (i ≤ length s)%nat → str_read s (Z.of_nat i) = Ok (nth i s 0).
Proof.
  intros. unfold str_read. rewrite (proj2 (Z.leb_le _ _)), (proj2 (Z.leb_le _ _)) by lia.
  by rewrite Nat2Z.id.
Qed.

Lemma uVerify_scan_spec fuel s (i : nat) acc :
  no_nul s → (i ≤ length s ≤ 127)%nat → (length s - i < fuel)%nat → -1 <= acc < 127 →
  uVerify_scan fuel s (Z.of_nat i) (acc + 1)
  = Ok (findLastIndex_loop (drop i s) COMMA i acc + 1).
Proof.
  intros Hn. revert i acc. induction fuel as [|f IH]; intros i acc Hi Hf Ha; [lia|].
  cbn [uVerify_scan]. rewrite str_read_Ok by lia. rewrite res_bind_ok.
  destruct (decide (i = length s)) as [->|Hne].
  { rewrite nth_overflow by lia. rewrite drop_all. done. }
  destruct (lookup_lt_is_Some_2 s i) as [b Hb]; [lia|].
  rewrite (nth_lookup_Some _ _ 0 _ Hb).
  rewrite (drop_S s b i) by done. cbn [findLastIndex_loop].
  assert (b ≠ 0) as Hb0 by (eapply Forall_lookup_1 in Hn; eauto).
  rewrite (proj2 (Z.eqb_neq b 0)) by done.
  rewrite s8_small by lia. replace (Z.of_nat i + 1) with (Z.of_nat (S i)) by lia.
  rewrite <- IH by (destruct (b =? COMMA); lia).
  destruct (b =? COMMA); [|done]. f_equal. lia.
Qed.

Lemma uCal_loop_spec fuel s (n i : nat) acc :
  (i ≤ n ≤ length s)%nat → (n ≤ 127)%nat → (n - i < fuel)%nat →
  uCal_loop fuel s (Z.of_nat n) (Z.of_nat i) (s8 acc)
  = Ok (s8 (acc + bsum (take (n - i) (drop i s)))).
Proof.
  revert i acc. induction fuel as [|f IH]; intros i acc Hi Hn Hf; [lia|].
  cbn [uCal_loop]. destruct (Z.ltb_spec (Z.of_nat i) (Z.of_nat n)).
  - rewrite str_read_Ok by lia. rewrite res_bind_ok.
    destruct (lookup_lt_is_Some_2 s i) as [b Hb]; [lia|].
    rewrite (nth_lookup_Some _ _ 0 _ Hb), s8_add.
    rewrite s8_small by lia. replace (Z.of_nat i + 1) with (Z.of_nat (S i)) by lia.
    rewrite IH by lia. rewrite (drop_S s b i) by done.
    replace (n - i)%nat with (S (n - S i)) by lia. cbn [take bsum foldr].
    do 2 f_equal. fold (bsum (take (n - S i) (drop (S i) s))). lia.
  - replace (n - i)%nat with O by lia. cbn. by rewrite Z.add_0_r.
Qed.

Lemma uVerifyCheckSum_eq body tail :
  no_nul (body ++ COMMA :: tail) → COMMA ∉ tail → (length body + length tail < 127)%nat →
  uVerifyCheckSum (body ++ COMMA :: tail)
  = Ok (if s8 (atoi tail) =? s8 (bsum body + COMMA) then 1 else 0).
Proof.
  intros Hn Hc Hl. unfold uVerifyCheckSum.
  assert (length (body ++ COMMA :: tail) = length body + S (length tail))%nat as Hlen
    by (rewrite length_app; done).
  change (uVerify_scan 130 (body ++ COMMA :: tail) 0 0)
    with (uVerify_scan 130 (body ++ COMMA :: tail) (Z.of_nat 0) (-1 + 1)).
  rewrite uVerify_scan_spec by (done || lia). rewrite drop_0, res_bind_ok.
  pose proof (findLastIndex_last body tail COMMA Hc) as Hfl. unfold findLastIndex in Hfl.
  replace (findLastIndex_loop (body ++ COMMA :: tail) COMMA 0 (-1) + 1)
    with (Z.of_nat (S (length body))) by lia.
  unfold uCalTCPCheckSum.
  change (uCal_loop 130 (body ++ COMMA :: tail) (Z.of_nat (S (length body))) 0 0)
    with (uCal_loop 130 (body ++ COMMA :: tail) (Z.of_nat (S (length body))) (Z.of_nat 0) (s8 0)).
  rewrite uCal_loop_spec by lia. rewrite drop_0, res_bind_ok, Nat.sub_0_r.
  rewrite (proj2 (Z.leb_le _ _)) by lia. rewrite res_bind_ok, Nat2Z.id.
  replace (body ++ COMMA :: tail) with ((body ++ [COMMA]) ++ tail) by by rewrite <- app_assoc.
  replace (S (length body)) with (length (body ++ [COMMA])) by (rewrite length_app; simpl; lia).
  rewrite take_app_length, drop_app_length. rewrite bsum_app. done.
Qed.

(** ** Lemmas: bounded string building *)

Lemma strcat_Ok cap temp s :
  (length temp + length s < cap)%nat → strcat cap temp s = Ok (temp ++ s).
Proof. intros. unfold strcat. by rewrite bool_decide_true. Qed.

Lemma strcat_Fault cap temp s :
  (cap ≤ length temp + length s)%nat → strcat cap temp s = Fault OutOfBounds.
Proof. intros. unfold strcat. rewrite bool_decide_false by lia. done. Qed.

Lemma sprintf_Ok cap t : (length t < cap)%nat → sprintf cap t = Ok t.
Proof. intros. unfold sprintf. by rewrite bool_decide_true. Qed.

Lemma fmt_d_3 n : 0 <= n <= 999 → (1 ≤ length (fmt_d n) ≤ 3)%nat.
Proof.
  intros Hn. destruct (fmt_d_spec n) as (_ & _ & H1 & H2); [unfold INT_MAX; lia|].
  split; [done|]. apply (H2 3%nat); [lia|]. change (10 ^ Z.of_nat 3) with 1000. lia.
Qed.

(** The common shape of the two replies. *)
Definition reply_text (code : list Z) (pType : Z) (chk : list Z) : list Z :=
  (code ++ [COMMA] ++ fmt_d pType) ++ COMMA :: chk ++ bs ",@~!" ++ code.

Ltac reply_ok p Hp :=
  let H3 := fresh "H3" in pose proof (fmt_d_3 p Hp) as H3;
  rewrite sprintf_Ok by lia; rewrite res_bind_ok;
  repeat (rewrite strcat_Ok by (rewrite ?length_app; simpl; lia); rewrite res_bind_ok);
  rewrite checksum_all, res_bind_ok.

Lemma getACK_text p :
  0 <= p <= 999 →
  ∃ chk, chk_text (u8 (bsum (bs "11" ++ [COMMA] ++ fmt_d p) + COMMA)) = Ok chk
       ∧ length chk = 3%nat ∧ getACK p = Ok (reply_text (bs "11") p chk).
Proof.
  intros Hp. unfold getACK. reply_ok p Hp.
  destruct (chk_text_spec (u8 (bsum ((([] ++ bs "11,") ++ fmt_d p) ++ bs ","))))
    as (t & Ht & Hl & _); [apply u8_is_byte|].
  exists t. rewrite Ht, res_bind_ok.
  rewrite strcat_Ok by (rewrite ?length_app; simpl; lia). rewrite res_bind_ok.
  rewrite strcat_Ok by (rewrite ?length_app; simpl; lia).
  split; [|split; [done|]].
  - rewrite <- Ht. do 2 f_equal. rewrite !bsum_app.
    generalize (bsum (fmt_d p)). intros z. vm_compute bs. unfold bsum, COMMA. simpl. lia.
  - f_equal. unfold reply_text. simpl. by rewrite <- !app_assoc.
Qed.

Lemma getNck_text p :
  0 <= p <= 999 →
  ∃ chk, chk_text (u8 (bsum (bs "16" ++ [COMMA] ++ fmt_d p) + COMMA)) = Ok chk
       ∧ length chk = 3%nat ∧ getNck p = Ok (reply_text (bs "16") p chk).
Proof.
  intros Hp. unfold getNck. reply_ok p Hp.
  destruct (chk_text_spec (u8 (bsum ((([] ++ bs "16,") ++ fmt_d p) ++ bs ","))))
    as (t & Ht & Hl & _); [apply u8_is_byte|].
  exists t. rewrite Ht, res_bind_ok.
  rewrite strcat_Ok by (rewrite ?length_app; simpl; lia). rewrite res_bind_ok.
  rewrite strcat_Ok by (rewrite ?length_app; simpl; lia).
  split; [|split; [done|]].
  - rewrite <- Ht. do 2 f_equal. rewrite !bsum_app.
    generalize (bsum (fmt_d p)). intros z. vm_compute bs. unfold bsum, COMMA. simpl. lia.
  - f_equal. unfold reply_text. simpl. by rewrite <- !app_assoc.
Qed.

(** Beyond three characters the number does not fit [char packetType[4]]. *)
Lemma reply_overflow p :
  1000 <= p <= INT_MAX → getACK p = Fault OutOfBounds ∧ getNck p = Fault OutOfBounds.
Proof.
  intros Hp. destruct (fmt_d_spec p) as (Hd & Hv & H1 & _); [lia|].
  assert (¬ (length (fmt_d p) < 4)%nat) as Hl.
  { intros Hl.
    assert (∀ ds acc, Forall (λ b, is_digit b = true) ds → 0 <= acc →
              digits_val ds acc < (acc + 1) * 10 ^ Z.of_nat (length ds)) as Hub.
    { clear. induction ds as [|b ds IH]; intros acc Hds Ha; [simpl; lia|].
      inversion Hds as [|? ? Hb Hds']; subst.
      cbn [digits_val length]. rewrite Hb. apply is_digit_iff in Hb.
      rewrite Nat2Z.inj_succ, Z.pow_succ_r by lia.
      pose proof (Z.pow_pos_nonneg 10 (Z.of_nat (length ds))).
      specialize (IH (acc * 10 + (b - 48)) Hds'). nia. }
    specialize (Hub (fmt_d p) 0 Hd). rewrite Hv in Hub.
    assert (10 ^ Z.of_nat (length (fmt_d p)) <= 10 ^ 3) by (apply Z.pow_le_mono_r; lia).
    lia. }
  unfold getACK, getNck, sprintf. by rewrite bool_decide_false.
Qed.

(** ** Properties *)

(** [C31] Complete behaviour of [isCRCValid] on a packet [body,tail] whose last
    field is [tail]: when the tail fits the five byte buffer the answer is
    whether its decimal value is the sum of all bytes up to and including the
    last comma modulo 256 (for every packet type); when it does not fit, the
    copy runs past the buffer. *)
Theorem isCRCValid_packet (t : Z) (body tail : list Z)
    (Hc : COMMA ∉ tail) (Hn : no_nul tail) :
  isCRCValid t (body ++ COMMA :: tail)
  = if bool_decide (length tail < 5)%nat
    then Ok (atoi tail =? u8 (bsum body + COMMA)) else Fault OutOfBounds.
Proof. by apply isCRCValid_eq. Qed.

Lemma isCRCValid_packet_witness :
  isCRCValid 1 (bs "11,42" ++ COMMA :: bs "032") = Ok true
  ∧ isCRCValid 7 (bs "7,note" ++ COMMA :: EOT) = Fault OutOfBounds.
Proof.
  split; rewrite isCRCValid_packet; try reflexivity;
    try by_compute.
Defined.

(** [C32] The checksum detects the corruption of one byte: if a packet (a C
    string) is accepted and any single byte before its last comma is replaced
    by another byte that is not 0, the altered packet is rejected.  (A byte
    replaced by 0 ends the string there: then the checksum is computed over what is
    left of it, see [nul_byte_goes_undetected].) *)
Theorem crc_detects_single_byte (t : Z) (b1 b2 tail : list Z) (x y : Z)
    (Hx : is_byte x) (Hy : is_byte y) (Hxy : x ≠ y) (Hy0 : y ≠ 0)
    (Hn0 : no_nul ((b1 ++ x :: b2) ++ COMMA :: tail)) (Hc : COMMA ∉ tail)
    (Hv : isCRCValid t ((b1 ++ x :: b2) ++ COMMA :: tail) = Ok true) :
  isCRCValid t ((b1 ++ y :: b2) ++ COMMA :: tail) = Ok false.
Proof.
  assert (no_nul tail) as Hn.
  { unfold no_nul in *. apply Forall_app in Hn0 as [_ Hn0]. by inversion Hn0. }
  rewrite isCRCValid_eq in Hv |- * by done.
  case_bool_decide; [|discriminate]. injection Hv as Hv. apply Z.eqb_eq in Hv.
  f_equal. apply Z.eqb_neq. rewrite Hv. intros E. apply Hxy.
  apply (byte_diff x y (bsum b1 + bsum b2 + COMMA)); [done..|].
  rewrite !bsum_app in E. simpl in E. fold (bsum b2) in E.
  replace (bsum b1 + bsum b2 + COMMA + x) with (bsum b1 + (x + bsum b2) + COMMA) by lia.
  rewrite E. f_equal. lia.
Qed.

Lemma crc_detects_single_byte_witness :
  isCRCValid 1 ((bs "1" ++ chr "9"%char :: bs ",42") ++ COMMA :: bs "032") = Ok false.
Proof.
  apply (crc_detects_single_byte 1 (bs "1") (bs ",42") (bs "032") (chr "1"%char) (chr "9"%char));
    try reflexivity; try by_compute.
Defined.

(** The bytes after a NUL are not looked at: an accepted packet whose third
    comma is overwritten by 0 is still accepted, because the string that is left
    carries a right checksum of its own. *)
Lemma nul_byte_goes_undetected :
  let sent := bs "11,42" ++ COMMA :: bs "032" ++ COMMA :: bs "225" in
  let damaged := bs "11,42" ++ COMMA :: bs "032" ++ 0 :: bs "225" in
  isCRCValid 11 sent = Ok true
  ∧ c_str (damaged ++ [0]) = Some (bs "11,42" ++ COMMA :: bs "032")
  ∧ isCRCValid 11 (bs "11,42" ++ COMMA :: bs "032") = Ok true.
Proof. vm_compute. done. Qed.

(** The two verification routines agree: a packet of fewer than 128 bytes
    that [isCRCValid] accepts is accepted by [uVerifyCheckSum], whose counters
    are plain [char]. *)
Theorem uVerifyCheckSum_agrees (t : Z) (body tail : list Z)
    (Hn : no_nul (body ++ COMMA :: tail)) (Hc : COMMA ∉ tail)
    (Hl : (length body + length tail < 127)%nat)
    (Hv : isCRCValid t (body ++ COMMA :: tail) = Ok true) :
  uVerifyCheckSum (body ++ COMMA :: tail) = Ok 1.
Proof.
  assert (no_nul tail) as Hnt.
  { unfold no_nul in *. apply Forall_app in Hn as [_ Hn]. by inversion Hn. }
  rewrite isCRCValid_eq in Hv by done.
  case_bool_decide; [|discriminate]. injection Hv as Hv%Z.eqb_eq.
  rewrite uVerifyCheckSum_eq by done. by rewrite Hv, s8_u8, Z.eqb_refl.
Qed.

Lemma uVerifyCheckSum_agrees_witness :
  uVerifyCheckSum (bs "11,42" ++ COMMA :: bs "032") = Ok 1.
Proof.
  apply (uVerifyCheckSum_agrees 1); try reflexivity;
    try by_compute.
Defined.

(** Exactly which texts [str_split] splits when assert() is active: those
    made of non-empty fields joined by the delimiter, with at most one trailing
    delimiter; the result is the fields.  Every other text (the empty one, one
    with an empty field) aborts the process. *)
Theorem str_split_iff (s : list Z) (d : Z) (toks : list (list Z)) :
  (str_split false s d = Ok toks ↔
   toks ≠ [] ∧ Forall (good_token d) toks ∧ (s = join d toks ∨ s = join d toks ++ [d]))
  ∧ ((∀ ts, str_split false s d ≠ Ok ts) ↔ str_split false s d = Fault AssertFailed).
Proof.
  assert (str_split false s d
    = if bool_decide (length (tokens (S (length s)) d s) = split_count d s - 1)%nat
      then Ok (tokens (S (length s)) d s) else Fault AssertFailed) as Heq.
  { unfold str_split. rewrite split_loop_spec; [done|lia|]. simpl.
    destruct s as [|b s]; [vm_compute; lia|]. rewrite split_count_spec by done.
    destruct (tokens_count (S (length (b :: s))) d (b :: s)) as [H _]; [lia|]. simpl in *. lia. }
  split.
  - rewrite Heq. split.
    + case_bool_decide as H; [|discriminate]. intros E.
      assert (toks = tokens (S (length s)) d s) as -> by congruence. clear E Heq.
      destruct s as [|b s]; [vm_compute in H; lia|]. rewrite split_count_spec in H by done.
      destruct (tokens_count (S (length (b :: s))) d (b :: s)) as [Hle Hs]; [lia|].
      specialize (Hs ltac:(lia)).
      assert (tokens (S (length (b :: s))) d (b :: s) ≠ []) as Hne.
      { destruct Hs as [Hs|[? _]]; [|done]. intros E. rewrite E in Hs. done. }
      split; [done|]. split; [apply tokens_good|]. destruct Hs as [?|[_ ?]]; auto.
    + intros (Hne & Hg & Hs).
      assert (∃ e, (e = [] ∨ e = [d]) ∧ s = join d toks ++ e) as (e & He & ->).
      { destruct Hs as [->| ->]; [exists []; by rewrite app_nil_r; auto|exists [d]; auto]. }
      rewrite tokens_join by (done || lia).
      rewrite <- join_shape by done. rewrite bool_decide_true by lia. done.
  - rewrite Heq. case_bool_decide; split; intros H'; try done.
    exfalso. by eapply H'.
Qed.

(** Replies to a packet of type 0 to 999 never leave their buffers: ACK
    and NACK are [code,type,checksum,@~!code], 14 to 16 bytes long, and the
    part up to the checksum passes [isCRCValid]. *)
Theorem replies_well_formed (p : Z) (Hp : 0 <= p <= 999) :
  ∃ chk chk', getACK p = Ok (reply_text (bs "11") p chk)
    ∧ getNck p = Ok (reply_text (bs "16") p chk')
    ∧ (14 ≤ length (reply_text (bs "11") p chk) ≤ 16)%nat
    ∧ (14 ≤ length (reply_text (bs "16") p chk') ≤ 16)%nat
    ∧ (∀ ty, isCRCValid ty ((bs "11" ++ [COMMA] ++ fmt_d p) ++ COMMA :: chk) = Ok true)
    ∧ (∀ ty, isCRCValid ty ((bs "16" ++ [COMMA] ++ fmt_d p) ++ COMMA :: chk') = Ok true).
Proof.
  destruct (getACK_text p Hp) as (t & Ht & Hl & ->).
  destruct (getNck_text p Hp) as (t' & Ht' & Hl' & ->).
  pose proof (fmt_d_3 p Hp).
  exists t, t'. split; [done|]. split; [done|].
  split; [unfold reply_text; rewrite !length_app; simpl; rewrite !length_app; simpl; lia|].
  split; [unfold reply_text; rewrite !length_app; simpl; rewrite !length_app; simpl; lia|].
  split; intros ty; by apply isCRCValid_chk_text.
Qed.

Lemma replies_well_formed_witness :
  ∃ chk chk', getACK 42 = Ok (reply_text (bs "11") 42 chk)
    ∧ getNck 42 = Ok (reply_text (bs "16") 42 chk').
Proof.
  destruct (replies_well_formed 42) as (c & c' & H1 & H2 & _); [lia|]. eauto.
Defined.
