(* ===== verification/CommPlugin.v ===== *)
(** * The comlink websocket protocol handler

    Models [callback_lws_websocket] of
    plugins/plugin_lws_websocket/protocol_lws_websocket.c: the per-vhost state
    (the live sessions, the one pending message and its number), the per-session
    state (the last message sent) and the handler of every callback reason.

    The library is seen through what the handler calls: [lws_write] returns the
    number of bytes taken, [system] the exit status, [malloc] of the message
    block may fail.  What the handler asks of them is the list of [output]s. *)

From stdpp Require Import base numbers list strings gmap.
From Stdlib Require Import ZArith Lia Ascii.
From S2P Require Import Prelude Packet.

(** LWS_PRE on x86-64. *)
Definition LWS_PRE : nat := 16.

(** One connection; the library gives each its own session block. *)
Abbreviation wsi_id := nat (only parsing).

(** [struct per_vhost_data__lws_websocket]: [amsg_payload] is the malloc'd block
    ([None] for NULL). *)
Record vhost_data := {
  vh_pss_list : list nat;
  amsg_payload : option (list Z);
  amsg_len : nat;
  vh_current : Z;
}.

(** The plugin's state: the per-vhost block, once allocated, and the field
    [last] of each session block (zeroed when the library allocates it). *)
Record plugin := {
  vhd : option vhost_data;
  pss_last : gmap nat Z;
}.

Inductive reason :=
  | PROTOCOL_INIT
  | ESTABLISHED
  | CLOSED
  | SERVER_WRITEABLE
  | RECEIVE (inmem : list Z) (len : nat)   (** the memory at [in], and [len] *)
  | OTHER.

Inductive output :=
  | Write (wsi : nat) (data : list Z)      (** lws_write(.., LWS_WRITE_TEXT) *)
  | System (command : list Z)              (** system(command) *)
  | OnWritable (wsi : nat).                (** lws_callback_on_writable(wsi) *)

(** lws_ll_fwd_insert and lws_ll_fwd_remove. *)
Definition ll_fwd_insert (wsi : nat) (l : list nat) : list nat := wsi :: l.

Fixpoint ll_fwd_remove (wsi : nat) (l : list nat) : list nat :=
  match l with
  | [] => []
  | w :: l' => if Nat.eqb w wsi then l' else w :: ll_fwd_remove wsi l'
  end.

(** [__lws_websocket_destroy_message]. *)
Definition destroy_message (v : vhost_data) : vhost_data :=
  {| vh_pss_list := vh_pss_list v; amsg_payload := None; amsg_len := 0;
     vh_current := vh_current v |}.

Definition set_amsg (v : vhost_data) (payload : option (list Z)) (len : nat) : vhost_data :=
  {| vh_pss_list := vh_pss_list v; amsg_payload := payload; amsg_len := len;
     vh_current := vh_current v |}.

Definition set_pss_list (v : vhost_data) (l : list nat) : vhost_data :=
  {| vh_pss_list := l; amsg_payload := amsg_payload v; amsg_len := amsg_len v;
     vh_current := vh_current v |}.

Definition bump_current (v : vhost_data) : vhost_data :=
  {| vh_pss_list := vh_pss_list v; amsg_payload := amsg_payload v;
     amsg_len := amsg_len v; vh_current := s32 (vh_current v + 1) |}.

Definition redisHost : list Z := bs "localhost".
Definition redisPort : list Z := bs "6379".
Definition comlinkHost : list Z := bs "http://localhost:2579/api/device/report-data".

Section handler.
(** The environment: whether assert() is compiled out, whether the malloc of
    the message block succeeds, the status system() returns, and how many
    bytes lws_write() reports. *)
Variable ndebug : bool.
Variable malloc_ok : bool.
Variable system : list Z → Z.
Variable lws_write : nat → list Z → Z.

(** [fprintf(stderr, (char * )system(command))]: the status is used as the
    format; only the null pointer is harmless (glibc returns -1). *)
Definition run_system (command : list Z) : res unit :=
  check (system command =? 0) BadFormat.

Definition of_option {A} (f : fault) (o : option A) : res A :=
  match o with Some a => Ok a | None => Fault f end.

(** LWS_CALLBACK_RECEIVE. *)
Definition on_receive (wsi : nat) (v : vhost_data) (inmem : list Z) (len : nat) :
    res (vhost_data * list output) :=
  let v := match amsg_payload v with Some _ => destroy_message v | None => v end in
  if negb malloc_ok then Ok (set_amsg v None len, [])
  else
    let payload := replicate (LWS_PRE + len) 0 in
    bufferData ← of_option OutOfBounds (c_str (take len inmem ++ [0]));
    in_str ← of_option OutOfBounds (c_str inmem);
    toks ← str_split ndebug in_str COMMA;
    tok0 ← of_option NullDeref (toks !! 0%nat);
    let packetNumber := atoi tok0 in
    valid ← isCRCValid packetNumber bufferData;
    '(payload, n, outs) ←
      (if valid : bool then
         ack ← getACK packetNumber;
         payload ← memcpy payload LWS_PRE ack;
         key ← of_option NullDeref (toks !! 1%nat);
         command ← getRedisCommand redisHost redisPort
                     (concat key (bs "_PACKET")) bufferData;
         _ ← run_system command;
         command' ← getHttpCommand comlinkHost bufferData;
         _ ← run_system command';
         Ok (payload, length ack, [System command; System command'])
       else
         nack ← getNck packetNumber;
         payload ← memcpy payload LWS_PRE nack;
         Ok (payload, length nack, []));
    Ok (bump_current (set_amsg v (Some payload) n), outs ++ [OnWritable wsi]).

(** LWS_CALLBACK_SERVER_WRITEABLE: the return code and the new [last]. *)
Definition on_writeable (wsi : nat) (v : vhost_data) (last : Z) :
    Z * Z * list output :=
  match amsg_payload v with
  | None => (0, last, [])
  | Some payload =>
      if last =? vh_current v then (0, last, [])
      else
        let data := take (amsg_len v) (drop LWS_PRE payload) in
        if lws_write wsi data <? Z.of_nat (amsg_len v)
        then (-1, last, [Write wsi data])
        else (0, vh_current v, [Write wsi data])
  end.

(** [callback_lws_websocket]: the return code, the state after, and what was
    asked of the library. *)
Definition callback_lws_websocket (wsi : nat) (r : reason) (s : plugin) :
    res (Z * plugin * list output) :=
  match r with
  | PROTOCOL_INIT =>
      Ok (0, {| vhd := Some {| vh_pss_list := []; amsg_payload := None;
                               amsg_len := 0; vh_current := 0 |};
                pss_last := pss_last s |}, [])
  | ESTABLISHED =>
      v ← of_option NullDeref (vhd s);
      Ok (0, {| vhd := Some (set_pss_list v (ll_fwd_insert wsi (vh_pss_list v)));
                pss_last := <[wsi := vh_current v]> (pss_last s) |}, [])
  | CLOSED =>
      v ← of_option NullDeref (vhd s);
      Ok (0, {| vhd := Some (set_pss_list v (ll_fwd_remove wsi (vh_pss_list v)));
                pss_last := pss_last s |}, [])
  | SERVER_WRITEABLE =>
      v ← of_option NullDeref (vhd s);
      let last := default 0 (pss_last s !! wsi) in
      let '(rc, last', outs) := on_writeable wsi v last in
      Ok (rc, {| vhd := Some v; pss_last := <[wsi := last']> (pss_last s) |}, outs)
  | RECEIVE inmem len =>
      v ← of_option NullDeref (vhd s);
      '(v', outs) ← on_receive wsi v inmem len;
      Ok (0, {| vhd := Some v'; pss_last := pss_last s |}, outs)
  | OTHER => Ok (0, s, [])
  end.

(** A sequence of callbacks, as the service loop issues them. *)
Fixpoint run (evs : list (nat * reason)) (s : plugin) : res (plugin * list output) :=
  match evs with
  | [] => Ok (s, [])
  | (wsi, r) :: evs' =>
      '(_, s1, o1) ← callback_lws_websocket wsi r s;
      '(s2, o2) ← run evs' s1;
      Ok (s2, o1 ++ o2)
  end.
End handler.

(** ** Lemmas *)

Lemma of_option_Ok {A} f (o : option A) a : of_option f o = Ok a → o = Some a.
Proof. destruct o; [by intros [= ->]|discriminate]. Qed.

Lemma dec_go_length f n acc : (S (length acc) ≤ length (dec_go (S f) n acc))%nat.
Proof.
  revert n acc. induction f as [|f IH]; intros n acc.
  - cbn [dec_go]. destruct (_ =? 0); simpl; lia.
  - remember (S f) as g. cbn [dec_go]. subst g. destruct (_ =? 0); [simpl; lia|].
    etrans; [|apply IH]. simpl. lia.
Qed.

Lemma fmt_d_length z : (1 ≤ length (fmt_d z))%nat.
Proof.
  unfold fmt_d. destruct (z <? 0); [cbn [length]; lia|]. apply (dec_go_length 9 z []).
Qed.

Lemma strcat_inv cap t s r : strcat cap t s = Ok r → r = t ++ s.
Proof. unfold strcat. case_bool_decide; [by intros [= <-]|discriminate]. Qed.

Lemma sprintf_inv cap t r : sprintf cap t = Ok r → r = t.
Proof. unfold sprintf. case_bool_decide; [by intros [= <-]|discriminate]. Qed.

Ltac strcats :=
  repeat match goal with
  | H : strcat _ _ _ = Ok _ |- _ => apply strcat_inv in H
  | H : sprintf _ _ = Ok _ |- _ => apply sprintf_inv in H
  end.

Lemma chk_text_length c t : is_byte c → chk_text c = Ok t → length t = 3%nat.
Proof.
  intros Hc Ht. destruct (chk_text_spec c Hc) as (t' & E & Hl & _). congruence.
Qed.

(** Every reply is at least 14 bytes long. *)
Lemma reply_length p r : getACK p = Ok r ∨ getNck p = Ok r → (14 ≤ length r)%nat.
Proof.
  intros [H|H]; unfold getACK, getNck in H; res_inv; strcats; subst;
    rewrite checksum_all in *; res_inv; subst;
    match goal with Hc : chk_text _ = Ok _ |- _ =>
      apply chk_text_length in Hc; [|apply u8_is_byte] end;
    rewrite !length_app; simpl; pose proof (fmt_d_length p); lia.
Qed.

(** What a successful receive leaves pending. *)
Definition pending (v : vhost_data) : list Z :=
  match amsg_payload v with
  | Some pl => take (amsg_len v) (drop LWS_PRE pl)
  | None => []
  end.

Lemma on_receive_inv nd system wsi v inmem len v' outs :
  on_receive nd true system wsi v inmem len = Ok (v', outs) →
  ∃ buf (toks : list (list Z)) tok0 valid reply,
    c_str (take len inmem ++ [0]) = Some buf
    ∧ (∃ ins, c_str inmem = Some ins ∧ str_split nd ins COMMA = Ok toks)
    ∧ toks !! 0%nat = Some tok0
    ∧ isCRCValid (atoi tok0) buf = Ok valid
    ∧ (if valid : bool then getACK (atoi tok0) = Ok reply else getNck (atoi tok0) = Ok reply)
    ∧ (∃ pl, amsg_payload v' = Some pl ∧ length pl = (LWS_PRE + len)%nat)
    ∧ pending v' = reply ∧ amsg_len v' = length reply
    ∧ vh_current v' = s32 (vh_current v + 1)
    ∧ vh_pss_list v' = vh_pss_list v
    ∧ (length reply ≤ len)%nat
    ∧ (∀ c, System c ∈ outs → valid = true
         ∧ ∃ key, toks !! 1%nat = Some key
           ∧ (getRedisCommand redisHost redisPort (concat key (bs "_PACKET")) buf = Ok c
              ∨ getHttpCommand comlinkHost buf = Ok c))
    ∧ (∃ cmds, outs = cmds ++ [OnWritable wsi]
         ∧ length cmds = (if valid then 2 else 0)%nat
         ∧ ∀ o, o ∈ cmds → ∃ c, o = System c).
Proof.
  unfold on_receive. cbn [negb]. intros H.
  apply bind_Ok_inv in H as (buf & Hbuf & H). apply of_option_Ok in Hbuf.
  apply bind_Ok_inv in H as (ins & Hins & H). apply of_option_Ok in Hins.
  apply bind_Ok_inv in H as (toks & Hsplit & H).
  apply bind_Ok_inv in H as (tok0 & Htok & H). apply of_option_Ok in Htok.
  apply bind_Ok_inv in H as (valid & Hvalid & H).
  apply bind_Ok_inv in H as ([[pl n] o] & Hbr & H).
  set (v0 := match amsg_payload v with Some _ => destroy_message v | None => v end) in *.
  assert (vh_current v0 = vh_current v ∧ vh_pss_list v0 = vh_pss_list v) as [Hcur Hl].
  { unfold v0. by destruct (amsg_payload v). }
  injection H as <- <-.
  exists buf, toks, tok0, valid. destruct valid.
  - res_inv. subst. destruct (memcpy_read _ _ _ _ Hx0) as [Hp Hlen]. rewrite length_replicate in Hlen.
    exists x. simpl. rewrite Hcur, Hl.
    split; [done|]. split; [eauto|]. split; [done|]. split; [done|]. split; [done|].
    split; [eexists; split; [done|]; apply memcpy_length in Hx0; by rewrite Hx0, length_replicate|].
    split; [by unfold pending|]. do 3 (split; [done|]). split; [lia|]. split.
    + intros c. rewrite !elem_of_cons. intros [[= ->]|[[= ->]|[?|Hnil]]];
        [| |done|by apply elem_of_nil in Hnil];
        (split; [done|]; exists x1; split; [by apply of_option_Ok in Hx1|]);
        [by left|by right].
    + exists [System x2; System x4]. split; [done|]. split; [done|].
      intros o [->|[->|Ho%elem_of_nil]%elem_of_cons]%elem_of_cons; eauto. done.
  - res_inv. subst. destruct (memcpy_read _ _ _ _ Hx0) as [Hp Hlen]. rewrite length_replicate in Hlen.
    exists x. simpl. rewrite Hcur, Hl.
    split; [done|]. split; [eauto|]. split; [done|]. split; [done|]. split; [done|].
    split; [eexists; split; [done|]; apply memcpy_length in Hx0; by rewrite Hx0, length_replicate|].
    split; [by unfold pending|]. do 3 (split; [done|]). split; [lia|]. split.
    + intros c. rewrite elem_of_cons. intros [?|Hnil]; [done|by apply elem_of_nil in Hnil].
    + exists []. split; [done|]. split; [done|]. intros o Ho%elem_of_nil. done.
Qed.

(** The pending block always holds the announced number of bytes, and the
    message number stays an int. *)
Definition vhost_wf (v : vhost_data) : Prop :=
  (∀ pl, amsg_payload v = Some pl → (LWS_PRE + amsg_len v ≤ length pl)%nat)
  ∧ INT_MIN <= vh_current v <= INT_MAX.

Definition plugin_wf (s : plugin) : Prop :=
  ∀ v, vhd s = Some v → vhost_wf v.

Lemma pending_length v pl :
  vhost_wf v → amsg_payload v = Some pl → length (pending v) = amsg_len v.
Proof.
  intros [H _] E. specialize (H _ E). unfold pending. rewrite E.
  rewrite length_take, length_drop. lia.
Qed.

Lemma on_receive_wf nd mo system wsi v inmem len v' outs :
  vhost_wf v → on_receive nd mo system wsi v inmem len = Ok (v', outs) → vhost_wf v'.
Proof.
  intros [Hp Hc] H. destruct mo.
  - destruct (on_receive_inv _ _ _ _ _ _ _ _ H)
      as (buf & toks & t0 & valid & reply & _ & _ & _ & _ & _ & (pl & Hpl & Hl) & _ & Hlen & Hcur & _ & Hle & _).
    split; [|rewrite Hcur; apply s32_range].
    intros pl' Hpl'. assert (pl' = pl) as -> by congruence. lia.
  - unfold on_receive in H. simpl in H. injection H as <- <-. split; simpl.
    + done.
    + by destruct (amsg_payload v).
Qed.

Section facts.
Variable ndebug malloc_ok : bool.
Variable system : list Z → Z.
Variable lws_write : nat → list Z → Z.

Abbreviation callback := (callback_lws_websocket ndebug malloc_ok system lws_write).
Abbreviation runs := (run ndebug malloc_ok system lws_write).

Lemma callback_wf wsi r s rc s' outs :
  plugin_wf s → callback wsi r s = Ok (rc, s', outs) → plugin_wf s'.
Proof.
  intros Hwf H. destruct r; simpl in H; res_inv;
    repeat match goal with Hx : of_option _ _ = Ok _ |- _ => apply of_option_Ok in Hx end.
  - subst. intros v [= <-]. split; [done|]. unfold INT_MIN, INT_MAX. simpl. lia.
  - subst. intros v [= <-]. apply (Hwf _ Hx).
  - subst. intros v [= <-]. apply (Hwf _ Hx).
  - destruct (on_writeable _ _ _ _) as [[rc' l'] o']. res_inv. subst.
    intros v [= <-]. by apply Hwf.
  - destruct x0 as [v' o']. res_inv. subst. intros v0 [= <-].
    eapply on_receive_wf; [|eassumption]. by apply Hwf.
  - by subst.
Qed.

(** Callbacks that neither set up the vhost nor receive a message. *)
Definition quiet (e : nat * reason) : bool :=
  match e.2 with PROTOCOL_INIT | RECEIVE _ _ => false | _ => true end.

Definition is_write_to (w : nat) (o : output) : bool :=
  match o with Write w' _ => Nat.eqb w' w | _ => false end.

Definition writes_to (w : nat) (outs : list output) : nat :=
  length (List.filter (is_write_to w) outs).

Lemma writes_to_app w o1 o2 : writes_to w (o1 ++ o2) = (writes_to w o1 + writes_to w o2)%nat.
Proof. unfold writes_to. by rewrite List.filter_app, length_app. Qed.

(** A session that has sent the current message. *)
Definition up_to_date (s : plugin) (w : nat) : Prop :=
  ∀ v, vhd s = Some v → amsg_payload v = None ∨ default 0 (pss_last s !! w) = vh_current v.

Lemma quiet_step (Haccept : ∀ w d, Z.of_nat (length d) <= lws_write w d) w e s rc s' outs :
  plugin_wf s → quiet e = true → callback e.1 e.2 s = Ok (rc, s', outs) →
  (writes_to w outs ≤ 1)%nat
  ∧ (up_to_date s w → writes_to w outs = O ∧ up_to_date s' w)
  ∧ (writes_to w outs = 1%nat → up_to_date s' w).
Proof.
  intros Hwf Hq H. destruct e as [x r]. simpl in *.
  destruct r; try discriminate Hq; simpl in H; res_inv;
    repeat match goal with Hx : of_option _ _ = Ok _ |- _ => apply of_option_Ok in Hx end;
    try (subst; split; [by apply Nat.le_0_1|]; split; [|discriminate]; intros Hup; split; [done|]).
  - intros v [= <-]. simpl. destruct (decide (x = w)) as [->|Hne].
    + right. by rewrite lookup_insert_eq.
    + rewrite lookup_insert_ne by done. by apply (Hup _ Hx).
  - intros v [= <-]. simpl. by apply (Hup _ Hx).
  - unfold on_writeable in H. destruct (amsg_payload x0) as [pl|] eqn:Epl.
    2: { injection H as <- <- <-. split; [vm_compute; lia|]. split; [|discriminate].
         intros Hup. split; [done|]. intros v [= <-]. by left. }
    destruct (Z.eqb_spec (default 0 (pss_last s !! x)) (vh_current x0)) as [Ecur|Ecur].
    { injection H as <- <- <-. split; [vm_compute; lia|]. split; [|discriminate].
      intros Hup. split; [done|]. intros v [= <-]. right. simpl.
      destruct (decide (x = w)) as [->|Hne].
      - by rewrite lookup_insert_eq.
      - rewrite lookup_insert_ne by done. destruct (Hup _ Hx); congruence. }
    assert (Z.of_nat (amsg_len x0)
            <= lws_write x (take (amsg_len x0) (drop LWS_PRE pl))) as Hacc.
    { etrans; [|apply Haccept]. pose proof (pending_length x0 pl (Hwf _ Hx) Epl) as Hl.
      unfold pending in Hl. rewrite Epl in Hl. lia. }
    rewrite (proj2 (Z.ltb_ge _ _)) in H by done. injection H as <- <- <-.
    unfold writes_to. simpl. destruct (Nat.eqb_spec x w) as [->|Hne]; simpl.
    + split; [lia|]. split.
      * intros Hup. destruct (Hup _ Hx); congruence.
      * intros _ v [= <-]. right. simpl. by rewrite lookup_insert_eq.
    + split; [lia|]. split; [|discriminate]. intros Hup. split; [done|].
      intros v [= <-]. simpl. rewrite lookup_insert_ne by done. by apply Hup.
  - by subst.
Qed.
End facts.

Lemma quiet_run nd mo system lws_write
    (Haccept : ∀ w d, Z.of_nat (length d) <= lws_write w d) w evs s s' outs :
  plugin_wf s → forallb quiet evs = true →
  run nd mo system lws_write evs s = Ok (s', outs) →
  (writes_to w outs ≤ 1)%nat ∧ (up_to_date s w → writes_to w outs = O).
Proof.
  revert s outs. induction evs as [|[x r] evs IH]; intros s outs Hwf Hq H.
  { simpl in H. res_inv. subst. split; [vm_compute; lia|done]. }
  simpl in Hq. apply andb_true_iff in Hq as [Hq1 Hq2].
  cbn [run] in H. apply bind_Ok_inv in H as ([[rc s1] o1] & H1 & H).
  apply bind_Ok_inv in H as ([s2 o2] & H2 & H). injection H as <- <-.
  pose proof (callback_wf _ _ _ _ _ _ _ _ _ _ Hwf H1) as Hwf1.
  destruct (quiet_step nd mo system lws_write Haccept w (x, r) s rc s1 o1 Hwf Hq1 H1)
    as (Hle & Hup & Hone).
  destruct (IH s1 o2 Hwf1 Hq2 H2) as [IHle IHup].
  rewrite writes_to_app. split.
  - destruct (writes_to w o1) as [|[|n]] eqn:E; [lia| |lia].
    rewrite IHup by auto. lia.
  - intros Hs. destruct (Hup Hs) as [-> Hs1]. rewrite IHup by done. done.
Qed.

Lemma run_app nd mo system lws_write evs1 evs2 s s1 o1 :
  run nd mo system lws_write evs1 s = Ok (s1, o1) →
  run nd mo system lws_write (evs1 ++ evs2) s
  = ('(s2, o2) ← run nd mo system lws_write evs2 s1; Ok (s2, o1 ++ o2)).
Proof.
  revert s o1. induction evs1 as [|[x r] evs1 IH]; intros s o1 H.
  { simpl in H. injection H as <- <-. simpl. by destruct (run _ _ _ _ evs2 s) as [[]|]. }
  cbn [run app] in *. destruct (callback_lws_websocket nd mo system lws_write x r s)
    as [[[rc s'] o]|f]; [|discriminate]. rewrite !res_bind_ok in *.
  apply bind_Ok_inv in H as ([s2 o2] & H2 & H). injection H as <- <-.
  rewrite (IH _ _ H2). destruct (run _ _ _ _ evs2 s2) as [[s3 o3]|f]; [|done].
  rewrite !res_bind_ok. by rewrite app_assoc.
Qed.

Lemma on_writeable_outs lws_write wsi v last :
  (on_writeable lws_write wsi v last).2 = []
  ∨ ∃ d, (on_writeable lws_write wsi v last).2 = [Write wsi d].
Proof.
  unfold on_writeable. destruct (amsg_payload v); [|by left].
  destruct (_ =? _); [by left|]. right. destruct (_ <? _); eauto.
Qed.

(** The forward direction of a receive. *)
Definition packet_fits (key p : list Z) : Prop :=
  (length key + length p < 136)%nat ∧ (length p < 86)%nat.

Lemma commands_fit key p :
  packet_fits key p →
  ∃ c1 c2, getRedisCommand redisHost redisPort (concat key (bs "_PACKET")) p = Ok c1
         ∧ getHttpCommand comlinkHost p = Ok c2.
Proof.
  intros [H1 H2]. unfold getRedisCommand, getHttpCommand, concat.
  do 2 eexists. split;
    repeat (rewrite strcat_Ok by (rewrite ?length_app; simpl; lia); rewrite ?res_bind_ok);
    reflexivity.
Qed.

Lemma on_receive_ok nd system wsi v p rest t0 key ts valid reply :
  no_nul p → str_split nd p COMMA = Ok (t0 :: key :: ts) →
  isCRCValid (atoi t0) p = Ok valid →
  (if valid : bool then getACK (atoi t0) else getNck (atoi t0)) = Ok reply →
  (length reply ≤ length p)%nat →
  packet_fits key p → (∀ c, system c = 0) →
  ∃ v' outs, on_receive nd true system wsi v (p ++ 0 :: rest) (length p) = Ok (v', outs).
Proof.
  intros Hn Hs Hv Hr Hl Hfit Hsys. unfold on_receive. cbn [negb].
  rewrite take_app_length, !c_str_terminated by done. cbn [of_option]. rewrite !res_bind_ok.
  rewrite Hs, res_bind_ok. cbn [lookup list_lookup of_option]. rewrite res_bind_ok, Hv, res_bind_ok.
  assert (memcpy (replicate (LWS_PRE + length p) 0) LWS_PRE reply
          = Ok (blit (replicate (LWS_PRE + length p) 0) LWS_PRE reply)) as Hm.
  { apply memcpy_Ok. rewrite length_replicate. lia. }
  destruct valid; rewrite Hr, res_bind_ok, Hm, res_bind_ok.
  - cbn [lookup list_lookup of_option]. rewrite res_bind_ok.
    destruct (commands_fit key p Hfit) as (c1 & c2 & -> & ->). rewrite !res_bind_ok.
    unfold run_system. rewrite !Hsys. cbn [check Z.eqb]. rewrite !res_bind_ok. eauto.
  - rewrite res_bind_ok. eauto.
Qed.

(** ** Properties *)

(** The two shell commands of a packet [p] whose device field is [key], as
    texts. *)
Definition redis_text (key p : list Z) : list Z :=
  bs "/usr/local/bin/redisClient -h localhost -p 6379 -k " ++ key ++ bs "_PACKET -v " ++ p ++ bs " &".

Definition http_text (p : list Z) : list Z :=
  bs "wget --post-data packet=" ++ p
    ++ bs " http://localhost:2579/api/device/report-data --connect-timeout=5 --tries=2 -O /dev/null &".

Lemma getRedisCommand_text key p c :
  getRedisCommand redisHost redisPort (concat key (bs "_PACKET")) p = Ok c → c = redis_text key p.
Proof.
  unfold getRedisCommand, concat. intros H. res_inv. strcats. subst.
  unfold redis_text. by rewrite <- !app_assoc.
Qed.

Lemma getHttpCommand_text p c : getHttpCommand comlinkHost p = Ok c → c = http_text p.
Proof.
  unfold getHttpCommand. intros H. res_inv. strcats. subst.
  unfold http_text. by rewrite <- !app_assoc.
Qed.

(** [C1] Only verified packets reach the outside: in every run of the handler,
    whatever the callbacks and their order, a command is handed to system()
    only for a received message that splits at its commas into a packet number,
    a device and the rest, whose checksum [isCRCValid] accepted under that
    packet number; and the command is, letter for letter, the redis command that
    stores that message under that device's key or the wget command that posts
    that message. *)
Theorem commands_only_for_valid_packets
    (nd mo : bool) (system : list Z → Z) (lws_write : nat → list Z → Z)
    (evs : list (nat * reason)) (s s' : plugin) (outs : list output) (c : list Z)
    (Hrun : run nd mo system lws_write evs s = Ok (s', outs)) (Hc : System c ∈ outs) :
  ∃ wsi inmem len buf ins (toks : list (list Z)) num key, (wsi, RECEIVE inmem len) ∈ evs
    ∧ c_str (take len inmem ++ [0]) = Some buf ∧ c_str inmem = Some ins
    ∧ str_split nd ins COMMA = Ok toks ∧ toks !! 0%nat = Some num ∧ toks !! 1%nat = Some key
    ∧ isCRCValid (atoi num) buf = Ok true
    ∧ (c = redis_text key buf ∨ c = http_text buf).
Proof.
  revert s outs Hrun Hc. induction evs as [|[x r] evs IH]; intros s outs Hrun Hc.
  { simpl in Hrun. res_inv. subst. by apply elem_of_nil in Hc. }
  cbn [run] in Hrun. apply bind_Ok_inv in Hrun as ([[rc s1] o1] & H1 & H).
  apply bind_Ok_inv in H as ([s2 o2] & H2 & H). injection H as <- <-.
  apply elem_of_app in Hc as [Hc|Hc].
  2: { destruct (IH _ _ H2 Hc) as (w & m & l & b & i & t & n & k & Hin & Hrest).
       exists w, m, l, b, i, t, n, k. split; [by apply list_elem_of_further|done]. }
  destruct r as [| | | |inmem len|]; simpl in H1; res_inv; subst; try by apply elem_of_nil in Hc.
  - pose proof (on_writeable_outs lws_write x x0 (default 0 (pss_last s !! x))) as Ho.
    destruct (on_writeable _ _ _ _) as [[rc' l'] o']. injection H1 as <- <- <-.
    destruct Ho as [Ho|[d Ho]]; simpl in Ho; subst o';
      [by apply elem_of_nil in Hc|by apply list_elem_of_singleton in Hc].
  - destruct x1 as [v' o']. res_inv. subst. destruct mo.
    + destruct (on_receive_inv _ _ _ _ _ _ _ _ Hx0)
        as (buf & toks & t0 & valid & reply & Hb & (ins & Hins & Hsp) & Ht0 & Hv
            & _ & _ & _ & _ & _ & _ & _ & Hsys & _).
      destruct (Hsys c Hc) as [-> (key & Hkey & Hk)].
      exists x, inmem, len, buf, ins, toks, t0, key. split; [apply list_elem_of_here|].
      do 6 (split; [done|]).
      destruct Hk as [Hk|Hk]; [left; by apply getRedisCommand_text|right; by apply getHttpCommand_text].
    + unfold on_receive in Hx0. simpl in Hx0. injection Hx0 as <- <-. by apply elem_of_nil in Hc.
Qed.

Definition sample_packet : list Z := bs "3,DEV0017,21.5,48.0,026".
Definition fresh_plugin : plugin :=
  {| vhd := Some {| vh_pss_list := [1%nat]; amsg_payload := None; amsg_len := 0; vh_current := 0 |};
     pss_last := {[1%nat := 0]} |}.
Definition sys0 (c : list Z) : Z := 0.
Definition write_all (w : nat) (d : list Z) : Z := Z.of_nat (length d).

Lemma commands_only_for_valid_packets_witness :
  let c := bs "/usr/local/bin/redisClient -h localhost -p 6379 -k DEV0017_PACKET -v 3,DEV0017,21.5,48.0,026 &" in
  ∃ wsi inmem len buf ins (toks : list (list Z)) num key,
    (wsi, RECEIVE inmem len) ∈ [(1%nat, RECEIVE (sample_packet ++ [0]) 23)]
    ∧ c_str (take len inmem ++ [0]) = Some buf ∧ c_str inmem = Some ins
    ∧ str_split false ins COMMA = Ok toks ∧ toks !! 0%nat = Some num ∧ toks !! 1%nat = Some key
    ∧ isCRCValid (atoi num) buf = Ok true
    ∧ (c = redis_text key buf ∨ c = http_text buf).
Proof.
  intros c. eapply (commands_only_for_valid_packets false true sys0 write_all
            [(1%nat, RECEIVE (sample_packet ++ [0]) 23)] fresh_plugin).
  - vm_compute. reflexivity.
  - apply list_elem_of_In. vm_compute. auto.
Defined.

(** A session is sent a message at most once: in a run of any callbacks
    other than a new message or a new vhost, with a library that takes whole
    messages, the handler writes at most one time to any given connection, and
    not at all to one that already has the current message. *)
Theorem at_most_one_write_per_message
    (nd mo : bool) (system : list Z → Z) (lws_write : nat → list Z → Z)
    (Haccept : ∀ w d, Z.of_nat (length d) <= lws_write w d)
    (w : nat) (evs : list (nat * reason)) (s s' : plugin) (outs : list output)
    (Hwf : plugin_wf s) (Hq : forallb quiet evs = true)
    (Hrun : run nd mo system lws_write evs s = Ok (s', outs)) :
  (writes_to w outs ≤ 1)%nat ∧ (up_to_date s w → writes_to w outs = O).
Proof. by eapply quiet_run. Qed.

Definition pending_plugin : plugin :=
  {| vhd := Some {| vh_pss_list := [1%nat]; amsg_payload := Some (replicate 16 0 ++ bs "hello");
                    amsg_len := 5; vh_current := 1 |};
     pss_last := {[1%nat := 0]} |}.

Lemma at_most_one_write_per_message_witness :
  ∃ s' outs, run false true sys0 write_all
               [(1%nat, SERVER_WRITEABLE); (1%nat, SERVER_WRITEABLE)] pending_plugin = Ok (s', outs)
             ∧ writes_to 1 outs = 1%nat ∧ (writes_to 1 outs ≤ 1)%nat.
Proof.
  do 2 eexists. split; [vm_compute; reflexivity|]. split; [reflexivity|].
  eapply (at_most_one_write_per_message false true sys0 write_all) with
    (evs := [(1%nat, SERVER_WRITEABLE); (1%nat, SERVER_WRITEABLE)]) (s := pending_plugin).
  - intros. reflexivity.
  - intros v [= <-]. split; [intros pl [= <-]; vm_compute; lia|vm_compute; split; discriminate].
  - reflexivity.
  - vm_compute. reflexivity.
Defined.

(** [C8] A received packet is answered, end to end: when the message splits into
    at least two fields, its reply fits the message block, its commands fit
    their buffers and the shell succeeds, then receiving it and then being
    writeable sends the sender exactly the ACK (NACK) of its packet number when
    the checksum is right (wrong), after the two commands (none). *)
Theorem packet_is_answered
    (nd : bool) (lws_write : nat → list Z → Z) (system : list Z → Z)
    (wsi : nat) (s : plugin) (v : vhost_data) (p rest t0 key reply : list Z)
    (ts : list (list Z)) (valid : bool)
    (Hvhd : vhd s = Some v) (Hlast : default 0 (pss_last s !! wsi) = vh_current v)
    (Hcur : INT_MIN <= vh_current v < INT_MAX)
    (Hn : no_nul p) (Hs : str_split nd p COMMA = Ok (t0 :: key :: ts))
    (Hv : isCRCValid (atoi t0) p = Ok valid)
    (Hr : (if valid then getACK (atoi t0) else getNck (atoi t0)) = Ok reply)
    (Hl : (length reply ≤ length p)%nat) (Hfit : packet_fits key p)
    (Hsys : ∀ c, system c = 0) :
  ∃ s' cmds, run nd true system lws_write
               [(wsi, RECEIVE (p ++ 0 :: rest) (length p)); (wsi, SERVER_WRITEABLE)] s
             = Ok (s', cmds ++ [OnWritable wsi; Write wsi reply])
    ∧ length cmds = (if valid then 2 else 0)%nat ∧ ∀ o, o ∈ cmds → ∃ c, o = System c.
Proof.
  destruct (on_receive_ok nd system wsi v p rest t0 key ts valid reply)
    as (v' & outs & Hrec); try done.
  destruct (on_receive_inv _ _ _ _ _ _ _ _ Hrec)
    as (buf & toks & t0' & valid' & reply' & Hbuf & (ins & Hins & Hsp) & Ht0 & Hcrc & Hrep
        & (pl & Hpl & _) & Hpend & Hlen & Hcur' & _ & _ & _ & (cmds & -> & Hcn & Hcs)).
  rewrite take_app_length, c_str_terminated in Hbuf by done. injection Hbuf as <-.
  rewrite c_str_terminated in Hins by done. injection Hins as <-.
  assert (toks = t0 :: key :: ts) as -> by congruence. injection Ht0 as <-.
  assert (valid' = valid) as -> by congruence.
  assert (reply' = reply) as -> by (destruct valid; congruence).
  exists {| vhd := Some v'; pss_last :=
    <[wsi := (on_writeable lws_write wsi v' (vh_current v)).1.2]> (pss_last s) |}, cmds.
  split; [|done].
  cbn [run callback_lws_websocket]. rewrite Hvhd. cbn [of_option]. rewrite res_bind_ok, Hrec.
  rewrite !res_bind_ok. cbn [vhd pss_last of_option]. rewrite res_bind_ok, Hlast.
  unfold on_writeable. rewrite Hpl. rewrite (proj2 (Z.eqb_neq _ _)).
  2: { rewrite Hcur', s32_small by lia. lia. }
  unfold pending in Hpend. rewrite Hpl in Hpend. rewrite Hpend.
  destruct (lws_write wsi reply <? _); rewrite !res_bind_ok; rewrite <- app_assoc; done.
Qed.

Lemma packet_is_answered_witness :
  ∃ s' cmds reply, run false true sys0 write_all
    [(1%nat, RECEIVE (sample_packet ++ [0]) 23); (1%nat, SERVER_WRITEABLE)] fresh_plugin
    = Ok (s', cmds ++ [OnWritable 1; Write 1 reply]) ∧ getACK 3 = Ok reply.
Proof.
  destruct (getACK 3) as [reply|] eqn:E; [|vm_compute in E; discriminate E].
  destruct (packet_is_answered false write_all sys0 1 fresh_plugin
    {| vh_pss_list := [1%nat]; amsg_payload := None; amsg_len := 0; vh_current := 0 |}
    sample_packet [] (bs "3") (bs "DEV0017") reply
    [bs "21.5"; bs "48.0"; bs "026"] true) as (s' & cmds & H & _);
    try reflexivity; try by_compute.
  - change (atoi (bs "3")) with 3. exact E.
  - vm_compute in E. injection E as <-. vm_compute. lia.
  - exists s', cmds, reply. split; [exact H|reflexivity].
Defined.

(** [C30] A message shorter than 14 bytes never gets an orderly answer: whatever
    it contains, once its block is allocated the handler faults (every reply is
    at least 14 bytes and is copied into a block of the message's length). *)
Theorem short_message_faults
    (nd : bool) (system : list Z → Z) (lws_write : nat → list Z → Z)
    (wsi : nat) (s : plugin) (inmem : list Z) (len : nat) (Hlen : (len < 14)%nat) :
  is_ok (callback_lws_websocket nd true system lws_write wsi (RECEIVE inmem len) s) = false.
Proof.
  destruct (callback_lws_websocket _ _ _ _ _ _ _) as [r|f] eqn:E; [exfalso|done].
  simpl in E. apply bind_Ok_inv in E as (v & _ & E).
  apply bind_Ok_inv in E as ([v' outs] & E & _).
  destruct (on_receive_inv _ _ _ _ _ _ _ _ E)
    as (buf & toks & t0 & valid & reply & _ & _ & _ & _ & Hr & _ & _ & _ & _ & _ & Hle & _).
  pose proof (reply_length (atoi t0) reply) as H. destruct valid; specialize (H ltac:(auto)); lia.
Qed.

Lemma short_message_faults_witness :
  is_ok (callback_lws_websocket true true sys0 write_all 1
           (RECEIVE (bs "1,A,101" ++ [0]) 7) fresh_plugin) = false.
Proof. apply short_message_faults. lia. Defined.

(** [C29] One pending message per vhost: when a second connection's message is
    received before the first connection becomes writeable, the first one is
    sent the reply to the second one's packet, and its own reply is lost. *)
Theorem reply_goes_to_whoever_is_writeable
    (nd : bool) (system : list Z → Z) (lws_write : nat → list Z → Z)
    (a b : nat) (s s1 s2 s3 : plugin) (v v2 : vhost_data) (o1 o2 o3 : list output)
    (m1 m2 : list Z) (n1 n2 : nat)
    (Hvhd : vhd s = Some v) (Hlast : default 0 (pss_last s !! a) = vh_current v)
    (Hcur : INT_MIN <= vh_current v < INT_MAX - 1)
    (H1 : run nd true system lws_write [(a, RECEIVE m1 n1)] s = Ok (s1, o1))
    (H2 : run nd true system lws_write [(b, RECEIVE m2 n2)] s1 = Ok (s2, o2))
    (Hv2 : vhd s2 = Some v2)
    (H3 : run nd true system lws_write [(a, SERVER_WRITEABLE)] s2 = Ok (s3, o3)) :
  o3 = [Write a (pending v2)]
  ∧ ∃ ins toks t0 t valid, c_str m2 = Some ins ∧ str_split nd ins COMMA = Ok toks
      ∧ toks !! 0%nat = Some t0 ∧ isCRCValid (atoi t0) t = Ok valid
      ∧ (if valid : bool then getACK (atoi t0) else getNck (atoi t0)) = Ok (pending v2).
Proof.
  cbn [run callback_lws_websocket] in H1, H2, H3. rewrite Hvhd in H1. cbn [of_option] in H1.
  rewrite res_bind_ok in H1. apply bind_Ok_inv in H1 as ([[rc1 t1] u1] & H1 & E1).
  apply bind_Ok_inv in H1 as ([v1 w1] & H1 & E1'). injection E1' as <- <- <-.
  injection E1 as <- <-. cbn [vhd pss_last of_option] in H2. rewrite res_bind_ok in H2.
  apply bind_Ok_inv in H2 as ([[rc2 t2] u2] & H2 & E2).
  apply bind_Ok_inv in H2 as ([v2' w2] & H2 & E2'). injection E2' as <- <- <-.
  injection E2 as <- <-. cbn [vhd] in Hv2. injection Hv2 as ->.
  destruct (on_receive_inv _ _ _ _ _ _ _ _ H1)
    as (? & ? & ? & ? & ? & _ & _ & _ & _ & _ & _ & _ & _ & Hc1 & _).
  destruct (on_receive_inv _ _ _ _ _ _ _ _ H2)
    as (buf & toks & t0 & valid & reply & _ & (ins & Hins & Hsp) & Ht0 & Hcrc & Hrep
        & (pl & Hpl & _) & Hpend & Hlen & Hc2 & _).
  split.
  2: { exists ins, toks, t0, buf, valid. rewrite Hpend. destruct valid; auto. }
  cbn [vhd pss_last of_option] in H3. rewrite res_bind_ok in H3.
  unfold on_writeable in H3. rewrite Hpl, Hlast, (proj2 (Z.eqb_neq _ _)) in H3.
  2: { rewrite Hc2, Hc1, (s32_small (vh_current v + 1)) by lia. rewrite s32_small by lia. lia. }
  unfold pending. rewrite Hpl.
  destruct (lws_write a _ <? _); rewrite !res_bind_ok in H3; injection H3 as _ <-; done.
Qed.

Definition packet_a : list Z := sample_packet ++ [0].
Definition packet_b : list Z := bs "5,DEV0099,11.0,12.0,023" ++ [0].

Lemma reply_goes_to_whoever_is_writeable_witness :
  ∃ s1 o1 s2 o2 v2 s3 o3,
    run false true sys0 write_all [(1%nat, RECEIVE packet_a 23)] fresh_plugin = Ok (s1, o1)
    ∧ run false true sys0 write_all [(2%nat, RECEIVE packet_b 23)] s1 = Ok (s2, o2)
    ∧ vhd s2 = Some v2
    ∧ run false true sys0 write_all [(1%nat, SERVER_WRITEABLE)] s2 = Ok (s3, o3)
    ∧ o3 = [Write 1 (pending v2)] ∧ getACK 5 = Ok (pending v2) ∧ getACK 3 ≠ Ok (pending v2).
Proof.
  do 7 eexists. split; [vm_compute; reflexivity|]. split; [vm_compute; reflexivity|].
  split; [reflexivity|]. split; [vm_compute; reflexivity|]. split.
  - eapply (reply_goes_to_whoever_is_writeable false sys0 write_all 1 2 fresh_plugin)
      with (m1 := packet_a) (n1 := 23%nat) (m2 := packet_b) (n2 := 23%nat).
    + reflexivity.
    + reflexivity.
    + vm_compute. split; [discriminate|reflexivity].
    + vm_compute. reflexivity.
    + vm_compute. reflexivity.
    + reflexivity.
    + vm_compute. reflexivity.
  - split; [reflexivity|]. vm_compute. discriminate.
Defined.

(** The state stays well formed (the pending block holds the announced
    bytes, the message number is an int) through every run of callbacks. *)
Theorem run_preserves_wf
    (nd mo : bool) (system : list Z → Z) (lws_write : nat → list Z → Z)
    (evs : list (nat * reason)) (s s' : plugin) (outs : list output)
    (Hwf : plugin_wf s) (Hrun : run nd mo system lws_write evs s = Ok (s', outs)) :
  plugin_wf s'.
Proof.
  revert s outs Hwf Hrun. induction evs as [|[x r] evs IH]; intros s outs Hwf Hrun.
  { simpl in Hrun. res_inv. by subst. }
  cbn [run] in Hrun. apply bind_Ok_inv in Hrun as ([[rc s1] o1] & H1 & H).
  apply bind_Ok_inv in H as ([s2 o2] & H2 & H). injection H as <- <-.
  eapply IH; [|exact H2]. by eapply callback_wf.
Qed.

Lemma run_preserves_wf_witness :
  ∃ s' outs, run false true sys0 write_all
    [(1%nat, RECEIVE (sample_packet ++ [0]) 23); (1%nat, SERVER_WRITEABLE)] fresh_plugin
    = Ok (s', outs) ∧ plugin_wf s'.
Proof.
  do 2 eexists. split; [vm_compute; reflexivity|].
  eapply (run_preserves_wf false true sys0 write_all) with
    (evs := [(1%nat, RECEIVE (sample_packet ++ [0]) 23); (1%nat, SERVER_WRITEABLE)])
    (s := fresh_plugin).
  - intros v [= <-]. split; [done|vm_compute; split; discriminate].
  - vm_compute. reflexivity.
Defined.
