(* ===== verification/Ring.v ===== *)
(** * lws_ring: the multi-tail ring buffer

    Models lib/misc/lws-ring.c.  Positions are byte offsets in uint32_t; the
    buffer is a list of bytes, so a copy that leaves it is a [Fault].  The
    abstract contents seen from a tail are a slice of the doubled buffer, and
    the theorems state what each operation does to them. *)

From stdpp Require Import base numbers list strings.
From Stdlib Require Import ZArith Lia Znumtheory.
From S2P Require Import Prelude.

(** [struct lws_ring]; [r_destroy] says whether there is a destroy_element
    callback. *)
Record lws_ring := {
  r_buf : list Z;
  r_destroy : bool;
  r_buflen : Z;
  r_element_len : Z;
  r_head : Z;
  r_oldest_tail : Z;
}.

Definition set_head (r : lws_ring) (h : Z) : lws_ring :=
  {| r_buf := r_buf r; r_destroy := r_destroy r; r_buflen := r_buflen r;
     r_element_len := r_element_len r; r_head := h; r_oldest_tail := r_oldest_tail r |}.

Definition set_buf (r : lws_ring) (b : list Z) : lws_ring :=
  {| r_buf := b; r_destroy := r_destroy r; r_buflen := r_buflen r;
     r_element_len := r_element_len r; r_head := r_head r; r_oldest_tail := r_oldest_tail r |}.

Definition set_oldest_tail (r : lws_ring) (t : Z) : lws_ring :=
  {| r_buf := r_buf r; r_destroy := r_destroy r; r_buflen := r_buflen r;
     r_element_len := r_element_len r; r_head := r_head r; r_oldest_tail := t |}.

(** [lws_ring_create]; [fill] is what malloc returned, [None] when it failed. *)
Definition lws_ring_create (element_len count : Z) (destroy_element : bool)
    (fill : Z → option (list Z)) : option lws_ring :=
  let buflen := u32 (count * element_len) in
  match fill buflen with
  | None => None
  | Some b => Some {| r_buf := b; r_destroy := destroy_element; r_buflen := buflen;
                      r_element_len := u32 element_len; r_head := 0; r_oldest_tail := 0 |}
  end.

(** The loops that call destroy_element from the oldest tail up to [stop]: the
    offsets destroyed, in order.  [fuel] is the number of rounds allowed; [None]
    when the loop has not stopped by then. *)
Fixpoint destroy_loop (fuel : nat) (r : lws_ring) (tail stop : Z) : option (list Z) :=
  if tail =? stop then Some []
  else match fuel with
       | O => None
       | S f => cons tail <$>
                destroy_loop f r (u32 (tail + r_element_len r) `mod` r_buflen r) stop
       end.

(** Enough rounds for any tail of a well-formed ring. *)
Definition ring_rounds (r : lws_ring) : nat := Z.to_nat (r_buflen r).

(** [lws_ring_destroy]: the elements destroyed on the way. *)
Definition lws_ring_destroy (r : lws_ring) : option (list Z) :=
  if r_destroy r then destroy_loop (ring_rounds r) r (r_oldest_tail r) (r_head r)
  else Some [].

(** [lws_ring_get_count_free_elements]. *)
Definition lws_ring_get_count_free_elements (r : lws_ring) : Z :=
  let f :=
    if r_head r =? r_oldest_tail r then s32 (u32 (r_buflen r - r_element_len r))
    else if r_head r <? r_oldest_tail r
         then s32 (u32 (u32 (r_oldest_tail r - r_head r) - r_element_len r))
         else s32 (u32 (u32 (r_buflen r - r_head r) + r_oldest_tail r - r_element_len r)) in
  if f <? 2 then 0 else u32 f `div` r_element_len r.

(** [lws_ring_get_count_waiting_elements]; [tail = None] is the NULL pointer. *)
Definition tail_of (r : lws_ring) (tail : option Z) : Z := default (r_oldest_tail r) tail.

Definition lws_ring_get_count_waiting_elements (r : lws_ring) (tail : option Z) : Z :=
  let t := tail_of r tail in
  let f :=
    if r_head r =? t then 0
    else if t <? r_head r then s32 (u32 (r_head r - t))
    else s32 (u32 (u32 (r_buflen r - t) + r_head r)) in
  u32 f `div` r_element_len r.

(** [lws_ring_next_linear_insert_range]: [None] for the nonzero return, else
    the start offset and the number of bytes. *)
Definition lws_ring_next_linear_insert_range (r : lws_ring) : option (Z * Z) :=
  let n := s32 (lws_ring_get_count_free_elements r * r_element_len r) in
  if n =? 0 then None
  else if r_buflen r <? u32 (r_head r + n) then Some (r_head r, u32 (r_buflen r - r_head r))
  else Some (r_head r, n).

(** [lws_ring_bump_head]. *)
Definition lws_ring_bump_head (r : lws_ring) (bytes : Z) : lws_ring :=
  set_head r (u32 (r_head r + u32 bytes) `mod` r_buflen r).

(** Reading [n] bytes of an object from an offset. *)
Definition mem_read (m : list Z) (off n : Z) : res (list Z) :=
  if (0 <=? off) && (0 <=? n) && (off + n <=? Z.of_nat (length m))
  then Ok (take (Z.to_nat n) (drop (Z.to_nat off) m)) else Fault OutOfBounds.

(** [lws_ring_insert]: the number of elements inserted. *)
Definition lws_ring_insert (r : lws_ring) (src : list Z) (max_count : Z) : res (lws_ring * Z) :=
  let n := s32 (lws_ring_get_count_free_elements r * r_element_len r) in
  let n := if u64 (max_count * r_element_len r) <? u32 n
           then s32 (u64 (max_count * r_element_len r)) else n in
  '(r, soff, n) ←
    (if r_buflen r <? u32 (r_head r + n) then
       let m := s32 (u32 (r_buflen r - r_head r)) in
       data ← mem_read src 0 m;
       b ← memcpy (r_buf r) (Z.to_nat (r_head r)) data;
       Ok (set_head (set_buf r b) 0, m, n - m)
     else Ok (r, 0, n));
  data ← mem_read src soff n;
  b ← memcpy (r_buf r) (Z.to_nat (r_head r)) data;
  let r := set_buf r b in
  Ok (set_head r (u32 (r_head r + n) `mod` r_buflen r), (soff + n) `div` r_element_len r).

(** [lws_ring_update_oldest_tail]: the elements destroyed. *)
Definition lws_ring_update_oldest_tail (r : lws_ring) (tail : Z) : option (lws_ring * list Z) :=
  if negb (r_destroy r) then Some (set_oldest_tail r tail, [])
  else d ← destroy_loop (ring_rounds r) r (r_oldest_tail r) tail;
       Some (set_oldest_tail r tail, d).

(** What a consume gives back: the ring, the caller's tail afterwards, the
    bytes copied to dest, the elements destroyed, the number consumed. *)
Record consumed := {
  c_ring : lws_ring;
  c_tail : Z;
  c_data : list Z;
  c_destroyed : list Z;
  c_count : Z;
}.

(** The end of [lws_ring_consume]: with a single tail the oldest tail follows. *)
Definition consume_finish (r : lws_ring) (orig_tail : option Z) (t : Z)
    (data : list Z) (count : Z) : res (option consumed) :=
  match orig_tail with
  | Some _ => Ok (Some {| c_ring := r; c_tail := t; c_data := data; c_destroyed := []; c_count := count |})
  | None =>
      Ok ('(r', d) ← lws_ring_update_oldest_tail r t;
          Some {| c_ring := r'; c_tail := t; c_data := data; c_destroyed := d; c_count := count |})
  end.

(** [lws_ring_consume]; [dest] is the size of the destination, [None] for
    NULL.  [Ok None] is a destroy loop that has not stopped. *)
Definition lws_ring_consume (r : lws_ring) (tail : option Z) (dest : option Z)
    (max_count : Z) : res (option consumed) :=
  let t := tail_of r tail in
  let n := s32 (lws_ring_get_count_waiting_elements r (Some t) * r_element_len r) in
  let n := if u64 (max_count * r_element_len r) <? u64 n
           then s32 (u64 (max_count * r_element_len r)) else n in
  match dest with
  | None => consume_finish r tail (u32 (t + n) `mod` r_buflen r) [] (u32 n `div` r_element_len r)
  | Some cap =>
      '(t', d1, doff, n') ←
        (if r_buflen r <? u32 (t + n) then
           let m := s32 (u32 (r_buflen r - t)) in
           data ← mem_read (r_buf r) t m;
           _ ← check (m <=? cap) OutOfBounds;
           Ok (0, data, m, n - m)
         else Ok (t, [], 0, n));
      data ← mem_read (r_buf r) t' n';
      _ ← check (doff + n' <=? cap) OutOfBounds;
      consume_finish r tail (u32 (t' + n') `mod` r_buflen r) (d1 ++ data)
        ((doff + n') `div` r_element_len r)
  end.

(** [lws_ring_get_element]: the offset of the next element, [None] for NULL. *)
Definition lws_ring_get_element (r : lws_ring) (tail : option Z) : option Z :=
  if tail_of r tail =? r_head r then None else Some (tail_of r tail).

(** [lws_ring_get_oldest_tail]. *)
Definition lws_ring_get_oldest_tail (r : lws_ring) : Z := r_oldest_tail r.

(** ** Well-formed rings and their contents *)

(** [cap] elements of [element_len] bytes; the offsets are element aligned. *)
Definition on_element (r : lws_ring) (o : Z) : Prop :=
  0 <= o < r_buflen r ∧ (r_element_len r | o).

Record ring_wf (r : lws_ring) : Prop := {
  wf_elen : 0 < r_element_len r;
  wf_buflen : 0 < r_buflen r <= INT_MAX;
  wf_cap : (r_element_len r | r_buflen r);
  wf_buf : Z.of_nat (length (r_buf r)) = r_buflen r;
  wf_head : on_element r (r_head r);
  wf_tail : on_element r (r_oldest_tail r);
}.

(** Bytes waiting from [t] to the head. *)
Definition waiting (r : lws_ring) (t : Z) : Z := (r_head r - t) `mod` r_buflen r.

(** The bytes a tail at [t] has still to consume. *)
Definition contents (r : lws_ring) (t : Z) : list Z :=
  take (Z.to_nat (waiting r t)) (drop (Z.to_nat t) (r_buf r ++ r_buf r)).

(** ** Lemmas *)

(** The byte at a position of the (endless) ring. *)
Definition rd (b : list Z) (B i : Z) : option Z := b !! Z.to_nat (i `mod` B).

Lemma mod_of_range a B : 0 < B → 0 <= a < 2 * B → a `mod` B = if a <? B then a else a - B.
Proof.
  intros. destruct (Z.ltb_spec a B); [apply Z.mod_small; lia|].
  replace a with (a - B + 1 * B) at 1 by lia. rewrite Z.mod_add by lia. apply Z.mod_small. lia.
Qed.

Lemma contents_lookup r t (j : nat) :
  ring_wf r → 0 <= t < r_buflen r → Z.of_nat j < waiting r t →
  contents r t !! j = rd (r_buf r) (r_buflen r) (t + Z.of_nat j).
Proof.
  intros Hwf Ht Hj. destruct Hwf as [He HB _ Hbuf _ _].
  assert (waiting r t < r_buflen r) by (apply Z.mod_pos_bound; lia).
  unfold contents, rd. rewrite lookup_take_lt by lia. rewrite lookup_drop.
  rewrite mod_of_range by lia.
  destruct (Z.ltb_spec (t + Z.of_nat j) (r_buflen r)).
  - rewrite lookup_app_l by lia. f_equal. lia.
  - rewrite lookup_app_r by lia. f_equal. lia.
Qed.

Lemma contents_length r t :
  ring_wf r → 0 <= t < r_buflen r → Z.of_nat (length (contents r t)) = waiting r t.
Proof.
  intros Hwf Ht. destruct Hwf as [He HB _ Hbuf _ _].
  assert (0 <= waiting r t < r_buflen r) by (apply Z.mod_pos_bound; lia).
  unfold contents. rewrite length_take, length_drop, length_app. lia.
Qed.

(** Copying [d] at [h], cut in two at the end of the buffer. *)
Definition ring_write (b : list Z) (B h : Z) (d : list Z) : list Z :=
  if B <? h + Z.of_nat (length d)
  then blit (blit b (Z.to_nat h) (take (Z.to_nat (B - h)) d)) 0 (drop (Z.to_nat (B - h)) d)
  else blit b (Z.to_nat h) d.

Lemma ring_write_length b B h d :
  Z.of_nat (length b) = B → 0 <= h < B → Z.of_nat (length d) <= B →
  length (ring_write b B h d) = length b.
Proof.
  intros. unfold ring_write. destruct (Z.ltb_spec B (h + Z.of_nat (length d))).
  - assert (length (blit b (Z.to_nat h) (take (Z.to_nat (B - h)) d)) = length b) as E
      by (apply length_blit; rewrite length_take; lia).
    rewrite length_blit; [done|]. rewrite E, length_drop. lia.
  - apply length_blit. lia.
Qed.

Lemma ring_write_new b B h d i :
  Z.of_nat (length b) = B → 0 <= h < B → Z.of_nat (length d) <= B →
  0 <= i < Z.of_nat (length d) →
  rd (ring_write b B h d) B (h + i) = d !! Z.to_nat i.
Proof.
  intros Hb Hh Hd Hi. unfold rd, ring_write. rewrite mod_of_range by lia.
  destruct (Z.ltb_spec B (h + Z.of_nat (length d))).
  - assert (length (blit b (Z.to_nat h) (take (Z.to_nat (B - h)) d)) = length b) as E
      by (apply length_blit; rewrite length_take; lia).
    destruct (Z.ltb_spec (h + i) B).
    + rewrite blit_lookup_ge by (rewrite ?E, length_drop; lia).
      rewrite blit_lookup_in by (rewrite ?length_take; lia).
      rewrite lookup_take_lt by lia. f_equal. lia.
    + rewrite blit_lookup_in by (rewrite ?length_drop; lia).
      rewrite lookup_drop. f_equal. lia.
  - rewrite (proj2 (Z.ltb_lt _ _)) by lia. rewrite blit_lookup_in by lia. f_equal. lia.
Qed.

Lemma ring_write_old b B h d i :
  Z.of_nat (length b) = B → 0 <= h < B → Z.of_nat (length d) <= B →
  Z.of_nat (length d) <= i < B →
  rd (ring_write b B h d) B (h + i) = rd b B (h + i).
Proof.
  intros Hb Hh Hd Hi. unfold rd, ring_write. rewrite mod_of_range by lia.
  destruct (Z.ltb_spec B (h + Z.of_nat (length d))).
  - assert (length (blit b (Z.to_nat h) (take (Z.to_nat (B - h)) d)) = length b) as E
      by (apply length_blit; rewrite length_take; lia).
    rewrite (proj2 (Z.ltb_ge _ _)) by lia.
    rewrite blit_lookup_ge by (rewrite ?E, length_drop; lia).
    by rewrite blit_lookup_lt by lia.
  - destruct (Z.ltb_spec (h + i) B).
    + by rewrite blit_lookup_ge by lia.
    + by rewrite blit_lookup_lt by lia.
Qed.

Lemma waiting_bounds r t :
  ring_wf r → on_element r t →
  0 <= waiting r t <= r_buflen r - r_element_len r ∧ (r_element_len r | waiting r t).
Proof.
  intros [He HB Hcap _ [Hh1 Hh2] _] [Ht1 Ht2]. unfold waiting.
  assert ((r_element_len r | (r_head r - t) `mod` r_buflen r)) as Hd.
  { rewrite Z.mod_eq by lia. apply Z.divide_sub_r; [by apply Z.divide_sub_r|].
    by apply Z.divide_mul_l. }
  pose proof (Z.mod_pos_bound (r_head r - t) (r_buflen r)). split; [|done]. split; [lia|].
  destruct Hd as [k Hk], Hcap as [c Hc]. assert (k < c) by nia. nia.
Qed.

Lemma count_waiting_bytes r t :
  ring_wf r → on_element r t →
  lws_ring_get_count_waiting_elements r (Some t) * r_element_len r = waiting r t.
Proof.
  intros Hwf Ht. destruct (waiting_bounds r t Hwf Ht) as [Hw Hd].
  destruct Hwf as [He HB Hcap Hbuf [Hh _] _]. destruct Ht as [Ht _].
  unfold INT_MAX in HB. unfold lws_ring_get_count_waiting_elements.
  change (tail_of r (Some t)) with t. cbv zeta.
  assert ((if r_head r =? t then 0
           else if t <? r_head r then s32 (u32 (r_head r - t))
           else s32 (u32 (u32 (r_buflen r - t) + r_head r))) = waiting r t) as ->.
  { unfold waiting. destruct (Z.eqb_spec (r_head r) t) as [->|]; [by rewrite Z.sub_diag, Z.mod_0_l by lia|].
    destruct (Z.ltb_spec t (r_head r)).
    - rewrite u32_small, s32_small by (unfold INT_MIN, INT_MAX; lia). symmetry. apply Z.mod_small. lia.
    - rewrite !u32_small by (rewrite ?u32_small; lia).
      rewrite s32_small by (unfold INT_MIN, INT_MAX; lia).
      rewrite <- (Z.mod_add _ 1), mod_of_range by lia.
      rewrite (proj2 (Z.ltb_lt _ _)) by lia. lia. }
  rewrite u32_small by lia. destruct Hd as [k ->]. by rewrite Z.div_mul by lia.
Qed.

(** Bytes the code offers for insertion: the free bytes less one element, and
    none when that is a single byte. *)
Definition free_bytes (r : lws_ring) : Z :=
  let f := r_buflen r - r_element_len r - waiting r (r_oldest_tail r) in
  if f <? 2 then 0 else f.

Lemma count_free_bytes r :
  ring_wf r → lws_ring_get_count_free_elements r * r_element_len r = free_bytes r.
Proof.
  intros Hwf. destruct (waiting_bounds r _ Hwf (wf_tail r Hwf)) as [Hw Hd].
  destruct Hwf as [He HB Hcap Hbuf [Hh _] [Ht _]]. unfold INT_MAX in HB.
  unfold lws_ring_get_count_free_elements, free_bytes. cbv zeta.
  assert ((if r_head r =? r_oldest_tail r then s32 (u32 (r_buflen r - r_element_len r))
           else if r_head r <? r_oldest_tail r
                then s32 (u32 (u32 (r_oldest_tail r - r_head r) - r_element_len r))
                else s32 (u32 (u32 (r_buflen r - r_head r) + r_oldest_tail r - r_element_len r)))
          = r_buflen r - r_element_len r - waiting r (r_oldest_tail r)) as ->.
  { unfold waiting in *.
    destruct (Z.eqb_spec (r_head r) (r_oldest_tail r)) as [E|E].
    { rewrite E, Z.sub_diag, Z.mod_0_l in * by lia.
      rewrite u32_small, s32_small by (unfold INT_MIN, INT_MAX; lia). lia. }
    destruct (Z.ltb_spec (r_head r) (r_oldest_tail r)) as [L|L].
    - rewrite <- (Z.mod_add _ 1), mod_of_range in * by lia.
      rewrite (proj2 (Z.ltb_lt _ _)) in * by lia.
      rewrite (u32_small (r_oldest_tail r - r_head r)) by lia.
      rewrite u32_small, s32_small by (unfold INT_MIN, INT_MAX; lia). lia.
    - rewrite Z.mod_small in * by lia.
      rewrite (u32_small (r_buflen r - r_head r)) by lia.
      rewrite u32_small, s32_small by (unfold INT_MIN, INT_MAX; lia). lia. }
  destruct (Z.ltb_spec (r_buflen r - r_element_len r - waiting r (r_oldest_tail r)) 2); [lia|].
  rewrite u32_small by lia.
  assert ((r_element_len r | r_buflen r - r_element_len r - waiting r (r_oldest_tail r))) as [k Hk].
  { repeat apply Z.divide_sub_r; auto using Z.divide_refl. }
  rewrite Hk. by rewrite Z.div_mul by lia.
Qed.

Lemma mem_read_Ok m off n :
  0 <= off → 0 <= n → off + n <= Z.of_nat (length m) →
  mem_read m off n = Ok (take (Z.to_nat n) (drop (Z.to_nat off) m)).
Proof. intros. unfold mem_read. by rewrite !(proj2 (Z.leb_le _ _)) by lia. Qed.

(** Bytes an insert of at most [max_count] elements takes. *)
Definition insert_bytes (r : lws_ring) (max_count : Z) : Z :=
  Z.min (free_bytes r) (max_count * r_element_len r).

Lemma free_bytes_bounds r :
  ring_wf r →
  0 <= free_bytes r <= r_buflen r - r_element_len r - waiting r (r_oldest_tail r)
  ∧ (r_element_len r | free_bytes r).
Proof.
  intros Hwf. destruct (waiting_bounds r _ Hwf (wf_tail r Hwf)) as [Hw Hd].
  destruct Hwf as [He HB Hcap _ _ _]. unfold free_bytes.
  destruct (Z.ltb_spec (r_buflen r - r_element_len r - waiting r (r_oldest_tail r)) 2).
  - split; [lia|]. apply Z.divide_0_r.
  - split; [lia|]. repeat apply Z.divide_sub_r; auto using Z.divide_refl.
Qed.

Lemma insert_eq r src max_count :
  ring_wf r → 0 <= max_count → max_count * r_element_len r <= Z.of_nat (length src) →
  max_count * r_element_len r < 18446744073709551616 →
  let n := insert_bytes r max_count in
  lws_ring_insert r src max_count
  = Ok (set_head (set_buf r (ring_write (r_buf r) (r_buflen r) (r_head r) (take (Z.to_nat n) src)))
          ((r_head r + n) `mod` r_buflen r), n `div` r_element_len r).
Proof.
  intros Hwf Hm Hsrc Hbig n. destruct (free_bytes_bounds r Hwf) as [Hf _].
  pose proof (proj1 (waiting_bounds r _ Hwf (wf_tail r Hwf))) as Hw.
  pose proof (count_free_bytes r Hwf) as Hcf. destruct Hwf as [He HB _ Hbuf [Hh _] _].
  unfold INT_MAX in HB.
  assert (0 <= n <= free_bytes r ∧ n <= Z.of_nat (length src)) as [Hn Hns].
  { subst n. unfold insert_bytes. nia. }
  unfold lws_ring_insert. cbv zeta. rewrite Hcf, !(s32_small (free_bytes r)) by (unfold INT_MIN, INT_MAX; lia).
  rewrite (u64_small (max_count * r_element_len r)) by nia.
  rewrite (u32_small (free_bytes r)) by lia.
  assert ((if max_count * r_element_len r <? free_bytes r
           then s32 (max_count * r_element_len r) else free_bytes r) = n) as ->.
  { subst n. unfold insert_bytes.
    destruct (Z.ltb_spec (max_count * r_element_len r) (free_bytes r)); [|lia].
    rewrite s32_small by (unfold INT_MIN, INT_MAX; nia). lia. }
  rewrite (u32_small (r_head r + n)) by lia.
  assert (Z.of_nat (length (take (Z.to_nat n) src)) = n) as Hlt by (rewrite length_take; lia).
  unfold ring_write. rewrite Hlt.
  destruct (Z.ltb_spec (r_buflen r) (r_head r + n)) as [L|L].
  - rewrite (u32_small (r_buflen r - r_head r)), !s32_small by (unfold INT_MIN, INT_MAX; lia).
    rewrite mem_read_Ok by lia. rewrite res_bind_ok, drop_0.
    assert (length (blit (r_buf r) (Z.to_nat (r_head r)) (take (Z.to_nat (r_buflen r - r_head r)) src))
            = length (r_buf r)) as E by (apply length_blit; rewrite length_take; lia).
    rewrite memcpy_Ok by (rewrite length_take; lia). rewrite !res_bind_ok.
    cbn [r_buf set_head set_buf r_head].
    rewrite mem_read_Ok by lia. rewrite res_bind_ok.
    rewrite memcpy_Ok by (rewrite E, length_take, length_drop; lia). rewrite res_bind_ok.
    rewrite take_take, Nat.min_l by lia.
    do 2 f_equal; [|f_equal; lia].
    unfold set_head, set_buf. cbn. f_equal.
    + f_equal. rewrite skipn_firstn_comm. f_equal. lia.
    + rewrite u32_small by lia. rewrite (mod_of_range (r_head r + n)) by lia.
      rewrite (proj2 (Z.ltb_ge _ _)) by lia. rewrite Z.mod_small; lia.
  - rewrite res_bind_ok. rewrite mem_read_Ok by lia. rewrite res_bind_ok, drop_0.
    rewrite memcpy_Ok by (rewrite length_take; lia). rewrite res_bind_ok.
    cbn [r_buf set_head set_buf r_head r_buflen]. by rewrite u32_small by lia.
Qed.

Lemma insert_contents r d t :
  let n := Z.of_nat (length d) in
  let r' := set_head (set_buf r (ring_write (r_buf r) (r_buflen r) (r_head r) d))
              ((r_head r + n) `mod` r_buflen r) in
  ring_wf r → (r_element_len r | n) → 0 <= t < r_buflen r →
  waiting r t + n < r_buflen r →
  ring_wf r' ∧ waiting r' t = waiting r t + n ∧ contents r' t = contents r t ++ d.
Proof.
  intros n r' Hwf Hdiv Ht Hn. pose proof Hwf as [He HB Hcap Hbuf [Hh Hhd] Htl].
  assert (0 <= waiting r t < r_buflen r) as Hw by (apply Z.mod_pos_bound; lia).
  assert (ring_wf r') as Hwf'.
  { constructor; cbn; try done.
    - rewrite ring_write_length by lia. done.
    - unfold on_element. cbn. split; [apply Z.mod_pos_bound; lia|].
      rewrite Z.mod_eq by lia. apply Z.divide_sub_r; [by apply Z.divide_add_r|].
      by apply Z.divide_mul_l. }
  assert (waiting r' t = waiting r t + n) as Hw'.
  { unfold waiting. cbn. rewrite Zminus_mod_idemp_l.
    replace (r_head r + n - t) with ((r_head r - t) + n) by lia.
    rewrite <- Zplus_mod_idemp_l. fold (waiting r t). apply Z.mod_small. lia. }
  split; [done|]. split; [done|].
  assert (r_head r `mod` r_buflen r = (t + waiting r t) `mod` r_buflen r) as Hmod.
  { unfold waiting. rewrite Zplus_mod_idemp_r. f_equal. lia. }
  assert (∀ k, (t + waiting r t + k) `mod` r_buflen r = (r_head r + k) `mod` r_buflen r) as Hshift.
  { intros k. rewrite <- Zplus_mod_idemp_l, <- Hmod. by rewrite Zplus_mod_idemp_l. }
  apply list_eq_same_length with (n := Z.to_nat (waiting r t + n)).
  - rewrite length_app. pose proof (contents_length r t Hwf Ht). lia.
  - pose proof (contents_length r' t Hwf' Ht). lia.
  - intros j x y Hj. rewrite contents_lookup by (cbn; lia || done). cbn.
    pose proof (contents_length r t Hwf Ht) as Hcl.
    destruct (Z.ltb_spec (Z.of_nat j) (waiting r t)) as [L|L].
    + rewrite lookup_app_l by lia. rewrite contents_lookup by done.
      replace (t + Z.of_nat j) with (t + waiting r t + (Z.of_nat j - waiting r t)) by lia.
      unfold rd at 1. rewrite Hshift. rewrite <- (Z.mod_add _ 1) by lia.
      replace (r_head r + (Z.of_nat j - waiting r t) + 1 * r_buflen r)
        with (r_head r + (Z.of_nat j - waiting r t + r_buflen r)) by lia.
      fold (rd (ring_write (r_buf r) (r_buflen r) (r_head r) d) (r_buflen r)
              (r_head r + (Z.of_nat j - waiting r t + r_buflen r))).
      rewrite ring_write_old by lia. unfold rd. rewrite Hshift.
      replace (r_head r + (Z.of_nat j - waiting r t + r_buflen r))
        with (r_head r + (Z.of_nat j - waiting r t) + 1 * r_buflen r) by lia.
      rewrite Z.mod_add by lia. congruence.
    + rewrite lookup_app_r by lia.
      replace (t + Z.of_nat j) with (t + waiting r t + (Z.of_nat j - waiting r t)) by lia.
      unfold rd. rewrite Hshift. fold (rd (ring_write (r_buf r) (r_buflen r) (r_head r) d) (r_buflen r)
              (r_head r + (Z.of_nat j - waiting r t))).
      rewrite ring_write_new by lia.
      replace (Z.to_nat (Z.of_nat j - waiting r t)) with (j - length (contents r t))%nat by lia.
      congruence.
Qed.

(** Bytes a consume of at most [max_count] elements takes. *)
Definition consume_bytes (r : lws_ring) (t max_count : Z) : Z :=
  Z.min (waiting r t) (max_count * r_element_len r).

Lemma consume_bytes_bounds r t max_count :
  ring_wf r → on_element r t → 0 <= max_count →
  0 <= consume_bytes r t max_count <= waiting r t
  ∧ (r_element_len r | consume_bytes r t max_count).
Proof.
  intros Hwf Ht Hm. destruct (waiting_bounds r t Hwf Ht) as [Hw Hd].
  pose proof (wf_elen r Hwf). unfold consume_bytes. split; [nia|].
  destruct (Z.min_spec (waiting r t) (max_count * r_element_len r)) as [[_ ->]|[_ ->]]; [done|].
  apply Z.divide_factor_r.
Qed.

(** Moving a tail on by [n] bytes drops them from its contents. *)
Lemma advance_contents r t n :
  ring_wf r → on_element r t → 0 <= n <= waiting r t → (r_element_len r | n) →
  on_element r ((t + n) `mod` r_buflen r)
  ∧ waiting r ((t + n) `mod` r_buflen r) = waiting r t - n
  ∧ contents r ((t + n) `mod` r_buflen r) = drop (Z.to_nat n) (contents r t).
Proof.
  intros Hwf [Ht Htd] Hn Hdiv. pose proof Hwf as [He HB Hcap Hbuf _ _].
  assert (0 <= waiting r t < r_buflen r) as Hw by (apply Z.mod_pos_bound; lia).
  assert (0 <= (t + n) `mod` r_buflen r < r_buflen r) as Ht' by (apply Z.mod_pos_bound; lia).
  assert (waiting r ((t + n) `mod` r_buflen r) = waiting r t - n) as Hw'.
  { unfold waiting in *. rewrite Zminus_mod_idemp_r.
    replace (r_head r - (t + n)) with (r_head r - t - n) by lia.
    rewrite <- Zminus_mod_idemp_l. apply Z.mod_small. lia. }
  split; [split; [done|]|split; [done|]].
  { rewrite Z.mod_eq by lia. apply Z.divide_sub_r; [by apply Z.divide_add_r|]. by apply Z.divide_mul_l. }
  pose proof (contents_length r _ Hwf Ht') as L1. pose proof (contents_length r _ Hwf Ht) as L2.
  apply list_eq_same_length with (n := Z.to_nat (waiting r t - n)).
  - rewrite length_drop. lia.
  - lia.
  - intros j x y Hj. rewrite lookup_drop, !contents_lookup by (done || lia). unfold rd.
    rewrite Zplus_mod_idemp_l.
    replace (t + Z.of_nat (Z.to_nat n + j)) with (t + n + Z.of_nat j) by lia. congruence.
Qed.

Lemma destroy_loop_spec r (k : nat) fuel t :
  ring_wf r → on_element r t → Z.of_nat k * r_element_len r < r_buflen r → (k ≤ fuel)%nat →
  destroy_loop fuel r t ((t + Z.of_nat k * r_element_len r) `mod` r_buflen r)
  = Some ((λ i, (t + Z.of_nat i * r_element_len r) `mod` r_buflen r) <$> seq 0 k).
Proof.
  intros Hwf. pose proof Hwf as [He HB Hcap _ _ _]. unfold INT_MAX in HB.
  revert fuel t. induction k as [|k IH]; intros fuel t [Ht Htd] Hk Hf.
  { rewrite Z.mul_0_l, Z.add_0_r, Z.mod_small by done.
    destruct fuel; cbn [destroy_loop]; by rewrite Z.eqb_refl. }
  destruct fuel as [|f]; [lia|]. cbn [destroy_loop].
  rewrite (proj2 (Z.eqb_neq _ _)).
  2: { intros E. rewrite mod_of_range in E by nia.
       destruct (Z.ltb_spec (t + Z.of_nat (S k) * r_element_len r) (r_buflen r)); nia. }
  rewrite u32_small by nia.
  assert ((t + Z.of_nat (S k) * r_element_len r) `mod` r_buflen r
          = ((t + r_element_len r) `mod` r_buflen r + Z.of_nat k * r_element_len r) `mod` r_buflen r) as ->.
  { rewrite Zplus_mod_idemp_l. f_equal. lia. }
  rewrite IH; [|split; [apply Z.mod_pos_bound; lia|]|nia|lia].
  2: { rewrite Z.mod_eq by lia. apply Z.divide_sub_r; [|by apply Z.divide_mul_l].
       apply Z.divide_add_r; [done|apply Z.divide_refl]. }
  cbn [fmap option_fmap option_map]. f_equal. cbn [seq fmap list_fmap]. f_equal.
  - rewrite Z.mul_0_l, Z.add_0_r, Z.mod_small by done. done.
  - rewrite <- fmap_S_seq, <- list_fmap_compose. apply list_fmap_ext. intros i x _. cbn.
    rewrite Zplus_mod_idemp_l. f_equal. lia.
Qed.

(** The elements from [t] on, as offsets. *)
Definition elements_from (r : lws_ring) (t n : Z) : list Z :=
  (λ i, (t + Z.of_nat i * r_element_len r) `mod` r_buflen r)
    <$> seq 0 (Z.to_nat (n `div` r_element_len r)).

Lemma update_oldest_tail_eq r n :
  ring_wf r → 0 <= n <= waiting r (r_oldest_tail r) → (r_element_len r | n) →
  lws_ring_update_oldest_tail r ((r_oldest_tail r + n) `mod` r_buflen r)
  = Some (set_oldest_tail r ((r_oldest_tail r + n) `mod` r_buflen r),
          if r_destroy r then elements_from r (r_oldest_tail r) n else []).
Proof.
  intros Hwf Hn [k Hk]. pose proof (proj1 (waiting_bounds r _ Hwf (wf_tail r Hwf))) as Hw.
  pose proof Hwf as [He HB _ _ _ Ht]. unfold lws_ring_update_oldest_tail.
  destruct (r_destroy r); cbn [negb]; [|done].
  assert (0 <= k) by nia.
  replace n with (Z.of_nat (Z.to_nat k) * r_element_len r) by (rewrite Z2Nat.id; lia).
  rewrite destroy_loop_spec; try done.
  - cbn. unfold elements_from. rewrite Z.div_mul by lia. by rewrite Nat2Z.id.
  - rewrite Z2Nat.id; lia.
  - unfold ring_rounds. apply Z2Nat.inj_le; [lia..|]. nia.
Qed.

(** The state after a consume by tail [t]. *)
Definition consume_ring (r : lws_ring) (tail : option Z) (t' : Z) : lws_ring :=
  match tail with Some _ => r | None => set_oldest_tail r t' end.

Lemma consume_eq r tail dest max_count :
  ring_wf r → on_element r (tail_of r tail) → 0 <= max_count →
  max_count * r_element_len r < 18446744073709551616 →
  let t := tail_of r tail in
  let n := consume_bytes r t max_count in
  let t' := (t + n) `mod` r_buflen r in
  (∀ cap, dest = Some cap → n <= cap) →
  lws_ring_consume r tail dest max_count
  = Ok (Some {| c_ring := consume_ring r tail t'; c_tail := t';
                c_data := (if dest is Some _ then take (Z.to_nat n) (contents r t) else []);
                c_destroyed := (if tail is Some _ then [] else
                                if r_destroy r then elements_from r t n else []);
                c_count := n `div` r_element_len r |}).
Proof.
  intros Hwf Ht Hm Hbig t n t' Hcap.
  destruct (consume_bytes_bounds r t max_count Hwf Ht Hm) as [Hn Hdiv]. fold n in Hn, Hdiv.
  pose proof (proj1 (waiting_bounds r _ Hwf Ht)) as Hw. fold t in Hw.
  pose proof (count_waiting_bytes r t Hwf Ht) as Hcw.
  pose proof Hwf as [He HB _ Hbuf _ _]. destruct Ht as [Ht _]. fold t in Ht. unfold INT_MAX in HB.
  assert (∀ data count, consume_finish r tail t' data count
    = Ok (Some {| c_ring := consume_ring r tail t'; c_tail := t'; c_data := data;
                c_destroyed := (if tail is Some _ then [] else
                                if r_destroy r then elements_from r t n else []);
                c_count := count |})) as Hfin.
  { intros data count. unfold consume_finish, consume_ring, t', t. destruct tail as [z|]; [done|].
    change (tail_of r None) with (r_oldest_tail r). rewrite (update_oldest_tail_eq r n Hwf) by done. done. }
  unfold lws_ring_consume. fold t. cbv zeta. rewrite Hcw, !(s32_small (waiting r t)) by (unfold INT_MIN, INT_MAX; lia).
  rewrite (u64_small (max_count * r_element_len r)), (u64_small (waiting r t)) by nia.
  assert ((if max_count * r_element_len r <? waiting r t
           then s32 (max_count * r_element_len r) else waiting r t) = n) as ->.
  { subst n. unfold consume_bytes.
    destruct (Z.ltb_spec (max_count * r_element_len r) (waiting r t)); [|lia].
    rewrite s32_small by (unfold INT_MIN, INT_MAX; nia). lia. }
  rewrite !(u32_small (t + n)), (u32_small n) by lia.
  destruct dest as [cap|]; [|apply Hfin]. specialize (Hcap cap eq_refl).
  assert (take (Z.to_nat n) (contents r t)
          = take (Z.to_nat n) (drop (Z.to_nat t) (r_buf r) ++ r_buf r)) as ->.
  { unfold contents. rewrite take_take, Nat.min_l by lia. by rewrite drop_app_le by lia. }
  destruct (Z.ltb_spec (r_buflen r) (t + n)) as [L|L].
  - rewrite (u32_small (r_buflen r - t)), !s32_small by (unfold INT_MIN, INT_MAX; lia).
    rewrite mem_read_Ok by lia. rewrite res_bind_ok, check_true by (apply Z.leb_le; lia).
    rewrite !res_bind_ok. rewrite mem_read_Ok by lia.
    rewrite res_bind_ok, check_true by (apply Z.leb_le; lia). rewrite res_bind_ok, drop_0.
    replace (u32 (0 + (n - (r_buflen r - t))) `mod` r_buflen r) with t'.
    + rewrite Hfin. do 3 f_equal; [|f_equal; lia].
      rewrite take_app, length_drop. f_equal.
      * rewrite !take_ge; [done|rewrite length_drop; lia..].
      * f_equal. lia.
    + unfold t'. rewrite u32_small, (mod_of_range (t + n)) by lia.
      rewrite (proj2 (Z.ltb_ge _ _)) by lia. rewrite Z.mod_small; lia.
  - rewrite res_bind_ok. rewrite mem_read_Ok by lia.
    rewrite res_bind_ok, check_true by (apply Z.leb_le; lia). rewrite res_bind_ok.
    rewrite u32_small by lia. fold t'. rewrite Hfin. do 3 f_equal.
    rewrite take_app_le; [done|]. rewrite length_drop. lia.
Qed.

(** ** The abstract first-in first-out queue the ring implements *)

(** A queue of bytes with room for [q_cap] bytes, moved in whole elements. *)
Module Fifo.

Inductive op :=
  | Put (src : list Z) (max_count : Z)
  | Get (max_count : Z).

Inductive answer :=
  | Took (count : Z)
  | Gave (data : list Z) (count : Z).

(** [elen] bytes per element, [cap] bytes of room: a bounded queue takes as many
    elements as there is room for and as are offered, and gives as many as it
    has and as are asked for. *)
Definition step (elen cap : Z) (q : list Z) (o : op) : list Z * answer :=
  match o with
  | Put src max_count =>
      let f := cap - Z.of_nat (length q) in
      let n := Z.min f (max_count * elen) in
      (q ++ take (Z.to_nat n) src, Took (n `div` elen))
  | Get max_count =>
      let n := Z.min (Z.of_nat (length q)) (max_count * elen) in
      (drop (Z.to_nat n) q, Gave (take (Z.to_nat n) q) (n `div` elen))
  end.

Fixpoint steps (elen cap : Z) (q : list Z) (os : list op) : list Z * list answer :=
  match os with
  | [] => (q, [])
  | o :: os' =>
      let '(q1, a) := step elen cap q o in
      let '(q2, l) := steps elen cap q1 os' in (q2, a :: l)
  end.

End Fifo.

(** The same operations on a ring with a single tail; the destination of a
    consume has room for what is asked. *)
Definition ring_op (r : lws_ring) (o : Fifo.op) : res (option (lws_ring * Fifo.answer)) :=
  match o with
  | Fifo.Put src max_count =>
      '(r', k) ← lws_ring_insert r src max_count; Ok (Some (r', Fifo.Took k))
  | Fifo.Get max_count =>
      c ← lws_ring_consume r None (Some (max_count * r_element_len r)) max_count;
      Ok (match c with
          | None => None
          | Some c => Some (c_ring c, Fifo.Gave (c_data c) (c_count c))
          end)
  end.

Fixpoint ring_ops (r : lws_ring) (os : list Fifo.op) : res (option (lws_ring * list Fifo.answer)) :=
  match os with
  | [] => Ok (Some (r, []))
  | o :: os' =>
      x ← ring_op r o;
      match x with
      | None => Ok None
      | Some (r1, a) =>
          y ← ring_ops r1 os';
          Ok (match y with None => None | Some (r2, l) => Some (r2, a :: l) end)
      end
  end.

(** Requests whose arguments make sense: the source holds what is announced. *)
Definition good_op (elen : Z) (o : Fifo.op) : Prop :=
  match o with
  | Fifo.Put src m => 0 <= m ∧ m * elen <= Z.of_nat (length src) < 18446744073709551616
  | Fifo.Get m => 0 <= m ∧ m * elen < 18446744073709551616
  end.

(** The code refuses to fill the last byte of room: with elements of two bytes
    or more it is never the only one. *)
Lemma free_bytes_exact r :
  ring_wf r → 2 <= r_element_len r →
  free_bytes r = r_buflen r - r_element_len r - waiting r (r_oldest_tail r).
Proof.
  intros Hwf He2. destruct (waiting_bounds r _ Hwf (wf_tail r Hwf)) as [Hw [k Hk]].
  destruct (wf_cap r Hwf) as [c Hc]. unfold free_bytes. cbv zeta.
  destruct (Z.ltb_spec (r_buflen r - r_element_len r - waiting r (r_oldest_tail r)) 2) as [Hlt|]; [|done].
  assert (r_buflen r - r_element_len r - waiting r (r_oldest_tail r) = (c - 1 - k) * r_element_len r) as E
    by (rewrite Hk, Hc; ring).
  destruct (Z.le_gt_cases (c - 1 - k) 0); nia.
Qed.

Lemma ring_op_refines r o :
  ring_wf r → 2 <= r_element_len r → good_op (r_element_len r) o →
  ∃ r', ring_op r o
        = Ok (Some (r', (Fifo.step (r_element_len r) (r_buflen r - r_element_len r)
                           (contents r (r_oldest_tail r)) o).2))
    ∧ ring_wf r' ∧ r_element_len r' = r_element_len r ∧ r_buflen r' = r_buflen r
    ∧ contents r' (r_oldest_tail r')
      = (Fifo.step (r_element_len r) (r_buflen r - r_element_len r)
           (contents r (r_oldest_tail r)) o).1.
Proof.
  intros Hwf He2 Ho. pose proof (wf_tail r Hwf) as Ht. pose proof (wf_elen r Hwf) as He.
  pose proof (contents_length r _ Hwf (proj1 Ht)) as Hlen. destruct o as [src m|m]; cbn in Ho.
  - destruct Ho as (Hm & Hsrc & Hbig). destruct (free_bytes_bounds r Hwf) as [Hf Hfd].
    cbn [ring_op]. rewrite insert_eq by (done || lia). rewrite res_bind_ok.
    eexists. cbn [Fifo.step fst snd]. rewrite Hlen.
    rewrite <- (free_bytes_exact r Hwf He2). fold (insert_bytes r m). split; [done|].
    set (n := insert_bytes r m).
    assert (0 <= n <= free_bytes r ∧ n <= Z.of_nat (length src)) as [Hn Hns]
      by (unfold n, insert_bytes; nia).
    assert (Z.of_nat (length (take (Z.to_nat n) src)) = n) as Hd by (rewrite length_take; lia).
    assert ((r_element_len r | n)) as Hdiv.
    { unfold n, insert_bytes.
      destruct (Z.min_spec (free_bytes r) (m * r_element_len r)) as [[_ ->]|[_ ->]]; [done|].
      apply Z.divide_factor_r. }
    destruct (insert_contents r (take (Z.to_nat n) src) (r_oldest_tail r)) as (H1 & _ & H3);
      rewrite ?Hd; try done; [apply Ht|lia|]. rewrite Hd in H1, H3. done.
  - destruct Ho as [Hm Hbig].
    destruct (consume_bytes_bounds r (r_oldest_tail r) m Hwf Ht Hm) as [Hn Hdiv].
    cbn [ring_op]. rewrite consume_eq; try done.
    2: { intros cap [= <-]. unfold consume_bytes. lia. }
    change (tail_of r None) with (r_oldest_tail r). rewrite res_bind_ok. cbn.
    rewrite Hlen. fold (consume_bytes r (r_oldest_tail r) m). eexists. split; [done|].
    destruct (advance_contents r (r_oldest_tail r) _ Hwf Ht Hn Hdiv) as (H1 & _ & H3).
    split; [|done]. destruct Hwf. constructor; done.
Qed.

(** [C26] The ring refines the queue: any sequence of inserts and consumes on a
    well-formed ring with a single tail, whose elements are two bytes or more,
    runs without a fault and without looping, and gives exactly the answers of
    the bounded queue of the ring's contents, whose room is all but one element.
    (With one-byte elements the last free place is refused, see
    [one_byte_ring_refuses_last_place].) *)
Theorem ring_refines_fifo (r : lws_ring) (os : list Fifo.op)
    (Hwf : ring_wf r) (He2 : 2 <= r_element_len r) (Hos : Forall (good_op (r_element_len r)) os) :
  ∃ r', ring_ops r os
        = Ok (Some (r', (Fifo.steps (r_element_len r) (r_buflen r - r_element_len r)
                           (contents r (r_oldest_tail r)) os).2))
    ∧ ring_wf r'
    ∧ contents r' (r_oldest_tail r')
      = (Fifo.steps (r_element_len r) (r_buflen r - r_element_len r)
           (contents r (r_oldest_tail r)) os).1.
Proof.
  revert r Hwf He2 Hos. induction os as [|o os IH]; intros r Hwf He2 Hos; [by exists r|].
  inversion Hos as [|? ? Ho Hos']; subst.
  destruct (ring_op_refines r o Hwf He2 Ho) as (r1 & E1 & Hwf1 & He & HB & Hc).
  rewrite <- He in Hos'. destruct (IH r1 Hwf1 ltac:(lia) Hos') as (r2 & E2 & Hwf2 & Hc2).
  rewrite He, HB, Hc in E2, Hc2.
  exists r2. cbn [ring_ops Fifo.steps]. rewrite E1, res_bind_ok, E2, res_bind_ok.
  destruct (Fifo.step _ _ _ o) as [q a]. cbn in *.
  destruct (Fifo.steps _ _ q os) as [q' l]. done.
Qed.

Definition ring4 : lws_ring :=
  {| r_buf := replicate 8 0; r_destroy := true; r_buflen := 8; r_element_len := 2;
     r_head := 4; r_oldest_tail := 4 |}.

Lemma ring4_wf : ring_wf ring4.
Proof.
  constructor; cbn; try (unfold INT_MAX; lia); try (by exists 4);
    split; cbn; try lia; by exists 2.
Qed.

Lemma ring_refines_fifo_witness :
  ∃ r', ring_ops ring4 [Fifo.Put (bs "abcdefgh") 4; Fifo.Get 2; Fifo.Put (bs "xy") 1; Fifo.Get 9]
    = Ok (Some (r', [Fifo.Took 3; Fifo.Gave (bs "abcd") 2; Fifo.Took 1; Fifo.Gave (bs "efxy") 2])).
Proof.
  destruct (ring_refines_fifo ring4
    [Fifo.Put (bs "abcdefgh") 4; Fifo.Get 2; Fifo.Put (bs "xy") 1; Fifo.Get 9]) as (r' & H & _).
  - apply ring4_wf.
  - cbn. lia.
  - repeat constructor; vm_compute; try discriminate; try reflexivity.
  - exists r'. exact H.
Defined.

(** A ring of three one-byte elements has room for two, and lws-ring.h says
    that lws_ring_insert takes as many elements as possible; but while one element
    waits the place for the second is not offered: it takes nothing, where the
    queue takes one. *)
Definition ring3 : lws_ring :=
  {| r_buf := bs "a.."; r_destroy := false; r_buflen := 3; r_element_len := 1;
     r_head := 1; r_oldest_tail := 0 |}.

Theorem one_byte_ring_refuses_last_place :
  ring_wf ring3 ∧ contents ring3 (r_oldest_tail ring3) = bs "a"
  ∧ lws_ring_get_count_free_elements ring3 = 0
  ∧ lws_ring_insert ring3 (bs "b") 1 = Ok (ring3, 0)
  ∧ Fifo.step 1 2 (bs "a") (Fifo.Put (bs "b") 1) = (bs "ab", Fifo.Took 1).
Proof.
  split; [|by repeat split].
  constructor; cbn; try (unfold INT_MAX; lia); try (by exists 3); split; cbn; try lia; [by exists 1|by exists 0].
Qed.

(** ** Several tails, direct insertion, destruction *)

(** A tail that is no older than the oldest one. *)
Definition live_tail (r : lws_ring) (t : Z) : Prop :=
  on_element r t ∧ waiting r t <= waiting r (r_oldest_tail r).

(** With several tails: an insert returns the number of elements that fit,
    and every live tail sees exactly those elements appended to what it had not
    yet consumed; a consume through a tail pointer leaves the ring untouched,
    returns the oldest waiting elements of that tail and moves only that tail. *)
Theorem ring_insert_and_consume_per_tail (r : lws_ring) (src : list Z) (max_count t : Z)
    (Hwf : ring_wf r) (Hm : 0 <= max_count)
    (Hsrc : max_count * r_element_len r <= Z.of_nat (length src) < 18446744073709551616)
    (Ht : live_tail r t) :
  let n := insert_bytes r max_count in
  let k := consume_bytes r t max_count in
  (∃ r', lws_ring_insert r src max_count = Ok (r', n `div` r_element_len r)
     ∧ ring_wf r' ∧ live_tail r' t
     ∧ contents r' t = contents r t ++ take (Z.to_nat n) src)
  ∧ (∃ t', lws_ring_consume r (Some t) (Some (Z.of_nat (length src))) max_count
       = Ok (Some {| c_ring := r; c_tail := t'; c_data := take (Z.to_nat k) (contents r t);
                     c_destroyed := []; c_count := k `div` r_element_len r |})
       ∧ on_element r t' ∧ contents r t' = drop (Z.to_nat k) (contents r t)).
Proof.
  intros n k. destruct Ht as [Ht Hle]. pose proof (wf_elen r Hwf) as He. split.
  - destruct (free_bytes_bounds r Hwf) as [Hf Hfd].
    rewrite insert_eq by (done || lia). fold n. eexists. split; [done|].
    assert (0 <= n <= free_bytes r ∧ n <= Z.of_nat (length src)) as [Hn Hns]
      by (unfold n, insert_bytes; nia).
    assert (Z.of_nat (length (take (Z.to_nat n) src)) = n) as Hd by (rewrite length_take; lia).
    assert ((r_element_len r | n)) as Hdiv.
    { unfold n, insert_bytes.
      destruct (Z.min_spec (free_bytes r) (max_count * r_element_len r)) as [[_ ->]|[_ ->]]; [done|].
      apply Z.divide_factor_r. }
    destruct (insert_contents r (take (Z.to_nat n) src) t) as (H1 & H2 & H3);
      rewrite ?Hd; try done; [apply Ht|lia|].
    destruct (insert_contents r (take (Z.to_nat n) src) (r_oldest_tail r)) as (_ & H4 & _);
      rewrite ?Hd; try done; [apply (wf_tail r Hwf)|lia|].
    rewrite Hd in H1, H2, H3, H4. split; [done|]. split; [split; [done|]|done]. cbn in *. lia.
  - destruct (consume_bytes_bounds r t max_count Hwf Ht Hm) as [Hk Hkd].
    rewrite consume_eq; try done; [|lia|].
    2: { intros cap [= <-]. unfold consume_bytes. cbn. lia. }
    cbn. destruct (advance_contents r t _ Hwf Ht Hk Hkd) as (H1 & _ & H3). eauto.
Qed.

Lemma ring_insert_and_consume_per_tail_witness :
  (∃ r', lws_ring_insert ring4 (bs "abcd") 2 = Ok (r', 2) ∧ contents r' 4 = bs "abcd")
  ∧ (∃ c, lws_ring_consume ring4 (Some 4) (Some 4) 2 = Ok (Some c) ∧ c_count c = 0).
Proof.
  destruct (ring_insert_and_consume_per_tail ring4 (bs "abcd") 2 4) as [(r' & H1 & _ & _ & H2) (t' & H3 & _)].
  - apply ring4_wf.
  - lia.
  - vm_compute. split; [discriminate|reflexivity].
  - split; [apply (wf_head _ ring4_wf)|]. vm_compute. discriminate.
  - split; [exists r'; split; [exact H1|exact H2]|]. eexists. split; [exact H3|reflexivity].
Defined.

(** Writing in place equals inserting: when the next linear range is
    offered, writing whole elements there and bumping the head appends them to
    the contents of every live tail, as an insert would; the range never leaves
    the buffer. *)
Theorem ring_linear_insert (r : lws_ring) (start bytes t : Z) (d : list Z)
    (Hwf : ring_wf r) (Ht : live_tail r t)
    (Hrange : lws_ring_next_linear_insert_range r = Some (start, bytes))
    (Hd : Z.of_nat (length d) <= bytes) (Hdiv : (r_element_len r | Z.of_nat (length d))) :
  start + bytes <= Z.of_nat (length (r_buf r))
  ∧ let r' := lws_ring_bump_head (set_buf r (blit (r_buf r) (Z.to_nat start) d))
                (Z.of_nat (length d)) in
    ring_wf r' ∧ contents r' t = contents r t ++ d.
Proof.
  destruct Ht as [Ht Hle]. destruct (free_bytes_bounds r Hwf) as [Hf _].
  pose proof (proj1 (waiting_bounds r _ Hwf (wf_tail r Hwf))) as Hw0.
  pose proof Hwf as [He HB _ Hbuf [Hh _] _]. unfold INT_MAX in HB.
  unfold lws_ring_next_linear_insert_range in Hrange.
  rewrite count_free_bytes, s32_small in Hrange by (done || (unfold INT_MIN, INT_MAX; lia)).
  cbv zeta in Hrange. destruct (Z.eqb_spec (free_bytes r) 0); [discriminate|].
  rewrite u32_small in Hrange by lia.
  assert (start = r_head r ∧ bytes = Z.min (free_bytes r) (r_buflen r - r_head r)) as [-> ->].
  { destruct (Z.ltb_spec (r_buflen r) (r_head r + free_bytes r)); injection Hrange as <- <-;
      [rewrite u32_small by lia|]; split; lia. }
  split; [lia|]. cbv zeta.
  replace (lws_ring_bump_head _ _)
    with (set_head (set_buf r (ring_write (r_buf r) (r_buflen r) (r_head r) d))
            ((r_head r + Z.of_nat (length d)) `mod` r_buflen r)).
  - destruct (insert_contents r d t) as (H1 & _ & H3); try done; [apply Ht|lia].
  - unfold lws_ring_bump_head, set_head, set_buf, ring_write. cbn.
    rewrite (proj2 (Z.ltb_ge _ _)) by lia. rewrite !u32_small by (rewrite ?u32_small; lia). done.
Qed.

Lemma ring_linear_insert_witness :
  contents (lws_ring_bump_head (set_buf ring4 (blit (r_buf ring4) 4 (bs "ab"))) 2) 4 = bs "ab".
Proof.
  destruct (ring_linear_insert ring4 4 4 4 (bs "ab")) as [_ [_ H]].
  - apply ring4_wf.
  - split; [apply (wf_head _ ring4_wf)|]. vm_compute. discriminate.
  - reflexivity.
  - vm_compute. discriminate.
  - by exists 1.
  - exact H.
Defined.

(** Destruction is exact and terminates: moving the oldest tail on by [n]
    bytes of waiting elements, and destroying the ring, call destroy_element
    once for each element passed over, oldest first, and stop. *)
Theorem ring_destroys_each_once (r : lws_ring) (n : Z)
    (Hwf : ring_wf r) (Hdestroy : r_destroy r = true)
    (Hn : 0 <= n <= waiting r (r_oldest_tail r)) (Hdiv : (r_element_len r | n)) :
  (∃ r', lws_ring_update_oldest_tail r ((r_oldest_tail r + n) `mod` r_buflen r)
         = Some (r', elements_from r (r_oldest_tail r) n)
     ∧ contents r' (r_oldest_tail r') = drop (Z.to_nat n) (contents r (r_oldest_tail r)))
  ∧ lws_ring_destroy r = Some (elements_from r (r_oldest_tail r) (waiting r (r_oldest_tail r)))
  ∧ NoDup (elements_from r (r_oldest_tail r) (waiting r (r_oldest_tail r))).
Proof.
  pose proof (wf_tail r Hwf) as Ht. split; [|split].
  - rewrite update_oldest_tail_eq by done. rewrite Hdestroy. eexists. split; [done|].
    destruct (advance_contents r (r_oldest_tail r) n Hwf Ht Hn Hdiv) as (_ & _ & H). exact H.
  - destruct (waiting_bounds r _ Hwf Ht) as [Hw Hwd].
    pose proof (update_oldest_tail_eq r (waiting r (r_oldest_tail r)) Hwf ltac:(lia) Hwd) as H.
    unfold lws_ring_update_oldest_tail, lws_ring_destroy in *. rewrite Hdestroy in *. cbn [negb] in H.
    replace ((r_oldest_tail r + waiting r (r_oldest_tail r)) `mod` r_buflen r) with (r_head r) in H.
    + destruct (destroy_loop _ _ _ _); [|discriminate]. injection H as H. by rewrite H.
    + pose proof (wf_head r Hwf) as [Hh _]. pose proof (wf_buflen r Hwf). unfold waiting.
      rewrite Zplus_mod_idemp_r. rewrite <- (Z.mod_small (r_head r) (r_buflen r)) at 1 by done.
      f_equal. lia.
  - destruct (waiting_bounds r _ Hwf Ht) as [Hw [k Hk]]. pose proof Hwf as [He HB _ _ _ _].
    unfold elements_from. rewrite Hk, Z.div_mul by lia.
    apply NoDup_fmap_2_strong; [|apply NoDup_seq].
    intros i j Hi%elem_of_seq Hj%elem_of_seq E. destruct Ht as [Ht _].
    rewrite !mod_of_range in E by nia.
    repeat match type of E with context [?a <? ?b] => destruct (Z.ltb_spec a b) end; nia.
Qed.

Lemma ring_destroys_each_once_witness :
  let r := set_head ring4 2 in
  lws_ring_destroy r = Some [4; 6; 0].
Proof.
  intros r. destruct (ring_destroys_each_once r 2) as (_ & H & _).
  - constructor; cbn; try (unfold INT_MAX; lia); try (by exists 4);
      split; cbn; try lia; [by exists 1|by exists 2].
  - reflexivity.
  - vm_compute. split; discriminate.
  - by exists 1.
  - exact H.
Defined.
