(* ===== verification/Base64.v ===== *)
(** * Base64 encoding and decoding

    Models lib/misc/base64-decode.c.  Characters are bytes; what is written to
    the output buffer is the list of bytes written in order, so its length is
    the number of bytes used of the buffer. *)

From stdpp Require Import base numbers list strings.
From Stdlib Require Import ZArith Lia Ascii.
From S2P Require Import Prelude.

Definition encode_orig : list Z :=
  bs "ABCDEFGHIJKLMNOPQRSTUVWXYZabcdefghijklmnopqrstuvwxyz0123456789+/".
Definition encode_url : list Z :=
  bs "ABCDEFGHIJKLMNOPQRSTUVWXYZabcdefghijklmnopqrstuvwxyz0123456789-_".
Definition decode : list Z :=
  bs "|$$$}rstuvwxyz{$$$$$$$>?@ABCDEFGHIJKLMNOPQRSTUVW$$$$$$XYZ[\]^_`abcdefghijklmnopq".

Definition PAD : Z := 61.

(** ** Encoding *)

(** The four characters of one group; [len] is the number of input bytes. *)
Definition encode_group (encode : list Z) (t0 t1 t2 : Z) (len : nat) : list Z :=
  let at_ i := nth (Z.to_nat i) encode 0 in
  [ at_ (Z.shiftr t0 2);
    at_ (Z.lor (Z.shiftl (Z.land t0 3) 4) (Z.shiftr (Z.land t1 240) 4));
    (if (1 <? len)%nat
     then at_ (Z.lor (Z.shiftl (Z.land t1 15) 2) (Z.shiftr (Z.land t2 192) 6)) else PAD);
    (if (2 <? len)%nat then at_ (Z.land t2 63) else PAD) ].

(** [_lws_b64_encode_string]: the return value and the bytes written. *)
Fixpoint encode_loop (encode inp : list Z) (done out_size : Z) (out : list Z) : Z * list Z :=
  match inp with
  | [] => if out_size <=? done + 1 then (-1, out) else (done, out ++ [0])
  | t0 :: r0 =>
      if out_size <=? done + 4 then (-1, out)
      else
        match r0 with
        | [] => encode_loop encode r0 (done + 4) out_size (out ++ encode_group encode t0 0 0 1)
        | t1 :: r1 =>
            match r1 with
            | [] => encode_loop encode r1 (done + 4) out_size (out ++ encode_group encode t0 t1 0 2)
            | t2 :: r2 =>
                encode_loop encode r2 (done + 4) out_size (out ++ encode_group encode t0 t1 t2 3)
            end
        end
  end.

Definition b64_encode_string (encode inp : list Z) (out_size : Z) : Z * list Z :=
  encode_loop encode inp 0 out_size [].

Definition lws_b64_encode_string (inp : list Z) (out_size : Z) : Z * list Z :=
  b64_encode_string encode_orig inp out_size.

Definition lws_b64_encode_string_url (inp : list Z) (out_size : Z) : Z * list Z :=
  b64_encode_string encode_url inp out_size.

(** ** Decoding *)

(** The characters the loops look at: [in_len] of them when it is not negative,
    and never past a NUL. *)
Fixpoint until_nul (m : list Z) : list Z :=
  match m with
  | [] => []
  | b :: m' => if b =? 0 then [] else b :: until_nul m'
  end.

Definition visible (mem : list Z) (in_len : Z) : list Z :=
  if in_len <? 0 then until_nul mem else until_nul (take (Z.to_nat in_len) mem).

(** The url variant's characters become the original's. *)
Definition norm (b : Z) : Z := if b =? 45 then 43 else if b =? 95 then 47 else b.

(** The value of a character plus one, 0 for one that is not in the alphabet. *)
Definition sextet1 (b : Z) : Z :=
  let v := norm b in
  let v := if (v <? 43) || (122 <? v) then 0 else nth (Z.to_nat (v - 43)) decode 0 in
  if v =? 0 then 0 else if v =? 36 then 0 else u8 (v - 61).

(** The inner while: read characters until one has a value; the last one read
    is kept in [c]. *)
Fixpoint next_sextet (s : list Z) (c : Z) : Z * Z * list Z :=
  match s with
  | [] => (0, c, [])
  | b :: s' =>
      let v := sextet1 b in
      if v =? 0 then next_sextet s' (norm b) else (v, norm b, s')
  end.

(** The for loop of one group, from slot [i]: the number of characters, the
    slots, the last character read, the rest of the input. *)
Fixpoint read_quad (k i : nat) (s quad : list Z) (len c : Z) : Z * list Z * Z * list Z :=
  match k with
  | O => (len, quad, c, s)
  | S k' =>
      match s with
      | [] => (len, quad, c, s)
      | _ =>
          let '(v, c, s) := next_sextet s 0 in
          if c =? 0 then read_quad k' (S i) s (<[i := 0]> quad) len c
          else read_quad k' (S i) s (if v =? 0 then quad else <[i := u8 (v - 1)]> quad) (len + 1) c
      end
  end.

(** The bytes one group writes. *)
Definition decode_group (len : Z) (quad : list Z) : list Z :=
  let q i := nth i quad 0 in
  (if 2 <=? len then [u8 (Z.lor (Z.shiftl (q 0%nat) 2) (Z.shiftr (q 1%nat) 4))] else [])
  ++ (if 3 <=? len then [u8 (Z.lor (Z.shiftl (q 1%nat) 4) (Z.shiftr (q 2%nat) 2))] else [])
  ++ (if 4 <=? len then [u8 (Z.lor (Z.land (Z.shiftl (q 2%nat) 6) 192) (q 3%nat))] else []).

(** [_lws_b64_decode_string]; [quad] is the (initially undefined) stack array,
    and [fuel] bounds the number of groups by the number of characters. *)
Fixpoint decode_loop (fuel : nat) (s quad : list Z) (done out_size : Z) (out : list Z) : Z * list Z :=
  match s, fuel with
  | [], _ | _, O => if out_size <=? done + 1 then (-1, out) else (done, out ++ [0])
  | _, S f =>
      let '(len, quad, c, s') := read_quad 4 0 s quad 0 0 in
      if out_size <? done + len - 1 then (-1, out)
      else
        let len := match s' with [] => if c =? PAD then len - 1 else len | _ => len end in
        decode_loop f s' quad (done + (len - 1)) out_size (out ++ decode_group len quad)
  end.

Definition b64_decode_string (quad s : list Z) (out_size : Z) : Z * list Z :=
  decode_loop (length s) s quad 0 out_size [].

Definition lws_b64_decode_string (quad mem : list Z) (out_size : Z) : Z * list Z :=
  b64_decode_string quad (visible mem (-1)) out_size.

Definition lws_b64_decode_string_len (quad mem : list Z) (in_len out_size : Z) : Z * list Z :=
  b64_decode_string quad (visible mem in_len) out_size.

(** ** Lemmas *)

(** An alphabet the decoder knows: each character has its value, and none is
    taken for padding. *)
Definition alphabet_ok (encode : list Z) : bool :=
  forallb (λ x, let e := nth (Z.to_nat x) encode 0 in
                (sextet1 e =? x + 1) && negb (e =? 0) && negb (norm e =? 0) && negb (norm e =? PAD))
    (seqZ 0 64).

Lemma alphabets_ok : alphabet_ok encode_orig = true ∧ alphabet_ok encode_url = true.
Proof. split; vm_compute; reflexivity. Qed.

Section roundtrip.
Variable encode : list Z.
Hypothesis Halpha : alphabet_ok encode = true.

Let e (x : Z) : Z := nth (Z.to_nat x) encode 0.

Lemma alpha x :
  0 <= x < 64 → sextet1 (e x) = x + 1 ∧ e x ≠ 0 ∧ norm (e x) ≠ 0 ∧ norm (e x) ≠ PAD.
Proof.
  intros Hx. pose proof Halpha as H. unfold alphabet_ok in H. rewrite forallb_forall in H.
  specialize (H x (proj1 (list_elem_of_In _ _) (proj2 (elem_of_seqZ 0 64 x) ltac:(lia)))).
  rewrite !andb_true_iff, !negb_true_iff, Z.eqb_eq, !Z.eqb_neq in H. tauto.
Qed.

Lemma next_sextet_alpha x s c : 0 <= x < 64 → next_sextet (e x :: s) c = (x + 1, norm (e x), s).
Proof.
  intros Hx. destruct (alpha x Hx) as (H1 & _). cbn [next_sextet].
  rewrite H1. by rewrite (proj2 (Z.eqb_neq _ _)) by lia.
Qed.

Lemma read_quad_alpha k i x s quad len c :
  0 <= x < 64 →
  read_quad (S k) i (e x :: s) quad len c
  = read_quad k (S i) s (<[i := x]> quad) (len + 1) (norm (e x)).
Proof.
  intros Hx. destruct (alpha x Hx) as (_ & _ & Hn & _). cbn [read_quad].
  rewrite next_sextet_alpha by done. rewrite (proj2 (Z.eqb_neq _ _)) by done.
  rewrite (proj2 (Z.eqb_neq _ _)) by lia. rewrite u8_small by lia. do 2 f_equal. lia.
Qed.

(** The sextets of three bytes. *)
Definition q0 (t0 : Z) : Z := t0 `div` 4.
Definition q1 (t0 t1 : Z) : Z := t0 `mod` 4 * 16 + t1 `div` 16.
Definition q2 (t1 t2 : Z) : Z := t1 `mod` 16 * 4 + t2 `div` 64.
Definition q3 (t2 : Z) : Z := t2 `mod` 64.

Lemma sextet_range t0 t1 t2 :
  is_byte t0 → is_byte t1 → is_byte t2 →
  0 <= q0 t0 < 64 ∧ 0 <= q1 t0 t1 < 64 ∧ 0 <= q2 t1 t2 < 64 ∧ 0 <= q3 t2 < 64.
Proof.
  unfold is_byte, q0, q1, q2, q3. intros.
  repeat split; try (apply Z.div_pos; lia); try lia;
    try (apply Z.div_lt_upper_bound; lia); try (apply Z.mod_pos_bound; lia);
    Z.div_mod_to_equations; lia.
Qed.

Lemma encode_group_eq t0 t1 t2 len :
  is_byte t0 → is_byte t1 → is_byte t2 →
  encode_group encode t0 t1 t2 len
  = [e (q0 t0); e (q1 t0 t1); (if (1 <? len)%nat then e (q2 t1 t2) else PAD);
     (if (2 <? len)%nat then e (q3 t2) else PAD)].
Proof.
  unfold is_byte. intros H0 H1 H2. unfold encode_group, e, q0, q1, q2, q3. cbv zeta.
  rewrite (land_mask t0 2 3), (land_high t1 4 8 240), (land_mask t1 4 15),
    (land_high t2 6 8 192), (land_mask t2 6 63) by lia.
  rewrite !Z.shiftr_div_pow2 by lia.
  rewrite !lor_shiftl_add by (try lia; change (2 ^ 4) with 16; change (2 ^ 2) with 4;
    change (2 ^ 6) with 64; Z.div_mod_to_equations; lia).
  change (2 ^ 4) with 16; change (2 ^ 2) with 4; change (2 ^ 6) with 64.
  replace ((t1 - t1 `mod` 16) `div` 16) with (t1 `div` 16) by (Z.div_mod_to_equations; lia).
  replace ((t2 - t2 `mod` 64) `div` 64) with (t2 `div` 64) by (Z.div_mod_to_equations; lia).
  done.
Qed.

(** The three bytes come back from their sextets. *)
Lemma decode_bytes t0 t1 t2 x2 :
  is_byte t0 → is_byte t1 → is_byte t2 → 0 <= x2 < 64 → x2 `div` 4 = t1 `mod` 16 →
  u8 (Z.lor (Z.shiftl (q0 t0) 2) (Z.shiftr (q1 t0 t1) 4)) = t0
  ∧ u8 (Z.lor (Z.shiftl (q1 t0 t1) 4) (Z.shiftr x2 2)) = t1
  ∧ u8 (Z.lor (Z.land (Z.shiftl (q2 t1 t2) 6) 192) (q3 t2)) = t2.
Proof.
  intros H0 H1 H2 Hx Hxq. destruct (sextet_range t0 t1 t2 H0 H1 H2) as (R0 & R1 & R2 & R3).
  unfold is_byte in *. rewrite !Z.shiftr_div_pow2 by lia.
  change (2 ^ 4) with 16; change (2 ^ 2) with 4.
  split; [|split].
  - rewrite lor_shiftl_add by (change (2 ^ 2) with 4; unfold q1; Z.div_mod_to_equations; lia).
    change (2 ^ 2) with 4. unfold u8, q0, q1. Z.div_mod_to_equations; lia.
  - rewrite lor_shiftl_add by (change (2 ^ 4) with 16; rewrite ?Hxq; Z.div_mod_to_equations; lia).
    change (2 ^ 4) with 16. rewrite Hxq. unfold u8, q1. Z.div_mod_to_equations; lia.
  - assert (Z.land (Z.shiftl (q2 t1 t2) 6) 192 = Z.shiftl (q2 t1 t2 `mod` 4) 6) as ->.
    { change 192 with (Z.shiftl 3 6). rewrite <- Z.shiftl_land.
      by rewrite (land_mask _ 2 3) by lia. }
    rewrite lor_shiftl_add by lia. change (2 ^ 6) with 64.
    unfold u8, q2, q3. Z.div_mod_to_equations; lia.
Qed.

(** The text of an encoding. *)
Fixpoint enc_text (inp : list Z) : list Z :=
  match inp with
  | [] => []
  | t0 :: r0 =>
      match r0 with
      | [] => encode_group encode t0 0 0 1
      | t1 :: r1 =>
          match r1 with
          | [] => encode_group encode t0 t1 0 2
          | t2 :: r2 => encode_group encode t0 t1 t2 3 ++ enc_text r2
          end
      end
  end.

(** Induction by groups of three. *)
Lemma triples_ind (P : list Z → Prop) :
  P [] → (∀ a, P [a]) → (∀ a b, P [a; b]) →
  (∀ a b c l, P l → P (a :: b :: c :: l)) → ∀ l, P l.
Proof.
  intros H0 H1 H2 H3 l.
  assert (∀ n l, (length l ≤ n)%nat → P l) as H; [|by eapply H].
  induction n as [|n IH]; intros [|a [|b [|c l']]] Hl; simpl in Hl; try lia; auto.
  apply H3, IH. lia.
Qed.

Lemma encode_loop_eq inp done out_size out :
  encode_loop encode inp done out_size out
  = let n := done + Z.of_nat (length (enc_text inp)) in
    if n + 1 <? out_size then (n, out ++ enc_text inp ++ [0])
    else (-1, (encode_loop encode inp done out_size out).2).
Proof.
  cbv zeta. revert done out. induction inp as [|a|a b|a b c l IH] using triples_ind; intros done out.
  - cbn. rewrite Z.add_0_r. destruct (Z.leb_spec out_size (done + 1)), (Z.ltb_spec (done + 1) out_size);
      try lia; done.
  - cbn. repeat match goal with
      | |- context [?x <=? ?y] => destruct (Z.leb_spec x y)
      | |- context [?x <? ?y] => destruct (Z.ltb_spec x y) end; try lia; cbn; try done.
    by rewrite <- app_assoc.
  - cbn. repeat match goal with
      | |- context [?x <=? ?y] => destruct (Z.leb_spec x y)
      | |- context [?x <? ?y] => destruct (Z.ltb_spec x y) end; try lia; cbn; try done.
    by rewrite <- app_assoc.
  - change (enc_text (a :: b :: c :: l)) with (encode_group encode a b c 3 ++ enc_text l).
    cbn [encode_loop]. rewrite length_app. cbn [length encode_group].
    destruct (Z.leb_spec out_size (done + 4)).
    + rewrite (proj2 (Z.ltb_ge _ _)) by lia. done.
    + rewrite IH.
      replace (done + Z.of_nat (4 + length (enc_text l)))
        with (done + 4 + Z.of_nat (length (enc_text l))) by lia.
      destruct (Z.ltb_spec (done + 4 + Z.of_nat (length (enc_text l)) + 1) out_size); [|done].
      by rewrite <- !app_assoc.
Qed.

(** How much of the output the groups have room for. *)
Lemma encode_loop_bound inp done out_size out :
  Z.of_nat (length out) = done → done <= Z.max 0 out_size →
  Z.of_nat (length (encode_loop encode inp done out_size out).2) <= Z.max 0 out_size.
Proof.
  revert done out. induction inp as [|a|a b|a b c l IH] using triples_ind; intros done out Hd Hb.
  - cbn. destruct (Z.leb_spec out_size (done + 1)); cbn; rewrite ?length_app; simpl; lia.
  - cbn. destruct (Z.leb_spec out_size (done + 4)); cbn; [lia|].
    destruct (Z.leb_spec out_size (done + 4 + 1)); cbn; rewrite ?length_app; simpl; lia.
  - cbn. destruct (Z.leb_spec out_size (done + 4)); cbn; [lia|].
    destruct (Z.leb_spec out_size (done + 4 + 1)); cbn; rewrite ?length_app; simpl; lia.
  - cbn [encode_loop]. destruct (Z.leb_spec out_size (done + 4)); cbn [snd]; [lia|].
    apply IH; rewrite ?length_app; cbn [length encode_group]; lia.
Qed.

(** *** Decoding an encoding *)

Lemma byte0 : is_byte 0.
Proof. unfold is_byte. lia. Qed.

(** A full group of four characters. *)
Lemma read_quad_full t0 t1 t2 s a b c d :
  is_byte t0 → is_byte t1 → is_byte t2 →
  ∃ c', read_quad 4 0 (encode_group encode t0 t1 t2 3 ++ s) [a; b; c; d] 0 0
        = (4, [q0 t0; q1 t0 t1; q2 t1 t2; q3 t2], c', s) ∧ c' ≠ PAD.
Proof.
  intros H0 H1 H2. destruct (sextet_range t0 t1 t2 H0 H1 H2) as (R0 & R1 & R2 & R3).
  rewrite encode_group_eq by done. cbn [Nat.ltb Nat.leb app].
  rewrite !read_quad_alpha by done. eexists. split; [reflexivity|]. by apply alpha.
Qed.

(** The last group of two characters and its padding. *)
Lemma read_quad_two t0 t1 a b c d :
  is_byte t0 → is_byte t1 →
  read_quad 4 0 [e (q0 t0); e (q1 t0 t1); PAD; PAD] [a; b; c; d] 0 0
  = (3, [q0 t0; q1 t0 t1; c; d], PAD, []).
Proof.
  intros H0 H1. destruct (sextet_range t0 t1 0 H0 H1 byte0) as (R0 & R1 & _).
  by rewrite !read_quad_alpha by done.
Qed.

(** The last group of three characters and its padding. *)
Lemma read_quad_three t0 t1 x2 a b c d :
  is_byte t0 → is_byte t1 → 0 <= x2 < 64 →
  read_quad 4 0 [e (q0 t0); e (q1 t0 t1); e x2; PAD] [a; b; c; d] 0 0
  = (4, [q0 t0; q1 t0 t1; x2; d], PAD, []).
Proof.
  intros H0 H1 Hx. destruct (sextet_range t0 t1 0 H0 H1 byte0) as (R0 & R1 & _).
  by rewrite !read_quad_alpha by done.
Qed.

Lemma decode_loop_end quad fuel done out_size out :
  done + 1 < out_size → decode_loop fuel [] quad done out_size out = (done, out ++ [0]).
Proof. intros H. destruct fuel; cbn; by rewrite (proj2 (Z.leb_gt _ _)) by lia. Qed.

Ltac group_out :=
  unfold decode_group; cbn [Z.leb Z.compare Pos.compare Pos.compare_cont nth app].

Lemma decode_loop_enc inp fuel quad done out_size out :
  Forall is_byte inp → length quad = 4%nat → (length (enc_text inp) ≤ fuel)%nat →
  done + Z.of_nat (length inp) + 1 < out_size →
  decode_loop fuel (enc_text inp) quad done out_size out
  = (done + Z.of_nat (length inp), out ++ inp ++ [0]).
Proof.
  revert fuel quad done out.
  induction inp as [|t0|t0 t1|t0 t1 t2 l IH] using triples_ind;
    intros fuel quad done out Hb Hq Hf Hs.
  { rewrite decode_loop_end by (cbn in Hs; lia). cbn. by rewrite Z.add_0_r. }
  all: destruct quad as [|a [|b [|c [|d [|]]]]]; simpl in Hq; try lia.
  all: destruct fuel as [|f]; [cbn in Hf; lia|].
  - inversion Hb as [|? ? H0 _]; subst.
    destruct (decode_bytes t0 0 0 0) as (D0 & _); [done|apply byte0..|lia|done|].
    cbn [enc_text] in *. rewrite (encode_group_eq t0 0 0 1) by (done || apply byte0).
    cbn [Nat.ltb Nat.leb]. cbn [decode_loop]. rewrite read_quad_two by (done || apply byte0).
    cbn [length] in Hs. rewrite (proj2 (Z.ltb_ge _ _)) by lia.
    change (if PAD =? PAD then 3 - 1 else 3) with 2. rewrite decode_loop_end by lia.
    group_out. rewrite D0. f_equal. by rewrite <- app_assoc.
  - inversion Hb as [|? ? H0 Hb']; subst. inversion Hb' as [|? ? H1 _]; subst.
    destruct (sextet_range t0 t1 0 H0 H1 byte0) as (_ & _ & R2 & _).
    destruct (decode_bytes t0 t1 0 (q2 t1 0)) as (D0 & D1 & _); [done|done|apply byte0|done| |].
    { unfold q2. rewrite Z.div_0_l, Z.add_0_r, Z.div_mul by lia. done. }
    cbn [enc_text] in *. rewrite (encode_group_eq t0 t1 0 2) by (done || apply byte0).
    cbn [Nat.ltb Nat.leb]. cbn [decode_loop]. rewrite read_quad_three by done.
    cbn [length] in Hs. rewrite (proj2 (Z.ltb_ge _ _)) by lia.
    change (if PAD =? PAD then 4 - 1 else 4) with 3. rewrite decode_loop_end by lia.
    group_out. rewrite D0, D1. f_equal. by rewrite <- app_assoc.
  - inversion Hb as [|? ? H0 Hb1]; subst. inversion Hb1 as [|? ? H1 Hb2]; subst.
    inversion Hb2 as [|? ? H2 Hb3]; subst.
    destruct (sextet_range t0 t1 t2 H0 H1 H2) as (_ & _ & R2 & _).
    destruct (decode_bytes t0 t1 t2 (q2 t1 t2)) as (D0 & D1 & D2); [done..| |].
    { unfold q2, is_byte in *. rewrite Z.add_comm, Z.div_add by lia.
      rewrite (Z.div_small (t2 `div` 64)); [lia|]. Z.div_mod_to_equations. lia. }
    change (enc_text (t0 :: t1 :: t2 :: l)) with (encode_group encode t0 t1 t2 3 ++ enc_text l) in *.
    rewrite length_app in Hf. cbn [length encode_group] in Hf, Hs.
    destruct (read_quad_full t0 t1 t2 (enc_text l) a b c d H0 H1 H2) as (c' & Hrq & Hc').
    cbn [decode_loop]. rewrite Hrq. cbn [app encode_group].
    rewrite (proj2 (Z.ltb_ge _ _)) by lia.
    assert ((match enc_text l with [] => if c' =? PAD then 4 - 1 else 4 | _ => 4 end) = 4) as ->.
    { rewrite (proj2 (Z.eqb_neq _ _)) by done. by destruct (enc_text l). }
    rewrite IH by (done || lia). group_out.
    rewrite D0, D1, D2. f_equal; [cbn [length]; lia|]. by rewrite <- app_assoc.
Qed.

Lemma enc_text_no_nul inp : Forall is_byte inp → no_nul (enc_text inp).
Proof.
  assert (∀ x, 0 <= x < 64 → e x ≠ 0) as Hne by (intros x Hx; by apply alpha).
  assert (PAD ≠ 0) as HP by done.
  induction inp as [|t0|t0 t1|t0 t1 t2 l IH] using triples_ind; intros Hb.
  - constructor.
  - inversion Hb as [|? ? H0 _]; subst. cbn [enc_text].
    rewrite encode_group_eq by (done || apply byte0).
    destruct (sextet_range t0 0 0 H0 byte0 byte0) as (? & ? & ? & ?).
    repeat constructor; auto.
  - inversion Hb as [|? ? H0 Hb']; subst. inversion Hb' as [|? ? H1 _]; subst. cbn [enc_text].
    rewrite encode_group_eq by (done || apply byte0).
    destruct (sextet_range t0 t1 0 H0 H1 byte0) as (? & ? & ? & ?).
    repeat constructor; cbn; auto.
  - inversion Hb as [|? ? H0 Hb1]; subst. inversion Hb1 as [|? ? H1 Hb2]; subst.
    inversion Hb2 as [|? ? H2 Hb3]; subst.
    destruct (sextet_range t0 t1 t2 H0 H1 H2) as (? & ? & ? & ?).
    change (enc_text (t0 :: t1 :: t2 :: l)) with (encode_group encode t0 t1 t2 3 ++ enc_text l).
    rewrite encode_group_eq by done. apply Forall_app. split; [|by apply IH].
    repeat constructor; cbn; auto.
Qed.
End roundtrip.

(** *** Any input: how much is written *)

Lemma until_nul_no_nul m : no_nul (until_nul m).
Proof.
  induction m as [|b m IH]; cbn; [constructor|].
  destruct (Z.eqb_spec b 0); constructor; done.
Qed.

Lemma visible_no_nul mem in_len : no_nul (visible mem in_len).
Proof. unfold visible. destruct (in_len <? 0); apply until_nul_no_nul. Qed.

Lemma until_nul_id s rest : no_nul s → until_nul (s ++ 0 :: rest) = s.
Proof.
  induction 1 as [|b s Hb _ IH]; cbn; [done|].
  by rewrite (proj2 (Z.eqb_neq _ _)), IH by done.
Qed.

Lemma until_nul_same s : no_nul s → until_nul s = s.
Proof.
  induction 1 as [|b s Hb _ IH]; cbn; [done|].
  by rewrite (proj2 (Z.eqb_neq _ _)), IH by done.
Qed.

Lemma norm_ne0 b : b ≠ 0 → norm b ≠ 0.
Proof. unfold norm. intros. zcases; lia. Qed.

Lemma next_sextet_suffix s c v c' s' :
  no_nul s → next_sextet s c = (v, c', s') →
  no_nul s' ∧ (s ≠ [] → (length s' < length s)%nat ∧ c' ≠ 0).
Proof.
  intros Hn. revert c. induction Hn as [|b s Hb Hs IH]; intros c; cbn [next_sextet].
  { intros [= <- <- <-]. split; [constructor|done]. }
  destruct (sextet1 b =? 0).
  - intros H. destruct s as [|b' s].
    + cbn in H. injection H as <- <- <-. split; [constructor|]. intros _. split; [cbn; lia|].
      by apply norm_ne0.
    + destruct (IH _ H) as [IH1 IH2]. split; [done|]. intros _.
      destruct IH2 as [IH2 IH3]; [done|]. split; [cbn in *; lia|done].
  - intros [= <- <- <-]. split; [done|]. intros _. split; [cbn; lia|]. by apply norm_ne0.
Qed.

Lemma read_quad_spec k i s quad len c len' quad' c' s' :
  no_nul s → read_quad k i s quad len c = (len', quad', c', s') →
  no_nul s' ∧ len <= len' <= len + Z.of_nat k ∧ (length s' ≤ length s)%nat
  ∧ (k ≠ O → s ≠ [] → len + 1 <= len' ∧ (length s' < length s)%nat).
Proof.
  revert i s quad len c. induction k as [|k IH]; intros i s quad len c Hn; cbn [read_quad].
  { intros [= <- <- <- <-]. repeat split; try done; lia. }
  destruct s as [|b s].
  { intros [= <- <- <- <-]. repeat split; try done; lia. }
  destruct (next_sextet (b :: s) 0) as [[v c1] s1] eqn:E.
  destruct (next_sextet_suffix _ _ _ _ _ Hn E) as [Hn1 H1]. destruct H1 as [Hlt Hc1]; [done|].
  rewrite (proj2 (Z.eqb_neq _ _)) by done. intros H.
  destruct (IH _ _ _ _ _ Hn1 H) as (IH1 & IH2 & IH3 & _).
  split; [done|]. split; [lia|]. split; [lia|]. intros _ _. split; lia.
Qed.

Lemma decode_group_length len quad :
  0 <= len <= 4 → Z.of_nat (length (decode_group len quad)) = Z.max 0 (len - 1).
Proof.
  intros. unfold decode_group. rewrite !length_app.
  destruct (Z.leb_spec 2 len), (Z.leb_spec 3 len), (Z.leb_spec 4 len); cbn [length]; lia.
Qed.

Lemma decode_loop_bound fuel s quad done out_size out :
  no_nul s → (length s ≤ fuel)%nat →
  Z.of_nat (length out) = done → done <= Z.max 0 out_size →
  Z.of_nat (length (decode_loop fuel s quad done out_size out).2) <= Z.max 0 out_size.
Proof.
  revert s quad done out. induction fuel as [|f IH]; intros s quad done out Hn Hf Hd Hb.
  { destruct s; [|cbn in Hf; lia]. cbn.
    destruct (Z.leb_spec out_size (done + 1)); cbn; rewrite ?length_app; cbn; lia. }
  destruct s as [|b s].
  { cbn. destruct (Z.leb_spec out_size (done + 1)); cbn; rewrite ?length_app; cbn; lia. }
  cbn [decode_loop]. destruct (read_quad 4 0 (b :: s) quad 0 0) as [[[len quad'] c] s'] eqn:E.
  destruct (read_quad_spec _ _ _ _ _ _ _ _ _ _ Hn E) as (Hn' & Hl & Hle & Hlt).
  destruct Hlt as [Hl1 Hlt]; [done..|].
  destruct (Z.ltb_spec out_size (done + len - 1)); [cbn; lia|].
  destruct s' as [|b' s'].
  - destruct (c =? PAD).
    + destruct (Z.eqb_spec len 1) as [->|].
      * assert (decode_group (1 - 1) quad' = []) as -> by done. rewrite app_nil_r.
        destruct f; cbn [decode_loop];
          destruct (Z.leb_spec out_size (done + (1 - 1 - 1) + 1)); cbn [snd];
            rewrite ?length_app; cbn [length]; lia.
      * apply IH; [done|cbn; lia|rewrite length_app|]; pose proof (decode_group_length (len - 1) quad'); lia.
    + apply IH; [done|cbn; lia|rewrite length_app|]; pose proof (decode_group_length len quad'); lia.
  - apply IH; [done|cbn in *; lia|rewrite length_app|]; pose proof (decode_group_length len quad'); lia.
Qed.

(** ** Properties *)

(** [C34] Round trip: a byte string encoded in either alphabet (with one byte to
    spare after its NUL) is decoded, both by the NUL-terminated and by the
    counted entry point, back to itself with its length, whatever the stack
    array held and whatever follows the text in memory. *)
Theorem b64_roundtrip (encode inp quad rest : list Z) (out_size dec_size : Z)
    (Henc : encode = encode_orig ∨ encode = encode_url)
    (Hinp : Forall is_byte inp) (Hq : length quad = 4%nat)
    (Hsz : 4 * ((Z.of_nat (length inp) + 2) `div` 3) + 1 < out_size)
    (Hdec : Z.of_nat (length inp) + 1 < dec_size) :
  ∃ text, let n := Z.of_nat (length text) in
    b64_encode_string encode inp out_size = (n, text ++ [0])
    ∧ n = 4 * ((Z.of_nat (length inp) + 2) `div` 3)
    ∧ lws_b64_decode_string quad (text ++ 0 :: rest) dec_size
      = (Z.of_nat (length inp), inp ++ [0])
    ∧ lws_b64_decode_string_len quad (text ++ rest) n dec_size
      = (Z.of_nat (length inp), inp ++ [0]).
Proof.
  assert (alphabet_ok encode = true) as Ha by (destruct alphabets_ok; destruct Henc; by subst).
  assert (Z.of_nat (length (enc_text encode inp)) = 4 * ((Z.of_nat (length inp) + 2) `div` 3)) as Hlen.
  { clear. induction inp as [|a|a b|a b c l IH] using triples_ind; [done..|].
    change (enc_text encode (a :: b :: c :: l))
      with (encode_group encode a b c 3 ++ enc_text encode l).
    rewrite length_app. cbn [length encode_group]. rewrite Nat2Z.inj_add, IH.
    replace (Z.of_nat (S (S (S (length l)))) + 2) with (Z.of_nat (length l) + 2 + 1 * 3) by lia.
    rewrite Z.div_add by lia. lia. }
  pose proof (enc_text_no_nul encode Ha inp Hinp) as Hnn.
  exists (enc_text encode inp). cbv zeta. split; [|split; [done|split]].
  - unfold b64_encode_string. rewrite encode_loop_eq. cbv zeta.
    rewrite (proj2 (Z.ltb_lt _ _)) by lia. done.
  - unfold lws_b64_decode_string, b64_decode_string, visible. cbn [Z.ltb Z.compare].
    rewrite until_nul_id by done. by rewrite decode_loop_enc by (done || lia).
  - unfold lws_b64_decode_string_len, b64_decode_string, visible.
    rewrite (proj2 (Z.ltb_ge _ _)) by lia. rewrite Nat2Z.id, take_app_length.
    rewrite until_nul_same by done. by rewrite decode_loop_enc by (done || lia).
Qed.

Lemma b64_roundtrip_witness :
  ∃ text, b64_encode_string encode_url (bs "any carnal pleas") 64 = (24, text ++ [0])
    ∧ lws_b64_decode_string [7; 7; 7; 7] (text ++ 0 :: bs "xyz") 64
      = (16, bs "any carnal pleas" ++ [0]).
Proof.
  destruct (b64_roundtrip encode_url (bs "any carnal pleas") [7; 7; 7; 7] (bs "xyz") 64 64)
    as (text & H1 & Hn & H2 & _).
  - by right.
  - by_compute.
  - reflexivity.
  - vm_compute. reflexivity.
  - vm_compute. reflexivity.
  - exists text. rewrite Hn in H1. split; [exact H1|exact H2].
Defined.

(** Neither direction writes past its output: for every input (valid or
    not) and every [out_size], the encoder and both decoders write at most
    [out_size] bytes, the final NUL included. *)
Theorem b64_stays_in_buffer (encode inp mem quad : list Z) (in_len out_size : Z) :
  Z.of_nat (length (b64_encode_string encode inp out_size).2) <= Z.max 0 out_size
  ∧ Z.of_nat (length (lws_b64_decode_string quad mem out_size).2) <= Z.max 0 out_size
  ∧ Z.of_nat (length (lws_b64_decode_string_len quad mem in_len out_size).2) <= Z.max 0 out_size.
Proof.
  split; [|split].
  - apply encode_loop_bound; cbn; lia.
  - apply decode_loop_bound; [apply visible_no_nul|lia|done|lia].
  - apply decode_loop_bound; [apply visible_no_nul|lia|done|lia].
Qed.

(** A padding character after a complete text is miscounted: decoding the
    encoding of a string of whole groups followed by a stray '=' writes the
    string but returns one less than its length. *)
Theorem b64_stray_pad_miscounts (t0 t1 t2 : Z) (quad : list Z)
    (H0 : is_byte t0) (H1 : is_byte t1) (H2 : is_byte t2) (Hq : length quad = 4%nat) :
  b64_decode_string quad (enc_text encode_orig [t0; t1; t2] ++ [PAD]) 16
  = (2, [t0; t1; t2; 0]).
Proof.
  pose proof (proj1 alphabets_ok) as Ha.
  destruct (sextet_range encode_orig t0 t1 t2 H0 H1 H2) as (_ & _ & R2 & _).
  destruct (decode_bytes encode_orig t0 t1 t2 (q2 t1 t2)) as (D0 & D1 & D2); [done..| |].
  { unfold q2, is_byte in *. rewrite Z.add_comm, Z.div_add by lia.
    rewrite (Z.div_small (t2 `div` 64)); [lia|]. Z.div_mod_to_equations. lia. }
  destruct quad as [|a [|b [|c [|d [|]]]]]; try discriminate Hq.
  destruct (read_quad_full encode_orig Ha t0 t1 t2 [PAD] a b c d H0 H1 H2) as (c' & Hrq & Hc').
  unfold b64_decode_string. cbn [enc_text]. rewrite app_nil_r, length_app.
  cbn [length encode_group Nat.add app]. unfold encode_group in Hrq. cbn [app] in Hrq.
  assert (decode_group 4 [q0 t0; q1 t0 t1; q2 t1 t2; q3 t2] = [t0; t1; t2]) as Hg.
  { unfold decode_group. cbn [Z.leb Z.compare Pos.compare Pos.compare_cont nth app].
    by rewrite D0, D1, D2. }
  change (decode_loop 5 ?s ?q ?dn ?z ?o) with
    (let '(len, quad, c, s') := read_quad 4 0 s q 0 0 in
     if z <? dn + len - 1 then (-1, o)
     else
       let len := match s' with [] => if c =? PAD then len - 1 else len | _ => len end in
       decode_loop 4 s' quad (dn + (len - 1)) z (o ++ decode_group len quad)).
  rewrite Hrq. cbv zeta iota beta. rewrite Hg. clear.
  generalize (q0 t0), (q1 t0 t1), (q2 t1 t2), (q3 t2). intros. vm_compute. reflexivity.
Qed.

Lemma b64_stray_pad_miscounts_witness :
  b64_decode_string [0; 0; 0; 0] (bs "YWJj=") 16 = (2, bs "abc" ++ [0]).
Proof.
  exact (b64_stray_pad_miscounts 97 98 99 [0; 0; 0; 0]
           ltac:(by_compute) ltac:(by_compute) ltac:(by_compute) eq_refl).
Defined.
