(* ===== verification/Utf8.v ===== *)
(** * UTF-8 checking

    Models the table-driven UTF-8 checker of lib/core/libwebsockets.c
    ([e0f4], [lws_check_byte_utf8], [lws_check_utf8]), which validates the text
    messages and the close reasons a websocket receives.  The specification is
    the encoding of Unicode scalar values (RFC 3629), and the theorems say that
    a text accepted in any number of pieces is exactly such an encoding. *)

From stdpp Require Import base numbers list.
From Stdlib Require Import ZArith Lia.
From S2P Require Import Prelude.

(** ** The code *)

Definition e0f4 : list Z :=
  let e base n r := Z.lor (Z.lor base (Z.shiftl (n - 1) 2)) r in
  [ e 160 2 1 (* e0 *);
    e 128 4 1; e 128 4 1; e 128 4 1; e 128 4 1; e 128 4 1; e 128 4 1; e 128 4 1;
    e 128 4 1; e 128 4 1; e 128 4 1; e 128 4 1; e 128 4 1 (* ec *);
    e 128 2 1 (* ed *);
    e 128 4 1; e 128 4 1 (* ef *);
    e 144 3 2 (* f0 *);
    e 128 4 2; e 128 4 2; e 128 4 2 (* f3 *);
    e 128 1 2 (* f4 *);
    0 (* s0 *);
    e 128 4 0 (* s2 *);
    e 128 4 1 (* s3 *) ].

Definition e0f4_at (i : Z) : Z := nth (Z.to_nat i) e0f4 0.

(** The new state, or -1. *)
Definition lws_check_byte_utf8 (state c : Z) : Z :=
  let s := state in
  if s =? 0 then
    if 128 <=? c then
      if (c <? 194) || (244 <? c) then -1
      else if c <? 224 then Z.lor 128 (Z.shiftl (4 - 1) 2)
      else e0f4_at (c - 224)
    else s
  else if (c <? Z.land s 240)
          || (Z.land s 240 + 16 + Z.land (Z.shiftl s 2) 48 <=? c) then -1
  else e0f4_at (21 + Z.land s 3).

(** The loop of [lws_check_utf8]: [None] is [return 1]. *)
Fixpoint check_utf8_loop (s : Z) (buf : list Z) : option Z :=
  match buf with
  | [] => Some s
  | c :: buf' =>
      if s =? 0 then
        if 128 <=? c then
          if (c <? 194) || (244 <? c) then None
          else if c <? 224 then check_utf8_loop (Z.lor 128 (Z.shiftl (4 - 1) 2)) buf'
          else check_utf8_loop (e0f4_at (c - 224)) buf'
        else check_utf8_loop s buf'
      else if (c <? Z.land s 240)
              || (Z.land s 240 + 16 + Z.land (Z.shiftl s 2) 48 <=? c) then None
      else check_utf8_loop (e0f4_at (21 + Z.land s 3)) buf'
  end.

(** The return value and the new [*state], which only success writes. *)
Definition lws_check_utf8 (state : Z) (buf : list Z) : Z * Z :=
  match check_utf8_loop state buf with
  | Some s => (0, s)
  | None => (1, state)
  end.

(** A text that arrives in pieces, as ops-ws.c checks it: each piece with the
    state the previous ones left; [None] once a piece was refused. *)
Fixpoint check_pieces (state : Z) (bufs : list (list Z)) : option Z :=
  match bufs with
  | [] => Some state
  | b :: bufs' =>
      let '(r, s) := lws_check_utf8 state b in
      if r =? 0 then check_pieces s bufs' else None
  end.

(** ** The specification: encodings of Unicode scalar values *)

Definition scalar_value (cp : Z) : Prop :=
  0 <= cp < 55296 ∨ 57344 <= cp < 1114112.

#[global] Instance scalar_value_dec cp : Decision (scalar_value cp).
Proof. unfold scalar_value. apply _. Defined.

Definition utf8_encode (cp : Z) : list Z :=
  if cp <? 128 then [cp]
  else if cp <? 2048 then [192 + cp `div` 64; 128 + cp `mod` 64]
  else if cp <? 65536 then
    [224 + cp `div` 4096; 128 + (cp `div` 64) `mod` 64; 128 + cp `mod` 64]
  else
    [240 + cp `div` 262144; 128 + (cp `div` 4096) `mod` 64;
     128 + (cp `div` 64) `mod` 64; 128 + cp `mod` 64].

(** A well-formed UTF-8 text. *)
Definition utf8_text (l : list Z) : Prop :=
  ∃ cps, Forall scalar_value cps ∧ l = concat (utf8_encode <$> cps).

(** ** Lemmas *)

(** One step of the checker, as a partial function. *)
Definition step (s c : Z) : option Z :=
  let r := lws_check_byte_utf8 s c in if r =? -1 then None else Some r.

Fixpoint run (s : Z) (l : list Z) : option Z :=
  match l with
  | [] => Some s
  | c :: l' => match step s c with Some s' => run s' l' | None => None end
  end.

(** The states the checker can be in. *)
Definition states : list Z := [0; 140; 141; 165; 133; 154; 142; 130].

Lemma e0f4_nonneg i : e0f4_at i ≠ -1.
Proof.
  unfold e0f4_at. intros H.
  assert (Forall (λ z, z ≠ -1) (e0f4 ++ [0])) as HF by by_compute.
  destruct (decide (Z.to_nat i < length e0f4)%nat) as [Hlt|Hge].
  - rewrite Forall_forall in HF. apply (HF (nth (Z.to_nat i) e0f4 0)); [|done].
    apply elem_of_app. left. apply list_elem_of_In, nth_In. done.
  - rewrite nth_overflow in H by lia. done.
Qed.

(** The buffer loop takes the same steps as the byte checker. *)
Lemma check_utf8_loop_run l s : check_utf8_loop s l = run s l.
Proof.
  revert s. induction l as [|c l IH]; intros s; [done|].
  cbn [check_utf8_loop run]. unfold step, lws_check_byte_utf8.
  assert (∀ i, (e0f4_at i =? -1) = false) as He.
  { intros i. apply Z.eqb_neq, e0f4_nonneg. }
  destruct (Z.eqb_spec s 0) as [->|].
  - destruct (128 <=? c); [|cbn; apply IH].
    destruct ((c <? 194) || (244 <? c)); [done|].
    destruct (c <? 224); [cbn; apply IH|]. rewrite He. apply IH.
  - destruct (_ || _); [done|]. rewrite He. apply IH.
Qed.

Lemma utf8_run_app s l1 l2 :
  run s (l1 ++ l2) = match run s l1 with Some s' => run s' l2 | None => None end.
Proof.
  revert s. induction l1 as [|c l1 IH]; intros s; [done|].
  cbn [run app]. destruct (step s c); [apply IH|done].
Qed.

Lemma check_pieces_run s bufs : check_pieces s bufs = run s (concat bufs).
Proof.
  revert s. induction bufs as [|b bufs IH]; intros s; [done|].
  cbn [check_pieces concat]. unfold lws_check_utf8.
  rewrite check_utf8_loop_run, utf8_run_app. destruct (run s b); cbn; [apply IH|done].
Qed.

(** What each state admits, for every byte, evaluated. *)
Definition lead_class (c : Z) : option Z :=
  if c <? 128 then Some 0 else if c <? 194 then None else if c <? 224 then Some 140
  else if c =? 224 then Some 165 else if c =? 237 then Some 133 else if c <? 240 then Some 141
  else if c =? 240 then Some 154 else if c <? 244 then Some 142 else if c =? 244 then Some 130
  else None.

Definition cont_class (s c : Z) : option Z :=
  let rng lo hi n := if (lo <=? c) && (c <? hi) then Some n else None in
  if s =? 140 then rng 128 192 0
  else if s =? 141 then rng 128 192 140
  else if s =? 142 then rng 128 192 141
  else if s =? 165 then rng 160 192 140
  else if s =? 133 then rng 128 160 140
  else if s =? 154 then rng 144 192 141
  else rng 128 144 141.

Lemma step_lead c : is_byte c → step 0 c = lead_class c.
Proof.
  revert c. apply (forall_bytes_dec (λ c, step 0 c = lead_class c)). vm_compute. reflexivity.
Qed.

Lemma step_cont s c : s ∈ states → s ≠ 0 → is_byte c → step s c = cont_class s c.
Proof.
  intros Hs Hs0. revert c. apply (forall_bytes_dec (λ c, step s c = cont_class s c)).
  unfold states in Hs. rewrite !elem_of_cons, elem_of_nil in Hs.
  destruct_or? Hs; subst; try done; vm_compute; reflexivity.
Qed.

(** The encoding by the base-64 digits of the scalar value. *)
Lemma utf8_encode_2 b c :
  0 <= c < 64 → 128 <= b * 64 + c < 2048 → utf8_encode (b * 64 + c) = [192 + b; 128 + c].
Proof.
  intros Hc H. unfold utf8_encode.
  rewrite (proj2 (Z.ltb_ge _ _)), (proj2 (Z.ltb_lt _ _)) by lia.
  repeat f_equal; Z.div_mod_to_equations; lia.
Qed.

Lemma utf8_encode_3 a b c :
  0 <= b < 64 → 0 <= c < 64 → 2048 <= a * 4096 + b * 64 + c < 65536 →
  utf8_encode (a * 4096 + b * 64 + c) = [224 + a; 128 + b; 128 + c].
Proof.
  intros Hb Hc H. unfold utf8_encode.
  rewrite 2 (proj2 (Z.ltb_ge _ _)), (proj2 (Z.ltb_lt _ _)) by lia.
  repeat f_equal; Z.div_mod_to_equations; lia.
Qed.

Lemma utf8_encode_4 z a b c :
  0 <= a < 64 → 0 <= b < 64 → 0 <= c < 64 → 65536 <= z * 262144 + a * 4096 + b * 64 + c →
  utf8_encode (z * 262144 + a * 4096 + b * 64 + c) = [240 + z; 128 + a; 128 + b; 128 + c].
Proof.
  intros Ha Hb Hc H. unfold utf8_encode.
  rewrite 3 (proj2 (Z.ltb_ge _ _)) by lia.
  repeat f_equal; Z.div_mod_to_equations; lia.
Qed.

Lemma digits64 cp : 0 <= cp →
  ∃ z a b c, cp = z * 262144 + a * 4096 + b * 64 + c
    ∧ 0 <= z ∧ 0 <= a < 64 ∧ 0 <= b < 64 ∧ 0 <= c < 64.
Proof.
  intros H. exists (cp `div` 262144), ((cp `div` 4096) `mod` 64), ((cp `div` 64) `mod` 64), (cp `mod` 64).
  Z.div_mod_to_equations. lia.
Qed.

(** Evaluate the class of a byte whose range the context determines. *)
Ltac class_by_range :=
  repeat (case_match || zcases); try lia; try done.

Lemma run_cons s c l : run s (c :: l) = match step s c with Some s' => run s' l | None => None end.
Proof. done. Qed.

Ltac run_cont :=
  rewrite run_cons, step_cont by (try done; try (unfold is_byte; lia); by_compute);
  unfold cont_class at 1; cbn [Z.eqb Pos.eqb];
  rewrite (proj2 (Z.leb_le _ _)), (proj2 (Z.ltb_lt _ _)) by lia; cbn [andb].

(** An encoding is accepted and leads back to the initial state. *)
Lemma run_encode cp : scalar_value cp → run 0 (utf8_encode cp) = Some 0.
Proof.
  unfold scalar_value. intros Hcp.
  destruct (digits64 cp) as (z & a & b & c & -> & Hz & Ha & Hb & Hc); [lia|].
  destruct (Z.ltb_spec (z * 262144 + a * 4096 + b * 64 + c) 128).
  { unfold utf8_encode. rewrite (proj2 (Z.ltb_lt _ _)) by lia.
    rewrite run_cons, step_lead by (unfold is_byte; lia).
    unfold lead_class. by rewrite (proj2 (Z.ltb_lt _ _)) by lia. }
  destruct (Z.ltb_spec (z * 262144 + a * 4096 + b * 64 + c) 2048).
  { assert (z = 0) as -> by lia. assert (a = 0) as -> by lia. rewrite !Z.mul_0_l, !Z.add_0_l in *.
    rewrite utf8_encode_2 by lia.
    rewrite run_cons, step_lead by (unfold is_byte; lia).
    unfold lead_class. rewrite !(proj2 (Z.ltb_ge _ _)), (proj2 (Z.ltb_lt _ _)) by lia.
    by run_cont. }
  destruct (Z.ltb_spec (z * 262144 + a * 4096 + b * 64 + c) 65536).
  { assert (z = 0) as -> by lia. rewrite !Z.mul_0_l, !Z.add_0_l in *.
    rewrite utf8_encode_3 by lia.
    rewrite run_cons, step_lead by (unfold is_byte; lia).
    unfold lead_class. rewrite 3 (proj2 (Z.ltb_ge _ _)) by lia.
    destruct (Z.eqb_spec (224 + a) 224); [by do 2 run_cont|].
    destruct (Z.eqb_spec (224 + a) 237); [by do 2 run_cont|].
    rewrite (proj2 (Z.ltb_lt _ _)) by lia. by do 2 run_cont. }
  rewrite utf8_encode_4 by lia.
  rewrite run_cons, step_lead by (unfold is_byte; lia).
  unfold lead_class. rewrite 3 (proj2 (Z.ltb_ge _ _)) by lia.
  rewrite 2 (proj2 (Z.eqb_neq _ _)), (proj2 (Z.ltb_ge _ _)) by lia.
  destruct (Z.eqb_spec (240 + z) 240); [by do 3 run_cont|].
  destruct (Z.ltb_spec (240 + z) 244); [by do 3 run_cont|].
  rewrite (proj2 (Z.eqb_eq _ _)) by lia. by do 3 run_cont.
Qed.

(** Conversely: a run that ends in the initial state consumed an encoding. *)
Lemma cont_inv s l :
  s ∈ states → s ≠ 0 → Forall is_byte l → run s l = Some 0 →
  ∃ c l' s', l = c :: l' ∧ cont_class s c = Some s' ∧ Forall is_byte l' ∧ run s' l' = Some 0.
Proof.
  intros Hs Hs0 Hb H. destruct l as [|c l']; [cbn in H; congruence|].
  inversion Hb as [|? ? Hc Hb']; subst. rewrite run_cons, step_cont in H by done.
  destruct (cont_class s c) as [s'|] eqn:E; [|done]. by exists c, l', s'.
Qed.

Ltac cont_inv_step H :=
  match type of H with run ?s ?l = Some 0 =>
    let c := fresh "c" in let l' := fresh "l" in let s' := fresh "s" in
    let E := fresh "E" in let H' := fresh "Hrun" in let Hb' := fresh "Hby" in
    destruct (cont_inv s l) as (c & l' & s' & -> & E & Hb' & H');
    [by_compute|done|done|done|];
    unfold cont_class in E; cbn [Z.eqb Pos.eqb] in E;
    destruct ((_ <=? _) && (_ <? _)) eqn:? in E; [|discriminate E];
    injection E as <-
  end.

Lemma take_encode c l :
  Forall is_byte (c :: l) → run 0 (c :: l) = Some 0 →
  ∃ cp l', scalar_value cp ∧ c :: l = utf8_encode cp ++ l' ∧ Forall is_byte l' ∧ run 0 l' = Some 0.
Proof.
  intros Hb H. inversion Hb as [|? ? Hc Hb']; subst.
  rewrite run_cons, step_lead in H by done. unfold is_byte in Hc. unfold lead_class in H.
  destruct (Z.ltb_spec c 128).
  { exists c, l. unfold scalar_value, utf8_encode. rewrite (proj2 (Z.ltb_lt _ _)) by done.
    repeat split; try done. lia. }
  destruct (Z.ltb_spec c 194); [done|].
  destruct (Z.ltb_spec c 224).
  { cont_inv_step H. exists ((c - 192) * 64 + (c0 - 128)), l0.
    rewrite utf8_encode_2 by lia. unfold scalar_value.
    repeat split; try done; [lia|]. cbn. repeat f_equal; lia. }
  destruct (decide (c < 240)).
  { assert (∃ c1 c2 l', l = c1 :: c2 :: l' ∧ Forall is_byte l' ∧ run 0 l' = Some 0
      ∧ 128 <= c1 < 192 ∧ 128 <= c2 < 192 ∧ (c = 224 → 160 <= c1) ∧ (c = 237 → c1 < 160))
      as (c1 & c2 & l' & -> & Hl' & Hr' & ? & ? & ? & ?).
    { destruct (Z.eqb_spec c 224); [|destruct (Z.eqb_spec c 237); [|rewrite (proj2 (Z.ltb_lt _ _)) in H by lia]];
        cont_inv_step H; cont_inv_step Hrun; eexists _, _, _;
        (split; [reflexivity|]); repeat split; try done; lia. }
    exists ((c - 224) * 4096 + (c1 - 128) * 64 + (c2 - 128)), l'.
    rewrite utf8_encode_3 by lia. unfold scalar_value.
    repeat split; try done; [lia|]. cbn. repeat f_equal; lia. }
  assert (∃ c1 c2 c3 l', l = c1 :: c2 :: c3 :: l' ∧ Forall is_byte l' ∧ run 0 l' = Some 0
      ∧ 128 <= c1 < 192 ∧ 128 <= c2 < 192 ∧ 128 <= c3 < 192 ∧ c <= 244
      ∧ (c = 240 → 144 <= c1) ∧ (c = 244 → c1 < 144))
    as (c1 & c2 & c3 & l' & -> & Hl' & Hr' & ? & ? & ? & ? & ? & ?).
  { rewrite (proj2 (Z.eqb_neq c 224)), (proj2 (Z.eqb_neq c 237)), (proj2 (Z.ltb_ge c 240)) in H by lia.
    destruct (Z.eqb_spec c 240); [|destruct (Z.ltb_spec c 244); [|destruct (Z.eqb_spec c 244); [|done]]];
      cont_inv_step H; cont_inv_step Hrun; cont_inv_step Hrun0; eexists _, _, _, _;
      (split; [reflexivity|]); repeat split; try done; lia. }
  exists ((c - 240) * 262144 + (c1 - 128) * 4096 + (c2 - 128) * 64 + (c3 - 128)), l'.
  rewrite utf8_encode_4 by lia. unfold scalar_value.
  repeat split; try done; [lia|]. cbn. repeat f_equal; lia.
Qed.

Lemma run_text_inv n l :
  (length l ≤ n)%nat → Forall is_byte l → run 0 l = Some 0 → utf8_text l.
Proof.
  revert l. induction n as [|n IH]; intros l Hn Hb H.
  { destruct l; [|cbn in Hn; lia]. exists []. by split. }
  destruct l as [|c l]; [exists []; by split|].
  destruct (take_encode c l Hb H) as (cp & l' & Hcp & El & Hb' & H').
  assert (length l' ≤ n)%nat as Hl'.
  { apply (f_equal length) in El. rewrite length_app in El. cbn [length] in El, Hn.
    assert (1 ≤ length (utf8_encode cp))%nat; [|lia].
    unfold utf8_encode. repeat case_match; cbn; lia. }
  destruct (IH l' Hl' Hb' H') as (cps & Hcps & ->).
  exists (cp :: cps). split; [by constructor|]. by rewrite El.
Qed.

Lemma run_text l : Forall is_byte l → run 0 l = Some 0 ↔ utf8_text l.
Proof.
  intros Hb. split; [by apply (run_text_inv (length l))|].
  intros (cps & Hcps & ->). clear Hb. induction Hcps as [|cp cps Hcp _ IH]; [done|].
  cbn. rewrite utf8_run_app, run_encode by done. apply IH.
Qed.

(** The checker stays within [states], and every state can be completed. *)
Lemma step_states s c s' : s ∈ states → is_byte c → step s c = Some s' → s' ∈ states.
Proof.
  intros Hs Hc H. destruct (decide (s = 0)) as [->|Hs0].
  - rewrite step_lead in H by done. unfold lead_class in H.
    repeat case_match; simplify_eq; by_compute.
  - rewrite step_cont in H by done. unfold cont_class in H.
    repeat case_match; simplify_eq; by_compute.
Qed.

Lemma run_states s l s' : s ∈ states → Forall is_byte l → run s l = Some s' → s' ∈ states.
Proof.
  revert s. induction l as [|c l IH]; intros s Hs Hb H; [by simplify_eq/=|].
  inversion Hb as [|? ? Hc Hb']; subst. rewrite run_cons in H.
  destruct (step s c) as [s1|] eqn:E; [|done].
  apply (IH s1); [by apply (step_states s c)|done..].
Qed.

Lemma states_complete s : s ∈ states → ∃ rest, Forall is_byte rest ∧ run s rest = Some 0.
Proof.
  intros Hs. unfold states in Hs. rewrite !elem_of_cons, elem_of_nil in Hs.
  destruct_or? Hs; subst.
  - exists []. split; [constructor|reflexivity].
  - exists [128]. split; [by_compute|vm_compute; reflexivity].
  - exists [128; 128]. split; [by_compute|vm_compute; reflexivity].
  - exists [160; 128]. split; [by_compute|vm_compute; reflexivity].
  - exists [128; 128]. split; [by_compute|vm_compute; reflexivity].
  - exists [144; 128; 128]. split; [by_compute|vm_compute; reflexivity].
  - exists [128; 128; 128]. split; [by_compute|vm_compute; reflexivity].
  - exists [128; 128; 128]. split; [by_compute|vm_compute; reflexivity].
Qed.

Lemma run_prefix l :
  Forall is_byte l →
  is_Some (run 0 l) ↔ ∃ rest, Forall is_byte rest ∧ utf8_text (l ++ rest).
Proof.
  intros Hb. split.
  - intros [s Hs].
    destruct (states_complete s) as (rest & Hr & Hrun).
    { apply (run_states 0 l); [by_compute|done..]. }
    exists rest. split; [done|]. apply run_text; [by apply Forall_app|].
    by rewrite utf8_run_app, Hs.
  - intros (rest & Hr & Ht). apply run_text in Ht; [|by apply Forall_app].
    rewrite utf8_run_app in Ht. destruct (run 0 l); [by eexists|done].
Qed.

(** ** Properties *)

(** [C27] A text received in any number of pieces is accepted, with nothing
    pending at its end, exactly when it is the encoding of a sequence of
    Unicode scalar values; and it is refused as early as possible: the pieces
    received so far are accepted exactly when they can still be completed to
    such an encoding. *)
Theorem utf8_accepts_iff_text (bufs : list (list Z)) (Hb : Forall is_byte (concat bufs)) :
  (check_pieces 0 bufs = Some 0 ↔ utf8_text (concat bufs))
  ∧ (is_Some (check_pieces 0 bufs)
     ↔ ∃ rest, Forall is_byte rest ∧ utf8_text (concat bufs ++ rest)).
Proof.
  rewrite check_pieces_run. split; [by apply run_text|by apply run_prefix].
Qed.

(** A euro sign cut after its first byte, and a surrogate. *)
Lemma utf8_accepts_iff_text_witness :
  utf8_text [97; 226; 130; 172]
  ∧ ~ (∃ rest, Forall is_byte rest ∧ utf8_text ([237; 160] ++ rest)).
Proof.
  split.
  - apply (proj1 (utf8_accepts_iff_text [[97; 226]; [130; 172]] ltac:(by_compute))).
    vm_compute. reflexivity.
  - intros H. apply (proj2 (utf8_accepts_iff_text [[237; 160]] ltac:(by_compute))) in H.
    vm_compute in H. destruct H as [s Hs]. discriminate Hs.
Defined.

(** The byte checker and the buffer checker take the same steps: feeding
    a buffer one byte at a time to [lws_check_byte_utf8] gives the state
    [lws_check_utf8] stores, and -1 exactly where it returns 1, leaving the
    caller's state as it was. *)
Theorem utf8_byte_agrees (state : Z) (buf : list Z) :
  lws_check_utf8 state buf
  = foldl (λ '(r, s) c,
      if r =? 0
      then let n := lws_check_byte_utf8 s c in if n =? -1 then (1, state) else (0, n)
      else (r, s)) (0, state) buf.
Proof.
  unfold lws_check_utf8. rewrite check_utf8_loop_run.
  set (f := λ '(r, s) c, _).
  assert (∀ l, foldl f (1, state) l = (1, state)) as Hstop by (induction l; done).
  enough (∀ s, match run s buf with Some s' => (0, s') | None => (1, state) end
               = foldl f (0, s) buf) as H by apply H.
  induction buf as [|c buf IH]; intros s; [done|].
  rewrite run_cons. cbn [foldl]. unfold f at 2, step. cbn [Z.eqb].
  destruct (_ =? -1); [by rewrite Hstop|apply IH].
Qed.
