(* ===== verification/Sha1.v ===== *)
(** * SHA-1

    Models lib/misc/sha-1.c on a little-endian machine: the incremental
    implementation with its 64-byte block buffer and its circular message
    schedule.  The specification is FIPS 180-1: pad the whole message, cut it
    into blocks, expand each to 80 words and compress.  The theorem says that
    the two agree, whatever pieces the message is given in. *)

From stdpp Require Import base numbers list strings.
From Stdlib Require Import ZArith Lia Ascii.
From S2P Require Import Prelude.

Module SHA1.

(** ** The code *)

(** [struct sha1_ctxt]: the union [h] as its words, [c] as its 64-bit count of
    bits, [m] as its bytes. *)
Record sha1_ctxt := Sha1Ctxt {
  h : list Z;
  c : Z;
  m : list Z;
  count : Z;
}.

Definition _K : list Z := [1518500249; 1859775393; 2400959708; 3395469782].
Definition K (t : nat) : Z := nth (t / 20) _K 0.

Definition F0 (b c d : Z) : Z := Z.lor (Z.land b c) (Z.land (u32 (Z.lnot b)) d).
Definition F1 (b c d : Z) : Z := Z.lxor (Z.lxor b c) d.
Definition F2 (b c d : Z) : Z := Z.lor (Z.lor (Z.land b c) (Z.land b d)) (Z.land c d).
Definition F3 (b c d : Z) : Z := Z.lxor (Z.lxor b c) d.

Definition S (n x : Z) : Z := Z.lor (u32 (Z.shiftl x n)) (Z.shiftr x (32 - n)).

(** The words of [m.b32] as a little-endian machine reads them. *)
Definition le32 (b0 b1 b2 b3 : Z) : Z := b0 + 256 * b1 + 65536 * b2 + 16777216 * b3.

Fixpoint b32 (bytes : list Z) : list Z :=
  match bytes with
  | b0 :: b1 :: b2 :: b3 :: rest => le32 b0 b1 b2 b3 :: b32 rest
  | _ => []
  end.

(** The assignments that reverse each group of four bytes of [m.b8]. *)
Fixpoint swap4 (bytes : list Z) : list Z :=
  match bytes with
  | b0 :: b1 :: b2 :: b3 :: rest => b3 :: b2 :: b1 :: b0 :: swap4 rest
  | _ => []
  end.

Definition W (w : list Z) (n : nat) : Z := nth n w 0.

(** [W(s) = S(1, W((s+13) & 0x0f) ^ W((s+8) & 0x0f) ^ W((s+2) & 0x0f) ^ W(s))] *)
Definition expand (w : list Z) (s : nat) : list Z :=
  <[s := S 1 (Z.lxor (Z.lxor (Z.lxor (W w (Nat.land (s + 13) 15)) (W w (Nat.land (s + 8) 15)))
                             (W w (Nat.land (s + 2) 15))) (W w s))]> w.

(** The working variables, and the two last lines of a loop body. *)
Record vars := Vars { va : Z; vb : Z; vc : Z; vd : Z; ve : Z }.

Definition mix (F : Z → Z → Z → Z) (w : list Z) (t : nat) (v : vars) : vars :=
  let s := Nat.land t 15 in
  let tmp := u32 (S 5 (va v) + F (vb v) (vc v) (vd v) + ve v + W w s + K t) in
  Vars tmp (va v) (S 30 (vb v)) (vc v) (vd v).

(** The body of the first loop, and of the three others. *)
Definition body0 (st : list Z * vars) (t : nat) : list Z * vars :=
  let '(w, v) := st in
  let w := if (16 <=? t)%nat then expand w (Nat.land t 15) else w in
  (w, mix F0 w t v).

Definition body (F : Z → Z → Z → Z) (st : list Z * vars) (t : nat) : list Z * vars :=
  let '(w, v) := st in
  let w := expand w (Nat.land t 15) in
  (w, mix F w t v).

Definition sha1_step (x : sha1_ctxt) : sha1_ctxt :=
  let w := b32 (swap4 (m x)) in
  let H i := nth i (h x) 0 in
  let st := (w, Vars (H 0%nat) (H 1%nat) (H 2%nat) (H 3%nat) (H 4%nat)) in
  let st := foldl body0 st (seq 0 20) in
  let st := foldl (body F1) st (seq 20 20) in
  let st := foldl (body F2) st (seq 40 20) in
  let '(w, v) := foldl (body F3) st (seq 60 20) in
  {| h := [u32 (H 0%nat + va v); u32 (H 1%nat + vb v); u32 (H 2%nat + vc v);
           u32 (H 3%nat + vd v); u32 (H 4%nat + ve v)];
     c := c x; m := replicate 64 0; count := count x |}.

Definition _sha1_init : sha1_ctxt :=
  {| h := [1732584193; 4023233417; 2562383102; 271733878; 3285377520];
     c := 0; m := replicate 64 0; count := 0 |}.

(** [memcpy]/[bzero] at an offset of [m.b8], and the addition to COUNT. *)
Definition store (x : sha1_ctxt) (off : Z) (bytes : list Z) : sha1_ctxt :=
  {| h := h x; c := c x; m := blit (m x) (Z.to_nat off) bytes; count := count x |}.

Definition add_count (x : sha1_ctxt) (n : Z) : sha1_ctxt :=
  {| h := h x; c := c x; m := m x; count := u8 (u8 (count x + n) `mod` 64) |}.

Definition add_bits (x : sha1_ctxt) (n : Z) : sha1_ctxt :=
  {| h := h x; c := u64 (c x + n); m := m x; count := count x |}.

Definition step_if_full (x : sha1_ctxt) : sha1_ctxt :=
  if count x `mod` 64 =? 0 then sha1_step x else x.

Definition PUTPAD (x : sha1_ctxt) (b : Z) : sha1_ctxt :=
  step_if_full (add_count (store x (count x `mod` 64) [b]) 1).

(** [c.b8[i]] on a little-endian machine. *)
Definition c_b8 (x : sha1_ctxt) (i : Z) : Z := (c x `div` 2 ^ (8 * i)) `mod` 256.

Definition zeros (n : Z) : list Z := replicate (Z.to_nat n) 0.

Definition sha1_pad (x : sha1_ctxt) : sha1_ctxt :=
  let x := PUTPAD x 128 in
  let padstart := count x `mod` 64 in
  let padlen := 64 - padstart in
  let '(x, padstart, padlen) :=
    if padlen <? 8 then
      let x := sha1_step (add_count (store x padstart (zeros padlen)) (u8 padlen)) in
      let padstart := count x `mod` 64 in (x, padstart, 64 - padstart)
    else (x, padstart, padlen) in
  let x := add_count (store x padstart (zeros (padlen - 8))) (u8 padlen - 8) in
  foldl (λ x i, PUTPAD x (c_b8 x i)) x [7; 6; 5; 4; 3; 2; 1; 0].

(** [fuel] bounds the number of pieces by the length of the input: every
    iteration copies at least one byte. *)
Fixpoint sha1_loop_go (fuel : nat) (x : sha1_ctxt) (input : list Z) (off : nat) : sha1_ctxt :=
  match fuel with
  | O => x
  | Datatypes.S f =>
      if (off <? length input)%nat then
        let gapstart := count x `mod` 64 in
        let gaplen := Z.to_nat (64 - gapstart) in
        let copysiz := (if gaplen <? length input - off then gaplen else length input - off)%nat in
        let x := store x gapstart (take copysiz (drop off input)) in
        let x := add_bits (add_count x (u8 (Z.of_nat copysiz))) (u64 (Z.of_nat copysiz * 8)) in
        sha1_loop_go f (step_if_full x) input (off + copysiz)
      else x
  end.

Definition sha1_loop (x : sha1_ctxt) (input : list Z) : sha1_ctxt :=
  sha1_loop_go (length input) x input 0.

(** [h.b8[i]] on a little-endian machine. *)
Definition h_b8 (x : sha1_ctxt) (i : nat) : Z :=
  (nth (i / 4) (h x) 0 `div` 2 ^ (8 * Z.of_nat (i mod 4))) `mod` 256.

Definition sha1_result (x : sha1_ctxt) : list Z :=
  let x := sha1_pad x in
  h_b8 x <$> [3; 2; 1; 0; 7; 6; 5; 4; 11; 10; 9; 8; 15; 14; 13; 12; 19; 18; 17; 16]%nat.

Definition lws_SHA1 (d : list Z) : list Z := sha1_result (sha1_loop _sha1_init d).

(** ** The specification: FIPS 180-1 *)

Module Fips.
Definition rotl (n x : Z) : Z := (x * 2 ^ n) `mod` 2 ^ 32 + x `div` 2 ^ (32 - n).

Definition be32 (b0 b1 b2 b3 : Z) : Z := b0 * 16777216 + b1 * 65536 + b2 * 256 + b3.

Fixpoint words (block : list Z) : list Z :=
  match block with
  | b0 :: b1 :: b2 :: b3 :: rest => be32 b0 b1 b2 b3 :: words rest
  | _ => []
  end.

(** The schedule W(0), W(1), ... *)
Definition next_word (ws : list Z) : Z :=
  let w k := nth (length ws - k) ws 0 in
  rotl 1 (Z.lxor (Z.lxor (Z.lxor (w 3%nat) (w 8%nat)) (w 14%nat)) (w 16%nat)).

Fixpoint schedule (n : nat) (ws : list Z) : list Z :=
  match n with O => ws | Datatypes.S k => schedule k (ws ++ [next_word ws]) end.

Definition f (t : nat) (b c d : Z) : Z :=
  if (t <? 20)%nat then Z.lor (Z.land b c) (Z.land (2 ^ 32 - 1 - b) d)
  else if (t <? 40)%nat then Z.lxor (Z.lxor b c) d
  else if (t <? 60)%nat then Z.lor (Z.lor (Z.land b c) (Z.land b d)) (Z.land c d)
  else Z.lxor (Z.lxor b c) d.

Definition k (t : nat) : Z :=
  if (t <? 20)%nat then 0x5A827999 else if (t <? 40)%nat then 0x6ED9EBA1
  else if (t <? 60)%nat then 0x8F1BBCDC else 0xCA62C1D6.

Definition round (ws : list Z) (v : vars) (t : nat) : vars :=
  Vars ((rotl 5 (va v) + f t (vb v) (vc v) (vd v) + ve v + nth t ws 0 + k t) `mod` 2 ^ 32)
    (va v) (rotl 30 (vb v)) (vc v) (vd v).

Definition compress (hs : list Z) (block : list Z) : list Z :=
  let H i := nth i hs 0 in
  let v := foldl (round (schedule 64 (words block)))
             (Vars (H 0%nat) (H 1%nat) (H 2%nat) (H 3%nat) (H 4%nat)) (seq 0 80) in
  (λ z, z `mod` 2 ^ 32) <$>
    [H 0%nat + va v; H 1%nat + vb v; H 2%nat + vc v; H 3%nat + vd v; H 4%nat + ve v].

(** Compress the blocks of a text in order ([n] of them). *)
Fixpoint blocks (n : nat) (hs : list Z) (text : list Z) : list Z :=
  match n with
  | O => hs
  | Datatypes.S n' => blocks n' (compress hs (take 64 text)) (drop 64 text)
  end.

Definition be64 (z : Z) : list Z := (λ i, (z `div` 2 ^ (8 * i)) `mod` 256) <$> [7; 6; 5; 4; 3; 2; 1; 0].

(** A one bit, zeros, and the length in bits, to a multiple of 64 bytes. *)
Definition pad (msg : list Z) : list Z :=
  let len := Z.of_nat (length msg) in
  msg ++ [128] ++ replicate (Z.to_nat ((55 - len) `mod` 64)) 0 ++ be64 (8 * len).

Definition H0 : list Z := [0x67452301; 0xEFCDAB89; 0x98BADCFE; 0x10325476; 0xC3D2E1F0].

Definition word_bytes (w : Z) : list Z :=
  [(w `div` 16777216) `mod` 256; (w `div` 65536) `mod` 256; (w `div` 256) `mod` 256; w `mod` 256].

Definition sha1 (msg : list Z) : list Z :=
  concat (word_bytes <$> blocks (length (pad msg) / 64) H0 (pad msg)).
End Fips.

(** The two agree on the examples of FIPS 180-1, appendices A and B. *)
Example sha1_abc :
  lws_SHA1 (bs "abc")
  = [0xA9; 0x99; 0x3E; 0x36; 0x47; 0x06; 0x81; 0x6A; 0xBA; 0x3E; 0x25; 0x71; 0x78; 0x50;
     0xC2; 0x6C; 0x9C; 0xD0; 0xD8; 0x9D]
  ∧ Fips.sha1 (bs "abc") = lws_SHA1 (bs "abc").
Proof. split; vm_compute; reflexivity. Qed.

Example sha1_two_blocks :
  let msg := bs "abcdbcdecdefdefgefghfghighijhijkijkljklmklmnlmnomnopnopq" in
  lws_SHA1 msg
  = [0x84; 0x98; 0x3E; 0x44; 0x1C; 0x3B; 0xD2; 0x6E; 0xBA; 0xAE; 0x4A; 0xA1; 0xF9; 0x51;
     0x29; 0xE5; 0xE5; 0x46; 0x70; 0xF1]
  ∧ Fips.sha1 msg = lws_SHA1 msg.
Proof. split; vm_compute; reflexivity. Qed.

(** ** Lemmas *)

(** *** 32-bit words *)

Definition word (x : Z) : Prop := 0 <= x < 2 ^ 32.

Lemma word_shiftr x : word x ↔ Z.shiftr x 32 = 0.
Proof. unfold word. rewrite Z.shiftr_div_pow2, Z.div_small_iff by lia. lia. Qed.

Lemma word_lxor x y : word x → word y → word (Z.lxor x y).
Proof. rewrite !word_shiftr, Z.shiftr_lxor. by intros -> ->. Qed.

Lemma word_mod x : word (x `mod` 2 ^ 32).
Proof. unfold word. apply Z.mod_pos_bound. lia. Qed.

Lemma S_rotl n x : 0 < n < 32 → word x → S n x = Fips.rotl n x.
Proof.
  unfold word, S, Fips.rotl, u32. intros Hn Hx.
  rewrite Z.shiftl_mul_pow2, Z.shiftr_div_pow2 by lia.
  assert (2 ^ 32 = 2 ^ (32 - n) * 2 ^ n) as E by (rewrite <- Z.pow_add_r by lia; f_equal; lia).
  pose proof (Z.pow_pos_nonneg 2 n ltac:(lia) ltac:(lia)) as Hp.
  pose proof (Z.pow_pos_nonneg 2 (32 - n) ltac:(lia) ltac:(lia)) as Hq.
  change 4294967296 with (2 ^ 32). rewrite E at 1 2.
  rewrite Z.mul_mod_distr_r by lia.
  rewrite <- Z.shiftl_mul_pow2 by lia. rewrite lor_shiftl_add; [|lia|].
  - by rewrite Z.shiftl_mul_pow2 by lia.
  - split; [apply Z.div_pos; lia|]. apply Z.div_lt_upper_bound; [lia|]. rewrite <- E. lia.
Qed.

Lemma word_rotl n x : 0 < n < 32 → word x → word (Fips.rotl n x).
Proof.
  unfold word, Fips.rotl. intros Hn Hx.
  assert (2 ^ 32 = 2 ^ (32 - n) * 2 ^ n) as E by (rewrite <- Z.pow_add_r by lia; f_equal; lia).
  pose proof (Z.pow_pos_nonneg 2 n ltac:(lia) ltac:(lia)) as Hp.
  pose proof (Z.pow_pos_nonneg 2 (32 - n) ltac:(lia) ltac:(lia)) as Hq.
  rewrite E. rewrite Z.mul_mod_distr_r by lia.
  assert (0 <= x `div` 2 ^ (32 - n) < 2 ^ n).
  { split; [apply Z.div_pos; lia|]. apply Z.div_lt_upper_bound; [lia|]. rewrite <- E. lia. }
  pose proof (Z.mod_pos_bound x (2 ^ (32 - n))). nia.
Qed.

(** *** The message schedule *)

Lemma length_schedule n ws : length (Fips.schedule n ws) = (length ws + n)%nat.
Proof.
  revert ws. induction n as [|n IH]; intros ws; cbn; [lia|].
  rewrite IH, length_app. cbn. lia.
Qed.

Lemma schedule_old n ws j :
  (j < length ws)%nat → nth j (Fips.schedule n ws) 0 = nth j ws 0.
Proof.
  revert ws. induction n as [|n IH]; intros ws Hj; [done|].
  cbn. rewrite IH by (rewrite length_app; cbn; lia). by rewrite app_nth1 by lia.
Qed.

Lemma schedule_new n ws t :
  (16 ≤ length ws)%nat → (length ws ≤ t < length ws + n)%nat →
  let w k := nth (t - k)%nat (Fips.schedule n ws) 0 in
  nth t (Fips.schedule n ws) 0
  = Fips.rotl 1 (Z.lxor (Z.lxor (Z.lxor (w 3%nat) (w 8%nat)) (w 14%nat)) (w 16%nat)).
Proof.
  revert ws. induction n as [|n IH]; intros ws H16 Ht; [lia|].
  cbn [Fips.schedule]. destruct (decide (t = length ws)) as [->|Hne].
  - cbv zeta. rewrite !schedule_old by (rewrite length_app; cbn; lia).
    rewrite app_nth2, Nat.sub_diag by lia. rewrite !app_nth1 by lia. done.
  - apply IH; rewrite length_app; cbn; lia.
Qed.

Lemma nth_word l i : Forall word l → word (nth i l 0).
Proof.
  intros Hl. destruct (nth_lookup_or_length l i 0) as [E|E].
  - by apply (Forall_lookup_1 _ _ _ _ Hl E).
  - rewrite nth_overflow by done. split; lia.
Qed.

Lemma schedule_word n ws :
  (16 ≤ length ws)%nat → Forall word ws → Forall word (Fips.schedule n ws).
Proof.
  revert ws. induction n as [|n IH]; intros ws H16 Hw; [done|].
  cbn. apply IH; [rewrite length_app; cbn; lia|]. apply Forall_app. split; [done|].
  constructor; [|constructor]. unfold Fips.next_word. apply word_rotl; [lia|].
  repeat apply word_lxor; by apply nth_word.
Qed.

Lemma land15 t : Nat.land t 15 = (t mod 16)%nat.
Proof. by rewrite (Nat.land_ones t 4 : Nat.land t 15 = _). Qed.

(** *** The eighty rounds *)

Definition vwords (v : vars) : Prop :=
  word (va v) ∧ word (vb v) ∧ word (vc v) ∧ word (vd v) ∧ word (ve v).

Section rounds.
Variable full : list Z.
Hypothesis Hfull : Forall word full.
Hypothesis Hrec : ∀ t, (16 ≤ t < 80)%nat →
  nth t full 0 = Fips.rotl 1 (Z.lxor (Z.lxor (Z.lxor (nth (t - 3) full 0) (nth (t - 8) full 0))
                                             (nth (t - 14) full 0)) (nth (t - 16) full 0)).

(** Before round [t] the circular buffer holds the last sixteen words. *)
Definition sim (t : nat) (st : list Z * vars) (v : vars) : Prop :=
  st.2 = v ∧ vwords v ∧ length st.1 = 16%nat
  ∧ ∀ j, (Nat.max 16 t - 16 ≤ j < Nat.max 16 t)%nat → nth (j mod 16) st.1 0 = nth j full 0.

Lemma expand_window t w :
  (16 ≤ t < 80)%nat → length w = 16%nat →
  (∀ j, (t - 16 ≤ j < t)%nat → nth (j mod 16) w 0 = nth j full 0) →
  let w' := expand w (Nat.land t 15) in
  length w' = 16%nat
  ∧ ∀ j, (Datatypes.S t - 16 ≤ j < Datatypes.S t)%nat → nth (j mod 16) w' 0 = nth j full 0.
Proof.
  intros Ht Hl Hw. cbv zeta. unfold expand. rewrite !land15. unfold W.
  assert (t mod 16 < 16)%nat as Hm by (apply Nat.mod_upper_bound; lia).
  pose proof (Nat.div_mod_eq t 16) as Hdm.
  assert (∀ k, (1 ≤ k ≤ 16)%nat → ((t mod 16 + (16 - k)) mod 16 = (t - k) mod 16)%nat) as Hk.
  { intros k Hk. symmetry. rewrite <- (Nat.Div0.mod_add (t mod 16 + (16 - k)) (t / 16 - 1) 16).
    f_equal. lia. }
  rewrite (Hk 3%nat ltac:(lia) : ((t mod 16 + 13) mod 16)%nat = _).
  rewrite (Hk 8%nat ltac:(lia) : ((t mod 16 + 8) mod 16)%nat = _).
  rewrite (Hk 14%nat ltac:(lia) : ((t mod 16 + 2) mod 16)%nat = _).
  assert (t mod 16 = (t - 16) mod 16)%nat as E16.
  { rewrite <- (Hk 16%nat) by lia. rewrite Nat.add_0_r, Nat.Div0.mod_mod. done. }
  assert (nth (t mod 16) w 0 = nth (t - 16) full 0) as ->.
  { rewrite E16. apply Hw. lia. }
  rewrite !Hw by lia.
  rewrite S_rotl; [|lia|repeat apply word_lxor; by apply nth_word].
  rewrite <- Hrec by done. split; [by rewrite length_insert|]. intros j Hj.
  destruct (decide (j = t)) as [->|Hne].
  - rewrite nth_lookup, list_lookup_insert_eq by lia. done.
  - rewrite nth_lookup, list_lookup_insert_ne, <- nth_lookup; [apply Hw; lia|].
    intros E. apply Hne.
    assert (j mod 16 = t mod 16)%nat as E' by done.
    pose proof (Nat.div_mod_eq j 16). nia.
Qed.

Lemma mix_round F w t v :
  (t < 80)%nat → vwords v → W w (Nat.land t 15) = nth t full 0 →
  (∀ b c d, word b → F b c d = Fips.f t b c d) →
  mix F w t v = Fips.round full v t ∧ vwords (Fips.round full v t).
Proof.
  intros Ht (Ha & Hb & Hc & Hd & He) HW HF. unfold mix, Fips.round. rewrite HW, HF by done.
  rewrite !S_rotl by (done || lia). split.
  - do 2 f_equal. unfold K, Fips.k, _K.
    destruct (Nat.ltb_spec t 20); [by rewrite Nat.div_small by lia|].
    destruct (Nat.ltb_spec t 40).
    { by rewrite <- (Nat.div_unique t 20 1 (t - 20)) by lia. }
    destruct (Nat.ltb_spec t 60).
    { by rewrite <- (Nat.div_unique t 20 2 (t - 40)) by lia. }
    by rewrite <- (Nat.div_unique t 20 3 (t - 60)) by lia.
  - repeat split; cbn [va vb vc vd ve]; try apply Ha; try apply Hc; try apply Hd;
      try apply word_mod; apply word_rotl; done || lia.
Qed.

Lemma sim_body0 t st v :
  (t < 20)%nat → sim t st v → sim (Datatypes.S t) (body0 st t) (Fips.round full v t).
Proof.
  intros Ht. destruct st as [w v0]. intros (Hv & Hvw & Hl & Hw). cbn [fst snd] in *. subst v0.
  assert (length (if (16 <=? t)%nat then expand w (Nat.land t 15) else w) = 16%nat
    ∧ ∀ j, (Nat.max 16 (Datatypes.S t) - 16 ≤ j < Nat.max 16 (Datatypes.S t))%nat →
        nth (j mod 16) (if (16 <=? t)%nat then expand w (Nat.land t 15) else w) 0 = nth j full 0)
    as [Hl' Hw'].
  { destruct (Nat.leb_spec 16 t).
    - rewrite Nat.max_r in * by lia. apply (expand_window t w); [lia|done|apply Hw].
    - rewrite Nat.max_l in * by lia. auto. }
  unfold body0. set (w' := if (16 <=? t)%nat then expand w (Nat.land t 15) else w) in *.
  destruct (mix_round F0 w' t v) as [E1 E2]; [lia|done| | |].
  - unfold W. rewrite land15. apply Hw'. lia.
  - intros b c d Hb. unfold F0, Fips.f. rewrite (proj2 (Nat.ltb_lt _ _)) by done.
    do 2 f_equal. unfold u32, word in *. symmetry. apply (Z.mod_unique_pos _ _ (-1)); unfold Z.lnot; lia.
  - split; [done|]. split; [done|]. split; [done|exact Hw'].
Qed.

Lemma sim_body F t st v :
  (20 ≤ t < 80)%nat → (∀ b c d, word b → F b c d = Fips.f t b c d) →
  sim t st v → sim (Datatypes.S t) (body F st t) (Fips.round full v t).
Proof.
  intros Ht HF; destruct st as [w v0]. intros (Hv & Hvw & Hl & Hw). cbn [fst snd] in *. subst v0.
  rewrite Nat.max_r in Hw by lia.
  destruct (expand_window t w) as [Hl' Hw']; [lia|done|done|].
  unfold body. destruct (mix_round F (expand w (Nat.land t 15)) t v) as [E1 E2]; [lia|done| |done|].
  - unfold W. rewrite land15 at 1. apply Hw'. lia.
  - split; [done|]. split; [done|]. split; [done|]. rewrite Nat.max_r by lia. exact Hw'.
Qed.
End rounds.

(** Two loops over the same range of indices keep a relation. *)
Lemma foldl_seq_rel {A B} (R : nat → A → B → Prop) (f : A → nat → A) (g : B → nat → B) n a x y :
  (∀ t x y, (a ≤ t < a + n)%nat → R t x y → R (Datatypes.S t) (f x t) (g y t)) →
  R a x y → R (a + n)%nat (foldl f x (seq a n)) (foldl g y (seq a n)).
Proof.
  revert a x y. induction n as [|n IH]; intros a x y Hs HR; cbn; [by rewrite Nat.add_0_r|].
  rewrite <- Nat.add_succ_comm. apply IH; [|apply Hs; [lia|done]].
  intros t x' y' Ht. apply Hs. lia.
Qed.

Lemma words_swap bytes : b32 (swap4 bytes) = Fips.words bytes.
Proof.
  enough (∀ n l, (length l ≤ n)%nat → b32 (swap4 l) = Fips.words l) as H by (by eapply H).
  induction n as [|n IH]; intros l Hl; [by destruct l; [|cbn in Hl; lia]|].
  destruct l as [|b0 [|b1 [|b2 [|b3 l]]]]; [done..|]. cbn in Hl. cbn [swap4 b32 Fips.words].
  f_equal; [unfold le32, Fips.be32; lia|]. apply IH. lia.
Qed.

Lemma words_block bytes :
  length bytes = 64%nat → Forall is_byte bytes →
  length (Fips.words bytes) = 16%nat ∧ Forall word (Fips.words bytes).
Proof.
  enough (∀ n l, length l = (4 * n)%nat → Forall is_byte l →
            length (Fips.words l) = n ∧ Forall word (Fips.words l)) as H by (by apply (H 16%nat)).
  induction n as [|n IH]; intros l Hl Hb; [by destruct l; [|cbn in Hl; lia]|].
  destruct l as [|b0 [|b1 [|b2 [|b3 l]]]]; cbn in Hl; try lia.
  rewrite !Forall_cons in Hb. destruct Hb as (H0 & H1 & H2 & H3 & Hb).
  destruct (IH l) as [IH1 IH2]; [lia|done|]. cbn [Fips.words]. split; [cbn; lia|].
  constructor; [|done]. unfold word, Fips.be32, is_byte in *. lia.
Qed.

(** One block: the code's step is the compression function. *)
Lemma sha1_step_compress x :
  length (m x) = 64%nat → Forall is_byte (m x) → length (h x) = 5%nat → Forall word (h x) →
  sha1_step x = {| h := Fips.compress (h x) (m x); c := c x; m := replicate 64 0; count := count x |}
  ∧ length (Fips.compress (h x) (m x)) = 5%nat ∧ Forall word (Fips.compress (h x) (m x)).
Proof.
  intros Hm Hb Hh Hhw. destruct (words_block (m x) Hm Hb) as [Hwl Hww].
  split; [|split; [done|]].
  - unfold sha1_step, Fips.compress. rewrite words_swap. cbv zeta.
    set (v0 := Vars _ _ _ _ _). set (full := Fips.schedule 64 (Fips.words (m x))).
    assert (∀ t, (16 ≤ t < 80)%nat → _) as Hrec
      by exact (λ t Ht, schedule_new 64 (Fips.words (m x)) t ltac:(lia) ltac:(lia)).
    assert (Forall word full) as Hfull by (apply schedule_word; [lia|done]).
    assert (sim full 0 (Fips.words (m x), v0) v0) as H0.
    { split; [done|]. split.
      - repeat split; by apply nth_word.
      - split; [done|]. intros j Hj. cbn [fst]. rewrite Nat.mod_small by lia.
        unfold full. rewrite schedule_old by lia. done. }
    change (seq 0 80) with (seq 0 20 ++ seq 20 20 ++ seq 40 20 ++ seq 60 20).
    rewrite !foldl_app.
    apply (foldl_seq_rel (sim full) body0 (Fips.round full) 20 0) in H0;
      [|intros; apply sim_body0; (done || lia)].
    apply (foldl_seq_rel (sim full) (body F1) (Fips.round full) 20 20) in H0;
      [|intros t ? ? ?; apply sim_body; [done|done|lia|];
        intros; unfold Fips.f; by rewrite (proj2 (Nat.ltb_ge t 20)), (proj2 (Nat.ltb_lt t 40)) by lia].
    apply (foldl_seq_rel (sim full) (body F2) (Fips.round full) 20 40) in H0;
      [|intros t ? ? ?; apply sim_body; [done|done|lia|];
        intros; unfold Fips.f;
        by rewrite (proj2 (Nat.ltb_ge t 20)), (proj2 (Nat.ltb_ge t 40)), (proj2 (Nat.ltb_lt t 60)) by lia].
    apply (foldl_seq_rel (sim full) (body F3) (Fips.round full) 20 60) in H0;
      [|intros t ? ? ?; apply sim_body; [done|done|lia|];
        intros; unfold Fips.f;
        by rewrite (proj2 (Nat.ltb_ge t 20)), (proj2 (Nat.ltb_ge t 40)), (proj2 (Nat.ltb_ge t 60)) by lia].
    destruct (foldl (body F3) _ _) as [w v] eqn:E. destruct H0 as [Hv _]. cbn [snd] in Hv.
    rewrite <- Hv. done.
  - unfold Fips.compress. cbn [fmap list_fmap]. repeat constructor; apply word_mod.
Qed.

(** *** The block buffer *)

Lemma blocks_snoc n hs pre blk :
  length pre = (64 * n)%nat → length blk = 64%nat →
  Fips.blocks (Datatypes.S n) hs (pre ++ blk) = Fips.compress (Fips.blocks n hs pre) blk.
Proof.
  revert hs pre. induction n as [|n IH]; intros hs pre Hp Hb.
  { destruct pre; [|cbn in Hp; lia]. cbn [app Fips.blocks]. by rewrite take_ge by lia. }
  change (Fips.blocks (Datatypes.S (Datatypes.S n)) hs (pre ++ blk))
    with (Fips.blocks (Datatypes.S n) (Fips.compress hs (take 64 (pre ++ blk))) (drop 64 (pre ++ blk))).
  rewrite take_app_le, drop_app_le by lia. rewrite IH; [done| |done].
  rewrite length_drop. lia.
Qed.

(** The context [x] has absorbed [msg]: whole blocks are in [h], the rest is at
    the start of [m]. *)
Definition rep (x : sha1_ctxt) (msg : list Z) : Prop :=
  ∃ n pre tail, msg = pre ++ tail ∧ length pre = (64 * n)%nat ∧ (length tail < 64)%nat
    ∧ count x = Z.of_nat (length tail) ∧ h x = Fips.blocks n Fips.H0 pre
    ∧ length (h x) = 5%nat ∧ Forall word (h x)
    ∧ length (m x) = 64%nat ∧ Forall is_byte (m x) ∧ take (length tail) (m x) = tail.

Lemma rep_count x msg : rep x msg → count x = Z.of_nat (length msg) `mod` 64.
Proof.
  intros (n & pre & tail & -> & Hp & Ht & -> & _). rewrite length_app, Hp.
  apply (Z.mod_unique_pos _ _ (Z.of_nat n)); lia.
Qed.

Lemma Forall_blit P mm off src : Forall P mm → Forall P src → Forall P (blit mm off src).
Proof.
  intros. unfold blit. apply Forall_app. split; [by apply Forall_take|].
  apply Forall_app. split; [done|by apply Forall_drop].
Qed.

(** Bytes stored at the end of the buffered ones are absorbed, with a step when
    they fill the block. *)
Lemma rep_store x x' msg chunk :
  rep x msg → Forall is_byte chunk →
  0 < count x + Z.of_nat (length chunk) <= 64 →
  h x' = h x → m x' = blit (m x) (Z.to_nat (count x)) chunk →
  count x' = (count x + Z.of_nat (length chunk)) `mod` 64 →
  rep (step_if_full x') (msg ++ chunk) ∧ c (step_if_full x') = c x'.
Proof.
  intros (n & pre & tail & -> & Hp & Ht & Hc & Hh & Hhl & Hhw & Hml & Hmb & Htk) Hcb Hlen Eh Em Ec.
  rewrite Hc in *. rewrite Nat2Z.id in Em.
  assert (length (m x') = 64%nat) as Hml' by (rewrite Em, length_blit by lia; done).
  assert (Forall is_byte (m x')) as Hmb' by (rewrite Em; by apply Forall_blit).
  assert (take (length (tail ++ chunk)) (m x') = tail ++ chunk) as Htk'.
  { rewrite Em. unfold blit. rewrite Htk, app_assoc. apply take_app_length. }
  unfold step_if_full. destruct (decide (length tail + length chunk = 64)%nat) as [E64|N64].
  - rewrite Ec, Zmod_mod, <- Nat2Z.inj_add, E64. change (Z.of_nat 64 `mod` 64 =? 0) with true. cbv iota.
    destruct (sha1_step_compress x') as (-> & Hl5 & Hw5); [done|done|by rewrite Eh|by rewrite Eh|].
    split; [|done]. exists (Datatypes.S n), (pre ++ tail ++ chunk), []. cbn [h c m count length].
    rewrite take_ge in Htk' by (rewrite length_app; lia). rewrite Eh, Htk', Hh in *.
    repeat split; try done.
    + by rewrite app_nil_r, app_assoc.
    + rewrite !length_app. lia.
    + cbn. lia.
    + rewrite Ec, <- Nat2Z.inj_add, E64. done.
    + rewrite blocks_snoc by (try rewrite length_app; done || lia). done.
    + apply Forall_replicate. unfold is_byte. lia.
  - rewrite Z.mod_small in Ec by lia. rewrite Ec, Z.mod_small by lia.
    rewrite (proj2 (Z.eqb_neq _ _)) by lia. split; [|done].
    exists n, pre, (tail ++ chunk). rewrite Eh, length_app.
    repeat split; try done; try lia.
    + by rewrite app_assoc.
    + by rewrite <- length_app.
Qed.

Lemma rep_put x msg chunk n :
  rep x msg → Forall is_byte chunk →
  0 < count x + Z.of_nat (length chunk) <= 64 → n = Z.of_nat (length chunk) →
  let x' := step_if_full (add_count (store x (count x `mod` 64) chunk) n) in
  rep x' (msg ++ chunk) ∧ c x' = c x.
Proof.
  intros Hr Hb Hlen ->. cbv zeta.
  assert (0 <= count x < 64) as Hc.
  { rewrite (rep_count x msg Hr). apply Z.mod_pos_bound. lia. }
  destruct (rep_store x (add_count (store x (count x `mod` 64) chunk) (Z.of_nat (length chunk))) msg chunk)
    as [H1 H2]; [done|done|done|done| | |done].
  - cbn [m add_count store]. by rewrite Z.mod_small by lia.
  - cbn [count add_count store].
    rewrite (u8_small (count x + _)) by lia. rewrite u8_small; [done|].
    pose proof (Z.mod_pos_bound (count x + Z.of_nat (length chunk)) 64). lia.
Qed.

Lemma rep_init : rep _sha1_init [].
Proof.
  exists 0%nat, [], []. cbn [_sha1_init h m count].
  repeat split; try done; try (cbn; lia); by_compute.
Qed.

Lemma rep_loop fuel x msg input off :
  rep x msg → Forall is_byte input → (off ≤ length input)%nat → (length input - off ≤ fuel)%nat →
  0 <= c x < 2 ^ 64 →
  let x' := sha1_loop_go fuel x input off in
  rep x' (msg ++ drop off input) ∧ 0 <= c x' < 2 ^ 64
  ∧ c x' = u64 (c x + 8 * Z.of_nat (length input - off)).
Proof.
  revert x msg off. induction fuel as [|f IH]; intros x msg off Hr Hb Ho Hf Hcx.
  { cbn. rewrite drop_ge, app_nil_r by lia. split; [done|]. split; [done|].
    replace (length input - off)%nat with 0%nat by lia. cbn. rewrite Z.add_0_r, u64_small by lia. done. }
  cbn [sha1_loop_go]. destruct (Nat.ltb_spec off (length input)) as [Hlt|Hge].
  2:{ cbv zeta. rewrite drop_ge, app_nil_r by lia. split; [done|]. split; [done|].
      replace (length input - off)%nat with 0%nat by lia. cbn. rewrite Z.add_0_r, u64_small by lia. done. }
  cbv zeta. assert (0 <= count x < 64) as Hc.
  { rewrite (rep_count x msg Hr). apply Z.mod_pos_bound. lia. }
  rewrite (Z.mod_small (count x)) by lia.
  set (k := if (Z.to_nat (64 - count x) <? length input - off)%nat
            then Z.to_nat (64 - count x) else (length input - off)%nat).
  assert ((1 ≤ k ≤ length input - off)%nat ∧ Z.of_nat k <= 64 - count x) as (Hk1 & Hk2).
  { subst k. destruct (Nat.ltb_spec (Z.to_nat (64 - count x)) (length input - off)); lia. }
  set (x' := add_bits _ _).
  assert (length (take k (drop off input)) = k) as Hlk by (rewrite length_take, length_drop; lia).
  destruct (rep_store x x' msg (take k (drop off input))) as [Hr' Hc'];
    [done|by apply Forall_take, Forall_drop|rewrite Hlk; lia|done|done| |].
  { rewrite Hlk. subst x'. cbn [count add_bits add_count store].
    rewrite (u8_small (Z.of_nat k)), (u8_small (count x + _)) by lia. rewrite u8_small; [done|].
    pose proof (Z.mod_pos_bound (count x + Z.of_nat k) 64). lia. }
  assert (c (step_if_full x') = u64 (c x + 8 * Z.of_nat k)) as Hcx'.
  { rewrite Hc'. subst x'. cbn [c add_bits add_count store]. rewrite (u64_small (_ * 8)) by lia.
    f_equal. lia. }
  destruct (IH (step_if_full x') (msg ++ take k (drop off input)) (off + k)%nat) as (I1 & I2 & I3);
    [done|done|lia|lia|rewrite Hcx'; apply u64_range|].
  rewrite <- app_assoc in I1. rewrite <- drop_drop, take_drop in I1.
  split; [done|]. split; [done|]. rewrite I3, Hcx'. unfold u64.
  rewrite Zplus_mod_idemp_l. f_equal. lia.
Qed.

Lemma rep_pieces ds x msg :
  rep x msg → Forall is_byte (concat ds) → c x = u64 (8 * Z.of_nat (length msg)) →
  let x' := foldl sha1_loop x ds in
  rep x' (msg ++ concat ds) ∧ c x' = u64 (8 * Z.of_nat (length (msg ++ concat ds))).
Proof.
  revert x msg. induction ds as [|d ds IH]; intros x msg Hr Hb Hc; cbn [concat foldl].
  { rewrite app_nil_r. done. }
  cbn [concat] in Hb. apply Forall_app in Hb as [Hb1 Hb2].
  destruct (rep_loop (length d) x msg d 0) as (H1 & H2 & H3); [done|done|lia|lia| |].
  { rewrite Hc. apply u64_range. }
  rewrite drop_0, Nat.sub_0_r in *. rewrite app_assoc. apply IH; [done|done|].
  unfold sha1_loop. rewrite H3, Hc, length_app. unfold u64. rewrite Zplus_mod_idemp_l. f_equal. lia.
Qed.

(** *** The padding *)

Lemma rep_PUTPADs ns x msg (cb : Z → Z) :
  rep x msg → (∀ i, cb i = (c x `div` 2 ^ (8 * i)) `mod` 256) →
  rep (foldl (λ x i, PUTPAD x (c_b8 x i)) x ns) (msg ++ (cb <$> ns)).
Proof.
  revert x msg. induction ns as [|i ns IH]; intros x msg Hr Hcb; cbn [foldl fmap list_fmap].
  { by rewrite app_nil_r. }
  assert (0 <= count x < 64) as Hc.
  { rewrite (rep_count x msg Hr). apply Z.mod_pos_bound. lia. }
  destruct (rep_put x msg [c_b8 x i] 1) as [H1 H2]; [done| |cbn; lia|done|].
  { constructor; [|constructor]. unfold is_byte, c_b8. apply Z.mod_pos_bound. lia. }
  rewrite (app_assoc msg [cb i] _ : msg ++ cb i :: (cb <$> ns) = _).
  rewrite (Hcb i). apply IH; [exact H1|]. intros j. unfold PUTPAD. rewrite H2. apply Hcb.
Qed.

(** [bzero] of the rest of the block, or up to its last eight bytes. *)
Lemma rep_fill x msg q n :
  rep x msg → count x = q → 0 <= n → 0 < q + n <= 64 →
  let x1 := add_count (store x q (zeros n)) n in
  let x2 := if q + n =? 64 then sha1_step x1 else x1 in
  rep x2 (msg ++ zeros n) ∧ c x2 = c x.
Proof.
  intros Hr Hq Hn Hqn. cbv zeta.
  assert (0 <= q < 64) as Hq'.
  { rewrite <- Hq, (rep_count x msg Hr). apply Z.mod_pos_bound. lia. }
  assert (Z.of_nat (length (zeros n)) = n) as Hl by (unfold zeros; rewrite length_replicate; lia).
  destruct (rep_put x msg (zeros n) n Hr) as [H2 C2].
  - apply Forall_replicate. unfold is_byte. lia.
  - lia.
  - done.
  - rewrite (Z.mod_small (count x)), Hq in H2, C2 by lia.
    assert (step_if_full (add_count (store x q (zeros n)) n)
            = if q + n =? 64 then sha1_step (add_count (store x q (zeros n)) n)
              else add_count (store x q (zeros n)) n) as <-; [|done].
    unfold step_if_full. cbn [count add_count store]. rewrite Hq, (u8_small (q + n)) by lia.
    destruct (Z.eqb_spec (q + n) 64) as [->|]; [done|].
    rewrite (Z.mod_small (q + n)), u8_small, Z.mod_small by lia.
    by rewrite (proj2 (Z.eqb_neq _ _)) by lia.
Qed.

(** The [if (padlen < 8)] of [sha1_pad]. *)
Lemma rep_flush x msg :
  rep x msg → 0 < count x →
  let x1 := sha1_step (add_count (store x (count x) (zeros (64 - count x))) (64 - count x)) in
  rep x1 (msg ++ zeros (64 - count x)) ∧ c x1 = c x ∧ count x1 = 0.
Proof.
  intros Hr Hp. cbv zeta.
  pose proof (rep_count x msg Hr) as Hc.
  pose proof (Z.mod_pos_bound (Z.of_nat (length msg)) 64 ltac:(lia)) as Hcr.
  destruct (rep_fill x msg (count x) (64 - count x)) as [H2 C2]; [done|done|lia|lia|].
  rewrite (proj2 (Z.eqb_eq (count x + (64 - count x)) 64)) in H2, C2 by lia.
  split; [done|]. split; [done|].
  rewrite (rep_count _ _ H2), length_app. unfold zeros. rewrite length_replicate, Nat2Z.inj_add, Z2Nat.id by lia.
  rewrite <- Zplus_mod_idemp_l, <- Hc. by replace (count x + (64 - count x)) with 64 by lia.
Qed.

Lemma zeros_app a b : 0 <= a → 0 <= b → zeros a ++ zeros b = zeros (a + b).
Proof. intros. unfold zeros. rewrite <- replicate_add. f_equal. lia. Qed.

Lemma rep_pad x msg :
  rep x msg → c x = 8 * Z.of_nat (length msg) → rep (sha1_pad x) (Fips.pad msg).
Proof.
  intros Hr Hcx. unfold sha1_pad.
  pose proof (rep_count x msg Hr) as Hcnt.
  pose proof (Z.mod_pos_bound (Z.of_nat (length msg)) 64 ltac:(lia)) as Hcr.
  destruct (rep_put x msg [128] 1) as [H1 C1]; [done|by_compute|cbn; lia|done|].
  fold (PUTPAD x 128) in H1, C1. set (x1 := PUTPAD x 128) in *.
  pose proof (rep_count x1 _ H1) as Hc1. rewrite length_app, Nat2Z.inj_add in Hc1. cbn [length] in Hc1.
  set (p := count x1) in *.
  assert (0 <= p < 64) as Hp by (rewrite Hc1; apply Z.mod_pos_bound; lia).
  assert ((55 - Z.of_nat (length msg)) `mod` 64 = (56 - p) `mod` 64) as Em.
  { rewrite Hc1, Zminus_mod_idemp_r. f_equal. lia. }
  cbv zeta. rewrite (Z.mod_small p) by lia. rewrite (u8_small (64 - p)) by lia.
  set (xf := sha1_step _).
  assert (∃ x2 q z, (if 64 - p <? 8 then (xf, count xf `mod` 64, 64 - count xf `mod` 64)
                     else (x1, p, 64 - p)) = (x2, q, 64 - q)
     ∧ rep x2 ((msg ++ [128]) ++ zeros z) ∧ c x2 = c x ∧ count x2 = q ∧ 0 <= q <= 56
     ∧ 0 <= z ∧ z + (56 - q) = (56 - p) `mod` 64)
    as (x2 & q & z & E & H2 & C2 & Q2 & Hq & Hz0 & Hzq).
  { destruct (Z.ltb_spec (64 - p) 8).
    - destruct (rep_flush x1 _ H1) as (H2 & C2 & Q2); [fold p; lia|]. fold p xf in H2, C2, Q2.
      clearbody xf. exists xf, 0, (64 - p). rewrite Q2, C2.
      do 2 (split; [assumption || reflexivity|]). do 4 (split; [assumption || lia|]).
      rewrite <- (Z.mod_unique_pos (56 - p) 64 (-1) (120 - p)) by lia. lia.
    - exists x1, p, 0. rewrite app_nil_r.
      do 2 (split; [assumption || reflexivity|]). do 4 (split; [assumption || lia|]).
      rewrite Z.mod_small by lia. lia. }
  rewrite E. clear E.
  destruct (rep_fill x2 _ q (56 - q) H2) as [H3 C3]; [done|lia|lia|].
  rewrite (proj2 (Z.eqb_neq (q + (56 - q)) 64)) in H3, C3 by lia.
  rewrite (u8_small (64 - q)) by lia. replace (64 - q - 8) with (56 - q) by lia.
  rewrite <- (app_assoc (msg ++ [128])), zeros_app, Hzq, <- Em in H3 by lia.
  unfold Fips.pad, Fips.be64. fold (zeros ((55 - Z.of_nat (length msg)) `mod` 64)).
  rewrite 2 app_assoc. apply rep_PUTPADs; [done|]. intros i. by rewrite C3, C2, Hcx.
Qed.

Lemma length_pad msg : ∃ n, length (Fips.pad msg) = (64 * n)%nat.
Proof.
  unfold Fips.pad, Fips.be64. rewrite !length_app, length_replicate, length_fmap. cbn [length].
  exists (Z.to_nat ((Z.of_nat (length msg) + 9 + (55 - Z.of_nat (length msg)) `mod` 64) `div` 64)).
  Z.div_mod_to_equations. lia.
Qed.

Lemma rep_result x msg :
  rep x msg → c x = 8 * Z.of_nat (length msg) → sha1_result x = Fips.sha1 msg.
Proof.
  intros Hr Hc. destruct (rep_pad x msg Hr Hc) as (n & pre & tail & E & Hp & Ht & _ & Hh & Hl & _).
  destruct (length_pad msg) as [k Hk].
  assert (tail = []) as ->.
  { apply (f_equal length) in E. rewrite length_app in E. apply nil_length_inv. lia. }
  rewrite app_nil_r in E. unfold sha1_result, Fips.sha1. cbv zeta.
  rewrite E, Hp, Nat.mul_comm, Nat.div_mul, <- Hh by lia. unfold h_b8.
  destruct (h (sha1_pad x)) as [|h0 [|h1 [|h2 [|h3 [|h4 [|]]]]]]; try discriminate Hl.
  cbn -[Z.div Z.modulo Z.pow]. by rewrite !Z.div_1_r.
Qed.

Lemma sha1_pieces (ds ds' : list (list Z)) :
  Forall is_byte (concat ds) → Z.of_nat (length (concat ds)) < 2 ^ 61 → concat ds' = concat ds →
  sha1_result (foldl sha1_loop _sha1_init ds') = Fips.sha1 (concat ds).
Proof.
  intros Hb Hlen E. destruct (rep_pieces ds' _sha1_init [] rep_init) as [Hr Hc]; [by rewrite E|done|].
  rewrite E in Hr, Hc. cbn [app] in Hr, Hc. apply rep_result; [done|].
  rewrite Hc, u64_small by lia. done.
Qed.

Lemma lws_SHA1_fips (d : list Z) :
  Forall is_byte d → Z.of_nat (length d) < 2 ^ 61 → lws_SHA1 d = Fips.sha1 d.
Proof.
  intros Hb Hlen. pose proof (sha1_pieces [d] [d]) as H. cbn [concat] in H. rewrite app_nil_r in H. by apply H.
Qed.

(** ** Properties *)

(** [C25] The SHA-1 used for the websocket handshake computes the hash of FIPS
    180-1: a message shorter than 2^61 bytes, whether hashed at once by
    [lws_SHA1] or given in any pieces to [sha1_loop], has the digest the
    standard defines. *)
Theorem sha1_correct (ds : list (list Z))
    (Hb : Forall is_byte (concat ds)) (Hlen : Z.of_nat (length (concat ds)) < 2 ^ 61) :
  sha1_result (foldl sha1_loop _sha1_init ds) = Fips.sha1 (concat ds)
  ∧ lws_SHA1 (concat ds) = Fips.sha1 (concat ds).
Proof.
  split; [by apply sha1_pieces|by apply lws_SHA1_fips].
Qed.

Lemma sha1_correct_witness :
  sha1_result (foldl sha1_loop _sha1_init [bs "a"; []; bs "bc"]) = lws_SHA1 (bs "abc").
Proof.
  destruct (sha1_correct [bs "a"; []; bs "bc"]) as [H1 H2].
  - by_compute.
  - vm_compute. reflexivity.
  - rewrite H1. symmetry. exact H2.
Defined.

End SHA1.
