(* ===== verification/Buflist.v ===== *)
(** * Buffered segments

    Models the [lws_buflist] operations of lib/core/libwebsockets.c, the list
    of heap blocks in which a connection keeps received bytes it could not
    handle yet.  A list is the sequence of its segments (the address comparison
    of the append loop only guards against a list that points to itself).
    Failing assertions are faults.  The specification is a queue of at most 1024
    non-empty byte strings, of which the first is consumed from its front: every
    result is fixed by it, and what is consumed is what was accepted, in order. *)

From stdpp Require Import base numbers list strings.
From Stdlib Require Import ZArith Lia Ascii.
From S2P Require Import Prelude.

(** [struct lws_buflist]: [len] is the length of [buf]. *)
Record segment := Segment { sbuf : list Z; spos : nat }.

Definition slen (s : segment) : nat := length (sbuf s).

(** What is left of a segment. *)
Definition sleft (s : segment) : list Z := drop (spos s) (sbuf s).

(** ** The code *)

(** [oom]: the allocation fails.  The loop that walks to the tail gives up
    when its counter, 1024 at first, reaches zero. *)
Definition lws_buflist_append_segment (oom : bool) (head : list segment) (buf : list Z) :
    res (Z * list segment) :=
  let first := if head is [] then 1 else 0 in
  _ ← check (negb (bool_decide (buf = []))) AssertFailed;
  if (1024 <=? length head)%nat then Ok (-1, head)
  else if oom then Ok (-1, head)
  else Ok (first, head ++ [Segment buf 0]).

Definition lws_buflist_destroy_segment (head : list segment) : res (Z * list segment) :=
  match head with
  | [] => Fault AssertFailed
  | _ :: head' => Ok (if head' is [] then 1 else 0, head')
  end.

(** The loop frees every segment; the second component counts the frees. *)
Fixpoint destroy_all_loop (p : list segment) (freed : nat) : nat :=
  match p with [] => freed | _ :: p1 => destroy_all_loop p1 (S freed) end.

Definition lws_buflist_destroy_all_segments (head : list segment) : list segment * nat :=
  ([], destroy_all_loop head 0).

(** The length, the bytes [*buf] points at, and the list. *)
Definition lws_buflist_next_segment_len (head : list segment) : res (Z * list Z * list segment) :=
  match head with
  | [] => Ok (0, [], [])
  | s :: rest =>
      head ← (if (slen s =? 0)%nat && (if rest is [] then false else true)
              then '(_, head) ← lws_buflist_destroy_segment head; Ok head
              else Ok head);
      match head with
      | [] => Ok (0, [], [])
      | s :: _ =>
          _ ← check (spos s <? slen s)%nat AssertFailed;
          Ok (Z.of_nat (slen s - spos s), sleft s, head)
      end
  end.

Definition lws_buflist_use_segment (head : list segment) (len : nat) : res (Z * list segment) :=
  match head with
  | [] => Fault AssertFailed
  | s :: rest =>
      _ ← check (negb (len =? 0)%nat) AssertFailed;
      _ ← check (spos s + len <=? slen s)%nat AssertFailed;
      let s := Segment (sbuf s) (spos s + len) in
      let head := s :: rest in
      head ← (if (spos s =? slen s)%nat
              then '(_, head) ← lws_buflist_destroy_segment head; Ok head
              else Ok head);
      match head with
      | [] => Ok (0, head)
      | s :: _ => Ok (s32 (Z.of_nat (slen s - spos s)), head)
      end
  end.

(** ** The specification: a queue of byte strings *)

(** The calls a user of a list makes, with the outcome of the allocation. *)
Inductive call :=
  | Append (oom : bool) (buf : list Z)
  | Next
  | Use (len : nat)
  | DestroyAll.

(** What a call returns: the integer, and the bytes [Next] points at. *)
Definition outcome : Type := Z * list Z.

Definition do_call (head : list segment) (x : call) : res (outcome * list segment) :=
  match x with
  | Append oom buf => '(r, head) ← lws_buflist_append_segment oom head buf; Ok (r, [], head)
  | Next => '(r, b, head) ← lws_buflist_next_segment_len head; Ok (r, b, head)
  | Use len => '(r, head) ← lws_buflist_use_segment head len; Ok (r, [], head)
  | DestroyAll => Ok (0, [], (lws_buflist_destroy_all_segments head).1)
  end.

Fixpoint do_calls (head : list segment) (xs : list call) : res (list outcome * list segment) :=
  match xs with
  | [] => Ok ([], head)
  | x :: xs' =>
      '(o, head) ← do_call head x;
      '(os, head) ← do_calls head xs';
      Ok (o :: os, head)
  end.

(** The queue after a call, and what the call returns.  An append is refused
    exactly when there is no memory or there are 1024 strings already; it says
    whether its string is the first.  A consumed string leaves the queue, and
    the length of the one that is then first is returned. *)
Definition queue_step (q : list (list Z)) (x : call) : outcome * list (list Z) :=
  match x with
  | Append oom buf =>
      if oom || (1024 <=? length q)%nat then ((-1, []), q)
      else ((if q is [] then 1 else 0, []), q ++ [buf])
  | Next => ((match q with [] => 0 | p :: _ => Z.of_nat (length p) end, default [] (head q)), q)
  | Use len =>
      let q' := match q with
                | [] => []
                | p :: rest => if (len =? length p)%nat then rest else drop len p :: rest
                end in
      ((match q' with [] => 0 | p :: _ => Z.of_nat (length p) end, []), q')
  | DestroyAll => ((0, []), [])
  end.

Fixpoint queue_run (q : list (list Z)) (xs : list call) : list outcome * list (list Z) :=
  match xs with
  | [] => ([], q)
  | x :: xs' =>
      let '(o, q) := queue_step q x in
      let '(os, q) := queue_run q xs' in (o :: os, q)
  end.

(** The bytes that were accepted, and the bytes that were consumed. *)
Fixpoint accepted (q : list (list Z)) (xs : list call) : list Z :=
  match xs with
  | [] => []
  | x :: xs' =>
      match x with Append _ buf => if (queue_step q x).1.1 =? -1 then [] else buf | _ => [] end
      ++ accepted (queue_step q x).2 xs'
  end.

Fixpoint consumed (q : list (list Z)) (xs : list call) : list Z :=
  match xs with
  | [] => []
  | x :: xs' =>
      match x with Use len => take len (default [] (head q)) | _ => [] end
      ++ consumed (queue_step q x).2 xs'
  end.

(** The contract of the callers: strings that are appended are not empty and
    their length is an int, and some of the first string is consumed. *)
Definition legal_call (q : list (list Z)) (x : call) : bool :=
  match x with
  | Append _ buf => negb (bool_decide (buf = [])) && (Z.of_nat (length buf) <=? INT_MAX)
  | Use len => (0 <? len)%nat && (len <=? length (default [] (head q)))%nat
  | Next | DestroyAll => true
  end.

Fixpoint legal_calls (q : list (list Z)) (xs : list call) : bool :=
  match xs with
  | [] => true
  | x :: xs' => legal_call q x && legal_calls (queue_step q x).2 xs'
  end.

(** ** Lemmas *)

Definition wf_segment (s : segment) : Prop := (spos s < slen s)%nat.

Definition content (head : list segment) : list Z := concat (sleft <$> head).

Lemma sleft_nonempty s : wf_segment s → length (sleft s) = (slen s - spos s)%nat ∧ sleft s ≠ [].
Proof.
  unfold wf_segment, sleft, slen. intros H. rewrite length_drop. split; [done|].
  intros E. apply (f_equal length) in E. rewrite length_drop in E. cbn in E. lia.
Qed.

Lemma next_segment_head s head : wf_segment s →
  lws_buflist_next_segment_len (s :: head) = Ok (Z.of_nat (length (sleft s)), sleft s, s :: head).
Proof.
  intros Hs. unfold lws_buflist_next_segment_len. destruct (sleft_nonempty s Hs) as [-> _]. unfold wf_segment in Hs.
  rewrite (proj2 (Nat.eqb_neq _ _)) by lia. cbn [andb mbind res_bind].
  by rewrite (proj2 (Nat.ltb_lt _ _)) by lia.
Qed.

Lemma next_segment_wf head :
  Forall wf_segment head →
  lws_buflist_next_segment_len head
  = match head with
    | [] => Ok (0, [], [])
    | s :: _ => Ok (Z.of_nat (length (sleft s)), sleft s, head)
    end.
Proof.
  destruct 1 as [|s head Hs _]; [done|]. by apply next_segment_head.
Qed.

Lemma use_segment_wf s rest len :
  wf_segment s → (0 < len ≤ length (sleft s))%nat →
  ∃ head', lws_buflist_use_segment (s :: rest) len
    = Ok (match head' with [] => 0 | s' :: _ => s32 (Z.of_nat (slen s' - spos s')) end, head')
    ∧ ((len = length (sleft s) ∧ head' = rest)
       ∨ (len < length (sleft s))%nat ∧ head' = Segment (sbuf s) (spos s + len) :: rest).
Proof.
  intros Hs Hl. destruct (sleft_nonempty s Hs) as [E _]. unfold wf_segment in Hs.
  unfold lws_buflist_use_segment.
  rewrite (proj2 (Nat.eqb_neq len 0)), (proj2 (Nat.leb_le _ _)) by lia. cbn [negb check mbind res_bind].
  unfold slen in *. cbn [sbuf spos].
  destruct (Nat.eqb_spec (spos s + len) (length (sbuf s))).
  - exists rest. cbn. split; [by destruct rest|]. left. split; [lia|done].
  - exists (Segment (sbuf s) (spos s + len) :: rest). split; [reflexivity|].
    right. split; [lia|done].
Qed.

(** The list [head] is the queue [q]. *)
Record is_queue (head : list segment) (q : list (list Z)) : Prop := {
  iq_left : sleft <$> head = q;
  iq_wf : Forall wf_segment head;
  iq_int : Forall (λ p, Z.of_nat (length p) <= INT_MAX) q;
}.

Lemma use_queue hd q len :
  is_queue hd q → legal_call q (Use len) = true →
  ∃ hd', do_call hd (Use len) = Ok ((queue_step q (Use len)).1, hd') ∧ is_queue hd' (queue_step q (Use len)).2.
Proof.
  intros [<- Hwf Hint] [H1%Nat.ltb_lt H2%Nat.leb_le]%andb_true_iff.
  destruct hd as [|s hd]; [cbn in H2; lia|]. cbn [fmap list_fmap head default from_option id] in *.
  inversion Hwf as [|? ? Hs Hh]; subst. inversion Hint as [|? ? Hi Hint']; subst.
  destruct (sleft_nonempty s Hs) as [El _].
  destruct (use_segment_wf s hd len Hs) as (hd' & E & Hcase); [lia|]. cbn [do_call queue_step fst snd]. rewrite E. cbn [mbind res_bind].
  set (q' := if (len =? length (sleft s))%nat then sleft <$> hd else drop len (sleft s) :: (sleft <$> hd)).
  assert (is_queue hd' q') as Hq.
  { subst q'. destruct Hcase as [[-> ->]|[Hlt ->]]; [rewrite Nat.eqb_refl; by split|].
    rewrite (proj2 (Nat.eqb_neq _ _)) by lia. split; cbn [fmap list_fmap].
    - f_equal. unfold sleft. cbn. by rewrite drop_drop.
    - constructor; [unfold wf_segment, slen in *; cbn; lia|done].
    - constructor; [rewrite length_drop; lia|done]. }
  exists hd'. split; [|done]. do 3 f_equal. destruct Hq as [<- Hwf' Hint'']. destruct hd' as [|s' hd']; [done|]. cbn [fmap list_fmap] in *.
  inversion Hwf' as [|? ? Hs' _]; subst. inversion Hint'' as [|? ? Hi' _]; subst. destruct (sleft_nonempty s' Hs') as [<- _].
  apply s32_small. unfold INT_MIN. lia.
Qed.

Lemma queue_call hd q x :
  is_queue hd q → legal_call q x = true →
  ∃ hd', do_call hd x = Ok ((queue_step q x).1, hd') ∧ is_queue hd' (queue_step q x).2.
Proof.
  intros Hq Hl. destruct x as [oom buf| |len|].
  - destruct Hq as [<- Hwf Hint]. apply andb_true_iff in Hl as [Hne%negb_true_iff%bool_decide_eq_false Hb%Z.leb_le].
    cbn [do_call queue_step]. unfold lws_buflist_append_segment. rewrite bool_decide_false by done. cbn [negb check mbind res_bind].
    rewrite length_fmap. destruct (1024 <=? length hd)%nat; [rewrite orb_true_r; by exists hd|].
    destruct oom; [by exists hd|]. eexists. cbn [orb fst snd mbind res_bind]. split; [by destruct hd|]. split.
    + by rewrite fmap_app.
    + apply Forall_app. split; [done|]. constructor; [|done]. unfold wf_segment, slen. cbn. destruct buf; [done|cbn; lia].
    + apply Forall_app. by split; [|constructor].
  - destruct Hq as [<- Hwf Hint]. exists hd. cbn [do_call queue_step fst snd]. rewrite next_segment_wf by done.
    destruct hd as [|s hd]; by split.
  - by apply use_queue.
  - exists []. split; [done|]. by repeat constructor.
Qed.

(** What is consumed and what is left is what there was and what was accepted. *)
Lemma queue_conserves xs q :
  legal_calls q xs = true → DestroyAll ∉ xs →
  consumed q xs ++ concat (queue_run q xs).2 = concat q ++ accepted q xs.
Proof.
  revert q. induction xs as [|x xs IH]; intros q Hl Hd; [cbn; by rewrite app_nil_r|].
  apply not_elem_of_cons in Hd as [Hx Hd]. cbn [legal_calls] in Hl. apply andb_true_iff in Hl as [Hl Hl'].
  specialize (IH _ Hl' Hd). cbn [consumed accepted queue_run].
  destruct (queue_step q x) as [o q1] eqn:E. cbn [fst snd] in *. destruct (queue_run q1 xs) as [os q2]. cbn [fst snd] in *.
  rewrite <- app_assoc, IH. rewrite !app_assoc. f_equal.
  destruct x as [oom buf| |len|]; cbn [queue_step] in E; [| | |done].
  - destruct (oom || _); injection E as <- <-; cbn [app fst]; [by rewrite app_nil_r|].
    rewrite concat_app. cbn. rewrite app_nil_r. by destruct q.
  - injection E as <- <-. by rewrite app_nil_r.
  - injection E as <- <-. rewrite app_nil_r. cbn [legal_call] in Hl. apply andb_true_iff in Hl as [_ Hl%Nat.leb_le].
    destruct q as [|p q]; [by destruct len|]. cbn [head default from_option id concat] in *.
    destruct (Nat.eqb_spec len (length p)) as [->|Hne]; [by rewrite firstn_all|]. cbn [concat]. by rewrite app_assoc, take_drop.
Qed.

(** ** Properties *)

(** [C28] The list implements a queue of byte strings: any sequence of calls in
    which the strings appended are not empty (and no longer than an int can
    say) and no more is used than the first string has left runs without a
    failing assertion, returns exactly what the queue returns and leaves its
    strings; in particular an append is refused exactly when there is no memory
    or there are 1024 strings.  Unless everything was dropped, the bytes consumed
    followed by those left are the bytes accepted, in order. *)
Theorem buflist_refines_queue (xs : list call) (Hlegal : legal_calls [] xs = true) :
  (∃ hd, do_calls [] xs = Ok ((queue_run [] xs).1, hd) ∧ sleft <$> hd = (queue_run [] xs).2)
  ∧ (DestroyAll ∉ xs → consumed [] xs ++ concat (queue_run [] xs).2 = accepted [] xs).
Proof.
  split; [|intros Hd; by apply (queue_conserves xs [])].
  enough (∀ xs hd q, is_queue hd q → legal_calls q xs = true →
    ∃ hd', do_calls hd xs = Ok ((queue_run q xs).1, hd') ∧ sleft <$> hd' = (queue_run q xs).2) as H.
  { apply H; [by repeat constructor|done]. }
  clear xs Hlegal. induction xs as [|x xs IH]; intros hd q Hq Hl; [exists hd; split; [done|apply Hq]|].
  cbn [legal_calls do_calls queue_run] in *. apply andb_true_iff in Hl as [Hl Hl'].
  destruct (queue_call hd q x Hq Hl) as (hd1 & -> & Hq1). destruct (queue_step q x) as [o q1]. cbn [fst snd mbind res_bind] in *.
  destruct (IH hd1 q1 Hq1 Hl') as (hd2 & -> & E). destruct (queue_run q1 xs) as [os q2]. by exists hd2.
Qed.

(** Two strings read back in three pieces. *)
Lemma buflist_refines_queue_witness :
  let xs := [Append false (bs "GET /"); Next; Use 4; Append false (bs " HTTP"); Next; Use 1; Next] in
  (∃ hd, do_calls [] xs
     = Ok ([(1, []); (5, bs "GET /"); (1, []); (0, []); (1, bs "/"); (5, []); (5, bs " HTTP")], hd)
     ∧ sleft <$> hd = [bs " HTTP"])
  ∧ (DestroyAll ∉ xs → bs "GET /" ++ bs " HTTP" = bs "GET / HTTP").
Proof. intros xs. apply (buflist_refines_queue xs). vm_compute. reflexivity. Defined.

(** The callers' loop: hand out a segment, use all of it. *)
Fixpoint drain (fuel : nat) (head : list segment) (got : list Z) : res (list Z * list segment) :=
  match fuel with
  | O => Ok (got, head)
  | S f =>
      '(n, b, head) ← lws_buflist_next_segment_len head;
      if n =? 0 then Ok (got, head)
      else '(_, head) ← lws_buflist_use_segment head (Z.to_nat n); drain f head (got ++ b)
  end.

(** Draining a list segment by segment delivers exactly its pending bytes,
    in order, in as many rounds as it has segments (one more finds it empty),
    and leaves it empty. *)
Theorem buflist_drain (head : list segment) (Hwf : Forall wf_segment head) (fuel : nat)
    (Hf : (length head < fuel)%nat) :
  drain fuel head [] = Ok (content head, []).
Proof.
  enough (∀ got, drain fuel head got = Ok (got ++ content head, [])) as H by apply H.
  revert head Hwf Hf. induction fuel as [|f IH]; intros head Hwf Hf got; [lia|].
  cbn [drain]. rewrite next_segment_wf by done. destruct Hwf as [|s head Hs Hh].
  { cbn. by rewrite app_nil_r. }
  destruct (sleft_nonempty s Hs) as [El Hne]. cbn [mbind res_bind].
  destruct (Z.eqb_spec (Z.of_nat (length (sleft s))) 0) as [E|_].
  { destruct (sleft s); [done|cbn in E; lia]. }
  destruct (use_segment_wf s head (length (sleft s)) Hs) as (head' & E & Hcase).
  { unfold wf_segment in Hs. lia. }
  rewrite Nat2Z.id, E. cbn [mbind res_bind]. destruct Hcase as [[_ ->]|[? _]]; [|lia].
  rewrite IH by (done || cbn in Hf; lia). unfold content. cbn. by rewrite app_assoc.
Qed.

Lemma buflist_drain_witness :
  drain 3 [Segment (bs "xabc") 1; Segment (bs "de") 0] [] = Ok (bs "abcde", []).
Proof.
  apply (buflist_drain [Segment (bs "xabc") 1; Segment (bs "de") 0]).
  - repeat constructor.
  - repeat constructor.
Defined.
