(* ===== verification/Text.v ===== *)
(** * Text helpers: escaping, URL coding, URIs

    Models [char_to_hex], [lws_parse_uri], [lws_sql_purify], [lws_json_purify],
    [lws_filename_purify_inplace], [lws_urlencode], [lws_urldecode] and
    [lws_strncpy] of lib/core/libwebsockets.c.  A NUL-terminated string is the
    list of its bytes; what a function writes to its output buffer is the list
    of bytes written in order, the final NUL included, so that its length is
    the room it needs.  The specifications are the readers of the escaped
    forms: an SQL literal, the body of a JSON string, a URL component. *)

From stdpp Require Import base numbers list strings.
From Stdlib Require Import ZArith Lia Ascii.
From S2P Require Import Prelude.

(** ** The code *)

Definition hex : list Z := bs "0123456789ABCDEF".
Definition hex_at (i : Z) : Z := nth (Z.to_nat i) hex 0.

Definition char_to_hex (c : Z) : Z :=
  if (48 <=? c) && (c <=? 57) then c - 48
  else if (97 <=? c) && (c <=? 102) then c - 97 + 10
  else if (65 <=? c) && (c <=? 70) then c - 65 + 10
  else -1.

Fixpoint sql_purify_loop (p : list Z) (len : Z) : list Z :=
  match p with
  | [] => []
  | c :: p' =>
      if 2 <? len then
        let len := len - 1 in
        if c =? 39 then 39 :: 39 :: sql_purify_loop p' (len - 1)
        else c :: sql_purify_loop p' len
      else []
  end.

Definition lws_sql_purify (string : list Z) (len : Z) : list Z := sql_purify_loop string len ++ [0].

(** [*p < 0x20] compares a signed char: bytes above 127 are below it. *)
Fixpoint json_purify_loop (p : list Z) (len : Z) : list Z :=
  match p with
  | [] => []
  | c :: p' =>
      if 6 <? len then
        let len := len - 1 in
        if c =? 9 then 92 :: 116 :: json_purify_loop p' len
        else if c =? 10 then 92 :: 110 :: json_purify_loop p' len
        else if c =? 13 then 92 :: 114 :: json_purify_loop p' len
        else if (c =? 34) || (c =? 92) || (s8 c <? 32) then
          92 :: 117 :: 48 :: 48 :: hex_at (Z.land (Z.shiftr (s8 c) 4) 15) :: hex_at (Z.land (s8 c) 15)
          :: json_purify_loop p' (len - 5)
        else c :: json_purify_loop p' len
      else []
  end.

Definition lws_json_purify (string : option (list Z)) (len : Z) : list Z :=
  match string with
  | None => [0]
  | Some s => json_purify_loop s len ++ [0]
  end.

(** Rewrites the string in place: the byte after the current one may have
    become an underscore. *)
Definition scary (c : Z) : bool :=
  (c =? 58) || (c =? 47) || (c =? 92) || (c =? 36) || (c =? 37).

Fixpoint filename_purify_loop (n : nat) (filename : list Z) : list Z :=
  match n, filename with
  | S n', c :: rest =>
      let '(c, rest) :=
        match rest with
        | d :: rest' => if (c =? 46) && (d =? 46) then (95, 95 :: rest') else (c, rest)
        | [] => (c, rest)
        end in
      let c := if scary c then 95 else c in
      c :: filename_purify_loop n' rest
  | _, _ => []
  end.

Definition lws_filename_purify_inplace (filename : list Z) : list Z :=
  filename_purify_loop (length filename) filename.

Definition is_alnum (c : Z) : bool :=
  ((48 <=? c) && (c <=? 57)) || ((65 <=? c) && (c <=? 90)) || ((97 <=? c) && (c <=? 122)).

Fixpoint urlencode_loop (p : list Z) (len : Z) : list Z :=
  match p with
  | [] => []
  | c :: p' =>
      if 3 <? len then
        let len := len - 1 in
        if c =? 32 then 43 :: urlencode_loop p' len
        else if is_alnum (s8 c) then c :: urlencode_loop p' len
        else
          37 :: hex_at (Z.land (Z.shiftr (s8 c) 4) 15) :: hex_at (Z.land (s8 c) 15)
          :: urlencode_loop p' (len - 2)
      else []
  end.

Definition lws_urlencode (string : list Z) (len : Z) : list Z := urlencode_loop string len ++ [0].

(** The return value and the bytes written (without a NUL on the -1 paths). *)
Fixpoint urldecode_loop (escaped : list Z) (state sum len : Z) (out : list Z) : Z * list Z :=
  match escaped with
  | [] => (0, out ++ [0])
  | c :: rest =>
      if len =? 0 then (0, out ++ [0])
      else if state =? 0 then
        if c =? 37 then urldecode_loop rest 1 sum len out
        else if c =? 43 then urldecode_loop rest 0 sum (len - 1) (out ++ [32])
        else urldecode_loop rest 0 sum (len - 1) (out ++ [c])
      else
        let n := char_to_hex c in
        if n <? 0 then (-1, out)
        else if state =? 1 then urldecode_loop rest 2 (s8 (Z.shiftl n 4)) len out
        else urldecode_loop rest 0 sum (len - 1) (out ++ [u8 (Z.lor sum n)])
  end.

Definition lws_urldecode (escaped : list Z) (len : Z) : Z * list Z :=
  urldecode_loop escaped 0 0 len [].

(** [strncpy] writes [size - 1] bytes: the string, then NULs. *)
Definition lws_strncpy (src : list Z) (size : nat) : list Z :=
  let n := (size - 1)%nat in
  take n src ++ replicate (n - length src) 0 ++ [0].

(** *** [lws_parse_uri] *)

(** The bytes up to the first at which [stop] holds, and the others. *)
Fixpoint break (stop : list Z → bool) (p : list Z) : list Z * list Z :=
  match p with
  | [] => ([], [])
  | c :: p' => if stop p then ([], p) else let '(a, b) := break stop p' in (c :: a, b)
  end.

Definition at_sep (p : list Z) : bool :=
  match p with a :: b :: c :: _ => (a =? 58) && (b =? 47) && (c =? 47) | _ => false end.
Definition at_byte (f : Z → bool) (p : list Z) : bool :=
  match p with a :: _ => f a | [] => false end.

Record uri := Uri { uprot : list Z; uads : list Z; uport : Z; upath : list Z }.

(** [port] is what the caller's variable held. *)
Definition lws_parse_uri (p : list Z) (port : Z) : uri :=
  let '(before, from) := break at_sep p in
  let '(prot, p) := match from with [] => ([], p) | _ => (before, drop 3 from) end in
  let unix_skt := at_byte (λ c, c =? 43) p in
  let port :=
    if bool_decide (prot = bs "http") || bool_decide (prot = bs "ws") then 80
    else if bool_decide (prot = bs "https") || bool_decide (prot = bs "wss") then 443
    else port in
  let '(ads, p) :=
    if at_byte (λ c, c =? 91) p then
      let '(a, p) := break (at_byte (λ c, c =? 93)) p in (drop 1 a, drop 1 p)
    else break (at_byte (λ c, (c =? 58) || (negb unix_skt && (c =? 47)))) p in
  (** [*p] is overwritten by the NUL that ends [ads] when it is ':' or when
      more follows. *)
  let '(port, p) :=
    match p with
    | 58 :: p' => (atoi p', (break (at_byte (λ c, c =? 47)) p').2)
    | _ => (port, p)
    end in
  let path := match p with _ :: c :: p' => c :: p' | _ => [47] end in
  {| uprot := prot; uads := ads; uport := port; upath := path |}.

Example parse_uri_ex :
  lws_parse_uri (bs "wss://[::1]:7681/chat?x") 0
  = Uri (bs "wss") (bs "::1") 7681 (bs "chat?x")
  ∧ lws_parse_uri (bs "https://warmcat.com/") 0 = Uri (bs "https") (bs "warmcat.com") 443 (bs "/")
  ∧ lws_parse_uri (bs "localhost:80") 9 = Uri [] (bs "localhost") 80 (bs "/").
Proof. vm_compute. done. Qed.

(** ** Specifications: readers of the escaped forms *)

Definition prepend (c : Z) (r : option (list Z * list Z)) : option (list Z * list Z) :=
  match r with Some (s, rest) => Some (c :: s, rest) | None => None end.

(** The rest of an SQL string literal after its opening quote: its value, and
    what follows the closing quote. *)
Fixpoint sql_read (l : list Z) : option (list Z * list Z) :=
  match l with
  | [] => None
  | c :: l1 =>
      if c =? 39 then
        match l1 with
        | d :: l2 => if d =? 39 then prepend 39 (sql_read l2) else Some ([], l1)
        | [] => Some ([], [])
        end
      else prepend c (sql_read l1)
  end.

(** A JSON string (RFC 8259) after its opening quote: its code units, and what
    follows the closing quote; control characters must be escaped. *)
Fixpoint json_read (l : list Z) : option (list Z * list Z) :=
  match l with
  | [] => None
  | c :: l1 =>
      if c =? 34 then Some ([], l1)
      else if c =? 92 then
        match l1 with
        | e :: l2 =>
            if e =? 116 then prepend 9 (json_read l2)
            else if e =? 110 then prepend 10 (json_read l2)
            else if e =? 114 then prepend 13 (json_read l2)
            else if e =? 117 then
              match l2 with
              | h1 :: h2 :: h3 :: h4 :: l3 =>
                  let v := char_to_hex in
                  if (0 <=? v h1) && (0 <=? v h2) && (0 <=? v h3) && (0 <=? v h4)
                  then prepend (v h1 * 4096 + v h2 * 256 + v h3 * 16 + v h4) (json_read l3)
                  else None
              | _ => None
              end
            else if (e =? 34) || (e =? 92) || (e =? 47) then prepend e (json_read l2)
            else None
        | [] => None
        end
      else if c <? 32 then None
      else prepend c (json_read l1)
  end.

(** ** Lemmas *)

(** The two hexadecimal digits of a byte. *)
Definition hi (c : Z) : Z := hex_at (Z.land (Z.shiftr (s8 c) 4) 15).
Definition lo (c : Z) : Z := hex_at (Z.land (s8 c) 15).

Lemma hex_digits c :
  is_byte c →
  0 <= char_to_hex (hi c) ∧ 0 <= char_to_hex (lo c)
  ∧ c = 16 * char_to_hex (hi c) + char_to_hex (lo c)
  ∧ u8 (Z.lor (s8 (Z.shiftl (char_to_hex (hi c)) 4)) (char_to_hex (lo c))) = c
  ∧ hi c ≠ 0 ∧ lo c ≠ 0.
Proof.
  revert c. apply (forall_bytes_dec (λ c, 0 <= char_to_hex (hi c) ∧ _)).
  vm_compute. reflexivity.
Qed.

Definition not_quote (rest : list Z) : Prop := match rest with c :: _ => c ≠ 39 | [] => True end.

(** What the loops write is, up to truncation, the escaped string. *)
Lemma sql_loop_reads s len rest :
  not_quote rest →
  ∃ k, (k ≤ length s)%nat
    ∧ sql_read (sql_purify_loop s len ++ 39 :: rest) = Some (take k s, rest)
    ∧ (2 * Z.of_nat (length s) < len → k = length s)
    ∧ Z.of_nat (length (sql_purify_loop s len)) + 1 <= Z.max 1 len.
Proof.
  intros Hr. revert len. induction s as [|c s IH]; intros len.
  { exists 0%nat. cbn. split; [lia|]. split; [|split; [done|lia]].
    destruct rest as [|d rest]; [done|]. cbn in Hr. by rewrite (proj2 (Z.eqb_neq _ _)) by done. }
  cbn [sql_purify_loop]. destruct (Z.ltb_spec 2 len).
  2:{ exists 0%nat. cbn. split; [lia|]. split; [|split; lia].
      destruct rest as [|d rest]; [done|]. cbn in Hr. by rewrite (proj2 (Z.eqb_neq _ _)) by done. }
  destruct (Z.eqb_spec c 39) as [->|Hc].
  - destruct (IH (len - 1 - 1)) as (k & Hk & E & Hall & Hlen). exists (S k).
    cbn [app sql_read length]. change (39 =? 39) with true. cbv iota. rewrite E. cbn [prepend take].
    split; [lia|]. split; [done|]. split; [intros; f_equal; apply Hall; lia|lia].
  - destruct (IH (len - 1)) as (k & Hk & E & Hall & Hlen). exists (S k).
    cbn [app sql_read length]. rewrite (proj2 (Z.eqb_neq _ _)), E by done. cbn [prepend take].
    split; [lia|]. split; [done|]. split; [intros; f_equal; apply Hall; lia|lia].
Qed.

(** Bytes the JSON loop counts one short. *)
Definition short_escape (c : Z) : bool := (c =? 9) || (c =? 10) || (c =? 13).

Lemma json_loop_reads s len rest :
  Forall is_byte s →
  ∃ k, (k ≤ length s)%nat
    ∧ json_read (json_purify_loop s len ++ 34 :: rest) = Some (take k s, rest)
    ∧ (6 * Z.of_nat (length s) < len → k = length s)
    ∧ (Forall (λ c, short_escape c = false) s →
       Z.of_nat (length (json_purify_loop s len)) + 1 <= Z.max 1 len).
Proof.
  intros Hb. revert len. induction Hb as [|c s Hc Hs IH]; intros len.
  { exists 0%nat. cbn. split; [lia|]. split; [done|]. split; [done|lia]. }
  cbn [json_purify_loop]. destruct (Z.ltb_spec 6 len).
  2:{ exists 0%nat. cbn. split; [lia|]. split; [done|]. split; [lia|]. intros _. lia. }
  destruct (Z.eqb_spec c 9) as [->|N9]; [|destruct (Z.eqb_spec c 10) as [->|N10];
    [|destruct (Z.eqb_spec c 13) as [->|N13]]].
  1-3: destruct (IH (len - 1)) as (k & Hk & E & Hall & _); exists (S k);
    cbn [app json_read length Z.eqb Pos.eqb]; rewrite E; cbn [prepend take];
    (split; [lia|]); (split; [done|]); (split; [intros; f_equal; apply Hall; lia|]);
    intros HF; inversion HF; done.
  destruct ((c =? 34) || (c =? 92) || (s8 c <? 32)) eqn:Eesc.
  - destruct (IH (len - 1 - 5)) as (k & Hk & E & Hall & Hlen). exists (S k).
    destruct (hex_digits c Hc) as (H1 & H2 & H3 & _).
    fold (hi c) (lo c). cbn [app json_read length Z.eqb Pos.eqb].
    change (char_to_hex 48) with 0. change (0 <=? 0) with true.
    rewrite (proj2 (Z.leb_le _ _) H1), (proj2 (Z.leb_le _ _) H2). cbn [andb]. rewrite E.
    cbn [prepend take]. split; [lia|]. split; [do 3 f_equal; lia|].
    split; [intros; f_equal; apply Hall; lia|].
    intros HF. inversion HF as [|? ? _ HF']; subst. specialize (Hlen HF'). cbn [length]. lia.
  - destruct (IH (len - 1)) as (k & Hk & E & Hall & Hlen). exists (S k).
    apply orb_false_iff in Eesc as [Eesc E3]. apply orb_false_iff in Eesc as [E1 E2].
    apply Z.ltb_ge in E3.
    assert (32 <= c) as H32.
    { unfold is_byte in Hc. destruct (decide (c < 128)); [rewrite s8_small in E3; lia|lia]. }
    cbn [app json_read length]. rewrite E1, E2, (proj2 (Z.ltb_ge c 32)), E by lia. cbn [prepend take].
    split; [lia|]. split; [done|]. split; [intros; f_equal; apply Hall; lia|].
    intros HF. inversion HF as [|? ? _ HF']; subst. specialize (Hlen HF'). cbn [length]. lia.
Qed.

(** Decoding what was encoded, from any amount already decoded. *)
Lemma urldecode_encode s len_e sum len_d out :
  Forall is_byte s → 3 * Z.of_nat (length s) < len_e → Z.of_nat (length s) <= len_d →
  urldecode_loop (urlencode_loop s len_e) 0 sum len_d out = (0, out ++ s ++ [0]).
Proof.
  intros Hb. revert len_e sum len_d out.
  induction Hb as [|c s Hc Hs IH]; intros len_e sum len_d out He Hd; [done|].
  cbn [length] in He, Hd. cbn [urlencode_loop].
  rewrite (proj2 (Z.ltb_lt 3 len_e)) by lia.
  destruct (Z.eqb_spec c 32) as [->|N32].
  { cbn [urldecode_loop Z.eqb Pos.eqb]. rewrite (proj2 (Z.eqb_neq len_d 0)) by lia.
    rewrite IH by lia. by rewrite <- app_assoc. }
  destruct (is_alnum (s8 c)) eqn:Ea.
  - cbn [urldecode_loop]. rewrite (proj2 (Z.eqb_neq len_d 0)) by lia.
    assert (c ≠ 37 ∧ c ≠ 43) as [N1 N2] by (split; intros ->; vm_compute in Ea; discriminate).
    rewrite (proj2 (Z.eqb_neq _ _) N1), (proj2 (Z.eqb_neq _ _) N2). cbn [Z.eqb].
    rewrite IH by lia. by rewrite <- app_assoc.
  - destruct (hex_digits c Hc) as (H1 & H2 & _ & H4 & _). fold (hi c) (lo c).
    cbn [urldecode_loop]. change (37 =? 37) with true. change (0 =? 0) with true.
    change (1 =? 0) with false. change (2 =? 0) with false. change (1 =? 1) with true. change (2 =? 1) with false.
    rewrite (proj2 (Z.eqb_neq len_d 0)) by lia. cbv zeta iota.
    rewrite (proj2 (Z.ltb_ge _ _) H1), (proj2 (Z.ltb_ge _ _) H2), H4.
    rewrite IH by lia. by rewrite <- app_assoc.
Qed.

Lemma urlencode_bound s len :
  Z.of_nat (length (urlencode_loop s len)) + 1 <= Z.max 1 len.
Proof.
  revert len. induction s as [|c s IH]; intros len; cbn [urlencode_loop length]; [lia|].
  destruct (Z.ltb_spec 3 len); [|cbn; lia].
  destruct (c =? 32); [|destruct (is_alnum (s8 c))]; cbn [length].
  - specialize (IH (len - 1)). lia.
  - specialize (IH (len - 1)). lia.
  - specialize (IH (len - 1 - 2)). lia.
Qed.

Lemma urldecode_bound escaped state sum len out :
  0 <= len →
  Z.of_nat (length (urldecode_loop escaped state sum len out).2)
  <= Z.of_nat (length out) + len + 1.
Proof.
  revert state sum len out. induction escaped as [|c rest IH]; intros state sum len out Hl; cbn [urldecode_loop].
  { cbn. rewrite length_app. cbn. lia. }
  destruct (Z.eqb_spec len 0); [cbn; rewrite length_app; cbn; lia|].
  destruct (state =? 0).
  - destruct (c =? 37); [apply IH; lia|].
    destruct (c =? 43); (etrans; [apply IH; lia|]); rewrite length_app; cbn; lia.
  - destruct (char_to_hex c <? 0); [cbn; lia|].
    destruct (state =? 1); [apply IH; lia|]. etrans; [apply IH; lia|]. rewrite length_app. cbn. lia.
Qed.

(** The purified name has no two dots in a row and nothing that could name
    another directory; only such bytes were changed. *)
Definition no_dotdot (l : list Z) : Prop :=
  ∀ i, ¬ (l !! i = Some 46 ∧ l !! S i = Some 46).

Lemma filename_loop_head n l c :
  filename_purify_loop n l !! 0%nat = Some c →
  ∃ d, l !! 0%nat = Some d ∧ (c = d ∨ c = 95).
Proof.
  destruct n as [|n]; [by destruct l|]. destruct l as [|d l]; [done|]. cbn.
  destruct l as [|e l]; cbn.
  - intros [= <-]. exists d. split; [done|]. destruct (scary d); auto.
  - destruct ((d =? 46) && (e =? 46)); cbn; intros [= <-]; exists d; (split; [done|]); auto.
    destruct (scary d); auto.
Qed.

Lemma filename_loop_spec n l :
  (length l ≤ n)%nat →
  length (filename_purify_loop n l) = length l
  ∧ Forall (λ c, scary c = false) (filename_purify_loop n l)
  ∧ no_dotdot (filename_purify_loop n l).
Proof.
  revert l. induction n as [|n IH]; intros l Hn.
  { destruct l; [|cbn in Hn; lia]. cbn. split; [done|]. split; [constructor|]. by intros i []. }
  destruct l as [|c rest]; [cbn; split; [done|]; split; [constructor|]; by intros i []|].
  cbn [filename_purify_loop].
  assert (∃ c' rest', (match rest with
      | d :: rest' => if (c =? 46) && (d =? 46) then (95, 95 :: rest') else (c, rest)
      | [] => (c, rest) end) = (c', rest') ∧ length rest' = length rest
      ∧ (c' = 46 → rest' !! 0%nat ≠ Some 46)) as (c' & rest' & -> & Hl & Hdot).
  { destruct rest as [|d rest]; [by exists c, []|].
    destruct (Z.eqb_spec c 46), (Z.eqb_spec d 46); eexists _, _; (split; [reflexivity|]);
      (split; [done|]); cbn; congruence. }
  destruct (IH rest') as (I1 & I2 & I3); [cbn in Hn; lia|].
  split; [cbn; lia|]. split.
  - constructor; [|done]. destruct (scary c') eqn:E; [done|exact E].
  - intros [|i]; [|exact (I3 i)]. cbn. intros [[= E1] E2].
    destruct (filename_loop_head _ _ _ E2) as (d & Ed & [<-|]); [|done].
    destruct (scary c'); [done|]. by apply Hdot.
Qed.

(** Splitting at the first stop. *)
Lemma break_app stop a b :
  (∀ i, (i < length a)%nat → stop (drop i (a ++ b)) = false) →
  (b = [] ∨ stop b = true) →
  break stop (a ++ b) = (a, b).
Proof.
  intros Ha Hb. induction a as [|c a IH]; cbn [app break].
  - destruct b as [|d b]; [done|]. destruct Hb as [|Hb]; [done|]. cbn. by rewrite Hb.
  - pose proof (Ha 0%nat ltac:(cbn; lia)) as H0. cbn [drop app] in H0. rewrite H0.
    rewrite IH; [done|]. intros i Hi. apply (Ha (S i)). cbn. lia.
Qed.

Lemma break_bytes f a b :
  Forall (λ c, f c = false) a → (b = [] ∨ at_byte f b = true) →
  break (at_byte f) (a ++ b) = (a, b).
Proof.
  intros Ha Hb. apply break_app; [|done]. intros i Hi.
  destruct (lookup_lt_is_Some_2 a i Hi) as [c Hc].
  rewrite drop_app_le by lia. rewrite (drop_S a c i) by done. cbn.
  exact (Forall_lookup_1 _ _ _ _ Ha Hc).
Qed.

(** A text without a colon has no "://" before the one that follows it. *)
Lemma break_sep a b :
  Forall (λ c, c ≠ 58) a → break at_sep (a ++ 58 :: 47 :: 47 :: b) = (a, 58 :: 47 :: 47 :: b).
Proof.
  intros Ha. apply break_app; [|by right]. intros i Hi.
  destruct (lookup_lt_is_Some_2 a i Hi) as [c Hc].
  rewrite drop_app_le by lia. rewrite (drop_S a c i) by done.
  assert (c ≠ 58) by exact (Forall_lookup_1 _ _ _ _ Ha Hc). cbn.
  destruct (drop (S i) a ++ 58 :: 47 :: 47 :: b) as [|x [|y l]]; [done..|].
  by rewrite (proj2 (Z.eqb_neq _ _)) by done.
Qed.

(** The address part of a URI, up to a port or a path. *)
Lemma parse_address (v6 : bool) (host tail : list Z) :
  Forall (λ c, if v6 then c ≠ 93 else c ≠ 58 ∧ c ≠ 47) host →
  (v6 = false → at_byte (λ c, (c =? 91) || (c =? 43)) host = false) →
  (at_byte (λ c, c =? 58) tail = true ∨ at_byte (λ c, c =? 47) tail = true) →
  let p := (if v6 then 91 :: host ++ [93] else host) ++ tail in
  (if at_byte (λ c, c =? 91) p
   then let '(a, p) := break (at_byte (λ c, c =? 93)) p in (drop 1 a, drop 1 p)
   else break (at_byte (λ c, (c =? 58) || (negb (at_byte (λ c, c =? 43) p) && (c =? 47)))) p)
  = (host, tail).
Proof.
  intros Hhost Hfirst Htail. cbv zeta. destruct v6.
  - cbn [app at_byte Z.eqb Pos.eqb]. rewrite <- (app_assoc host [93] tail). cbn [app].
    change (91 :: host ++ 93 :: tail) with ((91 :: host) ++ 93 :: tail).
    rewrite (break_bytes (λ c, c =? 93) (91 :: host) (93 :: tail)); [done| |by right].
    constructor; [done|]. eapply Forall_impl; [exact Hhost|]. intros x Hx. by apply Z.eqb_neq.
  - specialize (Hfirst eq_refl).
    assert (at_byte (λ c, c =? 91) (host ++ tail) = false
            ∧ at_byte (λ c, c =? 43) (host ++ tail) = false) as [-> ->].
    { destruct host as [|x host]; cbn [app at_byte] in *; [|by apply orb_false_iff in Hfirst].
      destruct tail as [|y tail]; [done|]. cbn [at_byte] in *. rewrite !Z.eqb_eq in Htail.
      destruct Htail; subst; done. }
    cbn [negb andb]. rewrite break_bytes; [done| |].
    + eapply Forall_impl; [exact Hhost|]. intros x [H1 H2]. cbn.
      by rewrite (proj2 (Z.eqb_neq _ _) H1), (proj2 (Z.eqb_neq _ _) H2).
    + right. destruct tail as [|y tail]; [by destruct Htail|]. cbn [at_byte] in *.
      by destruct Htail as [-> | ->]; rewrite ?orb_true_r.
Qed.

Lemma c_str_strncpy src size :
  no_nul src → (1 ≤ size)%nat →
  length (lws_strncpy src size) = size ∧ c_str (lws_strncpy src size) = Some (take (size - 1) src).
Proof.
  intros Hn Hs. unfold lws_strncpy. split.
  - rewrite !length_app, length_take, length_replicate. cbn. lia.
  - destruct (size - 1 - length src)%nat eqn:E; cbn [replicate app];
      apply c_str_terminated, Forall_take, Hn.
Qed.

(** ** Properties *)

(** [lws_sql_purify] makes an injection impossible: whatever the string
    and the buffer size, the escaped text followed by a quote reads as one SQL
    literal whose value is the string, cut short only when the buffer is not
    larger than twice its length; and no more than [len] bytes are written. *)
Theorem sql_purify_safe (string rest : list Z) (len : Z) (Hrest : not_quote rest) :
  ∃ body k, lws_sql_purify string len = body ++ [0]
    ∧ sql_read (body ++ 39 :: rest) = Some (take k string, rest)
    ∧ (2 * Z.of_nat (length string) < len → take k string = string)
    ∧ Z.of_nat (length (lws_sql_purify string len)) <= Z.max 1 len.
Proof.
  destruct (sql_loop_reads string len rest Hrest) as (k & Hk & E & Hall & Hlen).
  exists (sql_purify_loop string len), k. split; [done|]. split; [done|]. split.
  - intros H. rewrite (Hall H). by apply take_ge.
  - unfold lws_sql_purify. rewrite length_app. cbn. lia.
Qed.

Lemma sql_purify_safe_witness :
  ∃ body k, lws_sql_purify (bs "x'; DROP TABLE t") 20 = body ++ [0]
    ∧ sql_read (body ++ 39 :: bs ";") = Some (take k (bs "x'; DROP TABLE t"), bs ";").
Proof.
  destruct (sql_purify_safe (bs "x'; DROP TABLE t") (bs ";") 20) as (body & k & H1 & H2 & _).
  - intros H. discriminate H.
  - by exists body, k.
Defined.

(** [lws_json_purify] writes the body of a JSON string: followed by a
    quote it reads, by the grammar of RFC 8259, as one string whose code units
    are the bytes of the input (so a UTF-8 text is read as its bytes), cut
    short only when the buffer is not larger than six times the input.  It
    stays inside the buffer when the input has no tab, newline or carriage
    return. *)
Theorem json_purify_reads (s rest : list Z) (len : Z) (Hs : Forall is_byte s) :
  ∃ body k, lws_json_purify (Some s) len = body ++ [0]
    ∧ json_read (body ++ 34 :: rest) = Some (take k s, rest)
    ∧ (6 * Z.of_nat (length s) < len → take k s = s)
    ∧ (Forall (λ c, short_escape c = false) s →
       Z.of_nat (length (lws_json_purify (Some s) len)) <= Z.max 1 len).
Proof.
  destruct (json_loop_reads s len rest Hs) as (k & Hk & E & Hall & Hlen).
  exists (json_purify_loop s len), k. split; [done|]. split; [done|]. split.
  - intros H. rewrite (Hall H). by apply take_ge.
  - intros HF. cbn. rewrite length_app. cbn. specialize (Hlen HF). lia.
Qed.

Lemma json_purify_reads_witness :
  ∃ body k, lws_json_purify (Some (bs "a\b" ++ [34; 10; 7])) 64 = body ++ [0]
    ∧ json_read (body ++ 34 :: bs "}") = Some (take k (bs "a\b" ++ [34; 10; 7]), bs "}").
Proof.
  destruct (json_purify_reads (bs "a\b" ++ [34; 10; 7]) (bs "}") 64) as (body & k & H1 & H2 & _).
  - by_compute.
  - by exists body, k.
Defined.

(** ... and it overruns the buffer otherwise: the two bytes written for a
    tab, a newline or a carriage return are counted as one, so a long enough
    run of them writes [2 * (len - 6) + 1] bytes, more than [len] for every
    buffer of 12 bytes or more. *)
Theorem json_purify_overflow (c : Z) (n : nat) (len : Z)
    (Hc : short_escape c = true) (Hlen : 12 <= len) (Hn : len - 6 <= Z.of_nat n) :
  let out := lws_json_purify (Some (replicate n c)) len in
  Z.of_nat (length out) = 2 * (len - 6) + 1 ∧ len < Z.of_nat (length out).
Proof.
  assert (∀ n len, 6 <= len → len - 6 <= Z.of_nat n →
    Z.of_nat (length (json_purify_loop (replicate n c) len)) = 2 * (len - 6)) as H.
  { induction n0 as [|k IH]; intros l H6 Hk; cbn [replicate json_purify_loop length]; [lia|].
    destruct (Z.ltb_spec 6 l); [|cbn; lia].
    assert (c = 9 ∨ c = 10 ∨ c = 13) as Hc'.
    { unfold short_escape in Hc. rewrite !orb_true_iff, !Z.eqb_eq in Hc. tauto. }
    destruct_or! Hc'; subst c; cbn [Z.eqb Pos.eqb length]; specialize (IH (l - 1)); lia. }
  cbv zeta. cbn [lws_json_purify]. rewrite length_app. cbn [length]. rewrite Nat2Z.inj_add, H by lia. lia.
Qed.

Lemma json_purify_overflow_witness :
  length (lws_json_purify (Some (replicate 20 10)) 20) = 29%nat.
Proof.
  destruct (json_purify_overflow 10 20 20 eq_refl) as [H _].
  - vm_compute. discriminate.
  - vm_compute. discriminate.
  - apply Nat2Z.inj. exact H.
Defined.

(** [C33] URL coding: what [lws_urlencode] writes into a buffer of more than
    three times the string decodes to the string, and it never writes more than
    [len] bytes; [lws_urldecode] writes at most one byte more than its [len],
    and that many whenever the text has at least [len] plain characters, so a
    caller must have room for [len + 1]. *)
Theorem url_roundtrip (s : list Z) (len_e len_d : Z)
    (Hs : Forall is_byte s) (He : 3 * Z.of_nat (length s) < len_e) (Hd : Z.of_nat (length s) <= len_d) :
  (∃ text, lws_urlencode s len_e = text ++ [0] ∧ lws_urldecode text len_d = (0, s ++ [0]))
  ∧ (∀ t len, Z.of_nat (length (lws_urlencode t len)) <= Z.max 1 len)
  ∧ (∀ t len, 0 <= len → Z.of_nat (length (lws_urldecode t len).2) <= len + 1)
  ∧ (∀ t (len : nat), Forall (λ c, c ≠ 37 ∧ c ≠ 43) t → (len ≤ length t)%nat →
       lws_urldecode t (Z.of_nat len) = (0, take len t ++ [0])).
Proof.
  split; [|split; [|split]].
  - exists (urlencode_loop s len_e). split; [done|]. unfold lws_urldecode.
    by rewrite urldecode_encode by done.
  - intros t len. unfold lws_urlencode. rewrite length_app. cbn. pose proof (urlencode_bound t len). lia.
  - intros t len Hl. pose proof (urldecode_bound t 0 0 len [] Hl). cbn [length] in *.
    unfold lws_urldecode. lia.
  - unfold lws_urldecode. intros t len Ht Hl.
    enough (∀ out, urldecode_loop t 0 0 (Z.of_nat len) out = (0, out ++ take len t ++ [0])) as H by apply H.
    revert len Hl. induction Ht as [|c t [N1 N2] _ IH]; intros len Hl out; cbn [urldecode_loop].
    { by destruct len. }
    destruct len as [|k]; [done|]. rewrite (proj2 (Z.eqb_neq _ _)) by lia.
    rewrite (proj2 (Z.eqb_neq _ _) N1), (proj2 (Z.eqb_neq _ _) N2). cbn [Z.eqb].
    replace (Z.of_nat (S k) - 1) with (Z.of_nat k) by lia. cbn [length] in Hl. rewrite IH by lia.
    by rewrite <- app_assoc.
Qed.

Lemma url_roundtrip_witness :
  ∃ text, lws_urlencode (bs "a b/c%" ++ [233]) 22 = text ++ [0]
    ∧ lws_urldecode text 7 = (0, bs "a b/c%" ++ [233; 0]).
Proof.
  refine (proj1 (url_roundtrip (bs "a b/c%" ++ [233]) 22 7 _ _ _)).
  - by_compute.
  - vm_compute. reflexivity.
  - vm_compute. discriminate.
Defined.

(** A purified file name has the length of the original, contains no
    colon, slash, backslash, dollar or percent and no two dots in a row (it
    cannot leave its directory), and a name that was already so is unchanged. *)
Theorem filename_purify_safe (filename : list Z) :
  let out := lws_filename_purify_inplace filename in
  length out = length filename
  ∧ Forall (λ c, scary c = false) out
  ∧ no_dotdot out
  ∧ (Forall (λ c, scary c = false) filename → no_dotdot filename → out = filename).
Proof.
  cbv zeta. unfold lws_filename_purify_inplace.
  destruct (filename_loop_spec (length filename) filename (le_n _)) as (H1 & H2 & H3).
  split; [done|]. split; [done|]. split; [done|]. clear. intros Hs.
  induction Hs as [|c l Hc Hs IH]; intros Hd; [done|].
  assert (no_dotdot l) as Hd' by (intros i; exact (Hd (S i))).
  cbn [length filename_purify_loop]. destruct l as [|d l].
  - by rewrite Hc.
  - specialize (Hd 0%nat). cbn in Hd.
    destruct (Z.eqb_spec c 46), (Z.eqb_spec d 46); subst; cbn [andb];
      try (exfalso; by apply Hd); rewrite Hc; f_equal; by apply IH.
Qed.

(** A URI that is put together from its parts is taken apart into them:
    protocol without a colon, a host that does not start with '[' or '+' and
    has no colon or slash (or an IPv6 address in brackets), a decimal port, and
    a path (given back without its leading slash, as documented); without a
    port the default of the protocol is used. *)
Theorem parse_uri_parts (prot host path : list Z) (port port0 : Z) (v6 : bool)
    (Hprot : Forall (λ c, c ≠ 58) prot)
    (Hhost : Forall (λ c, if v6 then c ≠ 93 else c ≠ 58 ∧ c ≠ 47) host)
    (Hfirst : v6 = false → at_byte (λ c, (c =? 91) || (c =? 43)) host = false)
    (Hpath : path ≠ []) (Hport : 0 <= port <= 65535) :
  let h := if v6 then 91 :: host ++ [93] else host in
  lws_parse_uri (prot ++ bs "://" ++ h ++ 58 :: fmt_d port ++ 47 :: path) port0
    = Uri prot host port path
  ∧ lws_parse_uri (prot ++ bs "://" ++ h ++ 47 :: path) port0
    = Uri prot host
        (if bool_decide (prot = bs "http" ∨ prot = bs "ws") then 80
         else if bool_decide (prot = bs "https" ∨ prot = bs "wss") then 443 else port0) path.
Proof.
  cbv zeta. destruct path as [|c path]; [done|].
  split; unfold lws_parse_uri; change (bs "://" ++ ?x) with (58 :: 47 :: 47 :: x);
    rewrite break_sep by done; cbn [drop]; rewrite drop_0; cbv zeta.
  - pose proof (parse_address v6 host (58 :: fmt_d port ++ 47 :: c :: path) Hhost Hfirst
                  (or_introl eq_refl)) as E. cbv zeta in E. rewrite E. cbv iota.
    assert (0 <= port <= INT_MAX) as Hp by (unfold INT_MAX; lia).
    destruct (fmt_d_spec port Hp) as (Hdig & _). f_equal; [by apply atoi_fmt_d|].
    rewrite break_bytes; [done| |by right].
    eapply Forall_impl; [exact Hdig|]. intros x Hx%is_digit_iff. cbn. apply Z.eqb_neq. lia.
  - pose proof (parse_address v6 host (47 :: c :: path) Hhost Hfirst (or_intror eq_refl)) as E.
    cbv zeta in E. rewrite E. cbv iota. f_equal. by rewrite !bool_decide_or.
Qed.

Lemma parse_uri_parts_witness :
  lws_parse_uri (bs "ws://127.0.0.1:7681/xxx") 0 = Uri (bs "ws") (bs "127.0.0.1") 7681 (bs "xxx").
Proof.
  refine (proj1 (parse_uri_parts (bs "ws") (bs "127.0.0.1") (bs "xxx") 7681 0 false _ _ _ _ _)).
  - by_compute.
  - by_compute.
  - reflexivity.
  - discriminate.
  - split; vm_compute; discriminate.
Defined.
