(* ===== verification/WsRx.v ===== *)
(** * Receiving websocket frames

    Models the server's receive path of lib/roles/ws: the frame state machine
    [lws_ws_rx_sm] and [lws_close_reason] (ops-ws.c), the bulk payload path
    [lws_ws_frame_rest_is_payload] and the loop [lws_parse_ws] over what was
    read from the socket (server-ws.c), and the buffer set up by
    [lws_server_init_wsi_for_ws], as built without extensions.

    The connection's state is the record [lws]; [rx_ubuf] holds the bytes
    collected in the receive buffer after its LWS_PRE bytes, so [rx_ubuf_head]
    is its length.  The handler of the protocol and the flow control that
    follows it are the parameter [cb], called with what was logged before;
    every callback made is logged in order. *)

From stdpp Require Import base numbers list strings.
From Stdlib Require Import ZArith Lia Ascii.
From S2P Require Import Prelude CommPlugin Utf8.

(** ** State *)

Inductive rxps :=
  | LWS_RXPS_NEW
  | LWS_RXPS_04_mask_1 | LWS_RXPS_04_mask_2 | LWS_RXPS_04_mask_3
  | LWS_RXPS_04_FRAME_HDR_1
  | LWS_RXPS_04_FRAME_HDR_LEN
  | LWS_RXPS_04_FRAME_HDR_LEN16_2 | LWS_RXPS_04_FRAME_HDR_LEN16_1
  | LWS_RXPS_04_FRAME_HDR_LEN64_8 | LWS_RXPS_04_FRAME_HDR_LEN64_7
  | LWS_RXPS_04_FRAME_HDR_LEN64_6 | LWS_RXPS_04_FRAME_HDR_LEN64_5
  | LWS_RXPS_04_FRAME_HDR_LEN64_4 | LWS_RXPS_04_FRAME_HDR_LEN64_3
  | LWS_RXPS_04_FRAME_HDR_LEN64_2 | LWS_RXPS_04_FRAME_HDR_LEN64_1
  | LWS_RXPS_07_COLLECT_FRAME_KEY_1 | LWS_RXPS_07_COLLECT_FRAME_KEY_2
  | LWS_RXPS_07_COLLECT_FRAME_KEY_3 | LWS_RXPS_07_COLLECT_FRAME_KEY_4
  | LWS_RXPS_WS_FRAME_PAYLOAD.

#[global] Instance rxps_eq_dec : EqDecision rxps.
Proof. solve_decision. Defined.

(** The states of a connection its receive and send paths tell apart. *)
Inductive lrs :=
  | LRS_ESTABLISHED | LRS_RETURNED_CLOSE | LRS_AWAITING_CLOSE_ACK
  | LRS_WAITING_TO_SEND_CLOSE | LRS_FLUSHING_BEFORE_CLOSE | LRS_SHUTDOWN | LRS_OTHER.

#[global] Instance lrs_eq_dec : EqDecision lrs.
Proof. solve_decision. Defined.

(** What the receive path tells the protocol handler: with
    [LWS_CALLBACK_RECEIVE] also what lws_is_first_fragment,
    lws_is_final_fragment and lws_frame_is_binary answer at that moment. *)
Inductive event :=
  | RECEIVE (first final binary : bool) (data : list Z)
  | RECEIVE_PONG (data : list Z)
  | WS_PEER_INITIATED_CLOSE (data : list Z)
  | WRITEABLE_REQUESTED.

#[global] Instance event_eq_dec : EqDecision event.
Proof. solve_decision. Defined.

Definition LWSWSOPC_CONTINUATION : Z := 0.
Definition LWSWSOPC_TEXT_FRAME : Z := 1.
Definition LWSWSOPC_BINARY_FRAME : Z := 2.
Definition LWSWSOPC_CLOSE : Z := 8.
Definition LWSWSOPC_PING : Z := 9.
Definition LWSWSOPC_PONG : Z := 10.

Definition LWS_CLOSE_STATUS_PROTOCOL_ERR : Z := 1002.
Definition LWS_CLOSE_STATUS_INVALID_PAYLOAD : Z := 1007.

(** The fields of [struct lws] and its [ws] the receive path uses; the bytes of
    [ping_payload_buf] are those after its LWS_PRE.  [pong_timeout] says that
    the pending timeout is PENDING_TIMEOUT_WS_PONG_CHECK_GET_PONG, and
    [partial_buffered] is what lws_partial_buffered(wsi) returns. *)
Record lws := Lws {
  lws_rx_parse_state : rxps;
  opcode : Z;
  rsv : Z;
  final : bool;
  rsv_first_msg : Z;
  frame_is_binary : bool;
  first_fragment : bool;
  continuation_possible : bool;
  owed_a_fin : bool;
  check_utf8 : bool;
  defeat_check_utf8 : bool;
  utf8 : Z;
  this_frame_masked : bool;
  all_zero_nonce : bool;
  mask : list Z;
  mask_idx : Z;
  rx_packet_length : Z;
  rx_ubuf : list Z;
  ping_payload_buf : list Z;
  ping_payload_len : Z;
  ping_pending_flag : bool;
  close_in_ping_buffer_len : Z;
  payload_is_close : bool;
  peer_has_sent_close : bool;
  wsistate : lrs;
  wsistate_pre_close : bool;
  socket_is_permanently_unusable : bool;
  pong_timeout : bool;
  partial_buffered : bool;
  ietf_spec_revision : Z;
  log : list event;
}.

Definition lws_eta (w : lws) : lws :=
  Lws (lws_rx_parse_state w) (opcode w) (rsv w) (final w) (rsv_first_msg w) (frame_is_binary
    w) (first_fragment w) (continuation_possible w) (owed_a_fin w) (check_utf8 w)
    (defeat_check_utf8 w) (utf8 w) (this_frame_masked w) (all_zero_nonce w) (mask w)
    (mask_idx w) (rx_packet_length w) (rx_ubuf w) (ping_payload_buf w) (ping_payload_len w)
    (ping_pending_flag w) (close_in_ping_buffer_len w) (payload_is_close w)
    (peer_has_sent_close w) (wsistate w) (wsistate_pre_close w)
    (socket_is_permanently_unusable w) (pong_timeout w) (partial_buffered w)
    (ietf_spec_revision w) (log w).

(** [set_f v w] is [w] with field [f] set to [v]. *)
Ltac setter proj w v :=
  let e := eval cbv [lws_eta] in (lws_eta w) in
  let e' := eval pattern (proj w) in e in
  match e' with ?f _ => let r := eval cbv beta in (f v) in exact r end.

Definition set_lws_rx_parse_state (v : rxps) (w : lws) : lws := ltac:(setter lws_rx_parse_state w v).
Definition set_opcode (v : Z) (w : lws) : lws := ltac:(setter opcode w v).
Definition set_rsv (v : Z) (w : lws) : lws := ltac:(setter rsv w v).
Definition set_final (v : bool) (w : lws) : lws := ltac:(setter final w v).
Definition set_rsv_first_msg (v : Z) (w : lws) : lws := ltac:(setter rsv_first_msg w v).
Definition set_frame_is_binary (v : bool) (w : lws) : lws := ltac:(setter frame_is_binary w v).
Definition set_first_fragment (v : bool) (w : lws) : lws := ltac:(setter first_fragment w v).
Definition set_continuation_possible (v : bool) (w : lws) : lws := ltac:(setter continuation_possible w v).
Definition set_owed_a_fin (v : bool) (w : lws) : lws := ltac:(setter owed_a_fin w v).
Definition set_check_utf8 (v : bool) (w : lws) : lws := ltac:(setter check_utf8 w v).
Definition set_defeat_check_utf8 (v : bool) (w : lws) : lws := ltac:(setter defeat_check_utf8 w v).
Definition set_utf8 (v : Z) (w : lws) : lws := ltac:(setter utf8 w v).
Definition set_this_frame_masked (v : bool) (w : lws) : lws := ltac:(setter this_frame_masked w v).
Definition set_all_zero_nonce (v : bool) (w : lws) : lws := ltac:(setter all_zero_nonce w v).
Definition set_mask (v : list Z) (w : lws) : lws := ltac:(setter mask w v).
Definition set_mask_idx (v : Z) (w : lws) : lws := ltac:(setter mask_idx w v).
Definition set_rx_packet_length (v : Z) (w : lws) : lws := ltac:(setter rx_packet_length w v).
Definition set_rx_ubuf (v : list Z) (w : lws) : lws := ltac:(setter rx_ubuf w v).
Definition set_ping_payload_buf (v : list Z) (w : lws) : lws := ltac:(setter ping_payload_buf w v).
Definition set_ping_payload_len (v : Z) (w : lws) : lws := ltac:(setter ping_payload_len w v).
Definition set_ping_pending_flag (v : bool) (w : lws) : lws := ltac:(setter ping_pending_flag w v).
Definition set_close_in_ping_buffer_len (v : Z) (w : lws) : lws := ltac:(setter close_in_ping_buffer_len w v).
Definition set_payload_is_close (v : bool) (w : lws) : lws := ltac:(setter payload_is_close w v).
Definition set_peer_has_sent_close (v : bool) (w : lws) : lws := ltac:(setter peer_has_sent_close w v).
Definition set_wsistate (v : lrs) (w : lws) : lws := ltac:(setter wsistate w v).
Definition set_wsistate_pre_close (v : bool) (w : lws) : lws := ltac:(setter wsistate_pre_close w v).
Definition set_socket_is_permanently_unusable (v : bool) (w : lws) : lws := ltac:(setter socket_is_permanently_unusable w v).
Definition set_pong_timeout (v : bool) (w : lws) : lws := ltac:(setter pong_timeout w v).
Definition set_partial_buffered (v : bool) (w : lws) : lws := ltac:(setter partial_buffered w v).
Definition set_ietf_spec_revision (v : Z) (w : lws) : lws := ltac:(setter ietf_spec_revision w v).
Definition set_log (v : list event) (w : lws) : lws := ltac:(setter log w v).

(** The protocol's and the context's settings. *)
Record config := Config {
  rx_buffer_size : Z;
  pt_serv_buf_size : Z;
  validate_utf8 : bool;
}.

(** The size of the receive buffer, as [lws_server_init_wsi_for_ws] allocates
    it ([rx_ubuf_alloc] without its LWS_PRE; four more bytes follow). *)
Definition rx_size (cfg : config) : Z :=
  if rx_buffer_size cfg =? 0 then pt_serv_buf_size cfg else rx_buffer_size cfg.

(** A connection right after the upgrade. *)
Definition lws_server_init_wsi_for_ws : lws :=
  {| lws_rx_parse_state := LWS_RXPS_NEW; opcode := 0; rsv := 0; final := false;
     rsv_first_msg := 0; frame_is_binary := false; first_fragment := false;
     continuation_possible := false; owed_a_fin := false; check_utf8 := false;
     defeat_check_utf8 := false; utf8 := 0; this_frame_masked := false;
     all_zero_nonce := false; mask := [0; 0; 0; 0]; mask_idx := 0; rx_packet_length := 0;
     rx_ubuf := []; ping_payload_buf := replicate 125 0; ping_payload_len := 0;
     ping_pending_flag := false; close_in_ping_buffer_len := 0; payload_is_close := false;
     peer_has_sent_close := false; wsistate := LRS_ESTABLISHED; wsistate_pre_close := false;
     socket_is_permanently_unusable := false; pong_timeout := false; partial_buffered := false;
     ietf_spec_revision := 13; log := [] |}.

(** ** The state machine *)

Section rx.
Variable cfg : config.
Variable cb : list event → event → Z.
(** Whether the handler has stopped input ([rxflow_bitmap]), after the events
    logged so far. *)
Variable rxflow : list event → bool.

(** user_callback_handle_rxflow: the handler is called, and logged. *)
Definition callback (w : lws) (e : event) : Z * lws :=
  (cb (log w) e, set_log (log w ++ [e]) w).

Definition lws_callback_on_writable (w : lws) : lws :=
  set_log (log w ++ [WRITEABLE_REQUESTED]) w.

(** The status and as much of the text as fits go to the ping buffer. *)
Definition lws_close_reason (w : lws) (status : Z) (text : list Z) : lws :=
  let bytes := Z.land (Z.shiftr status 8) 255 :: Z.land status 255 :: take (125 - 2) text in
  set_close_in_ping_buffer_len (u8 (Z.of_nat (length bytes)))
    (set_ping_payload_buf (blit (ping_payload_buf w) 0 bytes) w).

Definition protocol_err (w : lws) (text : list Z) : res (Z * lws) :=
  Ok (-1, lws_close_reason w LWS_CLOSE_STATUS_PROTOCOL_ERR text).

Definition is_final_fragment (w : lws) : bool := final w && (rx_packet_length w =? 0).

(** *** The first byte of a frame *)

(** Reserved bits that are refused, in a build without extensions. *)
Definition rsv_refused (r : Z) : bool := negb (r =? 0) && negb (Z.land r (Z.lnot 64) =? 0).

(** After the switch on the opcode. *)
Definition after_opcode (w : lws) : res (Z * lws) :=
  if owed_a_fin w && ((opcode w =? LWSWSOPC_TEXT_FRAME) || (opcode w =? LWSWSOPC_BINARY_FRAME))
  then protocol_err w (bs "bad fin")
  else
    let w := if (Z.land (opcode w) 8 =? 0) && final w
             then set_owed_a_fin false (set_continuation_possible false w) else w in
    let w := if negb (final w) then set_owed_a_fin true w else w in
    let w := set_lws_rx_parse_state LWS_RXPS_04_FRAME_HDR_LEN w in
    if rsv_refused (rsv w) then protocol_err w (bs "rsv bits")
    else Ok (0, w).

(** Cases LWSWSOPC_TEXT_FRAME and LWSWSOPC_BINARY_FRAME. *)
Definition start_message (w : lws) (c : Z) : res (Z * lws) :=
  let w := if opcode w =? LWSWSOPC_BINARY_FRAME then set_check_utf8 false w
           else set_check_utf8 (validate_utf8 cfg) w in
  if continuation_possible w then protocol_err w (bs "bad cont")
  else
    after_opcode
      (set_continuation_possible (negb (final w))
        (set_first_fragment true
          (set_frame_is_binary (opcode w =? LWSWSOPC_BINARY_FRAME)
            (set_rsv_first_msg (Z.land c 112) w)))).

Definition handle_first (w : lws) (c : Z) : res (Z * lws) :=
  let w := set_defeat_check_utf8 false
             (set_final (negb (Z.land (Z.shiftr c 7) 1 =? 0))
               (set_rsv (Z.land c 112) (set_opcode (Z.land c 15) w))) in
  if negb (Z.land (opcode w) 8 =? 0) && negb (final w) then protocol_err w (bs "frag ctl")
  else if (opcode w =? LWSWSOPC_TEXT_FRAME) || (opcode w =? LWSWSOPC_BINARY_FRAME)
  then start_message w c
  else if opcode w =? LWSWSOPC_CONTINUATION then
    if continuation_possible w then after_opcode w else protocol_err w (bs "bad cont")
  else if opcode w =? LWSWSOPC_CLOSE then after_opcode (set_utf8 0 (set_check_utf8 false w))
  else if (opcode w =? LWSWSOPC_PING) || (opcode w =? LWSWSOPC_PONG) then after_opcode w
  else protocol_err w (bs "bad opc").

(** *** A complete frame, or a full buffer *)

(** The label process_as_ping: keep the payload for the pong. *)
Definition process_as_ping (w : lws) : res (Z * lws) :=
  if 128 - 3 <? Z.of_nat (length (rx_ubuf w)) then Ok (0, set_rx_ubuf [] w)
  else
    buf ← memcpy (ping_payload_buf w) 0 (rx_ubuf w);
    let w := set_ping_payload_buf buf w in
    let w := set_ping_payload_len (u8 (Z.of_nat (length (rx_ubuf w)))) w in
    let w := set_ping_pending_flag true w in
    Ok (0, set_rx_ubuf [] (lws_callback_on_writable w)).

(** Close codes a peer may not send. *)
Definition bad_close_code (code : Z) : bool :=
  (code <? 1000) || (code =? 1004) || (code =? 1005) || (code =? 1006) || (code =? 1012)
  || (code =? 1013) || (code =? 1014) || (code =? 1015) || ((1016 <=? code) && (code <? 3000)).

(** The first two bytes of a close frame's payload, replaced by 1002 when they
    are not an allowed code. *)
Definition fix_close_code (b : list Z) : list Z :=
  match b with
  | b0 :: b1 :: rest =>
      if bad_close_code (Z.lor (Z.shiftl b0 8) b1)
      then Z.land (Z.shiftr LWS_CLOSE_STATUS_PROTOCOL_ERR 8) 255
           :: Z.land LWS_CLOSE_STATUS_PROTOCOL_ERR 255 :: rest
      else b
  | _ => b
  end.

(** Case LWSWSOPC_CLOSE of a frame that is the first close of the peer. *)
Definition peer_close (w : lws) : res (Z * lws) :=
  let w := set_peer_has_sent_close true w in
  let pp := rx_ubuf w in
  let '(bad, u) :=
    if validate_utf8 cfg && (2 <? Z.of_nat (length pp))
    then lws_check_utf8 (utf8 w) (drop 2 pp) else (0, utf8 w) in
  let w := set_utf8 u w in
  if negb (bad =? 0) then Ok (-1, w)
  else if bool_decide (wsistate w = LRS_AWAITING_CLOSE_ACK) then Ok (-1, w)
  else if bool_decide (wsistate w = LRS_RETURNED_CLOSE) then Ok (-1, w)
  else if partial_buffered w then Ok (-1, set_socket_is_permanently_unusable true w)
  else
    let w := set_rx_ubuf (fix_close_code pp) w in
    let '(r, w) := callback w (WS_PEER_INITIATED_CLOSE (rx_ubuf w)) in
    if negb (r =? 0) then Ok (-1, w)
    else process_as_ping (set_payload_is_close true (set_wsistate LRS_RETURNED_CLOSE w)).

(** From "it's real payload" on: [pong] says the callback is the pong's. *)
Definition deliver (w : lws) (no_cb pong : bool) : res (Z * lws) :=
  let token := rx_ubuf w in
  if bool_decide (wsistate w = LRS_RETURNED_CLOSE) || bool_decide (wsistate w = LRS_AWAITING_CLOSE_ACK)
  then Ok (0, set_rx_ubuf [] w)
  else if bool_decide (token = []) then Ok (0, set_rx_ubuf [] w)
  else
    let '(bad, u) :=
      if check_utf8 w && negb (defeat_check_utf8 w)
      then lws_check_utf8 (utf8 w) token else (0, utf8 w) in
    let w := set_utf8 u w in
    if negb (bad =? 0)
    then Ok (-1, lws_close_reason w LWS_CLOSE_STATUS_INVALID_PAYLOAD (bs "bad utf8"))
    else if check_utf8 w && negb (defeat_check_utf8 w)
            && (rx_packet_length w =? 0) && final w && negb (utf8 w =? 0)
    then Ok (-1, lws_close_reason w LWS_CLOSE_STATUS_INVALID_PAYLOAD (bs "partial utf8"))
    else if wsistate_pre_close w then Ok (0, set_rx_ubuf [] w)
    else
      (** [ebuf.token[ebuf.len] = 0] *)
      _ ← check (Z.of_nat (length token) <? rx_size cfg + 4) OutOfBounds;
      let '(r, w) :=
        if no_cb then (0, w)
        else callback w (if pong then RECEIVE_PONG token
                         else RECEIVE (first_fragment w) (is_final_fragment w) (frame_is_binary w) token) in
      Ok (r, set_rx_ubuf [] (set_first_fragment false w)).

Definition spill (w : lws) (no_cb : bool) : res (Z * lws) :=
  if (opcode w =? LWSWSOPC_CLOSE) && negb (peer_has_sent_close w) then peer_close w
  else if opcode w =? LWSWSOPC_CLOSE then deliver w no_cb false
  else if opcode w =? LWSWSOPC_PING then
    if ping_pending_flag w then Ok (0, set_rx_ubuf [] w) else process_as_ping w
  else if opcode w =? LWSWSOPC_PONG then
    let w := if pong_timeout w then set_pong_timeout false w else w in
    deliver w no_cb true
  else if (opcode w =? LWSWSOPC_TEXT_FRAME) || (opcode w =? LWSWSOPC_BINARY_FRAME)
          || (opcode w =? LWSWSOPC_CONTINUATION)
  then deliver w no_cb false
  else Ok (-1, w).

(** *** The other states *)

Definition frame_hdr_len (w : lws) (c : Z) (no_cb : bool) : res (Z * lws) :=
  let w := set_this_frame_masked (negb (Z.land c 128 =? 0)) w in
  let len := Z.land c 127 in
  if len =? 126 then
    if negb (Z.land (opcode w) 8 =? 0) then Ok (-1, w)
    else Ok (0, set_lws_rx_parse_state LWS_RXPS_04_FRAME_HDR_LEN16_2 w)
  else if len =? 127 then
    if negb (Z.land (opcode w) 8 =? 0) then Ok (-1, w)
    else Ok (0, set_lws_rx_parse_state LWS_RXPS_04_FRAME_HDR_LEN64_8 w)
  else
    let w := set_rx_packet_length len w in
    if this_frame_masked w then Ok (0, set_lws_rx_parse_state LWS_RXPS_07_COLLECT_FRAME_KEY_1 w)
    else if negb (rx_packet_length w =? 0)
    then Ok (0, set_lws_rx_parse_state LWS_RXPS_WS_FRAME_PAYLOAD w)
    else spill (set_lws_rx_parse_state LWS_RXPS_NEW w) no_cb.

(** [rx_packet_length |= c << k], then the next state. *)
Definition len_byte (w : lws) (c k : Z) (next : rxps) : res (Z * lws) :=
  Ok (0, set_lws_rx_parse_state next
           (set_rx_packet_length (u64 (Z.lor (rx_packet_length w) (Z.shiftl c k))) w)).

(** After the last byte of an extended length. *)
Definition after_len (w : lws) : rxps :=
  if this_frame_masked w then LWS_RXPS_07_COLLECT_FRAME_KEY_1 else LWS_RXPS_WS_FRAME_PAYLOAD.

(** [mask[i] = c], then the next state. *)
Definition key_byte (w : lws) (c : Z) (i : nat) (next : rxps) : lws :=
  let w := set_mask (<[i := c]> (mask w)) w in
  let w := if negb (c =? 0) then set_all_zero_nonce false w else w in
  set_lws_rx_parse_state next w.

Definition frame_key_4 (w : lws) (c : Z) (no_cb : bool) : res (Z * lws) :=
  let w := set_mask_idx 0 (key_byte w c 3 LWS_RXPS_WS_FRAME_PAYLOAD) in
  if rx_packet_length w =? 0 then spill (set_lws_rx_parse_state LWS_RXPS_NEW w) no_cb
  else Ok (0, w).

Definition frame_payload (w : lws) (c : Z) (ignore_char no_cb : bool) : res (Z * lws) :=
  if rx_size cfg <=? Z.of_nat (length (rx_ubuf w)) then Ok (-1, w)
  else
    let w :=
      if ignore_char then w
      else
        let w :=
          if all_zero_nonce w then set_rx_ubuf (rx_ubuf w ++ [c]) w
          else
            set_mask_idx (u8 (mask_idx w + 1))
              (set_rx_ubuf (rx_ubuf w ++ [Z.lxor c (nth (Z.to_nat (Z.land (mask_idx w) 3)) (mask w) 0)]) w) in
        set_rx_packet_length (u64 (rx_packet_length w - 1)) w in
    if rx_packet_length w =? 0 then spill (set_lws_rx_parse_state LWS_RXPS_NEW w) no_cb
    else if negb (Z.of_nat (length (rx_ubuf w)) =? rx_size cfg) then Ok (0, w)
    else spill w no_cb.

(** [ignore_char] and [no_cb] are the bits of [already_processed]. *)
Definition lws_ws_rx_sm (w : lws) (ignore_char no_cb : bool) (c : Z) : res (Z * lws) :=
  if socket_is_permanently_unusable w then Ok (-1, w)
  else
    match lws_rx_parse_state w with
    | LWS_RXPS_NEW =>
        if ietf_spec_revision w =? 13 then handle_first (set_all_zero_nonce true w) c
        else Ok (0, w)
    | LWS_RXPS_04_mask_1 => Ok (0, key_byte w c 1 LWS_RXPS_04_mask_2)
    | LWS_RXPS_04_mask_2 => Ok (0, key_byte w c 2 LWS_RXPS_04_mask_3)
    | LWS_RXPS_04_mask_3 => Ok (0, set_mask_idx 0 (key_byte w c 3 LWS_RXPS_04_FRAME_HDR_1))
    | LWS_RXPS_04_FRAME_HDR_1 => handle_first w c
    | LWS_RXPS_04_FRAME_HDR_LEN => frame_hdr_len w c no_cb
    | LWS_RXPS_04_FRAME_HDR_LEN16_2 =>
        Ok (0, set_lws_rx_parse_state LWS_RXPS_04_FRAME_HDR_LEN16_1
                 (set_rx_packet_length (Z.shiftl c 8) w))
    | LWS_RXPS_04_FRAME_HDR_LEN16_1 => len_byte w c 0 (after_len w)
    | LWS_RXPS_04_FRAME_HDR_LEN64_8 =>
        if negb (Z.land c 128 =? 0) then Ok (-1, w)
        else Ok (0, set_lws_rx_parse_state LWS_RXPS_04_FRAME_HDR_LEN64_7
                      (set_rx_packet_length (u64 (Z.shiftl c 56)) w))
    | LWS_RXPS_04_FRAME_HDR_LEN64_7 => len_byte w c 48 LWS_RXPS_04_FRAME_HDR_LEN64_6
    | LWS_RXPS_04_FRAME_HDR_LEN64_6 => len_byte w c 40 LWS_RXPS_04_FRAME_HDR_LEN64_5
    | LWS_RXPS_04_FRAME_HDR_LEN64_5 => len_byte w c 32 LWS_RXPS_04_FRAME_HDR_LEN64_4
    | LWS_RXPS_04_FRAME_HDR_LEN64_4 => len_byte w c 24 LWS_RXPS_04_FRAME_HDR_LEN64_3
    | LWS_RXPS_04_FRAME_HDR_LEN64_3 => len_byte w c 16 LWS_RXPS_04_FRAME_HDR_LEN64_2
    | LWS_RXPS_04_FRAME_HDR_LEN64_2 => len_byte w c 8 LWS_RXPS_04_FRAME_HDR_LEN64_1
    | LWS_RXPS_04_FRAME_HDR_LEN64_1 => len_byte w c 0 (after_len w)
    | LWS_RXPS_07_COLLECT_FRAME_KEY_1 => Ok (0, key_byte w c 0 LWS_RXPS_07_COLLECT_FRAME_KEY_2)
    | LWS_RXPS_07_COLLECT_FRAME_KEY_2 => Ok (0, key_byte w c 1 LWS_RXPS_07_COLLECT_FRAME_KEY_3)
    | LWS_RXPS_07_COLLECT_FRAME_KEY_3 => Ok (0, key_byte w c 2 LWS_RXPS_07_COLLECT_FRAME_KEY_4)
    | LWS_RXPS_07_COLLECT_FRAME_KEY_4 => frame_key_4 w c no_cb
    | LWS_RXPS_WS_FRAME_PAYLOAD => frame_payload w c ignore_char no_cb
    end.

(** ** Bulk payload, and the loop over what was read *)

(** The loop of four bytes at a time, and the bytewise rest. *)
Fixpoint unmask4 (key buffer : list Z) : list Z :=
  match buffer with
  | b0 :: b1 :: b2 :: b3 :: rest =>
      Z.lxor b0 (nth 0 key 0) :: Z.lxor b1 (nth 1 key 0) :: Z.lxor b2 (nth 2 key 0)
      :: Z.lxor b3 (nth 3 key 0) :: unmask4 key rest
  | _ => zip_with Z.lxor buffer key
  end.

(** The return value and the number of bytes of [buf] used are the same but
    for -1: [(r, used, w)].  The loop counter [n] keeps the number of bytes that
    were left over by the loop of four bytes, and the test for a message that
    ends inside a character is only made when there were none (the extensions,
    which would set [n], are not compiled in). *)
Definition lws_ws_frame_rest_is_payload (w : lws) (buf : list Z) : Z * nat * lws :=
  let avail := rx_size cfg in
  let avail := if rx_packet_length w <? avail then rx_packet_length w else avail in
  let avail := if Z.of_nat (length buf) <? avail then Z.of_nat (length buf) else avail in
  if avail =? 0 then (0, 0%nat, w)
  else
    let used := Z.to_nat avail in
    let '(token, n, w) :=
      if all_zero_nonce w then (take used buf, 0, w)
      else
        let key := (λ i, nth (Z.to_nat (Z.land (mask_idx w + i) 3)) (mask w) 0) <$> [0; 1; 2; 3] in
        (unmask4 key (take used buf), Z.land avail 3, set_mask_idx (Z.land (mask_idx w + avail) 3) w) in
    let w := set_rx_packet_length (u64 (rx_packet_length w - avail)) w in
    let '(bad, u) :=
      if check_utf8 w && negb (defeat_check_utf8 w)
      then lws_check_utf8 (utf8 w) token else (0, utf8 w) in
    let w := set_utf8 u w in
    if negb (bad =? 0)
    then (-1, used, lws_close_reason w LWS_CLOSE_STATUS_INVALID_PAYLOAD (bs "bad utf8"))
    else if check_utf8 w && negb (defeat_check_utf8 w)
            && (rx_packet_length w =? 0) && final w && negb (utf8 w =? 0) && (n =? 0)
    then (-1, used, lws_close_reason w LWS_CLOSE_STATUS_INVALID_PAYLOAD (bs "partial utf8"))
    else
      let '(r, w) :=
        if wsistate_pre_close w then (0, w)
        else callback w (RECEIVE (first_fragment w) (is_final_fragment w) (frame_is_binary w) token) in
      if negb (r =? 0) then (-1, used, w)
      else (avail, used, set_first_fragment false w).

(** The inner while: [inl] is the bail-out, else the state, the rest of the
    buffer and whether anything was handled in bulk.  Every round but the last
    uses a byte of the buffer. *)
Fixpoint bulk_loop (fuel : nat) (w : lws) (buf : list Z) (bulk : bool) : lws + lws * list Z * bool :=
  match fuel with
  | O => inr (w, buf, bulk)
  | S f =>
      if bool_decide (lws_rx_parse_state w = LWS_RXPS_WS_FRAME_PAYLOAD)
         && ((opcode w =? LWSWSOPC_TEXT_FRAME) || (opcode w =? LWSWSOPC_BINARY_FRAME)
             || (opcode w =? LWSWSOPC_CONTINUATION))
         && negb (bool_decide (buf = []))
      then
        let '(m, used, w) := lws_ws_frame_rest_is_payload w buf in
        let buf := drop used buf in
        if m =? 0 then inr (w, buf, true)
        else if m <? 0 then inl w
        else bulk_loop f w buf true
      else inr (w, buf, bulk)
  end.

(** The loop of [lws_parse_ws]: the return value, the state, and the bytes that
    were set aside because input was stopped.  Every round uses a byte, except
    one that leaves the payload state of an empty frame; so twice the length of
    the buffer is enough fuel. *)
Fixpoint parse_ws_loop (fuel : nat) (w : lws) (buf : list Z) : res (Z * lws * list Z) :=
  match fuel, buf with
  | O, _ | _, [] => Ok (0, w, [])
  | S f, _ =>
      if rxflow (log w) then Ok (1, w, buf)
      else
        match bulk_loop (S (length buf)) w buf false with
        | inl w => Ok (-1, w, [])
        | inr (w, buf, bulk) =>
            '(m, w, buf) ←
              (if bulk : bool then '(m, w) ← lws_ws_rx_sm w true true 0; Ok (m, w, buf)
               else match buf with
                    | c :: buf' => '(m, w) ← lws_ws_rx_sm w false false c; Ok (m, w, buf')
                    | [] => Ok (0, w, [])
                    end);
            if m <? 0 then Ok (-1, w, []) else parse_ws_loop f w buf
        end
  end.

Definition lws_parse_ws (w : lws) (buf : list Z) : res (Z * lws * list Z) :=
  parse_ws_loop (2 * length buf) w buf.
End rx.

(** ** Frames (RFC 6455, section 5.2) *)

Inductive len_form := Len7 | Len16 | Len64.

#[global] Instance len_form_eq_dec : EqDecision len_form.
Proof. solve_decision. Defined.

(** A frame without reserved bits; [f_key] is its masking key, if masked. *)
Record frame := Frame {
  f_fin : bool;
  f_opcode : Z;
  f_key : option (list Z);
  f_form : len_form;
  f_payload : list Z;
}.

Definition f_len (f : frame) : Z := Z.of_nat (length (f_payload f)).

(** The bytes of a number, most significant first. *)
Definition be_bytes (n z : Z) : list Z :=
  (λ i, (z `div` 2 ^ (8 * i)) `mod` 256) <$> reverse (seqZ 0 n).

Definition len_bytes (f : frame) : list Z :=
  let m := if f_key f is Some _ then 128 else 0 in
  match f_form f with
  | Len7 => [m + f_len f]
  | Len16 => (m + 126) :: be_bytes 2 (f_len f)
  | Len64 => (m + 127) :: be_bytes 8 (f_len f)
  end.

Definition frame_header (f : frame) : list Z :=
  ((if f_fin f then 128 else 0) + f_opcode f) :: len_bytes f ++ default [] (f_key f).

(** Masking, from position [i] of the payload. *)
Definition mask_from (key : list Z) (i : nat) (l : list Z) : list Z :=
  imap (λ j b, Z.lxor b (nth ((i + j) mod 4) key 0)) l.

Definition mask_payload (f : frame) : list Z :=
  match f_key f with Some key => mask_from key 0 (f_payload f) | None => f_payload f end.

Definition encode_frame (f : frame) : list Z := frame_header f ++ mask_payload f.

Definition is_data (f : frame) : bool :=
  (f_opcode f =? 0) || (f_opcode f =? 1) || (f_opcode f =? 2).

Definition is_control (f : frame) : bool :=
  (f_opcode f =? 8) || (f_opcode f =? 9) || (f_opcode f =? 10).

Definition wf_frame (f : frame) : Prop :=
  Forall is_byte (f_payload f)
  ∧ (match f_key f with Some key => length key = 4%nat ∧ Forall is_byte key | None => True end)
  ∧ (match f_form f with
     | Len7 => f_len f < 126 | Len16 => 0 < f_len f < 65536 | Len64 => 0 < f_len f < 2 ^ 63
     end)
  ∧ (is_data f = true ∨ is_control f = true ∧ f_fin f = true ∧ f_form f = Len7).

#[global] Instance wf_frame_dec f : Decision (wf_frame f).
Proof. unfold wf_frame. destruct (f_key f), (f_form f); apply _. Defined.

(** Two frames as on the wire, the example of RFC 6455, section 5.7. *)
Example masked_hello :
  encode_frame (Frame true 1 (Some [0x37; 0xfa; 0x21; 0x3d]) Len7 (bs "Hello"))
  = [0x81; 0x85; 0x37; 0xfa; 0x21; 0x3d; 0x7f; 0x9f; 0x4d; 0x51; 0x58].
Proof. vm_compute. reflexivity. Qed.

(** It is delivered, and so are a fragmented message and a ping between. *)
Example receive_examples :
  let cfg := Config 128 4096 true in
  let w0 := lws_server_init_wsi_for_ws in
  (λ '(r, w, c), (r, log w, c)) <$>
    (match lws_parse_ws cfg (λ _ _, 0) (λ _, false) w0
       [0x81; 0x85; 0x37; 0xfa; 0x21; 0x3d; 0x7f; 0x9f; 0x4d; 0x51; 0x58] with
     | Ok x => Some x | Fault _ => None end)
  = Some (0, [RECEIVE true true false (bs "Hello")], [])
  ∧ (λ '(r, w, c), (r, log w, c)) <$>
    (match lws_parse_ws cfg (λ _ _, 0) (λ _, false) w0
       ([0x01; 0x03] ++ bs "Hel" ++ [0x89; 0x02; 1; 2] ++ [0x80; 0x02] ++ bs "lo") with
     | Ok x => Some x | Fault _ => None end)
  = Some (0, [RECEIVE true false false (bs "Hel"); WRITEABLE_REQUESTED;
              RECEIVE false true false (bs "lo")], []).
Proof. vm_compute. done. Qed.
