(* ===== verification/WsRecv.v ===== *)
(** * What the receive path delivers

    The theorems about the websocket receive path of [WsRx]: which frames are
    accepted, what is delivered of them however the bytes are split over reads,
    and that the receive buffer is never overrun.  The specification is a
    connection that takes whole frames ([frame_next], [frame_events]); the proof
    follows a frame through its header, its length, its key and its payload. *)

From stdpp Require Import base numbers list strings.
From Stdlib Require Import ZArith Lia Ascii.
From S2P Require Import Prelude CommPlugin Utf8 WsRx.

(** ** Between frames *)

(** A connection that is ready for the next frame, [inmsg] telling whether a
    fragmented message is open. *)
Record ready (w : lws) (inmsg : bool) : Prop := {
  rd_state : lws_rx_parse_state w = LWS_RXPS_NEW;
  rd_usable : socket_is_permanently_unusable w = false;
  rd_spec : ietf_spec_revision w = 13;
  rd_cont : continuation_possible w = inmsg;
  rd_owed : owed_a_fin w = inmsg;
  rd_ubuf : rx_ubuf w = [];
  rd_lrs : wsistate w = LRS_ESTABLISHED;
  rd_pre : wsistate_pre_close w = false;
  rd_mask : length (mask w) = 4%nat;
  rd_ping : length (ping_payload_buf w) = 125%nat;
}.

(** The fragmentation rules: a continuation only inside a message, a new
    message only outside. *)
Definition follows (inmsg : bool) (op : Z) : bool :=
  if op =? 0 then inmsg else if (op =? 1) || (op =? 2) then negb inmsg else true.

(** RFC 6455, 5.2, 5.4 and 5.5, of the first byte of a frame; RSV1 is let
    through. *)
Definition legal_first (inmsg : bool) (c : Z) : bool :=
  let op := Z.land c 15 in
  let fin := negb (Z.land c 128 =? 0) in
  (existsb (Z.eqb op) [0; 1; 2; 8; 9; 10]) && (if 8 <=? op then fin else true)
  && follows inmsg op && (Z.land c 48 =? 0).

(** The fields of the first byte. *)
Lemma first_byte_fields c :
  is_byte c →
  0 <= Z.land c 15 < 16
  ∧ Z.land (Z.shiftr c 7) 1 = (if Z.land c 128 =? 0 then 0 else 1)
  ∧ Z.land (Z.land c 112) (Z.lnot 64) = Z.land c 48.
Proof.
  revert c. apply (forall_bytes_dec (λ c, 0 <= Z.land c 15 < 16 ∧ _)). vm_compute. reflexivity.
Qed.

Lemma opcode_cases op :
  0 <= op < 16 →
  op = 0 ∨ op = 1 ∨ op = 2 ∨ op = 8 ∨ op = 9 ∨ op = 10
  ∨ (existsb (Z.eqb op) [0; 1; 2; 8; 9; 10] = false
     ∧ (op =? LWSWSOPC_TEXT_FRAME) || (op =? LWSWSOPC_BINARY_FRAME) = false
     ∧ (op =? LWSWSOPC_CONTINUATION) = false ∧ (op =? LWSWSOPC_CLOSE) = false
     ∧ (op =? LWSWSOPC_PING) || (op =? LWSWSOPC_PONG) = false).
Proof.
  intros H. destruct (existsb (Z.eqb op) [0; 1; 2; 8; 9; 10]) eqn:E.
  - cbn in E. rewrite !orb_true_iff, !Z.eqb_eq in E. naive_solver.
  - do 6 right. split; [done|]. cbn in E. rewrite !orb_false_iff in E.
    destruct E as (E0 & E1 & E2 & E8 & E9 & E10 & _).
    unfold LWSWSOPC_TEXT_FRAME, LWSWSOPC_BINARY_FRAME, LWSWSOPC_CONTINUATION, LWSWSOPC_CLOSE,
      LWSWSOPC_PING, LWSWSOPC_PONG.
    by rewrite E0, E1, E2, E8, E9, E10.
Qed.

(** A refusal with a protocol error: the close code 1002 is prepared. *)
Definition refused (r : res (Z * lws)) : Prop :=
  ∃ w, r = Ok (-1, w) ∧ take 2 (ping_payload_buf w) = [3; 234] ∧ 2 <= close_in_ping_buffer_len w.

Lemma protocol_err_refused w text :
  refused (protocol_err w text).
Proof.
  unfold protocol_err, lws_close_reason. eexists. split; [reflexivity|].
  cbn [ping_payload_buf close_in_ping_buffer_len set_close_in_ping_buffer_len set_ping_payload_buf].
  split; [reflexivity|]. cbn [length].
  assert (length (take (125 - 2) text) ≤ 123)%nat as H by (rewrite length_take; lia).
  rewrite u8_small; lia.
Qed.

(** The state after an accepted first byte. *)
Definition opened (cfg : config) (w : lws) (op : Z) (fin : bool) (w' : lws) : Prop :=
  lws_rx_parse_state w' = LWS_RXPS_04_FRAME_HDR_LEN ∧ opcode w' = op ∧ final w' = fin
  ∧ all_zero_nonce w' = true ∧ defeat_check_utf8 w' = false
  ∧ socket_is_permanently_unusable w' = false ∧ ietf_spec_revision w' = 13
  ∧ continuation_possible w' = (if op <? 8 then negb fin else continuation_possible w)
  ∧ owed_a_fin w' = (if op <? 8 then negb fin else owed_a_fin w)
  ∧ check_utf8 w' = (if op =? 1 then validate_utf8 cfg
                     else if (op =? 2) || (op =? 8) then false else check_utf8 w)
  ∧ utf8 w' = (if op =? 8 then 0 else utf8 w)
  ∧ frame_is_binary w' = (if op =? 1 then false else if op =? 2 then true else frame_is_binary w)
  ∧ first_fragment w' = (if (op =? 1) || (op =? 2) then true else first_fragment w)
  ∧ rx_ubuf w' = rx_ubuf w ∧ wsistate w' = wsistate w ∧ wsistate_pre_close w' = wsistate_pre_close w
  ∧ mask w' = mask w ∧ mask_idx w' = mask_idx w
  ∧ ping_payload_buf w' = ping_payload_buf w ∧ ping_payload_len w' = ping_payload_len w
  ∧ ping_pending_flag w' = ping_pending_flag w ∧ peer_has_sent_close w' = peer_has_sent_close w
  ∧ pong_timeout w' = pong_timeout w ∧ partial_buffered w' = partial_buffered w
  ∧ log w' = log w.

(** Evaluate tests of a concrete opcode. *)
Ltac eval_opcode :=
  repeat (cbn -[bs protocol_err rsv_refused];
    match goal with |- context [Z.land (Z.pos ?a) 8] =>
      let v := eval vm_compute in (Z.land (Z.pos a) 8) in change (Z.land (Z.pos a) 8) with v
    | |- context [Z.land 0 8] => change (Z.land 0 8) with 0 end);
  cbn -[bs protocol_err rsv_refused].

Section rx_lemmas.
Context (cfg : config) (cb : list event → event → Z).

Lemma first_byte w inmsg c :
  ready w inmsg → is_byte c →
  if legal_first inmsg c
  then ∃ w', lws_ws_rx_sm cfg cb w false false c = Ok (0, w')
             ∧ opened cfg w (Z.land c 15) (negb (Z.land c 128 =? 0)) w'
  else refused (lws_ws_rx_sm cfg cb w false false c).
Proof.
  intros [R1 R2 R3 R4 R5 R6 R7 R8 R9 R10] Hc.
  destruct (first_byte_fields c Hc) as (Hop & Hfin & Hrsv).
  unfold lws_ws_rx_sm. rewrite R2, R1, R3. cbn [Z.eqb Pos.eqb]. unfold handle_first.
  rewrite Hfin.
  assert (negb ((if Z.land c 128 =? 0 then 0 else 1) =? 0) = negb (Z.land c 128 =? 0)) as ->
    by (by destruct (Z.land c 128 =? 0)).
  unfold legal_first.
  assert (rsv_refused (Z.land c 112) = negb (Z.land c 48 =? 0)) as Erc.
  { unfold rsv_refused. rewrite Hrsv. destruct (Z.eqb_spec (Z.land c 112) 0) as [E|]; [|done].
    rewrite E in Hrsv. cbn in Hrsv. by rewrite <- Hrsv. }
  unfold start_message, after_opcode.
  revert Hop Erc.
  generalize (Z.land c 15) (negb (Z.land c 128 =? 0)) (Z.land c 112) (Z.land c 48 =? 0).
  intros op fin rs z Hop Erc. clear Hfin Hrsv Hc.
  destruct w. cbn -[bs protocol_err rsv_refused] in *. subst.
  destruct (opcode_cases op Hop) as [->|[->|[->|[->|[->|[->|(E0 & E1 & E2 & E3 & E4)]]]]]].
  7:{ cbn in E0. rewrite E0, E1, E2, E3, E4. cbn [andb].
      destruct (negb (Z.land op 8 =? 0) && negb fin); apply protocol_err_refused. }
  all: destruct fin, inmsg, z; eval_opcode; rewrite ?Erc;
    try apply protocol_err_refused;
    (eexists; split; [reflexivity|]; unfold opened; cbn; repeat split).
Qed.

(** *** The rest of the header *)

(** The bytes of a header are handled one at a time. *)
Fixpoint hdr_steps (w : lws) (l : list Z) (w' : lws) : Prop :=
  match l with
  | [] => w = w'
  | c :: l' =>
      lws_rx_parse_state w ≠ LWS_RXPS_WS_FRAME_PAYLOAD
      ∧ ∃ w1, lws_ws_rx_sm cfg cb w false false c = Ok (0, w1) ∧ hdr_steps w1 l' w'
  end.

Lemma hdr_steps_app w l1 w1 l2 w2 :
  hdr_steps w l1 w1 → hdr_steps w1 l2 w2 → hdr_steps w (l1 ++ l2) w2.
Proof.
  revert w. induction l1 as [|c l1 IH]; intros w; cbn; [by intros ->|].
  intros (Hs & w' & E & H) H2. split; [done|]. exists w'. auto.
Qed.

(** What the payload of a data frame leaves alone, and what also the length
    and key bytes leave alone. *)
Definition dcore (w : lws) :=
  (opcode w, final w, check_utf8 w, defeat_check_utf8 w,
   (socket_is_permanently_unusable w, ietf_spec_revision w),
   (continuation_possible w, owed_a_fin w, frame_is_binary w),
   (rx_ubuf w, wsistate w, wsistate_pre_close w, peer_has_sent_close w),
   (ping_payload_buf w, ping_payload_len w, ping_pending_flag w),
   (pong_timeout w, partial_buffered w)).

Definition core (w : lws) := (dcore w, utf8 w, first_fragment w, log w).

Lemma len_acc L k :
  0 <= L < 2 ^ 63 → 0 <= k →
  u64 (Z.lor (L `div` 2 ^ (k + 8) * 2 ^ (k + 8)) (Z.shiftl ((L `div` 2 ^ k) `mod` 256) k))
  = L `div` 2 ^ k * 2 ^ k.
Proof.
  intros HL Hk. pose proof (Z.pow_pos_nonneg 2 k ltac:(lia) Hk) as Hp.
  assert (2 ^ (k + 8) = 256 * 2 ^ k) as E by (rewrite Z.pow_add_r by lia; lia).
  pose proof (Z.mod_pos_bound (L `div` 2 ^ k) 256 ltac:(lia)) as Hm.
  rewrite <- (Z.shiftl_mul_pow2 (L `div` _)) by lia. rewrite lor_shiftl_add.
  - assert (L `div` 2 ^ (k + 8) * 2 ^ (k + 8) + Z.shiftl ((L `div` 2 ^ k) `mod` 256) k
            = L `div` 2 ^ k * 2 ^ k) as ->.
    { rewrite Z.shiftl_mul_pow2, E by lia. rewrite Z.mul_comm with (n := 256), <- Z.div_div by lia.
      pose proof (Z.div_mod (L `div` 2 ^ k) 256). nia. }
    apply u64_small. pose proof (Z.mul_div_le L (2 ^ k) Hp). pose proof (Z.div_pos L (2 ^ k)). nia.
  - lia.
  - rewrite Z.shiftl_mul_pow2, E by lia. nia.
Qed.

(** A byte of the length: the low bits of the length are still to come. *)
Lemma len_byte_acc w L k next :
  0 <= L < 2 ^ 63 → 0 <= k → rx_packet_length w = L `div` 2 ^ (k + 8) * 2 ^ (k + 8) →
  len_byte w ((L `div` 2 ^ k) `mod` 256) k next
  = Ok (0, set_lws_rx_parse_state next (set_rx_packet_length (L `div` 2 ^ k * 2 ^ k) w)).
Proof. intros HL Hk E. unfold len_byte. by rewrite E, len_acc. Qed.

Lemma len7_fields (l : Z) :
  is_byte l → l < 128 →
  Z.land (128 + l) 127 = l ∧ Z.land (128 + l) 128 = 128 ∧ Z.land (0 + l) 127 = l ∧ Z.land (0 + l) 128 = 0.
Proof.
  revert l. apply (forall_bytes_dec (λ l, l < 128 → Z.land (128 + l) 127 = l ∧ _)). vm_compute. reflexivity.
Qed.

(** The state after the length bytes of [f]. *)
Definition len_read (f : frame) (w w' : lws) : Prop :=
  core w' = core w ∧ mask w' = mask w ∧ mask_idx w' = mask_idx w ∧ all_zero_nonce w' = all_zero_nonce w
  ∧ rx_packet_length w' = f_len f
  ∧ this_frame_masked w' = (if f_key f is Some _ then true else false)
  ∧ lws_rx_parse_state w' = after_len w'.

Lemma hdr_len_ext w (m : bool) (l : Z) :
  l = 126 ∨ l = 127 → Z.land (opcode w) 8 = 0 →
  frame_hdr_len cfg cb w ((if m then 128 else 0) + l) false
  = Ok (0, set_lws_rx_parse_state
             (if l =? 126 then LWS_RXPS_04_FRAME_HDR_LEN16_2 else LWS_RXPS_04_FRAME_HDR_LEN64_8)
             (set_this_frame_masked m w)).
Proof.
  intros Hl Hop. unfold frame_hdr_len. destruct Hl as [-> | ->].
  - destruct (len7_fields 126) as (A & B & C & D); [by_compute|lia|].
    destruct m; rewrite ?A, ?B, ?C, ?D; cbn [Z.eqb Pos.eqb negb];
      by rewrite (Hop : Z.land (opcode (set_this_frame_masked _ w)) 8 = 0).
  - destruct (len7_fields 127) as (A & B & C & D); [by_compute|lia|].
    destruct m; rewrite ?A, ?B, ?C, ?D; cbn [Z.eqb Pos.eqb negb];
      by rewrite (Hop : Z.land (opcode (set_this_frame_masked _ w)) 8 = 0).
Qed.

Lemma rx_sm_at w s c :
  lws_rx_parse_state w = s → socket_is_permanently_unusable w = false →
  lws_ws_rx_sm cfg cb w false false c
  = lws_ws_rx_sm cfg cb (set_lws_rx_parse_state s w) false false c.
Proof. intros <- H. by destruct w. Qed.

(** One more byte of a header. *)
Lemma hdr_steps_cons w c w1 l w' :
  lws_rx_parse_state w ≠ LWS_RXPS_WS_FRAME_PAYLOAD →
  lws_ws_rx_sm cfg cb w false false c = Ok (0, w1) → hdr_steps w1 l w' → hdr_steps w (c :: l) w'.
Proof. intros. split; [done|]. by exists w1. Qed.

Lemma len7_steps f w :
  lws_rx_parse_state w = LWS_RXPS_04_FRAME_HDR_LEN → socket_is_permanently_unusable w = false →
  f_form f = Len7 → 0 < f_len f < 126 →
  ∃ w', hdr_steps w (len_bytes f) w' ∧ len_read f w w'.
Proof.
  intros Hs Hu Hf HL. unfold len_bytes. rewrite Hf.
  destruct (len7_fields (f_len f)) as (A & B & C & D); [unfold is_byte; lia|lia|].
  assert (∃ w', frame_hdr_len cfg cb w ((if f_key f then 128 else 0) + f_len f) false = Ok (0, w')
                ∧ len_read f w w') as (w' & E & Hr).
  { unfold frame_hdr_len.
    destruct (f_key f) eqn:Ek; rewrite ?A, ?B, ?C, ?D; cbn [Z.eqb Pos.eqb negb];
      rewrite (proj2 (Z.eqb_neq (f_len f) 126)), (proj2 (Z.eqb_neq (f_len f) 127)) by lia; cbv zeta;
      cbn [this_frame_masked set_this_frame_masked set_rx_packet_length rx_packet_length];
      rewrite ?(proj2 (Z.eqb_neq (f_len f) 0)) by lia; cbn [negb];
      (eexists; split; [reflexivity|]); unfold len_read; rewrite Ek; repeat split. }
  exists w'. split; [|done]. eapply hdr_steps_cons; [by rewrite Hs| |reflexivity].
  unfold lws_ws_rx_sm. by rewrite Hu, Hs.
Qed.

Lemma len16_steps f w :
  lws_rx_parse_state w = LWS_RXPS_04_FRAME_HDR_LEN → socket_is_permanently_unusable w = false →
  Z.land (opcode w) 8 = 0 → f_form f = Len16 → 0 < f_len f < 65536 →
  ∃ w', hdr_steps w (len_bytes f) w' ∧ len_read f w w'.
Proof.
  intros Hs Hu Hop Hf HL. unfold len_bytes. rewrite Hf. set (L := f_len f) in *.
  change (be_bytes 2 L) with [(L `div` 2 ^ 8) `mod` 256; (L `div` 2 ^ 0) `mod` 256].
  set (masked := if f_key f is Some _ then true else false).
  assert ((if f_key f then 128 else 0) = if masked then 128 else 0) as -> by (subst masked; by destruct (f_key f)).
  eexists. split.
  - eapply hdr_steps_cons; [by rewrite Hs| |].
    { unfold lws_ws_rx_sm. rewrite Hu, Hs. apply hdr_len_ext; [by left|done]. }
    eapply hdr_steps_cons; [done| |].
    { unfold lws_ws_rx_sm. cbn [socket_is_permanently_unusable set_lws_rx_parse_state set_this_frame_masked].
      rewrite Hu. reflexivity. }
    eapply hdr_steps_cons; [done| |reflexivity].
    unfold lws_ws_rx_sm. cbn [socket_is_permanently_unusable set_lws_rx_parse_state set_this_frame_masked
      set_rx_packet_length lws_rx_parse_state]. rewrite Hu.
    apply len_byte_acc; [lia|lia|]. cbn [rx_packet_length set_lws_rx_parse_state set_rx_packet_length].
    rewrite Z.shiftl_mul_pow2 by lia. rewrite (Z.mod_small (L `div` 2 ^ 8)); [done|].
    split; [apply Z.div_pos; lia|apply Z.div_lt_upper_bound; lia].
  - unfold len_read. repeat split; try done. cbn. by rewrite Z.div_1_r, Z.mul_1_r.
Qed.

Lemma len64_steps f w :
  lws_rx_parse_state w = LWS_RXPS_04_FRAME_HDR_LEN → socket_is_permanently_unusable w = false →
  Z.land (opcode w) 8 = 0 → f_form f = Len64 → 0 < f_len f < 2 ^ 63 →
  ∃ w', hdr_steps w (len_bytes f) w' ∧ len_read f w w'.
Proof.
  intros Hs Hu Hop Hf HL. unfold len_bytes. rewrite Hf. set (L := f_len f) in *.
  change (be_bytes 8 L) with ((λ i, (L `div` 2 ^ (8 * i)) `mod` 256) <$> [7; 6; 5; 4; 3; 2; 1; 0]).
  cbn [fmap list_fmap]. cbn [Z.mul Pos.mul Pos.add].
  set (masked := if f_key f is Some _ then true else false).
  assert ((if f_key f then 128 else 0) = if masked then 128 else 0) as -> by (subst masked; by destruct (f_key f)).
  assert (0 <= L `div` 2 ^ 56 < 128) as Htop.
  { split; [apply Z.div_pos; lia|apply Z.div_lt_upper_bound; lia]. }
  destruct (len7_fields (L `div` 2 ^ 56)) as (_ & _ & _ & D); [unfold is_byte; lia|lia|].
  rewrite Z.add_0_l in D.
  eexists. split.
  - eapply hdr_steps_cons; [by rewrite Hs| |].
    { unfold lws_ws_rx_sm. rewrite Hu, Hs. apply hdr_len_ext; [by right|done]. }
    eapply hdr_steps_cons; [done| |].
    { unfold lws_ws_rx_sm. cbn [socket_is_permanently_unusable set_lws_rx_parse_state set_this_frame_masked
        lws_rx_parse_state Z.eqb Pos.eqb].
      rewrite Hu, (Z.mod_small (L `div` 2 ^ 56)), D by lia. cbn [Z.eqb negb].
      rewrite Z.shiftl_mul_pow2, u64_small; [reflexivity| |lia].
      pose proof (Z.mul_div_le L (2 ^ 56) ltac:(lia)). lia. }
    do 7 (eapply hdr_steps_cons; [done| |];
      [unfold lws_ws_rx_sm; cbn [socket_is_permanently_unusable set_lws_rx_parse_state set_this_frame_masked
         lws_rx_parse_state set_rx_packet_length]; rewrite Hu; apply len_byte_acc; [lia|lia|reflexivity]|]).
    reflexivity.
  - unfold len_read. repeat split; try done. cbn [rx_packet_length set_lws_rx_parse_state set_rx_packet_length].
    by rewrite Z.pow_0_r, Z.div_1_r, Z.mul_1_r.
Qed.

(** The masking key. *)
Lemma key_steps w key :
  lws_rx_parse_state w = LWS_RXPS_07_COLLECT_FRAME_KEY_1 → socket_is_permanently_unusable w = false →
  all_zero_nonce w = true → length (mask w) = 4%nat → length key = 4%nat → rx_packet_length w ≠ 0 →
  ∃ w', hdr_steps w key w' ∧ core w' = core w ∧ mask w' = key ∧ mask_idx w' = 0
    ∧ all_zero_nonce w' = bool_decide (key = [0; 0; 0; 0])
    ∧ rx_packet_length w' = rx_packet_length w ∧ lws_rx_parse_state w' = LWS_RXPS_WS_FRAME_PAYLOAD.
Proof.
  intros Hs Hu Hz Hm Hk Hl. destruct w. cbn in Hs, Hu, Hz, Hm, Hl. subst.
  match type of Hm with length ?m = _ => destruct m as [|m0 [|m1 [|m2 [|m3 [|]]]]] end; try discriminate Hm.
  destruct key as [|k0 [|k1 [|k2 [|k3 [|]]]]]; try discriminate Hk.
  assert (bool_decide ([k0; k1; k2; k3] = [0; 0; 0; 0])
          = (k0 =? 0) && (k1 =? 0) && (k2 =? 0) && (k3 =? 0)) as ->.
  { apply eq_true_iff_eq. rewrite bool_decide_eq_true, !andb_true_iff, !Z.eqb_eq.
    split; [by intros [= -> -> -> ->]|by intros [[[-> ->] ->] ->]]. }
  destruct (k0 =? 0) eqn:E0, (k1 =? 0) eqn:E1, (k2 =? 0) eqn:E2, (k3 =? 0) eqn:E3; eexists.
  all: split; [do 3 (eapply hdr_steps_cons; [done|
                 unfold lws_ws_rx_sm, key_byte; cbn; rewrite ?E0, ?E1, ?E2, ?E3; cbn; reflexivity|]);
               eapply hdr_steps_cons; [done| |reflexivity];
               unfold lws_ws_rx_sm, key_byte; cbn; unfold frame_key_4; cbn;
               rewrite ?E0, ?E1, ?E2, ?E3; cbn; rewrite (proj2 (Z.eqb_neq _ _) Hl); reflexivity|].
  all: unfold key_byte; rewrite ?E0, ?E1, ?E2, ?E3; repeat split.
Qed.

(** *** Unmasking *)

(** The key in [w] is in step with position [j] of the payload of [f]. *)
Definition unmask_ok (f : frame) (w : lws) (j : Z) : Prop :=
  if all_zero_nonce w then mask_payload f = f_payload f
  else f_key f = Some (mask w) ∧ length (mask w) = 4%nat
       ∧ 0 <= mask_idx w ∧ mask_idx w `mod` 4 = j `mod` 4.

Lemma land3 x : Z.land x 3 = x `mod` 4.
Proof. by rewrite (land_mask x 2 3). Qed.

Lemma unmask4_from key l :
  length key = 4%nat → unmask4 key l = mask_from key 0 l.
Proof.
  intros Hk. destruct key as [|k0 [|k1 [|k2 [|k3 [|]]]]]; try discriminate Hk.
  enough (∀ n i l, (length l ≤ n)%nat →
    unmask4 [k0; k1; k2; k3] l = imap (λ j b, Z.lxor b (nth ((4 * i + j) mod 4) [k0; k1; k2; k3] 0)) l) as H
    by apply (H (length l) 0%nat l (le_n _)).
  clear. induction n as [|n IH]; intros i l Hl; [by destruct l; [|cbn in Hl; lia]|].
  assert (∀ j, (4 * i + j) mod 4 = j mod 4)%nat as Hm.
  { intros j. rewrite Nat.add_comm, Nat.mul_comm. apply Nat.Div0.mod_add. }
  destruct l as [|b0 [|b1 [|b2 [|b3 l]]]]; cbn [imap unmask4 zip_with]; unfold compose; rewrite ?Hm; try done.
  do 4 f_equal. rewrite (IH (S i)) by (cbn in Hl; lia). apply imap_ext. intros j b _.
  unfold compose. by replace (4 * i + S (S (S (S j))))%nat with (4 * S i + j)%nat by lia.
Qed.

(** Masking is undone by the same key in step. *)
Lemma mask_from_twice key key' i l :
  (∀ j, nth (j mod 4) key' 0 = nth ((i + j) mod 4) key 0) →
  mask_from key' 0 (mask_from key i l) = l.
Proof.
  intros Hk. unfold mask_from. apply list_eq. intros j. rewrite !list_lookup_imap.
  destruct (l !! j) as [b|]; cbn [fmap option_fmap option_map]; [|done]. rewrite Nat.add_0_l, Hk.
  by rewrite Z.lxor_assoc, Z.lxor_nilpotent, Z.lxor_0_r.
Qed.

Lemma mask_from_slice key j k l :
  take k (drop j (mask_from key 0 l)) = mask_from key j (take k (drop j l)).
Proof.
  unfold mask_from. apply list_eq. intros i.
  destruct (decide (i < k)%nat) as [Hi|Hi].
  - rewrite lookup_take_lt, lookup_drop by done. rewrite !list_lookup_imap.
    rewrite lookup_take_lt, lookup_drop by done. done.
  - rewrite lookup_take_ge by lia. rewrite list_lookup_imap, lookup_take_ge by lia. done.
Qed.

Lemma length_mask_payload f : length (mask_payload f) = length (f_payload f).
Proof. unfold mask_payload, mask_from. destruct (f_key f); [apply length_imap|done]. Qed.

Lemma bulk_unmask f w (j n : nat) buf :
  unmask_ok f w (Z.of_nat j) → take n buf = take n (drop j (mask_payload f)) →
  (if all_zero_nonce w then take n buf
   else unmask4 ((λ i, nth (Z.to_nat (Z.land (mask_idx w + i) 3)) (mask w) 0) <$> [0; 1; 2; 3]) (take n buf))
  = take n (drop j (f_payload f)).
Proof.
  unfold unmask_ok. intros Hu Hb. rewrite Hb. destruct (all_zero_nonce w); [by rewrite Hu|].
  destruct Hu as (Hk & Hl & Hi & Hm). rewrite unmask4_from by done.
  unfold mask_payload. rewrite Hk, mask_from_slice. apply mask_from_twice.
  intros i.
  assert (∀ x, 0 <= x < 4 → nth (Z.to_nat ((mask_idx w + x) `mod` 4)) (mask w) 0
                            = nth ((j + Z.to_nat x) mod 4) (mask w) 0) as Hx.
  { intros x Hx. f_equal. rewrite <- Zplus_mod_idemp_l, Hm, Zplus_mod_idemp_l.
    apply Nat2Z.inj. rewrite Nat2Z.inj_mod, Z2Nat.id by (apply Z.mod_pos_bound; lia).
    f_equal. lia. }
  rewrite <- (Nat.Div0.add_mod_idemp_r j i 4).
  pose proof (Nat.mod_upper_bound i 4 ltac:(lia)) as Hi4.
  destruct (i mod 4)%nat as [|[|[|[|k]]]] eqn:E; [..|lia]; cbn [nth fmap list_fmap]; rewrite land3, Hx by lia; done.
Qed.

(** *** The payload of a data frame *)

(** The callbacks for the pieces [ds] of one frame; [fin] marks the last. *)
Fixpoint pieces (first bin fin : bool) (ds : list (list Z)) : list event :=
  match ds with
  | [] => []
  | [d] => [RECEIVE first fin bin d]
  | d :: ds' => RECEIVE first false bin d :: pieces false bin fin ds'
  end.

Lemma pieces_snoc first bin fin ds d :
  pieces first bin fin (ds ++ [d])
  = pieces first bin false ds ++ [RECEIVE (if ds is [] then first else false) fin bin d].
Proof.
  revert first. induction ds as [|a ds IH]; intros first; [done|].
  destruct ds as [|b ds]; [done|]. cbn [app pieces] in *. f_equal. apply IH.
Qed.

(** The data frame [f], whose header left the state [w1], is read up to
    position [j] of its payload, and was passed on as [ds]. *)
Record inpay (w1 : lws) (f : frame) (w : lws) (j : nat) (ds : list (list Z)) : Prop := {
  ip_core : dcore w = dcore w1;
  ip_state : lws_rx_parse_state w = LWS_RXPS_WS_FRAME_PAYLOAD;
  ip_len : rx_packet_length w = f_len f - Z.of_nat j;
  ip_j : (j ≤ length (f_payload f))%nat;
  ip_mask : unmask_ok f w (Z.of_nat j);
  ip_data : concat ds = take j (f_payload f);
  ip_piece : Forall (λ d, d ≠ [] ∧ Z.of_nat (length d) <= rx_size cfg) ds;
  ip_first : first_fragment w = (if ds is [] then first_fragment w1 else false);
  ip_log : log w = log w1 ++ pieces (first_fragment w1) (frame_is_binary w1)
                               (final w1 && bool_decide (j = length (f_payload f))) ds;
  ip_utf8 : if check_utf8 w1 then Utf8.run (utf8 w1) (take j (f_payload f)) = Some (utf8 w)
            else utf8 w = utf8 w1;
  ip_masklen : length (mask w) = 4%nat;
}.

(** The payload passes the UTF-8 check, when there is one. *)
Definition text_ok (w1 : lws) (f : frame) : Prop :=
  check_utf8 w1 = true →
  ∃ s, Utf8.run (utf8 w1) (f_payload f) = Some s ∧ (final w1 = true → s = 0).

Lemma text_ok_prefix w1 f j :
  text_ok w1 f → check_utf8 w1 = true →
  ∃ s, Utf8.run (utf8 w1) (take j (f_payload f)) = Some s.
Proof.
  intros Ht Hc. destruct (Ht Hc) as (s & Hs & _).
  rewrite <- (take_drop j (f_payload f)), utf8_run_app in Hs.
  destruct (run (utf8 w1) (take j (f_payload f))) as [s'|]; [by exists s'|done].
Qed.

Lemma dcore_fields w w1 :
  dcore w = dcore w1 →
  opcode w = opcode w1 ∧ final w = final w1 ∧ check_utf8 w = check_utf8 w1
  ∧ defeat_check_utf8 w = defeat_check_utf8 w1 ∧ frame_is_binary w = frame_is_binary w1
  ∧ wsistate_pre_close w = wsistate_pre_close w1 ∧ rx_ubuf w = rx_ubuf w1
  ∧ wsistate w = wsistate w1 ∧ socket_is_permanently_unusable w = socket_is_permanently_unusable w1.
Proof. unfold dcore. intros [=]. repeat split; assumption. Qed.

Lemma core_fields w w1 :
  core w = core w1 →
  dcore w = dcore w1 ∧ utf8 w = utf8 w1 ∧ first_fragment w = first_fragment w1 ∧ log w = log w1.
Proof.
  intros H. split; [exact (f_equal (λ x, x.1.1.1) H)|]. split; [exact (f_equal (λ x, x.1.1.2) H)|].
  split; [exact (f_equal (λ x, x.1.2) H)|exact (f_equal (λ x, x.2) H)].
Qed.

(** The state after [k] more bytes were unmasked and counted. *)
Lemma unmask_ok_advance f w j k :
  unmask_ok f w j → 0 <= k →
  let w' := if all_zero_nonce w then w else set_mask_idx (Z.land (mask_idx w + k) 3) w in
  unmask_ok f w' (j + k).
Proof.
  unfold unmask_ok. intros H Hk. cbv zeta. destruct (all_zero_nonce w) eqn:E; [by rewrite E|].
  cbn [all_zero_nonce set_mask_idx mask mask_idx]. rewrite E.
  destruct H as (H1 & H2 & H3 & H4). rewrite land3.
  pose proof (Z.mod_pos_bound (mask_idx w + k) 4 ltac:(lia)).
  repeat split; try done; [lia|].
  rewrite Zmod_mod. rewrite <- Zplus_mod_idemp_l, H4. by rewrite Zplus_mod_idemp_l.
Qed.

Lemma min3 a b c :
  (let x := if b <? a then b else a in if c <? x then c else x) = Z.min a (Z.min b c).
Proof. cbv zeta. destruct (Z.ltb_spec b a); zcases; lia. Qed.

Context (Hcb : ∀ l e, cb l e = 0).

Lemma bulk_one w1 f w j ds buf k :
  inpay w1 f w j ds → text_ok w1 f → wsistate_pre_close w1 = false → defeat_check_utf8 w1 = false →
  0 < rx_size cfg → f_len f < 2 ^ 63 → (j < length (f_payload f))%nat → buf ≠ [] →
  Z.of_nat k = Z.min (rx_size cfg) (Z.min (f_len f - Z.of_nat j) (Z.of_nat (length buf))) →
  take k buf = take k (drop j (mask_payload f)) →
  ∃ w', lws_ws_frame_rest_is_payload cfg cb w buf = (Z.of_nat k, k, w') ∧ (0 < k)%nat
    ∧ inpay w1 f w' (j + k) (ds ++ [take k (drop j (f_payload f))]).
Proof.
  intros [P1 P2 P3 P4 P5 P6 P7 P8 P9 P10 P11] Ht Hpre Hdef Hsz HL Hj Hne Hk Hbuf.
  destruct (dcore_fields w w1 P1) as (F1 & F2 & F3 & F4 & F5 & F6 & _).
  assert (0 < Z.of_nat (length buf)) as Hbl by (destruct buf; [done|cbn; lia]).
  unfold f_len in *. assert (0 < k)%nat as Hk0 by lia.
  unfold lws_ws_frame_rest_is_payload. rewrite P3. unfold f_len.
  pose proof (min3 (rx_size cfg) (Z.of_nat (length (f_payload f)) - Z.of_nat j) (Z.of_nat (length buf))) as Ea.
  rewrite <- Hk in Ea. cbv zeta in Ea |- *. rewrite Ea. clear Ea.
  rewrite (proj2 (Z.eqb_neq (Z.of_nat k) 0)), Nat2Z.id by lia.
  pose proof (bulk_unmask f w j k buf P5 Hbuf) as Hun.
  pose proof (unmask_ok_advance f w (Z.of_nat j) (Z.of_nat k) P5 ltac:(lia)) as Hadv. cbv zeta in Hadv.
  set (token := take k (drop j (f_payload f))) in *.
  assert (∃ rem wm, (if all_zero_nonce w then (take k buf, 0, w) else
     (unmask4 ((λ i, nth (Z.to_nat (Z.land (mask_idx w + i) 3)) (mask w) 0) <$> [0; 1; 2; 3]) (take k buf),
      Z.land (Z.of_nat k) 3, set_mask_idx (Z.land (mask_idx w + Z.of_nat k) 3) w)) = (token, rem, wm)
     ∧ core wm = core w ∧ unmask_ok f wm (Z.of_nat j + Z.of_nat k) ∧ rx_packet_length wm = rx_packet_length w
     ∧ lws_rx_parse_state wm = lws_rx_parse_state w ∧ mask wm = mask w) as (rem & wm & Em & Cm & Um & Lm & Sm & Mm).
  { destruct (all_zero_nonce w); do 2 eexists; (split; [by rewrite <- Hun|]); repeat split; exact Hadv. }
  rewrite Em. clear Em Hun Hadv Hbuf.
  destruct (core_fields wm w Cm) as (Cd & Cu & Cf & Cl). rewrite <- Cd in P1.
  destruct (dcore_fields wm w1 P1) as (G1 & G2 & G3 & G4 & G5 & G6 & _).
  assert (take (j + k) (f_payload f) = take j (f_payload f) ++ token) as Etk
    by (unfold token; by rewrite take_take_drop).
  assert (∃ u, (if check_utf8 wm && negb (defeat_check_utf8 wm) then lws_check_utf8 (utf8 wm) token
                else (0, utf8 wm)) = (0, u)
          ∧ (if check_utf8 w1 then Utf8.run (utf8 w1) (take (j + k) (f_payload f)) = Some u else u = utf8 w1))
    as (u & Eu & Hu).
  { rewrite G3, G4, Hdef, Cu. destruct (check_utf8 w1) eqn:Ec; cbn [andb negb]; [|by eexists].
    destruct (text_ok_prefix w1 f (j + k) Ht Ec) as (s & Hs). exists s. split; [|done].
    rewrite Etk, utf8_run_app, P10 in Hs. unfold lws_check_utf8. by rewrite check_utf8_loop_run, Hs. }
  assert (u64 (rx_packet_length wm - Z.of_nat k) = Z.of_nat (length (f_payload f)) - Z.of_nat (j + k)) as Elen.
  { rewrite Lm, P3. unfold f_len. rewrite u64_small; lia. }
  cbn [check_utf8 defeat_check_utf8 utf8 set_rx_packet_length]. rewrite Eu, Elen. cbn [Z.eqb negb].
  cbn [check_utf8 defeat_check_utf8 utf8 set_utf8 set_rx_packet_length rx_packet_length final].
  assert (check_utf8 wm && negb (defeat_check_utf8 wm)
    && (Z.of_nat (length (f_payload f)) - Z.of_nat (j + k) =? 0) && final wm && negb (u =? 0) && (rem =? 0) = false) as ->.
  { rewrite G3, G4, Hdef, G2. destruct (check_utf8 w1) eqn:Ec; [|done].
    destruct (Z.eqb_spec (Z.of_nat (length (f_payload f)) - Z.of_nat (j + k)) 0); [|done].
    destruct (final w1) eqn:Ef; [|done]. cbn [andb negb].
    destruct (Ht Ec) as (s & Hs & H0). rewrite take_ge in Hu by lia. rewrite Hs in Hu.
    injection Hu as <-. by rewrite H0. }
  cbn [wsistate_pre_close set_utf8 set_rx_packet_length]. rewrite G6, Hpre.
  unfold callback. rewrite Hcb. cbn [Z.eqb negb].
  eexists. split; [reflexivity|]. split; [done|]. split.
  - exact P1.
  - by rewrite <- P2, <- Sm.
  - cbn [rx_packet_length set_first_fragment set_log set_utf8 set_rx_packet_length]. unfold f_len. lia.
  - lia.
  - rewrite Nat2Z.inj_add. exact Um.
  - rewrite concat_app, P6. cbn [concat]. by rewrite app_nil_r, Etk.
  - apply Forall_app. split; [done|]. constructor; [|constructor]. unfold token.
    rewrite length_take, length_drop. split; [|lia]. intros E.
    apply (f_equal length) in E. rewrite length_take, length_drop in E. cbn in E. lia.
  - by destruct ds.
  - cbn [log set_first_fragment set_log set_utf8 set_rx_packet_length first_fragment frame_is_binary].
    unfold is_final_fragment. cbn [final rx_packet_length set_utf8 set_rx_packet_length].
    rewrite Cl, P9, pieces_snoc, <- app_assoc. do 2 f_equal.
    + f_equal. rewrite bool_decide_false by lia. by rewrite andb_false_r.
    + rewrite Cf, P8, G2, G5. do 2 f_equal. f_equal.
      destruct (Z.eqb_spec (Z.of_nat (length (f_payload f)) - Z.of_nat (j + k)) 0).
      * by rewrite bool_decide_true by lia.
      * by rewrite bool_decide_false by lia.
  - exact Hu.
  - by rewrite <- P11, <- Mm.
Qed.

Definition data_opcode (op : Z) : bool :=
  (op =? LWSWSOPC_TEXT_FRAME) || (op =? LWSWSOPC_BINARY_FRAME) || (op =? LWSWSOPC_CONTINUATION).

(** The inner loop reads the payload up to its end or the end of the buffer. *)
Lemma bulk_all fuel w1 f w j ds buf bulk :
  inpay w1 f w j ds → text_ok w1 f → wsistate_pre_close w1 = false → defeat_check_utf8 w1 = false →
  data_opcode (opcode w1) = true → 0 < rx_size cfg → f_len f < 2 ^ 63 → (length buf < fuel)%nat →
  let n := Nat.min (length buf) (length (f_payload f) - j) in
  take n buf = take n (drop j (mask_payload f)) →
  ∃ w' ds', bulk_loop cfg cb fuel w buf bulk
      = inr (w', drop n buf, if buf is [] then bulk else true)
    ∧ inpay w1 f w' (j + n) ds'.
Proof.
  intros Hin Ht Hpre Hdef Hop Hsz HL. revert w j ds buf bulk Hin.
  induction fuel as [|fuel IH]; intros w j ds buf bulk Hin Hf; [lia|]. cbv zeta. intros Hag.
  cbn [bulk_loop]. rewrite (ip_state _ _ _ _ _ Hin), bool_decide_true by done.
  destruct (dcore_fields _ _ (ip_core _ _ _ _ _ Hin)) as (E1 & _). rewrite E1.
  unfold data_opcode in Hop. rewrite Hop. cbn [andb].
  destruct buf as [|b buf].
  { exists w, ds. rewrite Nat.add_0_r. done. }
  rewrite bool_decide_false by done. cbn [negb].
  pose proof (ip_j _ _ _ _ _ Hin) as Hj.
  destruct (decide (j = length (f_payload f))) as [->|Hne].
  { unfold lws_ws_frame_rest_is_payload. rewrite (ip_len _ _ _ _ _ Hin). unfold f_len.
    rewrite Z.sub_diag, (proj2 (Z.ltb_lt 0 _)) by lia. cbv zeta.
    rewrite (proj2 (Z.ltb_ge (Z.of_nat (length (b :: buf))) 0)) by lia. cbn [Z.eqb].
    rewrite Nat.sub_diag, Nat.min_0_r, !drop_0, Nat.add_0_r. by exists w, ds. }
  set (k := Z.to_nat (Z.min (rx_size cfg) (Z.min (f_len f - Z.of_nat j) (Z.of_nat (length (b :: buf)))))).
  set (n := Nat.min (length (b :: buf)) (length (f_payload f) - j)) in *.
  assert (Z.of_nat k = Z.min (rx_size cfg) (Z.min (f_len f - Z.of_nat j) (Z.of_nat (length (b :: buf))))) as Hk
    by (subst k; unfold f_len; lia).
  assert (k ≤ n)%nat as Hkn by (unfold f_len in Hk; lia).
  assert (∀ (l1 l2 : list Z), take n l1 = take n l2 → take k l1 = take k l2) as Htk.
  { intros l1 l2 E. rewrite <- (Nat.min_l k n Hkn), <- !take_take. by rewrite E. }
  destruct (bulk_one w1 f w j ds (b :: buf) k Hin Ht) as (w' & E & Hk0 & Hin'); try done; [lia|by apply Htk|].
  rewrite E. rewrite (proj2 (Z.eqb_neq (Z.of_nat k) 0)), (proj2 (Z.ltb_ge (Z.of_nat k) 0)) by lia.
  destruct (IH w' (j + k)%nat _ (drop k (b :: buf)) true Hin') as (w'' & ds'' & E' & Hin'').
  - rewrite length_drop. lia.
  - rewrite length_drop. replace (Nat.min _ _) with (n - k)%nat by lia.
    apply (f_equal (drop k)) in Hag. rewrite !skipn_firstn_comm in Hag. by rewrite drop_drop in Hag.
  - exists w'', ds''. rewrite E', length_drop, drop_drop.
    replace (Nat.min (length (b :: buf) - k) (length (f_payload f) - (j + k))) with (n - k)%nat in * by lia.
    replace (k + (n - k))%nat with n by lia. split.
    + f_equal. f_equal. by destruct (drop k (b :: buf)).
    + rewrite length_drop in Hin''. replace (j + n)%nat with (j + k + Nat.min (length (b :: buf) - k) (length (f_payload f) - (j + k)))%nat by lia. exact Hin''.
Qed.

(** *** The connection between frames, for the specification *)

Lemma rest_done w1 f w j ds :
  inpay w1 f w j ds → socket_is_permanently_unusable w1 = false → rx_ubuf w1 = [] →
  wsistate w1 = LRS_ESTABLISHED → data_opcode (opcode w1) = true → 0 < rx_size cfg →
  lws_ws_rx_sm cfg cb w true true 0
  = Ok (0, if bool_decide (j = length (f_payload f))
           then set_rx_ubuf [] (set_lws_rx_parse_state LWS_RXPS_NEW w) else w).
Proof.
  intros Hin Hu Hb Hl Hop Hsz. destruct (dcore_fields _ _ (ip_core _ _ _ _ _ Hin))
    as (E1 & _ & _ & _ & _ & _ & E2 & E3 & E4).
  unfold lws_ws_rx_sm. rewrite E4, Hu, (ip_state _ _ _ _ _ Hin). unfold frame_payload.
  rewrite E2, Hb. cbn [length]. rewrite (proj2 (Z.leb_gt (rx_size cfg) _)) by (cbn; lia).
  rewrite (ip_len _ _ _ _ _ Hin). unfold f_len. pose proof (ip_j _ _ _ _ _ Hin).
  case_bool_decide as Ej.
  - subst j. rewrite Z.sub_diag. cbn [Z.eqb]. unfold spill. cbn [opcode set_lws_rx_parse_state].
    rewrite E1. unfold data_opcode in Hop.
    assert (opcode w1 = 0 ∨ opcode w1 = 1 ∨ opcode w1 = 2) as Hcase.
    { rewrite !orb_true_iff, !Z.eqb_eq in Hop. unfold LWSWSOPC_TEXT_FRAME, LWSWSOPC_BINARY_FRAME,
        LWSWSOPC_CONTINUATION in Hop. lia. }
    assert (deliver cfg cb (set_lws_rx_parse_state LWS_RXPS_NEW w) true false
            = Ok (0, set_rx_ubuf [] (set_lws_rx_parse_state LWS_RXPS_NEW w))) as Hd.
    { unfold deliver. cbn [wsistate rx_ubuf set_lws_rx_parse_state]. by rewrite E3, Hl, E2, Hb. }
    destruct_or! Hcase; rewrite Hcase; exact Hd.
  - rewrite (proj2 (Z.eqb_neq _ 0)) by lia. cbn [length]. by rewrite (proj2 (Z.eqb_neq _ (rx_size cfg))) by (cbn; lia).
Qed.

End rx_lemmas.

(** What a connection remembers between frames: whether a message is open, the
    UTF-8 check and its state, the kind of the message, whether none of it was
    passed on yet, and the payload of a ping that waits for its pong. *)
Record conn := Conn {
  c_inmsg : bool;
  c_check : bool;
  c_utf8 : Z;
  c_binary : bool;
  c_first : bool;
  c_ping : option (list Z);
}.

Definition conn0 : conn := Conn false false 0 false false None.

(** A frame is begun. *)
Definition open_conn (cfg : config) (c : conn) (f : frame) : conn :=
  let op := f_opcode f in
  let new := (op =? 1) || (op =? 2) in
  {| c_inmsg := if is_data f then negb (f_fin f) else c_inmsg c;
     c_check := if op =? 1 then validate_utf8 cfg else if op =? 2 then false else c_check c;
     c_utf8 := c_utf8 c;
     c_binary := if new then op =? 2 else c_binary c;
     c_first := if new then true else c_first c;
     c_ping := c_ping c |}.

Definition set_text (c : conn) (u : Z) : conn :=
  {| c_inmsg := c_inmsg c; c_check := c_check c; c_utf8 := u; c_binary := c_binary c;
     c_first := false; c_ping := c_ping c |}.

Definition set_ping (c : conn) (p : list Z) : conn :=
  {| c_inmsg := c_inmsg c; c_check := c_check c; c_utf8 := c_utf8 c; c_binary := c_binary c;
     c_first := c_first c; c_ping := Some p |}.

(** The UTF-8 check of a payload, when there is one: the state after it. *)
Definition check_text (c : conn) (fin : bool) (payload : list Z) : option Z :=
  if c_check c then
    match Utf8.run (c_utf8 c) payload with
    | Some u => if fin && negb (u =? 0) then None else Some u
    | None => None
    end
  else Some (c_utf8 c).

(** The connection after a data, ping or pong frame; [None] when it is refused.
    An empty frame is not passed on, and the payload of a pong goes through the
    check of the text message it comes after. *)
Definition frame_next (cfg : config) (c : conn) (f : frame) : option conn :=
  if negb (follows (c_inmsg c) (f_opcode f)) then None
  else
    let c := open_conn cfg c f in
    if f_opcode f =? 9 then
      Some (match c_ping c with Some _ => c | None => set_ping c (f_payload f) end)
    else if f_opcode f =? 8 then None
    else if bool_decide (f_payload f = []) then Some c
    else set_text c <$> check_text c (f_fin f) (f_payload f).

(** The callbacks a frame gives rise to. *)
Definition frame_events (cfg : config) (c : conn) (f : frame) (evs : list event) : Prop :=
  let c := open_conn cfg c f in
  if f_opcode f =? 9 then evs = match c_ping c with Some _ => [] | None => [WRITEABLE_REQUESTED] end
  else if bool_decide (f_payload f = []) then evs = []
  else if f_opcode f =? 10 then evs = [RECEIVE_PONG (f_payload f)]
  else ∃ ds, concat ds = f_payload f
             ∧ Forall (λ d, d ≠ [] ∧ Z.of_nat (length d) <= rx_size cfg) ds
             ∧ evs = pieces (c_first c) (c_binary c) (f_fin f) ds.

Fixpoint frames_next (cfg : config) (c : conn) (fs : list frame) : option conn :=
  match fs with
  | [] => Some c
  | f :: fs' => c' ← frame_next cfg c f; frames_next cfg c' fs'
  end.

Fixpoint frames_events (cfg : config) (c : conn) (fs : list frame) (evs : list event) : Prop :=
  match fs with
  | [] => evs = []
  | f :: fs' =>
      ∃ c' evs1 evs2, frame_next cfg c f = Some c' ∧ frame_events cfg c f evs1
        ∧ frames_events cfg c' fs' evs2 ∧ evs = evs1 ++ evs2
  end.

(** The connection [w], which logged [l], stands for [c]. *)
Record fields (w : lws) (c : conn) (l : list event) : Prop := {
  fl_usable : socket_is_permanently_unusable w = false;
  fl_spec : ietf_spec_revision w = 13;
  fl_cont : continuation_possible w = c_inmsg c;
  fl_owed : owed_a_fin w = c_inmsg c;
  fl_check : check_utf8 w = c_check c;
  fl_utf8 : utf8 w = c_utf8 c;
  fl_binary : frame_is_binary w = c_binary c;
  fl_first : first_fragment w = c_first c;
  fl_lrs : wsistate w = LRS_ESTABLISHED;
  fl_pre : wsistate_pre_close w = false;
  fl_pbuf : length (ping_payload_buf w) = 125%nat;
  fl_ping : match c_ping c with
            | None => ping_pending_flag w = false
            | Some p => ping_pending_flag w = true
                        ∧ take (Z.to_nat (ping_payload_len w)) (ping_payload_buf w) = p
            end;
  fl_log : log w = l;
}.

(** ... between two frames. *)
Definition sees (w : lws) (c : conn) (l : list event) : Prop :=
  fields w c l ∧ lws_rx_parse_state w = LWS_RXPS_NEW ∧ rx_ubuf w = [] ∧ length (mask w) = 4%nat.

Lemma fields_core w w' c l : core w' = core w → fields w c l → fields w' c l.
Proof.
  unfold core, dcore. intros [=] []. split; congruence || (destruct (c_ping c); intuition congruence).
Qed.

(** ... after the header of [f], whose payload is not empty. *)
Record after_header (cfg : config) (c : conn) (f : frame) (w : lws) (l : list event) : Prop := {
  ah_fields : fields w (open_conn cfg c f) l;
  ah_state : lws_rx_parse_state w = LWS_RXPS_WS_FRAME_PAYLOAD;
  ah_ubuf : rx_ubuf w = [];
  ah_opcode : opcode w = f_opcode f;
  ah_final : final w = f_fin f;
  ah_defeat : defeat_check_utf8 w = false;
  ah_len : rx_packet_length w = f_len f;
  ah_unmask : unmask_ok f w 0;
  ah_mask : length (mask w) = 4%nat;
}.

Section frames.
Context (cfg : config) (cb : list event → event → Z) (rxflow : list event → bool).

(** The first byte of a frame, from the frame's fields. *)
Lemma frame_first_byte f inmsg :
  (is_data f = true ∨ is_control f = true ∧ f_fin f = true) → follows inmsg (f_opcode f) = true →
  let c := (if f_fin f then 128 else 0) + f_opcode f in
  is_byte c ∧ legal_first inmsg c = true ∧ Z.land c 15 = f_opcode f ∧ negb (Z.land c 128 =? 0) = f_fin f.
Proof.
  destruct f as [fin op key form payload]. unfold is_data, is_control. cbn [f_fin f_opcode].
  intros Hop Hf. rewrite !orb_true_iff, !Z.eqb_eq in Hop. cbv zeta. unfold legal_first.
  destruct Hop as [[[->| ->]| ->]|[[[->| ->]| ->] ->]]; [destruct fin..| | |]; destruct inmsg;
    try discriminate Hf; vm_compute; done.
Qed.

Lemma sees_ready w c l : sees w c l → ready w (c_inmsg c).
Proof. intros ([] & ? & ? & ?). by split. Qed.

Lemma opened_fields w c l f w' :
  sees w c l → opened cfg w (f_opcode f) (f_fin f) w' →
  (is_data f = true ∨ f_opcode f = 9 ∨ f_opcode f = 10) →
  fields w' (open_conn cfg c f) l ∧ rx_ubuf w' = [] ∧ length (mask w') = 4%nat.
Proof.
  intros (F & Hs & Hb & Hm) Ho Hop.
  destruct F as [F1 F2 F3 F4 F5 F6 F7 F8 F9 F10 F11 F12 F13].
  destruct Ho as (O1 & O2 & O3 & O4 & O5 & O6 & O7 & O8 & O9 & O10 & O11 & O12 & O13 & O14 & O15 & O16
    & O17 & O18 & O19 & O20 & O21 & O22 & O23 & O24 & O25).
  split; [|by rewrite O14, O17].
  assert (f_opcode f = 0 ∨ f_opcode f = 1 ∨ f_opcode f = 2 ∨ f_opcode f = 9 ∨ f_opcode f = 10) as Hc.
  { unfold is_data in Hop. rewrite !orb_true_iff, !Z.eqb_eq in Hop. lia. }
  unfold open_conn, is_data. destruct_or! Hc; rewrite Hc in *; cbn in *;
    split; cbn; try congruence; destruct (c_ping c); intuition congruence.
Qed.

Lemma len_steps f w :
  lws_rx_parse_state w = LWS_RXPS_04_FRAME_HDR_LEN → socket_is_permanently_unusable w = false →
  opcode w = f_opcode f → wf_frame f → 0 < f_len f →
  ∃ w', hdr_steps cfg cb w (len_bytes f) w' ∧ len_read f w w'.
Proof.
  intros Hs Hu Hop (_ & _ & Hform & Hkind) HL.
  assert (f_form f = Len7 ∨ Z.land (opcode w) 8 = 0) as Hext.
  { destruct Hkind as [Hd|(_ & _ & ->)]; [right|by left]. rewrite Hop. unfold is_data in Hd.
    rewrite !orb_true_iff, !Z.eqb_eq in Hd. by destruct Hd as [[->| ->]| ->]. }
  destruct (f_form f) eqn:Ef.
  - apply len7_steps; (done || lia).
  - destruct Hext; [done|]. by apply len16_steps.
  - destruct Hext; [done|]. by apply len64_steps.
Qed.

Lemma header_ok w c l f :
  sees w c l → wf_frame f → (is_data f = true ∨ f_opcode f = 9 ∨ f_opcode f = 10) →
  follows (c_inmsg c) (f_opcode f) = true → 0 < f_len f →
  ∃ w1, hdr_steps cfg cb w (frame_header f) w1 ∧ after_header cfg c f w1 l.
Proof.
  intros Hsees (Hpl & Hkey & Hform & Hkind) Hop Hfol HL.
  assert (is_data f = true ∨ is_control f = true ∧ f_fin f = true) as Hkind' by naive_solver.
  destruct (frame_first_byte f (c_inmsg c) Hkind' Hfol) as (Hb & Hleg & Hl15 & Hl128).
  pose proof (first_byte cfg cb w (c_inmsg c) _ (sees_ready w c l Hsees) Hb) as H1.
  rewrite Hleg, Hl15, Hl128 in H1. destruct H1 as (wa & E1 & Ho).
  destruct (opened_fields w c l f wa Hsees Ho Hop) as (Fa & Ba & Ma).
  destruct Ho as (O1 & O2 & O3 & O4 & O5 & O6 & _).
  destruct (len_steps f wa) as (wb & Sb & Rb); [done..|].
  destruct Rb as (R1 & R2 & R3 & R4 & R5 & R6 & R7).
  assert (hdr_steps cfg cb w (((if f_fin f then 128 else 0) + f_opcode f) :: len_bytes f) wb) as Sab.
  { eapply hdr_steps_cons; [|exact E1|exact Sb]. by rewrite (proj1 (proj2 Hsees)). }
  pose proof (fields_core wa wb _ _ R1 Fa) as Fb.
  destruct (core_fields wb wa R1) as (D1 & _).
  destruct (dcore_fields wb wa D1) as (G1 & G2 & _ & G4 & _ & _ & G7 & _ & G9).
  unfold frame_header. destruct (f_key f) as [key|] eqn:Ek; cbn [default].
  - destruct Hkey as [Hkl Hkb].
    destruct (key_steps cfg cb wb key) as (wc & Sc & K1 & K2 & K3 & K4 & K5 & K6);
      [by rewrite R7; unfold after_len; rewrite R6|congruence|congruence|congruence|done|lia|].
    exists wc. split; [exact (hdr_steps_app cfg cb _ _ _ _ _ Sab Sc)|].
    destruct (core_fields wc wb K1) as (D2 & _).
    destruct (dcore_fields wc wb D2) as (I1 & I2 & _ & I4 & _ & _ & I7 & _).
    split; try congruence; [exact (fields_core wb wc _ _ K1 Fb)|].
    unfold unmask_ok. rewrite K4, K2, K3. case_bool_decide as Hz.
    + unfold mask_payload. rewrite Ek, Hz. clear. unfold mask_from. apply list_eq. intros i.
      rewrite list_lookup_imap. destruct (f_payload f !! i) as [b|]; [|done].
      cbn [fmap option_fmap option_map]. f_equal.
      generalize ((0 + i) mod 4)%nat. intros [|[|[|[|[|]]]]]; apply Z.lxor_0_r.
    + by rewrite Ek.
  - exists wb. rewrite app_nil_r. split; [done|].
    split; try congruence.
    + by rewrite R7; unfold after_len; rewrite R6.
    + unfold unmask_ok. rewrite R4, O4. unfold mask_payload. by rewrite Ek.
Qed.

(** *** The end of a frame that was collected in the receive buffer *)

Context (Hcb : ∀ l e, cb l e = 0).

(** [w] holds the whole payload [p] of a frame with opcode [op]. *)
Record collected (w : lws) (c : conn) (l : list event) (op : Z) (fin : bool) (p : list Z) : Prop := {
  co_fields : fields w c l;
  co_state : lws_rx_parse_state w = LWS_RXPS_NEW;
  co_opcode : opcode w = op;
  co_final : final w = fin;
  co_defeat : defeat_check_utf8 w = false;
  co_len : rx_packet_length w = 0;
  co_ubuf : rx_ubuf w = p;
  co_mask : length (mask w) = 4%nat;
}.

Lemma spill_ping w c l p :
  collected w c l 9 true p → (length p ≤ 125)%nat →
  ∃ w', spill cfg cb w false = Ok (0, w')
    ∧ match c_ping c with
      | Some _ => sees w' c l
      | None => sees w' (set_ping c p) (l ++ [WRITEABLE_REQUESTED])
      end.
Proof.
  intros [F S O Fi D L U M] Hp. pose proof (fl_ping _ _ _ F) as HP. pose proof (fl_pbuf _ _ _ F) as HB.
  pose proof (fl_log _ _ _ F) as HG.
  unfold spill. rewrite O. cbn [Z.eqb Pos.eqb andb LWSWSOPC_CLOSE LWSWSOPC_PING].
  destruct (c_ping c) as [q|] eqn:Ec.
  - destruct HP as [-> HP]. eexists. split; [reflexivity|]. split; [|done].
    by destruct F.
  - rewrite HP. unfold process_as_ping. rewrite U.
    rewrite (proj2 (Z.ltb_ge (128 - 3) _)) by lia.
    destruct (memcpy (ping_payload_buf w) 0 p) as [buf|] eqn:Em;
      [|by rewrite memcpy_Ok in Em by lia]. cbn [mbind res_bind].
    pose proof (memcpy_length _ _ _ _ Em) as Hl. destruct (memcpy_read _ _ _ _ Em) as [Hr _].
    eexists. split; [reflexivity|]. split; [|done].
    destruct F. split; try done.
    + cbn. congruence.
    + cbn [c_ping set_ping]. split; [done|].
      cbn [ping_payload_len ping_payload_buf set_ping_payload_len set_ping_payload_buf set_ping_pending_flag
           lws_callback_on_writable set_log set_rx_ubuf rx_ubuf]. rewrite U.
      rewrite u8_small, Nat2Z.id by lia. exact Hr.
    + cbn. by rewrite HG.
Qed.

(** A payload that is passed on: text, binary, continuation (when collected
    here, an empty one) and pong. *)
Lemma spill_empty w c l op fin :
  collected w c l op fin [] → data_opcode op = true ∨ op = 10 →
  ∃ w', spill cfg cb w false = Ok (0, w') ∧ sees w' c l.
Proof.
  intros [F S O Fi D L U M] Hop.
  assert (∀ w b, fields w c l → lws_rx_parse_state w = LWS_RXPS_NEW → rx_ubuf w = [] →
    length (mask w) = 4%nat →
    deliver cfg cb w false b = Ok (0, set_rx_ubuf [] w) ∧ sees (set_rx_ubuf [] w) c l) as Hd.
  { intros w' b [] HS HU HM. unfold deliver. rewrite fl_lrs0, HU. split; [done|]. by repeat split. }
  unfold spill, data_opcode, LWSWSOPC_TEXT_FRAME, LWSWSOPC_BINARY_FRAME, LWSWSOPC_CONTINUATION in *.
  rewrite !orb_true_iff, !Z.eqb_eq in Hop. rewrite O.
  destruct Hop as [[[->| ->]| ->]| ->]; cbn [Z.eqb Pos.eqb andb orb LWSWSOPC_CLOSE LWSWSOPC_PING LWSWSOPC_PONG].
  1-3: eexists; by apply Hd.
  eexists. apply Hd; try by destruct (pong_timeout w).
  destruct (pong_timeout w); [|done]. by destruct F.
Qed.

Lemma spill_pong w c l p u :
  collected w c l 10 true p → p ≠ [] → check_text c true p = Some u →
  Z.of_nat (length p) < rx_size cfg + 4 →
  ∃ w', spill cfg cb w false = Ok (0, w') ∧ sees w' (set_text c u) (l ++ [RECEIVE_PONG p]).
Proof.
  intros [F S O Fi D L U M] Hp Hu Hsz. unfold spill. rewrite O.
  cbn [Z.eqb Pos.eqb andb LWSWSOPC_CLOSE LWSWSOPC_PING LWSWSOPC_PONG].
  set (w1 := if pong_timeout w then set_pong_timeout false w else w).
  assert (collected w1 c l 10 true p) as [F1 S1 O1 Fi1 D1 L1 U1 M1].
  { subst w1. destruct (pong_timeout w); [|by split]. destruct F. by repeat split. }
  unfold deliver. destruct F1 as [F1 F2 F3 F4 F5 F6 F7 F8 F9 F10 F11 F12 F13].
  rewrite F9, U1, F5, D1. rewrite !bool_decide_false by done. cbn [orb negb]. rewrite andb_true_r.
  unfold check_text in Hu.
  assert (∃ u', (if c_check c then lws_check_utf8 (utf8 w1) p else (0, utf8 w1)) = (0, u')
     ∧ u' = u ∧ (c_check c = true → u = 0)) as (u' & Eu & -> & Hu0).
  { destruct (c_check c).
    - unfold lws_check_utf8. rewrite check_utf8_loop_run, F6.
      destruct (run (c_utf8 c) p) as [v|]; [|done]. cbn [andb] in Hu.
      destruct (Z.eqb_spec v 0); [|done]. injection Hu as <-. by exists v.
    - injection Hu as <-. exists (utf8 w1). by rewrite F6. }
  rewrite Eu. cbn [Z.eqb negb]. cbn [check_utf8 defeat_check_utf8 set_utf8 rx_packet_length utf8 final].
  rewrite F5, D1, L1, Fi1. cbn [Z.eqb andb negb].
  rewrite !andb_true_r.
  assert (c_check c && negb (u =? 0) = false) as ->.
  { destruct (c_check c); [|done]. by rewrite Hu0. }
  cbn [wsistate_pre_close set_utf8]. rewrite F10. rewrite (proj2 (Z.ltb_lt _ _) Hsz).
  cbn [check mbind res_bind]. unfold callback. rewrite Hcb.
  eexists. split; [reflexivity|]. split; [|done]. split; try done.
  cbn. by rewrite F13.
Qed.

Lemma key_byte_fields w b i s :
  core (key_byte w b i s) = core w ∧ length (mask (key_byte w b i s)) = length (mask w)
  ∧ rx_packet_length (key_byte w b i s) = rx_packet_length w ∧ lws_rx_parse_state (key_byte w b i s) = s.
Proof.
  unfold key_byte. destruct (negb (b =? 0)); repeat split; cbn [mask set_lws_rx_parse_state set_all_zero_nonce set_mask];
    apply length_insert.
Qed.

Lemma key_steps_empty w key :
  lws_rx_parse_state w = LWS_RXPS_07_COLLECT_FRAME_KEY_1 → socket_is_permanently_unusable w = false →
  length (mask w) = 4%nat → length key = 4%nat → rx_packet_length w = 0 →
  ∃ w3, core w3 = core w ∧ length (mask w3) = 4%nat ∧ rx_packet_length w3 = 0
    ∧ lws_rx_parse_state w3 = LWS_RXPS_NEW
    ∧ ∀ w', spill cfg cb w3 false = Ok (0, w') → hdr_steps cfg cb w key w'.
Proof.
  intros Hs Hu Hm Hk Hl.
  destruct key as [|k0 [|k1 [|k2 [|k3 [|]]]]]; try discriminate Hk.
  destruct (key_byte_fields w k0 0 LWS_RXPS_07_COLLECT_FRAME_KEY_2) as (A1 & A2 & A3 & A4).
  set (wa := key_byte w k0 0 _) in *.
  destruct (key_byte_fields wa k1 1 LWS_RXPS_07_COLLECT_FRAME_KEY_3) as (B1 & B2 & B3 & B4).
  set (wb := key_byte wa k1 1 _) in *.
  destruct (key_byte_fields wb k2 2 LWS_RXPS_07_COLLECT_FRAME_KEY_4) as (C1 & C2 & C3 & C4).
  set (wc := key_byte wb k2 2 _) in *.
  destruct (key_byte_fields wc k3 3 LWS_RXPS_WS_FRAME_PAYLOAD) as (D1 & D2 & D3 & D4).
  assert (∀ x, core x = core w → socket_is_permanently_unusable x = false) as Hus.
  { intros x Hx. destruct (core_fields x w Hx) as (E & _). destruct (dcore_fields x w E) as (_ & _ & _ & _ & _ & _ & _ & _ & ->). done. }
  exists (set_lws_rx_parse_state LWS_RXPS_NEW (set_mask_idx 0 (key_byte wc k3 3 LWS_RXPS_WS_FRAME_PAYLOAD))).
  assert (core (key_byte wc k3 3 LWS_RXPS_WS_FRAME_PAYLOAD) = core w) as Hcore by congruence.
  split; [exact Hcore|].
  split; [cbn [mask set_lws_rx_parse_state set_mask_idx]; congruence|].
  split; [cbn [rx_packet_length set_lws_rx_parse_state set_mask_idx]; congruence|].
  split; [done|]. intros w' Hsp.
  eapply hdr_steps_cons; [by rewrite Hs|unfold lws_ws_rx_sm; rewrite Hu, Hs; reflexivity|]. fold wa.
  eapply hdr_steps_cons; [by rewrite A4|unfold lws_ws_rx_sm; rewrite (Hus wa), A4 by done; reflexivity|]. fold wb.
  eapply hdr_steps_cons; [by rewrite B4|unfold lws_ws_rx_sm; rewrite (Hus wb), B4 by congruence; reflexivity|]. fold wc.
  eapply hdr_steps_cons; [by rewrite C4| |reflexivity].
  unfold lws_ws_rx_sm. rewrite (Hus wc), C4 by congruence. unfold frame_key_4.
  cbn [rx_packet_length set_mask_idx]. rewrite D3, C3, B3, A3, Hl. cbn [Z.eqb]. exact Hsp.
Qed.

(** The end of a frame: the connection and the events it should have. *)
Definition finished (c : conn) (f : frame) (l : list event) (w' : lws) : Prop :=
  ∃ c' evs, frame_next cfg c f = Some c' ∧ frame_events cfg c f evs ∧ sees w' c' (l ++ evs).

Lemma frame_opcodes f :
  is_data f = true ∨ f_opcode f = 9 ∨ f_opcode f = 10 →
  f_opcode f = 9 ∨ (data_opcode (f_opcode f) = true ∨ f_opcode f = 10) ∧ (f_opcode f =? 9) = false
                   ∧ (f_opcode f =? 8) = false.
Proof.
  unfold is_data, data_opcode, LWSWSOPC_TEXT_FRAME, LWSWSOPC_BINARY_FRAME, LWSWSOPC_CONTINUATION.
  rewrite !orb_true_iff, !Z.eqb_eq, !Z.eqb_neq. lia.
Qed.

(** The end of an empty frame. *)
Lemma collected_empty w c l f :
  collected w (open_conn cfg c f) l (f_opcode f) (f_fin f) [] → f_payload f = [] → wf_frame f →
  (is_data f = true ∨ f_opcode f = 9 ∨ f_opcode f = 10) → follows (c_inmsg c) (f_opcode f) = true →
  ∃ w', spill cfg cb w false = Ok (0, w') ∧ finished c f l w'.
Proof.
  intros Hc Hp Hwf Hop Hfol. unfold finished, frame_next, frame_events. rewrite Hfol, Hp. cbn [negb].
  rewrite bool_decide_true by done.
  destruct (frame_opcodes f Hop) as [E9|(Hd & N9 & N8)].
  - rewrite E9 in *. cbn [Z.eqb Pos.eqb].
    assert (f_fin f = true) as Hfin.
    { destruct Hwf as (_ & _ & _ & [Hd|(_ & ? & _)]); [|done]. unfold is_data in Hd. by rewrite E9 in Hd. }
    rewrite Hfin in Hc. destruct (spill_ping w (open_conn cfg c f) l [] Hc) as (w' & E & Hs); [cbn; lia|].
    exists w'. split; [done|]. eexists _, _. split; [reflexivity|]. split; [reflexivity|].
    destruct (c_ping (open_conn cfg c f)); [by rewrite app_nil_r|done].
  - rewrite N9, N8. destruct (spill_empty w (open_conn cfg c f) l _ _ Hc Hd) as (w' & E & Hs).
    exists w'. split; [done|]. eexists _, _. split; [reflexivity|]. split; [reflexivity|]. by rewrite app_nil_r.
Qed.

Lemma empty_ok w c l f :
  sees w c l → wf_frame f → (is_data f = true ∨ f_opcode f = 9 ∨ f_opcode f = 10) →
  follows (c_inmsg c) (f_opcode f) = true → f_payload f = [] →
  ∃ w', hdr_steps cfg cb w (frame_header f) w' ∧ finished c f l w'.
Proof.
  intros Hsees Hwf Hop Hfol Hp. pose proof Hwf as (_ & Hkey & Hform & Hkind).
  assert (f_len f = 0) as HL by (unfold f_len; by rewrite Hp).
  assert (f_form f = Len7) as Hf7 by (destruct (f_form f); [done|lia..]).
  assert (is_data f = true ∨ is_control f = true ∧ f_fin f = true) as Hkind' by naive_solver.
  destruct (frame_first_byte f (c_inmsg c) Hkind' Hfol) as (Hb & Hleg & Hl15 & Hl128).
  pose proof (first_byte cfg cb w (c_inmsg c) _ (sees_ready w c l Hsees) Hb) as H1.
  rewrite Hleg, Hl15, Hl128 in H1. destruct H1 as (wa & E1 & Ho).
  destruct (opened_fields w c l f wa Hsees Ho Hop) as (Fa & Ba & Ma).
  destruct Ho as (O1 & O2 & O3 & O4 & O5 & O6 & _).
  unfold frame_header, len_bytes. rewrite Hf7, HL.
  assert (∀ l2 w', hdr_steps cfg cb wa l2 w' →
    hdr_steps cfg cb w (((if f_fin f then 128 else 0) + f_opcode f) :: l2) w') as Hfirst.
  { intros l2 w' H2. eapply hdr_steps_cons; [|exact E1|exact H2]. by rewrite (proj1 (proj2 Hsees)). }
  destruct (f_key f) as [key|] eqn:Ek; cbn [default app].
  - destruct Hkey as [Hkl _].
    set (wb := set_lws_rx_parse_state LWS_RXPS_07_COLLECT_FRAME_KEY_1
                 (set_rx_packet_length 0 (set_this_frame_masked true wa))).
    destruct (key_steps_empty wb key) as (w3 & K1 & K2 & K3 & K4 & K5); [done..|].
    destruct (collected_empty w3 c l f) as (w' & Esp & Hfin); [|done..|].
    { destruct (core_fields w3 wb K1) as (D & _). destruct (dcore_fields w3 wb D) as (G1 & G2 & _ & G4 & _ & _ & G7 & _).
      split; try done; [exact (fields_core wa w3 _ _ K1 Fa)|..]; cbn in *; congruence. }
    exists w'. split; [|done]. apply Hfirst.
    eapply hdr_steps_cons; [by rewrite O1| |by apply K5].
    unfold lws_ws_rx_sm. by rewrite O6, O1.
  - destruct (collected_empty (set_lws_rx_parse_state LWS_RXPS_NEW
        (set_rx_packet_length 0 (set_this_frame_masked false wa))) c l f) as (w' & Esp & Hfin); [|done..|].
    { split; try done. by apply (fields_core wa). }
    exists w'. split; [|done]. apply Hfirst. eapply hdr_steps_cons; [by rewrite O1| |reflexivity].
    unfold lws_ws_rx_sm. rewrite O6, O1. exact Esp.
Qed.

(** *** The payload of a control frame, byte by byte *)

Record inctl (c : conn) (f : frame) (w : lws) (j : nat) (l : list event) : Prop := {
  ic_fields : fields w (open_conn cfg c f) l;
  ic_state : lws_rx_parse_state w = LWS_RXPS_WS_FRAME_PAYLOAD;
  ic_ubuf : rx_ubuf w = take j (f_payload f);
  ic_opcode : opcode w = f_opcode f;
  ic_final : final w = f_fin f;
  ic_defeat : defeat_check_utf8 w = false;
  ic_len : rx_packet_length w = f_len f - Z.of_nat j;
  ic_unmask : unmask_ok f w (Z.of_nat j);
  ic_mask : length (mask w) = 4%nat;
}.

Lemma unmask_byte f w j b :
  unmask_ok f w (Z.of_nat j) → mask_payload f !! j = Some b →
  ∃ w', (if all_zero_nonce w then set_rx_ubuf (rx_ubuf w ++ [b]) w
         else set_mask_idx (u8 (mask_idx w + 1))
                (set_rx_ubuf (rx_ubuf w ++ [Z.lxor b (nth (Z.to_nat (Z.land (mask_idx w) 3)) (mask w) 0)]) w)) = w'
    ∧ (∃ x, f_payload f !! j = Some x ∧ rx_ubuf w' = rx_ubuf w ++ [x])
    ∧ unmask_ok f w' (Z.of_nat (S j)) ∧ mask w' = mask w ∧ (∀ c l, fields w c l → fields w' c l)
    ∧ lws_rx_parse_state w' = lws_rx_parse_state w ∧ opcode w' = opcode w ∧ final w' = final w
    ∧ defeat_check_utf8 w' = defeat_check_utf8 w ∧ rx_packet_length w' = rx_packet_length w.
Proof.
  unfold unmask_ok. intros Hu Hb. eexists. split; [reflexivity|].
  destruct (all_zero_nonce w) eqn:Ez.
  - cbn [all_zero_nonce set_rx_ubuf]. rewrite Ez. split; [exists b; by rewrite <- Hu|].
    repeat split; try done; by destruct H.
  - destruct Hu as (Hk & Hl & Hi & Hm). cbn [all_zero_nonce set_rx_ubuf set_mask_idx]. rewrite Ez.
    unfold mask_payload, mask_from in Hb. rewrite Hk, list_lookup_imap in Hb.
    destruct (f_payload f !! j) as [x|] eqn:Ex; [|done]. cbn [fmap option_fmap option_map] in Hb.
    injection Hb as <-. split.
    { exists x. split; [done|]. cbn [rx_ubuf set_rx_ubuf set_mask_idx]. do 2 f_equal.
      rewrite land3, Hm. replace (Z.to_nat (Z.of_nat j `mod` 4)) with ((0 + j) mod 4)%nat.
      - by rewrite Z.lxor_assoc, Z.lxor_nilpotent, Z.lxor_0_r.
      - apply Nat2Z.inj. rewrite Nat2Z.inj_mod, Z2Nat.id by (apply Z.mod_pos_bound; lia). done. }
    cbn [mask_idx mask set_rx_ubuf set_mask_idx]. split; [|repeat split; try done; by destruct H].
    repeat split; try done.
    + apply u8_range.
    + unfold u8. rewrite <- Znumtheory.Zmod_div_mod by (lia || by exists 64).
      rewrite <- Zplus_mod_idemp_l, Hm, Zplus_mod_idemp_l. f_equal. lia.
Qed.

Lemma ctl_byte c f w j l b :
  inctl c f w j l → mask_payload f !! j = Some b → f_len f <= 125 <= rx_size cfg →
  (f_opcode f = 9 ∨ f_opcode f = 10) → f_fin f = true → follows (c_inmsg c) (f_opcode f) = true →
  (f_opcode f = 10 → is_Some (check_text (open_conn cfg c f) true (f_payload f))) →
  ∃ w', lws_ws_rx_sm cfg cb w false false b = Ok (0, w')
    ∧ if bool_decide (S j = length (f_payload f)) then finished c f l w' else inctl c f w' (S j) l.
Proof.
  intros [F S0 U O Fi D L Un M] Hb Hsz Hop Hfin Hfol Htxt. unfold f_len in Hsz.
  assert (j < length (f_payload f))%nat as Hj.
  { rewrite <- length_mask_payload. apply lookup_lt_is_Some. by exists b. }
  unfold lws_ws_rx_sm. rewrite (fl_usable _ _ _ F), S0. unfold frame_payload.
  rewrite U, length_take, (proj2 (Z.leb_gt (rx_size cfg) _)) by lia.
  destruct (unmask_byte f w j b Un Hb) as (w1 & E & (x & Hx & Eu) & Un1 & M1 & F1 & S1 & O1 & Fi1 & D1 & L1).
  rewrite <- U, E. clear E. apply F1 in F.
  assert (rx_ubuf w1 = take (S j) (f_payload f)) as Eu1.
  { rewrite Eu, U. symmetry. by apply take_S_r. }
  cbn [rx_packet_length set_rx_packet_length rx_ubuf]. rewrite L1, L, Eu1. unfold f_len.
  rewrite u64_small by lia.
  case_bool_decide as Ej.
  - rewrite (proj2 (Z.eqb_eq _ 0)) by lia. rewrite take_ge in Eu1 by lia.
    set (w2 := set_lws_rx_parse_state _ _).
    assert (collected w2 (open_conn cfg c f) l (f_opcode f) true (f_payload f)) as Hc.
    { split; cbn; try congruence; try lia. by destruct F. }
    assert (f_payload f ≠ []) as Hne by (intros En; rewrite En in Hj; cbn in Hj; lia).
    unfold finished, frame_next, frame_events. rewrite Hfol, bool_decide_false by done. cbn [negb].
    destruct Hop as [Hop|Hop]; rewrite Hop in *; cbn [Z.eqb Pos.eqb].
    + destruct (spill_ping w2 _ _ _ Hc) as (w' & -> & Hs); [lia|]. exists w'. split; [done|].
      eexists _, _. split; [reflexivity|]. split; [reflexivity|].
      destruct (c_ping (open_conn cfg c f)); [by rewrite app_nil_r|done].
    + destruct (Htxt eq_refl) as [u Hu].
      destruct (spill_pong w2 _ _ _ u Hc Hne Hu) as (w' & -> & Hs); [lia|]. exists w'. split; [done|].
      eexists _, _. rewrite Hfin, Hu. split; [reflexivity|]. split; [reflexivity|]. done.
  - rewrite (proj2 (Z.eqb_neq _ 0)) by lia. rewrite length_take.
    rewrite (proj2 (Z.eqb_neq (Z.of_nat _) _)) by lia. cbn [negb].
    eexists. split; [reflexivity|]. split; try done; cbn; try congruence; [by destruct F|].
    unfold f_len. lia.
Qed.

(** *** A frame in the middle of being read *)

Context (Hflow : ∀ l, rxflow l = false) (Hsize : 125 <= rx_size cfg).

(** [rest] is what is still to come of the frame [f]. *)
Inductive pos (c : conn) (f : frame) (l : list event) : lws → list Z → Prop :=
  | pos_hdr w b rest w1 :
      hdr_steps cfg cb w (b :: rest) w1 →
      (if bool_decide (f_payload f = []) then finished c f l w1 else after_header cfg c f w1 l) →
      pos c f l w (b :: rest ++ mask_payload f)
  | pos_data w1 w j ds :
      is_data f = true → after_header cfg c f w1 l → inpay cfg w1 f w j ds →
      (j < length (f_payload f))%nat → pos c f l w (drop j (mask_payload f))
  | pos_ctl w j :
      f_opcode f = 9 ∨ f_opcode f = 10 → inctl c f w j l →
      (j < length (f_payload f))%nat → pos c f l w (drop j (mask_payload f)).

Definition accepted (c : conn) (f : frame) : Prop :=
  wf_frame f ∧ is_Some (frame_next cfg c f).

Lemma accepted_inv c f :
  accepted c f →
  follows (c_inmsg c) (f_opcode f) = true ∧ (is_data f = true ∨ f_opcode f = 9 ∨ f_opcode f = 10)
  ∧ (is_data f = true ∨ f_fin f = true ∧ f_len f <= 125)
  ∧ f_len f < 2 ^ 63
  ∧ (f_opcode f ≠ 9 → f_payload f ≠ [] →
     is_Some (check_text (open_conn cfg c f) (f_fin f) (f_payload f))).
Proof.
  intros [(_ & _ & Hform & Hkind) [c' Hn]]. unfold frame_next in Hn.
  destruct (follows (c_inmsg c) (f_opcode f)); [|done]. cbn [negb] in Hn. split; [done|].
  assert (f_len f < 2 ^ 63) as HL by (destruct (f_form f); lia).
  split; [|split; [|split; [done|]]].
  - destruct Hkind as [|(Hc & _)]; [by left|right]. unfold is_control in Hc.
    rewrite !orb_true_iff, !Z.eqb_eq in Hc. destruct (Z.eqb_spec (f_opcode f) 9); [by left|].
    destruct (Z.eqb_spec (f_opcode f) 8); [done|]. right. lia.
  - destruct Hkind as [|(_ & ? & Hf)]; [by left|right]. rewrite Hf in Hform. split; [done|lia].
  - intros N9 Hne. rewrite (proj2 (Z.eqb_neq _ _) N9) in Hn.
    destruct (f_opcode f =? 8); [done|]. rewrite bool_decide_false in Hn by done.
    destruct (check_text (open_conn cfg c f) (f_fin f) (f_payload f)); [by eexists|done].
Qed.

(** The state after the payload of a data frame. *)
Lemma data_finished c f l w1 w ds :
  accepted c f → is_data f = true → after_header cfg c f w1 l →
  inpay cfg w1 f w (length (f_payload f)) ds → f_payload f ≠ [] →
  finished c f l (set_rx_ubuf [] (set_lws_rx_parse_state LWS_RXPS_NEW w)).
Proof.
  intros Hacc Hd [F S0 U O Fi D L Un M] [P1 P2 P3 P4 P5 P6 P7 P8 P9 P10 P11] Hne.
  destruct (accepted_inv c f Hacc) as (Hfol & _ & _ & _ & Htxt).
  assert (f_opcode f ≠ 9 ∧ f_opcode f ≠ 8 ∧ f_opcode f ≠ 10) as (N9 & N8 & N10).
  { unfold is_data in Hd. rewrite !orb_true_iff, !Z.eqb_eq in Hd. lia. }
  destruct (Htxt N9 Hne) as [u Hu].
  unfold finished, frame_next, frame_events. rewrite Hfol, bool_decide_false by done.
  rewrite (proj2 (Z.eqb_neq _ _) N9), (proj2 (Z.eqb_neq _ _) N8), (proj2 (Z.eqb_neq _ _) N10), Hu.
  cbn [negb fmap option_fmap option_map].
  rewrite take_ge in P6 by done. rewrite bool_decide_true, andb_true_r in P9 by done.
  eexists _, _. split; [reflexivity|]. split; [by exists ds|].
  assert (ds ≠ []) as Hds by (intros ->; by rewrite <- P6 in Hne).
  split; [|done]. unfold dcore in P1. injection P1 as ? ? ? ? ? ? ? ? ? ? ? ? ? ? ? ? ? ?.
  destruct F as [F1 F2 F3 F4 F5 F6 F7 F8 F9 F10 F11 F12 F13].
  set (c1 := open_conn cfg c f) in *. clearbody c1. split; cbn; try congruence.
  - unfold check_text in Hu. rewrite take_ge, F5, F6 in P10 by done. destruct (c_check c1); [|congruence].
    rewrite P10 in Hu. destruct (_ && _); [done|]. by injection Hu as <-.
  - rewrite P8. by destruct ds.
  - destruct (c_ping c1); intuition congruence.
Qed.

Lemma pos_start c f l w :
  sees w c l → accepted c f → pos c f l w (encode_frame f).
Proof.
  intros Hs Hacc. destruct (accepted_inv c f Hacc) as (Hfol & Hop & _). destruct Hacc as [Hwf _].
  unfold encode_frame, frame_header. cbn [app].
  destruct (decide (f_payload f = [])) as [He|Hne].
  - destruct (empty_ok w c l f Hs Hwf Hop Hfol He) as (w1 & H1 & H2).
    apply (pos_hdr _ _ _ _ _ _ w1); [done|]. by rewrite bool_decide_true.
  - destruct (header_ok w c l f Hs Hwf Hop Hfol) as (w1 & H1 & H2).
    { unfold f_len. destruct (f_payload f); [done|cbn; lia]. }
    apply (pos_hdr _ _ _ _ _ _ w1); [done|]. by rewrite bool_decide_false.
Qed.

(** Where a frame is after its header, or after more of its payload. *)
Definition reached (c : conn) (f : frame) (l : list event) (w : lws) (rest : list Z) : Prop :=
  if bool_decide (rest = []) then finished c f l w else pos c f l w rest.

Lemma after_header_reached c f l w1 :
  accepted c f →
  (if bool_decide (f_payload f = []) then finished c f l w1 else after_header cfg c f w1 l) →
  reached c f l w1 (mask_payload f).
Proof.
  intros Hacc H. unfold reached.
  assert (bool_decide (mask_payload f = []) = bool_decide (f_payload f = [])) as ->.
  { apply bool_decide_ext. rewrite <- !length_zero_iff_nil. by rewrite length_mask_payload. }
  case_bool_decide as He; [done|].
  assert (0 < length (f_payload f))%nat as HL by (destruct (f_payload f); [done|cbn; lia]).
  destruct (accepted_inv c f Hacc) as (_ & Hop & _).
  rewrite <- (drop_0 (mask_payload f)). destruct H as [F S0 U O Fi D L Un M].
  destruct Hop as [Hd|Hc].
  - apply (pos_data _ _ _ w1 w1 0 []); [done|by split| |done].
    split; try done; [rewrite Z.sub_0_r; done|lia|by rewrite app_nil_r|by destruct (check_utf8 w1)].
  - apply (pos_ctl _ _ _ w1 0); [done| |done]. split; try done. by rewrite Z.sub_0_r.
Qed.

(** A byte that is not bulk payload goes through the state machine. *)
Lemma round_byte w b buf w' :
  lws_rx_parse_state w ≠ LWS_RXPS_WS_FRAME_PAYLOAD ∨ data_opcode (opcode w) = false →
  lws_ws_rx_sm cfg cb w false false b = Ok (0, w') →
  ∀ fuel, parse_ws_loop cfg cb rxflow (S fuel) w (b :: buf) = parse_ws_loop cfg cb rxflow fuel w' buf.
Proof.
  intros Hs E fuel. cbn [parse_ws_loop]. rewrite Hflow.
  assert (bulk_loop cfg cb (S (length (b :: buf))) w (b :: buf) false = inr (w, b :: buf, false)) as ->.
  { cbn [bulk_loop]. unfold data_opcode in Hs.
    destruct Hs as [Hs|Hs]; [rewrite bool_decide_false by done; done|].
    rewrite Hs, andb_false_r. done. }
  cbv iota beta. rewrite E. reflexivity.
Qed.

Lemma text_ok_accepted c f l w1 :
  accepted c f → is_data f = true → after_header cfg c f w1 l → f_payload f ≠ [] → text_ok w1 f.
Proof.
  intros Hacc Hd [F S0 U O Fi D L Un M] Hne Hck.
  destruct (accepted_inv c f Hacc) as (_ & _ & _ & _ & Htxt).
  destruct Htxt as [u Hu]; [|done|].
  { unfold is_data in Hd. rewrite !orb_true_iff, !Z.eqb_eq in Hd. lia. }
  unfold check_text in Hu. rewrite <- (fl_check _ _ _ F), Hck, <- (fl_utf8 _ _ _ F) in Hu.
  destruct (run (utf8 w1) (f_payload f)) as [v|]; [|done]. exists v. split; [done|].
  rewrite Fi. intros Hf. rewrite Hf in Hu. destruct (Z.eqb_spec v 0); [done|done].
Qed.

Definition compat (buf rest : list Z) : Prop :=
  (∃ b2, buf = rest ++ b2) ∨ (∃ r2, rest = buf ++ r2).

Lemma compat_take buf rest n :
  compat buf rest → (n ≤ length buf)%nat → (n ≤ length rest)%nat → take n buf = take n rest.
Proof.
  intros [[b2 ->]|[r2 ->]] H1 H2; [by rewrite take_app_le|by rewrite take_app_le].
Qed.

Lemma compat_head buf b rest :
  compat buf (b :: rest) → buf ≠ [] → ∃ buf', buf = b :: buf' ∧ compat buf' rest.
Proof.
  intros [[b2 ->]|[r2 E]] Hne.
  - exists (rest ++ b2). split; [done|]. left. by exists b2.
  - destruct buf as [|x buf]; [done|]. injection E as -> ->. exists buf. split; [done|]. right. by exists r2.
Qed.

Lemma round c f l w rest buf :
  accepted c f → pos c f l w rest → buf ≠ [] → compat buf rest →
  ∃ p b2 r2 w', buf = p ++ b2 ∧ rest = p ++ r2 ∧ p ≠ [] ∧ reached c f l w' r2
    ∧ ∀ fuel, parse_ws_loop cfg cb rxflow (S fuel) w buf = parse_ws_loop cfg cb rxflow fuel w' b2.
Proof.
  intros Hacc Hpos Hne Hcomp. destruct Hpos as [w b rest w1 Hst Hend|w1 w j ds Hd Hah Hin Hj|w j Hc Hin Hj].
  - destruct (compat_head buf b _ Hcomp Hne) as (buf' & -> & _).
    destruct Hst as (Hs & w' & E & Hst). exists [b], buf', (rest ++ mask_payload f), w'.
    split; [done|]. split; [done|]. split; [done|]. split; [|by apply round_byte; [left|]].
    destruct rest as [|b' rest].
    + cbn in Hst. subst w1. by apply after_header_reached.
    + unfold reached. rewrite bool_decide_false by done. by apply (pos_hdr _ _ _ _ _ _ w1).
  - assert (f_payload f ≠ []) as Hpne by (intros E; rewrite E in Hj; cbn in Hj; lia).
    pose proof (text_ok_accepted c f l w1 Hacc Hd Hah Hpne) as Htxt.
    pose proof Hah as [F S0 U O Fi D L Un M].
    destruct (accepted_inv c f Hacc) as (_ & _ & _ & HL & _).
    assert (data_opcode (opcode w1) = true) as Hdo.
    { rewrite O. destruct (frame_opcodes f (or_introl Hd)) as [E9|([|E10] & _)]; [|done|];
        unfold is_data in Hd; rewrite ?E9, ?E10 in Hd; done. }
    set (n := Nat.min (length buf) (length (f_payload f) - j)).
    assert (0 < length buf)%nat as Hbl by (destruct buf; [done|cbn; lia]).
    assert (0 < n)%nat as Hn by lia.
    assert (length (drop j (mask_payload f)) = length (f_payload f) - j)%nat as Hlen
      by (by rewrite length_drop, length_mask_payload).
    destruct (bulk_all cfg cb Hcb (S (length buf)) w1 f w j ds buf false) as (w' & ds' & E & Hin');
      [done|done|by apply F|done|done|lia|done|lia|by apply compat_take; [|lia|lia]|].
    fold n in E, Hin'.
    assert (take n buf = take n (drop j (mask_payload f))) as Htk by (apply compat_take; [done|lia..]).
    exists (take n buf), (drop n buf), (drop (j + n) (mask_payload f)).
    pose proof (rest_done cfg cb w1 f w' (j + n) ds' Hin' (fl_usable _ _ _ F) U (fl_lrs _ _ _ F) Hdo ltac:(lia)) as Er.
    eexists. split; [by rewrite take_drop|]. split; [rewrite Htk, <- drop_drop; by rewrite take_drop|].
    split; [intros E0; apply (f_equal length) in E0; rewrite length_take in E0; cbn in E0; lia|].
    split; [|intros fuel; destruct buf as [|b buf]; [done|]; cbn [parse_ws_loop]; rewrite Hflow, E;
             cbn [mbind res_bind]; rewrite Er; reflexivity].
    unfold reached. case_bool_decide as Ej.
    + rewrite Ej, drop_ge by (rewrite length_mask_payload; lia). rewrite bool_decide_true by done.
      rewrite Ej in Hin'. by apply (data_finished c f l w1 w' ds').
    + rewrite bool_decide_false.
      * apply (pos_data _ _ _ w1 w' (j + n) ds'); [done..|lia].
      * intros E0. apply (f_equal length) in E0. rewrite length_drop, length_mask_payload in E0. cbn in E0. lia.
  - assert (j < length (mask_payload f))%nat as Hjm by by rewrite length_mask_payload.
    destruct (lookup_lt_is_Some_2 _ _ Hjm) as [b Hb]. rewrite (drop_S _ b) in Hcomp |- * by done.
    destruct (compat_head buf b _ Hcomp Hne) as (buf' & -> & _).
    destruct (accepted_inv c f Hacc) as (Hfol & _ & Hk & _ & Htxt).
    assert (f_fin f = true ∧ f_len f <= 125) as [Hfin H125].
    { destruct Hk as [Hd|]; [|done]. unfold is_data in Hd. destruct Hc as [Hc|Hc]; by rewrite Hc in Hd. }
    destruct (ctl_byte c f w j l b Hin Hb) as (w' & E & Hw'); [lia|done|done|done| |].
    { intros H10. rewrite <- Hfin. apply Htxt; [lia|]. intros E0. rewrite E0 in Hj. cbn in Hj. lia. }
    exists [b], buf', (drop (S j) (mask_payload f)), w'.
    split; [done|]. split; [done|]. split; [done|]. split.
    + unfold reached. case_bool_decide as Ej.
      * by rewrite drop_ge, bool_decide_true by (rewrite ?length_mask_payload; lia || done).
      * rewrite bool_decide_false; [apply pos_ctl; [done..|lia]|].
        intros E0. apply (f_equal length) in E0. rewrite length_drop, length_mask_payload in E0. cbn in E0. lia.
    + apply round_byte; [|done]. right. rewrite (ic_opcode _ _ _ _ _ Hin).
      destruct Hc as [-> | ->]; done.
Qed.

Lemma pos_nonempty c f l w rest : pos c f l w rest → rest ≠ [].
Proof.
  destruct 1 as [| |]; [done|..]; intros E; apply (f_equal length) in E;
    rewrite length_drop, length_mask_payload in E; cbn in E; lia.
Qed.

(** The rest of a frame is in the buffer, with more after it. *)
Lemma frame_rest n c f l w rest b2 fuel :
  accepted c f → pos c f l w rest → (length rest ≤ n)%nat →
  (2 * length (rest ++ b2) ≤ fuel)%nat →
  ∃ w' fuel', finished c f l w' ∧ (2 * length b2 ≤ fuel')%nat
    ∧ parse_ws_loop cfg cb rxflow fuel w (rest ++ b2) = parse_ws_loop cfg cb rxflow fuel' w' b2.
Proof.
  intros Hacc. revert w rest fuel. induction n as [|n IH]; intros w rest fuel Hpos Hn Hf.
  { apply pos_nonempty in Hpos. destruct rest; [done|cbn in Hn; lia]. }
  pose proof (pos_nonempty _ _ _ _ _ Hpos) as Hne.
  destruct (round c f l w rest (rest ++ b2) Hacc Hpos) as (p & b' & r' & w' & E1 & E2 & Hp & Hr & Hround).
  { intros E. by apply app_eq_nil in E as [-> _]. }
  { left. by exists b2. }
  assert (b' = r' ++ b2) as ->.
  { rewrite E2, <- app_assoc in E1. by apply app_inv_head in E1. }
  assert (1 ≤ length p)%nat as Hpl by (destruct p; [done|cbn; lia]).
  rewrite E2, !length_app in Hf. rewrite E2, length_app in Hn.
  destruct fuel as [|fuel]; [lia|]. rewrite Hround. unfold reached in Hr.
  case_bool_decide as Er.
  - subst r'. exists w', fuel. split; [done|]. split; [lia|done].
  - destruct (IH w' r' fuel Hr) as (w'' & fuel' & H1 & H2 & H3); [lia|rewrite length_app; lia|].
    exists w'', fuel'. auto.
Qed.

(** Only a part of the rest of a frame is in the buffer. *)
Lemma frame_part n c f l w buf r2 fuel :
  accepted c f → pos c f l w (buf ++ r2) → (length buf ≤ n)%nat → r2 ≠ [] → (length buf ≤ fuel)%nat →
  ∃ w', pos c f l w' r2 ∧ parse_ws_loop cfg cb rxflow fuel w buf = Ok (0, w', []).
Proof.
  intros Hacc. revert w buf fuel. induction n as [|n IH]; intros w buf fuel Hpos Hn Hr2 Hf.
  { destruct buf; [|cbn in Hn; lia]. exists w. split; [done|]. by destruct fuel. }
  destruct buf as [|b buf]; [exists w; split; [done|by destruct fuel]|].
  destruct (round c f l w _ (b :: buf) Hacc Hpos) as (p & b' & r' & w' & E1 & E2 & Hp & Hr & Hround); [done|by right; exists r2|].
  assert (r' = b' ++ r2) as ->.
  { rewrite E1, <- app_assoc in E2. by apply app_inv_head in E2. }
  assert (1 ≤ length p)%nat as Hpl by (destruct p; [done|cbn; lia]).
  rewrite E1, length_app in Hn, Hf. destruct fuel as [|fuel]; [lia|]. rewrite Hround.
  unfold reached in Hr. rewrite bool_decide_false in Hr by (intros E; by apply app_eq_nil in E as [_ ->]).
  destruct (IH w' b' fuel Hr) as (w'' & H1 & H2); [lia|done|lia|]. exists w''. auto.
Qed.

(** How far a connection that began as [c] with [l] logged has come with the
    frames [fs]: [rem] is still to come. *)
Definition frames_run (c : conn) (fs : list frame) (evs : list event) (c1 : conn) : Prop :=
  frames_next cfg c fs = Some c1 ∧ frames_events cfg c fs evs.

Definition at_point (c : conn) (fs : list frame) (l : list event) (w : lws) (rem : list Z) : Prop :=
  ∃ fs1 fs2 c1 evs, frames_run c fs1 evs c1 ∧
    ((fs = fs1 ++ fs2 ∧ sees w c1 (l ++ evs) ∧ rem = concat (encode_frame <$> fs2))
     ∨ (∃ f rest, fs = fs1 ++ f :: fs2 ∧ accepted c1 f ∧ pos c1 f (l ++ evs) w rest
        ∧ rem = rest ++ concat (encode_frame <$> fs2))).

Lemma frames_run_cons c f fs c1 evs1 evs c2 :
  frame_next cfg c f = Some c1 → frame_events cfg c f evs1 → frames_run c1 fs evs c2 →
  frames_run c (f :: fs) (evs1 ++ evs) c2.
Proof.
  intros H1 H2 [H3 H4]. split; [cbn; by rewrite H1|]. exists c1, evs1, evs. auto.
Qed.

Lemma at_point_cons c f fs l c1 evs1 w rem :
  frame_next cfg c f = Some c1 → frame_events cfg c f evs1 →
  at_point c1 fs (l ++ evs1) w rem → at_point c (f :: fs) l w rem.
Proof.
  intros H1 H2 (fs1 & fs2 & c2 & evs & Hrun & H). exists (f :: fs1), fs2, c2, (evs1 ++ evs).
  split; [by eapply frames_run_cons|]. rewrite app_assoc.
  destruct H as [(-> & Hs & ->)|(g & rest & -> & Ha & Hp & ->)]; [left|right].
  - split; [done|]. split; done.
  - by exists g, rest.
Qed.

Lemma frames_loop fs c cN l w buf rem fuel :
  sees w c l → Forall wf_frame fs → frames_next cfg c fs = Some cN →
  concat (encode_frame <$> fs) = buf ++ rem → (2 * length buf ≤ fuel)%nat →
  ∃ w', parse_ws_loop cfg cb rxflow fuel w buf = Ok (0, w', []) ∧ at_point c fs l w' rem.
Proof.
  revert c l w buf fuel. induction fs as [|f fs IH]; intros c l w buf fuel Hs Hwf Hn Hb Hf.
  { cbn in Hb. symmetry in Hb. apply app_eq_nil in Hb as [-> ->]. exists w. split; [by destruct fuel|].
    exists [], [], c, []. rewrite (app_nil_r l). split; [by split|]. by left. }
  destruct buf as [|b buf].
  { exists w. split; [by destruct fuel|]. exists [], (f :: fs), c, []. rewrite (app_nil_r l).
    split; [by split|]. left. split; [done|]. by split. }
  inversion Hwf as [|? ? Hwf1 Hwf2]; subst. cbn [frames_next] in Hn.
  destruct (frame_next cfg c f) as [c1|] eqn:E1; [|done]. cbn in Hn.
  assert (accepted c f) as Hacc by (split; [done|by rewrite E1]).
  pose proof (pos_start c f l w Hs Hacc) as Hpos. cbn [fmap list_fmap concat] in Hb.
  assert ((∃ r2, r2 ≠ [] ∧ encode_frame f = (b :: buf) ++ r2 ∧ rem = r2 ++ concat (encode_frame <$> fs))
          ∨ (∃ b2, b :: buf = encode_frame f ++ b2 ∧ concat (encode_frame <$> fs) = b2 ++ rem))
    as [(r2 & Hr2 & E & ->)|(b2 & E & Eb)].
  { destruct (app_eq_inv _ _ _ _ Hb) as [([|x r2] & E & ->)|(b2 & E & Eb)].
    - right. exists []. by rewrite E, !app_nil_r.
    - left. by exists (x :: r2).
    - right. by exists b2. }
  - rewrite E in Hpos.
    destruct (frame_part (length (b :: buf)) c f l w (b :: buf) r2 fuel) as (w' & Hp & Ep); [done..|lia|].
    exists w'. split; [done|]. exists [], fs, c, []. rewrite (app_nil_r l). split; [by split|]. right.
    by exists f, r2.
  - rewrite E in Hf |- *.
    destruct (frame_rest (length (encode_frame f)) c f l w (encode_frame f) b2 fuel) as (w' & fuel' & Hfin & Hf' & Ep);
      [done|done|lia|done|].
    destruct Hfin as (c1' & evs1 & En & Hev & Hs'). rewrite E1 in En. injection En as <-.
    destruct (IH c1 (l ++ evs1) w' b2 fuel' Hs' Hwf2 Hn Eb Hf') as (w'' & Ew & Hat).
    exists w''. split; [by rewrite Ep|]. by eapply at_point_cons.
Qed.

(** What was read arrives in pieces: each is parsed in turn. *)
Fixpoint parse_reads (w : lws) (reads : list (list Z)) : res (Z * lws * list Z) :=
  match reads with
  | [] => Ok (0, w, [])
  | b :: reads' =>
      '(r, w, cached) ← lws_parse_ws cfg cb rxflow w b;
      if r =? 0 then parse_reads w reads' else Ok (r, w, cached)
  end.

Lemma frames_next_app c fs1 fs2 c1 :
  frames_next cfg c fs1 = Some c1 → frames_next cfg c (fs1 ++ fs2) = frames_next cfg c1 fs2.
Proof.
  revert c. induction fs1 as [|f fs1 IH]; intros c; cbn; [by intros [= ->]|].
  destruct (frame_next cfg c f) as [c2|]; cbn; [apply IH|done].
Qed.

Lemma frames_run_app c fs1 evs1 c1 fs2 evs2 c2 :
  frames_run c fs1 evs1 c1 → frames_run c1 fs2 evs2 c2 → frames_run c (fs1 ++ fs2) (evs1 ++ evs2) c2.
Proof.
  revert c evs1. induction fs1 as [|f fs1 IH]; intros c evs1 [Hn He] H2.
  { cbn in Hn, He. simplify_eq. done. }
  cbn in Hn, He. destruct He as (c3 & e1 & e2 & E3 & Hev & He & ->). rewrite E3 in Hn. cbn in Hn.
  rewrite <- app_assoc. cbn [app]. eapply frames_run_cons; [done|done|]. by apply IH.
Qed.

Lemma at_point_app c fs1 evs c1 fs2 l w rem :
  frames_run c fs1 evs c1 → at_point c1 fs2 (l ++ evs) w rem → at_point c (fs1 ++ fs2) l w rem.
Proof.
  intros Hrun (gs1 & gs2 & c2 & evs2 & Hrun2 & H). exists (fs1 ++ gs1), gs2, c2, (evs ++ evs2).
  split; [by eapply frames_run_app|]. rewrite (app_assoc l).
  destruct H as [(-> & Hs & ->)|(g & rest & -> & Ha & Hp & ->)]; [left|right].
  - split; [by rewrite app_assoc|]. by split.
  - exists g, rest. by rewrite <- (app_assoc fs1).
Qed.

Lemma read_step c fs cN l w buf rem :
  at_point c fs l w (buf ++ rem) → Forall wf_frame fs → frames_next cfg c fs = Some cN →
  ∃ w', lws_parse_ws cfg cb rxflow w buf = Ok (0, w', []) ∧ at_point c fs l w' rem.
Proof.
  intros (fs1 & fs2 & c1 & evs & Hrun & Hcase) Hwf Hn. unfold lws_parse_ws.
  destruct Hcase as [(-> & Hs & Hb)|(f & rest & -> & Hacc & Hpos & Hb)];
    apply Forall_app in Hwf as [_ Hwf]; rewrite (frames_next_app _ _ _ c1) in Hn by apply Hrun.
  - destruct (frames_loop fs2 c1 cN (l ++ evs) w buf rem (2 * length buf)) as (w' & E & Hat); try done.
    exists w'. split; [done|]. by eapply at_point_app.
  - inversion Hwf as [|? ? _ Hwf2]; subst. cbn [frames_next] in Hn.
    destruct (frame_next cfg c1 f) as [c2|] eqn:E2; [|done]. cbn in Hn.
    destruct (app_eq_inv _ _ _ _ Hb) as [(b2 & -> & Eb)|(r2 & -> & ->)].
    + destruct (frame_rest (length rest) c1 f (l ++ evs) w rest b2 (2 * length (rest ++ b2)))
        as (w' & fuel' & (c2' & evs1 & En & Hev & Hs') & Hf' & ->); [done|done|lia|lia|].
      rewrite E2 in En. injection En as <-.
      destruct (frames_loop fs2 c2 cN ((l ++ evs) ++ evs1) w' b2 rem fuel') as (w'' & E & Hat); try done.
      exists w''. split; [done|]. eapply at_point_app; [done|]. by eapply at_point_cons.
    + destruct (decide (r2 = [])) as [->|Hr2].
      * rewrite app_nil_r in Hpos. cbn [app].
        destruct (frame_rest (length buf) c1 f (l ++ evs) w buf [] (2 * length buf))
          as (w' & fuel' & (c2' & evs1 & En & Hev & Hs') & Hf' & E); [done|done|lia|rewrite app_nil_r; lia|].
        rewrite app_nil_r in E. rewrite E. rewrite E2 in En. injection En as <-.
        destruct (frames_loop fs2 c2 cN ((l ++ evs) ++ evs1) w' [] (concat (encode_frame <$> fs2)) fuel')
          as (w'' & E' & Hat); try done.
        exists w''. split; [done|]. eapply at_point_app; [done|]. by eapply at_point_cons.
      * destruct (frame_part (length buf) c1 f (l ++ evs) w buf r2 (2 * length buf)) as (w' & Hp & E); [done|done|lia|done|lia|].
        exists w'. split; [done|]. exists fs1, fs2, c1, evs. split; [done|]. right. by exists f, r2.
Qed.

Lemma reads_step c fs cN l reads w :
  at_point c fs l w (concat reads) → Forall wf_frame fs → frames_next cfg c fs = Some cN →
  ∃ w', parse_reads w reads = Ok (0, w', []) ∧ at_point c fs l w' [].
Proof.
  revert w. induction reads as [|b reads IH]; intros w Hat Hwf Hn; [by exists w|].
  destruct (read_step c fs cN l w b (concat reads) Hat Hwf Hn) as (w1 & E & Hat1).
  destruct (IH w1 Hat1 Hwf Hn) as (w2 & E2 & Hat2). exists w2. cbn [parse_reads]. rewrite E. by split.
Qed.

Lemma at_point_end c fs cN l w :
  at_point c fs l w [] → frames_next cfg c fs = Some cN →
  ∃ evs, frames_events cfg c fs evs ∧ sees w cN (l ++ evs).
Proof.
  intros (fs1 & fs2 & c1 & evs & [Hn1 He] & Hcase) Hn.
  destruct Hcase as [(-> & Hs & Hb)|(f & rest & -> & _ & Hp & Hb)].
  - destruct fs2 as [|f fs2]; [|done]. rewrite app_nil_r in *. exists evs. split; [done|]. congruence.
  - exfalso. apply pos_nonempty in Hp. symmetry in Hb. by apply app_eq_nil in Hb as [-> _].
Qed.
End frames.

(** ** Any input: the buffers *)

(** The control payloads are within the ping buffer, the connection is a
    websocket of version 13 that is not being flushed for its close, and a
    close is kept for an answer only when the peer asked for it. *)
Definition wf_ping (w : lws) : Prop :=
  length (ping_payload_buf w) = 125%nat
  ∧ 0 <= ping_payload_len w <= 125
  ∧ 0 <= close_in_ping_buffer_len w <= 125
  ∧ ietf_spec_revision w = 13
  ∧ wsistate w ≠ LRS_FLUSHING_BEFORE_CLOSE
  ∧ (wsistate w = LRS_ESTABLISHED → payload_is_close w = false).

(** The receive buffer and the ping buffer are within their sizes. *)
Definition wf_lws (cfg : config) (w : lws) : Prop :=
  Z.of_nat (length (rx_ubuf w)) <= rx_size cfg ∧ wf_ping w.

Lemma u8_length_small n : (n ≤ 125)%nat → 0 <= u8 (Z.of_nat n) <= 125.
Proof. intros H. rewrite u8_small; unfold is_byte; lia. Qed.

(** A step that does not fault, keeps [wf_lws], and ends outside the payload
    state when [out] says so. *)
Definition good_step (cfg : config) (out : bool) (r : res (Z * lws)) : Prop :=
  ∃ n w, r = Ok (n, w) ∧ wf_lws cfg w
         ∧ (out = true → lws_rx_parse_state w ≠ LWS_RXPS_WS_FRAME_PAYLOAD).

Section safety.
Context (cfg : config) (cb : list event → event → Z) (rxflow : list event → bool) (Hsize : 0 < rx_size cfg).

Lemma wf_close_reason w s text : wf_lws cfg w → wf_lws cfg (lws_close_reason w s text).
Proof.
  intros [H1 (H2 & H3 & H4 & H5)]. split; [done|]. unfold lws_close_reason.
  set (bytes := _ :: _ :: _). assert (length bytes ≤ 125)%nat as Hb by (cbn; rewrite length_take; lia).
  split; [cbn; by rewrite length_blit by lia|]. split; [done|]. split; [|done].
  by apply u8_length_small.
Qed.

Lemma good_protocol_err out w text :
  wf_lws cfg w → (out = true → lws_rx_parse_state w ≠ LWS_RXPS_WS_FRAME_PAYLOAD) →
  good_step cfg out (protocol_err w text).
Proof. intros H Ho. eexists _, _. split; [reflexivity|]. split; [by apply wf_close_reason|exact Ho]. Qed.

Lemma good_process_as_ping out w :
  wf_lws cfg w → (out = true → lws_rx_parse_state w ≠ LWS_RXPS_WS_FRAME_PAYLOAD) →
  good_step cfg out (process_as_ping w).
Proof.
  intros [H1 H2] Ho. unfold process_as_ping. destruct (Z.ltb_spec (128 - 3) (Z.of_nat (length (rx_ubuf w)))).
  - eexists _, _. split; [reflexivity|]. split; [|exact Ho]. split; [cbn; lia|done].
  - destruct H2 as (H2 & H3 & H4). rewrite memcpy_Ok by lia. cbn [mbind res_bind].
    eexists _, _. split; [reflexivity|]. split; [|exact Ho]. split; [cbn; lia|].
    split; [cbn; rewrite length_blit; lia|]. split; [|done]. apply u8_length_small. cbn. lia.
Qed.

Lemma length_fix_close_code b : length (fix_close_code b) = length b.
Proof. destruct b as [|b0 [|b1 b]]; [done..|]. cbn [fix_close_code]. by destruct (bad_close_code _). Qed.

Lemma good_peer_close out w :
  wf_lws cfg w → (out = true → lws_rx_parse_state w ≠ LWS_RXPS_WS_FRAME_PAYLOAD) →
  good_step cfg out (peer_close cfg cb w).
Proof.
  intros Hwf Ho. unfold peer_close. cbv zeta.
  destruct (if validate_utf8 cfg && _ then _ else _) as [bad u].
  repeat match goal with
  | |- good_step _ _ (if ?b then Ok _ else _) =>
      destruct b; [eexists _, _; split; [reflexivity|]; by split|]
  end.
  unfold callback. cbv iota beta.
  match goal with |- good_step _ _ (if ?b then Ok _ else _) =>
    destruct b; [eexists _, _; split; [reflexivity|]; split; [|exact Ho]|] end.
  - destruct Hwf. split; [cbn; by rewrite length_fix_close_code|done].
  - apply good_process_as_ping; [|exact Ho]. destruct Hwf as (? & ? & ? & ? & ? & ?).
    split; [cbn; by rewrite length_fix_close_code|split_and!; done || (cbn; lia) || done].
Qed.

Lemma good_deliver out w no_cb pong :
  wf_lws cfg w → (out = true → lws_rx_parse_state w ≠ LWS_RXPS_WS_FRAME_PAYLOAD) →
  good_step cfg out (deliver cfg cb w no_cb pong).
Proof.
  intros Hwf Ho. pose proof Hwf as [H1 H2].
  assert (∀ w', wf_ping w' → wf_lws cfg (set_rx_ubuf [] w')) as Hcl.
  { intros w' E. split; [cbn; lia|done]. }
  unfold deliver. cbv zeta.
  destruct (_ || _); [eexists _, _; split; [reflexivity|]; split; [by apply Hcl|exact Ho]|].
  destruct (bool_decide _); [eexists _, _; split; [reflexivity|]; split; [by apply Hcl|exact Ho]|].
  destruct (if check_utf8 w && _ then _ else _) as [bad u].
  destruct (negb (bad =? 0)).
  { eexists _, _. split; [reflexivity|]. split; [by apply wf_close_reason|exact Ho]. }
  match goal with |- good_step _ _ (if ?b then _ else _) => destruct b end.
  { eexists _, _. split; [reflexivity|]. split; [by apply wf_close_reason|exact Ho]. }
  match goal with |- good_step _ _ (if ?b then _ else _) => destruct b end.
  { eexists _, _. split; [reflexivity|]. split; [by apply Hcl|exact Ho]. }
  rewrite check_true by (apply Z.ltb_lt; lia). cbn [mbind res_bind].
  destruct no_cb; (eexists _, _; split; [reflexivity|]; split; [by apply Hcl|exact Ho]).
Qed.

Lemma good_spill out w no_cb :
  wf_lws cfg w → (out = true → lws_rx_parse_state w ≠ LWS_RXPS_WS_FRAME_PAYLOAD) →
  good_step cfg out (spill cfg cb w no_cb).
Proof.
  intros Hwf Ho. unfold spill.
  destruct (_ && _); [by apply good_peer_close|].
  destruct (opcode w =? LWSWSOPC_CLOSE); [by apply good_deliver|].
  destruct (opcode w =? LWSWSOPC_PING).
  { destruct (ping_pending_flag w); [|by apply good_process_as_ping].
    eexists _, _. split; [reflexivity|]. split; [|exact Ho]. destruct Hwf. split; [cbn; lia|done]. }
  destruct (opcode w =? LWSWSOPC_PONG).
  { apply good_deliver; by destruct (pong_timeout w). }
  destruct (_ || _); [by apply good_deliver|]. eexists _, _. split; [reflexivity|]. by split.
Qed.

Lemma good_ok out n w :
  wf_lws cfg w → (out = true → lws_rx_parse_state w ≠ LWS_RXPS_WS_FRAME_PAYLOAD) →
  good_step cfg out (Ok (n, w)).
Proof. intros. by exists n, w. Qed.

Lemma good_handle_first w c : wf_lws cfg w → good_step cfg false (handle_first cfg w c).
Proof.
  intros Hwf.
  assert (∀ w, wf_lws cfg w → good_step cfg false (after_opcode w)) as Hao.
  { intros w' H'. unfold after_opcode. destruct (_ && _); [by apply good_protocol_err|]. cbv zeta.
    match goal with |- good_step _ _ (if rsv_refused (rsv ?x) then _ else _) =>
      assert (wf_lws cfg x) as Hx by (destruct (_ && _), (negb _); exact H'); destruct (rsv_refused (rsv x)) end.
    - by apply good_protocol_err.
    - by apply good_ok. }
  unfold handle_first, start_message. cbv zeta.
  repeat match goal with
  | |- good_step _ _ (if ?b then _ else _) => destruct b
  end; first [apply good_protocol_err; [|done] | apply Hao];
    repeat case_match; exact Hwf.
Qed.

Lemma wf_key_byte w b i s : wf_lws cfg w → wf_lws cfg (key_byte w b i s).
Proof. intros H. unfold key_byte. by destruct (negb (b =? 0)). Qed.

Lemma good_frame_payload w c ignore no_cb :
  wf_lws cfg w → good_step cfg (ignore && (rx_packet_length w =? 0)) (frame_payload cfg cb w c ignore no_cb)
                ∨ rx_size cfg <= Z.of_nat (length (rx_ubuf w)).
Proof.
  intros Hwf. pose proof Hwf as [H1 H2].
  destruct (Z.leb_spec (rx_size cfg) (Z.of_nat (length (rx_ubuf w)))); [by right|left].
  unfold frame_payload. rewrite (proj2 (Z.leb_gt _ _)) by done.
  set (w1 := if ignore then w else _).
  assert (wf_lws cfg w1) as Hw1.
  { subst w1. destruct ignore; [done|]. destruct (all_zero_nonce w); split; cbn; rewrite ?length_app; cbn; try done; lia. }
  assert (rx_packet_length w1 =? 0 = false → ignore && (rx_packet_length w =? 0) = false) as Hout.
  { subst w1. destruct ignore; [by intros ->|done]. }
  destruct (rx_packet_length w1 =? 0).
  { by apply good_spill. }
  rewrite Hout by done. destruct (negb _); [by apply good_ok|by apply good_spill].
Qed.

Lemma good_rx_sm w ignore no_cb c :
  wf_lws cfg w → good_step cfg false (lws_ws_rx_sm cfg cb w ignore no_cb c).
Proof.
  intros Hwf. unfold lws_ws_rx_sm. destruct (socket_is_permanently_unusable w); [by apply good_ok|].
  destruct (lws_rx_parse_state w); try (by apply good_ok); try (by apply good_handle_first);
    try (apply good_ok; [by apply wf_key_byte|done]).
  - destruct (_ =? 13); [by apply good_handle_first|by apply good_ok].
  - unfold frame_hdr_len. cbv zeta.
    repeat match goal with |- good_step _ _ (if ?b then _ else _) => destruct b end;
      try (by apply good_ok); by apply good_spill.
  - destruct (negb _); by apply good_ok.
  - unfold frame_key_4. destruct (_ =? 0).
    + apply good_spill; [by apply (wf_key_byte w)|done].
    + apply good_ok; [by apply (wf_key_byte w)|done].
  - destruct (good_frame_payload w c ignore no_cb Hwf) as [(n & w' & E & H & _)|Hfull].
    + by exists n, w'.
    + unfold frame_payload. rewrite (proj2 (Z.leb_le _ _)) by done. by apply good_ok.
Qed.

(** Bulk payload. *)
Lemma rest_is_payload_wf w buf :
  wf_lws cfg w → buf ≠ [] →
  ∃ r used w', lws_ws_frame_rest_is_payload cfg cb w buf = (r, used, w') ∧ wf_lws cfg w'
    ∧ (used ≤ length buf)%nat ∧ (0 < r → (0 < used)%nat)
    ∧ (r = 0 → w' = w ∧ used = 0%nat ∧ rx_packet_length w = 0).
Proof.
  intros Hwf Hne. unfold lws_ws_frame_rest_is_payload.
  assert (0 < Z.of_nat (length buf)) as Hl by (destruct buf; [done|cbn; lia]).
  pose proof (min3 (rx_size cfg) (rx_packet_length w) (Z.of_nat (length buf))) as Ea.
  cbv zeta in Ea |- *. rewrite Ea. clear Ea. set (avail := Z.min _ _).
  destruct (Z.eqb_spec avail 0) as [E0|N0].
  { eexists _, _, _. split; [reflexivity|]. split; [done|]. split; [lia|]. split; [lia|].
    intros _. split; [done|]. split; [done|]. lia. }
  destruct (if all_zero_nonce w then _ else _) as [[token rem] wm] eqn:Em.
  assert (wf_lws cfg wm) as Hm by (destruct (all_zero_nonce w); injection Em as _ _ <-; exact Hwf).
  destruct (if check_utf8 _ && _ then _ else _) as [bad u].
  match goal with |- context [if ?b then (-1, _, lws_close_reason _ _ (bs "bad utf8")) else _] => destruct b end.
  { eexists _, _, _. split; [reflexivity|]. split; [by apply wf_close_reason|]. lia. }
  match goal with |- context [if ?b then (-1, _, lws_close_reason _ _ _) else _] => destruct b end.
  { eexists _, _, _. split; [reflexivity|]. split; [by apply wf_close_reason|]. lia. }
  match goal with |- context [let '(_, _) := ?x in _] => destruct x as [r w2] eqn:E2 end.
  assert (wf_lws cfg w2) as H2.
  { unfold callback in E2. destruct (wsistate_pre_close _); injection E2 as _ <-; exact Hm. }
  destruct (negb (r =? 0)).
  - eexists _, _, _. split; [reflexivity|]. split; [done|]. lia.
  - eexists _, _, _. split; [reflexivity|]. split; [done|]. lia.
Qed.

Lemma bulk_loop_wf fuel w buf bulk :
  wf_lws cfg w → (length buf < fuel)%nat →
  match bulk_loop cfg cb fuel w buf bulk with
  | inl w' => wf_lws cfg w'
  | inr (w', buf', bulk') =>
      wf_lws cfg w' ∧ (length buf' ≤ length buf)%nat
      ∧ ((length buf' < length buf)%nat ∨ w' = w ∧ buf' = buf
         ∧ (bulk' = bulk ∨ lws_rx_parse_state w = LWS_RXPS_WS_FRAME_PAYLOAD ∧ rx_packet_length w = 0))
  end.
Proof.
  revert w buf bulk. induction fuel as [|fuel IH]; intros w buf bulk Hwf Hf; [lia|].
  cbn [bulk_loop]. destruct (bool_decide _ && _ && _) eqn:Ec; [|split; [done|]; split; [lia|]; right; auto].
  apply andb_true_iff in Ec as [Ec Hne]. apply andb_true_iff in Ec as [Hst _].
  apply bool_decide_eq_true in Hst. apply negb_true_iff, bool_decide_eq_false in Hne.
  destruct (rest_is_payload_wf w buf Hwf Hne) as (r & used & w' & -> & Hwf' & Hu & Hpos & Hzero).
  destruct (Z.eqb_spec r 0) as [->|].
  { destruct (Hzero eq_refl) as (-> & -> & H0). rewrite drop_0. split; [done|]. split; [lia|].
    right. split; [done|]. split; [done|]. by right. }
  destruct (Z.ltb_spec r 0); [done|].
  assert (0 < length buf)%nat by (destruct buf; [done|cbn; lia]).
  specialize (IH w' (drop used buf) true Hwf'). rewrite length_drop in IH.
  destruct (bulk_loop cfg cb fuel w' (drop used buf) true) as [w2|[[w2 b2] k2]].
  - apply IH. lia.
  - destruct IH as (I1 & I2 & _); [lia|]. split; [done|]. split; [lia|]. left. lia.
Qed.

(** How many rounds [lws_parse_ws] may take. *)
Definition rounds (w : lws) (buf : list Z) : nat :=
  match buf with
  | [] => 0
  | _ => 2 * length buf - 1
         + (if bool_decide (lws_rx_parse_state w = LWS_RXPS_WS_FRAME_PAYLOAD) then 1 else 0)
  end.

Lemma parse_total n w buf :
  wf_lws cfg w → (rounds w buf ≤ n)%nat →
  ∃ r w' cached, wf_lws cfg w'
    ∧ ∀ fuel, (rounds w buf ≤ fuel)%nat → parse_ws_loop cfg cb rxflow fuel w buf = Ok (r, w', cached).
Proof.
  revert w buf. induction n as [|n IH]; intros w buf Hwf Hn.
  { destruct buf; [|cbn in Hn; lia]. exists 0, w, []. split; [done|]. intros fuel _. by destruct fuel. }
  destruct buf as [|b buf].
  { exists 0, w, []. split; [done|]. intros fuel _. by destruct fuel. }
  assert (∀ fuel, (rounds w (b :: buf) ≤ fuel)%nat → ∃ f, fuel = S f) as HS.
  { intros [|f] H; [cbn in H; lia|by exists f]. }
  assert (∀ r w', wf_lws cfg w' → (∀ f, parse_ws_loop cfg cb rxflow (S f) w (b :: buf) = r) →
    ∀ n' w'' ch, r = Ok (n', w'', ch) → wf_lws cfg w'' → ∃ n' w'' ch, wf_lws cfg w''
    ∧ ∀ fuel, (rounds w (b :: buf) ≤ fuel)%nat → parse_ws_loop cfg cb rxflow fuel w (b :: buf) = Ok (n', w'', ch)) as Hstop.
  { intros r w' _ Hr n' w'' ch -> H'. exists n', w'', ch. split; [done|].
    intros fuel Hf. destruct (HS fuel Hf) as [f ->]. apply Hr. }
  destruct (rxflow (log w)) eqn:Efl.
  { apply (Hstop (Ok (1, w, b :: buf)) w Hwf) with 1 w (b :: buf); [|done|done]. intros f. cbn. by rewrite Efl. }
  pose proof (bulk_loop_wf (S (length (b :: buf))) w (b :: buf) false Hwf ltac:(lia)) as Hb.
  destruct (bulk_loop cfg cb (S (length (b :: buf))) w (b :: buf) false) as [w1|[[w1 b1] k1]] eqn:Eb.
  { apply (Hstop (Ok (-1, w1, [])) w Hwf) with (-1) w1 []; [|done|done].
    intros f. cbn [parse_ws_loop]. by rewrite Efl, Eb. }
  destruct Hb as (Hw1 & Hlen & Hcase).
  (* the rest of the round *)
  assert (∃ m w2 b2, wf_lws cfg w2 ∧ (m < 0 ∨ (rounds w2 b2 < rounds w (b :: buf))%nat)
    ∧ ∀ f, parse_ws_loop cfg cb rxflow (S f) w (b :: buf)
           = if m <? 0 then Ok (-1, w2, []) else parse_ws_loop cfg cb rxflow f w2 b2)
    as (m & w2 & b2 & Hw2 & Hdec & Hround).
  { assert (∀ x y, (length y < length (b :: buf))%nat → (rounds x y < rounds w (b :: buf))%nat) as Hless.
    { intros x y Hxy. unfold rounds. destruct y as [|y0 y]; [cbn; lia|]. cbn [length] in *.
      case_bool_decide; case_bool_decide; lia. }
    destruct k1.
    - destruct (good_rx_sm w1 true true 0 Hw1) as (m & w2 & Em & Hw2 & _). exists m, w2, b1.
      split; [done|]. split; [|intros f; cbn [parse_ws_loop]; by rewrite Efl, Eb, Em].
      destruct Hcase as [Hlt|(-> & -> & [?|[Hst H0]])]; [right; by apply Hless|done|].
      unfold lws_ws_rx_sm in Em. destruct (socket_is_permanently_unusable w); [injection Em as <- _; left; lia|].
      rewrite Hst in Em. destruct (good_frame_payload w 0 true true Hwf) as [(m' & w2' & Em' & _ & Hout)|Hfull].
      + rewrite Em in Em'. injection Em' as <- <-. right. rewrite H0 in Hout. specialize (Hout eq_refl).
        unfold rounds. rewrite bool_decide_false, bool_decide_true by done. cbn; lia.
      + unfold frame_payload in Em. rewrite (proj2 (Z.leb_le _ _)) in Em by done. injection Em as <- _. left. lia.
    - destruct b1 as [|c1 b1].
      + exists 0, w1, []. split; [done|]. split; [right; apply Hless; cbn; lia|].
        intros f. cbn [parse_ws_loop]. by rewrite Efl, Eb.
      + destruct (good_rx_sm w1 false false c1 Hw1) as (m & w2 & Em & Hw2 & _). exists m, w2, b1.
        split; [done|]. split; [right; apply Hless; cbn in *; lia|].
        intros f. cbn [parse_ws_loop]. by rewrite Efl, Eb, Em. }
  destruct (Z.ltb_spec m 0).
  { by apply (Hstop (Ok (-1, w2, [])) w Hwf) with (-1) w2 []. }
  destruct Hdec as [?|Hdec]; [lia|].
  destruct (IH w2 b2 Hw2) as (r & w' & ch & Hw' & Hall); [lia|].
  exists r, w', ch. split; [done|]. intros fuel Hf. destruct (HS fuel Hf) as [f ->].
  rewrite Hround. apply Hall. lia.
Qed.
End safety.

(** ** Properties *)

(** [C35] The first byte of a frame is accepted exactly when RFC 6455 allows it
    at that point of the stream: a known opcode, control frames unfragmented, a
    continuation only inside a fragmented message and a new message only
    outside, RSV2 and RSV3 clear (RSV1 is let through although no extension
    was negotiated).  Otherwise the connection is dropped with close code 1002
    prepared. *)
Theorem rx_first_byte_iff (cfg : config) (cb : list event → event → Z) (w : lws) (inmsg : bool) (c : Z)
    (Hready : ready w inmsg) (Hc : is_byte c) :
  if legal_first inmsg c
  then ∃ w', lws_ws_rx_sm cfg cb w false false c = Ok (0, w')
             ∧ opened cfg w (Z.land c 15) (negb (Z.land c 128 =? 0)) w'
  else refused (lws_ws_rx_sm cfg cb w false false c).
Proof. by apply first_byte. Qed.

Lemma rx_first_byte_iff_witness :
  refused (lws_ws_rx_sm (Config 128 4096 true) (λ _ _, 0) lws_server_init_wsi_for_ws false false 0x80).
Proof.
  refine (rx_first_byte_iff (Config 128 4096 true) (λ _ _, 0) lws_server_init_wsi_for_ws false 0x80 _ _).
  - split; reflexivity.
  - by_compute.
Defined.

(** [C6] Delivery: any sequence of acceptable data, ping and pong frames,
    masked or not, with any form of length, is received however its bytes are
    cut into reads: every read is consumed, the callbacks are those of the
    frames in order (the pieces of a data frame put together are its payload,
    the last of a final frame marked final; a pong's payload; a request to
    write the pong of a ping), the ping's payload is kept for the pong, and the
    connection is ready for the next frame. *)
Theorem rx_delivers_frames (cfg : config) (cb : list event → event → Z) (rxflow : list event → bool)
    (w : lws) (c cN : conn) (fs : list frame) (reads : list (list Z))
    (Hcb : ∀ l e, cb l e = 0) (Hflow : ∀ l, rxflow l = false) (Hsize : 125 <= rx_size cfg)
    (Hw : sees w c (log w)) (Hfs : Forall wf_frame fs) (Hnext : frames_next cfg c fs = Some cN)
    (Hreads : concat reads = concat (encode_frame <$> fs)) :
  ∃ w' evs, parse_reads cfg cb rxflow w reads = Ok (0, w', [])
    ∧ frames_events cfg c fs evs ∧ sees w' cN (log w ++ evs).
Proof.
  assert (at_point cfg cb c fs (log w) w (concat reads)) as Hat.
  { exists [], fs, c, []. rewrite (app_nil_r (log w)). split; [by split|]. left. by split. }
  destruct (reads_step cfg cb rxflow Hcb Hflow Hsize c fs cN (log w) reads w Hat Hfs Hnext) as (w' & E & Hat').
  destruct (at_point_end cfg cb c fs cN (log w) w' Hat' Hnext) as (evs & He & Hs).
  by exists w', evs.
Qed.

Definition hello_frames : list frame :=
  [ Frame false 1 (Some [55; 250; 33; 61]) Len7 (bs "Hel");
    Frame true 9 (Some [1; 2; 3; 4]) Len7 (bs "ping");
    Frame true 0 (Some [0; 0; 0; 0]) Len16 (bs "lo") ].

Lemma rx_delivers_frames_witness :
  ∃ w' evs, parse_reads (Config 128 4096 true) (λ _ _, 0) (λ _, false) lws_server_init_wsi_for_ws
      [take 5 (concat (encode_frame <$> hello_frames)); drop 5 (concat (encode_frame <$> hello_frames))]
      = Ok (0, w', [])
    ∧ frames_events (Config 128 4096 true) conn0 hello_frames evs
    ∧ sees w' (Conn false true 0 false false (Some (bs "ping"))) evs.
Proof.
  apply (rx_delivers_frames (Config 128 4096 true) (λ _ _, 0) (λ _, false) lws_server_init_wsi_for_ws conn0
           (Conn false true 0 false false (Some (bs "ping"))) hello_frames).
  - reflexivity.
  - reflexivity.
  - vm_compute. discriminate.
  - repeat split.
  - by_compute.
  - vm_compute. reflexivity.
  - vm_compute. reflexivity.
Defined.

(** [C10] Whatever bytes arrive, in whatever state: the receive path never
    writes outside the receive buffer or the ping buffer, always returns
    (within the rounds it is given, more would change nothing), and leaves the
    connection well formed. *)
Theorem rx_safe_and_total (cfg : config) (cb : list event → event → Z) (rxflow : list event → bool)
    (w : lws) (buf : list Z) (Hsize : 0 < rx_size cfg) (Hw : wf_lws cfg w) :
  ∃ r w' cached, lws_parse_ws cfg cb rxflow w buf = Ok (r, w', cached) ∧ wf_lws cfg w'
    ∧ ∀ fuel, (2 * length buf ≤ fuel)%nat → parse_ws_loop cfg cb rxflow fuel w buf = Ok (r, w', cached).
Proof.
  destruct (parse_total cfg cb rxflow Hsize (rounds w buf) w buf Hw (le_n _)) as (r & w' & ch & Hw' & Hall).
  assert (rounds w buf ≤ 2 * length buf)%nat as Hr.
  { unfold rounds. destruct buf; [lia|]. cbn [length]. case_bool_decide; lia. }
  exists r, w', ch. split; [by apply Hall|]. split; [done|]. intros fuel Hf. apply Hall. lia.
Qed.

Lemma rx_safe_and_total_witness :
  ∃ r w' cached, lws_parse_ws (Config 1 0 true) (λ _ _, 0) (λ _, false) lws_server_init_wsi_for_ws
      [130; 126; 0; 0; 7; 255] = Ok (r, w', cached) ∧ wf_lws (Config 1 0 true) w'.
Proof.
  destruct (rx_safe_and_total (Config 1 0 true) (λ _ _, 0) (λ _, false) lws_server_init_wsi_for_ws
              [130; 126; 0; 0; 7; 255]) as (r & w' & ch & E & H & _).
  - vm_compute. reflexivity.
  - by repeat split.
  - by exists r, w', ch.
Defined.

(** The test for a text that ends inside a character is skipped when the last
    chunk of the message leaves bytes after its groups of four: with UTF-8
    checking on, a message that is the single byte C3, the first half of a
    character, is delivered as a complete text, and so is a second message that
    is only the second half, A9.  Neither is a text, and a reader of frames that
    keeps to [frame_next] refuses the first.  The same first half at the end of
    a message of four bytes is refused. *)
Definition half_character (b : Z) : frame := Frame true LWSWSOPC_TEXT_FRAME (Some [1; 2; 3; 4]) Len7 [b].

Lemma partial_character_accepted :
  (∃ w', lws_parse_ws (Config 128 4096 true) (λ _ _, 0) (λ _, false) lws_server_init_wsi_for_ws
           (encode_frame (half_character 195) ++ encode_frame (half_character 169)) = Ok (0, w', [])
         ∧ log w' = [RECEIVE true true false [195]; RECEIVE true true false [169]])
  ∧ frame_next (Config 128 4096 true) conn0 (half_character 195) = None
  ∧ (∃ w', lws_parse_ws (Config 128 4096 true) (λ _ _, 0) (λ _, false) lws_server_init_wsi_for_ws
             (encode_frame (Frame true LWSWSOPC_TEXT_FRAME (Some [1; 2; 3; 4]) Len7 [97; 98; 99; 195]))
           = Ok (-1, w', []) ∧ log w' = []).
Proof. split; [eexists|split; [|eexists]]; try split; vm_compute; reflexivity. Qed.
