(* ===== verification/WsTx.v ===== *)
(** * Sending websocket frames

    Models the send path of a websocket connection: [lws_issue_raw] and
    [lws_write] (lib/core/output.c), which put bytes on the socket and keep
    what it does not take in [buflist_out]; [rops_write_role_protocol_ws],
    which makes a frame of a message, and [rops_handle_POLLOUT_ws], which sends
    pongs, closes and pings (lib/roles/ws/ops-ws.c); [lws_handle_POLLOUT_event]
    (lib/core/service.c), which decides what is sent when the socket can take
    more; and [lws_callback_on_writable] (lib/core/pollfd.c).  The build has no
    extensions, and the connection is not carried in HTTP/2.

    The socket, the random source, the allocator and the protocol handler are
    parameters, asked with a counter so that every answer can differ.  The
    bytes the socket took are [wire]; [writes] lists the calls of [lws_write].
    One thread services the connection, and the events it is polled for can be
    changed. *)

From stdpp Require Import base numbers list strings.
From Stdlib Require Import ZArith Lia Ascii.
From S2P Require Import Prelude CommPlugin Utf8 Buflist WsRx WsRecv.

(** ** State *)

Definition LWS_WRITE_TEXT : Z := 0.
Definition LWS_WRITE_BINARY : Z := 1.
Definition LWS_WRITE_CONTINUATION : Z := 2.
Definition LWS_WRITE_HTTP : Z := 3.
Definition LWS_WRITE_CLOSE : Z := 4.
Definition LWS_WRITE_PING : Z := 5.
Definition LWS_WRITE_PONG : Z := 6.
Definition LWS_WRITE_HTTP_FINAL : Z := 7.
Definition LWS_WRITE_HTTP_HEADERS : Z := 8.
Definition LWS_WRITE_HTTP_HEADERS_CONTINUATION : Z := 9.
Definition LWS_WRITE_NO_FIN : Z := 64.

(** What send() answers: bytes taken, try again later, or an error. *)
Inductive sent := Sent (n : nat) | Again | Failed.

(** The connection: the fields shared with the receive path are in [ws].
    [pollout] says that the loop waits for the socket to be writeable; [sends],
    [draws] and [calls] count the calls of send(), of the random source and of
    the writeable callback. *)
Record wsi := Wsi {
  ws : lws;
  role_client : bool;
  inside_frame : bool;
  stashed_write_pending : bool;
  stashed_write_type : Z;
  buflist_out : list segment;
  could_have_pending : bool;
  waiting_to_send_close_frame : bool;
  close_needs_ack : bool;
  send_check_ping : bool;
  pollout : bool;
  handling_pollout : bool;
  leave_pollout_active : bool;
  sends : nat;
  draws : nat;
  calls : nat;
  wire : list Z;
  writes : list (Z * list Z);
}.

Definition wsi_eta (s : wsi) : wsi :=
  Wsi (ws s) (role_client s) (inside_frame s) (stashed_write_pending s) (stashed_write_type s)
    (buflist_out s) (could_have_pending s) (waiting_to_send_close_frame s) (close_needs_ack s)
    (send_check_ping s) (pollout s) (handling_pollout s) (leave_pollout_active s) (sends s)
    (draws s) (calls s) (wire s) (writes s).

Ltac wsi_setter proj s v :=
  let e := eval cbv [wsi_eta] in (wsi_eta s) in
  let e' := eval pattern (proj s) in e in
  match e' with ?f _ => let r := eval cbv beta in (f v) in exact r end.

Definition set_ws (v : lws) (s : wsi) : wsi := ltac:(wsi_setter ws s v).
Definition set_inside_frame (v : bool) (s : wsi) : wsi := ltac:(wsi_setter inside_frame s v).
Definition set_stashed_write_pending (v : bool) (s : wsi) : wsi := ltac:(wsi_setter stashed_write_pending s v).
Definition set_buflist_out (v : list segment) (s : wsi) : wsi := ltac:(wsi_setter buflist_out s v).
Definition set_could_have_pending (v : bool) (s : wsi) : wsi := ltac:(wsi_setter could_have_pending s v).
Definition set_waiting_to_send_close_frame (v : bool) (s : wsi) : wsi := ltac:(wsi_setter waiting_to_send_close_frame s v).
Definition set_close_needs_ack (v : bool) (s : wsi) : wsi := ltac:(wsi_setter close_needs_ack s v).
Definition set_send_check_ping (v : bool) (s : wsi) : wsi := ltac:(wsi_setter send_check_ping s v).
Definition set_pollout (v : bool) (s : wsi) : wsi := ltac:(wsi_setter pollout s v).
Definition set_handling_pollout (v : bool) (s : wsi) : wsi := ltac:(wsi_setter handling_pollout s v).
Definition set_leave_pollout_active (v : bool) (s : wsi) : wsi := ltac:(wsi_setter leave_pollout_active s v).
Definition set_sends (v : nat) (s : wsi) : wsi := ltac:(wsi_setter sends s v).
Definition set_draws (v : nat) (s : wsi) : wsi := ltac:(wsi_setter draws s v).
Definition set_calls (v : nat) (s : wsi) : wsi := ltac:(wsi_setter calls s v).
Definition set_wire (v : list Z) (s : wsi) : wsi := ltac:(wsi_setter wire s v).
Definition set_writes (v : list (Z * list Z)) (s : wsi) : wsi := ltac:(wsi_setter writes s v).

(** A connection right after the upgrade. *)
Definition wsi0 (client : bool) : wsi :=
  {| ws := lws_server_init_wsi_for_ws; role_client := client; inside_frame := false;
     stashed_write_pending := false; stashed_write_type := 0; buflist_out := [];
     could_have_pending := false; waiting_to_send_close_frame := false; close_needs_ack := false;
     send_check_ping := false; pollout := false; handling_pollout := false;
     leave_pollout_active := false; sends := 0; draws := 0; calls := 0; wire := [];
     writes := [] |}.

(** ** The code *)

Section tx.
Variable cfg : config.
(** [protocol->tx_packet_size]. *)
Variable tx_packet_size : Z.
(** send(), on the bytes it is offered. *)
Variable send : nat → list Z → sent.
(** lws_get_random of four bytes; [None] when it gets fewer. *)
Variable lws_get_random : nat → option (list Z).
(** Whether malloc() fails, after so many calls of send(). *)
Variable oom : nat → bool.

Definition lws_has_buffered_out (s : wsi) : bool :=
  match buflist_out s with [] => false | _ => true end.

(** [__lws_change_pollfd(wsi, 0, LWS_POLLOUT)]: while POLLOUT is being handled
    the request is only noted. *)
Definition change_pollfd_pollout (s : wsi) : wsi :=
  if handling_pollout s then set_leave_pollout_active true s else set_pollout true s.

Definition lws_callback_on_writable (s : wsi) : wsi :=
  if bool_decide (wsistate (ws s) = LRS_SHUTDOWN) then s
  else if socket_is_permanently_unusable (ws s) then s
  else change_pollfd_pollout s.

(** The most that is sent at once. *)
Definition tx_limit : Z :=
  (if negb (tx_packet_size =? 0) then tx_packet_size
   else if negb (rx_buffer_size cfg =? 0) then rx_buffer_size cfg
   else pt_serv_buf_size cfg) + Z.of_nat LWS_PRE + 4.

(** From "limit sending" on: [buf] is not empty. *)
Definition issue_send (s : wsi) (buf : list Z) : res (Z * wsi) :=
  let real_len := length buf in
  let n := Z.to_nat tx_limit in
  let n := if (real_len <? n)%nat then real_len else n in
  let answer := send (sends s) (take n buf) in
  let s := set_could_have_pending true (set_sends (S (sends s)) s) in
  match answer with
  | Failed => Ok (-1, set_ws (set_socket_is_permanently_unusable true (ws s)) s)
  | _ =>
      let m := match answer with Sent k => k | _ => 0%nat end in
      let s := set_wire (wire s ++ take m buf) s in
      if lws_has_buffered_out s then
        s ← (if negb (m =? 0)%nat
             then '(_, head) ← lws_buflist_use_segment (buflist_out s) m; Ok (set_buflist_out head s)
             else Ok s);
        if negb (lws_has_buffered_out s) then
          if bool_decide (wsistate (ws s) = LRS_FLUSHING_BEFORE_CLOSE) then Ok (-1, s)
          else Ok (Z.of_nat real_len, lws_callback_on_writable s)
        else Ok (Z.of_nat m, lws_callback_on_writable s)
      else if (m =? real_len)%nat then Ok (Z.of_nat m, s)
      else
        '(_, head) ← lws_buflist_append_segment (oom (sends s)) (buflist_out s) (drop m buf);
        Ok (Z.of_nat real_len, lws_callback_on_writable (set_buflist_out head s))
  end.

(** [buf] is [None] when the caller passes NULL. *)
Definition lws_issue_raw (s : wsi) (buf : option (list Z)) : res (Z * wsi) :=
  if bool_decide (wsistate (ws s) = LRS_FLUSHING_BEFORE_CLOSE) && negb (lws_has_buffered_out s)
  then Ok (Z.of_nat (length (default [] buf)), s)
  else
    '(buf, s) ←
      (match buf with
       | Some b =>
           if lws_has_buffered_out s then
             '(_, head) ← lws_buflist_append_segment (oom (sends s)) (buflist_out s) b;
             Ok (None, set_buflist_out head s)
           else Ok (buf, s)
       | None => Ok (buf, s)
       end);
    '(buf, s) ←
      (if lws_has_buffered_out s then
         '(_, b, head) ← lws_buflist_next_segment_len (buflist_out s);
         Ok (Some b, set_buflist_out head s)
       else Ok (buf, s));
    match buf with
    | None | Some [] => Ok (0, s)
    | Some b => issue_send s b
    end.

(** The per-frame nonce. *)
Definition lws_0405_frame_mask_generate (s : wsi) : bool * wsi :=
  let answer := lws_get_random (draws s) in
  let s := set_draws (S (draws s)) s in
  match answer with
  | None => (true, s)
  | Some key => (false, set_ws (set_mask_idx 0 (set_mask key (ws s))) s)
  end.

(** The loop over the payload of a client's frame. *)
Fixpoint mask_loop (key : list Z) (mask_idx : Z) (buf : list Z) : list Z :=
  match buf with
  | [] => []
  | b :: buf' =>
      Z.lxor b (nth (Z.to_nat (Z.land mask_idx 3)) key 0) :: mask_loop key (u8 (mask_idx + 1)) buf'
  end.

(** The opcode a write asks for. *)
Definition write_opcode (wp : Z) : option Z :=
  let w := Z.land wp 15 in
  if w =? LWS_WRITE_TEXT then Some LWSWSOPC_TEXT_FRAME
  else if w =? LWS_WRITE_BINARY then Some LWSWSOPC_BINARY_FRAME
  else if w =? LWS_WRITE_CONTINUATION then Some LWSWSOPC_CONTINUATION
  else if w =? LWS_WRITE_CLOSE then Some LWSWSOPC_CLOSE
  else if w =? LWS_WRITE_PING then Some LWSWSOPC_PING
  else if w =? LWS_WRITE_PONG then Some LWSWSOPC_PONG
  else None.

(** The bytes [buf[-pre..]] before the masking key: [n] is the opcode. *)
Definition write_header (n wp len is_masked_bit : Z) : list Z :=
  let n := if Z.land wp LWS_WRITE_NO_FIN =? 0 then Z.lor n (Z.shiftl 1 7) else n in
  if len <? 126 then [n; u8 (Z.lor len is_masked_bit)]
  else if len <? 65536
  then [n; Z.lor 126 is_masked_bit; u8 (Z.shiftr len 8); u8 len]
  else [n; Z.lor 127 is_masked_bit; Z.land (Z.shiftr len 56) 127; u8 (Z.shiftr len 48);
        u8 (Z.shiftr len 40); u8 (Z.shiftr len 32); u8 (Z.shiftr len 24); u8 (Z.shiftr len 16);
        u8 (Z.shiftr len 8); u8 len].

(** From do_more_inside_frame on: [hdr] is what was put before the payload
    without the key, [keyed] says that the key goes after it ([dropmask]). *)
Definition write_frame (s : wsi) (wp : Z) (hdr : list Z) (keyed : bool) (buf : list Z) (orig_len : Z) :
    res (Z * wsi) :=
  let '(bad, s) :=
    if role_client s && negb (inside_frame s) then lws_0405_frame_mask_generate s else (false, s) in
  if bad : bool then Ok (-1, s)
  else
    let out := if keyed then hdr ++ mask (ws s) ++ mask_loop (mask (ws s)) (mask_idx (ws s)) buf
               else hdr ++ buf in
    let pre := Z.of_nat (length hdr) + (if keyed then 4 else 0) in
    let s := if keyed then set_ws (set_mask_idx (u8 (mask_idx (ws s) + Z.of_nat (length buf))) (ws s)) s else s in
    let w := Z.land wp 31 in
    if (w =? LWS_WRITE_TEXT) || (w =? LWS_WRITE_BINARY) || (w =? LWS_WRITE_CONTINUATION) then
      '(n, s) ← lws_issue_raw s (Some out);
      let s := set_inside_frame true s in
      if n <=? 0 then Ok (n, s)
      else if n =? Z.of_nat (length buf) + pre then Ok (orig_len, set_inside_frame false s)
      else Ok (n - pre, s)
    else lws_issue_raw s (Some out).

Definition rops_write_role_protocol_ws (s : wsi) (buf : list Z) (wp : Z) : res (Z * wsi) :=
  let w := Z.land wp 31 in
  if (w =? LWS_WRITE_HTTP) || (w =? LWS_WRITE_HTTP_FINAL)
     || (w =? LWS_WRITE_HTTP_HEADERS_CONTINUATION) || (w =? LWS_WRITE_HTTP_HEADERS)
  then lws_issue_raw s (Some buf)
  else
    let len := Z.of_nat (length buf) in
    if inside_frame s then write_frame s wp [] false buf len
    else
      let '(wp, s) :=
        if (wp =? LWS_WRITE_PING) || (wp =? LWS_WRITE_PONG) || (wp =? LWS_WRITE_CLOSE) then (wp, s)
        else if negb (len =? 0) && stashed_write_pending s
        then (Z.lor (Z.land wp 192) (stashed_write_type s), set_stashed_write_pending false s)
        else (wp, s) in
      if ietf_spec_revision (ws s) =? 13 then
        match write_opcode wp with
        | None => Ok (-1, s)
        | Some n =>
            write_frame s wp (write_header n wp len (if role_client s then 128 else 0))
              (role_client s) buf len
        end
      else write_frame s wp [] false buf len.

(** The call is logged. *)
Definition lws_write (s : wsi) (buf : list Z) (wp : Z) : res (Z * wsi) :=
  if s32 (Z.of_nat (length buf)) <? 0 then Ok (-1, s)
  else rops_write_role_protocol_ws (set_writes (writes s ++ [(wp, buf)]) s) buf wp.

(** *** The socket can take more *)

Inductive hp_ret := LWS_HP_RET_BAIL_OK | LWS_HP_RET_BAIL_DIE | LWS_HP_RET_USER_SERVICE.

(** [lws_write] of the first [len] bytes of [ping_payload_buf]. *)
Definition write_ping_buf (s : wsi) (len wp : Z) : res (Z * wsi) :=
  _ ← check (len <=? Z.of_nat (length (ping_payload_buf (ws s)))) OutOfBounds;
  lws_write s (take (Z.to_nat len) (ping_payload_buf (ws s))) wp.

(** Priority 3a: the close packet asked for by the close api. *)
Definition send_close (s : wsi) : res (hp_ret * wsi) :=
  let s := set_waiting_to_send_close_frame false s in
  '(n, s) ← write_ping_buf s (close_in_ping_buffer_len (ws s)) LWS_WRITE_CLOSE;
  if 0 <=? n then
    if close_needs_ack s
    then Ok (LWS_HP_RET_BAIL_OK,
             set_ws (set_pong_timeout false (set_wsistate LRS_AWAITING_CLOSE_ACK (ws s))) s)
    else Ok (LWS_HP_RET_BAIL_DIE,
             set_ws (set_wsistate LRS_RETURNED_CLOSE (ws s)) (set_close_needs_ack false s))
  else Ok (LWS_HP_RET_BAIL_DIE, s).

(** The pong of a ping, or the answer to a close. *)
Definition send_pong (s : wsi) : res (hp_ret * wsi) :=
  if negb (payload_is_close (ws s)) && wsistate_pre_close (ws s)
  then Ok (LWS_HP_RET_BAIL_OK, set_ws (set_ping_pending_flag false (ws s)) s)
  else
    let write_type := if payload_is_close (ws s) then LWS_WRITE_CLOSE else LWS_WRITE_PONG in
    '(n, s) ← write_ping_buf s (ping_payload_len (ws s)) write_type;
    if n <? 0 then Ok (LWS_HP_RET_BAIL_DIE, s)
    else
      let s := set_ws (set_ping_pending_flag false (ws s)) s in
      if payload_is_close (ws s) then Ok (LWS_HP_RET_BAIL_DIE, s) else Ok (LWS_HP_RET_BAIL_OK, s).

(** The ping that checks whether the peer is there. *)
Definition send_ping (s : wsi) : res (hp_ret * wsi) :=
  '(n, s) ← write_ping_buf (set_send_check_ping false s) 0 LWS_WRITE_PING;
  if n <? 0 then Ok (LWS_HP_RET_BAIL_DIE, s)
  else Ok (LWS_HP_RET_BAIL_OK, set_ws (set_pong_timeout true (ws s)) s).

Definition rops_handle_POLLOUT_ws (s : wsi) : res (hp_ret * wsi) :=
  if bool_decide (wsistate (ws s) = LRS_WAITING_TO_SEND_CLOSE) then send_close s
  else if ping_pending_flag (ws s)
          || (bool_decide (wsistate (ws s) = LRS_RETURNED_CLOSE) && payload_is_close (ws s))
  then send_pong s
  else if negb (socket_is_permanently_unusable (ws s)) && send_check_ping s then send_ping s
  else Ok (LWS_HP_RET_USER_SERVICE, s).

(** The writeable callback of the protocol: the messages it writes, whether it
    asks to be called again, and what it returns. *)
Variable writeable : nat → list (list Z * Z) * bool * Z.

Fixpoint write_messages (s : wsi) (l : list (list Z * Z)) : res wsi :=
  match l with
  | [] => Ok s
  | (buf, wp) :: l' => '(_, s) ← lws_write s buf wp; write_messages s l'
  end.

Definition lws_callback_as_writeable (s : wsi) : res (Z * wsi) :=
  let '(l, again, r) := writeable (calls s) in
  s ← write_messages (set_calls (S (calls s)) s) l;
  Ok (r, if again : bool then lws_callback_on_writable s else s).

Definition bail (s : wsi) (r : Z) : res (Z * wsi) :=
  Ok (r, set_leave_pollout_active false (set_handling_pollout false s)).

Definition lws_handle_POLLOUT_event (s : wsi) : res (Z * wsi) :=
  let s := set_could_have_pending false (set_handling_pollout true (set_leave_pollout_active false s)) in
  if lws_has_buffered_out s then
    '(n, s) ← lws_issue_raw s None;
    bail s (if n <? 0 then -1 else 0)
  else if bool_decide (wsistate (ws s) = LRS_FLUSHING_BEFORE_CLOSE)
  then bail (set_ws (set_socket_is_permanently_unusable true (ws s)) s) (-1)
  else
    '(h, s) ← rops_handle_POLLOUT_ws s;
    match h with
    | LWS_HP_RET_BAIL_OK => bail s 0
    | LWS_HP_RET_BAIL_DIE => bail s (-1)
    | LWS_HP_RET_USER_SERVICE =>
        (** one shot *)
        let s := if leave_pollout_active s then s else set_pollout false s in
        let s := set_leave_pollout_active false (set_handling_pollout false s) in
        '(n, s) ← lws_callback_as_writeable s;
        let s := set_handling_pollout false s in
        Ok (n, if leave_pollout_active s then change_pollfd_pollout s else s)
    end.

(** *** Serving a connection *)

Inductive step :=
  | Pollout             (** the socket can take more *)
  | Receive (buf : list Z)  (** bytes were read from it *)
  | Request.            (** the handler asks for the writeable callback *)

Variable cb : list event → event → Z.

(** Bytes were read by a server: the handler never stops input; a request to
    write is passed on.  What a client reads goes through client-parser-ws.c,
    which is not modelled. *)
Definition receive (s : wsi) (buf : list Z) : res (Z * wsi) :=
  _ ← check (negb (role_client s)) NotModelled;
  let w := set_partial_buffered (lws_has_buffered_out s) (ws s) in
  '(r, w, _) ← lws_parse_ws cfg cb (λ _, false) w buf;
  let asked := bool_decide (WRITEABLE_REQUESTED ∈ drop (length (log (ws s))) (log w)) in
  let s := set_ws w s in
  Ok (r, if asked then lws_callback_on_writable s else s).

(** The events the model covers for a role: those of a client leave out its
    reads. *)
Definition covered (client : bool) (x : step) : bool :=
  match x with Receive _ => negb client | _ => true end.

(** [false]: the connection is to be closed. *)
Definition service_step (s : wsi) (x : step) : res (bool * wsi) :=
  match x with
  | Pollout =>
      if pollout s then '(n, s) ← lws_handle_POLLOUT_event s; Ok (n =? 0, s) else Ok (true, s)
  | Receive buf => '(n, s) ← receive s buf; Ok (0 <=? n, s)
  | Request => Ok (true, lws_callback_on_writable s)
  end.

Fixpoint service (s : wsi) (xs : list step) : res (bool * wsi) :=
  match xs with
  | [] => Ok (true, s)
  | x :: xs' =>
      '(alive, s) ← service_step s x;
      if alive : bool then service s xs' else Ok (false, s)
  end.
End tx.

(** ** The frames of the messages *)

(** The frame a write stands for. *)
Definition wp_frame (key : option (list Z)) (wp : Z) (p : list Z) : frame :=
  {| f_fin := Z.land wp LWS_WRITE_NO_FIN =? 0;
     f_opcode := default 0 (write_opcode wp);
     f_key := key;
     f_form := if Z.of_nat (length p) <? 126 then Len7
               else if Z.of_nat (length p) <? 65536 then Len16 else Len64;
     f_payload := p |}.

(** The frames of the messages written so far; a client's are masked with the
    keys it drew. *)
Definition frames (rnd : nat → option (list Z)) (s : wsi) : list frame :=
  imap (λ i x, wp_frame (if role_client s then rnd i else None) x.1 x.2) (writes s).

(** Everything written so far: on the wire, or still buffered. *)
Definition stream (s : wsi) : list Z := wire s ++ content (buflist_out s).

(** The writes the callbacks may make: text, binary, continuation, ping, pong,
    the fragments with or without FIN. *)
Definition user_wp (wp : Z) : bool := existsb (Z.eqb wp) [0; 1; 2; 64; 65; 66; 5; 6].
