(* ===== verification/WsSend.v ===== *)
(** * What the send path puts on the wire

    The properties of WsTx: whatever the socket takes at a time, the bytes on
    the wire and those buffered are the frames of the messages written, in
    order; buffered bytes are sent as the socket takes them; a ping is answered;
    and, together with the receive path, what a client writes is what the server
    delivers.  [served] is the invariant of a connection between two events. *)

From stdpp Require Import base numbers list strings.
From Stdlib Require Import ZArith Lia Ascii.
From S2P Require Import Prelude CommPlugin Utf8 Buflist WsRx WsRecv WsTx.

(** ** Lemmas: the header and the masking *)

Lemma wp_cases wp (P : Z → Prop) :
  P 0 → P 1 → P 2 → P 64 → P 65 → P 66 → P 5 → P 6 → P 4 →
  user_wp wp = true ∨ wp = LWS_WRITE_CLOSE → P wp.
Proof.
  intros ? ? ? ? ? ? ? ? ? [H| ->]; [|done]. unfold user_wp in H. cbn in H.
  rewrite !orb_true_iff, !Z.eqb_eq in H. naive_solver.
Qed.

Lemma u8_shiftr len k : 0 <= k → u8 (Z.shiftr len k) = (len `div` 2 ^ k) `mod` 256.
Proof. intros. unfold u8. by rewrite Z.shiftr_div_pow2. Qed.

Lemma top_byte len : 0 <= len < 2 ^ 63 → Z.land (Z.shiftr len 56) 127 = (len `div` 2 ^ 56) `mod` 256.
Proof.
  intros H. change 127 with (Z.ones 7). rewrite Z.land_ones, Z.shiftr_div_pow2 by lia.
  rewrite !Z.mod_small; [done| |]; (split; [apply Z.div_pos; lia|apply Z.div_lt_upper_bound; lia]).
Qed.

Lemma write_header_frame wp key p op :
  user_wp wp = true ∨ wp = LWS_WRITE_CLOSE → write_opcode wp = Some op →
  Z.of_nat (length p) < 2 ^ 63 →
  write_header op wp (Z.of_nat (length p)) (if key is Some _ then 128 else 0) ++ default [] key
  = frame_header (wp_frame key wp p).
Proof.
  intros Hwp Hop Hlen. unfold frame_header, len_bytes, write_header, f_len. cbn [wp_frame f_fin f_opcode f_key f_form f_payload].
  assert ((if Z.land wp LWS_WRITE_NO_FIN =? 0 then Z.lor op (Z.shiftl 1 7) else op)
          = (if Z.land wp LWS_WRITE_NO_FIN =? 0 then 128 else 0) + default 0 (write_opcode wp)) as ->.
  { rewrite Hop. revert Hop. pattern wp. revert Hwp. apply wp_cases; vm_compute; by intros [= <-]. }
  rewrite app_comm_cons. f_equal. set (len := Z.of_nat (length p)) in *.
  assert (0 <= len) by lia.
  destruct (Z.ltb_spec len 126); [|destruct (Z.ltb_spec len 65536)].
  - f_equal. f_equal. assert (Z.lor len (if key is Some _ then 128 else 0) = (if key is Some _ then 128 else 0) + len) as ->.
    { destruct key; [|by rewrite Z.lor_0_r].
      rewrite Z.lor_comm. apply (lor_shiftl_add 1 len 7); lia. }
    rewrite u8_small; [done|]. destruct key; lia.
  - f_equal. assert (be_bytes 2 len = [u8 (Z.shiftr len 8); u8 (Z.shiftr len 0)]) as ->.
    { rewrite !u8_shiftr by lia. reflexivity. }
    rewrite Z.shiftr_0_r. by destruct key.
  - f_equal. assert (be_bytes 8 len = [Z.land (Z.shiftr len 56) 127; u8 (Z.shiftr len 48);
        u8 (Z.shiftr len 40); u8 (Z.shiftr len 32); u8 (Z.shiftr len 24); u8 (Z.shiftr len 16);
        u8 (Z.shiftr len 8); u8 (Z.shiftr len 0)]) as ->.
    { rewrite top_byte, !u8_shiftr by lia. reflexivity. }
    rewrite Z.shiftr_0_r. by destruct key.
Qed.

Lemma mask_loop_from key i l : mask_loop key (u8 (Z.of_nat i)) l = mask_from key i l.
Proof.
  revert i. induction l as [|b l IH]; intros i; [done|]. unfold mask_from. cbn [mask_loop imap].
  f_equal.
  - rewrite land3. unfold u8. rewrite Z.mod_mod_divide by (by exists 64).
    rewrite Nat.add_0_r. f_equal. f_equal.
    apply Nat2Z.inj. rewrite Nat2Z.inj_mod, Z2Nat.id by (apply Z.mod_pos_bound; lia). done.
  - assert (u8 (u8 (Z.of_nat i) + 1) = u8 (Z.of_nat (S i))) as ->.
    { unfold u8. rewrite Zplus_mod_idemp_l. f_equal. lia. }
    rewrite IH. unfold mask_from. apply imap_ext. intros j x _. cbn. do 2 f_equal. by rewrite Nat.add_succ_r.
Qed.

(** ** Lemmas: the stream *)

(** What the environment promises: send() takes some of what it is offered or
    asks to try again, four random bytes are to be had, and malloc() works. *)
Record environment (send : nat → list Z → sent) (rnd : nat → option (list Z)) (oom : nat → bool) : Prop := {
  env_send n b : match send n b with Sent k => (k ≤ length b)%nat | Again => True | Failed => False end;
  env_random n : ∃ key, rnd n = Some key ∧ length key = 4%nat;
  env_malloc n : oom n = false;
}.

(** The fields sending bytes leaves alone. *)
Definition kept (s : wsi) :=
  (ws s, role_client s, inside_frame s, stashed_write_pending s, handling_pollout s,
   (waiting_to_send_close_frame s, close_needs_ack s, send_check_ping s), draws s, calls s, writes s).

(** POLLOUT is on, or will be when its handling is over. *)
Definition asked (s : wsi) : bool := if handling_pollout s then leave_pollout_active s else pollout s.

Definition usable (w : lws) : Prop :=
  socket_is_permanently_unusable w = false ∧ wsistate w ≠ LRS_SHUTDOWN.

(** How sending [buf] takes [s] to [s']. *)
Record sends_to (s : wsi) (buf : list Z) (s' : wsi) : Prop := {
  st_kept : kept s' = kept s;
  st_stream : stream s' = stream s ++ buf;
  st_wf : Forall wf_segment (buflist_out s');
  st_asked : usable (ws s) → buflist_out s' ≠ [] → asked s' = true;
  st_pollout : pollout s = true → pollout s' = true;
}.

Section stream.
Context (cfg : config) (tx_packet_size : Z) (send : nat → list Z → sent).
Context (rnd : nat → option (list Z)) (oom : nat → bool) (Henv : environment send rnd oom).

#[local] Abbreviation issue_send := (issue_send cfg tx_packet_size send oom).
#[local] Abbreviation lws_issue_raw := (lws_issue_raw cfg tx_packet_size send oom).
#[local] Abbreviation lws_write := (lws_write cfg tx_packet_size send rnd oom).

Lemma on_writable_asked s : usable (ws s) → asked (lws_callback_on_writable s) = true.
Proof.
  intros [H1 H2]. unfold lws_callback_on_writable. rewrite bool_decide_false, H1 by done.
  unfold change_pollfd_pollout, asked. destruct (handling_pollout s) eqn:E; cbn; by rewrite E.
Qed.

Lemma on_writable_kept s :
  kept (lws_callback_on_writable s) = kept s ∧ buflist_out (lws_callback_on_writable s) = buflist_out s
  ∧ wire (lws_callback_on_writable s) = wire s
  ∧ (pollout s = true → pollout (lws_callback_on_writable s) = true).
Proof.
  unfold lws_callback_on_writable, change_pollfd_pollout. repeat case_match; done.
Qed.

Lemma segment_wf buf m : (m < length buf)%nat → wf_segment (Segment (drop m buf) 0).
Proof. unfold wf_segment, slen. cbn. rewrite length_drop. lia. Qed.

(** The outcome of send(): so many bytes of [buf] were taken. *)
Lemma send_taken s buf :
  ∃ m, (m ≤ length buf)%nat
    ∧ (match send (sends s) (take (let n := Z.to_nat (tx_limit cfg tx_packet_size) in
                                   if (length buf <? n)%nat then length buf else n) buf) with
       | Sent k => Some k | Again => Some 0%nat | Failed => None end) = Some m.
Proof.
  pose proof (env_send _ _ _ Henv (sends s)
    (take (let n := Z.to_nat (tx_limit cfg tx_packet_size) in
           if (length buf <? n)%nat then length buf else n) buf)) as H.
  destruct (send _ _) as [k| |]; [exists k|exists 0%nat|done]; (split; [|done]); [|lia].
  rewrite length_take in H. lia.
Qed.

Lemma issue_send_fresh s buf :
  buflist_out s = [] → buf ≠ [] →
  ∃ s', issue_send s buf = Ok (Z.of_nat (length buf), s') ∧ sends_to s buf s'.
Proof.
  intros Hout Hne. destruct (send_taken s buf) as (m & Hm & E). unfold issue_send. cbv zeta in E |- *.
  set (s1 := set_wire (wire s ++ take m buf) (set_could_have_pending true (set_sends (S (sends s)) s))).
  assert (kept s1 = kept s ∧ buflist_out s1 = []) as [Hk1 Ho1] by done.
  assert (∃ s', (if (m =? length buf)%nat then Ok (Z.of_nat m, s1)
      else '(_, head) ← lws_buflist_append_segment (oom (sends s1)) (buflist_out s1) (drop m buf);
           Ok (Z.of_nat (length buf), lws_callback_on_writable (set_buflist_out head s1)))
    = Ok (Z.of_nat (length buf), s') ∧ sends_to s buf s') as Hgoal.
  { destruct (Nat.eqb_spec m (length buf)) as [->|Hlt].
    - exists s1. split; [done|]. split; [done| |by rewrite Ho1|by rewrite Ho1|done].
      unfold stream. rewrite Ho1, Hout. cbn. by rewrite firstn_all, !app_nil_r.
    - rewrite Ho1. unfold lws_buflist_append_segment. rewrite (env_malloc _ _ _ Henv).
      rewrite bool_decide_false by (intros Hd; apply (f_equal length) in Hd; rewrite length_drop in Hd; cbn in Hd; lia).
      eexists. split; [reflexivity|]. set (s2 := set_buflist_out _ s1).
      destruct (on_writable_kept s2) as (K & B & W & P).
      split; [by rewrite K| | | |exact P].
      + unfold stream. rewrite B, W, Hout. cbn. unfold content. cbn.
        rewrite !app_nil_r, <- app_assoc. unfold sleft. cbn. by rewrite drop_0, take_drop.
      + rewrite B. constructor; [apply segment_wf; lia|done].
      + intros Hu _. by apply on_writable_asked. }
  destruct (send _ _) as [k| |]; [injection E as ->|injection E as <-|done];
    (destruct (lws_has_buffered_out _) eqn:Eb; [exfalso; unfold lws_has_buffered_out in Eb; cbn in Eb; by rewrite Hout in Eb|]);
    exact Hgoal.
Qed.

Lemma issue_raw_fresh s buf :
  buflist_out s = [] → buf ≠ [] → wsistate (ws s) ≠ LRS_FLUSHING_BEFORE_CLOSE →
  ∃ s', lws_issue_raw s (Some buf) = Ok (Z.of_nat (length buf), s') ∧ sends_to s buf s'.
Proof.
  intros Hout Hne Hst. unfold lws_issue_raw. rewrite bool_decide_false by done.
  assert (lws_has_buffered_out s = false) as Hb by (unfold lws_has_buffered_out; by rewrite Hout).
  cbn [andb]. rewrite Hb. cbn [mbind res_bind]. rewrite Hb. cbn [mbind res_bind].
  destruct buf as [|b buf]; [done|]. by apply issue_send_fresh.
Qed.

(** How many bytes send() would take of [buf] now. *)
Definition taken (s : wsi) (buf : list Z) : nat :=
  match send (sends s) (take (let n := Z.to_nat (tx_limit cfg tx_packet_size) in
                              if (length buf <? n)%nat then length buf else n) buf) with
  | Sent k => k | _ => 0%nat end.

Lemma taken_le s buf : (taken s buf ≤ length buf)%nat.
Proof.
  destruct (send_taken s buf) as (m & Hm & E). unfold taken. destruct (send _ _); [by injection E as ->|lia|done].
Qed.

(** A buffer of segments, some bytes used from the first. *)
Lemma use_taken seg rest m :
  Forall wf_segment (seg :: rest) → (m ≤ length (sleft seg))%nat →
  ∃ head, (if negb (m =? 0)%nat
           then '(_, head) ← lws_buflist_use_segment (seg :: rest) m; Ok head
           else Ok (seg :: rest)) = Ok head
    ∧ Forall wf_segment head ∧ take m (sleft seg) ++ content head = content (seg :: rest)
    ∧ (length head ≤ length (seg :: rest))%nat.
Proof.
  intros Hwf Hm. inversion Hwf as [|? ? Hs Hr]; subst. destruct (Nat.eqb_spec m 0) as [->|Hm0]; cbn [negb].
  { exists (seg :: rest). by rewrite take_0. }
  destruct (use_segment_wf seg rest m Hs) as (head & E & Hcase); [lia|]. rewrite E. exists head.
  split; [done|]. destruct (sleft_nonempty seg Hs) as [El _]. unfold content. cbn [fmap list_fmap concat].
  destruct Hcase as [[-> ->]|[Hlt ->]].
  - rewrite firstn_all. split_and!; try done. cbn. lia.
  - split; [constructor; [unfold wf_segment, slen in *; cbn; lia|done]|]. split; [|done].
    cbn [fmap list_fmap concat]. rewrite app_assoc. f_equal. unfold sleft. cbn [sbuf spos].
    by rewrite <- drop_drop, take_drop.
Qed.

(** After [m] bytes of the first segment were sent. *)
Lemma flushed s seg rest m head s2 :
  buflist_out s = seg :: rest → (m ≤ length (sleft seg))%nat →
  Forall wf_segment head → take m (sleft seg) ++ content head = content (seg :: rest) →
  buflist_out s2 = head → wire s2 = wire s ++ take m (sleft seg) → kept s2 = kept s → pollout s2 = pollout s →
  sends_to s [] (lws_callback_on_writable s2)
  ∧ length (wire (lws_callback_on_writable s2)) = (length (wire s) + m)%nat.
Proof.
  intros Hout Hm Hwh Hch Eo Ew Ek Ep. destruct (on_writable_kept s2) as (K & B & W & P). split; [split|].
  - by rewrite K.
  - unfold stream. rewrite B, W, Eo, Ew, app_nil_r. rewrite <- app_assoc, Hch. by rewrite Hout.
  - by rewrite B, Eo.
  - intros Hu _. apply on_writable_asked. by rewrite (f_equal (λ x, x.1.1.1.1.1.1.1.1) Ek : ws s2 = ws s).
  - rewrite <- Ep. exact P.
  - rewrite W, Ew, length_app, length_take. lia.
Qed.

Lemma issue_raw_flush s seg rest :
  buflist_out s = seg :: rest → Forall wf_segment (buflist_out s) →
  wsistate (ws s) ≠ LRS_FLUSHING_BEFORE_CLOSE →
  ∃ n s', lws_issue_raw s None = Ok (n, s') ∧ 0 <= n ∧ sends_to s [] s'
    ∧ (buflist_out s' ≠ [] → n = Z.of_nat (taken s (sleft seg)))
    ∧ length (wire s') = (length (wire s) + taken s (sleft seg))%nat
    ∧ (length (buflist_out s') ≤ length (buflist_out s))%nat
    ∧ (usable (ws s) → asked s' = true).
Proof.
  intros Hout Hwf Hst. pose proof Hwf as Hwf'. rewrite Hout in Hwf'.
  assert (lws_has_buffered_out s = true) as Hb by (unfold lws_has_buffered_out; by rewrite Hout).
  unfold lws_issue_raw. rewrite Hb, andb_false_r. cbn [mbind res_bind]. rewrite Hb, Hout, next_segment_wf by done.
  cbn [mbind res_bind]. replace (set_buflist_out (seg :: rest) s) with s by (rewrite <- Hout; by destruct s).
  assert (wf_segment seg) as Hs by (by inversion Hwf').
  destruct (sleft_nonempty seg Hs) as [_ Hne]. destruct (sleft seg) as [|b0 l0] eqn:El; [done|]. rewrite <- El in *.
  destruct (send_taken s (sleft seg)) as (m & Hm & E).
  assert (taken s (sleft seg) = m) as -> by (unfold taken; by destruct (send _ _); simplify_eq).
  unfold issue_send. cbv zeta in E |- *.
  set (s1 := set_wire (wire s ++ take m (sleft seg)) (set_could_have_pending true (set_sends (S (sends s)) s))).
  destruct (use_taken seg rest m Hwf' Hm) as (head & Eh & Hwh & Hch & Hlh).
  assert (∃ n' s', (s2 ← (if negb (m =? 0)%nat
             then '(_, head) ← lws_buflist_use_segment (buflist_out s1) m; Ok (set_buflist_out head s1)
             else Ok s1);
        if negb (lws_has_buffered_out s2) then
          if bool_decide (wsistate (ws s2) = LRS_FLUSHING_BEFORE_CLOSE) then Ok (-1, s2)
          else Ok (Z.of_nat (length (sleft seg)), lws_callback_on_writable s2)
        else Ok (Z.of_nat m, lws_callback_on_writable s2)) = Ok (n', s') ∧ 0 <= n' ∧ sends_to s [] s'
      ∧ (buflist_out s' ≠ [] → n' = Z.of_nat m)
      ∧ length (wire s') = (length (wire s) + m)%nat
      ∧ (length (buflist_out s') ≤ length (seg :: rest))%nat
      ∧ (usable (ws s) → asked s' = true)) as Hgoal.
  { assert (∃ s2, (if negb (m =? 0)%nat
             then '(_, head) ← lws_buflist_use_segment (buflist_out s1) m; Ok (set_buflist_out head s1)
             else Ok s1) = Ok s2 ∧ buflist_out s2 = head ∧ wire s2 = wire s1 ∧ kept s2 = kept s
             ∧ pollout s2 = pollout s) as (s2 & -> & H1 & H2 & H3 & H4).
    { change (buflist_out s1) with (buflist_out s). rewrite Hout. destruct (negb (m =? 0)%nat).
      - destruct (lws_buflist_use_segment (seg :: rest) m) as [[r h]|]; [|done]. injection Eh as <-. by eexists.
      - exists s1. injection Eh as <-. by repeat split. }
    cbn [mbind res_bind]. rewrite (f_equal (λ x, x.1.1.1.1.1.1.1.1) H3 : ws s2 = ws s), bool_decide_false by done.
    destruct (flushed s seg rest m head s2 Hout Hm Hwh Hch H1 H2 H3 H4) as [Hst2 Hw2].
    assert (buflist_out (lws_callback_on_writable s2) = buflist_out s2) as B by apply on_writable_kept.
    unfold lws_has_buffered_out. destruct (buflist_out s2) as [|seg2 rest2] eqn:Eo2; cbn [negb]; subst head;
      (eexists _, _; split; [reflexivity|]; split; [lia|]; split; [done|]; split; [by rewrite ?B|]; split; [done|]; split; [by rewrite B|];
       rewrite <- (f_equal (λ x, x.1.1.1.1.1.1.1.1) H3 : ws s2 = ws s); apply on_writable_asked). }
  destruct (send _ _) as [k| |]; [injection E as ->|injection E as <-|done];
    (destruct (lws_has_buffered_out _) eqn:Eb; [exact Hgoal|exfalso; unfold lws_has_buffered_out in Eb; cbn in Eb; by rewrite Hout in Eb]).
Qed.

(** ** Lemmas: writing a message *)

(** The connection between writes: everything written is on the wire or
    buffered, as frames. *)
Record tx_ok (s : wsi) : Prop := {
  to_ws : wf_lws cfg (ws s);
  to_inside : inside_frame s = false;
  to_stash : stashed_write_pending s = false;
  to_draws : role_client s = true → draws s = length (writes s);
  to_out : Forall wf_segment (buflist_out s);
  to_stream : stream s = concat (encode_frame <$> frames rnd s);
}.

Lemma to_ping s : tx_ok s → wf_ping (ws s).
Proof. intros H. apply H. Qed.

(** The fields a write leaves alone: of [ws], all but the mask. *)
Definition wkept (s : wsi) :=
  (set_mask [] (set_mask_idx 0 (ws s)), role_client s, handling_pollout s,
   (waiting_to_send_close_frame s, close_needs_ack s, send_check_ping s), calls s).

Lemma wp_facts wp :
  user_wp wp = true ∨ wp = LWS_WRITE_CLOSE →
  (let w := Z.land wp 31 in
   (w =? LWS_WRITE_HTTP) || (w =? LWS_WRITE_HTTP_FINAL)
   || (w =? LWS_WRITE_HTTP_HEADERS_CONTINUATION) || (w =? LWS_WRITE_HTTP_HEADERS)) = false
  ∧ ∃ op, write_opcode wp = Some op.
Proof. intros H. pattern wp. revert H. apply wp_cases; (split; [reflexivity|by eexists]). Qed.

Lemma mask_loop_length key i l : length (mask_loop key i l) = length l.
Proof. revert i. induction l as [|b l IH]; intros i; [done|]. cbn. by rewrite IH. Qed.

(** From the label on, when [hdr] and the key are the header of a frame: the
    frame's encoding is handed to [lws_issue_raw]. *)
Lemma write_frame_issues s wp hdr (p : list Z) key (f := wp_frame (if role_client s then Some key else None) wp p) :
  inside_frame s = false → buflist_out s = [] →
  (if role_client s then rnd (draws s) = Some key ∧ length key = 4%nat else key = []) →
  hdr ++ key = frame_header f →
  ∃ s1 pre, Z.of_nat (length p) + pre = Z.of_nat (length (encode_frame f))
    ∧ wkept s1 = wkept s ∧ writes s1 = writes s ∧ stashed_write_pending s1 = stashed_write_pending s
    ∧ draws s1 = (if role_client s then S (draws s) else draws s)
    ∧ stream s1 = stream s ∧ buflist_out s1 = [] ∧ pollout s1 = pollout s ∧ inside_frame s1 = false
    ∧ write_frame cfg tx_packet_size send rnd oom s wp hdr (role_client s) p (Z.of_nat (length p))
      = (let w := Z.land wp 31 in
         if (w =? LWS_WRITE_TEXT) || (w =? LWS_WRITE_BINARY) || (w =? LWS_WRITE_CONTINUATION) then
           '(n, s) ← lws_issue_raw s1 (Some (encode_frame f));
           let s := set_inside_frame true s in
           if n <=? 0 then Ok (n, s)
           else if n =? Z.of_nat (length p) + pre then Ok (Z.of_nat (length p), set_inside_frame false s)
           else Ok (n - pre, s)
         else lws_issue_raw s1 (Some (encode_frame f))).
Proof.
  intros Hin Hout Hkey Hhdr. subst f. unfold write_frame. rewrite Hin.
  destruct (role_client s) eqn:Er; cbn [andb negb].
  - destruct Hkey as [Hrnd Hk4]. unfold lws_0405_frame_mask_generate. rewrite Hrnd.
    set (f := wp_frame _ wp p) in *.
    assert (encode_frame f = hdr ++ key ++ mask_loop key 0 p) as Ef.
    { unfold encode_frame. rewrite <- Hhdr, <- app_assoc.
      change (mask_payload f) with (mask_from key 0 p). by rewrite <- (mask_loop_from key 0). }
    eexists _, (Z.of_nat (length hdr) + 4). rewrite Ef.
    split; [|split; [|split; [|split; [|split; [|split; [|split; [|split; [|split; [|reflexivity]]]]]]]]];
      try reflexivity; try done.
    rewrite !length_app, Hk4, mask_loop_length. lia.
  - subst key. rewrite app_nil_r in Hhdr. set (f := wp_frame _ wp p) in *.
    assert (encode_frame f = hdr ++ p) as Ef by (unfold encode_frame; by rewrite <- Hhdr).
    eexists s, (Z.of_nat (length hdr) + 0). rewrite Ef. split; [rewrite length_app; lia|]. by split_and!.
Qed.

(** A field of [ws] that is not the mask is left alone. *)
Lemma wkept_field {A} (g : lws → A) s s' :
  wkept s' = wkept s → (∀ w, g (set_mask [] (set_mask_idx 0 w)) = g w) → g (ws s') = g (ws s).
Proof.
  intros E Hg. apply (f_equal (λ x, g x.1.1.1.1)) in E. cbn [wkept fst] in E. by rewrite !Hg in E.
Qed.

Lemma wkept_ws s s' :
  wkept s' = wkept s → wsistate (ws s') = wsistate (ws s) ∧ (usable (ws s') ↔ usable (ws s)).
Proof.
  intros E. unfold usable. by rewrite (wkept_field wsistate _ _ E), (wkept_field socket_is_permanently_unusable _ _ E).
Qed.

Lemma wkept_wf s s' : wkept s' = wkept s → wf_lws cfg (ws s) → wf_lws cfg (ws s').
Proof.
  intros E. unfold wf_lws, wf_ping. by rewrite (wkept_field rx_ubuf _ _ E), (wkept_field ping_payload_buf _ _ E), (wkept_field ping_payload_len _ _ E),
    (wkept_field close_in_ping_buffer_len _ _ E), (wkept_field ietf_spec_revision _ _ E), (wkept_field wsistate _ _ E),
    (wkept_field payload_is_close _ _ E).
Qed.

Lemma wkept_role s s' : wkept s' = wkept s → role_client s' = role_client s.
Proof. intros E. by apply (f_equal (λ x, x.1.1.1.2)) in E. Qed.

(** What sending bytes leaves alone, a write does. *)
Lemma kept_fields s s' :
  kept s' = kept s →
  wkept s' = wkept s ∧ inside_frame s' = inside_frame s
  ∧ stashed_write_pending s' = stashed_write_pending s ∧ draws s' = draws s ∧ writes s' = writes s
  ∧ ws s' = ws s ∧ role_client s' = role_client s ∧ handling_pollout s' = handling_pollout s.
Proof.
  unfold kept. intros [= E1 E2 E3 E4 E5 E6 E7 E8 E9 E10 E11]. unfold wkept.
  by rewrite E1, E2, E5, E6, E7, E8, E10.
Qed.

Lemma write_frame_fresh s wp hdr (p : list Z) key (f := wp_frame (if role_client s then Some key else None) wp p) :
  inside_frame s = false → buflist_out s = [] → wsistate (ws s) ≠ LRS_FLUSHING_BEFORE_CLOSE →
  (if role_client s then rnd (draws s) = Some key ∧ length key = 4%nat else key = []) →
  hdr ++ key = frame_header f →
  ∃ n s', write_frame cfg tx_packet_size send rnd oom s wp hdr (role_client s) p (Z.of_nat (length p)) = Ok (n, s')
    ∧ 0 <= n ∧ wkept s' = wkept s ∧ writes s' = writes s ∧ inside_frame s' = false
    ∧ stashed_write_pending s' = stashed_write_pending s
    ∧ draws s' = (if role_client s then S (draws s) else draws s)
    ∧ Forall wf_segment (buflist_out s') ∧ stream s' = stream s ++ encode_frame f
    ∧ (usable (ws s) → buflist_out s' ≠ [] → asked s' = true) ∧ (pollout s = true → pollout s' = true).
Proof.
  intros Hin Hout Hst Hkey Hhdr.
  destruct (write_frame_issues s wp hdr p key Hin Hout Hkey Hhdr)
    as (s1 & pre & Hpre & K & W & St & D & Str & O & P & I & ->). fold f in Hpre |- *.
  destruct (wkept_ws _ _ K) as [Hwst Hus].
  destruct (issue_raw_fresh s1 (encode_frame f) O) as (s2 & E2 & [K2 S2 F2 A2 P2]); [done|by rewrite Hwst|].
  rewrite E2, Hpre. destruct (kept_fields _ _ K2) as (K2' & I2 & St2 & D2 & W2 & _).
  rewrite K in K2'. rewrite I in I2. rewrite St in St2. rewrite W in W2. rewrite Str in S2.
  rewrite P in P2. rewrite Hus in A2. rewrite D in D2.
  assert (0 < Z.of_nat (length (encode_frame f))) as Hpos by (cbn; lia).
  cbn [mbind res_bind]. destruct (_ || _).
  - rewrite (proj2 (Z.leb_gt _ 0)), Z.eqb_refl by done. eexists _, _. split; [reflexivity|]. by split_and!; [lia|..].
  - eexists _, _. split; [reflexivity|]. split_and!; done || lia.
Qed.

Lemma frames_snoc s s' wp p :
  role_client s' = role_client s → writes s' = writes s ++ [(wp, p)] →
  frames rnd s' = frames rnd s
    ++ [wp_frame (if role_client s then rnd (length (writes s)) else None) wp p].
Proof.
  intros Er Ew. unfold frames. rewrite Er, Ew, imap_app. cbn. by rewrite Nat.add_0_r.
Qed.

(** A message written when nothing is buffered is sent as its frame. *)
Lemma write_ok s p wp :
  tx_ok s → buflist_out s = [] → user_wp wp = true ∨ wp = LWS_WRITE_CLOSE →
  Z.of_nat (length p) <= INT_MAX →
  ∃ n s', lws_write s p wp = Ok (n, s') ∧ 0 <= n ∧ tx_ok s' ∧ wkept s' = wkept s
    ∧ writes s' = writes s ++ [(wp, p)]
    ∧ (usable (ws s) → buflist_out s' ≠ [] → asked s' = true) ∧ (pollout s = true → pollout s' = true).
Proof.
  intros [Hp Hi Hs Hd Ho Hstr] Hout Hwp Hlen. unfold lws_write.
  rewrite s32_small by (unfold INT_MIN; lia). rewrite (proj2 (Z.ltb_ge _ 0)) by lia.
  destruct (wp_facts wp Hwp) as [Hhttp [op Hop]]. set (s0 := set_writes _ s).
  unfold rops_write_role_protocol_ws. cbv zeta in Hhttp |- *. rewrite Hhttp.
  change (inside_frame s0) with (inside_frame s). rewrite Hi.
  change (stashed_write_pending s0) with (stashed_write_pending s). rewrite Hs, andb_false_r.
  assert (ietf_spec_revision (ws s0) = 13) as H13 by apply Hp.
  match goal with |- context [if ?b then (wp, s0) else (wp, s0)] =>
    replace (if b then (wp, s0) else (wp, s0)) with (wp, s0) by (by destruct b) end.
  rewrite H13. cbn [Z.eqb Pos.eqb]. rewrite Hop.
  destruct (env_random _ _ _ Henv (draws s)) as (key & Hrnd & Hk4).
  set (fkey := if role_client s then Some key else None).
  destruct (write_frame_fresh s0 wp (write_header op wp (Z.of_nat (length p)) (if role_client s then 128 else 0))
              p (if role_client s then key else []))
    as (n & s' & E & Hn & K & W & I' & St' & D' & F' & Str' & A' & P'); try done.
  - apply Hp.
  - change (role_client s0) with (role_client s). change (draws s0) with (draws s). by destruct (role_client s).
  - change (role_client s0) with (role_client s). rewrite <- (write_header_frame wp _ p op) by (done || unfold INT_MAX in *; lia).
    by destruct (role_client s).
  - exists n, s'. split; [exact E|]. split; [done|]. split; [|done].
    assert (role_client s' = role_client s) as Hr by apply (wkept_role _ _ K).
    assert (frames rnd s' = frames rnd s ++ [wp_frame fkey wp p]) as Hf.
    { rewrite (frames_snoc s s' wp p) by (done || by rewrite W). subst fkey. destruct (role_client s) eqn:Er; [|done].
      by rewrite <- Hd, Hrnd. }
    split.
    + by apply (wkept_wf s0).
    + done.
    + by rewrite St'.
    + intros Er. rewrite W, D'. change (role_client s0) with (role_client s). rewrite <- Hr, Er. cbn.
      rewrite length_app. cbn. rewrite Hd by congruence. lia.
    + done.
    + rewrite Str', Hf, fmap_app, concat_app. change (stream s0) with (stream s). rewrite Hstr.
      cbn [fmap list_fmap concat]. rewrite app_nil_r. subst fkey.
      change (role_client s0) with (role_client s). by destruct (role_client s).
Qed.

(** ** Lemmas: serving the connection *)

(** [tx_ok] does not depend on the flags of polling, nor on [ws] beyond
    [wf_lws]. *)
Lemma tx_ok_same s s' :
  tx_ok s → wf_lws cfg (ws s') → inside_frame s' = inside_frame s →
  stashed_write_pending s' = stashed_write_pending s → role_client s' = role_client s →
  draws s' = draws s → writes s' = writes s → Forall wf_segment (buflist_out s') →
  stream s' = stream s → tx_ok s'.
Proof.
  intros [Hp Hi Hs Hd Ho Hstr] Hp' Ei Es Er Ed Ew Ho' Estr. split; try (done || congruence).
  { intros. rewrite Ed, Ew. apply Hd. congruence. }
  rewrite Estr, Hstr. unfold frames. by rewrite Er, Ew.
Qed.

Lemma flush_ok s s' : tx_ok s → sends_to s [] s' → tx_ok s'.
Proof.
  intros H [K S F A P]. destruct (kept_fields _ _ K) as (_ & I & St & D & W & E & R & _).
  apply (tx_ok_same s); try done; [rewrite E; apply H|by rewrite S, app_nil_r].
Qed.

Lemma on_writable_ok s : tx_ok s → tx_ok (lws_callback_on_writable s).
Proof.
  intros H. destruct (on_writable_kept s) as (K & B & W & P).
  apply (flush_ok s); [done|]. split; [done|unfold stream; by rewrite B, W, app_nil_r|rewrite B; apply H| |done].
  intros Hu _. by apply on_writable_asked.
Qed.

Lemma write_ping_buf_ok s len wp :
  tx_ok s → buflist_out s = [] → usable (ws s) → user_wp wp = true ∨ wp = LWS_WRITE_CLOSE → 0 <= len <= 125 →
  ∃ n s', write_ping_buf cfg tx_packet_size send rnd oom s len wp = Ok (n, s') ∧ 0 <= n ∧ tx_ok s'
    ∧ wkept s' = wkept s ∧ writes s' = writes s ++ [(wp, take (Z.to_nat len) (ping_payload_buf (ws s)))]
    ∧ (pollout s = true → pollout s' = true) ∧ (buflist_out s' ≠ [] → asked s' = true).
Proof.
  intros H Ho Hu Hwp Hlen. pose proof (to_ping _ H) as (Hb & _).
  unfold write_ping_buf. rewrite Hb, check_true by (apply Z.leb_le; lia). cbn [mbind res_bind].
  destruct (write_ok s (take (Z.to_nat len) (ping_payload_buf (ws s))) wp H Ho Hwp)
    as (n & s' & E & Hn & H' & K & W & A & P).
  { rewrite length_take. unfold INT_MAX. lia. }
  exists n, s'. by split_and!; [..|auto].
Qed.

(** A handler that ran from [s] to [s'] without trouble. *)
Record fine (s s' : wsi) : Prop := {
  fi_ok : tx_ok s';
  fi_usable : usable (ws s');
  fi_handling : handling_pollout s' = handling_pollout s;
  fi_pollout : pollout s = true → pollout s' = true;
}.

(** The state after a control frame, [ws] changed but for the mask. *)
Lemma fine_control s s2 w :
  tx_ok s2 → handling_pollout s2 = handling_pollout s →
  (pollout s = true → pollout s2 = true) → wf_lws cfg w → usable w → fine s (set_ws w s2).
Proof. intros H Eh P Hw Hu. split; try done. by apply (tx_ok_same s2); try apply H. Qed.

Lemma wkept_handling s s' : wkept s' = wkept s → handling_pollout s' = handling_pollout s.
Proof. intros K. by apply (f_equal (λ x, x.1.1.2)) in K. Qed.

Lemma send_close_ok s :
  tx_ok s → buflist_out s = [] → usable (ws s) →
  ∃ h s', send_close cfg tx_packet_size send rnd oom s = Ok (h, s') ∧ fine s s' ∧ h ≠ LWS_HP_RET_USER_SERVICE.
Proof.
  intros H Ho Hu. pose proof (to_ping _ H) as (Hb & _ & Hcl & _). unfold send_close.
  set (s1 := set_waiting_to_send_close_frame false s).
  assert (tx_ok s1) as H1 by (apply (tx_ok_same s); try done; apply H).
  destruct (write_ping_buf_ok s1 (close_in_ping_buffer_len (ws s1)) LWS_WRITE_CLOSE H1 Ho Hu)
    as (n & s2 & E & Hn & H2 & K & _ & P & _); [by right|done|].
  rewrite E. cbn [mbind res_bind]. rewrite (proj2 (Z.leb_le 0 n)) by done.
  pose proof (to_ping _ H2) as (Hb2 & Hp2 & Hc2 & Hr2 & Hs2 & Hcl2). pose proof (proj1 (to_ws _ H2)) as Hx2.
  destruct (proj2 (proj2 (wkept_ws _ _ K)) Hu) as [Hu2 Hsh2].
  destruct (close_needs_ack s2); (eexists _, _; split; [reflexivity|]; split; [|done]).
  - apply fine_control; try done. exact (wkept_handling _ _ K).
  - apply (fine_control s (set_close_needs_ack false s2)); try done; [|exact (wkept_handling _ _ K)].
    apply (tx_ok_same s2); try done. apply H2.
Qed.

Lemma send_pong_ok s :
  tx_ok s → buflist_out s = [] → usable (ws s) →
  ∃ h s', send_pong cfg tx_packet_size send rnd oom s = Ok (h, s') ∧ fine s s' ∧ h ≠ LWS_HP_RET_USER_SERVICE.
Proof.
  intros H Ho Hu. pose proof (to_ping _ H) as (Hb & Hpl & Hrest). unfold send_pong. destruct (_ && _).
  { eexists _, _. split; [reflexivity|]. split; [|done]. apply fine_control; try done. apply (to_ws _ H). }
  set (wt := if payload_is_close (ws s) then _ else _).
  destruct (write_ping_buf_ok s (ping_payload_len (ws s)) wt H Ho Hu) as (n & s2 & E & Hn & H2 & K & _ & P & _);
    [subst wt; destruct (payload_is_close _); [by right|by left]|done|].
  rewrite E. cbn [mbind res_bind]. rewrite (proj2 (Z.ltb_ge n 0)) by done.
  assert (fine s (set_ws (set_ping_pending_flag false (ws s2)) s2)) as Hf.
  { apply fine_control; try done; [exact (wkept_handling _ _ K)|apply (to_ws _ H2)|apply (proj2 (wkept_ws _ _ K)); exact Hu]. }
  destruct (payload_is_close (ws (set_ws _ _))); (eexists _, _; split; [reflexivity|]; by split).
Qed.

Lemma send_ping_ok s :
  tx_ok s → buflist_out s = [] → usable (ws s) →
  ∃ h s', send_ping cfg tx_packet_size send rnd oom s = Ok (h, s') ∧ fine s s' ∧ h ≠ LWS_HP_RET_USER_SERVICE.
Proof.
  intros H Ho Hu. unfold send_ping. set (s1 := set_send_check_ping false s).
  assert (tx_ok s1) as H1 by (apply (tx_ok_same s); try done; apply H).
  destruct (write_ping_buf_ok s1 0 LWS_WRITE_PING H1 Ho Hu) as (n & s2 & E & Hn & H2 & K & _ & P & _);
    [by left|lia|].
  rewrite E. cbn [mbind res_bind]. rewrite (proj2 (Z.ltb_ge n 0)) by done.
  eexists _, _. split; [reflexivity|]. split; [|done].
  apply fine_control; try done; [exact (wkept_handling _ _ K)|apply (to_ws _ H2)|apply (proj2 (wkept_ws _ _ K)); exact Hu].
Qed.

Lemma handle_POLLOUT_ok s :
  tx_ok s → buflist_out s = [] → usable (ws s) →
  ∃ h s', rops_handle_POLLOUT_ws cfg tx_packet_size send rnd oom s = Ok (h, s') ∧ fine s s'
    ∧ (h = LWS_HP_RET_USER_SERVICE → s' = s).
Proof.
  intros H Ho Hu. unfold rops_handle_POLLOUT_ws.
  assert (∀ r, (∃ h s', r = Ok (h, s') ∧ fine s s' ∧ h ≠ LWS_HP_RET_USER_SERVICE) →
    ∃ h s', r = Ok (h, s') ∧ fine s s' ∧ (h = LWS_HP_RET_USER_SERVICE → s' = s)) as Hw.
  { intros r (h & s' & ? & ? & ?). by exists h, s'. }
  case_bool_decide; [by apply Hw, send_close_ok|].
  destruct (_ || _); [by apply Hw, send_pong_ok|]. destruct (_ && _); [by apply Hw, send_ping_ok|].
  eexists _, _. split; [reflexivity|]. by split.
Qed.

Context (writeable : nat → list (list Z * Z) * bool * Z).

(** The handler writes one message per writeable callback, as lws asks. *)
Definition polite : Prop :=
  ∀ k, (length (writeable k).1.1 ≤ 1)%nat
       ∧ Forall (λ x, user_wp x.2 = true ∧ Z.of_nat (length x.1) <= INT_MAX) (writeable k).1.1.

Context (Hpol : polite).

(** The connection between events of the event loop. *)
Record idle (s : wsi) : Prop := {
  id_ok : tx_ok s;
  id_usable : usable (ws s);
  id_handling : handling_pollout s = false;
  id_pollout : buflist_out s ≠ [] → pollout s = true;
}.

Lemma as_writeable_ok s :
  tx_ok s → buflist_out s = [] → usable (ws s) → handling_pollout s = false →
  ∃ n s', lws_callback_as_writeable cfg tx_packet_size send rnd oom writeable s = Ok (n, s') ∧ idle s'.
Proof.
  intros H Ho Hu Hh. unfold lws_callback_as_writeable.
  destruct (Hpol (calls s)) as [Hlen Hall]. destruct (writeable (calls s)) as [[l again] r]. cbn [fst] in *.
  set (s1 := set_calls _ s). assert (tx_ok s1) as H1 by (apply (tx_ok_same s); try done; apply H).
  assert (∃ s2, write_messages cfg tx_packet_size send rnd oom s1 l = Ok s2 ∧ idle s2) as (s2 & E & [H2 Hu2 Hh2 Hp2]).
  { destruct l as [|[p wp] [|]]; [| |cbn in Hlen; lia].
    - exists s1. split; [done|]. split; try done.
    - apply Forall_singleton in Hall as [Hwp Hl]. cbn [fst snd] in *.
      destruct (write_ok s1 p wp H1 Ho (or_introl Hwp) Hl) as (n & s2 & E & Hn & H2 & K & W & A & P).
      exists s2. cbn [write_messages]. rewrite E. split; [done|]. pose proof (wkept_handling _ _ K) as Eh. change (handling_pollout s1) with (handling_pollout s) in Eh.
      split; [done|by apply (proj2 (wkept_ws _ _ K))|by rewrite Eh|].
      intros Hne. specialize (A Hu Hne). unfold asked in A. by rewrite Eh, Hh in A. }
  rewrite E. cbn [mbind res_bind]. eexists _, _. split; [reflexivity|]. destruct again; [|done].
  destruct (on_writable_kept s2) as (K & B & W & P). destruct (kept_fields _ _ K) as (_ & _ & _ & _ & _ & Ew & _ & Eh).
  split; [by apply on_writable_ok|by rewrite Ew|by rewrite Eh|]. rewrite B. auto.
Qed.

Lemma event_ok s :
  idle s → pollout s = true →
  ∃ n s', lws_handle_POLLOUT_event cfg tx_packet_size send rnd oom writeable s = Ok (n, s') ∧ idle s'.
Proof.
  intros [H Hu Hh Hp] Hpo. unfold lws_handle_POLLOUT_event.
  set (s1 := set_could_have_pending false _).
  assert (tx_ok s1) as H1 by (apply (tx_ok_same s); try done; apply H).
  assert (∀ s' r, tx_ok s' → usable (ws s') → pollout s' = true → ∃ n s'', bail s' r = Ok (n, s'') ∧ idle s'') as Hbail.
  { intros s' r H' Hu' P'. eexists _, _. split; [reflexivity|]. split; try done. apply (tx_ok_same s'); try done; apply H'. }
  destruct (lws_has_buffered_out s1) eqn:Eb.
  - destruct (buflist_out s1) as [|seg rest] eqn:Eo; [unfold lws_has_buffered_out in Eb; by rewrite Eo in Eb|].
    destruct (issue_raw_flush s1 seg rest Eo) as (n & s2 & E & Hn & Hs & _); [apply H1|apply (to_ping _ H1)|].
    rewrite E. cbn [mbind res_bind]. destruct (kept_fields _ _ (st_kept _ _ _ Hs)) as (_ & _ & _ & _ & _ & Ew & _).
    apply Hbail; [by apply (flush_ok s1)|by rewrite Ew|]. by apply (st_pollout _ _ _ Hs).
  - assert (buflist_out s1 = []) as Eo by (unfold lws_has_buffered_out in Eb; by destruct (buflist_out s1)).
    rewrite bool_decide_false by apply (to_ping _ H1).
    destruct (handle_POLLOUT_ok s1 H1 Eo Hu) as (h & s2 & E & [H2 Hu2 Hh2 Hp2] & Hus). rewrite E. cbn [mbind res_bind].
    destruct h; [apply Hbail; auto|apply Hbail; auto|]. specialize (Hus eq_refl). subst s2.
    set (s3 := set_leave_pollout_active false _).
    assert (tx_ok s3) as H3 by (apply (tx_ok_same s1); try done; apply H1).
    destruct (as_writeable_ok s3 H3 Eo Hu eq_refl) as (n & s4 & E4 & [H4 Hu4 Hh4 Hp4]).
    rewrite E4. cbn [mbind res_bind]. eexists _, _. split; [reflexivity|].
    assert (idle (set_handling_pollout false s4)) as H5
      by (split; try done; apply (tx_ok_same s4); try done; apply H4).
    case_match; [|done]. destruct H5. split; try done.
    apply (tx_ok_same s4); try done; apply H4.
Qed.
End stream.

(** ** Lemmas: a connection keeps its role *)

Section role.
Context (cfg : config) (tx_packet_size : Z) (send : nat → list Z → sent).
Context (rnd : nat → option (list Z)) (oom : nat → bool).

Definition keeps_role {A} (s : wsi) (r : res (A * wsi)) : Prop :=
  match r with Ok (_, s') => role_client s' = role_client s | Fault _ => True end.

Lemma on_writable_role s : role_client (lws_callback_on_writable s) = role_client s.
Proof. unfold lws_callback_on_writable, change_pollfd_pollout. by repeat case_match. Qed.

(** A call, and what is done with its result. *)
Lemma keeps_role_bind {A B} s (r : res (A * wsi)) (f : A → wsi → res (B * wsi)) :
  keeps_role s r → (∀ a s', role_client s' = role_client s → keeps_role s (f a s')) →
  keeps_role s ('(a, s') ← r; f a s').
Proof. destruct r as [[a s']|]; [|done]. cbn. intros H Hf. by apply Hf. Qed.

Lemma keeps_role_trans {A} s s1 (r : res (A * wsi)) :
  role_client s1 = role_client s → keeps_role s1 r → keeps_role s r.
Proof. unfold keeps_role. destruct r as [[a s']|]; [congruence|done]. Qed.

Lemma issue_sent_role s buf m (s1 := set_wire (wire s ++ take m buf) s) :
  keeps_role s
    (if lws_has_buffered_out s1 then
       s ← (if negb (m =? 0)%nat
            then '(_, head) ← lws_buflist_use_segment (buflist_out s1) m; Ok (set_buflist_out head s1)
            else Ok s1);
       if negb (lws_has_buffered_out s) then
         if bool_decide (wsistate (ws s) = LRS_FLUSHING_BEFORE_CLOSE) then Ok (-1, s)
         else Ok (Z.of_nat (length buf), lws_callback_on_writable s)
       else Ok (Z.of_nat m, lws_callback_on_writable s)
     else if (m =? length buf)%nat then Ok (Z.of_nat m, s1)
     else
       '(_, head) ← lws_buflist_append_segment (oom (sends s1)) (buflist_out s1) (drop m buf);
       Ok (Z.of_nat (length buf), lws_callback_on_writable (set_buflist_out head s1))).
Proof.
  assert (∀ s2, role_client s2 = role_client s → keeps_role s
    (if negb (lws_has_buffered_out s2) then
       if bool_decide (wsistate (ws s2) = LRS_FLUSHING_BEFORE_CLOSE) then Ok (-1, s2)
       else Ok (Z.of_nat (length buf), lws_callback_on_writable s2)
     else Ok (Z.of_nat m, lws_callback_on_writable s2))) as Hend.
  { intros s2 E. repeat case_match; cbn; by rewrite ?on_writable_role. }
  destruct (lws_has_buffered_out s1).
  - destruct (negb (m =? 0)%nat); [|by apply Hend].
    destruct (lws_buflist_use_segment _ m) as [[n head]|]; [by apply Hend|done].
  - destruct (m =? length buf)%nat; [done|].
    destruct (lws_buflist_append_segment _ _ _) as [[n head]|]; [|done]. cbn. by rewrite on_writable_role.
Qed.

Lemma issue_send_role s buf : keeps_role s (issue_send cfg tx_packet_size send oom s buf).
Proof.
  unfold issue_send. cbv zeta. set (s1 := set_could_have_pending true _).
  destruct (send _ _); [| |done]; (eapply (keeps_role_trans s s1); [done|]); apply issue_sent_role.
Qed.

Lemma issue_raw_role s buf : keeps_role s (lws_issue_raw cfg tx_packet_size send oom s buf).
Proof.
  assert (∀ s1, role_client s1 = role_client s → ∀ b, keeps_role s
    (match b with None | Some [] => Ok (0, s1) | Some b => issue_send cfg tx_packet_size send oom s1 b end)) as Hend.
  { intros s1 E [[|b0 b]|]; try done. eapply keeps_role_trans; [exact E|]. apply issue_send_role. }
  unfold lws_issue_raw. destruct (_ && _); [done|].
  apply (keeps_role_bind (A := option (list Z))).
  - destruct buf; [|done]. destruct (lws_has_buffered_out s); [|done].
    by destruct (lws_buflist_append_segment _ _ _) as [[n head]|].
  - intros b s1 E1. apply (keeps_role_bind (A := option (list Z))); [|intros; by apply Hend].
    destruct (lws_has_buffered_out s1); [|done]. by destruct (lws_buflist_next_segment_len _) as [[[n c] head]|].
Qed.

Lemma write_frame_role s wp hdr keyed buf n :
  keeps_role s (write_frame cfg tx_packet_size send rnd oom s wp hdr keyed buf n).
Proof.
  unfold write_frame. destruct (if role_client s && _ then _ else _) as [bad s1] eqn:E.
  assert (role_client s1 = role_client s) as E1.
  { destruct (_ && _); [|by injection E as <- <-]. unfold lws_0405_frame_mask_generate in E.
    destruct (rnd _); by injection E as <- <-. }
  destruct bad; [done|]. cbv zeta. set (s2 := if keyed then set_ws _ s1 else s1).
  assert (role_client s2 = role_client s) as E2 by (subst s2; by destruct keyed).
  destruct (_ || _); [|eapply keeps_role_trans, issue_raw_role; exact E2].
  apply (keeps_role_bind (A := Z)); [eapply keeps_role_trans, issue_raw_role; exact E2|].
  intros a s3 E3. by repeat case_match.
Qed.

Lemma write_role s buf wp : keeps_role s (lws_write cfg tx_packet_size send rnd oom s buf wp).
Proof.
  unfold lws_write. destruct (_ <? 0); [done|]. set (s1 := set_writes _ s).
  apply (keeps_role_trans s s1); [done|]. unfold rops_write_role_protocol_ws.
  destruct (_ || _ || _ || _); [apply issue_raw_role|]. cbv zeta.
  destruct (inside_frame s1); [apply write_frame_role|].
  set (x := if (wp =? LWS_WRITE_PING) || _ || _ then _ else _).
  assert (role_client x.2 = role_client s1) as E2 by (subst x; by repeat case_match).
  destruct x as [wp2 s2]. cbn [snd] in E2. apply (keeps_role_trans s1 s2); [done|].
  destruct (_ =? 13); [|apply write_frame_role]. destruct (write_opcode wp2); [apply write_frame_role|done].
Qed.

Lemma write_ping_buf_role s len wp : keeps_role s (write_ping_buf cfg tx_packet_size send rnd oom s len wp).
Proof. unfold write_ping_buf, check. destruct (_ <=? _); [apply write_role|done]. Qed.

Lemma handle_POLLOUT_role s : keeps_role s (rops_handle_POLLOUT_ws cfg tx_packet_size send rnd oom s).
Proof.
  unfold rops_handle_POLLOUT_ws, send_close, send_pong, send_ping.
  case_bool_decide; [|destruct (_ || _); [destruct (_ && _); [done|]|destruct (_ && _); [|done]]];
    (apply (keeps_role_bind (A := Z)); [refine (keeps_role_trans _ _ _ _ (write_ping_buf_role _ _ _)); done|]);
    intros n s1 E; by repeat case_match.
Qed.

Context (writeable : nat → list (list Z * Z) * bool * Z) (cb : list event → event → Z).

Lemma write_messages_role l s s' :
  write_messages cfg tx_packet_size send rnd oom s l = Ok s' → role_client s' = role_client s.
Proof.
  revert s. induction l as [|[b wp] l IH]; intros s; cbn [write_messages]; [by intros [= ->]|].
  pose proof (write_role s b wp) as H. destruct (lws_write _ _ _ _ _ s b wp) as [[n s1]|]; [|done].
  cbn in *. intros E. rewrite (IH _ E). exact H.
Qed.

Lemma POLLOUT_event_role s :
  keeps_role s (lws_handle_POLLOUT_event cfg tx_packet_size send rnd oom writeable s).
Proof.
  unfold lws_handle_POLLOUT_event. set (s1 := set_could_have_pending false _).
  apply (keeps_role_trans s s1); [done|]. destruct (lws_has_buffered_out s1).
  { apply (keeps_role_bind (A := Z)); [apply issue_raw_role|]. done. }
  case_bool_decide; [done|]. apply (keeps_role_bind (A := hp_ret)); [apply handle_POLLOUT_role|].
  intros [] s2 E2; [done..|]. cbv zeta. set (s3 := set_leave_pollout_active false _).
  assert (role_client s3 = role_client s1) as E3 by (subst s3; by case_match).
  apply (keeps_role_bind (A := Z)); [|intros; by case_match].
  apply (keeps_role_trans s1 s3); [done|]. unfold lws_callback_as_writeable.
  destruct (writeable _) as [[l again] r].
  destruct (write_messages _ _ _ _ _ _ l) as [s4|] eqn:E4; [|done].
  apply write_messages_role in E4. cbn. destruct again; [by rewrite on_writable_role|done].
Qed.

Lemma service_step_role s x alive s' :
  service_step cfg tx_packet_size send rnd oom writeable cb s x = Ok (alive, s') →
  role_client s' = role_client s.
Proof.
  intros E. destruct x as [|buf|]; cbn [service_step] in E.
  - destruct (pollout s); [|by injection E as <- <-]. pose proof (POLLOUT_event_role s) as H.
    destruct (lws_handle_POLLOUT_event _ _ _ _ _ _ s) as [[n s1]|]; [|done]. by injection E as <- <-.
  - unfold receive in E. destruct (check _ _); [|done].
    destruct (lws_parse_ws _ _ _ _ _) as [[[r w] ch]|]; [|done]. injection E as <- <-.
    case_bool_decide; by rewrite ?on_writable_role.
  - injection E as <- <-. apply on_writable_role.
Qed.
End role.

(** ** Lemmas: receiving leaves the socket usable *)

(** A step of the receive path that does not ask for the connection to be
    dropped. *)
Definition keeps_usable (w : lws) (r : res (Z * lws)) : Prop :=
  usable w → ∀ n w', r = Ok (n, w') → 0 <= n → usable w'.

Section keeps.
Context (cfg : config) (cb : list event → event → Z).

Lemma keeps_ok w n w' : (usable w → usable w') → keeps_usable w (Ok (n, w')).
Proof. intros H Hu ? ? [= <- <-] _. auto. Qed.

Lemma keeps_drop w w' : keeps_usable w (Ok (-1, w')).
Proof. intros _ ? ? [= <- <-]. lia. Qed.

Lemma keeps_from w w1 r : (usable w → usable w1) → keeps_usable w1 r → keeps_usable w r.
Proof. intros H K Hu. by apply K, H. Qed.

(** Case analysis down to an answer. *)
Ltac keeps :=
  repeat match goal with
  | |- keeps_usable _ (Ok (-1, _)) => apply keeps_drop
  | |- keeps_usable _ (Ok _) => apply keeps_ok; intros ?; repeat case_match; done
  | |- keeps_usable _ (protocol_err _ _) => apply keeps_drop
  | |- keeps_usable _ (if ?b then _ else _) => destruct b
  | |- keeps_usable _ (let '(_, _) := ?x in _) => destruct x
  end.

Lemma keeps_process_as_ping w : keeps_usable w (process_as_ping w).
Proof.
  unfold process_as_ping. keeps. destruct (memcpy _ _ _); [apply keeps_ok; done|]. by intros _ ? ?.
Qed.

Lemma keeps_peer_close w : keeps_usable w (peer_close cfg cb w).
Proof.
  unfold peer_close, callback. cbv beta iota zeta. keeps.
  eapply keeps_from; [|apply keeps_process_as_ping]. intros [? _]. split; [done|cbn; discriminate].
Qed.

Lemma keeps_deliver w no_cb pong : keeps_usable w (deliver cfg cb w no_cb pong).
Proof.
  unfold deliver, callback. cbv beta iota zeta. keeps.
  destruct (check _ _); [|by intros _ ? ?]. cbn [mbind res_bind]. destruct no_cb; by apply keeps_ok.
Qed.

Lemma keeps_spill w no_cb : keeps_usable w (spill cfg cb w no_cb).
Proof.
  unfold spill. keeps; auto using keeps_peer_close, keeps_process_as_ping, keeps_deliver.
  eapply keeps_from; [|apply keeps_deliver]. by destruct (pong_timeout w).
Qed.

Lemma keeps_handle_first w c : keeps_usable w (handle_first cfg w c).
Proof.
  assert (∀ w, keeps_usable w (after_opcode w)) as Ha.
  { intros w'. unfold after_opcode. cbv zeta. keeps. }
  unfold handle_first, start_message. cbv zeta. keeps; (eapply keeps_from; [|apply Ha]); intros ?; repeat case_match; done.
Qed.

Lemma keeps_rx_sm w ig nc c : keeps_usable w (lws_ws_rx_sm cfg cb w ig nc c).
Proof.
  unfold lws_ws_rx_sm. keeps.
  assert (∀ w1, (usable w → usable w1) → keeps_usable w (spill cfg cb w1 nc)) as Hsp.
  { intros w1 H1. eapply keeps_from; [exact H1|apply keeps_spill]. }
  assert (∀ k i next, usable w → usable (key_byte w k i next)) as Hk.
  { intros k i next H. unfold key_byte. by destruct (negb (k =? 0)). }
  destruct (lws_rx_parse_state w); unfold len_byte, frame_hdr_len, frame_key_4, frame_payload; keeps;
    try (by apply keeps_ok); try (by apply keeps_ok, Hk); try (by apply keeps_handle_first);
    try (by apply Hsp); try (apply Hsp; by apply Hk); try (apply keeps_ok; by apply Hk);
    try (apply Hsp; intros ?; repeat case_match; done).
  by apply (keeps_from w (set_all_zero_nonce true w)), keeps_handle_first.
Qed.

Lemma keeps_rest w buf m used w' :
  usable w → lws_ws_frame_rest_is_payload cfg cb w buf = (m, used, w') → usable w'.
Proof.
  intros Hu. unfold lws_ws_frame_rest_is_payload, callback. cbv beta zeta.
  destruct (_ =? 0); [by intros [= <- <- <-]|].
  repeat case_match; intros; simplify_eq; done.
Qed.

Lemma keeps_bulk_loop fuel w buf bulk :
  usable w → match bulk_loop cfg cb fuel w buf bulk with inl w' => usable w' | inr (w', _, _) => usable w' end.
Proof.
  revert w buf bulk. induction fuel as [|fuel IH]; intros w buf bulk Hu; [done|]. cbn [bulk_loop].
  destruct (_ && _); [|done].
  destruct (lws_ws_frame_rest_is_payload cfg cb w buf) as [[m used] w'] eqn:E.
  pose proof (keeps_rest _ _ _ _ _ Hu E). destruct (m =? 0); [done|]. destruct (m <? 0); [done|]. by apply IH.
Qed.

Lemma keeps_parse rxflow fuel w buf r w' cached :
  usable w → parse_ws_loop cfg cb rxflow fuel w buf = Ok (r, w', cached) → 0 <= r → usable w'.
Proof.
  revert w buf. induction fuel as [|fuel IH]; intros w buf Hu; cbn [parse_ws_loop]; [by intros [= <- <- <-]|].
  destruct buf as [|b buf]; [by intros [= <- <- <-]|]. destruct (rxflow (log w)); [by intros [= <- <- <-]|].
  pose proof (keeps_bulk_loop (S (length (b :: buf))) w (b :: buf) false Hu) as Hb.
  destruct (bulk_loop _ _ _ _ _ _) as [w1|[[w1 b1] k1]]; [by intros [= <- <- <-]|].
  assert (∀ ig nc c rest, (∀ n w2, lws_ws_rx_sm cfg cb w1 ig nc c = Ok (n, w2) →
    (if n <? 0 then Ok (-1, w2, []) else parse_ws_loop cfg cb rxflow fuel w2 rest) = Ok (r, w', cached) →
    0 <= r → usable w')) as Hstep.
  { intros ig nc c rest n w2 E. destruct (Z.ltb_spec n 0); [intros [= <- <- <-]; lia|].
    apply IH. by apply (keeps_rx_sm w1 ig nc c Hb n w2 E). }
  destruct k1; [|destruct b1 as [|c1 b1]].
  - destruct (lws_ws_rx_sm cfg cb w1 true true 0) as [[n w2]|] eqn:E; [|done]. by apply (Hstep _ _ _ _ _ _ E).
  - cbn [mbind res_bind]. by apply IH.
  - destruct (lws_ws_rx_sm cfg cb w1 false false c1) as [[n w2]|] eqn:E; [|done]. by apply (Hstep _ _ _ _ _ _ E).
Qed.
End keeps.

(** ** Lemmas: the event loop *)

Section serving.
Context (cfg : config) (tx_packet_size : Z) (send : nat → list Z → sent).
Context (rnd : nat → option (list Z)) (oom : nat → bool) (Henv : environment send rnd oom).
Context (writeable : nat → list (list Z * Z) * bool * Z) (Hpol : polite writeable).
Context (cb : list event → event → Z) (Hsize : 0 < rx_size cfg).

#[local] Abbreviation service := (service cfg tx_packet_size send rnd oom writeable cb).
#[local] Abbreviation service_step := (service_step cfg tx_packet_size send rnd oom writeable cb).

Definition served (s : wsi) : Prop := idle cfg rnd s.

(** Everything written is on the wire or buffered, as frames; if anything is
    buffered, POLLOUT is on; nothing is half framed. *)
Definition framed (s : wsi) : Prop :=
  stream s = concat (encode_frame <$> frames rnd s) ∧ inside_frame s = false
  ∧ (buflist_out s ≠ [] → pollout s = true).

Lemma idle_framed s : served s → framed s.
Proof. intros [H ? ? ?]. by split_and!; try apply H. Qed.

Lemma on_writable_served s : served s → served (lws_callback_on_writable s).
Proof.
  intros [H Hu Hh Hp]. destruct (on_writable_kept s) as (K & B & W & P).
  destruct (kept_fields _ _ K) as (_ & _ & _ & _ & _ & Ew & _ & Eh).
  split; [by apply on_writable_ok|by rewrite Ew|by rewrite Eh|]. rewrite B. auto.
Qed.

Lemma receive_ok s buf :
  served s → role_client s = false →
  ∃ r s', receive cfg cb s buf = Ok (r, s') ∧ framed s' ∧ (0 <= r → served s').
Proof.
  intros [H Hu Hh Hp] Hrole. unfold receive. rewrite check_true by by rewrite Hrole. cbn [mbind res_bind]. set (w := set_partial_buffered _ (ws s)).
  assert (wf_lws cfg w) as Hw0 by exact (to_ws _ _ _ H). assert (usable w) as Hu0 by exact Hu.
  destruct (parse_total cfg cb (λ _, false) Hsize (rounds w buf) w buf Hw0 (le_n _)) as (r & w' & ch & Hw' & Hall).
  assert (rounds w buf ≤ 2 * length buf)%nat as Hr.
  { unfold rounds. destruct buf; [lia|]. cbn [length]. case_bool_decide; lia. }
  specialize (Hall (2 * length buf)%nat Hr). unfold lws_parse_ws. rewrite Hall. cbn [mbind res_bind].
  set (s1 := set_ws w' s). assert (tx_ok cfg rnd s1) as H1 by (apply (tx_ok_same cfg rnd s); try done; apply H).
  assert (framed s1) as F1 by (split_and!; try done; apply H1).
  eexists _, _. split; [reflexivity|]. split.
  - case_bool_decide; [|done]. destruct (on_writable_kept s1) as (K & B & W & P).
    pose proof (on_writable_ok cfg rnd s1 H1) as H2. split_and!; try apply H2. rewrite B. auto.
  - intros Hr0. assert (usable w') as Hu' by by eapply keeps_parse.
    assert (served s1) as I1 by by split. case_bool_decide; [by apply on_writable_served|done].
Qed.

Lemma service_ok xs s :
  served s → Forall (λ x, covered (role_client s) x = true) xs →
  ∃ alive s', service s xs = Ok (alive, s') ∧ framed s' ∧ (alive = true → served s').
Proof.
  revert s. induction xs as [|x xs IH]; intros s H Hxs.
  { exists true, s. split; [done|]. split; [by apply idle_framed|done]. }
  assert (∃ alive s', service_step s x = Ok (alive, s') ∧ framed s' ∧ (alive = true → served s'))
    as (alive & s1 & E & F & H1).
  { destruct x as [|buf|]; cbn [service_step].
    - destruct (pollout s) eqn:Ep; [|exists true, s; split_and!; try done; by apply idle_framed].
      destruct (event_ok cfg tx_packet_size send rnd oom Henv writeable Hpol s H Ep) as (n & s' & -> & H').
      exists (n =? 0), s'. split_and!; try done. by apply idle_framed.
    - destruct (receive_ok s buf H ltac:(inversion Hxs; subst; cbn in *; by destruct (role_client s)))
        as (r & s' & -> & F & H').
      exists (0 <=? r), s'. split_and!; try done. rewrite Z.leb_le. done.
    - eexists _, _. split; [reflexivity|]. pose proof (on_writable_served s H).
      split; [by apply idle_framed|done]. }
  pose proof (service_step_role _ _ _ _ _ _ _ _ _ _ _ E) as Er. inversion Hxs as [|? ? _ Hxs']; subst.
  cbn [service]. rewrite E. cbn [mbind res_bind]. destruct alive; [|by exists false, s1].
  apply IH; [by apply H1|]. by rewrite Er.
Qed.

(** *** Progress *)

(** The socket takes at least a byte whenever it is offered any. *)
Definition willing : Prop := ∀ n b, b ≠ [] → match send n b with Sent k => (0 < k)%nat | _ => False end.

Lemma taken_positive s b :
  willing → 0 < tx_limit cfg tx_packet_size → b ≠ [] → (0 < taken cfg tx_packet_size send s b)%nat.
Proof.
  intros Hw Hl Hb. unfold taken. set (piece := take _ b).
  assert (piece ≠ []) as Hp.
  { subst piece. destruct b as [|b0 b]; [done|]. cbv zeta. destruct (Nat.ltb_spec (length (b0 :: b)) (Z.to_nat (tx_limit cfg tx_packet_size))); [done|].
    destruct (Z.to_nat (tx_limit cfg tx_packet_size)) eqn:E; [lia|done]. }
  specialize (Hw (sends s) piece Hp). by destruct (send _ _).
Qed.

Lemma service_app xs ys s s' :
  service s xs = Ok (true, s') → service s (xs ++ ys) = service s' ys.
Proof.
  revert s. induction xs as [|x xs IH]; intros s; cbn [service app]; [by intros [= ->]|].
  destruct (service_step s x) as [[alive s1]|]; [|done]. cbn [mbind res_bind]. destruct alive; [apply IH|done].
Qed.

Lemma event_flush s seg rest :
  served s → buflist_out s = seg :: rest →
  ∃ s', service_step s Pollout = Ok (true, s') ∧ served s' ∧ stream s' = stream s
    ∧ length (wire s') = (length (wire s) + taken cfg tx_packet_size send s (sleft seg))%nat.
Proof.
  intros Hserved Ho. pose proof Hserved as [H Hu Hh Hp].
  assert (pollout s = true) as Hpo by (apply Hp; by rewrite Ho).
  cbn [service_step]. rewrite Hpo.
  destruct (event_ok cfg tx_packet_size send rnd oom Henv writeable Hpol s Hserved Hpo) as (n & s' & E & H').
  revert E. unfold lws_handle_POLLOUT_event. set (s1 := set_could_have_pending false _).
  assert (lws_has_buffered_out s1 = true) as Hb by (unfold lws_has_buffered_out; cbn; by rewrite Ho).
  destruct (issue_raw_flush cfg tx_packet_size send rnd oom Henv s1 seg rest Ho) as (n2 & s2 & E2 & Hn & Hs & _ & Hw & _);
    [apply H|apply (to_ping _ _ _ H)|].
  rewrite Hb, E2. cbn [mbind res_bind]. rewrite (proj2 (Z.ltb_ge n2 0)) by done. unfold bail. cbn [mbind res_bind].
  intros [= <- <-]. eexists. split; [reflexivity|]. split; [exact H'|]. split; [|exact Hw].
  pose proof (st_stream _ _ _ Hs) as E. rewrite app_nil_r in E. exact E.
Qed.

Lemma drain_ok n s :
  willing → 0 < tx_limit cfg tx_packet_size → served s → (length (content (buflist_out s)) ≤ n)%nat →
  ∃ k s', (k ≤ n)%nat ∧ service s (replicate k Pollout) = Ok (true, s') ∧ served s'
    ∧ buflist_out s' = [] ∧ wire s' = stream s.
Proof.
  intros Hw Hl. revert s. induction n as [|n IH]; intros s H Hn; (destruct (buflist_out s) as [|seg rest] eqn:Eo;
    [exists 0%nat, s; split_and!; try done; try lia; unfold stream; rewrite Eo; cbn; by rewrite app_nil_r|]).
  - exfalso. pose proof (to_out _ _ _ (id_ok _ _ _ H)) as Hf. rewrite Eo in Hf. inversion Hf as [|? ? Hs _]; subst.
    destruct (sleft_nonempty seg Hs) as [El Hne]. unfold content in Hn. cbn in Hn. rewrite length_app in Hn.
    destruct (sleft seg); [done|cbn in Hn; lia].
  - destruct (event_flush s seg rest H Eo) as (s1 & E & H1 & Es & Hwl).
    pose proof (to_out _ _ _ (id_ok _ _ _ H)) as Hf. rewrite Eo in Hf. inversion Hf as [|? ? Hs _]; subst.
    destruct (sleft_nonempty seg Hs) as [_ Hne]. pose proof (taken_positive s (sleft seg) Hw Hl Hne) as Hpos.
    destruct (IH s1 H1) as (k & s2 & Hk & E2 & H2 & Eo2 & Ew2).
    { pose proof (f_equal length Es) as Hlen. unfold stream in Hlen. rewrite !length_app, Eo in Hlen. lia. }
    exists (S k), s2. split; [lia|]. split; [|split_and!; try done; by rewrite Ew2].
    cbn [replicate service]. by rewrite E.
Qed.
End serving.

(** ** Lemmas: writing while bytes are buffered *)

Section buffered.
Context (cfg : config) (tx_packet_size : Z) (send : nat → list Z → sent).
Context (rnd : nat → option (list Z)) (oom : nat → bool) (Henv : environment send rnd oom).

#[local] Abbreviation lws_issue_raw := (lws_issue_raw cfg tx_packet_size send oom).
#[local] Abbreviation lws_write := (lws_write cfg tx_packet_size send rnd oom).
#[local] Abbreviation taken := (taken cfg tx_packet_size send).

Lemma issue_raw_append s seg rest buf :
  buflist_out s = seg :: rest → Forall wf_segment (buflist_out s) → (length (buflist_out s) < 1024)%nat →
  buf ≠ [] → wsistate (ws s) ≠ LRS_FLUSHING_BEFORE_CLOSE →
  ∃ s', lws_issue_raw s (Some buf) = Ok (Z.of_nat (taken s (sleft seg)), s')
    ∧ kept s' = kept s ∧ stream s' = stream s ++ buf ∧ Forall wf_segment (buflist_out s')
    ∧ buflist_out s' ≠ [] ∧ (length (buflist_out s') ≤ S (length (buflist_out s)))%nat.
Proof.
  intros Ho Hwf Hlen Hne Hst.
  set (s1 := set_buflist_out (buflist_out s ++ [Segment buf 0]) s).
  assert (lws_has_buffered_out s = true) as Hb by (unfold lws_has_buffered_out; by rewrite Ho).
  assert (buflist_out s1 = seg :: (rest ++ [Segment buf 0])) as Ho1 by (cbn; by rewrite Ho).
  assert (lws_has_buffered_out s1 = true) as Hb1 by (unfold lws_has_buffered_out; by rewrite Ho1).
  assert (lws_issue_raw s (Some buf) = lws_issue_raw s1 None) as ->.
  { unfold lws_issue_raw. rewrite Hb, Hb1, !andb_false_r. unfold lws_buflist_append_segment.
    rewrite bool_decide_false, (env_malloc _ _ _ Henv) by done. rewrite (proj2 (Nat.leb_gt _ _)) by lia. done. }
  assert (Forall wf_segment (buflist_out s1)) as Hwf1.
  { cbn. apply Forall_app. split; [done|]. constructor; [|done].
    unfold wf_segment, slen. cbn. destruct buf; [done|cbn; lia]. }
  destruct (issue_raw_flush cfg tx_packet_size send rnd oom Henv s1 seg _ Ho1 Hwf1 Hst)
    as (n & s' & E & Hn & [K S F A P] & Hn' & Hw & Hl' & _).
  assert (stream s1 = stream s ++ buf) as Es1.
  { unfold stream, content. cbn. rewrite fmap_app, concat_app. cbn. by rewrite app_nil_r, app_assoc. }
  rewrite app_nil_r, Es1 in S. change (taken s1 (sleft seg)) with (taken s (sleft seg)) in *.
  assert (taken s (sleft seg) ≤ length (sleft seg))%nat as Ht by by eapply taken_le.
  assert (buflist_out s' ≠ []) as Hout.
  { intros E0. apply (f_equal length) in S. unfold stream in S. rewrite E0, Ho in S.
    rewrite !length_app in S. cbn in S, Hw. rewrite length_app in S. destruct buf; [done|cbn in S; lia]. }
  exists s'. rewrite E, (Hn' Hout). split_and!; try done.
  rewrite Ho1, Ho in *. cbn in Hl'. rewrite length_app in Hl'. cbn in *. lia.
Qed.

(** The writes of a message's fragments. *)
Definition data_wp (wp : Z) : bool := existsb (Z.eqb wp) [0; 1; 2; 64; 65; 66].

Lemma data_wp_facts wp :
  data_wp wp = true →
  user_wp wp = true
  ∧ (let w := Z.land wp 31 in
     (w =? LWS_WRITE_TEXT) || (w =? LWS_WRITE_BINARY) || (w =? LWS_WRITE_CONTINUATION)) = true
  ∧ (wp =? LWS_WRITE_PING) || (wp =? LWS_WRITE_PONG) || (wp =? LWS_WRITE_CLOSE) = false.
Proof.
  intros H. unfold data_wp in H. cbn [existsb] in H. rewrite !orb_true_iff, !Z.eqb_eq in H. revert H.
  intros [->|[->|[->|[->|[->|[->|[=]]]]]]]; vm_compute; done.
Qed.

(** A server's frame written while bytes are buffered: it is queued whole, but
    the connection believes to be inside of it. *)
Lemma write_buffered s seg rest p wp :
  tx_ok cfg rnd s → role_client s = false → buflist_out s = seg :: rest → (length (buflist_out s) < 1024)%nat →
  data_wp wp = true → Z.of_nat (length p) <= INT_MAX →
  taken s (sleft seg) ≠ length (encode_frame (wp_frame None wp p)) →
  ∃ n s', lws_write s p wp = Ok (n, s') ∧ inside_frame s' = true ∧ role_client s' = false
    ∧ wsistate (ws s') ≠ LRS_FLUSHING_BEFORE_CLOSE
    ∧ stream s' = stream s ++ encode_frame (wp_frame None wp p) ∧ Forall wf_segment (buflist_out s')
    ∧ buflist_out s' ≠ [] ∧ (length (buflist_out s') ≤ S (length (buflist_out s)))%nat.
Proof.
  intros H Hr Ho Hlen Hwp Hp Ht. destruct (data_wp_facts wp Hwp) as (Hu & Hd & Hc).
  pose proof (to_ping _ _ _ H) as (_ & _ & _ & H13 & Hfl & _).
  destruct (wp_facts wp (or_introl Hu)) as [Hhttp [op Hop]].
  set (f := wp_frame None wp p) in *.
  unfold lws_write. rewrite s32_small by (unfold INT_MIN; lia). rewrite (proj2 (Z.ltb_ge _ 0)) by lia.
  set (s0 := set_writes _ s). unfold rops_write_role_protocol_ws. cbv zeta in Hhttp, Hd |- *.
  rewrite Hhttp, Hc. change (inside_frame s0) with (inside_frame s). rewrite (to_inside _ _ _ H).
  change (stashed_write_pending s0) with (stashed_write_pending s). rewrite (to_stash _ _ _ H), andb_false_r.
  change (ws s0) with (ws s). rewrite H13. cbn [Z.eqb Pos.eqb]. rewrite Hop.
  change (role_client s0) with (role_client s). rewrite Hr. unfold write_frame.
  change (role_client s0) with (role_client s). rewrite Hr. cbn [andb]. cbv zeta. rewrite Hd.
  pose proof (write_header_frame wp None p op (or_introl Hu) Hop) as Hhdr.
  rewrite app_nil_r in Hhdr. rewrite Hhdr by (unfold INT_MAX in Hp; lia). fold f.
  change (frame_header f ++ p) with (encode_frame f).
  destruct (issue_raw_append s0 seg rest (encode_frame f)) as (s1 & E & K & S & F & Hne & Hl); try done; [apply H|].
  destruct (kept_fields _ _ K) as (_ & _ & _ & _ & _ & Ew & Er & _).
  rewrite E. cbn [mbind res_bind].
  assert (Z.of_nat (length p) + (Z.of_nat (length (frame_header f)) + 0) = Z.of_nat (length (encode_frame f))) as ->.
  { unfold encode_frame. rewrite length_app. change (mask_payload f) with p. lia. }
  change (taken s0 (sleft seg)) with (taken s (sleft seg)). rewrite (proj2 (Z.eqb_neq (Z.of_nat (taken s _)) _)) by lia.
  destruct (_ <=? 0); (eexists _, (set_inside_frame true s1); split; [reflexivity|]);
    split_and!; try done; cbn; rewrite ?Er, ?Ew; done.
Qed.

(** A write inside a frame has no header. *)
Lemma write_inside s seg rest p wp :
  inside_frame s = true → role_client s = false → wsistate (ws s) ≠ LRS_FLUSHING_BEFORE_CLOSE →
  buflist_out s = seg :: rest → Forall wf_segment (buflist_out s) → (length (buflist_out s) < 1024)%nat →
  data_wp wp = true → p ≠ [] → Z.of_nat (length p) <= INT_MAX →
  ∃ n s', lws_write s p wp = Ok (n, s') ∧ stream s' = stream s ++ p.
Proof.
  intros Hi Hr Hfl Ho Hwf Hlen Hwp Hne Hp. destruct (data_wp_facts wp Hwp) as (Hu & Hd & _).
  destruct (wp_facts wp (or_introl Hu)) as [Hhttp _].
  unfold lws_write. rewrite s32_small by (unfold INT_MIN; lia). rewrite (proj2 (Z.ltb_ge _ 0)) by lia.
  set (s0 := set_writes _ s). unfold rops_write_role_protocol_ws, write_frame. cbv zeta in Hhttp, Hd |- *.
  rewrite Hhttp. change (inside_frame s0) with (inside_frame s). rewrite Hi, andb_false_r, Hd. cbn [app length].
  destruct (issue_raw_append s0 seg rest p) as (s1 & E & K & S & _); try done. rewrite E. cbn [mbind res_bind].
  repeat case_match; (eexists _, _; split; [reflexivity|]; exact S).
Qed.
End buffered.

(** ** Lemmas: answering a ping *)

Section ping.
Context (cfg : config) (tx_packet_size : Z) (send : nat → list Z → sent).
Context (rnd : nat → option (list Z)) (oom : nat → bool) (Henv : environment send rnd oom).
Context (writeable : nat → list (list Z * Z) * bool * Z) (Hpol : polite writeable).
Context (cb : list event → event → Z) (Hcb : ∀ l e, cb l e = 0) (Hsize : 125 <= rx_size cfg).

(** Receiving a ping keeps its payload, and asks for POLLOUT. *)
Lemma receive_ping s c f :
  served cfg rnd s → role_client s = false → sees (ws s) c (log (ws s)) → c_ping c = None → wf_frame f → f_opcode f = 9 →
  ∃ s', receive cfg cb s (encode_frame f) = Ok (0, s') ∧ served cfg rnd s' ∧ pollout s' = true
    ∧ (∃ c', sees (ws s') c' (log (ws s')) ∧ c_ping c' = Some (f_payload f))
    ∧ wire s' = wire s ∧ buflist_out s' = buflist_out s ∧ role_client s' = role_client s
    ∧ writes s' = writes s.
Proof.
  intros Hs Hr0 Hsees Hnone Hf Hop.
  destruct (receive_ok cfg rnd cb ltac:(lia) s (encode_frame f) Hs Hr0) as (r & s' & E & _ & Hs').
  set (c' := set_ping (open_conn cfg c f) (f_payload f)).
  assert (frames_next cfg c [f] = Some c') as Hn.
  { cbn [frames_next]. unfold frame_next. rewrite Hop. cbn [follows Z.eqb Pos.eqb negb orb].
    change (c_ping (open_conn cfg c f)) with (c_ping c). by rewrite Hnone. }
  revert E. unfold receive. rewrite check_true by by rewrite Hr0. cbn [mbind res_bind]. set (w := set_partial_buffered _ (ws s)).
  assert (at_point cfg cb c [f] (log (ws s)) w (encode_frame f ++ [])) as Hat.
  { exists [], [f], c, []. split; [by split|]. left. rewrite (app_nil_r (log (ws s))). split; [done|]. split; [|done].
    destruct Hsees as ([] & ? & ? & ?). by repeat split. }
  destruct (read_step cfg cb (λ _, false) Hcb (λ _, eq_refl) Hsize c [f] c' (log (ws s)) w (encode_frame f) []
              Hat ltac:(by constructor) Hn) as (w' & E' & Hat').
  destruct (at_point_end cfg cb c [f] c' (log (ws s)) w' Hat' Hn) as (evs & Hev & Hsees').
  rewrite E'. cbn [mbind res_bind].
  assert (evs = [WRITEABLE_REQUESTED]) as ->.
  { destruct Hev as (c1 & evs1 & evs2 & _ & H1 & -> & ->). unfold frame_events in H1. rewrite Hop in H1.
    cbn [Z.eqb Pos.eqb] in H1. change (c_ping (open_conn cfg c f)) with (c_ping c) in H1. rewrite Hnone in H1. by subst. }
  assert (log w' = log (ws s) ++ [WRITEABLE_REQUESTED]) as Hlog by apply Hsees'.
  rewrite Hlog, drop_app_length, bool_decide_true by (by left).
  intros [= <- <-]. exists (lws_callback_on_writable (set_ws w' s)).
  destruct (on_writable_kept (set_ws w' s)) as (K & B & W & P).
  destruct (kept_fields _ _ K) as (_ & _ & _ & _ & Ewr & Ew & Er & Eh).
  specialize (Hs' ltac:(lia)). split_and!; try done.
  - pose proof (on_writable_asked (set_ws w' s)) as Ha. unfold asked in Ha.
    rewrite Eh in Ha. change (handling_pollout (set_ws w' s)) with (handling_pollout s) in Ha.
    rewrite (id_handling _ _ _ Hs) in Ha. apply Ha. rewrite <- Ew. apply Hs'.
  - exists c'. rewrite Ew. cbn. rewrite Hlog. by split.
Qed.

Lemma ping_payload_short f : wf_frame f → f_opcode f = 9 → (length (f_payload f) < 126)%nat.
Proof.
  intros (_ & _ & Hform & [Hd|(_ & _ & Ef)]) Hop; [unfold is_data in Hd; by rewrite Hop in Hd|].
  rewrite Ef in Hform. unfold f_len in Hform. lia.
Qed.

(** When the socket can take more, the pong goes first. *)
Lemma pollout_pong s c p :
  served cfg rnd s → role_client s = false → buflist_out s = [] → pollout s = true →
  sees (ws s) c (log (ws s)) → c_ping c = Some p → (length p < 126)%nat →
  ∃ s', service cfg tx_packet_size send rnd oom writeable cb s [Pollout] = Ok (true, s')
    ∧ stream s' = stream s ++ encode_frame (Frame true 10 None Len7 p) ∧ ping_pending_flag (ws s') = false.
Proof.
  intros [H Hu Hh _] Hr Ho Hp Hsees Hc Hlen. cbn [service service_step]. rewrite Hp.
  destruct Hsees as ([_ _ _ _ _ _ _ _ Hlrs Hpre _ Hpend _] & _). rewrite Hc in Hpend. destruct Hpend as [Hpf Hpay].
  pose proof (to_ping _ _ _ H) as (_ & Hpl & _ & _ & _ & Hclose). specialize (Hclose Hlrs).
  unfold lws_handle_POLLOUT_event. set (s1 := set_could_have_pending false _).
  assert (tx_ok cfg rnd s1) as H1 by (apply (tx_ok_same cfg rnd s); try done; apply H).
  assert (lws_has_buffered_out s1 = false) as Hb by (unfold lws_has_buffered_out; cbn; by rewrite Ho).
  rewrite Hb, bool_decide_false by apply (to_ping _ _ _ H1).
  unfold rops_handle_POLLOUT_ws. change (ws s1) with (ws s). rewrite Hlrs, Hpf.
  rewrite bool_decide_false by done. cbn [orb]. unfold send_pong. change (ws s1) with (ws s).
  rewrite Hclose, Hpre. cbn [negb andb].
  destruct (write_ping_buf_ok cfg tx_packet_size send rnd oom Henv s1 (ping_payload_len (ws s)) LWS_WRITE_PONG H1 Ho Hu)
    as (n & s2 & E & Hn & H2 & K & W & _ & _); [by left|done|].
  rewrite E. cbn [mbind res_bind]. rewrite (proj2 (Z.ltb_ge n 0)) by done.
  set (s3 := set_ws _ s2). assert (payload_is_close (ws s3) = false) as ->.
  { change (payload_is_close (ws s2) = false). by rewrite (wkept_field payload_is_close _ _ K). }
  cbn [mbind res_bind bail]. eexists. split; [reflexivity|]. split; [|done].
  change (stream s2 = stream s ++ encode_frame (Frame true 10 None Len7 p)).
  rewrite (to_stream _ _ _ H2), (frames_snoc rnd s1 s2 LWS_WRITE_PONG _ (wkept_role _ _ K) W).
  change (ws s1) with (ws s). rewrite Hpay. change (role_client s1) with (role_client s). rewrite Hr.
  rewrite fmap_app, concat_app. cbn [fmap list_fmap concat]. rewrite (app_nil_r (encode_frame _)).
  f_equal; [symmetry; apply (to_stream _ _ _ H1)|]. unfold wp_frame. by rewrite (proj2 (Z.ltb_lt _ 126)) by lia.
Qed.
End ping.

(** ** Properties *)

(** [C7] What a websocket connection sends, whatever its socket takes at a
    time: in any sequence of events (the socket can take more, bytes arrive at a
    server, the handler asks to write; a client's reads are not modelled), while
    no allocation fails and random bytes are to be had, with a handler that
    writes at most one message per writeable callback, of one of the kinds a
    handler may write, the bytes on the wire followed by those still
    buffered are exactly the frames of the messages written (the handler's,
    pongs, closes and pings, in order, a client's masked with fresh keys); no
    frame is left half written, and whenever bytes are buffered POLLOUT is on,
    so they will be sent. *)
Theorem tx_frames_on_the_wire (cfg : config) (tx_packet_size : Z) (send : nat → list Z → sent)
    (rnd : nat → option (list Z)) (oom : nat → bool) (writeable : nat → list (list Z * Z) * bool * Z)
    (cb : list event → event → Z) (s : wsi) (xs : list step)
    (Henv : environment send rnd oom) (Hpol : polite writeable) (Hsize : 0 < rx_size cfg)
    (Hs : served cfg rnd s) (Hxs : Forall (λ x, covered (role_client s) x = true) xs) :
  ∃ alive s', service cfg tx_packet_size send rnd oom writeable cb s xs = Ok (alive, s')
    ∧ framed rnd s' ∧ (alive = true → served cfg rnd s').
Proof. by apply service_ok. Qed.

(** A socket that takes at most ten bytes at a time, a fixed key, and a handler
    that writes two messages and then nothing. *)
Definition ten_bytes (n : nat) (b : list Z) : sent := if Nat.even n then Sent (length b `min` 10) else Again.
Definition always_ten (n : nat) (b : list Z) : sent := Sent (length b `min` 10).
Definition fixed_key (n : nat) : option (list Z) := Some [1; 2; 3; 4].
Definition two_messages (k : nat) : list (list Z * Z) * bool * Z :=
  match k with
  | 0%nat => ([(bs "a first message", LWS_WRITE_TEXT)], true, 0)
  | 1%nat => ([(bs "second", LWS_WRITE_BINARY)], false, 0)
  | _ => ([], false, 0)
  end.

Lemma ten_bytes_env : environment ten_bytes fixed_key (λ _, false).
Proof.
  split; [|by eexists|done]. intros n b. unfold ten_bytes. destruct (Nat.even n); [|done]. lia.
Qed.

Lemma always_ten_env : environment always_ten fixed_key (λ _, false).
Proof. split; [|by eexists|done]. intros n b. unfold always_ten. lia. Qed.

Lemma two_messages_polite : polite two_messages.
Proof.
  intros [|[|k]]; cbn; (split; [lia|]); repeat constructor; vm_compute; discriminate.
Qed.

Lemma wsi0_served client cfg rnd : 0 < rx_size cfg → served cfg rnd (wsi0 client).
Proof.
  intros H. split; try done. split; try done. split; [cbn; lia|]. by repeat split.
Qed.

Lemma tx_frames_on_the_wire_witness :
  ∃ alive s', service (Config 128 4096 true) 0 ten_bytes fixed_key (λ _, false) two_messages (λ _ _, 0)
      (wsi0 false) [Request; Pollout; Pollout; Pollout; Pollout; Receive [137; 1; 7]; Pollout; Pollout; Pollout; Pollout]
      = Ok (alive, s')
    ∧ framed fixed_key s' ∧ (alive = true → served (Config 128 4096 true) fixed_key s').
Proof.
  apply tx_frames_on_the_wire.
  - exact ten_bytes_env.
  - exact two_messages_polite.
  - vm_compute. reflexivity.
  - apply wsi0_served. vm_compute. reflexivity.
  - repeat constructor.
Defined.

(** [C23] Nothing stays buffered: if the socket takes at least a byte whenever
    it is offered any, then after at most as many POLLOUT events as bytes are
    buffered the buffer is empty, the connection lives, and the wire has
    received everything that was written. *)
Theorem tx_drains (cfg : config) (tx_packet_size : Z) (send : nat → list Z → sent)
    (rnd : nat → option (list Z)) (oom : nat → bool) (writeable : nat → list (list Z * Z) * bool * Z)
    (cb : list event → event → Z) (s : wsi)
    (Henv : environment send rnd oom) (Hpol : polite writeable) (Hwill : willing send)
    (Hlimit : 0 < tx_limit cfg tx_packet_size) (Hs : served cfg rnd s) :
  ∃ k s', (k ≤ length (content (buflist_out s)))%nat
    ∧ service cfg tx_packet_size send rnd oom writeable cb s (replicate k Pollout) = Ok (true, s')
    ∧ buflist_out s' = [] ∧ wire s' = concat (encode_frame <$> frames rnd s).
Proof.
  destruct (drain_ok cfg tx_packet_size send rnd oom Henv writeable Hpol cb
              (length (content (buflist_out s))) s Hwill Hlimit Hs (le_n _)) as (k & s' & Hk & E & _ & Ho & Hw).
  exists k, s'. split_and!; try done. rewrite Hw. apply (id_ok _ _ _ Hs).
Qed.

(** A server whose first message is half sent. *)
Definition half_sent : wsi :=
  match lws_write (Config 128 4096 true) 0 always_ten fixed_key (λ _, false) (set_pollout true (wsi0 false))
          (bs "a first message") LWS_WRITE_TEXT with
  | Ok (_, s) => s | Fault _ => wsi0 false end.

Lemma half_sent_served : served (Config 128 4096 true) fixed_key half_sent.
Proof.
  split; [split|split|..]; try (vm_compute; done); try (vm_compute; discriminate).
  repeat constructor.
Qed.

Lemma tx_drains_witness :
  ∃ k s', (k ≤ length (content (buflist_out half_sent)))%nat
    ∧ service (Config 128 4096 true) 0 always_ten fixed_key (λ _, false) two_messages (λ _ _, 0) half_sent
        (replicate k Pollout) = Ok (true, s')
    ∧ buflist_out s' = [] ∧ wire s' = concat (encode_frame <$> frames fixed_key half_sent).
Proof.
  apply tx_drains.
  - exact always_ten_env.
  - exact two_messages_polite.
  - intros n b Hb. unfold always_ten. destruct b; [done|]. cbn. lia.
  - vm_compute. reflexivity.
  - exact half_sent_served.
Defined.

(** Two messages written in one callback corrupt the stream: when bytes
    are buffered already, a server's second message is queued as a frame, but
    unless the socket happens to take as many bytes as the frame has, the
    connection believes to be inside that frame, and the next message goes out
    without a header. *)
Theorem tx_next_write_loses_its_header (cfg : config) (tx_packet_size : Z) (send : nat → list Z → sent)
    (rnd : nat → option (list Z)) (oom : nat → bool) (s : wsi) (seg : segment) (rest : list segment)
    (p2 p3 : list Z) (wp2 wp3 : Z)
    (Henv : environment send rnd oom) (Hs : served cfg rnd s) (Hrole : role_client s = false)
    (Hbuf : buflist_out s = seg :: rest) (Hlen : (length (buflist_out s) < 1023)%nat)
    (Hwp2 : data_wp wp2 = true) (Hwp3 : data_wp wp3 = true)
    (Hp2 : Z.of_nat (length p2) <= INT_MAX) (Hp3 : p3 ≠ [] ∧ Z.of_nat (length p3) <= INT_MAX)
    (Htaken : taken cfg tx_packet_size send s (sleft seg) ≠ length (encode_frame (wp_frame None wp2 p2))) :
  ∃ n2 s2 n3 s3, lws_write cfg tx_packet_size send rnd oom s p2 wp2 = Ok (n2, s2)
    ∧ lws_write cfg tx_packet_size send rnd oom s2 p3 wp3 = Ok (n3, s3)
    ∧ stream s3 = stream s ++ encode_frame (wp_frame None wp2 p2) ++ p3.
Proof.
  destruct (write_buffered cfg tx_packet_size send rnd oom Henv s seg rest p2 wp2 (id_ok _ _ _ Hs) Hrole Hbuf)
    as (n2 & s2 & E2 & Hi & Hr & Hfl & S2 & F2 & Hne & Hl2); [lia|done..|].
  destruct (buflist_out s2) as [|seg2 rest2] eqn:Eo; [done|]. rewrite <- Eo in *.
  destruct (write_inside cfg tx_packet_size send rnd oom Henv s2 seg2 rest2 p3 wp3) as (n3 & s3 & E3 & S3);
    try done; [lia|apply Hp3|apply Hp3|].
  exists n2, s2, n3, s3. split_and!; try done. by rewrite S3, S2, app_assoc.
Qed.

Lemma tx_next_write_loses_its_header_witness :
  ∃ n2 s2 n3 s3, lws_write (Config 128 4096 true) 0 always_ten fixed_key (λ _, false) half_sent (bs "second") 0 = Ok (n2, s2)
    ∧ lws_write (Config 128 4096 true) 0 always_ten fixed_key (λ _, false) s2 (bs "third") 0 = Ok (n3, s3)
    ∧ stream s3 = stream half_sent ++ encode_frame (wp_frame None 0 (bs "second")) ++ bs "third".
Proof.
  apply (tx_next_write_loses_its_header (Config 128 4096 true) 0 always_ten fixed_key (λ _, false) half_sent
           (hd (Segment [] 0) (buflist_out half_sent)) (tl (buflist_out half_sent))).
  - exact always_ten_env.
  - exact half_sent_served.
  - reflexivity.
  - reflexivity.
  - vm_compute. lia.
  - reflexivity.
  - reflexivity.
  - vm_compute. discriminate.
  - split; vm_compute; discriminate.
  - vm_compute. discriminate.
Defined.

(** A server that has just been upgraded, and the frames that then arrive. *)
Lemma frames_received (scfg : config) (scb : list event → event → Z) (reads : list (list Z)) (fs : list frame) (cN : conn) :
  concat reads = concat (encode_frame <$> fs) → Forall wf_frame fs → frames_next scfg conn0 fs = Some cN →
  (∀ l e, scb l e = 0) → 125 <= rx_size scfg →
  ∃ w evs, parse_reads scfg scb (λ _, false) lws_server_init_wsi_for_ws reads = Ok (0, w, [])
    ∧ frames_events scfg conn0 fs evs ∧ sees w cN evs.
Proof.
  intros Hreads Hwf Hlegal Hscb Hssize.
  assert (at_point scfg scb conn0 fs [] lws_server_init_wsi_for_ws (concat reads)) as Hat.
  { exists [], fs, conn0, []. split; [by split|]. left. rewrite Hreads. by repeat split. }
  destruct (reads_step scfg scb (λ _, false) Hscb (λ _, eq_refl) Hssize conn0 fs cN [] reads _ Hat Hwf Hlegal)
    as (w & Ew & Hat').
  destruct (at_point_end scfg scb conn0 fs cN [] w Hat' Hlegal) as (evs & He & Hsees).
  by exists w, evs.
Qed.

(** [C4] From end to end: whatever requests to write and POLLOUT events a
    client is served with (its reads are not modelled) and however its socket
    cuts up the bytes, while no allocation fails and its handler writes at most
    one message per writeable callback, once nothing is left in its buffer a server
    that gets the wire's bytes in reads of any size makes exactly the callbacks
    of the messages the client wrote, in order, provided they are messages of
    the protocol (fragments in sequence, text in UTF-8, control frames short). *)
Theorem ws_end_to_end (cfg : config) (tx_packet_size : Z) (send : nat → list Z → sent)
    (rnd : nat → option (list Z)) (oom : nat → bool) (writeable : nat → list (list Z * Z) * bool * Z)
    (cb : list event → event → Z) (xs : list step) (alive : bool) (s : wsi)
    (scfg : config) (scb : list event → event → Z) (reads : list (list Z)) (cN : conn)
    (Henv : environment send rnd oom) (Hpol : polite writeable) (Hsize : 0 < rx_size cfg)
    (Hxs : Forall (λ x, covered true x = true) xs)
    (Hrun : service cfg tx_packet_size send rnd oom writeable cb (wsi0 true) xs = Ok (alive, s))
    (Hsent : buflist_out s = []) (Hreads : concat reads = wire s)
    (Hwf : Forall wf_frame (frames rnd s)) (Hlegal : frames_next scfg conn0 (frames rnd s) = Some cN)
    (Hscb : ∀ l e, scb l e = 0) (Hssize : 125 <= rx_size scfg) :
  ∃ w evs, parse_reads scfg scb (λ _, false) lws_server_init_wsi_for_ws reads = Ok (0, w, [])
    ∧ frames_events scfg conn0 (frames rnd s) evs ∧ sees w cN evs.
Proof.
  destruct (service_ok cfg tx_packet_size send rnd oom Henv writeable Hpol cb Hsize xs (wsi0 true)
              (wsi0_served true cfg rnd Hsize) Hxs) as (alive' & s' & E & (Hstr & _) & _).
  rewrite Hrun in E. injection E as <- <-. unfold stream in Hstr. rewrite Hsent, app_nil_r in Hstr.
  apply frames_received; try done. by rewrite Hreads.
Qed.

(** The two messages, ten bytes at a time to the wire and seven from it. *)
Definition e2e_run : res (bool * wsi) :=
  service (Config 128 4096 true) 0 ten_bytes fixed_key (λ _, false) two_messages (λ _ _, 0)
    (wsi0 true) (Request :: replicate 12 Pollout).

Definition e2e_client : wsi := match e2e_run with Ok (_, s) => s | Fault _ => wsi0 true end.

Definition e2e_conn : conn := Conn false false 0 true false None.

Lemma ws_end_to_end_witness :
  ∃ w evs, parse_reads (Config 128 4096 true) (λ _ _, 0) (λ _, false) lws_server_init_wsi_for_ws
      [take 7 (wire e2e_client); drop 7 (wire e2e_client)] = Ok (0, w, [])
    ∧ frames_events (Config 128 4096 true) conn0 (frames fixed_key e2e_client) evs ∧ sees w e2e_conn evs.
Proof.
  apply (ws_end_to_end (Config 128 4096 true) 0 ten_bytes fixed_key (λ _, false) two_messages (λ _ _, 0)
           (Request :: replicate 12 Pollout) true e2e_client).
  - exact ten_bytes_env.
  - exact two_messages_polite.
  - vm_compute. reflexivity.
  - repeat constructor.
  - vm_compute. reflexivity.
  - vm_compute. reflexivity.
  - vm_compute. reflexivity.
  - by_compute.
  - vm_compute. reflexivity.
  - reflexivity.
  - vm_compute. discriminate.
Defined.

(** [C24] A ping is answered: a server between two frames, with nothing
    buffered and no earlier ping pending, that receives a ping and can then
    write, stays up and sends, before anything else, one unmasked pong with the
    payload of the ping; afterwards no ping is pending. *)
Theorem ws_ping_is_answered (cfg : config) (tx_packet_size : Z) (send : nat → list Z → sent)
    (rnd : nat → option (list Z)) (oom : nat → bool) (writeable : nat → list (list Z * Z) * bool * Z)
    (cb : list event → event → Z) (s : wsi) (c : conn) (f : frame)
    (Henv : environment send rnd oom) (Hpol : polite writeable) (Hsize : 125 <= rx_size cfg)
    (Hcb : ∀ l e, cb l e = 0)
    (Hs : served cfg rnd s) (Hrole : role_client s = false) (Hbuf : buflist_out s = [])
    (Hsees : sees (ws s) c (log (ws s))) (Hnone : c_ping c = None)
    (Hf : wf_frame f) (Hping : f_opcode f = 9) :
  ∃ s', service cfg tx_packet_size send rnd oom writeable cb s [Receive (encode_frame f); Pollout] = Ok (true, s')
    ∧ stream s' = stream s ++ encode_frame (Frame true 10 None Len7 (f_payload f))
    ∧ ping_pending_flag (ws s') = false.
Proof.
  destruct (receive_ping cfg rnd cb Hcb Hsize s c f Hs Hrole Hsees Hnone Hf Hping)
    as (s1 & E1 & Hs1 & Hp1 & (c1 & Hsees1 & Hc1) & Ew1 & Eo1 & Er1 & Ewr1).
  destruct (pollout_pong cfg tx_packet_size send rnd oom Henv writeable cb s1 c1 (f_payload f))
    as (s2 & E2 & S2 & P2); try done; try congruence; [by apply ping_payload_short|].
  exists s2. split; [|split; [|done]].
  { change [Receive (encode_frame f); Pollout] with ([Receive (encode_frame f)] ++ [Pollout]).
    rewrite (service_app cfg tx_packet_size send rnd oom writeable cb [Receive (encode_frame f)] [Pollout] s s1); [done|].
    cbn [service service_step]. by rewrite E1. } rewrite S2. unfold stream. by rewrite Ew1, Eo1.
Qed.

Lemma ws_ping_is_answered_witness :
  ∃ s', service (Config 128 4096 true) 0 ten_bytes fixed_key (λ _, false) two_messages (λ _ _, 0) (wsi0 false)
      [Receive (encode_frame (Frame true 9 (Some [1; 2; 3; 4]) Len7 (bs "still there?"))); Pollout] = Ok (true, s')
    ∧ stream s' = stream (wsi0 false) ++ encode_frame (Frame true 10 None Len7 (bs "still there?"))
    ∧ ping_pending_flag (ws s') = false.
Proof.
  apply (ws_ping_is_answered (Config 128 4096 true) 0 ten_bytes fixed_key (λ _, false) two_messages (λ _ _, 0)
           (wsi0 false) conn0 (Frame true 9 (Some [1; 2; 3; 4]) Len7 (bs "still there?"))).
  - exact ten_bytes_env.
  - exact two_messages_polite.
  - vm_compute. discriminate.
  - reflexivity.
  - apply wsi0_served. vm_compute. reflexivity.
  - reflexivity.
  - reflexivity.
  - repeat split.
  - reflexivity.
  - by_compute.
  - reflexivity.
Defined.
