(* ===== verification/HttpHead.v ===== *)
(** * Building HTTP/1 response headers

    Models lib/roles/http/header.c for HTTP/1: the functions that put a header
    block together in a caller's buffer, [lws_http_redirect], and the names of
    the tokens of lextable-strings.h.  The buffer is the bytes written so far,
    [out], and its size up to [end], [room]; a store at or after [end] is a
    fault.  The vhost's extra headers, its options and the server's name are
    fields of [hwsi].  HTTP/2 and stream compression are not in it. *)

From stdpp Require Import base numbers list strings.
From Stdlib Require Import ZArith Lia Ascii.
From S2P Require Import Prelude.

(** ** State *)

Inductive conn_type := HTTP_CONNECTION_CLOSE | HTTP_CONNECTION_KEEP_ALIVE.

Record hwsi := Hwsi {
  request_version : Z;
  vhost_headers : list (list Z * list Z);
  security_best_practices : bool;
  server_string : option (list Z);
  sts : bool;
  tx_content_length : Z;
  tx_content_remain : Z;
  http_conn_type : conn_type;
}.

Definition set_tx_content (n : Z) (w : hwsi) : hwsi :=
  {| request_version := request_version w; vhost_headers := vhost_headers w;
     security_best_practices := security_best_practices w; server_string := server_string w;
     sts := sts w; tx_content_length := n; tx_content_remain := n;
     http_conn_type := http_conn_type w |}.

Definition set_conn_type (t : conn_type) (w : hwsi) : hwsi :=
  {| request_version := request_version w; vhost_headers := vhost_headers w;
     security_best_practices := security_best_practices w; server_string := server_string w;
     sts := sts w; tx_content_length := tx_content_length w; tx_content_remain := tx_content_remain w;
     http_conn_type := t |}.

(** The names of the tokens. *)
Definition set : list (list Z) :=
  (bs <$> ["get "; "post "; "options "; "host:"; "connection:"; "upgrade:"; "origin:";
    "sec-websocket-draft:"]%string) ++ [[13; 10]] ++
  (bs <$> ["sec-websocket-extensions:"; "sec-websocket-key1:"; "sec-websocket-key2:";
    "sec-websocket-protocol:"; "sec-websocket-accept:"; "sec-websocket-nonce:"; "http/1.1 ";
    "http2-settings:"; "accept:"; "access-control-request-headers:"; "if-modified-since:";
    "if-none-match:"; "accept-encoding:"; "accept-language:"; "pragma:"; "cache-control:";
    "authorization:"; "cookie:"; "content-length:"; "content-type:"; "date:"; "range:"; "referer:";
    "sec-websocket-key:"; "sec-websocket-version:"; "sec-websocket-origin:"; ":authority"; ":method";
    ":path"; ":scheme"; ":status"; "accept-charset:"; "accept-ranges:";
    "access-control-allow-origin:"; "age:"; "allow:"; "content-disposition:"; "content-encoding:";
    "content-language:"; "content-location:"; "content-range:"; "etag:"; "expect:"; "expires:";
    "from:"; "if-match:"; "if-range:"; "if-unmodified-since:"; "last-modified:"; "link:"; "location:";
    "max-forwards:"; "proxy-authenticate:"; "proxy-authorization:"; "refresh:"; "retry-after:";
    "server:"; "set-cookie:"; "strict-transport-security:"; "transfer-encoding:"; "user-agent:";
    "vary:"; "via:"; "www-authenticate:"; "patch"; "put"; "delete"; "uri-args"; "proxy ";
    "x-real-ip:"; "http/1.0 "; "x-forwarded-for"; "connect "; "head "; "te:"; "replay-nonce:";
    ":protocol"; "x-auth-token:"]%string) ++ [[]].

Definition WSI_TOKEN_CONNECTION : nat := 4.
Definition WSI_TOKEN_HTTP_CONTENT_LENGTH : nat := 27.
Definition WSI_TOKEN_HTTP_CONTENT_TYPE : nat := 28.
Definition WSI_TOKEN_HTTP_LOCATION : nat := 59.
Definition WSI_TOKEN_HTTP_SERVER : nat := 65.

(** The tokens are the places of the names the callers mean. *)
Example tokens_in_sync :
  set !! WSI_TOKEN_CONNECTION = Some (bs "connection:")
  ∧ set !! WSI_TOKEN_HTTP_CONTENT_LENGTH = Some (bs "content-length:")
  ∧ set !! WSI_TOKEN_HTTP_CONTENT_TYPE = Some (bs "content-type:")
  ∧ set !! WSI_TOKEN_HTTP_LOCATION = Some (bs "location:")
  ∧ set !! WSI_TOKEN_HTTP_SERVER = Some (bs "server:").
Proof. vm_compute. done. Qed.

Definition lws_token_to_string (token : nat) : option (list Z) := set !! token.

(** ** The code

    Every function returns the C result (0 is success) and what the buffer
    holds then. *)

Section header.
Variable room : nat.

(** One byte at [*p], then [p++]. *)
Definition put (out : list Z) (b : Z) : res (list Z) :=
  if (length out <? room)%nat then Ok (out ++ [b]) else Fault OutOfBounds.

Fixpoint puts (out : list Z) (l : list Z) : res (list Z) :=
  match l with
  | [] => Ok out
  | b :: l' => out ← put out b; puts out l'
  end.

(** [while (p < end && *name) *p++ = *name++] *)
Fixpoint copy_name (out name : list Z) : res (list Z) :=
  match name with
  | [] => Ok out
  | b :: name' =>
      if (length out <? room)%nat then out ← put out b; copy_name out name' else Ok out
  end.

Definition lws_add_http_header_by_name (name : option (list Z)) (value out : list Z) : res (Z * list Z) :=
  let rest (out : list Z) :=
    if (room <=? length out + length value + 3)%nat then Ok (1, out)
    else
      out ← puts out value;
      out ← put out 13;
      out ← put out 10;
      Ok (0, out) in
  match name with
  | Some name =>
      out ← copy_name out name;
      if (length out =? room)%nat then Ok (1, out)
      else out ← put out 32; rest out
  | None => rest out
  end.

Definition lws_finalize_http_header (out : list Z) : res (Z * list Z) :=
  if Z.of_nat room - Z.of_nat (length out) <? 3 then Ok (1, out)
  else out ← put out 13; out ← put out 10; Ok (0, out).

Definition lws_add_http_header_by_token (token : nat) (value out : list Z) : res (Z * list Z) :=
  match lws_token_to_string token with
  | None => Ok (1, out)
  | Some name => lws_add_http_header_by_name (Some name) value out
  end.

(** The [%llu] conversion. *)
Definition fmt_llu (n : Z) : list Z := dec_go 20 n [].

Definition lws_add_http_header_content_length (w : hwsi) (content_length : Z) (out : list Z) :
    res (Z * list Z * hwsi) :=
  let b := fmt_llu content_length in
  _ ← check (length b <? 24)%nat OutOfBounds;
  '(r, out) ← lws_add_http_header_by_token WSI_TOKEN_HTTP_CONTENT_LENGTH b out;
  if negb (r =? 0) then Ok (1, out, w) else Ok (0, out, set_tx_content content_length w).

Definition err400 : list (list Z) :=
  bs <$> ["Bad Request"; "Unauthorized"; "Payment Required"; "Forbidden"; "Not Found";
    "Method Not Allowed"; "Not Acceptable"; "Proxy Auth Required"; "Request Timeout"; "Conflict";
    "Gone"; "Length Required"; "Precondition Failed"; "Request Entity Too Large";
    "Request URI too Long"; "Unsupported Media Type"; "Requested Range Not Satisfiable";
    "Expectation Failed"]%string.

Definition err500 : list (list Z) :=
  bs <$> ["Internal Server Error"; "Not Implemented"; "Bad Gateway"; "Service Unavailable";
    "Gateway Timeout"; "HTTP Version Not Supported"]%string.

(** In the order they are added: the list starts at the last entry. *)
Definition pvo_hsbph : list (list Z * list Z) :=
  [ (bs "content-security-policy:",
     bs "default-src 'none'; img-src 'self' data: ; script-src 'self'; font-src 'self'; style-src 'self'; connect-src 'self'; frame-ancestors 'none'; base-uri 'none';form-action 'self';");
    (bs "x-content-type-options:", bs "nosniff");
    (bs "x-xss-protection:", bs "1; mode=block");
    (bs "x-frame-options:", bs "deny");
    (bs "referrer-policy:", bs "no-referrer") ].

(** Each assignment of the source in turn. *)
Definition description (code : Z) : list Z :=
  let d := [] in
  let d := if (400 <=? code) && (code <? 400 + Z.of_nat (length err400))
           then nth (Z.to_nat (code - 400)) err400 [] else d in
  let d := if (500 <=? code) && (code <? 500 + Z.of_nat (length err500))
           then nth (Z.to_nat (code - 500)) err500 [] else d in
  let d := if code =? 100 then bs "Continue" else d in
  let d := if code =? 200 then bs "OK" else d in
  if code =? 304 then bs "Not Modified"
  else if (300 <=? code) && (code <? 400) then bs "Redirect" else d.

Definition hver : list (list Z) := bs <$> ["HTTP/1.0"; "HTTP/1.1"; "HTTP/2"]%string.

Definition code_and_desc (w : hwsi) (code : Z) : list Z :=
  let p1 := if (0 <=? request_version w) && (request_version w <? Z.of_nat (length hver))
            then nth (Z.to_nat (request_version w)) hver [] else nth 0 hver [] in
  p1 ++ [32] ++ fmt_d code ++ [32] ++ description code.

(** The loop over a list of options. *)
Fixpoint add_headers (headers : list (list Z * list Z)) (out : list Z) : res (Z * list Z) :=
  match headers with
  | [] => Ok (0, out)
  | (name, value) :: headers' =>
      '(r, out) ← lws_add_http_header_by_name (Some name) value out;
      if negb (r =? 0) then Ok (1, out) else add_headers headers' out
  end.

Definition LWSAHH_CODE_MASK : Z := Z.shiftl 1 16 - 1.
Definition LWSAHH_FLAG_NO_SERVER_NAME : Z := Z.shiftl 1 30.

Definition lws_add_http_header_status (w : hwsi) (_code : Z) (out : list Z) : res (Z * list Z) :=
  let code := Z.land _code LWSAHH_CODE_MASK in
  let line := code_and_desc w code in
  _ ← check (length line <? 60)%nat OutOfBounds;
  '(r, out) ← lws_add_http_header_by_name None line out;
  if negb (r =? 0) then Ok (1, out)
  else
    '(r, out) ← add_headers (vhost_headers w) out;
    if negb (r =? 0) then Ok (1, out)
    else
      '(r, out) ← (if security_best_practices w then add_headers pvo_hsbph out else Ok (0, out));
      if negb (r =? 0) then Ok (1, out)
      else
        '(r, out) ←
          (match server_string w with
           | Some name =>
               if Z.land _code LWSAHH_FLAG_NO_SERVER_NAME =? 0
               then lws_add_http_header_by_token WSI_TOKEN_HTTP_SERVER name out else Ok (0, out)
           | None => Ok (0, out)
           end);
        if negb (r =? 0) then Ok (1, out)
        else
          '(r, out) ←
            (if sts w
             then lws_add_http_header_by_name (Some (bs "Strict-Transport-Security:"))
                    (bs "max-age=15768000 ; includeSubDomains") out
             else Ok (0, out));
          if negb (r =? 0) then Ok (1, out)
          else if Z.of_nat room - 2 <=? Z.of_nat (length out) then Ok (1, out) else Ok (0, out).

(** [content_len] is [None] for LWS_ILLEGAL_HTTP_CONTENT_LEN. *)
Definition lws_add_http_common_headers (w : hwsi) (code : Z) (content_type : list Z)
    (content_len : option Z) (out : list Z) : res (Z * list Z * hwsi) :=
  '(r, out) ← lws_add_http_header_status w code out;
  if negb (r =? 0) then Ok (1, out, w)
  else
    '(r, out) ← lws_add_http_header_by_token WSI_TOKEN_HTTP_CONTENT_TYPE content_type out;
    if negb (r =? 0) then Ok (1, out, w)
    else
      match content_len with
      | Some n =>
          '(r, out, w) ← lws_add_http_header_content_length w n out;
          if negb (r =? 0) then Ok (1, out, w) else Ok (0, out, w)
      | None =>
          '(r, out) ← lws_add_http_header_by_token WSI_TOKEN_CONNECTION (bs "close") out;
          if negb (r =? 0) then Ok (1, out, w)
          else Ok (0, out, set_conn_type HTTP_CONNECTION_CLOSE w)
      end.

(** Up to the write: what is to be written, or -1. *)
Definition lws_http_redirect (w : hwsi) (code : Z) (loc out : list Z) : res (Z * list Z) :=
  '(r, out) ← lws_add_http_header_status w code out;
  if negb (r =? 0) then Ok (-1, out)
  else
    '(r, out) ← lws_add_http_header_by_token WSI_TOKEN_HTTP_LOCATION loc out;
    if negb (r =? 0) then Ok (-1, out)
    else
      '(r, out) ← lws_add_http_header_by_token WSI_TOKEN_HTTP_CONTENT_TYPE (bs "text/html") out;
      if negb (r =? 0) then Ok (-1, out)
      else
        '(r, out) ← lws_add_http_header_by_token WSI_TOKEN_HTTP_CONTENT_LENGTH (bs "0") out;
        if negb (r =? 0) then Ok (-1, out)
        else
          '(r, out) ← lws_finalize_http_header out;
          if negb (r =? 0) then Ok (-1, out) else Ok (0, out).
End header.

(** ** The text of a response header *)

Definition CRLF : list Z := [13; 10].

(** A line of the header: the name, a space and the value, or the status. *)
Definition line (x : option (list Z) * list Z) : list Z :=
  match x with (Some name, value) => name ++ [32] ++ value | (None, value) => value end ++ CRLF.

Definition header_text (xs : list (option (list Z) * list Z)) : list Z := concat (line <$> xs).

Definition named (x : list Z * list Z) : option (list Z) * list Z := (Some x.1, x.2).

(** What [lws_add_http_header_status] adds. *)
Definition status_lines (w : hwsi) (_code : Z) : list (option (list Z) * list Z) :=
  (None, code_and_desc w (Z.land _code LWSAHH_CODE_MASK))
  :: (named <$> vhost_headers w)
  ++ (if security_best_practices w then named <$> pvo_hsbph else [])
  ++ (match server_string w with
      | Some name => if Z.land _code LWSAHH_FLAG_NO_SERVER_NAME =? 0 then [(Some (bs "server:"), name)] else []
      | None => []
      end)
  ++ (if sts w then [(Some (bs "Strict-Transport-Security:"), bs "max-age=15768000 ; includeSubDomains")] else []).

Definition common_lines (w : hwsi) (code : Z) (content_type : list Z) (content_len : option Z) :=
  status_lines w code
  ++ [(Some (bs "content-type:"), content_type)]
  ++ (match content_len with
      | Some n => [(Some (bs "content-length:"), fmt_llu n)]
      | None => [(Some (bs "connection:"), bs "close")]
      end).

(** ** Lemmas *)

(** [r] adds [l] to [out] when it fits with [k] bytes to spare, else it fails
    without leaving the buffer. *)
Definition adds (room k : nat) (l out : list Z) (r : res (Z * list Z)) : Prop :=
  if (length out + length l + k <? room)%nat then r = Ok (0, out ++ l)
  else ∃ out', r = Ok (1, out') ∧ (length out' ≤ room)%nat.

Section lemmas.
Context (room : nat).

Lemma puts_spec out l : (length out + length l ≤ room)%nat → puts room out l = Ok (out ++ l).
Proof.
  revert out. induction l as [|b l IH]; intros out Hl; cbn [puts]; [by rewrite app_nil_r|].
  cbn in Hl. unfold put. rewrite (proj2 (Nat.ltb_lt _ _)) by lia. cbn [mbind res_bind].
  rewrite IH by (rewrite length_app; cbn; lia). by rewrite <- app_assoc.
Qed.

Lemma put_spec out b : (length out < room)%nat → put room out b = Ok (out ++ [b]).
Proof. intros H. unfold put. by rewrite (proj2 (Nat.ltb_lt _ _)). Qed.

Lemma copy_name_spec out name :
  (length out ≤ room)%nat →
  copy_name room out name = Ok (out ++ take (room - length out) name).
Proof.
  revert out. induction name as [|b name IH]; intros out Hl; cbn [copy_name].
  { by rewrite take_nil, app_nil_r. }
  destruct (Nat.ltb_spec (length out) room).
  - rewrite put_spec by done. cbn [mbind res_bind]. rewrite IH by (rewrite length_app; cbn; lia).
    rewrite length_app. cbn [length]. replace (room - length out)%nat with (S (room - (length out + 1))) by lia.
    cbn [take]. by rewrite <- app_assoc.
  - replace (room - length out)%nat with 0%nat by lia. cbn. by rewrite app_nil_r.
Qed.

Lemma adds_rest value out :
  (length out ≤ room)%nat →
  adds room 1 (value ++ CRLF) out
    (if (room <=? length out + length value + 3)%nat then Ok (1, out)
     else out ← puts room out value; out ← put room out 13; out ← put room out 10; Ok (0, out)).
Proof.
  intros Ho. unfold adds. rewrite length_app. cbn [length CRLF].
  destruct (Nat.ltb_spec (length out + (length value + 2) + 1) room).
  - rewrite (proj2 (Nat.leb_gt _ _)) by lia. rewrite puts_spec by lia. cbn [mbind res_bind].
    rewrite put_spec by (rewrite length_app; lia). cbn [mbind res_bind].
    rewrite put_spec by (rewrite !length_app; cbn; lia). cbn [mbind res_bind]. by rewrite <- !app_assoc.
  - rewrite (proj2 (Nat.leb_le _ _)) by lia. by exists out.
Qed.

Lemma adds_by_name name value out :
  (length out ≤ room)%nat →
  adds room 1 (line (name, value)) out (lws_add_http_header_by_name room name value out).
Proof.
  intros Ho. unfold lws_add_http_header_by_name. destruct name as [name|]; [|by apply adds_rest].
  change (line (Some name, value)) with ((name ++ [32] ++ value) ++ CRLF).
  rewrite copy_name_spec by done. cbn [mbind res_bind].
  set (out1 := out ++ take (room - length out) name).
  assert (length out1 ≤ room)%nat as Ho1 by (subst out1; rewrite length_app, length_take; lia).
  destruct (Nat.eqb_spec (length out1) room) as [E|E].
  - unfold adds. rewrite (proj2 (Nat.ltb_ge _ _)); [by exists out1|].
    subst out1. rewrite length_app, length_take in E. rewrite !length_app. cbn. lia.
  - assert (out1 = out ++ name) as E1.
    { subst out1. rewrite length_app, length_take in E. rewrite take_ge by lia. done. }
    clearbody out1. subst out1. rewrite put_spec by lia. cbn [mbind res_bind].
    pose proof (adds_rest value ((out ++ name) ++ [32])) as H. unfold adds in *. rewrite length_app in E, Ho1.
    rewrite !length_app in H. rewrite !length_app. cbn [length] in *. specialize (H ltac:(lia)).
    replace (length out + (length name + (1 + length value) + length CRLF) + 1)%nat
      with (length out + length name + 1 + (length value + length CRLF) + 1)%nat by lia.
    destruct (_ <? room)%nat; [|done]. rewrite H. by rewrite <- !app_assoc.
Qed.

Lemma adds_by_token token name value out :
  set !! token = Some name → (length out ≤ room)%nat →
  adds room 1 (line (Some name, value)) out (lws_add_http_header_by_token room token value out).
Proof.
  intros E Ho. unfold lws_add_http_header_by_token, lws_token_to_string. rewrite E. by apply adds_by_name.
Qed.

Lemma adds_nothing out : (length out + 1 < room)%nat → adds room 1 [] out (Ok (0, out)).
Proof.
  intros H. unfold adds. rewrite (proj2 (Nat.ltb_lt _ _)) by (cbn; lia). by rewrite app_nil_r.
Qed.

(** One after the other; the first needs no more room to spare than the second
    takes. *)
Lemma adds_bind k1 k2 l1 l2 out r1 (f : list Z → res (Z * list Z)) :
  (k1 ≤ length l2 + k2)%nat → adds room k1 l1 out r1 →
  ((length (out ++ l1) + k1 < room)%nat → adds room k2 l2 (out ++ l1) (f (out ++ l1))) →
  adds room k2 (l1 ++ l2) out ('(r, out') ← r1; if negb (r =? 0) then Ok (1, out') else f out').
Proof.
  intros Hk H1 H2. unfold adds in *. rewrite !length_app in H2. rewrite length_app.
  destruct (Nat.ltb_spec (length out + length l1 + k1) room) as [Hl|Hl].
  - rewrite H1. cbn [mbind res_bind Z.eqb negb]. specialize (H2 ltac:(lia)).
    replace (length out + (length l1 + length l2) + k2)%nat with (length out + length l1 + length l2 + k2)%nat by lia.
    destruct (_ <? room)%nat; [|exact H2]. by rewrite H2, app_assoc.
  - destruct H1 as (out' & -> & Ho'). rewrite (proj2 (Nat.ltb_ge _ _)) by lia. cbn [mbind res_bind Z.eqb negb]. by exists out'.
Qed.

Lemma header_text_app xs ys : header_text (xs ++ ys) = header_text xs ++ header_text ys.
Proof. unfold header_text. by rewrite fmap_app, concat_app. Qed.

Lemma header_text_one x : header_text [x] = line x.
Proof. unfold header_text. cbn. by rewrite app_nil_r. Qed.

Lemma adds_headers hs out :
  (length out + 1 < room)%nat → adds room 1 (header_text (named <$> hs)) out (add_headers room hs out).
Proof.
  revert out. induction hs as [|[name value] hs IH]; intros out Ho; cbn [add_headers fmap list_fmap].
  { by apply adds_nothing. }
  change (header_text (_ :: _)) with (line (Some name, value) ++ header_text (named <$> hs)).
  apply (adds_bind 1 1); [lia|apply adds_by_name; lia|]. intros H. apply IH. lia.
Qed.

Lemma fmt_d_short n k : (1 ≤ k)%nat → 0 <= n < 10 ^ Z.of_nat k → n <= INT_MAX → (length (fmt_d n) ≤ k)%nat.
Proof. intros Hk Hn Hi. destruct (fmt_d_spec n) as (_ & _ & _ & H); [lia|]. apply H; lia. Qed.

Lemma short_texts (ts : list (list Z)) i n :
  forallb (λ t, length t <=? n)%nat ts = true → (length (nth i ts []) ≤ n)%nat.
Proof.
  intros H. destruct (Nat.ltb_spec i (length ts)) as [Hi|Hi]; [|rewrite nth_overflow by lia; cbn; lia].
  rewrite forallb_forall in H. apply Nat.leb_le, H, nth_In, Hi.
Qed.

Lemma description_short code : (length (description code) ≤ 31)%nat.
Proof.
  unfold description. cbv zeta.
  repeat match goal with |- (length (if ?b then _ else _) ≤ _)%nat => destruct b end; try (cbn; lia);
    by apply short_texts.
Qed.

(** The status line fits in [code_and_desc]. *)
Lemma code_and_desc_short w c : (length (code_and_desc w (Z.land c LWSAHH_CODE_MASK)) < 60)%nat.
Proof.
  unfold code_and_desc. cbv zeta. rewrite !length_app.
  assert (0 <= Z.land c LWSAHH_CODE_MASK < 10 ^ 5) as Hc.
  { change LWSAHH_CODE_MASK with (Z.ones 16). rewrite Z.land_ones by lia.
    pose proof (Z.mod_pos_bound c (2 ^ 16)). lia. }
  pose proof (fmt_d_short (Z.land c LWSAHH_CODE_MASK) 5 ltac:(lia) Hc ltac:(unfold INT_MAX; lia)).
  pose proof (description_short (Z.land c LWSAHH_CODE_MASK)).
  assert (∀ b : bool, length (if b then nth (Z.to_nat (request_version w)) hver [] else nth 0 hver []) ≤ 8)%nat as Hv
    by (intros []; by apply short_texts).
  pose proof (Hv ((0 <=? request_version w) && (request_version w <? Z.of_nat (length hver)))) as Hv'.
  cbn [length] in *. lia.
Qed.

(** An optional header. *)
Lemma adds_option (b : bool) xs out r :
  (length out + 1 < room)%nat → adds room 1 (header_text xs) out r →
  adds room 1 (header_text (if b then xs else [])) out (if b then r else Ok (0, out)).
Proof. intros Ho H. destruct b; [done|]. by apply adds_nothing. Qed.

Lemma adds_status w code out :
  (length out ≤ room)%nat →
  adds room 2 (header_text (status_lines w code)) out (lws_add_http_header_status room w code out).
Proof.
  intros Ho. unfold lws_add_http_header_status, status_lines. cbv zeta.
  rewrite check_true by (apply Nat.ltb_lt, code_and_desc_short). cbn [mbind res_bind].
  change (header_text (?x :: ?l)) with (line x ++ header_text l). rewrite !header_text_app.
  rewrite <- (app_nil_r (header_text (if sts w then _ else _))).
  apply (adds_bind 1 2); [lia|by apply adds_by_name|intros H1].
  apply (adds_bind 1 2); [lia|apply adds_headers; lia|intros H2].
  apply (adds_bind 1 2); [lia|apply adds_option; [lia|apply adds_headers; lia]|intros H3].
  apply (adds_bind 1 2); [lia| |intros H4].
  { destruct (server_string w) as [name|]; [|apply adds_nothing; lia].
    apply adds_option; [lia|]. rewrite header_text_one. apply adds_by_token; [done|lia]. }
  apply (adds_bind 1 2); [cbn; lia| |intros H5].
  { apply adds_option; [lia|]. rewrite header_text_one. apply adds_by_name. lia. }
  unfold adds. rewrite Nat.add_0_r. set (out' := _ ++ header_text (if sts w then _ else _)) in *.
  destruct (Nat.ltb_spec (length out' + 2) room).
  - rewrite (proj2 (Z.leb_gt _ _)) by lia. by rewrite app_nil_r.
  - rewrite (proj2 (Z.leb_le _ _)) by lia. exists out'. split; [done|lia].
Qed.

Lemma adds_finalize out : (length out ≤ room)%nat → adds room 0 CRLF out (lws_finalize_http_header room out).
Proof.
  intros Ho. unfold lws_finalize_http_header, adds. cbn [length CRLF].
  destruct (Nat.ltb_spec (length out + 2 + 0) room).
  - rewrite (proj2 (Z.ltb_ge _ _)) by lia. rewrite put_spec by lia. cbn [mbind res_bind].
    rewrite put_spec by (rewrite length_app; cbn; lia). cbn [mbind res_bind]. by rewrite <- app_assoc.
  - rewrite (proj2 (Z.ltb_lt _ _)) by lia. by exists out.
Qed.

Lemma fmt_llu_short n : 0 <= n < 10 ^ 20 → (length (fmt_llu n) ≤ 20)%nat.
Proof.
  intros Hn. unfold fmt_llu. destruct (dec_go_spec 20 n []) as (ds & -> & _ & _ & H & _); [done|].
  rewrite app_nil_r. apply H; [lia|]. apply Hn.
Qed.

(** The last header of [lws_add_http_common_headers], and what it changes. *)
Lemma common_tail w (n : option Z) out :
  (length out ≤ room)%nat → (if n is Some k then 0 <= k < 10 ^ 20 else True) →
  let l := header_text (match n with Some k => [(Some (bs "content-length:"), fmt_llu k)]
                        | None => [(Some (bs "connection:"), bs "close")] end) in
  let r := match n with
           | Some k =>
               '(r, out, w) ← lws_add_http_header_content_length room w k out;
               if negb (r =? 0) then Ok (1, out, w) else Ok (0, out, w)
           | None =>
               '(r, out) ← lws_add_http_header_by_token room WSI_TOKEN_CONNECTION (bs "close") out;
               if negb (r =? 0) then Ok (1, out, w) else Ok (0, out, set_conn_type HTTP_CONNECTION_CLOSE w)
           end in
  if (length out + length l + 1 <? room)%nat
  then r = Ok (0, out ++ l, match n with Some k => set_tx_content k w
                            | None => set_conn_type HTTP_CONNECTION_CLOSE w end)
  else ∃ out', r = Ok (1, out', w) ∧ (length out' ≤ room)%nat.
Proof.
  intros Ho Hn. cbv zeta. destruct n as [k|]; rewrite header_text_one.
  - unfold lws_add_http_header_content_length. pose proof (fmt_llu_short k Hn).
    rewrite check_true by (apply Nat.ltb_lt; lia). cbn [mbind res_bind].
    pose proof (adds_by_token WSI_TOKEN_HTTP_CONTENT_LENGTH (bs "content-length:") (fmt_llu k) out eq_refl Ho) as H1.
    unfold adds in H1. destruct (_ <? room)%nat; [by rewrite H1|].
    destruct H1 as (out' & -> & Hl). by exists out'.
  - pose proof (adds_by_token WSI_TOKEN_CONNECTION (bs "connection:") (bs "close") out eq_refl Ho) as H1.
    unfold adds in H1. destruct (_ <? room)%nat; [by rewrite H1|].
    destruct H1 as (out' & -> & Hl). by exists out'.
Qed.
End lemmas.

(** ** Properties *)

(** The header block of a response: [lws_add_http_common_headers] adds
    exactly the status line, the vhost's and the server's headers, the content
    type and the content length (or "connection: close"), each as a line of its
    own, and records the length, when the text fits in the caller's buffer with
    a byte to spare; otherwise it fails; in no case does it write past the end
    of the buffer or of its own. *)
Theorem common_headers_text (room : nat) (w : hwsi) (code : Z) (content_type : list Z)
    (content_len : option Z) (out : list Z)
    (Hout : (length out ≤ room)%nat)
    (Hlen : if content_len is Some n then 0 <= n < 10 ^ 20 else True) :
  let text := header_text (common_lines w code content_type content_len) in
  if (length out + length text + 1 <? room)%nat
  then lws_add_http_common_headers room w code content_type content_len out
       = Ok (0, out ++ text, match content_len with
                             | Some n => set_tx_content n w
                             | None => set_conn_type HTTP_CONNECTION_CLOSE w end)
  else ∃ out', lws_add_http_common_headers room w code content_type content_len out = Ok (1, out', w)
               ∧ (length out' ≤ room)%nat.
Proof.
  cbv zeta. unfold common_lines, lws_add_http_common_headers.
  set (l3 := match content_len with Some _ => _ | None => _ end).
  rewrite !header_text_app, header_text_one. set (l1 := header_text (status_lines w code)).
  pose proof (adds_status room w code out Hout) as H1. fold l1 in H1.
  set (l2 := line (Some (bs "content-type:"), content_type)). unfold adds in H1.
  assert (2 ≤ length l2)%nat as Hl2 by (subst l2; unfold line; rewrite length_app; cbn; lia).
  destruct (Nat.ltb_spec (length out + length l1 + 2) room).
  2: { destruct H1 as (out' & -> & Hl). rewrite (proj2 (Nat.ltb_ge _ _)) by (rewrite !length_app; lia). by exists out'. }
  rewrite H1. cbn [mbind res_bind Z.eqb negb].
  pose proof (adds_by_token room WSI_TOKEN_HTTP_CONTENT_TYPE (bs "content-type:") content_type (out ++ l1) eq_refl) as H2.
  unfold adds in H2. rewrite !length_app in H2. specialize (H2 ltac:(lia)). fold l2 in H2.
  destruct (Nat.ltb_spec (length out + length l1 + length l2 + 1) room).
  2: { destruct H2 as (out' & -> & Hl). rewrite (proj2 (Nat.ltb_ge _ _)) by (rewrite !length_app; lia). by exists out'. }
  rewrite H2. cbn [mbind res_bind Z.eqb negb].
  pose proof (common_tail room w content_len ((out ++ l1) ++ l2)) as H3.
  rewrite !length_app in H3. specialize (H3 ltac:(lia) Hlen). cbv zeta in H3.
  replace (length out + length (l1 ++ l2 ++ header_text l3) + 1)%nat
    with (length out + length l1 + length l2 + length (header_text l3) + 1)%nat by (rewrite !length_app; lia).
  replace (out ++ l1 ++ l2 ++ header_text l3) with (((out ++ l1) ++ l2) ++ header_text l3) by (by rewrite <- !app_assoc).
  exact H3.
Qed.

(** The response of a connection of HTTP/1.1. *)
Definition wsi11 : hwsi := Hwsi 1 [(bs "x-vhost:", bs "one")] false (Some (bs "lwsws")) false 0 0 HTTP_CONNECTION_KEEP_ALIVE.

Lemma common_headers_text_witness :
  lws_add_http_common_headers 1023 wsi11 404 (bs "text/html") (Some 120) []
  = Ok (0, bs "HTTP/1.1 404 Not Found" ++ CRLF ++ bs "x-vhost: one" ++ CRLF ++ bs "server: lwsws" ++ CRLF
           ++ bs "content-type: text/html" ++ CRLF ++ bs "content-length: 120" ++ CRLF, set_tx_content 120 wsi11).
Proof.
  refine (common_headers_text 1023 wsi11 404 (bs "text/html") (Some 120) [] _ _).
  - cbn. lia.
  - vm_compute. split; [discriminate|reflexivity].
Defined.
