(* ===== verification/HttpPlugin.v ===== *)
(** * The HTTP protocol handlers

    Models the handlers of the two HTTP plugins, [callback_lws_packet]
    (plugins/plugin_lws_packet/protocol_lws_packet.c) and
    [callback_post_request] (plugins/plugin_lws_http/protocol_post_request.c),
    with their [CreateHeaders].  The two differ in the JSON text they answer
    with.  What the library lets them do with their connection is the interface
    [HttpSession]; the lemmas are about any connection that keeps its laws. *)

From stdpp Require Import base numbers list strings.
From Stdlib Require Import ZArith Lia Ascii.
From S2P Require Import Prelude CommPlugin HttpHead.

(** ** State *)

(** The session: [result] is what its array holds after LWS_PRE. *)
Record pss := Pss { result : list Z; result_len : Z; justHeader : Z }.

(** A session as it is allocated, zeroed. *)
Definition pss0 : pss := Pss [] 0 0.

Definition set_justHeader (v : Z) (s : pss) : pss := Pss (result s) (result_len s) v.

Inductive http_reason :=
  | LWS_CALLBACK_FILTER_HTTP_CONNECTION (uri : list Z)
  | LWS_CALLBACK_HTTP_BIND_PROTOCOL
  | LWS_CALLBACK_CHECK_ACCESS_RIGHTS
  | LWS_CALLBACK_HTTP_PMO
  | LWS_CALLBACK_HTTP (uri : list Z)
  | LWS_CALLBACK_HTTP_BODY (data : list Z)
  | LWS_CALLBACK_HTTP_BODY_COMPLETION
  | LWS_CALLBACK_HTTP_WRITEABLE
  | LWS_CALLBACK_EVENT_WAIT_CANCELLED
  | LWS_CALLBACK_CLOSED_HTTP
  | LWS_CALLBACK_HTTP_DROP_PROTOCOL
  | LWS_CALLBACK_OTHER.

Definition LWS_RECOMMENDED_MIN_HEADER_SPACE : nat := 2048.

(** What is written: a header block or a piece of a body. *)
Inductive http_write := WriteHeaders | WriteBody.

(** What a handler can do with its connection. *)
Class HttpSession (St : Type) := {
  s_hwsi : St → hwsi;
  s_set_hwsi : hwsi → St → St;
  s_user : St → pss;
  s_set_user : pss → St → St;
  s_write : list Z → http_write → St → res (Z * St);
  s_on_writable : St → St;
  s_on_writable_all : St → St;
  s_transaction_completed : St → res (Z * St);
}.

(** ** The code *)

Section handler.
Context {St : Type} {E : HttpSession St}.

(** [sprintf(p, jsonText)] into the session's array, for a text without [%];
    then the header in a block of LWS_PRE + 1024 bytes, whose last byte is left
    out.  Whether it was written is not told to the caller. *)
Definition CreateHeaders (s : St) (jsonText : list Z) : res St :=
  _ ← check (length jsonText <? LWS_RECOMMENDED_MIN_HEADER_SPACE)%nat OutOfBounds;
  let s := s_set_user (Pss jsonText (Z.of_nat (length jsonText)) (justHeader (s_user s))) s in
  let room := 1023%nat in
  '(r, out) ← lws_add_http_header_status room (s_hwsi s) 200 [];
  if negb (r =? 0) then Ok s
  else
    '(r, out) ← lws_add_http_header_by_token room WSI_TOKEN_HTTP_CONTENT_TYPE (bs "text/html") out;
    if negb (r =? 0) then Ok s
    else
      '(r, out, w) ← lws_add_http_header_content_length room (s_hwsi s) (result_len (s_user s)) out;
      let s := s_set_hwsi w s in
      if negb (r =? 0) then Ok s
      else
        '(r, out) ← lws_finalize_http_header room out;
        if negb (r =? 0) then Ok s
        else '(_, s) ← s_write out WriteHeaders s; Ok s.

(** Case LWS_CALLBACK_HTTP_WRITEABLE. *)
Definition on_http_writeable (jsonText : list Z) (s : St) : res (Z * St) :=
  if justHeader (s_user s) =? 0 then
    s ← CreateHeaders s jsonText;
    Ok (0, s_on_writable (s_set_user (set_justHeader 1 (s_user s)) s))
  else
    '(n, s) ← s_write (take (Z.to_nat (result_len (s_user s))) (result (s_user s))) WriteBody s;
    if n <? 0 then Ok (1, s)
    else
      '(r, s) ← s_transaction_completed s;
      Ok (if negb (r =? 0) then -1 else 0, s).

Definition http_callback (jsonText : list Z) (s : St) (reason : http_reason) : res (Z * St) :=
  match reason with
  | LWS_CALLBACK_HTTP_BODY _ => Ok (0, s_set_user (set_justHeader 0 (s_user s)) s)
  | LWS_CALLBACK_HTTP_BODY_COMPLETION => Ok (0, s_on_writable s)
  | LWS_CALLBACK_EVENT_WAIT_CANCELLED => Ok (0, s_on_writable_all s)
  | LWS_CALLBACK_HTTP_WRITEABLE => on_http_writeable jsonText s
  | LWS_CALLBACK_HTTP _ | LWS_CALLBACK_CLOSED_HTTP | LWS_CALLBACK_HTTP_DROP_PROTOCOL => Ok (0, s)
  | LWS_CALLBACK_FILTER_HTTP_CONNECTION _ | LWS_CALLBACK_HTTP_BIND_PROTOCOL | LWS_CALLBACK_CHECK_ACCESS_RIGHTS
  | LWS_CALLBACK_HTTP_PMO | LWS_CALLBACK_OTHER => Ok (0, s)
  end.

(** The texts, with their quotation marks. *)
Definition packet_json : list Z := bs "{ " ++ [34] ++ bs "id" ++ [34] ++ bs ":10 }".
Definition post_json : list Z := bs "{ " ++ [34] ++ bs "id" ++ [34] ++ bs ":1 }".

Definition callback_lws_packet := http_callback packet_json.
Definition callback_post_request := http_callback post_json.
End handler.

(** ** Properties *)

(** The header of the answer. *)
Definition answer_lines (w : hwsi) (json : list Z) :=
  common_lines w 200 (bs "text/html") (Some (Z.of_nat (length json))).

Definition answer_header (w : hwsi) (json : list Z) : list Z :=
  header_text (answer_lines w json) ++ CRLF.

(** What a handler may rely on. *)
Class HttpSessionLaws (St : Type) {E : HttpSession St} : Prop := {
  user_set_user u s : s_user (s_set_user u s) = u;
  hwsi_set_user u s : s_hwsi (s_set_user u s) = s_hwsi s;
  user_set_hwsi w s : s_user (s_set_hwsi w s) = s_user s;
  user_on_writable s : s_user (s_on_writable s) = s_user s;
}.

Section answer.
Context {St : Type} `{L : HttpSessionLaws St}.

(** The header is one write. *)
Lemma CreateHeaders_text s json :
  (length json < LWS_RECOMMENDED_MIN_HEADER_SPACE)%nat →
  (length (answer_header (s_hwsi s) json) < 1023)%nat →
  CreateHeaders s json
  = ('(_, s) ← s_write (answer_header (s_hwsi s) json) WriteHeaders
       (s_set_hwsi (set_tx_content (Z.of_nat (length json)) (s_hwsi s))
          (s_set_user (Pss json (Z.of_nat (length json)) (justHeader (s_user s))) s)); Ok s).
Proof.
  intros Hj Hfit. unfold CreateHeaders. rewrite check_true by (by apply Nat.ltb_lt). cbn [mbind res_bind].
  cbv zeta. rewrite hwsi_set_user, user_set_user. cbn [result_len]. set (w := s_hwsi s) in *.
  unfold answer_header, answer_lines, common_lines in *.
  set (l3 := [(Some (bs "content-length:"), _)]) in *. rewrite !header_text_app in Hfit |- *.
  rewrite (header_text_one (_, bs "text/html")) in Hfit |- *.
  set (l1 := header_text (status_lines w 200)) in *. set (l2 := line (Some (bs "content-type:"), _)) in *.
  rewrite !length_app in Hfit. cbn [length CRLF] in Hfit.
  assert (2 ≤ length l2)%nat by (subst l2; unfold line; rewrite length_app; cbn; lia).
  pose proof (adds_status 1023 w 200 [] ltac:(cbn; lia)) as H1. unfold adds in H1. fold l1 in H1.
  rewrite (proj2 (Nat.ltb_lt _ _)) in H1 by (cbn [length]; lia). rewrite H1. cbn [mbind res_bind Z.eqb negb app].
  pose proof (adds_by_token 1023 WSI_TOKEN_HTTP_CONTENT_TYPE (bs "content-type:") (bs "text/html") l1 eq_refl ltac:(lia)) as H2.
  unfold adds in H2. fold l2 in H2. rewrite (proj2 (Nat.ltb_lt _ _)) in H2 by lia. rewrite H2. cbn [mbind res_bind Z.eqb negb].
  pose proof (common_tail 1023 w (Some (Z.of_nat (length json))) (l1 ++ l2)) as H3. rewrite length_app in H3.
  specialize (H3 ltac:(lia) ltac:(unfold LWS_RECOMMENDED_MIN_HEADER_SPACE in Hj; lia)). cbv zeta in H3. fold l3 in H3.
  rewrite (proj2 (Nat.ltb_lt _ _)) in H3 by lia.
  destruct (lws_add_http_header_content_length _ _ _ _) as [[[r out] w']|]; [|done].
  cbn [mbind res_bind] in H3. destruct (negb (r =? 0)) eqn:Er; [discriminate|]. injection H3 as -> ->.
  cbn [mbind res_bind]. rewrite Er.
  pose proof (adds_finalize 1023 ((l1 ++ l2) ++ header_text l3)) as H4. unfold adds in H4. rewrite !length_app in H4.
  specialize (H4 ltac:(lia)). rewrite (proj2 (Nat.ltb_lt _ _)) in H4 by (cbn [length CRLF]; lia).
  rewrite H4. cbn [mbind res_bind Z.eqb negb]. by rewrite <- !app_assoc.
Qed.

(** The first writeable callback sends the header and asks for another. *)
Lemma writeable_header s json n s' :
  (length json < LWS_RECOMMENDED_MIN_HEADER_SPACE)%nat → (length (answer_header (s_hwsi s) json) < 1023)%nat →
  justHeader (s_user s) = 0 →
  s_write (answer_header (s_hwsi s) json) WriteHeaders
    (s_set_hwsi (set_tx_content (Z.of_nat (length json)) (s_hwsi s)) (s_set_user (Pss json (Z.of_nat (length json)) 0) s)) = Ok (n, s') →
  s_user s' = Pss json (Z.of_nat (length json)) 0 →
  http_callback json s LWS_CALLBACK_HTTP_WRITEABLE
  = Ok (0, s_on_writable (s_set_user (Pss json (Z.of_nat (length json)) 1) s')).
Proof.
  intros Hj Hfit Hu Hw Hu'. cbn [http_callback]. unfold on_http_writeable. rewrite Hu. cbn [Z.eqb].
  rewrite CreateHeaders_text, Hu by done. rewrite Hw. cbn [mbind res_bind].
  by rewrite Hu'.
Qed.

(** The second one sends the text and completes the transaction. *)
Lemma writeable_body s json n s' :
  s_user s = Pss json (Z.of_nat (length json)) 1 → s_write json WriteBody s = Ok (n, s') → 0 <= n →
  http_callback json s LWS_CALLBACK_HTTP_WRITEABLE
  = ('(r, s) ← s_transaction_completed s'; Ok (if negb (r =? 0) then -1 else 0, s)).
Proof.
  intros Hu Hw Hn. cbn [http_callback]. unfold on_http_writeable. rewrite Hu. cbn [justHeader result result_len Z.eqb].
  rewrite Nat2Z.id, firstn_all, Hw. cbn [mbind res_bind]. by rewrite (proj2 (Z.ltb_ge n 0)).
Qed.
End answer.
