(* ===== verification/Tokenize.v ===== *)
(** * The tokenizer

    Models lws_tokenize of lib/core/libwebsockets.c, which the server uses to
    take header values apart, with lws_tokenize_init and lws_tokenize_cstr.
    The struct points into a buffer: [tbuf] is that buffer, and [start] and
    [token] are offsets; a read past it is a fault.  Characters are signed, as
    on the machines it is built for. *)

From stdpp Require Import base numbers list strings.
From Stdlib Require Import ZArith Lia Ascii.
From S2P Require Import Prelude Utf8.

(** ** State *)

Inductive lws_tokenize_elem :=
  | LWS_TOKZE_ERR_BROKEN_UTF8 | LWS_TOKZE_ERR_UNTERM_STRING | LWS_TOKZE_ERR_MALFORMED_FLOAT
  | LWS_TOKZE_ERR_NUM_ON_LHS | LWS_TOKZE_ERR_COMMA_LIST
  | LWS_TOKZE_ENDED
  | LWS_TOKZE_DELIMITER | LWS_TOKZE_TOKEN | LWS_TOKZE_INTEGER | LWS_TOKZE_FLOAT
  | LWS_TOKZE_TOKEN_NAME_EQUALS | LWS_TOKZE_TOKEN_NAME_COLON | LWS_TOKZE_QUOTED_STRING.

#[global] Instance tokenize_elem_eq_dec : EqDecision lws_tokenize_elem.
Proof. solve_decision. Defined.

(** [e > 0]. *)
Definition elem_positive (e : lws_tokenize_elem) : bool :=
  match e with
  | LWS_TOKZE_ERR_BROKEN_UTF8 | LWS_TOKZE_ERR_UNTERM_STRING | LWS_TOKZE_ERR_MALFORMED_FLOAT
  | LWS_TOKZE_ERR_NUM_ON_LHS | LWS_TOKZE_ERR_COMMA_LIST | LWS_TOKZE_ENDED => false
  | _ => true
  end.

Inductive delimiter_tracking :=
  | LWSTZ_DT_NEED_FIRST_CONTENT | LWSTZ_DT_NEED_DELIM | LWSTZ_DT_NEED_NEXT_CONTENT.

#[global] Instance delimiter_tracking_eq_dec : EqDecision delimiter_tracking.
Proof. solve_decision. Defined.

Inductive lws_tokenize_state :=
  | LWS_TOKZS_LEADING_WHITESPACE | LWS_TOKZS_QUOTED_STRING | LWS_TOKZS_TOKEN | LWS_TOKZS_TOKEN_POST_TERMINAL.

#[global] Instance tokenize_state_eq_dec : EqDecision lws_tokenize_state.
Proof. solve_decision. Defined.

Record tokenizer := Tokenizer {
  tbuf : list Z;
  tstart : nat;
  ttoken : option nat;
  tlen : nat;
  token_len : nat;
  tflags : Z;
  tdelim : delimiter_tracking;
}.

Definition LWS_TOKENIZE_F_MINUS_NONTERM : Z := 1.
Definition LWS_TOKENIZE_F_AGG_COLON : Z := 2.
Definition LWS_TOKENIZE_F_COMMA_SEP_LIST : Z := 4.
Definition LWS_TOKENIZE_F_RFC7230_DELIMS : Z := 8.
Definition LWS_TOKENIZE_F_DOT_NONTERM : Z := 16.
Definition LWS_TOKENIZE_F_NO_FLOATS : Z := 32.

Definition flag (ts : tokenizer) (f : Z) : bool := negb (Z.land (tflags ts) f =? 0).

(** ** The code *)

(** [c = *ts->start++; ts->len--], [n] being what is left. *)
Definition advance (n : nat) (ts : tokenizer) : tokenizer :=
  Tokenizer (tbuf ts) (S (tstart ts)) (ttoken ts) n (token_len ts) (tflags ts) (tdelim ts).

(** [ts->start--; ts->len++] *)
Definition unread (ts : tokenizer) : tokenizer :=
  Tokenizer (tbuf ts) (pred (tstart ts)) (ttoken ts) (S (tlen ts)) (token_len ts) (tflags ts) (tdelim ts).

Definition set_token (t : option nat) (l : nat) (ts : tokenizer) : tokenizer :=
  Tokenizer (tbuf ts) (tstart ts) t (tlen ts) l (tflags ts) (tdelim ts).

Definition set_tdelim (d : delimiter_tracking) (ts : tokenizer) : tokenizer :=
  Tokenizer (tbuf ts) (tstart ts) (ttoken ts) (tlen ts) (token_len ts) (tflags ts) d.

Definition longer (ts : tokenizer) : tokenizer := set_token (ttoken ts) (S (token_len ts)) ts.

Definition rfc7230_delims : list Z := bs "(),/:;<=>?@[\]{}".

Definition is_white (c : Z) : bool := existsb (Z.eqb c) [32; 9; 10; 13; 12].

Definition in_range (a b c : Z) : bool := (a <=? c) && (c <=? b).

(** Whether the (signed) character [c], not part of a longer one, delimits. *)
Definition is_delimiter (ts : tokenizer) (c : Z) : bool :=
  let s_minus := if flag ts LWS_TOKENIZE_F_MINUS_NONTERM then 45 else 0 in
  let d_minus := if flag ts LWS_TOKENIZE_F_MINUS_NONTERM then 0 else 45 in
  let s_dot := if flag ts LWS_TOKENIZE_F_DOT_NONTERM then 46 else 0 in
  let d_dot := if flag ts LWS_TOKENIZE_F_DOT_NONTERM then 0 else 46 in
  (flag ts LWS_TOKENIZE_F_RFC7230_DELIMS && existsb (Z.eqb c) rfc7230_delims && (32 <? c))
  || (negb (flag ts LWS_TOKENIZE_F_RFC7230_DELIMS)
      && negb (in_range 48 57 c) && negb (in_range 65 90 c) && negb (in_range 97 122 c)
      && negb (c =? 95) && negb (c =? s_minus) && negb (c =? s_dot))
  || (c =? d_minus) || (c =? d_dot).

(** The label token_or_numeric. *)
Definition token_or_numeric (num flo : Z) : lws_tokenize_elem :=
  if negb (num =? 1) then LWS_TOKZE_TOKEN
  else if negb (flo =? 0) then LWS_TOKZE_FLOAT else LWS_TOKZE_INTEGER.

Definition next_num (num c : Z) : Z :=
  if negb (in_range 48 57 c) then 0 else if num <? 0 then 1 else num.

(** The content has run out. *)
Definition ran_out (ts : tokenizer) (state : lws_tokenize_state) (num flo utf8 : Z) : lws_tokenize_elem :=
  if negb (utf8 =? 0) then LWS_TOKZE_ERR_BROKEN_UTF8
  else match state with
       | LWS_TOKZS_QUOTED_STRING => LWS_TOKZE_ERR_UNTERM_STRING
       | LWS_TOKZS_LEADING_WHITESPACE =>
           if flag ts LWS_TOKENIZE_F_COMMA_SEP_LIST && bool_decide (tdelim ts = LWSTZ_DT_NEED_NEXT_CONTENT)
           then LWS_TOKZE_ERR_COMMA_LIST else LWS_TOKZE_ENDED
       | _ => token_or_numeric num flo
       end.

(** The loop; [n] is [ts->len]. *)
Fixpoint tokenize_loop (n : nat) (ts : tokenizer) (state : lws_tokenize_state) (num flo utf8 : Z) :
    res (lws_tokenize_elem * tokenizer) :=
  match n with
  | O => Ok (ran_out ts state num flo utf8, ts)
  | S n =>
      match tbuf ts !! tstart ts with
      | None => Fault OutOfBounds
      | Some b =>
          let ts := advance n ts in
          let c := s8 b in
          let utf8 := lws_check_byte_utf8 (u8 utf8) b in
          let comma := flag ts LWS_TOKENIZE_F_COMMA_SEP_LIST in
          if utf8 <? 0 then Ok (LWS_TOKZE_ERR_BROKEN_UTF8, ts)
          else if c =? 0 then Ok (ran_out ts state num flo utf8, ts)
          else if is_white c then
            match state with
            | LWS_TOKZS_LEADING_WHITESPACE | LWS_TOKZS_TOKEN_POST_TERMINAL =>
                tokenize_loop n ts state num flo utf8
            | LWS_TOKZS_QUOTED_STRING => tokenize_loop n (longer ts) state num flo utf8
            | LWS_TOKZS_TOKEN => tokenize_loop n ts LWS_TOKZS_TOKEN_POST_TERMINAL num flo utf8
            end
          else if c =? 34 then
            match state with
            | LWS_TOKZS_QUOTED_STRING => Ok (LWS_TOKZE_QUOTED_STRING, ts)
            | _ =>
                if comma && bool_decide (tdelim ts = LWSTZ_DT_NEED_DELIM) then Ok (LWS_TOKZE_ERR_COMMA_LIST, ts)
                else
                  let ts := if comma then set_tdelim LWSTZ_DT_NEED_DELIM ts else ts in
                  tokenize_loop n (set_token (Some (tstart ts)) 0 ts) LWS_TOKZS_QUOTED_STRING num flo utf8
            end
          else if (c =? 61) && (bool_decide (state = LWS_TOKZS_TOKEN_POST_TERMINAL) || bool_decide (state = LWS_TOKZS_TOKEN))
          then Ok (if num =? 1 then LWS_TOKZE_ERR_NUM_ON_LHS else LWS_TOKZE_TOKEN_NAME_EQUALS, ts)
          else if flag ts LWS_TOKENIZE_F_AGG_COLON && (c =? 58)
                  && (bool_decide (state = LWS_TOKZS_TOKEN_POST_TERMINAL) || bool_decide (state = LWS_TOKZS_TOKEN))
          then Ok (LWS_TOKZE_TOKEN_NAME_COLON, ts)
          else if (c =? 46) && negb (flag ts LWS_TOKENIZE_F_NO_FLOATS) && bool_decide (state = LWS_TOKZS_TOKEN) && (num =? 1)
          then
            if negb (flo =? 0) then Ok (LWS_TOKZE_ERR_MALFORMED_FLOAT, ts)
            else tokenize_loop n (longer ts) state num 1 utf8
          else if (utf8 =? 0) && is_delimiter ts c then
            match state with
            | LWS_TOKZS_LEADING_WHITESPACE =>
                if comma && (negb (c =? 44) || negb (bool_decide (tdelim ts = LWSTZ_DT_NEED_DELIM)))
                then Ok (LWS_TOKZE_ERR_COMMA_LIST, ts)
                else
                  let ts := if comma then set_tdelim LWSTZ_DT_NEED_NEXT_CONTENT ts else ts in
                  Ok (LWS_TOKZE_DELIMITER, set_token (Some (pred (tstart ts))) 1 ts)
            | LWS_TOKZS_QUOTED_STRING => tokenize_loop n (longer ts) state num flo utf8
            | _ => Ok (token_or_numeric num flo, unread ts)
            end
          else
            match state with
            | LWS_TOKZS_LEADING_WHITESPACE =>
                if comma && bool_decide (tdelim ts = LWSTZ_DT_NEED_DELIM) then Ok (LWS_TOKZE_ERR_COMMA_LIST, ts)
                else
                  let ts := if comma then set_tdelim LWSTZ_DT_NEED_DELIM ts else ts in
                  tokenize_loop n (set_token (Some (pred (tstart ts))) 1 ts) LWS_TOKZS_TOKEN (next_num num c) flo utf8
            | LWS_TOKZS_QUOTED_STRING | LWS_TOKZS_TOKEN =>
                tokenize_loop n (longer ts) state (next_num num c) flo utf8
            | LWS_TOKZS_TOKEN_POST_TERMINAL => Ok (token_or_numeric num flo, unread ts)
            end
      end
  end.

Definition lws_tokenize (ts : tokenizer) : res (lws_tokenize_elem * tokenizer) :=
  tokenize_loop (tlen ts) (set_token None 0 ts) LWS_TOKZS_LEADING_WHITESPACE (-1) 0 0.

(** The string [str] points at afterwards, without its NUL; 1 when it is too
    long. *)
Definition lws_tokenize_cstr (ts : tokenizer) (max : nat) : option (list Z) :=
  if (max <=? token_len ts + 1)%nat then None
  else match ttoken ts with
       | Some t => Some (take (token_len ts) (drop t (tbuf ts)))
       | None => Some []
       end.

(** The callers set [len] right after. *)
Definition lws_tokenize_init (start : list Z) (flags : Z) (len : nat) : tokenizer :=
  Tokenizer start 0 None len 0 flags LWSTZ_DT_NEED_FIRST_CONTENT.

(** ** Lemmas: bounds and progress *)

(** The rest of the text is within the buffer, and so is the token. *)
Definition wf_tok (ts : tokenizer) : Prop :=
  (tstart ts + tlen ts ≤ length (tbuf ts))%nat
  ∧ match ttoken ts with Some t => (t + token_len ts ≤ tstart ts)%nat | None => token_len ts = 0%nat end.

(** In the loop: a token is open exactly in the states of one. *)
Definition wf_loop (ts : tokenizer) (state : lws_tokenize_state) : Prop :=
  wf_tok ts
  ∧ match state with
    | LWS_TOKZS_LEADING_WHITESPACE => True
    | _ => ∃ t, ttoken ts = Some t ∧ (0 < tstart ts)%nat
                ∧ (state = LWS_TOKZS_QUOTED_STRING ∨ (0 < token_len ts)%nat)
    end.

(** A call from [ts] to [ts'] that used at least [k] characters. *)
Definition used (k : nat) (ts ts' : tokenizer) : Prop :=
  tbuf ts' = tbuf ts ∧ tflags ts' = tflags ts ∧ (tlen ts' + k ≤ tlen ts)%nat
  ∧ (tstart ts' + tlen ts' = tstart ts + tlen ts)%nat.

(** Only the token and the delimiter state differ from [ts] one character on. *)
Definition after_char (n : nat) (ts ts1 : tokenizer) : Prop :=
  tbuf ts1 = tbuf ts ∧ tflags ts1 = tflags ts ∧ tstart ts1 = S (tstart ts) ∧ tlen ts1 = n.

Lemma used_after n ts ts1 ts' : tlen ts = S n → after_char n ts ts1 → used 0 ts1 ts' → used 1 ts ts'.
Proof. unfold used, after_char. intros E (-> & -> & -> & ->) (-> & -> & ? & ?). split_and!; try done; lia. Qed.

Lemma used_refl ts : used 0 ts ts.
Proof. unfold used. split_and!; try done; lia. Qed.

Lemma used_le k ts ts' : used k ts ts' → used 0 ts ts'.
Proof. unfold used. intros (-> & -> & ? & ?). split_and!; try done; lia. Qed.

(** What the loop ends with, from [ts]. *)
Definition loop_end (ts : tokenizer) (state : lws_tokenize_state) (r : res (lws_tokenize_elem * tokenizer)) : Prop :=
  ∃ e ts', r = Ok (e, ts') ∧ wf_tok ts' ∧ used 0 ts ts'
    ∧ (elem_positive e = true → state = LWS_TOKZS_LEADING_WHITESPACE → used 1 ts ts').

Lemma end_now n ts ts1 state e :
  tlen ts = S n → after_char n ts ts1 → wf_tok ts1 → loop_end ts state (Ok (e, ts1)).
Proof.
  intros E Ha Hw. assert (used 1 ts ts1) as Hu by (eapply used_after; [done|done|apply used_refl]).
  exists e, ts1. split_and!; try done. by eapply used_le.
Qed.

Lemma end_unread n ts ts1 state e :
  tlen ts = S n → after_char n ts ts1 → wf_loop ts state → ttoken ts1 = ttoken ts → token_len ts1 = token_len ts →
  state ≠ LWS_TOKZS_LEADING_WHITESPACE → loop_end ts state (Ok (e, unread ts1)).
Proof.
  intros E (Eb & Ef & Es & El) [[H1 H2] H3] Et Etl Hne. exists e, (unread ts1). split; [done|].
  unfold wf_tok, used, unread. cbn. rewrite Eb, Ef, Es, El, Et, Etl. cbn. split_and!; try done; lia.
Qed.

Lemma end_later n ts ts1 state state1 r :
  tlen ts = S n → after_char n ts ts1 → loop_end ts1 state1 r → loop_end ts state r.
Proof.
  intros E Ha (e & ts' & -> & Hw & Hu & _). pose proof (used_after _ _ _ _ E Ha Hu) as Hu1.
  exists e, ts'. split_and!; try done. by eapply used_le.
Qed.

Lemma ran_out_end ts state num flo utf8 :
  elem_positive (ran_out ts state num flo utf8) = true → state ≠ LWS_TOKZS_LEADING_WHITESPACE.
Proof. unfold ran_out. intros H ->. by repeat case_match. Qed.

Lemma loop_ok n ts state num flo utf8 :
  wf_loop ts state → tlen ts = n → loop_end ts state (tokenize_loop n ts state num flo utf8).
Proof.
  revert ts state num flo utf8. induction n as [|n IH]; intros ts state num flo utf8 Hwf Hn.
  { cbn. eexists _, ts. split; [reflexivity|]. split; [apply Hwf|]. split; [apply used_refl|].
    intros Hp ->. by apply ran_out_end in Hp. }
  pose proof Hwf as [[Hb Ht] Hst]. cbn [tokenize_loop].
  destruct (tbuf ts !! tstart ts) as [b|] eqn:Eb; [|apply lookup_ge_None in Eb; lia].
  cbv zeta. set (ts1 := advance n ts).
  assert (after_char n ts ts1) as Ha by done.
  assert (wf_tok ts1) as Hw1.
  { split; cbn; [lia|]. destruct (ttoken ts); [lia|done]. }
  assert (wf_loop ts1 state) as Hl1.
  { split; [done|]. destruct state; try done; destruct Hst as (t & Et & Hs & Hl); exists t; cbn; split_and!; done || lia. }
  assert (state ≠ LWS_TOKZS_LEADING_WHITESPACE → wf_loop (longer ts1) state) as Hl2.
  { intros Hne. destruct state; [done|..]; destruct Hst as (t & Et & Hs & Hl); rewrite Et in Ht;
      (split; [split; cbn; [lia|rewrite Et; lia]|]); exists t; cbn; split_and!; try done; lia || (right; lia). }
  assert (∀ (comma : bool) d l, (l ≤ 1)%nat → let ts2 := if comma then set_tdelim d ts1 else ts1 in
    after_char n ts (set_token (Some (pred (tstart ts2))) l ts2) ∧ wf_tok (set_token (Some (pred (tstart ts2))) l ts2)
    ∧ after_char n ts (set_token (Some (tstart ts2)) 0 ts2) ∧ wf_tok (set_token (Some (tstart ts2)) 0 ts2)) as Hset.
  { intros comma d l Hl. destruct comma; cbv zeta; split_and!; try done; split; cbn; lia. }
  set (comma := flag ts1 LWS_TOKENIZE_F_COMMA_SEP_LIST).
  assert (∀ e, loop_end ts state (Ok (e, ts1))) as Hnow by (intros e; by eapply end_now).
  destruct (_ <? 0); [done|]. destruct (s8 b =? 0); [done|].
  destruct (is_white (s8 b)).
  { destruct state; (eapply end_later; [done| |apply IH]); try done; try (by apply Hl2).
    all: destruct Hl1 as [? (t & ? & ? & [?|?])]; [done|split; [done|]; by exists t; auto]. }
  destruct (s8 b =? 34).
  { assert (loop_end ts state (if comma && bool_decide (tdelim ts1 = LWSTZ_DT_NEED_DELIM) then Ok (LWS_TOKZE_ERR_COMMA_LIST, ts1)
      else let ts0 := if comma then set_tdelim LWSTZ_DT_NEED_DELIM ts1 else ts1 in
           tokenize_loop n (set_token (Some (tstart ts0)) 0 ts0) LWS_TOKZS_QUOTED_STRING num flo (lws_check_byte_utf8 (u8 utf8) b)))
      as Hq; [|by destruct state].
    destruct (_ && _); [done|]. destruct (Hset comma LWSTZ_DT_NEED_DELIM 1%nat ltac:(lia)) as (_ & _ & A & W). cbv zeta.
    eapply end_later; [done|exact A|]. apply IH; [|by destruct comma]. split; [exact W|].
    eexists. split; [reflexivity|]. destruct comma; cbn; split_and!; auto; lia. }
  destruct (_ && _); [done|]. destruct (_ && _); [done|].
  destruct ((s8 b =? 46) && negb (flag ts1 LWS_TOKENIZE_F_NO_FLOATS) && bool_decide (state = LWS_TOKZS_TOKEN) && (num =? 1)) eqn:Edot.
  { destruct (negb (flo =? 0)); [done|]. eapply end_later; [done| |apply IH; [apply Hl2|done]]; [done|].
    apply andb_true_iff in Edot as [Edot _]. apply andb_true_iff in Edot as [_ Edot]. apply bool_decide_eq_true in Edot. by subst. }
  destruct (_ && is_delimiter ts1 (s8 b)).
  { destruct state; [|eapply end_later; [done| |apply IH; [by apply Hl2|done]]; done|by eapply end_unread|by eapply end_unread].
    destruct (comma && _); [done|]. destruct (Hset comma LWSTZ_DT_NEED_NEXT_CONTENT 1%nat ltac:(lia)) as (A & W & _).
    by eapply end_now. }
  destruct state; [|eapply end_later; [done| |apply IH; [by apply Hl2|done]]; done
                   |eapply end_later; [done| |apply IH; [by apply Hl2|done]]; done|by eapply end_unread].
  destruct (comma && _); [done|]. destruct (Hset comma LWSTZ_DT_NEED_DELIM 1%nat ltac:(lia)) as (A & W & _). cbv zeta.
  eapply end_later; [done|exact A|]. apply IH; [|by destruct comma]. split; [exact W|].
  eexists. split; [reflexivity|]. destruct comma; cbn; split_and!; auto; lia.
Qed.

(** ** Lemmas: comma separated lists *)

(** The characters of a token: ASCII, and nothing the loop treats specially. *)
Definition word_char (ts : tokenizer) (c : Z) : bool :=
  (0 <? c) && (c <? 128) && negb (is_white c) && negb (c =? 34) && negb (c =? 61) && negb (c =? 58)
  && negb (is_delimiter ts c).

(** A word: it does not start with a digit, so it is no number. *)
Definition is_word (ts : tokenizer) (w : list Z) : bool :=
  match w with c :: _ => negb (in_range 48 57 c) | [] => false end && forallb (word_char ts) w.

(** The text still to be read. *)
Definition to_read (ts : tokenizer) : list Z := take (tlen ts) (drop (tstart ts) (tbuf ts)).

Lemma ascii_utf8 b : 0 <= b < 128 → lws_check_byte_utf8 (u8 0) b = 0.
Proof. intros H. unfold lws_check_byte_utf8. cbn. by rewrite (proj2 (Z.leb_gt _ _)) by lia. Qed.

Lemma ascii_s8 b : 0 <= b < 128 → s8 b = b.
Proof. intros. apply s8_small. lia. Qed.

Lemma comma_delimits ts : is_delimiter ts 44 = true.
Proof.
  unfold is_delimiter. by destruct (flag ts LWS_TOKENIZE_F_MINUS_NONTERM), (flag ts LWS_TOKENIZE_F_DOT_NONTERM),
    (flag ts LWS_TOKENIZE_F_RFC7230_DELIMS).
Qed.

Lemma to_read_cons n ts b l :
  tlen ts = S n → to_read ts = b :: l →
  tbuf ts !! tstart ts = Some b ∧ to_read (advance n ts) = l.
Proof.
  unfold to_read. intros -> E. destruct (drop (tstart ts) (tbuf ts)) as [|b0 l0] eqn:Ed; [done|].
  cbn in E. injection E as -> <-. pose proof (lookup_drop (tbuf ts) (tstart ts) 0) as Hl.
  rewrite Ed, Nat.add_0_r in Hl. cbn in Hl. split; [done|]. cbn.
  replace (S (tstart ts)) with (tstart ts + 1)%nat by lia. by rewrite <- drop_drop, Ed.
Qed.

Lemma flags_is_delimiter ts ts' c : tflags ts' = tflags ts → is_delimiter ts' c = is_delimiter ts c.
Proof. unfold is_delimiter, flag. by intros ->. Qed.

(** The character after a word: none, or a comma. *)
Definition word_end (l : list Z) : Prop := l = [] ∨ ∃ l', l = 44 :: l'.

Definition word_done (ts : tokenizer) (k : nat) : tokenizer :=
  Tokenizer (tbuf ts) (tstart ts + k) (ttoken ts) (tlen ts - k) (token_len ts + k) (tflags ts) (tdelim ts).

Lemma word_char_facts ts c :
  word_char ts c = true →
  0 < c < 128 ∧ is_white c = false ∧ (c =? 34) = false ∧ (c =? 61) = false ∧ (c =? 58) = false
  ∧ is_delimiter ts c = false.
Proof.
  unfold word_char. rewrite !andb_true_iff, !negb_true_iff, !Z.ltb_lt. naive_solver.
Qed.

Lemma loop_word n ts w rest :
  tlen ts = n → to_read ts = w ++ rest → forallb (word_char ts) w = true → word_end rest →
  length (to_read ts) = n →
  tokenize_loop n ts LWS_TOKZS_TOKEN 0 0 0 = Ok (LWS_TOKZE_TOKEN, word_done ts (length w)).
Proof.
  intros Hn Hr Hw Hend Hlen. revert n ts Hn Hr Hw Hlen. induction w as [|c w IH]; intros n ts Hn Hr Hw Hlen.
  - cbn [app length] in *. unfold word_done. rewrite !Nat.add_0_r, Nat.sub_0_r.
    replace (Tokenizer _ _ _ _ _ _ _) with ts by by destruct ts.
    destruct Hend as [-> |[l' ->]]; rewrite Hr in Hlen; cbn in Hlen; destruct n as [|n]; try lia; [done|].
    destruct (to_read_cons n ts 44 l' Hn Hr) as [Eb _]. cbn [tokenize_loop]. rewrite Eb. cbv zeta.
    rewrite ascii_utf8, ascii_s8 by lia. change (is_white 44) with false. cbn [Z.eqb Z.ltb Z.compare Pos.eqb andb].
    rewrite andb_false_r. cbn [andb].
    rewrite (flags_is_delimiter ts), comma_delimits by done. unfold unread, advance. cbn. rewrite <- Hn. by destruct ts.
  - cbn [forallb] in Hw. apply andb_true_iff in Hw as [Hc Hw]. destruct (word_char_facts ts c Hc) as (H1 & H2 & H3 & H4 & H5 & H6).
    rewrite Hr in Hlen. cbn in Hlen. destruct n as [|n]; [lia|].
    destruct (to_read_cons n ts c (w ++ rest) Hn Hr) as [Eb Er]. cbn [tokenize_loop]. rewrite Eb. cbv zeta.
    rewrite ascii_utf8, ascii_s8 by lia. rewrite H2, H3, H4, H5, (proj2 (Z.eqb_neq c 0)) by lia.
    cbn [Z.eqb Z.ltb Z.compare andb]. rewrite !andb_false_r. cbn [andb]. rewrite (flags_is_delimiter ts), H6 by done.
    assert (next_num 0 c = 0) as -> by (unfold next_num; by destruct (negb _)).
    rewrite (IH n (longer (advance n ts))); try done; [|change (to_read _) with (to_read (advance n ts)); rewrite Er; lia].
    unfold word_done, longer, set_token, advance. cbn. rewrite Hn. cbn. do 3 f_equal; lia.
Qed.

(** [k] characters on, nothing else changed. *)
Definition skipped (k : nat) (ts : tokenizer) : tokenizer :=
  Tokenizer (tbuf ts) (tstart ts + k) (ttoken ts) (tlen ts - k) (token_len ts) (tflags ts) (tdelim ts).

Lemma to_read_skipped k ts : to_read (skipped k ts) = drop k (to_read ts).
Proof.
  unfold to_read, skipped. cbn. rewrite skipn_firstn_comm, drop_drop. done.
Qed.

Lemma loop_spaces k ts num flo l :
  to_read ts = replicate k 32 ++ l → length (to_read ts) = tlen ts →
  tokenize_loop (tlen ts) ts LWS_TOKZS_LEADING_WHITESPACE num flo 0
  = tokenize_loop (tlen ts - k) (skipped k ts) LWS_TOKZS_LEADING_WHITESPACE num flo 0.
Proof.
  revert ts. induction k as [|k IH]; intros ts Hr Hl.
  { unfold skipped. rewrite Nat.add_0_r, !Nat.sub_0_r. by destruct ts. }
  cbn [replicate app] in Hr. rewrite Hr in Hl. cbn in Hl. destruct (tlen ts) as [|n] eqn:En; [lia|].
  destruct (to_read_cons n ts 32 _ En Hr) as [Eb Er]. cbn [tokenize_loop]. rewrite Eb. cbv zeta.
  rewrite ascii_utf8, ascii_s8 by lia. change (is_white 32) with true. cbn [Z.eqb Z.ltb Z.compare].
  pose proof (IH (advance n ts) Er ltac:(rewrite Er; cbn; lia)) as IH1. cbn [advance tlen] in IH1. rewrite IH1.
  replace (S n - S k)%nat with (n - k)%nat by lia. f_equal.
  unfold skipped, advance. cbn. rewrite En. f_equal; lia.
Qed.

(** The state after a word at [start + k], [len] characters long. *)
Definition after_word (k len : nat) (ts : tokenizer) : tokenizer :=
  Tokenizer (tbuf ts) (tstart ts + k + len) (Some (tstart ts + k)%nat) (tlen ts - k - len) len (tflags ts) LWSTZ_DT_NEED_DELIM.

Lemma to_read_after_word k len ts : to_read (after_word k len ts) = drop (k + len) (to_read ts).
Proof. rewrite <- to_read_skipped. unfold to_read, after_word, skipped. cbn. f_equal; [lia|f_equal; lia]. Qed.

Lemma word_char_flags ts ts' w : tflags ts' = tflags ts → forallb (word_char ts') w = forallb (word_char ts) w.
Proof.
  intros E. induction w as [|c w IH]; [done|]. cbn. rewrite IH. f_equal. unfold word_char.
  by rewrite (flags_is_delimiter ts).
Qed.

Lemma tokenize_word ts k w rest :
  flag ts LWS_TOKENIZE_F_COMMA_SEP_LIST = true → tdelim ts ≠ LWSTZ_DT_NEED_DELIM → length (to_read ts) = tlen ts →
  is_word ts w = true → word_end rest → to_read ts = replicate k 32 ++ w ++ rest →
  lws_tokenize ts = Ok (LWS_TOKZE_TOKEN, after_word k (length w) ts).
Proof.
  intros Hf Hd Hl Hw He Hr. unfold lws_tokenize. set (ts0 := set_token None 0 ts).
  change (tlen ts) with (tlen ts0). rewrite (loop_spaces k ts0 _ _ (w ++ rest)) by done.
  unfold is_word in Hw. destruct w as [|c w]; [done|]. apply andb_true_iff in Hw as [Hdig Hw].
  cbn [forallb] in Hw. apply andb_true_iff in Hw as [Hc Hw].
  destruct (word_char_facts ts c Hc) as (H1 & H2 & H3 & H4 & H5 & H6).
  assert (to_read (skipped k ts0) = c :: w ++ rest) as Hr'.
  { rewrite to_read_skipped. change (to_read ts0) with (to_read ts). rewrite Hr.
    by rewrite drop_app_length' by by rewrite length_replicate. }
  assert (length (c :: w ++ rest) = tlen ts - k)%nat as Hl'.
  { rewrite <- Hr', to_read_skipped, length_drop. change (to_read ts0) with (to_read ts). lia. }
  cbn [tlen set_token ts0]. cbn in Hl'. destruct (tlen ts - k)%nat as [|n] eqn:En; [lia|].
  destruct (to_read_cons n (skipped k ts0) c _ En Hr') as [Eb Er]. cbn [tokenize_loop]. rewrite Eb. cbv zeta.
  rewrite ascii_utf8, ascii_s8 by lia. rewrite H2, H3, H4, H5, (proj2 (Z.eqb_neq c 0)) by lia.
  cbn [Z.eqb Z.ltb Z.compare andb]. rewrite !andb_false_r. cbn [andb]. rewrite (flags_is_delimiter ts), H6 by done.
  change (flag (advance n (skipped k ts0)) LWS_TOKENIZE_F_COMMA_SEP_LIST) with (flag ts LWS_TOKENIZE_F_COMMA_SEP_LIST).
  rewrite Hf. cbn [andb]. rewrite bool_decide_eq_false_2 by done.
  unfold next_num. rewrite Hdig. set (ts2 := set_token _ _ _).
  rewrite (loop_word n ts2 w rest); [..|done|]; try done.
  - unfold word_done, after_word, ts2. cbn. do 2 f_equal. f_equal; lia.
  - change (to_read ts2) with (to_read (advance n (skipped k ts0))). rewrite Er. lia.
Qed.

Lemma tokenize_comma ts l :
  flag ts LWS_TOKENIZE_F_COMMA_SEP_LIST = true → tdelim ts = LWSTZ_DT_NEED_DELIM → length (to_read ts) = tlen ts →
  to_read ts = 44 :: l →
  lws_tokenize ts = Ok (LWS_TOKZE_DELIMITER,
                        Tokenizer (tbuf ts) (S (tstart ts)) (Some (tstart ts)) (tlen ts - 1) 1 (tflags ts) LWSTZ_DT_NEED_NEXT_CONTENT).
Proof.
  intros Hf Hd Hl Hr. unfold lws_tokenize. set (ts0 := set_token None 0 ts). rewrite Hr in Hl. cbn in Hl.
  destruct (tlen ts) as [|n] eqn:En; [lia|].
  destruct (to_read_cons n ts0 44 l En Hr) as [Eb _]. cbn [tokenize_loop]. rewrite Eb. cbv zeta.
  rewrite ascii_utf8, ascii_s8 by lia. change (is_white 44) with false. cbn [Z.eqb Z.ltb Z.compare Pos.eqb andb].
  rewrite andb_false_r. cbn [andb]. rewrite (flags_is_delimiter ts), comma_delimits by done.
  change (flag (advance n ts0) LWS_TOKENIZE_F_COMMA_SEP_LIST) with (flag ts LWS_TOKENIZE_F_COMMA_SEP_LIST).
  rewrite Hf. cbn [tdelim advance ts0 set_token]. rewrite Hd. cbn. by rewrite Nat.sub_0_r.
Qed.

Lemma tokenize_ended ts :
  tdelim ts = LWSTZ_DT_NEED_DELIM → tlen ts = 0%nat → lws_tokenize ts = Ok (LWS_TOKZE_ENDED, set_token None 0 ts).
Proof. intros Hd Hl. unfold lws_tokenize. rewrite Hl. cbn. rewrite Hd. by rewrite andb_false_r. Qed.

(** ** Claims *)

(** The elements of successive calls, until one is not positive; [None] when
    the calls are used up. *)
Fixpoint tokens (calls : nat) (ts : tokenizer) : option (res (list (lws_tokenize_elem * list Z) * lws_tokenize_elem)) :=
  match calls with
  | O => None
  | S calls =>
      match lws_tokenize ts with
      | Fault f => Some (Fault f)
      | Ok (e, ts') =>
          if elem_positive e then
            match tokens calls ts' with
            | Some (Ok (l, last)) =>
                Some (Ok ((e, match ttoken ts' with Some t => take (token_len ts') (drop t (tbuf ts')) | None => [] end) :: l, last))
            | r => r
            end
          else Some (Ok ([], e))
      end
  end.

(** The tokenizer is memory safe and terminates: from any text and flags,
    a call reads only the text, leaves a token that lies inside it, and uses
    at least one character whenever it reports an element; so one call more
    than there are characters brings the end of the text or an error. *)
Theorem tokenize_safe ts :
  wf_tok ts →
  (∃ e ts', lws_tokenize ts = Ok (e, ts') ∧ wf_tok ts' ∧ tbuf ts' = tbuf ts
            ∧ (elem_positive e = true → (tlen ts' < tlen ts)%nat))
  ∧ ∃ l e, tokens (S (tlen ts)) ts = Some (Ok (l, e)) ∧ elem_positive e = false ∧ (length l ≤ tlen ts)%nat.
Proof.
  assert (∀ ts, wf_tok ts → ∃ e ts', lws_tokenize ts = Ok (e, ts') ∧ wf_tok ts' ∧ tbuf ts' = tbuf ts
            ∧ (elem_positive e = true → (tlen ts' < tlen ts)%nat)) as Hone.
  { clear ts. intros ts [H1 H2]. destruct (loop_ok (tlen ts) (set_token None 0 ts) LWS_TOKZS_LEADING_WHITESPACE (-1) 0 0)
      as (e & ts' & E & Hw & (Eb & _) & Hp); [done..|].
    exists e, ts'. split_and!; try done. intros He. destruct (Hp He eq_refl) as (_ & _ & H & _). cbn in H. lia. }
  intros Hw. split; [by apply Hone|].
  remember (tlen ts) as n eqn:En. assert (tlen ts ≤ n)%nat as Hn by lia. clear En. revert ts Hw Hn.
  induction n as [n IH] using lt_wf_ind; intros ts Hw Hn. cbn [tokens].
  destruct (Hone ts Hw) as (e & ts' & -> & Hw' & _ & Hp). destruct (elem_positive e) eqn:Ee; [|by exists [], e; split_and!; try done; cbn; lia].
  specialize (Hp eq_refl). destruct n as [|n]; [lia|].
  destruct (IH n ltac:(lia) ts' Hw' ltac:(lia)) as (l & e' & -> & He' & Hll). eexists _, e'. split; [reflexivity|].
  split; [done|]. cbn. lia.
Qed.

Definition sample_list : tokenizer :=
  lws_tokenize_init (bs "keep-alive, Upgrade") (Z.lor LWS_TOKENIZE_F_COMMA_SEP_LIST LWS_TOKENIZE_F_MINUS_NONTERM) 19.

Lemma tokenize_safe_witness :
  wf_tok sample_list ∧ ∃ e ts', lws_tokenize sample_list = Ok (e, ts') ∧ wf_tok ts'.
Proof.
  assert (wf_tok sample_list) as H by (split; [vm_compute; lia|reflexivity]).
  split; [done|]. destruct (tokenize_safe sample_list H) as [(e & ts' & E & W & _) _]. by exists e, ts'.
Defined.

Example tokens_of_list :
  tokens 20 sample_list = Some (Ok ([(LWS_TOKZE_TOKEN, bs "keep-alive"); (LWS_TOKZE_DELIMITER, bs ",");
                                     (LWS_TOKZE_TOKEN, bs "Upgrade")], LWS_TOKZE_ENDED)).
Proof. vm_compute. reflexivity. Qed.

(** By default a letter of two bytes cannot be read: its second byte ends the
    token as a delimiter would, and the next call, which starts at that byte,
    finds broken UTF-8. *)
Example letter_is_split :
  tokens 20 (lws_tokenize_init [97; 195; 169; 98] 0 4)
  = Some (Ok ([(LWS_TOKZE_TOKEN, [97; 195])], LWS_TOKZE_ERR_BROKEN_UTF8)).
Proof. vm_compute. reflexivity. Qed.
