(* ===== verification/Lex.v ===== *)
(** * The table of header names

    Models lib/roles/http/lextable.h, the lookup table the HTTP/1 parser finds
    methods and header names with, and the code that walks it one character at
    a time (lws_parse in roles/http/server/parsers.c and lextable_decode in
    minilex.c).  The claim is that the walk recognises exactly the strings of
    lextable-strings.h, the file the table was generated from. *)

From stdpp Require Import base numbers list strings.
From Stdlib Require Import ZArith Lia Ascii.
From S2P Require Import Prelude HttpHead.

(** ** The code *)

Definition FAIL_CHAR : Z := 8.

Definition lextable : list Z :=
  [
   103; 64; 0; 112; 66; 0; 111; 81; 0; 104; 93; 0; 99; 105; 0; 117; 138; 0; 115; 160; 0; 13; 217; 0;
   97; 49; 1; 105; 112; 1; 100; 25; 2; 114; 34; 2; 58; 86; 2; 101; 232; 2; 102; 4; 3; 108; 38; 3;
   109; 73; 3; 116; 184; 3; 118; 217; 3; 119; 230; 3; 120; 13; 4; 8; 229; 244; 160; 0; 0; 111; 13; 0;
   114; 149; 1; 97; 230; 3; 117; 232; 3; 8; 243; 244; 160; 0; 1; 112; 7; 0; 114; 81; 0; 8; 244; 233;
   239; 238; 243; 160; 0; 2; 111; 10; 0; 116; 191; 0; 101; 4; 4; 8; 243; 244; 186; 0; 3; 111; 7; 0;
   97; 114; 1; 8; 110; 7; 0; 111; 135; 1; 8; 110; 7; 0; 116; 134; 1; 8; 229; 227; 244; 105; 7; 0;
   32; 222; 3; 8; 239; 238; 186; 0; 4; 112; 10; 0; 115; 104; 3; 114; 160; 3; 8; 231; 242; 225; 228; 229;
   186; 0; 5; 233; 231; 233; 238; 186; 0; 6; 101; 7; 0; 116; 28; 3; 8; 99; 10; 0; 114; 5; 3; 116;
   8; 3; 8; 173; 247; 229; 226; 243; 239; 227; 235; 229; 244; 173; 100; 25; 0; 101; 32; 0; 107; 41; 0; 112;
   56; 0; 97; 63; 0; 110; 68; 0; 118; 137; 1; 111; 143; 1; 8; 242; 225; 230; 244; 186; 0; 7; 138; 0;
   8; 248; 244; 229; 238; 243; 233; 239; 238; 243; 186; 0; 9; 229; 249; 49; 10; 0; 50; 10; 0; 58; 98; 1;
   8; 186; 0; 10; 186; 0; 11; 242; 239; 244; 239; 227; 239; 236; 186; 0; 12; 227; 227; 229; 240; 244; 186; 0;
   13; 239; 238; 227; 229; 186; 0; 14; 244; 240; 47; 7; 0; 50; 16; 0; 8; 177; 174; 49; 7; 0; 48; 39;
   3; 8; 160; 0; 15; 173; 243; 229; 244; 244; 233; 238; 231; 243; 186; 0; 16; 99; 13; 0; 117; 172; 0; 103;
   134; 1; 108; 135; 1; 8; 227; 229; 112; 7; 0; 115; 14; 0; 8; 244; 58; 7; 0; 45; 89; 0; 8; 0;
   17; 243; 173; 227; 239; 238; 244; 242; 239; 236; 173; 114; 7; 0; 97; 81; 1; 8; 229; 241; 245; 229; 243; 244;
   173; 232; 229; 225; 228; 229; 242; 243; 186; 0; 18; 230; 173; 109; 13; 0; 110; 32; 0; 114; 167; 1; 117; 171;
   1; 8; 111; 7; 0; 97; 151; 1; 8; 228; 233; 230; 233; 229; 228; 173; 243; 233; 238; 227; 229; 186; 0; 19;
   239; 238; 229; 173; 237; 225; 244; 227; 232; 186; 0; 20; 101; 13; 0; 108; 20; 0; 99; 244; 0; 114; 250; 0;
   8; 238; 227; 239; 228; 233; 238; 231; 186; 0; 21; 225; 238; 231; 245; 225; 231; 229; 186; 0; 22; 97; 7; 0;
   111; 167; 1; 8; 231; 237; 225; 186; 0; 23; 227; 232; 229; 173; 227; 239; 238; 244; 242; 239; 236; 186; 0; 24;
   244; 232; 239; 242; 233; 250; 225; 244; 233; 239; 238; 186; 0; 25; 235; 233; 229; 186; 0; 26; 229; 238; 244; 173;
   108; 16; 0; 116; 30; 0; 100; 201; 0; 101; 211; 0; 114; 236; 0; 8; 101; 10; 0; 97; 211; 0; 111; 217;
   0; 8; 238; 231; 244; 232; 186; 0; 27; 249; 240; 229; 186; 0; 28; 97; 7; 0; 101; 255; 1; 8; 244; 229;
   186; 0; 29; 97; 7; 0; 101; 10; 0; 8; 238; 231; 229; 186; 0; 30; 102; 10; 0; 116; 99; 1; 112; 34;
   2; 8; 101; 7; 0; 114; 83; 1; 8; 242; 229; 242; 186; 0; 31; 0; 32; 229; 242; 243; 233; 239; 238; 186;
   0; 33; 242; 233; 231; 233; 238; 186; 0; 34; 97; 13; 0; 109; 20; 0; 112; 24; 0; 115; 32; 0; 8; 245;
   244; 232; 239; 242; 233; 244; 249; 0; 35; 229; 244; 232; 239; 228; 0; 36; 97; 7; 0; 114; 233; 1; 8; 244;
   232; 0; 37; 99; 7; 0; 116; 10; 0; 8; 232; 229; 237; 229; 0; 38; 225; 244; 245; 243; 0; 39; 232; 225;
   242; 243; 229; 244; 186; 0; 40; 225; 238; 231; 229; 243; 186; 0; 41; 236; 236; 239; 247; 173; 239; 242; 233; 231;
   233; 238; 186; 0; 42; 229; 186; 0; 43; 236; 239; 247; 186; 0; 44; 233; 243; 240; 239; 243; 233; 244; 233; 239;
   238; 186; 0; 45; 238; 227; 239; 228; 233; 238; 231; 186; 0; 46; 238; 231; 245; 225; 231; 229; 186; 0; 47; 227;
   225; 244; 233; 239; 238; 186; 0; 48; 225; 238; 231; 229; 186; 0; 49; 116; 7; 0; 120; 9; 0; 8; 225; 231;
   186; 0; 50; 240; 101; 7; 0; 105; 9; 0; 8; 227; 244; 186; 0; 51; 242; 229; 243; 186; 0; 52; 242; 239;
   237; 186; 0; 53; 244; 227; 232; 186; 0; 54; 225; 238; 231; 229; 186; 0; 55; 238; 237; 239; 228; 233; 230; 233;
   229; 228; 173; 243; 233; 238; 227; 229; 186; 0; 56; 97; 10; 0; 105; 21; 0; 111; 23; 0; 8; 243; 244; 173;
   237; 239; 228; 233; 230; 233; 229; 228; 186; 0; 57; 238; 235; 186; 0; 58; 227; 225; 244; 233; 239; 238; 186; 0;
   59; 225; 248; 173; 230; 239; 242; 247; 225; 242; 228; 243; 186; 0; 60; 248; 249; 45; 7; 0; 32; 187; 0; 8;
   225; 245; 244; 232; 101; 7; 0; 111; 14; 0; 8; 238; 244; 233; 227; 225; 244; 229; 186; 0; 61; 242; 233; 250;
   225; 244; 233; 239; 238; 186; 0; 62; 229; 243; 232; 186; 0; 63; 242; 249; 173; 225; 230; 244; 229; 242; 186; 0;
   64; 246; 229; 242; 186; 0; 65; 173; 227; 239; 239; 235; 233; 229; 186; 0; 66; 242; 233; 227; 244; 173; 244; 242;
   225; 238; 243; 240; 239; 242; 244; 173; 243; 229; 227; 245; 242; 233; 244; 249; 186; 0; 67; 114; 7; 0; 101; 135;
   0; 8; 225; 238; 243; 230; 229; 242; 173; 229; 238; 227; 239; 228; 233; 238; 231; 186; 0; 68; 229; 242; 173; 225;
   231; 229; 238; 244; 186; 0; 69; 97; 7; 0; 105; 9; 0; 8; 242; 249; 186; 0; 70; 225; 186; 0; 71; 247;
   247; 173; 225; 245; 244; 232; 229; 238; 244; 233; 227; 225; 244; 229; 186; 0; 72; 244; 227; 232; 0; 73; 244; 0;
   74; 236; 229; 244; 229; 0; 75; 233; 173; 225; 242; 231; 243; 0; 76; 0; 77; 173; 114; 10; 0; 102; 19; 0;
   97; 60; 0; 8; 229; 225; 236; 173; 233; 240; 186; 0; 78; 160; 0; 79; 239; 242; 247; 225; 242; 228; 229; 228;
   173; 230; 239; 242; 0; 80; 0; 81; 225; 228; 160; 0; 82; 186; 0; 83; 236; 225; 249; 173; 238; 239; 238; 227;
   229; 186; 0; 84; 239; 244; 239; 227; 239; 236; 0; 85; 245; 244; 232; 173; 244; 239; 235; 229; 238; 186; 0; 86].

Definition lextable_at (pos : nat) : res Z :=
  match lextable !! pos with Some b => Ok b | None => Fault OutOfBounds end.

(** The loop over one character: the next position, [None] for the label nope
    ([lextable_pos = -1]).  [fuel] bounds the entries tried; running out of it
    would be a loop that leaves the table. *)
Fixpoint lex_step (fuel pos : nat) (c : Z) : res (option nat) :=
  match fuel with
  | O => Fault OutOfBounds
  | S fuel =>
      b ← lextable_at pos;
      if negb (Z.land b 128 =? 0) then
        if negb (Z.land b 127 =? c) then Ok None
        else
          b1 ← lextable_at (S pos);
          if b1 =? FAIL_CHAR then Ok None else Ok (Some (S pos))
      else if b =? FAIL_CHAR then Ok None
      else if b <? FAIL_CHAR then Ok (Some pos)
      else if b =? c then
        b1 ← lextable_at (pos + 1);
        b2 ← lextable_at (pos + 2);
        Ok (Some (pos + Z.to_nat (b1 + Z.shiftl b2 8))%nat)
      else lex_step fuel (pos + 3) c
  end.

Definition lex_fuel : nat := length lextable.

(** What the parser makes of the position it gets to. *)
Inductive lex_state :=
  | LexUnknown
  | LexAt (pos : nat)
  | LexKnown (n : Z).

#[global] Instance lex_state_eq_dec : EqDecision lex_state.
Proof. solve_decision. Defined.

Definition lex_char (pos : nat) (c : Z) : res lex_state :=
  o ← lex_step lex_fuel pos c;
  match o with
  | None => Ok LexUnknown
  | Some pos =>
      b ← lextable_at pos;
      if b <? FAIL_CHAR then
        b1 ← lextable_at (S pos);
        Ok (LexKnown (Z.lor (Z.shiftl b 8) b1))
      else Ok (LexAt pos)
  end.

(** A name, read until it is known or cannot be one; with the characters that
    are left. *)
Fixpoint lex_word (pos : nat) (w : list Z) : res (lex_state * list Z) :=
  match w with
  | [] => Ok (LexAt pos, [])
  | c :: w =>
      s ← lex_char pos c;
      match s with
      | LexAt pos => lex_word pos w
      | s => Ok (s, w)
      end
  end.

(** ** The reference: a list of names *)

(** The names that are still possible, with what they still need. *)
Definition names := list (Z * list Z).

Definition all_names : names :=
  filter (λ e, e.2 ≠ []) (imap (λ n w, (Z.of_nat n, w)) set).

Definition deriv (c : Z) (l : names) : names :=
  omap (λ e, match e.2 with d :: w => if d =? c then Some (e.1, w) else None | [] => None end) l.

(** Which names are left decides. *)
Definition verdict (l : names) : option (option Z) :=
  match l with
  | [] => Some None
  | (n, []) :: _ => Some (Some n)
  | _ => None
  end.

Fixpoint read_name (l : names) (w : list Z) : option (option Z) * list Z :=
  match w with
  | [] => (None, [])
  | c :: w =>
      match verdict (deriv c l) with
      | Some v => (Some v, w)
      | None => read_name (deriv c l) w
      end
  end.

(** ** Lemmas *)

(** The entries from [pos] on: a terminal, or the branches. *)
Fixpoint branches (fuel pos : nat) : option (list (Z * nat)) :=
  match fuel with
  | O => None
  | S fuel =>
      b ← lextable !! pos;
      if negb (Z.land b 128 =? 0) then
        b1 ← lextable !! S pos;
        if b1 =? FAIL_CHAR then None else Some [(Z.land b 127, S pos)]
      else if b =? FAIL_CHAR then Some []
      else if b <? FAIL_CHAR then None
      else
        b1 ← lextable !! (pos + 1)%nat;
        b2 ← lextable !! (pos + 2)%nat;
        l ← branches fuel (pos + 3);
        Some ((b, (pos + Z.to_nat (b1 + Z.shiftl b2 8))%nat) :: l)
  end.

Fixpoint branch (l : list (Z * nat)) (c : Z) : option nat :=
  match l with
  | [] => None
  | (d, p) :: l => if d =? c then Some p else branch l c
  end.

Lemma lex_step_branches fuel pos l c : branches fuel pos = Some l → lex_step fuel pos c = Ok (branch l c).
Proof.
  revert pos l. induction fuel as [|fuel IH]; intros pos l H; [done|]. cbn [branches lex_step] in *. unfold lextable_at.
  destruct (lextable !! pos) as [b|]; [|done]. cbn [mbind option_bind res_bind] in *.
  destruct (negb (Z.land b 128 =? 0)).
  { destruct (lextable !! S pos) as [b1|]; [|done]. cbn in *. destruct (b1 =? FAIL_CHAR); [done|].
    injection H as <-. cbn. by destruct (_ =? c). }
  destruct (b =? FAIL_CHAR); [by injection H as <-|]. destruct (b <? FAIL_CHAR); [done|].
  destruct (lextable !! (pos + 1)%nat) as [b1|]; [|done]. cbn in H.
  destruct (lextable !! (pos + 2)%nat) as [b2|]; [|done]. cbn in H.
  destruct (branches fuel (pos + 3)) as [l'|] eqn:E; [|done]. cbn in H. injection H as <-.
  cbn. destruct (b =? c); [done|]. by apply IH.
Qed.

(** The terminal at [pos]. *)
Definition terminal (pos : nat) : option Z :=
  b ← lextable !! pos;
  if b <? FAIL_CHAR then b1 ← lextable !! S pos; Some (Z.lor (Z.shiftl b 8) b1) else None.

(** Position [pos] of the table stands for the names [l]; [depth] bounds the
    length of the names. *)
Fixpoint agrees (depth pos : nat) (l : names) : bool :=
  match depth with
  | O => false
  | S depth =>
      match terminal pos with
      | Some n => bool_decide (l = [(n, [])])
      | None =>
          match branches lex_fuel pos with
          | Some br =>
              forallb (λ '(c, p), negb (bool_decide (deriv c l = [])) && agrees depth p (deriv c l)) br
              && forallb (λ e, match e.2 with c :: _ => bool_decide (branch br c ≠ None) | [] => false end) l
              && negb (bool_decide (l = []))
          | None => false
          end
      end
  end.

Lemma table_agrees : agrees 40 0 all_names = true.
Proof. vm_compute. reflexivity. Qed.

(** The table is at an inner position that stands for the names [l]. *)
Definition at_names (pos : nat) (l : names) : Prop :=
  terminal pos = None ∧ ∃ depth, agrees depth pos l = true.

Lemma at_names_start : at_names 0 all_names.
Proof. split; [vm_compute; reflexivity|]. exists 40%nat. apply table_agrees. Qed.

Lemma branch_in br c p : branch br c = Some p → (c, p) ∈ br.
Proof.
  induction br as [|[d q] br IH]; cbn; [done|]. destruct (d =? c) eqn:E.
  - apply Z.eqb_eq in E as ->. intros [= ->]. left.
  - intros H. right. by apply IH.
Qed.

Lemma elem_of_deriv c l n w : (n, w) ∈ deriv c l ↔ (n, c :: w) ∈ l.
Proof.
  unfold deriv. rewrite list_elem_of_omap. split.
  - intros ([m [|d v]] & H & E); cbn in E; [done|]. destruct (d =? c) eqn:Ed; [|done].
    apply Z.eqb_eq in Ed as ->. by injection E as -> ->.
  - intros H. exists (n, c :: w). split; [done|]. cbn. by rewrite Z.eqb_refl.
Qed.

Lemma agrees_inner depth pos l :
  agrees depth pos l = true → terminal pos = None →
  ∃ d br, depth = S d ∧ branches lex_fuel pos = Some br ∧ l ≠ []
    ∧ (∀ c p, (c, p) ∈ br → deriv c l ≠ [] ∧ agrees d p (deriv c l) = true)
    ∧ (∀ n w, (n, w) ∈ l → ∃ c v, w = c :: v ∧ branch br c ≠ None).
Proof.
  intros H Ht. destruct depth as [|d]; [done|]. cbn [agrees] in H. rewrite Ht in H.
  destruct (branches lex_fuel pos) as [br|]; [|done]. rewrite !andb_true_iff in H. destruct H as [[H1 H2] H3].
  exists d, br. split_and!; try done.
  - by apply negb_true_iff, bool_decide_eq_false in H3.
  - intros c p Hin. rewrite forallb_forall in H1. specialize (H1 (c, p) (proj1 (list_elem_of_In _ _) Hin)). cbn in H1.
    apply andb_true_iff in H1 as [H1 ?]. by apply negb_true_iff, bool_decide_eq_false in H1.
  - intros n w Hin. rewrite forallb_forall in H2. specialize (H2 (n, w) (proj1 (list_elem_of_In _ _) Hin)). cbn in H2.
    destruct w as [|c v]; [done|]. exists c, v. split; [done|]. by apply bool_decide_eq_true in H2.
Qed.

(** What [lex_char] finds at the position of a branch. *)
Lemma lex_char_at pos p c :
  lex_step lex_fuel pos c = Ok (Some p) →
  lex_char pos c = match terminal p with
                   | Some n => Ok (LexKnown n)
                   | None => b ← lextable_at p; if b <? FAIL_CHAR then b1 ← lextable_at (S p); Ok (LexKnown (Z.lor (Z.shiftl b 8) b1)) else Ok (LexAt p)
                   end.
Proof.
  intros E. unfold lex_char. rewrite E. cbn [mbind res_bind]. unfold terminal, lextable_at.
  destruct (lextable !! p) as [b|]; [|done]. cbn [mbind option_bind res_bind].
  destruct (b <? FAIL_CHAR) eqn:E8; destruct (lextable !! S p); cbn [mbind option_bind res_bind]; by rewrite ?E8.
Qed.

Lemma branches_inner fuel pos br :
  branches fuel pos = Some br → terminal pos = None → ∃ b, lextable !! pos = Some b ∧ (b <? FAIL_CHAR) = false.
Proof.
  destruct fuel as [|fuel]; [done|]. cbn [branches]. unfold terminal.
  destruct (lextable !! pos) as [b|]; [|done]. cbn [mbind option_bind]. intros H Ht. exists b. split; [done|].
  destruct (b <? FAIL_CHAR) eqn:E8; [|done]. destruct (lextable !! S pos); [done|]. cbn [mbind option_bind] in H.
  destruct (negb (Z.land b 128 =? 0)); [done|]. destruct (b =? FAIL_CHAR) eqn:E8'; [|done].
  apply Z.eqb_eq in E8' as ->. done.
Qed.

Lemma lex_char_names pos l c :
  at_names pos l →
  match lex_char pos c with
  | Ok LexUnknown => deriv c l = []
  | Ok (LexKnown n) => deriv c l = [(n, [])]
  | Ok (LexAt p) => at_names p (deriv c l)
  | Fault _ => False
  end.
Proof.
  intros (Ht & depth & Ha). destruct (agrees_inner _ _ _ Ha Ht) as (d & br & -> & Hbr & Hne & Hb & Hl).
  pose proof (lex_step_branches _ _ _ c Hbr) as Hs. destruct (branch br c) as [p|] eqn:Ep.
  - destruct (Hb _ _ (branch_in _ _ _ Ep)) as [Hd Hag]. rewrite (lex_char_at _ _ _ Hs).
    destruct (terminal p) as [n|] eqn:Etp.
    + destruct d as [|d]; [done|]. cbn [agrees] in Hag. rewrite Etp in Hag. by apply bool_decide_eq_true in Hag.
    + destruct (agrees_inner _ _ _ Hag Etp) as (d' & br' & -> & Hbr' & _). 
      destruct (branches_inner _ _ _ Hbr' Etp) as (b & Eb & Hb8).
      unfold lextable_at. rewrite Eb. cbn [mbind res_bind]. rewrite Hb8. split; [done|]. by eexists.
  - unfold lex_char. rewrite Hs. cbn. destruct (deriv c l) as [|[n w] l'] eqn:Ed; [done|].
    assert ((n, w) ∈ deriv c l) as Hin by (rewrite Ed; left). apply elem_of_deriv in Hin.
    destruct (Hl _ _ Hin) as (c' & v & [= <- <-] & Hbn). done.
Qed.

Lemma at_names_words pos l n w : at_names pos l → (n, w) ∈ l → w ≠ [].
Proof.
  intros (Ht & depth & Ha) Hin. destruct (agrees_inner _ _ _ Ha Ht) as (d & br & _ & _ & _ & _ & Hl).
  by destruct (Hl _ _ Hin) as (c & v & -> & _).
Qed.

Lemma lex_word_names pos l w :
  at_names pos l →
  ∃ s p r, lex_word pos w = Ok (s, r) ∧ w = p ++ r
    ∧ match s with
      | LexKnown n => (n, p) ∈ l
      | LexUnknown => ∀ n q, (n, q) ∈ l → ¬ q `prefix_of` w ∧ ¬ w `prefix_of` q
      | LexAt _ => r = [] ∧ (∃ n q, (n, w ++ q) ∈ l) ∧ ∀ n q, (n, q) ∈ l → ¬ q `prefix_of` w
      end.
Proof.
  revert pos l. induction w as [|c w IH]; intros pos l Hat.
  { exists (LexAt pos), [], []. split_and!; try done.
    - destruct Hat as (Ht & depth & Ha). destruct (agrees_inner _ _ _ Ha Ht) as (_ & _ & _ & _ & Hne & _).
      destruct l as [|[n q] l]; [done|]. exists n, q. left.
    - intros n q Hin Hp. apply prefix_nil_inv in Hp as ->. by apply (at_names_words _ _ _ _ Hat Hin). }
  pose proof (lex_char_names pos l c Hat) as Hc. cbn [lex_word].
  destruct (lex_char pos c) as [[|p|n]|]; [| | |done]; cbn.
  - exists LexUnknown, [c], w. split_and!; try done. intros n q Hin.
    assert (∀ q', q ≠ c :: q') as Hq.
    { intros q' ->. apply elem_of_deriv in Hin. rewrite Hc in Hin. by apply elem_of_nil in Hin. }
    pose proof (at_names_words _ _ _ _ Hat Hin) as Hne. destruct q as [|d q]; [done|].
    split; intros Hp; apply prefix_cons_inv_1 in Hp; subst; by eapply Hq.
  - destruct (IH p _ Hc) as (s & p' & r & -> & -> & Hs). exists s, (c :: p'), r. split_and!; try done.
    assert (∀ n q, (n, q) ∈ l → q `prefix_of` c :: p' ++ r ∨ c :: p' ++ r `prefix_of` q → ∃ q', q = c :: q' ∧ (n, q') ∈ deriv c l) as Hq.
    { intros n q Hin Hor. pose proof (at_names_words _ _ _ _ Hat Hin) as Hne. destruct q as [|d q]; [done|].
      assert (d = c) as -> by (destruct Hor as [Hp|Hp]; by apply prefix_cons_inv_1 in Hp).
      exists q. split; [done|]. by apply elem_of_deriv. }
    destruct s as [|pos'|n].
    + intros n q Hin. split; intros Hp; (destruct (Hq n q Hin) as (q' & -> & Hin'); [by auto|]);
        apply prefix_cons_inv_2 in Hp; destruct (Hs n q' Hin'); auto.
    + destruct Hs as (-> & (n & q & Hex) & Hall). split_and!; [done| |].
      * exists n, q. by apply elem_of_deriv in Hex.
      * intros n' q' Hin Hp. destruct (Hq n' q' Hin ltac:(by left)) as (q'' & -> & Hin').
        apply prefix_cons_inv_2 in Hp. by apply (Hall n' q'').
    + by apply elem_of_deriv in Hs.
  - exists (LexKnown n), [c], w. split_and!; try done. apply elem_of_deriv. rewrite Hc. left.
Qed.

Lemma elem_of_all_names n w : (n, w) ∈ all_names ↔ w ≠ [] ∧ 0 <= n ∧ set !! Z.to_nat n = Some w.
Proof.
  unfold all_names. rewrite list_elem_of_filter, elem_of_lookup_imap. cbn. split.
  - intros [Hne (i & v & [= -> ->] & Hi)]. rewrite Nat2Z.id. split_and!; try done. lia.
  - intros (Hne & Hn & Hi). split; [done|]. exists (Z.to_nat n), w. split; [|done]. by rewrite Z2Nat.id.
Qed.

(** The tokens of the names. *)
Lemma all_names_tokens : Forall (λ e, 0 <= e.1 < 87) all_names.
Proof. by_compute. Qed.

(** No name starts with another. *)
Lemma names_prefix_free n m v w : (n, v) ∈ all_names → (m, w) ∈ all_names → v `prefix_of` w → n = m ∧ v = w.
Proof.
  assert (forallb (λ e, forallb (λ e', bool_decide (e = e') || negb (bool_decide (e.2 `prefix_of` e'.2))) all_names) all_names = true)
    as H by (vm_compute; reflexivity).
  intros Hv Hw Hp. rewrite forallb_forall in H. specialize (H _ (proj1 (list_elem_of_In _ _) Hv)).
  rewrite forallb_forall in H. specialize (H _ (proj1 (list_elem_of_In _ _) Hw)). cbn in H.
  apply orb_true_iff in H as [H|H].
  - apply bool_decide_eq_true in H. by injection H as -> ->.
  - apply negb_true_iff, bool_decide_eq_false in H. done.
Qed.

(** A name of the list is read to its end. *)
Lemma lex_word_known n name r : (n, name) ∈ all_names → lex_word 0 (name ++ r) = Ok (LexKnown n, r).
Proof.
  intros Hin. assert (name `prefix_of` name ++ r) as Hp by by eexists.
  destruct (lex_word_names 0 all_names (name ++ r) at_names_start) as (s & p & r' & E & Hw & Hs). rewrite E.
  destruct s as [|pos|n'].
  - by destruct (Hs _ _ Hin).
  - destruct Hs as (_ & _ & Hall). by destruct (Hall _ _ Hin).
  - assert (p `prefix_of` name ++ r) as Hp' by (rewrite Hw; by eexists).
    destruct (prefix_weak_total _ _ _ Hp Hp') as [Hpp|Hpp].
    + destruct (names_prefix_free _ _ _ _ Hin Hs Hpp) as [-> ->]. apply app_inv_head in Hw. by subst.
    + destruct (names_prefix_free _ _ _ _ Hs Hin Hpp) as [-> ->]. apply app_inv_head in Hw. by subst.
Qed.

(** ** Claims *)

(** [C21] The compiled table and the walk over it recognise exactly the names of
    the list it was generated from: on any text the walk stays inside the
    table; it stops with token n exactly when the text starts with name n of
    the list; it gives up exactly when no name starts the text and the text
    does not start a name. *)
Theorem lextable_correct w :
  (∃ s r, lex_word 0 w = Ok (s, r))
  ∧ (∀ n r, lex_word 0 w = Ok (LexKnown n, r) ↔
       ∃ name, name ≠ [] ∧ 0 <= n ∧ set !! Z.to_nat n = Some name ∧ w = name ++ r)
  ∧ ((∃ r, lex_word 0 w = Ok (LexUnknown, r)) ↔
       ∀ i name, set !! i = Some name → name ≠ [] → ¬ name `prefix_of` w ∧ ¬ w `prefix_of` name).
Proof.
  destruct (lex_word_names 0 all_names w at_names_start) as (s & p & r & E & Hw & Hs). rewrite E.
  split; [by eauto|]. split.
  - intros n r'. split.
    + intros [= -> ->]. exists p. apply elem_of_all_names in Hs as (? & ? & ?). by subst.
    + intros (name & Hne & Hn & Hi & Hw'). rewrite <- E, Hw'. apply lex_word_known. by apply elem_of_all_names.
  - split.
    + intros [r' [= -> ->]] i name Hi Hne. apply (Hs (Z.of_nat i)). apply elem_of_all_names. rewrite Nat2Z.id.
      split_and!; [done|lia|done].
    + intros Hno. destruct s as [|pos|n'].
      * by exists r.
      * destruct Hs as (_ & (n & q & Hin) & _). apply elem_of_all_names in Hin as (Hne & _ & Hi).
        destruct (Hno _ _ Hi Hne) as [_ H]. destruct H. by eexists.
      * apply elem_of_all_names in Hs as (Hne & _ & Hi). destruct (Hno _ _ Hi Hne) as [H _]. destruct H. rewrite Hw. by eexists.
Qed.

Example lex_host : lex_word 0 (bs "host: comlink") = Ok (LexKnown 3, bs " comlink").
Proof. vm_compute. reflexivity. Qed.
