(* ===== verification/HttpParse.v ===== *)
(** * The HTTP/1 request parser

    Models roles/http/server/parsers.c: the header store of a connection
    (struct allocated_headers: the text, its fragments and the index from
    tokens to fragments), the functions that read it, and lws_parse, which
    fills it one character at a time.

    The text is the list of the bytes of [ah->data]; a store or read outside of
    it, or outside of one of the arrays, is a fault, and so is a failing
    assert: the server is built with asserts (README, CMAKE_BUILD_TYPE=DEBUG).
    Lengths and offsets are [nat]: a header space ([max_http_header_data],
    4096 as lwsws leaves it) under 64K keeps the 16-bit fragment length from
    wrapping, since fragments stay inside of the space ([wf_ah]). *)

From stdpp Require Import base numbers list strings.
From Stdlib Require Import ZArith Lia Ascii.
From S2P Require Import Prelude Text HttpHead Lex.

(** ** State *)

Definition WSI_TOKEN_COUNT : nat := 95.
#[global] Arguments WSI_TOKEN_COUNT : simpl never.

Definition WSI_TOKEN_GET_URI : nat := 0.
Definition WSI_TOKEN_POST_URI : nat := 1.
Definition WSI_TOKEN_OPTIONS_URI : nat := 2.
Definition WSI_TOKEN_HOST : nat := 3.
Definition WSI_TOKEN_CONNECTION : nat := 4.
Definition WSI_TOKEN_UPGRADE : nat := 5.
Definition WSI_TOKEN_ORIGIN : nat := 6.
Definition WSI_TOKEN_CHALLENGE : nat := 8.
Definition WSI_TOKEN_PROTOCOL : nat := 12.
Definition WSI_TOKEN_HTTP : nat := 15.
Definition WSI_TOKEN_HTTP_COOKIE : nat := 26.
Definition WSI_TOKEN_KEY : nat := 32.
Definition WSI_TOKEN_VERSION : nat := 33.
Definition WSI_TOKEN_SWORIGIN : nat := 34.
Definition WSI_TOKEN_PATCH_URI : nat := 73.
Definition WSI_TOKEN_PUT_URI : nat := 74.
Definition WSI_TOKEN_DELETE_URI : nat := 75.
Definition WSI_TOKEN_HTTP_URI_ARGS : nat := 76.
Definition WSI_TOKEN_CONNECT : nat := 81.
Definition WSI_TOKEN_HEAD_URI : nat := 82.

Inductive uri_path_states := URIPS_IDLE | URIPS_SEEN_SLASH | URIPS_SEEN_SLASH_DOT | URIPS_SEEN_SLASH_DOT_DOT.

Inductive uri_esc_states := URIES_IDLE | URIES_SEEN_PERCENT | URIES_SEEN_PERCENT_H1.

#[global] Instance uri_path_states_eq_dec : EqDecision uri_path_states.
Proof. solve_decision. Defined.
#[global] Instance uri_esc_states_eq_dec : EqDecision uri_esc_states.
Proof. solve_decision. Defined.

(** The token being collected, or one of the states past WSI_TOKEN_COUNT. *)
Inductive parser_states :=
  | WSI_TOKEN (t : nat)
  | WSI_TOKEN_NAME_PART
  | WSI_TOKEN_SKIPPING
  | WSI_TOKEN_SKIPPING_SAW_CR
  | WSI_PARSING_COMPLETE.

#[global] Instance parser_states_eq_dec : EqDecision parser_states.
Proof. solve_decision. Defined.

(** struct lws_fragments.  [flen] is a uint16_t in C.  A fragment lies inside of
    the header space, so it fits as long as the space is under 64K: lwsws sets
    neither max_http_header_data nor max_http_header_data2, which leaves
    LWS_DEF_HEADER_LEN, 4096 bytes. *)
Record lws_fragment := Fragment { offset : nat; flen : nat; fnext : nat }.

Record allocated_headers := Ah {
  data : list Z;
  frags : list lws_fragment;
  frag_index : list nat;
  pos : nat;
  current_token_limit : nat;
  lextable_pos : option nat;
  nfrag : nat;
  ups : uri_path_states;
  ues : uri_esc_states;
  esc_stash : Z;
  post_literal_equal : bool;
  parser_state : parser_states;
}.

(** What lws_parse uses of the context, the vhost and the role. *)
Record http_context := Context_ {
  max_http_header_data : nat;
  token_limits : option (list nat);
  h1_server : bool;
  fallback_to_raw : bool;
}.

Record hcon := Hcon {
  ah : allocated_headers;
  rx_frame_type : Z;
  hdr_parsing_completed : bool;
}.

Definition ah_eta (a : allocated_headers) : allocated_headers :=
  Ah (data a) (frags a) (frag_index a) (pos a) (current_token_limit a) (lextable_pos a) (nfrag a) (ups a) (ues a)
     (esc_stash a) (post_literal_equal a) (parser_state a).

(** [ah_setter f a v]: [a] with field [f] replaced by [v]. *)
Ltac ah_setter f a v :=
  let t := eval cbv beta delta [ah_eta] in (ah_eta a) in
  match eval pattern (f a) in t with ?g _ => let r := eval cbv beta in (g v) in exact r end.

Definition set_data (v : list Z) (a : allocated_headers) : allocated_headers := ltac:(ah_setter data a v).
Definition set_frags (v : list lws_fragment) (a : allocated_headers) : allocated_headers := ltac:(ah_setter frags a v).
Definition set_frag_index (v : list nat) (a : allocated_headers) : allocated_headers := ltac:(ah_setter frag_index a v).
Definition set_pos (v : nat) (a : allocated_headers) : allocated_headers := ltac:(ah_setter pos a v).
Definition set_current_token_limit (v : nat) (a : allocated_headers) : allocated_headers := ltac:(ah_setter current_token_limit a v).
Definition set_lextable_pos (v : option nat) (a : allocated_headers) : allocated_headers := ltac:(ah_setter lextable_pos a v).
Definition set_nfrag (v : nat) (a : allocated_headers) : allocated_headers := ltac:(ah_setter nfrag a v).
Definition set_ups (v : uri_path_states) (a : allocated_headers) : allocated_headers := ltac:(ah_setter ups a v).
Definition set_ues (v : uri_esc_states) (a : allocated_headers) : allocated_headers := ltac:(ah_setter ues a v).
Definition set_esc_stash (v : Z) (a : allocated_headers) : allocated_headers := ltac:(ah_setter esc_stash a v).
Definition set_post_literal_equal (v : bool) (a : allocated_headers) : allocated_headers := ltac:(ah_setter post_literal_equal a v).
Definition set_parser_state (v : parser_states) (a : allocated_headers) : allocated_headers := ltac:(ah_setter parser_state a v).

(** ** Array access *)

Definition get_frag (a : allocated_headers) (n : nat) : res lws_fragment :=
  match frags a !! n with Some f => Ok f | None => Fault OutOfBounds end.

Definition put_frag (n : nat) (f : lws_fragment) (a : allocated_headers) : res allocated_headers :=
  if (n <? length (frags a))%nat then Ok (set_frags (<[n := f]> (frags a)) a) else Fault OutOfBounds.

Definition get_index (a : allocated_headers) (t : nat) : res nat :=
  match frag_index a !! t with Some n => Ok n | None => Fault OutOfBounds end.

Definition put_index (t n : nat) (a : allocated_headers) : res allocated_headers :=
  if (t <? length (frag_index a))%nat then Ok (set_frag_index (<[t := n]> (frag_index a)) a) else Fault OutOfBounds.

Definition get_data (a : allocated_headers) (n : nat) : res Z :=
  match data a !! n with Some b => Ok b | None => Fault OutOfBounds end.

(** [ah->data[ah->pos++] = c] *)
Definition put_data (c : Z) (a : allocated_headers) : res allocated_headers :=
  if (pos a <? length (data a))%nat then Ok (set_pos (S (pos a)) (set_data (<[pos a := c]> (data a)) a))
  else Fault OutOfBounds.

(** ** The header store *)

(** zalloc'd, with room for [max] bytes of text that hold whatever they hold. *)
Definition _lws_create_ah (text : list Z) : allocated_headers :=
  Ah text (replicate WSI_TOKEN_COUNT (Fragment 0 0 0)) (replicate WSI_TOKEN_COUNT 0%nat) 0 0 (Some 0%nat) 0
     URIPS_IDLE URIES_IDLE 0 false (WSI_TOKEN WSI_TOKEN_GET_URI).

Definition _lws_header_table_reset (a : allocated_headers) : allocated_headers :=
  Ah (data a) (replicate WSI_TOKEN_COUNT (Fragment 0 0 0)) (replicate WSI_TOKEN_COUNT 0%nat) 0
     (current_token_limit a) (Some 0%nat) 0 (ups a) (ues a) (esc_stash a) (post_literal_equal a) WSI_TOKEN_NAME_PART.

(** The loops over the fragments of a header; [fuel] is the size of the array,
    which a chain cannot exceed ([wf_ah]). *)
Fixpoint total_length_loop (fuel : nat) (a : allocated_headers) (h n len : nat) : res nat :=
  match fuel with
  | O => Fault OutOfBounds
  | S fuel =>
      f ← get_frag a n;
      let len := (len + flen f)%nat in
      if (fnext f =? 0)%nat then Ok len
      else total_length_loop fuel a h (fnext f) (if (h =? WSI_TOKEN_HTTP_COOKIE)%nat then len else S len)
  end.

Definition lws_hdr_total_length (a : allocated_headers) (h : nat) : res nat :=
  n ← get_index a h;
  if (n =? 0)%nat then Ok 0%nat else total_length_loop (length (frags a)) a h n 0.

Fixpoint fragment_length_loop (fuel : nat) (a : allocated_headers) (n frag_idx : nat) : res nat :=
  match fuel with
  | O => Fault OutOfBounds
  | S fuel =>
      f ← get_frag a n;
      match frag_idx with
      | O => Ok (flen f)
      | S frag_idx => if (fnext f =? 0)%nat then Ok 0%nat else fragment_length_loop fuel a (fnext f) frag_idx
      end
  end.

Definition lws_hdr_fragment_length (a : allocated_headers) (h frag_idx : nat) : res nat :=
  n ← get_index a h;
  if (n =? 0)%nat then Ok 0%nat else fragment_length_loop (length (frags a)) a n frag_idx.

(** [len] bytes of the text from [off] on. *)
Definition text_at (a : allocated_headers) (off len : nat) : res (list Z) :=
  if (off + len <=? length (data a))%nat then Ok (take len (drop off (data a))) else Fault OutOfBounds.

Fixpoint copy_fragment_loop (a : allocated_headers) (f frag_idx : nat) : res (option nat) :=
  match frag_idx with
  | O => Ok (Some f)
  | S frag_idx =>
      fr ← get_frag a f;
      if (fnext fr =? 0)%nat then Ok None else copy_fragment_loop a (fnext fr) frag_idx
  end.

(** The text and -1 or its length; [len] is the size of the destination. *)
Definition lws_hdr_copy_fragment (a : allocated_headers) (len : Z) (h frag_idx : nat) : res (Z * list Z) :=
  f ← get_index a h;
  if (f =? 0)%nat then Ok (-1, [])
  else
    o ← copy_fragment_loop a f frag_idx;
    match o with
    | None => Ok (-1, [])
    | Some f =>
        fr ← get_frag a f;
        if len <=? Z.of_nat (flen fr) then Ok (-1, [])
        else
          t ← text_at a (offset fr) (flen fr);
          Ok (Z.of_nat (flen fr), t)
    end.

(** strncpy of [flen] bytes: what follows a NUL is NULs. *)
Fixpoint until_nul_pad (l : list Z) : list Z :=
  match l with
  | [] => []
  | b :: l => if b =? 0 then replicate (S (length l)) 0 else b :: until_nul_pad l
  end.

Fixpoint copy_loop (fuel : nat) (a : allocated_headers) (h n : nat) (len : Z) (dst : list Z) : res (Z * list Z) :=
  match fuel with
  | O => Fault OutOfBounds
  | S fuel =>
      f ← get_frag a n;
      let comma := negb (fnext f =? 0)%nat && negb (h =? WSI_TOKEN_HTTP_COOKIE)%nat in
      if len <=? Z.of_nat (flen f) + (if comma then 1 else 0) then Ok (-1, dst)
      else
        t ← text_at a (offset f) (flen f);
        let dst := dst ++ until_nul_pad t ++ (if comma then [44] else []) in
        if (fnext f =? 0)%nat then Ok (0, dst)
        else copy_loop fuel a h (fnext f) (len - Z.of_nat (flen f)) dst
  end.

(** The result, and what is in the destination before its NUL. *)
Definition lws_hdr_copy (a : allocated_headers) (len : Z) (h : nat) : res (Z * list Z) :=
  toklen ← lws_hdr_total_length a h;
  if (toklen =? 0)%nat then Ok (0, [])
  else if len <=? Z.of_nat toklen then Ok (-1, [])
  else
    n ← get_index a h;
    if (n =? 0)%nat then Ok (0, [])
    else
      r ← copy_loop (length (frags a)) a h n len [];
      Ok (if r.1 <? 0 then -1 else Z.of_nat toklen, r.2).

(** The bytes the pointer points at; NULL when there is no such header. *)
Definition lws_hdr_simple_ptr (a : allocated_headers) (h : nat) : res (option (list Z)) :=
  n ← get_index a h;
  if (n =? 0)%nat then Ok None
  else f ← get_frag a n; Ok (Some (drop (offset f) (data a))).

(** ** Filling it *)

(** 0: there is room; 1: there is none. *)
Definition lws_pos_in_bounds (max : nat) (a : allocated_headers) : res Z :=
  if (pos a <? max)%nat then Ok 0
  else if (pos a =? max)%nat then Ok 1
  else Fault AssertFailed.

Fixpoint simple_create_loop (max : nat) (s : list Z) (a : allocated_headers) : res (Z * allocated_headers) :=
  m ← lws_pos_in_bounds max a;
  if negb (m =? 0) then Ok (-1, a)
  else
    match s with
    | [] => a ← put_data 0 a; Ok (0, a)
    | c :: s =>
        a ← put_data c a;
        f ← get_frag a (nfrag a);
        a ← put_frag (nfrag a) (Fragment (offset f) (S (flen f)) (fnext f)) a;
        simple_create_loop max s a
    end.

Definition lws_hdr_simple_create (max h : nat) (s : list Z) (a : allocated_headers) : res (Z * allocated_headers) :=
  let a := set_nfrag (S (nfrag a)) a in
  if (nfrag a =? WSI_TOKEN_COUNT)%nat then Ok (-1, a)
  else
    a ← put_index h (nfrag a) a;
    a ← put_frag (nfrag a) (Fragment (pos a) 0 0) a;
    simple_create_loop max s a.

Definition issue_char (max : nat) (c : Z) (a : allocated_headers) : res (Z * allocated_headers) :=
  m ← lws_pos_in_bounds max a;
  if negb (m =? 0) then Ok (-1, a)
  else
    f ← get_frag a (nfrag a);
    if (current_token_limit a =? 0)%nat || (flen f <? current_token_limit a)%nat then
      a ← put_data c a;
      if negb (c =? 0) then
        a ← put_frag (nfrag a) (Fragment (offset f) (S (flen f)) (fnext f)) a;
        Ok (0, a)
      else Ok (0, a)
    else if (flen f =? current_token_limit a)%nat then
      m ← lws_pos_in_bounds max a;
      if negb (m =? 0) then Ok (-1, a)
      else a ← put_data 0 a; Ok (1, a)
    else Ok (1, a).

(** [ah->pos--; ah->frags[ah->nfrag].len--] *)
Definition drop_char (a : allocated_headers) : res allocated_headers :=
  f ← get_frag a (nfrag a);
  put_frag (nfrag a) (Fragment (offset f) (pred (flen f)) (fnext f)) (set_pos (pred (pos a)) a).

(** The do loop; [fuel] is the length of the fragment. *)
Fixpoint back_up_loop (fuel : nat) (a : allocated_headers) : res allocated_headers :=
  match fuel with
  | O => Ok a
  | S fuel =>
      a ← drop_char a;
      f ← get_frag a (nfrag a);
      if (1 <? flen f)%nat then
        b ← get_data a (pos a);
        if negb (b =? 47) then back_up_loop fuel a else Ok a
      else Ok a
  end.

(** back up one dir level if possible *)
Definition back_up (a : allocated_headers) : res allocated_headers :=
  f ← get_frag a (nfrag a);
  if (2 <? flen f)%nat then a ← drop_char a; back_up_loop (flen f) a else Ok a.

Inductive lws_parse_urldecode_results :=
  | LPUR_CONTINUE | LPUR_SWALLOW | LPUR_FORBID | LPUR_EXCESSIVE
  | LPUR_FAIL.      (* -1 *)

#[global] Instance lpur_eq_dec : EqDecision lws_parse_urldecode_results.
Proof. solve_decision. Defined.

(** The first part: percent escapes.  The character, and whether it was
    escaped; or the early return. *)
Definition urldecode_escape (c : Z) (a : allocated_headers) :
    lws_parse_urldecode_results * Z * bool * allocated_headers :=
  match ues a with
  | URIES_IDLE =>
      if c =? 37 then (LPUR_SWALLOW, c, false, set_ues URIES_SEEN_PERCENT a)
      else (LPUR_CONTINUE, c, false, a)
  | URIES_SEEN_PERCENT =>
      if char_to_hex c <? 0 then (LPUR_FORBID, c, false, a)
      else (LPUR_SWALLOW, c, false, set_ues URIES_SEEN_PERCENT_H1 (set_esc_stash c a))
  | URIES_SEEN_PERCENT_H1 =>
      if char_to_hex c <? 0 then (LPUR_FORBID, c, false, a)
      else (LPUR_CONTINUE, Z.lor (Z.shiftl (char_to_hex (esc_stash a)) 4) (char_to_hex c), true, set_ues URIES_IDLE a)
  end.

(** [ah->frags[ah->nfrag]] starts at the next byte but one. *)
Definition next_fragment (a : allocated_headers) : res allocated_headers :=
  let a := set_pos (S (pos a)) a in
  put_frag (nfrag a) (Fragment (pos a) 0 0) a.

(** The case URIPS_IDLE of the second part. *)
Definition urldecode_idle (max : nat) (c : Z) (enc : bool) (a : allocated_headers) :
    res (lws_parse_urldecode_results * Z * allocated_headers) :=
  if c =? 0 then Ok (LPUR_FAIL, c, a)
  else if ((c =? 38) || (c =? 59)) && negb enc then
    '(r, a) ← issue_char max 0 a;
    if r <? 0 then Ok (LPUR_FAIL, c, a)
    else
      f ← get_frag a (nfrag a);
      a ← put_frag (nfrag a) (Fragment (offset f) (flen f) (S (nfrag a))) a;
      let a := set_nfrag (S (nfrag a)) a in
      if (WSI_TOKEN_COUNT <=? nfrag a)%nat then Ok (LPUR_EXCESSIVE, c, a)
      else
        a ← next_fragment (set_post_literal_equal false a);
        Ok (LPUR_SWALLOW, c, a)
  else
    args ← get_index a WSI_TOKEN_HTTP_URI_ARGS;
    let c := if (c =? 61) && enc && negb (args =? 0)%nat && negb (post_literal_equal a) then 95 else c in
    let a := if (c =? 61) && negb enc then set_post_literal_equal true a else a in
    let c := if (c =? 43) && negb enc then 32 else c in
    let a := if (c =? 47) && (args =? 0)%nat then set_ups URIPS_SEEN_SLASH a else a in
    Ok (LPUR_CONTINUE, c, a).

Definition urldecode_path (max : nat) (c : Z) (enc : bool) (a : allocated_headers) :
    res (lws_parse_urldecode_results * Z * allocated_headers) :=
  match ups a with
  | URIPS_IDLE => urldecode_idle max c enc a
  | URIPS_SEEN_SLASH =>
      if c =? 47 then Ok (LPUR_SWALLOW, c, a)
      else if c =? 46 then Ok (LPUR_SWALLOW, c, set_ups URIPS_SEEN_SLASH_DOT a)
      else Ok (LPUR_CONTINUE, c, set_ups URIPS_IDLE a)
  | URIPS_SEEN_SLASH_DOT =>
      if c =? 46 then Ok (LPUR_SWALLOW, c, set_ups URIPS_SEEN_SLASH_DOT_DOT a)
      else if c =? 47 then Ok (LPUR_SWALLOW, c, set_ups URIPS_SEEN_SLASH a)
      else
        '(r, a) ← issue_char max 46 (set_ups URIPS_IDLE a);
        Ok (if r <? 0 then LPUR_FAIL else LPUR_CONTINUE, c, a)
  | URIPS_SEEN_SLASH_DOT_DOT =>
      if (c =? 47) || (c =? 63) then
        a ← back_up a;
        let a := set_ups URIPS_SEEN_SLASH a in
        f ← get_frag a (nfrag a);
        Ok (if (1 <? flen f)%nat then LPUR_CONTINUE else LPUR_SWALLOW, c, a)
      else
        '(r, a) ← issue_char max 46 a;
        if r <? 0 then Ok (LPUR_FAIL, c, a)
        else
          '(r, a) ← issue_char max 46 a;
          if r <? 0 then Ok (LPUR_FAIL, c, a) else Ok (LPUR_CONTINUE, c, set_ups URIPS_IDLE a)
  end.

(** The last part: the start of the URI's arguments. *)
Definition urldecode_args (max : nat) (c : Z) (enc : bool) (a : allocated_headers) :
    res (lws_parse_urldecode_results * Z * allocated_headers) :=
  args ← get_index a WSI_TOKEN_HTTP_URI_ARGS;
  if (c =? 63) && negb enc && (args =? 0)%nat then
    if negb (bool_decide (ues a = URIES_IDLE)) then Ok (LPUR_FORBID, c, a)
    else
      '(r, a) ← issue_char max 0 a;
      if r <? 0 then Ok (LPUR_FAIL, c, a)
      else
        let a := set_nfrag (S (nfrag a)) a in
        if (WSI_TOKEN_COUNT <=? nfrag a)%nat then Ok (LPUR_EXCESSIVE, c, a)
        else
          a ← next_fragment a;
          a ← put_index WSI_TOKEN_HTTP_URI_ARGS (nfrag a) (set_post_literal_equal false a);
          Ok (LPUR_SWALLOW, c, set_ups URIPS_IDLE a)
  else Ok (LPUR_CONTINUE, c, a).

Definition lws_parse_urldecode (max : nat) (c : Z) (a : allocated_headers) :
    res (lws_parse_urldecode_results * Z * allocated_headers) :=
  match urldecode_escape c a with
  | (LPUR_CONTINUE, c, enc, a) =>
      '(r, c, a) ← urldecode_path max c enc a;
      match r with
      | LPUR_CONTINUE => urldecode_args max c enc a
      | r => Ok (r, c, a)
      end
  | (r, c, _, a) => Ok (r, c, a)
  end.

Definition methods : list nat :=
  [WSI_TOKEN_GET_URI; WSI_TOKEN_POST_URI; WSI_TOKEN_OPTIONS_URI; WSI_TOKEN_PUT_URI; WSI_TOKEN_PATCH_URI;
   WSI_TOKEN_DELETE_URI; WSI_TOKEN_CONNECT; WSI_TOKEN_HEAD_URI].

Definition is_method (t : nat) : bool := existsb (Nat.eqb t) methods.

(** How the handling of a character ends: the loop goes on, it returns 0 at
    the end of the headers, -1, -1 after a 403 was sent, or 2. *)
Inductive char_end := CGo | CComplete | CFail | CForbid | CRaw.

#[global] Instance char_end_eq_dec : EqDecision char_end.
Proof. solve_decision. Defined.

(** The last fragment of a chain. *)
Fixpoint last_frag (fuel : nat) (a : allocated_headers) (n : nat) : res nat :=
  match fuel with
  | O => Fault OutOfBounds
  | S fuel => f ← get_frag a n; if (fnext f =? 0)%nat then Ok n else last_frag fuel a (fnext f)
  end.

(** The label excessive. *)
Definition excessive (max t : nat) (a : allocated_headers) : res (char_end * allocated_headers) :=
  if (nfrag a =? WSI_TOKEN_COUNT)%nat then Ok (CFail, a)
  else
    a ← put_frag (nfrag a) (Fragment (pos a) 0 0) a;
    n ← get_index a t;
    if (n =? 0)%nat then a ← put_index t (nfrag a) a; Ok (CGo, a)
    else
      n ← last_frag (length (frags a)) a n;
      f ← get_frag a n;
      a ← put_frag n (Fragment (offset f) (flen f) (nfrag a)) a;
      '(r, a) ← issue_char max 32 a;
      Ok (if r <? 0 then CFail else CGo, a).

(** The label start_fragment, for the token [t] that is the parser's state. *)
Definition start_fragment (max t : nat) (a : allocated_headers) : res (char_end * allocated_headers) :=
  excessive max t (set_nfrag (S (nfrag a)) a).

(** The label check_eol. *)
Definition check_eol (max t : nat) (c : Z) (a : allocated_headers) : res (char_end * allocated_headers) :=
  let cr := negb (t =? WSI_TOKEN_CHALLENGE)%nat && (c =? 13) in
  if cr && negb (bool_decide (ues a = URIES_IDLE)) then Ok (CForbid, a)
  else
    let a := if cr then set_parser_state WSI_TOKEN_SKIPPING_SAW_CR a else a in
    let c := if cr then 0 else c in
    '(n, a) ← issue_char max c a;
    if n <? 0 then Ok (CFail, a)
    else
      let a := if 0 <? n then set_parser_state WSI_TOKEN_SKIPPING a else a in
      Ok (if bool_decide (parser_state a = WSI_TOKEN WSI_TOKEN_CHALLENGE) then CComplete else CGo, a).

(** The state of a token: collect its text. *)
Definition collect_char (max t : nat) (c : Z) (a : allocated_headers) : res (char_end * allocated_headers) :=
  i ← get_index a t;
  f ← get_frag a i;
  if (flen f =? 0)%nat && (c =? 32) then Ok (CGo, a)
  else if negb (is_method t) then check_eol max t c a
  else if c =? 32 then
    f ← get_frag a (nfrag a);
    '(r, a) ← (if (flen f =? 0)%nat then issue_char max 47 a else Ok (0, a));
    if r <? 0 then Ok (CFail, a)
    else
      a ← (if bool_decide (ups a = URIPS_SEEN_SLASH_DOT_DOT) then back_up a else Ok a);
      '(r, a) ← issue_char max 0 a;
      if r <? 0 then Ok (CFail, a)
      else start_fragment max WSI_TOKEN_HTTP (set_parser_state (WSI_TOKEN WSI_TOKEN_HTTP) a)
  else
    '(r, c, a) ← lws_parse_urldecode max c a;
    match r with
    | LPUR_CONTINUE => check_eol max t c a
    | LPUR_SWALLOW => Ok (CGo, a)
    | LPUR_FORBID => Ok (CForbid, a)
    | LPUR_EXCESSIVE => excessive max t a
    | LPUR_FAIL => Ok (CFail, a)
    end.

Definition tolower (c : Z) : Z := if (65 <=? c) && (c <=? 90) then c + 32 else c.

Definition has_method (a : allocated_headers) : bool :=
  existsb (λ m, match frag_index a !! m with Some n => negb (n =? 0)%nat | None => false end) methods.

(** A name that is known: [n] is what the table says. *)
Definition known_name (x : http_context) (n : nat) (a : allocated_headers) : res (char_end * allocated_headers) :=
  let max := max_http_header_data x in
  dup ← (if is_method n then i ← get_index a n; Ok (negb (i =? 0)%nat) else Ok false);
  if dup : bool then Ok (CFail, a)
  else
    let n := if (n =? WSI_TOKEN_SWORIGIN)%nat then WSI_TOKEN_ORIGIN else n in
    let a := set_ups URIPS_IDLE (set_parser_state (WSI_TOKEN n) a) in
    limit ← match token_limits x with
            | Some l => match l !! n with Some m => Ok m | None => Fault OutOfBounds end
            | None => Ok max
            end;
    let a := set_current_token_limit limit a in
    if (n =? WSI_TOKEN_CHALLENGE)%nat then Ok (CComplete, a) else start_fragment max n a.

Definition name_char (x : http_context) (c : Z) (a : allocated_headers) : res (char_end * allocated_headers) :=
  let c := tolower c in
  p ← match lextable_pos a with Some p => Ok p | None => Fault OutOfBounds end;
  o ← lex_step lex_fuel p c;
  let a := set_lextable_pos o a in
  match o with
  | None =>
      if h1_server x then
        if has_method a then Ok (CGo, set_parser_state WSI_TOKEN_SKIPPING a)
        else if fallback_to_raw x then Ok (CRaw, a) else Ok (CForbid, a)
      else Ok (CGo, set_parser_state WSI_TOKEN_SKIPPING a)
  | Some p =>
      b ← lextable_at p;
      if b <? FAIL_CHAR then
        b1 ← lextable_at (S p);
        known_name x (Z.to_nat (Z.lor (Z.shiftl b 8) b1)) a
      else Ok (CGo, a)
  end.

(** The switch on the parser's state. *)
Definition parse_char (x : http_context) (c : Z) (a : allocated_headers) : res (char_end * allocated_headers) :=
  match parser_state a with
  | WSI_TOKEN t => collect_char (max_http_header_data x) t c a
  | WSI_TOKEN_NAME_PART => name_char x c a
  | WSI_TOKEN_SKIPPING =>
      Ok (CGo, if c =? 13 then set_parser_state WSI_TOKEN_SKIPPING_SAW_CR a else a)
  | WSI_TOKEN_SKIPPING_SAW_CR =>
      if negb (bool_decide (ues a = URIES_IDLE)) then Ok (CForbid, a)
      else if c =? 10 then Ok (CGo, set_lextable_pos (Some 0%nat) (set_parser_state WSI_TOKEN_NAME_PART a))
      else Ok (CGo, set_parser_state WSI_TOKEN_SKIPPING a)
  | WSI_PARSING_COMPLETE => Ok (CGo, a)
  end.

(** The label set_parsing_complete: [false] when it goes to forbid. *)
Definition set_parsing_complete (w : hcon) : res (bool * hcon) :=
  let a := ah w in
  if negb (bool_decide (ues a = URIES_IDLE)) then Ok (false, w)
  else
    up ← lws_hdr_total_length a WSI_TOKEN_UPGRADE;
    ver ← lws_hdr_total_length a WSI_TOKEN_VERSION;
    t ← (if negb (up =? 0)%nat && negb (ver =? 0)%nat then
           p ← lws_hdr_simple_ptr a WSI_TOKEN_VERSION;
           match p with
           | Some p => match c_str p with Some s => Ok (s8 (atoi s)) | None => Fault OutOfBounds end
           | None => Fault NullDeref
           end
         else Ok (rx_frame_type w));
    Ok (true, Hcon (set_parser_state WSI_PARSING_COMPLETE a) t true).

(** The result of lws_parse; PForbidden is -1 after
    lws_return_http_status(403). *)
Inductive parse_result := PZero | PFailed | PForbidden | PRaw.

#[global] Instance parse_result_eq_dec : EqDecision parse_result.
Proof. solve_decision. Defined.

(** The loop; with what is left of the buffer.  The callers give it at least
    one character. *)
Fixpoint lws_parse (x : http_context) (buf : list Z) (w : hcon) : res (parse_result * list Z * hcon) :=
  match buf with
  | [] => Ok (PZero, [], w)
  | c :: buf =>
      '(e, a) ← parse_char x c (ah w);
      let w := Hcon a (rx_frame_type w) (hdr_parsing_completed w) in
      match e with
      | CGo => lws_parse x buf w
      | CComplete =>
          '(ok, w) ← set_parsing_complete w;
          Ok (if ok : bool then PZero else PForbidden, buf, w)
      | CFail => Ok (PFailed, buf, w)
      | CForbid => Ok (PForbidden, buf, w)
      | CRaw => Ok (PRaw, buf, w)
      end
  end.
