(* ===== verification/HttpSafe.v ===== *)
(** * The HTTP/1 parser: memory safety

    The invariant of the header store and that every step of lws_parse keeps
    it: stores stay inside the text and the arrays, chains of fragments end,
    and every header that is complete has its NUL.  The claims: the only fault
    of the parser is its own assert, which needs a separator of the URI; the
    functions that read the store never fault; and the assert can be reached. *)

From stdpp Require Import base numbers list strings.
From Stdlib Require Import ZArith Lia Ascii.
From S2P Require Import Prelude Text HttpHead Lex HttpParse.

(** ** The invariant *)

Definition cur (a : allocated_headers) : lws_fragment := default (Fragment 0 0 0) (frags a !! nfrag a).

Definition nul_in (a : allocated_headers) (lo hi : nat) : Prop :=
  ∃ j, (lo ≤ j < hi)%nat ∧ data a !! j = Some 0.

(** A fragment before the current one: its text is before the current one's,
    ends in a NUL, and it is followed only by later ones. *)
Definition sealed (a : allocated_headers) (i : nat) (f : lws_fragment) : Prop :=
  (offset f + flen f ≤ offset (cur a))%nat
  ∧ (fnext f = 0 ∨ i < fnext f ≤ nfrag a)%nat
  ∧ (i = 0%nat ∨ nul_in a (offset f) (offset (cur a))).

Definition wf_ah (max : nat) (a : allocated_headers) : Prop :=
  length (data a) = max ∧ length (frags a) = WSI_TOKEN_COUNT ∧ length (frag_index a) = WSI_TOKEN_COUNT
  ∧ (nfrag a < WSI_TOKEN_COUNT)%nat
  ∧ (∀ i f, (i < nfrag a)%nat → frags a !! i = Some f → sealed a i f)
  ∧ (offset (cur a) + flen (cur a) ≤ pos a)%nat ∧ fnext (cur a) = 0%nat
  ∧ ∀ t n, frag_index a !! t = Some n → (n ≤ nfrag a)%nat.

(** The current fragment is not over the limit of its token. *)
Definition limit_ok (a : allocated_headers) : Prop :=
  (current_token_limit a = 0 ∨ flen (cur a) ≤ current_token_limit a)%nat.

(** The current fragment is complete. *)
Definition terminated (a : allocated_headers) : Prop :=
  nfrag a = 0%nat ∨ nul_in a (offset (cur a)) (pos a).

(** What the parser's state adds. *)
Definition wf_state (max : nat) (a : allocated_headers) : Prop :=
  match parser_state a with
  | WSI_TOKEN t => (t < WSI_TOKEN_COUNT)%nat ∧ t ≠ WSI_TOKEN_CHALLENGE ∧ limit_ok a
                   ∧ (pos a ≤ max ∨ is_method t = true ∧ pos a = S max)%nat
  | WSI_TOKEN_NAME_PART =>
      (pos a ≤ max)%nat ∧ terminated a ∧ ∃ p l, lextable_pos a = Some p ∧ at_names p l ∧ Forall (λ e, 0 <= e.1 < 87) l
  | _ => (pos a ≤ max)%nat ∧ terminated a
  end.

Definition wf_parser (max : nat) (a : allocated_headers) : Prop := wf_ah max a ∧ wf_state max a.

(** ** Lemmas: the arrays *)

Lemma get_cur max a : wf_ah max a → get_frag a (nfrag a) = Ok (cur a).
Proof.
  intros (_ & Hf & _ & Hn & _). unfold get_frag, cur. destruct (frags a !! nfrag a) eqn:E; [done|].
  apply lookup_ge_None in E. lia.
Qed.

Lemma put_cur max a f : wf_ah max a → put_frag (nfrag a) f a = Ok (set_frags (<[nfrag a := f]> (frags a)) a).
Proof. intros (_ & Hf & _ & Hn & _). unfold put_frag. by rewrite (proj2 (Nat.ltb_lt _ _)) by lia. Qed.

Lemma cur_set_frags a f : (nfrag a < length (frags a))%nat → cur (set_frags (<[nfrag a := f]> (frags a)) a) = f.
Proof. intros H. unfold cur. cbn. by rewrite list_lookup_insert_eq by done. Qed.

Lemma get_index_ok max a t : wf_ah max a → (t < WSI_TOKEN_COUNT)%nat → ∃ n, get_index a t = Ok n ∧ (n ≤ nfrag a)%nat.
Proof.
  intros (_ & _ & Hi & _ & _ & _ & _ & Hx) Ht. unfold get_index.
  destruct (frag_index a !! t) as [n|] eqn:E; [|apply lookup_ge_None in E; lia]. exists n. split; [done|by eapply Hx].
Qed.

Lemma get_frag_ok max a n : wf_ah max a → (n ≤ nfrag a)%nat → ∃ f, get_frag a n = Ok f ∧ frags a !! n = Some f.
Proof.
  intros (_ & Hf & _ & Hn & _) Hle. unfold get_frag. destruct (frags a !! n) as [f|] eqn:E; [by exists f|].
  apply lookup_ge_None in E. lia.
Qed.

(** ** Lemmas: issuing characters *)

(** Everything but the text, the position and the length of the current
    fragment. *)
Definition same_place (a a' : allocated_headers) : Prop :=
  frag_index a' = frag_index a ∧ nfrag a' = nfrag a ∧ offset (cur a') = offset (cur a)
  ∧ current_token_limit a' = current_token_limit a ∧ lextable_pos a' = lextable_pos a
  ∧ ups a' = ups a ∧ ues a' = ues a ∧ parser_state a' = parser_state a.

Lemma same_place_refl a : same_place a a.
Proof. done. Qed.

Lemma same_place_trans a b c : same_place a b → same_place b c → same_place a c.
Proof. intros (? & ? & ? & ? & ? & ? & ? & ?) (? & ? & ? & ? & ? & ? & ? & ?). split_and!; by etrans. Qed.

Lemma nul_in_insert a lo hi i c d :
  nul_in a lo hi → data d = <[i := c]> (data a) → (hi ≤ i)%nat → nul_in d lo hi.
Proof.
  intros (j & Hj & E) Ed Hi. exists j. split; [done|]. rewrite Ed. by rewrite list_lookup_insert_ne by lia.
Qed.

(** A character stored at [pos], [len] the new length. *)
Definition stored (c : Z) (len : nat) (a : allocated_headers) : allocated_headers :=
  set_frags (<[nfrag a := Fragment (offset (cur a)) len (fnext (cur a))]> (frags a))
    (set_pos (S (pos a)) (set_data (<[pos a := c]> (data a)) a)).

Lemma stored_same_len c a :
  frags a !! nfrag a = Some (cur a) →
  stored c (flen (cur a)) a = set_pos (S (pos a)) (set_data (<[pos a := c]> (data a)) a).
Proof.
  intros H. unfold stored. replace (Fragment _ _ _) with (cur a) by by destruct (cur a).
  rewrite list_insert_id by done. done.
Qed.

Lemma lookup_cur max a : wf_ah max a → frags a !! nfrag a = Some (cur a).
Proof. intros H. pose proof (get_cur max a H) as E. unfold get_frag in E. case_match; [by injection E as ->|done]. Qed.

Lemma wf_stored max c len a :
  wf_ah max a → (pos a < max)%nat → (len ≤ S (flen (cur a)))%nat → (offset (cur a) + len ≤ S (pos a))%nat →
  (current_token_limit a = 0 ∨ len ≤ current_token_limit a)%nat →
  wf_ah max (stored c len a) ∧ limit_ok (stored c len a) ∧ same_place a (stored c len a) ∧ pos (stored c len a) = S (pos a)
  ∧ flen (cur (stored c len a)) = len ∧ (c = 0 → terminated (stored c len a)).
Proof.
  intros (H1 & H2 & H3 & H4 & H5 & H6 & H7 & H8) Hp Hl Ho Hlim.
  assert (cur (stored c len a) = Fragment (offset (cur a)) len (fnext (cur a))) as Ec.
  { unfold cur at 1, stored. cbn. rewrite list_lookup_insert_eq by lia. done. }
  assert (pos (stored c len a) = S (pos a)) as Ep by done.
  split_and!; try done; rewrite ?Ec; try done.
  - unfold wf_ah. rewrite Ec, Ep. cbn [stored data frags frag_index nfrag current_token_limit set_frags set_pos set_data offset flen fnext].
    rewrite !length_insert. split_and!; try done.
    intros i f Hi Hf. rewrite list_lookup_insert_ne in Hf by lia. destruct (H5 i f Hi Hf) as (A & B & C).
    unfold sealed. rewrite Ec. split_and!; try done. destruct C as [C|C]; [by left|right].
    eapply (nul_in_insert a _ _ (pos a) c); [done|done|]. cbn. lia.
  - unfold limit_ok. by rewrite Ec.
  - unfold same_place. rewrite Ec. split_and!; done.
  - intros ->. right. rewrite Ec, Ep. exists (pos a). cbn. split; [lia|]. by rewrite list_lookup_insert_eq by lia.
Qed.

(** What issuing a character gives: the new state, with more text. *)
Definition issued (max : nat) (c : Z) (a : allocated_headers) (r : Z) (a' : allocated_headers) : Prop :=
  wf_ah max a' ∧ limit_ok a' ∧ same_place a a' ∧ (pos a ≤ pos a' ≤ max)%nat
  ∧ (0 < r → terminated a') ∧ (c = 0 → 0 <= r → terminated a').

Lemma issue_char_ok max c a :
  wf_ah max a → limit_ok a → (pos a ≤ max)%nat → ∃ r a', issue_char max c a = Ok (r, a') ∧ issued max c a r a'.
Proof.
  intros Hw H9 Hp. unfold issue_char, lws_pos_in_bounds. destruct (pos a <? max)%nat eqn:Elt.
  2:{ rewrite (proj2 (Nat.eqb_eq (pos a) max)) by (apply Nat.ltb_ge in Elt; lia). cbn [mbind res_bind Z.eqb negb].
      exists (-1), a. split; [done|]. split_and!; try done; lia. }
  apply Nat.ltb_lt in Elt. cbn [mbind res_bind Z.eqb negb]. rewrite (get_cur max) by done. cbn [mbind res_bind].
  pose proof Hw as (H1 & H2 & H3 & H4 & H5 & H6 & H7 & H8). pose proof (lookup_cur max a Hw) as Hc.
  assert (put_data c a = Ok (set_pos (S (pos a)) (set_data (<[pos a := c]> (data a)) a))
    ∧ put_data 0 a = Ok (set_pos (S (pos a)) (set_data (<[pos a := 0]> (data a)) a))) as [Ed Ed0].
  { unfold put_data. rewrite H1, (proj2 (Nat.ltb_lt _ _)) by lia. done. }
  destruct (_ || _) eqn:Elim.
  - rewrite Ed. cbn [mbind res_bind]. destruct (c =? 0) eqn:E0; cbn [negb].
    + apply Z.eqb_eq in E0 as ->. rewrite <- stored_same_len by done.
      destruct (wf_stored max 0 (flen (cur a)) a) as (W & LO & SP & P & L & T); try done; try lia.
      eexists _, _. split; [reflexivity|]. split_and!; try done; rewrite ?P; lia || (intros; by apply T).
    + cbn [set_pos set_data nfrag]. change (put_frag (nfrag a) ?f ?b) with (put_frag (nfrag b) f b).
      unfold put_frag. cbn [set_pos set_data frags nfrag]. rewrite (proj2 (Nat.ltb_lt _ _)) by lia. cbn [mbind res_bind].
      destruct (wf_stored max c (S (flen (cur a))) a) as (W & LO & SP & P & L & T); try done; try lia.
      { apply orb_true_iff in Elim as [El|El]; [left; by apply Nat.eqb_eq|right; apply Nat.ltb_lt in El; lia]. }
      exists 0, (stored c (S (flen (cur a))) a). split; [done|]. apply Z.eqb_neq in E0. split_and!; try done; lia.
  - apply orb_false_iff in Elim as [El1 El2]. apply Nat.eqb_neq in El1. apply Nat.ltb_ge in El2.
    destruct H9 as [H9|H9]; [done|].
    rewrite (proj2 (Nat.eqb_eq _ _)) by lia. cbn [mbind res_bind].
    rewrite Ed0. cbn [mbind res_bind]. rewrite <- stored_same_len by done.
    destruct (wf_stored max 0 (flen (cur a)) a) as (W & LO & SP & P & L & T); try done; try lia.
    eexists _, _. split; [reflexivity|]. split_and!; try done; rewrite ?P; lia || (intros; by apply T).
Qed.

(** ** Lemmas: results that may fail their assert *)

(** No fault but a failing assert, which needs [Q]; else [P]. *)
Definition safe {A} (Q : Prop) (r : res A) (P : A → Prop) : Prop :=
  match r with Ok x => P x | Fault f => f = AssertFailed ∧ Q end.

Lemma safe_bind {A B} Q (r : res A) (k : A → res B) R P :
  safe Q r R → (∀ x, R x → safe Q (k x) P) → safe Q (r ≫= k) P.
Proof. destruct r; cbn; auto. Qed.

Lemma safe_mono {A} Q (r : res A) (R P : A → Prop) : safe Q r R → (∀ x, R x → P x) → safe Q r P.
Proof. destruct r; cbn; auto. Qed.

Lemma safe_weaken {A} (Q Q' : Prop) (r : res A) P : safe Q r P → (Q → Q') → safe Q' r P.
Proof. destruct r; cbn; naive_solver. Qed.

Lemma safe_ex {A} Q (r : res A) (P : A → Prop) : (∃ x, r = Ok x ∧ P x) → safe Q r P.
Proof. by intros (x & -> & H). Qed.

Lemma issue_char_safe max c a :
  wf_ah max a → limit_ok a → (pos a ≤ S max)%nat →
  safe (pos a = S max) (issue_char max c a) (λ x, issued max c a x.1 x.2).
Proof.
  intros Hw Hl Hp. destruct (decide (pos a ≤ max)%nat) as [H|H].
  - destruct (issue_char_ok max c a Hw Hl H) as (r & a' & -> & Hi). done.
  - unfold issue_char, lws_pos_in_bounds. rewrite (proj2 (Nat.ltb_ge (pos a) max)), (proj2 (Nat.eqb_neq (pos a) max)) by lia.
    cbn. split; [done|]. lia.
Qed.

Lemma issue_char_safe' max Q c a :
  wf_ah max a → limit_ok a → (pos a ≤ max)%nat →
  safe Q (issue_char max c a) (λ x, issued max c a x.1 x.2).
Proof. intros Hw Hl H. destruct (issue_char_ok max c a Hw Hl H) as (r & a' & -> & Hi). done. Qed.

(** ** Lemmas: going back *)

(** One character less. *)
Definition shorter (a : allocated_headers) : allocated_headers :=
  set_frags (<[nfrag a := Fragment (offset (cur a)) (pred (flen (cur a))) (fnext (cur a))]> (frags a)) (set_pos (pred (pos a)) a).

Lemma drop_char_ok max a : wf_ah max a → drop_char a = Ok (shorter a).
Proof.
  intros Hw. unfold drop_char. rewrite (get_cur max) by done. cbn [mbind res_bind]. unfold put_frag. cbn [nfrag frags set_pos].
  destruct Hw as (_ & H2 & _ & H4 & _). by rewrite (proj2 (Nat.ltb_lt _ _)) by lia.
Qed.

Lemma cur_shorter max a : wf_ah max a →
  cur (shorter a) = Fragment (offset (cur a)) (pred (flen (cur a))) (fnext (cur a)).
Proof.
  intros (_ & H2 & _ & H4 & _). unfold cur at 1, shorter. cbn. by rewrite list_lookup_insert_eq by lia.
Qed.

Lemma wf_shorter max a :
  wf_ah max a → (0 < flen (cur a))%nat →
  wf_ah max (shorter a) ∧ same_place a (shorter a) ∧ (limit_ok a → limit_ok (shorter a)).
Proof.
  intros Hw Hl. pose proof (cur_shorter max a Hw) as Ec. destruct Hw as (H1 & H2 & H3 & H4 & H5 & H6 & H7 & H8).
  split_and!.
  - unfold wf_ah. rewrite Ec. cbn [shorter data frags frag_index nfrag set_frags set_pos pos offset flen fnext].
    rewrite length_insert. split_and!; try done; [|lia].
    intros i f Hi Hf. rewrite list_lookup_insert_ne in Hf by lia. destruct (H5 i f Hi Hf) as (A & B & C).
    unfold sealed. rewrite Ec. done.
  - unfold same_place. by rewrite Ec.
  - unfold limit_ok. rewrite Ec. cbn. lia.
Qed.

Lemma back_up_loop_ok max fuel a :
  wf_ah max a → limit_ok a → (pos a ≤ max)%nat → (1 < flen (cur a))%nat →
  ∃ a', back_up_loop fuel a = Ok a' ∧ wf_ah max a' ∧ limit_ok a' ∧ same_place a a' ∧ (pos a' ≤ pos a)%nat.
Proof.
  revert a. induction fuel as [|fuel IH]; intros a Hw Hl Hp Hf; [by exists a|]. cbn [back_up_loop].
  rewrite (drop_char_ok max) by done. cbn [mbind res_bind]. destruct (wf_shorter max a Hw ltac:(lia)) as (W & SP & L).
  rewrite (get_cur max) by done. cbn [mbind res_bind].
  assert (∃ a', Ok (shorter a) = Ok a' ∧ wf_ah max a' ∧ limit_ok a' ∧ same_place a a' ∧ (pos a' ≤ pos a)%nat) as Hnow.
  { eexists. split; [done|]. split_and!; auto. cbn. lia. }
  destruct (1 <? flen (cur (shorter a)))%nat eqn:E1; [|done]. apply Nat.ltb_lt in E1.
  unfold get_data. destruct (data (shorter a) !! pos (shorter a)) as [b|] eqn:Eb.
  2:{ apply lookup_ge_None in Eb. cbn in Eb. destruct Hw as (H1 & _ & _ & _ & _ & H6 & _). lia. }
  cbn [mbind res_bind]. destruct (negb (b =? 47)); [|done].
  destruct (IH (shorter a)) as (a' & -> & Wa & La & SPa & Pa); [done|auto|cbn; lia|done|]. exists a'. split_and!; try done.
  - by eapply same_place_trans.
  - cbn in Pa. lia.
Qed.

Lemma back_up_ok max a :
  wf_ah max a → limit_ok a → (pos a ≤ S max)%nat →
  ∃ a', back_up a = Ok a' ∧ wf_ah max a' ∧ limit_ok a' ∧ same_place a a' ∧ (pos a' ≤ pos a)%nat.
Proof.
  intros Hw Hl Hp. unfold back_up. rewrite (get_cur max) by done. cbn [mbind res_bind].
  destruct (2 <? flen (cur a))%nat eqn:E2; [|by exists a]. apply Nat.ltb_lt in E2.
  rewrite (drop_char_ok max) by done. cbn [mbind res_bind]. destruct (wf_shorter max a Hw ltac:(lia)) as (W & SP & L).
  destruct (back_up_loop_ok max (flen (cur a)) (shorter a)) as (a' & -> & Wa & La & SPa & Pa); try done; [auto|cbn; lia| |].
  - rewrite (cur_shorter max) by done. cbn. lia.
  - exists a'. split_and!; try done; [by eapply same_place_trans|]. cbn in Pa. lia.
Qed.

(** ** Lemmas: a new fragment *)

(** Fragment [S (nfrag a)] at [p]; linked to the one before or not. *)
Definition opened (link : bool) (p : nat) (a : allocated_headers) : allocated_headers :=
  let fs := if link then <[nfrag a := Fragment (offset (cur a)) (flen (cur a)) (S (nfrag a))]> (frags a) else frags a in
  set_frags (<[S (nfrag a) := Fragment p 0 0]> fs) (set_pos p (set_nfrag (S (nfrag a)) a)).

Lemma cur_opened max link p a :
  wf_ah max a → (S (nfrag a) < WSI_TOKEN_COUNT)%nat → cur (opened link p a) = Fragment p 0 0.
Proof.
  intros (_ & H2 & _) H. unfold cur, opened. cbn.
  rewrite list_lookup_insert_eq; [done|]. destruct link; rewrite ?length_insert; lia.
Qed.

Lemma nul_in_mono a a' lo hi hi' : nul_in a lo hi → (hi ≤ hi')%nat → data a' = data a → nul_in a' lo hi'.
Proof. intros (j & Hj & E) H Ed. exists j. rewrite Ed. split; [lia|done]. Qed.

Lemma wf_opened max link p a :
  wf_ah max a → terminated a → (pos a ≤ p)%nat → (S (nfrag a) < WSI_TOKEN_COUNT)%nat → wf_ah max (opened link p a).
Proof.
  intros Hw Ht Hp Hn. pose proof (cur_opened max link p a Hw Hn) as Ec. pose proof (lookup_cur max a Hw) as Hc.
  destruct Hw as (H1 & H2 & H3 & H4 & H5 & H6 & H7 & H8).
  unfold wf_ah. rewrite Ec. cbn [opened data frags frag_index nfrag set_frags set_pos set_nfrag pos offset flen fnext].
  split_and!; try done; [by destruct link; rewrite ?length_insert| |lia|].
  - intros i f Hi Hf. rewrite list_lookup_insert_ne in Hf by lia. unfold sealed. rewrite Ec. cbn [offset].
    destruct (decide (i = nfrag a)) as [->|Hne].
    + assert (offset f = offset (cur a) ∧ flen f = flen (cur a) ∧ (fnext f = 0 ∨ fnext f = S (nfrag a))%nat) as (-> & -> & Hnx).
      { destruct link; [rewrite list_lookup_insert_eq in Hf by lia; injection Hf as <-; auto|].
        rewrite Hc in Hf. injection Hf as <-. auto. }
      split_and!; [lia|cbn; destruct Hnx; [by left|right; lia]|].
      destruct Ht as [Ht|Ht]; [by left|right]. by eapply nul_in_mono.
    + assert (frags a !! i = Some f) as Hf' by (destruct link; [by rewrite list_lookup_insert_ne in Hf|done]).
      destruct (H5 i f ltac:(lia) Hf') as (A & B & C). split_and!; [lia|destruct B; [by left|right; cbn; lia]|].
      destruct C as [C|C]; [by left|right]. eapply nul_in_mono; [done|lia|done].
  - intros t n Hi. specialize (H8 t n Hi). lia.
Qed.

(** The last fragment of a chain, among the first [m]. *)
Lemma last_frag_ok a m n fuel :
  (∀ i, (i ≤ m)%nat → ∃ f, frags a !! i = Some f ∧ (fnext f = 0 ∨ i < fnext f ≤ m)%nat) →
  (n ≤ m)%nat → (m - n < fuel)%nat →
  ∃ n' f, last_frag fuel a n = Ok n' ∧ (n ≤ n' ≤ m)%nat ∧ frags a !! n' = Some f ∧ fnext f = 0%nat.
Proof.
  intros Hc. revert n. induction fuel as [|fuel IH]; intros n Hn Hf; [lia|]. cbn [last_frag].
  destruct (Hc n Hn) as (f & Ef & Hx). unfold get_frag. rewrite Ef. cbn [mbind res_bind].
  destruct (fnext f =? 0)%nat eqn:E0.
  - apply Nat.eqb_eq in E0. exists n, f. split_and!; done || lia.
  - apply Nat.eqb_neq in E0. destruct (IH (fnext f)) as (n' & f' & -> & Hn' & Ef' & Ez); [lia..|].
    exists n', f'. split_and!; done || lia.
Qed.

(** A chain extended to the current fragment. *)
Lemma wf_linked max a n f :
  wf_ah max a → (n < nfrag a)%nat → frags a !! n = Some f →
  let a' := set_frags (<[n := Fragment (offset f) (flen f) (nfrag a)]> (frags a)) a in
  wf_ah max a' ∧ cur a' = cur a.
Proof.
  intros (H1 & H2 & H3 & H4 & H5 & H6 & H7 & H8) Hn Hf a'.
  assert (cur a' = cur a) as Ec by (unfold cur; cbn; by rewrite list_lookup_insert_ne by lia).
  split; [|done]. unfold wf_ah. rewrite Ec. cbn [a' data frags frag_index nfrag set_frags pos]. rewrite length_insert.
  split_and!; try done. intros i g Hi Hg. unfold sealed. rewrite Ec. cbn [nfrag set_frags a'].
  destruct (decide (i = n)) as [->|Hne].
  - rewrite list_lookup_insert_eq in Hg by lia. injection Hg as <-. cbn [offset flen fnext].
    destruct (H5 n f Hi Hf) as (A & B & C). split_and!; [done|right; lia|done].
  - rewrite list_lookup_insert_ne in Hg by done. by apply H5.
Qed.

Lemma wf_indexed max a t n :
  wf_ah max a → (t < WSI_TOKEN_COUNT)%nat → (n ≤ nfrag a)%nat →
  put_index t n a = Ok (set_frag_index (<[t := n]> (frag_index a)) a)
  ∧ wf_ah max (set_frag_index (<[t := n]> (frag_index a)) a).
Proof.
  intros (H1 & H2 & H3 & H4 & H5 & H6 & H7 & H8) Ht Hn. split.
  - unfold put_index. by rewrite (proj2 (Nat.ltb_lt _ _)) by lia.
  - unfold wf_ah. cbn [data frags frag_index nfrag set_frag_index pos]. rewrite length_insert. split_and!; try done.
    intros u m Hu. destruct (decide (u = t)) as [->|Hne].
    + rewrite list_lookup_insert_eq in Hu by lia. by injection Hu as <-.
    + rewrite list_lookup_insert_ne in Hu by done. cbn. by eapply H8.
Qed.

(** ** Lemmas: the labels of lws_parse *)

(** The loop may go on from [a']. *)
Definition goes_on (max t : nat) (x : char_end * allocated_headers) : Prop :=
  x.1 = CFail ∨ x.1 = CGo ∧ wf_ah max x.2 ∧ limit_ok x.2 ∧ parser_state x.2 = WSI_TOKEN t ∧ (pos x.2 ≤ max)%nat.

Lemma start_fragment_safe max Q t a :
  wf_ah max a → terminated a → (pos a ≤ max)%nat → (t < WSI_TOKEN_COUNT)%nat → parser_state a = WSI_TOKEN t →
  safe Q (start_fragment max t a) (goes_on max t).
Proof.
  intros Hw Htm Hp Ht Hst. unfold start_fragment, excessive. cbn [nfrag set_nfrag].
  destruct (S (nfrag a) =? WSI_TOKEN_COUNT)%nat eqn:En; [by left|]. apply Nat.eqb_neq in En.
  pose proof Hw as (H1 & H2 & H3 & H4 & H5 & H6 & H7 & H8).
  assert (S (nfrag a) < WSI_TOKEN_COUNT)%nat as Hn by lia.
  pose proof (wf_opened max false (pos a) a Hw Htm ltac:(lia) Hn) as Wo.
  pose proof (cur_opened max false (pos a) a Hw Hn) as Ec.
  assert (limit_ok (opened false (pos a) a)) as Lo by (unfold limit_ok; rewrite Ec; cbn; lia).
  assert (put_frag (S (nfrag a)) (Fragment (pos (set_nfrag (S (nfrag a)) a)) 0 0) (set_nfrag (S (nfrag a)) a)
          = Ok (opened false (pos a) a)) as ->.
  { unfold put_frag. cbn [frags set_nfrag pos]. by rewrite (proj2 (Nat.ltb_lt _ _)) by lia. }
  cbn [mbind res_bind]. destruct (get_index_ok max a t Hw Ht) as (n & Ei & Hin).
  change (get_index (opened false (pos a) a) t) with (get_index a t). rewrite Ei. cbn [mbind res_bind].
  destruct (n =? 0)%nat eqn:E0.
  - destruct (wf_indexed max (opened false (pos a) a) t (nfrag (opened false (pos a) a)) Wo Ht ltac:(lia)) as [-> W].
    right. split_and!; try done.
  - destruct (last_frag_ok (opened false (pos a) a) (nfrag a) n (length (frags (opened false (pos a) a))))
      as (n' & f & El & Hn' & Ef & Ez).
    + intros i Hi. destruct (get_frag_ok max a i Hw Hi) as (f & _ & Ef). exists f. cbn.
      rewrite list_lookup_insert_ne by lia. split; [done|].
      destruct (decide (i = nfrag a)) as [->|Hne].
      * left. rewrite (lookup_cur max a Hw) in Ef. by injection Ef as <-.
      * by destruct (H5 i f ltac:(lia) Ef) as (_ & ? & _).
    + done.
    + cbn. rewrite length_insert. lia.
    + rewrite El. cbn [mbind res_bind]. unfold get_frag. rewrite Ef. cbn [mbind res_bind].
      unfold put_frag. rewrite (proj2 (Nat.ltb_lt _ _)) by (apply lookup_lt_Some in Ef; done). cbn [mbind res_bind].
      destruct (wf_linked max (opened false (pos a) a) n' f Wo ltac:(cbn; lia) Ef) as [Wl Ecl].
      eapply safe_bind; [apply issue_char_safe'; [exact Wl|unfold limit_ok; rewrite Ecl; exact Lo|done]|].
      intros [r a'] (Wa & La & (_ & _ & _ & _ & _ & _ & _ & Sp) & Pa & _). cbn in Wa, La, Pa, Sp |- *.
      destruct (r <? 0); [by left|right]. cbn [fst snd]. split_and!; try done; lia || by rewrite Sp.
Qed.

(** The states that lws_parse_urldecode and check_eol start from. *)
Definition in_uri (max : nat) (a : allocated_headers) : Prop :=
  wf_ah max a ∧ limit_ok a ∧ (pos a ≤ S max)%nat.

(** The characters that move the position on by one more. *)
Definition separator (c : Z) : bool := (c =? 38) || (c =? 59) || (c =? 63).

Definition urldecoded (max : nat) (c : Z) (a : allocated_headers)
    (x : lws_parse_urldecode_results * Z * allocated_headers) : Prop :=
  let a' := x.2 in
  match x.1.1 with
  | LPUR_CONTINUE => in_uri max a' ∧ parser_state a' = parser_state a ∧ (pos a' = S max → pos a = S max)
  | LPUR_SWALLOW => in_uri max a' ∧ parser_state a' = parser_state a ∧ (pos a' = S max → pos a = S max ∨ separator c = true)
  | LPUR_EXCESSIVE => nfrag a' = WSI_TOKEN_COUNT
  | LPUR_FORBID | LPUR_FAIL => True
  end.

(** The shared end of the two separators: a NUL, and a fragment after it. *)
Lemma next_fragment_ok max link a :
  wf_ah max a → terminated a → (pos a ≤ max)%nat → (S (nfrag a) < WSI_TOKEN_COUNT)%nat →
  let a' := opened link (S (pos a)) a in
  in_uri max a' ∧ parser_state a' = parser_state a.
Proof.
  intros Hw Ht Hp Hn a'. pose proof (wf_opened max link (S (pos a)) a Hw Ht ltac:(lia) Hn) as Wo.
  split_and!; try done; [split_and!; try done; [|cbn; lia]]. unfold limit_ok, a'. rewrite (cur_opened max) by done. cbn. lia.
Qed.

Lemma urldecode_idle_safe max c enc a :
  in_uri max a → safe (pos a = S max) (urldecode_idle max c enc a)
    (λ x, urldecoded max c a x ∧ (x.1.1 = LPUR_SWALLOW → separator c = true ∧ enc = false)).
Proof.
  intros (Hw & Hl & Hp). unfold urldecode_idle. destruct (c =? 0); [done|].
  destruct (((c =? 38) || (c =? 59)) && negb enc) eqn:Esep.
  - apply andb_true_iff in Esep as [Esep Henc]. apply negb_true_iff in Henc.
    eapply safe_bind; [by apply issue_char_safe|]. intros [r a1] (W1 & L1 & S1 & P1 & _ & T1). cbn in *.
    destruct (r <? 0) eqn:Er; [done|]. apply Z.ltb_ge in Er. specialize (T1 eq_refl Er).
    rewrite (get_cur max) by done. cbn [mbind res_bind]. rewrite (put_cur max) by done. cbn [mbind res_bind].
    cbn [nfrag set_frags set_nfrag]. destruct (WSI_TOKEN_COUNT <=? S (nfrag a1))%nat eqn:En.
    { apply Nat.leb_le in En. cbn. split; [|done]. destruct W1 as (_ & _ & _ & ? & _). lia. }
    apply Nat.leb_gt in En. unfold next_fragment, put_frag.
    cbn [frags nfrag pos set_pos set_post_literal_equal set_nfrag set_frags].
    rewrite (proj2 (Nat.ltb_lt _ _)) by (rewrite length_insert; destruct W1 as (_ & ? & _); lia). cbn [mbind res_bind].
    pose proof (next_fragment_ok max true a1 W1 T1 ltac:(lia) En) as [I Ps]. cbn.
    assert (separator c = true) as Hsep by (unfold separator; by rewrite Esep).
    split; [|done]. split; [exact I|]. split; [|by right].
    destruct S1 as (_ & _ & _ & _ & _ & _ & _ & <-). exact Ps.
  - destruct (get_index_ok max a WSI_TOKEN_HTTP_URI_ARGS Hw ltac:(unfold WSI_TOKEN_HTTP_URI_ARGS, WSI_TOKEN_COUNT; lia)) as (n & -> & _).
    cbn [mbind res_bind safe]. cbv zeta. split; [|done]. cbn [urldecoded fst snd].
    repeat match goal with |- context [if ?b then set_post_literal_equal _ _ else _] => destruct b
           | |- context [if ?b then set_ups _ _ else _] => destruct b end; done.
Qed.

Lemma same_place_state a a' : same_place a a' → parser_state a' = parser_state a.
Proof. by intros (_ & _ & _ & _ & _ & _ & _ & ?). Qed.

Lemma urldecode_path_safe max c enc a :
  in_uri max a → safe (pos a = S max) (urldecode_path max c enc a)
    (λ x, urldecoded max c a x ∧ (x.1.1 = LPUR_SWALLOW → (pos x.2 = S max → pos a = S max) ∨ separator c = true ∧ enc = false)).
Proof.
  intros Hu. pose proof Hu as (Hw & Hl & Hp).
  set (P := λ x, urldecoded max c a x ∧ (x.1.1 = LPUR_SWALLOW → (pos x.2 = S max → pos a = S max) ∨ separator c = true ∧ enc = false)).
  assert (∀ u, P (LPUR_SWALLOW, c, a) ∧ P (LPUR_SWALLOW, c, set_ups u a) ∧ P (LPUR_CONTINUE, c, set_ups u a)) as Hstay.
  { intros u. unfold P, urldecoded. cbn [fst snd]. split_and!; auto. }
  unfold urldecode_path. destruct (ups a).
  - eapply safe_mono; [by apply urldecode_idle_safe|]. cbn beta. intros x [Hx Hs]. split; [done|auto].
  - destruct (c =? 47); [apply (Hstay URIPS_IDLE)|]. destruct (c =? 46); apply Hstay.
  - destruct (c =? 46); [apply Hstay|]. destruct (c =? 47); [apply Hstay|].
    eapply safe_bind; [by apply (issue_char_safe max 46 (set_ups URIPS_IDLE a))|].
    intros [r a1] (W1 & L1 & S1 & P1 & _). cbn in *. apply same_place_state in S1.
    destruct (r <? 0); (split; [|done]); [done|]. unfold urldecoded, in_uri. cbn [fst snd]. split_and!; done || lia.
  - destruct ((c =? 47) || (c =? 63)).
    + destruct (back_up_ok max a Hw Hl Hp) as (a1 & -> & W1 & L1 & S1 & P1). cbn [mbind res_bind].
      change (nfrag (set_ups URIPS_SEEN_SLASH a1)) with (nfrag a1).
      change (get_frag (set_ups URIPS_SEEN_SLASH a1) (nfrag a1)) with (get_frag a1 (nfrag a1)).
      rewrite (get_cur max) by done. cbn [mbind res_bind safe urldecoded fst snd]. apply same_place_state in S1.
      assert (in_uri max (set_ups URIPS_SEEN_SLASH a1)) as I by (split_and!; try done; cbn; lia).
      assert (pos (set_ups URIPS_SEEN_SLASH a1) = S max → pos a = S max) as Hpp by (cbn; lia).
      destruct (1 <? _)%nat; (split; [|by auto]); unfold urldecoded; cbn [fst snd]; split_and!; by auto || apply I.
    + eapply safe_bind; [by apply issue_char_safe|]. intros [r a1] (W1 & L1 & S1 & P1 & _). cbn in W1, L1, S1, P1 |- *.
      destruct (r <? 0); [done|].
      eapply safe_bind; [apply (issue_char_safe' max _ 46 a1); [done..|lia]|]. intros [r2 a2] (W2 & L2 & S2 & P2 & _).
      cbn in W2, L2, S2, P2 |- *. apply same_place_state in S1, S2.
      destruct (r2 <? 0); (split; [|done]); [done|]. unfold urldecoded, in_uri. cbn [fst snd pos parser_state set_ups].
      split_and!; done || lia || congruence.
Qed.

(** Walk through a computation that succeeded, forgetting the states. *)
Ltac peel H :=
  repeat match type of H with
  | (_ ≫= _) = Ok _ => apply bind_Ok_inv in H; destruct H as (? & _ & H)
  | (match ?x with _ => _ end) = _ => destruct x eqn:?
  end.

Lemma urldecode_path_char max c enc a r a' :
  urldecode_path max c enc a = Ok (r, 63, a') → r = LPUR_CONTINUE → c = 63.
Proof.
  unfold urldecode_path, urldecode_idle. intros H ->. cbv zeta in H. peel H; try discriminate; injection H; intros; subst;
    repeat case_match; congruence.
Qed.

Lemma urldecode_args_safe max c enc a :
  in_uri max a → safe (pos a = S max) (urldecode_args max c enc a)
    (λ x, urldecoded max 38 a x ∧ (x.1.1 = LPUR_SWALLOW → c = 63 ∧ enc = false)).
Proof.
  intros Hu. pose proof Hu as (Hw & Hl & Hp). unfold urldecode_args.
  assert (WSI_TOKEN_HTTP_URI_ARGS < WSI_TOKEN_COUNT)%nat as Hlt by (unfold WSI_TOKEN_HTTP_URI_ARGS, WSI_TOKEN_COUNT; lia).
  destruct (get_index_ok max a _ Hw Hlt) as (n & -> & _). cbn [mbind res_bind].
  destruct (_ && _) eqn:Eq; [|done]. apply andb_true_iff in Eq as [Eq _]. apply andb_true_iff in Eq as [Ec Ee].
  apply Z.eqb_eq in Ec. apply negb_true_iff in Ee. destruct (negb _); [done|].
  eapply safe_bind; [by apply issue_char_safe|]. intros [r a1] (W1 & L1 & S1 & P1 & _ & T1). cbn [fst snd] in *.
  destruct (r <? 0) eqn:Er; [done|]. apply Z.ltb_ge in Er. specialize (T1 eq_refl Er). cbn [nfrag set_nfrag].
  destruct (WSI_TOKEN_COUNT <=? S (nfrag a1))%nat eqn:En.
  { apply Nat.leb_le in En. split; [|done]. cbn. destruct W1 as (_ & _ & _ & ? & _). lia. }
  apply Nat.leb_gt in En. unfold next_fragment, put_frag. cbn [frags nfrag pos set_pos set_nfrag].
  rewrite (proj2 (Nat.ltb_lt _ _)) by (destruct W1 as (_ & ? & _); lia). cbn [mbind res_bind].
  pose proof (next_fragment_ok max false a1 W1 T1 ltac:(lia) En) as [(Wo & Lo & Po) Ps].
  set (b := set_post_literal_equal false _). change (nfrag (set_frags _ _)) with (nfrag b).
  assert (wf_ah max b) as Wb by exact Wo.
  destruct (wf_indexed max b _ (nfrag b) Wb Hlt ltac:(lia)) as [-> W]. cbn [mbind res_bind safe].
  split; [|done]. unfold urldecoded, in_uri. cbn [fst snd]. split_and!; [exact W|exact Lo|exact Po| |by right].
  apply same_place_state in S1. rewrite <- S1. exact Ps.
Qed.

Lemma lws_parse_urldecode_safe max c a :
  in_uri max a → safe (pos a = S max) (lws_parse_urldecode max c a) (urldecoded max c a).
Proof.
  intros Hu. unfold lws_parse_urldecode.
  assert (∀ r c' enc a', urldecode_escape c a = (r, c', enc, a') →
    in_uri max a' ∧ parser_state a' = parser_state a ∧ pos a' = pos a ∧ (enc = false → c' = c) ∧ r ≠ LPUR_EXCESSIVE) as He.
  { unfold urldecode_escape. intros r c' enc a'. repeat case_match; intros [= <- <- <- <-]; done. }
  destruct (urldecode_escape c a) as [[[r c'] enc] a'] eqn:E. destruct (He _ _ _ _ eq_refl) as (Hu' & Hs & Hp & Hc & Hr). clear He.
  destruct r; try done; [|unfold urldecoded; cbn; by split_and!; try done; rewrite Hp; auto].
  rewrite <- Hp. pose proof (urldecode_path_safe max c' enc a' Hu') as Hsafe.
  destruct (urldecode_path max c' enc a') as [[[r2 c2] a2]|f] eqn:E2; [|done]. cbn [safe mbind res_bind] in *.
  destruct Hsafe as [H1 H2]. unfold urldecoded in H1 |- *. cbn [fst snd] in *. destruct r2; try done.
  - destruct H1 as (Hu2 & Hs2 & Hp2). eapply safe_weaken; [|exact Hp2].
    eapply safe_mono; [by apply urldecode_args_safe|]. intros [[r3 c3] a3] [H3 H4]. unfold urldecoded in H3. cbn [fst snd] in *.
    destruct r3; try done; destruct H3 as (? & ? & H5); (split_and!; [done|congruence|]); rewrite Hp in *; [auto|].
    intros H6. destruct (H4 eq_refl) as [-> ->]. right. rewrite (Hc eq_refl) in E2.
    by rewrite (urldecode_path_char _ _ _ _ _ _ E2 eq_refl).
  - destruct H1 as (? & ? & ?). split; [done|]. split; [by etrans|]. intros H3. rewrite <- Hp.
    destruct (H2 eq_refl) as [H4|[H4 H5]]; [left; auto|right]. by rewrite <- (Hc H5).
Qed.

(** ** Lemmas: one character *)

(** What a character leads to. *)
Definition char_ok (max : nat) (c : Z) (a : allocated_headers) (x : char_end * allocated_headers) : Prop :=
  match x.1 with
  | CGo => wf_parser max x.2 ∧ (pos x.2 = S max → pos a = S max ∨ separator c = true)
  | CComplete => wf_ah max x.2 ∧ terminated x.2 ∧ (pos x.2 ≤ max)%nat
  | _ => True
  end.

Lemma goes_on_ok max t c a x :
  (t < WSI_TOKEN_COUNT)%nat → t ≠ WSI_TOKEN_CHALLENGE → goes_on max t x → char_ok max c a x.
Proof.
  intros Ht Hc. unfold char_ok. intros [-> |(-> & W & L & S & P)]; [done|]. split; [|lia]. split; [done|]. unfold wf_state.
  rewrite S. auto.
Qed.

Lemma check_eol_safe max t c0 c a :
  in_uri max a → (t < WSI_TOKEN_COUNT)%nat → t ≠ WSI_TOKEN_CHALLENGE → parser_state a = WSI_TOKEN t →
  safe (pos a = S max) (check_eol max t c a) (char_ok max c0 a).
Proof.
  intros (Hw & Hl & Hp) Ht Hc Hs. unfold check_eol. cbv zeta. destruct (_ && negb _); [done|].
  set (cr := negb (t =? WSI_TOKEN_CHALLENGE)%nat && (c =? 13)).
  set (a1 := if cr then _ else a). assert (wf_ah max a1 ∧ limit_ok a1 ∧ pos a1 = pos a) as (W1 & L1 & P1) by by destruct cr.
  rewrite <- P1 in *. eapply safe_bind; [by apply issue_char_safe|]. intros [n a2] (W2 & L2 & S2 & P2 & T2 & T2'). cbn [fst snd] in *.
  destruct (n <? 0) eqn:En; [done|]. apply Z.ltb_ge in En. apply same_place_state in S2.
  assert (parser_state a1 ≠ WSI_TOKEN WSI_TOKEN_CHALLENGE) as Hne by (unfold a1; destruct cr; [done|congruence]).
  assert (wf_parser max (if 0 <? n then set_parser_state WSI_TOKEN_SKIPPING a2 else a2)
          ∧ parser_state (if 0 <? n then set_parser_state WSI_TOKEN_SKIPPING a2 else a2) ≠ WSI_TOKEN WSI_TOKEN_CHALLENGE
          ∧ pos (if 0 <? n then set_parser_state WSI_TOKEN_SKIPPING a2 else a2) = pos a2) as (Wf & Hn & Hpp).
  { destruct (0 <? n) eqn:E0.
    - apply Z.ltb_lt in E0. split_and!; [split; [done|]|done..]. unfold wf_state. cbn. split; [lia|]. by apply T2.
    - split_and!; [split; [done|]|congruence|done]. unfold wf_state. rewrite S2. unfold a1, cr in *.
      destruct (negb _ && _); cbn [parser_state set_parser_state] in *.
      + split; [lia|]. by apply T2'.
      + rewrite Hs. split_and!; try done. left. lia. }
  rewrite bool_decide_eq_false_2 by done. unfold char_ok. cbn [fst snd safe]. split; [done|]. rewrite Hpp. lia.
Qed.

Lemma collect_char_safe max t c a :
  wf_parser max a → parser_state a = WSI_TOKEN t →
  safe (pos a = S max) (collect_char max t c a) (char_ok max c a).
Proof.
  intros [Hw Hst] Hs. pose proof Hst as Hst'. unfold wf_state in Hst'. rewrite Hs in Hst'. destruct Hst' as (Ht & Hc & Hl & Hp).
  assert (in_uri max a) as Hu by (split_and!; try done; lia).
  unfold collect_char. destruct (get_index_ok max a t Hw Ht) as (i & -> & Hi). cbn [mbind res_bind].
  destruct (get_frag_ok max a i Hw Hi) as (f & -> & _). cbn [mbind res_bind].
  destruct (_ && _); [by split; [split|left]|].
  destruct (negb (is_method t)) eqn:Em; [by apply check_eol_safe|].
  destruct (c =? 32).
  - rewrite (get_cur max) by done. cbn [mbind res_bind].
    eapply (safe_bind _ _ _ (λ x, x.1 < 0 ∨ in_uri max x.2 ∧ parser_state x.2 = parser_state a ∧ (pos x.2 = S max → pos a = S max))).
    { destruct (_ =? 0)%nat; [|by right]. eapply safe_mono; [apply issue_char_safe; [done..|apply Hu]|].
      intros [r a1] (W1 & L1 & S1 & P1 & _). right. apply same_place_state in S1. cbn in *.
      split_and!; [split_and!; try done; lia|done|lia]. }
    intros [r a1] Hr. cbn [fst snd] in Hr. destruct (r <? 0) eqn:Er; [done|]. apply Z.ltb_ge in Er.
    destruct Hr as [Hr|((W1 & L1 & P1) & S1 & Hp1)]; [lia|].
    eapply (safe_bind _ _ _ (λ b, in_uri max b ∧ parser_state b = parser_state a ∧ (pos b = S max → pos a = S max))).
    { destruct (bool_decide _); [|done]. destruct (back_up_ok max a1 W1 L1 P1) as (b & -> & Wb & Lb & Sb & Pb).
      apply same_place_state in Sb. cbn. split_and!; [split_and!; try done; lia|congruence|lia]. }
    intros b ((Wb & Lb & Pb) & Sb & Hpb).
    eapply safe_bind; [eapply safe_weaken; [by apply issue_char_safe|exact Hpb]|].
    intros [r2 a2] (W2 & L2 & S2 & P2 & _ & T2). cbn [fst snd] in *. destruct (r2 <? 0) eqn:Er2; [done|]. apply Z.ltb_ge in Er2.
    eapply safe_mono; [apply start_fragment_safe; try done|].
    + by apply T2.
    + cbn. lia.
    + unfold WSI_TOKEN_HTTP, WSI_TOKEN_COUNT. lia.
    + intros y. apply (goes_on_ok _ WSI_TOKEN_HTTP); [unfold WSI_TOKEN_HTTP, WSI_TOKEN_COUNT; lia|done].
  - eapply safe_bind; [by apply lws_parse_urldecode_safe|]. intros [[r c'] a1] H1. unfold urldecoded in H1. cbn [fst snd] in H1.
    destruct r; try done.
    + destruct H1 as (Hu1 & Hs1 & Hp1). eapply safe_mono; [eapply safe_weaken; [apply (check_eol_safe max t c c' a1)|exact Hp1]|]; try done; [congruence|].
      intros [[] a2]; unfold char_ok; cbn [fst snd]; try done. intros [? H]. split; [done|]. intros H2. destruct (H H2); auto.
    + destruct H1 as ((W1 & L1 & P1) & Hs1 & Hp1). cbn. split; [|done]. split; [done|]. unfold wf_state.
      rewrite Hs1, Hs. apply negb_false_iff in Em. split_and!; try done. destruct (decide (pos a1 ≤ max)%nat); [by left|right]. split; [done|lia].
    + unfold excessive. rewrite (proj2 (Nat.eqb_eq _ _)) by done. done.
Qed.

(** The context's limits cover every token. *)
Definition wf_context (x : http_context) : Prop :=
  match token_limits x with Some l => length l = WSI_TOKEN_COUNT | None => True end.

Lemma known_name_safe x Q c n a :
  wf_context x → wf_ah (max_http_header_data x) a → terminated a → (pos a ≤ max_http_header_data x)%nat → (n < 87)%nat →
  safe Q (known_name x n a) (char_ok (max_http_header_data x) c a).
Proof.
  intros Hx Hw Ht Hp Hn. assert (87 < WSI_TOKEN_COUNT)%nat as H87 by (unfold WSI_TOKEN_COUNT; lia). unfold known_name.
  eapply (safe_bind _ _ _ (λ _, True)).
  { destruct (is_method n); [|done]. destruct (get_index_ok _ a n Hw ltac:(lia)) as (i & -> & _). done. }
  intros dup _. destruct dup; [done|]. cbv zeta. set (n' := if (n =? WSI_TOKEN_SWORIGIN)%nat then _ else n).
  assert (n' < WSI_TOKEN_COUNT)%nat as Hn' by (unfold n', WSI_TOKEN_ORIGIN; case_match; lia).
  eapply (safe_bind _ _ _ (λ _, True)).
  { unfold wf_context in Hx. destruct (token_limits x) as [l|]; [|done].
    destruct (l !! n') as [m|] eqn:E; [done|]. apply lookup_ge_None in E. lia. }
  intros limit _. destruct (n' =? WSI_TOKEN_CHALLENGE)%nat eqn:Ec; [done|]. apply Nat.eqb_neq in Ec.
  eapply safe_mono; [by apply start_fragment_safe|]. intros y. by apply (goes_on_ok _ n').
Qed.

Lemma name_char_safe x Q c a :
  wf_context x → wf_parser (max_http_header_data x) a → parser_state a = WSI_TOKEN_NAME_PART →
  safe Q (name_char x c a) (char_ok (max_http_header_data x) c a).
Proof.
  intros Hx [Hw Hst] Hs. unfold wf_state in Hst. rewrite Hs in Hst. destruct Hst as (Hp & Ht & p & l & El & Hat & Hl).
  unfold name_char. rewrite El. cbn [mbind res_bind]. pose proof (lex_char_names p l (tolower c) Hat) as Hc. unfold lex_char in Hc.
  assert (char_ok (max_http_header_data x) c a (CGo, set_parser_state WSI_TOKEN_SKIPPING (set_lextable_pos None a))) as Hskip.
  { split; [|cbn; lia]. by split. }
  destruct (lex_step lex_fuel p (tolower c)) as [[p'|]|]; [| |done]; cbn [mbind res_bind] in *.
  - destruct (lextable_at p') as [b|]; [|done]. cbn [mbind res_bind] in *. destruct (b <? FAIL_CHAR).
    + destruct (lextable_at (S p')) as [b1|]; [|done]. cbn [mbind res_bind] in *.
      assert ((Z.lor (Z.shiftl b 8) b1, [tolower c]) ∈ l) as Hin by (apply elem_of_deriv; rewrite Hc; left).
      rewrite Forall_forall in Hl. specialize (Hl _ Hin). cbn [fst] in Hl.
      change (char_ok (max_http_header_data x) c a) with (char_ok (max_http_header_data x) c (set_lextable_pos (Some p') a)).
      apply known_name_safe; try done; lia.
    + cbn. split; [|cbn; lia]. split; [done|]. unfold wf_state. cbn. rewrite Hs. split_and!; try done.
      exists p', (deriv (tolower c) l). split_and!; try done. rewrite Forall_forall in *. intros [n w] Hin.
      apply elem_of_deriv in Hin. by apply (Hl _ Hin).
  - destruct (h1_server x); [|done]. cbn [has_method set_lextable_pos frag_index].
    destruct (has_method _); [done|]. by destruct (fallback_to_raw x).
Qed.

Lemma parse_char_safe x c a :
  wf_context x → wf_parser (max_http_header_data x) a →
  safe (pos a = S (max_http_header_data x)) (parse_char x c a) (char_ok (max_http_header_data x) c a).
Proof.
  intros Hx Hw. unfold parse_char. destruct (parser_state a) as [t| | | |] eqn:Es.
  - by apply collect_char_safe.
  - by apply name_char_safe.
  - destruct Hw as [W S]. unfold wf_state in S. rewrite Es in S. cbn. split; [|destruct (c =? 13); cbn; lia].
    split; [by destruct (c =? 13)|]. unfold wf_state. destruct (c =? 13); cbn; by rewrite ?Es.
  - destruct (negb _); [done|]. destruct Hw as [W S]. unfold wf_state in S. rewrite Es in S. destruct S as [Hp Ht].
    destruct (c =? 10); (cbn; split; [split; [done|]|cbn; lia]); [|done]. unfold wf_state. cbn. split_and!; try done.
    exists 0%nat, all_names. split_and!; [done|apply at_names_start|]. apply all_names_tokens.
  - cbn. destruct Hw as [W S]. pose proof S as S'. unfold wf_state in S'. rewrite Es in S'. split; [by split|]. lia.
Qed.

(** ** Lemmas: reading the store *)

Lemma wf_chain max a i :
  wf_ah max a → (i ≤ nfrag a)%nat →
  ∃ f, frags a !! i = Some f ∧ (fnext f = 0 ∨ i < fnext f ≤ nfrag a)%nat ∧ (offset f + flen f ≤ pos a)%nat.
Proof.
  intros Hw Hi. destruct (get_frag_ok max a i Hw Hi) as (f & _ & Ef). exists f. split; [done|].
  pose proof (lookup_cur max a Hw) as Hc. destruct Hw as (H1 & H2 & H3 & H4 & H5 & H6 & H7 & H8).
  destruct (decide (i = nfrag a)) as [->|Hne].
  - rewrite Hc in Ef. injection Ef as <-. auto.
  - destruct (H5 i f ltac:(lia) Ef) as (A & B & _). split; [done|]. lia.
Qed.

Lemma total_length_loop_ok max a h n len fuel :
  wf_ah max a → (n ≤ nfrag a)%nat → (nfrag a - n < fuel)%nat → ∃ m, total_length_loop fuel a h n len = Ok m.
Proof.
  intros Hw. revert n len. induction fuel as [|fuel IH]; intros n len Hn Hf; [lia|]. cbn [total_length_loop].
  destruct (wf_chain max a n Hw Hn) as (f & Ef & Hx & _). unfold get_frag. rewrite Ef. cbn [mbind res_bind]. cbv zeta.
  destruct (fnext f =? 0)%nat eqn:E0; [by eexists|]. apply Nat.eqb_neq in E0. apply IH; lia.
Qed.

Lemma total_length_ok max a h :
  wf_ah max a → (h < WSI_TOKEN_COUNT)%nat → ∃ m, lws_hdr_total_length a h = Ok m.
Proof.
  intros Hw Hh. unfold lws_hdr_total_length. destruct (get_index_ok max a h Hw Hh) as (n & -> & Hn). cbn [mbind res_bind].
  destruct (n =? 0)%nat; [by eexists|]. eapply total_length_loop_ok; try done. destruct Hw as (_ & H2 & _ & H4 & _). lia.
Qed.

Lemma c_str_nul m : 0 ∈ m → ∃ s, c_str m = Some s.
Proof.
  induction m as [|b m IH]; intros H; [by apply elem_of_nil in H|]. cbn. destruct (b =? 0) eqn:E; [by eexists|].
  apply elem_of_cons in H as [<-|H]; [done|]. destruct (IH H) as [s ->]. by eexists.
Qed.

(** A header that is there is a C string. *)
Lemma simple_ptr_ok max a h m :
  wf_ah max a → terminated a → (h < WSI_TOKEN_COUNT)%nat → lws_hdr_total_length a h = Ok m → m ≠ 0%nat →
  ∃ p s, lws_hdr_simple_ptr a h = Ok (Some p) ∧ c_str p = Some s.
Proof.
  intros Hw Ht Hh. unfold lws_hdr_total_length, lws_hdr_simple_ptr. destruct (get_index_ok max a h Hw Hh) as (n & -> & Hn).
  cbn [mbind res_bind]. destruct (n =? 0)%nat eqn:E0; [by intros [= <-]|]. apply Nat.eqb_neq in E0. intros _ _.
  destruct (get_frag_ok max a n Hw Hn) as (f & -> & Ef). cbn [mbind res_bind]. eexists. 
  assert (∃ hi, nul_in a (offset f) hi) as (hi & j & Hj & Ej).
  { pose proof (lookup_cur max a Hw) as Hc. destruct Hw as (H1 & H2 & H3 & H4 & H5 & H6 & H7 & H8).
    destruct (decide (n = nfrag a)) as [->|Hne].
    - rewrite Hc in Ef. injection Ef as <-. destruct Ht as [Ht|Ht]; [done|by eexists].
    - destruct (H5 n f ltac:(lia) Ef) as (_ & _ & [C|C]); [done|by eexists]. }
  destruct (c_str_nul (drop (offset f) (data a))) as [s Es]; [|by exists s].
  apply list_elem_of_lookup. exists (j - offset f)%nat. rewrite lookup_drop. by replace (offset f + (j - offset f))%nat with j by lia.
Qed.

Lemma set_parsing_complete_ok max w :
  wf_ah max (ah w) → terminated (ah w) →
  (ues (ah w) ≠ URIES_IDLE ∧ set_parsing_complete w = Ok (false, w))
  ∨ (ues (ah w) = URIES_IDLE ∧ ∃ ft, set_parsing_complete w = Ok (true, Hcon (set_parser_state WSI_PARSING_COMPLETE (ah w)) ft true)).
Proof.
  intros Hw Ht. unfold set_parsing_complete. cbv zeta. destruct (bool_decide (ues (ah w) = URIES_IDLE)) eqn:Eu; cbn [negb].
  2:{ left. by apply bool_decide_eq_false in Eu. }
  apply bool_decide_eq_true in Eu. right. split; [done|].
  assert (WSI_TOKEN_UPGRADE < WSI_TOKEN_COUNT ∧ WSI_TOKEN_VERSION < WSI_TOKEN_COUNT)%nat as [Hu Hv]
    by (unfold WSI_TOKEN_UPGRADE, WSI_TOKEN_VERSION, WSI_TOKEN_COUNT; lia).
  destruct (total_length_ok max _ _ Hw Hu) as (up & ->). destruct (total_length_ok max _ _ Hw Hv) as (ver & Ev). rewrite Ev.
  cbn [mbind res_bind]. destruct (negb (up =? 0)%nat && negb (ver =? 0)%nat) eqn:E; [|by eexists].
  apply andb_true_iff in E as [_ E]. apply negb_true_iff, Nat.eqb_neq in E.
  destruct (simple_ptr_ok max _ _ _ Hw Ht Hv Ev E) as (p & s & -> & Es). cbn [mbind res_bind]. rewrite Es. by eexists.
Qed.

Lemma length_until_nul_pad l : length (until_nul_pad l) = length l.
Proof. induction l as [|b l IH]; [done|]. cbn. destruct (b =? 0); cbn; rewrite ?length_replicate; lia. Qed.

Lemma total_length_ge fuel a h n l0 m : total_length_loop fuel a h n l0 = Ok m → (l0 ≤ m)%nat.
Proof.
  revert n l0. induction fuel as [|fuel IH]; intros n l0; [done|]. cbn [total_length_loop].
  destruct (get_frag a n) as [f|]; [|done]. cbn [mbind res_bind]. cbv zeta. destruct (fnext f =? 0)%nat; [intros [= <-]; lia|].
  intros H. apply IH in H. destruct (h =? WSI_TOKEN_HTTP_COOKIE)%nat; lia.
Qed.

(** The copy loop writes exactly the bytes the length loop counted. *)
Lemma copy_loop_ok max a h n l0 m fuel len dst :
  wf_ah max a → (pos a ≤ max)%nat → (n ≤ nfrag a)%nat → total_length_loop fuel a h n l0 = Ok m → Z.of_nat (m - l0) < len →
  ∃ dst', copy_loop fuel a h n len dst = Ok (0, dst') ∧ length dst' = (length dst + (m - l0))%nat.
Proof.
  intros Hw Hp. revert n l0 len dst. induction fuel as [|fuel IH]; intros n l0 len dst Hn; [done|].
  cbn [total_length_loop copy_loop]. destruct (wf_chain max a n Hw Hn) as (f & Ef & Hx & Ho). unfold get_frag. rewrite Ef.
  cbn [mbind res_bind]. cbv zeta. unfold text_at. destruct Hw as (H1 & Hw). rewrite (proj2 (Nat.leb_le (offset f + flen f) _)) by lia.
  assert (length (until_nul_pad (take (flen f) (drop (offset f) (data a)))) = flen f) as Hlt
    by (rewrite length_until_nul_pad, length_take, length_drop; lia).
  destruct (fnext f =? 0)%nat eqn:E0; cbn [negb andb].
  - intros [= <-] Hlen. rewrite (proj2 (Z.leb_gt len _)) by lia. cbn [mbind res_bind]. eexists. split; [done|].
    rewrite !length_app, Hlt. cbn. lia.
  - intros Ht Hlen. apply Nat.eqb_neq in E0. pose proof (total_length_ge _ _ _ _ _ _ Ht) as Hge.
    set (comma := negb (h =? WSI_TOKEN_HTTP_COOKIE)%nat).
    assert ((if (h =? WSI_TOKEN_HTTP_COOKIE)%nat then (l0 + flen f)%nat else S (l0 + flen f)) = (l0 + flen f + (if comma then 1 else 0))%nat) as El
      by (unfold comma; destruct (h =? WSI_TOKEN_HTTP_COOKIE)%nat; cbn; lia).
    rewrite El in Ht, Hge. rewrite (proj2 (Z.leb_gt len _)) by (destruct comma; lia). cbn [mbind res_bind].
    destruct (IH (fnext f) _ (len - Z.of_nat (flen f))
                (dst ++ until_nul_pad (take (flen f) (drop (offset f) (data a))) ++ (if comma then [44] else [])) ltac:(lia) Ht ltac:(destruct comma; lia))
      as (dst' & -> & Hd). exists dst'. split; [done|]. rewrite Hd, !length_app, Hlt. destruct comma; cbn; lia.
Qed.

(** ** Claims *)

(** A connection that has just been given its header store. *)
Definition fresh (text : list Z) (ft : Z) : hcon := Hcon (_lws_header_table_reset (_lws_create_ah text)) ft false.

Lemma fresh_wf text ft : wf_parser (length text) (ah (fresh text ft)).
Proof.
  split.
  - assert (cur (ah (fresh text ft)) = Fragment 0 0 0) as Ec by (vm_compute; reflexivity).
    unfold wf_ah. rewrite Ec. cbn [fresh ah _lws_header_table_reset data frags frag_index nfrag pos _lws_create_ah offset flen fnext].
    rewrite !length_replicate. split_and!; try done; try lia; try (unfold WSI_TOKEN_COUNT; lia).
    intros t n H. apply lookup_replicate in H as [-> _]. lia.
  - unfold wf_state. cbn. split_and!; [lia|by left|]. exists 0%nat, all_names.
    split_and!; [done|apply at_names_start|]. apply all_names_tokens.
Qed.

(** [C9] Memory safety of the HTTP/1 parser: from a new connection, whatever
    bytes arrive (also in pieces, from any state the parser gets to), no store
    or read leaves the header text, the fragment arrays or the name table, and
    the invariant of the header store holds again afterwards; the one fault
    left is the parser's own failing assert, and only after a separator ('&',
    ';' or '?') was among the bytes. *)
Theorem parser_memory_safe x w buf
    (Hx : wf_context x) (Hw : wf_parser (max_http_header_data x) (ah w)) :
  match lws_parse x buf w with
  | Ok (r, _, w') => r = PZero → wf_parser (max_http_header_data x) (ah w')
  | Fault f => f = AssertFailed ∧ (existsb separator buf = true ∨ pos (ah w) = S (max_http_header_data x))
  end.
Proof.
  revert w Hw. induction buf as [|c buf IH]; intros w Hw; [by cbn; intros _|]. cbn [lws_parse existsb].
  pose proof (parse_char_safe x c (ah w) Hx Hw) as Hc. destruct (parse_char x c (ah w)) as [[e a]|f]; [|cbn in Hc |- *; naive_solver].
  cbn [safe mbind res_bind] in *. unfold char_ok in Hc. cbn [fst snd] in Hc. destruct e; try done.
  - destruct Hc as [Hw' Hp]. specialize (IH (Hcon a (rx_frame_type w) (hdr_parsing_completed w)) Hw').
    destruct (lws_parse _ _ _) as [[[r rest] w']|f]; [done|]. destruct IH as [-> [-> |H]]; [by rewrite orb_true_r; auto|].
    split; [done|]. destruct (Hp H) as [? | ->]; auto.
  - destruct Hc as (W & T & P).
    destruct (set_parsing_complete_ok _ (Hcon a (rx_frame_type w) (hdr_parsing_completed w)) W T) as [[_ ->]|[_ [ft ->]]]; [done|].
    cbn. intros _. by split.
Qed.

Definition sample_context (max : nat) : http_context := Context_ max None true false.

Definition crlf : list Z := [13; 10].

Definition sample_request : list Z :=
  bs "GET /a/../b?x=1&y=2 HTTP/1.1" ++ crlf ++ bs "Host: comlink" ++ crlf ++ bs "Cookie: k=v" ++ crlf ++ crlf.

Lemma parser_memory_safe_witness :
  wf_context (sample_context 128) ∧ wf_parser 128 (ah (fresh (replicate 128 170) 0))
  ∧ match lws_parse (sample_context 128) sample_request (fresh (replicate 128 170) 0) with
    | Ok (r, _, w') => r = PZero → wf_parser 128 (ah w')
    | Fault f => False
    end.
Proof.
  assert (wf_parser 128 (ah (fresh (replicate 128 170) 0))) as H by apply (fresh_wf (replicate 128 170) 0).
  split_and!; [exact I|exact H|].
  pose proof (parser_memory_safe (sample_context 128) (fresh (replicate 128 170) 0) sample_request I H) as P.
  assert (is_ok (lws_parse (sample_context 128) sample_request (fresh (replicate 128 170) 0)) = true) as E by (vm_compute; reflexivity).
  destruct (lws_parse _ _ _) as [[[r rest] w']|f]; [exact P|discriminate E].
Defined.

(** Reading a header is safe and exact: once the headers are in, the
    length and the copy of any header come back without a fault; the copy
    fails exactly when the text does not fit in the caller's buffer with its
    NUL, and otherwise is as long as the length said, all the fragments joined. *)
Theorem hdr_copy_fits max a h len
    (Hw : wf_ah max a) (Hp : (pos a ≤ max)%nat) (Hh : (h < WSI_TOKEN_COUNT)%nat) :
  ∃ toklen dst, lws_hdr_total_length a h = Ok toklen
    ∧ lws_hdr_copy a len h = Ok (if (toklen =? 0)%nat then 0 else if len <=? Z.of_nat toklen then -1 else Z.of_nat toklen, dst)
    ∧ (Z.of_nat toklen < len → length dst = toklen).
Proof.
  unfold lws_hdr_copy. destruct (total_length_ok max a h Hw Hh) as (m & E). rewrite E. cbn [mbind res_bind].
  destruct (m =? 0)%nat eqn:E0; [exists m, []; rewrite E0; apply Nat.eqb_eq in E0; by split_and!|].
  destruct (len <=? Z.of_nat m) eqn:El; [exists m, []; split_and!; rewrite ?E0, ?El; try done; lia|]. apply Z.leb_gt in El.
  unfold lws_hdr_total_length in E. destruct (get_index_ok max a h Hw Hh) as (n & En & Hn). rewrite En in E |- *. cbn [mbind res_bind] in *.
  destruct (n =? 0)%nat; [by injection E as <-|].
  destruct (copy_loop_ok max a h n 0 m (length (frags a)) len [] Hw Hp Hn E ltac:(lia)) as (dst & -> & Hd). cbn [mbind res_bind].
  exists m, dst. rewrite E0, (proj2 (Z.leb_gt _ _)) by done. split_and!; try done. intros _. cbn in Hd. lia.
Qed.

(** The state after the sample request. *)
Definition sample_parsed : allocated_headers :=
  match lws_parse (sample_context 128) sample_request (fresh (replicate 128 170) 0) with
  | Ok (_, _, w) => ah w
  | Fault _ => _lws_create_ah []
  end.

Lemma hdr_copy_fits_witness :
  wf_ah 128 sample_parsed ∧ lws_hdr_copy sample_parsed 20 WSI_TOKEN_HTTP_URI_ARGS = Ok (7, bs "x=1,y=2")
  ∧ ∃ toklen dst, lws_hdr_copy sample_parsed 20 WSI_TOKEN_HTTP_URI_ARGS = Ok (Z.of_nat toklen, dst) ∧ length dst = toklen.
Proof.
  assert (wf_ah 128 sample_parsed) as W.
  { pose proof parser_memory_safe_witness as (_ & _ & H). unfold sample_parsed.
    assert (match lws_parse (sample_context 128) sample_request (fresh (replicate 128 170) 0) with
            | Ok (r, _, _) => bool_decide (r = PZero) | Fault _ => false end = true) as E by (vm_compute; reflexivity).
    destruct (lws_parse _ _ _) as [[[r rest] w']|f]; [|discriminate E]. apply bool_decide_eq_true in E. apply (H E). }
  assert (lws_hdr_copy sample_parsed 20 WSI_TOKEN_HTTP_URI_ARGS = Ok (7, bs "x=1,y=2")) as E by (vm_compute; reflexivity).
  split_and!; [exact W|exact E|].
  destruct (hdr_copy_fits 128 sample_parsed WSI_TOKEN_HTTP_URI_ARGS 20 W ltac:(by_compute) ltac:(by_compute)) as (t & d & E1 & E2 & H).
  rewrite E in E2. exists 7%nat, (bs "x=1,y=2"). split; [exact E|reflexivity].
Defined.
