(* ===== verification/HttpUri.v ===== *)
(** * The HTTP/1 parser: the path of the request

    What lws_parse makes of a request's path: percent escapes are decoded, empty
    and "." segments dropped, and ".." takes the segment before it away.  The
    reference is a function on the list of segments; the claim is that the
    character by character code, with its backing up in the stored text,
    computes it.  The lemmas on issued text are shared with the other files on
    requests. *)

From stdpp Require Import base numbers list strings.
From Stdlib Require Import ZArith Lia Ascii.
From S2P Require Import Prelude Text HttpHead Lex HttpParse HttpSafe.

(** ** Lemmas: the text being collected *)

(** The current fragment holds [T], and the position is right after it. *)
Definition views (max : nat) (a : allocated_headers) (T : list Z) : Prop :=
  wf_ah max a ∧ flen (cur a) = length T ∧ pos a = (offset (cur a) + length T)%nat
  ∧ take (length T) (drop (offset (cur a)) (data a)) = T
  ∧ (current_token_limit a = 0 ∨ max ≤ current_token_limit a)%nat.

(** Nothing outside of the current fragment has changed. *)
Definition frame (a a' : allocated_headers) : Prop :=
  frag_index a' = frag_index a ∧ nfrag a' = nfrag a ∧ offset (cur a') = offset (cur a)
  ∧ (∀ i, i ≠ nfrag a → frags a' !! i = frags a !! i)
  ∧ take (offset (cur a)) (data a') = take (offset (cur a)) (data a)
  ∧ current_token_limit a' = current_token_limit a ∧ ues a' = ues a ∧ parser_state a' = parser_state a.

Lemma frame_refl a : frame a a.
Proof. done. Qed.

Lemma frame_trans a b c : frame a b → frame b c → frame a c.
Proof.
  intros (A1 & A2 & A3 & A4 & A5 & A6 & A7 & A8) (B1 & B2 & B3 & B4 & B5 & B6 & B7 & B8).
  split_and!; try congruence.
  - intros i Hi. rewrite B4 by congruence. by apply A4.
Qed.

Lemma issue_exact max c a T :
  views max a T → (pos a < max)%nat → c ≠ 0 → issue_char max c a = Ok (0, stored c (S (flen (cur a))) a).
Proof.
  intros (Hw & Hf & Hp & _ & Hl) Hlt Hc. unfold issue_char, lws_pos_in_bounds. rewrite (proj2 (Nat.ltb_lt (pos a) max)) by done.
  cbn [mbind res_bind Z.eqb negb]. rewrite (get_cur max) by done. cbn [mbind res_bind].
  assert ((current_token_limit a =? 0)%nat || (flen (cur a) <? current_token_limit a)%nat = true) as ->.
  { apply orb_true_iff. destruct Hl as [-> |Hl]; [by left|right]. apply Nat.ltb_lt. lia. }
  destruct Hw as (H1 & H2 & _ & H4 & _). unfold put_data. rewrite H1, (proj2 (Nat.ltb_lt _ _)) by lia. cbn [mbind res_bind].
  rewrite (proj2 (Z.eqb_neq c 0)) by done. cbn [negb]. unfold put_frag. cbn [nfrag frags set_pos set_data].
  by rewrite (proj2 (Nat.ltb_lt _ _)) by lia.
Qed.

Lemma issue_nul max a T :
  views max a T → (pos a < max)%nat → issue_char max 0 a = Ok (0, stored 0 (flen (cur a)) a).
Proof.
  intros (Hw & Hf & Hp & _ & Hl) Hlt. unfold issue_char, lws_pos_in_bounds. rewrite (proj2 (Nat.ltb_lt (pos a) max)) by done.
  cbn [mbind res_bind Z.eqb negb]. rewrite (get_cur max) by done. cbn [mbind res_bind].
  assert ((current_token_limit a =? 0)%nat || (flen (cur a) <? current_token_limit a)%nat = true) as ->.
  { apply orb_true_iff. destruct Hl as [-> |Hl]; [by left|right]. apply Nat.ltb_lt. lia. }
  rewrite stored_same_len by by apply (lookup_cur max).
  destruct Hw as (H1 & H2 & _ & H4 & _). unfold put_data. rewrite H1, (proj2 (Nat.ltb_lt _ _)) by lia. done.
Qed.

Lemma cur_stored max c len a : wf_ah max a → cur (stored c len a) = Fragment (offset (cur a)) len (fnext (cur a)).
Proof.
  intros (_ & H2 & _ & H4 & _). unfold cur at 1, stored. cbn. by rewrite list_lookup_insert_eq by lia.
Qed.

Lemma frame_stored max c len a T :
  views max a T → frame a (stored c len a).
Proof.
  intros (Hw & Hf & Hp & _). unfold frame. rewrite (cur_stored max) by done. cbn. split_and!; try done.
  - intros i Hi. by rewrite list_lookup_insert_ne by done.
  - rewrite take_insert_ge by lia. done.
Qed.

Lemma views_stored max c a T :
  views max a T → (pos a < max)%nat → views max (stored c (S (flen (cur a))) a) (T ++ [c]).
Proof.
  intros (Hw & Hf & Hp & Ht & Hl) Hlt. pose proof (cur_stored max c (S (flen (cur a))) a Hw) as Ec.
  destruct (wf_stored max c (S (flen (cur a))) a) as (W & _ & _ & P & L & _); try done; try lia.
  unfold views. rewrite Ec, P, length_app. cbn [offset flen length]. split_and!; try done; try lia.
  cbn [stored data set_frags set_pos set_data]. destruct Hw as (H1 & _).
  replace (length T + 1)%nat with (S (length T)) by lia.
  rewrite <- Ht at 2. apply list_eq. intros i. destruct (decide (i < length T)%nat) as [Hi|Hi].
  - rewrite lookup_take_lt, lookup_drop by lia. rewrite list_lookup_insert_ne by lia.
    rewrite lookup_app_l by (rewrite length_take, length_drop; lia). by rewrite lookup_take_lt, lookup_drop by lia.
  - destruct (decide (i = length T)) as [->|Hne].
    + rewrite lookup_take_lt, lookup_drop by lia. rewrite <- Hp, list_lookup_insert_eq by lia.
      rewrite lookup_app_r; rewrite length_take, length_drop; [|lia].
      replace (length T - (length T `min` (length (data a) - offset (cur a))))%nat with 0%nat by lia. done.
    + rewrite lookup_take_ge by lia. symmetry. apply lookup_ge_None. rewrite length_app, length_take, length_drop. cbn. lia.
Qed.

(** One character issued. *)
Lemma issue_view max c a T :
  views max a T → (pos a < max)%nat → c ≠ 0 →
  ∃ a', issue_char max c a = Ok (0, a') ∧ views max a' (T ++ [c]) ∧ frame a a' ∧ ups a' = ups a ∧ lextable_pos a' = lextable_pos a.
Proof.
  intros Hv Hp Hc. exists (stored c (S (flen (cur a))) a). split_and!; try done.
  - by eapply issue_exact.
  - by apply views_stored.
  - by eapply frame_stored.
Qed.

Lemma views_shorter max a T c :
  views max a (T ++ [c]) →
  views max (shorter a) T ∧ frame a (shorter a) ∧ data (shorter a) !! pos (shorter a) = Some c ∧ nfrag (shorter a) = nfrag a.
Proof.
  intros (Hw & Hf & Hp & Ht & Hl). rewrite length_app in Hf, Hp, Ht. cbn in Hf, Hp.
  pose proof (cur_shorter max a Hw) as Ec. destruct (wf_shorter max a Hw ltac:(lia)) as (W & _ & _).
  assert (take (length T + 1) (drop (offset (cur a)) (data a)) !! length T = Some c) as Hlast.
  { cbn in Ht. rewrite Ht. rewrite lookup_app_r, Nat.sub_diag by lia. done. }
  split_and!.
  - unfold views. rewrite Ec. cbn [offset flen]. split_and!; try done; cbn [shorter pos set_frags set_pos data]; [lia..|].
    transitivity (take (length T) (take (length T + 1) (drop (offset (cur a)) (data a)))).
    + rewrite take_take. f_equal. lia.
    + cbn in Ht. rewrite Ht. by rewrite take_app_length.
  - unfold frame. rewrite Ec. cbn. split_and!; try done. intros i Hi. by rewrite list_lookup_insert_ne.
  - cbn. rewrite lookup_take_lt, lookup_drop in Hlast by lia. rewrite Hp. rewrite <- Hlast. f_equal. lia.
  - done.
Qed.

(** ** Backing up, on the text *)

(** Reversed: characters go until a '/' has gone, or one is left. *)
Fixpoint strip (r : list Z) : list Z :=
  match r with
  | [] => []
  | c :: r => if (length r <=? 1)%nat then r else if c =? 47 then r else strip r
  end.

Definition back (T : list Z) : list Z :=
  if (length T <=? 2)%nat then T else rev (strip (tl (rev T))).

Lemma length_strip r : (length (strip r) ≤ length r)%nat.
Proof. induction r as [|c r IH]; [done|]. cbn [strip]. repeat case_match; cbn; lia. Qed.

Lemma length_back T : (length (back T) ≤ length T)%nat.
Proof.
  unfold back. case_match; [done|]. rewrite length_rev. etrans; [apply length_strip|]. rewrite length_tl, length_rev. lia.
Qed.

Lemma back_up_loop_view max fuel a T :
  views max a T → (1 < length T ≤ fuel)%nat →
  ∃ a', back_up_loop fuel a = Ok a' ∧ views max a' (rev (strip (rev T))) ∧ frame a a' ∧ ups a' = ups a.
Proof.
  revert a T. induction fuel as [|fuel IH]; intros a T Hv Hlen; [lia|]. cbn [back_up_loop].
  rewrite (drop_char_ok max) by apply Hv. cbn [mbind res_bind].
  destruct (exists_last (l := T)) as (T' & c & ->); [by intros ->; cbn in Hlen; lia|].
  destruct (views_shorter max a T' c Hv) as (Hv' & Hfr & Hc & Hn).
  rewrite (get_cur max) by apply Hv'. cbn [mbind res_bind]. rewrite rev_app_distr. cbn [rev app strip]. rewrite length_rev.
  pose proof Hv' as (_ & Hf' & _). rewrite Hf'. rewrite length_app in Hlen. cbn in Hlen.
  destruct (length T' <=? 1)%nat eqn:E1.
  - apply Nat.leb_le in E1. rewrite (proj2 (Nat.ltb_ge _ _)) by lia. eexists. split; [done|]. by rewrite rev_involutive.
  - apply Nat.leb_gt in E1. rewrite (proj2 (Nat.ltb_lt _ _)) by lia. unfold get_data. rewrite Hc. cbn [mbind res_bind].
    destruct (c =? 47); cbn [negb].
    + eexists. split; [done|]. by rewrite rev_involutive.
    + destruct (IH (shorter a) T' Hv' ltac:(lia)) as (a' & -> & Hva & Hfa & Hua). exists a'. split_and!; try done.
      by eapply frame_trans.
Qed.

Lemma back_up_view max a T :
  views max a T → ∃ a', back_up a = Ok a' ∧ views max a' (back T) ∧ frame a a' ∧ ups a' = ups a.
Proof.
  intros Hv. unfold back_up, back. rewrite (get_cur max) by apply Hv. cbn [mbind res_bind]. pose proof Hv as (_ & -> & _).
  destruct (length T <=? 2)%nat eqn:E2.
  - apply Nat.leb_le in E2. rewrite (proj2 (Nat.ltb_ge _ _)) by lia. by exists a.
  - apply Nat.leb_gt in E2. rewrite (proj2 (Nat.ltb_lt _ _)) by lia. rewrite (drop_char_ok max) by apply Hv. cbn [mbind res_bind].
    destruct (exists_last (l := T)) as (T' & c & ->); [by intros ->; cbn in E2; lia|].
    destruct (views_shorter max a T' c Hv) as (Hv' & Hfr & _). rewrite length_app in *. cbn in E2.
    destruct (back_up_loop_view max (length T' + length [c]) (shorter a) T' Hv' ltac:(cbn; lia)) as (a' & -> & Hva & Hfa & Hua).
    exists a'. split_and!; try done; [|by eapply frame_trans]. rewrite rev_app_distr. cbn [rev app tl]. done.
Qed.

(** ** The reference *)

(** A character of the request's path: itself, or escaped as two hex digits. *)
Inductive uchar := Raw (c : Z) | Esc (h l : Z).

Definition uval (u : uchar) : Z :=
  match u with
  | Raw c => c
  | Esc h l => Z.lor (Z.shiftl (char_to_hex h) 4) (char_to_hex l)
  end.

Definition utext (u : uchar) : list Z := match u with Raw c => [c] | Esc h l => [37; h; l] end.

(** Not NUL, CR or '?'; and, where it is not escaped, not a space, '%', '&',
    ';' or '+', which mean something else. *)
Definition uok (u : uchar) : bool :=
  negb (existsb (Z.eqb (uval u)) [0; 13; 63])
  && match u with
     | Raw c => negb (existsb (Z.eqb c) [32; 37; 38; 59; 43])
     | Esc h l => (0 <=? char_to_hex h) && (0 <=? char_to_hex l)
     end.

(** The segments on the way: an empty one and "." do nothing, ".." takes the
    last one away. *)
Definition seg_step (st : list (list Z)) (s : list Z) : list (list Z) :=
  if bool_decide (s = [] ∨ s = [46]) then st
  else if bool_decide (s = [46; 46]) then removelast st
  else st ++ [s].

Definition render (st : list (list Z)) : list Z := concat ((λ s, 47 :: s) <$> st).

(** The path with segments [segs ++ [last]], resolved. *)
Definition norm_path (segs : list (list Z)) (last : list Z) : list Z :=
  let st := foldl seg_step [] segs in
  if bool_decide (last = [] ∨ last = [46]) then render st ++ [47]
  else if bool_decide (last = [46; 46]) then
    match removelast st with [] => [47] | st => render st end
  else render (st ++ [last]).

(** ** Lemmas: the code as a machine on text *)

Definition ustate := (uri_path_states * list Z)%type.

Definition ustep (s : ustate) (c : Z) : ustate :=
  let '(u, T) := s in
  match u with
  | URIPS_IDLE => (if c =? 47 then URIPS_SEEN_SLASH else URIPS_IDLE, T ++ [c])
  | URIPS_SEEN_SLASH =>
      if c =? 47 then (URIPS_SEEN_SLASH, T)
      else if c =? 46 then (URIPS_SEEN_SLASH_DOT, T)
      else (URIPS_IDLE, T ++ [c])
  | URIPS_SEEN_SLASH_DOT =>
      if c =? 46 then (URIPS_SEEN_SLASH_DOT_DOT, T)
      else if c =? 47 then (URIPS_SEEN_SLASH, T)
      else (URIPS_IDLE, T ++ [46] ++ [c])
  | URIPS_SEEN_SLASH_DOT_DOT =>
      if c =? 47 then
        (URIPS_SEEN_SLASH, if (1 <? length (back T))%nat then back T ++ [c] else back T)
      else (URIPS_IDLE, T ++ [46; 46] ++ [c])
  end.

(** The dots the machine still owes. *)
Definition pending (u : uri_path_states) : nat :=
  match u with URIPS_SEEN_SLASH_DOT => 1 | URIPS_SEEN_SLASH_DOT_DOT => 2 | _ => 0 end.

(** The parser collects the path of a request; [s] is where the machine is. *)
Definition uri_state (max : nat) (a : allocated_headers) (s : ustate) : Prop :=
  views max a s.2 ∧ ups a = s.1 ∧ ues a = URIES_IDLE ∧ frag_index a !! WSI_TOKEN_HTTP_URI_ARGS = Some 0%nat
  ∧ ∃ t, parser_state a = WSI_TOKEN t ∧ is_method t = true.

(** Reading [raw] takes the parser from [a] to [a']. *)
Definition runs (x : http_context) (a : allocated_headers) (raw : list Z) (a' : allocated_headers) : Prop :=
  ∀ rest ft hc, lws_parse x (raw ++ rest) (Hcon a ft hc) = lws_parse x rest (Hcon a' ft hc).

Lemma runs_one x a c a' : parse_char x c a = Ok (CGo, a') → runs x a [c] a'.
Proof. intros E rest ft hc. cbn. by rewrite E. Qed.

Lemma runs_app x a b c r1 r2 : runs x a r1 b → runs x b r2 c → runs x a (r1 ++ r2) c.
Proof. intros H1 H2 rest ft hc. rewrite <- app_assoc, H1. apply H2. Qed.

Lemma runs_nil x a : runs x a [] a.
Proof. done. Qed.

(** The rest of lws_parse_urldecode, after the escapes. *)
Definition decoded (max : nat) (c : Z) (enc : bool) (a : allocated_headers) :
    res (lws_parse_urldecode_results * Z * allocated_headers) :=
  '(r, c, a) ← urldecode_path max c enc a;
  match r with LPUR_CONTINUE => urldecode_args max c enc a | r => Ok (r, c, a) end.

Lemma uri_args_skip max c enc a :
  frag_index a !! WSI_TOKEN_HTTP_URI_ARGS = Some 0%nat → c ≠ 63 → urldecode_args max c enc a = Ok (LPUR_CONTINUE, c, a).
Proof.
  intros Hi Hc. unfold urldecode_args, get_index. rewrite Hi. cbn [mbind res_bind].
  by rewrite (proj2 (Z.eqb_neq c 63)).
Qed.

(** What the second part does with a character: it is swallowed, or is to be
    issued. *)
Lemma decoded_view max c enc a s :
  uri_state max a s → (pos a + pending s.1 < max)%nat → c ≠ 0 → c ≠ 63 → (enc = true ∨ c ≠ 38 ∧ c ≠ 59 ∧ c ≠ 43) →
  ∃ r a', decoded max c enc a = Ok (r, c, a') ∧ frame a a'
    ∧ ((r = LPUR_SWALLOW ∧ uri_state max a' (ustep s c))
       ∨ (r = LPUR_CONTINUE ∧ ∃ T, uri_state max a' ((ustep s c).1, T) ∧ (ustep s c).2 = T ++ [c] ∧ (pos a' < max)%nat)).
Proof.
  destruct s as [u T]. intros (Hv & Hu & He & Hi & t & Ht & Hm) Hp H0 H63 Henc. cbn [fst snd] in *.
  assert (∀ v b T', views max b T' → frame a b → ups b = v → uri_state max b (v, T')) as Hst.
  { intros v b T' Hvb (F1 & F2 & F3 & F4 & F5 & F6 & F7 & F8) Hub. split_and!; try done; cbn; rewrite ?F7, ?F1, ?F8; eauto. }
  assert (∀ v, frame a (set_ups v a)) as Hfu by done.
  unfold decoded, urldecode_path. rewrite Hu. destruct u; cbn [ustep fst snd]; cbn [pending] in Hp.
  - unfold urldecode_idle. rewrite (proj2 (Z.eqb_neq c 0)) by done.
    assert (((c =? 38) || (c =? 59)) && negb enc = false) as ->.
    { destruct Henc as [-> |(? & ? & ?)]; [by rewrite andb_false_r|]. by rewrite !(proj2 (Z.eqb_neq c _)) by done. }
    unfold get_index. rewrite Hi. cbn [mbind res_bind Nat.eqb negb]. rewrite andb_false_r. cbn [andb]. cbv zeta.
    assert ((c =? 43) && negb enc = false) as ->.
    { destruct Henc as [-> |(? & ? & ?)]; [by rewrite andb_false_r|]. by rewrite (proj2 (Z.eqb_neq c 43)). }
    rewrite andb_true_r. set (b := if (c =? 61) && negb enc then set_post_literal_equal true a else a).
    assert (views max b T ∧ frame a b ∧ ups b = URIPS_IDLE ∧ pos b = pos a ∧ frag_index b = frag_index a) as (Hvb & Hfb & Hub & Hpb & Hib)
      by (unfold b; by destruct (_ && _)).
    assert (frag_index (if c =? 47 then set_ups URIPS_SEEN_SLASH b else b) = frag_index a) as Hib' by by destruct (c =? 47).
    rewrite uri_args_skip by (try done; by rewrite Hib'). eexists _, _. split; [done|].
    split; [by destruct (c =? 47)|]. right. split; [done|]. exists T. split; [|split; [done|]].
    + destruct (c =? 47); by apply Hst.
    + destruct (c =? 47); cbn; lia.
  - destruct (c =? 47) eqn:E47; [eexists _, _; split; [done|]; split; [done|left; split; [done|by apply Hst]]|].
    destruct (c =? 46) eqn:E46; [eexists _, _; split; [done|]; split; [by apply Hfu|left; split; [done|by apply Hst]]|].
    cbn [mbind res_bind]. rewrite uri_args_skip by done. eexists _, _. split; [done|]. split; [by apply Hfu|].
    right. split; [done|]. exists T. split; [by apply Hst|]. split; [done|]. cbn. lia.
  - destruct (c =? 46) eqn:E46; [eexists _, _; split; [done|]; split; [by apply Hfu|left; split; [done|by apply Hst]]|].
    destruct (c =? 47) eqn:E47; [eexists _, _; split; [done|]; split; [by apply Hfu|left; split; [done|by apply Hst]]|].
    destruct (issue_view max 46 (set_ups URIPS_IDLE a) T) as (b & -> & Hvb & Hfb & Hub & _); [done|cbn; lia|done|].
    cbn [mbind res_bind Z.ltb Z.compare]. assert (frame a b) as Hfr by exact Hfb.
    rewrite uri_args_skip by (try done; by destruct Hfr as (-> & _)). eexists _, _. split; [done|]. split; [done|].
    right. split; [done|]. exists (T ++ [46]). split; [by apply Hst|]. split; [by rewrite app_assoc|].
    pose proof Hvb as (_ & _ & -> & _). destruct Hfr as (_ & _ & -> & _). destruct Hv as (_ & _ & Hpa & _). rewrite length_app. cbn. lia.
  - rewrite (proj2 (Z.eqb_neq c 63)), orb_false_r by done. destruct (c =? 47) eqn:E47.
    + destruct (back_up_view max a T Hv) as (b & -> & Hvb & Hfb & Hub). cbn [mbind res_bind].
      change (get_frag (set_ups URIPS_SEEN_SLASH b) (nfrag (set_ups URIPS_SEEN_SLASH b))) with (get_frag b (nfrag b)).
      rewrite (get_cur max) by apply Hvb. cbn [mbind res_bind]. pose proof Hvb as (_ & -> & Hpb & _).
      destruct (1 <? length (back T))%nat eqn:E1.
      * rewrite uri_args_skip by (try done; cbn; by destruct Hfb as (-> & _)). eexists _, _. split; [done|]. split; [exact Hfb|].
        right. split; [done|]. exists (back T). split; [by apply Hst|]. split; [done|]. cbn. rewrite Hpb. destruct Hfb as (_ & _ & -> & _).
        destruct Hv as (_ & _ & Hpa & _). assert (length (back T) ≤ length T)%nat; [|lia]. apply length_back.
      * eexists _, _. split; [done|]. split; [exact Hfb|]. left. split; [done|]. by apply Hst.
    + destruct (issue_view max 46 a T) as (b & -> & Hvb & Hfb & Hub & _); [done|lia|done|].
      cbn [mbind res_bind Z.ltb Z.compare]. pose proof Hv as (_ & _ & Hpa & _). pose proof Hvb as (_ & _ & Hpb & _).
      rewrite length_app in Hpb. cbn in Hpb. pose proof Hfb as (_ & _ & Hob & _).
      destruct (issue_view max 46 b (T ++ [46])) as (b2 & -> & Hvb2 & Hfb2 & Hub2 & _); [done|lia|done|].
      cbn [mbind res_bind Z.ltb Z.compare]. assert (frame a (set_ups URIPS_IDLE b2)) as Hfr by exact (frame_trans _ _ _ Hfb Hfb2).
      rewrite uri_args_skip by (try done; by destruct Hfr as (-> & _)). eexists _, _. split; [done|]. split; [done|].
      right. split; [done|]. exists ((T ++ [46]) ++ [46]). split; [by apply Hst|]. split; [by rewrite <- !app_assoc|].
      cbn. pose proof Hvb2 as (_ & _ & -> & _). rewrite !length_app. destruct Hfb2 as (_ & _ & -> & _). cbn. lia.
Qed.

Lemma method_token t : is_method t = true → (t < WSI_TOKEN_COUNT)%nat ∧ t ≠ WSI_TOKEN_CHALLENGE.
Proof.
  unfold is_method. intros H. apply existsb_exists in H as (m & Hin & E). apply Nat.eqb_eq in E as ->.
  assert (forallb (λ m, (m <? WSI_TOKEN_COUNT)%nat && negb (m =? WSI_TOKEN_CHALLENGE)%nat) methods = true) as Hall by reflexivity.
  rewrite forallb_forall in Hall. specialize (Hall m Hin). apply andb_true_iff in Hall as [H1 H2].
  split; [by apply Nat.ltb_lt|by apply negb_true_iff, Nat.eqb_neq in H2].
Qed.

(** The part of collect_char before the URI is decoded. *)
Lemma collect_uri max t c a :
  wf_ah max a → is_method t = true → c ≠ 32 →
  collect_char max t c a =
  ('(r, c, a) ← lws_parse_urldecode max c a;
   match r with
   | LPUR_CONTINUE => check_eol max t c a
   | LPUR_SWALLOW => Ok (CGo, a)
   | LPUR_FORBID => Ok (CForbid, a)
   | LPUR_EXCESSIVE => excessive max t a
   | LPUR_FAIL => Ok (CFail, a)
   end).
Proof.
  intros Hw Hm Hc. unfold collect_char. destruct (get_index_ok max a t Hw ltac:(by apply method_token)) as (i & -> & Hi).
  cbn [mbind res_bind]. destruct (get_frag_ok max a i Hw Hi) as (f & -> & _). cbn [mbind res_bind].
  rewrite (proj2 (Z.eqb_neq c 32)), andb_false_r, Hm by done. done.
Qed.

Lemma eol_view max t c a u T :
  uri_state max a (u, T) → parser_state a = WSI_TOKEN t → (pos a < max)%nat → c ≠ 0 → c ≠ 13 →
  ∃ a', check_eol max t c a = Ok (CGo, a') ∧ uri_state max a' (u, T ++ [c]) ∧ frame a a'.
Proof.
  intros (Hv & Hu & He & Hi & t' & Ht & Hm) Hs Hp H0 H13. unfold check_eol. cbn [fst snd] in *.
  rewrite (proj2 (Z.eqb_neq c 13)), andb_false_r by done. cbn [andb]. cbv zeta.
  destruct (issue_view max c a T Hv Hp H0) as (b & -> & Hvb & Hfb & Hub & _). cbn [mbind res_bind Z.ltb Z.compare].
  rewrite Hs in Ht. injection Ht as <-. exists b. pose proof Hfb as (F1 & F2 & F3 & F4 & F5 & F6 & F7 & F8).
  rewrite bool_decide_eq_false_2.
  - split_and!; try done. split; [done|]. split; [cbn; congruence|]. split; [congruence|]. split; [by rewrite F1|]. exists t. split; [congruence|done].
  - rewrite F8, Hs. intros [= ->]. by apply method_token in Hm as [_ ?].
Qed.

(** A decoded character, once its escape has been read. *)
Lemma decoded_runs x c cr enc a b s t :
  let max := max_http_header_data x in
  parser_state a = WSI_TOKEN t → wf_ah max a → is_method t = true → cr ≠ 32 →
  lws_parse_urldecode max cr a = decoded max c enc b → parser_state b = parser_state a →
  uri_state max b s → (pos b + pending s.1 < max)%nat → c ≠ 0 → c ≠ 13 → c ≠ 63 → (enc = true ∨ c ≠ 38 ∧ c ≠ 59 ∧ c ≠ 43) →
  ∃ a', runs x a [cr] a' ∧ uri_state max a' (ustep s c) ∧ frame b a'.
Proof.
  intros max Hs Hw Hm Hcr Hd Hsb Hst Hp H0 H13 H63 Henc.
  assert (parse_char x cr a = collect_char max t cr a) as Hpc by (unfold parse_char; by rewrite Hs).
  rewrite (collect_uri max t cr a Hw Hm Hcr), Hd in Hpc.
  destruct (decoded_view max c enc b s Hst Hp H0 H63 Henc) as (r & a1 & E & Hfr & [[-> Hst1]|(-> & T & Hst1 & HT & Hp1)]); rewrite E in Hpc;
    cbn [mbind res_bind] in Hpc.
  - exists a1. split; [by apply runs_one|done].
  - destruct (eol_view max t c a1 _ T Hst1) as (a2 & E2 & Hst2 & Hfr2); try done.
    { destruct Hfr as (_ & _ & _ & _ & _ & _ & _ & ->). congruence. }
    exists a2. split; [apply runs_one; by rewrite Hpc|]. split; [|by eapply frame_trans].
    destruct (ustep s c) as [u' T']. cbn [fst snd] in *. by rewrite HT.
Qed.

Lemma uri_char x a s ch :
  let max := max_http_header_data x in
  uri_state max a s → uok ch = true → (pos a + pending s.1 < max)%nat →
  ∃ a', runs x a (utext ch) a' ∧ uri_state max a' (ustep s (uval ch)) ∧ frame a a'.
Proof.
  intros max Hst Hok Hp. pose proof Hst as (Hv & Hu & He & Hi & t & Ht & Hm). pose proof Hv as (Hw & _).
  unfold uok in Hok. apply andb_true_iff in Hok as [Hok1 Hok2]. apply negb_true_iff in Hok1. cbn in Hok1.
  rewrite !orb_false_iff in Hok1. destruct Hok1 as (H0 & H13 & H63 & _). apply Z.eqb_neq in H0, H13, H63.
  destruct ch as [c|h l]; cbn [utext uval] in *.
  - apply negb_true_iff in Hok2. cbn in Hok2. rewrite !orb_false_iff in Hok2. destruct Hok2 as (H32 & H37 & H38 & H59 & H43 & _).
    apply Z.eqb_neq in H32, H38, H59, H43.
    eapply (decoded_runs x c c false a a s t); auto.
    unfold lws_parse_urldecode, urldecode_escape. rewrite He, H37. done.
  - apply andb_true_iff in Hok2 as [Hh Hl]. apply Z.leb_le in Hh, Hl.
    assert (h ≠ 32 ∧ l ≠ 32) as [Hh32 Hl32] by (split; intros ->; done).
    set (a1 := set_ues URIES_SEEN_PERCENT a). set (a2 := set_ues URIES_SEEN_PERCENT_H1 (set_esc_stash h a1)).
    set (a3 := set_ues URIES_IDLE a2).
    assert (runs x a [37] a1) as R1.
    { apply runs_one. unfold parse_char. rewrite Ht. rewrite collect_uri by done.
      unfold lws_parse_urldecode, urldecode_escape. rewrite He. done. }
    assert (runs x a1 [h] a2) as R2.
    { apply runs_one. unfold parse_char. cbn [parser_state set_ues a1]. rewrite Ht. rewrite collect_uri by done.
      unfold lws_parse_urldecode, urldecode_escape. cbn [ues set_ues a1]. rewrite (proj2 (Z.ltb_ge _ 0)) by done. done. }
    assert (uri_state max a3 s) as Hst3.
    { destruct s as [u T]. cbn [fst snd] in *. split_and!; try done. by exists t. }
    destruct (decoded_runs x (Z.lor (Z.shiftl (char_to_hex h) 4) (char_to_hex l)) l true a2 a3 s t) as (a' & R3 & Hst' & Hfr'); auto.
    { unfold lws_parse_urldecode, urldecode_escape. cbn [ues set_ues a2]. rewrite (proj2 (Z.ltb_ge _ 0)) by done. done. }
    exists a'. split_and!; [|done|].
    + eapply (runs_app x a a1 a' [37] [h; l] R1). by eapply (runs_app x a1 a2 a' [h] [l]).
    + destruct Hfr' as (F1 & F2 & F3 & F4 & F5 & F6 & F7 & F8). split_and!; try done. by rewrite F7, He.
Qed.

Lemma ustep_length s c : (length (ustep s c).2 + pending (ustep s c).1 ≤ S (length s.2 + pending s.1))%nat.
Proof.
  destruct s as [u T]. pose proof (length_back T). destruct u; cbn [ustep]; repeat case_match; cbn [fst snd pending];
    rewrite ?length_app; cbn [length]; lia.
Qed.

Lemma uri_run x a s path :
  let max := max_http_header_data x in
  uri_state max a s → forallb uok path = true →
  (offset (cur a) + length s.2 + pending s.1 + length path ≤ max)%nat →
  ∃ a', runs x a (path ≫= utext) a' ∧ uri_state max a' (foldl ustep s (uval <$> path)) ∧ frame a a'.
Proof.
  intros max. revert a s. induction path as [|ch path IH]; intros a s Hst Hok Hlen.
  { exists a. split_and!; [apply runs_nil|done|done]. }
  cbn [forallb] in Hok. apply andb_true_iff in Hok as [Hok1 Hok]. cbn [length] in Hlen.
  destruct (uri_char x a s ch Hst Hok1) as (a1 & R1 & Hst1 & F1).
  { destruct Hst as ((_ & _ & -> & _) & _). fold max. lia. }
  destruct (IH a1 (ustep s (uval ch)) Hst1 Hok) as (a2 & R2 & Hst2 & F2).
  { destruct F1 as (_ & _ & -> & _). pose proof (ustep_length s (uval ch)). lia. }
  exists a2. split_and!; [|done|by eapply frame_trans]. cbn. by eapply runs_app.
Qed.

(** ** Lemmas: the machine computes the reference *)

Definition seg_ok (s : list Z) : Prop := 47 ∉ s.

Definition stack_ok (st : list (list Z)) : Prop := Forall (λ s, s ≠ [] ∧ seg_ok s) st.

Lemma removelast_app_one {A} (l : list A) x : removelast (l ++ [x]) = l.
Proof. rewrite removelast_app by done. cbn. by rewrite app_nil_r. Qed.

Lemma stack_ok_removelast st : stack_ok st → stack_ok (removelast st).
Proof.
  intros H. destruct st as [|s st _] using rev_ind; [done|]. rewrite removelast_app_one. by apply Forall_app in H as [? _].
Qed.

Lemma seg_step_ok st s : stack_ok st → seg_ok s → stack_ok (seg_step st s).
Proof.
  intros H Hs. unfold seg_step. case_bool_decide as H1; [done|]. case_bool_decide as H2; [by apply stack_ok_removelast|].
  apply Forall_app. split; [done|]. constructor; [|done]. split; [|done]. intros ->. apply H1. by left.
Qed.

Lemma render_app st st' : render (st ++ st') = render st ++ render st'.
Proof. unfold render. by rewrite fmap_app, concat_app. Qed.

Lemma render_one s : render [s] = 47 :: s.
Proof. unfold render. cbn. by rewrite app_nil_r. Qed.

Lemma render_long st : stack_ok st → st ≠ [] → (1 < length (render st))%nat.
Proof.
  intros H Hne. destruct st as [|s st _] using rev_ind; [done|]. apply Forall_app in H as [_ H]. inversion H as [|? ? [Hs _]]; subst.
  rewrite render_app, render_one, length_app. destruct s; [done|]. cbn. lia.
Qed.

Lemma strip_seg s R :
  seg_ok s → (R = [] ∨ 1 < length R)%nat → strip (s ++ 47 :: R) = match R with [] => match s with [] => [] | _ => [47] end | _ => R end.
Proof.
  intros Hs HR. induction s as [|c s IH].
  - cbn [app strip]. destruct HR as [-> |HR]; [done|]. rewrite (proj2 (Nat.leb_gt _ _)) by done. cbn. by destruct R.
  - apply not_elem_of_cons in Hs as [Hc Hs]. cbn [app strip]. rewrite length_app. cbn [length].
    destruct s as [|d s].
    + cbn [app length]. destruct HR as [-> |HR]; [done|]. rewrite (proj2 (Nat.leb_gt _ _)) by (cbn; lia).
      rewrite (proj2 (Z.eqb_neq c 47)) by congruence. cbn [app] in IH. rewrite (IH Hs). by destruct R; [cbn in HR; lia|].
    + rewrite (proj2 (Nat.leb_gt _ _)) by (cbn; lia). rewrite (proj2 (Z.eqb_neq c 47)) by congruence.
      rewrite (IH Hs). by destruct R.
Qed.

Lemma back_render st :
  stack_ok st → back (render st ++ [47]) = match removelast st with [] => [47] | st' => render st' end.
Proof.
  intros H. destruct st as [|s st _] using rev_ind; [done|]. rewrite removelast_app_one. apply Forall_app in H as [H Hs].
  inversion Hs as [|? ? [Hne Hsl]]; subst. rewrite render_app, render_one. unfold back. rewrite !length_app. cbn [length].
  rewrite (proj2 (Nat.leb_gt _ _)) by (destruct s; [done|]; cbn; lia).
  rewrite !rev_app_distr. cbn [rev app tl]. rewrite <- !app_assoc. cbn [app].
  assert (seg_ok (rev s)) as Hsr by (unfold seg_ok in *; by rewrite list_elem_of_In, <- in_rev, <- list_elem_of_In).
  rewrite strip_seg; [|done|].
  - destruct st as [|s0 st']; [cbn; destruct (rev s) eqn:E; [|done]; apply (f_equal (@rev Z)) in E; rewrite rev_involutive in E; done|].
    destruct (rev (render (s0 :: st'))) eqn:E.
    + pose proof (render_long (s0 :: st') H ltac:(done)) as Hl. rewrite <- length_rev, E in Hl. cbn in Hl. lia.
    + by rewrite <- E, rev_involutive.
  - destruct st as [|s0 st']; [by left|right]. rewrite length_rev. by apply render_long.
Qed.

Lemma idle_run s T : seg_ok s → foldl ustep (URIPS_IDLE, T) s = (URIPS_IDLE, T ++ s).
Proof.
  revert T. induction s as [|c s IH]; intros T H; [by rewrite app_nil_r|]. apply not_elem_of_cons in H as [Hc H]. cbn [foldl ustep].
  rewrite (proj2 (Z.eqb_neq c 47)) by congruence. by rewrite IH, <- app_assoc.
Qed.

(** Where the machine is after a segment, from the '/' before it. *)
Definition seg_state (T s : list Z) : ustate :=
  if bool_decide (s = []) then (URIPS_SEEN_SLASH, T)
  else if bool_decide (s = [46]) then (URIPS_SEEN_SLASH_DOT, T)
  else if bool_decide (s = [46; 46]) then (URIPS_SEEN_SLASH_DOT_DOT, T)
  else (URIPS_IDLE, T ++ s).

Lemma seg_run s T : seg_ok s → foldl ustep (URIPS_SEEN_SLASH, T) s = seg_state T s.
Proof.
  intros H. destruct s as [|c s]; [done|]. apply not_elem_of_cons in H as [Hc H]. cbn [foldl ustep].
  rewrite (proj2 (Z.eqb_neq c 47)) by congruence. unfold seg_state. rewrite bool_decide_eq_false_2 by done.
  destruct (c =? 46) eqn:E46.
  - apply Z.eqb_eq in E46 as ->. destruct s as [|d s]; [done|]. apply not_elem_of_cons in H as [Hd H]. cbn [foldl ustep].
    rewrite bool_decide_eq_false_2 by done. rewrite (proj2 (Z.eqb_neq d 47)) by congruence. destruct (d =? 46) eqn:E46'.
    + apply Z.eqb_eq in E46' as ->. destruct s as [|e s]; [done|]. apply not_elem_of_cons in H as [He H]. cbn [foldl ustep].
      rewrite bool_decide_eq_false_2 by done. rewrite (proj2 (Z.eqb_neq e 47)) by congruence. rewrite idle_run by done.
      by rewrite <- !app_assoc.
    + apply Z.eqb_neq in E46'. rewrite bool_decide_eq_false_2 by congruence. rewrite idle_run by done. by rewrite <- !app_assoc.
  - apply Z.eqb_neq in E46. rewrite !bool_decide_eq_false_2 by congruence. rewrite idle_run by done. by rewrite <- app_assoc.
Qed.

Lemma seg_slash_run st s :
  stack_ok st → seg_ok s →
  ustep (seg_state (render st ++ [47]) s) 47 = (URIPS_SEEN_SLASH, render (seg_step st s) ++ [47]).
Proof.
  intros Hst Hs. unfold seg_state, seg_step. case_bool_decide as H1; [by rewrite bool_decide_eq_true_2 by by left|].
  case_bool_decide as H2; [by rewrite bool_decide_eq_true_2 by by right|]. rewrite (bool_decide_eq_false_2 (s = [] ∨ _)) by (by intros [?|?]).
  case_bool_decide as H3.
  - cbn [ustep Z.eqb Pos.eqb]. rewrite back_render by done.
    destruct (removelast st) as [|s0 st'] eqn:E; [done|]. rewrite (proj2 (Nat.ltb_lt _ _)); [done|].
    apply render_long; [|done]. rewrite <- E. by apply stack_ok_removelast.
  - cbn. by rewrite render_app, render_one, <- !app_assoc.
Qed.

Lemma segs_run segs st :
  stack_ok st → Forall seg_ok segs →
  foldl ustep (URIPS_SEEN_SLASH, render st ++ [47]) (segs ≫= (λ s, s ++ [47]))
  = (URIPS_SEEN_SLASH, render (foldl seg_step st segs) ++ [47]) ∧ stack_ok (foldl seg_step st segs).
Proof.
  revert st. induction segs as [|s segs IH]; intros st Hst H; [done|]. inversion H as [|? ? Hs Hsegs]; subst.
  cbn [mbind list_bind foldl]. rewrite !foldl_app, seg_run by done. cbn [foldl]. rewrite seg_slash_run by done.
  apply IH; [by apply seg_step_ok|done].
Qed.

Lemma render_join segs last : render (segs ++ [last]) = 47 :: (segs ≫= (λ s, s ++ [47])) ++ last.
Proof.
  rewrite render_app, render_one. induction segs as [|s segs IH]; [done|]. change (s :: segs) with ([s] ++ segs).
  rewrite render_app, render_one. rewrite <- app_assoc, IH. cbn. by rewrite <- !app_assoc.
Qed.

(** What the parser has at the end of a path, [norm_path] of it. *)
Lemma path_run segs last :
  Forall seg_ok segs → seg_ok last →
  ∃ u T, foldl ustep (URIPS_IDLE, []) (render (segs ++ [last])) = (u, T) ∧ T ≠ []
    ∧ (if bool_decide (u = URIPS_SEEN_SLASH_DOT_DOT) then back T else T) = norm_path segs last.
Proof.
  intros Hsegs Hlast. rewrite render_join. cbn [foldl ustep Z.eqb Pos.eqb app]. rewrite foldl_app.
  destruct (segs_run segs []) as [E Hok]; [constructor|done|]. cbn [render concat fmap list_fmap app] in E. 
  change (render [] ++ [47]) with [47] in E. rewrite E, seg_run by done. unfold norm_path, seg_state. cbv zeta.
  set (st := foldl seg_step [] segs) in *.
  case_bool_decide as H1; [eexists _, _; split; [done|]; rewrite (bool_decide_eq_true_2 (last = [] ∨ last = [46])) by (by left); split; [by destruct (render st)|done]|].
  case_bool_decide as H2; [eexists _, _; split; [done|]; rewrite (bool_decide_eq_true_2 (last = [] ∨ last = [46])) by (by right); split; [by destruct (render st)|done]|].
  rewrite (bool_decide_eq_false_2 (last = [] ∨ last = [46])) by (by intros [?|?]).
  case_bool_decide as H3; eexists _, _; (split; [done|]).
  - split; [by destruct (render st)|]. cbn. by apply back_render.
  - split; [by destruct (render st)|]. cbn. by rewrite render_app, render_one, <- app_assoc.
Qed.

Example norm_path_dots :
  norm_path [bs "a"; bs "b"; bs ".."; []; bs "."; bs "c"] (bs "..") = bs "/a".
Proof. vm_compute. reflexivity. Qed.
