(* ===== verification/HttpReq.v ===== *)
(** * The HTTP/1 parser: whole requests

    What lws_parse stores for a well-formed request: the resolved path, the
    version and every header, each under its token, whatever the case of its
    name.  The claims: the request is parsed to exactly that, the rest of the
    buffer is left alone; and three ways in which the parser departs from what
    its comments promise. *)

From stdpp Require Import base numbers list strings.
From Stdlib Require Import ZArith Lia Ascii.
From S2P Require Import Prelude Text HttpHead Lex HttpParse HttpSafe HttpUri.

(** ** Lemmas: stored headers *)

(** Header [t] is there, complete, in one fragment, and is [v]. *)
Definition hdr_is (a : allocated_headers) (t : nat) (v : list Z) : Prop :=
  ∃ n f, frag_index a !! t = Some n ∧ (0 < n ≤ nfrag a)%nat ∧ frags a !! n = Some f ∧ fnext f = 0%nat
    ∧ flen f = length v ∧ (offset f + length v < pos a)%nat
    ∧ take (S (length v)) (drop (offset f) (data a)) = v ++ [0] ∧ no_nul v.

(** Everything stored before is still there. *)
Definition extends (a a' : allocated_headers) : Prop :=
  (nfrag a ≤ nfrag a')%nat ∧ (pos a ≤ pos a')%nat ∧ (∀ i, (i ≤ nfrag a)%nat → frags a' !! i = frags a !! i)
  ∧ take (pos a) (data a') = take (pos a) (data a).

Lemma hdr_is_extends a a' t v :
  extends a a' → frag_index a' !! t = frag_index a !! t → hdr_is a t v → hdr_is a' t v.
Proof.
  intros (E1 & E2 & E3 & E4) Ei (n & f & H1 & H2 & H3 & H4 & H5 & H6 & H7 & H8).
  exists n, f. split_and!; try done; [congruence|lia|lia|rewrite E3 by lia; done|lia|].
  rewrite <- H7. apply list_eq. intros i. destruct (decide (i < S (length v))%nat) as [Hi|Hi].
  - rewrite !lookup_take_lt, !lookup_drop by lia.
    transitivity (take (pos a) (data a') !! (offset f + i)%nat); [by rewrite lookup_take_lt by lia|].
    rewrite E4. by rewrite lookup_take_lt by lia.
  - by rewrite !lookup_take_ge by lia.
Qed.

Lemma extends_trans a b c : extends a b → extends b c → extends a c.
Proof.
  intros (A1 & A2 & A3 & A4) (B1 & B2 & B3 & B4). split_and!; try lia.
  - intros i Hi. rewrite B3, A3 by lia. done.
  - rewrite <- A4. apply (f_equal (take (pos a))) in B4. by rewrite !take_take, !Nat.min_l in B4 by lia.
Qed.

Lemma until_nul_pad_id l : no_nul l → until_nul_pad l = l.
Proof.
  induction 1 as [|b l Hb Hl IH]; [done|]. cbn. by rewrite (proj2 (Z.eqb_neq b 0)), IH.
Qed.

Lemma c_str_app v r : no_nul v → c_str (v ++ 0 :: r) = Some v.
Proof. induction 1 as [|b l Hb Hl IH]; [done|]. cbn. by rewrite (proj2 (Z.eqb_neq b 0)), IH. Qed.

(** Header [t] reads back as [v], with each of the reading functions; or it is
    not there. *)
Definition hdr_reads (a : allocated_headers) (t : nat) (v : list Z) : Prop :=
  lws_hdr_total_length a t = Ok (length v)
  ∧ (∀ len, Z.of_nat (length v) < len → lws_hdr_copy a len t = Ok (Z.of_nat (length v), v))
  ∧ ∃ p, lws_hdr_simple_ptr a t = Ok (Some p) ∧ c_str p = Some v.

Definition hdr_absent (a : allocated_headers) (t : nat) : Prop :=
  lws_hdr_total_length a t = Ok 0%nat ∧ (∀ len, lws_hdr_copy a len t = Ok (0, [])) ∧ lws_hdr_simple_ptr a t = Ok None.

Lemma hdr_is_read max a t v : wf_ah max a → (pos a ≤ max)%nat → hdr_is a t v → hdr_reads a t v.
Proof.
  intros Hw Hp (n & f & H1 & H2 & H3 & H4 & H5 & H6 & H7 & H8).
  assert (get_index a t = Ok n) as Ei by (unfold get_index; by rewrite H1).
  assert ((n =? 0)%nat = false) as En by (apply Nat.eqb_neq; lia).
  assert (get_frag a n = Ok f) as Ef by (unfold get_frag; by rewrite H3).
  assert (length (frags a) = S (pred (length (frags a)))) as Efu by (destruct Hw as (_ & -> & _); unfold WSI_TOKEN_COUNT; lia).
  assert (lws_hdr_total_length a t = Ok (length v)) as Et.
  { unfold lws_hdr_total_length. rewrite Ei. cbn [mbind res_bind]. rewrite En, Efu. cbn [total_length_loop].
    rewrite Ef. cbn [mbind res_bind]. cbv zeta. by rewrite H4, H5. }
  split_and!; [done| |].
  - intros len Hlen. unfold lws_hdr_copy. rewrite Et. cbn [mbind res_bind].
    destruct (length v =? 0)%nat eqn:E0.
    { apply Nat.eqb_eq in E0. apply nil_length_inv in E0 as ->. done. }
    rewrite (proj2 (Z.leb_gt _ _)) by done. rewrite Ei. cbn [mbind res_bind]. rewrite En, Efu. cbn [copy_loop].
    rewrite Ef. cbn [mbind res_bind]. cbv zeta. rewrite H4, H5. cbn [Nat.eqb negb andb]. rewrite (proj2 (Z.leb_gt _ _)) by lia.
    unfold text_at. destruct Hw as (Hd & _). rewrite (proj2 (Nat.leb_le _ _)) by lia. cbn [mbind res_bind fst snd Z.ltb Z.compare].
    assert (take (length v) (drop (offset f) (data a)) = v) as ->.
    { apply (f_equal (take (length v))) in H7. rewrite take_take, Nat.min_l in H7 by lia. by rewrite take_app_length in H7. }
    by rewrite until_nul_pad_id, app_nil_r.
  - unfold lws_hdr_simple_ptr. rewrite Ei. cbn [mbind res_bind]. rewrite En, Ef. cbn [mbind res_bind]. eexists. split; [done|].
    rewrite <- (take_drop (S (length v)) (drop (offset f) (data a))), H7, <- app_assoc. by apply c_str_app.
Qed.

(** ** Lemmas: starting a fragment *)

(** Between two lines. *)
Definition ready (max : nat) (a : allocated_headers) : Prop :=
  wf_ah max a ∧ terminated a ∧ (pos a ≤ max)%nat ∧ parser_state a = WSI_TOKEN_NAME_PART
  ∧ lextable_pos a = Some 0%nat ∧ ues a = URIES_IDLE.

(** A token's text is about to be collected. *)
Definition started (max : nat) (a : allocated_headers) (t : nat) (a' : allocated_headers) : Prop :=
  views max a' [] ∧ parser_state a' = WSI_TOKEN t ∧ extends a a' ∧ nfrag a' = S (nfrag a) ∧ pos a' = pos a
  ∧ frag_index a' = <[t := nfrag a']> (frag_index a) ∧ offset (cur a') = pos a ∧ ups a' = ups a ∧ ues a' = ues a.

Lemma start_view max t a :
  wf_ah max a → terminated a → (S (nfrag a) < WSI_TOKEN_COUNT)%nat → (t < WSI_TOKEN_COUNT)%nat →
  frag_index a !! t = Some 0%nat → parser_state a = WSI_TOKEN t →
  (current_token_limit a = 0 ∨ max ≤ current_token_limit a)%nat →
  ∃ a', start_fragment max t a = Ok (CGo, a') ∧ started max a t a'.
Proof.
  intros Hw Htm Hn Ht Hi Hs Hl. unfold start_fragment, excessive. cbn [nfrag set_nfrag].
  rewrite (proj2 (Nat.eqb_neq _ _)) by lia.
  pose proof (wf_opened max false (pos a) a Hw Htm ltac:(lia) Hn) as Wo.
  pose proof (cur_opened max false (pos a) a Hw Hn) as Ec.
  set (b := opened false (pos a) a) in *. pose proof Hw as (H1 & H2 & H3 & _).
  assert (put_frag (S (nfrag a)) (Fragment (pos (set_nfrag (S (nfrag a)) a)) 0 0) (set_nfrag (S (nfrag a)) a) = Ok b) as ->.
  { unfold put_frag. cbn [frags set_nfrag pos]. by rewrite (proj2 (Nat.ltb_lt _ _)) by lia. }
  cbn [mbind res_bind]. change (get_index b t) with (get_index a t). unfold get_index. rewrite Hi. cbn [mbind res_bind Nat.eqb].
  destruct (wf_indexed max b t (nfrag b) Wo Ht ltac:(lia)) as [-> W]. cbn [mbind res_bind]. eexists. split; [done|].
  unfold started. change (cur (set_frag_index _ b)) with (cur b). rewrite Ec. split_and!; try done.
  - unfold views. change (cur (set_frag_index _ b)) with (cur b). rewrite Ec. split_and!; try done.
  - split_and!; try done; cbn; [lia|]. intros i Hii. by rewrite list_lookup_insert_ne by lia.
Qed.

(** ** Lemmas: the value of a header *)

Definition value_char (c : Z) : bool := negb (c =? 0) && negb (c =? 13).

(** Not empty, no leading space. *)
Definition value_ok (v : list Z) : bool :=
  match v with c :: _ => negb (c =? 32) | [] => false end && forallb value_char v.

Definition collecting (max : nat) (a : allocated_headers) (t : nat) (v : list Z) : Prop :=
  views max a v ∧ parser_state a = WSI_TOKEN t ∧ frag_index a !! t = Some (nfrag a) ∧ (t < WSI_TOKEN_COUNT)%nat
  ∧ is_method t = false ∧ t ≠ WSI_TOKEN_CHALLENGE ∧ ues a = URIES_IDLE ∧ (0 < nfrag a)%nat.

Lemma collect_value_char max t c a v :
  collecting max a t v → (v ≠ [] ∨ c ≠ 32) → collect_char max t c a = check_eol max t c a.
Proof.
  intros (Hv & Hs & Hi & Ht & Hm & _) Hc. unfold collect_char, get_index. rewrite Hi. cbn [mbind res_bind].
  rewrite (get_cur max) by apply Hv. cbn [mbind res_bind]. destruct Hv as (_ & -> & _).
  assert ((length v =? 0)%nat && (c =? 32) = false) as ->.
  { destruct v; [|done]. destruct Hc as [?|Hc]; [done|]. by rewrite (proj2 (Z.eqb_neq c 32)). }
  by rewrite Hm.
Qed.

Lemma value_step x t c a v :
  let max := max_http_header_data x in
  collecting max a t v → (pos a < max)%nat → value_char c = true → (v ≠ [] ∨ c ≠ 32) →
  ∃ a', runs x a [c] a' ∧ collecting max a' t (v ++ [c]) ∧ frame a a'.
Proof.
  intros max Hc Hp Hok Hne. unfold value_char in Hok. apply andb_true_iff in Hok as [H0 H13].
  apply negb_true_iff, Z.eqb_neq in H0. apply negb_true_iff, Z.eqb_neq in H13.
  pose proof (collect_value_char max t c a v Hc Hne) as Ec. destruct Hc as (Hv & Hs & Hi & Ht & Hm & Hch & He & Hn).
  destruct (issue_view max c a v Hv Hp H0) as (b & Eb & Hvb & Hfb & _). exists b.
  pose proof Hfb as (F1 & F2 & F3 & F4 & F5 & F6 & F7 & F8). split_and!; try done.
  - apply runs_one. unfold parse_char. fold max. rewrite Hs, Ec. unfold check_eol. rewrite (proj2 (Z.eqb_neq c 13)), andb_false_r by done.
    cbn [andb]. cbv zeta. rewrite Eb. cbn [mbind res_bind Z.ltb Z.compare]. rewrite bool_decide_eq_false_2; [done|].
    rewrite F8, Hs. by intros [= ?].
  - unfold collecting. rewrite F1, F2, F7, F8. by split_and!.
Qed.

Lemma value_run x t v a w :
  let max := max_http_header_data x in
  collecting max a t w → (pos a + length v ≤ max)%nat → forallb value_char v = true →
  (w ≠ [] ∨ match v with c :: _ => c ≠ 32 | [] => True end) →
  ∃ a', runs x a v a' ∧ collecting max a' t (w ++ v) ∧ frame a a'.
Proof.
  intros max. revert a w. induction v as [|c v IH]; intros a w Hc Hp Hok Hne.
  { exists a. rewrite app_nil_r. split_and!; [apply runs_nil|done|done]. }
  cbn [forallb length] in *. apply andb_true_iff in Hok as [Hok1 Hok].
  destruct (value_step x t c a w Hc ltac:(fold max; lia) Hok1 Hne) as (b & R & Hb & Fb).
  destruct (IH b (w ++ [c]) Hb) as (b2 & R2 & Hb2 & Fb2); [|done|left; by destruct w|].
  { destruct Hb as ((_ & _ & -> & _) & _). destruct Hc as ((_ & _ & Hpa & _) & _). destruct Fb as (_ & _ & -> & _).
    rewrite length_app. cbn. lia. }
  exists b2. rewrite <- app_assoc in Hb2. split_and!; [by eapply (runs_app x a b b2 [c] v)|done|by eapply frame_trans].
Qed.

Lemma spaces_run x t k a :
  let max := max_http_header_data x in
  collecting max a t [] → runs x a (replicate k 32) a.
Proof.
  intros max (Hv & Hs & Hi & _). induction k as [|k IH]; [apply runs_nil|]. cbn [replicate].
  eapply (runs_app x a a a [32]); [|done]. apply runs_one. unfold parse_char. fold max. rewrite Hs. unfold collect_char, get_index.
  rewrite Hi. cbn [mbind res_bind]. rewrite (get_cur max) by apply Hv. cbn [mbind res_bind]. by destruct Hv as (_ & -> & _).
Qed.

(** The text sealed with its NUL. *)
Lemma seal_view max a t v :
  views max a v → no_nul v → frag_index a !! t = Some (nfrag a) → (0 < nfrag a)%nat → (pos a < max)%nat →
  ∃ d, issue_char max 0 a = Ok (0, d) ∧ wf_ah max d ∧ terminated d ∧ hdr_is d t v ∧ pos d = S (pos a) ∧ frame a d ∧ ups d = ups a.
Proof.
  intros Hv Hnn Hi Hn Hp. pose proof Hv as (Hw & Hf & Hpa & Htx & Hl). set (d := stored 0 (flen (cur a)) a).
  destruct (wf_stored max 0 (flen (cur a)) a) as (W & _ & _ & P & L & T); try done; try lia.
  pose proof (views_stored max 0 a v Hv Hp) as (_ & _ & _ & Hd & _). rewrite length_app in Hd. cbn [length] in Hd.
  rewrite (cur_stored max) in Hd by done. cbn [offset] in Hd.
  change (data (stored 0 (S (flen (cur a))) a)) with (data d) in Hd.
  pose proof (cur_stored max 0 (flen (cur a)) a Hw) as Ecd. fold d in Ecd, P, W, T.
  exists d. split_and!; try done.
  - by eapply issue_nul.
  - by apply T.
  - exists (nfrag a), (cur d). rewrite P. split_and!; try done; try lia.
    + exact (lookup_cur max d W).
    + rewrite Ecd. cbn [fnext]. by destruct Hw as (_ & _ & _ & _ & _ & _ & -> & _).
    + by rewrite Ecd.
    + rewrite Ecd. cbn [offset]. lia.
    + rewrite Ecd. cbn [offset]. by rewrite Nat.add_1_r in Hd.
  - by eapply frame_stored.
Qed.

Lemma eol_run x t v a :
  let max := max_http_header_data x in
  collecting max a t v → v ≠ [] → no_nul v → (pos a < max)%nat →
  ∃ a', runs x a crlf a' ∧ ready max a' ∧ hdr_is a' t v ∧ pos a' = S (pos a) ∧ nfrag a' = nfrag a
    ∧ frag_index a' = frag_index a ∧ (∀ i, i ≠ nfrag a → frags a' !! i = frags a !! i)
    ∧ take (offset (cur a)) (data a') = take (offset (cur a)) (data a).
Proof.
  intros max Hc Hv0 Hnn Hp. pose proof (collect_value_char max t 13 a v Hc (or_introl Hv0)) as Ec.
  pose proof Hc as (Hv & Hs & Hi & Ht & Hm & Hch & He & Hn). set (b := set_parser_state WSI_TOKEN_SKIPPING_SAW_CR a).
  destruct (seal_view max b t v) as (d & Ed & W & T & Hh & P & (F1 & F2 & F3 & F4 & F5 & F6 & F7 & F8) & _); try done.
  assert (parse_char x 13 a = Ok (CGo, d)) as E1.
  { unfold parse_char. fold max. rewrite Hs, Ec. unfold check_eol. rewrite (proj2 (Nat.eqb_neq t _)) by done.
    rewrite bool_decide_eq_true_2 by done. cbn [negb andb Z.eqb Pos.eqb]. cbv zeta. fold b. rewrite Ed.
    cbn [mbind res_bind Z.ltb Z.compare]. by rewrite F8. }
  set (a' := set_lextable_pos (Some 0%nat) (set_parser_state WSI_TOKEN_NAME_PART d)).
  assert (parse_char x 10 d = Ok (CGo, a')) as E2.
  { unfold parse_char. rewrite F8. cbn [parser_state set_parser_state b]. rewrite bool_decide_eq_true_2 by (by rewrite F7). done. }
  exists a'. split_and!; try done.
  - eapply (runs_app x a d a' [13] [10]); by apply runs_one.
  - split_and!; try done; [cbn; rewrite P; cbn; lia|]. transitivity (ues b); [exact F7|exact He].
Qed.

(** Spaces, a value and the end of the line. *)
Lemma line_run x a t b k v :
  let max := max_http_header_data x in
  started max a t b → is_method t = false → t ≠ WSI_TOKEN_CHALLENGE → (t < length (frag_index a))%nat → ues a = URIES_IDLE →
  wf_ah max a → value_ok v = true → (pos a + length v < max)%nat →
  ∃ a', runs x b (replicate k 32 ++ v ++ crlf) a' ∧ ready max a' ∧ hdr_is a' t v ∧ extends a a'
    ∧ pos a' = S (pos a + length v) ∧ nfrag a' = S (nfrag a) ∧ frag_index a' = <[t := S (nfrag a)]> (frag_index a).
Proof.
  intros max (Hv & Hs & Hx & Hn & Hp & Hi & Ho & _ & He) Hm Hch Ht Hea Hwa Hok Hlen.
  unfold value_ok in Hok. apply andb_true_iff in Hok as [Hh Hok]. pose proof Hwa as (_ & _ & Hil & _).
  assert (collecting max b t []) as Hc.
  { split_and!; try done; [rewrite Hi; by apply list_lookup_insert_eq|lia|congruence|lia]. }
  destruct (value_run x t v b [] Hc) as (d & R & Hd & Fd); [fold max; lia|done|right; destruct v; [done|by apply negb_true_iff, Z.eqb_neq in Hh]|].
  cbn [app] in Hd. assert (no_nul v) as Hnn.
  { apply Forall_forall. intros c Hin. rewrite forallb_forall in Hok. specialize (Hok c (proj1 (list_elem_of_In _ _) Hin)).
    apply andb_true_iff in Hok as [Hok _]. by apply negb_true_iff, Z.eqb_neq in Hok. }
  pose proof Fd as (F1 & F2 & F3 & F4 & F5 & _). pose proof Hd as ((_ & _ & Hpd & _) & _).
  destruct (eol_run x t v d Hd) as (a' & R' & Hr & Hh' & P' & N' & I' & G' & D'); [by destruct v|done|fold max; lia|].
  exists a'. destruct Hx as (X1 & X2 & X3 & X4). split_and!; try done; try lia.
  - eapply runs_app; [by eapply spaces_run|]. by eapply runs_app.
  - split_and!; try lia.
    + intros i Hii. rewrite G', F4 by lia. by apply X3.
    + rewrite F3, Ho in D'. rewrite Ho in F5. rewrite D', F5. exact X4.
  - by rewrite I', F1, Hi, Hn.
Qed.

(** ** Lemmas: names *)

Lemma name_runs x p w n a :
  lex_word p (tolower <$> w) = Ok (LexKnown n, []) → parser_state a = WSI_TOKEN_NAME_PART → lextable_pos a = Some p →
  ∃ q, (∀ a', known_name x (Z.to_nat n) (set_lextable_pos (Some q) a) = Ok (CGo, a') → runs x a w a')
    ∧ (∀ a' rest ft hc, known_name x (Z.to_nat n) (set_lextable_pos (Some q) a) = Ok (CComplete, a') →
         lws_parse x (w ++ rest) (Hcon a ft hc)
         = ('(ok, w') ← set_parsing_complete (Hcon a' ft hc); Ok (if ok : bool then PZero else PForbidden, rest, w'))).
Proof.
  revert p a. induction w as [|c w IH]; intros p a; [done|]. cbn [fmap list_fmap lex_word]. intros E Hs Hp.
  assert (parse_char x c a = name_char x c a) as Epc by (unfold parse_char; by rewrite Hs).
  unfold name_char in Epc. rewrite Hp in Epc. cbn [mbind res_bind] in Epc. unfold lex_char in E.
  destruct (lex_step lex_fuel p (tolower c)) as [[p'|]|]; [| |done]; cbn [mbind res_bind] in E, Epc; [|done].
  destruct (lextable_at p') as [b|]; [|done]. cbn [mbind res_bind] in E, Epc. destruct (b <? FAIL_CHAR).
  - destruct (lextable_at (S p')) as [b1|]; [|done]. cbn [mbind res_bind] in E, Epc. injection E as <- Ew.
    apply fmap_nil_inv in Ew as ->. exists p'. rewrite <- Epc. split.
    + intros a' H. by apply runs_one.
    + intros a' rest ft hc H. cbn [app lws_parse ah]. by rewrite H.
  - destruct (IH p' (set_lextable_pos (Some p') a) E Hs eq_refl) as (q & H1 & H2). exists q.
    change (set_lextable_pos (Some q) (set_lextable_pos (Some p') a)) with (set_lextable_pos (Some q) a) in *. split.
    + intros a' H. eapply (runs_app x a _ a' [c] w); [by apply runs_one|by apply H1].
    + intros a' rest ft hc H. cbn [app lws_parse ah]. rewrite Epc. cbn [mbind res_bind]. by apply H2.
Qed.

Lemma known_start x n a :
  let max := max_http_header_data x in
  token_limits x = None → n ≠ WSI_TOKEN_SWORIGIN → n ≠ WSI_TOKEN_CHALLENGE → (n < WSI_TOKEN_COUNT)%nat →
  wf_ah max a → terminated a → frag_index a !! n = Some 0%nat → (S (nfrag a) < WSI_TOKEN_COUNT)%nat →
  ∃ a', known_name x n a = Ok (CGo, a') ∧ started max (set_ups URIPS_IDLE a) n a'.
Proof.
  intros max Hl Hn34 Hn8 Hn Hw Ht Hi Hnf. unfold known_name. cbv zeta. fold max.
  assert ((if is_method n then i ← get_index a n; Ok (negb (i =? 0)%nat) else Ok false) = Ok false) as ->
    by (unfold get_index; rewrite Hi; by destruct (is_method n)).
  cbn [mbind res_bind]. rewrite (proj2 (Nat.eqb_neq n WSI_TOKEN_SWORIGIN)) by done. rewrite Hl. cbn [mbind res_bind].
  rewrite (proj2 (Nat.eqb_neq n WSI_TOKEN_CHALLENGE)) by done.
  set (b := set_current_token_limit max (set_ups URIPS_IDLE (set_parser_state (WSI_TOKEN n) a))).
  destruct (start_view max n b) as (a' & E & Hst); try done; [by right|]. exists a'. by split.
Qed.

(** A header of a request: its token, its name as it was written, the spaces
    after it and its value. *)
Record header := Header { htok : nat; hname : list Z; hspaces : nat; hvalue : list Z }.

Definition header_text (h : header) : list Z := hname h ++ replicate (hspaces h) 32 ++ hvalue h ++ crlf.

(** The name is the token's, in any case; it is no method, and not the end of
    the headers, the version or the old name of origin. *)
Definition field_ok (h : header) : Prop :=
  (Z.of_nat (htok h), tolower <$> hname h) ∈ all_names ∧ is_method (htok h) = false
  ∧ htok h ∉ [WSI_TOKEN_CHALLENGE; WSI_TOKEN_HTTP; WSI_TOKEN_SWORIGIN] ∧ value_ok (hvalue h) = true.

Lemma header_run x h a :
  let max := max_http_header_data x in
  token_limits x = None → field_ok h → ready max a → frag_index a !! htok h = Some 0%nat →
  (S (nfrag a) < WSI_TOKEN_COUNT)%nat → (pos a + length (hvalue h) < max)%nat →
  ∃ a', runs x a (header_text h) a' ∧ ready max a' ∧ hdr_is a' (htok h) (hvalue h) ∧ extends a a'
    ∧ pos a' = S (pos a + length (hvalue h)) ∧ nfrag a' = S (nfrag a) ∧ frag_index a' = <[htok h := S (nfrag a)]> (frag_index a).
Proof.
  intros max Hl (Hin & Hm & Hne & Hv) (Hw & Ht & Hp & Hs & Hlp & He) Hi Hn Hlen.
  pose proof (proj1 (Forall_forall _ _) all_names_tokens _ Hin) as Hb. cbn in Hb. pose proof (lex_word_known _ _ [] Hin) as Hlex. rewrite app_nil_r in Hlex.
  rewrite !not_elem_of_cons in Hne. destruct Hne as (Hn8 & Hn15 & Hn34 & _).
  assert (htok h < WSI_TOKEN_COUNT)%nat as Htc by (unfold WSI_TOKEN_COUNT; lia).
  destruct (name_runs x 0 (hname h) _ a Hlex Hs Hlp) as (q & H1 & _). rewrite Nat2Z.id in H1.
  set (b := set_lextable_pos (Some q) a) in *.
  destruct (known_start x (htok h) b) as (b' & E & Hst); try done.
  destruct (line_run x (set_ups URIPS_IDLE b) (htok h) b' (hspaces h) (hvalue h)) as (a' & R & Hr & Hh & Hx & Hpp & Hnn & Hii); try done.
  { destruct Hw as (_ & _ & H3 & _). cbn. lia. }
  exists a'. split_and!; try done. unfold header_text. eapply runs_app; [by apply H1|done].
Qed.

Definition headers_size (hs : list header) : nat := sum_list ((λ h, S (length (hvalue h))) <$> hs).

Lemma headers_run x hs a :
  let max := max_http_header_data x in
  token_limits x = None → Forall field_ok hs → NoDup (htok <$> hs) → ready max a →
  (∀ h, h ∈ hs → frag_index a !! htok h = Some 0%nat) →
  (nfrag a + length hs < WSI_TOKEN_COUNT)%nat → (pos a + headers_size hs ≤ max)%nat →
  ∃ a', runs x a (hs ≫= header_text) a' ∧ ready max a' ∧ (∀ h, h ∈ hs → hdr_is a' (htok h) (hvalue h)) ∧ extends a a'
    ∧ ∀ t, t ∉ htok <$> hs → frag_index a' !! t = frag_index a !! t.
Proof.
  intros max Hl. revert a. induction hs as [|h hs IH]; intros a Hok Hnd Hr Hi Hn Hp.
  { exists a. split_and!; try done. by intros h ?%elem_of_nil. }
  inversion Hok as [|? ? Hh Hhs]; subst. cbn [fmap list_fmap] in Hnd. apply NoDup_cons in Hnd as [Hni Hnd].
  cbn [length] in Hn. change (headers_size (h :: hs)) with (S (length (hvalue h)) + headers_size hs)%nat in Hp.
  destruct (header_run x h a Hl Hh Hr) as (b & R & Hrb & Hhb & Hxb & Pb & Nb & Ib); [apply Hi; left|lia|fold max; lia|].
  assert (∀ t, t ≠ htok h → frag_index b !! t = frag_index a !! t) as Hib.
  { intros t Ht. rewrite Ib. by apply list_lookup_insert_ne. }
  destruct (IH b Hhs Hnd Hrb) as (a' & R' & Hr' & Hh' & Hx' & Hi'); [|lia|lia|].
  { intros h' Hin. rewrite Hib; [apply Hi; by right|]. intros E. apply Hni. rewrite <- E. by apply list_elem_of_fmap_2. }
  exists a'. split_and!; try done.
  - cbn. by eapply runs_app.
  - intros h' [->|Hin]%elem_of_cons; [|by apply Hh']. eapply hdr_is_extends; [done| |done]. by apply Hi'.
  - by eapply extends_trans.
  - intros t Ht. cbn in Ht. apply not_elem_of_cons in Ht as [Hne Ht]. rewrite Hi', Hib by done. done.
Qed.

(** ** Lemmas: the request line *)

Lemma strip_no_nul r : no_nul r → no_nul (strip r).
Proof.
  induction r as [|c r IH]; [done|]. intros H. inversion H; subst. cbn [strip]. repeat case_match; auto.
Qed.

Lemma back_no_nul T : no_nul T → no_nul (back T).
Proof.
  intros H. unfold back. case_match; [done|]. apply Forall_rev, strip_no_nul. apply Forall_rev in H.
  destruct (rev T); [done|]. by inversion H.
Qed.

Lemma ustep_no_nul s c : no_nul s.2 → c ≠ 0 → no_nul (ustep s c).2.
Proof.
  destruct s as [u T]. cbn [snd]. intros H Hc. pose proof (back_no_nul T H) as Hb.
  destruct u; cbn [ustep]; repeat case_match; cbn [snd]; try done; apply Forall_app; split; try done; repeat (constructor; try done).
Qed.

Lemma usteps_facts path s :
  forallb uok path = true → no_nul s.2 →
  no_nul (foldl ustep s (uval <$> path)).2
  ∧ (length (foldl ustep s (uval <$> path)).2 + pending (foldl ustep s (uval <$> path)).1 ≤ length s.2 + pending s.1 + length path)%nat.
Proof.
  revert s. induction path as [|ch path IH]; intros s Hok Hs; [cbn; split; [done|lia]|].
  cbn [forallb] in Hok. apply andb_true_iff in Hok as [Hok1 Hok]. cbn [fmap list_fmap foldl length].
  assert (uval ch ≠ 0) as H0.
  { unfold uok in Hok1. apply andb_true_iff in Hok1 as [Hok1 _]. apply negb_true_iff in Hok1. cbn in Hok1.
    apply orb_false_iff in Hok1 as [Hok1 _]. by apply Z.eqb_neq. }
  destruct (IH (ustep s (uval ch)) Hok (ustep_no_nul s _ Hs H0)) as [H1 H2]. split; [done|].
  pose proof (ustep_length s (uval ch)). lia.
Qed.

(** The space after the path. *)
Lemma uri_end x t a u T :
  let max := max_http_header_data x in
  let T' := if bool_decide (u = URIPS_SEEN_SLASH_DOT_DOT) then back T else T in
  uri_state max a (u, T) → parser_state a = WSI_TOKEN t → T ≠ [] → no_nul T' → frag_index a !! t = Some (nfrag a) →
  frag_index a !! WSI_TOKEN_HTTP = Some 0%nat → (0 < nfrag a)%nat → (S (nfrag a) < WSI_TOKEN_COUNT)%nat → (pos a < max)%nat →
  ∃ b d, runs x a [32] d ∧ started max b WSI_TOKEN_HTTP d ∧ wf_ah max b ∧ hdr_is b t T'
    ∧ pos b = S (offset (cur a) + length T')
    ∧ nfrag b = nfrag a ∧ frag_index b = frag_index a ∧ ues b = URIES_IDLE
    ∧ (∀ i, i ≠ nfrag a → frags b !! i = frags a !! i) ∧ take (offset (cur a)) (data b) = take (offset (cur a)) (data a).
Proof.
  intros max T' (Hv & Hu & He & Hi & t' & Ht & Hm) Hs Hne Hnn Hit Hih Hn0 Hn Hp. cbn [fst snd] in *.
  rewrite Hs in Ht. injection Ht as <-.
  assert (∃ b, (if bool_decide (ups a = URIPS_SEEN_SLASH_DOT_DOT) then back_up a else Ok a) = Ok b ∧ views max b T' ∧ frame a b) as (b & Eb & Hvb & Fb).
  { rewrite Hu. unfold T'. destruct (bool_decide _); [|by exists a]. destruct (back_up_view max a T Hv) as (b & E & ? & ? & _). by exists b. }
  pose proof Fb as (B1 & B2 & B3 & B4 & B5 & B6 & B7 & B8). pose proof Hvb as (_ & _ & Hpb & _).
  assert (length T' ≤ length T)%nat as HT' by (unfold T'; destruct (bool_decide (u = _)); [apply length_back|done]).
  pose proof Hv as (Hw & Hfa & Hpa & _).
  destruct (seal_view max b t T' Hvb Hnn) as (d & Ed & W & Tm & Hh & P & (D1 & D2 & D3 & D4 & D5 & D6 & D7 & D8) & _); [congruence|lia|lia|].
  set (e := set_parser_state (WSI_TOKEN WSI_TOKEN_HTTP) d).
  destruct (start_view max WSI_TOKEN_HTTP e) as (g & Eg & Hst); try done.
  { cbn. lia. }
  { unfold WSI_TOKEN_HTTP, WSI_TOKEN_COUNT. lia. }
  { cbn. by rewrite D1, B1. }
  { cbn. rewrite D6, B6. by destruct Hv as (_ & _ & _ & _ & ?). }
  exists e, g. split_and!; try done; try (cbn; congruence).
  - apply runs_one. unfold parse_char. fold max. rewrite Hs. unfold collect_char, get_index. rewrite Hit. cbn [mbind res_bind].
    rewrite (get_cur max) by done. cbn [mbind res_bind]. rewrite Hfa.
    assert ((length T =? 0)%nat = false) as -> by by destruct T. rewrite Hm. cbn [andb negb Z.eqb Pos.eqb].
    cbn [mbind res_bind Z.ltb Z.compare]. rewrite Eb. cbn [mbind res_bind]. rewrite Ed. cbn [mbind res_bind Z.ltb Z.compare]. exact Eg.
  - intros i Hii. cbn. rewrite D4, B4 by congruence. done.
Qed.

(** The methods whose names end in the table with their space. *)
Definition req_methods : list nat := [WSI_TOKEN_GET_URI; WSI_TOKEN_POST_URI; WSI_TOKEN_OPTIONS_URI; WSI_TOKEN_HEAD_URI].

Definition toupper (c : Z) : Z := if (97 <=? c) && (c <=? 122) then c - 32 else c.

(** The name of a method, in capitals. *)
Definition meth_text (mt : nat) : list Z := toupper <$> default [] (HttpHead.set !! mt).

Lemma req_method_facts mt :
  mt ∈ req_methods →
  lex_word 0 (tolower <$> meth_text mt) = Ok (LexKnown (Z.of_nat mt), []) ∧ is_method mt = true ∧ mt ≠ WSI_TOKEN_HTTP
  ∧ mt ≠ WSI_TOKEN_HTTP_URI_ARGS ∧ mt ≠ WSI_TOKEN_SWORIGIN ∧ mt ≠ WSI_TOKEN_CHALLENGE ∧ (mt < WSI_TOKEN_COUNT)%nat.
Proof.
  intros Hin. unfold req_methods in Hin. rewrite !elem_of_cons, elem_of_nil in Hin.
  destruct Hin as [->|[->|[->|[->|[]]]]]; (split_and!; [vm_compute; reflexivity|reflexivity|by_compute..]).
Qed.

(** The request line: the method, the path and the version. *)
Definition request_line (mt : nat) (path : list uchar) (version : list Z) : list Z :=
  meth_text mt ++ (path ≫= utext) ++ [32] ++ version ++ crlf.

Lemma extends_started max a b t : started max a t b → extends a b.
Proof. by intros (_ & _ & ? & _). Qed.

Lemma request_line_run x a mt path version segs last :
  let max := max_http_header_data x in
  mt ∈ req_methods → token_limits x = None → ready max a → Forall (λ t, frag_index a !! t = Some 0%nat) [mt; WSI_TOKEN_HTTP; WSI_TOKEN_HTTP_URI_ARGS] →
  forallb uok path = true → uval <$> path = render (segs ++ [last]) → Forall seg_ok segs → seg_ok last →
  value_ok version = true → (S (S (nfrag a)) < WSI_TOKEN_COUNT)%nat → (pos a + length path + length version + 3 ≤ max)%nat →
  ∃ a', runs x a (request_line mt path version) a' ∧ ready max a' ∧ extends a a'
    ∧ hdr_is a' mt (norm_path segs last) ∧ hdr_is a' WSI_TOKEN_HTTP version
    ∧ (pos a' ≤ pos a + length path + length version + 2)%nat ∧ nfrag a' = S (S (nfrag a))
    ∧ ∀ t, t ≠ mt → t ≠ WSI_TOKEN_HTTP → frag_index a' !! t = frag_index a !! t.
Proof.
  intros max Hmt Hl (Hw & Ht & Hp & Hs & Hlp & He) Hi Hok Hpath Hsegs Hlast Hver Hn Hlen.
  rewrite !Forall_cons in Hi. destruct Hi as (Hi0 & Hi15 & Hi76 & _).
  destruct (req_method_facts mt Hmt) as (Hlex & Hmeth & Hm15 & Hm76 & Hm34 & Hm8 & Hc0).
  assert (WSI_TOKEN_HTTP < WSI_TOKEN_COUNT)%nat as Hc15 by (unfold WSI_TOKEN_HTTP, WSI_TOKEN_COUNT; lia).
  pose proof Hw as (_ & _ & Hil & _).
  (* the method *)
  destruct (name_runs x 0 (meth_text mt) (Z.of_nat mt) a Hlex Hs Hlp) as (q & H1 & _). rewrite Nat2Z.id in H1.
  set (a0 := set_lextable_pos (Some q) a) in *.
  destruct (known_start x mt a0) as (b & E & Hst); try done; [cbn; lia|].
  specialize (H1 b E). destruct Hst as (Hv & Hsb & (X1 & X2 & X3 & X4) & Nb & Pb & Ib & Ob & Ub & Eb).
  (* the path *)
  assert (uri_state max b (URIPS_IDLE, [])) as Hu.
  { split_and!; try done; [by rewrite Eb|rewrite Ib; by rewrite list_lookup_insert_ne|]. by exists mt. }
  destruct (uri_run x b (URIPS_IDLE, []) path Hu Hok) as (c & R2 & Hc & (F1 & F2 & F3 & F4 & F5 & F6 & F7 & F8)).
  { rewrite Ob. cbn. fold max. lia. }
  destruct (usteps_facts path (URIPS_IDLE, []) Hok (Forall_nil_2 _)) as [Hnn Hlt].
  rewrite Hpath in Hc, Hnn, Hlt. destruct (path_run segs last Hsegs Hlast) as (u & T & ET & HT & HN). rewrite ET in Hc, Hnn, Hlt.
  cbn [fst snd length pending] in Hnn, Hlt. pose proof Hc as ((_ & _ & Hpc & _) & _). cbn [snd] in Hpc.
  (* the space *)
  destruct (uri_end x mt c u T Hc) as (d & g & R3 & Hst3 & Wd & Hd & Pd & Nd & Id & Ed & Gd & Dd).
  { by rewrite F8, Hsb. }
  { done. }
  { destruct (bool_decide (u = _)); [by apply back_no_nul|done]. }
  { rewrite F1, Ib, F2. apply list_lookup_insert_eq. cbn. lia. }
  { rewrite F1, Ib. by rewrite list_lookup_insert_ne. }
  { rewrite F2, Nb. lia. }
  { rewrite F2, Nb. cbn. lia. }
  { fold max. rewrite Hpc, F3, Ob. cbn. lia. }
  rewrite HN in Hd. 
  assert (length (norm_path segs last) ≤ length T)%nat as HlN by (rewrite <- HN; destruct (bool_decide (u = _)); [apply length_back|done]).
  rewrite HN in Pd. rewrite F3, Ob in Pd, Dd. change (pos (set_ups URIPS_IDLE a0)) with (pos a) in *.
  (* the version *)
  destruct (line_run x d WSI_TOKEN_HTTP g 0 version Hst3) as (a' & R4 & Hr & Hh & Hx & Pa & Na & Ia); try done.
  { rewrite Id, F1, Ib, length_insert. cbn. lia. }
  { rewrite Pd. fold max. lia. }
  assert (extends a d) as Hxd.
  { split_and!.
    - rewrite Nd, F2, Nb. cbn. lia.
    - rewrite Pd. lia.
    - intros i Hii. rewrite Gd, F4, X3; [done|exact Hii|..]; rewrite ?F2, Nb; cbn; lia.
    - rewrite Dd. rewrite Ob in F5. rewrite F5. exact X4. }
  exists a'. split_and!; try done.
  - unfold request_line. eapply runs_app; [exact H1|]. eapply runs_app; [exact R2|]. eapply runs_app; [exact R3|exact R4].
  - by eapply extends_trans.
  - eapply hdr_is_extends; [exact Hx| |exact Hd]. rewrite Ia. by rewrite list_lookup_insert_ne.
  - rewrite Pa, Pd. lia.
  - rewrite Na, Nd, F2, Nb. done.
  - intros t Ht0 Ht15. rewrite Ia, Id, F1, Ib. by rewrite !list_lookup_insert_ne by done.
Qed.

(** The empty line. *)
Lemma end_run x a :
  token_limits x = None → ready (max_http_header_data x) a →
  ∀ rest ft hc, ∃ a' ft', lws_parse x (crlf ++ rest) (Hcon a ft hc) = Ok (PZero, rest, Hcon a' ft' true)
    ∧ parser_state a' = WSI_PARSING_COMPLETE ∧ data a' = data a ∧ frags a' = frags a ∧ frag_index a' = frag_index a
    ∧ nfrag a' = nfrag a ∧ pos a' = pos a.
Proof.
  intros Hl (Hw & Ht & Hp & Hs & Hlp & He) rest ft hc.
  destruct (name_runs x 0 crlf 8 a ltac:(vm_compute; reflexivity) Hs Hlp) as (q & _ & H2).
  erewrite H2; [|unfold known_name; rewrite Hl; reflexivity].
  set (w := Hcon _ ft hc). destruct (set_parsing_complete_ok (max_http_header_data x) w) as [[? _]|[_ [ft' ->]]]; try done.
  cbn [mbind res_bind]. by eexists _, _.
Qed.

Lemma fresh_ready text ft : ready (length text) (ah (fresh text ft)).
Proof.
  destruct (fresh_wf text ft) as [W (P & T & _)]. by split_and!.
Qed.

Lemma fresh_index text ft t : (t < WSI_TOKEN_COUNT)%nat → frag_index (ah (fresh text ft)) !! t = Some 0%nat.
Proof. intros H. cbn. by apply lookup_replicate_2. Qed.

(** The end of the headers moves nothing. *)
Lemma hdr_is_same a a' t v :
  data a' = data a → frags a' = frags a → frag_index a' = frag_index a → nfrag a' = nfrag a → pos a' = pos a →
  hdr_is a t v → hdr_is a' t v.
Proof.
  intros E1 E2 E3 E4 E5. apply hdr_is_extends; [|by rewrite E3]. unfold extends. rewrite E1, E2, E4, E5. split_and!; auto.
Qed.

(** A request that fits: its path is [segs ++ [last]], its headers are [hs]. *)
Record good_request (x : http_context) (text : list Z) (mt : nat) (path : list uchar) (version : list Z)
    (segs : list (list Z)) (last : list Z) (hs : list header) : Prop := {
  gr_method : mt ∈ req_methods;
  gr_limits : token_limits x = None;
  gr_space : max_http_header_data x = length text;
  gr_uok : forallb uok path = true;
  gr_path : uval <$> path = render (segs ++ [last]);
  gr_segs : Forall seg_ok segs;
  gr_last : seg_ok last;
  gr_version : value_ok version = true;
  gr_headers : Forall field_ok hs;
  gr_once : NoDup (htok <$> hs);
  gr_count : (length hs + 2 < WSI_TOKEN_COUNT)%nat;
  gr_fits : (length path + length version + 3 + headers_size hs ≤ length text)%nat;
}.

Definition request_text (mt : nat) (path : list uchar) (version : list Z) (hs : list header) : list Z :=
  request_line mt path version ++ (hs ≫= header_text) ++ crlf.

(** What is in the store afterwards: these and nothing else. *)
Definition stored_request (a : allocated_headers) (fields : list (nat * list Z)) : Prop :=
  parser_state a = WSI_PARSING_COMPLETE
  ∧ (∀ t v, (t, v) ∈ fields → hdr_reads a t v)
  ∧ (∀ t, (t < WSI_TOKEN_COUNT)%nat → t ∉ fields.*1 → hdr_absent a t).

Definition request_fields (mt : nat) (version : list Z) (segs : list (list Z)) (last : list Z) (hs : list header) : list (nat * list Z) :=
  (mt, norm_path segs last) :: (WSI_TOKEN_HTTP, version) :: ((λ h, (htok h, hvalue h)) <$> hs).

Lemma header_token mt h : is_method mt = true → field_ok h → htok h ≠ mt ∧ htok h ≠ WSI_TOKEN_HTTP ∧ (htok h < WSI_TOKEN_COUNT)%nat.
Proof.
  intros Hmt (Hna & Hm & Hne & _). rewrite !not_elem_of_cons in Hne.
  pose proof (proj1 (Forall_forall _ _) all_names_tokens _ Hna) as Hbd. cbn in Hbd.
  split_and!; [intros E; rewrite E in Hm; congruence|naive_solver|unfold WSI_TOKEN_COUNT; lia].
Qed.

(** A header store without headers: a new one, or one that was reset. *)
Definition clean (max : nat) (w : hcon) : Prop :=
  ready max (ah w) ∧ (∀ t, (t < WSI_TOKEN_COUNT)%nat → frag_index (ah w) !! t = Some 0%nat)
  ∧ pos (ah w) = 0%nat ∧ nfrag (ah w) = 0%nat ∧ ups (ah w) = URIPS_IDLE ∧ hdr_parsing_completed w = false.

Lemma reset_clean a ft : ups a = URIPS_IDLE → ues a = URIES_IDLE → clean (length (data a)) (Hcon (_lws_header_table_reset a) ft false).
Proof.
  intros Hu He. destruct (fresh_ready (data a) ft) as (H1 & H2 & H3 & H4 & H5 & _).
  split_and!; try done. exact (fresh_index (data a) ft).
Qed.

Lemma fresh_clean text ft : clean (length text) (fresh text ft).
Proof. by apply (reset_clean (_lws_create_ah text)). Qed.

Lemma parse_request x text w mt path version segs last hs body :
  good_request x text mt path version segs last hs → clean (length text) w →
  ∃ a ft', lws_parse x (request_text mt path version hs ++ body) w = Ok (PZero, body, Hcon a ft' true)
    ∧ stored_request a (request_fields mt version segs last hs) ∧ length (data a) = length text.
Proof.
  intros [Hmt Hx Hmax Hok Hpath Hsegs Hlast Hver Hhs Hnd Hn Hlen]. destruct (req_method_facts mt Hmt) as (_ & Hmeth & _ & _ & _ & _ & Hc0).
  destruct w as [a0 ft hc]. intros (Hr & Hi & Hp0 & Hn0 & Hu & Hhc). cbn [ah hdr_parsing_completed] in *. subst hc. rewrite <- Hmax in Hr.
  destruct (request_line_run x a0 mt path version segs last)
    as (b & R1 & Hrb & Xb & Hb0 & Hb15 & Pb & Nb & Ib); try done.
  { repeat constructor; apply Hi; unfold WSI_TOKEN_HTTP, WSI_TOKEN_HTTP_URI_ARGS, WSI_TOKEN_COUNT; [done|lia..]. }
  { lia. }
  { rewrite Hmax. lia. }
  rewrite Hp0 in Pb. rewrite Hn0 in Nb.
  assert (∀ t, t ≠ mt → t ≠ WSI_TOKEN_HTTP → (t < WSI_TOKEN_COUNT)%nat → frag_index b !! t = Some 0%nat) as Hib.
  { intros t H1 H2 H3. rewrite Ib by done. by apply Hi. }
  assert (∀ h, h ∈ hs → field_ok h) as Hall by by apply Forall_forall.
  destruct (headers_run x hs b Hx Hhs Hnd Hrb) as (c & R2 & Hrc & Hc & Xc & Ic).
  { intros h Hin. by apply Hib; apply (header_token mt h Hmeth (Hall h Hin)). }
  { lia. }
  { rewrite Hmax. lia. }
  destruct (end_run x c Hx Hrc body ft false) as (a & ft' & E & Hcomplete & E1 & E2 & E3 & E4 & E5).
  assert (∀ t, t = mt ∨ t = WSI_TOKEN_HTTP → frag_index c !! t = frag_index b !! t) as Hkeep.
  { intros t Ht. apply Ic. intros (h & -> & Hin)%list_elem_of_fmap. pose proof (header_token mt h Hmeth (Hall h Hin)). naive_solver. }
  destruct Hrc as (Wc & _ & Pc & _).
  assert (∀ t v, hdr_is c t v → hdr_reads a t v) as Hread.
  { intros t v Hh. apply (hdr_is_read (max_http_header_data x)); [|by rewrite E5|by eapply hdr_is_same].
    unfold wf_ah, sealed, nul_in, cur in *. by rewrite E1, E2, E3, E4, E5. }
  exists a, ft'. split_and!; [|split_and!; [done| |]|rewrite E1; destruct Wc as [-> _]; exact Hmax].
  - unfold request_text. rewrite <- !app_assoc, R1, R2. exact E.
  - intros t v Hin. unfold request_fields in Hin. rewrite !elem_of_cons in Hin. destruct Hin as [[= -> ->]|[[= -> ->]|Hin]]; apply Hread.
    + eapply hdr_is_extends; [exact Xc| |exact Hb0]. auto.
    + eapply hdr_is_extends; [exact Xc| |exact Hb15]. auto.
    + apply list_elem_of_fmap in Hin as (h & [= -> ->] & Hin). by apply Hc.
  - intros t Ht Hni. unfold request_fields in Hni. cbn in Hni. rewrite !not_elem_of_cons in Hni. destruct Hni as (H1 & H2 & H3).
    rewrite <- list_fmap_compose in H3.
    unfold hdr_absent, lws_hdr_copy, lws_hdr_total_length, lws_hdr_simple_ptr, get_index. rewrite E3, Ic, Hib by done. done.
Qed.

(** Copying any header gives a result. *)
Lemma copy_result a t len : hdr_absent a t ∨ (∃ v, hdr_reads a t v) → ∃ r, lws_hdr_copy a len t = Ok r.
Proof.
  intros [(_ & H & _)|(v & H1 & H2 & _)]; [by eexists|]. destruct (decide (Z.of_nat (length v) < len)); [by eexists; apply H2|].
  unfold lws_hdr_copy. rewrite H1. cbn [mbind res_bind]. destruct (length v =? 0)%nat; [by eexists|].
  rewrite (proj2 (Z.leb_le len _)) by lia. by eexists.
Qed.

Lemma stored_cases a fields t :
  stored_request a fields → (t < WSI_TOKEN_COUNT)%nat → hdr_absent a t ∨ ∃ v, hdr_reads a t v.
Proof.
  intros (_ & H1 & H2) Ht. destruct (decide (t ∈ fields.*1)) as [Hin|Hin]; [right|left; by apply H2].
  apply list_elem_of_fmap in Hin as ([t' v] & -> & Hin). exists v. by apply H1.
Qed.

(** No field of a request is another method. *)
Lemma no_other_method mt version segs last hs t :
  Forall field_ok hs → is_method t = true → t ≠ mt → t ∉ (request_fields mt version segs last hs).*1.
Proof.
  intros Hhs Hm Hne Hin. unfold request_fields in Hin. cbn in Hin. rewrite !elem_of_cons in Hin.
  destruct Hin as [->|[->|Hin]]; [done|done|]. rewrite <- list_fmap_compose in Hin.
  apply list_elem_of_fmap in Hin as (h & -> & Hin). rewrite Forall_forall in Hhs. destruct (Hhs h Hin) as (_ & Hm' & _).
  change (is_method (htok h) = true) in Hm. congruence.
Qed.

(** ** Lemmas: a request in pieces *)

(** The reads of a connection are given to the parser until the headers are
    complete (the loop over calls of lws_handshake_server): the rest of the
    last read used, and the reads that were not. *)
Fixpoint parse_pieces (x : http_context) (ps : list (list Z)) (w : hcon) :
    res (parse_result * list Z * list (list Z) * hcon) :=
  match ps with
  | [] => Ok (PZero, [], [], w)
  | b :: ps =>
      '(r, rest, w) ← lws_parse x b w;
      if bool_decide (r = PZero) && negb (bool_decide (parser_state (ah w) = WSI_PARSING_COMPLETE))
      then parse_pieces x ps w else Ok (r, rest, ps, w)
  end.

Lemma parse_complete x b w : parser_state (ah w) = WSI_PARSING_COMPLETE → lws_parse x b w = Ok (PZero, [], w).
Proof.
  intros H. destruct w as [a ft hc]. cbn in H. induction b as [|c b IH]; [done|]. cbn [lws_parse ah]. unfold parse_char. rewrite H.
  cbn [mbind res_bind]. exact IH.
Qed.

Lemma complete_state w b w' : set_parsing_complete w = Ok (b, w') → hdr_parsing_completed w = false →
  hdr_parsing_completed w' = b ∧ (b = true → parser_state (ah w') = WSI_PARSING_COMPLETE).
Proof.
  unfold set_parsing_complete. destruct (negb _); [by intros [= <- <-]|]. intros H _.
  apply bind_Ok_inv in H as (up & _ & H). apply bind_Ok_inv in H as (ver & _ & H). apply bind_Ok_inv in H as (t & _ & H).
  by injection H as <- <-.
Qed.

(** A parse that completes can be stopped anywhere and gone on with. *)
Lemma parse_split x b1 b2 w body w' :
  lws_parse x (b1 ++ b2) w = Ok (PZero, body, w') → hdr_parsing_completed w = false → hdr_parsing_completed w' = true →
  (∃ rest, lws_parse x b1 w = Ok (PZero, rest, w') ∧ rest ++ b2 = body ∧ parser_state (ah w') = WSI_PARSING_COMPLETE)
  ∨ (∃ w1, lws_parse x b1 w = Ok (PZero, [], w1) ∧ parser_state (ah w1) ≠ WSI_PARSING_COMPLETE
       ∧ hdr_parsing_completed w1 = false ∧ lws_parse x b2 w1 = Ok (PZero, body, w')).
Proof.
  revert w. induction b1 as [|c b1 IH]; intros w E Hw Hw'.
  - right. exists w. split_and!; try done. intros Hc. rewrite (parse_complete x _ w Hc) in E. injection E as <- <-. congruence.
  - cbn [lws_parse app] in *. destruct (parse_char x c (ah w)) as [[e a]|]; [|done]. cbn [mbind res_bind] in *.
    destruct e; try (injection E; congruence); [by apply IH|].
    left. apply bind_Ok_inv in E as ([ok w1] & E & H). rewrite E. cbn [mbind res_bind]. destruct ok; [|done]. injection H as <- <-.
    exists b1. split_and!; try done. by eapply (complete_state _ true).
Qed.

Lemma pieces_parsed x ps w text body w' :
  lws_parse x text w = Ok (PZero, body, w') → hdr_parsing_completed w = false → hdr_parsing_completed w' = true →
  concat ps = text →
  ∃ rest ps', parse_pieces x ps w = Ok (PZero, rest, ps', w') ∧ rest ++ concat ps' = body
    ∧ parser_state (ah w') = WSI_PARSING_COMPLETE.
Proof.
  revert w text. induction ps as [|b ps IH]; intros w text E Hw Hw' <-.
  - cbn in E. injection E as <- <-. congruence.
  - cbn [concat] in E. cbn [parse_pieces].
    destruct (parse_split x b (concat ps) w body w' E Hw Hw') as [(rest & -> & Hr & Hc)|(w1 & -> & Hn & Hw1 & E')]; cbn [mbind res_bind].
    + rewrite !bool_decide_eq_true_2 by done. cbn [andb negb]. by exists rest, ps.
    + rewrite bool_decide_eq_true_2, bool_decide_eq_false_2 by done. cbn [andb negb]. by eapply IH.
Qed.

(** ** Claims *)

(** [C5] A well-formed request is parsed to its contents: from a new
    connection, whatever the header space held before and however the bytes are
    cut into reads, the parser reads the request line, the headers (names in any case, any spaces before the value,
    each once) and the empty line, stops right after them, and then the path
    read back is the resolved, decoded path, the version and every header read
    back are the ones sent, and no other header is there. *)
Theorem request_parsed x text ft mt path version segs last hs ps body
    (Hgood : good_request x text mt path version segs last hs)
    (Hps : concat ps = request_text mt path version hs ++ body) :
  ∃ a ft' rest ps', parse_pieces x ps (fresh text ft) = Ok (PZero, rest, ps', Hcon a ft' true)
    ∧ rest ++ concat ps' = body ∧ stored_request a (request_fields mt version segs last hs).
Proof.
  destruct (parse_request x text (fresh text ft) mt path version segs last hs body Hgood (fresh_clean text ft)) as (a & ft' & E & Hst & _).
  destruct (pieces_parsed x ps _ _ _ _ E eq_refl eq_refl Hps) as (rest & ps' & E' & Hr & _).
  by exists a, ft', rest, ps'.
Qed.

Definition sample_headers : list header :=
  [Header WSI_TOKEN_HOST (bs "Host:") 1 (bs "comlink"); Header WSI_TOKEN_UPGRADE (bs "UPGRADE:") 2 (bs "websocket")].

Definition sample_path : list uchar := Raw <$> bs "/a/../b/." .

Lemma sample_good : good_request (sample_context 128) (replicate 128 7) WSI_TOKEN_GET_URI sample_path (bs "HTTP/1.1") [bs "a"; bs ".."; bs "b"] (bs ".") sample_headers.
Proof.
  split; try reflexivity; unfold req_methods, seg_ok, field_ok; by_compute.
Qed.

(** The request in two reads, the second with two bytes more. *)
Definition sample_pieces : list (list Z) :=
  let b := request_text WSI_TOKEN_GET_URI sample_path (bs "HTTP/1.1") sample_headers ++ [1; 2] in [take 20 b; drop 20 b].

Lemma request_parsed_witness :
  ∃ a ft' rest ps', parse_pieces (sample_context 128) sample_pieces (fresh (replicate 128 7) 0) = Ok (PZero, rest, ps', Hcon a ft' true)
    ∧ rest ++ concat ps' = [1; 2]
    ∧ hdr_reads a WSI_TOKEN_GET_URI (bs "/b/") ∧ hdr_reads a WSI_TOKEN_UPGRADE (bs "websocket") ∧ hdr_absent a WSI_TOKEN_KEY.
Proof.
  destruct (request_parsed _ _ 0 _ _ _ _ _ _ sample_pieces [1; 2] sample_good) as (a & ft' & rest & ps' & E & Hr & _ & H & Habs);
    [vm_compute; reflexivity|].
  exists a, ft', rest, ps'. split; [exact E|]. split; [exact Hr|]. split; [apply H; left|]. split; [apply H; by_compute|].
  apply Habs; by_compute.
Defined.

(** The path of the request in [buf], as the string lws_hdr_simple_ptr gives. *)
Definition path_of (max : nat) (buf : list Z) : option (parse_result * list Z) :=
  match lws_parse (sample_context max) buf (fresh (replicate max 170) 0) with
  | Ok (r, _, w) =>
      match lws_hdr_simple_ptr (ah w) WSI_TOKEN_GET_URI with
      | Ok (Some p) => s ← c_str p; Some (r, s)
      | _ => None
      end
  | Fault _ => None
  end.

(** The cleaning of the path has gaps: ".." followed by an escaped NUL, or
    by the end of the line, stays in the path (the NUL is only refused outside
    of a segment of dots); and at the root, the '?' after ".." is dropped, so
    that the arguments become a part of the path. *)
Theorem uri_cleaning_gaps :
  path_of 64 (bs "GET /..%00 HTTP/1.1" ++ crlf ++ crlf) = Some (PZero, bs "/..")
  ∧ path_of 64 (bs "GET /.." ++ crlf ++ crlf) = Some (PZero, bs "/..")
  ∧ path_of 64 (bs "GET /..?secret HTTP/1.1" ++ crlf ++ crlf) = Some (PZero, bs "/secret").
Proof. vm_compute. split_and!; reflexivity. Qed.

(** What '&' does to a path that fills the header space but one. *)
Lemma separator_at_end x a T :
  let max := max_http_header_data x in
  wf_context x → uri_state max a (URIPS_IDLE, T) → (S (nfrag a) < WSI_TOKEN_COUNT)%nat → S (pos a) = max →
  ∃ a', runs x a [38] a' ∧ wf_parser max a' ∧ pos a' = S max ∧ ups a' = URIPS_IDLE ∧ ues a' = URIES_IDLE
    ∧ parser_state a' = parser_state a ∧ frag_index a' = frag_index a.
Proof.
  intros max Hx (Hv & Hu & He & Hi & t & Hs & Hm) Hn Hp. cbn [fst snd] in *. pose proof Hv as (Hw & _).
  set (d := stored 0 (flen (cur a)) a). set (a' := set_post_literal_equal false (opened true (S (pos d)) d)).
  pose proof Hw as (H1 & H2 & _ & H4 & _).
  destruct (wf_stored max 0 (flen (cur a)) a) as (W & _); try done; try lia.
  { destruct Hw as (_ & _ & _ & _ & _ & H6 & _). lia. }
  { destruct Hv as (_ & Hf & Hpa & _ & [?|?]); [by left|right; lia]. }
  assert (cur d = cur a) as Ecd by (unfold d; rewrite (cur_stored max) by done; by destruct (cur a)).
  assert (parse_char x 38 a = Ok (CGo, a')) as E.
  { unfold parse_char. fold max. rewrite Hs, (collect_uri max) by done. unfold lws_parse_urldecode, urldecode_escape. rewrite He.
    cbn [Z.eqb Pos.eqb]. unfold urldecode_path. rewrite Hu. unfold urldecode_idle. cbn [Z.eqb Pos.eqb orb andb negb].
    rewrite (issue_nul max a T Hv) by lia. cbn [mbind res_bind Z.ltb Z.compare]. fold d.
    rewrite (get_cur max) by done. cbn [mbind res_bind]. rewrite (put_cur max) by done. cbn [mbind res_bind].
    cbn [nfrag set_nfrag set_frags]. change (nfrag d) with (nfrag a). rewrite (proj2 (Nat.leb_gt _ _)) by done.
    unfold next_fragment, put_frag. cbn [frags nfrag pos set_pos set_post_literal_equal set_nfrag set_frags].
    change (frags d) with (<[nfrag a := Fragment (offset (cur a)) (flen (cur a)) (fnext (cur a))]> (frags a)).
    rewrite (proj2 (Nat.ltb_lt _ _)) by (rewrite !length_insert; lia). cbn [mbind res_bind]. done. }
  exists a'. split_and!; try done.
  - by apply runs_one.
  - assert (wf_parser max a) as Wp.
    { split; [done|]. unfold wf_state. rewrite Hs. apply method_token in Hm as Hmt. destruct Hmt. split_and!; try done; [|left; lia].
      destruct Hv as (_ & Hf & Hpa & _ & [?|?]); [by left|right; lia]. }
    pose proof (parse_char_safe x 38 a Hx Wp) as Hsafe. rewrite E in Hsafe. apply Hsafe.
  - change (pos a') with (S (S (pos a))). lia.
Qed.

(** The parser's own assert can be made to fail by a peer: a request path
    that fills the header space up to its last byte, then a '&' and one more
    character move the position past the limit that the comment says it "should
    never be able to exceed", and the process aborts.  This holds for every size
    of the header space and is independent of what it held. *)
Theorem uri_separator_aborts x text ft (n : nat) rest
    (Hx : token_limits x = None) (Hmax : max_http_header_data x = length text) (Hlen : length text = (n + 3)%nat) :
  lws_parse x (bs "GET /" ++ replicate (S n) 97 ++ bs "&b" ++ rest) (fresh text ft) = Fault AssertFailed.
Proof.
  assert (wf_context x) as Hwx by (unfold wf_context; by rewrite Hx).
  destruct (fresh_ready text ft) as (Hw & Ht & _ & Hs & Hlp & He). set (max := max_http_header_data x) in *. rewrite <- Hmax in Hw.
  destruct (name_runs x 0 (bs "GET ") 0 (ah (fresh text ft)) ltac:(vm_compute; reflexivity) Hs Hlp) as (q & H1 & _).
  destruct (known_start x WSI_TOKEN_GET_URI (set_lextable_pos (Some q) (ah (fresh text ft)))) as (b & E & Hst); try done;
    try (unfold WSI_TOKEN_COUNT; cbn; unfold WSI_TOKEN_GET_URI; lia).
  specialize (H1 b E). destruct Hst as (Hv & Hsb & _ & Nb & Pb & Ib & Ob & Ub & Eb).
  assert (uri_state max b (URIPS_IDLE, [])) as Hu by (split_and!; try done; [by rewrite Ib|by exists WSI_TOKEN_GET_URI]).
  set (path := Raw <$> (47 :: replicate (S n) 97)).
  destruct (uri_run x b (URIPS_IDLE, []) path Hu) as (c & R2 & Hc & (F1 & F2 & F3 & _ & _ & _ & _ & F8)).
  { unfold path. rewrite forallb_forall. intros u Hin. apply list_elem_of_In, list_elem_of_fmap in Hin as (z & -> & Hz).
    apply elem_of_cons in Hz as [->|Hz]; [done|]. apply elem_of_replicate in Hz as [-> _]. done. }
  { rewrite Ob. unfold path. rewrite length_fmap. cbn. rewrite length_replicate. fold max. lia. }
  assert (foldl ustep (URIPS_IDLE, []) (uval <$> path) = (URIPS_IDLE, 47 :: replicate (S n) 97)) as EF.
  { unfold path. rewrite <- list_fmap_compose. change (uval ∘ Raw) with (@id Z). rewrite list_fmap_id.
    cbn [replicate foldl ustep Z.eqb Pos.eqb app]. rewrite idle_run; [done|]. by intros [? _]%elem_of_replicate. }
  rewrite EF in Hc.
  assert ((path ≫= utext) = 47 :: replicate (S n) 97) as ET.
  { unfold path. generalize (47 :: replicate (S n) 97). clear. induction l as [|c l IH]; [done|]. cbn in *. by rewrite IH. }
  rewrite ET in R2. pose proof Hc as ((_ & _ & Pc & _) & _). cbn [snd length] in Pc. rewrite F3, Ob, length_replicate in Pc. cbn in Pc.
  destruct (separator_at_end x c _ Hwx Hc) as (d & R3 & Wd & Pd & Ud & Ed & Sd & Id).
  { rewrite F2, Nb. cbn. unfold WSI_TOKEN_COUNT. lia. }
  { fold max. lia. }
  change (bs "GET /" ++ replicate (S n) 97 ++ bs "&b" ++ rest) with (bs "GET " ++ (47 :: replicate (S n) 97) ++ [38] ++ 98 :: rest).
  unfold fresh. rewrite (H1 _ ft false), (R2 _ ft false), (R3 _ ft false). cbn [lws_parse ah].
  assert (parse_char x 98 d = Fault AssertFailed) as ->; [|done].
  unfold parse_char. fold max. rewrite Sd, F8, Hsb. destruct Wd as [Wd _]. rewrite (collect_uri max) by done.
  unfold lws_parse_urldecode, urldecode_escape. rewrite Ed. cbn [Z.eqb Pos.eqb]. unfold urldecode_path. rewrite Ud.
  unfold urldecode_idle. cbn [Z.eqb Pos.eqb orb andb]. unfold get_index at 1.
  assert (frag_index d !! WSI_TOKEN_HTTP_URI_ARGS = Some 0%nat) as Hi by (rewrite Id, F1, Ib; reflexivity). rewrite Hi.
  cbn [mbind res_bind]. rewrite uri_args_skip by done. cbn [mbind res_bind].
  unfold check_eol, issue_char, lws_pos_in_bounds. cbn [Z.eqb Pos.eqb]. rewrite andb_false_r. cbn [andb].
  rewrite (proj2 (Nat.ltb_ge _ _)), (proj2 (Nat.eqb_neq (pos d) max)) by lia. done.
Qed.

Lemma uri_separator_aborts_witness :
  token_limits (sample_context 4096) = None ∧ max_http_header_data (sample_context 4096) = length (replicate 4096 0)
  ∧ lws_parse (sample_context 4096) (bs "GET /" ++ replicate (S 4093) 97 ++ bs "&b" ++ []) (fresh (replicate 4096 0) 0) = Fault AssertFailed.
Proof.
  split; [reflexivity|]. split; [rewrite length_replicate; reflexivity|].
  apply (uri_separator_aborts (sample_context 4096) (replicate 4096 0) 0 4093 []).
  - reflexivity.
  - rewrite length_replicate. reflexivity.
  - rewrite length_replicate. reflexivity.
Defined.
