(* ===== verification/Vhost.v ===== *)
(** * Virtual hosts, mounts and logins

    Models the small decisions roles/http/server/server.c takes about a
    request: which virtual host it is for ([lws_select_vhost]), which mount of
    the host serves it ([lws_find_mount]), which type a file has
    ([lws_get_mimetype]), which credentials a login file accepts
    ([lws_find_string_in_file]) and how a redirection is tidied
    ([lws_clean_url]).  Strings are their bytes without the NUL; where the code
    looks at memory behind a string the memory is the argument. *)

From stdpp Require Import base numbers list strings.
From Stdlib Require Import ZArith Lia Ascii.
From S2P Require Import Prelude.

(** ** Data *)

Inductive lws_mount_protocols :=
  | LWSMPRO_HTTP | LWSMPRO_HTTPS | LWSMPRO_FILE | LWSMPRO_CGI
  | LWSMPRO_REDIR_HTTP | LWSMPRO_REDIR_HTTPS | LWSMPRO_CALLBACK.

#[global] Instance lws_mount_protocols_eq_dec : EqDecision lws_mount_protocols.
Proof. solve_decision. Defined.

(** [cgienv] says whether the list of options is there. *)
Record lws_http_mount := Mount {
  mountpoint : list Z;
  origin : list Z;
  def : option (list Z);
  mprotocol : option (list Z);
  cgienv : bool;
  extra_mimetypes : list (list Z * list Z);
  origin_protocol : lws_mount_protocols;
  mountpoint_len : nat;
  basic_auth_login_file : option (list Z);
}.

#[global] Instance lws_http_mount_eq_dec : EqDecision lws_http_mount.
Proof. solve_decision. Defined.

(** The protocols are their names, in the order of the array. *)
Record lws_vhost := Vhost {
  vh_name : list Z;
  listen_port : Z;
  protocols : list (list Z);
  default_protocol_index : nat;
  strict_host_check : bool;
  mount_list : list lws_http_mount;
}.

(** ** The code *)

(** Whether strncmp() of what is at [p] and at [q] is zero. *)
Fixpoint strncmp_eq (p q : list Z) (n : nat) {struct n} : res bool :=
  match n with
  | O => Ok true
  | S n =>
      match p, q with
      | c :: p, d :: q => if negb (c =? d) then Ok false else if c =? 0 then Ok true else strncmp_eq p q n
      | _, _ => Fault OutOfBounds
      end
  end.

(** [strchr(s, c) - s], or the length of [s]. *)
Fixpoint index_of (c : Z) (s : list Z) : nat :=
  match s with [] => 0 | b :: s => if b =? c then 0 else S (index_of c s) end.

(** The first vhost of the list that satisfies a test. *)
Fixpoint first_vhost (test : lws_vhost → res bool) (vhs : list lws_vhost) : res (option lws_vhost) :=
  match vhs with
  | [] => Ok None
  | vh :: vhs => b ← test vh; if b : bool then Ok (Some vh) else first_vhost test vhs
  end.

(** The three loops over context->vhost_list. *)
Definition lws_select_vhost (vhost_list : list lws_vhost) (port : Z) (servername : list Z) : res (option lws_vhost) :=
  let colon := index_of 58 servername in
  r ← first_vhost (λ vh, if port =? listen_port vh then strncmp_eq (vh_name vh ++ [0]) (servername ++ [0]) colon
                         else Ok false) vhost_list;
  match r with
  | Some vh => Ok (Some vh)
  | None =>
      r ← first_vhost (λ vh,
            let m := length (vh_name vh) in
            if negb (port =? 0) && (port =? listen_port vh) && (Z.of_nat m <=? Z.of_nat colon - 2) then
              match servername !! (colon - m - 1)%nat with
              | Some c => if c =? 46 then strncmp_eq (vh_name vh ++ [0]) (drop (colon - m) (servername ++ [0])) m else Ok false
              | None => Fault OutOfBounds
              end
            else Ok false) vhost_list;
      match r with
      | Some vh => Ok (Some vh)
      | None => first_vhost (λ vh, Ok (negb (port =? 0) && (port =? listen_port vh))) vhost_list
      end
  end.

(** The loop over the mounts; [get]: the request is a GET. *)
Fixpoint find_mount_loop (uri_ptr : list Z) (uri_len : nat) (get : bool) (hm : list lws_http_mount) (best : nat)
    (hit : option lws_http_mount) : res (option lws_http_mount) :=
  match hm with
  | [] => Ok hit
  | m :: hm =>
      ok ← (if (mountpoint_len m <=? uri_len)%nat then
              eq ← strncmp_eq uri_ptr (mountpoint m ++ [0]) (mountpoint_len m);
              if negb eq then Ok false
              else
                match uri_ptr !! mountpoint_len m with
                | Some c => Ok ((c =? 0) || (c =? 47) || (mountpoint_len m =? 1)%nat)
                | None => Fault OutOfBounds
                end
            else Ok false);
      if ok && (bool_decide (origin_protocol m = LWSMPRO_CALLBACK)
                || (bool_decide (origin_protocol m = LWSMPRO_CGI) || get || bool_decide (is_Some (mprotocol m)))
                   && (best <? mountpoint_len m)%nat)
      then find_mount_loop uri_ptr uri_len get hm (mountpoint_len m) (Some m)
      else find_mount_loop uri_ptr uri_len get hm best hit
  end.

Definition lws_find_mount (mounts : list lws_http_mount) (uri_ptr : list Z) (uri_len : nat) (get : bool) :
    res (option lws_http_mount) :=
  find_mount_loop uri_ptr uri_len get mounts 0 None.

(** The endings known to the server, in the order they are tried. *)
Definition known_types : list (string * string) :=
  [(".ico", "image/x-icon"); (".gif", "image/gif"); (".js", "text/javascript"); (".png", "image/png");
   (".jpg", "image/jpeg"); (".gz", "application/gzip"); (".JPG", "image/jpeg"); (".html", "text/html");
   (".css", "text/css"); (".txt", "text/plain"); (".svg", "image/svg+xml"); (".ttf", "application/x-font-ttf");
   (".otf", "application/font-woff"); (".woff", "application/font-woff"); (".xml", "application/xml")]%string.

Definition ends_with (file e : list Z) : bool := bool_decide (drop (length file - length e) file = e).

(** The endings of the mount; a longer one than the file's name is looked for
    before the start of the name. *)
Fixpoint extra_type (file : list Z) (pvo : list (list Z * list Z)) : res (option (list Z)) :=
  match pvo with
  | [] => Ok None
  | (name, value) :: pvo =>
      if bool_decide (head name = Some 42) then Ok (Some value)
      else
        _ ← check (length name <=? length file)%nat OutOfBounds;
        if ends_with file name then Ok (Some value) else extra_type file pvo
  end.

Definition lws_get_mimetype (file : list Z) (m : option lws_http_mount) : res (option (list Z)) :=
  let pvo := match m with Some m => extra_mimetypes m | None => [] end in
  if (length file <? 5)%nat then Ok None
  else
    match list_find (λ x, ends_with file (bs x.1) = true) known_types with
    | Some (_, (_, value)) => Ok (Some (bs value))
    | None => extra_type file pvo
    end.

(** The loop over the bytes of the file ([read] only cuts them up).  The string
    is the credentials, of [stringlen] bytes, with the NUL behind them. *)
Fixpoint find_string_loop (string : list Z) (stringlen : nat) (file : list Z) (match_ : nat) : res bool :=
  match file with
  | [] => Ok (match_ =? stringlen)%nat
  | b :: file =>
      if (match_ =? stringlen)%nat && ((b =? 13) || (b =? 10)) then Ok true
      else
        let m := if (match_ =? stringlen)%nat then 0%nat else match_ in
        match string !! m with
        | Some c => find_string_loop string stringlen file (if b =? c then S m else 0)
        | None => Fault OutOfBounds
        end
  end.

(** [None]: the file cannot be opened. *)
Definition lws_find_string_in_file (file : option (list Z)) (string : list Z) : res bool :=
  match file with
  | None => Ok false
  | Some file => find_string_loop (string ++ [0]) (length string) file 0
  end.

(** The loop of lws_clean_url. *)
Fixpoint clean_loop (p : list Z) : list Z :=
  match p with
  | c :: ((d :: _) as p') => if (c =? 47) && (d =? 47) then clean_loop p' else c :: clean_loop p'
  | _ => p
  end.

(** What is skipped of a scheme. *)
Definition scheme_len (p : list Z) : nat :=
  if bool_decide (take 4 p = bs "http") then
    let n := if bool_decide (p !! 4%nat = Some 115) then 5%nat else 4%nat in
    if bool_decide (p !! n = Some 58) then if bool_decide (p !! S n = Some 47) then (n + 2)%nat else (n + 1)%nat else n
  else 0%nat.

(** The string in the buffer afterwards. *)
Definition lws_clean_url (p : list Z) : list Z := take (scheme_len p) p ++ clean_loop (drop (scheme_len p) p).

(** ** Lemmas *)

Lemma strncmp_prefix s r q : no_nul q →
  strncmp_eq (s ++ 0 :: r) (q ++ [0]) (length q) = Ok (bool_decide (take (length q) s = q)).
Proof.
  intros Hq. revert s. induction Hq as [|b q Hb Hq IH]; intros s; [by rewrite bool_decide_eq_true_2|]. cbn [strncmp_eq length app].
  destruct s as [|c s]; cbn [app take].
  - rewrite (proj2 (Z.eqb_neq 0 b)) by done. cbn [negb]. by rewrite bool_decide_eq_false_2.
  - destruct (Z.eqb_spec c b) as [->|Hne]; cbn [negb].
    + rewrite (proj2 (Z.eqb_neq b 0)), IH by done. f_equal. apply bool_decide_ext. split; [by intros ->|by intros [= ->]].
    + rewrite bool_decide_eq_false_2; [done|congruence].
Qed.

(** A mount whose length is that of its mountpoint. *)
Definition wf_mount (m : lws_http_mount) : Prop := mountpoint_len m = length (mountpoint m) ∧ no_nul (mountpoint m).

#[global] Instance wf_mount_dec m : Decision (wf_mount m).
Proof. unfold wf_mount. apply _. Defined.

(** The mountpoint is the path, or a directory above it, or the root. *)
Definition serves (s : list Z) (m : lws_http_mount) : bool :=
  bool_decide (take (length (mountpoint m)) s = mountpoint m)
  && (bool_decide (drop (length (mountpoint m)) s = []) || bool_decide (head (drop (length (mountpoint m)) s) = Some 47)
      || (length (mountpoint m) =? 1)%nat).

Definition is_callback (m : lws_http_mount) : bool := bool_decide (origin_protocol m = LWSMPRO_CALLBACK).

(** A mount that is considered by its length. *)
Definition usable (get : bool) (m : lws_http_mount) : bool :=
  bool_decide (origin_protocol m = LWSMPRO_CGI) || get || bool_decide (is_Some (mprotocol m)).

Section mounts.
Context (s r : list Z) (get : bool) (Hs : no_nul s).
#[local] Abbreviation find := (find_mount_loop (s ++ 0 :: r) (length s) get).

Lemma find_mount_step m ms best hit : wf_mount m →
  find (m :: ms) best hit
  = if serves s m && (is_callback m || usable get m && (best <? mountpoint_len m)%nat)
    then find ms (mountpoint_len m) (Some m) else find ms best hit.
Proof.
  intros [Hl Hn]. cbn [find_mount_loop]. rewrite Hl, strncmp_prefix by done. set (n := length (mountpoint m)) in *.
  destruct (Nat.leb_spec n (length s)) as [Hle|Hgt]; cbn [mbind res_bind].
  - destruct (bool_decide_reflect (take n s = mountpoint m)) as [Ht|Ht]; unfold serves; fold n.
    + rewrite (bool_decide_eq_true_2 _ Ht). cbn [negb andb]. fold (is_callback m). fold (usable get m).
      rewrite <- (take_drop n s) at 1. rewrite <- app_assoc, lookup_app_r by (rewrite length_take; lia).
      rewrite length_take, Nat.min_l, Nat.sub_diag by lia.
      destruct (drop n s) as [|c d] eqn:Ed; cbn [app lookup list_lookup head mbind res_bind]; [done|].
      rewrite (bool_decide_eq_false_2 (c :: d = [])) by done. cbn [orb].
      assert (c ≠ 0) as Hc. { apply (proj1 (Forall_forall _ _) Hs). rewrite <- (take_drop n s), Ed, elem_of_app. by right; left. }
      rewrite (proj2 (Z.eqb_neq c 0)) by done. cbn [orb].
      assert (bool_decide (Some c = Some 47) = (c =? 47)) as -> by (destruct (Z.eqb_spec c 47); [subst; done|apply bool_decide_eq_false_2; congruence]).
      done.
    + rewrite (bool_decide_eq_false_2 _ Ht). done.
  - unfold serves. fold n. rewrite (bool_decide_eq_false_2 (take n s = _)); [done|]. intros E. apply (f_equal length) in E.
    rewrite length_take in E. fold n in E. lia.
Qed.

(** Without callback mounts the first longest mount is found. *)
Lemma find_mount_longest ms best hit : Forall wf_mount ms → (∀ m, m ∈ ms → serves s m = true → is_callback m = false) →
  ∃ o, find ms best hit = Ok o
    ∧ ((o = hit ∧ ∀ m, m ∈ ms → serves s m = true → usable get m = true → (mountpoint_len m ≤ best)%nat)
       ∨ ∃ m l1 l2, o = Some m ∧ ms = l1 ++ m :: l2 ∧ serves s m = true ∧ usable get m = true ∧ (best < mountpoint_len m)%nat
           ∧ (∀ m', m' ∈ l1 → serves s m' = true → usable get m' = true → (mountpoint_len m' < mountpoint_len m)%nat)
           ∧ (∀ m', m' ∈ l2 → serves s m' = true → usable get m' = true → (mountpoint_len m' ≤ mountpoint_len m)%nat)).
Proof.
  intros Hw. revert best hit. induction Hw as [|m ms Hm Hw IH]; intros best hit Hcb.
  { exists hit. split; [done|]. left. split; [done|]. by intros m ?%elem_of_nil. }
  rewrite find_mount_step by done.
  assert (∀ m', m' ∈ ms → serves s m' = true → is_callback m' = false) as Hcb' by (intros; apply Hcb; [by right|done]).
  destruct (serves s m && (is_callback m || usable get m && (best <? mountpoint_len m)%nat)) eqn:Ec.
  - apply andb_true_iff in Ec as [Es Ec]. rewrite (Hcb m) in Ec by first [left|done]. cbn [orb] in Ec.
    apply andb_true_iff in Ec as [Eu Hlt%Nat.ltb_lt].
    destruct (IH (mountpoint_len m) (Some m) Hcb') as (o & E & H). exists o. split; [exact E|]. right.
    destruct H as [[-> H]|(m' & l1 & l2 & -> & -> & H1 & H2 & H3 & H4 & H5)].
    + exists m, [], ms. split_and!; try done. by intros m' ?%elem_of_nil.
    + exists m', (m :: l1), l2. split_and!; try done; [lia|]. intros m'' [->|Hin]%elem_of_cons ??; [done|auto].
  - assert (serves s m = true → usable get m = true → (mountpoint_len m ≤ best)%nat) as Hskip.
    { intros Es Eu. rewrite Es, Eu, (Hcb m) in Ec by first [left|done]. by apply Nat.ltb_ge. }
    destruct (IH best hit Hcb') as (o & E & H). exists o. split; [exact E|].
    destruct H as [[-> H]|(m' & l1 & l2 & -> & -> & H1 & H2 & H3 & H4 & H5)]; [left|right].
    + split; [done|]. intros m' [->|Hin]%elem_of_cons ??; auto.
    + exists m', (m :: l1), l2. split_and!; try done.
      intros m'' [->|Hin]%elem_of_cons ??; [|auto]. eapply Nat.le_lt_trans; [by apply Hskip|done].
Qed.

Lemma find_mount_total ms best hit : Forall wf_mount ms → ∃ o, find ms best hit = Ok o.
Proof.
  intros Hw. revert best hit. induction Hw as [|m ms Hm Hw IH]; intros best hit; [by eexists|].
  rewrite find_mount_step by done. destruct (_ && _); apply IH.
Qed.

(** A callback mount makes the loop forget what it had found. *)
Lemma find_mount_callback l1 c l2 best hit : Forall wf_mount l1 → wf_mount c → serves s c = true → is_callback c = true →
  find (l1 ++ c :: l2) best hit = find l2 (mountpoint_len c) (Some c).
Proof.
  intros Hw Hc Hsc Hcb. revert best hit. induction Hw as [|m l1 Hm Hw IH]; intros best hit; cbn [app].
  - rewrite find_mount_step by done. by rewrite Hsc, Hcb.
  - rewrite find_mount_step by done. destruct (_ && _); apply IH.
Qed.
End mounts.

(** *** Virtual hosts *)

Lemma first_vhost_find test p vhs : (∀ vh, vh ∈ vhs → test vh = Ok (p vh)) →
  first_vhost test vhs = Ok (snd <$> list_find (λ vh, p vh = true) vhs).
Proof.
  induction vhs as [|vh vhs IH]; intros H; [done|]. cbn [first_vhost list_find]. rewrite H by left. cbn [mbind res_bind].
  destruct (decide (p vh = true)) as [Hp|Hp]; [by rewrite Hp|]. rewrite IH by (intros; apply H; by right).
  apply not_true_is_false in Hp. rewrite Hp. by destruct (list_find _ vhs) as [[]|].
Qed.

Lemma strncmp_begin q s r n : no_nul q → (n ≤ length s)%nat → no_nul s →
  strncmp_eq (q ++ [0]) (s ++ r) n = Ok (bool_decide (take n q = take n s)).
Proof.
  intros Hq. revert s q Hq. induction n as [|n IH]; intros s q Hq Hn Hs; [done|]. destruct s as [|d s]; [cbn in Hn; lia|].
  inversion Hs as [|?? Hd Hs']; subst. cbn [app strncmp_eq]. destruct q as [|c q]; cbn [app take].
  - rewrite (proj2 (Z.eqb_neq 0 d)) by done. cbn [negb]. by rewrite bool_decide_eq_false_2.
  - inversion Hq as [|?? Hc Hq']; subst. destruct (Z.eqb_spec c d) as [->|Hcd]; cbn [negb].
    + rewrite (proj2 (Z.eqb_neq d 0)), IH by (done || cbn in Hn; lia). f_equal. apply bool_decide_ext. split; [by intros ->|by intros [= ?]].
    + rewrite bool_decide_eq_false_2; [done|congruence].
Qed.

Lemma index_of_le c s : (index_of c s ≤ length s)%nat.
Proof. induction s as [|b s IH]; [done|]. cbn. destruct (b =? c); lia. Qed.

(** A vhost listens on [port] and its name starts with [host]. *)
Definition starts_with (port : Z) (host : list Z) (vh : lws_vhost) : bool :=
  (port =? listen_port vh) && bool_decide (take (length host) (vh_name vh) = host).

#[global] Instance below_dec host name : Decision (∃ l, l ≠ [] ∧ host = l ++ 46 :: name).
Proof.
  refine (cast_if (decide (take (length host - S (length name)) host ≠ []
                           ∧ host = take (length host - S (length name)) host ++ 46 :: name))); [naive_solver|].
  intros (l & Hl & E). apply n. assert (take (length host - S (length name)) host = l) as ->; [|done].
  rewrite E at 2. apply take_app_length'. rewrite E, length_app. cbn. lia.
Defined.

(** [host] is a name below the vhost's. *)
Definition below (port : Z) (host : list Z) (vh : lws_vhost) : bool :=
  negb (port =? 0) && (port =? listen_port vh)
  && bool_decide (∃ l, l ≠ [] ∧ host = l ++ 46 :: vh_name vh).

(** The first of the list that satisfies [p]. *)
Definition first_of (p : lws_vhost → bool) (vhs : list lws_vhost) : option lws_vhost :=
  snd <$> list_find (λ vh, p vh = true) vhs.

(** The server name up to its port: a vhost whose name starts with it; else one
    it is below of; else any on the port. *)
Lemma select_vhost_eq vhs port s : no_nul s → Forall (λ vh, no_nul (vh_name vh)) vhs →
  let host := take (index_of 58 s) s in
  lws_select_vhost vhs port s
  = Ok (match first_of (starts_with port host) vhs with
        | Some vh => Some vh
        | None =>
            match first_of (below port host) vhs with
            | Some vh => Some vh
            | None => first_of (λ vh, negb (port =? 0) && (port =? listen_port vh)) vhs
            end
        end).
Proof.
  intros Hs Hv host. rewrite Forall_forall in Hv. pose proof (index_of_le 58 s) as Hc. set (colon := index_of 58 s) in *.
  assert (length host = colon) as Hh by (unfold host; rewrite length_take; lia).
  unfold lws_select_vhost. fold colon.
  lazymatch goal with |- (first_vhost ?test vhs ≫= _) = _ => rewrite (first_vhost_find test (starts_with port host)) end.
  2: { intros vh Hin. cbv beta. unfold starts_with. destruct (port =? listen_port vh); [|done]. cbn [andb].
       rewrite strncmp_begin by auto. by rewrite Hh. }
  cbn [mbind res_bind]. fold (first_of (starts_with port host) vhs). destruct (first_of _ vhs) as [vh|]; [done|].
  lazymatch goal with |- (first_vhost ?test vhs ≫= _) = _ => rewrite (first_vhost_find test (below port host)) end.
  2: { intros vh Hin. cbv beta zeta. unfold below. destruct (negb (port =? 0) && (port =? listen_port vh)); [|done]. cbn [andb].
       set (m := length (vh_name vh)). destruct (Z.leb_spec (Z.of_nat m) (Z.of_nat colon - 2)) as [Hm|Hm].
       - destruct (lookup_lt_is_Some_2 s (colon - m - 1)) as [c Hl]; [lia|]. rewrite Hl.
         assert (host = take (colon - m - 1) s ++ c :: take m (drop (colon - m) s)) as Eh.
         { unfold host. replace colon with (colon - m - 1 + S m)%nat at 1 by lia. rewrite <- take_take_drop, (drop_S _ _ _ Hl).
           by replace (S (colon - m - 1)) with (colon - m)%nat by lia. }
         assert (length (take (colon - m - 1) s) = colon - m - 1)%nat as Ht by (rewrite length_take; lia).
         destruct (Z.eqb_spec c 46) as [->|Hne].
         + rewrite drop_app_le by lia. rewrite strncmp_begin; [|by apply Hv|rewrite length_drop; lia|by apply Forall_drop].
           rewrite (take_ge (vh_name vh)) by done. f_equal. apply bool_decide_ext. split.
           * intros E. exists (take (colon - m - 1) s). split; [intros E0; rewrite E0 in Ht; cbn in Ht; lia|]. by rewrite Eh, <- E.
           * intros (l & _ & E). rewrite Eh in E. apply app_inj_2 in E as [_ [= E]]; [done|]. cbn. f_equal. rewrite length_take, length_drop. fold m. lia.
         + rewrite bool_decide_eq_false_2; [done|]. intros (l & _ & E). rewrite Eh in E.
           apply app_inj_2 in E as [_ [= E]]; [done|]. cbn. f_equal. rewrite length_take, length_drop. fold m. lia.
       - rewrite bool_decide_eq_false_2; [done|]. intros (l & Hl & E). apply (f_equal length) in E. rewrite length_app, Hh in E. cbn in E.
         fold m in E. destruct l; [done|cbn in E; lia]. }
  cbn [mbind res_bind]. fold (first_of (below port host) vhs). destruct (first_of _ vhs) as [vh|]; [done|].
  by apply first_vhost_find.
Qed.

(** *** The login file *)

Definition line_end (b : Z) : bool := (b =? 13) || (b =? 10).

(** Nothing, or the end of a line, comes next. *)
Definition ends_here (l : list Z) : Prop := match l with [] => True | b :: _ => line_end b = true end.

Section login.
Context (s : list Z) (Hne : s ≠ []).
#[local] Abbreviation search := (find_string_loop (s ++ [0]) (length s)).

(** What was found ends a line: [k] bytes of [s] have just been read. *)
Lemma search_sound file k seen : (k ≤ length s)%nat → (∃ l, seen = l ++ take k s) → search file k = Ok true →
  ∃ l1 l2, seen ++ file = l1 ++ s ++ l2 ∧ ends_here l2.
Proof.
  revert k seen. induction file as [|b file IH]; intros k seen Hk [l ->] H; cbn [find_string_loop] in H.
  - injection H as H%Nat.eqb_eq. exists l, []. rewrite take_ge, !app_nil_r by lia. done.
  - destruct (Nat.eqb_spec k (length s)) as [->|Hk']; cbn [andb] in H.
    + rewrite take_ge by lia. destruct (line_end b) eqn:Eb; unfold line_end in Eb; rewrite Eb in H.
      { exists l, (b :: file). by rewrite <- app_assoc. }
      assert (∃ c, (s ++ [0]) !! 0%nat = Some c) as [c Hc] by (apply lookup_lt_is_Some; rewrite length_app; cbn; lia).
      rewrite Hc in H. destruct (IH (if (b =? c)%Z then 1%nat else 0%nat) ((l ++ s) ++ [b])) as (l1 & l2 & E & He); [| |exact H|].
      * destruct (b =? c); [|lia]. destruct s; [done|cbn; lia].
      * destruct (Z.eqb_spec b c) as [->|_]; [|by exists ((l ++ s) ++ [b]); rewrite take_0, app_nil_r].
        destruct s as [|d s']; [done|]. injection Hc as ->. by exists (l ++ c :: s').
      * exists l1, l2. by rewrite <- E, <- !app_assoc.
    + assert (∃ c, s !! k = Some c) as [c Hc] by (apply lookup_lt_is_Some; lia).
      rewrite lookup_app_l, Hc in H by lia. destruct (IH (if (b =? c)%Z then S k else 0%nat) ((l ++ take k s) ++ [b])) as (l1 & l2 & E & He); [| |exact H|].
      * destruct (b =? c); lia.
      * destruct (Z.eqb_spec b c) as [->|_]; [|by exists ((l ++ take k s) ++ [b]); rewrite take_0, app_nil_r].
        exists l. by rewrite (take_S_r _ _ _ Hc), app_assoc.
      * exists l1, l2. by rewrite <- E, <- !app_assoc.
Qed.

(** A line end, or any text before one, leaves the search at the start of [s]. *)
Lemma search_skip l b file k : Forall (λ c, line_end c = false) s → line_end b = true → (k ≤ length s)%nat →
  search (l ++ b :: file) k = Ok true ∨ search (l ++ b :: file) k = search file 0.
Proof.
  intros Hs Hb. revert k. induction l as [|c l IH]; intros k Hk; cbn [app find_string_loop].
  - destruct (Nat.eqb_spec k (length s)) as [->|Hk']; cbn [andb].
    + left. by unfold line_end in Hb; rewrite Hb.
    + right. assert (∃ c, s !! k = Some c) as [c Hc] by (apply lookup_lt_is_Some; lia).
      rewrite lookup_app_l, Hc by lia. rewrite (proj2 (Z.eqb_neq b c)); [done|]. intros ->.
      rewrite (proj1 (Forall_lookup _ _) Hs k c Hc) in Hb. done.
  - destruct (Nat.eqb_spec k (length s)) as [->|Hk']; cbn [andb].
    + destruct ((c =? 13) || (c =? 10)); [by left|]. destruct s as [|d s']; [done|]. cbn [app lookup list_lookup].
      apply IH. destruct (c =? d); cbn; lia.
    + assert (∃ d, s !! k = Some d) as [d Hd] by (apply lookup_lt_is_Some; lia).
      rewrite lookup_app_l, Hd by lia. apply IH. destruct (c =? d); lia.
Qed.

(** [s] itself is found. *)
Lemma search_here s1 s2 l2 : s = s1 ++ s2 → ends_here l2 → search (s2 ++ l2) (length s1) = Ok true.
Proof.
  intros E Hl. revert s1 E. induction s2 as [|c s2 IH]; intros s1 E; cbn [app].
  - rewrite app_nil_r in E. subst s1. destruct l2 as [|b l2]; cbn [find_string_loop]; rewrite Nat.eqb_refl; [done|].
    cbn [andb]. unfold ends_here, line_end in Hl. by rewrite Hl.
  - assert (length s = length s1 + S (length s2))%nat as El by (rewrite E, length_app; done).
    cbn [find_string_loop]. rewrite (proj2 (Nat.eqb_neq _ _)) by lia. cbn [andb].
    rewrite lookup_app_l by lia. rewrite E at 1. rewrite lookup_app_r, Nat.sub_diag by lia. cbn [lookup list_lookup].
    rewrite Z.eqb_refl. specialize (IH (s1 ++ [c])). rewrite <- app_assoc in IH. rewrite length_app in IH. cbn in IH.
    rewrite Nat.add_1_r in IH. by apply IH.
Qed.
End login.

(** *** Tidying a URL *)

(** No two slashes in a row. *)
Fixpoint single_slashes (p : list Z) : bool :=
  match p with
  | c :: ((d :: _) as p') => negb ((c =? 47) && (d =? 47)) && single_slashes p'
  | _ => true
  end.

Lemma clean_loop_eq c d p :
  clean_loop (c :: d :: p) = if (c =? 47) && (d =? 47) then clean_loop (d :: p) else c :: clean_loop (d :: p).
Proof. done. Qed.

Lemma single_slashes_eq c d p : single_slashes (c :: d :: p) = negb ((c =? 47) && (d =? 47)) && single_slashes (d :: p).
Proof. done. Qed.

Lemma clean_loop_head c p : head (clean_loop (c :: p)) = Some c.
Proof.
  revert c. induction p as [|d p IH]; intros c; [done|]. rewrite clean_loop_eq. destruct ((c =? 47) && (d =? 47)) eqn:E; [|done].
  apply andb_true_iff in E as [->%Z.eqb_eq ->%Z.eqb_eq]. apply IH.
Qed.

Lemma clean_loop_single p : single_slashes (clean_loop p) = true.
Proof.
  induction p as [|c p IH]; [done|]. destruct p as [|d p]; [done|]. rewrite clean_loop_eq.
  destruct ((c =? 47) && (d =? 47)) eqn:E; [exact IH|]. pose proof (clean_loop_head d p) as Hh.
  destruct (clean_loop (d :: p)) as [|e q]; [done|]. injection Hh as ->. by rewrite single_slashes_eq, E.
Qed.

Lemma clean_loop_id p : single_slashes p = true → clean_loop p = p.
Proof.
  induction p as [|c p IH]; [done|]. destruct p as [|d p]; [done|]. rewrite single_slashes_eq, clean_loop_eq.
  intros [E Hs]%andb_true_iff. rewrite (proj1 (negb_true_iff _) E). by rewrite IH.
Qed.

(** ** Claims *)

(** [C36] Which mount serves a path: among the mounts whose mountpoint is the
    path, a directory above it or the root, the longest one, the first of equal
    ones, if none of them is a callback mount.  A callback mount hides every
    mount listed before it, longer ones too: the last such mount wins unless a
    longer one follows it. *)
Theorem find_mount_result s r get ms
    (Hs : no_nul s) (Hw : Forall wf_mount ms) :
  ((∀ m, m ∈ ms → serves s m = true → is_callback m = false) →
     ∃ o, lws_find_mount ms (s ++ 0 :: r) (length s) get = Ok o
       ∧ match o with
         | None => ∀ m, m ∈ ms → serves s m = true → usable get m = true → mountpoint_len m = 0%nat
         | Some m => serves s m = true ∧ usable get m = true ∧ ∃ l1 l2, ms = l1 ++ m :: l2
             ∧ (∀ m', m' ∈ l1 → serves s m' = true → usable get m' = true → (mountpoint_len m' < mountpoint_len m)%nat)
             ∧ (∀ m', m' ∈ l2 → serves s m' = true → usable get m' = true → (mountpoint_len m' ≤ mountpoint_len m)%nat)
         end)
  ∧ (∀ l1 c l2, ms = l1 ++ c :: l2 → serves s c = true → is_callback c = true →
       (∀ m, m ∈ l2 → serves s m = true →
          is_callback m = false ∧ (usable get m = true → (mountpoint_len m ≤ mountpoint_len c)%nat)) →
       lws_find_mount ms (s ++ 0 :: r) (length s) get = Ok (Some c)).
Proof.
  unfold lws_find_mount. split.
  - intros Hcb. destruct (find_mount_longest s r get Hs ms 0 None Hw Hcb) as (o & E & H). exists o. split; [exact E|].
    destruct H as [[-> H]|(m & l1 & l2 & -> & -> & H1 & H2 & _ & H4 & H5)].
    + intros m ???. specialize (H m). naive_solver lia.
    + split_and!; try done. by exists l1, l2.
  - intros l1 c l2 -> Hsc Hc Hl2. rewrite Forall_app, Forall_cons in Hw. destruct Hw as (W1 & Wc & W2).
    rewrite (find_mount_callback s r get Hs l1 c l2 0 None W1 Wc Hsc Hc).
    destruct (find_mount_longest s r get Hs l2 (mountpoint_len c) (Some c) W2) as (o & -> & H); [by intros m ?? ; apply Hl2|].
    destruct H as [[-> _]|(m & l3 & l4 & -> & -> & H1 & H2 & H3 & _)]; [done|].
    destruct (Hl2 m) as [_ H]; [rewrite elem_of_app; by right; left|done|]. specialize (H H2). lia.
Qed.

(** Four of the mounts of the comlink server. *)
Definition comlink_mounts : list lws_http_mount :=
  let file p o := Mount (bs p) (bs o) (Some (bs "test.html")) None false [] LWSMPRO_FILE (length (bs p)) None in
  let cb p o := Mount (bs p) (bs o) None None false [] LWSMPRO_CALLBACK (length (bs p)) None in
  [file "/" "/var/www"; file "/server-status" "/var/www/status"; cb "/formtest" "protocol-post-demo";
   cb "/c-api/packet" "protocol-lws-packet"]%string.

Lemma find_mount_result_witness :
  lws_find_mount comlink_mounts (bs "/c-api/packet/1" ++ [0]) 15 true = Ok (last comlink_mounts)
  ∧ lws_find_mount comlink_mounts (bs "/server-status" ++ [0]) 14 true = Ok (comlink_mounts !! 1%nat).
Proof.
  split.
  - destruct (find_mount_result (bs "/c-api/packet/1") [] true comlink_mounts) as [_ H]; [by_compute|by_compute|].
    apply (H (take 3 comlink_mounts) (Mount (bs "/c-api/packet") (bs "protocol-lws-packet") None None false [] LWSMPRO_CALLBACK 13 None) []).
    + reflexivity.
    + reflexivity.
    + reflexivity.
    + by intros m ?%elem_of_nil.
  - destruct (find_mount_result (bs "/server-status") [] true comlink_mounts) as [H _]; [by_compute|by_compute|].
    destruct H as (o & E & _); [|vm_compute; reflexivity].
    intros m Hin. vm_compute in Hin. apply Forall_forall with (1 := ltac:(by_compute) : Forall (λ m, serves (bs "/server-status") m = true → is_callback m = false) comlink_mounts). exact Hin.
Defined.

(** Which credentials a login file accepts: every one that is a line of the
    file is, and one that is accepted is the end of a line; the search does not
    look at what stands before it, so the end of a line, "n:secret" for a line
    "admin:secret", is taken for a login too. *)
Theorem login_file_line_ends s file
    (Hne : s ≠ []) (Hs : Forall (λ b, line_end b = false) s) :
  (∀ l1 l2, file = l1 ++ s ++ l2 → (l1 = [] ∨ ∃ l b, l1 = l ++ [b] ∧ line_end b = true) → ends_here l2 →
     lws_find_string_in_file (Some file) s = Ok true)
  ∧ (lws_find_string_in_file (Some file) s = Ok true → ∃ l1 l2, file = l1 ++ s ++ l2 ∧ ends_here l2)
  ∧ lws_find_string_in_file (Some (bs "admin:secret")) (bs "n:secret") = Ok true.
Proof.
  unfold lws_find_string_in_file. split_and!; [| |vm_compute; reflexivity].
  - intros l1 l2 -> Hl1 Hl2. destruct Hl1 as [->|(l & b & -> & Hb)]; [by apply (search_here s [] s)|].
    rewrite <- app_assoc. cbn [app]. destruct (search_skip s Hne l b (s ++ l2) 0 Hs Hb) as [->| ->]; [lia|done|].
    by apply (search_here s [] s).
  - intros H. destruct (search_sound s Hne file 0 [] ltac:(lia)) as (l1 & l2 & E & He); [by exists []|done|]. by exists l1, l2.
Qed.

Definition sample_logins : list Z := bs "root:toor" ++ [10] ++ bs "admin:secret" ++ [13; 10].

Lemma login_file_line_ends_witness :
  lws_find_string_in_file (Some sample_logins) (bs "admin:secret") = Ok true
  ∧ ∃ l1 l2, sample_logins = l1 ++ bs "admin:secret" ++ l2 ∧ ends_here l2.
Proof.
  destruct (login_file_line_ends (bs "admin:secret") sample_logins) as (H1 & H2 & _); [done|by_compute|].
  assert (lws_find_string_in_file (Some sample_logins) (bs "admin:secret") = Ok true) as E.
  { apply (H1 (bs "root:toor" ++ [10]) [13; 10]); [reflexivity|right; by exists (bs "root:toor"), 10|reflexivity]. }
  split; [exact E|exact (H2 E)].
Defined.

(** A redirection is tidied once and for all. *)
Lemma clean_url_single p :
  ∃ q, lws_clean_url p = take (scheme_len p) p ++ q ∧ single_slashes q = true ∧ clean_loop q = q.
Proof.
  exists (clean_loop (drop (scheme_len p) p)). split_and!; [done|apply clean_loop_single|]. apply clean_loop_id, clean_loop_single.
Qed.
