(* ===== verification/Upgrade.v ===== *)
(** * From HTTP to websocket

    Models the server's side of the websocket handshake: lws_process_ws_upgrade
    and handshake_0405 (roles/ws/server-ws.c), lws_vhost_name_to_protocol and
    lws_snprintf (core/libwebsockets.c), and lws_confirm_host_header and
    lws_handshake_server (roles/http/server/server.c), on top of the header
    store, the tokenizer, SHA-1, base64, the vhosts and mounts and the send path.

    The protocol's callbacks (whether it denies the connection, which headers it
    adds) and the allocator are parameters.  The connection is what the class
    [HttpConn] says, and H1.v gives it; an upgrade to h2c and a plain request
    are outcomes.  The build has no extensions. *)

From stdpp Require Import base numbers list strings.
From Stdlib Require Import ZArith Lia Ascii.
From S2P Require Import Prelude CommPlugin Base64 Sha1 Buflist HttpHead Tokenize Lex HttpParse Vhost WsRx WsTx.

Definition MAX_WEBSOCKET_04_KEY_LEN : Z := 128.

Definition guid : list Z := bs "258EAFA5-E914-47DA-95CA-C5AB0DC85B11".

(** ** The code *)

(** Whether strcasecmp() of the string at [m] with [s] is zero. *)
Definition strcaseeq (m s : list Z) : res bool :=
  match c_str m with
  | Some t => Ok (bool_decide (tolower <$> t = tolower <$> s))
  | None => Fault OutOfBounds
  end.

(** [ts.token], which points into the buffer. *)
Definition token_ptr (ts : tokenizer) : res (list Z) :=
  match ttoken ts with Some t => Ok (drop t (tbuf ts)) | None => Fault NullDeref end.

(** The first loop of lws_process_ws_upgrade: [false] is bad_conn_format.
    [fuel] bounds the calls of lws_tokenize, each of which uses a character. *)
Fixpoint connection_loop (fuel : nat) (ts : tokenizer) : res bool :=
  match fuel with
  | O => Fault OutOfBounds
  | S fuel =>
      '(e, ts) ← lws_tokenize ts;
      match e with
      | LWS_TOKZE_TOKEN =>
          p ← token_ptr ts;
          eq ← strcaseeq p (bs "upgrade");
          if eq : bool then Ok true else connection_loop fuel ts
      | LWS_TOKZE_DELIMITER => connection_loop fuel ts
      | _ => Ok false
      end
  end.

(** [buf] is 128 bytes, of which lws_hdr_copy is told about 127. *)
Definition check_connection (a : allocated_headers) : res bool :=
  '(n, buf) ← lws_hdr_copy a 127 HttpParse.WSI_TOKEN_CONNECTION;
  if n <=? 0 then Ok false
  else connection_loop (S (Z.to_nat n))
         (lws_tokenize_init (buf ++ [0]) (Z.lor LWS_TOKENIZE_F_COMMA_SEP_LIST LWS_TOKENIZE_F_MINUS_NONTERM) (Z.to_nat n)).

Fixpoint name_index (names : list (list Z)) (name : list Z) (n : nat) : option nat :=
  match names with
  | [] => None
  | p :: names => if bool_decide (name = p) then Some n else name_index names name (S n)
  end.

Definition lws_vhost_name_to_protocol (vh : lws_vhost) (name : list Z) : option nat :=
  name_index (protocols vh) name 0.

(** The protocol that is bound, none that is known, or a list that is refused. *)
Inductive selection := Bound (n : nat) | Unknown | Refused.

#[global] Instance selection_eq_dec : EqDecision selection.
Proof. solve_decision. Defined.

Fixpoint protocol_loop (fuel : nat) (vh : lws_vhost) (ts : tokenizer) : res selection :=
  match fuel with
  | O => Fault OutOfBounds
  | S fuel =>
      '(e, ts) ← lws_tokenize ts;
      match e with
      | LWS_TOKZE_TOKEN =>
          match lws_tokenize_cstr ts 64 with
          | None => Ok Refused
          | Some name =>
              match lws_vhost_name_to_protocol vh name with
              | Some n => Ok (Bound n)
              | None => protocol_loop fuel vh ts
              end
          end
      | LWS_TOKZE_DELIMITER => protocol_loop fuel vh ts
      | LWS_TOKZE_ENDED => Ok Unknown
      | _ => Ok Refused
      end
  end.

Definition protocol_flags : Z :=
  Z.lor (Z.lor (Z.lor LWS_TOKENIZE_F_COMMA_SEP_LIST LWS_TOKENIZE_F_DOT_NONTERM) LWS_TOKENIZE_F_MINUS_NONTERM)
        LWS_TOKENIZE_F_RFC7230_DELIMS.

Definition select_protocol (vh : lws_vhost) (a : allocated_headers) : res selection :=
  '(n, buf) ← lws_hdr_copy a 127 WSI_TOKEN_PROTOCOL;
  if n <? 0 then Ok Refused
  else if n =? 0 then Ok (Bound (default_protocol_index vh))
  else protocol_loop (S (Z.to_nat n)) vh (lws_tokenize_init (buf ++ [0]) protocol_flags (Z.to_nat n)).

(** lws_snprintf(p, size, "%s", s): the bytes that [p] advances over. *)
Definition lws_snprintf_s (size : nat) (s : list Z) : list Z :=
  if (size =? 0)%nat then []
  else if (size <=? length s)%nat then take (size - 1) s ++ [0] else s.

(** The string in a buffer with a NUL behind it. *)
Definition http_str (buf : list Z) : list Z := default [] (c_str (buf ++ [0])).

(** The string of a header that is there. *)
Definition hdr_str (a : allocated_headers) (h : nat) : res (list Z) :=
  p ← lws_hdr_simple_ptr a h;
  match p with
  | Some p => match c_str p with Some s => Ok s | None => Fault OutOfBounds end
  | None => Fault NullDeref
  end.

(** What the handshake needs of a connection: the websocket and send state, the
    header store and whether it has one, its vhost; that it waits for an
    upgrade (LRS_PRE_WS_SERVING_ACCEPT) or gives its header store back; and
    lws_return_http_status and lws_http_transaction_completed. *)
Class HttpConn (St : Type) := {
  c_wsi : St → wsi;
  c_set_wsi : wsi → St → St;
  c_hcon : St → hcon;
  c_set_hcon : hcon → St → St;
  c_has_ah : St → bool;
  c_vhost : St → lws_vhost;
  c_bind_vhost : lws_vhost → St → St;
  c_pre_accept : St → St;
  c_detach : St → St;
  c_return_status : St → Z → list Z → res (Z * St);
  c_transaction_completed : St → res (Z * St);
}.

(** What setting one part of it leaves alone. *)
Class HttpConnLaws (St : Type) {E : HttpConn St} : Prop := {
  wsi_set_wsi w s : c_wsi (c_set_wsi w s) = w;
  wsi_set_hcon h s : c_wsi (c_set_hcon h s) = c_wsi s;
  wsi_bind_vhost v s : c_wsi (c_bind_vhost v s) = c_wsi s;
  wsi_pre_accept s : c_wsi (c_pre_accept s) = c_wsi s;
  wsi_detach s : c_wsi (c_detach s) = c_wsi s;
  hcon_set_hcon h s : c_hcon (c_set_hcon h s) = h;
  hcon_bind_vhost v s : c_hcon (c_bind_vhost v s) = c_hcon s;
  hcon_pre_accept s : c_hcon (c_pre_accept s) = c_hcon s;
  ah_set_hcon h s : c_has_ah (c_set_hcon h s) = c_has_ah s;
  ah_bind_vhost v s : c_has_ah (c_bind_vhost v s) = c_has_ah s;
  ah_pre_accept s : c_has_ah (c_pre_accept s) = c_has_ah s;
  vhost_set_hcon h s : c_vhost (c_set_hcon h s) = c_vhost s;
  vhost_bind_vhost v s : c_vhost (c_bind_vhost v s) = v;
  vhost_pre_accept s : c_vhost (c_pre_accept s) = c_vhost s;
}.

Section upgrade.
(** The send path. *)
Variable cfg : config.
Variable tx_packet_size : Z.
Variable send : nat → list Z → sent.
Variable lws_get_random : nat → option (list Z).
Variable oom : nat → bool.
(** LWS_CALLBACK_FILTER_PROTOCOL_CONNECTION of a protocol: whether it denies. *)
Variable filter_denies : nat → bool.
(** LWS_CALLBACK_ADD_HEADERS: given the room, what it adds, or [None] to fail. *)
Variable add_headers : nat → Z → option (list Z).
(** LWS_CALLBACK_HTTP_PMO of a protocol, for a mount with options: it fails. *)
Variable pmo_denies : nat → bool.
(** lws_zalloc of the ws struct, lws_ensure_user_space. *)
Variable ws_alloc_fails user_space_fails : bool.

(** The handshake response up to the headers of the user. *)
Definition response_head (accept : list Z) (protocol : option (list Z)) : list Z :=
  bs "HTTP/1.1 101 Switching Protocols" ++ [13; 10] ++ bs "Upgrade: WebSocket" ++ [13; 10]
  ++ bs "Connection: Upgrade" ++ [13; 10] ++ bs "Sec-WebSocket-Accept: " ++ accept
  ++ match protocol with
     | Some name => [13; 10] ++ bs "Sec-WebSocket-Protocol: " ++ lws_snprintf_s 128 name
     | None => []
     end
  ++ [13; 10].

(** Where the response starts in pt->serv_buf. *)
Definition response_offset : Z := MAX_WEBSOCKET_04_KEY_LEN + 256 + Z.of_nat LWS_PRE.

(** [pname] is wsi->protocol->name, [pcol] its index. *)
Definition handshake_0405 (vh : lws_vhost) (a : allocated_headers) (pcol : nat) (pname : list Z) (s : wsi) : res (Z * wsi) :=
  host ← lws_hdr_total_length a HttpParse.WSI_TOKEN_HOST;
  klen ← lws_hdr_total_length a WSI_TOKEN_KEY;
  if (host =? 0)%nat || (klen =? 0)%nat then Ok (-1, s)
  else if MAX_WEBSOCKET_04_KEY_LEN <=? Z.of_nat klen then Ok (-1, s)
  else
    key ← hdr_str a WSI_TOKEN_KEY;
    _ ← check (Z.of_nat (length (key ++ guid)) + 1 <=? pt_serv_buf_size cfg) OutOfBounds;
    let hash := SHA1.lws_SHA1 (key ++ guid) in
    let '(accept_len, serv_buf) := lws_b64_encode_string hash (pt_serv_buf_size cfg) in
    if accept_len <? 0 then Ok (-1, s)
    else if user_space_fails then Ok (-1, s)
    else
      let accept := take (Z.to_nat accept_len) serv_buf in
      plen ← lws_hdr_total_length a WSI_TOKEN_PROTOCOL;
      let head := response_head accept
                    (if negb (plen =? 0)%nat && negb (bool_decide (pname = [])) then Some pname else None) in
      _ ← check (response_offset + Z.of_nat (length head) + 1 <=? pt_serv_buf_size cfg) OutOfBounds;
      match add_headers pcol (pt_serv_buf_size cfg - (response_offset + Z.of_nat (length head))) with
      | None => Ok (-1, s)
      | Some extra =>
          let response := head ++ extra ++ [13; 10] in
          _ ← check (response_offset + Z.of_nat (length response) + 1 <=? pt_serv_buf_size cfg) OutOfBounds;
          '(n, s) ← lws_write cfg tx_packet_size send lws_get_random oom s response LWS_WRITE_HTTP_HEADERS;
          if negb (n =? Z.of_nat (length response)) then Ok (-1, s)
          else
            let s := set_ws (set_lws_rx_parse_state LWS_RXPS_NEW (set_wsistate LRS_ESTABLISHED (ws s))) s in
            uri_ptr ← lws_hdr_simple_ptr a WSI_TOKEN_GET_URI;
            uri_len ← lws_hdr_total_length a WSI_TOKEN_GET_URI;
            hit ← lws_find_mount (mount_list vh) (default [] uri_ptr) uri_len (negb (uri_len =? 0)%nat);
            if (match hit with Some m => cgienv m | None => false end) && pmo_denies pcol then Ok (1, s) else Ok (0, s)
      end.

(** The result, the protocol that was bound and the connection. *)
Definition lws_process_ws_upgrade (vh : lws_vhost) (a : allocated_headers) (s : wsi) : res (Z * option nat * wsi) :=
  let s := set_ws (set_wsistate LRS_ESTABLISHED (ws s)) s in
  ok ← check_connection a;
  if negb ok then Ok (1, None, s)
  else
    sel ← select_protocol vh a;
    match sel with
    | Refused | Unknown => Ok (1, None, s)
    | Bound n =>
        match protocols vh !! n with
        | None => Fault OutOfBounds
        | Some pname =>
            if ws_alloc_fails then Ok (1, Some n, s)
            else
              vlen ← lws_hdr_total_length a WSI_TOKEN_VERSION;
              (* the revision that is asked for: every one is then taken for 13 *)
              revision ← (if negb (vlen =? 0)%nat then v ← hdr_str a WSI_TOKEN_VERSION; Ok (atoi v) else Ok 0);
              if user_space_fails then Ok (1, Some n, s)
              else if filter_denies n then Ok (1, Some n, s)
              else
                '(r, s) ← handshake_0405 vh a n pname s;
                if negb (r =? 0) then Ok (1, Some n, s)
                else Ok (0, Some n, set_ws lws_server_init_wsi_for_ws s)
        end
    end.

(** *** lws_handshake_server *)

(** Whether [s] occurs in [m]. *)
Fixpoint strstr (m s : list Z) : bool :=
  bool_decide (s = take (length s) m) || match m with [] => false | _ :: m => strstr m s end.

(** 1: the Host header is not this vhost's; [tls] says that the connection is
    encrypted. *)
Definition lws_confirm_host_header (tls : bool) (vh : lws_vhost) (a : allocated_headers) : res Z :=
  hlen ← lws_hdr_total_length a HttpParse.WSI_TOKEN_HOST;
  if (hlen =? 0)%nat then Ok 1
  else
    '(n, buf) ← lws_hdr_copy a 127 HttpParse.WSI_TOKEN_HOST;
    if n <=? 0 then Ok 1
    else
      let ts := lws_tokenize_init (buf ++ [0])
                  (Z.lor (Z.lor LWS_TOKENIZE_F_DOT_NONTERM LWS_TOKENIZE_F_NO_FLOATS) LWS_TOKENIZE_F_MINUS_NONTERM) (Z.to_nat n) in
      '(e, ts) ← lws_tokenize ts;
      if negb (bool_decide (e = LWS_TOKZE_TOKEN)) then Ok 1
      else
        p ← token_ptr ts;
        (* strncmp() over the length of the token *)
        if negb (bool_decide (take (token_len ts) p = take (token_len ts) (vh_name vh ++ [0]))) then Ok 1
        else
          '(e, ts) ← lws_tokenize ts;
          q ← (match ttoken ts with Some _ => token_ptr ts | None => Ok [] end);
          port ←
            (if bool_decide (e = LWS_TOKZE_DELIMITER) && bool_decide (head q = Some 58) then
               '(e, ts) ← lws_tokenize ts;
               if negb (bool_decide (e = LWS_TOKZE_INTEGER)) then Ok None
               else
                 r ← token_ptr ts;
                 match c_str r with Some t => Ok (Some (atoi t)) | None => Fault OutOfBounds end
             else if negb (bool_decide (e = LWS_TOKZE_ENDED)) then Ok None
             else Ok (Some (if tls then 443 else 80)));
          match port with
          | None => Ok 1
          | Some port => Ok (if negb (listen_port vh =? port) then 1 else 0)
          end.

(** How a call of lws_handshake_server ends: 1 after the headers are dropped; 0
    because more is to come, after the switch to raw, after a transaction of
    the confirm callback, or after an upgrade to websocket; or it goes on with
    the upgrade to h2c or with lws_http_action. *)
Inductive handshake_end :=
  | HBail
  | HMore
  | HRaw
  | HTransaction
  | HUpgraded (pcol : nat)
  | HH2c
  | HAction.

#[global] Instance handshake_end_eq_dec : EqDecision handshake_end.
Proof. solve_decision. Defined.

Context {St : Type} {E : HttpConn St}.

(** The context's keywords of unwelcome user agents, with what they are told. *)
Variable reject_service_keywords : list (list Z * list Z).
(** LWS_CALLBACK_HTTP_CONFIRM_UPGRADE. *)
Variable confirm_upgrade : list Z → Z.
(** LWS_CALLBACK_RAW_ADOPT refuses. *)
Variable raw_refuses : bool.
Variable tls : bool.

(** The text after the first space of a keyword's value. *)
Definition reject_text (value : list Z) : list Z := drop (S (index_of 32 value)) value.

(** The answer to an upgrade that is not known: whether it fails. *)
Definition forbid (s : St) : res (bool * St) :=
  '(r, s) ← c_return_status s 403 [];
  if negb (r =? 0) then Ok (true, s)
  else '(r, s) ← c_transaction_completed s; Ok (negb (r =? 0), s).

(** After the headers are complete.  [up] points into the header store, which
    the end of a transaction may have freed. *)
Definition handshake_complete (s : St) : res (handshake_end * St) :=
  let a := ah (c_hcon s) in
  '(n, ua) ← lws_hdr_copy a 383 69;
  match (if 0 <? n then find (λ kv, strstr (http_str ua) kv.1) reject_service_keywords else None) with
  | Some (_, value) =>
      '(_, s) ← c_return_status s (atoi value) (reject_text value);
      Ok (HBail, c_detach s)
  | None =>
      connect ← lws_hdr_total_length a WSI_TOKEN_CONNECT;
      if negb (connect =? 0)%nat then Ok (if raw_refuses then HBail else HRaw, c_detach s)
      else
        let s := c_pre_accept s in
        ulen ← lws_hdr_total_length a WSI_TOKEN_UPGRADE;
        if (ulen =? 0)%nat then Ok (HAction, s)
        else
          up ← hdr_str a WSI_TOKEN_UPGRADE;
          let is_ws := bool_decide (tolower <$> up = bs "websocket") in
          let is_h2c := bool_decide (tolower <$> up = bs "h2c") in
          '(fails, s) ← (if negb is_ws && negb is_h2c then forbid s else Ok (false, s));
          if fails : bool then Ok (HBail, c_detach s)
          else
            _ ← check (c_has_ah s) UseAfterFree;
            let a := ah (c_hcon s) in
            let n := confirm_upgrade up in
            if n <? 0 then Ok (HBail, c_detach s)
            else if 0 <? n then
              '(r, s) ← c_transaction_completed s;
              Ok (if negb (r =? 0) then (HBail, c_detach s) else (HTransaction, s))
            else
              bad ← (if strict_host_check (c_vhost s) then r ← lws_confirm_host_header tls (c_vhost s) a; Ok (negb (r =? 0)) else Ok false);
              if bad : bool then Ok (HBail, c_detach s)
              else if is_ws then
                '(r, pcol, w) ← lws_process_ws_upgrade (c_vhost s) a (c_wsi s);
                let s := c_detach (c_set_wsi w s) in
                match pcol with
                | Some pcol => Ok (if r =? 0 then HUpgraded pcol else HBail, s)
                | None => Ok (HBail, s)
                end
              else Ok (if is_h2c then HH2c else HAction, s)
  end.

(** The vhost of the request is selected, and it goes on with that; until then
    the connection has the vhost of the listening socket. *)
Definition handshake_parsed (vhost_list : list lws_vhost) (s : St) : res (handshake_end * St) :=
  let a := ah (c_hcon s) in
  let port := listen_port (c_vhost s) in
  hlen ← lws_hdr_total_length a HttpParse.WSI_TOKEN_HOST;
  s ← (if negb (port =? 0) && negb (hlen =? 0)%nat then
         h ← hdr_str a HttpParse.WSI_TOKEN_HOST;
         o ← lws_select_vhost vhost_list port h;
         Ok (match o with Some vh => c_bind_vhost vh s | None => s end)
       else Ok s);
  handshake_complete s.

(** One call with [buf], which is not empty: what is left of it and the
    connection. *)
Definition lws_handshake_server (x : http_context) (vhost_list : list lws_vhost) (buf : list Z) (s : St) :
    res (handshake_end * list Z * St) :=
  _ ← check (c_has_ah s) AssertFailed;
  '(r, rest, w) ← lws_parse x buf (c_hcon s);
  let s := c_set_hcon w s in
  match r with
  | PRaw => Ok (if raw_refuses then HBail else HRaw, rest, c_detach s)
  | PFailed => Ok (HBail, rest, c_detach s)
  | PForbidden => '(_, s) ← c_return_status s 403 []; Ok (HBail, rest, c_detach s)
  | PZero =>
      if negb (bool_decide (parser_state (ah w) = WSI_PARSING_COMPLETE)) then Ok (HMore, rest, s)
      else '(e, s) ← handshake_parsed vhost_list s; Ok (e, rest, s)
  end.

(** The reads of a connection until the request is complete: the rest of the
    last one, and those that are left. *)
Fixpoint handshake_reads (x : http_context) (vhost_list : list lws_vhost) (ps : list (list Z)) (s : St) :
    res (handshake_end * list Z * list (list Z) * St) :=
  match ps with
  | [] => Ok (HMore, [], [], s)
  | b :: ps =>
      '(e, rest, s) ← lws_handshake_server x vhost_list b s;
      if bool_decide (e = HMore) then handshake_reads x vhost_list ps s else Ok (e, rest, ps, s)
  end.

End upgrade.
