(* ===== verification/H1.v ===== *)
(** * An HTTP/1 connection

    Models what the server does with an HTTP/1 connection: lws_read_h1 and
    lws_h1_server_socket_service (roles/h1/ops-h1.c), lws_http_action,
    lws_http_get_uri_and_method, lws_http_transaction_completed and
    lws_unauthorised_basic_auth (roles/http/server/server.c),
    lws_return_http_status (roles/http/header.c), lws_bind_protocol
    (core/libwebsockets.c) and lws_buflist_aware_read and _consume
    (core/service.c), on top of the header store, the handshake, the mounts and
    the send path.

    The connection is not encrypted and not carried in HTTP/2; the build has
    no CGI and no reverse proxy, as the server's is.  Timeouts, statistics and
    the access log are left out, and a header store is always to be had.
    Serving a file (lws_http_serve and lws_serve_http_file_fragment), the
    contents of the login files and the protocols' callbacks are parameters. *)

From stdpp Require Import base numbers list strings.
From Stdlib Require Import ZArith Lia Ascii.
From S2P Require Import Prelude Base64 Buflist HttpHead HttpPlugin HttpParse Vhost WsTx Upgrade.

(** ** State *)

Inductive h1_state :=
  | LRS_HEADERS | LRS_PRE_WS_SERVING_ACCEPT | LRS_ESTABLISHED | LRS_DOING_TRANSACTION | LRS_ISSUING_FILE | LRS_BODY
  | LRS_DEFERRING_ACTION.

#[global] Instance h1_state_eq_dec : EqDecision h1_state.
Proof. solve_decision. Defined.

(** [tx] is the socket with what is still to be sent; [hcn] the header store,
    which belongs to the connection when [has_ah]; [user] the session data of
    the protocol it is bound to. *)
Record h1 := H1 {
  tx : wsi;
  hcn : hcon;
  has_ah : bool;
  hw : hwsi;
  user : pss;
  hstate : h1_state;
  protocol : nat;
  protocol_bind_balance : bool;
  rx_content_length : Z;
  rx_content_remain : Z;
  content_length_explicitly_zero : bool;
  buflist : list segment;
  deferred_transaction_completed : bool;
  seen_zero_length_recv : bool;
  favoured_pollin : bool;
  vhost : lws_vhost;
}.

Definition h1_eta (s : h1) : h1 :=
  H1 (tx s) (hcn s) (has_ah s) (hw s) (user s) (hstate s) (protocol s) (protocol_bind_balance s) (rx_content_length s)
     (rx_content_remain s) (content_length_explicitly_zero s) (buflist s) (deferred_transaction_completed s)
     (seen_zero_length_recv s) (favoured_pollin s) (vhost s).

(** [h1_setter f s v]: [s] with field [f] replaced by [v]. *)
Ltac h1_setter f s v :=
  let t := eval cbv beta delta [h1_eta] in (h1_eta s) in
  match eval pattern (f s) in t with ?g _ => let r := eval cbv beta in (g v) in exact r end.

Definition set_tx (v : wsi) (s : h1) : h1 := ltac:(h1_setter tx s v).
Definition set_hcn (v : hcon) (s : h1) : h1 := ltac:(h1_setter hcn s v).
Definition set_has_ah (v : bool) (s : h1) : h1 := ltac:(h1_setter has_ah s v).
Definition set_hw (v : hwsi) (s : h1) : h1 := ltac:(h1_setter hw s v).
Definition set_user (v : pss) (s : h1) : h1 := ltac:(h1_setter user s v).
Definition set_hstate (v : h1_state) (s : h1) : h1 := ltac:(h1_setter hstate s v).
Definition set_protocol (v : nat) (s : h1) : h1 := ltac:(h1_setter protocol s v).
Definition set_protocol_bind_balance (v : bool) (s : h1) : h1 := ltac:(h1_setter protocol_bind_balance s v).
Definition set_rx_content_length (v : Z) (s : h1) : h1 := ltac:(h1_setter rx_content_length s v).
Definition set_rx_content_remain (v : Z) (s : h1) : h1 := ltac:(h1_setter rx_content_remain s v).
Definition set_content_length_explicitly_zero (v : bool) (s : h1) : h1 := ltac:(h1_setter content_length_explicitly_zero s v).
Definition set_buflist (v : list segment) (s : h1) : h1 := ltac:(h1_setter buflist s v).
Definition set_deferred_transaction_completed (v : bool) (s : h1) : h1 := ltac:(h1_setter deferred_transaction_completed s v).
Definition set_seen_zero_length_recv (v : bool) (s : h1) : h1 := ltac:(h1_setter seen_zero_length_recv s v).
Definition set_favoured_pollin (v : bool) (s : h1) : h1 := ltac:(h1_setter favoured_pollin s v).
Definition set_vhost (v : lws_vhost) (s : h1) : h1 := ltac:(h1_setter vhost s v).

Definition WSI_TOKEN_HTTP_AUTHORIZATION : nat := 25.
Definition WSI_TOKEN_HTTP_COLON_AUTHORITY : nat := 35.
Definition WSI_TOKEN_HTTP_COLON_PATH : nat := 37.
Definition WSI_TOKEN_HTTP_WWW_AUTHENTICATE : nat := 72.

(** The methods of server.c. *)
Definition uri_methods : list nat :=
  [WSI_TOKEN_GET_URI; WSI_TOKEN_POST_URI; WSI_TOKEN_OPTIONS_URI; WSI_TOKEN_PUT_URI; WSI_TOKEN_PATCH_URI; WSI_TOKEN_DELETE_URI;
   WSI_TOKEN_CONNECT; WSI_TOKEN_HEAD_URI; WSI_TOKEN_HTTP_COLON_PATH].

Definition oprot (https : bool) : list Z := if https then bs "https://" else bs "http://".

(** atoll(), as a long long. *)
Definition atoll (s : list Z) : Z := strtol s.

(** ** The surroundings *)

(** The machine: the socket, the allocators and the random numbers of the send
    path, an allocation of a segment for what was read, and what the array of
    the base64 decoder, which is not initialised, holds. *)
Record h1_io := H1Io {
  cfg : WsRx.config;
  tx_packet_size : Z;
  send : nat → list Z → sent;
  oom : nat → bool;
  lws_get_random : nat → option (list Z);
  rx_oom : h1 → bool;
  quad : list Z;
}.

(** What is set up for the vhost: what LWS_CALLBACK_HTTP_BIND_PROTOCOL of a
    protocol returns (the handlers do nothing in it, nor in
    LWS_CALLBACK_HTTP_DROP_PROTOCOL, whose answer is not looked at); the page
    for 404, and whether it is being served; whether connections are only
    accepted to be redirected to https; the contents of the login files that
    can be opened; the context's keywords of unwelcome user agents. *)
Record h1_conf := H1Conf {
  bind_callback : nat → Z;
  error_document_404 : option (list Z);
  handling_404 : bool;
  redirect_to_https : bool;
  login_file : list Z → option (list Z);
  hctx : http_context;
  vhost_list : list lws_vhost;
  reject_service_keywords : list (list Z * list Z);
}.

(** The protocols, by their numbers: their callback, whether their
    LWS_CALLBACK_CHECK_ACCESS_RIGHTS sets args.final, and what they say to
    LWS_CALLBACK_FILTER_PROTOCOL_CONNECTION, LWS_CALLBACK_ADD_HEADERS,
    LWS_CALLBACK_HTTP_PMO (of a handshake), LWS_CALLBACK_HTTP_CONFIRM_UPGRADE
    and LWS_CALLBACK_RAW_ADOPT; and serving a file of a mount. *)
Record h1_user := H1User {
  callback : nat → h1 → http_reason → res (Z * h1);
  access_final : nat → bool;
  filter_denies : nat → bool;
  add_headers : nat → Z → option (list Z);
  pmo_denies : nat → bool;
  confirm_upgrade : list Z → Z;
  raw_refuses : bool;
  lws_http_serve : h1 → list Z → lws_http_mount → res (Z * h1);
  lws_serve_http_file_fragment : h1 → res (Z * h1);
}.

(** ** The code *)

Section h1.
Context (io : h1_io) (conf : h1_conf).

(** *** Sending *)

Definition lws_callback_on_writable (s : h1) : h1 := set_tx (WsTx.lws_callback_on_writable (tx s)) s.

(** *** The end of a transaction *)

Definition lws_bind_protocol (p : nat) (s : h1) : Z * h1 :=
  let s := set_protocol_bind_balance false s in
  let s := set_user pss0 (set_protocol p s) in
  if negb (bind_callback conf p =? 0) then (1, s) else (0, set_protocol_bind_balance true s).

(** The store is freed. *)
Definition lws_header_table_detach (s : h1) : h1 := set_has_ah false s.

Definition lws_header_table_reset (s : h1) : h1 :=
  set_hcn (Hcon (_lws_header_table_reset (ah (hcn s))) (rx_frame_type (hcn s)) false) s.

(** A new store; what is in its bytes, which are not initialised, does not
    matter: here it is what the last one had. *)
Definition lws_header_table_attach (s : h1) : h1 :=
  let a := if has_ah s then ah (hcn s) else _lws_create_ah (data (ah (hcn s))) in
  set_has_ah true (lws_header_table_reset (set_hcn (Hcon a (rx_frame_type (hcn s)) (hdr_parsing_completed (hcn s))) s)).

Definition set_completed (b : bool) (s : h1) : h1 := set_hcn (Hcon (ah (hcn s)) (rx_frame_type (hcn s)) b) s.

Definition lws_http_transaction_completed (s : h1) : res (Z * h1) :=
  if lws_has_buffered_out (tx s) then Ok (0, lws_callback_on_writable (set_deferred_transaction_completed true s))
  else if negb (hdr_parsing_completed (hcn s)) then Ok (0, s)
  else if seen_zero_length_recv s then Ok (1, s)
  else
    match http_conn_type (hw s) with
    | HTTP_CONNECTION_CLOSE => Ok (1, s)
    | HTTP_CONNECTION_KEEP_ALIVE =>
        let '(r, s) := lws_bind_protocol 0 s in
        if negb (r =? 0) then Ok (1, s)
        else
          let s := set_completed false (set_hw (set_tx_content 0 (hw s)) (set_hstate LRS_DEFERRING_ACTION s)) in
          '(len, _, bl) ← lws_buflist_next_segment_len (buflist s);
          let s := set_buflist bl s in
          let s :=
            if has_ah s then
              if len =? 0 then lws_header_table_detach s
              else let s := lws_header_table_reset s in
                   set_hcn (Hcon (set_ues URIES_IDLE (ah (hcn s))) (rx_frame_type (hcn s)) (hdr_parsing_completed (hcn s))) s
            else if negb (len =? 0) then lws_header_table_attach s else s in
          Ok (0, lws_callback_on_writable s)
    end.

(** lws_issue_raw, with the deferred end of a transaction once the last of what
    was buffered is sent.  [buf] is [None] for NULL. *)
Definition lws_issue_raw (s : h1) (buf : option (list Z)) : res (Z * h1) :=
  '(n, t) ← WsTx.lws_issue_raw (cfg io) (tx_packet_size io) (send io) (oom io) (tx s) buf;
  if lws_has_buffered_out (tx s) && negb (n <? 0) && negb (lws_has_buffered_out t) && deferred_transaction_completed s
  then
    '(r, s) ← lws_http_transaction_completed (set_deferred_transaction_completed false (set_tx (set_pollout (pollout (tx s)) t) s));
    Ok (if negb (r =? 0) then -1 else n, s)
  else Ok (n, set_tx t s).

(** lws_write and rops_write_role_protocol_h1. *)
Definition lws_write (s : h1) (buf : list Z) : res (Z * h1) :=
  if s32 (Z.of_nat (length buf)) <? 0 then Ok (-1, s)
  else
    '(n, s) ← lws_issue_raw s (Some buf);
    Ok (if n <? 0 then n else s32 (Z.of_nat (length buf)), s).

#[global] Instance h1_session : HttpSession h1 := {
  s_hwsi := hw;
  s_set_hwsi := set_hw;
  s_user := user;
  s_set_user := set_user;
  s_write b _ s := lws_write s b;
  s_on_writable := lws_callback_on_writable;
  s_on_writable_all := lws_callback_on_writable;
  s_transaction_completed := lws_http_transaction_completed;
}.

(** *** Answers the server gives itself *)

(** What is left of pt->serv_buf after LWS_PRE. *)
Definition serv_room : Z := WsRx.pt_serv_buf_size (cfg io) - Z.of_nat CommPlugin.LWS_PRE.

(** lws_http_redirect with its write; [room] is the space for the header. *)
Definition redirect (room : Z) (s : h1) (code : Z) (loc : list Z) : res (Z * h1) :=
  '(r, out) ← lws_http_redirect (Z.to_nat room) (hw s) code loc [];
  if negb (r =? 0) then Ok (-1, s) else lws_write s out.

Definition error_page (code : Z) (html_body : list Z) : list Z :=
  bs "<html><head><meta charset=utf-8 http-equiv=" ++ [34] ++ bs "Content-Language" ++ [34] ++ bs " content=" ++ [34] ++ bs "en" ++ [34]
  ++ bs "/><link rel=" ++ [34] ++ bs "stylesheet" ++ [34] ++ bs " type=" ++ [34] ++ bs "text/css" ++ [34] ++ bs " href=" ++ [34]
  ++ bs "/error.css" ++ [34] ++ bs "/></head><body><h1>" ++ fmt_llu code ++ bs "</h1>" ++ html_body ++ bs "</body></html>".

(** The page is put together 512 bytes before the end of the buffer counted
    from its own start, and moved behind the header; where the two overlap the
    copy has no meaning. *)
Definition lws_return_http_status (s : h1) (code : Z) (html_body : list Z) : res (Z * h1) :=
  '(m, s) ←
    (match error_document_404 conf with
     | Some page => if negb (handling_404 conf) && (code =? 404) then redirect serv_room s 302 page else Ok (0, s)
     | None => Ok (0, s)
     end);
  if 0 <? m then Ok (0, s)
  else
    let room := Z.to_nat serv_room in
    '(r, out) ← lws_add_http_header_status room (hw s) code [];
    if negb (r =? 0) then Ok (1, s)
    else
      '(r, out) ← lws_add_http_header_by_token room WSI_TOKEN_HTTP_CONTENT_TYPE (bs "text/html") out;
      if negb (r =? 0) then Ok (1, s)
      else
        let body := lws_snprintf_s 510 (error_page code html_body) in
        _ ← check (Z.of_nat CommPlugin.LWS_PRE + WsRx.pt_serv_buf_size (cfg io) - 512 + Z.of_nat (S (length body) `min` 510)
                   <=? WsRx.pt_serv_buf_size (cfg io)) OutOfBounds;
        '(r, out) ← lws_add_http_header_by_token room WSI_TOKEN_HTTP_CONTENT_LENGTH (fmt_d (Z.of_nat (length body))) out;
        if negb (r =? 0) then Ok (1, s)
        else
          '(r, out) ← lws_finalize_http_header room out;
          if negb (r =? 0) then Ok (1, s)
          else
            _ ← check (Z.of_nat (length out + length body) <=? WsRx.pt_serv_buf_size (cfg io) - 512) OutOfBounds;
            '(m, s) ← lws_write s (out ++ body);
            Ok (if negb (m =? Z.of_nat (length out + length body)) then 1 else 0, s).

(** What the handshake does with the connection. *)
#[global] Instance h1_conn : HttpConn h1 := {
  c_wsi := tx;
  c_set_wsi := set_tx;
  c_hcon := hcn;
  c_set_hcon := set_hcn;
  c_has_ah := has_ah;
  c_vhost := vhost;
  c_bind_vhost := set_vhost;
  c_pre_accept := set_hstate LRS_PRE_WS_SERVING_ACCEPT;
  c_detach := lws_header_table_detach;
  c_return_status := lws_return_http_status;
  c_transaction_completed := lws_http_transaction_completed;
}.

Definition lws_unauthorised_basic_auth (s : h1) : res (Z * h1) :=
  let room := 2048%nat in
  '(r, out) ← lws_add_http_header_status room (hw s) 401 [];
  if negb (r =? 0) then Ok (-1, s)
  else
    '(r, out) ← lws_add_http_header_by_token room WSI_TOKEN_HTTP_WWW_AUTHENTICATE (bs "Basic realm=" ++ [34] ++ bs "lwsws" ++ [34]) out;
    if negb (r =? 0) then Ok (-1, s)
    else
      '(r, out, w) ← lws_add_http_header_content_length room (hw s) 0 out;
      let s := set_hw w s in
      if negb (r =? 0) then Ok (-1, s)
      else
        '(r, out) ← lws_finalize_http_header room out;
        if negb (r =? 0) then Ok (-1, s)
        else
          _ ← check (Z.of_nat (length out) <=? serv_room) OutOfBounds;
          '(n, s) ← lws_write s out;
          if n <? 0 then Ok (-1, s) else lws_http_transaction_completed s.

(** *** The request *)

(** The lengths of the methods' headers, in order. *)
Fixpoint method_lengths (a : allocated_headers) (ms : list nat) : res (list nat) :=
  match ms with
  | [] => Ok []
  | m :: ms => n ← lws_hdr_total_length a m; l ← method_lengths a ms; Ok (n :: l)
  end.

(** -1, or the number of the method; what uri_ptr points at, and uri_len. *)
Definition lws_http_get_uri_and_method (a : allocated_headers) : res (Z * list Z * nat) :=
  l ← method_lengths a uri_methods;
  match list_find (λ n, n ≠ 0%nat) l with
  | None => Ok (-1, [], 0%nat)
  | Some (i, n) =>
      if negb (length (filter (λ n, n ≠ 0%nat) l) =? 1)%nat then Ok (-1, [], 0%nat)
      else
        p ← lws_hdr_simple_ptr a (nth i uri_methods 0%nat);
        Ok (Z.of_nat i, default [] p, n)
  end.

(** rx_content_length, and whether it is said to be zero. *)
Definition request_length (a : allocated_headers) : res (Z * bool) :=
  post ← lws_hdr_total_length a WSI_TOKEN_POST_URI;
  patch ← lws_hdr_total_length a WSI_TOKEN_PATCH_URI;
  put ← lws_hdr_total_length a WSI_TOKEN_PUT_URI;
  let len := if negb (post =? 0)%nat || negb (patch =? 0)%nat || negb (put =? 0)%nat then 100 * 1024 * 1024 else 0 in
  n ← lws_hdr_total_length a HttpHead.WSI_TOKEN_HTTP_CONTENT_LENGTH;
  if (n =? 0)%nat then Ok (len, false)
  else
    '(m, buf) ← lws_hdr_copy a 31 HttpHead.WSI_TOKEN_HTTP_CONTENT_LENGTH;
    if m <=? 0 then Ok (len, false)
    else let v := u64 (atoll (http_str buf)) in Ok (v, v =? 0).

Definition request_http_version (a : allocated_headers) : res Z :=
  n ← lws_hdr_total_length a WSI_TOKEN_HTTP;
  if negb (7 <? n)%nat then Ok 0
  else
    '(m, buf) ← lws_hdr_copy a 11 WSI_TOKEN_HTTP;
    if (0 <? m) && bool_decide (buf !! 5%nat = Some 49) && bool_decide (buf !! 7%nat = Some 49) then Ok 1 else Ok 0.

Definition request_conn_type (a : allocated_headers) (version : Z) : res conn_type :=
  let t := if version =? 1 then HTTP_CONNECTION_KEEP_ALIVE else HTTP_CONNECTION_CLOSE in
  n ← lws_hdr_total_length a HttpParse.WSI_TOKEN_CONNECTION;
  if (n =? 0)%nat then Ok t
  else
    '(m, buf) ← lws_hdr_copy a 24 HttpParse.WSI_TOKEN_CONNECTION;
    let name := tolower <$> http_str buf in
    Ok (if m <=? 0 then t
        else if bool_decide (name = bs "keep-alive") then HTTP_CONNECTION_KEEP_ALIVE
        else if bool_decide (name = bs "close") then HTTP_CONNECTION_CLOSE else t).

Definition set_version (v : Z) (t : conn_type) (w : hwsi) : hwsi :=
  {| request_version := v; vhost_headers := vhost_headers w; security_best_practices := security_best_practices w;
     server_string := server_string w; sts := sts w; tx_content_length := tx_content_length w;
     tx_content_remain := tx_content_remain w; http_conn_type := t |}.

(** Lines 970 to 1025 of lws_http_action. *)
Definition request_head (s : h1) : res h1 :=
  let a := ah (hcn s) in
  '(len, zero) ← request_length a;
  v ← request_http_version a;
  t ← request_conn_type a v;
  Ok (set_hw (set_version v t (hw s)) (set_content_length_explicitly_zero zero (set_rx_content_length len s))).

(** *** Logins *)

Inductive auth := AuthOk (a : allocated_headers) | AuthForbidden | AuthMissing.

(** A mount with a login file, whose contents are [file].  A login that is
    accepted leaves its user's name in the header. *)
Definition basic_auth (file : option (list Z)) (a : allocated_headers) : res auth :=
  ml ← lws_hdr_total_length a WSI_TOKEN_HTTP_AUTHORIZATION;
  if (ml =? 0)%nat then Ok AuthMissing
  else
    fi ← get_index a WSI_TOKEN_HTTP_AUTHORIZATION;
    f ← get_frag a fi;
    if negb (fnext f =? 0)%nat then Ok AuthMissing
    else
      '(m, b64) ← lws_hdr_copy a 160 WSI_TOKEN_HTTP_AUTHORIZATION;
      if m <? 7 then Ok AuthForbidden
      else if negb (bool_decide (tolower <$> http_str (take 5 b64) = bs "basic")) then Ok AuthForbidden
      else
        let '(m, plain) := lws_b64_decode_string (quad io) (drop 6 b64 ++ [0]) 119 in
        if m <? 0 then Ok AuthForbidden
        else
          let plain := take (Z.to_nat m) plain in
          let colon := index_of 58 (http_str plain) in
          if (colon =? length (http_str plain))%nat then Ok AuthMissing
          else
            ok ← lws_find_string_in_file file plain;
            if negb ok then Ok AuthMissing
            else
              a ← put_frag fi (Fragment (offset f) colon (fnext f)) a;
              let name := take (ml - 1) (take colon plain ++ replicate ml 0) ++ [0] in
              d ← memcpy (data a) (offset f) name;
              Ok (AuthOk (set_data d a)).

(** *** A redirection to a directory, or somewhere else *)

(** The string at [end], 256 bytes of it at most, tidied; the length is the one
    it had before, so that NULs follow it. *)
Definition redirect_location (text : list Z) : list Z :=
  let n := length (lws_snprintf_s 256 text) in
  let url := lws_clean_url (take 255 text) in
  url ++ replicate (n - length url) 0.

Definition is_redirect (m : lws_http_mount) : bool :=
  bool_decide (origin_protocol m = LWSMPRO_REDIR_HTTP) || bool_decide (origin_protocol m = LWSMPRO_REDIR_HTTPS).

(** [s] is what follows the mountpoint in the URI. *)
Definition needs_redirect (m : lws_http_mount) (s : list Z) : bool :=
  ((1 <? mountpoint_len m)%nat || is_redirect m)
  && (negb (bool_decide (head s = Some 47)) || is_redirect m)
  && negb (bool_decide (origin_protocol m = LWSMPRO_CGI)) && negb (bool_decide (origin_protocol m = LWSMPRO_CALLBACK)).

(** [None]: there is no host to redirect to. *)
Definition redirect_text (m : lws_http_mount) (a : allocated_headers) (uri : list Z) : res (option (list Z)) :=
  if is_redirect m then Ok (Some (oprot (bool_decide (origin_protocol m = LWSMPRO_REDIR_HTTPS)) ++ origin m))
  else
    h ← lws_hdr_total_length a HttpParse.WSI_TOKEN_HOST;
    if negb (h =? 0)%nat then
      host ← hdr_str a HttpParse.WSI_TOKEN_HOST; Ok (Some (oprot false ++ host ++ uri ++ [47]))
    else
      n ← lws_hdr_total_length a WSI_TOKEN_HTTP_COLON_AUTHORITY;
      if (n =? 0)%nat then Ok None
      else host ← hdr_str a WSI_TOKEN_HTTP_COLON_AUTHORITY; Ok (Some (oprot false ++ host ++ uri ++ [47])).

(** *** Request bodies *)

Context (usr : h1_user).

(** The callback that is bound. *)
Definition call (s : h1) (r : http_reason) : res (Z * h1) := callback usr (protocol s) s r.

(** How a call of lws_read_h1 ends: the connection is closed, or so many bytes
    are used and it is still HTTP/1, a websocket, raw or HTTP/2. *)
Inductive read_end := RClosed | RUsed (n : nat) | RUpgraded (pcol n : nat) | RRaw (n : nat) | RH2c (n : nat).

Definition postbody_completion (s : h1) (used : nat) : res (read_end * h1) :=
  '(n, s) ← call s LWS_CALLBACK_HTTP_BODY_COMPLETION;
  Ok (if negb (n =? 0) then RClosed else RUsed used, s).

(** From http_postbody with [buf]; [used] bytes are used before it. *)
Definition http_postbody (s : h1) (buf : list Z) (used : nat) : res (read_end * h1) :=
  if rx_content_remain s =? 0 then postbody_completion s used
  else if bool_decide (buf = []) then Ok (RUsed used, s)
  else
    let chunk := Z.min (rx_content_remain s) (Z.of_nat (length buf)) in
    let s := set_rx_content_remain (rx_content_remain s - chunk) s in
    '(n, s) ← call s (LWS_CALLBACK_HTTP_BODY (take (Z.to_nat chunk) buf));
    if negb (n =? 0) then Ok (RClosed, s)
    else
      let used := (used + Z.to_nat chunk)%nat in
      if negb (rx_content_remain s =? 0) then Ok (RUsed used, s) else postbody_completion s used.

(** *** Bytes that wait *)

(** What a read of the socket gives. *)
Inductive got := Got (b : list Z) | GotEnd | GotError | GotMore.

(** Whether the bytes are in the list and whether they are taken to be, what
    there is, and the connection. *)
Definition lws_buflist_aware_read (s : h1) (g : got) : res (bool * bool * got * h1) :=
  '(prior, _, bl) ← lws_buflist_next_segment_len (buflist s);
  let s := set_buflist bl s in
  let from_list (s : h1) : res (bool * bool * got * h1) :=
    '(_, b, bl) ← lws_buflist_next_segment_len (buflist s); Ok (true, true, Got b, set_buflist bl s) in
  match g with
  | GotMore => if negb (prior =? 0) then from_list s else Ok (false, false, g, s)
  | GotEnd | GotError => Ok (false, false, g, s)
  | Got b =>
      if prior =? 0 then Ok (false, false, g, s)
      else
        '(n, bl) ← lws_buflist_append_segment (rx_oom io s) (buflist s) b;
        if n <? 0 then Ok (false, true, g, set_buflist bl s) else from_list (set_buflist bl s)
  end.

(** 1: there is no memory. *)
Definition lws_buflist_aware_consume (s : h1) (b : list Z) (used : nat) (buffered : bool) : res (Z * h1) :=
  if (used =? 0)%nat && buffered then Ok (0, s)
  else if buffered then
    '(_, bl) ← lws_buflist_use_segment (buflist s) used; Ok (0, set_buflist bl s)
  else if (used =? length b)%nat then Ok (0, s)
  else
    '(m, bl) ← lws_buflist_append_segment (rx_oom io s) (buflist s) (drop used b);
    Ok (if m <? 0 then 1 else 0, set_buflist bl s).

(** The loop of lws_http_action over the waiting bytes, [fuel] times at most.
    A read that closes the connection frees what its callers go on to use. *)
Fixpoint body_loop (fuel : nat) (read : h1 → list Z → res (read_end * h1)) (s : h1) : res (Z * h1) :=
  match fuel with
  | O => Fault Unfinished
  | S fuel =>
      '(len, b, bl) ← lws_buflist_next_segment_len (buflist s);
      let s := set_buflist bl s in
      if len =? 0 then Ok (0, s)
      else
        '(e, s) ← read s b;
        match e with
        | RClosed => Fault UseAfterFree
        | RUsed m | RUpgraded _ m | RRaw m | RH2c m =>
            '(r, s) ← lws_buflist_aware_consume s b m true;
            if negb (r =? 0) then Ok (-1, s) else body_loop fuel read s
        end
  end.

(** *** The request is acted on *)

(** bail_nuke_ah. *)
Definition nuke_ah (s : h1) : Z * h1 := (1, lws_header_table_detach s).

(** How the parts of lws_http_action end: it returns, or goes on to [after]
    with what LWS_CALLBACK_HTTP said, or to the next part. *)
Inductive action_end := AReturn (n : Z) | AAfter (m : Z) | ANext.

(** From [after]; [read] is lws_read_h1, and [fuel] the turns of its loop. *)
Definition after (fuel : nat) (read : h1 → list Z → res (read_end * h1)) (s : h1) (m : Z) : res (Z * h1) :=
  if negb (m =? 0) then Ok (1, s)
  else if bool_decide (hstate s = LRS_ISSUING_FILE) then Ok (0, s)
  else
    post ← lws_hdr_total_length (ah (hcn s)) WSI_TOKEN_POST_URI;
    if content_length_explicitly_zero s && negb (post =? 0)%nat then
      '(n, s) ← call s (LWS_CALLBACK_HTTP_BODY []);
      if negb (n =? 0) then Ok (1, s)
      else '(n, s) ← call s LWS_CALLBACK_HTTP_BODY_COMPLETION; Ok (if negb (n =? 0) then 1 else 0, s)
    else if 0 <? rx_content_length s then
      body_loop fuel read (set_rx_content_remain (rx_content_length s) (set_hstate LRS_BODY s))
    else Ok (0, s).

(** No mount has the URI. *)
Definition no_hit (s : h1) (uri : list Z) : res (action_end * h1) :=
  let '(r, s) := lws_bind_protocol 0 s in
  if negb (r =? 0) then Ok (AReturn 1, s)
  else
    '(m, s) ← call (set_hstate LRS_DOING_TRANSACTION s) (LWS_CALLBACK_HTTP uri);
    Ok (AAfter m, s).

Definition do_redirect (s : h1) (hit : lws_http_mount) (uri : list Z) : res (Z * h1) :=
  text ← redirect_text hit (ah (hcn s)) uri;
  match text with
  | None => Ok (nuke_ah s)
  | Some text =>
      '(n, s) ← redirect (serv_room - 512) s 301 (redirect_location text);
      if n <? 0 then Ok (nuke_ah s) else lws_http_transaction_completed s
  end.

Definition do_basic_auth (s : h1) (hit : lws_http_mount) : res (action_end * h1) :=
  match basic_auth_login_file hit with
  | None => Ok (ANext, s)
  | Some name =>
      r ← basic_auth (login_file conf name) (ah (hcn s));
      match r with
      | AuthOk a => Ok (ANext, set_hcn (Hcon a (rx_frame_type (hcn s)) (hdr_parsing_completed (hcn s))) s)
      | AuthMissing => '(r, s) ← lws_unauthorised_basic_auth s; Ok (AReturn r, s)
      | AuthForbidden =>
          '(_, s) ← lws_return_http_status s 403 [];
          '(r, s) ← lws_http_transaction_completed s;
          Ok (AReturn r, s)
      end
  end.

(** A mount with a protocol: for the transaction the connection is bound to it. *)
Definition do_callback_mount (s : h1) (hit : lws_http_mount) (uri : list Z) : res (action_end * h1) :=
  if negb (bool_decide (origin_protocol hit = LWSMPRO_CALLBACK) || bool_decide (is_Some (mprotocol hit))) then Ok (ANext, s)
  else
    match lws_vhost_name_to_protocol (vhost s) (default (origin hit) (mprotocol hit)) with
    | None => Ok (AReturn 1, s)
    | Some pp =>
        let '(r, s) := lws_bind_protocol pp s in
        if negb (r =? 0) then Ok (AReturn 1, s)
        else
          '(n, s) ← call s LWS_CALLBACK_CHECK_ACCESS_RIGHTS;
          if negb (n =? 0) then '(_, s) ← lws_return_http_status s 401 []; Ok (AReturn 1, lws_header_table_detach s)
          else if access_final usr pp then Ok (AReturn 0, s)
          else
            '(n, s) ← (if cgienv hit then call s LWS_CALLBACK_HTTP_PMO else Ok (0, s));
            if negb (n =? 0) then Ok (AReturn 1, s)
            else
              post ← lws_hdr_total_length (ah (hcn s)) WSI_TOKEN_POST_URI;
              if (post =? 0)%nat then Ok (ANext, s)
              else '(m, s) ← call s (LWS_CALLBACK_HTTP (drop (mountpoint_len hit) uri)); Ok (AAfter m, s)
    end.

(** The name of the file: what follows the mountpoint, or the default. *)
Definition file_name (hit : lws_http_mount) (uri : list Z) : list Z :=
  let s := drop (mountpoint_len hit) uri in
  if bool_decide (s = []) || bool_decide (s = [47]) then default (bs "index.html") (def hit) else s.

Definition do_file (s : h1) (hit : lws_http_mount) (uri : list Z) : res (action_end * h1) :=
  '(m, s) ← (if bool_decide (origin_protocol hit = LWSMPRO_FILE) then lws_http_serve usr s (file_name hit uri) hit else Ok (1, s));
  if m <=? 0 then Ok (AAfter m, s)
  else
    match mprotocol hit with
    | None => '(m, s) ← call s (LWS_CALLBACK_HTTP uri); Ok (AAfter m, s)
    | Some name =>
        match lws_vhost_name_to_protocol (vhost s) name with
        | None => Fault NullDeref
        | Some pp =>
            let '(r, s) := lws_bind_protocol pp (set_hstate LRS_DOING_TRANSACTION s) in
            if negb (r =? 0) then Ok (AReturn 1, s)
            else '(m, s) ← call s (LWS_CALLBACK_HTTP (drop (mountpoint_len hit) uri)); Ok (AAfter m, s)
        end
    end.

(** A mount has the URI. *)
Definition on_hit (s : h1) (hit : lws_http_mount) (uri : list Z) : res (action_end * h1) :=
  if needs_redirect hit (drop (mountpoint_len hit) uri) then '(r, s) ← do_redirect s hit uri; Ok (AReturn r, s)
  else
    '(e, s) ← do_basic_auth s hit;
    match e with
    | ANext =>
        '(e, s) ← do_callback_mount s hit uri;
        match e with ANext => do_file s hit uri | _ => Ok (e, s) end
    | _ => Ok (e, s)
    end.

Definition lws_http_action (fuel : nat) (read : h1 → list Z → res (read_end * h1)) (s : h1) : res (Z * h1) :=
  '(meth, uri_ptr, uri_len) ← lws_http_get_uri_and_method (ah (hcn s));
  if meth <? 0 then Ok (nuke_ah s)
  else if negb (bool_decide (head uri_ptr = Some 47)) then '(_, s) ← lws_return_http_status s 403 []; Ok (nuke_ah s)
  else
    s ← request_head s;
    let uri := take uri_len uri_ptr in
    '(n, s) ← call s (LWS_CALLBACK_FILTER_HTTP_CONNECTION uri);
    if negb (n =? 0) then Ok (1, s)
    else if redirect_to_https conf then
      host ← lws_hdr_total_length (ah (hcn s)) HttpParse.WSI_TOKEN_HOST;
      (* the location is put behind the end of the buffer *)
      if (host =? 0)%nat then Ok (nuke_ah s) else Fault OutOfBounds
    else
      get ← lws_hdr_total_length (ah (hcn s)) WSI_TOKEN_GET_URI;
      hit ← lws_find_mount (mount_list (vhost s)) uri_ptr uri_len (negb (get =? 0)%nat);
      '(e, s) ← (match hit with None => no_hit s uri | Some hit => on_hit s hit uri end);
      match e with
      | AReturn r => Ok (r, s)
      | AAfter m => after fuel read s m
      | ANext => after fuel read s 0
      end.

(** *** Reading *)

Definition h1_handshake (buf : list Z) (s : h1) : res (handshake_end * list Z * h1) :=
  Upgrade.lws_handshake_server (cfg io) (tx_packet_size io) (send io) (lws_get_random io) (oom io) (filter_denies usr) (add_headers usr) (pmo_denies usr)
    false false (reject_service_keywords conf) (confirm_upgrade usr) (raw_refuses usr) false (hctx conf) (vhost_list conf) buf s.

(** The reads of a connection until its first request is complete. *)
Definition h1_handshake_reads (ps : list (list Z)) (s : h1) : res (handshake_end * list Z * list (list Z) * h1) :=
  Upgrade.handshake_reads (cfg io) (tx_packet_size io) (send io) (lws_get_random io) (oom io) (filter_denies usr) (add_headers usr)
    (pmo_denies usr) false false (reject_service_keywords conf) (confirm_upgrade usr) (raw_refuses usr) false (hctx conf) (vhost_list conf) ps s.

(** After lws_handshake_server, when it is still HTTP: [rest] is what it left
    of the bytes, [freed] whether they were freed in the meantime. *)
Definition after_handshake (s : h1) (rest : list Z) (used : nat) (freed : bool) : res (read_end * h1) :=
  if negb (hdr_parsing_completed (hcn s)) then Ok (RUsed used, s)
  else
    match hstate s with
    | LRS_BODY =>
        let s := set_rx_content_remain (rx_content_length s) s in
        _ ← check (negb freed || (rx_content_remain s =? 0) || bool_decide (rest = [])) UseAfterFree;
        http_postbody s rest used
    | _ => Ok (RUsed used, s)
    end.

(** [fuel] bounds the depth and the turns of the loop of lws_http_action;
    [in_list] says that [buf] is the first segment of the list. *)
Fixpoint lws_read_h1 (fuel : nat) (in_list : bool) (s : h1) (buf : list Z) : res (read_end * h1) :=
  match fuel with
  | O => Fault Unfinished
  | S fuel =>
      match hstate s with
      | LRS_ISSUING_FILE | LRS_DEFERRING_ACTION => Ok (RUsed 0, s)
      | LRS_HEADERS | LRS_ESTABLISHED =>
          let s := if bool_decide (hstate s = LRS_ESTABLISHED) then set_completed false s else s in
          let segments := length (buflist s) in
          '(e, rest, s) ← h1_handshake buf s;
          let used := (length buf - length rest)%nat in
          match e with
          | HBail => Ok (RClosed, s)
          | HRaw => Ok (RRaw used, s)
          | HUpgraded pcol => Ok (RUpgraded pcol used, s)
          | HH2c => Ok (RH2c used, s)
          | HMore | HTransaction => after_handshake s rest used false
          | HAction =>
              '(r, s) ← lws_http_action fuel (lws_read_h1 fuel true) (set_hstate LRS_ESTABLISHED s);
              if negb (r =? 0) then Ok (RClosed, s)
              else after_handshake s rest used (in_list && (length (buflist s) <? segments)%nat)
          end
      | LRS_BODY => http_postbody s buf 0
      | LRS_PRE_WS_SERVING_ACCEPT | LRS_DOING_TRANSACTION => Fault AssertFailed
      end
  end.

(** *** The socket is ready *)

(** What became of the connection. *)
Inductive served := Handled | Closed | BecameWs (pcol : nat) | BecameRaw | BecameH2.

(** From try_pollout; [rout] says that the socket can be written to. *)
Definition try_pollout (s : h1) (rout : bool) : res (served * h1) :=
  if negb rout then Ok (Handled, s)
  else
    let s := set_tx (set_could_have_pending false (set_pollout false (tx s))) s in
    let s := if bool_decide (hstate s = LRS_DEFERRING_ACTION) then set_hstate LRS_ESTABLISHED s else s in
    if negb (hdr_parsing_completed (hcn s)) then Ok (Handled, s)
    else if bool_decide (hstate s = LRS_ISSUING_FILE) then
      '(n, s) ← lws_serve_http_file_fragment usr s; Ok (if n <? 0 then Closed else Handled, s)
    else if lws_has_buffered_out (tx s) then
      '(n, s) ← lws_issue_raw s None; Ok (if n <? 0 then Closed else Handled, s)
    else
      '(n, s) ← call s LWS_CALLBACK_HTTP_WRITEABLE; Ok (if n <? 0 then Closed else Handled, s).

Definition reads_now (st : h1_state) : bool :=
  match st with LRS_ESTABLISHED | LRS_ISSUING_FILE | LRS_HEADERS | LRS_BODY => true | _ => false end.

Definition note_pollout (s : h1) (rout : bool) : h1 := if rout then set_favoured_pollin true s else s.

(** The bytes that were read are used. *)
Definition use_read (fuel : nat) (s : h1) (in_list buffered : bool) (b : list Z) (rout : bool) : res (served * h1) :=
  if bool_decide (hstate s = LRS_ISSUING_FILE) then
    '(r, s) ← lws_buflist_aware_consume s b 0 buffered;
    if negb (r =? 0) then Ok (Closed, s) else try_pollout s rout
  else
    '(e, s) ← lws_read_h1 fuel in_list s b;
    let finish (n : nat) (v : served) : res (served * h1) :=
      '(r, s) ← lws_buflist_aware_consume s b n buffered;
      Ok (if negb (r =? 0) then (Closed, s) else (v, note_pollout s rout)) in
    match e with
    | RClosed => Ok (Closed, s)
    | RUsed n => finish n Handled
    | RUpgraded pcol n => finish n (BecameWs pcol)
    | RRaw n => finish n BecameRaw
    | RH2c n => finish n BecameH2
    end.

(** [rin] is what there is to read, if the socket says that there is something. *)
Definition lws_h1_server_socket_service (fuel : nat) (s : h1) (rin : option got) (rout : bool) : res (served * h1) :=
  match rin with
  | None => try_pollout s rout
  | Some g =>
      if bool_decide (hstate s = LRS_DEFERRING_ACTION) then try_pollout s rout
      else if favoured_pollin s && rout then try_pollout (set_favoured_pollin false s) rout
      else if negb (reads_now (hstate s)) then try_pollout (note_pollout s rout) rout
      else
        let s := if has_ah s then s else lws_header_table_attach s in
        '(in_list, buffered, g, s) ← lws_buflist_aware_read s g;
        match g with
        | GotEnd => Ok (Closed, set_seen_zero_length_recv true s)
        | GotError => Ok (Closed, s)
        | GotMore => try_pollout s rout
        | Got b => use_read fuel s in_list buffered b rout
        end
  end.

(** *** Histories *)

(** What happens to a connection: the socket is ready, with something to read
    or not, and can be written to or not. *)
Inductive h1_event := Ready (rin : option got) (rout : bool).

(** The service of a connection until it is closed or changes its role.  The
    socket is reported writable only when it was asked for; waiting bytes are
    read when the socket has nothing. *)
Fixpoint h1_run (fuel : nat) (s : h1) (evs : list h1_event) : res (served * h1) :=
  match evs with
  | [] => Ok (Handled, s)
  | Ready rin rout :: evs =>
      '(v, s) ← lws_h1_server_socket_service fuel s rin (rout && pollout (tx s));
      match v with Handled => h1_run fuel s evs | _ => Ok (v, s) end
  end.
End h1.

(** A connection that was accepted: rops_adoption_bind_h1. *)
Definition h1_accept (store : list Z) (w : hwsi) (vh : lws_vhost) : h1 :=
  H1 (wsi0 false) (Hcon (_lws_header_table_reset (_lws_create_ah store)) 0 false) true w pss0 LRS_HEADERS
     (default_protocol_index vh) false 0 0 false [] false false false vh.

(** ** The interfaces *)

#[global] Instance h1_session_laws io conf : HttpSessionLaws h1 (E := h1_session io conf).
Proof. by split. Qed.

#[global] Instance h1_conn_laws io conf : HttpConnLaws h1 (E := h1_conn io conf).
Proof. by split. Qed.
