(* ===== verification/Handshake.v ===== *)
(** * The websocket handshake: what it answers

    Which Connection and Sec-WebSocket-Protocol lists the server accepts, the
    answer it sends, and the whole path from the bytes of a request to the
    upgraded connection.  The reference for the answer is RFC 6455: the accept
    key is the base64 of the SHA-1 of the client's key and a fixed GUID. *)

From stdpp Require Import base numbers list strings.
From Stdlib Require Import ZArith Lia Ascii.
From S2P Require Import Prelude CommPlugin Base64 Sha1 Buflist HttpHead Tokenize Lex HttpParse HttpSafe HttpUri HttpReq.
From S2P Require Import Vhost H1 WsRx WsRecv WsTx WsSend Upgrade.

(** ** The reference *)

(** The text of a list: words with spaces before them, joined with commas. *)
Fixpoint comma_text (l : list (nat * list Z)) : list Z :=
  match l with
  | [] => []
  | (k, w) :: l' => replicate k 32 ++ w ++ match l' with [] => [] | _ => 44 :: comma_text l' end
  end.

(** The first word that is a protocol's name. *)
Fixpoint first_known (vh : lws_vhost) (ws : list (list Z)) : selection :=
  match ws with
  | [] => Unknown
  | w :: ws => match lws_vhost_name_to_protocol vh w with Some n => Bound n | None => first_known vh ws end
  end.

(** RFC 6455, section 4.2.2. *)
Definition accept_key (key : list Z) : list Z := enc_text encode_orig (SHA1.Fips.sha1 (key ++ guid)).

Definition conn_flags : Z := Z.lor LWS_TOKENIZE_F_COMMA_SEP_LIST LWS_TOKENIZE_F_MINUS_NONTERM.

(** A word of such a list, as the tokenizer is told to see it. *)
Definition word_ok (flags : Z) (w : list Z) : bool := is_word (lws_tokenize_init [] flags 0) w.

(** A request to upgrade that the server can accept, in terms of which headers
    [reads] something and which are [absent]: [plist] are the protocols it
    lists, if it does. *)
Record upgrade_request (vh : lws_vhost) (reads : nat → list Z → Prop) (absent : nat → Prop) (key : list Z)
    (plist : option (list (nat * list Z))) (pcol : nat) (pname : list Z) : Prop := {
  ur_connection : ∃ l k w, reads HttpParse.WSI_TOKEN_CONNECTION (comma_text (l ++ [(k, w)]))
    ∧ (length (comma_text (l ++ [(k, w)])) < 127)%nat ∧ Forall (λ x, word_ok conn_flags x.2 = true) (l ++ [(k, w)])
    ∧ tolower <$> w = bs "upgrade";
  ur_protocol :
    match plist with
    | None => absent WSI_TOKEN_PROTOCOL ∧ pcol = default_protocol_index vh
    | Some l => l ≠ [] ∧ reads WSI_TOKEN_PROTOCOL (comma_text l) ∧ (length (comma_text l) < 127)%nat
        ∧ Forall (λ x, word_ok protocol_flags x.2 = true ∧ (length x.2 < 63)%nat) l ∧ first_known vh l.*2 = Bound pcol
    end;
  ur_name : protocols vh !! pcol = Some pname;
  ur_host : ∃ host, reads HttpParse.WSI_TOKEN_HOST host ∧ host ≠ [];
  ur_key : reads WSI_TOKEN_KEY key ∧ key ≠ [] ∧ Forall is_byte key ∧ Z.of_nat (length key) < 128;
  ur_mounts : Forall wf_mount (mount_list vh) ∧ ∃ path, reads WSI_TOKEN_GET_URI path;
  ur_version : absent WSI_TOKEN_VERSION ∨ ∃ v, reads WSI_TOKEN_VERSION v;
}.

(** ** Lemmas: the tokenizer on lists *)

(** [rest] is still to be read, and the buffer ends with its NUL. *)
Definition at_rest (ts : tokenizer) (rest : list Z) : Prop :=
  flag ts LWS_TOKENIZE_F_COMMA_SEP_LIST = true ∧ tlen ts = length rest
  ∧ drop (tstart ts) (tbuf ts) = rest ++ [0].

Lemma at_rest_read ts rest : at_rest ts rest → to_read ts = rest ∧ length (to_read ts) = tlen ts.
Proof.
  intros (_ & Hl & Hd). assert (to_read ts = rest) as E by (unfold to_read; by rewrite Hl, Hd, take_app_length).
  by rewrite E.
Qed.

Lemma at_rest_init buf flags :
  negb (Z.land flags LWS_TOKENIZE_F_COMMA_SEP_LIST =? 0) = true →
  at_rest (lws_tokenize_init (buf ++ [0]) flags (length buf)) buf.
Proof. intros H. split_and!; done. Qed.

Lemma word_ok_flags ts w : word_ok (tflags ts) w = is_word ts w.
Proof.
  reflexivity.
Qed.

Definition after (l : list (nat * list Z)) : list Z := match l with [] => [] | _ => 44 :: comma_text l end.

Lemma word_step ts k w l :
  at_rest ts (comma_text ((k, w) :: l)) → tdelim ts ≠ LWSTZ_DT_NEED_DELIM → word_ok (tflags ts) w = true →
  ∃ ts', lws_tokenize ts = Ok (LWS_TOKZE_TOKEN, ts') ∧ at_rest ts' (after l) ∧ tdelim ts' = LWSTZ_DT_NEED_DELIM
    ∧ tflags ts' = tflags ts ∧ token_ptr ts' = Ok (w ++ after l ++ [0]) ∧ token_len ts' = length w
    ∧ lws_tokenize_cstr ts' 64 = if (63 <=? length w)%nat then None else Some w.
Proof.
  intros Hr Hd Hw. destruct (at_rest_read _ _ Hr) as [Er El]. destruct Hr as (Hf & Hl & Hdr). rewrite word_ok_flags in Hw.
  change (comma_text ((k, w) :: l)) with (replicate k 32 ++ w ++ after l) in *.
  assert (word_end (after l)) as He by (destruct l; [by left|right; by eexists]).
  pose proof (tokenize_word ts k w (after l) Hf Hd El Hw He Er) as E. exists (after_word k (length w) ts).
  assert (drop (tstart ts + k) (tbuf ts) = w ++ after l ++ [0]) as Hp.
  { rewrite <- drop_drop, Hdr, <- !app_assoc. apply drop_app_length'. by rewrite length_replicate. }
  split_and!; try done.
  - split_and!; [done| |].
    + cbn. rewrite Hl, !length_app, length_replicate. lia.
    + cbn. rewrite <- drop_drop, Hp. by rewrite drop_app_length.
  - unfold token_ptr. cbn [ttoken after_word tbuf]. by rewrite Hp.
  - unfold lws_tokenize_cstr. cbn [token_len after_word ttoken tbuf].
    replace (64 <=? length w + 1)%nat with (63 <=? length w)%nat.
    + rewrite Hp. by rewrite take_app_length.
    + destruct (63 <=? length w)%nat eqn:E1; symmetry; [apply Nat.leb_le in E1; apply Nat.leb_le; lia|apply Nat.leb_gt in E1; apply Nat.leb_gt; lia].
Qed.

Lemma comma_step ts x l :
  at_rest ts (after (x :: l)) → tdelim ts = LWSTZ_DT_NEED_DELIM →
  ∃ ts', lws_tokenize ts = Ok (LWS_TOKZE_DELIMITER, ts') ∧ at_rest ts' (comma_text (x :: l)) ∧ tdelim ts' ≠ LWSTZ_DT_NEED_DELIM
    ∧ tflags ts' = tflags ts.
Proof.
  intros Hr Hd. destruct (at_rest_read _ _ Hr) as [Er El]. destruct Hr as (Hf & Hl & Hdr).
  eexists. split; [by eapply tokenize_comma|]. split; [|done]. split_and!; [done| |].
  - cbn [tlen]. rewrite Hl. cbn [after length]. lia.
  - cbn [tstart tbuf]. replace (S (tstart ts)) with (tstart ts + 1)%nat by lia. rewrite <- drop_drop, Hdr. done.
Qed.

Lemma word_no_nul flags w : word_ok flags w = true → no_nul w ∧ w ≠ [] ∧ 44 ∉ w.
Proof.
  unfold word_ok, is_word. destruct w as [|c w]; [done|]. rewrite andb_true_iff. intros [_ H].
  assert (∀ d, d ∈ c :: w → d ≠ 0 ∧ d ≠ 44) as Hd.
  { intros d Hin. rewrite forallb_forall in H. specialize (H d (proj1 (list_elem_of_In _ _) Hin)).
    apply word_char_facts in H as (H1 & _ & _ & _ & _ & H6). split; [lia|]. intros ->. by rewrite comma_delimits in H6. }
  split_and!; [|done|intros Hin; by destruct (Hd _ Hin)]. apply Forall_forall. intros d Hin. by destruct (Hd _ Hin).
Qed.

Lemma comma_text_no_nul flags l : Forall (λ x, word_ok flags x.2 = true) l → no_nul (comma_text l).
Proof.
  induction 1 as [|[k w] l Hw Hl IH]; [constructor|]. cbn in Hw. apply word_no_nul in Hw as (Hn & _ & _). cbn [comma_text].
  apply Forall_app. split; [by apply Forall_replicate|]. apply Forall_app. split; [done|]. destruct l; [constructor|by constructor].
Qed.

(** The string at a word is the word and all that follows it. *)
Lemma word_caseeq flags k w l s :
  Forall (λ x, word_ok flags x.2 = true) ((k, w) :: l) → 44 ∉ tolower <$> s →
  strcaseeq (w ++ after l ++ [0]) s = Ok (match l with [] => bool_decide (tolower <$> w = tolower <$> s) | _ => false end).
Proof.
  intros H Hs. unfold strcaseeq. rewrite app_assoc, c_str_app.
  - destruct l as [|x l]; [by rewrite app_nil_r|]. f_equal. apply bool_decide_eq_false. intros E. apply Hs. rewrite <- E.
    apply list_elem_of_fmap. exists 44. split; [done|]. apply elem_of_app. right. cbn. left.
  - inversion H as [|? ? Hw Hl]; subst. cbn in Hw. apply word_no_nul in Hw as (Hn & _ & _). apply Forall_app. split; [done|].
    destruct l; [constructor|]. constructor; [done|]. by eapply comma_text_no_nul.
Qed.


Lemma connection_loop_list fuel ts l k w :
  at_rest ts (comma_text (l ++ [(k, w)])) → tdelim ts ≠ LWSTZ_DT_NEED_DELIM →
  Forall (λ x, word_ok (tflags ts) x.2 = true) (l ++ [(k, w)]) → (2 * length l + 2 ≤ fuel)%nat →
  connection_loop fuel ts = Ok (bool_decide (tolower <$> w = bs "upgrade")).
Proof.
  revert fuel ts. induction l as [|[k0 w0] l IH]; intros fuel ts Hr Hd Hok Hf.
  - destruct fuel as [|[|fuel]]; [cbn in Hf; lia..|]. cbn [app] in *. pose proof Hok as Hok'. inversion Hok' as [|? ? Hw _]; subst. cbn in Hw.
    destruct (word_step ts k w [] Hr Hd Hw) as (ts' & E & Hr' & Hd' & Hfl & Hp & _ & _).
    cbn [connection_loop]. rewrite E. cbn [mbind res_bind]. rewrite Hp. cbn [mbind res_bind].
    rewrite (word_caseeq (tflags ts) k w []) by (done || by_compute). cbn [mbind res_bind].
    change (tolower <$> bs "upgrade") with (bs "upgrade"). destruct (bool_decide _); [done|].
    rewrite tokenize_ended; [done|done|by destruct Hr' as (_ & -> & _)].
  - destruct fuel as [|[|fuel]]; [cbn in Hf; lia..|]. cbn [app length] in *. pose proof Hok as Hok'. inversion Hok' as [|? ? Hw Hl]; subst. cbn in Hw.
    destruct (l ++ [(k, w)]) as [|x l'] eqn:El; [by destruct l|].
    destruct (word_step ts k0 w0 (x :: l') Hr Hd Hw) as (ts' & E & Hr' & Hd' & Hfl & Hp & _ & _).
    cbn [connection_loop]. rewrite E. cbn [mbind res_bind]. rewrite Hp. cbn [mbind res_bind].
    rewrite (word_caseeq (tflags ts) k0 w0 (x :: l')) by (done || by_compute). cbn [mbind res_bind].
    destruct (comma_step ts' x l' Hr' Hd') as (ts2 & E2 & Hr2 & Hd2 & Hfl2). rewrite E2. cbn [mbind res_bind].
    apply IH; [exact Hr2|done|by rewrite Hfl2, Hfl|lia].
Qed.

Lemma protocol_loop_list fuel vh ts l :
  l ≠ [] → at_rest ts (comma_text l) → tdelim ts ≠ LWSTZ_DT_NEED_DELIM →
  Forall (λ x, word_ok (tflags ts) x.2 = true ∧ (length x.2 < 63)%nat) l → (2 * length l ≤ fuel)%nat →
  protocol_loop fuel vh ts = Ok (first_known vh l.*2).
Proof.
  revert fuel ts. induction l as [|[k w] l IH]; intros fuel ts Hne Hr Hd Hok Hf; [done|].
  destruct fuel as [|[|fuel]]; [cbn in Hf; lia..|]. inversion Hok as [|? ? [Hw Hlen] Hl]; subst. cbn in Hw, Hlen.
  destruct (word_step ts k w l Hr Hd Hw) as (ts' & E & Hr' & Hd' & Hfl & _ & _ & Hc).
  cbn [protocol_loop fmap list_fmap snd first_known]. rewrite E. cbn [mbind res_bind].
  rewrite Hc, (proj2 (Nat.leb_gt _ _)) by lia. destruct (lws_vhost_name_to_protocol vh w); [done|].
  destruct l as [|x l].
  - rewrite tokenize_ended; [done|done|by destruct Hr' as (_ & -> & _)].
  - destruct (comma_step ts' x l Hr' Hd') as (ts2 & E2 & Hr2 & Hd2 & Hfl2). rewrite E2. cbn [mbind res_bind].
    cbn [length] in Hf. apply IH; [done|exact Hr2|done|by rewrite Hfl2, Hfl|cbn; lia].
Qed.

Lemma comma_text_length flags l :
  Forall (λ x, word_ok flags x.2 = true) l → l ≠ [] → (2 * length l ≤ S (length (comma_text l)))%nat.
Proof.
  intros H Hne. induction H as [|[k w] l Hw Hl IH]; [done|]. cbn in Hw. apply word_no_nul in Hw as (_ & Hw & _).
  cbn [comma_text length]. rewrite !length_app. destruct w; [done|]. destruct l as [|x l]; [cbn; lia|].
  specialize (IH ltac:(done)). cbn [length] in *. lia.
Qed.

(** ** Lemmas: the answer *)

Lemma length_sha1 d : length (SHA1.lws_SHA1 d) = 20%nat.
Proof. done. Qed.

Lemma length_enc_text encode l : length (enc_text encode l) = (4 * ((length l + 2) / 3))%nat.
Proof.
  induction l as [|a|a b|a b c l IH] using triples_ind; [done..|].
  change (enc_text encode (a :: b :: c :: l)) with (encode_group encode a b c 3 ++ enc_text encode l).
  rewrite length_app, IH. cbn [length encode_group]. replace (S (S (S (length l))) + 2)%nat with (length l + 2 + 1 * 3)%nat by lia.
  rewrite Nat.div_add by lia. lia.
Qed.

Lemma guid_bytes : Forall is_byte guid.
Proof. by_compute. Qed.

(** What lws_b64_encode_string leaves in pt->serv_buf. *)
Lemma accept_text key size :
  Forall is_byte key → Z.of_nat (length key) < 128 → 29 < size →
  lws_b64_encode_string (SHA1.lws_SHA1 (key ++ guid)) size = (28, accept_key key ++ [0]) ∧ length (accept_key key) = 28%nat.
Proof.
  intros Hb Hl Hs. assert (SHA1.lws_SHA1 (key ++ guid) = SHA1.Fips.sha1 (key ++ guid)) as E.
  { apply SHA1.lws_SHA1_fips; [apply Forall_app; split; [done|apply guid_bytes]|]. rewrite length_app.
    change (length guid) with 36%nat. lia. }
  assert (length (accept_key key) = 28%nat) as Hk by (unfold accept_key; rewrite length_enc_text, <- E; done).
  split; [|done]. unfold lws_b64_encode_string, b64_encode_string. rewrite encode_loop_eq. cbv zeta. rewrite E.
  fold (accept_key key). rewrite Hk. rewrite (proj2 (Z.ltb_lt _ _)) by lia. done.
Qed.

Lemma hdr_reads_str a t v : hdr_reads a t v → hdr_str a t = Ok v.
Proof. intros (_ & _ & p & E & Ec). unfold hdr_str. rewrite E. cbn [mbind res_bind]. by rewrite Ec. Qed.

Lemma check_connection_list a l k w :
  hdr_reads a HttpParse.WSI_TOKEN_CONNECTION (comma_text (l ++ [(k, w)])) → (length (comma_text (l ++ [(k, w)])) < 127)%nat →
  Forall (λ x, word_ok conn_flags x.2 = true) (l ++ [(k, w)]) →
  check_connection a = Ok (bool_decide (tolower <$> w = bs "upgrade")).
Proof.
  intros (_ & Hc & _) Hl Hok. unfold check_connection. rewrite Hc by lia. cbn [mbind res_bind].
  pose proof (comma_text_length _ _ Hok ltac:(by destruct l)) as Hlen. rewrite length_app in Hlen. cbn in Hlen.
  rewrite (proj2 (Z.leb_gt _ _)) by lia. rewrite Nat2Z.id. apply (connection_loop_list _ _ l k w); [|done|done|lia].
  by apply at_rest_init.
Qed.

Lemma select_protocol_list vh a l :
  l ≠ [] → hdr_reads a WSI_TOKEN_PROTOCOL (comma_text l) → (length (comma_text l) < 127)%nat →
  Forall (λ x, word_ok protocol_flags x.2 = true ∧ (length x.2 < 63)%nat) l →
  select_protocol vh a = Ok (first_known vh l.*2).
Proof.
  intros Hne (_ & Hc & _) Hl Hok. unfold select_protocol. rewrite Hc by lia. cbn [mbind res_bind].
  pose proof (comma_text_length protocol_flags l (Forall_impl _ _ _ Hok (λ _ H, proj1 H)) Hne) as Hlen.
  assert (1 ≤ length l)%nat by (destruct l; [done|cbn; lia]).
  rewrite (proj2 (Z.ltb_ge _ _)), (proj2 (Z.eqb_neq _ _)) by lia. rewrite Nat2Z.id.
  apply protocol_loop_list; [done|by apply at_rest_init|done|done|lia].
Qed.

Section answer.
Context (cfg : config) (tx_packet_size : Z) (send : nat → list Z → sent) (rnd : nat → option (list Z)) (oom : nat → bool).
Context (Henv : environment send rnd oom).

Lemma write_headers s buf :
  buflist_out s = [] → buf ≠ [] → wsistate (ws s) = LRS_ESTABLISHED → Z.of_nat (length buf) <= INT_MAX →
  ∃ s', lws_write cfg tx_packet_size send rnd oom s buf LWS_WRITE_HTTP_HEADERS = Ok (Z.of_nat (length buf), s')
    ∧ stream s' = stream s ++ buf.
Proof.
  intros Ho Hne Hst Hlen. unfold lws_write. unfold INT_MAX in Hlen. rewrite s32_small, (proj2 (Z.ltb_ge (Z.of_nat (length buf)) 0)) by (unfold INT_MIN, INT_MAX in *; lia).
  unfold rops_write_role_protocol_ws. cbn [Z.land Z.eqb Pos.eqb Pos.land orb LWS_WRITE_HTTP_HEADERS].
  set (s1 := set_writes _ s).
  destruct (issue_raw_fresh cfg tx_packet_size send rnd oom Henv s1 buf) as (s' & E & Hs); [done|done|by cbn; rewrite Hst|].
  exists s'. split; [exact E|]. rewrite (st_stream _ _ _ Hs). done.
Qed.

(** The protocol's callbacks: it lets the connection through and adds
    [extra] to the answer. *)
Context (filter_denies : nat → bool) (add_headers : nat → Z → option (list Z)) (pmo_denies : nat → bool).

#[local] Abbreviation handshake_0405 := (handshake_0405 cfg tx_packet_size send rnd oom add_headers pmo_denies false).
#[local] Abbreviation lws_process_ws_upgrade :=
  (lws_process_ws_upgrade cfg tx_packet_size send rnd oom filter_denies add_headers pmo_denies false false).

(** The answer to a request with this key, for this protocol: the lines of
    RFC 6455, section 4.2.2, and those the protocol added. *)
Definition line (l : list Z) : list Z := l ++ [13; 10].

Definition answer (key : list Z) (protocol : option (list Z)) (extra : list Z) : list Z :=
  line (bs "HTTP/1.1 101 Switching Protocols") ++ line (bs "Upgrade: WebSocket") ++ line (bs "Connection: Upgrade")
  ++ line (bs "Sec-WebSocket-Accept: " ++ accept_key key)
  ++ match protocol with Some name => line (bs "Sec-WebSocket-Protocol: " ++ name) | None => [] end
  ++ line extra.

Lemma answer_response_head key protocol extra : (length (default [] protocol) < 128)%nat →
  answer key protocol extra = response_head (accept_key key) protocol ++ extra ++ [13; 10].
Proof.
  intros Hl. unfold answer, response_head, line, lws_snprintf_s. rewrite <- !app_assoc. do 8 f_equal.
  destruct protocol as [name|]; [|done]. cbn [default from_option id] in Hl.
  rewrite (proj2 (Nat.leb_gt 128 _)) by done. cbn [Nat.eqb]. by rewrite <- !app_assoc.
Qed.

Lemma handshake_ok vh a pcol pname s key host path (plen : nat) extra :
  let protocol := if negb (plen =? 0)%nat && negb (bool_decide (pname = [])) then Some pname else None in
  buflist_out s = [] → wsistate (ws s) = LRS_ESTABLISHED →
  hdr_reads a HttpParse.WSI_TOKEN_HOST host → host ≠ [] → hdr_reads a WSI_TOKEN_KEY key → key ≠ [] → Forall is_byte key →
  Z.of_nat (length key) < 128 → lws_hdr_total_length a WSI_TOKEN_PROTOCOL = Ok plen →
  (∀ room, add_headers pcol room = Some extra) → pmo_denies pcol = false →
  Forall wf_mount (mount_list vh) → hdr_reads a WSI_TOKEN_GET_URI path → (length (default [] protocol) < 128)%nat →
  response_offset + Z.of_nat (length (answer key protocol extra)) + 1 <= pt_serv_buf_size cfg <= INT_MAX →
  ∃ s', handshake_0405 vh a pcol pname s = Ok (0, s') ∧ stream s' = stream s ++ answer key protocol extra.
Proof.
  intros protocol Ho Hst Hhost Hhne Hkey Hkne Hkb Hkl Hplen Hadd Hpmo Hmnt Hpath Hpl [Hfit Hmax].
  rewrite (answer_response_head key protocol extra Hpl) in *.
  unfold response_offset, MAX_WEBSOCKET_04_KEY_LEN, INT_MAX in *. rewrite length_app in Hfit.
  unfold Upgrade.handshake_0405. pose proof Hhost as [-> _]. pose proof Hkey as [-> _]. cbn [mbind res_bind].
  assert ((length host =? 0)%nat = false ∧ (length key =? 0)%nat = false) as [-> ->] by (by destruct host, key).
  cbn [orb]. unfold MAX_WEBSOCKET_04_KEY_LEN. rewrite (proj2 (Z.leb_gt _ _)) by lia. rewrite (hdr_reads_str _ _ _ Hkey).
  assert (length (key ++ guid) = (length key + 36)%nat) as Hkg by by rewrite length_app.
  cbn [mbind res_bind]. rewrite check_true by (apply Z.leb_le; lia). cbn [mbind res_bind]. cbv zeta.
  destruct (accept_text key (pt_serv_buf_size cfg) Hkb Hkl ltac:(lia)) as [-> Hk28]. cbn [Z.ltb Z.compare].
  change (Z.to_nat 28) with 28%nat. rewrite <- Hk28, take_app_length. rewrite Hplen. cbn [mbind res_bind].
  fold protocol. rewrite check_true by (apply Z.leb_le; unfold response_offset, MAX_WEBSOCKET_04_KEY_LEN; lia). cbn [mbind res_bind].
  rewrite Hadd. rewrite check_true by (apply Z.leb_le; unfold response_offset, MAX_WEBSOCKET_04_KEY_LEN; rewrite length_app; lia).
  cbn [mbind res_bind].
  destruct (write_headers s (response_head (accept_key key) protocol ++ extra ++ [13; 10])) as (s' & -> & Hs); try done.
  { unfold INT_MAX. rewrite length_app. lia. }
  cbn [mbind res_bind]. rewrite Z.eqb_refl. cbn [negb]. destruct Hpath as (-> & _ & p & -> & Hp).
  destruct (c_str_spec _ _ Hp) as [r ->]. cbn [mbind res_bind default from_option id].
  destruct (find_mount_total path r (negb (length path =? 0)%nat) (c_str_no_nul _ _ Hp) (mount_list vh) 0 None Hmnt) as [o Eo].
  unfold lws_find_mount. rewrite Eo. cbn [mbind res_bind]. rewrite Hpmo, andb_false_r. eexists. split; [done|]. exact Hs.
Qed.

(** The protocol is named in the answer when the client listed any. *)
Definition answered_protocol (plist : option (list (nat * list Z))) (pname : list Z) : option (list Z) :=
  match plist with Some _ => Some pname | None => None end.

Lemma name_index_lookup names name i n : name_index names name i = Some n → (i ≤ n)%nat ∧ names !! (n - i)%nat = Some name.
Proof.
  revert i. induction names as [|p names IH]; intros i; [done|]. cbn [name_index]. case_bool_decide as E.
  - intros [= <-]. rewrite Nat.sub_diag. by subst.
  - intros H. apply IH in H as [H1 H2]. split; [lia|]. by replace (n - i)%nat with (S (n - S i)) by lia.
Qed.

Lemma name_index_none vh w : lws_vhost_name_to_protocol vh w = None → w ∉ protocols vh.
Proof.
  unfold lws_vhost_name_to_protocol. generalize 0%nat. induction (protocols vh) as [|p names IH]; intros i; [by intros _ ?%elem_of_nil|].
  cbn [name_index]. case_bool_decide as E; [done|]. intros H [->|Hin]%elem_of_cons; [done|]. by apply (IH _ H).
Qed.

Lemma first_known_word vh ws n : first_known vh ws = Bound n → ∃ w, w ∈ ws ∧ protocols vh !! n = Some w.
Proof.
  induction ws as [|w ws IH]; [done|]. cbn [first_known]. destruct (lws_vhost_name_to_protocol vh w) as [m|] eqn:E.
  - intros [= ->]. exists w. split; [left|]. apply name_index_lookup in E as [_ E]. by rewrite Nat.sub_0_r in E.
  - intros H. destruct (IH H) as (v & Hv & Hn). exists v. split; [by right|done].
Qed.

Lemma upgrade_ok vh a key plist pcol pname extra s :
  upgrade_request vh (hdr_reads a) (hdr_absent a) key plist pcol pname → buflist_out s = [] →
  filter_denies pcol = false → pmo_denies pcol = false → (∀ room, add_headers pcol room = Some extra) →
  response_offset + Z.of_nat (length (answer key (answered_protocol plist pname) extra)) + 1 <= pt_serv_buf_size cfg <= INT_MAX →
  ∃ s', lws_process_ws_upgrade vh a s = Ok (0, Some pcol, s') ∧ ws s' = lws_server_init_wsi_for_ws
    ∧ stream s' = stream s ++ answer key (answered_protocol plist pname) extra.
Proof.
  intros [(l & k & w & Hc & Hcl & Hcw & Hup) Hpr Hnm (host & Hh & Hhne) (Hk & Hkne & Hkb & Hkl) (Hmnt & path & Hpath) Hv] Ho Hfd Hmd Hadd Hfit.
  unfold Upgrade.lws_process_ws_upgrade. set (s1 := set_ws _ s).
  rewrite (check_connection_list a l k w Hc Hcl Hcw). rewrite bool_decide_eq_true_2 by done. cbn [mbind res_bind negb].
  assert (select_protocol vh a = Ok (Bound pcol) ∧ ∃ plen, lws_hdr_total_length a WSI_TOKEN_PROTOCOL = Ok plen
    ∧ (if negb (plen =? 0)%nat && negb (bool_decide (pname = [])) then Some pname else None) = answered_protocol plist pname
    ∧ (length (default [] (answered_protocol plist pname)) < 128)%nat) as (-> & plen & Hpl & Hap & Hnl).
  { destruct plist as [pl|].
    - destruct Hpr as (Hne & Hr & Hl & Hw & Hf). split; [by rewrite (select_protocol_list vh a pl), Hf|].
      exists (length (comma_text pl)). split; [by destruct Hr|].
      pose proof (comma_text_length protocol_flags pl (Forall_impl _ _ _ Hw (λ _ H, proj1 H)) Hne) as Hlen.
      assert (1 ≤ length pl)%nat by (destruct pl; [done|cbn; lia]). rewrite (proj2 (Nat.eqb_neq _ _)) by lia.
      destruct (first_known_word vh _ _ Hf) as (v & Hin & Hv'). rewrite Hnm in Hv'. injection Hv' as <-.
      apply list_elem_of_fmap in Hin as (x & Ex & Hin). rewrite Forall_forall in Hw. destruct (Hw x Hin) as [Hwx Hlx].
      rewrite <- Ex in Hwx, Hlx. apply word_no_nul in Hwx as (_ & Hne' & _). rewrite bool_decide_eq_false_2 by done.
      split; [done|cbn; lia].
    - destruct Hpr as ((Ht & Hcopy & _) & ->). split; [unfold select_protocol; by rewrite Hcopy|]. exists 0%nat. split; [done|]. split; [done|cbn; lia]. }
  cbn [mbind res_bind]. rewrite Hnm.
  assert (∃ vlen, lws_hdr_total_length a WSI_TOKEN_VERSION = Ok vlen
    ∧ ∃ r, (if negb (vlen =? 0)%nat then v ← hdr_str a WSI_TOKEN_VERSION; Ok (atoi v) else Ok 0) = Ok r) as (vlen & -> & r & Er).
  { destruct Hv as [(-> & _)|[v Hv]]; [by exists 0%nat; split; [|exists 0]|]. pose proof Hv as [-> _]. exists (length v). split; [done|].
    rewrite (hdr_reads_str _ _ _ Hv). destruct (negb (length v =? 0)%nat); by eexists. }
  cbn [mbind res_bind]. rewrite Er. cbn [mbind res_bind]. rewrite Hfd.
  destruct (handshake_ok vh a pcol pname s1 key host path plen extra) as (s2 & -> & Hs2); try done.
  { by rewrite Hap. }
  { by rewrite Hap. }
  rewrite Hap in Hs2. cbn [mbind res_bind Z.eqb negb]. eexists. split; [done|]. split; [done|exact Hs2].
Qed.

End answer.

(** ** Lemmas: from the bytes of a request *)

Lemma upgrade_request_mono vh (R R' : nat → list Z → Prop) (A A' : nat → Prop) key plist pcol pname :
  (∀ t v, R t v → R' t v) → (∀ t, (t < WSI_TOKEN_COUNT)%nat → A t → A' t) →
  upgrade_request vh R A key plist pcol pname → upgrade_request vh R' A' key plist pcol pname.
Proof.
  intros HR HA [(l & k & w & ? & ? & ? & ?) Hp ? (host & ? & ?) (? & ? & ? & ?) (? & path & ?) Hv].
  split; [exists l, k, w; auto| |done|exists host; auto|auto|split; [done|exists path; auto]|].
  - destruct plist as [l'|]; [naive_solver|]. destruct Hp. split; [|done]. apply HA; [unfold WSI_TOKEN_PROTOCOL, WSI_TOKEN_COUNT; lia|done].
  - destruct Hv as [Hv|[v Hv]]; [left|right; by exists v; auto]. apply HA; [unfold WSI_TOKEN_VERSION, WSI_TOKEN_COUNT; lia|done].
Qed.

Section from_bytes.
Context (cfg : config) (tx_packet_size : Z) (send : nat → list Z → sent) (rnd : nat → option (list Z)) (oom : nat → bool).
Context (Henv : environment send rnd oom).
Context (filter_denies : nat → bool) (add_headers : nat → Z → option (list Z)) (pmo_denies : nat → bool).
Context (rejects : list (list Z * list Z)) (confirm_upgrade : list Z → Z) (raw_refuses tls : bool).
Context {St : Type} `{L : HttpConnLaws St}.

#[local] Abbreviation lws_handshake_server :=
  (lws_handshake_server cfg tx_packet_size send rnd oom filter_denies add_headers pmo_denies false false
     rejects confirm_upgrade raw_refuses tls).

#[local] Abbreviation handshake_complete :=
  (handshake_complete cfg tx_packet_size send rnd oom filter_denies add_headers pmo_denies false false
     rejects confirm_upgrade raw_refuses tls).

Lemma complete_ok (s : St) fields key plist pcol pname extra up :
  stored_request (ah (c_hcon s)) fields → WSI_TOKEN_CONNECT ∉ fields.*1 → (WSI_TOKEN_UPGRADE, up) ∈ fields →
  tolower <$> up = bs "websocket" → confirm_upgrade up = 0 → strict_host_check (c_vhost s) = false → rejects = [] → c_has_ah s = true →
  upgrade_request (c_vhost s) (λ t v, (t, v) ∈ fields) (λ t, t ∉ fields.*1) key plist pcol pname → buflist_out (c_wsi s) = [] →
  filter_denies pcol = false → pmo_denies pcol = false → (∀ room, add_headers pcol room = Some extra) →
  response_offset + Z.of_nat (length (answer key (answered_protocol plist pname) extra)) + 1 <= pt_serv_buf_size cfg <= INT_MAX →
  ∃ s', handshake_complete s = Ok (HUpgraded pcol, s') ∧ ws (c_wsi s') = lws_server_init_wsi_for_ws
    ∧ stream (c_wsi s') = stream (c_wsi s) ++ answer key (answered_protocol plist pname) extra.
Proof.
  intros Hst Hnc Hup Hws Hcf Hsh Hrk Hah Hreq Ho Hfd Hmd Hadd Hfit. pose proof Hst as (_ & Hr & Ha).
  unfold Upgrade.handshake_complete. set (a := ah (c_hcon s)) in *.
  assert (69 < WSI_TOKEN_COUNT ∧ WSI_TOKEN_CONNECT < WSI_TOKEN_COUNT)%nat as [H69 Hcc] by (unfold WSI_TOKEN_CONNECT, WSI_TOKEN_COUNT; lia).
  destruct (copy_result a 69 383 (stored_cases a fields 69 Hst H69)) as ([n ua] & ->). cbn [mbind res_bind].
  rewrite Hrk. cbn [find]. assert ((if 0 <? n then None else None) = @None (list Z * list Z)) as -> by by destruct (0 <? n).
  destruct (Ha _ Hcc Hnc) as [-> _]. cbn [mbind res_bind Nat.eqb negb].
  pose proof (Hr _ _ Hup) as Hupr. pose proof Hupr as [-> _]. cbn [mbind res_bind].
  assert ((length up =? 0)%nat = false) as -> by by destruct up.
  rewrite (hdr_reads_str _ _ _ Hupr). cbn [mbind res_bind]. cbv zeta. rewrite Hws, (bool_decide_eq_true_2 (bs "websocket" = _)) by done.
  cbn [negb andb mbind res_bind]. rewrite ah_pre_accept, Hah, check_true by done. cbn [mbind res_bind]. rewrite Hcf. cbn [Z.ltb Z.compare].
  rewrite vhost_pre_accept, hcon_pre_accept, wsi_pre_accept, Hsh. cbn [mbind res_bind]. fold a.
  destruct (upgrade_ok cfg tx_packet_size send rnd oom Henv filter_denies add_headers pmo_denies (c_vhost s) a key plist pcol pname extra (c_wsi s))
    as (s' & -> & Hw & Hs); try done.
  { eapply upgrade_request_mono; [exact Hr|exact Ha|exact Hreq]. }
  cbn [mbind res_bind Z.eqb]. eexists. split; [reflexivity|]. by rewrite wsi_detach, wsi_set_wsi.
Qed.

#[local] Abbreviation handshake_parsed :=
  (handshake_parsed cfg tx_packet_size send rnd oom filter_denies add_headers pmo_denies false false
     rejects confirm_upgrade raw_refuses tls).

#[local] Abbreviation handshake_reads :=
  (handshake_reads cfg tx_packet_size send rnd oom filter_denies add_headers pmo_denies false false
     rejects confirm_upgrade raw_refuses tls).

Lemma parsed_ok vhost_list (s : St) version segs last hs vh key plist pcol pname extra up :
  let fields := request_fields WSI_TOKEN_GET_URI version segs last hs in
  Forall field_ok hs → stored_request (ah (c_hcon s)) fields →
  (∀ host, (HttpParse.WSI_TOKEN_HOST, host) ∈ fields →
     listen_port (c_vhost s) ≠ 0 ∧ lws_select_vhost vhost_list (listen_port (c_vhost s)) host = Ok (Some vh)) →
  (WSI_TOKEN_UPGRADE, up) ∈ fields → tolower <$> up = bs "websocket" →
  confirm_upgrade up = 0 → strict_host_check vh = false → rejects = [] → c_has_ah s = true →
  upgrade_request vh (λ t v, (t, v) ∈ fields) (λ t, t ∉ fields.*1) key plist pcol pname → buflist_out (c_wsi s) = [] →
  filter_denies pcol = false → pmo_denies pcol = false → (∀ room, add_headers pcol room = Some extra) →
  response_offset + Z.of_nat (length (answer key (answered_protocol plist pname) extra)) + 1 <= pt_serv_buf_size cfg <= INT_MAX →
  ∃ s', handshake_parsed vhost_list s = Ok (HUpgraded pcol, s')
    ∧ ws (c_wsi s') = lws_server_init_wsi_for_ws ∧ stream (c_wsi s') = stream (c_wsi s) ++ answer key (answered_protocol plist pname) extra.
Proof.
  intros fields Hhs Hst Hvh Hup Hws Hcf Hsh Hrk Hah Hreq Ho Hfd Hmd Hadd Hfit. unfold Upgrade.handshake_parsed.
  destruct (ur_host _ _ _ _ _ _ _ Hreq) as (host & Hh & Hhne). pose proof Hst as (_ & Hr & _). destruct (Hvh host Hh) as [Hport Hsel]. apply Hr in Hh.
  pose proof Hh as [-> _]. cbn [mbind res_bind]. assert ((length host =? 0)%nat = false) as -> by by destruct host.
  rewrite (proj2 (Z.eqb_neq (listen_port (c_vhost s)) 0)) by done. cbn [negb andb].
  rewrite (hdr_reads_str _ _ _ Hh). cbn [mbind res_bind]. rewrite Hsel. cbn [mbind res_bind].
  rewrite <- (wsi_bind_vhost vh s) in Ho |- *. rewrite <- (hcon_bind_vhost vh s) in Hst. rewrite <- (ah_bind_vhost vh s) in Hah.
  apply (complete_ok (c_bind_vhost vh s) fields key plist pcol pname extra up); rewrite ?vhost_bind_vhost; try done.
  by apply (no_other_method WSI_TOKEN_GET_URI version segs last hs).
Qed.

(** A request that is parsed in one go is parsed in pieces. *)
Lemma reads_parsed x vhost_list ps s text body w' e (P : wsi → Prop) :
  c_has_ah s = true → lws_parse x text (c_hcon s) = Ok (PZero, body, w') →
  hdr_parsing_completed (c_hcon s) = false → hdr_parsing_completed w' = true → concat ps = text →
  (∀ s1, c_has_ah s1 = true → c_hcon s1 = w' → c_wsi s1 = c_wsi s → c_vhost s1 = c_vhost s →
     ∃ s2, handshake_parsed vhost_list s1 = Ok (e, s2) ∧ P (c_wsi s2)) → e ≠ HMore →
  ∃ rest ps' s2, handshake_reads x vhost_list ps s = Ok (e, rest, ps', s2) ∧ P (c_wsi s2) ∧ rest ++ concat ps' = body.
Proof.
  intros Hah Ep Hw Hw' Hps Hp He. revert s text Hah Ep Hw Hps Hp. induction ps as [|b ps IH]; intros s text Hah Ep Hw <- Hp.
  - cbn in Ep. injection Ep as <- <-. congruence.
  - cbn [concat] in Ep. cbn [Upgrade.handshake_reads]. unfold Upgrade.lws_handshake_server. rewrite Hah, check_true by done. cbn [mbind res_bind].
    destruct (parse_split x b (concat ps) (c_hcon s) body w' Ep Hw Hw') as [(rest & -> & Hr & Hc)|(w1 & -> & Hn & Hw1 & Ep')]; cbn [mbind res_bind].
    + rewrite (bool_decide_eq_true_2 _ Hc). cbn [negb].
      destruct (Hp (c_set_hcon w' s)) as (s2 & -> & H2); rewrite ?ah_set_hcon, ?hcon_set_hcon, ?wsi_set_hcon, ?vhost_set_hcon; try done.
      cbn [mbind res_bind]. rewrite bool_decide_eq_false_2 by done. by exists rest, ps, s2.
    + rewrite (bool_decide_eq_false_2 _ Hn). cbn [negb mbind res_bind]. rewrite bool_decide_eq_true_2 by done.
      apply (IH (c_set_hcon w1 s) (concat ps)); rewrite ?ah_set_hcon, ?hcon_set_hcon, ?wsi_set_hcon, ?vhost_set_hcon; done.
Qed.
End from_bytes.

(** ** Claims *)

(** [C2] The websocket service from its first byte: a new connection that sends
    a well-formed upgrade request (a Connection list that ends in "upgrade", a
    key, a host, and a list of protocols of which the server knows one, or no
    such list), and after it websocket frames, cut up in any way, is answered
    with exactly the handshake of RFC 6455 — the accept key is the base64 of
    the SHA-1 of the key and the GUID, the protocol the first one of the list
    that is known — and then the protocol handler is called with exactly the
    messages of the frames. *)
Theorem ws_from_first_byte (io : h1_io) (conf : h1_conf) (usr : h1_user) (text : list Z) (w : hwsi) (vh0 vh : lws_vhost)
    (path : list uchar) (version : list Z) (segs : list (list Z)) (last : list Z) (hs : list header)
    (key : list Z) (plist : option (list (nat * list Z))) (pcol : nat) (pname extra up : list Z)
    (scb : list event → event → Z) (reads : list (list Z)) (fs : list frame) (cN : conn)
    (Henv : environment (send io) (H1.lws_get_random io) (oom io))
    (Hgood : good_request (hctx conf) text WSI_TOKEN_GET_URI path version segs last hs)
    (Hvh : ∀ host, (HttpParse.WSI_TOKEN_HOST, host) ∈ request_fields WSI_TOKEN_GET_URI version segs last hs →
             listen_port vh0 ≠ 0 ∧ lws_select_vhost (vhost_list conf) (listen_port vh0) host = Ok (Some vh))
    (Hup : (WSI_TOKEN_UPGRADE, up) ∈ request_fields WSI_TOKEN_GET_URI version segs last hs) (Hws : tolower <$> up = bs "websocket")
    (Hcf : confirm_upgrade usr up = 0) (Hsh : strict_host_check vh = false) (Hrk : reject_service_keywords conf = [])
    (Hreq : upgrade_request vh (λ t v, (t, v) ∈ request_fields WSI_TOKEN_GET_URI version segs last hs)
              (λ t, t ∉ (request_fields WSI_TOKEN_GET_URI version segs last hs).*1) key plist pcol pname)
    (Hfd : filter_denies usr pcol = false) (Hmd : pmo_denies usr pcol = false) (Hadd : ∀ room, add_headers usr pcol room = Some extra)
    (Hfit : response_offset + Z.of_nat (length (answer key (answered_protocol plist pname) extra)) + 1
            <= pt_serv_buf_size (cfg io) <= INT_MAX)
    (Hreads : concat reads = request_text WSI_TOKEN_GET_URI path version hs ++ concat (encode_frame <$> fs)) (Hwf : Forall wf_frame fs)
    (Hlegal : frames_next (cfg io) conn0 fs = Some cN) (Hscb : ∀ l e, scb l e = 0) (Hsize : 125 <= rx_size (cfg io)) :
  ∃ rest left s', h1_handshake_reads io conf usr reads (h1_accept text w vh0) = Ok (HUpgraded pcol, rest, left, s')
    ∧ stream (tx s') = answer key (answered_protocol plist pname) extra
    ∧ ∃ r evs, parse_reads (cfg io) scb (λ _, false) (ws (tx s')) (rest :: left) = Ok (0, r, [])
        ∧ frames_events (cfg io) conn0 fs evs ∧ sees r cN evs.
Proof.
  destruct (parse_request (hctx conf) text (fresh text 0) _ path version segs last hs (concat (encode_frame <$> fs)) Hgood (fresh_clean text 0)) as (a & ft' & E & Hst & _).
  destruct (reads_parsed (cfg io) (tx_packet_size io) (send io) (H1.lws_get_random io) (oom io) (filter_denies usr) (add_headers usr)
              (pmo_denies usr) (reject_service_keywords conf) (confirm_upgrade usr) (raw_refuses usr) false (E := h1_conn io conf)
              (hctx conf) (vhost_list conf) reads (h1_accept text w vh0) _ _ _ (HUpgraded pcol)
              (λ t, ws t = lws_server_init_wsi_for_ws ∧ stream t = answer key (answered_protocol plist pname) extra)
              eq_refl E eq_refl eq_refl Hreads) as (rest & left & s' & Er & [Hw Hs] & Hrest); [|done|].
  - intros s1 Hah Hh Ht Hv.
    destruct (parsed_ok (cfg io) (tx_packet_size io) (send io) (H1.lws_get_random io) (oom io) Henv (filter_denies usr) (add_headers usr)
                (pmo_denies usr) (reject_service_keywords conf) (confirm_upgrade usr) (raw_refuses usr) false (E := h1_conn io conf)
                (vhost_list conf) s1 version segs last hs vh key plist pcol pname extra up)
      as (s2 & Ep & Hw & Hs); rewrite ?Hh, ?Hv, ?Ht; try done; [by destruct Hgood|].
    exists s2. split; [exact Ep|]. split; [exact Hw|]. by rewrite Hs, Ht.
  - exists rest, left, s'. split; [exact Er|]. split; [exact Hs|]. cbn [h1_conn c_wsi] in Hw. rewrite Hw. by apply frames_received.
Qed.

(** Which Connection headers pass: of a list of words, only one whose last
    word is "upgrade" (in any case) does; the place of "upgrade" among the
    others is not looked at beyond that, so "Upgrade, keep-alive" is refused. *)
Theorem connection_needs_upgrade_last a l k w
    (Hr : hdr_reads a HttpParse.WSI_TOKEN_CONNECTION (comma_text (l ++ [(k, w)])))
    (Hl : (length (comma_text (l ++ [(k, w)])) < 127)%nat)
    (Hok : Forall (λ x, word_ok conn_flags x.2 = true) (l ++ [(k, w)])) :
  check_connection a = Ok (bool_decide (tolower <$> w = bs "upgrade")).
Proof. by apply (check_connection_list a l k w). Qed.

(** The protocol of the connection is the first one of the client's list
    that the server has: the words are tried in order, unknown ones are passed
    over, and none is bound when the server knows none of them. *)
Theorem first_known_protocol_selected vh a l
    (Hne : l ≠ []) (Hr : hdr_reads a WSI_TOKEN_PROTOCOL (comma_text l)) (Hl : (length (comma_text l) < 127)%nat)
    (Hok : Forall (λ x, word_ok protocol_flags x.2 = true ∧ (length x.2 < 63)%nat) l) :
  select_protocol vh a = Ok (first_known vh l.*2)
  ∧ (∀ n, select_protocol vh a = Ok (Bound n) →
       ∃ l1 k w l2, l = l1 ++ (k, w) :: l2 ∧ protocols vh !! n = Some w
         ∧ ∀ v, v ∈ l1.*2 → v ∉ protocols vh).
Proof.
  split; [by apply select_protocol_list|]. rewrite (select_protocol_list vh a l) by done. clear. intros n [= H].
  induction l as [|[k w] l IH]; [done|]. cbn [fmap list_fmap snd first_known] in H.
  destruct (lws_vhost_name_to_protocol vh w) as [m|] eqn:E.
  - injection H as ->. exists [], k, w, l. apply name_index_lookup in E as [_ E]. rewrite Nat.sub_0_r in E.
    split_and!; try done. by intros v ?%elem_of_nil.
  - destruct (IH H) as (l1 & k' & w' & l2 & -> & Hw & Hno). exists ((k, w) :: l1), k', w', l2. split_and!; try done.
    intros v [->|Hv]%elem_of_cons; [|by apply Hno]. by eapply name_index_none.
Qed.

(** *** A request to run it on: the example of RFC 6455 *)

Definition rfc_list : list (nat * list Z) := [(0%nat, bs "chat.v1"); (1%nat, bs "lws-websocket")].

Definition rfc_headers : list header :=
  [Header HttpParse.WSI_TOKEN_HOST (bs "Host:") 1 (bs "server.example.com");
   Header WSI_TOKEN_UPGRADE (bs "Upgrade:") 1 (bs "WebSocket");
   Header HttpParse.WSI_TOKEN_CONNECTION (bs "Connection:") 1 (comma_text [(0%nat, bs "keep-alive"); (1%nat, bs "Upgrade")]);
   Header WSI_TOKEN_KEY (bs "Sec-WebSocket-Key:") 1 (bs "dGhlIHNhbXBsZSBub25jZQ==");
   Header WSI_TOKEN_PROTOCOL (bs "Sec-WebSocket-Protocol:") 1 (comma_text rfc_list);
   Header WSI_TOKEN_VERSION (bs "Sec-WebSocket-Version:") 1 (bs "13")].

Definition rfc_path : list uchar := Raw <$> bs "/chat".

Definition rfc_fields : list (nat * list Z) := request_fields WSI_TOKEN_GET_URI (bs "HTTP/1.1") [] (bs "chat") rfc_headers.

Definition rfc_vhost : lws_vhost := Vhost (bs "server.example.com") 80 [bs "http-only"; bs "lws-websocket"] 0 false comlink_mounts.

Lemma rfc_good : good_request (sample_context 256) (replicate 256 7) WSI_TOKEN_GET_URI rfc_path (bs "HTTP/1.1") [] (bs "chat") rfc_headers.
Proof. split; try reflexivity; unfold req_methods, seg_ok, field_ok; by_compute. Qed.

Lemma rfc_upgrades :
  upgrade_request rfc_vhost (λ t v, (t, v) ∈ rfc_fields) (λ t, t ∉ rfc_fields.*1) (bs "dGhlIHNhbXBsZSBub25jZQ==")
    (Some rfc_list) 1 (bs "lws-websocket").
Proof.
  split.
  - exists [(0%nat, bs "keep-alive")], 1%nat, (bs "Upgrade"). split_and!; by_compute.
  - split_and!; try by_compute.
  - reflexivity.
  - exists (bs "server.example.com"). split; by_compute.
  - split_and!; by_compute.
  - split; [by_compute|]. exists (bs "/chat"). by_compute.
  - right. exists (bs "13"). by_compute.
Qed.

(** The header store after it. *)
Lemma rfc_stored : ∃ a, stored_request a rfc_fields.
Proof. destruct (parse_request _ _ _ _ _ _ _ _ _ [] rfc_good (fresh_clean _ 0)) as (a & ft & _ & H & _). by exists a. Qed.

Definition rfc_answer : list Z :=
  bs "HTTP/1.1 101 Switching Protocols" ++ crlf ++ bs "Upgrade: WebSocket" ++ crlf ++ bs "Connection: Upgrade" ++ crlf
  ++ bs "Sec-WebSocket-Accept: s3pPLMBiTxaQ9kYGzzhZRbK+xOo=" ++ crlf ++ bs "Sec-WebSocket-Protocol: lws-websocket" ++ crlf ++ crlf.

Definition rfc_frame : frame := Frame true 1 (Some [1; 2; 3; 4]) Len7 (bs "hello").

(** What the receiver has seen of a connection after it. *)
Definition rfc_conn : conn := Conn false true 0 false false None.

(** The request and the frame, in three reads. *)
Definition rfc_reads : list (list Z) :=
  let b := request_text WSI_TOKEN_GET_URI rfc_path (bs "HTTP/1.1") rfc_headers in
  [take 30 b; drop 30 b ++ take 4 (encode_frame rfc_frame); drop 4 (encode_frame rfc_frame)].

Definition rfc_io : h1_io := H1Io (Config 128 4096 true) 0 ten_bytes (λ _, false) fixed_key (λ _, false) [0; 0; 0; 0].

Definition rfc_conf : h1_conf := H1Conf (λ _, 0) None false false (λ _, None) (sample_context 256) [rfc_vhost] [].

Definition rfc_user : h1_user :=
  H1User (λ _ s _, Ok (0, s)) (λ _, false) (λ _, false) (λ _ _, Some []) (λ _, false) (λ _, 0) false
    (λ s _ _, Ok (-1, s)) (λ s, Ok (-1, s)).

Definition rfc_hwsi : hwsi := Hwsi 0 [] false None false 0 0 HTTP_CONNECTION_CLOSE.

Lemma ws_from_first_byte_witness :
  ∃ rest left s', h1_handshake_reads rfc_io rfc_conf rfc_user rfc_reads (h1_accept (replicate 256 7) rfc_hwsi rfc_vhost)
           = Ok (HUpgraded 1, rest, left, s')
    ∧ stream (tx s') = rfc_answer
    ∧ ∃ r evs, parse_reads (cfg rfc_io) (λ _ _, 0) (λ _, false) (ws (tx s')) (rest :: left) = Ok (0, r, [])
        ∧ frames_events (cfg rfc_io) conn0 [rfc_frame] evs ∧ sees r rfc_conn evs.
Proof.
  assert (rfc_answer = answer (bs "dGhlIHNhbXBsZSBub25jZQ==") (answered_protocol (Some rfc_list) (bs "lws-websocket")) []) as ->
    by (vm_compute; reflexivity).
  apply (ws_from_first_byte rfc_io rfc_conf rfc_user (replicate 256 7) rfc_hwsi rfc_vhost rfc_vhost rfc_path (bs "HTTP/1.1")
           [] (bs "chat") rfc_headers (bs "dGhlIHNhbXBsZSBub25jZQ==") (Some rfc_list) 1 (bs "lws-websocket") [] (bs "WebSocket")
           (λ _ _, 0) rfc_reads [rfc_frame] rfc_conn).
  - exact ten_bytes_env.
  - exact rfc_good.
  - intros host Hin. assert (host = bs "server.example.com") as ->.
    { assert (Forall (λ x, x.1 = HttpParse.WSI_TOKEN_HOST → x.2 = bs "server.example.com") rfc_fields) as Hf by by_compute.
      rewrite Forall_forall in Hf. exact (Hf _ Hin eq_refl). }
    split; [done|]. vm_compute. reflexivity.
  - by_compute.
  - vm_compute. reflexivity.
  - reflexivity.
  - reflexivity.
  - reflexivity.
  - exact rfc_upgrades.
  - reflexivity.
  - reflexivity.
  - reflexivity.
  - split; vm_compute; discriminate.
  - vm_compute. reflexivity.
  - by_compute.
  - vm_compute. reflexivity.
  - reflexivity.
  - vm_compute. discriminate.
Defined.

Lemma connection_needs_upgrade_last_witness :
  ∃ a, hdr_reads a HttpParse.WSI_TOKEN_CONNECTION (bs "keep-alive, Upgrade") ∧ check_connection a = Ok true.
Proof.
  destruct rfc_stored as (a & _ & Hr & _). assert (hdr_reads a HttpParse.WSI_TOKEN_CONNECTION (bs "keep-alive, Upgrade")) as H
    by (apply Hr; by_compute).
  exists a. split; [exact H|].
  apply (connection_needs_upgrade_last a [(0%nat, bs "keep-alive")] 1 (bs "Upgrade")).
  - exact H.
  - by_compute.
  - by_compute.
Defined.

Lemma first_known_protocol_selected_witness :
  ∃ a, hdr_reads a WSI_TOKEN_PROTOCOL (bs "chat.v1, lws-websocket") ∧ select_protocol rfc_vhost a = Ok (Bound 1).
Proof.
  destruct rfc_stored as (a & _ & Hr & _). assert (hdr_reads a WSI_TOKEN_PROTOCOL (bs "chat.v1, lws-websocket")) as H
    by (apply Hr; by_compute).
  exists a. split; [exact H|].
  apply (first_known_protocol_selected rfc_vhost a rfc_list).
  - done.
  - exact H.
  - by_compute.
  - by_compute.
Defined.

(** The store after a request with these Host and Connection headers. *)
Definition parsed_with (host connection : list Z) : allocated_headers :=
  match lws_parse (sample_context 256)
          (bs "GET / HTTP/1.1" ++ crlf ++ bs "Host: " ++ host ++ crlf ++ bs "Connection: " ++ connection ++ crlf ++ crlf)
          (fresh (replicate 256 7) 0) with
  | Ok (_, _, w) => ah w
  | Fault _ => _lws_create_ah []
  end.

(** The order of the Connection list decides. *)
Example connection_order :
  check_connection (parsed_with (bs "h") (bs "keep-alive, Upgrade")) = Ok true
  ∧ check_connection (parsed_with (bs "h") (bs "Upgrade, keep-alive")) = Ok false
  ∧ check_connection (parsed_with (bs "h") (bs "Upgrade ")) = Ok false.
Proof. vm_compute. split_and!; reflexivity. Qed.

(** The strict check of the Host header is not strict: only as many
    characters of the vhost's name are compared as the header has, so any
    beginning of the name passes, while another name does not. *)
Theorem host_check_accepts_prefix :
  lws_confirm_host_header false rfc_vhost (parsed_with (bs "server.example.com") (bs "Upgrade")) = Ok 0
  ∧ lws_confirm_host_header false rfc_vhost (parsed_with (bs "s") (bs "Upgrade")) = Ok 0
  ∧ lws_confirm_host_header false rfc_vhost (parsed_with (bs "server.example") (bs "Upgrade")) = Ok 0
  ∧ lws_confirm_host_header false rfc_vhost (parsed_with (bs "other.example.com") (bs "Upgrade")) = Ok 1.
Proof. vm_compute. split_and!; reflexivity. Qed.
