(* ===== verification/H1Ok.v ===== *)
(** * An HTTP/1 connection: what it answers

    What becomes of the requests of a client on one connection: a POST to a
    mount of one of the comlink handlers, read in any pieces and written to a
    socket that takes any number of bytes at a time, is answered with the
    handler's header and text and the connection goes on, or is closed, as the
    request says; and the ways in which this fails: a request that was sent
    together with the one before, a GET, an upgrade that is not known. *)

From stdpp Require Import base numbers list strings.
From Stdlib Require Import ZArith Lia Ascii.
From S2P Require Import Prelude CommPlugin Buflist HttpHead HttpPlugin HttpParse HttpSafe HttpUri HttpReq Vhost WsTx WsSend Upgrade H1.

(** ** Lemmas: the request *)

(** The value of Connection decides, else it stays open. *)
Definition conn_of (fields : list (nat * list Z)) (t : conn_type) : Prop :=
  (HttpParse.WSI_TOKEN_CONNECTION ∉ fields.*1 ∧ t = HTTP_CONNECTION_KEEP_ALIVE)
  ∨ ∃ v, (HttpParse.WSI_TOKEN_CONNECTION, v) ∈ fields ∧ (length v < 24)%nat
       ∧ t = if bool_decide (tolower <$> v = bs "close") then HTTP_CONNECTION_CLOSE else HTTP_CONNECTION_KEEP_ALIVE.

Section request.
Context (a : allocated_headers) (fields : list (nat * list Z)) (Hst : stored_request a fields).

Lemma http_str_reads t v : hdr_reads a t v → http_str v = v.
Proof.
  intros (_ & _ & p & _ & Hv). unfold http_str. by rewrite (c_str_terminated v []) by by eapply c_str_no_nul.
Qed.

(** The method and the URI. *)
Lemma get_uri_and_method mt uri :
  mt ∈ [WSI_TOKEN_GET_URI; WSI_TOKEN_POST_URI] → (mt, uri) ∈ fields → uri ≠ [] →
  (∀ m, m ∈ uri_methods → m ≠ mt → m ∉ fields.*1) →
  ∃ p, lws_http_get_uri_and_method a = Ok (Z.of_nat mt, p, length uri) ∧ c_str p = Some uri.
Proof.
  intros Hmt Hin Hne Hno. destruct Hst as (_ & Hr & Ha). destruct (Hr _ _ Hin) as (Hl & _ & p & Hp & Hc). exists p.
  assert (∀ m, m ∈ uri_methods → m ≠ mt → lws_hdr_total_length a m = Ok 0%nat) as H0.
  { intros m Hm Hmm. apply Ha; [|by apply Hno]. clear Hmm. revert m Hm. apply Forall_forall. by_compute. }
  assert (length uri ≠ 0%nat) as Hlen by by destruct uri.
  split; [|done]. unfold lws_http_get_uri_and_method, uri_methods in *. cbn [method_lengths].
  rewrite !elem_of_cons in Hmt. destruct Hmt as [->|[->|[]%elem_of_nil]];
    repeat match goal with |- context [lws_hdr_total_length a ?m] =>
      first [rewrite Hl | rewrite (H0 m) by (try by_compute; done)]; cbn [mbind res_bind] end.
  all: destruct (length uri) as [|k]; [done|]; cbn -[lws_hdr_simple_ptr]; repeat (case_decide; try lia); cbn -[lws_hdr_simple_ptr]; by rewrite Hp.
Qed.

Lemma stored_length t : (t < WSI_TOKEN_COUNT)%nat → ∃ n, lws_hdr_total_length a t = Ok n.
Proof. intros H. destruct (stored_cases a fields t Hst H) as [(? & _)|(v & ? & _)]; by eexists. Qed.

Lemma total_length_absent t : (t < WSI_TOKEN_COUNT)%nat → t ∉ fields.*1 → lws_hdr_total_length a t = Ok 0%nat.
Proof. intros H Hn. by destruct Hst as (_ & _ & Ha), (Ha t H Hn). Qed.

Lemma request_length_given v :
  (HttpHead.WSI_TOKEN_HTTP_CONTENT_LENGTH, v) ∈ fields → v ≠ [] → (length v < 31)%nat →
  request_length a = Ok (u64 (atoll v), u64 (atoll v) =? 0).
Proof.
  intros Hin Hne Hlt. unfold request_length.
  destruct (stored_length WSI_TOKEN_POST_URI ltac:(by_compute)) as [n1 ->].
  destruct (stored_length WSI_TOKEN_PATCH_URI ltac:(by_compute)) as [n2 ->].
  destruct (stored_length WSI_TOKEN_PUT_URI ltac:(by_compute)) as [n3 ->]. cbn [mbind res_bind].
  destruct Hst as (_ & Hr & _). pose proof (Hr _ _ Hin) as Hv. pose proof Hv as (Hl & Hc & _). rewrite Hl. cbn [mbind res_bind].
  assert ((length v =? 0)%nat = false) as -> by by destruct v. rewrite Hc by lia. cbn [mbind res_bind].
  rewrite (proj2 (Z.leb_gt _ 0)) by (destruct v; [done|cbn; lia]). by rewrite (http_str_reads _ _ Hv).
Qed.

Lemma request_length_none :
  (∀ t, t ∈ [WSI_TOKEN_POST_URI; WSI_TOKEN_PATCH_URI; WSI_TOKEN_PUT_URI; HttpHead.WSI_TOKEN_HTTP_CONTENT_LENGTH] → t ∉ fields.*1) →
  request_length a = Ok (0, false).
Proof.
  intros H. unfold request_length.
  rewrite !total_length_absent by (try apply H; by_compute). done.
Qed.

Lemma request_version_11 : (WSI_TOKEN_HTTP, bs "HTTP/1.1") ∈ fields → request_http_version a = Ok 1.
Proof.
  intros Hin. destruct Hst as (_ & Hr & _). destruct (Hr _ _ Hin) as (Hl & Hc & _). unfold request_http_version.
  rewrite Hl. cbn [mbind res_bind]. rewrite Hc by by_compute. done.
Qed.

Lemma request_conn_type_of t : conn_of fields t → request_conn_type a 1 = Ok t.
Proof.
  intros [[Hn ->]|(v & Hin & Hlt & ->)]; unfold request_conn_type; cbn [Z.eqb].
  - by rewrite total_length_absent by (done || by_compute).
  - destruct Hst as (_ & Hr & _). pose proof (Hr _ _ Hin) as Hv. pose proof Hv as (Hl & Hc & _). rewrite Hl. cbn [mbind res_bind].
    destruct v as [|c v]; [done|]. cbn [length Nat.eqb]. rewrite Hc by (cbn [length] in *; lia). cbn [mbind res_bind].
    rewrite (proj2 (Z.leb_gt _ 0)) by (cbn [length]; lia). rewrite (http_str_reads _ _ Hv).
    case_bool_decide as H1; [|done]. case_bool_decide as H2; [|done]. by rewrite H1 in H2.
Qed.
End request.

Lemma norm_path_slash segs last : ∃ p, norm_path segs last = 47 :: p.
Proof.
  assert (∀ st, st ≠ [] → ∃ p, render st = 47 :: p) as Hr by (intros [|s st] H; [done|by eexists]).
  unfold norm_path. case_bool_decide; [|case_bool_decide].
  - destruct (foldl seg_step [] segs) as [|s st]; by eexists.
  - destruct (removelast _) as [|s st]; by eexists.
  - apply Hr. by destruct (foldl seg_step [] segs).
Qed.

(** ** What is set up, and the requests *)

(** The machine does its work, nobody refuses the requests, and the protocol
    [pcol] is a comlink handler with the text [json]. *)
Record setup (io : h1_io) (conf : h1_conf) (usr : h1_user) (pcol : nat) (json : list Z) : Prop := {
  su_env : environment (send io) (lws_get_random io) (oom io);
  su_rx s : rx_oom io s = false;
  su_bind p : bind_callback conf p = 0;
  su_https : redirect_to_https conf = false;
  su_reject : reject_service_keywords conf = [];
  su_filter p s uri : callback usr p s (LWS_CALLBACK_FILTER_HTTP_CONNECTION uri) = Ok (0, s);
  su_handler s r : callback usr pcol s r = http_callback (E := h1_session io conf) json s r;
  su_final : access_final usr pcol = false;
  su_json : json ≠ [] ∧ (length json < LWS_RECOMMENDED_MIN_HEADER_SPACE)%nat;
}.

(** A request for a mount of [pcol] on the vhost [vh]; its Connection header
    asks for [ct]. *)
Record plain_request (conf : h1_conf) (vh : lws_vhost) (pcol : nat) (text : list Z) (mt : nat) (path : list uchar)
    (segs : list (list Z)) (last : list Z) (hs : list header) (ct : conn_type) : Prop := {
  rq_good : good_request (hctx conf) text mt path (bs "HTTP/1.1") segs last hs;
  rq_method : mt ∈ [WSI_TOKEN_GET_URI; WSI_TOKEN_POST_URI];
  rq_host : ∃ host, (HttpParse.WSI_TOKEN_HOST, host) ∈ request_fields mt (bs "HTTP/1.1") segs last hs ∧ host ≠ []
              ∧ lws_select_vhost (vhost_list conf) (listen_port vh) host = Ok (Some vh);
  rq_port : listen_port vh ≠ 0;
  rq_conn : conn_of (request_fields mt (bs "HTTP/1.1") segs last hs) ct;
  rq_plain : ∀ t, t ∈ [WSI_TOKEN_UPGRADE; WSI_TOKEN_HTTP_COLON_PATH] → t ∉ (request_fields mt (bs "HTTP/1.1") segs last hs).*1;
  rq_mount : ∃ hit, (∀ r, lws_find_mount (mount_list vh) (norm_path segs last ++ 0 :: r) (length (norm_path segs last))
                            (bool_decide (mt = WSI_TOKEN_GET_URI)) = Ok (Some hit))
    ∧ origin_protocol hit = LWSMPRO_CALLBACK ∧ mprotocol hit = None ∧ basic_auth_login_file hit = None ∧ cgienv hit = false
    ∧ lws_vhost_name_to_protocol vh (origin hit) = Some pcol;
}.

(** The length the request gives for its body. *)
Definition given_length (fields : list (nat * list Z)) (n : Z) : Prop :=
  ∃ v, (HttpHead.WSI_TOKEN_HTTP_CONTENT_LENGTH, v) ∈ fields ∧ v ≠ [] ∧ (length v < 31)%nat ∧ u64 (atoll v) = n.

(** The connection as lws_http_action leaves it to the protocol. *)
Definition bound (pcol : nat) (len : Z) (ct : conn_type) (s : h1) : h1 :=
  H1 (tx s) (hcn s) (has_ah s) (set_version 1 ct (hw s)) pss0 (hstate s) pcol true len (rx_content_remain s) false (buflist s)
     (deferred_transaction_completed s) (seen_zero_length_recv s) (favoured_pollin s) (vhost s).

Section action.
Context (io : h1_io) (conf : h1_conf) (usr : h1_user) (pcol : nat) (json : list Z) (Hsu : setup io conf usr pcol json).
Context (vh : lws_vhost) (text : list Z) (mt : nat) (path : list uchar) (segs : list (list Z)) (last : list Z) (hs : list header).
Context (ct : conn_type) (Hrq : plain_request conf vh pcol text mt path segs last hs ct).

#[local] Abbreviation fields := (request_fields mt (bs "HTTP/1.1") segs last hs).

Lemma other_methods m : m ∈ uri_methods → m ≠ mt → m ∉ fields.*1.
Proof.
  intros Hm Hne. destruct (decide (m = WSI_TOKEN_HTTP_COLON_PATH)) as [->|Hc]; [apply (rq_plain _ _ _ _ _ _ _ _ _ _ Hrq); by right; left|].
  apply no_other_method; [apply (rq_good _ _ _ _ _ _ _ _ _ _ Hrq)| |done].
  assert (Forall (λ m, m ≠ WSI_TOKEN_HTTP_COLON_PATH → is_method m = true) uri_methods) as Hf by by_compute.
  rewrite Forall_forall in Hf. by apply Hf.
Qed.

Lemma get_length s : stored_request (ah (hcn s)) fields →
  ∃ n, lws_hdr_total_length (ah (hcn s)) WSI_TOKEN_GET_URI = Ok n ∧ negb (n =? 0)%nat = bool_decide (mt = WSI_TOKEN_GET_URI).
Proof.
  intros Hst. destruct (decide (mt = WSI_TOKEN_GET_URI)) as [E|Hne].
  - exists (length (norm_path segs last)). split; [|rewrite bool_decide_true by done; by destruct (norm_path_slash segs last) as [? ->]].
    destruct Hst as (_ & Hr & _). rewrite <- E. by apply Hr; left.
  - exists 0%nat. split; [|by rewrite bool_decide_false]. apply (total_length_absent _ _ Hst); [by_compute|].
    by apply other_methods; [left|].
Qed.

Lemma call_handler s r : protocol s = pcol → call usr s r = http_callback (E := h1_session io conf) json s r.
Proof. intros E. unfold call. rewrite E. apply (su_handler _ _ _ _ _ Hsu). Qed.

Lemma call_access s : protocol s = pcol → call usr s LWS_CALLBACK_CHECK_ACCESS_RIGHTS = Ok (0, s).
Proof. intros E. by rewrite call_handler. Qed.

Lemma call_http s uri : protocol s = pcol → call usr s (LWS_CALLBACK_HTTP uri) = Ok (0, s).
Proof. intros E. by rewrite call_handler. Qed.

Lemma callback_mount_bound s hit len uri :
  stored_request (ah (hcn s)) fields → vhost s = vh →
  origin_protocol hit = LWSMPRO_CALLBACK → mprotocol hit = None → cgienv hit = false →
  lws_vhost_name_to_protocol vh (origin hit) = Some pcol →
  ∃ e, do_callback_mount io conf usr (set_hw (set_version 1 ct (hw s)) (set_content_length_explicitly_zero false (set_rx_content_length len s))) hit uri
       = Ok (e, bound pcol len ct s) ∧ (e = ANext ∨ e = AAfter 0).
Proof.
  intros Hst Hv Ho Hp Hc Hn. unfold do_callback_mount. set (s1 := set_hw _ _). rewrite Ho, Hp, (bool_decide_true (LWSMPRO_CALLBACK = _)) by done.
  cbn [orb negb default from_option id]. change (vhost s1) with (vhost s). rewrite Hv, Hn.
  assert (lws_bind_protocol conf pcol s1 = (0, bound pcol len ct s)) as ->.
  { unfold lws_bind_protocol. by rewrite (su_bind _ _ _ _ _ Hsu). }
  cbn [Z.eqb negb]. rewrite call_access by done. cbn [mbind res_bind Z.eqb negb].
  rewrite (su_final _ _ _ _ _ Hsu), Hc, res_bind_ok. cbn [Z.eqb negb].
  change (hcn (bound pcol len ct s)) with (hcn s).
  destruct (stored_length _ _ Hst WSI_TOKEN_POST_URI ltac:(by_compute)) as [n ->]. cbn [mbind res_bind].
  destruct (n =? 0)%nat; [by eexists; split; [|left]|]. rewrite call_http by done. by eexists; split; [|right].
Qed.

(** The handler lets the request pass. *)
Lemma on_hit_bound s hit len uri :
  stored_request (ah (hcn s)) fields → vhost s = vh →
  origin_protocol hit = LWSMPRO_CALLBACK → mprotocol hit = None → basic_auth_login_file hit = None → cgienv hit = false →
  lws_vhost_name_to_protocol vh (origin hit) = Some pcol →
  on_hit io conf usr (set_hw (set_version 1 ct (hw s)) (set_content_length_explicitly_zero false (set_rx_content_length len s))) hit uri
  = Ok (AAfter 0, bound pcol len ct s).
Proof.
  intros Hst Hv Ho Hp Hb Hc Hn. unfold on_hit, needs_redirect. rewrite Ho, (bool_decide_false (_ = LWSMPRO_CGI)) by done.
  rewrite (bool_decide_true (LWSMPRO_CALLBACK = _)) by done. rewrite !andb_false_r. unfold do_basic_auth. rewrite Hb. cbn [mbind res_bind].
  destruct (callback_mount_bound s hit len uri Hst Hv Ho Hp Hc Hn) as (e & -> & [-> | ->]); rewrite res_bind_ok; [|done].
  unfold do_file. rewrite Ho, (bool_decide_false (_ = LWSMPRO_FILE)) by done. cbn [mbind res_bind Z.leb Z.compare].
  by rewrite Hp, call_http.
Qed.

(** Up to the callback of the mount. *)
Lemma action_common fuel read s len :
  stored_request (ah (hcn s)) fields → vhost s = vh → request_length (ah (hcn s)) = Ok (len, false) →
  lws_http_action io conf usr fuel read s = after io usr fuel read (bound pcol len ct s) 0.
Proof.
  intros Hst Hv Hlen. unfold lws_http_action. destruct (norm_path_slash segs last) as [path' Epath].
  assert (norm_path segs last ≠ []) as Hne by by rewrite Epath.
  destruct (get_uri_and_method _ _ Hst mt (norm_path segs last)) as (p & -> & Hp);
    [apply Hrq|by left|done|intros m; apply other_methods|].
  apply c_str_spec in Hp as [r ->]. cbn [mbind res_bind]. rewrite (proj2 (Z.ltb_ge (Z.of_nat mt) 0)) by lia.
  assert (head (norm_path segs last ++ 0 :: r) = Some 47) as -> by by rewrite Epath. rewrite bool_decide_true by done. cbn [negb].
  unfold request_head. rewrite Hlen. cbn [mbind res_bind].
  rewrite (request_version_11 _ _ Hst) by (by right; left). cbn [mbind res_bind].
  rewrite (request_conn_type_of _ _ Hst ct) by apply Hrq. cbn [mbind res_bind]. cbv zeta. rewrite take_app_length.
  set (s1 := set_hw _ _). unfold call. rewrite (su_filter _ _ _ _ _ Hsu). cbn [mbind res_bind Z.eqb negb].
  rewrite (su_https _ _ _ _ _ Hsu). change (hcn s1) with (hcn s). change (vhost s1) with (vhost s).
  destruct (get_length s Hst) as (n & -> & Hget). rewrite res_bind_ok, Hget, Hv.
  destruct (rq_mount _ _ _ _ _ _ _ _ _ _ Hrq) as (hit & Hfind & Ho & Hmp & Hb & Hc & Hn). rewrite Hfind, res_bind_ok.
  subst s1. by rewrite (on_hit_bound s hit len).
Qed.

(** A request without an upgrade goes on to lws_http_action. *)
Lemma handshake_plain b s rest w :
  has_ah s = true → listen_port (vhost s) = listen_port vh →
  lws_parse (hctx conf) b (hcn s) = Ok (PZero, rest, w) → parser_state (ah w) = WSI_PARSING_COMPLETE → stored_request (ah w) fields →
  h1_handshake io conf usr b s = Ok (HAction, rest, set_hstate LRS_PRE_WS_SERVING_ACCEPT (set_vhost vh (set_hcn w s))).
Proof.
  intros Hah Hport Hp Hc Hst. unfold h1_handshake, Upgrade.lws_handshake_server. cbn [h1_conn c_has_ah c_hcon c_set_hcon].
  rewrite Hah, check_true, res_bind_ok by done. rewrite Hp, res_bind_ok. cbv zeta. rewrite (bool_decide_true _ Hc). cbn [negb].
  unfold handshake_parsed. cbn [h1_conn c_hcon hcn set_hcn c_vhost vhost].
  destruct (rq_host _ _ _ _ _ _ _ _ _ _ Hrq) as (host & Hin & Hne & Hsel). destruct (proj1 (proj2 Hst) _ _ Hin) as (Hl & _ & p & Hsp & Hcs).
  rewrite Hl, res_bind_ok, Hport, (proj2 (Z.eqb_neq _ _) (rq_port _ _ _ _ _ _ _ _ _ _ Hrq)).
  assert ((length host =? 0)%nat = false) as -> by by destruct host. cbn [negb andb].
  unfold hdr_str. rewrite Hsp, res_bind_ok, Hcs, res_bind_ok, Hsel, !res_bind_ok. unfold handshake_complete.
  cbn [h1_conn c_hcon hcn set_hcn c_vhost c_bind_vhost set_vhost].
  destruct (copy_result (ah w) 69 383 (stored_cases _ _ 69 Hst ltac:(by_compute))) as ([n ua] & ->). rewrite res_bind_ok.
  rewrite (su_reject _ _ _ _ _ Hsu). cbn [find].
  assert ((if 0 <? n then None else None) = @None (list Z * list Z)) as -> by by destruct (0 <? n).
  rewrite (total_length_absent _ _ Hst WSI_TOKEN_CONNECT), res_bind_ok; [|by_compute|apply other_methods; [by_compute|]].
  2: { pose proof (rq_method _ _ _ _ _ _ _ _ _ _ Hrq) as Hm. intros E. rewrite <- E in Hm. revert Hm. by_compute. }
  cbn [Nat.eqb negb].
  rewrite (total_length_absent _ _ Hst WSI_TOKEN_UPGRADE), res_bind_ok; [done|by_compute|].
  apply (rq_plain _ _ _ _ _ _ _ _ _ _ Hrq). by left.
Qed.

(** The connection waits for a request, or for more of it. *)
Definition awaiting (s : h1) : Prop :=
  (hstate s = LRS_HEADERS ∨ hstate s = LRS_ESTABLISHED) ∧ has_ah s = true ∧ hdr_parsing_completed (hcn s) = false
  ∧ listen_port (vhost s) = listen_port vh.

(** The connection when lws_http_action starts, and when it has the callback of
    the mount behind it. *)
Definition acting (w : hcon) (s : h1) : h1 :=
  H1 (tx s) w (has_ah s) (hw s) (user s) LRS_ESTABLISHED (protocol s) (protocol_bind_balance s) (rx_content_length s)
     (rx_content_remain s) (content_length_explicitly_zero s) (buflist s) (deferred_transaction_completed s)
     (seen_zero_length_recv s) (favoured_pollin s) vh.

Definition posted (len : Z) (w : hcon) (s : h1) : h1 :=
  H1 (tx s) w (has_ah s) (set_version 1 ct (hw s)) pss0 LRS_BODY pcol true len len false (buflist s)
     (deferred_transaction_completed s) (seen_zero_length_recv s) (favoured_pollin s) vh.

Lemma set_completed_same s : hdr_parsing_completed (hcn s) = false → set_completed false s = s.
Proof. intros H. destruct s as [? [? ? c]]. cbn in H. by subst c. Qed.

Lemma read_starts fuel in_list s b : awaiting s →
  lws_read_h1 io conf usr (S fuel) in_list s b
  = ('(e, rest, s') ← h1_handshake io conf usr b s;
     let used := (length b - length rest)%nat in
     match e with
     | HBail => Ok (RClosed, s')
     | HRaw => Ok (RRaw used, s')
     | HUpgraded pcol => Ok (RUpgraded pcol used, s')
     | HH2c => Ok (RH2c used, s')
     | HMore | HTransaction => after_handshake usr s' rest used false
     | HAction =>
         '(r, s') ← lws_http_action io conf usr fuel (lws_read_h1 io conf usr fuel true) (set_hstate LRS_ESTABLISHED s');
         if negb (r =? 0) then Ok (RClosed, s')
         else after_handshake usr s' rest used (in_list && (length (buflist s') <? length (buflist s))%nat)
     end).
Proof.
  intros (Hs & _ & Hc & _). cbn [lws_read_h1]. rewrite set_completed_same by done.
  by destruct Hs as [-> | ->].
Qed.

(** More of the request is to come. *)
Lemma read_more fuel in_list s b w : awaiting s →
  lws_parse (hctx conf) b (hcn s) = Ok (PZero, [], w) → parser_state (ah w) ≠ WSI_PARSING_COMPLETE → hdr_parsing_completed w = false →
  lws_read_h1 io conf usr (S fuel) in_list s b = Ok (RUsed (length b), set_hcn w s) ∧ awaiting (set_hcn w s).
Proof.
  intros Haw Hp Hc Hw. split; [|by destruct Haw as (? & ? & _ & ?)]. rewrite read_starts by done. unfold h1_handshake, Upgrade.lws_handshake_server.
  cbn [h1_conn c_has_ah c_hcon c_set_hcon]. destruct Haw as (_ & -> & _). rewrite check_true, res_bind_ok, Hp, res_bind_ok by done.
  cbv zeta. rewrite (bool_decide_false _ Hc). cbn [negb]. rewrite res_bind_ok. unfold after_handshake. cbn [hcn set_hcn].
  rewrite Hw. cbn [negb length]. by rewrite Nat.sub_0_r.
Qed.

(** The rest of the request is there. *)
Lemma read_request fuel in_list s b rest w : awaiting s →
  lws_parse (hctx conf) b (hcn s) = Ok (PZero, rest, w) → parser_state (ah w) = WSI_PARSING_COMPLETE → stored_request (ah w) fields →
  lws_read_h1 io conf usr (S fuel) in_list s b
  = ('(r, s') ← lws_http_action io conf usr fuel (lws_read_h1 io conf usr fuel true) (acting w s);
     if negb (r =? 0) then Ok (RClosed, s')
     else after_handshake usr s' rest (length b - length rest) (in_list && (length (buflist s') <? length (buflist s))%nat)).
Proof.
  intros Haw Hp Hc Hst. rewrite read_starts by done. destruct Haw as (_ & Hah & _ & Hport). by rewrite (handshake_plain b s rest w).
Qed.

(** A POST: its body comes, from what waits first. *)
Lemma action_post fuel read w s len :
  mt = WSI_TOKEN_POST_URI → stored_request (ah w) fields → given_length fields len → 0 < len →
  lws_http_action io conf usr fuel read (acting w s) = body_loop io fuel read (posted len w s).
Proof.
  intros Hmt Hst (v & Hin & Hne & Hlt & Hv) Hlen.
  assert (request_length (ah (hcn (acting w s))) = Ok (len, false)) as Hl.
  { change (hcn (acting w s)) with w. rewrite (request_length_given _ _ Hst v), Hv, (proj2 (Z.eqb_neq len 0)) by (done || lia). done. }
  rewrite (action_common fuel read (acting w s) len Hst eq_refl Hl). unfold after.
  cbn [Z.eqb negb]. rewrite bool_decide_false by done.
  destruct (stored_length _ _ Hst WSI_TOKEN_POST_URI ltac:(by_compute)) as [n En].
  change (hcn (bound pcol len ct (acting w s))) with w. rewrite En, res_bind_ok.
  change (content_length_explicitly_zero (bound pcol len ct (acting w s))) with false. cbn [andb].
  change (rx_content_length (bound pcol len ct (acting w s))) with len. by rewrite (proj2 (Z.ltb_lt 0 len)).
Qed.

(** A GET is left alone. *)
Lemma action_get fuel read w s :
  mt = WSI_TOKEN_GET_URI → stored_request (ah w) fields → HttpHead.WSI_TOKEN_HTTP_CONTENT_LENGTH ∉ fields.*1 →
  lws_http_action io conf usr fuel read (acting w s) = Ok (0, bound pcol 0 ct (acting w s)).
Proof.
  intros Hmt Hst Hcl. rewrite (action_common fuel read (acting w s) 0 Hst eq_refl).
  - unfold after. cbn [Z.eqb negb]. rewrite bool_decide_false by done.
    destruct (stored_length _ _ Hst WSI_TOKEN_POST_URI ltac:(by_compute)) as [n En].
    change (hcn (bound pcol 0 ct (acting w s))) with w. by rewrite En, res_bind_ok.
  - apply (request_length_none _ _ Hst). intros t Ht. rewrite !elem_of_cons in Ht.
    destruct Ht as [->|[->|[->|[->|[]%elem_of_nil]]]]; [apply other_methods; [by_compute|by rewrite Hmt]..|done].
Qed.

(** When [m] bytes of the body are missing; the handler asks to write when none
    is. *)
Definition fed (len : Z) (w : hcon) (s : h1) (m : Z) : h1 :=
  let s := set_rx_content_remain m (posted len w s) in if m =? 0 then lws_callback_on_writable s else s.

Lemma call_body s b : protocol s = pcol → call usr s (LWS_CALLBACK_HTTP_BODY b) = Ok (0, set_user (set_justHeader 0 (user s)) s).
Proof. intros E. by rewrite call_handler. Qed.

Lemma call_completion s : protocol s = pcol → call usr s LWS_CALLBACK_HTTP_BODY_COMPLETION = Ok (0, lws_callback_on_writable s).
Proof. intros E. by rewrite call_handler. Qed.

Lemma postbody_fed len w s m buf used :
  0 < m → Z.of_nat (length buf) <= m →
  http_postbody usr (set_rx_content_remain m (posted len w s)) buf used
  = Ok (RUsed (used + length buf), fed len w s (m - Z.of_nat (length buf))).
Proof.
  intros Hm Hb. unfold http_postbody. change (rx_content_remain (set_rx_content_remain m _)) with m.
  rewrite (proj2 (Z.eqb_neq m 0)) by lia. case_bool_decide as He.
  { subst buf. cbn [length]. unfold fed. rewrite Z.sub_0_r, Nat.add_0_r, (proj2 (Z.eqb_neq m 0)) by lia. done. }
  rewrite Z.min_r by lia. rewrite call_body, res_bind_ok by done. cbn [Z.eqb negb].
  rewrite Nat2Z.id. unfold fed. set (n := m - Z.of_nat (length buf)).
  change (set_user _ _) with (set_rx_content_remain n (posted len w s)). change (rx_content_remain (set_rx_content_remain n _)) with n.
  destruct (n =? 0); cbn [negb]; [|done]. unfold postbody_completion. by rewrite call_completion, res_bind_ok.
Qed.

(** A read when nothing waits and POLLOUT was not asked for. *)
Lemma service_read fuel s b :
  reads_now (hstate s) = true → hstate s ≠ LRS_ISSUING_FILE → has_ah s = true → buflist s = [] →
  lws_h1_server_socket_service io conf usr fuel s (Some (Got b)) false
  = ('(e, s') ← lws_read_h1 io conf usr fuel false s b;
     match e with
     | RClosed => Ok (Closed, s')
     | RUsed n => '(r, s') ← lws_buflist_aware_consume io s' b n false; Ok (if negb (r =? 0) then (Closed, s') else (Handled, s'))
     | RUpgraded pcol n => '(r, s') ← lws_buflist_aware_consume io s' b n false; Ok (if negb (r =? 0) then (Closed, s') else (BecameWs pcol, s'))
     | RRaw n => '(r, s') ← lws_buflist_aware_consume io s' b n false; Ok (if negb (r =? 0) then (Closed, s') else (BecameRaw, s'))
     | RH2c n => '(r, s') ← lws_buflist_aware_consume io s' b n false; Ok (if negb (r =? 0) then (Closed, s') else (BecameH2, s'))
     end).
Proof.
  intros Hr Hi Hah Hbl. unfold lws_h1_server_socket_service. rewrite bool_decide_false by (intros E; by rewrite E in Hr).
  rewrite andb_false_r, Hr, Hah. cbn [negb]. unfold lws_buflist_aware_read. rewrite Hbl. cbn [lws_buflist_next_segment_len].
  rewrite res_bind_ok. cbn [Z.eqb]. rewrite res_bind_ok. replace (set_buflist [] s) with s by (rewrite <- Hbl; by destruct s).
  unfold use_read. by rewrite bool_decide_false.
Qed.

Lemma service_used fuel s b s' :
  reads_now (hstate s) = true → hstate s ≠ LRS_ISSUING_FILE → has_ah s = true → buflist s = [] →
  lws_read_h1 io conf usr fuel false s b = Ok (RUsed (length b), s') →
  lws_h1_server_socket_service io conf usr fuel s (Some (Got b)) false = Ok (Handled, s').
Proof.
  intros Hr Hi Hah Hbl E. rewrite service_read, E, res_bind_ok by done. unfold lws_buflist_aware_consume.
  rewrite andb_false_r, Nat.eqb_refl. by rewrite res_bind_ok.
Qed.

(** The events of a client that sends: its bytes in pieces. *)
Definition read_events (ps : list (list Z * bool)) : list h1_event := (λ p, Ready (Some (Got p.1)) p.2) <$> ps.

Lemma body_reads fuel len w s ps m :
  has_ah s = true → buflist s = [] → pollout (tx s) = false → (0 < fuel)%nat → 0 < m → Z.of_nat (length (concat ps.*1)) = m →
  Forall (λ p, p.1 ≠ []) ps →
  h1_run io conf usr fuel (set_rx_content_remain m (posted len w s)) (read_events ps) = Ok (Handled, fed len w s 0).
Proof.
  intros Hah Hbl Hpo Hf. destruct fuel as [|fuel]; [lia|]. revert m. induction ps as [|[b r] ps IH]; intros m Hm Hlen Hne; [cbn in Hlen; lia|].
  apply Forall_cons in Hne as [Hb Hne]. cbn [fmap list_fmap fst concat] in Hlen. rewrite length_app in Hlen.
  cbn [read_events fmap list_fmap h1_run fst snd]. set (s1 := set_rx_content_remain m _).
  assert (pollout (tx s1) = false) as -> by exact Hpo. rewrite andb_false_r.
  assert (lws_read_h1 io conf usr (S fuel) false s1 b = Ok (RUsed (length b), fed len w s (m - Z.of_nat (length b)))) as Er.
  { change (lws_read_h1 io conf usr (S fuel) false s1 b) with (http_postbody usr s1 b 0). unfold s1. by rewrite postbody_fed by lia. }
  rewrite (service_used (S fuel) s1 b _ eq_refl ltac:(done) Hah Hbl Er), res_bind_ok.
  destruct (decide (concat ps.*1 = [])) as [En|En].
  - rewrite En in Hlen. cbn [length] in Hlen. replace (m - Z.of_nat (length b)) with 0 by lia.
    destruct ps as [|[c rc] ps]; [done|]. apply Forall_cons in Hne as [Hc _]. cbn in En, Hc. by destruct c.
  - assert (0 < Z.of_nat (length (concat ps.*1))) by (destruct (concat ps.*1); [done|cbn; lia]).
    unfold fed at 1. rewrite (proj2 (Z.eqb_neq (m - Z.of_nat (length b)) 0)) by lia. apply IH; [lia|lia|done].
Qed.

Lemma parse_rest x b w r rest w' : lws_parse x b w = Ok (r, rest, w') → (length rest ≤ length b)%nat.
Proof.
  revert w. induction b as [|c b IH]; intros w; cbn [lws_parse]; [by intros [= _ <- _]|].
  destruct (parse_char x c (ah w)) as [[e a]|]; [|done]. rewrite res_bind_ok. cbv zeta.
  destruct e; try (intros [= _ <- _]; cbn [length]; lia).
  - intros H%IH. cbn [length]. lia.
  - destruct (set_parsing_complete _) as [[ok w1]|]; [|done]. rewrite res_bind_ok. intros [= _ <- _]. cbn [length]. lia.
Qed.

Lemma read_posted fuel s b rest w len :
  mt = WSI_TOKEN_POST_URI → given_length fields len → 0 < len → awaiting s → buflist s = [] →
  lws_parse (hctx conf) b (hcn s) = Ok (PZero, rest, w) → parser_state (ah w) = WSI_PARSING_COMPLETE →
  hdr_parsing_completed w = true → stored_request (ah w) fields → Z.of_nat (length rest) <= len →
  lws_read_h1 io conf usr (S (S fuel)) false s b = Ok (RUsed (length b), fed len w s (len - Z.of_nat (length rest))).
Proof.
  intros Hmt Hlen Hpos Haw Hbl E Hps Hw Hst Hr. rewrite (read_request (S fuel) false s b rest w), (action_post _ _ _ _ len) by done.
  assert (body_loop io (S fuel) (lws_read_h1 io conf usr (S fuel) true) (posted len w s) = Ok (0, posted len w s)) as ->.
  { cbn [body_loop]. change (buflist (posted len w s)) with (buflist s). rewrite Hbl. cbn [lws_buflist_next_segment_len].
    rewrite res_bind_ok. cbn [Z.eqb]. by rewrite <- Hbl. }
  rewrite res_bind_ok. cbn [Z.eqb negb andb]. unfold after_handshake. change (hcn (posted len w s)) with w. rewrite Hw.
  change (hstate (posted len w s)) with LRS_BODY. cbn [negb]. change (rx_content_length (posted len w s)) with len.
  rewrite check_true, res_bind_ok by done. rewrite postbody_fed by done. pose proof (parse_rest _ _ _ _ _ _ E). do 3 f_equal. lia.
Qed.

(** The reads of a whole POST. *)
Lemma post_reads fuel ps s w body :
  mt = WSI_TOKEN_POST_URI → given_length fields (Z.of_nat (length body)) → body ≠ [] → (1 < fuel)%nat →
  awaiting s → buflist s = [] → pollout (tx s) = false → Forall (λ p, p.1 ≠ []) ps →
  lws_parse (hctx conf) (concat ps.*1) (hcn s) = Ok (PZero, body, w) → hdr_parsing_completed w = true → stored_request (ah w) fields →
  h1_run io conf usr fuel s (read_events ps) = Ok (Handled, fed (Z.of_nat (length body)) w s 0).
Proof.
  intros Hmt Hlen Hbody Hf Haw Hbl Hpo Hne Hp Hw Hst. destruct fuel as [|[|fuel]]; [lia|lia|].
  assert (0 < Z.of_nat (length body)) as Hpos by (destruct body; [done|cbn; lia]).
  revert s Haw Hbl Hpo Hp. induction ps as [|[b r] ps IH]; intros s Haw Hbl Hpo Hp.
  { destruct Haw as (_ & _ & Hc & _). cbn in Hp. injection Hp as <- <-. congruence. }
  apply Forall_cons in Hne as [Hb Hne]. cbn [fmap list_fmap concat fst] in Hp.
  cbn [read_events fmap list_fmap h1_run fst snd]. rewrite Hpo, andb_false_r.
  assert (reads_now (hstate s) = true ∧ hstate s ≠ LRS_ISSUING_FILE) as [Hrn Hni] by (destruct Haw as ([-> | ->] & _); done).
  pose proof Haw as (_ & Hah & Hc & _).
  destruct (parse_split _ b (concat ps.*1) (hcn s) body w Hp Hc Hw) as [(rest & E & Hr & Hps)|(w1 & E & Hn & Hw1 & E')].
  - assert (lws_read_h1 io conf usr (S (S fuel)) false s b = Ok (RUsed (length b), fed (Z.of_nat (length body)) w s (Z.of_nat (length body) - Z.of_nat (length rest)))) as Er.
    { apply (read_posted fuel s b rest w); try done. rewrite <- Hr, length_app. lia. }
    rewrite (service_used _ s b _ Hrn Hni Hah Hbl Er), res_bind_ok.
    destruct (decide (concat ps.*1 = [])) as [En|En].
    + rewrite En, app_nil_r in Hr. subst rest. rewrite Z.sub_diag.
      destruct ps as [|[c rc] ps]; [done|]. apply Forall_cons in Hne as [Hcn _]. cbn in En, Hcn. by destruct c.
    + assert (0 < Z.of_nat (length (concat ps.*1))) by (destruct (concat ps.*1); [done|cbn; lia]).
      apply (f_equal length) in Hr. rewrite length_app in Hr.
      unfold fed at 1. rewrite (proj2 (Z.eqb_neq (Z.of_nat (length body) - Z.of_nat (length rest)) 0)) by lia.
      apply body_reads; try done; lia.
  - destruct (read_more (S fuel) false s b w1 Haw E Hn Hw1) as [Er Haw1].
    rewrite (service_used _ s b _ Hrn Hni Hah Hbl Er), res_bind_ok. by apply (IH Hne (set_hcn w1 s)).
Qed.

End action.

(** ** Lemmas: the answer *)

Section answer.
Context (io : h1_io) (conf : h1_conf) (usr : h1_user) (pcol : nat) (json : list Z) (Hsu : setup io conf usr pcol json) (ct : conn_type).

#[local] Abbreviation call_handler := (call_handler io conf usr pcol json Hsu).

(** The socket can be written to. *)
Definition tx_fine (t : wsi) : Prop :=
  WsSend.usable (ws t) ∧ WsRx.wsistate (ws t) ≠ WsRx.LRS_FLUSHING_BEFORE_CLOSE ∧ handling_pollout t = false ∧ Forall wf_segment (buflist_out t).

(** The request is read, and its answer is on the way: [sent] is what was
    written. *)
Record answering (s : h1) (u : pss) (deferred : bool) (sent : list Z) : Prop := {
  an_state : hstate s = LRS_BODY;
  an_protocol : protocol s = pcol;
  an_complete : hdr_parsing_completed (hcn s) = true;
  an_ah : has_ah s = true;
  an_buflist : buflist s = [];
  an_zero : seen_zero_length_recv s = false;
  an_conn : http_conn_type (hw s) = ct;
  an_tx : tx_fine (tx s);
  an_pollout : pollout (tx s) = true;
  an_user : user s = u;
  an_deferred : deferred_transaction_completed s = deferred;
  an_stream : stream (tx s) = sent;
}.

(** What is the same after it as before. *)
Definition unchanged (s s' : h1) : Prop :=
  vhost s' = vhost s ∧ length (data (ah (hcn s'))) = length (data (ah (hcn s))) ∧ favoured_pollin s' = favoured_pollin s.

(** POLLOUT is served: the request for it is dropped first. *)
Definition polled (s : h1) : h1 := set_tx (set_could_have_pending false (set_pollout false (tx s))) s.

Lemma service_writable fuel s u d sent : answering s u d sent →
  lws_h1_server_socket_service io conf usr fuel s None true
  = if lws_has_buffered_out (tx s) then '(n, s') ← lws_issue_raw io conf (polled s) None; Ok (if n <? 0 then Closed else Handled, s')
    else '(n, s') ← call usr (polled s) LWS_CALLBACK_HTTP_WRITEABLE; Ok (if n <? 0 then Closed else Handled, s').
Proof.
  intros H. cbn [lws_h1_server_socket_service]. unfold try_pollout. cbn [negb]. fold (polled s). cbv zeta.
  change (hstate (polled s)) with (hstate s). rewrite (an_state _ _ _ _ H), bool_decide_false by done.
  change (hcn (polled s)) with (hcn s). rewrite (an_complete _ _ _ _ H). cbn [negb].
  change (hstate (polled s)) with (hstate s). rewrite (an_state _ _ _ _ H), bool_decide_false by done. done.
Qed.

Lemma write_fresh s b : buflist_out (tx s) = [] → tx_fine (tx s) → b ≠ [] → Z.of_nat (length b) <= INT_MAX →
  ∃ t, lws_write io conf s b = Ok (Z.of_nat (length b), set_tx t s) ∧ sends_to (tx s) b t.
Proof.
  intros Ho (Hu & Hf & _) Hb Hl.
  destruct (issue_raw_fresh (cfg io) (tx_packet_size io) (send io) _ (oom io) (su_env _ _ _ _ _ Hsu) (tx s) b Ho Hb Hf) as (t & E & Ht).
  exists t. split; [|done]. unfold lws_write. rewrite (s32_small (Z.of_nat (length b))) by (unfold INT_MIN, INT_MAX in *; lia).
  rewrite (proj2 (Z.ltb_ge _ 0)) by lia. unfold lws_issue_raw. rewrite E, res_bind_ok.
  assert (lws_has_buffered_out (tx s) = false) as -> by (unfold lws_has_buffered_out; by rewrite Ho). cbn [andb]. rewrite res_bind_ok.
  by rewrite (proj2 (Z.ltb_ge _ 0)) by lia.
Qed.

Lemma fine_sends t b t' : tx_fine t → sends_to t b t' → tx_fine t'.
Proof.
  intros (Hu & Hf & Hh & _) [K _ F _ _]. unfold kept in K. injection K as Kw _ _ _ Kh _ _ _ _ _ _.
  split_and!; [by rewrite Kw|by rewrite Kw|by rewrite Kh|done].
Qed.

Lemma fine_writable t : tx_fine t →
  tx_fine (WsTx.lws_callback_on_writable t) ∧ pollout (WsTx.lws_callback_on_writable t) = true
  ∧ stream (WsTx.lws_callback_on_writable t) = stream t ∧ buflist_out (WsTx.lws_callback_on_writable t) = buflist_out t
  ∧ wire (WsTx.lws_callback_on_writable t) = wire t.
Proof.
  intros (Hu & Hf & Hh & Hw). pose proof (on_writable_asked t Hu) as Ha. destruct (on_writable_kept t) as (K & B & W & _).
  unfold kept in K. injection K as Kw _ _ _ Kh _ _ _ _ _ _. unfold asked in Ha. rewrite Kh, Hh in Ha.
  unfold stream. rewrite B, W. split_and!; try done. split_and!; [by rewrite Kw|by rewrite Kw|by rewrite Kh|by rewrite B].
Qed.

Lemma fine_polled s : tx_fine (tx s) → tx_fine (tx (polled s)).
Proof. by intros (? & ? & ? & ?). Qed.

Lemma header_nonempty w : answer_header w json ≠ [].
Proof. unfold answer_header, CRLF. by destruct (HttpHead.header_text _). Qed.

(** The header is written. *)
Lemma header_event fuel s s0 :
  answering s pss0 false s0 → buflist_out (tx s) = [] → (length (answer_header (hw s) json) < 1023)%nat →
  ∃ s', lws_h1_server_socket_service io conf usr fuel s None true = Ok (Handled, s')
    ∧ answering s' (Pss json (Z.of_nat (length json)) 1) false (s0 ++ answer_header (hw s) json) ∧ unchanged s s'
    ∧ hw s' = set_tx_content (Z.of_nat (length json)) (hw s).
Proof.
  intros H Ho Hfit. rewrite (service_writable _ _ _ _ _ H). unfold lws_has_buffered_out. rewrite Ho.
  rewrite call_handler by apply (an_protocol _ _ _ _ H). destruct H as [H1 H2 H3 H4 H5 H6 H7 H8 H9 H10 H11 H12].
  set (s2 := set_hw (set_tx_content (Z.of_nat (length json)) (hw s)) (set_user (Pss json (Z.of_nat (length json)) 0) (polled s))).
  destruct (write_fresh s2 (answer_header (hw s) json) Ho) as (t & E & Ht).
  { by apply (fine_polled s). } { apply header_nonempty. } { unfold INT_MAX. lia. }
  destruct (su_json _ _ _ _ _ Hsu) as [_ Hj].
  rewrite (writeable_header (E := h1_session io conf) (polled s) json (Z.of_nat (length (answer_header (hw s) json))) (set_tx t s2));
    [|done|done|by change (user s = pss0) in H10; cbn; rewrite H10|exact E|done].
  rewrite res_bind_ok. cbn [Z.ltb Z.compare]. eexists. split; [reflexivity|].
  assert (tx_fine t) as Hft by (eapply fine_sends; [apply (fine_polled s H8)|exact Ht]).
  destruct (fine_writable t Hft) as (F1 & F2 & F3 & F4 & F5).
  split; [|done]. split; try done. transitivity (stream t); [exact F3|]. rewrite (st_stream _ _ _ Ht). by rewrite <- H12.
Qed.

Lemma flush_shorter s t seg rest :
  buflist_out (tx s) = seg :: rest → tx_fine (tx s) → willing (send io) → 0 < tx_limit (cfg io) (tx_packet_size io) →
  stream t = stream (tx s) →
  length (wire t) = (length (wire (tx s)) + taken (cfg io) (tx_packet_size io) (send io) (tx (polled s)) (sleft seg))%nat →
  (length (content (buflist_out t)) < length (content (seg :: rest)))%nat.
Proof.
  intros Eo (_ & _ & _ & Hf) Hw Hl Es Hwl. rewrite Eo in Hf. apply Forall_cons in Hf as [Hs _]. destruct (sleft_nonempty seg Hs) as [_ Hne].
  pose proof (taken_positive (cfg io) (tx_packet_size io) (send io) (tx (polled s)) (sleft seg) Hw Hl Hne).
  apply (f_equal length) in Es. unfold stream in Es. rewrite !length_app, Eo in Es. lia.
Qed.

Lemma nothing_waits t : tx_fine t → (length (content (buflist_out t)) ≤ 0)%nat → buflist_out t = [].
Proof.
  intros (_ & _ & _ & Hf) Hn. destruct (buflist_out t) as [|seg rest]; [done|]. apply Forall_cons in Hf as [Hs _].
  destruct (sleft_nonempty seg Hs) as [_ Hne]. unfold content in Hn. cbn in Hn. rewrite length_app in Hn. destruct (sleft seg); [done|cbn in Hn; lia].
Qed.

(** Some of what waits is sent. *)
Lemma flush_event fuel s u s0 :
  answering s u false s0 → buflist_out (tx s) ≠ [] → willing (send io) → 0 < tx_limit (cfg io) (tx_packet_size io) →
  ∃ s', lws_h1_server_socket_service io conf usr fuel s None true = Ok (Handled, s')
    ∧ answering s' u false s0 ∧ unchanged s s' ∧ hw s' = hw s
    ∧ (length (content (buflist_out (tx s'))) < length (content (buflist_out (tx s))))%nat.
Proof.
  intros H Ho Hw Hl. rewrite (service_writable _ _ _ _ _ H). destruct H as [H1 H2 H3 H4 H5 H6 H7 H8 H9 H10 H11 H12].
  destruct (buflist_out (tx s)) as [|seg rest] eqn:Eo; [done|]. unfold lws_has_buffered_out. rewrite Eo.
  destruct (fine_polled s H8) as (Fu & Ff & Fh & Fw).
  destruct (issue_raw_flush (cfg io) (tx_packet_size io) (send io) _ (oom io) (su_env _ _ _ _ _ Hsu) (tx (polled s)) seg rest Eo Fw Ff)
    as (n & t & E & Hn & Ht & _ & Hwl & _ & Ha).
  unfold lws_issue_raw. rewrite E, res_bind_ok. change (deferred_transaction_completed (polled s)) with (deferred_transaction_completed s).
  rewrite H11, andb_false_r, !res_bind_ok, (proj2 (Z.ltb_ge n 0)) by done. eexists. split; [reflexivity|].
  assert (tx_fine t) as Hft by (eapply fine_sends; [apply (fine_polled s H8)|exact Ht]).
  assert (stream t = stream (tx s)) as Es by (rewrite (st_stream _ _ _ Ht); apply app_nil_r).
  split; [split; try done|].
  - change (pollout t = true). specialize (Ha Fu). unfold asked in Ha. by destruct Hft as (_ & _ & Hh & _); rewrite Hh in Ha.
  - change (stream t = s0). congruence.
  - split; [done|]. split; [done|]. change (tx (set_tx t (polled s))) with t.
    by apply (flush_shorter s t seg rest).
Qed.

(** *** The end of the transaction *)

(** The connection waits for the socket before the next request. *)
Record ended (s s' : h1) : Prop := {
  en_state : hstate s' = LRS_DEFERRING_ACTION;
  en_ah : has_ah s' = false;
  en_complete : hdr_parsing_completed (hcn s') = false;
  en_buflist : buflist s' = [];
  en_zero : seen_zero_length_recv s' = false;
  en_deferred : deferred_transaction_completed s' = false;
  en_tx : tx_fine (tx s');
  en_pollout : pollout (tx s') = true;
  en_unchanged : unchanged s s';
  en_hw : hw s' = set_tx_content 0 (hw s);
}.

(** Everything is sent, and the connection ends or goes on. *)
Definition finished (s : h1) (v : served) (s' : h1) (sent : list Z) : Prop :=
  wire (tx s') = sent ∧ buflist_out (tx s') = []
  ∧ match ct with HTTP_CONNECTION_CLOSE => v = Closed | HTTP_CONNECTION_KEEP_ALIVE => v = Handled ∧ ended s s' end.

Lemma transaction_completes s :
  hdr_parsing_completed (hcn s) = true → has_ah s = true → buflist s = [] → seen_zero_length_recv s = false →
  http_conn_type (hw s) = ct → deferred_transaction_completed s = false → tx_fine (tx s) → buflist_out (tx s) = [] →
  ∃ r s', lws_http_transaction_completed conf s = Ok (r, s')
    ∧ finished s (if negb (r =? 0) then Closed else Handled) s' (stream (tx s)).
Proof.
  intros Hc Hah Hbl Hz Hct Hd Hf Ho. unfold lws_http_transaction_completed, lws_has_buffered_out. rewrite Ho, Hc, Hz, Hct. cbn [negb].
  assert (stream (tx s) = wire (tx s)) as Es by (unfold stream; rewrite Ho; apply app_nil_r).
  unfold finished. destruct ct; [by eexists 1, s|]. unfold lws_bind_protocol. rewrite (su_bind _ _ _ _ _ Hsu). cbn [Z.eqb negb].
  set (s1 := set_completed false _). change (buflist s1) with (buflist s). rewrite Hbl. cbn [lws_buflist_next_segment_len].
  rewrite res_bind_ok. set (s2 := set_buflist [] s1). change (has_ah s2) with (has_ah s). rewrite Hah. cbn [Z.eqb].
  eexists 0, _. split; [reflexivity|]. destruct (fine_writable (tx s) Hf) as (F1 & F2 & F3 & F4 & F5).
  split; [by rewrite Es|]. split; [by transitivity (buflist_out (tx s))|]. by split.
Qed.

(** The text is written. *)
Lemma body_event fuel s s0 :
  answering s (Pss json (Z.of_nat (length json)) 1) false s0 → buflist_out (tx s) = [] →
  ∃ v s', lws_h1_server_socket_service io conf usr fuel s None true = Ok (v, s')
    ∧ (finished s v s' (s0 ++ json)
       ∨ v = Handled ∧ answering s' (Pss json (Z.of_nat (length json)) 1) true (s0 ++ json) ∧ buflist_out (tx s') ≠ []
         ∧ unchanged s s' ∧ hw s' = hw s).
Proof.
  intros H Ho. rewrite (service_writable _ _ _ _ _ H). unfold lws_has_buffered_out. rewrite Ho.
  rewrite call_handler by apply (an_protocol _ _ _ _ H). destruct H as [H1 H2 H3 H4 H5 H6 H7 H8 H9 H10 H11 H12].
  destruct (su_json _ _ _ _ _ Hsu) as [Hj0 Hj].
  destruct (write_fresh (polled s) json Ho (fine_polled s H8) Hj0) as (t & E & Ht).
  { unfold LWS_RECOMMENDED_MIN_HEADER_SPACE in Hj. unfold INT_MAX. lia. }
  rewrite (writeable_body (E := h1_session io conf) (polled s) json (Z.of_nat (length json)) (set_tx t (polled s))) by (done || lia).
  change (s_transaction_completed (set_tx t (polled s))) with (lws_http_transaction_completed conf (set_tx t (polled s))).
  assert (tx_fine t) as Hft by (eapply fine_sends; [apply (fine_polled s H8)|exact Ht]).
  assert (stream t = s0 ++ json) as Es by (rewrite (st_stream _ _ _ Ht), <- H12; done).
  destruct (buflist_out t) as [|seg rest] eqn:Eo.
  - destruct (transaction_completes (set_tx t (polled s))) as (r & s' & -> & Hfin); try done.
    rewrite res_bind_ok. eexists _, s'. split; [reflexivity|]. left. change (stream (tx (set_tx t (polled s)))) with (stream t) in Hfin.
    rewrite Es in Hfin. destruct Hfin as (Hw & Hb & He). split; [done|]. split; [done|]. destruct ct; [by destruct (r =? 0)|].
    destruct (r =? 0); [|by destruct He]. split; [done|]. by destruct He as [_ [? ? ? ? ? ? ? ? [? ?] ?]].
  - unfold lws_http_transaction_completed, lws_has_buffered_out. change (tx (set_tx t (polled s))) with t. rewrite Eo, res_bind_ok.
    eexists _, _. split; [reflexivity|]. right. split; [done|]. destruct (fine_writable t Hft) as (F1 & F2 & F3 & F4 & F5).
    split; [split; try done|].
    + change (stream (WsTx.lws_callback_on_writable t) = s0 ++ json). congruence.
    + split; [|done]. change (buflist_out (WsTx.lws_callback_on_writable t) ≠ []). rewrite F4, Eo. done.
Qed.

Lemma finished_from s s1 v s' sent : unchanged s s1 → set_tx_content 0 (hw s1) = set_tx_content 0 (hw s) →
  finished s1 v s' sent → finished s v s' sent.
Proof.
  intros (U1 & U2 & U3) Hh (Hw & Hb & He). split; [done|]. split; [done|]. destruct ct; [done|]. destruct He as [-> [? ? ? ? ? ? ? ? [V1 [V2 V3]] Eh]].
  split; [done|]. rewrite Hh in Eh. split; try done. unfold unchanged in *. split_and!; congruence.
Qed.

(** The last of what waits ends the transaction. *)
Lemma flush_deferred fuel s u s0 :
  answering s u true s0 → buflist_out (tx s) ≠ [] → willing (send io) → 0 < tx_limit (cfg io) (tx_packet_size io) →
  ∃ v s', lws_h1_server_socket_service io conf usr fuel s None true = Ok (v, s')
    ∧ (finished s v s' s0
       ∨ v = Handled ∧ answering s' u true s0 ∧ buflist_out (tx s') ≠ [] ∧ unchanged s s' ∧ hw s' = hw s
         ∧ (length (content (buflist_out (tx s'))) < length (content (buflist_out (tx s))))%nat).
Proof.
  intros H Ho Hw Hl. rewrite (service_writable _ _ _ _ _ H). destruct H as [H1 H2 H3 H4 H5 H6 H7 H8 H9 H10 H11 H12].
  destruct (buflist_out (tx s)) as [|seg rest] eqn:Eo; [done|]. unfold lws_has_buffered_out at 1. rewrite Eo.
  destruct (fine_polled s H8) as (Fu & Ff & Fh & Fw).
  destruct (issue_raw_flush (cfg io) (tx_packet_size io) (send io) _ (oom io) (su_env _ _ _ _ _ Hsu) (tx (polled s)) seg rest Eo Fw Ff)
    as (n & t & E & Hn & Ht & _ & Hwl & _ & Ha).
  unfold lws_issue_raw. rewrite E, res_bind_ok. change (deferred_transaction_completed (polled s)) with (deferred_transaction_completed s).
  unfold lws_has_buffered_out. change (buflist_out (tx (polled s))) with (buflist_out (tx s)). rewrite Eo, H11, (proj2 (Z.ltb_ge n 0)) by done.
  assert (tx_fine t) as Hft by (eapply fine_sends; [apply (fine_polled s H8)|exact Ht]).
  assert (stream t = stream (tx s)) as Es by (rewrite (st_stream _ _ _ Ht); apply app_nil_r). cbn [negb andb].
  destruct (buflist_out t) as [|seg' rest'] eqn:Eo'; cbn [negb andb].
  - set (s1 := set_deferred_transaction_completed _ _).
    destruct (transaction_completes s1) as (r & s' & -> & Hfin); try done.
    rewrite !res_bind_ok. eexists _, s'. split; [reflexivity|]. left. apply (finished_from s s1); [done|done|].
    change (stream (tx s1)) with (stream t) in Hfin. rewrite Es, H12 in Hfin.
    destruct Hfin as (Hw1 & Hb1 & He). split; [done|]. split; [done|]. destruct ct; [by destruct (r =? 0)|].
    destruct (r =? 0); cbn [negb] in *; [|by destruct He]. by rewrite (proj2 (Z.ltb_ge n 0)).
  - rewrite res_bind_ok, (proj2 (Z.ltb_ge n 0)) by done. eexists _, _. split; [reflexivity|]. right. split; [done|].
    split; [split; try done|].
    + change (pollout t = true). specialize (Ha Fu). unfold asked in Ha. by destruct Hft as (_ & _ & Hh & _); rewrite Hh in Ha.
    + change (stream t = s0). congruence.
    + change (tx (set_tx t (polled s))) with t. rewrite Eo'. split; [done|]. split; [done|]. split; [done|]. rewrite <- Eo'.
      by apply (flush_shorter s t seg rest).
Qed.

(** The socket becomes writable, again and again. *)
Definition writable (k : nat) : list h1_event := replicate k (Ready None true).

Lemma run_event fuel s v s' evs : pollout (tx s) = true →
  lws_h1_server_socket_service io conf usr fuel s None true = Ok (v, s') →
  h1_run io conf usr fuel s (Ready None true :: evs) = match v with Handled => h1_run io conf usr fuel s' evs | _ => Ok (v, s') end.
Proof. intros Hp E. cbn [h1_run]. rewrite Hp. cbn [andb]. by rewrite E, res_bind_ok. Qed.

Lemma h1_run_app fuel s s' xs ys : h1_run io conf usr fuel s xs = Ok (Handled, s') →
  h1_run io conf usr fuel s (xs ++ ys) = h1_run io conf usr fuel s' ys.
Proof.
  revert s. induction xs as [|[rin rout] xs IH]; intros s; cbn [h1_run app]; [by intros [= ->]|].
  destruct (lws_h1_server_socket_service _ _ _ _ _ _ _) as [[v s1]|]; [|done]. rewrite !res_bind_ok. destruct v; try done. apply IH.
Qed.

Section progress.
Context (Hw : willing (send io)) (Hl : 0 < tx_limit (cfg io) (tx_packet_size io)) (fuel : nat).

(** What waits is sent. *)
Lemma drained n s u s0 : answering s u false s0 → (length (content (buflist_out (tx s))) ≤ n)%nat →
  ∃ k s', (k ≤ n)%nat ∧ h1_run io conf usr fuel s (writable k) = Ok (Handled, s')
    ∧ answering s' u false s0 ∧ buflist_out (tx s') = [] ∧ unchanged s s' ∧ hw s' = hw s.
Proof.
  revert s. induction n as [|n IH]; intros s H Hn; (destruct (decide (buflist_out (tx s) = [])) as [Eo|Eo]; [by exists 0%nat, s; split; [lia|]|]).
  - by pose proof (nothing_waits (tx s) (an_tx _ _ _ _ H) Hn).
  - destruct (flush_event fuel s u s0 H Eo Hw Hl) as (s1 & E & H1 & U1 & Eh & Hlt).
    destruct (IH s1 H1 ltac:(lia)) as (k & s' & Hk & Er & H' & Eo' & U' & Eh'). exists (S k), s'. split; [lia|].
    split; [cbn [writable replicate]; by rewrite (run_event _ _ _ _ _ (an_pollout _ _ _ _ H) E)|].
    split; [done|]. split; [done|]. unfold unchanged in *. split; [|congruence]. destruct U1 as (? & ? & ?), U' as (? & ? & ?). split_and!; congruence.
Qed.

Lemma drained_end n s u s0 : answering s u true s0 → buflist_out (tx s) ≠ [] → (length (content (buflist_out (tx s))) ≤ n)%nat →
  ∃ k v s', (k ≤ n)%nat ∧ h1_run io conf usr fuel s (writable k) = Ok (v, s') ∧ finished s v s' s0.
Proof.
  revert s. induction n as [|n IH]; intros s H Ho Hn.
  - by pose proof (nothing_waits (tx s) (an_tx _ _ _ _ H) Hn).
  - destruct (flush_deferred fuel s u s0 H Ho Hw Hl) as (v & s1 & E & [Hfin|(-> & H1 & Ho1 & U1 & Eh & Hlt)]).
    + exists 1%nat, v, s1. split; [lia|]. split; [|done]. cbn [writable replicate].
      rewrite (run_event _ _ _ _ _ (an_pollout _ _ _ _ H) E). by destruct v.
    + destruct (IH s1 H1 Ho1 ltac:(lia)) as (k & v & s' & Hk & Er & Hfin). exists (S k), v, s'. split; [lia|].
      split; [cbn [writable replicate]; by rewrite (run_event _ _ _ _ _ (an_pollout _ _ _ _ H) E)|].
      apply (finished_from s s1); [done|by rewrite Eh|done].
Qed.

(** From the end of the body to the end of the answer. *)
Lemma answered s s0 :
  answering s pss0 false s0 → buflist_out (tx s) = [] → (length (answer_header (hw s) json) < 1023)%nat →
  ∃ k v s', h1_run io conf usr fuel s (writable k) = Ok (v, s') ∧ finished s v s' (s0 ++ answer_header (hw s) json ++ json).
Proof.
  intros H Ho Hfit. destruct (header_event fuel s s0 H Ho Hfit) as (s1 & E1 & H1 & U1 & Eh1).
  destruct (drained _ s1 _ _ H1 (le_n _)) as (k1 & s2 & _ & E2 & H2 & Eo2 & U2 & Eh2).
  destruct (body_event fuel s2 _ H2 Eo2) as (v & s3 & E3 & Hcase).
  assert (unchanged s s2 ∧ set_tx_content 0 (hw s2) = set_tx_content 0 (hw s)) as [U Eh].
  { destruct U1 as (? & ? & ?), U2 as (? & ? & ?). split; [unfold unchanged; split_and!; congruence|]. by rewrite Eh2, Eh1. }
  assert (∀ evs, h1_run io conf usr fuel s (writable (S k1) ++ Ready None true :: evs)
                 = match v with Handled => h1_run io conf usr fuel s3 evs | _ => Ok (v, s3) end) as Hrun.
  { intros evs. cbn [writable replicate app]. rewrite (run_event _ _ _ _ _ (an_pollout _ _ _ _ H) E1).
    rewrite (h1_run_app _ _ _ _ _ E2). by apply run_event; [apply (an_pollout _ _ _ _ H2)|]. }
  rewrite app_assoc. destruct Hcase as [Hfin|(-> & H3 & Ho3 & U3 & Eh3)].
  - exists (S k1 + 1)%nat, v, s3. unfold writable. rewrite replicate_add. cbn [replicate]. fold (writable (S k1)). rewrite Hrun.
    split; [by destruct v|]. by apply (finished_from s s2).
  - destruct (drained_end _ s3 _ _ H3 Ho3 (le_n _)) as (k2 & v & s4 & _ & E4 & Hfin).
    exists (S k1 + S k2)%nat, v, s4. unfold writable. rewrite replicate_add. cbn [replicate]. fold (writable (S k1)) (writable k2).
    rewrite Hrun. split; [done|]. apply (finished_from s s3); [|by rewrite Eh3|done].
    destruct U as (? & ? & ?), U3 as (? & ? & ?). unfold unchanged. split_and!; congruence.
Qed.
End progress.
End answer.

(** ** Requests one after the other *)

(** The connection between two requests: [port] is the one it was accepted on,
    and [max] the size of a header store. *)
Record resting (port : Z) (max : nat) (s : h1) : Prop := {
  re_state : hstate s = LRS_HEADERS ∨ hstate s = LRS_ESTABLISHED;
  re_store : length (data (ah (hcn s))) = max ∧ (has_ah s = true → clean max (hcn s));
  re_buflist : buflist s = [];
  re_zero : seen_zero_length_recv s = false;
  re_deferred : deferred_transaction_completed s = false;
  re_tx : tx_fine (tx s);
  re_out : buflist_out (tx s) = [];
  re_pollout : pollout (tx s) = false;
  re_port : listen_port (vhost s) = port;
}.

(** A POST: its pieces, its path, its headers and its body, and whether the
    connection is to be kept. *)
Record post := Post {
  p_path : list uchar; p_segs : list (list Z); p_last : list Z; p_headers : list header;
  p_body : list Z; p_conn : conn_type; p_reads : list (list Z * bool);
}.

Section posts.
Context (io : h1_io) (conf : h1_conf) (usr : h1_user) (pcol : nat) (json : list Z) (Hsu : setup io conf usr pcol json).
Context (Hw : willing (send io)) (Hl : 0 < tx_limit (cfg io) (tx_packet_size io)).
Context (vh : lws_vhost) (max : nat) (fuel : nat) (Hfuel : (1 < fuel)%nat).

(** A POST that asks for the handler, sent in pieces. *)
Definition post_ok (p : post) : Prop :=
  let mt := WSI_TOKEN_POST_URI in
  plain_request conf vh pcol (replicate max 0) mt (p_path p) (p_segs p) (p_last p) (p_headers p) (p_conn p)
  ∧ given_length (request_fields mt (bs "HTTP/1.1") (p_segs p) (p_last p) (p_headers p)) (Z.of_nat (length (p_body p)))
  ∧ p_body p ≠ [] ∧ Forall (λ b, b.1 ≠ []) (p_reads p)
  ∧ concat (p_reads p).*1 = request_text mt (p_path p) (bs "HTTP/1.1") (p_headers p) ++ p_body p.

(** What it is answered with. *)
Definition post_answer (w : hwsi) (p : post) : list Z := answer_header (set_version 1 (p_conn p) w) json ++ json.

(** The first read of a resting connection finds it with a header store. *)
Lemma resting_starts s : resting (listen_port vh) max s →
  ∃ s', (∀ b r evs, h1_run io conf usr fuel s (Ready (Some (Got b)) r :: evs) = h1_run io conf usr fuel s' (Ready (Some (Got b)) r :: evs))
    ∧ resting (listen_port vh) max s' ∧ has_ah s' = true ∧ hw s' = hw s ∧ tx s' = tx s.
Proof.
  intros H. destruct (has_ah s) eqn:Hah; [by exists s|]. exists (lws_header_table_attach s). split.
  - intros b r evs. cbn [h1_run]. rewrite (re_pollout _ _ _ H). change (pollout (tx (lws_header_table_attach s))) with (pollout (tx s)).
    rewrite (re_pollout _ _ _ H), andb_false_r. f_equal.
    unfold lws_h1_server_socket_service. change (hstate (lws_header_table_attach s)) with (hstate s).
    change (has_ah (lws_header_table_attach s)) with true. rewrite Hah, !andb_false_r. by destruct (re_state _ _ _ H) as [-> | ->].
  - destruct H as [H1 [H2 _] H3 H4 H5 H6 H7 H8 H9]. split; [|done]. split; try done. unfold lws_header_table_attach. rewrite Hah.
    split; [exact H2|]. intros _. rewrite <- H2. apply (fresh_clean _ (rx_frame_type (hcn s))).
Qed.

Lemma fed_answering p s w : resting (listen_port vh) max s → has_ah s = true → hdr_parsing_completed w = true →
  let s' := fed pcol vh (p_conn p) (Z.of_nat (length (p_body p))) w s 0 in
  answering pcol (p_conn p) s' pss0 false (wire (tx s)) ∧ buflist_out (tx s') = [] ∧ hw s' = set_version 1 (p_conn p) (hw s).
Proof.
  intros [H1 H2 H3 H4 H5 H6 H7 H8 H9] Hah Hc s'. destruct (fine_writable (tx s) H6) as (F1 & F2 & F3 & F4 & F5).
  split; [|split; [by transitivity (buflist_out (tx s))|done]]. split; try done.
  transitivity (stream (tx s)); [exact F3|]. unfold stream. by rewrite H7, app_nil_r.
Qed.

(** POLLOUT starts the wait for the next request. *)
Lemma ended_rests s s' : ended s s' → buflist_out (tx s') = [] → listen_port (vhost s) = listen_port vh →
  length (data (ah (hcn s))) = max →
  ∃ s2, h1_run io conf usr fuel s' (writable 1) = Ok (Handled, s2) ∧ resting (listen_port vh) max s2
    ∧ hw s2 = hw s' ∧ wire (tx s2) = wire (tx s').
Proof.
  intros [H1 H2 H3 H4 H5 H6 H7 H8 (U1 & U2 & _) _] Ho Hp Hd. exists (set_hstate LRS_ESTABLISHED (polled s')). split.
  - cbn [writable replicate]. rewrite (run_event io conf usr fuel s' Handled (set_hstate LRS_ESTABLISHED (polled s')) [] H8); [done|]. cbn [lws_h1_server_socket_service]. unfold try_pollout. cbn [negb].
    fold (polled s'). change (hstate (polled s')) with (hstate s'). rewrite H1, bool_decide_true by done.
    change (hcn (set_hstate LRS_ESTABLISHED (polled s'))) with (hcn s'). rewrite H3. reflexivity.
  - split; [|done]. set (s2 := set_hstate _ _). split; try done; [by right| |].
    + change (hcn s2) with (hcn s'). change (has_ah s2) with (has_ah s'). rewrite H2. split; [congruence|done].
    + change (vhost s2) with (vhost s'). congruence.
Qed.

Lemma post_answered_one p s :
  resting (listen_port vh) max s → post_ok p → (length (answer_header (set_version 1 (p_conn p) (hw s)) json) < 1023)%nat →
  ∃ k v s', h1_run io conf usr fuel s (read_events (p_reads p) ++ writable k) = Ok (v, s')
    ∧ wire (tx s') = wire (tx s) ++ post_answer (hw s) p
    ∧ match p_conn p with
      | HTTP_CONNECTION_CLOSE => v = Closed
      | HTTP_CONNECTION_KEEP_ALIVE =>
          v = Handled ∧ resting (listen_port vh) max s' ∧ hw s' = set_tx_content 0 (set_version 1 HTTP_CONNECTION_KEEP_ALIVE (hw s))
      end.
Proof.
  intros Hr (Hrq & Hlen & Hbody & Hne & Hps) Hfit.
  destruct (p_reads p) as [|[b r] ps] eqn:Ep. { exfalso. apply (f_equal length) in Hps. rewrite length_app in Hps. destruct (p_body p); [done|]. cbn in Hps. lia. }
  destruct (resting_starts s Hr) as (s1 & Er & Hr1 & Hah & Eh & Et).
  destruct (re_store _ _ _ Hr1) as [Hd Hfr]. pose proof (Hfr Hah) as Hcl0. rewrite <- (length_replicate max 0) in Hcl0.
  destruct (parse_request (hctx conf) _ (hcn s1) _ _ _ _ _ _ (p_body p) (rq_good _ _ _ _ _ _ _ _ _ _ Hrq) Hcl0) as (a & ft' & Epr & Hst & Hda).
  rewrite length_replicate in Hda. rewrite <- Hps in Epr. assert (hdr_parsing_completed (hcn s1) = false) as Hhc by apply Hcl0.
  assert (∀ evs, h1_run io conf usr fuel s (read_events (p_reads p) ++ evs)
     = h1_run io conf usr fuel (fed pcol vh (p_conn p) (Z.of_nat (length (p_body p))) (Hcon a ft' true) s1 0) evs) as Hrun.
  { intros evs. rewrite <- (h1_run_app io conf usr fuel s1 _ (read_events (p_reads p)) evs).
    - rewrite Ep. apply Er.
    - rewrite Ep. apply (post_reads io conf usr pcol json Hsu vh _ _ _ _ _ _ _ Hrq); try done; [|apply Hr1..].
      split_and!; [apply Hr1|done|done|apply Hr1]. }
  destruct (fed_answering p s1 (Hcon a ft' true) Hr1 Hah eq_refl) as (Ha & Ho & Eh1). set (sb := fed _ _ _ _ _ _ _) in *.
  rewrite Eh in Eh1. rewrite Et in Ha. rewrite <- Eh1 in Hfit.
  destruct (answered io conf usr pcol json Hsu (p_conn p) Hw Hl fuel sb (wire (tx s)) Ha Ho Hfit) as (k & v & s2 & E2 & (Hwire & Hout & Hend)).
  rewrite Eh1 in Hwire. rewrite <- Ep. fold (post_answer (hw s) p) in Hwire. destruct (p_conn p) eqn:Ect.
  - exists k, v, s2. rewrite Hrun. done.
  - destruct Hend as [-> Hend]. destruct (ended_rests sb s2 Hend Hout) as (s3 & E3 & Hr3 & Eh3 & Ew3); [done|exact Hda|].
    exists (k + 1)%nat, Handled, s3. rewrite Hrun. unfold writable. rewrite replicate_add. fold (writable k) (writable 1).
    rewrite (h1_run_app _ _ _ _ _ _ _ _ E2). split; [done|]. split; [by rewrite Ew3|]. split; [done|]. split; [done|].
    by rewrite Eh3, (en_hw _ _ Hend), Eh1.
Qed.
End posts.

(** ** Lemmas: requests that wait *)

Section waiting.
Context (io : h1_io) (conf : h1_conf) (usr : h1_user) (pcol : nat) (json : list Z) (Hsu : setup io conf usr pcol json).

(** The loop of lws_http_action does not end once the body is complete and
    bytes are left: lws_read_h1 uses none of them. *)
Lemma body_loop_stuck fuel read_fuel s sg rest :
  hstate s = LRS_BODY → protocol s = pcol → rx_content_remain s = 0 → buflist s = sg :: rest → wf_segment sg →
  body_loop io fuel (lws_read_h1 io conf usr read_fuel true) s = Fault Unfinished.
Proof.
  intros H1 H2 H3 H4 Hsg. revert s H1 H2 H3 H4. induction fuel as [|fuel IH]; intros s H1 H2 H3 H4; [done|].
  cbn [body_loop]. rewrite H4, next_segment_head by done. rewrite res_bind_ok. replace (set_buflist (sg :: rest) s) with s by (rewrite <- H4; by destruct s).
  destruct (sleft_nonempty sg Hsg) as [El _]. unfold wf_segment in Hsg. rewrite (proj2 (Z.eqb_neq _ 0)) by lia.
  destruct read_fuel as [|rf]; [done|].
  assert (lws_read_h1 io conf usr (S rf) true s (sleft sg) = Ok (RUsed 0, lws_callback_on_writable s)) as ->.
  { cbn [lws_read_h1]. rewrite H1. unfold http_postbody. rewrite H3. cbn [Z.eqb].
    unfold postbody_completion. by rewrite (call_completion io conf usr pcol json Hsu). }
  rewrite res_bind_ok. unfold lws_buflist_aware_consume. cbn [Nat.eqb andb]. rewrite res_bind_ok. cbn [Z.eqb negb]. by apply IH.
Qed.

Context (vh : lws_vhost) (text : list Z) (path : list uchar) (segs : list (list Z)) (last : list Z) (hs : list header) (ct : conn_type).
Context (Hrq : plain_request conf vh pcol text WSI_TOKEN_POST_URI path segs last hs ct).

#[local] Abbreviation fields := (request_fields WSI_TOKEN_POST_URI (bs "HTTP/1.1") segs last hs).

(** The request itself is taken for the body. *)
Lemma body_loop_request fuel read_fuel w s n sg rest :
  (0 < n)%nat → (n < slen sg)%nat → spos sg = 0%nat → buflist s = sg :: rest →
  body_loop io fuel (lws_read_h1 io conf usr read_fuel true) (posted pcol vh ct (Z.of_nat n) w s) = Fault Unfinished.
Proof.
  intros Hn Hlt Hpos Hbl. destruct fuel as [|fuel]; [done|]. cbn [body_loop]. set (s1 := posted _ _ _ _ _ _).
  assert (wf_segment sg) as Hsg by (unfold wf_segment; lia). assert (sleft sg = sbuf sg) as Hsl by (unfold sleft; by rewrite Hpos, drop_0).
  change (buflist s1) with (buflist s). rewrite Hbl, next_segment_head, res_bind_ok, <- Hbl by done.
  rewrite Hsl, (proj2 (Z.eqb_neq (Z.of_nat (length (sbuf sg))) 0)) by (unfold slen in Hlt; lia). change (set_buflist (buflist s) s1) with s1.
  destruct read_fuel as [|rf]; [done|]. set (s2 := set_rx_content_remain 0 s1). unfold slen in Hlt.
  assert (lws_read_h1 io conf usr (S rf) true s1 (sbuf sg) = Ok (RUsed n, lws_callback_on_writable s2)) as ->.
  { change (lws_read_h1 io conf usr (S rf) true s1 (sbuf sg)) with (http_postbody usr s1 (sbuf sg) 0).
    unfold http_postbody. change (rx_content_remain s1) with (Z.of_nat n). rewrite (proj2 (Z.eqb_neq (Z.of_nat n) 0)) by lia.
    rewrite bool_decide_false by (intros E; rewrite E in Hlt; cbn in Hlt; lia). rewrite Z.min_l by lia.
    rewrite Z.sub_diag. rewrite (call_body io conf usr pcol json Hsu), res_bind_ok by done. cbn [Z.eqb negb].
    change (set_user _ _) with s2. change (rx_content_remain s2) with 0. cbn [Z.eqb negb].
    unfold postbody_completion. rewrite (call_completion io conf usr pcol json Hsu), res_bind_ok by done. by rewrite Nat2Z.id. }
  rewrite res_bind_ok. unfold lws_buflist_aware_consume. rewrite (proj2 (Nat.eqb_neq n 0)) by lia. cbn [andb].
  change (buflist (lws_callback_on_writable s2)) with (buflist s). rewrite Hbl.
  destruct (use_segment_wf sg rest n Hsg) as (head & -> & [[E _]|[_ ->]]); [rewrite Hsl; lia|rewrite Hsl in E; lia|].
  rewrite !res_bind_ok. cbn [Z.eqb negb].
  apply (body_loop_stuck _ _ _ (Segment (sbuf sg) (spos sg + n)) rest); try done. unfold wf_segment, slen. cbn [spos sbuf]. lia.
Qed.

(** A read that finds it in the list does not end. *)
Lemma waiting_post fuel s n tail rest :
  awaiting vh s → clean (length text) (hcn s) → (0 < n)%nat → given_length fields (Z.of_nat n) →
  buflist s = Segment (request_text WSI_TOKEN_POST_URI path (bs "HTTP/1.1") hs ++ tail) 0 :: rest →
  (n < length (request_text WSI_TOKEN_POST_URI path (bs "HTTP/1.1") hs ++ tail))%nat →
  lws_h1_server_socket_service io conf usr fuel s (Some GotMore) false = Fault Unfinished.
Proof.
  intros Haw Hcl Hn Hlen Hbl Hlt. set (b := request_text _ _ _ _ ++ tail) in *.
  assert (wf_segment (Segment b 0)) as Hsg by (unfold wf_segment, slen; cbn; lia).
  assert (reads_now (hstate s) = true ∧ hstate s ≠ LRS_ISSUING_FILE ∧ hstate s ≠ LRS_DEFERRING_ACTION) as (Hrn & Hni & Hnd)
    by (destruct Haw as ([-> | ->] & _); done).
  pose proof Haw as (_ & Hah & _). unfold lws_h1_server_socket_service. rewrite bool_decide_false, andb_false_r, Hrn, Hah by done. cbn [negb].
  unfold lws_buflist_aware_read. rewrite Hbl, next_segment_head, res_bind_ok by done.
  replace (set_buflist (Segment b 0 :: rest) s) with s by (rewrite <- Hbl; by destruct s).
  change (sleft (Segment b 0)) with b. rewrite (proj2 (Z.eqb_neq (Z.of_nat (length b)) 0)) by lia. cbn [negb].
  rewrite Hbl, next_segment_head, !res_bind_ok by done. replace (set_buflist (Segment b 0 :: rest) s) with s by (rewrite <- Hbl; by destruct s).
  unfold use_read. rewrite bool_decide_false by done. change (sleft (Segment b 0)) with b.
  destruct fuel as [|fuel]; [done|].
  destruct (parse_request _ text (hcn s) _ _ _ _ _ _ tail (rq_good _ _ _ _ _ _ _ _ _ _ Hrq) Hcl) as (a & ft' & E & Hst & _).
  rewrite (read_request io conf usr pcol json Hsu vh text WSI_TOKEN_POST_URI path segs last hs ct Hrq fuel true s b tail (Hcon a ft' true));
    [|done|done|apply Hst|done].
  rewrite (action_post io conf usr pcol json Hsu vh text WSI_TOKEN_POST_URI path segs last hs ct Hrq _ _ _ _ (Z.of_nat n)) by (done || lia).
  by rewrite (body_loop_request _ _ _ _ n (Segment b 0) rest).
Qed.
End waiting.

(** ** Claims *)

(** [C3] HTTP requests are answered: a client that sends POSTs for a comlink
    handler on one connection, each after the answer to the last, cut up in any
    way, is answered with the handler's header and text for each of them, in
    order and with nothing in between, however few bytes the socket takes at a
    time; after the last the connection is closed if it asked for that, and
    else it is ready for another request. *)
Theorem posts_answered (io : h1_io) (conf : h1_conf) (usr : h1_user) (pcol : nat) (json : list Z) (vh : lws_vhost) (max fuel : nat)
    (s : h1) (ps : list post) (p : post)
    (Hsu : setup io conf usr pcol json) (Hw : willing (send io)) (Hl : 0 < tx_limit (cfg io) (tx_packet_size io)) (Hfuel : (1 < fuel)%nat)
    (Hr : resting (listen_port vh) max s)
    (Hps : Forall (λ q, post_ok conf pcol vh max q ∧ p_conn q = HTTP_CONNECTION_KEEP_ALIVE) ps) (Hp : post_ok conf pcol vh max p)
    (Hfit : ∀ ct, (length (answer_header (set_version 1 ct (hw s)) json) < 1023)%nat) :
  ∃ ks k v s', length ks = length ps
    ∧ h1_run io conf usr fuel s (concat (zip_with (λ q k, read_events (p_reads q) ++ writable k) ps ks)
                                 ++ read_events (p_reads p) ++ writable k) = Ok (v, s')
    ∧ wire (tx s') = wire (tx s) ++ concat (post_answer json (hw s) <$> ps) ++ post_answer json (hw s) p
    ∧ match p_conn p with
      | HTTP_CONNECTION_CLOSE => v = Closed
      | HTTP_CONNECTION_KEEP_ALIVE => v = Handled ∧ resting (listen_port vh) max s'
      end.
Proof.
  revert s Hr Hfit. induction Hps as [|q ps [Hq Hk] Hps IH]; intros s Hr Hfit.
  - destruct (post_answered_one io conf usr pcol json Hsu Hw Hl vh max fuel Hfuel p s Hr Hp (Hfit _)) as (k & v & s' & E & Hwire & Hend).
    exists [], k, v, s'. split; [done|]. split; [exact E|]. split; [exact Hwire|]. destruct (p_conn p); [done|]. by destruct Hend as (? & ? & _).
  - destruct (post_answered_one io conf usr pcol json Hsu Hw Hl vh max fuel Hfuel q s Hr Hq (Hfit _)) as (k & v & s1 & E & Hwire & Hend).
    rewrite Hk in Hend. destruct Hend as (-> & Hr1 & Eh).
    destruct (IH s1 Hr1) as (ks & k' & v & s' & Hlen & E' & Hwire' & Hend'); [by intros ct; rewrite Eh; apply Hfit|].
    exists (k :: ks), k', v, s'. split; [by cbn; rewrite Hlen|]. cbn [zip_with concat fmap list_fmap]. rewrite <- app_assoc, (h1_run_app _ _ _ _ _ _ _ _ E).
    split; [exact E'|]. split; [|done]. rewrite Hwire', Hwire, Eh, <- !app_assoc. done.
Qed.

(** [C22] A POST that was sent before the answer to the request before it hangs
    the server: its bytes wait in the list when its turn comes, they are
    taken for its body, and then lws_http_action asks lws_read_h1 for ever to
    use the rest of them.  No number of turns of the loop is enough. *)
Theorem pipelined_post_never_ends (io : h1_io) (conf : h1_conf) (usr : h1_user) (pcol : nat) (json : list Z) (vh : lws_vhost)
    (text : list Z) (path : list uchar) (segs : list (list Z)) (last : list Z) (hs : list header) (ct : conn_type)
    (s : h1) (n : nat) (tail : list Z) (rest : list segment) (fuel : nat)
    (Hsu : setup io conf usr pcol json) (Hrq : plain_request conf vh pcol text WSI_TOKEN_POST_URI path segs last hs ct)
    (Hs : awaiting vh s) (Hstore : clean (length text) (hcn s))
    (Hn : (0 < n)%nat) (Hlen : given_length (request_fields WSI_TOKEN_POST_URI (bs "HTTP/1.1") segs last hs) (Z.of_nat n))
    (Hbl : buflist s = Segment (request_text WSI_TOKEN_POST_URI path (bs "HTTP/1.1") hs ++ tail) 0 :: rest)
    (Hlt : (n < length (request_text WSI_TOKEN_POST_URI path (bs "HTTP/1.1") hs ++ tail))%nat) :
  lws_h1_server_socket_service io conf usr fuel s (Some GotMore) false = Fault Unfinished.
Proof. by eapply (waiting_post io conf usr pcol json Hsu vh text path segs last hs ct Hrq fuel s n tail rest). Qed.

(** A GET for a comlink handler is not answered: when it was read, nothing
    is written and no callback for writing is asked for, so that nothing is
    sent however often the socket becomes writable. *)
Theorem get_not_answered (io : h1_io) (conf : h1_conf) (usr : h1_user) (pcol : nat) (json : list Z) (vh : lws_vhost) (max fuel : nat)
    (path : list uchar) (segs : list (list Z)) (last : list Z) (hs : list header) (ct : conn_type) (s : h1) (b : list Z) (r : bool) (k : nat)
    (Hsu : setup io conf usr pcol json) (Hfuel : (0 < fuel)%nat)
    (Hrq : plain_request conf vh pcol (replicate max 0) WSI_TOKEN_GET_URI path segs last hs ct)
    (Hcl : HttpHead.WSI_TOKEN_HTTP_CONTENT_LENGTH ∉ (request_fields WSI_TOKEN_GET_URI (bs "HTTP/1.1") segs last hs).*1)
    (Hr : resting (listen_port vh) max s) (Hb : b = request_text WSI_TOKEN_GET_URI path (bs "HTTP/1.1") hs) :
  ∃ s', h1_run io conf usr fuel s (Ready (Some (Got b)) r :: writable k) = Ok (Handled, s')
    ∧ tx s' = tx s ∧ pollout (tx s') = false ∧ protocol s' = pcol ∧ hstate s' = LRS_ESTABLISHED ∧ hdr_parsing_completed (hcn s') = true.
Proof.
  destruct (resting_starts io conf usr vh max fuel s Hr) as (s1 & -> & Hr1 & Hah & _ & <-).
  destruct (re_store _ _ _ Hr1) as [Hd Hfr]. pose proof (Hfr Hah) as Hcl0. rewrite <- (length_replicate max 0) in Hcl0.
  destruct (parse_request (hctx conf) _ (hcn s1) _ _ _ _ _ _ [] (rq_good _ _ _ _ _ _ _ _ _ _ Hrq) Hcl0) as (a & ft' & Epr & Hst & _).
  rewrite app_nil_r, <- Hb in Epr. assert (hdr_parsing_completed (hcn s1) = false) as Hhc by apply Hcl0.
  destruct fuel as [|fuel]; [lia|]. set (w := Hcon a ft' true) in *. set (s2 := bound pcol 0 ct (acting vh w s1)).
  assert (pollout (tx s2) = false) as Hpo by apply (re_pollout _ _ _ Hr1).
  assert (lws_read_h1 io conf usr (S fuel) false s1 b = Ok (RUsed (length b), s2)) as Er.
  { rewrite (read_request io conf usr pcol json Hsu vh _ _ path segs last hs ct Hrq fuel false s1 b [] w) by
      (first [apply Hst | exact Epr | split_and!; [apply Hr1|done|done|apply Hr1]]).
    rewrite (action_get io conf usr pcol json Hsu vh _ _ path segs last hs ct Hrq), res_bind_ok by done. cbn [Z.eqb negb length]. by rewrite Nat.sub_0_r. }
  exists s2. split; [|done]. cbn [h1_run]. rewrite (re_pollout _ _ _ Hr1), andb_false_r.
  rewrite (service_used io conf usr (S fuel) s1 b s2), res_bind_ok; [|by destruct (re_state _ _ _ Hr1) as [-> | ->]..|done|apply Hr1|done].
  induction k as [|k IH]; [done|]. cbn [writable replicate h1_run]. rewrite Hpo. cbn [andb lws_h1_server_socket_service try_pollout negb].
  rewrite res_bind_ok. exact IH.
Qed.

(** *** The comlink server *)

Definition comlink_io : h1_io := H1Io (WsRx.Config 128 4096 true) 0 always_ten (λ _, false) fixed_key (λ _, false) [0; 0; 0; 0].

Definition comlink_vhost : lws_vhost :=
  Vhost (bs "localhost") 7681 [bs "http-only"; bs "protocol-post-demo"; bs "protocol-lws-packet"; bs "lws-websocket"] 0 false comlink_mounts.

Definition comlink_conf : h1_conf := H1Conf (λ _, 0) None false false (λ _, None) (sample_context 256) [comlink_vhost] [].

Definition comlink_callback (p : nat) (s : h1) (r : http_reason) : res (Z * h1) :=
  match p with
  | 1%nat => callback_post_request (E := h1_session comlink_io comlink_conf) s r
  | 2%nat => callback_lws_packet (E := h1_session comlink_io comlink_conf) s r
  | _ => Ok (0, s)
  end.

Definition comlink_user : h1_user :=
  H1User comlink_callback (λ _, false) (λ _, false) (λ _ _, Some []) (λ _, false) (λ _, 0) false (λ s _ _, Ok (-1, s)) (λ s, Ok (-1, s)).

Definition comlink_hwsi : hwsi := Hwsi 0 [] false None false 0 0 HTTP_CONNECTION_CLOSE.

Definition comlink_start : h1 := h1_accept (replicate 256 7) comlink_hwsi comlink_vhost.

Lemma comlink_setup : setup comlink_io comlink_conf comlink_user 2 packet_json.
Proof.
  split; try done; [exact always_ten_env| |split; [done|by_compute]]. by intros [|[|[|p]]] s uri.
Qed.

Lemma comlink_resting : resting 7681 256 comlink_start.
Proof. split; try done; [by left|]. split; [done|]. intros _. apply (fresh_clean (replicate 256 7) 0). Qed.

(** A POST of [body] that asks for [conn], in two pieces. *)
Definition comlink_headers (body : list Z) (conn : list Z) : list header :=
  [Header HttpParse.WSI_TOKEN_HOST (bs "Host:") 1 (bs "localhost:7681");
   Header HttpHead.WSI_TOKEN_HTTP_CONTENT_LENGTH (bs "Content-Length:") 1 (fmt_d (Z.of_nat (length body)));
   Header HttpParse.WSI_TOKEN_CONNECTION (bs "Connection:") 1 conn].

Definition comlink_post (body : list Z) (conn : list Z) (ct : conn_type) : post :=
  let path := Raw <$> bs "/c-api/packet" in
  let text := request_text WSI_TOKEN_POST_URI path (bs "HTTP/1.1") (comlink_headers body conn) ++ body in
  Post path [bs "c-api"] (bs "packet") (comlink_headers body conn) body ct [(take 40 text, true); (drop 40 text, false)].

Definition comlink_first : post := comlink_post (bs "abc") (bs "keep-alive") HTTP_CONNECTION_KEEP_ALIVE.
Definition comlink_second : post := comlink_post (bs "defgh") (bs "close") HTTP_CONNECTION_CLOSE.

Definition comlink_answer : list Z :=
  bs "HTTP/1.1 200 OK" ++ crlf ++ bs "content-type: text/html" ++ crlf ++ bs "content-length: 11" ++ crlf ++ crlf ++ packet_json.

(** A request to the comlink server, by computation. *)
Ltac comlink_request conn :=
  split;
  [split; try reflexivity; unfold req_methods, seg_ok, field_ok; by_compute
  |by_compute
  |exists (bs "localhost:7681"); split_and!; [by_compute|by_compute|vm_compute; reflexivity]
  |by_compute
  |conn
  |apply Forall_forall; by_compute
  |eexists; split; [intros r; vm_compute; reflexivity|split_and!; vm_compute; reflexivity]].

Lemma comlink_first_ok : post_ok comlink_conf 2 comlink_vhost 256 comlink_first.
Proof.
  split; [comlink_request ltac:(right; exists (bs "keep-alive"); split_and!; [by_compute|by_compute|vm_compute; reflexivity])|].
  split; [exists (bs "3"); split_and!; try by_compute|]. split_and!; [by_compute|by_compute|vm_compute; reflexivity].
Qed.

Lemma comlink_second_ok : post_ok comlink_conf 2 comlink_vhost 256 comlink_second.
Proof.
  split; [comlink_request ltac:(right; exists (bs "close"); split_and!; [by_compute|by_compute|vm_compute; reflexivity])|].
  split; [exists (bs "5"); split_and!; try by_compute|]. split_and!; [by_compute|by_compute|vm_compute; reflexivity].
Qed.

Lemma posts_answered_witness :
  ∃ ks k s', length ks = 1%nat
    ∧ h1_run comlink_io comlink_conf comlink_user 2 comlink_start
        (concat (zip_with (λ q k, read_events (p_reads q) ++ writable k) [comlink_first] ks) ++ read_events (p_reads comlink_second) ++ writable k)
      = Ok (Closed, s')
    ∧ wire (tx s') = comlink_answer ++ comlink_answer.
Proof.
  destruct (posts_answered comlink_io comlink_conf comlink_user 2 packet_json comlink_vhost 256 2 comlink_start [comlink_first] comlink_second)
    as (ks & k & v & s' & H1 & H2 & H3 & H4).
  - exact comlink_setup.
  - intros n b Hb. destruct b; [done|]. cbn. lia.
  - reflexivity.
  - lia.
  - exact comlink_resting.
  - apply Forall_cons; split; [|done]. split; [exact comlink_first_ok|reflexivity].
  - exact comlink_second_ok.
  - intros []; by_compute.
  - cbn in H4. subst v. exists ks, k, s'. split; [exact H1|]. split; [exact H2|]. rewrite H3. vm_compute. reflexivity.
Defined.

(** The connection after two POSTs that came together, when the first one is
    answered. *)
Definition comlink_pipelined : h1 :=
  let b := concat (p_reads comlink_first).*1 in
  match h1_run comlink_io comlink_conf comlink_user 2 comlink_start (Ready (Some (Got (b ++ b))) false :: writable 20) with
  | Ok (_, s) => s
  | Fault _ => comlink_start
  end.

Lemma pipelined_post_never_ends_witness :
  h1_run comlink_io comlink_conf comlink_user 2 comlink_start
    (Ready (Some (Got (concat (p_reads comlink_first).*1 ++ concat (p_reads comlink_first).*1))) false :: writable 20)
  = Ok (Handled, comlink_pipelined)
  ∧ wire (tx comlink_pipelined) = comlink_answer
  ∧ lws_h1_server_socket_service comlink_io comlink_conf comlink_user 1000 comlink_pipelined (Some GotMore) false = Fault Unfinished.
Proof.
  split; [vm_compute; reflexivity|]. split; [vm_compute; reflexivity|].
  apply (pipelined_post_never_ends comlink_io comlink_conf comlink_user 2 packet_json comlink_vhost (replicate 256 0)
           (p_path comlink_first) (p_segs comlink_first) (p_last comlink_first) (p_headers comlink_first) HTTP_CONNECTION_KEEP_ALIVE
           comlink_pipelined 3 (p_body comlink_first) [] 1000).
  - exact comlink_setup.
  - apply comlink_first_ok.
  - split_and!; [right; vm_compute; reflexivity|vm_compute; reflexivity..].
  - pose proof (reset_clean (ah (hcn comlink_pipelined)) (rx_frame_type (hcn comlink_pipelined))) as H.
    assert (Hcon (_lws_header_table_reset (ah (hcn comlink_pipelined))) (rx_frame_type (hcn comlink_pipelined)) false = hcn comlink_pipelined)
      as E by (vm_compute; reflexivity).
    rewrite E in H. replace (length (replicate 256 0)) with (length (data (ah (hcn comlink_pipelined)))) by (vm_compute; reflexivity).
    apply H; vm_compute; reflexivity.
  - lia.
  - apply comlink_first_ok.
  - vm_compute. reflexivity.
  - by_compute.
Defined.

Definition comlink_get_headers : list header := [Header HttpParse.WSI_TOKEN_HOST (bs "Host:") 1 (bs "localhost:7681")].

Lemma get_not_answered_witness :
  ∃ s', h1_run comlink_io comlink_conf comlink_user 2 comlink_start
      (Ready (Some (Got (request_text WSI_TOKEN_GET_URI (Raw <$> bs "/c-api/packet") (bs "HTTP/1.1") comlink_get_headers))) true :: writable 100)
    = Ok (Handled, s')
    ∧ tx s' = tx comlink_start ∧ pollout (tx s') = false ∧ protocol s' = 2%nat ∧ hstate s' = LRS_ESTABLISHED
    ∧ hdr_parsing_completed (hcn s') = true.
Proof.
  apply (get_not_answered comlink_io comlink_conf comlink_user 2 packet_json comlink_vhost 256 2 (Raw <$> bs "/c-api/packet")
           [bs "c-api"] (bs "packet") comlink_get_headers HTTP_CONNECTION_KEEP_ALIVE).
  - exact comlink_setup.
  - lia.
  - comlink_request ltac:(left; split; [by_compute|reflexivity]).
  - by_compute.
  - exact comlink_resting.
  - reflexivity.
Defined.

(** *** Error paths of the connection *)

(** A socket that takes everything. *)
Definition wide_io : h1_io := H1Io (WsRx.Config 2048 4096 true) 0 (λ _ b, Sent (length b)) (λ _, false) fixed_key (λ _, false) [0; 0; 0; 0].

Definition wide_user : h1_user :=
  H1User (λ p s r, if (p =? 2)%nat then callback_lws_packet (E := h1_session wide_io comlink_conf) s r else Ok (0, s))
    (λ _, false) (λ _, false) (λ _ _, Some []) (λ _, false) (λ _, 0) false (λ s _ _, Ok (-1, s)) (λ s, Ok (-1, s)).

Definition unknown_upgrade : list Z :=
  bs "GET / HTTP/1.1" ++ crlf ++ bs "Host: localhost:7681" ++ crlf ++ bs "Upgrade: foo" ++ crlf ++ crlf.

(** An upgrade that is not known, as the second request of a connection: the
    answer ends the transaction, which frees the headers, and then the name of
    the upgrade is read from them.  As the first request it is only closed. *)
Theorem unknown_upgrade_uses_freed_headers :
  h1_run wide_io comlink_conf wide_user 2 comlink_start
    (read_events (p_reads comlink_first) ++ writable 3 ++ [Ready (Some (Got unknown_upgrade)) false]) = Fault UseAfterFree
  ∧ (∃ s, h1_run wide_io comlink_conf wide_user 2 comlink_start [Ready (Some (Got unknown_upgrade)) false] = Ok (Closed, s)).
Proof. split; [vm_compute; reflexivity|]. eexists. vm_compute. reflexivity. Qed.

(** The page of lws_return_http_status is put together past the end of
    pt->serv_buf when its text is long, as the text of a keyword for unwelcome
    user agents may be; a short one is answered. *)
Theorem long_error_page_overruns :
  lws_return_http_status wide_io comlink_conf comlink_start 403 (replicate 400 97) = Fault OutOfBounds
  ∧ ∃ s, lws_return_http_status wide_io comlink_conf comlink_start 403 (replicate 100 97) = Ok (0, s).
Proof. split; [vm_compute; reflexivity|]. eexists. vm_compute. reflexivity. Qed.

(** A Location that lws_clean_url makes shorter is followed by NULs. *)
Theorem redirect_location_has_nuls :
  redirect_location (bs "http://a//b") = bs "http://a/b" ++ [0] ∧ redirect_location (bs "http://a/b") = bs "http://a/b".
Proof. vm_compute. split; reflexivity. Qed.

(** A connection that is only there to be redirected to https: the location is
    written behind pt->serv_buf. *)
Theorem redirect_to_https_overruns :
  h1_run wide_io (H1Conf (λ _, 0) None false true (λ _, None) (sample_context 256) [comlink_vhost] []) wide_user 2 comlink_start
    [Ready (Some (Got (concat (p_reads comlink_first).*1))) false] = Fault OutOfBounds.
Proof. vm_compute. reflexivity. Qed.
