(* ===== verification/Dll.v ===== *)
(** * Doubly linked lists (lws_dll)

    lws_dll_add_front and lws_dll_remove (core/libwebsockets.c) on a store of
    list nodes.  An address is an integer and NULL is 0; a node is the pair of
    pointers of struct lws_dll (include/libwebsockets/lws-misc.h).  An access
    to NULL or to an address without a node is a fault, so that a pointer left
    behind by a freed object shows.

    [dll h head l] says that the nodes from the list head [head] on are, in
    this order, those of [l].  The two operations act on [l] as on a list. *)

From stdpp Require Import base numbers list gmap.
From Stdlib Require Import ZArith Lia.
From S2P Require Import Prelude.

Definition NULL : Z := 0.

Record node := Node { prev : Z; next : Z }.

Abbreviation heap := (gmap Z node).

#[global] Instance node_eq_dec : EqDecision node.
Proof. solve_decision. Defined.

Definition load (h : heap) (a : Z) : res node :=
  if a =? NULL then Fault NullDeref
  else match h !! a with Some n => Ok n | None => Fault UseAfterFree end.

Definition set_prev (h : heap) (a v : Z) : res heap :=
  n ← load h a; Ok (<[a := Node v (next n)]> h).

Definition set_next (h : heap) (a v : Z) : res heap :=
  n ← load h a; Ok (<[a := Node (prev n) v]> h).

(** lws_dll_is_null *)
Definition lws_dll_is_null (n : node) : bool := (prev n =? NULL) && (next n =? NULL).

Definition lws_dll_add_front (d phead : Z) (h : heap) : res heap :=
  nd ← load h d;
  if negb (prev nd =? NULL) then Ok h
  else
    nh ← load h phead;
    h ← set_next h d (next nh);
    h ← (if negb (next nh =? NULL) then set_prev h (next nh) d else Ok h);
    h ← set_prev h d phead;
    set_next h phead d.

Definition lws_dll_remove (d : Z) (h : heap) : res heap :=
  nd ← load h d;
  if prev nd =? NULL then Ok h
  else
    h ← (if negb (next nd =? NULL) then set_prev h (next nd) (prev nd) else Ok h);
    h ← set_next h (prev nd) (next nd);
    h ← set_prev h d NULL;
    set_next h d NULL.

(** The nodes reached from the head by [next]: at most [fuel] of them, as
    lws_start_foreach_dll walks them. *)
Fixpoint walk (fuel : nat) (h : heap) (a : Z) : res (list Z) :=
  if a =? NULL then Ok []
  else
    match fuel with
    | O => Fault Unfinished
    | S f => n ← load h a; l ← walk f h (next n); Ok (a :: l)
    end.

(** ** What a list is *)

(** The nodes of [l] are linked, [p] before them and [b] after them; [q] is
    the last one, or [p]. *)
Fixpoint seg (h : heap) (p a : Z) (l : list Z) (q b : Z) : Prop :=
  match l with
  | [] => a = b ∧ p = q
  | x :: l => a = x ∧ x ≠ NULL ∧ ∃ nx, h !! x = Some (Node p nx) ∧ seg h x nx l q b
  end.

(** A list head is a node with no [prev]. *)
Definition dll (h : heap) (head : Z) (l : list Z) : Prop :=
  NoDup (head :: l) ∧ ∃ q, seg h NULL head (head :: l) q NULL.

(** A node in no list. *)
Definition unlinked (h : heap) (d : Z) : Prop := d ≠ NULL ∧ ∃ nx, h !! d = Some (Node NULL nx).

(** ** Lemmas *)

Lemma load_ok h a n : a ≠ NULL → h !! a = Some n → load h a = Ok n.
Proof. intros Ha E. unfold load. rewrite (proj2 (Z.eqb_neq _ _)) by done. by rewrite E. Qed.

Lemma set_prev_ok h a n v : a ≠ NULL → h !! a = Some n → set_prev h a v = Ok (<[a := Node v (next n)]> h).
Proof. intros Ha E. unfold set_prev. by rewrite (load_ok h a n). Qed.

Lemma set_next_ok h a n v : a ≠ NULL → h !! a = Some n → set_next h a v = Ok (<[a := Node (prev n) v]> h).
Proof. intros Ha E. unfold set_next. by rewrite (load_ok h a n). Qed.

Lemma seg_frame h h' p a l q b : (∀ x, x ∈ l → h' !! x = h !! x) → seg h p a l q b → seg h' p a l q b.
Proof.
  revert p a. induction l as [|x l IH]; intros p a Hf; [done|]. intros (-> & Hx & nx & E & Hs).
  split; [done|]. split; [done|]. exists nx. split; [by rewrite Hf by left|]. apply IH; [|done].
  intros y Hy. apply Hf. by right.
Qed.

Lemma seg_app h p a l1 l2 q b :
  seg h p a (l1 ++ l2) q b ↔ ∃ m c, seg h p a l1 m c ∧ seg h m c l2 q b.
Proof.
  revert p a. induction l1 as [|x l1 IH]; intros p a; cbn [app seg].
  - split; [by exists p, a|]. by intros (m & c & (-> & ->) & H).
  - split.
    + intros (-> & Hx & nx & E & (m & c & H1 & H2)%IH). exists m, c. split; [|done]. by eauto 10.
    + intros (m & c & (-> & Hx & nx & E & H1) & H2). split; [done|]. split; [done|]. exists nx. split; [done|].
      apply IH. by exists m, c.
Qed.

(** The last node of a segment, and what it points to. *)
Lemma seg_snoc h p a l x q b :
  seg h p a (l ++ [x]) q b ↔ ∃ m, seg h p a l m x ∧ x ≠ NULL ∧ h !! x = Some (Node m b) ∧ q = x.
Proof.
  rewrite seg_app. split.
  - intros (m & c & H1 & (-> & Hx & nx & E & (-> & ->))). by exists m.
  - intros (m & H1 & Hx & E & ->). exists m, x. split; [done|]. split; [done|]. split; [done|]. by exists b.
Qed.

Lemma seg_not_null h p a l q b : seg h p a l q b → NULL ∉ l.
Proof.
  revert p a. induction l as [|x l IH]; intros p a; [intros _ ?%elem_of_nil; done|].
  intros (_ & Hx & nx & _ & Hs) [Hn|Hn]%elem_of_cons; [done|]. by apply (IH _ _ Hs).
Qed.

Lemma seg_lookup h p a l q b x : seg h p a l q b → x ∈ l → ∃ n, h !! x = Some n.
Proof.
  revert p a. induction l as [|y l IH]; intros p a; [by intros _ ?%elem_of_nil|].
  intros (_ & _ & nx & E & Hs) [->|Hx]%elem_of_cons; [by eexists|]. by apply (IH _ _ Hs).
Qed.

(** A segment whose nodes are not the written one is still there. *)
Lemma seg_insert h p a l q b x n : x ∉ l → seg h p a l q b → seg (<[x := n]> h) p a l q b.
Proof.
  intros Hx. apply seg_frame. intros y Hy. apply lookup_insert_ne. by intros ->.
Qed.

Lemma dll_lookup h head l x : dll h head l → x ∈ head :: l → x ≠ NULL ∧ ∃ n, h !! x = Some n.
Proof.
  intros [_ [q Hs]] Hx. split; [intros ->; by apply (seg_not_null _ _ _ _ _ _ Hs)|]. by apply (seg_lookup _ _ _ _ _ _ _ Hs).
Qed.

(** A list is not longer than the store. *)
Lemma dll_size h head l : dll h head l → (S (length l) ≤ size h)%nat.
Proof.
  intros Hl. change (S (length l)) with (length (head :: l)). pose proof Hl as [Hn _].
  rewrite <- (size_list_to_set (C := gset Z)) by done. rewrite <- size_dom. apply subseteq_size.
  intros x Hx%elem_of_list_to_set. apply elem_of_dom. by apply (dll_lookup h head l).
Qed.

(** A list of which no node is written is still there. *)
Lemma dll_frame h h' head l : (∀ x, x ∈ head :: l → h' !! x = h !! x) → dll h head l → dll h' head l.
Proof. intros Hf [Hn [q Hs]]. split; [done|]. exists q. by apply (seg_frame h). Qed.

(** The node of a list in a split of it: what is before and after it. *)
Lemma dll_at h head l1 d l2 :
  dll h head (l1 ++ d :: l2) ↔
  NoDup (head :: l1 ++ d :: l2) ∧ d ≠ NULL ∧
  ∃ L x m q c, head :: l1 = L ++ [x] ∧ seg h NULL head L m x ∧ x ≠ NULL ∧ h !! x = Some (Node m d)
    ∧ h !! d = Some (Node x c) ∧ seg h d c l2 q NULL.
Proof.
  assert (∃ L x, head :: l1 = L ++ [x]) as (L & x & E).
  { destruct l1 as [|y l1] using rev_ind; [by exists [], head|]. by exists (head :: l1), y. }
  unfold dll. change (head :: l1 ++ d :: l2) with ((head :: l1) ++ d :: l2). rewrite E. split.
  - intros [Hn [q Hs]]. apply seg_app in Hs as (m & c & H1 & H2). apply seg_snoc in H1 as (m' & H1 & Hx & Ex & ->).
    destruct H2 as (-> & Hd & nx & Ed & H2). split; [done|]. split; [done|]. by exists L, x, m', q, nx.
  - intros (Hn & Hd & L' & x' & m & q & c & E' & H1 & Hx & Ex & Ed & H2). apply app_inj_tail in E' as [<- <-].
    split; [done|]. exists q. apply seg_app. exists x, d. split; [apply seg_snoc; by exists m|].
    split; [done|]. split; [done|]. by exists c.
Qed.

Lemma dll_nil_unlinked h head l1 d l2 : dll h head (l1 ++ d :: l2) → ∃ n, h !! d = Some n ∧ prev n ≠ NULL.
Proof.
  intros (_ & _ & L & x & m & q & c & _ & _ & Hx & _ & Ed & _)%dll_at. by eexists.
Qed.

(** No two lists share a node that is not unlinked; an unlinked node is in
    no list. *)
Lemma unlinked_not_in h head l d : dll h head l → unlinked h d → d ∉ l.
Proof.
  intros Hl [_ [nx E]] (l1 & l2 & ->)%list_elem_of_split. destruct (dll_nil_unlinked _ _ _ _ _ Hl) as (n & E' & Hp).
  rewrite E in E'. by injection E' as <-.
Qed.

(** ** The operations *)

Lemma NoDup_drop_middle {A} (l1 l2 : list A) x : NoDup (l1 ++ x :: l2) → NoDup (l1 ++ l2) ∧ x ∉ l1 ++ l2.
Proof.
  rewrite !NoDup_app. intros (H1 & Hd & H2). apply NoDup_cons in H2 as [Hx H2].
  split; [split; [done|split; [|done]]|].
  - intros y Hy Hy'. apply (Hd y Hy). by right.
  - intros [Hx'|Hx']%elem_of_app; [|done]. apply (Hd x Hx'). by left.
Qed.

(** Taking a node out of a list. *)
Lemma remove_ok h head l1 d l2 :
  dll h head (l1 ++ d :: l2) →
  ∃ h', lws_dll_remove d h = Ok h' ∧ dll h' head (l1 ++ l2) ∧ h' !! d = Some (Node NULL NULL)
    ∧ ∀ a, a ∉ head :: l1 ++ d :: l2 → h' !! a = h !! a.
Proof.
  intros (Hn & Hd & L & x & m & q & c & E & H1 & Hx & Ex & Ed & H2)%dll_at.
  change (head :: l1 ++ d :: l2) with ((head :: l1) ++ d :: l2) in *. rewrite E in *.
  pose proof Hn as [Hn' Hdn]%NoDup_drop_middle. rewrite <- app_assoc in Hn', Hdn. cbn [app] in Hn', Hdn.
  assert (x ∉ L ∧ x ∉ l2) as [HxL Hx2].
  { apply NoDup_drop_middle in Hn' as [_ Hx']. by rewrite elem_of_app in Hx'; tauto. }
  assert (d ≠ x ∧ d ∉ L ∧ d ∉ l2) as (Hdx & HdL & Hd2) by (rewrite !elem_of_app, elem_of_cons in Hdn; tauto).
  unfold lws_dll_remove. rewrite (load_ok _ _ _ Hd Ed). cbn [mbind res_bind prev next].
  rewrite (proj2 (Z.eqb_neq _ _)) by done.
  destruct l2 as [|y l2].
  - destruct H2 as [-> ->]. cbn [Z.eqb NULL negb mbind res_bind]. rewrite (set_next_ok _ _ _ _ Hx Ex). cbn [mbind res_bind prev].
    rewrite (set_prev_ok _ _ (Node x NULL)) by (first [done | by rewrite ?lookup_insert_ne by congruence]). cbn [mbind res_bind next].
    rewrite (set_next_ok _ _ (Node NULL NULL)) by (first [done | by rewrite lookup_insert_eq]). eexists. split; [done|]. rewrite insert_insert_eq.
    split; [|split; [by rewrite lookup_insert_eq|]].
    + split; [rewrite app_nil_r in *; cbn [app] in Hn'; by rewrite E|]. exists x. rewrite app_nil_r, E. apply seg_snoc. exists m.
      split; [by repeat apply seg_insert|]. split; [done|]. rewrite lookup_insert_ne by congruence. by rewrite lookup_insert_eq.
    + intros a Ha. rewrite !elem_of_app, !elem_of_cons in Ha. rewrite !lookup_insert_ne by (intros ->; tauto). done.
  - destruct H2 as (-> & Hy & nx & Ey & H2).
    assert (y ≠ x ∧ y ≠ d ∧ y ∉ L ∧ y ∉ l2) as (Hyx & Hyd & HyL & Hy2).
    { change (x :: y :: l2) with ([x] ++ y :: l2) in Hn'. rewrite app_assoc in Hn'. apply NoDup_drop_middle in Hn' as [_ Hy'].
      rewrite !elem_of_app, elem_of_cons in Hy'. rewrite elem_of_cons in Hd2. split_and!; [| |tauto|tauto]; intros ->; tauto. }
    rewrite (proj2 (Z.eqb_neq _ _)) by done. cbn [negb]. rewrite (set_prev_ok _ _ _ _ Hy Ey). cbn [mbind res_bind next].
    rewrite (set_next_ok _ _ (Node m d)) by (first [done | by rewrite ?lookup_insert_ne by congruence]). cbn [mbind res_bind prev].
    rewrite (set_prev_ok _ _ (Node x y)) by (first [done | by rewrite ?lookup_insert_ne by congruence]). cbn [mbind res_bind next].
    rewrite (set_next_ok _ _ (Node NULL y)) by (first [done | by rewrite lookup_insert_eq]). eexists. split; [done|]. cbn [prev]. rewrite insert_insert_eq.
    rewrite elem_of_cons in Hx2, Hd2.
    split; [|split; [by rewrite lookup_insert_eq|]].
    + unfold dll. change (head :: l1 ++ y :: l2) with ((head :: l1) ++ y :: l2). split; [by rewrite E, <- app_assoc|]. exists q. rewrite E.
      apply seg_app. exists x, y. split.
      * apply seg_snoc. exists m. split; [by repeat apply seg_insert|]. split; [done|].
        rewrite lookup_insert_ne by congruence. by rewrite lookup_insert_eq.
      * split; [done|]. split; [done|]. exists nx. split; [|apply seg_insert; [tauto|]; apply seg_insert; [tauto|]; by apply seg_insert].
        rewrite !lookup_insert_ne by congruence. by rewrite lookup_insert_eq.
    + intros a Ha. rewrite !elem_of_app, !elem_of_cons in Ha. rewrite !lookup_insert_ne by (intros ->; tauto). done.
Qed.

(** A list in two parts: the last node of the first one, and what it points to. *)
Lemma dll_split h head l1 l2 :
  dll h head (l1 ++ l2) ↔
  NoDup (head :: l1 ++ l2) ∧
  ∃ L x m q c, head :: l1 = L ++ [x] ∧ seg h NULL head L m x ∧ x ≠ NULL ∧ h !! x = Some (Node m c) ∧ seg h x c l2 q NULL.
Proof.
  assert (∃ L x, head :: l1 = L ++ [x]) as (L & x & E).
  { destruct l1 as [|y l1] using rev_ind; [by exists [], head|]. by exists (head :: l1), y. }
  unfold dll. change (head :: l1 ++ l2) with ((head :: l1) ++ l2). rewrite E. split.
  - intros [Hn [q Hs]]. split; [done|]. apply seg_app in Hs as (m & c & H1 & H2). apply seg_snoc in H1 as (m' & H1 & Hx & Ex & ->).
    by exists L, x, m', q, c.
  - intros (Hn & L' & x' & m & q & c & E' & H1 & Hx & Ex & H2). apply app_inj_tail in E' as [<- <-].
    split; [done|]. exists q. apply seg_app. exists x, c. split; [apply seg_snoc; by exists m|done].
Qed.

Lemma seg_first h p a l q : seg h p a l q NULL → (a = NULL ↔ l = []) ∧ (a ≠ NULL → a ∈ l ∧ ∃ n, h !! a = Some (Node p n)).
Proof.
  destruct l as [|x l]; [by intros [-> _]|]. intros (-> & Hx & nx & E & _). split; [by split|]. intros _. split; [left|by exists nx].
Qed.

(** Linking [d] between [x] and what follows it, in whatever order the
    pointers are written. *)
Lemma dll_insert h h' head l1 l2 d L x m c :
  dll h head (l1 ++ l2) → d ≠ NULL → d ∉ head :: l1 ++ l2 →
  head :: l1 = L ++ [x] → h !! x = Some (Node m c) →
  h' !! x = Some (Node m d) → h' !! d = Some (Node x c) →
  (c ≠ NULL → ∃ n, h !! c = Some n ∧ h' !! c = Some (Node d (next n))) →
  (∀ a, a ≠ x → a ≠ d → a ≠ c → h' !! a = h !! a) →
  dll h' head (l1 ++ d :: l2).
Proof.
  intros (Hn & L' & x' & m' & q & c' & E' & H1 & Hx & Ex' & H2)%dll_split Hd Hdn E Ex Ex1 Ed1 Ec1 Hf.
  rewrite E in E'. apply app_inj_tail in E' as [<- <-]. rewrite Ex in Ex'. injection Ex' as <- <-.
  change (head :: l1 ++ l2) with ((head :: l1) ++ l2) in *. rewrite E in *.
  rewrite <- app_assoc in Hn, Hdn. cbn [app] in Hn, Hdn. rewrite elem_of_app, elem_of_cons in Hdn.
  assert (x ∉ L ∧ x ∉ l2) as [HxL Hx2] by (apply NoDup_drop_middle in Hn as [_ Hx']; rewrite elem_of_app in Hx'; tauto).
  assert (c ∉ L) as HcL.
  { destruct l2 as [|y l2]; [destruct H2 as [-> _]; by apply (seg_not_null _ _ _ _ _ _ H1)|]. destruct H2 as (-> & _).
    apply NoDup_app in Hn as (_ & Hn & _). intros Hy. apply (Hn y Hy). right. by left. }
  apply dll_at. split.
  { change (head :: l1 ++ d :: l2) with ((head :: l1) ++ d :: l2). rewrite E, <- app_assoc. cbn [app].
    rewrite NoDup_app in Hn |- *. destruct Hn as (Hn1 & Hn2 & Hn3). rewrite NoDup_cons in Hn3. destruct Hn3 as [_ Hn3].
    split; [done|]. split.
    - intros y Hy [->|[->|Hy']%elem_of_cons]%elem_of_cons; [by apply (Hn2 x Hy); left|tauto|by apply (Hn2 y Hy); right].
    - rewrite !NoDup_cons, elem_of_cons. split_and!; [|tauto|done]. intros [->|?]; tauto. }
  split; [done|]. exists L, x, m, (if decide (l2 = []) then d else q), c. split; [done|]. split.
  { apply (seg_frame h); [|done]. intros y Hy. apply Hf; intros ->; tauto. }
  split; [done|]. split; [done|]. split; [done|].
  destruct l2 as [|y l2]; [by destruct H2 as [-> _]|]. rewrite decide_False by done.
  destruct H2 as (-> & Hy & nx & Ey & H2). destruct (Ec1 Hy) as (n & Ey' & Ey1). rewrite Ey in Ey'. injection Ey' as <-. cbn [next] in Ey1.
  split; [done|]. split; [done|]. exists nx. split; [done|]. apply (seg_frame h); [|done]. rewrite elem_of_cons in Hx2, Hdn.
  intros z Hz. apply Hf; intros ->; try tauto. apply NoDup_app in Hn as (_ & _ & Hn). rewrite !NoDup_cons in Hn. tauto.
Qed.

(** Putting a node that is in no list at the front of one. *)
Lemma add_front_ok h head l d :
  dll h head l → unlinked h d → d ≠ head →
  ∃ h', lws_dll_add_front d head h = Ok h' ∧ dll h' head (d :: l)
    ∧ ∀ a, a ∉ head :: d :: l → h' !! a = h !! a.
Proof.
  intros Hl Hu Hne. pose proof (unlinked_not_in _ _ _ _ Hl Hu) as Hdl. destruct Hu as (Hd & dx & Ed).
  destruct (dll_split h head [] l) as [(Hn & L & x & m & q & c & E & H1 & Hx & Ex & H2) _]; [done|].
  pose proof E as E0. apply (f_equal length) in E0. rewrite length_app in E0. cbn in E0. destruct L; [|cbn in E0; lia].
  injection E as <-. destruct H1 as [_ <-]. pose proof (seg_first _ _ _ _ _ H2) as [_ Hc].
  unfold lws_dll_add_front. rewrite (load_ok _ _ _ Hd Ed). cbn [mbind res_bind prev NULL Z.eqb negb].
  rewrite (load_ok _ _ _ Hx Ex). cbn [mbind res_bind next]. rewrite (set_next_ok _ _ _ _ Hd Ed). cbn [mbind res_bind prev].
  assert (dll h head ([] ++ l)) as Hl' by done.
  assert (d ∉ head :: [] ++ l) as Hdn by (cbn [app]; rewrite elem_of_cons; tauto).
  destruct (decide (c = NULL)) as [->|Hc0].
  - cbn [negb Z.eqb NULL mbind res_bind]. rewrite (set_prev_ok _ _ (Node NULL NULL)) by (first [done | by rewrite lookup_insert_eq]).
    cbn [mbind res_bind next]. rewrite insert_insert_eq.
    rewrite (set_next_ok _ _ (Node NULL NULL)) by (first [done | by rewrite lookup_insert_ne by congruence]). cbn [prev].
    eexists. split; [done|]. split.
    + apply (dll_insert h _ head [] l d [] head NULL NULL); try done.
      * by rewrite lookup_insert_eq.
      * rewrite lookup_insert_ne by congruence. by rewrite lookup_insert_eq.
      * intros a Ha1 Ha2 _. by rewrite !lookup_insert_ne by congruence.
    + intros a Ha. rewrite !elem_of_cons in Ha. by rewrite !lookup_insert_ne by (intros ->; tauto).
  - destruct (Hc Hc0) as (Hcl & cn & Ec). assert (c ≠ d ∧ c ≠ head) as [Hcd Hch].
    { split; intros ->; [done|]. by apply NoDup_cons in Hn as [Hn _]. }
    rewrite (proj2 (Z.eqb_neq _ _)) by done. cbn [negb].
    rewrite (set_prev_ok _ _ (Node head cn)) by (first [done | by rewrite lookup_insert_ne by congruence]). cbn [mbind res_bind next].
    rewrite (set_prev_ok _ _ (Node NULL c)) by (first [done | rewrite lookup_insert_ne by congruence; by rewrite lookup_insert_eq]).
    cbn [mbind res_bind next].
    rewrite (set_next_ok _ _ (Node NULL c)) by (first [done | by rewrite !lookup_insert_ne by congruence]). cbn [prev].
    eexists. split; [done|]. split.
    + apply (dll_insert h _ head [] l d [] head NULL c); try done.
      * by rewrite lookup_insert_eq.
      * rewrite lookup_insert_ne by congruence. by rewrite lookup_insert_eq.
      * intros _. exists (Node head cn). split; [done|]. rewrite !lookup_insert_ne by congruence. by rewrite lookup_insert_eq.
      * intros a Ha1 Ha2 Ha3. by rewrite !lookup_insert_ne by congruence.
    + intros a Ha. rewrite !elem_of_cons in Ha. by rewrite !lookup_insert_ne by (intros ->; tauto).
Qed.

(** What is not in a list is not touched by taking it out. *)
Lemma remove_unlinked h d : unlinked h d → lws_dll_remove d h = Ok h.
Proof. intros (Hd & nx & E). unfold lws_dll_remove. by rewrite (load_ok _ _ _ Hd E). Qed.

(** The walk of the iteration macros meets exactly the nodes of the list. *)
Lemma walk_seg h p a l q fuel : seg h p a l q NULL → (length l ≤ fuel)%nat → walk fuel h a = Ok l.
Proof.
  revert p a fuel. induction l as [|x l IH]; intros p a fuel.
  - intros [-> _] _. by destruct fuel.
  - intros (-> & Hx & nx & E & Hs) Hf. destruct fuel as [|fuel]; [cbn in Hf; lia|]. cbn [walk].
    rewrite (proj2 (Z.eqb_neq _ _)) by done. rewrite (load_ok _ _ _ Hx E). cbn [mbind res_bind next].
    rewrite (IH x nx fuel Hs) by (cbn in Hf; lia). done.
Qed.

(** ** Several lists over the same nodes *)

(** The lists by their heads. *)
Abbreviation lists := (gmap Z (list Z)).

Record represents (h : heap) (nodes : gset Z) (ls : lists) : Prop := {
  rp_lists head l : ls !! head = Some l → dll h head l;
  rp_nodes head l d : ls !! head = Some l → d ∈ l → d ∈ nodes;
  rp_heads d : d ∈ nodes → ls !! d = None;
  rp_one h1 h2 l1 l2 d : ls !! h1 = Some l1 → ls !! h2 = Some l2 → d ∈ l1 → d ∈ l2 → h1 = h2;
  rp_free d : d ∈ nodes → unlinked h d ∨ ∃ head l, ls !! head = Some l ∧ d ∈ l;
}.

Inductive dll_op := AddFront (d head : Z) | Remove (d : Z).

Definition dll_step (h : heap) (o : dll_op) : res heap :=
  match o with AddFront d head => lws_dll_add_front d head h | Remove d => lws_dll_remove d h end.

Fixpoint dll_run (h : heap) (os : list dll_op) : res heap :=
  match os with [] => Ok h | o :: os => h ← dll_step h o; dll_run h os end.

(** The same on lists: a node that is in a list already stays where it is. *)
Definition lists_step (ls : lists) (o : dll_op) : lists :=
  match o with
  | AddFront d head => if bool_decide (map_Exists (λ _ l, d ∈ l) ls) then ls else alter (cons d) head ls
  | Remove d => filter (λ x, x ≠ d) <$> ls
  end.

Definition dll_legal (nodes : gset Z) (ls : lists) (o : dll_op) : Prop :=
  match o with AddFront d head => d ∈ nodes ∧ is_Some (ls !! head) | Remove d => d ∈ nodes end.

#[global] Instance dll_legal_dec nodes ls o : Decision (dll_legal nodes ls o).
Proof. destruct o; cbn; apply _. Defined.

Lemma represents_linked h nodes ls head l d :
  represents h nodes ls → ls !! head = Some l → d ∈ l → ∃ n, h !! d = Some n ∧ prev n ≠ NULL.
Proof.
  intros Hr El (l1 & l2 & ->)%list_elem_of_split. by apply (dll_nil_unlinked h head l1 d l2), (rp_lists _ _ _ Hr).
Qed.

(** A write to the nodes of one list leaves the others. *)
Lemma represents_other h h' nodes ls head l l' head' :
  represents h nodes ls → ls !! head = Some l → ls !! head' = Some l' → head ≠ head' →
  (∀ a, a ∉ head :: l → h' !! a = h !! a) → dll h' head' l'.
Proof.
  intros Hr E E' Hne Hf. apply (dll_frame h); [|by apply (rp_lists _ _ _ Hr)]. intros x Hx. apply Hf.
  intros [->|Hx']%elem_of_cons; apply elem_of_cons in Hx as [Hx|Hx].
  - done.
  - assert (head ∈ nodes) as Hn by by apply (rp_nodes _ _ _ Hr head' l'). by rewrite (rp_heads _ _ _ Hr _ Hn) in E.
  - subst. assert (head' ∈ nodes) as Hn by by apply (rp_nodes _ _ _ Hr head l). by rewrite (rp_heads _ _ _ Hr _ Hn) in E'.
  - apply Hne. by apply (rp_one _ _ _ Hr head head' l l' x).
Qed.

Lemma filter_out_absent {A} `{EqDecision A} (l : list A) d : d ∉ l → filter (λ x, x ≠ d) l = l.
Proof.
  induction l as [|x l IH]; [done|]. rewrite not_elem_of_cons. intros [Hx Hl].
  rewrite filter_cons_True by congruence. by rewrite IH.
Qed.

Lemma filter_out_middle {A} `{EqDecision A} (l1 l2 : list A) d :
  NoDup (l1 ++ d :: l2) → filter (λ x, x ≠ d) (l1 ++ d :: l2) = l1 ++ l2.
Proof.
  intros [_ Hd]%NoDup_drop_middle. rewrite elem_of_app in Hd. rewrite filter_app, filter_cons_False by tauto.
  by rewrite !filter_out_absent by tauto.
Qed.

Lemma remove_step h nodes ls d :
  represents h nodes ls → d ∈ nodes →
  ∃ h', lws_dll_remove d h = Ok h' ∧ represents h' nodes (lists_step ls (Remove d)).
Proof.
  intros Hr Hd. cbn [lists_step].
  assert (∀ head l, ls !! head = Some l → d ∉ l → filter (λ x, x ≠ d) l = l) as Hid by (intros; by apply filter_out_absent).
  destruct (rp_free _ _ _ Hr d Hd) as [Hu|(head & l & El & Hdl)].
  - exists h. split; [by apply remove_unlinked|].
    assert ((filter (λ x, x ≠ d) <$> ls) = ls) as ->; [|done]. apply map_eq. intros k. rewrite lookup_fmap.
    destruct (ls !! k) as [l|] eqn:El; [|done]. cbn. f_equal. apply (Hid k); [done|].
    apply (unlinked_not_in h k); [by apply (rp_lists _ _ _ Hr)|done].
  - pose proof (rp_lists _ _ _ Hr _ _ El) as Hll. apply list_elem_of_split in Hdl as Hs. destruct Hs as (l1 & l2 & ->).
    destruct (remove_ok _ _ _ _ _ Hll) as (h' & E & Hl' & Ed & Hf). exists h'. split; [done|].
    pose proof Hll as [[_ Hnd]%NoDup_cons _].
    assert (∀ k l, (filter (λ x, x ≠ d) <$> ls) !! k = Some l ↔ ∃ l0, ls !! k = Some l0 ∧ l = filter (λ x, x ≠ d) l0) as Hlk.
    { intros k l. rewrite lookup_fmap. destruct (ls !! k) as [l0|]; cbn; [|naive_solver]. split; [intros [= <-]; by exists l0|].
      by intros (l1' & [= <-] & ->). }
    split.
    + intros k l (l0 & E0 & ->)%Hlk. destruct (decide (k = head)) as [->|Hne].
      * rewrite El in E0. injection E0 as <-. by rewrite filter_out_middle.
      * rewrite (Hid k) by (done || intros Hd0; apply Hne; symmetry; by apply (rp_one _ _ _ Hr head k (l1 ++ d :: l2) l0 d)).
        by apply (represents_other h h' nodes ls head (l1 ++ d :: l2) l0 k).
    + intros k l x (l0 & E0 & ->)%Hlk [_ Hx]%list_elem_of_filter. by apply (rp_nodes _ _ _ Hr k l0).
    + intros x Hx. rewrite lookup_fmap. by rewrite (rp_heads _ _ _ Hr x Hx).
    + intros k1 k2 l1' l2' x (m1 & E1 & ->)%Hlk (m2 & E2 & ->)%Hlk [_ Hx1]%list_elem_of_filter [_ Hx2]%list_elem_of_filter.
      by apply (rp_one _ _ _ Hr k1 k2 m1 m2 x).
    + intros x Hx. destruct (decide (x = d)) as [->|Hxd].
      { left. split; [by apply (dll_lookup h head _ d Hll); right|]. by exists NULL. }
      destruct (rp_free _ _ _ Hr x Hx) as [[Hx0 [nx Ex]]|(k & l & Ek & Hxl)].
      * left. split; [done|]. exists nx. rewrite Hf; [done|]. intros [->|Hx']%elem_of_cons.
        { by rewrite (rp_heads _ _ _ Hr _ Hx) in El. }
        destruct (represents_linked _ _ _ _ _ _ Hr El Hx') as (n & En & Hp). rewrite Ex in En. by injection En as <-.
      * right. exists k, (filter (λ x, x ≠ d) l). split; [apply Hlk; by exists l|]. by apply list_elem_of_filter.
Qed.

Lemma add_front_step h nodes ls d head :
  represents h nodes ls → d ∈ nodes → is_Some (ls !! head) →
  ∃ h', lws_dll_add_front d head h = Ok h' ∧ represents h' nodes (lists_step ls (AddFront d head)).
Proof.
  intros Hr Hd [l El]. cbn [lists_step]. case_bool_decide as Hin.
  - exists h. split; [|done]. destruct Hin as (k & l' & Ek & Hdl). destruct (represents_linked _ _ _ _ _ _ Hr Ek Hdl) as (n & En & Hp).
    unfold lws_dll_add_front. pose proof (rp_lists _ _ _ Hr _ _ Ek) as Hk.
    rewrite (load_ok h d n) by (first [done | by apply (dll_lookup h k l' d Hk); right]). cbn [mbind res_bind].
    by rewrite (proj2 (Z.eqb_neq _ _)).
  - destruct (rp_free _ _ _ Hr d Hd) as [Hu|(k & l' & Ek & Hdl)]; [|by destruct Hin; exists k, l'].
    pose proof (rp_lists _ _ _ Hr _ _ El) as Hl.
    assert (d ≠ head) as Hne by (intros ->; by rewrite (rp_heads _ _ _ Hr _ Hd) in El).
    destruct (add_front_ok h head l d Hl Hu Hne) as (h' & E & Hl' & Hf). exists h'. split; [done|].
    assert (∀ k m, alter (cons d) head ls !! k = Some m ↔ k = head ∧ m = d :: l ∨ k ≠ head ∧ ls !! k = Some m) as Hlk.
    { intros k m. destruct (decide (k = head)) as [->|Hk]; [rewrite lookup_alter_eq, El; cbn|rewrite lookup_alter_ne by done]; naive_solver. }
    assert (∀ k m, ls !! k = Some m → d ∉ m) as Hnd by (intros k m Ek Hdm; apply Hin; by exists k, m).
    split.
    + intros k m [[-> ->]|[Hk Ek]]%Hlk; [done|]. apply (dll_frame h); [|by apply (rp_lists _ _ _ Hr)].
      intros x Hx. apply Hf. rewrite !not_elem_of_cons. assert (ls !! d = None) by by apply (rp_heads _ _ _ Hr).
      apply elem_of_cons in Hx as [->|Hx].
      * split_and!; [done|congruence|]. intros Hx. assert (k ∈ nodes) as Hn by by apply (rp_nodes _ _ _ Hr head l).
        by rewrite (rp_heads _ _ _ Hr _ Hn) in Ek.
      * split_and!.
        -- intros ->. assert (head ∈ nodes) as Hn by by apply (rp_nodes _ _ _ Hr k m). by rewrite (rp_heads _ _ _ Hr _ Hn) in El.
        -- intros ->. by apply (Hnd k m).
        -- intros Hx'. apply Hk. by apply (rp_one _ _ _ Hr k head m l x).
    + intros k m x [[-> ->]|[Hk Ek]]%Hlk Hx; [|by apply (rp_nodes _ _ _ Hr k m)].
      apply elem_of_cons in Hx as [->|Hx]; [done|]. by apply (rp_nodes _ _ _ Hr head l).
    + intros x Hx. destruct (alter (cons d) head ls !! x) as [m|] eqn:Ex; [|done]. apply Hlk in Ex. pose proof (rp_heads _ _ _ Hr x Hx).
      destruct Ex as [[-> _]|[_ ?]]; congruence.
    + intros k1 k2 m1 m2 x [[-> ->]|[Hk1 E1]]%Hlk [[-> ->]|[Hk2 E2]]%Hlk Hx1 Hx2; [done|..].
      * apply elem_of_cons in Hx1 as [->|Hx1]; [by destruct (Hnd k2 m2)|]. by apply (rp_one _ _ _ Hr head k2 l m2 x).
      * apply elem_of_cons in Hx2 as [->|Hx2]; [by destruct (Hnd k1 m1)|]. by apply (rp_one _ _ _ Hr k1 head m1 l x).
      * by apply (rp_one _ _ _ Hr k1 k2 m1 m2 x).
    + intros x Hx. destruct (decide (x = d)) as [->|Hxd].
      { right. exists head, (d :: l). split; [apply Hlk; by left|by left]. }
      destruct (rp_free _ _ _ Hr x Hx) as [[Hx0 [nx Ex]]|(k & m & Ek & Hxm)].
      * left. split; [done|]. exists nx. rewrite Hf; [done|]. rewrite !not_elem_of_cons. split_and!; [|done|].
        -- intros ->. by rewrite (rp_heads _ _ _ Hr _ Hx) in El.
        -- intros Hx'. destruct (represents_linked _ _ _ _ _ _ Hr El Hx') as (n & En & Hp). rewrite Ex in En. by injection En as <-.
      * right. destruct (decide (k = head)) as [->|Hk].
        -- exists head, (d :: l). split; [apply Hlk; by left|]. right. rewrite El in Ek. by injection Ek as ->.
        -- exists k, m. split; [|done]. apply Hlk. by right.
Qed.

Fixpoint lists_run (ls : lists) (os : list dll_op) : lists :=
  match os with [] => ls | o :: os => lists_run (lists_step ls o) os end.

Lemma lists_step_dom ls o head : is_Some (ls !! head) → is_Some (lists_step ls o !! head).
Proof.
  intros [l El]. destruct o as [d k|d]; cbn [lists_step].
  - case_bool_decide; [by exists l|]. destruct (decide (head = k)) as [->|Hk]; [rewrite lookup_alter_eq, El|rewrite lookup_alter_ne, El by done]; by eexists.
  - rewrite lookup_fmap, El. by eexists.
Qed.

Lemma dll_legal_step nodes ls o o' : dll_legal nodes ls o' → dll_legal nodes (lists_step ls o) o'.
Proof. destruct o' as [d k|d]; cbn; [|done]. intros [Hd Hk]. split; [done|]. by apply lists_step_dom. Qed.

(** [C37] Any sequence of lws_dll_add_front and lws_dll_remove over some list
    heads and nodes never follows a NULL or dangling pointer, and leaves the
    lists that the same operations make of plain lists: a node goes to the
    front of the list unless it is in one already, a removed node leaves the
    list it is in, and every walk from a head meets exactly its nodes. *)
Theorem dll_refines_lists h nodes ls os
    (Hr : represents h nodes ls)
    (Hlegal : Forall (dll_legal nodes ls) os) :
  ∃ h', dll_run h os = Ok h' ∧ represents h' nodes (lists_run ls os)
    ∧ ∀ head l, lists_run ls os !! head = Some l →
        ∃ n, load h' head = Ok n ∧ walk (length l) h' (next n) = Ok l.
Proof.
  revert h ls Hr Hlegal. induction os as [|o os IH]; intros h ls Hr Hlegal.
  - exists h. split; [done|]. split; [done|]. intros head l El. pose proof (rp_lists _ _ _ Hr _ _ El) as Hl.
    destruct (dll_lookup _ _ _ head Hl) as (Hne & _); [by left|]. destruct Hl as [_ [q (_ & _ & nx & E & Hs)]].
    exists (Node NULL nx). split; [by apply load_ok|]. by apply (walk_seg _ _ _ _ _ _ Hs).
  - apply Forall_cons in Hlegal as [Ho Hos]. cbn [dll_run lists_run].
    assert (∃ h', dll_step h o = Ok h' ∧ represents h' nodes (lists_step ls o)) as (h' & -> & Hr').
    { destruct o as [d k|d]; [destruct Ho; by apply add_front_step|by apply remove_step]. }
    apply IH; [done|]. apply (Forall_impl _ _ _ Hos). intros o'. apply dll_legal_step.
Qed.

(** Two lists with heads 1 and 2 and three nodes in none of them. *)
Definition two_heads : heap :=
  list_to_map [(1, Node 0 0); (2, Node 0 0); (10, Node 0 0); (11, Node 0 0); (12, Node 0 0)].

Definition two_lists : lists := {[ 1 := []; 2 := [] ]}.

Lemma two_heads_represents : represents two_heads {[10; 11; 12]} two_lists.
Proof.
  assert (∀ head l, two_lists !! head = Some l → l = [] ∧ (head = 1 ∨ head = 2)) as Hl.
  { intros head l. unfold two_lists. rewrite lookup_insert, lookup_singleton. repeat case_decide; naive_solver. }
  split.
  - intros head l [-> [-> | ->]]%Hl; (split; [apply NoDup_singleton|]); [exists 1|exists 2]; (split; [done|split; [done|exists 0; by split]]).
  - by intros head l d [-> _]%Hl ?%elem_of_nil.
  - intros d Hd. destruct (two_lists !! d) as [l|] eqn:E; [|done]. apply Hl in E as [_ [-> | ->]]; set_solver.
  - by intros h1 h2 l1 l2 d [-> _]%Hl _ ?%elem_of_nil.
  - intros d Hd. left. assert (d = 10 ∨ d = 11 ∨ d = 12) as [-> | [-> | ->]] by set_solver; (split; [done|by exists 0]).
Qed.

Lemma dll_refines_lists_witness :
  let os := [AddFront 10 1; AddFront 11 1; AddFront 12 2; AddFront 11 2; Remove 10; AddFront 10 2] in
  represents two_heads {[10; 11; 12]} two_lists ∧ Forall (dll_legal {[10; 11; 12]} two_lists) os
  ∧ (lists_run two_lists os !! 1 = Some [11] ∧ lists_run two_lists os !! 2 = Some [10; 12])
  ∧ ∃ h', dll_run two_heads os = Ok h' ∧ represents h' {[10; 11; 12]} (lists_run two_lists os)
    ∧ ∀ head l, lists_run two_lists os !! head = Some l →
        ∃ n, load h' head = Ok n ∧ walk (length l) h' (next n) = Ok l.
Proof.
  intros os. pose proof two_heads_represents as Hr.
  assert (Forall (dll_legal {[10; 11; 12]} two_lists) os) as Hl by by_compute.
  split; [done|]. split; [done|]. split; [by vm_compute|].
  exact (dll_refines_lists two_heads {[10; 11; 12]} two_lists os Hr Hl).
Defined.
