(* ===== verification/Timers.v ===== *)
(** * Connection timers

    The microsecond timers of connections (core/libwebsockets.c):
    __lws_set_timer_usecs keeps the nodes dll_hrtimer of the connections that
    wait for a timer in a doubly linked list, earliest first, and
    __lws_hrtimer_service calls those that are due.

    A connection is the address of its node; [head] is the address of
    pt->dll_head_hrtimer.  gettimeofday() is a parameter, the microseconds at
    its [n]-th reading; so is what a protocol's callback for
    LWS_CALLBACK_TIMER does: the timers it sets and cancels, the connections it
    closes, and what it returns.  A connection that is closed is freed at once,
    as it is without an event library; under libuv its memory is only freed when
    the loop has closed its watcher. *)

From stdpp Require Import base numbers list gmap sorting.
From Stdlib Require Import ZArith Lia.
From S2P Require Import Prelude Dll.

Definition LWS_SET_TIMER_USEC_CANCEL : Z := -1.
Definition LWS_HRTIMER_NOWAIT : Z := 9223372036854775807.

Record hrtimers := HrTimers {
  dll_hrtimer : heap;             (** the nodes of the connections and the head *)
  pending_timer : gmap Z Z;       (** wsi->pending_timer *)
  readings : nat;                 (** how often the clock was read *)
  calls : nat;                    (** how many timer callbacks were made *)
}.

Definition set_dll (h : heap) (s : hrtimers) : hrtimers := HrTimers h (pending_timer s) (readings s) (calls s).

(** What a timer callback does to timers. *)
Inductive timer_call :=
  | SetTimer (wsi usecs : Z)      (** lws_set_timer_usecs *)
  | CloseConn (wsi : Z).          (** lws_set_timeout(wsi, ..., LWS_TO_KILL_SYNC) *)

Section hrtimers.
Context (head : Z) (clock : nat → Z) (on_timer : nat → Z → list timer_call * bool).

(** Where a timer for [t] goes: the last node seen, and whether it goes before it. *)
Fixpoint timer_place (fuel : nat) (s : hrtimers) (t dd d : Z) : res (Z * bool) :=
  if d =? NULL then Ok (dd, false)
  else
    match fuel with
    | O => Fault Unfinished
    | S f =>
        n ← load (dll_hrtimer s) d;
        match pending_timer s !! d with
        | None => Fault UseAfterFree
        | Some t1 => if t <=? t1 then Ok (d, true) else timer_place f s t d (next n)
        end
    end.

(** [wsi] goes before [dd]. *)
Definition link_before (wsi dd : Z) (h : heap) : res heap :=
  h ← set_next h wsi dd;
  n ← load h dd;
  h ← set_prev h wsi (prev n);
  h ← set_next h (prev n) wsi;
  set_prev h dd wsi.

(** [wsi] goes after [dd]. *)
Definition link_after (wsi dd : Z) (h : heap) : res heap :=
  n ← load h dd;
  h ← set_next h wsi (next n);
  h ← set_prev h wsi dd;
  h ← (if negb (next n =? NULL) then set_prev h (next n) wsi else Ok h);
  set_next h dd wsi.

Definition lws_set_timer_usecs (wsi usecs : Z) (s : hrtimers) : res hrtimers :=
  h ← lws_dll_remove wsi (dll_hrtimer s);
  if usecs =? LWS_SET_TIMER_USEC_CANCEL then Ok (set_dll h s)
  else
    let t := s64 (clock (readings s) + usecs) in
    let s := HrTimers h (<[wsi := t]> (pending_timer s)) (S (readings s)) (calls s) in
    first ← load h head;
    '(dd, bef) ← timer_place (size h) s t head (next first);
    h ← (if (bef : bool) then link_before wsi dd h else link_after wsi dd h);
    Ok (set_dll h s).

(** What __lws_close_free_wsi does to the timers when it frees the connection. *)
Definition close_timer (wsi : Z) (s : hrtimers) : res hrtimers :=
  h ← lws_dll_remove wsi (dll_hrtimer s);
  Ok (HrTimers (delete wsi h) (delete wsi (pending_timer s)) (readings s) (calls s)).

Definition timer_step (c : timer_call) (s : hrtimers) : res hrtimers :=
  match c with SetTimer wsi usecs => lws_set_timer_usecs wsi usecs s | CloseConn wsi => close_timer wsi s end.

Fixpoint timer_calls (cs : list timer_call) (s : hrtimers) : res hrtimers :=
  match cs with [] => Ok s | c :: cs => s ← timer_step c s; timer_calls cs s end.

(** The loop over the list; [t] is the time it started.  It returns the
    connections whose callback was called. *)
Fixpoint hrtimer_loop (fuel : nat) (t d : Z) (s : hrtimers) : res (list Z * hrtimers) :=
  if d =? NULL then Ok ([], s)
  else
    match fuel with
    | O => Fault Unfinished
    | S f =>
        n ← load (dll_hrtimer s) d;
        match pending_timer s !! d with
        | None => Fault UseAfterFree
        | Some t1 =>
            if t <? t1 then Ok ([], s)
            else
              s ← lws_set_timer_usecs d LWS_SET_TIMER_USEC_CANCEL s;
              let '(cs, bad) := on_timer (calls s) d in
              let s := HrTimers (dll_hrtimer s) (pending_timer s) (readings s) (S (calls s)) in
              s ← timer_calls cs s;
              s ← (if bad then close_timer d s else Ok s);
              '(fired, s) ← hrtimer_loop f t (next n) s;
              Ok (d :: fired, s)
        end
    end.

(** Who was called, and how long until the next timer. *)
Definition lws_hrtimer_service (s : hrtimers) : res (list Z * Z * hrtimers) :=
  let t := clock (readings s) in
  let s := HrTimers (dll_hrtimer s) (pending_timer s) (S (readings s)) (calls s) in
  first ← load (dll_hrtimer s) head;
  '(fired, s) ← hrtimer_loop (size (dll_hrtimer s)) t (next first) s;
  first ← load (dll_hrtimer s) head;
  if next first =? NULL then Ok (fired, LWS_HRTIMER_NOWAIT, s)
  else
    let t := clock (readings s) in
    let s := HrTimers (dll_hrtimer s) (pending_timer s) (S (readings s)) (calls s) in
    match pending_timer s !! next first with
    | None => Fault UseAfterFree
    | Some t1 => Ok (fired, if t1 <? t then 0 else t1 - t, s)
    end.

End hrtimers.

(** ** A list of timers, earliest first *)

(** When the timer of a connection runs out. *)
Definition due_at (s : hrtimers) (w : Z) : Z := default 0 (pending_timer s !! w).

(** [nodes] are the connections; those of [l] wait, in this order. *)
Record timers (head : Z) (nodes : gset Z) (s : hrtimers) (l : list Z) : Prop := {
  tm_dll : dll (dll_hrtimer s) head l;
  tm_sorted : StronglySorted (λ v w, due_at s v <= due_at s w) l;
  tm_times w : w ∈ l → is_Some (pending_timer s !! w);
  tm_nodes w : w ∈ l → w ∈ nodes;
  tm_free w : w ∈ nodes → w ≠ head ∧ (w ∈ l ∨ unlinked (dll_hrtimer s) w);
}.

(** The list with a timer for [t] added: before those that run out then. *)
Fixpoint place (s : hrtimers) (w t : Z) (l : list Z) : list Z :=
  match l with
  | [] => [w]
  | v :: l' => if t <=? due_at s v then w :: l else v :: place s w t l'
  end.

(** ** Lemmas: linking a node *)

Lemma link_after_ok h head l1 l2 L x w :
  dll h head (l1 ++ l2) → head :: l1 = L ++ [x] → w ∉ head :: l1 ++ l2 → w ≠ NULL → is_Some (h !! w) →
  ∃ h', link_after w x h = Ok h' ∧ dll h' head (l1 ++ w :: l2) ∧ ∀ a, a ∉ head :: l1 ++ w :: l2 → h' !! a = h !! a.
Proof.
  intros Hl E Hw Hw0 [nw Ew]. pose proof Hl as (Hn & L' & x' & m & q & c & E' & H1 & Hx & Ex & H2)%dll_split.
  rewrite E in E'. apply app_inj_tail in E' as [<- <-]. pose proof (seg_first _ _ _ _ _ H2) as [_ Hc].
  assert (x ∈ head :: l1) as Hxin by (rewrite E; apply elem_of_app; right; by left).
  assert (w ≠ x) as Hwx by (intros ->; apply Hw; change (head :: l1 ++ l2) with ((head :: l1) ++ l2); apply elem_of_app; by left).
  unfold link_after. rewrite (load_ok _ _ _ Hx Ex). cbn [mbind res_bind next]. rewrite (set_next_ok _ _ _ _ Hw0 Ew). cbn [mbind res_bind].
  rewrite (set_prev_ok _ _ (Node (prev nw) c)) by (first [done | by rewrite lookup_insert_eq]). cbn [mbind res_bind next]. rewrite insert_insert_eq.
  assert (∀ a, a ∉ head :: l1 ++ w :: l2 → a ≠ x ∧ a ≠ w ∧ (c ≠ NULL → a ≠ c)) as Hout.
  { intros a Ha. change (head :: l1 ++ w :: l2) with ((head :: l1) ++ w :: l2) in Ha.
    rewrite elem_of_app, !elem_of_cons in Ha. rewrite elem_of_cons in Hxin. split_and!; [intros ->; tauto..|]. intros Hc0 ->. destruct (Hc Hc0). tauto. }
  destruct (decide (c = NULL)) as [->|Hc0].
  - cbn [Z.eqb NULL negb mbind res_bind].
    rewrite (set_next_ok _ _ (Node m NULL)) by (first [done | by rewrite lookup_insert_ne by congruence]). cbn [prev].
    eexists. split; [done|]. split.
    + apply (dll_insert h _ head l1 l2 w L x m NULL); try done.
      * by rewrite lookup_insert_eq.
      * rewrite lookup_insert_ne by congruence. by rewrite lookup_insert_eq.
      * intros a Ha1 Ha2 _. by rewrite !lookup_insert_ne by congruence.
    + intros a (? & ? & _)%Hout. by rewrite !lookup_insert_ne by congruence.
  - destruct (Hc Hc0) as (Hcl & cn & Ec).
    assert (c ≠ w ∧ c ≠ x) as [Hcw Hcx].
    { split; intros ->.
      - apply Hw. right. apply elem_of_app. by right.
      - change (head :: l1 ++ l2) with ((head :: l1) ++ l2) in Hn. apply NoDup_app in Hn as (_ & Hn & _). by apply (Hn x). }
    rewrite (proj2 (Z.eqb_neq _ _)) by done. cbn [negb].
    rewrite (set_prev_ok _ _ (Node x cn)) by (first [done | by rewrite lookup_insert_ne by congruence]). cbn [mbind res_bind next].
    rewrite (set_next_ok _ _ (Node m c)) by (first [done | by rewrite !lookup_insert_ne by congruence]). cbn [prev].
    eexists. split; [done|]. split.
    + apply (dll_insert h _ head l1 l2 w L x m c); try done.
      * by rewrite lookup_insert_eq.
      * rewrite !lookup_insert_ne by congruence. by rewrite lookup_insert_eq.
      * intros _. exists (Node x cn). split; [done|]. rewrite lookup_insert_ne by congruence. by rewrite lookup_insert_eq.
      * intros a Ha1 Ha2 Ha3. by rewrite !lookup_insert_ne by congruence.
    + intros a (? & ? & ?)%Hout. by rewrite !lookup_insert_ne by (intros ->; tauto).
Qed.

Lemma link_before_ok h head l1 y l2 w :
  dll h head (l1 ++ y :: l2) → w ∉ head :: l1 ++ y :: l2 → w ≠ NULL → is_Some (h !! w) →
  ∃ h', link_before w y h = Ok h' ∧ dll h' head (l1 ++ w :: y :: l2)
    ∧ ∀ a, a ∉ head :: l1 ++ w :: y :: l2 → h' !! a = h !! a.
Proof.
  intros Hl Hw Hw0 [nw Ew]. pose proof Hl as (Hn & Hy & L & x & m & q & c & E & H1 & Hx & Ex & Ey & H2)%dll_at.
  change (head :: l1 ++ y :: l2) with ((head :: l1) ++ y :: l2) in Hw, Hn. rewrite E in Hw, Hn.
  rewrite !elem_of_app, elem_of_cons in Hw.
  assert (w ≠ x ∧ w ≠ y) as [Hwx Hwy] by (split; intros ->; rewrite elem_of_cons in Hw; tauto).
  assert (x ≠ y) as Hxy.
  { intros ->. apply NoDup_app in Hn as (_ & Hn & _). apply (Hn y); [apply elem_of_app; right|]; by left. }
  unfold link_before. rewrite (set_next_ok _ _ _ _ Hw0 Ew). cbn [mbind res_bind].
  rewrite (load_ok _ _ (Node x c)) by (first [done | by rewrite lookup_insert_ne by congruence]). cbn [mbind res_bind prev].
  rewrite (set_prev_ok _ _ (Node (prev nw) y)) by (first [done | by rewrite lookup_insert_eq]). cbn [mbind res_bind next]. rewrite insert_insert_eq.
  rewrite (set_next_ok _ _ (Node m y)) by (first [done | by rewrite lookup_insert_ne by congruence]). cbn [mbind res_bind prev].
  rewrite (set_prev_ok _ _ (Node x c)) by (first [done | by rewrite !lookup_insert_ne by congruence]). cbn [next].
  eexists. split; [done|]. split.
  - apply (dll_insert h _ head l1 (y :: l2) w L x m y); try done.
    + change (head :: l1 ++ y :: l2) with ((head :: l1) ++ y :: l2). rewrite E, !elem_of_app, elem_of_cons. tauto.
    + rewrite lookup_insert_ne by congruence. by rewrite lookup_insert_eq.
    + rewrite !lookup_insert_ne by congruence. by rewrite lookup_insert_eq.
    + intros _. exists (Node x c). split; [done|]. by rewrite lookup_insert_eq.
    + intros a Ha1 Ha2 Ha3. by rewrite !lookup_insert_ne by congruence.
  - intros a Ha. change (head :: l1 ++ w :: y :: l2) with ((head :: l1) ++ w :: y :: l2) in Ha.
    rewrite E, !elem_of_app, !elem_of_cons in Ha. by rewrite !lookup_insert_ne by (intros ->; tauto).
Qed.

(** ** Lemmas: setting a timer *)

Lemma timer_place_spec s w t fuel p d l q :
  seg (dll_hrtimer s) p d l q NULL → (∀ v, v ∈ l → is_Some (pending_timer s !! v)) → (length l ≤ fuel)%nat →
  ∃ l1 l2, l = l1 ++ l2 ∧ place s w t l = l1 ++ w :: l2
    ∧ match l2 with
      | [] => ∃ L x, p :: l1 = L ++ [x] ∧ timer_place fuel s t p d = Ok (x, false)
      | y :: _ => timer_place fuel s t p d = Ok (y, true)
      end.
Proof.
  revert p d fuel. induction l as [|v l IH]; intros p d fuel Hs Ht Hf.
  - destruct Hs as [-> ->]. exists [], []. split; [done|]. split; [done|]. exists [], q. by destruct fuel.
  - destruct Hs as (-> & Hv & nx & E & Hs). destruct fuel as [|fuel]; [cbn in Hf; lia|]. cbn [place timer_place].
    rewrite (proj2 (Z.eqb_neq _ _)) by done. rewrite (load_ok _ _ _ Hv E). cbn [mbind res_bind next].
    destruct (Ht v) as [t1 Et]; [by left|]. unfold due_at. rewrite Et. cbn [default from_option id].
    destruct (Z.leb_spec t t1); [by exists [], (v :: l)|].
    destruct (IH v nx fuel Hs) as (l1 & l2 & -> & -> & H2); [intros; apply Ht; by right|cbn in Hf; lia|].
    exists (v :: l1), l2. split; [done|]. split; [done|]. destruct l2 as [|y l2]; [|done].
    destruct H2 as (L & x & -> & H2). by exists (p :: L), x.
Qed.

Lemma place_app s w t l : ∃ l1 l2, l = l1 ++ l2 ∧ place s w t l = l1 ++ w :: l2
  ∧ Forall (λ v, due_at s v < t) l1 ∧ (∀ y r, l2 = y :: r → t <= due_at s y).
Proof.
  induction l as [|v l (l1 & l2 & -> & E & H1 & H2)]; [by exists [], []|]. cbn [place].
  destruct (Z.leb_spec t (due_at s v)); [exists [], (v :: l1 ++ l2); split_and!; [done..|]; by intros y r [= <- _]|].
  exists (v :: l1), l2. rewrite E. split_and!; [done..| |done]. by constructor.
Qed.

Lemma place_sorted s w t l :
  StronglySorted (λ v w, due_at s v <= due_at s w) l → due_at s w = t →
  StronglySorted (λ v w, due_at s v <= due_at s w) (place s w t l).
Proof.
  intros Hs <-. induction Hs as [|v l Hs IH Hv]; cbn [place]; [by repeat constructor|].
  destruct (Z.leb_spec (due_at s w) (due_at s v)).
  - constructor; [by constructor|]. constructor; [done|]. apply (Forall_impl _ _ _ Hv). intros; lia.
  - constructor; [done|]. destruct (place_app s w (due_at s w) l) as (l1 & l2 & -> & -> & _).
    rewrite Forall_app in Hv |- *. destruct Hv. split; [done|]. constructor; [lia|done].
Qed.

(** Times of other connections do not matter. *)
Lemma sorted_ext (f g : Z → Z) l : (∀ v, v ∈ l → f v = g v) →
  StronglySorted (λ v w, f v <= f w) l → StronglySorted (λ v w, g v <= g w) l.
Proof.
  intros H Hs. induction Hs as [|v l Hs IH Hv]; [constructor|]. constructor; [apply IH; intros; apply H; by right|].
  rewrite Forall_forall in Hv |- *. intros w Hw. rewrite <- !H by (by left || by right). by apply Hv.
Qed.

Lemma sorted_drop (R : Z → Z → Prop) l1 x l2 : StronglySorted R (l1 ++ x :: l2) → StronglySorted R (l1 ++ l2).
Proof.
  induction l1 as [|v l1 IH]; cbn [app]; [by inversion 1|]. inversion 1 as [|? ? Hs Hv]. subst. constructor; [by apply IH|].
  rewrite Forall_app, Forall_cons in Hv. apply Forall_app. tauto.
Qed.

(** What is due comes first. *)
Lemma sorted_split (f : Z → Z) t l : StronglySorted (λ v w, f v <= f w) l →
  ∃ others, l = filter (λ v, f v <= t) l ++ others ∧ Forall (λ v, t < f v) others.
Proof.
  intros Hs. induction Hs as [|v l Hs (others & E & Ho) Hv]; [by exists []|].
  destruct (decide (f v <= t)) as [Hle|Hgt].
  - exists others. rewrite filter_cons_True by done. cbn [app]. by rewrite <- E.
  - exists (v :: l). assert (Forall (λ v, t < f v) l) as Hl by (apply (Forall_impl _ _ _ Hv); intros; lia).
    split; [|constructor; [lia|done]]. rewrite filter_cons_False by done.
    clear -Hl. assert (filter (λ v, f v <= t) l = []) as ->; [|done].
    induction Hl as [|x l Hx Hl IH]; [done|]. by rewrite filter_cons_False by lia.
Qed.

(** Taking a connection out of the list: what cancelling a timer and closing
    a connection begin with. *)
Lemma timer_remove head nodes s l w :
  timers head nodes s l → w ∈ nodes →
  ∃ h, lws_dll_remove w (dll_hrtimer s) = Ok h ∧ unlinked h w
    ∧ timers head nodes (set_dll h s) (filter (λ v, v ≠ w) l).
Proof.
  intros [Hd Hs Ht Hn Hf] Hw. destruct (Hf w Hw) as [Hh [Hin|Hu]].
  - apply list_elem_of_split in Hin as (l1 & l2 & ->). destruct (remove_ok _ _ _ _ _ Hd) as (h & E & Hd' & Ew & Hfr).
    exists h. split; [done|]. destruct (dll_lookup _ _ _ w Hd) as [Hw0 _]; [right; apply elem_of_app; right; by left|].
    assert (unlinked h w) as Hu by (split; [done|]; by exists NULL). split; [done|].
    pose proof Hd as [[_ Hnd]%NoDup_cons _]. rewrite filter_out_middle by done.
    assert (∀ v, v ∈ l1 ++ l2 → v ∈ l1 ++ w :: l2) as Hsub by (intros v; rewrite !elem_of_app, elem_of_cons; tauto).
    split; cbn [set_dll dll_hrtimer pending_timer]; [done|by apply sorted_drop in Hs|by auto..|].
    intros v Hv. destruct (Hf v Hv) as [Hvh Hv']. split; [done|]. destruct (decide (v = w)) as [->|Hne]; [by right|].
    destruct Hv' as [Hv'|[Hv0 [nx Ev]]]; [left; rewrite elem_of_app, elem_of_cons in Hv'; rewrite elem_of_app; tauto|].
    right. split; [done|]. exists nx. rewrite Hfr; [done|]. intros [->|Hin]%elem_of_cons; [done|].
    by apply (unlinked_not_in _ _ _ v Hd); [split; [done|]; exists nx|].
  - exists (dll_hrtimer s). split; [by apply remove_unlinked|]. split; [done|].
    rewrite filter_out_absent by by apply (unlinked_not_in _ _ _ _ Hd). by destruct s.
Qed.

Lemma place_ext s s' w t l : (∀ v, v ∈ l → due_at s v = due_at s' v) → place s w t l = place s' w t l.
Proof.
  intros H. induction l as [|v l IH]; [done|]. cbn [place]. rewrite (H v) by by left. rewrite IH; [done|]. intros; apply H; by right.
Qed.

Lemma place_elem s w t l v : v ∈ place s w t l ↔ v = w ∨ v ∈ l.
Proof.
  destruct (place_app s w t l) as (l1 & l2 & -> & -> & _). rewrite !elem_of_app, elem_of_cons. tauto.
Qed.

Section lemmas.
Context (head : Z) (clock : nat → Z) (on_timer : nat → Z → list timer_call * bool) (nodes : gset Z).

#[local] Abbreviation timers := (timers head nodes).
#[local] Abbreviation lws_set_timer_usecs := (lws_set_timer_usecs head clock).

Lemma cancel_ok s l w : timers s l → w ∈ nodes →
  ∃ h, lws_set_timer_usecs w LWS_SET_TIMER_USEC_CANCEL s = Ok (set_dll h s) ∧ timers (set_dll h s) (filter (λ v, v ≠ w) l)
    ∧ unlinked h w.
Proof.
  intros Ht Hw. destruct (timer_remove _ _ _ _ _ Ht Hw) as (h & E & Hu & Ht'). exists h. unfold Timers.lws_set_timer_usecs.
  rewrite E. by rewrite res_bind_ok.
Qed.

(** A timer that is set goes to its place among the others. *)
Lemma set_timer_ok s l w us :
  timers s l → w ∈ nodes → us ≠ LWS_SET_TIMER_USEC_CANCEL → LONG_MIN <= clock (readings s) + us <= LONG_MAX →
  ∃ s', lws_set_timer_usecs w us s = Ok s'
    ∧ timers s' (place s w (clock (readings s) + us) (filter (λ v, v ≠ w) l))
    ∧ pending_timer s' = <[w := clock (readings s) + us]> (pending_timer s) ∧ readings s' = S (readings s) ∧ calls s' = calls s.
Proof.
  intros Ht Hw Hus Hr. destruct (timer_remove _ _ _ _ _ Ht Hw) as (h & E & Hu & Ht1). unfold Timers.lws_set_timer_usecs.
  rewrite E, res_bind_ok, (proj2 (Z.eqb_neq _ _)) by done.
  assert (s64 (clock (readings s) + us) = clock (readings s) + us) as ->.
  { unfold s64, LONG_MIN, LONG_MAX in *. rewrite Z.mod_small by lia. lia. }
  set (t := clock (readings s) + us) in *. cbv zeta. set (l' := filter (λ v, v ≠ w) l) in *.
  set (s1 := HrTimers h (<[w := t]> (pending_timer s)) (S (readings s)) (calls s)).
  destruct Ht1 as [Hd Hs Htm Hn Hf]. cbn [set_dll dll_hrtimer pending_timer] in Hd, Hs, Htm, Hf.
  assert (w ∉ l') as Hwl by by apply (unlinked_not_in h head).
  destruct (Hf w Hw) as [Hwh _]. pose proof Hu as [Hw0 [nw Ew]].
  assert (∀ v, v ∈ l' → due_at s v = due_at s1 v) as Hdue.
  { intros v Hv. unfold due_at. cbn [s1 pending_timer]. rewrite lookup_insert_ne by (intros ->; done). done. }
  destruct (dll_lookup _ _ _ head Hd) as [Hh0 _]; [by left|]. pose proof Hd as [_ (q & _ & _ & nx & Eh & Hseg)].
  rewrite (load_ok _ _ _ Hh0 Eh), res_bind_ok. cbn [next].
  destruct (timer_place_spec s1 w t (size h) head nx l' q) as (l1 & l2 & El & Epl & H2); [done| |pose proof (dll_size _ _ _ Hd); lia|].
  { intros v Hv. cbn [s1 pending_timer]. rewrite lookup_insert_ne by (intros ->; done). by apply Htm. }
  assert (w ∉ head :: l') as Hwn by (rewrite not_elem_of_cons; by split).
  assert (∃ h', ('(dd, bef) ← timer_place (size h) s1 t head nx; h0 ← (if (bef : bool) then link_before w dd h else link_after w dd h); Ok (set_dll h0 s1))
                  = Ok (set_dll h' s1) ∧ dll h' head (l1 ++ w :: l2) ∧ ∀ a, a ∉ head :: l1 ++ w :: l2 → h' !! a = h !! a) as (h' & -> & Hd' & Hfr).
  { rewrite El in *. destruct l2 as [|y l2].
    - destruct H2 as (L & x & EL & ->). rewrite res_bind_ok. destruct (link_after_ok h head l1 [] L x w) as (h' & -> & Hh); [done..|by eexists|]. by exists h'.
    - rewrite H2, res_bind_ok. destruct (link_before_ok h head l1 y l2 w) as (h' & -> & Hh); [done..|by eexists|]. by exists h'. }
  eexists. split; [done|]. split; [|done]. rewrite (place_ext s s1), Epl by done.
  assert (∀ v, v ∈ l1 ++ w :: l2 ↔ v = w ∨ v ∈ l') as Hel by (intros v; rewrite <- Epl; apply place_elem).
  split; cbn [set_dll dll_hrtimer pending_timer s1].
  - done.
  - rewrite <- Epl. change (StronglySorted (λ v w0, due_at s1 v <= due_at s1 w0) (place s1 w t l')). apply place_sorted.
    + by apply (sorted_ext (due_at s)).
    + unfold due_at. cbn [s1 pending_timer]. by rewrite lookup_insert_eq.
  - intros v [->|Hv]%Hel; [by rewrite lookup_insert_eq; eexists|]. rewrite lookup_insert_ne by (intros ->; done). by apply Htm.
  - intros v [->|Hv]%Hel; [done|]. by apply Hn.
  - intros v Hv. destruct (Hf v Hv) as [Hvh Hv']. split; [done|]. destruct (decide (v = w)) as [->|Hne]; [left; apply Hel; by left|].
    destruct Hv' as [Hv'|[Hv0 [nv Ev]]]; [left; apply Hel; by right|]. right. split; [done|]. exists nv. rewrite Hfr; [done|].
    rewrite not_elem_of_cons, Hel. split; [done|]. intros [->|Hin]; [done|].
    apply (unlinked_not_in _ _ _ v Hd); [split; [done|]; by exists nv|done].
Qed.

Lemma close_timer_ok s l w : timers s l → w ∈ nodes →
  ∃ s', close_timer w s = Ok s' ∧ Timers.timers head (nodes ∖ {[w]}) s' (filter (λ v, v ≠ w) l)
    ∧ pending_timer s' = delete w (pending_timer s) ∧ readings s' = readings s ∧ calls s' = calls s.
Proof.
  intros Ht Hw. destruct (timer_remove _ _ _ _ _ Ht Hw) as (h & E & Hu & [Hd Hs Htm Hn Hf]). unfold close_timer.
  rewrite E, res_bind_ok. eexists. split; [done|]. split; [|done]. cbn [set_dll dll_hrtimer pending_timer] in *.
  assert (w ∉ filter (λ v, v ≠ w) l) as Hwl by by intros [? _]%list_elem_of_filter.
  destruct (Hf w Hw) as [Hwh _].
  split; cbn [dll_hrtimer pending_timer].
  - apply (dll_frame h); [|done]. intros x Hx. apply lookup_delete_ne. intros ->. by apply elem_of_cons in Hx as [?|?].
  - apply (sorted_ext (due_at (set_dll h s))); [|done]. intros v Hv. unfold due_at. cbn [set_dll pending_timer].
    rewrite lookup_delete_ne; [done|]. by intros ->.
  - intros v Hv. rewrite lookup_delete_ne by (by intros ->). by apply Htm.
  - intros v Hv. apply elem_of_difference. split; [by apply Hn|]. rewrite elem_of_singleton. by intros ->.
  - intros v [Hv Hvw]%elem_of_difference. rewrite elem_of_singleton in Hvw. destruct (Hf v Hv) as [Hvh Hv']. split; [done|].
    destruct Hv' as [?|[Hv0 [nx Ev]]]; [by left|]. right. split; [done|]. exists nx. by rewrite lookup_delete_ne by congruence.
Qed.

(** A timer for later goes behind the ones that are due. *)
Lemma place_later s w t tt dues others :
  Forall (λ v, due_at s v <= t) dues → t < tt → place s w tt (dues ++ others) = dues ++ place s w tt others.
Proof.
  intros Hd Ht. induction Hd as [|v dues Hv Hd IH]; [done|]. cbn [app place]. rewrite (proj2 (Z.leb_gt _ _)) by lia. by rewrite IH.
Qed.

End lemmas.

(** ** The service of the timers *)

(** A call that a timer callback may make while [dues] still wait for their
    turn: it cancels, or sets for later, a timer of none of them. *)
Definition polite_call (nodes : gset Z) (dues : list Z) (c : timer_call) : bool :=
  match c with
  | SetTimer w us =>
      bool_decide (w ∈ nodes ∧ w ∉ dues) && ((us =? LWS_SET_TIMER_USEC_CANCEL) || (0 <? us) && (us <=? 2 ^ 62))
  | CloseConn _ => false
  end.

(** The callbacks of [dues], the first one numbered [c]; a connection whose
    callback fails is closed and not named any more. *)
Fixpoint polite (on_timer : nat → Z → list timer_call * bool) (c : nat) (nodes : gset Z) (dues : list Z) : bool :=
  match dues with
  | [] => true
  | w :: dues =>
      forallb (polite_call nodes dues) (on_timer c w).1
      && polite on_timer (S c) (if (on_timer c w).2 then nodes ∖ {[w]} else nodes) dues
  end.

(** The connections left when the callbacks of [dues] were called. *)
Fixpoint survivors (on_timer : nat → Z → list timer_call * bool) (c : nat) (nodes : gset Z) (dues : list Z) : gset Z :=
  match dues with
  | [] => nodes
  | w :: dues => survivors on_timer (S c) (if (on_timer c w).2 then nodes ∖ {[w]} else nodes) dues
  end.

Section service.
Context (head : Z) (clock : nat → Z) (on_timer : nat → Z → list timer_call * bool).
Context (Hclock : ∀ n m, (n ≤ m)%nat → 0 <= clock n <= clock m) (Hmax : ∀ n, clock n < 2 ^ 62).

Lemma calls_polite nodes t dues others cs s :
  timers head nodes s (dues ++ others) → Forall (λ v, due_at s v <= t) dues → Forall (λ v, t < due_at s v) others →
  forallb (polite_call nodes dues) cs = true → t <= clock (readings s) →
  ∃ s' others', timer_calls head clock cs s = Ok s' ∧ timers head nodes s' (dues ++ others')
    ∧ Forall (λ v, due_at s' v <= t) dues ∧ Forall (λ v, t < due_at s' v) others' ∧ calls s' = calls s
    ∧ (readings s ≤ readings s')%nat
    ∧ ∀ v, t < due_at s v → t < due_at s' v ∧ (is_Some (pending_timer s !! v) → is_Some (pending_timer s' !! v)).
Proof.
  revert s others. induction cs as [|c cs IH]; intros s others Ht Hdue Hoth Hcs Hc.
  { exists s, others. by split_and!. }
  cbn [forallb] in Hcs. apply andb_prop in Hcs as [Hpc Hcs]. destruct c as [w us|w]; [|done]. cbn [polite_call] in Hpc.
  apply andb_prop in Hpc as [[Hw Hwd]%bool_decide_eq_true Hus]. cbn [timer_calls timer_step].
  assert (filter (λ v, v ≠ w) (dues ++ others) = dues ++ filter (λ v, v ≠ w) others) as Efil.
  { rewrite filter_app, (filter_out_absent dues) by done. done. }
  assert (Forall (λ v, t < due_at s v) (filter (λ v, v ≠ w) others)) as Hoth1.
  { rewrite Forall_forall in Hoth |- *. intros v [_ Hv]%list_elem_of_filter. by apply Hoth. }
  apply orb_prop in Hus as [->%Z.eqb_eq|[H0 H1]%andb_prop].
  - destruct (cancel_ok head clock nodes s _ w Ht Hw) as (h & -> & Ht1 & _). rewrite res_bind_ok. rewrite Efil in Ht1.
    exact (IH (set_dll h s) _ Ht1 Hdue Hoth1 Hcs Hc).
  - apply Z.ltb_lt in H0. apply Z.leb_le in H1. pose proof (Hmax (readings s)). pose proof (Hclock (readings s) (readings s) ltac:(done)).
    destruct (set_timer_ok head clock nodes s _ w us Ht Hw) as (s1 & -> & Ht1 & Ep & Er & Ec).
    { unfold LWS_SET_TIMER_USEC_CANCEL. lia. }
    { unfold LONG_MIN, LONG_MAX. lia. }
    rewrite res_bind_ok. rewrite Efil, (place_later s w t) in Ht1 by (done || lia).
    set (tt := clock (readings s) + us) in *.
    assert (∀ v, due_at s1 v = if decide (v = w) then tt else due_at s v) as Hd1.
    { intros v. unfold due_at. rewrite Ep. destruct (decide (v = w)) as [->|Hne]; [by rewrite lookup_insert_eq|]. by rewrite lookup_insert_ne by congruence. }
    destruct (IH s1 _ Ht1) as (s' & others' & -> & Ht' & Hdue' & Hoth' & Ec' & Er' & Hv').
    + rewrite Forall_forall in Hdue |- *. intros v Hv. rewrite Hd1, decide_False by (intros ->; done). by apply Hdue.
    + rewrite Forall_forall in Hoth1 |- *. intros v [->|Hv]%place_elem; [rewrite Hd1, decide_True by done; lia|].
      rewrite Hd1. case_decide; [lia|]. by apply Hoth1.
    + done.
    + rewrite Er. pose proof (Hclock (readings s) (S (readings s)) ltac:(lia)). lia.
    + exists s', others'. split; [done|]. split; [done|]. split; [done|]. split; [done|]. split; [congruence|]. split; [lia|].
      intros v Hv. assert (t < due_at s1 v) as Hv1 by (rewrite Hd1; case_decide; lia). destruct (Hv' v Hv1) as [Hlt2 Hsome2]. split; [done|].
      intros Hsome. apply Hsome2. rewrite Ep. destruct (decide (v = w)) as [->|Hne]; [rewrite lookup_insert_eq; by eexists|by rewrite lookup_insert_ne by congruence].
Qed.

(** The node the loop goes on with when all that were due were called: none,
    or a connection whose timer is for later. *)
Definition beyond (nodes : gset Z) (s : hrtimers) (t d : Z) : Prop :=
  d = NULL ∨ d ∈ nodes ∧ is_Some (pending_timer s !! d) ∧ t < due_at s d.

Lemma timers_load nodes s l d : timers head nodes s l → d ∈ nodes → d ≠ NULL ∧ ∃ n, dll_hrtimer s !! d = Some n.
Proof.
  intros Ht Hd. destruct (tm_free _ _ _ _ Ht d Hd) as [_ [Hin|[H0 [nx E]]]]; [|split; [done|by eexists]].
  apply (dll_lookup _ _ _ d (tm_dll _ _ _ _ Ht)). by right.
Qed.

(** What follows the first node of a list. *)
Lemma dll_second h w l : dll h head (w :: l) → w ≠ NULL ∧ ∃ p nx, h !! w = Some (Node p nx) ∧ nx = default NULL (hd_error l).
Proof.
  intros [_ (q & _ & _ & nx0 & _ & -> & Hw & nx & E & Hs)]. split; [done|]. exists head, nx. split; [done|].
  destruct l as [|x l]; [by destruct Hs as [-> _]|]. by destruct Hs as [-> _].
Qed.

Lemma loop_fires dues : ∀ nodes t others fuel d s,
  timers head nodes s (dues ++ others) → Forall (λ v, due_at s v <= t) dues → Forall (λ v, t < due_at s v) others →
  polite on_timer (calls s) nodes dues = true → t <= clock (readings s) → (length dues < fuel)%nat →
  (match dues with [] => beyond nodes s t d | w :: _ => d = w end) →
  ∃ s' others', hrtimer_loop head clock on_timer fuel t d s = Ok (dues, s')
    ∧ timers head (survivors on_timer (calls s) nodes dues) s' others' ∧ Forall (λ v, t < due_at s' v) others'
    ∧ (readings s ≤ readings s')%nat ∧ calls s' = (calls s + length dues)%nat.
Proof.
  induction dues as [|w dues IH]; intros nodes t others fuel d s Ht Hdue Hoth Hpol Hc Hfuel Hd; (destruct fuel as [|fuel]; [cbn in Hfuel; lia|]).
  - exists s, others. split; [|by rewrite Nat.add_0_r]. cbn [hrtimer_loop]. destruct Hd as [->|(Hd & [t1 Et] & Hlt)]; [done|].
    destruct (timers_load _ _ _ _ Ht Hd) as (Hd0 & n & En). rewrite (proj2 (Z.eqb_neq _ _)) by done.
    rewrite (load_ok _ _ _ Hd0 En), res_bind_ok, Et. unfold due_at in Hlt. rewrite Et in Hlt. by rewrite (proj2 (Z.ltb_lt _ _)) by exact Hlt.
  - subst d. cbn [app] in Ht. cbn [hrtimer_loop polite survivors] in *. apply andb_prop in Hpol as [Hpc Hpol].
    destruct (dll_second _ _ _ (tm_dll _ _ _ _ Ht)) as (Hw0 & p & nx & Ew & Enx).
    assert (w ∈ nodes) as Hw by (apply (tm_nodes _ _ _ _ Ht); by left).
    destruct (tm_times _ _ _ _ Ht w) as [t1 Et]; [by left|]. apply Forall_cons in Hdue as [Hwt Hdue].
    rewrite (proj2 (Z.eqb_neq _ _)) by done. rewrite (load_ok _ _ _ Hw0 Ew), res_bind_ok, Et. cbn [next].
    unfold due_at in Hwt. rewrite Et in Hwt. cbn [default from_option id] in Hwt. rewrite (proj2 (Z.ltb_ge _ _)) by done.
    destruct (cancel_ok head clock nodes s _ w Ht Hw) as (h & -> & Ht1 & _). rewrite res_bind_ok.
    pose proof (tm_dll _ _ _ _ Ht) as [[_ [Hwl _]%NoDup_cons]%NoDup_cons _].
    rewrite filter_cons_False, filter_out_absent in Ht1 by (done || tauto).
    change (calls (set_dll h s)) with (calls s). destruct (on_timer (calls s) w) as [cs bad]. cbn [fst snd] in *.
    set (s1 := HrTimers (dll_hrtimer (set_dll h s)) (pending_timer (set_dll h s)) (readings (set_dll h s)) (S (calls s))).
    assert (timers head nodes s1 (dues ++ others)) as Ht1' by (destruct Ht1; by split).
    destruct (calls_polite nodes t dues others cs s1 Ht1' Hdue Hoth Hpc Hc) as (s2 & others2 & -> & Ht2 & Hdue2 & Hoth2 & Ec2 & Er2 & Hv2).
    rewrite res_bind_ok.
    assert (∃ s3 others3, (if bad then close_timer w s2 else Ok s2) = Ok s3
      ∧ timers head (if bad then nodes ∖ {[w]} else nodes) s3 (dues ++ others3) ∧ calls s3 = calls s2 ∧ readings s3 = readings s2
      ∧ Forall (λ v, t < due_at s3 v) others3 ∧ ∀ v, v ≠ w → pending_timer s3 !! v = pending_timer s2 !! v)
      as (s3 & others3 & -> & Ht3 & Ec3 & Er3 & Hoth3 & Hp3).
    { destruct bad; [|by exists s2, others2]. destruct (close_timer_ok head nodes s2 _ w Ht2 Hw) as (s3 & -> & Ht3 & Ep3 & Er3 & Ec3).
      rewrite filter_app, (filter_out_absent dues) in Ht3 by (rewrite elem_of_app in Hwl; tauto).
      assert (∀ v, v ≠ w → pending_timer s3 !! v = pending_timer s2 !! v) as Hp3 by (intros v Hv; rewrite Ep3; by apply lookup_delete_ne).
      exists s3, (filter (λ v, v ≠ w) others2). split_and!; try done. rewrite Forall_forall in Hoth2 |- *.
      intros v [Hv Hin]%list_elem_of_filter. unfold due_at. rewrite Hp3 by done. by apply Hoth2. }
    rewrite res_bind_ok. replace (S (calls s)) with (calls s3) in * by (rewrite Ec3, Ec2; done).
    destruct (IH _ t others3 fuel nx s3 Ht3) as (s' & others' & -> & Ht' & Hoth' & Er' & Ec').
    + rewrite Forall_forall in Hdue2 |- *. intros v Hv. unfold due_at. rewrite Hp3; [by apply Hdue2|]. intros ->. apply Hwl. apply elem_of_app. by left.
    + done.
    + done.
    + rewrite Er3. pose proof (Hclock (readings s) (readings s2) Er2). lia.
    + cbn in Hfuel. lia.
    + subst nx. destruct dues as [|x dues]; [|done]. cbn [app] in *. destruct others as [|o others]; [by left|]. right. cbn [hd_error default from_option id].
      assert (o ≠ w) as How by (intros ->; apply Hwl; by left).
      assert (o ∈ nodes) as Ho by (apply (tm_nodes _ _ _ _ Ht); right; by left).
      assert (t < due_at s1 o) as Hlt by by apply Forall_cons in Hoth as [? _].
      destruct (Hv2 o Hlt) as [Hlt2 Hsome]. split; [destruct bad; [apply elem_of_difference; split; [done|by rewrite elem_of_singleton]|done]|].
      unfold due_at. rewrite Hp3 by done. split; [|exact Hlt2]. apply Hsome. apply (tm_times _ _ _ _ Ht1'). by left.
    + exists s', others'. rewrite res_bind_ok. split; [done|]. split; [done|]. split; [done|]. split; [rewrite Er3 in Er'; cbn [s1 readings set_dll] in Er2; lia|].
      rewrite Ec'. cbn [length]. rewrite Ec3, Ec2. cbn [s1 calls]. lia.
Qed.

End service.

(** ** What the timers promise *)

(** The armed timers as a map, [n] the number of clock readings. *)
Definition armed_step (clock : nat → Z) (nT : nat * gmap Z Z) (c : timer_call) : nat * gmap Z Z :=
  let '(n, T) := nT in
  match c with
  | SetTimer w us =>
      if us =? LWS_SET_TIMER_USEC_CANCEL then (n, delete w T) else (S n, <[w := clock n + us]> T)
  | CloseConn w => (n, delete w T)
  end.

(** Calls on connections that are not closed. *)
Fixpoint live_calls (nodes : gset Z) (cs : list timer_call) : bool :=
  match cs with
  | [] => true
  | SetTimer w us :: cs => bool_decide (w ∈ nodes) && (- 2 ^ 62 <=? us) && (us <=? 2 ^ 62) && live_calls nodes cs
  | CloseConn w :: cs => bool_decide (w ∈ nodes) && live_calls (nodes ∖ {[w]}) cs
  end.

Fixpoint live_after (nodes : gset Z) (cs : list timer_call) : gset Z :=
  match cs with
  | [] => nodes
  | SetTimer _ _ :: cs => live_after nodes cs
  | CloseConn w :: cs => live_after (nodes ∖ {[w]}) cs
  end.

(** The list [l] holds the armed timers. *)
Definition armed (s : hrtimers) (l : list Z) (T : gmap Z Z) : Prop :=
  ∀ w t, T !! w = Some t ↔ w ∈ l ∧ due_at s w = t.

Lemma armed_cancel s s' l T w :
  armed s l T → (∀ v, v ≠ w → due_at s' v = due_at s v) → armed s' (filter (λ v, v ≠ w) l) (delete w T).
Proof.
  intros Ha Hd v t. rewrite list_elem_of_filter. destruct (decide (v = w)) as [->|Hv].
  - rewrite lookup_delete_eq. naive_solver.
  - rewrite lookup_delete_ne by congruence. rewrite Hd by done. rewrite (Ha v t). tauto.
Qed.

(** [C20] Any sequence of timer settings, cancellations and closed connections
    keeps the list of nodes well linked and in the order of the times, with
    exactly the armed timers in it: each connection at most once, with the
    time of its last setting. *)
Theorem timers_refine_map head clock nodes cs s l T
    (Hclock : ∀ n, 0 <= clock n < 2 ^ 62)
    (Ht : timers head nodes s l)
    (Harmed : armed s l T)
    (Hlive : live_calls nodes cs = true) :
  ∃ s' l' T', timer_calls head clock cs s = Ok s' ∧ timers head (live_after nodes cs) s' l'
    ∧ foldl (armed_step clock) (readings s, T) cs = (readings s', T') ∧ armed s' l' T'.
Proof.
  revert nodes s l T Ht Harmed Hlive. induction cs as [|c cs IH]; intros nodes s l T Ht Ha Hlive; [by exists s, l, T|].
  destruct c as [w us|w]; cbn [live_calls] in Hlive; cbn [timer_calls timer_step foldl armed_step live_after].
  - apply andb_prop in Hlive as [[[Hw%bool_decide_eq_true H1%Z.leb_le]%andb_prop H2%Z.leb_le]%andb_prop Hlive].
    destruct (Z.eqb_spec us LWS_SET_TIMER_USEC_CANCEL) as [->|Hus].
    + destruct (cancel_ok head clock nodes s l w Ht Hw) as (h & -> & Ht1 & _). rewrite res_bind_ok.
      exact (IH nodes (set_dll h s) _ _ Ht1 (armed_cancel _ _ _ _ _ Ha (λ _ _, eq_refl)) Hlive).
    + pose proof (Hclock (readings s)).
      destruct (set_timer_ok head clock nodes s l w us Ht Hw Hus) as (s1 & -> & Ht1 & Ep & Er & _); [unfold LONG_MIN, LONG_MAX; lia|].
      rewrite res_bind_ok, <- Er. apply (IH nodes s1 _ _ Ht1); [|done]. intros v t. rewrite place_elem, list_elem_of_filter.
      unfold due_at. rewrite Ep. destruct (decide (v = w)) as [->|Hv]; [rewrite !lookup_insert_eq; cbn; naive_solver|].
      rewrite !lookup_insert_ne by congruence. rewrite (Ha v t). unfold due_at. tauto.
  - apply andb_prop in Hlive as [Hw%bool_decide_eq_true Hlive].
    destruct (close_timer_ok head nodes s l w Ht Hw) as (s1 & -> & Ht1 & Ep & Er & _). rewrite res_bind_ok, <- Er.
    apply (IH _ s1 _ _ Ht1); [|done]. apply (armed_cancel s); [done|]. intros v Hv. unfold due_at. rewrite Ep. by rewrite lookup_delete_ne by congruence.
Qed.

(** [C38] When the timers are served, the callbacks of exactly the connections
    whose timer has run out are called, earliest first, each once, and every
    timer left is for later; the result is how long until the first of them.
    This holds for polite callbacks: they may return an error, which closes
    their own connection, and set (for later) or cancel timers, but not those
    that still wait for their turn (see [cancelled_timer_still_fires]), and they
    close no other connection. *)
Theorem due_timers_fire head clock on_timer nodes s l
    (Hclock : ∀ n m, (n ≤ m)%nat → 0 <= clock n <= clock m)
    (Hmax : ∀ n, clock n < 2 ^ 62)
    (Ht : timers head nodes s l)
    (Hpolite : polite on_timer (calls s) nodes (filter (λ v, due_at s v <= clock (readings s)) l) = true) :
  let t := clock (readings s) in
  let dues := filter (λ v, due_at s v <= t) l in
  ∃ wait s' l', lws_hrtimer_service head clock on_timer s = Ok (dues, wait, s')
    ∧ timers head (survivors on_timer (calls s) nodes dues) s' l' ∧ Forall (λ v, t < due_at s' v) l'
    ∧ wait = match l' with
             | [] => LWS_HRTIMER_NOWAIT
             | v :: _ => Z.max 0 (due_at s' v - clock (readings s' - 1)%nat)
             end.
Proof.
  intros t dues. unfold lws_hrtimer_service. cbv zeta. fold t.
  set (s1 := HrTimers (dll_hrtimer s) (pending_timer s) (S (readings s)) (calls s)).
  assert (∃ others, l = dues ++ others ∧ Forall (λ v, t < due_at s v) others) as (others & El & Hoth).
  { apply (sorted_split (due_at s) t), (tm_sorted _ _ _ _ Ht). }
  assert (timers head nodes s1 (dues ++ others)) as Ht1 by (rewrite <- El; destruct Ht; by split).
  pose proof (tm_dll _ _ _ _ Ht) as Hd. destruct (dll_lookup _ _ _ head Hd) as [Hh0 _]; [by left|].
  pose proof Hd as [_ (q & _ & _ & nx & Eh & Hseg)]. change (dll_hrtimer s1) with (dll_hrtimer s).
  rewrite (load_ok _ _ _ Hh0 Eh), res_bind_ok. cbn [next].
  destruct (loop_fires head clock on_timer Hclock Hmax dues nodes t others (size (dll_hrtimer s)) nx s1) as (s2 & l' & -> & Ht2 & Hl2 & Hr2 & _); try done.
  { unfold dues. rewrite Forall_forall. by intros v [Hv _]%list_elem_of_filter. }
  { cbn [s1 readings]. unfold t. pose proof (Hclock (readings s) (S (readings s)) ltac:(lia)). lia. }
  { pose proof (dll_size _ _ _ Hd). rewrite El, length_app in H. lia. }
  { rewrite El in Hseg. destruct dues as [|w dues']; cbn [app] in Hseg; [|by destruct Hseg as [-> _]].
    destruct others as [|o others]; [destruct Hseg as [-> _]; by left|]. destruct Hseg as [-> _]. right.
    split; [apply (tm_nodes _ _ _ _ Ht1); by left|]. split; [apply (tm_times _ _ _ _ Ht1); by left|]. by apply Forall_cons in Hoth as [? _]. }
  rewrite res_bind_ok. pose proof (tm_dll _ _ _ _ Ht2) as Hd2. pose proof Hd2 as [_ (q2 & _ & _ & nx2 & Eh2 & Hseg2)].
  rewrite (load_ok _ _ _ Hh0 Eh2), res_bind_ok. cbn [next]. destruct l' as [|v l'].
  - destruct Hseg2 as [-> _]. cbn [Z.eqb NULL]. by exists LWS_HRTIMER_NOWAIT, s2, [].
  - destruct Hseg2 as (-> & Hv0 & _). rewrite (proj2 (Z.eqb_neq _ _)) by done. destruct (tm_times _ _ _ _ Ht2 v) as [t1 Et]; [by left|].
    cbn [pending_timer]. rewrite Et. eexists _, _, (v :: l'). split; [done|]. split; [destruct Ht2; by split|]. split; [done|].
    unfold due_at. cbn [pending_timer readings]. rewrite Et. cbn [default from_option id]. rewrite Nat.sub_1_r. cbn [Nat.pred].
    zcases; lia.
Qed.

(** ** Examples *)

Ltac solve_seg := repeat (split; [done|split; [done|eexists; split; [reflexivity|]]]); by split.

(** The head is 1; of the connections 10, 11 and 12 the timers run out at
    1300, 1100 and 1200 µs. *)
Definition three_timers : hrtimers :=
  HrTimers (list_to_map [(1, Node 0 11); (11, Node 1 12); (12, Node 11 10); (10, Node 12 0)])
    (list_to_map [(10, 1300); (11, 1100); (12, 1200)]) 0 0.

Lemma three_timers_ok : timers 1 {[10; 11; 12]} three_timers [11; 12; 10].
Proof.
  split.
  - split; [by_compute|]. exists 10. solve_seg.
  - repeat constructor; by vm_compute.
  - intros w Hw. assert (w = 11 ∨ w = 12 ∨ w = 10) as [-> | [-> | ->]] by set_solver; by eexists.
  - set_solver.
  - intros w Hw. assert (w = 10 ∨ w = 11 ∨ w = 12) as [-> | [-> | ->]] by set_solver; (split; [done|left; set_solver]).
Qed.

Lemma timers_refine_map_witness :
  let cs := [SetTimer 12 100; SetTimer 10 (-1); CloseConn 11; SetTimer 10 50] in
  let T := list_to_map [(10, 1300); (11, 1100); (12, 1200)] : gmap Z Z in
  ((∀ n : nat, 0 <= (λ n, 1250 + Z.of_nat (n `mod` 1000)) n < 2 ^ 62) ∧ timers 1 {[10; 11; 12]} three_timers [11; 12; 10]
    ∧ armed three_timers [11; 12; 10] T ∧ live_calls {[10; 11; 12]} cs = true)
  ∧ ∃ s' l' T', timer_calls 1 (λ n, 1250 + Z.of_nat (n `mod` 1000)) cs three_timers = Ok s'
    ∧ timers 1 (live_after {[10; 11; 12]} cs) s' l'
    ∧ foldl (armed_step (λ n, 1250 + Z.of_nat (n `mod` 1000))) (readings three_timers, T) cs = (readings s', T') ∧ armed s' l' T'.
Proof.
  intros cs T.
  assert (∀ n : nat, 0 <= (λ n, 1250 + Z.of_nat (n `mod` 1000)) n < 2 ^ 62) as Hc.
  { intros n. pose proof (Nat.mod_upper_bound n 1000 ltac:(lia)). cbn beta. lia. }
  assert (armed three_timers [11; 12; 10] T) as Ha.
  { intros w t. split.
    - intros E%(elem_of_list_to_map_2 (M := gmap Z)). rewrite !elem_of_cons, elem_of_nil in E.
      destruct E as [[= -> ->]|[[= -> ->]|[[= -> ->]|[]]]]; by_compute.
    - intros [Hw <-]. rewrite !elem_of_cons, elem_of_nil in Hw. by destruct Hw as [-> | [-> | [-> | []]]]. }
  pose proof three_timers_ok as Ht. assert (live_calls {[10; 11; 12]} cs = true) as Hl by by vm_compute.
  split; [done|]. exact (timers_refine_map 1 (λ n, 1250 + Z.of_nat (n `mod` 1000)) {[10; 11; 12]} cs three_timers [11; 12; 10] T Hc Ht Ha Hl).
Defined.

(** At 1250 µs the timers of 11 and 12 are due; 11's callback sets its timer
    again and 12's fails. *)
Definition rearm (n : nat) (w : Z) : list timer_call * bool :=
  if w =? 11 then ([SetTimer 11 400; SetTimer 10 (-1)], false) else ([], true).

Definition at_1250 (n : nat) : Z := 1250.

Lemma due_timers_fire_witness :
  ((∀ n m, (n ≤ m)%nat → 0 <= at_1250 n <= at_1250 m) ∧ (∀ n, at_1250 n < 2 ^ 62)
    ∧ timers 1 {[10; 11; 12]} three_timers [11; 12; 10]
    ∧ polite rearm 0 {[10; 11; 12]} (filter (λ v, due_at three_timers v <= 1250) [11; 12; 10]) = true)
  ∧ ∃ wait s' l', lws_hrtimer_service 1 at_1250 rearm three_timers = Ok ([11; 12], wait, s')
    ∧ timers 1 (survivors rearm 0 {[10; 11; 12]} [11; 12]) s' l' ∧ Forall (λ v, 1250 < due_at s' v) l'
    ∧ wait = match l' with
             | [] => LWS_HRTIMER_NOWAIT
             | v :: _ => Z.max 0 (due_at s' v - at_1250 (readings s' - 1)%nat)
             end.
Proof.
  assert (∀ n m, (n ≤ m)%nat → 0 <= at_1250 n <= at_1250 m) as H1 by (unfold at_1250; lia).
  assert (∀ n, at_1250 n < 2 ^ 62) as H2 by (unfold at_1250; lia). pose proof three_timers_ok as H3.
  assert (polite rearm 0 {[10; 11; 12]} (filter (λ v, due_at three_timers v <= 1250) [11; 12; 10]) = true) as H4 by by vm_compute.
  split; [done|]. exact (due_timers_fire 1 at_1250 rearm {[10; 11; 12]} three_timers [11; 12; 10] H1 H2 H3 H4).
Defined.

(** A timer that an earlier callback of the same turn cancels is called all
    the same: the loop holds the next node already. *)
Theorem cancelled_timer_still_fires :
  let cancel_next (n : nat) (w : Z) : list timer_call * bool := (if w =? 11 then [SetTimer 12 (-1)] else [], false) in
  ∃ wait s', lws_hrtimer_service 1 at_1250 cancel_next three_timers = Ok ([11; 12], wait, s').
Proof. do 2 eexists. vm_compute. reflexivity. Qed.

(** A callback that closes the connection whose timer comes next makes the
    loop go on with a freed node. *)
Theorem closing_next_timer_uses_freed_node :
  let close_next (n : nat) (w : Z) : list timer_call * bool := (if w =? 11 then [CloseConn 12] else [], false) in
  lws_hrtimer_service 1 at_1250 close_next three_timers = Fault UseAfterFree.
Proof. vm_compute. reflexivity. Qed.
