(* ===== verification/Poll.v ===== *)
(** * The poll table

    core/pollfd.c, plat/unix/unix-fds.c and the watchers of
    event-libs/libuv/libuv.c: the array pt->fds of the descriptors that are
    served, the table context->lws_lookup from descriptors to connections, the
    field position_in_fds_table of each connection, and what libuv is asked to
    poll for it (elops_io_uv).  The last entry of the array takes the place of a
    removed one, and when the array is nearly full the listening sockets stop to
    accept.

    The build is the one of the Dockerfile: LWS_WITH_LWSWS sets LWS_WITH_LIBUV,
    so the changes that other threads make during poll() (pollfd.c, under #if
    !defined(LWS_WITH_LIBUV)) are not compiled, and every change of events is
    passed on to libuv through event_loop_ops->io.  libuv itself is known by what
    it is asked: uv_poll_start and uv_poll_stop on the watcher of a connection.

    struct lws is kept by columns: each field of it is a map from the address of
    the connection.  What protocol 0 of the vhost answers to the callbacks for
    external poll loops is a parameter. *)

From stdpp Require Import base numbers list gmap.
From Stdlib Require Import ZArith Lia.
From S2P Require Import Prelude Dll.

Definition LWS_POLLIN : Z := 1.
Definition LWS_POLLOUT : Z := 4.
Definition LWS_NO_FDS_POS : Z := -1.
Definition LWS_SOCK_INVALID : Z := -1.

Record pollfd := Pollfd { fd : Z; events : Z; revents : Z }.

#[global] Instance pollfd_eq_dec : EqDecision pollfd.
Proof. solve_decision. Defined.

(** pt->fds, pt->fds_count, pt->count_conns, context->lws_lookup, and the
    fields desc.sockfd and position_in_fds_table of the connections. *)
Record table := Table {
  fds : list pollfd;
  fds_count : nat;
  count_conns : Z;
  lws_lookup : list Z;
  sockfd : gmap Z Z;
  position_in_fds_table : gmap Z Z;
}.

(** The table with the flags that changes of it look at, and the watchers
    (struct lws_io_watcher, the field w_read of a connection). *)
Record poll_state := PollState {
  tab : table;
  handling_pollout : gset Z;
  leave_pollout_active : gset Z;
  cancels : nat;                       (** calls of lws_cancel_service_pt *)
  same_vh_protocol : heap;             (** the nodes same_vh_protocol, by connection, and their heads *)
  io_context : gset Z;                 (** w_read.context is set; there is a loop then *)
  pwatcher : gset Z;                   (** w_read.uv.pwatcher is not NULL *)
  actual_events : gmap Z Z;            (** w_read.actual_events, 0 where absent *)
  uv_polling : gmap Z Z;               (** what uv_poll_start was last given; absent when stopped *)
}.

Definition set_tab (t : table) (s : poll_state) : poll_state :=
  PollState t (handling_pollout s) (leave_pollout_active s) (cancels s) (same_vh_protocol s)
    (io_context s) (pwatcher s) (actual_events s) (uv_polling s).
Definition set_cancels (n : nat) (s : poll_state) : poll_state :=
  PollState (tab s) (handling_pollout s) (leave_pollout_active s) n (same_vh_protocol s)
    (io_context s) (pwatcher s) (actual_events s) (uv_polling s).
Definition set_same_vh (h : heap) (s : poll_state) : poll_state :=
  PollState (tab s) (handling_pollout s) (leave_pollout_active s) (cancels s) h
    (io_context s) (pwatcher s) (actual_events s) (uv_polling s).
Definition set_leave (g : gset Z) (s : poll_state) : poll_state :=
  PollState (tab s) (handling_pollout s) g (cancels s) (same_vh_protocol s)
    (io_context s) (pwatcher s) (actual_events s) (uv_polling s).
Definition set_watcher (c w : gset Z) (s : poll_state) : poll_state :=
  PollState (tab s) (handling_pollout s) (leave_pollout_active s) (cancels s) (same_vh_protocol s)
    c w (actual_events s) (uv_polling s).
Definition set_uv (act uv : gmap Z Z) (s : poll_state) : poll_state :=
  PollState (tab s) (handling_pollout s) (leave_pollout_active s) (cancels s) (same_vh_protocol s)
    (io_context s) (pwatcher s) act uv.

(** The callbacks of protocol 0. *)
Inductive poll_reason := LOCK_POLL | UNLOCK_POLL | ADD_POLL_FD | DEL_POLL_FD | CHANGE_MODE_POLL_FD.

(** What does not change: the limits, the listening connections of the
    vhosts in order (NULL for a vhost without one), and what is known of a
    connection. *)
Record poll_conf := PollConf {
  max_fds : nat;
  fd_limit_per_thread : nat;
  lserv_wsis : list Z;
  being_destroyed : bool;
  event_pipe : Z → bool;
  has_vhost : Z → bool;
  has_protocol : Z → bool;
  refuses : poll_reason → Z → bool;
  service_tid : Z;
  get_thread_id : Z → Z;
  http2_substream : Z → bool;
  uv_malloc_fails : Z → bool;        (** no memory for a watcher *)
}.

(** A field of a connection: an access to a freed one is a fault. *)
Definition field {A} (m : gmap Z A) (w : Z) : res A :=
  if w =? NULL then Fault NullDeref else match m !! w with Some x => Ok x | None => Fault UseAfterFree end.

Section poll.
Context (conf : poll_conf).

(** protocols[0].callback(), made for a connection with a vhost. *)
Definition refused (r : poll_reason) (wsi : Z) : bool := has_vhost conf wsi && refuses conf r wsi.

Definition set_fds (l : list pollfd) (t : table) : table :=
  Table l (fds_count t) (count_conns t) (lws_lookup t) (sockfd t) (position_in_fds_table t).

(** *** The watchers *)

Definition LWS_EV_READ : Z := 1.
Definition LWS_EV_WRITE : Z := 2.
Definition LWS_EV_START : Z := 4.
Definition LWS_EV_STOP : Z := 8.
Definition LWS_EV_PREPARE_DELETION : Z := 2 ^ 31.
Definition UV_READABLE : Z := 1.
Definition UV_WRITABLE : Z := 2.

Definition any (flags mask : Z) : bool := negb (Z.land flags mask =? 0).

(** uv_poll_start and uv_poll_stop on a connection's watcher. *)
Definition uv_poll_start (wsi ev : Z) (s : poll_state) : res poll_state :=
  _ ← check (bool_decide (wsi ∈ pwatcher s)) NullDeref;
  Ok (set_uv (actual_events s) (<[wsi := ev]> (uv_polling s)) s).

Definition uv_poll_stop (wsi : Z) (s : poll_state) : res poll_state :=
  _ ← check (bool_decide (wsi ∈ pwatcher s)) NullDeref;
  Ok (set_uv (actual_events s) (delete wsi (uv_polling s)) s).

Definition elops_io_uv (wsi flags : Z) (s : poll_state) : res poll_state :=
  let current_events := Z.land (default 0 (actual_events s !! wsi)) (Z.lor UV_READABLE UV_WRITABLE) in
  if negb (bool_decide (wsi ∈ io_context s)) then Ok s
  else
    _ ← check (any flags (Z.lor LWS_EV_START LWS_EV_STOP) && any flags (Z.lor LWS_EV_READ LWS_EV_WRITE)) AssertFailed;
    '(current_events, s) ←
      (if any flags LWS_EV_START then
         let ev := if any flags LWS_EV_WRITE then Z.lor current_events UV_WRITABLE else current_events in
         let ev := if any flags LWS_EV_READ then Z.lor ev UV_READABLE else ev in
         s ← uv_poll_start wsi ev s; Ok (ev, s)
       else
         let ev := if any flags LWS_EV_WRITE then Z.land current_events (Z.lnot UV_WRITABLE) else current_events in
         let ev := if any flags LWS_EV_READ then Z.land ev (Z.lnot UV_READABLE) else ev in
         s ← (if any ev (Z.lor UV_READABLE UV_WRITABLE) then uv_poll_start wsi ev s else uv_poll_stop wsi s);
         Ok (ev, s));
    Ok (set_uv (<[wsi := current_events]> (actual_events s)) (uv_polling s) s).

(** A watcher for a connection that was accepted. *)
Definition elops_accept_uv (wsi : Z) (s : poll_state) : res (Z * poll_state) :=
  let s := set_watcher ({[wsi]} ∪ io_context s) (pwatcher s) s in
  if uv_malloc_fails conf wsi then Ok (-1, set_watcher (io_context s) (pwatcher s ∖ {[wsi]}) s)
  else Ok (0, set_watcher (io_context s) ({[wsi]} ∪ pwatcher s) s).

(** A watcher for a listening socket; uv_poll_init_socket succeeds, and there
    is a loop. *)
Definition elops_init_vhost_listen_wsi_uv (wsi : Z) (s : poll_state) : res (Z * poll_state) :=
  if wsi =? NULL then Ok (0, s)
  else if bool_decide (wsi ∈ io_context s) then Ok (0, s)
  else
    '(r, s) ← elops_accept_uv wsi s;
    if negb (r =? 0) then Ok (-1, s)
    else s ← elops_io_uv wsi (Z.lor LWS_EV_START LWS_EV_READ) s; Ok (0, s).

(** *** Changes of the events *)

(** What of a change is passed on to the loop. *)
Definition io_change (wsi _and _or : Z) (s : poll_state) : res poll_state :=
  s ← (if any _and LWS_POLLIN then elops_io_uv wsi (Z.lor LWS_EV_STOP LWS_EV_READ) s else Ok s);
  s ← (if any _or LWS_POLLIN then elops_io_uv wsi (Z.lor LWS_EV_START LWS_EV_READ) s else Ok s);
  s ← (if any _and LWS_POLLOUT then elops_io_uv wsi (Z.lor LWS_EV_STOP LWS_EV_WRITE) s else Ok s);
  if any _or LWS_POLLOUT then elops_io_uv wsi (Z.lor LWS_EV_START LWS_EV_WRITE) s else Ok s.

Definition lws_change_pollfd_1 (wsi pos _and _or : Z) (s : poll_state) : res (Z * poll_state) :=
  pfd ← elem (fds (tab s)) pos;
  let ev := Z.lor (Z.land (events pfd) (Z.lnot _and)) _or in
  l ← store (fds (tab s)) pos (Pollfd (fd pfd) ev (revents pfd));
  let s := set_tab (set_fds l (tab s)) s in
  if http2_substream conf wsi then Ok (0, s)
  else if refused CHANGE_MODE_POLL_FD wsi then Ok (-1, s)
  else
    s ← io_change wsi _and _or s;
    if events pfd =? ev then Ok (0, s)
    else if negb (service_tid conf =? 0) && has_vhost conf wsi then
      let tid := get_thread_id conf wsi in
      if tid =? -1 then Ok (-1, s)
      else if negb (tid =? service_tid conf) then Ok (0, set_cancels (S (cancels s)) s)
      else Ok (0, s)
    else Ok (0, s).

(** _lws_change_pollfd *)
Definition change_pollfd_ (wsi _and _or : Z) (s : poll_state) : res (Z * poll_state) :=
  if wsi =? NULL then Ok (0, s)
  else
    pos ← field (position_in_fds_table (tab s)) wsi;
    _ ← check ((pos =? LWS_NO_FDS_POS) || (0 <=? pos)) AssertFailed;
    if pos =? LWS_NO_FDS_POS then Ok (0, s)
    else if bool_decide (wsi ∈ handling_pollout s) && (_and =? 0) && (_or =? LWS_POLLOUT) then
      Ok (0, set_leave ({[wsi]} ∪ leave_pollout_active s) s)
    else
      _ ← check (pos <? Z.of_nat (fds_count (tab s))) AssertFailed;
      lws_change_pollfd_1 wsi pos _and _or s.

(** __lws_change_pollfd *)
Definition lws_change_pollfd (wsi _and _or : Z) (s : poll_state) : res (Z * poll_state) :=
  if (wsi =? NULL) || negb (has_protocol conf wsi) && negb (event_pipe conf wsi) then Ok (0, s)
  else
    pos ← field (position_in_fds_table (tab s)) wsi;
    if pos =? LWS_NO_FDS_POS then Ok (0, s)
    else if refused LOCK_POLL wsi then Ok (-1, s)
    else
      '(ret, s) ← change_pollfd_ wsi _and _or s;
      Ok (if refused UNLOCK_POLL wsi then -1 else ret, s).

Fixpoint accept_modulation (l : list Z) (allow : bool) (s : poll_state) : res poll_state :=
  match l with
  | [] => Ok s
  | w :: l =>
      '(_, s) ← (if w =? NULL then Ok (0, s)
                 else if allow then change_pollfd_ w 0 LWS_POLLIN s else change_pollfd_ w LWS_POLLIN 0 s);
      accept_modulation l allow s
  end.

Definition lws_accept_modulation : bool → poll_state → res poll_state := accept_modulation (lserv_wsis conf).

(** The entry for a new connection; lws_plat_insert_socket_into_fds starts the
    watcher just before the count goes up. *)
Definition insert_entry (wsi skt : Z) (t : table) : res table :=
  old ← elem (lws_lookup t) skt;
  _ ← check (old =? NULL) AssertFailed;
  lk ← store (lws_lookup t) skt wsi;
  l ← store (fds t) (Z.of_nat (fds_count t)) (Pollfd skt LWS_POLLIN 0);
  Ok (Table l (S (fds_count t)) (count_conns t + 1) lk (sockfd t)
        (<[wsi := Z.of_nat (fds_count t)]> (position_in_fds_table t))).

(** __insert_wsi_socket_into_fds *)
Definition insert_wsi_socket_into_fds (wsi : Z) (s : poll_state) : res (Z * poll_state) :=
  skt ← field (sockfd (tab s)) wsi;
  if (fd_limit_per_thread conf <=? fds_count (tab s))%nat then Ok (1, s)
  else if Z.of_nat (max_fds conf) <=? skt then Ok (1, s)
  else
    _ ← check (event_pipe conf wsi || has_vhost conf wsi) AssertFailed;
    _ ← check (negb (skt =? LWS_SOCK_INVALID)) AssertFailed;
    if refused LOCK_POLL wsi then Ok (-1, s)
    else
      t ← insert_entry wsi skt (tab s);
      s ← elops_io_uv wsi (Z.lor LWS_EV_START LWS_EV_READ) (set_tab t s);
      let ret := if refused ADD_POLL_FD wsi then -1 else 0 in
      s ← (if (fds_count (tab s) =? fd_limit_per_thread conf - 1)%nat then lws_accept_modulation false s else Ok s);
      Ok (if refused UNLOCK_POLL wsi then -1 else ret, s).

(** The last entry takes the place of entry [m]; lws_plat_delete_socket_from_fds
    stops the watcher (again) in between. *)
Definition remove_entry (wsi skt m : Z) (t : table) : res table :=
  last ← elem (fds t) (Z.of_nat (fds_count t) - 1);
  l ← store (fds t) m last;
  end_wsi ← elem (lws_lookup t) (fd last);
  _ ← check (negb (end_wsi =? NULL)) AssertFailed;
  _ ← field (position_in_fds_table t) end_wsi;
  lk ← store (lws_lookup t) skt NULL;
  Ok (Table l (fds_count t - 1) (count_conns t - 1) lk (sockfd t)
        (<[wsi := LWS_NO_FDS_POS]> (<[end_wsi := m]> (position_in_fds_table t)))).

(** lws_same_vh_protocol_remove *)
Definition lws_same_vh_protocol_remove (wsi : Z) (s : poll_state) : res poll_state :=
  if has_vhost conf wsi then
    n ← load (same_vh_protocol s) wsi;
    if lws_dll_is_null n then Ok s
    else h ← lws_dll_remove wsi (same_vh_protocol s); Ok (set_same_vh h s)
  else Ok s.

(** lws_same_vh_protocol_insert; [head] is the address of
    vhost->same_vh_protocol_heads[n]. *)
Definition lws_same_vh_protocol_insert (wsi head : Z) (s : poll_state) : res poll_state :=
  n ← load (same_vh_protocol s) wsi;
  h ← (if lws_dll_is_null n then Ok (same_vh_protocol s) else lws_dll_remove wsi (same_vh_protocol s));
  h ← lws_dll_add_front wsi head h;
  Ok (set_same_vh h s).

(** __remove_wsi_socket_from_fds.  The debug message reads the entry behind
    the last one. *)
Definition remove_wsi_socket_from_fds (wsi : Z) (s : poll_state) : res (Z * poll_state) :=
  skt ← field (sockfd (tab s)) wsi;
  if Z.of_nat (max_fds conf) <? skt then Ok (1, s)
  else if refused LOCK_POLL wsi then Ok (-1, s)
  else
    s ← lws_same_vh_protocol_remove wsi s;
    m ← field (position_in_fds_table (tab s)) wsi;
    _ ← check ((m =? LWS_NO_FDS_POS) || (0 <=? m) && (m <? Z.of_nat (fds_count (tab s)))) AssertFailed;
    s ← elops_io_uv wsi (Z.lor (Z.lor (Z.lor LWS_EV_STOP LWS_EV_READ) LWS_EV_WRITE) LWS_EV_PREPARE_DELETION) s;
    _ ← elem (fds (tab s)) (Z.of_nat (fds_count (tab s)));
    s ← (if m =? LWS_NO_FDS_POS then Ok s
         else
           t ← remove_entry wsi skt m (tab s);
           elops_io_uv wsi (Z.lor (Z.lor LWS_EV_STOP LWS_EV_READ) LWS_EV_WRITE) (set_tab t s));
    let ret := if negb (skt =? LWS_SOCK_INVALID) && refused DEL_POLL_FD wsi then -1 else 0 in
    s ← (if negb (being_destroyed conf) && (fds_count (tab s) <? fd_limit_per_thread conf - 1)%nat
         then lws_accept_modulation true s else Ok s);
    Ok (if refused UNLOCK_POLL wsi then -1 else ret, s).

(** lws_callback_on_writable for a connection that is neither shut down nor
    unusable and whose role has no handler of its own. *)
Definition lws_callback_on_writable (wsi : Z) (s : poll_state) : res (Z * poll_state) :=
  pos ← field (position_in_fds_table (tab s)) wsi;
  if pos =? LWS_NO_FDS_POS then Ok (-1, s)
  else '(n, s) ← lws_change_pollfd wsi 0 LWS_POLLOUT s; Ok (if negb (n =? 0) then -1 else 1, s).

(** lws_callback_on_writable_all_protocol_vhost: every connection in the list
    from [head] on. *)
Fixpoint writable_loop (fuel : nat) (d : Z) (s : poll_state) : res poll_state :=
  if d =? NULL then Ok s
  else
    match fuel with
    | O => Fault Unfinished
    | S f =>
        n ← load (same_vh_protocol s) d;
        '(_, s) ← lws_callback_on_writable d s;
        writable_loop f (next n) s
    end.

Definition lws_callback_on_writable_all_protocol_vhost (head : Z) (s : poll_state) : res poll_state :=
  n ← load (same_vh_protocol s) head;
  writable_loop (size (same_vh_protocol s)) (next n) s.

End poll.

(** ** What the table stands for *)

Section table.
Context (conf : poll_conf).

Record table_ok (t : table) : Prop := {
  ok_len : length (fds t) = fd_limit_per_thread conf;
  ok_count : (fds_count t ≤ fd_limit_per_thread conf)%nat;
  ok_lookup_len : length (lws_lookup t) = max_fds conf;
  ok_conns : count_conns t = Z.of_nat (fds_count t);
  ok_dom w : is_Some (sockfd t !! w) ↔ is_Some (position_in_fds_table t !! w);
  ok_null : position_in_fds_table t !! NULL = None;
  ok_slot i p : (i < fds_count t)%nat → fds t !! i = Some p →
    ∃ w, position_in_fds_table t !! w = Some (Z.of_nat i);
  ok_pos w k : position_in_fds_table t !! w = Some k → k ≠ LWS_NO_FDS_POS →
    ∃ i p, k = Z.of_nat i ∧ (i < fds_count t)%nat ∧ fds t !! i = Some p ∧ 0 <= fd p
      ∧ sockfd t !! w = Some (fd p) ∧ lws_lookup t !! Z.to_nat (fd p) = Some w;
  ok_back j w : lws_lookup t !! j = Some w → w ≠ NULL →
    sockfd t !! w = Some (Z.of_nat j) ∧ ∃ k, position_in_fds_table t !! w = Some k ∧ k ≠ LWS_NO_FDS_POS;
}.

(** The connections in the table with the events poll() is asked for. *)
Record holds (t : table) (M : gmap Z Z) : Prop := {
  hd_events w e : M !! w = Some e ↔
    ∃ i p, position_in_fds_table t !! w = Some (Z.of_nat i) ∧ fds t !! i = Some p ∧ events p = e;
  hd_size : size M = fds_count t;
}.

(** Clearing and setting bits of the events. *)
Definition set_bits (_and _or e : Z) : Z := Z.lor (Z.land e (Z.lnot _and)) _or.

Lemma field_ok {A} (m : gmap Z A) w x : w ≠ NULL → m !! w = Some x → field m w = Ok x.
Proof. intros Hw E. unfold field. rewrite (proj2 (Z.eqb_neq _ _)) by done. by rewrite E. Qed.

(** No two connections are in the same place. *)
Lemma same_position t w1 w2 k : table_ok t → position_in_fds_table t !! w1 = Some k → position_in_fds_table t !! w2 = Some k →
  k ≠ LWS_NO_FDS_POS → w1 = w2.
Proof.
  intros Hok E1 E2 Hk. destruct (ok_pos _ Hok _ _ E1 Hk) as (i & p & Ei & _ & Ep & _ & _ & El).
  destruct (ok_pos _ Hok _ _ E2 Hk) as (j & q & Ej & _ & Eq & _ & _ & El2). assert (i = j) as <- by lia. congruence.
Qed.

Lemma of_nat_pos (i : nat) : Z.of_nat i ≠ LWS_NO_FDS_POS.
Proof. unfold LWS_NO_FDS_POS. lia. Qed.

Lemma wsi_not_null t w : table_ok t → is_Some (position_in_fds_table t !! w) → w ≠ NULL.
Proof. intros Hok [k E] ->. by rewrite (ok_null _ Hok) in E. Qed.

Lemma polled_iff t M w : table_ok t → holds t M →
  is_Some (M !! w) ↔ ∃ k, position_in_fds_table t !! w = Some k ∧ k ≠ LWS_NO_FDS_POS.
Proof.
  intros Hok Hh. split.
  - intros [e E]. apply (hd_events _ _ Hh) in E as (i & p & E & _). exists (Z.of_nat i). split; [done|apply of_nat_pos].
  - intros (k & E & Hk). destruct (ok_pos _ Hok _ _ E Hk) as (i & p & -> & _ & Ep & _). exists (events p).
    apply (hd_events _ _ Hh). by exists i, p.
Qed.

(** *** A change of events *)

Lemma set_entry_ok t M w (i : nat) p p' :
  table_ok t → holds t M → position_in_fds_table t !! w = Some (Z.of_nat i) → fds t !! i = Some p → fd p' = fd p →
  table_ok (set_fds (<[i := p']> (fds t)) t) ∧ holds (set_fds (<[i := p']> (fds t)) t) (<[w := events p']> M).
Proof.
  intros Hok Hh Ew Ep Efd. assert (i < length (fds t))%nat as Hi by by apply lookup_lt_Some in Ep.
  assert (∀ j q, <[i := p']> (fds t) !! j = Some q ↔ (if decide (j = i) then q = p' else fds t !! j = Some q)) as Hlk.
  { intros j q. destruct (decide (j = i)) as [->|Hj]; [rewrite list_lookup_insert_eq by done; naive_solver|]. by rewrite list_lookup_insert_ne by congruence. }
  destruct (ok_pos _ Hok _ _ Ew (of_nat_pos i)) as (i' & p0 & Ei & Hic & Ep0 & Hfd0 & Es & El). apply Nat2Z.inj in Ei as <-.
  rewrite Ep in Ep0. injection Ep0 as <-.
  split.
  - destruct Hok as [H1 H2 H3 H4 H5 H6 H7 H8 H9]. split; cbn; try done; [by rewrite length_insert|..].
    + intros j q Hj Eq%Hlk. case_decide; [subst; by exists w|by apply (H7 j q)].
    + intros v k Ev Hk. destruct (H8 v k Ev Hk) as (j & q & -> & Hj & Eq & Hq & Es' & El').
      destruct (decide (j = i)) as [->|Hne].
      * rewrite Ep in Eq. injection Eq as <-. exists i, p'. rewrite Efd. split_and!; try done. apply Hlk. by rewrite decide_True.
      * exists j, q. split_and!; try done. apply Hlk. by rewrite decide_False.
  - split; cbn.
    + intros v e. destruct (decide (v = w)) as [->|Hv].
      * rewrite lookup_insert_eq. split.
        -- intros [= <-]. exists i, p'. split_and!; try done. apply Hlk. by rewrite decide_True.
        -- intros (j & q & Ej & Eq & <-). rewrite Ew in Ej. injection Ej as Ej. apply Nat2Z.inj in Ej as <-.
           apply Hlk in Eq. rewrite decide_True in Eq by done. by subst.
      * rewrite lookup_insert_ne by congruence. rewrite (hd_events _ _ Hh v e).
        assert (∀ j, position_in_fds_table t !! v = Some (Z.of_nat j) → j ≠ i) as Hne.
        { intros j Ej ->. apply Hv. by apply (same_position t v w (Z.of_nat i)), of_nat_pos. }
        split; intros (j & q & Ej & Eq & <-); exists j, q; (split; [done|split; [|done]]); specialize (Hne _ Ej).
        -- apply Hlk. by rewrite decide_False.
        -- apply Hlk in Eq. by rewrite decide_False in Eq.
    + assert (is_Some (M !! w)) as HM by (apply (polled_iff t M w Hok Hh); eexists; split; [done|apply of_nat_pos]).
      rewrite map_size_insert_Some by done. apply (hd_size _ _ Hh).
Qed.

(** *** A new connection *)

Lemma insert_entry_ok t M w skt :
  table_ok t → holds t M → position_in_fds_table t !! w = Some LWS_NO_FDS_POS → sockfd t !! w = Some skt →
  0 <= skt < Z.of_nat (max_fds conf) → lws_lookup t !! Z.to_nat skt = Some NULL → (fds_count t < fd_limit_per_thread conf)%nat →
  ∃ t', insert_entry w skt t = Ok t' ∧ table_ok t' ∧ holds t' (<[w := LWS_POLLIN]> M) ∧ sockfd t' = sockfd t
    ∧ fds_count t' = S (fds_count t).
Proof.
  intros Hok Hh Ew Es Hskt El Hc. destruct (Z_of_nat_complete skt) as [j ->]; [lia|]. rewrite Nat2Z.id in El.
  assert (w ≠ NULL) as Hw by (apply (wsi_not_null t); [done|by eexists]).
  unfold insert_entry. rewrite (elem_ok _ _ _ El), res_bind_ok. cbn [Z.eqb NULL check]. rewrite res_bind_ok.
  rewrite (store_ok (lws_lookup t)) by (apply lookup_lt_Some in El; done). rewrite res_bind_ok.
  rewrite store_ok by (rewrite (ok_len _ Hok); lia). rewrite res_bind_ok. eexists. split; [done|].
  set (n := fds_count t) in *. assert (n < length (fds t))%nat as Hn by (rewrite (ok_len _ Hok); lia).
  assert (∀ v k, position_in_fds_table t !! v = Some k → k ≠ LWS_NO_FDS_POS → v ≠ w) as Hvw by (intros v k E Hk ->; congruence).
  assert (∀ i, (i < n)%nat → <[n := Pollfd (Z.of_nat j) LWS_POLLIN 0]> (fds t) !! i = fds t !! i) as Hlt
    by (intros i Hi; apply list_lookup_insert_ne; lia).
  assert (M !! w = None) as HM.
  { destruct (M !! w) as [e|] eqn:E; [|done]. destruct (proj1 (polled_iff t M w Hok Hh)) as (k & E' & Hk); [by eexists|]. congruence. }
  split_and!; [|split|done|done].
  - destruct Hok as [H1 H2 H3 H4 H5 H6 H7 H8 H9].
    split; cbn [fds fds_count count_conns lws_lookup sockfd position_in_fds_table]; rewrite ?length_insert; try done; try lia.
    + intros v. rewrite H5, lookup_insert. case_decide; [|done]. subst. rewrite Ew. by split; eexists.
    + by rewrite lookup_insert_ne.
    + intros i p Hi Ep. destruct (decide (i = n)) as [->|Hne]; [exists w; by rewrite lookup_insert_eq|].
      rewrite Hlt in Ep by lia. destruct (H7 i p) as [v Ev]; [lia|done|]. exists v. rewrite lookup_insert_ne; [done|].
      intros <-. rewrite Ew in Ev. unfold LWS_NO_FDS_POS in Ev. injection Ev as Ev. lia.
    + intros v k Ev Hk. destruct (decide (v = w)) as [->|Hne].
      * rewrite lookup_insert_eq in Ev. injection Ev as <-. exists n, (Pollfd (Z.of_nat j) LWS_POLLIN 0).
        split; [done|]. split; [lia|]. rewrite list_lookup_insert_eq by done. cbn. rewrite Nat2Z.id.
        split_and!; [done|lia|done|]. apply list_lookup_insert_eq. by apply lookup_lt_Some in El.
      * rewrite lookup_insert_ne in Ev by congruence. destruct (H8 v k Ev Hk) as (i & p & -> & Hi & Ep & Hfd & Es' & El').
        exists i, p. rewrite Hlt by done. split_and!; try done; [lia|]. rewrite list_lookup_insert_ne; [done|].
        intros Ej. rewrite <- Ej, El in El'. injection El' as <-. by rewrite H6 in Ev.
    + intros i v E Hv. destruct (decide (i = j)) as [->|Hne].
      * rewrite list_lookup_insert_eq in E by (by apply lookup_lt_Some in El). injection E as <-. split; [done|].
        exists (Z.of_nat n). rewrite lookup_insert_eq. split; [done|apply of_nat_pos].
      * rewrite list_lookup_insert_ne in E by congruence. destruct (H9 i v E Hv) as (Es' & k & Ek & Hk). split; [done|].
        exists k. by rewrite lookup_insert_ne by (intros <-; congruence).
  - intros v e. cbn [fds position_in_fds_table]. destruct (decide (v = w)) as [->|Hne].
    + rewrite !lookup_insert_eq. split.
      * intros [= <-]. exists n, (Pollfd (Z.of_nat j) LWS_POLLIN 0). by rewrite list_lookup_insert_eq.
      * intros (i & p & [= Ei%Nat2Z.inj] & Ep & <-). subst i. rewrite list_lookup_insert_eq in Ep by done. by injection Ep as <-.
    + rewrite !lookup_insert_ne by congruence. rewrite (hd_events _ _ Hh v e).
      split; intros (i & p & Ev & Ep & <-); exists i, p; (split; [done|]); (split; [|done]);
        destruct (ok_pos _ Hok _ _ Ev (of_nat_pos i)) as (i' & _ & Ei%Nat2Z.inj & Hi & _); subst i'; by rewrite Hlt in * by done.
  - cbn [fds_count]. rewrite map_size_insert_None by done. by rewrite (hd_size _ _ Hh).
Qed.

(** *** A removed connection *)

(** Where a connection is once [w] left place [i] and the last one, [e], took it. *)
Lemma moved t w e (i : nat) last v j :
  table_ok t → position_in_fds_table t !! w = Some (Z.of_nat i) → (i < fds_count t)%nat →
  position_in_fds_table t !! e = Some (Z.of_nat (fds_count t - 1)) → fds t !! (fds_count t - 1)%nat = Some last → v ≠ w →
  <[w := LWS_NO_FDS_POS]> (<[e := Z.of_nat i]> (position_in_fds_table t)) !! v = Some (Z.of_nat j) ↔
  (j < fds_count t - 1)%nat ∧ ∃ k, position_in_fds_table t !! v = Some (Z.of_nat k)
     ∧ <[i := last]> (fds t) !! j = fds t !! k ∧ (j = i ∧ v = e ∨ j = k ∧ v ≠ e).
Proof.
  intros Hok Ew Hi Ee El Hv. rewrite lookup_insert_ne by congruence. set (n := fds_count t) in *.
  assert (i < length (fds t))%nat as Hlen by (rewrite (ok_len _ Hok); pose proof (ok_count _ Hok); lia).
  destruct (decide (v = e)) as [->|Hne].
  - rewrite lookup_insert_eq. split.
    + intros [= Ej%Nat2Z.inj]. subst j. assert (i ≠ n - 1)%nat as Hne.
      { intros Hi'. apply Hv. apply (same_position t e w (Z.of_nat i)); [done|by rewrite Hi'|done|apply of_nat_pos]. }
      split; [lia|]. exists (n - 1)%nat. rewrite list_lookup_insert_eq by done. split_and!; [done|done|by left].
    + intros (_ & k & _ & _ & [[-> _]|[_ ?]]); done.
  - rewrite lookup_insert_ne by congruence. split.
    + intros Ej. destruct (ok_pos _ Hok _ _ Ej (of_nat_pos j)) as (j' & p & Ej'%Nat2Z.inj & Hj & Ep & _). subst j'. fold n in Hj.
      assert (j ≠ n - 1)%nat by (intros ->; apply Hne; by apply (same_position t v e _ Hok Ej), of_nat_pos).
      assert (j ≠ i) by (intros ->; apply Hv; by apply (same_position t v w _ Hok Ej), of_nat_pos).
      split; [lia|]. exists j. rewrite list_lookup_insert_ne by congruence. split_and!; [done|done|by right].
    + intros (_ & k & Ek & _ & [[_ ?]|[-> _]]); done.
Qed.

Lemma remove_entry_ok t M w skt (i : nat) :
  table_ok t → holds t M → position_in_fds_table t !! w = Some (Z.of_nat i) → sockfd t !! w = Some skt →
  ∃ t', remove_entry w skt (Z.of_nat i) t = Ok t' ∧ table_ok t' ∧ holds t' (delete w M) ∧ sockfd t' = sockfd t
    ∧ S (fds_count t') = fds_count t ∧ position_in_fds_table t' !! w = Some LWS_NO_FDS_POS.
Proof.
  intros Hok Hh Ew Es. set (n := fds_count t).
  destruct (ok_pos _ Hok _ _ Ew (of_nat_pos i)) as (i' & p & Ei%Nat2Z.inj & Hi & Ep & Hfd & Es' & El). subst i'.
  rewrite Es in Es'. injection Es' as ->. fold n in Hi.
  destruct (lookup_lt_is_Some_2 (fds t) (n - 1)) as [last Elast]; [rewrite (ok_len _ Hok); pose proof (ok_count _ Hok); fold n in H; lia|].
  destruct (ok_slot _ Hok (n - 1) last) as [e Ee]; [fold n; lia|done|].
  destruct (ok_pos _ Hok _ _ Ee (of_nat_pos _)) as (n' & last' & En%Nat2Z.inj & _ & Elast' & Hfdl & Ese & Ele). subst n'.
  rewrite Elast in Elast'. injection Elast' as <-.
  assert (e ≠ NULL) as He by (apply (wsi_not_null t); [done|by eexists]).
  destruct (Z_of_nat_complete (fd p) Hfd) as [j Ej]. destruct (Z_of_nat_complete (fd last) Hfdl) as [jl Ejl].
  rewrite Ej, Nat2Z.id in El. rewrite Ejl, Nat2Z.id in Ele. rewrite Ejl in Ese. rewrite Ej in *.
  assert (w ≠ NULL) as Hw by (apply (wsi_not_null t); [done|by eexists]).
  unfold remove_entry. fold n. replace (Z.of_nat n - 1) with (Z.of_nat (n - 1)) by lia.
  rewrite (elem_ok _ _ _ Elast), res_bind_ok, (store_ok (fds t)) by (by apply lookup_lt_Some in Ep).
  rewrite res_bind_ok, Ejl, (elem_ok _ _ _ Ele), res_bind_ok, check_true, res_bind_ok, (field_ok _ _ _ He Ee), res_bind_ok
    by (by rewrite (proj2 (Z.eqb_neq _ _))).
  rewrite store_ok by (by apply lookup_lt_Some in El). rewrite res_bind_ok. eexists. split; [done|].
  pose proof (λ v j, moved t w e i last v j Hok Ew Hi Ee Elast) as Hm. fold n in Hm.
  assert (∀ v k, v ≠ w → <[w := LWS_NO_FDS_POS]> (<[e := Z.of_nat i]> (position_in_fds_table t)) !! v = Some k → k ≠ LWS_NO_FDS_POS →
    ∃ a b q, k = Z.of_nat a ∧ (a < n - 1)%nat ∧ position_in_fds_table t !! v = Some (Z.of_nat b)
      ∧ <[i := last]> (fds t) !! a = Some q ∧ fds t !! b = Some q) as Hplace.
  { intros v k Hv Ev Hk. assert (∃ a, k = Z.of_nat a) as [a ->].
    { rewrite lookup_insert_ne in Ev by congruence. destruct (decide (v = e)) as [->|Hne].
      - rewrite lookup_insert_eq in Ev. injection Ev as <-. by exists i.
      - rewrite lookup_insert_ne in Ev by congruence. destruct (ok_pos _ Hok _ _ Ev Hk) as (a & _ & -> & _). by exists a. }
    destruct (proj1 (Hm v a Hv) Ev) as (Ha & b & Eb & Eq & _).
    destruct (ok_pos _ Hok _ _ Eb (of_nat_pos b)) as (b' & q & Eb'%Nat2Z.inj & _ & Ebq & _). subst b'.
    exists a, b, q. by rewrite Eq. }
  assert (∀ v, v ≠ w → is_Some (<[w := LWS_NO_FDS_POS]> (<[e := Z.of_nat i]> (position_in_fds_table t)) !! v)
    ↔ is_Some (position_in_fds_table t !! v)) as Hdom.
  { intros v Hv. rewrite lookup_insert_ne by congruence. rewrite lookup_insert. case_decide; [|done]. subst. by split; eexists. }
  split_and!; cbn [fds fds_count count_conns lws_lookup sockfd position_in_fds_table]; [|split|done|lia|by rewrite lookup_insert_eq].
  - destruct Hok as [H1 H2 H3 H4 H5 H6 H7 H8 H9].
    split; cbn [fds fds_count count_conns lws_lookup sockfd position_in_fds_table]; rewrite ?length_insert; fold n; try done; try lia.
    + intros v. rewrite H5. destruct (decide (v = w)) as [->|Hv]; [rewrite lookup_insert_eq, Ew; by split; eexists|]. by rewrite Hdom.
    + rewrite lookup_insert_ne by done. by rewrite lookup_insert_ne.
    + intros a q Ha Eq. destruct (decide (a = i)) as [->|Hne].
      * exists e. apply Hm; [intros ->; rewrite Ew in Ee; injection Ee; lia|]. split; [done|]. exists (n - 1)%nat. rewrite list_lookup_insert_eq by (by apply lookup_lt_Some in Ep).
        split_and!; [done|done|by left].
      * rewrite list_lookup_insert_ne in Eq by congruence. destruct (H7 a q) as [v Ev]; [fold n; lia|done|]. exists v.
        apply Hm; [intros ->; rewrite Ew in Ev; injection Ev; lia|]. split; [done|]. exists a. rewrite list_lookup_insert_ne by congruence.
        split_and!; [done|done|]. right. split; [done|]. intros ->. rewrite Ee in Ev. injection Ev. lia.
    + intros v k Ev Hk. destruct (decide (v = w)) as [->|Hv]; [rewrite lookup_insert_eq in Ev; by injection Ev as <-|].
      destruct (Hplace v k Hv Ev Hk) as (a & b & q & -> & Ha & Eb & Ea & Ebq).
      destruct (H8 v _ Eb (of_nat_pos b)) as (b' & q' & Eb'%Nat2Z.inj & _ & Eq' & Hq & Esv & Elv). subst b'. rewrite Ebq in Eq'. injection Eq' as <-.
      exists a, q. split_and!; try done. rewrite list_lookup_insert_ne; [done|]. intros ->. rewrite El in Elv. by injection Elv as <-.
    + intros a v E Hv. destruct (decide (a = j)) as [->|Hne].
      { rewrite list_lookup_insert_eq in E by (by apply lookup_lt_Some in El). by injection E as <-. }
      rewrite list_lookup_insert_ne in E by congruence. destruct (H9 a v E Hv) as (Esv & k & Ek & Hk). split; [done|].
      assert (v ≠ w) as Hvw by (intros ->; rewrite Es in Esv; injection Esv; lia).
      rewrite lookup_insert_ne by congruence. destruct (decide (v = e)) as [->|Hve]; [rewrite lookup_insert_eq; eexists; split; [done|apply of_nat_pos]|].
      rewrite lookup_insert_ne by congruence. by exists k.
  - intros v ev. cbn [fds position_in_fds_table]. destruct (decide (v = w)) as [->|Hv].
    { rewrite lookup_delete_eq. split; [done|]. intros (a & q & Ea & _). rewrite lookup_insert_eq in Ea. unfold LWS_NO_FDS_POS in Ea. injection Ea. lia. }
    rewrite lookup_delete_ne by congruence. rewrite (hd_events _ _ Hh v ev). split.
    + intros (b & q & Eb & Ebq & <-). destruct (decide (v = e)) as [->|Hve].
      * rewrite Ee in Eb. injection Eb as Eb%Nat2Z.inj. subst b. exists i, q. split; [|split; [|done]].
        -- rewrite lookup_insert_ne by congruence. by rewrite lookup_insert_eq.
        -- rewrite list_lookup_insert_eq by (by apply lookup_lt_Some in Ep). congruence.
      * exists b, q. rewrite lookup_insert_ne by congruence. rewrite lookup_insert_ne by congruence. split; [done|]. split; [|done].
        rewrite list_lookup_insert_ne; [done|]. intros ->. apply Hv. by apply (same_position t v w _ Hok Eb), of_nat_pos.
    + intros (a & q & Ea & Eaq & <-). destruct (Hplace v _ Hv Ea (of_nat_pos a)) as (a' & b & q' & Ea'%Nat2Z.inj & _ & Eb & Eaq' & Ebq).
      subst a'. exists b, q. rewrite Eaq in Eaq'. by injection Eaq' as <-.
  - cbn [fds_count]. fold n. rewrite map_size_delete. destruct (proj2 (polled_iff t M w Hok Hh)) as [ew E]; [eexists; split; [done|apply of_nat_pos]|].
    rewrite E. pose proof (hd_size _ _ Hh). fold n in H. lia.
Qed.

End table.

(** ** The operations on a table *)

Section ops.
Context (conf : poll_conf).
Context (Hquiet : ∀ r w, refused conf r w = false) (Htid : ∀ w, get_thread_id conf w ≠ -1).

(** The value of w_read.actual_events. *)
Definition actual (s : poll_state) (w : Z) : Z := default 0 (actual_events s !! w).

(** The events of libuv for those of the table. *)
Definition uv_events (e : Z) : Z := Z.lor (Z.b2z (Z.testbit e 0)) (2 * Z.b2z (Z.testbit e 2)).

(** The watchers, for a table that holds [M]: libuv polls for what
    actual_events says, which for a connection in the table that has a watcher
    is what the table says (an HTTP/2 stream inside another connection has none
    of its own); one that is not in the table is not polled, unless it is a
    listening socket, which is just before it gets its place. *)
Record watching (s : poll_state) (M : gmap Z Z) : Prop := {
  wt_pwatcher : io_context s ⊆ pwatcher s;
  wt_uv w : uv_polling s !! w = if actual s w =? 0 then None else Some (actual s w);
  wt_range w : 0 <= actual s w <= 3;
  wt_none w : w ∉ io_context s → actual s w = 0;
  wt_table w e : w ∈ io_context s → http2_substream conf w = false → M !! w = Some e → actual s w = uv_events e;
  wt_outside w : http2_substream conf w = false → M !! w = None → actual s w = 0 ∨ actual s w = 1 ∧ w ∈ lserv_wsis conf;
}.

(** No POLLOUT is being handled. *)
Record poll_ok (s : poll_state) (nodes : gset Z) (M : gmap Z Z) (ls : lists) : Prop := {
  po_table : table_ok conf (tab s);
  po_holds : holds (tab s) M;
  po_handling : handling_pollout s = ∅;
  po_groups : represents (same_vh_protocol s) nodes ls;
  po_nodes w : is_Some (sockfd (tab s) !! w) ↔ w ∈ nodes;
  po_listeners : Forall (λ w, w = NULL ∨ is_Some (sockfd (tab s) !! w)) (lserv_wsis conf);
  po_watching : watching s M;
}.

(** What an operation on events leaves as it is. *)
Definition same_conns (s s' : poll_state) : Prop :=
  sockfd (tab s') = sockfd (tab s) ∧ lws_lookup (tab s') = lws_lookup (tab s)
  ∧ position_in_fds_table (tab s') = position_in_fds_table (tab s) ∧ fds_count (tab s') = fds_count (tab s)
  ∧ same_vh_protocol s' = same_vh_protocol s ∧ io_context s' = io_context s.

Lemma same_conns_refl s : same_conns s s.
Proof. by repeat split. Qed.

Lemma same_conns_trans s1 s2 s3 : same_conns s1 s2 → same_conns s2 s3 → same_conns s1 s3.
Proof. intros (A1 & A2 & A3 & A4 & A5 & A6) (B1 & B2 & B3 & B4 & B5 & B6). repeat split; congruence. Qed.

(** *** The watchers *)

(** What flags make of the events of a watcher. *)
Definition io_events (flags cur : Z) : Z :=
  let bits := Z.lor (if any flags LWS_EV_READ then 1 else 0) (if any flags LWS_EV_WRITE then 2 else 0) in
  if any flags LWS_EV_START then Z.lor cur bits else Z.land cur (Z.lnot bits).

(** The state after a watcher was set to [ev]. *)
Definition watch (w ev : Z) (s : poll_state) : poll_state :=
  set_uv (<[w := ev]> (actual_events s)) (if ev =? 0 then delete w (uv_polling s) else <[w := ev]> (uv_polling s)) s.

Definition io_flags (flags : Z) : Prop :=
  flags ∈ [Z.lor LWS_EV_START LWS_EV_READ; Z.lor LWS_EV_STOP LWS_EV_READ; Z.lor LWS_EV_START LWS_EV_WRITE; Z.lor LWS_EV_STOP LWS_EV_WRITE;
           Z.lor (Z.lor LWS_EV_STOP LWS_EV_READ) LWS_EV_WRITE;
           Z.lor (Z.lor (Z.lor LWS_EV_STOP LWS_EV_READ) LWS_EV_WRITE) LWS_EV_PREPARE_DELETION].

Lemma elops_io_ok s w flags :
  io_context s ⊆ pwatcher s → 0 <= actual s w <= 3 → io_flags flags →
  elops_io_uv w flags s = Ok (if bool_decide (w ∈ io_context s) then watch w (io_events flags (actual s w)) s else s).
Proof.
  intros Hpw0 Hr Hf. unfold elops_io_uv. fold (actual s w). case_bool_decide as Hin; cbn [negb]; [|done].
  assert (w ∈ pwatcher s) as Hpw by by apply Hpw0.
  assert (actual s w = 0 ∨ actual s w = 1 ∨ actual s w = 2 ∨ actual s w = 3) as Hc by lia.
  unfold uv_poll_start, uv_poll_stop. rewrite !bool_decide_true by done.
  unfold io_flags in Hf. rewrite !elem_of_cons, elem_of_nil in Hf.
  destruct_or! Hf; destruct_or! Hc; try done; subst flags; rewrite Hc; done.
Qed.

(** [s'] is [s] with the watcher of [w] at [ev]. *)
Definition rewatched (s : poll_state) (w ev : Z) (s' : poll_state) : Prop :=
  s' = watch w ev s ∨ s' = s ∧ ev = actual s w.

Lemma actual_watch s w ev v : actual (watch w ev s) v = if decide (v = w) then ev else actual s v.
Proof.
  unfold actual, watch. cbn [set_uv actual_events]. rewrite lookup_insert.
  destruct (decide (v = w)), (decide (w = v)); by try congruence.
Qed.

Lemma watch_watch s w a b : watch w b (watch w a s) = watch w b s.
Proof.
  unfold watch, set_uv. cbn. rewrite insert_insert_eq. f_equal.
  destruct (a =? 0), (b =? 0); by rewrite ?insert_insert_eq, ?delete_insert_eq, ?insert_delete_eq, ?delete_delete_eq.
Qed.

Lemma io_events_range flags cur : io_flags flags → 0 <= cur <= 3 → 0 <= io_events flags cur <= 3.
Proof.
  intros Hf Hc. assert (cur = 0 ∨ cur = 1 ∨ cur = 2 ∨ cur = 3) as H by lia.
  unfold io_flags in Hf. rewrite !elem_of_cons, elem_of_nil in Hf. destruct_or! Hf; destruct_or! H; try done; by subst.
Qed.

Lemma rewatch_io s s1 w ev flags :
  io_context s ⊆ pwatcher s → w ∈ io_context s → 0 <= ev <= 3 → rewatched s w ev s1 → io_flags flags →
  ∃ s2, elops_io_uv w flags s1 = Ok s2 ∧ rewatched s w (io_events flags ev) s2.
Proof.
  intros Hpw Hw Hr Hs Hf.
  assert (io_context s1 = io_context s ∧ pwatcher s1 = pwatcher s ∧ actual s1 w = ev) as (E1 & E2 & E3).
  { destruct Hs as [->|[-> ->]]; [|done]. split_and!; try done. rewrite actual_watch. by rewrite decide_True. }
  eexists. split; [apply elops_io_ok; [by rewrite E1, E2|by rewrite E3|done]|].
  rewrite E1, bool_decide_true, E3 by done. left. destruct Hs as [->|[-> _]]; [apply watch_watch|done].
Qed.

Lemma any_testbit a k : 0 <= k → any a (2 ^ k) = Z.testbit a k.
Proof.
  intros Hk. unfold any. destruct (Z.eqb_spec (Z.land a (2 ^ k)) 0) as [E|E]; cbn [negb].
  - apply (f_equal (λ x, Z.testbit x k)) in E. rewrite Z.land_spec, Z.pow2_bits_true, andb_true_r, Z.bits_0 in E by done. by rewrite E.
  - destruct (Z.testbit a k) eqn:Et; [done|]. destruct E. apply Z.bits_inj'. intros n Hn.
    rewrite Z.land_spec, Z.pow2_bits_eqb, Z.bits_0 by done. destruct (Z.eqb_spec k n) as [->|]; [by rewrite Et|by rewrite andb_false_r].
Qed.

Lemma uv_events_range e : 0 <= uv_events e <= 3.
Proof. unfold uv_events. destruct (Z.testbit e 0), (Z.testbit e 2); split; vm_compute; discriminate. Qed.

Lemma io_change_unwatched s w a o : w ∉ io_context s → io_change w a o s = Ok s.
Proof.
  intros Hw. assert (∀ flags, elops_io_uv w flags s = Ok s) as E by (intros; unfold elops_io_uv; by rewrite bool_decide_false).
  unfold io_change. destruct (any a LWS_POLLIN), (any o LWS_POLLIN), (any a LWS_POLLOUT), (any o LWS_POLLOUT);
    repeat (rewrite ?E, ?res_bind_ok); done.
Qed.

(** A change of the events of the table, as the loop is told of it. *)
Lemma io_change_ok s w a o e :
  io_context s ⊆ pwatcher s → w ∈ io_context s → actual s w = uv_events e →
  ∃ s', io_change w a o s = Ok s' ∧ rewatched s w (uv_events (set_bits a o e)) s'.
Proof.
  intros Hpw Hw He.
  assert (∀ (b : bool) flags s1 ev, 0 <= ev <= 3 → rewatched s w ev s1 → io_flags flags →
    ∃ s2, (if b then elops_io_uv w flags s1 else Ok s1) = Ok s2 ∧ rewatched s w (if b then io_events flags ev else ev) s2) as Hstep.
  { intros [] flags s1 ev Hr Hs Hf; [by apply rewatch_io|by exists s1]. }
  assert (∀ (b : bool) flags ev, 0 <= ev <= 3 → io_flags flags → 0 <= (if b then io_events flags ev else ev) <= 3) as Hrange.
  { intros [] flags ev Hr Hf; [by apply io_events_range|done]. }
  pose proof (uv_events_range e) as R0.
  assert (rewatched s w (uv_events e) s) as H0 by by right.
  assert (io_flags (Z.lor LWS_EV_STOP LWS_EV_READ) ∧ io_flags (Z.lor LWS_EV_START LWS_EV_READ)
    ∧ io_flags (Z.lor LWS_EV_STOP LWS_EV_WRITE) ∧ io_flags (Z.lor LWS_EV_START LWS_EV_WRITE)) as (F1 & F2 & F3 & F4)
    by (unfold io_flags; rewrite !elem_of_cons; tauto).
  unfold io_change.
  destruct (Hstep (any a LWS_POLLIN) _ _ _ R0 H0 F1) as (s1 & -> & H1). rewrite res_bind_ok. pose proof (Hrange (any a LWS_POLLIN) _ _ R0 F1) as R1.
  destruct (Hstep (any o LWS_POLLIN) _ _ _ R1 H1 F2) as (s2 & -> & H2). rewrite res_bind_ok. pose proof (Hrange (any o LWS_POLLIN) _ _ R1 F2) as R2.
  destruct (Hstep (any a LWS_POLLOUT) _ _ _ R2 H2 F3) as (s3 & -> & H3). rewrite res_bind_ok. pose proof (Hrange (any a LWS_POLLOUT) _ _ R2 F3) as R3.
  destruct (Hstep (any o LWS_POLLOUT) _ _ _ R3 H3 F4) as (s4 & -> & H4). exists s4. split; [done|].
  clear -H4. change LWS_POLLIN with (2 ^ 0) in H4. change LWS_POLLOUT with (2 ^ 2) in H4. rewrite !any_testbit in H4 by done.
  unfold uv_events, set_bits in *. rewrite !Z.lor_spec, !Z.land_spec, !Z.lnot_spec by done.
  by destruct (Z.testbit e 0), (Z.testbit e 2), (Z.testbit a 0), (Z.testbit a 2), (Z.testbit o 0), (Z.testbit o 2).
Qed.

(** The watcher of [w] follows a change of the map at [w]. *)
Lemma rewatched_ok s s' M M' w ev :
  watching s M → w ∈ io_context s → 0 <= ev <= 3 → rewatched s w ev s' → (∀ v, v ≠ w → M' !! v = M !! v) →
  (http2_substream conf w = false → match M' !! w with Some e => ev = uv_events e | None => ev = 0 ∨ ev = 1 ∧ w ∈ lserv_wsis conf end) →
  watching s' M'.
Proof.
  intros [Hpw Huv Hr Hno Ht Ho] Hw Hev Hs HM HM'.
  assert (io_context s' = io_context s ∧ pwatcher s' = pwatcher s) as [E1 E2] by by destruct Hs as [->|[-> _]].
  assert (∀ v, actual s' v = if decide (v = w) then ev else actual s v) as Ea.
  { intros v. destruct Hs as [->|[-> ->]]; [apply actual_watch|]. by case_decide; subst. }
  split; rewrite ?E1, ?E2; try done.
  - intros v. rewrite Ea. destruct Hs as [->|[-> ->]]; [|case_decide; subst; apply Huv].
    unfold watch. cbn [set_uv uv_polling]. case_decide as Hv; [subst v; destruct (ev =? 0); by rewrite ?lookup_delete_eq, ?lookup_insert_eq|].
    destruct (ev =? 0); rewrite ?lookup_delete_ne, ?lookup_insert_ne by congruence; apply Huv.
  - intros v. rewrite Ea. case_decide; [done|apply Hr].
  - intros v Hv. rewrite Ea. case_decide; [congruence|by apply Hno].
  - intros v e Hv Hsub E. rewrite Ea. case_decide; [subst; specialize (HM' Hsub); by rewrite E in HM'|]. rewrite HM in E by done. by apply Ht.
  - intros v Hsub E. rewrite Ea. case_decide; [subst; specialize (HM' Hsub); by rewrite E in HM'|]. rewrite HM in E by done. by apply Ho.
Qed.

(** Without a watcher, or for a stream inside another connection, nothing is
    to be followed. *)
Lemma unwatched_ok s M M' w :
  watching s M → w ∉ io_context s ∨ http2_substream conf w = true → (∀ v, v ≠ w → M' !! v = M !! v) → watching s M'.
Proof.
  intros [Hpw Huv Hr Hno Ht Ho] Hw HM. split; try done.
  - intros v e Hv Hsub E. destruct (decide (v = w)) as [->|Hne]; [destruct Hw; congruence|]. rewrite HM in E by done. by apply Ht.
  - intros v Hsub E. destruct (decide (v = w)) as [->|Hne]; [destruct Hw as [Hw|]; [left; by apply Hno|congruence]|].
    rewrite HM in E by done. by apply Ho.
Qed.

(** What an operation on watchers leaves as it is. *)
Definition same_table (s s' : poll_state) : Prop :=
  tab s' = tab s ∧ handling_pollout s' = handling_pollout s ∧ same_vh_protocol s' = same_vh_protocol s ∧ io_context s' = io_context s.

Lemma rewatched_table s w ev s' : rewatched s w ev s' → same_table s s'.
Proof. by intros [->|[-> _]]. Qed.

(** One call of event_loop_ops->io that follows a change of the map. *)
Lemma io_follows s M M' w flags :
  watching s M → io_flags flags → (∀ v, v ≠ w → M' !! v = M !! v) →
  (w ∈ io_context s → http2_substream conf w = false →
     match M' !! w with Some e => io_events flags (actual s w) = uv_events e | None => io_events flags (actual s w) = 0 ∨ io_events flags (actual s w) = 1 ∧ w ∈ lserv_wsis conf end) →
  ∃ s', elops_io_uv w flags s = Ok s' ∧ watching s' M' ∧ same_table s s'.
Proof.
  intros Hwt Hf HM HM'. pose proof (wt_range _ _ Hwt w) as Hr. pose proof (wt_pwatcher _ _ Hwt) as Hpw.
  destruct (decide (w ∈ io_context s)) as [Hw|Hw].
  - destruct (rewatch_io s s w (actual s w) flags Hpw Hw Hr) as (s' & -> & Hs); [by right|done|]. exists s'. split; [done|].
    split; [|by eapply rewatched_table]. apply (rewatched_ok s s' M M' w _ Hwt Hw (io_events_range _ _ Hf Hr) Hs HM). by apply HM'.
  - exists s. rewrite elops_io_ok by done. rewrite bool_decide_false by done. split; [done|]. split; [|done].
    apply (unwatched_ok s M M' w); [done|by left|done].
Qed.

(** *** The events *)

Lemma poll_ok_tab s s' nodes M M' ls :
  poll_ok s nodes M ls → table_ok conf (tab s') → holds (tab s') M' → sockfd (tab s') = sockfd (tab s) →
  handling_pollout s' = handling_pollout s → same_vh_protocol s' = same_vh_protocol s → watching s' M' → poll_ok s' nodes M' ls.
Proof. intros [] Hok Hh Es Eh Ev Hw. split; rewrite ?Es, ?Eh, ?Ev; done. Qed.

(** The events of the connections with bits cleared and set, as
    _lws_change_pollfd does it to one that is in the table. *)
Lemma change_1_ok s nodes M ls w (i : nat) a o :
  poll_ok s nodes M ls → position_in_fds_table (tab s) !! w = Some (Z.of_nat i) →
  ∃ s', lws_change_pollfd_1 conf w (Z.of_nat i) a o s = Ok (0, s') ∧ poll_ok s' nodes (alter (set_bits a o) w M) ls ∧ same_conns s s'.
Proof.
  intros Hp Ew. pose proof Hp as [Hok Hh Hha Hg Hn Hl Hwt].
  destruct (ok_pos _ _ Hok _ _ Ew (of_nat_pos i)) as (i' & p & Ei%Nat2Z.inj & Hi & Ep & _). subst i'.
  unfold lws_change_pollfd_1. rewrite (elem_ok _ _ _ Ep), res_bind_ok, store_ok by (by apply lookup_lt_Some in Ep). rewrite res_bind_ok. cbv zeta.
  set (ev := Z.lor (Z.land (events p) (Z.lnot a)) o). set (s1 := set_tab _ s).
  destruct (set_entry_ok conf (tab s) M w i p (Pollfd (fd p) ev (revents p)) Hok Hh Ew Ep eq_refl) as [Hok1 Hh1].
  assert (M !! w = Some (events p)) as EM by (apply (hd_events _ _ Hh); by exists i, p).
  assert (<[w := events (Pollfd (fd p) ev (revents p))]> M = alter (set_bits a o) w M) as EM'.
  { apply map_eq. intros v. destruct (decide (v = w)) as [->|Hv].
    - by rewrite lookup_insert_eq, lookup_alter_eq, EM.
    - by rewrite lookup_insert_ne, lookup_alter_ne by congruence. }
  rewrite EM' in Hh1. set (M' := alter (set_bits a o) w M) in *.
  assert (∀ v, v ≠ w → M' !! v = M !! v) as HM by (intros v Hv; by apply lookup_alter_ne).
  assert (∀ s', watching s' M' → same_table s1 s' → poll_ok s' nodes M' ls ∧ same_conns s s') as Hend.
  { intros s' Hw' (Et & Eh & Ev & Ec). split; [|repeat split; by rewrite ?Et].
    apply (poll_ok_tab s s' nodes M M' ls Hp); rewrite ?Et; done. }
  destruct (http2_substream conf w) eqn:Esub.
  { exists s1. split; [done|]. apply Hend; [|done]. apply (unwatched_ok s1 M M' w); [by destruct Hwt|by right|done]. }
  rewrite Hquiet.
  assert (∃ s2, io_change w a o s1 = Ok s2 ∧ watching s2 M' ∧ same_table s1 s2) as (s2 & -> & Hw2 & Hsame).
  { assert (watching s1 M) as Hwt1 by by destruct Hwt. destruct (decide (w ∈ io_context s)) as [Hw|Hw].
    - destruct (io_change_ok s1 w a o (events p)) as (s2 & E2 & Hr2); [apply (wt_pwatcher _ _ Hwt1)|done|by apply (wt_table _ _ Hwt1)|].
      exists s2. split; [done|]. split; [|by eapply rewatched_table]. eapply (rewatched_ok s1 s2 M M' w _ Hwt1 Hw); [|exact Hr2|done|].
      + apply uv_events_range.
      + intros _. unfold M'. by rewrite lookup_alter_eq, EM.
    - exists s1. split; [|split; [|done]].
      + by apply io_change_unwatched.
      + apply (unwatched_ok s1 M M' w Hwt1); [by left|done]. }
  rewrite res_bind_ok. destruct (Hend s2 Hw2 Hsame) as [Hp2 Hsc].
  destruct (events p =? ev); [by exists s2|]. destruct (negb (service_tid conf =? 0) && has_vhost conf w); [|by exists s2].
  rewrite (proj2 (Z.eqb_neq _ _)) by apply Htid. destruct (negb _); [|by exists s2].
  exists (set_cancels (S (cancels s2)) s2). split; [done|]. split; [|done].
  apply (poll_ok_tab s2 _ nodes M' M' ls Hp2); try done; [apply Hp2|apply Hp2|by destruct Hw2].
Qed.

Lemma change_ok s nodes M ls w a o :
  poll_ok s nodes M ls → is_Some (position_in_fds_table (tab s) !! w) →
  ∃ s', change_pollfd_ conf w a o s = Ok (0, s') ∧ poll_ok s' nodes (alter (set_bits a o) w M) ls ∧ same_conns s s'.
Proof.
  intros Hp [k Ek]. pose proof (po_table _ _ _ _ Hp) as Hok. pose proof (po_holds _ _ _ _ Hp) as Hh.
  assert (w ≠ NULL) as Hw by (apply (wsi_not_null conf (tab s)); [done|by eexists]).
  unfold change_pollfd_. rewrite (proj2 (Z.eqb_neq _ _)) by done. rewrite (field_ok _ _ _ Hw Ek), res_bind_ok.
  destruct (decide (k = LWS_NO_FDS_POS)) as [->|Hk].
  - cbn [Z.eqb LWS_NO_FDS_POS Pos.eqb orb check]. rewrite res_bind_ok. exists s. split; [done|]. split; [|apply same_conns_refl].
    assert (alter (set_bits a o) w M = M) as ->; [|done]. apply map_eq. intros v. destruct (decide (v = w)) as [->|Hv]; [|by rewrite lookup_alter_ne by congruence].
    rewrite lookup_alter_eq. destruct (M !! w) as [e|] eqn:E; [|done].
    destruct (proj1 (polled_iff conf _ _ w Hok Hh)) as (k & E' & Hk); [by eexists|]. congruence.
  - destruct (ok_pos _ _ Hok _ _ Ek Hk) as (i & p & -> & Hi & _). rewrite (check_true (_ || _)), res_bind_ok by (rewrite orb_true_iff; right; apply Z.leb_le; lia).
    rewrite (proj2 (Z.eqb_neq _ _)) by done. rewrite (po_handling _ _ _ _ Hp). rewrite bool_decide_eq_false_2 by set_solver. cbn [andb].
    rewrite check_true, res_bind_ok by (apply Z.ltb_lt; lia). by apply change_1_ok.
Qed.

(** Whether __lws_change_pollfd does anything for a connection. *)
Definition bound (w : Z) : bool := has_protocol conf w || event_pipe conf w.

Definition change (w a o : Z) (M : gmap Z Z) : gmap Z Z := if bound w then alter (set_bits a o) w M else M.

Lemma change_pollfd_ok s nodes M ls w a o :
  poll_ok s nodes M ls → is_Some (position_in_fds_table (tab s) !! w) →
  ∃ s', lws_change_pollfd conf w a o s = Ok (0, s') ∧ poll_ok s' nodes (change w a o M) ls ∧ same_conns s s'.
Proof.
  intros Hp Hs. pose proof Hs as [k Ek]. assert (w ≠ NULL) as Hw by (apply (wsi_not_null conf (tab s)); [apply Hp|done]).
  destruct (change_ok s nodes M ls w a o Hp Hs) as (s' & E & Hp' & Hsc).
  unfold lws_change_pollfd, change, bound. rewrite (proj2 (Z.eqb_neq _ _)) by done. cbn [orb]. rewrite <- negb_orb.
  destruct (has_protocol conf w || event_pipe conf w); [cbn [negb]|exists s; split; [done|]; split; [done|apply same_conns_refl]].
  rewrite (field_ok _ _ _ Hw Ek), res_bind_ok. destruct (Z.eqb_spec k LWS_NO_FDS_POS) as [->|Hk].
  - exists s. split; [done|]. split; [|apply same_conns_refl].
    unfold change_pollfd_ in E. rewrite (proj2 (Z.eqb_neq _ _)), (field_ok _ _ _ Hw Ek), res_bind_ok in E by done. cbn in E.
    injection E as <-. done.
  - rewrite !Hquiet, E, res_bind_ok. by exists s'.
Qed.

(** Accepting on or off for all the listening sockets. *)
Definition modulate (allow : bool) (M : gmap Z Z) : gmap Z Z :=
  foldl (λ M w, alter (if allow then set_bits 0 LWS_POLLIN else set_bits LWS_POLLIN 0) w M) M (lserv_wsis conf).

Lemma modulation_ok s nodes M ls allow : poll_ok s nodes M ls →
  ∃ s', lws_accept_modulation conf allow s = Ok s' ∧ poll_ok s' nodes (modulate allow M) ls ∧ same_conns s s'.
Proof.
  intros Hp. unfold lws_accept_modulation, modulate. pose proof (po_listeners _ _ _ _ Hp) as Hl.
  revert s M Hp Hl. induction (lserv_wsis conf) as [|w l IH]; intros s M Hp Hl; [exists s; split; [done|]; split; [done|apply same_conns_refl]|].
  apply Forall_cons in Hl as [Hw Hl]. cbn [accept_modulation foldl].
  assert (∃ s', (if w =? NULL then Ok (0, s) else if allow then change_pollfd_ conf w 0 LWS_POLLIN s else change_pollfd_ conf w LWS_POLLIN 0 s) = Ok (0, s')
    ∧ poll_ok s' nodes (alter (if allow then set_bits 0 LWS_POLLIN else set_bits LWS_POLLIN 0) w M) ls ∧ same_conns s s') as (s1 & -> & Hp1 & Hsc).
  { destruct Hw as [->|Hw].
    - exists s. split; [done|]. split; [|apply same_conns_refl]. assert (M !! NULL = None) as E.
      { destruct (M !! NULL) eqn:E; [|done]. destruct (proj1 (polled_iff conf _ _ NULL (po_table _ _ _ _ Hp) (po_holds _ _ _ _ Hp))) as (k & E' & _); [by eexists|].
        by rewrite (ok_null _ _ (po_table _ _ _ _ Hp)) in E'. }
      assert (∀ f, alter f NULL M = M) as ->; [|done]. intros f. apply map_eq. intros v.
      destruct (decide (v = NULL)) as [->|Hv]; [by rewrite lookup_alter_eq, E|by rewrite lookup_alter_ne by congruence].
    - assert (is_Some (position_in_fds_table (tab s) !! w)) as Hpos by by apply (ok_dom _ _ (po_table _ _ _ _ Hp)).
      rewrite (proj2 (Z.eqb_neq _ _)) by (by apply (wsi_not_null conf (tab s)), Hpos; apply Hp).
      destruct allow; by apply change_ok. }
  rewrite res_bind_ok. destruct (IH s1 _ Hp1) as (s' & E' & Hp' & Hsc'); [by destruct Hsc as (-> & _)|].
  exists s'. split; [done|]. split; [done|]. by apply (same_conns_trans s s1).
Qed.

Lemma size_modulate allow M : size (modulate allow M) = size M.
Proof.
  unfold modulate. revert M. induction (lserv_wsis conf) as [|w l IH]; intros M; [done|]. cbn [foldl]. rewrite IH.
  rewrite <- !size_dom. by rewrite dom_alter_L.
Qed.

(** *** The operations one by one *)

Lemma insert_ok s nodes M ls w skt :
  poll_ok s nodes M ls → sockfd (tab s) !! w = Some skt → 0 <= skt → M !! w = None →
  (∀ v, is_Some (M !! v) → sockfd (tab s) !! v ≠ Some skt) → event_pipe conf w || has_vhost conf w = true →
  ∃ s', insert_wsi_socket_into_fds conf w s =
      Ok (if (fd_limit_per_thread conf <=? size M)%nat || (Z.of_nat (max_fds conf) <=? skt) then 1 else 0, s')
    ∧ (sockfd (tab s') = sockfd (tab s) ∧ io_context s' = io_context s)
    ∧ poll_ok s' nodes
        (if (fd_limit_per_thread conf <=? size M)%nat || (Z.of_nat (max_fds conf) <=? skt) then M
         else if (S (size M) =? fd_limit_per_thread conf - 1)%nat then modulate false (<[w := LWS_POLLIN]> M)
         else <[w := LWS_POLLIN]> M) ls.
Proof.
  intros Hp Es Hskt HM Hfree Hbound. pose proof (po_table _ _ _ _ Hp) as Hok. pose proof (po_holds _ _ _ _ Hp) as Hh.
  assert (is_Some (position_in_fds_table (tab s) !! w)) as [k Ek] by (apply (ok_dom _ _ Hok); by eexists).
  assert (w ≠ NULL) as Hw by (apply (wsi_not_null conf (tab s)); [done|by eexists]).
  assert (k = LWS_NO_FDS_POS) as ->.
  { destruct (decide (k = LWS_NO_FDS_POS)); [done|]. destruct (proj2 (polled_iff conf _ _ w Hok Hh)) as [e E]; [by exists k|]. congruence. }
  unfold insert_wsi_socket_into_fds. rewrite (field_ok _ _ _ Hw Es), res_bind_ok. rewrite (hd_size _ _ Hh).
  destruct (Nat.leb_spec (fd_limit_per_thread conf) (fds_count (tab s))); [by exists s|]. cbn [orb].
  destruct (Z.leb_spec (Z.of_nat (max_fds conf)) skt); [by exists s|].
  rewrite Hbound, (check_true true), res_bind_ok by done. rewrite check_true, res_bind_ok.
  2:{ rewrite (proj2 (Z.eqb_neq _ _)); [done|]. unfold LWS_SOCK_INVALID. lia. }
  rewrite !Hquiet. destruct (insert_entry_ok conf (tab s) M w skt Hok Hh Ek Es) as (t & -> & Hok1 & Hh1 & Es1 & Ec1); [lia| |done|].
  { destruct (lookup_lt_is_Some_2 (lws_lookup (tab s)) (Z.to_nat skt)) as [v Ev]; [rewrite (ok_lookup_len _ _ Hok); lia|].
    rewrite Ev. f_equal. destruct (decide (v = NULL)) as [|Hv]; [done|]. destruct (ok_back _ _ Hok _ _ Ev Hv) as (Esv & k & Ek' & Hk).
    destruct (Hfree v); [|rewrite Esv; f_equal; lia]. apply (polled_iff conf (tab s)); [done..|]. by exists k. }
  rewrite res_bind_ok. cbv zeta. set (s0 := set_tab t s). pose proof (po_watching _ _ _ _ Hp) as Hwt.
  destruct (io_follows s0 M (<[w := LWS_POLLIN]> M) w (Z.lor LWS_EV_START LWS_EV_READ)) as (s1 & -> & Hw1 & Et & Eh & Ev & Ec);
    [by destruct Hwt|by left|by intros v Hv; apply lookup_insert_ne| |].
  { intros _ Hsub. rewrite lookup_insert_eq. change (actual s0 w) with (actual s w).
    destruct (wt_outside _ _ Hwt w Hsub HM) as [->|[-> _]]; done. }
  rewrite res_bind_ok.
  assert (poll_ok s1 nodes (<[w := LWS_POLLIN]> M) ls) as Hp1 by (apply (poll_ok_tab s s1 nodes M _ ls Hp); rewrite ?Et; done).
  rewrite Et. change (fds_count (tab s0)) with (fds_count t). rewrite Ec1. destruct (_ =? _)%nat.
  - destruct (modulation_ok s1 nodes _ ls false Hp1) as (s' & -> & Hp' & Hsc). rewrite res_bind_ok. exists s'.
    split; [done|]. split; [|done]. destruct Hsc as (-> & _ & _ & _ & _ & ->). rewrite Et, Ec. done.
  - rewrite res_bind_ok. exists s1. split; [done|]. split; [|done]. by rewrite Et, Ec.
Qed.

Lemma poll_ok_groups s nodes M ls h ls' :
  poll_ok s nodes M ls → represents h nodes ls' → poll_ok (set_same_vh h s) nodes M ls'.
Proof. intros [? ? ? ? ? ? []] Hg. by split. Qed.

Lemma same_vh_remove_ok s nodes M ls w :
  poll_ok s nodes M ls → w ∈ nodes →
  ∃ s', lws_same_vh_protocol_remove conf w s = Ok s' ∧ (tab s' = tab s ∧ io_context s' = io_context s)
    ∧ poll_ok s' nodes M (if has_vhost conf w then lists_step ls (Remove w) else ls).
Proof.
  intros Hp Hw. unfold lws_same_vh_protocol_remove. destruct (has_vhost conf w); [|by exists s].
  pose proof (po_groups _ _ _ _ Hp) as Hg. destruct (remove_step _ _ _ _ Hg Hw) as (h & E & Hg').
  assert (∃ n, load (same_vh_protocol s) w = Ok n) as [n En].
  { destruct (load (same_vh_protocol s) w) eqn:El; [by eexists|]. unfold lws_dll_remove in E. by rewrite El in E. }
  rewrite En, res_bind_ok. destruct (lws_dll_is_null n) eqn:Enull.
  - exists s. split; [done|]. split; [done|]. unfold lws_dll_remove in E. rewrite En, res_bind_ok in E.
    unfold lws_dll_is_null in Enull. apply andb_prop in Enull as [Ep _]. rewrite Ep in E. injection E as <-. destruct Hp. by split.
  - rewrite E, res_bind_ok. eexists. split; [done|]. split; [done|]. by apply (poll_ok_groups s nodes M ls).
Qed.

Lemma same_vh_insert_ok s nodes M ls w head :
  poll_ok s nodes M ls → w ∈ nodes → is_Some (ls !! head) →
  ∃ s', lws_same_vh_protocol_insert w head s = Ok s' ∧ (tab s' = tab s ∧ io_context s' = io_context s)
    ∧ poll_ok s' nodes M (lists_step (lists_step ls (Remove w)) (AddFront w head)).
Proof.
  intros Hp Hw Hh. unfold lws_same_vh_protocol_insert. pose proof (po_groups _ _ _ _ Hp) as Hg.
  destruct (remove_step _ _ _ _ Hg Hw) as (h & E & Hg').
  assert (∃ n, load (same_vh_protocol s) w = Ok n) as [n En].
  { destruct (load (same_vh_protocol s) w) eqn:El; [by eexists|]. unfold lws_dll_remove in E. by rewrite El in E. }
  assert ((if lws_dll_is_null n then Ok (same_vh_protocol s) else lws_dll_remove w (same_vh_protocol s)) = Ok h) as E'.
  { destruct (lws_dll_is_null n) eqn:Enull; [|done]. unfold lws_dll_remove in E. rewrite En, res_bind_ok in E.
    unfold lws_dll_is_null in Enull. apply andb_prop in Enull as [Ep _]. by rewrite Ep in E. }
  rewrite En, res_bind_ok, E', res_bind_ok.
  destruct (add_front_step h nodes (lists_step ls (Remove w)) w head Hg' Hw) as (h' & -> & Hg''); [by apply lists_step_dom|].
  rewrite res_bind_ok. eexists. split; [done|]. split; [done|]. by apply (poll_ok_groups s nodes M ls).
Qed.

Lemma remove_fd_ok s nodes M ls w skt :
  poll_ok s nodes M ls → sockfd (tab s) !! w = Some skt → (size M < fd_limit_per_thread conf)%nat →
  let too_high := Z.of_nat (max_fds conf) <? skt in
  ∃ s', remove_wsi_socket_from_fds conf w s = Ok (if too_high then 1 else 0, s')
    ∧ (sockfd (tab s') = sockfd (tab s) ∧ io_context s' = io_context s)
    ∧ poll_ok s' nodes
        (if too_high then M
         else if negb (being_destroyed conf) && (size (delete w M) <? fd_limit_per_thread conf - 1)%nat then modulate true (delete w M)
         else delete w M)
        (if too_high then ls else if has_vhost conf w then lists_step ls (Remove w) else ls).
Proof.
  intros Hp Es Hsz too_high. pose proof (po_table _ _ _ _ Hp) as Hok. pose proof (po_holds _ _ _ _ Hp) as Hh.
  assert (is_Some (position_in_fds_table (tab s) !! w)) as [k Ek] by (apply (ok_dom _ _ Hok); by eexists).
  assert (w ≠ NULL) as Hw by (apply (wsi_not_null conf (tab s)); [done|by eexists]).
  unfold remove_wsi_socket_from_fds. rewrite (field_ok _ _ _ Hw Es), res_bind_ok. fold too_high. destruct too_high; [by exists s|].
  rewrite !Hquiet. destruct (same_vh_remove_ok s nodes M ls w Hp) as (s0 & -> & [Et Ectx] & Hp0); [apply (po_nodes _ _ _ _ Hp); by eexists|].
  rewrite res_bind_ok, Et, (field_ok _ _ _ Hw Ek), res_bind_ok. set (ls' := if has_vhost conf w then _ else ls) in *.
  pose proof (hd_size _ _ Hh) as Hsize.
  destruct (lookup_lt_is_Some_2 (fds (tab s)) (fds_count (tab s))) as [beyond Eb]; [rewrite (ok_len _ _ Hok); lia|].
  assert (check ((k =? LWS_NO_FDS_POS) || (0 <=? k) && (k <? Z.of_nat (fds_count (tab s)))) AssertFailed = Ok tt) as ->.
  { apply check_true. destruct (Z.eqb_spec k LWS_NO_FDS_POS) as [->|Hk]; [done|].
    destruct (ok_pos _ _ Hok _ _ Ek Hk) as (i & p & -> & Hi & _). rewrite (proj2 (Z.leb_le _ _)), (proj2 (Z.ltb_lt _ _)) by lia. done. }
  rewrite res_bind_ok. pose proof (po_watching _ _ _ _ Hp0) as Hwt0.
  assert (∀ v, v ≠ w → delete w M !! v = M !! v) as HM by (intros v Hv; by apply lookup_delete_ne).
  assert (∀ flags c, flags ∈ [Z.lor (Z.lor LWS_EV_STOP LWS_EV_READ) LWS_EV_WRITE;
       Z.lor (Z.lor (Z.lor LWS_EV_STOP LWS_EV_READ) LWS_EV_WRITE) LWS_EV_PREPARE_DELETION] → 0 <= c <= 3 → io_events flags c = 0) as Hstop.
  { intros flags c Hf Hc. assert (c = 0 ∨ c = 1 ∨ c = 2 ∨ c = 3) as Hc' by lia.
    rewrite !elem_of_cons, elem_of_nil in Hf. destruct_or! Hf; destruct_or! Hc'; try done; by subst. }
  destruct (io_follows s0 M (delete w M) w (Z.lor (Z.lor (Z.lor LWS_EV_STOP LWS_EV_READ) LWS_EV_WRITE) LWS_EV_PREPARE_DELETION))
    as (s1 & -> & Hw1 & Et1 & Eh1 & Ev1 & Ec1);
    [done|unfold io_flags; rewrite !elem_of_cons; tauto|done| |].
  { intros _ _. rewrite lookup_delete_eq, Hstop; [by left|rewrite !elem_of_cons; tauto|apply (wt_range _ _ Hwt0)]. }
  rewrite res_bind_ok, Et1, Et, (elem_ok _ _ _ Eb), res_bind_ok.
  assert (∃ s2, (if k =? LWS_NO_FDS_POS then Ok s1
                 else t ← remove_entry w skt k (tab s);
                      elops_io_uv w (Z.lor (Z.lor LWS_EV_STOP LWS_EV_READ) LWS_EV_WRITE) (set_tab t s1)) = Ok s2
    ∧ sockfd (tab s2) = sockfd (tab s) ∧ io_context s2 = io_context s ∧ holds (tab s2) (delete w M)
    ∧ poll_ok s2 nodes (delete w M) ls') as (s2 & -> & Es2 & Ec2 & Hh2 & Hp2).
  { destruct (Z.eqb_spec k LWS_NO_FDS_POS) as [->|Hk].
    - assert (delete w M = M) as EdM.
      { rewrite delete_id; [done|]. destruct (M !! w) eqn:E; [|done].
        destruct (proj1 (polled_iff conf _ _ w Hok Hh)) as (k & E' & Hk); [by eexists|]. congruence. }
      exists s1. rewrite EdM in *. split_and!; [done|by rewrite Et1, Et|by rewrite Ec1|by rewrite Et1, Et|].
      apply (poll_ok_tab s0 s1 nodes M M ls' Hp0); rewrite ?Et1, ?Et; done.
    - destruct (ok_pos _ _ Hok _ _ Ek Hk) as (i & p & -> & Hi & _).
      destruct (remove_entry_ok conf (tab s) M w skt i Hok Hh Ek Es) as (t & -> & Hok1 & Hh1 & Es1 & _). rewrite res_bind_ok.
      assert (watching (set_tab t s1) (delete w M)) as Hw1' by by destruct Hw1.
      destruct (io_follows (set_tab t s1) (delete w M) (delete w M) w (Z.lor (Z.lor LWS_EV_STOP LWS_EV_READ) LWS_EV_WRITE))
        as (s2 & -> & Hw2 & Et2 & Eh2 & Ev2 & Ec2); [done|unfold io_flags; rewrite !elem_of_cons; tauto|done| |].
      { intros _ _. rewrite lookup_delete_eq, Hstop; [by left|rewrite !elem_of_cons; tauto|apply (wt_range _ _ Hw1')]. }
      exists s2. rewrite Et2. cbn [set_tab tab]. split_and!; try done; [by rewrite Ec2; cbn [set_tab io_context]; rewrite Ec1|].
      apply (poll_ok_tab s0 s2 nodes M (delete w M) ls' Hp0); rewrite ?Et2; cbn [set_tab tab]; try done.
      + by rewrite Es1, Et.
      + by rewrite Eh2.
      + by rewrite Ev2. }
  rewrite res_bind_ok, andb_false_r, <- (hd_size _ _ Hh2). destruct (negb (being_destroyed conf) && _).
  - destruct (modulation_ok s2 nodes _ ls' true Hp2) as (s' & -> & Hp' & Hsc). rewrite res_bind_ok. exists s'.
    split; [done|]. destruct Hsc as (-> & _ & _ & _ & _ & ->). by split.
  - rewrite res_bind_ok. exists s2. by split_and!.
Qed.

(** Every connection of a protocol is asked for a writeable callback. *)
Lemma writable_loop_ok nodes ls l : ∀ s M p d q fuel,
  poll_ok s nodes M ls → seg (same_vh_protocol s) p d l q NULL → Forall (λ w, is_Some (position_in_fds_table (tab s) !! w)) l →
  (length l ≤ fuel)%nat →
  ∃ s', writable_loop conf fuel d s = Ok s' ∧ same_conns s s' ∧ poll_ok s' nodes (foldl (λ M w, change w 0 LWS_POLLOUT M) M l) ls.
Proof.
  induction l as [|w l IH]; intros s M p d q fuel Hp Hs Hl Hf.
  - destruct Hs as [-> _]. exists s. split; [by destruct fuel|]. split; [apply same_conns_refl|done].
  - destruct Hs as (-> & Hw & nx & E & Hs). destruct fuel as [|fuel]; [cbn in Hf; lia|]. apply Forall_cons in Hl as [[k Ek] Hl].
    cbn [writable_loop foldl]. rewrite (proj2 (Z.eqb_neq _ _)), (load_ok _ _ _ Hw E), res_bind_ok by done. cbn [next].
    assert (∃ r s1, lws_callback_on_writable conf w s = Ok (r, s1) ∧ same_conns s s1 ∧ poll_ok s1 nodes (change w 0 LWS_POLLOUT M) ls)
      as (r & s1 & -> & Hsc & Hp1).
    { unfold lws_callback_on_writable. rewrite (field_ok _ _ _ Hw Ek), res_bind_ok.
      destruct (change_pollfd_ok s nodes M ls w 0 LWS_POLLOUT Hp) as (s1 & E1 & Hp1 & Hsc); [by eexists|].
      destruct (Z.eqb_spec k LWS_NO_FDS_POS) as [->|Hk].
      - exists (-1), s. split; [done|]. split; [apply same_conns_refl|]. assert (change w 0 LWS_POLLOUT M = M) as ->; [|done].
        unfold change. destruct (bound w); [|done]. apply map_eq. intros v. destruct (decide (v = w)) as [->|Hv]; [|by rewrite lookup_alter_ne by congruence].
        rewrite lookup_alter_eq. destruct (M !! w) eqn:EM; [|done].
        destruct (proj1 (polled_iff conf _ _ w (po_table _ _ _ _ Hp) (po_holds _ _ _ _ Hp))) as (k & E' & Hk); [by eexists|]. congruence.
      - rewrite E1, res_bind_ok. by exists 1, s1. }
    rewrite res_bind_ok. pose proof Hsc as (_ & _ & Epos & _ & Eh & _).
    destruct (IH s1 _ w nx q fuel Hp1) as (s' & -> & Hsc' & Hp'); [by rewrite Eh|by rewrite Epos|cbn in Hf; lia|].
    exists s'. split; [done|]. split; [by apply (same_conns_trans s s1)|done].
Qed.

End ops.

(** ** What the poll table promises *)

(** The table as a map from connections to the events they are served for,
    the connections of each protocol of a vhost, and the connections that have a
    watcher. *)
Record apoll := APoll { polled : gmap Z Z; groups : lists; watched : gset Z }.

Inductive poll_op :=
  | Accept (w : Z)                                   (** event_loop_ops->accept *)
  | Listen (w : Z)                                   (** event_loop_ops->init_vhost_listen_wsi *)
  | InsertFd (w : Z)                                 (** __insert_wsi_socket_into_fds *)
  | RemoveFd (w : Z)                                 (** __remove_wsi_socket_from_fds *)
  | ChangeFd (w a o : Z)                             (** lws_change_pollfd *)
  | Bind (w head : Z)                                (** lws_same_vh_protocol_insert *)
  | WritableAll (head : Z).                          (** lws_callback_on_writable_all_protocol_vhost *)

Section machine.
Context (conf : poll_conf).

Definition poll_step (o : poll_op) (s : poll_state) : res (Z * poll_state) :=
  match o with
  | Accept w => elops_accept_uv conf w s
  | Listen w => elops_init_vhost_listen_wsi_uv conf w s
  | InsertFd w => insert_wsi_socket_into_fds conf w s
  | RemoveFd w => remove_wsi_socket_from_fds conf w s
  | ChangeFd w a o => lws_change_pollfd conf w a o s
  | Bind w head => s ← lws_same_vh_protocol_insert w head s; Ok (0, s)
  | WritableAll head => s ← lws_callback_on_writable_all_protocol_vhost conf head s; Ok (0, s)
  end.

Fixpoint poll_run (os : list poll_op) (s : poll_state) : res (list Z * poll_state) :=
  match os with
  | [] => Ok ([], s)
  | o :: os => '(r, s) ← poll_step o s; '(rs, s) ← poll_run os s; Ok (r :: rs, s)
  end.

(** The same on maps; [skts] are the descriptors of the connections. *)
Definition apoll_step (skts : gmap Z Z) (o : poll_op) (a : apoll) : Z * apoll :=
  let M := polled a in
  let limit := fd_limit_per_thread conf in
  match o with
  | Accept w | Listen w => (0, APoll M (groups a) ({[w]} ∪ watched a))
  | InsertFd w =>
      if (limit <=? size M)%nat || (Z.of_nat (max_fds conf) <=? default 0 (skts !! w)) then (1, a)
      else
        let M' := <[w := LWS_POLLIN]> M in
        (0, APoll (if (size M' =? limit - 1)%nat then modulate conf false M' else M') (groups a) (watched a))
  | RemoveFd w =>
      if Z.of_nat (max_fds conf) <? default 0 (skts !! w) then (1, a)
      else
        let M' := delete w M in
        (0, APoll (if negb (being_destroyed conf) && (size M' <? limit - 1)%nat then modulate conf true M' else M')
              (if has_vhost conf w then lists_step (groups a) (Remove w) else groups a) (watched a))
  | ChangeFd w b o => (0, APoll (change conf w b o M) (groups a) (watched a))
  | Bind w head => (0, APoll M (lists_step (lists_step (groups a) (Remove w)) (AddFront w head)) (watched a))
  | WritableAll head =>
      (0, APoll (foldl (λ M w, change conf w 0 LWS_POLLOUT M) M (default [] (groups a !! head))) (groups a) (watched a))
  end.

Fixpoint apoll_run (skts : gmap Z Z) (os : list poll_op) (a : apoll) : list Z * apoll :=
  match os with
  | [] => ([], a)
  | o :: os => let '(r, a) := apoll_step skts o a in let '(rs, a) := apoll_run skts os a in (r :: rs, a)
  end.

(** A connection is inserted with a descriptor that no other one in the table
    has, and none is removed from a full table.  An accepted connection gets its
    watcher, for which there is memory, before its place; a listening socket may
    get it while its place is polled for reading only. *)
Definition poll_legal (skts : gmap Z Z) (o : poll_op) (a : apoll) : Prop :=
  match o with
  | Accept w => w ∉ watched a ∧ polled a !! w = None ∧ uv_malloc_fails conf w = false
  | Listen w => w ≠ NULL ∧ (w ∈ watched a ∨ uv_malloc_fails conf w = false ∧ w ∈ lserv_wsis conf ∧ default LWS_POLLIN (polled a !! w) = LWS_POLLIN)
  | InsertFd w =>
      match skts !! w with
      | Some skt => 0 <= skt ∧ polled a !! w = None ∧ map_Forall (λ v _, skts !! v ≠ Some skt) (polled a)
                      ∧ event_pipe conf w || has_vhost conf w = true
      | None => False
      end
  | RemoveFd w => is_Some (skts !! w) ∧ (size (polled a) < fd_limit_per_thread conf)%nat
  | ChangeFd w _ _ => is_Some (skts !! w)
  | Bind w head => is_Some (skts !! w) ∧ is_Some (groups a !! head)
  | WritableAll head => is_Some (groups a !! head)
  end.

#[global] Instance poll_legal_dec skts o a : Decision (poll_legal skts o a).
Proof. destruct o; cbn; try apply _. destruct (skts !! w); apply _. Defined.

Fixpoint legal_run (skts : gmap Z Z) (os : list poll_op) (a : apoll) : Prop :=
  match os with
  | [] => True
  | o :: os => poll_legal skts o a ∧ legal_run skts os (apoll_step skts o a).2
  end.

#[global] Instance legal_run_dec skts os a : Decision (legal_run skts os a).
Proof. revert a. induction os as [|o os IH]; intros a; cbn; apply _. Defined.

Context (Hquiet : ∀ r w, refused conf r w = false) (Htid : ∀ w, get_thread_id conf w ≠ -1).

(** A new watcher, before it is started. *)
Lemma accept_uv_ok s M w :
  watching conf s M → w ∉ io_context s → uv_malloc_fails conf w = false →
  ∃ s', elops_accept_uv conf w s = Ok (0, s') ∧ tab s' = tab s ∧ handling_pollout s' = handling_pollout s
    ∧ same_vh_protocol s' = same_vh_protocol s ∧ io_context s' = {[w]} ∪ io_context s
    ∧ actual s' w = 0 ∧ ∀ M', (∀ v, v ≠ w → M' !! v = M !! v) → M' !! w = None → watching conf s' M'.
Proof.
  intros [Hpw Huv Hr Hno Ht Ho] Hw Hm. unfold elops_accept_uv. rewrite Hm. eexists. split; [done|]. do 4 (split; [done|]).
  split; [by apply Hno|]. intros M' HM E. split; cbn [set_watcher io_context pwatcher]; try done.
  - set_solver.
  - intros v Hv. apply Hno. set_solver.
  - intros v e Hv Hsub Ev. destruct (decide (v = w)) as [->|Hne]; [congruence|]. apply Ht; [set_solver|done|]. by rewrite <- HM.
  - intros v Hsub Ev. destruct (decide (v = w)) as [->|Hne].
    + left. exact (Hno w Hw).
    + apply (Ho v Hsub). by rewrite <- HM.
Qed.

Lemma accept_step_ok s nodes M ls w :
  poll_ok conf s nodes M ls → w ∉ io_context s → M !! w = None → uv_malloc_fails conf w = false →
  ∃ s', elops_accept_uv conf w s = Ok (0, s') ∧ poll_ok conf s' nodes M ls ∧ io_context s' = {[w]} ∪ io_context s
    ∧ sockfd (tab s') = sockfd (tab s).
Proof.
  intros Hp Hw HM Hm. destruct (accept_uv_ok s M w (po_watching _ _ _ _ _ Hp) Hw Hm) as (s' & E & Et & Eh & Ev & Ec & _ & Hwt).
  exists s'. split; [done|]. split; [|by rewrite Et]. apply (poll_ok_tab conf s s' nodes M M ls Hp); rewrite ?Et; try done; try apply Hp. by apply Hwt.
Qed.

Lemma listen_step_ok s nodes M ls w :
  poll_ok conf s nodes M ls → w ≠ NULL → w ∈ io_context s ∨ uv_malloc_fails conf w = false ∧ w ∈ lserv_wsis conf ∧ default LWS_POLLIN (M !! w) = LWS_POLLIN →
  ∃ s', elops_init_vhost_listen_wsi_uv conf w s = Ok (0, s') ∧ poll_ok conf s' nodes M ls ∧ io_context s' = {[w]} ∪ io_context s
    ∧ sockfd (tab s') = sockfd (tab s).
Proof.
  intros Hp Hw0 Hl. unfold elops_init_vhost_listen_wsi_uv. rewrite (proj2 (Z.eqb_neq _ _)) by done.
  case_bool_decide as Hw; [exists s; split_and!; try done; set_solver|]. destruct Hl as [|(Hm & Hls & HM)]; [done|].
  destruct (accept_uv_ok s M w (po_watching _ _ _ _ _ Hp) Hw Hm) as (s1 & -> & Et & Eh & Ev & Ec & Ea & Hwt).
  rewrite res_bind_ok. cbn [Z.eqb negb].
  destruct (io_follows conf s1 (delete w M) M w (Z.lor LWS_EV_START LWS_EV_READ)) as (s' & -> & Hw' & Et' & Eh' & Ev' & Ec').
  - apply Hwt; [intros v Hv; by apply lookup_delete_ne|by rewrite lookup_delete_eq].
  - by left.
  - intros v Hv. by rewrite lookup_delete_ne.
  - intros _ _. rewrite Ea. destruct (M !! w) as [e|]; [cbn in HM; by subst e|]. by right.
  - rewrite res_bind_ok. exists s'. split; [done|]. rewrite Ec', Ec, Et', Et. split; [|done].
    apply (poll_ok_tab conf s s' nodes M M ls Hp); rewrite ?Et', ?Et, ?Eh', ?Eh, ?Ev', ?Ev; try done; apply Hp.
Qed.

Lemma poll_step_ok skts o s nodes a :
  poll_ok conf s nodes (polled a) (groups a) → io_context s = watched a → sockfd (tab s) = skts → poll_legal skts o a →
  ∃ s', poll_step o s = Ok ((apoll_step skts o a).1, s')
    ∧ poll_ok conf s' nodes (polled (apoll_step skts o a).2) (groups (apoll_step skts o a).2)
    ∧ io_context s' = watched (apoll_step skts o a).2 ∧ sockfd (tab s') = skts.
Proof.
  intros Hp Hf <- Hl. destruct o as [w|w|w|w|w b o|w head|head]; cbn [poll_step apoll_step poll_legal] in *; cbv zeta.
  - destruct Hl as (Hw & HM & Hm). destruct (accept_step_ok s nodes _ _ w Hp) as (s' & -> & Hp' & Ec & Es); [by rewrite Hf|done..|].
    exists s'. rewrite Ec, Hf. by split_and!.
  - destruct Hl as (Hw0 & Hl). destruct (listen_step_ok s nodes _ _ w Hp Hw0) as (s' & -> & Hp' & Ec & Es); [by rewrite Hf|].
    exists s'. rewrite Ec, Hf. by split_and!.
  - destruct (sockfd (tab s) !! w) as [skt|] eqn:Es; [|done]. destruct Hl as (H0 & HM & Hfree & Hb). cbn [default from_option id].
    destruct (insert_ok conf Hquiet Htid s nodes (polled a) (groups a) w skt Hp Es H0 HM) as (s' & -> & (Esk & Ef) & Hp'); [|done|].
    { intros v [e Ev] E. by apply (Hfree v e Ev). }
    rewrite map_size_insert_None by done. exists s'. rewrite Ef, Hf. by destruct ((_ <=? _)%nat || _).
  - destruct Hl as ([skt Es] & Hsz). rewrite Es. cbn [default from_option id].
    destruct (remove_fd_ok conf Hquiet Htid s nodes (polled a) (groups a) w skt Hp Es Hsz) as (s' & -> & (Esk & Ef) & Hp').
    exists s'. rewrite Ef, Hf. by destruct (_ <? skt).
  - destruct (change_pollfd_ok conf Hquiet Htid s nodes _ (groups a) w b o Hp) as (s' & -> & Hp' & Hsc); [by apply (ok_dom _ _ (po_table _ _ _ _ _ Hp))|].
    exists s'. destruct Hsc as (-> & _ & _ & _ & _ & ->). by split_and!.
  - destruct Hl as [Hw Hh]. destruct (same_vh_insert_ok conf s nodes _ (groups a) w head Hp) as (s' & -> & (Et & Ef) & Hp'); [by apply (po_nodes _ _ _ _ _ Hp)|done|].
    rewrite res_bind_ok. exists s'. rewrite Et, Ef. by split_and!.
  - destruct Hl as [l El]. rewrite El. cbn [default from_option id]. unfold lws_callback_on_writable_all_protocol_vhost.
    pose proof (rp_lists _ _ _ (po_groups _ _ _ _ _ Hp) _ _ El) as Hd. destruct (dll_lookup _ _ _ head Hd) as [Hh0 _]; [by left|].
    pose proof Hd as [_ (q & _ & _ & nx & Eh & Hs)]. rewrite (load_ok _ _ _ Hh0 Eh), res_bind_ok. cbn [next].
    destruct (writable_loop_ok conf Hquiet Htid nodes (groups a) l s (polled a) head nx q (size (same_vh_protocol s)) Hp Hs) as (s' & -> & Hsc & Hp').
    { apply Forall_forall. intros w Hw. apply (ok_dom _ _ (po_table _ _ _ _ _ Hp)), (po_nodes _ _ _ _ _ Hp).
      by apply (rp_nodes _ _ _ (po_groups _ _ _ _ _ Hp) head l). }
    { pose proof (dll_size _ _ _ Hd). lia. }
    rewrite res_bind_ok. exists s'. destruct Hsc as (-> & _ & _ & _ & _ & ->). by split_and!.
Qed.

End machine.

Lemma poll_run_ok conf skts os s nodes a :
  (∀ r w, refused conf r w = false) → (∀ w, get_thread_id conf w ≠ -1) →
  poll_ok conf s nodes (polled a) (groups a) → io_context s = watched a → sockfd (tab s) = skts → legal_run conf skts os a →
  ∃ s', poll_run conf os s = Ok ((apoll_run conf skts os a).1, s')
    ∧ poll_ok conf s' nodes (polled (apoll_run conf skts os a).2) (groups (apoll_run conf skts os a).2)
    ∧ io_context s' = watched (apoll_run conf skts os a).2.
Proof.
  intros Hquiet Htid. revert s a. induction os as [|o os IH]; intros s a Hok Hf Hs Hl; [by exists s|].
  destruct Hl as [Ho Hl]. cbn [poll_run apoll_run].
  destruct (poll_step_ok conf Hquiet Htid skts o s nodes a Hok Hf Hs Ho) as (s1 & -> & Hok1 & Hf1 & Hs1).
  destruct (apoll_step conf skts o a) as [r a1]. cbn [fst snd] in *. rewrite res_bind_ok.
  destruct (IH s1 a1 Hok1 Hf1 Hs1 Hl) as (s' & -> & Hok' & Hf'). destruct (apoll_run conf skts os a1) as [rs a2]. cbn [fst snd] in *.
  rewrite res_bind_ok. by exists s'.
Qed.

(** [C11] Any sequence of insertions and removals of connections, changes of
    their events, broadcasts to the connections of a protocol and new watchers
    keeps pt->fds, pt->fds_count, lws_lookup and position_in_fds_table
    consistent, and does to the events of the connections what the same
    operations do to a map: an entry moves only in the array, and the listening
    sockets are switched off and on by the number of entries.  What libuv is
    asked to poll, for a connection that has a watcher, is what the map says, and
    nothing for one that is not in it (a listening socket may be polled just
    before it gets its place).  The results are those of the map too: 1 exactly when there is no
    room.  The conditions are those of [poll_legal]: among them, no connection is
    removed from a table that is full (which reads past its end, see
    [remove_from_full_table_reads_past]); and protocol 0 does not refuse the
    callbacks for external poll loops, nor is POLLOUT being handled. *)
Theorem poll_table_refines_map conf skts os s nodes a
    (Hquiet : ∀ r w, refused conf r w = false)
    (Htid : ∀ w, get_thread_id conf w ≠ -1)
    (Hok : poll_ok conf s nodes (polled a) (groups a))
    (Hwatched : io_context s = watched a)
    (Hskts : sockfd (tab s) = skts)
    (Hlegal : legal_run conf skts os a) :
  let a' := (apoll_run conf skts os a).2 in
  ∃ s', poll_run conf os s = Ok ((apoll_run conf skts os a).1, s')
    ∧ poll_ok conf s' nodes (polled a') (groups a')
    ∧ (∀ w e, w ∈ watched a' → http2_substream conf w = false → polled a' !! w = Some e →
         uv_polling s' !! w = if uv_events e =? 0 then None else Some (uv_events e))
    ∧ (∀ w, w ∉ lserv_wsis conf → http2_substream conf w = false → polled a' !! w = None → uv_polling s' !! w = None).
Proof.
  intros a'. destruct (poll_run_ok conf skts os s nodes a) as (s' & E & Hok' & Hf'); [done..|].
  exists s'. split; [done|]. split; [done|]. pose proof (po_watching _ _ _ _ _ Hok') as Hwt. split.
  - intros w e Hw Hsub He. rewrite (wt_uv _ _ _ Hwt). rewrite (wt_table _ _ _ Hwt w e); [done|by rewrite Hf'|done..].
  - intros w Hw Hsub He. rewrite (wt_uv _ _ _ Hwt). by destruct (wt_outside _ _ _ Hwt w Hsub He) as [->|[_ ?]].
Qed.

(** ** Accepting connections *)

Section accept.
Context (conf : poll_conf).

(** A listening socket in the table is asked for new connections exactly
    while the table has room for two more. *)
Definition accepting (M : gmap Z Z) : Prop :=
  ∀ w e, w ∈ lserv_wsis conf → M !! w = Some e → Z.testbit e 0 = bool_decide (size M < fd_limit_per_thread conf - 1)%nat.

(** An operation that leaves the POLLIN of listening sockets alone, and does
    not give one of them the last place. *)
Definition mild (a : apoll) (o : poll_op) : Prop :=
  match o with
  | InsertFd w => w ∈ lserv_wsis conf → (S (size (polled a)) < fd_limit_per_thread conf)%nat
  | ChangeFd w b o => w ∈ lserv_wsis conf → Z.testbit b 0 = false ∧ Z.testbit o 0 = false
  | _ => True
  end.

Fixpoint mild_run (skts : gmap Z Z) (os : list poll_op) (a : apoll) : Prop :=
  match os with [] => True | o :: os => mild a o ∧ mild_run skts os (apoll_step conf skts o a).2 end.

#[global] Instance mild_dec a o : Decision (mild a o).
Proof. destruct o; cbn; apply _. Defined.

#[global] Instance mild_run_dec skts os a : Decision (mild_run skts os a).
Proof. revert a. induction os as [|o os IH]; intros a; cbn; apply _. Defined.

Lemma testbit_set_bits a o e : Z.testbit (set_bits a o e) 0 = Z.testbit e 0 && negb (Z.testbit a 0) || Z.testbit o 0.
Proof. unfold set_bits. by rewrite Z.lor_spec, Z.land_spec, Z.lnot_spec by lia. Qed.

Lemma modulate_listeners allow M w e :
  w ∈ lserv_wsis conf → modulate conf allow M !! w = Some e → Z.testbit e 0 = allow.
Proof.
  unfold modulate. set (f := λ M w, alter (if allow then set_bits 0 LWS_POLLIN else set_bits LWS_POLLIN 0) w M).
  assert (∀ e, Z.testbit ((if allow then set_bits 0 LWS_POLLIN else set_bits LWS_POLLIN 0) e) 0 = allow) as Hset.
  { intros e'. destruct allow; rewrite testbit_set_bits; cbn; [by rewrite orb_true_r|by rewrite andb_false_r]. }
  intros Hw. assert (∀ L M, w ∈ L ∨ (∀ e, M !! w = Some e → Z.testbit e 0 = allow) → ∀ e, foldl f M L !! w = Some e → Z.testbit e 0 = allow) as H.
  { clear Hw M e. induction L as [|v L IH]; intros M Hin; cbn [foldl]; [destruct Hin as [Hin%elem_of_nil|Hin]; [done|by apply Hin]|].
    apply IH. destruct (decide (w = v)) as [<-|Hne].
    - right. intros e'. unfold f. rewrite lookup_alter_eq. destruct (M !! w); [|done]. intros [= <-]. apply Hset.
    - destruct Hin as [Hin|Hin]; [left; by apply elem_of_cons in Hin as [?|?]|right]. intros e'. unfold f. rewrite lookup_alter_ne by congruence. apply Hin. }
  apply H. by left.
Qed.

Lemma change_size w a o M : size (change conf w a o M) = size M.
Proof. unfold change. destruct (bound conf w); [|done]. rewrite <- !size_dom. by rewrite dom_alter_L. Qed.

Lemma change_accepting w a o M :
  accepting M → (w ∈ lserv_wsis conf → Z.testbit a 0 = false ∧ Z.testbit o 0 = false) → accepting (change conf w a o M).
Proof.
  intros Ha Hw v e Hv. rewrite change_size. unfold change. destruct (bound conf w); [|by apply Ha].
  destruct (decide (v = w)) as [->|Hne]; [|rewrite lookup_alter_ne by congruence; by apply Ha].
  rewrite lookup_alter_eq. destruct (M !! w) as [e0|] eqn:E; [|done]. intros [= <-]. destruct (Hw Hv) as [Ea Eo].
  rewrite testbit_set_bits, Ea, Eo, andb_true_r, orb_false_r. by apply (Ha w).
Qed.

Lemma step_accepting skts o a :
  being_destroyed conf = false → accepting (polled a) → poll_legal conf skts o a → mild a o → accepting (polled (apoll_step conf skts o a).2).
Proof.
  intros Hbd Ha Hl Hm. destruct o as [w|w|w|w|w b o|w head|head]; cbn [apoll_step]; cbv zeta; [done|done|..].
  - cbn [poll_legal] in Hl. destruct (skts !! w) as [skt|]; [|done]. destruct Hl as (_ & HM & _).
    destruct (Nat.leb_spec (fd_limit_per_thread conf) (size (polled a))); cbn [orb snd]; [done|].
    destruct (_ <=? _); [done|]. cbn [snd polled]. rewrite map_size_insert_None by done.
    destruct (Nat.eqb_spec (S (size (polled a))) (fd_limit_per_thread conf - 1)) as [Hfull|Hfull].
    + intros v e Hv E. rewrite (modulate_listeners _ _ _ _ Hv E), size_modulate, map_size_insert_None, bool_decide_eq_false_2 by (done || lia). done.
    + intros v e Hv E. rewrite map_size_insert_None by done. destruct (decide (v = w)) as [->|Hne].
      * rewrite lookup_insert_eq in E. injection E as <-. cbn [mild] in Hm. specialize (Hm Hv). rewrite bool_decide_eq_true_2 by lia. done.
      * rewrite lookup_insert_ne in E by congruence. rewrite (Ha v e Hv E). apply bool_decide_ext. lia.
  - destruct (_ <? _); [done|]. cbn [snd polled]. rewrite Hbd. cbn [negb andb].
    destruct (Nat.ltb_spec (size (delete w (polled a))) (fd_limit_per_thread conf - 1)) as [Hfull|Hfull].
    + intros v e Hv E. rewrite (modulate_listeners _ _ _ _ Hv E), size_modulate, bool_decide_eq_true_2 by done. done.
    + intros v e Hv E. destruct (decide (v = w)) as [->|Hne]; [by rewrite lookup_delete_eq in E|]. rewrite lookup_delete_ne in E by congruence.
      rewrite (Ha v e Hv E). apply bool_decide_ext. rewrite map_size_delete in *. destruct (polled a !! w); cbn [id] in *; lia.
  - cbn [snd polled]. by apply change_accepting.
  - done.
  - cbn [snd polled]. generalize (polled a) Ha. induction (default [] (groups a !! head)) as [|w l IH]; intros M HM; [done|]. cbn [foldl].
    apply IH. apply change_accepting; [done|]. by intros _.
Qed.

End accept.

(** [C39] While connections come and go, each listening socket in the table is
    polled for new connections exactly when the table still has room for more
    than one entry, so that accepting stops before the table is full and starts
    again when a connection left. *)
Theorem listeners_accept_while_room conf skts os s nodes a
    (Hquiet : ∀ r w, refused conf r w = false)
    (Htid : ∀ w, get_thread_id conf w ≠ -1)
    (Hok : poll_ok conf s nodes (polled a) (groups a))
    (Hwatched : io_context s = watched a)
    (Hskts : sockfd (tab s) = skts)
    (Hlegal : legal_run conf skts os a)
    (Hup : being_destroyed conf = false)
    (Haccept : accepting conf (polled a))
    (Hmild : mild_run conf skts os a) :
  ∃ rs s', poll_run conf os s = Ok (rs, s')
    ∧ ∀ w i p, w ∈ lserv_wsis conf → position_in_fds_table (tab s') !! w = Some (Z.of_nat i) → fds (tab s') !! i = Some p →
        Z.testbit (events p) 0 = bool_decide (fds_count (tab s') < fd_limit_per_thread conf - 1)%nat.
Proof.
  destruct (poll_run_ok conf skts os s nodes a) as (s' & E & Hok' & _); [done..|].
  eexists _, s'. split; [exact E|]. intros w i p Hw Ei Ep.
  assert (accepting conf (polled (apoll_run conf skts os a).2)) as Ha.
  { clear -Hup Haccept Hmild Hlegal. revert a Haccept Hmild Hlegal. induction os as [|o os IH]; intros a Ha Hm Hl; [done|].
    destruct Hm as [Hm1 Hm], Hl as [Hl1 Hl]. cbn [apoll_run]. pose proof (step_accepting conf skts o a Hup Ha Hl1 Hm1) as Ha1.
    destruct (apoll_step conf skts o a) as [r a1]. cbn [snd] in *. specialize (IH a1 Ha1 Hm Hl).
    by destruct (apoll_run conf skts os a1). }
  rewrite <- (hd_size _ _ (po_holds _ _ _ _ _ Hok')). apply (Ha w); [done|].
  apply (hd_events _ _ (po_holds _ _ _ _ _ Hok')). by exists i, p.
Qed.

(** ** Examples *)

(** A table with nothing in it, for connections with these descriptors. *)
Definition poll_init (conf : poll_conf) (skts : gmap Z Z) (h : heap) : poll_state :=
  PollState
    (Table (replicate (fd_limit_per_thread conf) (Pollfd 0 0 0)) 0 0 (replicate (max_fds conf) NULL) skts ((λ _, LWS_NO_FDS_POS) <$> skts))
    ∅ ∅ 0 h ∅ ∅ ∅ ∅.

Lemma poll_init_ok conf skts h ls :
  skts !! NULL = None → represents h (dom skts) ls → Forall (λ w, w = NULL ∨ is_Some (skts !! w)) (lserv_wsis conf) →
  poll_ok conf (poll_init conf skts h) (dom skts) ∅ ls.
Proof.
  intros H0 Hr Hl. split; try done; cbn [poll_init tab sockfd].
  - split; cbn; rewrite ?length_replicate; try done; try lia.
    + intros w. rewrite lookup_fmap. by rewrite fmap_is_Some.
    + by rewrite lookup_fmap, H0.
    + intros w k. rewrite lookup_fmap. destruct (skts !! w); [|done]. by intros [= <-].
    + by intros j w [-> _]%lookup_replicate.
  - split; [|done]. intros w e. rewrite lookup_empty. split; [done|]. intros (i & p & E & _). cbn in E. rewrite lookup_fmap in E.
    destruct (skts !! w); [|done]. injection E as E. unfold LWS_NO_FDS_POS in E. lia.
  - intros w. by rewrite elem_of_dom.
  - split; try done; intros w; unfold actual; cbn; rewrite ?lookup_empty; try done. by left.
Qed.

(** Room for four; connection 10 listens. *)
Definition small_conf : poll_conf :=
  PollConf 50 4 [10] false (λ _, false) (λ _, true) (λ _, true) (λ _ _, false) 0 (λ _, 0) (λ _, false) (λ _, false).

Definition small_skts : gmap Z Z := list_to_map [(10, 3); (11, 5); (12, 4)].

Definition small_start : poll_state := poll_init small_conf small_skts two_heads.

Lemma small_start_ok : poll_ok small_conf small_start (dom small_skts) ∅ two_lists.
Proof.
  apply poll_init_ok; [done| |by_compute].
  replace (dom small_skts) with ({[10; 11; 12]} : gset Z) by by_compute. apply two_heads_represents.
Qed.

Definition small_run : list poll_op :=
  [Listen 10; InsertFd 10; Accept 11; InsertFd 11; Bind 11 2; ChangeFd 11 LWS_POLLIN LWS_POLLOUT; Accept 12; InsertFd 12; Bind 12 2;
   RemoveFd 11; ChangeFd 10 0 0; WritableAll 2].

Lemma poll_table_refines_map_witness :
  let a := APoll ∅ two_lists ∅ in
  ((∀ r w, refused small_conf r w = false) ∧ (∀ w, get_thread_id small_conf w ≠ -1)
    ∧ poll_ok small_conf small_start (dom small_skts) (polled a) (groups a) ∧ io_context small_start = watched a
    ∧ sockfd (tab small_start) = small_skts ∧ legal_run small_conf small_skts small_run a)
  ∧ polled (apoll_run small_conf small_skts small_run a).2 = {[ 10 := 1; 12 := 5 ]}
  ∧ let a' := (apoll_run small_conf small_skts small_run a).2 in
    ∃ s', poll_run small_conf small_run small_start = Ok ((apoll_run small_conf small_skts small_run a).1, s')
    ∧ poll_ok small_conf s' (dom small_skts) (polled a') (groups a')
    ∧ (∀ w e, w ∈ watched a' → http2_substream small_conf w = false → polled a' !! w = Some e →
         uv_polling s' !! w = if uv_events e =? 0 then None else Some (uv_events e))
    ∧ (∀ w, w ∉ lserv_wsis small_conf → http2_substream small_conf w = false → polled a' !! w = None → uv_polling s' !! w = None).
Proof.
  intros a. assert (∀ r w, refused small_conf r w = false) as H1 by done. assert (∀ w, get_thread_id small_conf w ≠ -1) as H2 by done.
  pose proof small_start_ok as H3. assert (legal_run small_conf small_skts small_run a) as H4 by by_compute.
  split; [by split_and!|]. split; [by vm_compute|].
  exact (poll_table_refines_map small_conf small_skts small_run small_start (dom small_skts) a H1 H2 H3 eq_refl eq_refl H4).
Defined.

Lemma listeners_accept_while_room_witness :
  let a := APoll ∅ two_lists ∅ in
  ((∀ r w, refused small_conf r w = false) ∧ (∀ w, get_thread_id small_conf w ≠ -1)
    ∧ poll_ok small_conf small_start (dom small_skts) (polled a) (groups a) ∧ io_context small_start = watched a
    ∧ sockfd (tab small_start) = small_skts ∧ legal_run small_conf small_skts (take 9 small_run) a
    ∧ being_destroyed small_conf = false ∧ accepting small_conf (polled a) ∧ mild_run small_conf small_skts (take 9 small_run) a)
  ∧ ∃ rs s', poll_run small_conf (take 9 small_run) small_start = Ok (rs, s')
    ∧ ∀ w i p, w ∈ lserv_wsis small_conf → position_in_fds_table (tab s') !! w = Some (Z.of_nat i) → fds (tab s') !! i = Some p →
        Z.testbit (events p) 0 = bool_decide (fds_count (tab s') < fd_limit_per_thread small_conf - 1)%nat.
Proof.
  intros a. assert (∀ r w, refused small_conf r w = false) as H1 by done. assert (∀ w, get_thread_id small_conf w ≠ -1) as H2 by done.
  pose proof small_start_ok as H3. assert (legal_run small_conf small_skts (take 9 small_run) a) as H4 by by_compute.
  assert (accepting small_conf (polled a)) as H5 by (intros w e _ E; assert (polled a !! w = None) by apply lookup_empty; congruence).
  assert (mild_run small_conf small_skts (take 9 small_run) a) as H6 by by_compute.
  split; [by split_and!|].
  exact (listeners_accept_while_room small_conf small_skts (take 9 small_run) small_start (dom small_skts) a H1 H2 H3 eq_refl eq_refl H4 eq_refl H5 H6).
Defined.

(** Removing a connection from a full table reads behind the array, for a
    debug message. *)
Theorem remove_from_full_table_reads_past :
  let conf := PollConf 50 2 [] false (λ _, false) (λ _, true) (λ _, true) (λ _ _, false) 0 (λ _, 0) (λ _, false) (λ _, false) in
  poll_run conf [InsertFd 10; InsertFd 11; RemoveFd 10] (poll_init conf small_skts two_heads) = Fault OutOfBounds.
Proof. vm_compute. reflexivity. Qed.
