(* ===== verification/Timeouts.v ===== *)
(** * Timeouts in seconds

    The timeouts of connections (lws_set_timeout of core/libwebsockets.c) and
    the timed callbacks of protocols (lws_timed_callback_vh_protocol), which
    lws_service_periodic_checks of core/service.c looks at once per second:
    how it copes with a clock that jumps, how it closes the connections whose
    timeout has passed, and how it makes the callbacks that are due.

    A connection is the address of its node dll_timeout; [head] is the address
    of pt->dll_head_timeout.  The clock is a parameter, the seconds at its
    [n]-th reading.  So is what the callbacks of a connection that is closed
    do to timeouts.  As in the build with libuv, the memory of a connection that
    is closed stays until the loop has closed its watcher, after the check; and
    a connection is closed alone (HTTP/2 streams and CGI pipes, which are closed
    with the connection that carries them, are left out). *)

From stdpp Require Import base numbers list gmap.
From Stdlib Require Import ZArith Lia.
From S2P Require Import Prelude Dll.

Definition LWS_TO_KILL_ASYNC : Z := -1.
Definition LWS_TO_KILL_SYNC : Z := -2.

(** ** A clock that jumps *)

(** The times the context keeps. *)
Record times := Times {
  last_timeout_check_s : Z;
  time_discontiguity : Z;
  time_fixup : Z;
}.

Definition lws_compare_time_t (k : times) (t1 t2 : Z) : Z :=
  let t1 := if t1 <? time_discontiguity k then t1 + time_fixup k else t1 in
  let t2 := if t2 <? time_discontiguity k then t2 + time_fixup k else t2 in
  s32 (t1 - t2).

(** The start of lws_service_periodic_checks: after more than 100 seconds
    without a check the clock is taken to have jumped; there is one check per
    second at most. *)
Definition clock_jump (now : Z) (k : times) : times :=
  if negb (last_timeout_check_s k =? 0) && (100 <? now - last_timeout_check_s k)
  then Times (now - 1) now (now - last_timeout_check_s k) else k.

Definition check_clock (now : Z) (k : times) : option times :=
  let k := clock_jump now k in
  if lws_compare_time_t k (last_timeout_check_s k) now =? 0 then None
  else Some (Times now (time_discontiguity k) (time_fixup k)).

(** ** Timeouts of connections *)

(** wsi->pending_timeout_limit (an unsigned short), pending_timeout_set and
    pending_timeout (a char). *)
Record timeout := Timeout { limit : Z; set_at : Z; pending_timeout : Z }.

Record timeouts := Timeouts {
  dll_timeout : heap;
  pending : gmap Z timeout;
  time_readings : nat;
  closings : nat;
}.

Definition set_timeout_dll (h : heap) (s : timeouts) : timeouts := Timeouts h (pending s) (time_readings s) (closings s).

(** What callbacks do to timeouts: lws_set_timeout, closing a connection. *)
Inductive timeout_call := SetTimeout (wsi reason secs : Z) | CloseWsi (wsi : Z).

Section timeouts.
Context (head : Z) (clock : nat → Z) (on_close : nat → Z → list timeout_call).

(** __lws_set_timeout *)
Definition set_timeout_ (wsi reason secs : Z) (s : timeouts) : res timeouts :=
  match pending s !! wsi with
  | None => Fault UseAfterFree
  | Some _ =>
      h ← (if reason =? 0 then lws_dll_remove wsi (dll_timeout s) else lws_dll_add_front wsi head (dll_timeout s));
      Ok (Timeouts h (<[wsi := Timeout (u16 secs) (clock (time_readings s)) (s8 reason)]> (pending s)) (S (time_readings s)) (closings s))
  end.

(** __lws_remove_from_timeout_list *)
Definition remove_from_timeout_list (wsi : Z) (s : timeouts) : res timeouts :=
  h ← lws_dll_remove wsi (dll_timeout s); Ok (set_timeout_dll h s).

(** The calls the callbacks of a closed connection make; closing another one
    there calls no more callbacks. *)
Definition timeout_step (c : timeout_call) (s : timeouts) : res timeouts :=
  match c with
  | SetTimeout wsi reason secs =>
      if secs =? LWS_TO_KILL_SYNC then remove_from_timeout_list wsi s
      else set_timeout_ wsi reason (if secs =? LWS_TO_KILL_ASYNC then 0 else secs) s
  | CloseWsi wsi => remove_from_timeout_list wsi s
  end.

Fixpoint timeout_steps (cs : list timeout_call) (s : timeouts) : res timeouts :=
  match cs with [] => Ok s | c :: cs => s ← timeout_step c s; timeout_steps cs s end.

(** What __lws_close_free_wsi does to timeouts when it kills a connection: it
    leaves the list before its callbacks are called. *)
Definition close_timeout (wsi : Z) (s : timeouts) : res timeouts :=
  s ← remove_from_timeout_list wsi s;
  timeout_steps (on_close (closings s) wsi) (Timeouts (dll_timeout s) (pending s) (time_readings s) (S (closings s))).

Definition lws_set_timeout (wsi reason secs : Z) (s : timeouts) : res timeouts :=
  if secs =? LWS_TO_KILL_SYNC then
    s ← remove_from_timeout_list wsi s; close_timeout wsi s
  else set_timeout_ wsi reason (if secs =? LWS_TO_KILL_ASYNC then 0 else secs) s.

(** __lws_service_timeout_check *)
Definition service_timeout_check (k : times) (wsi sec : Z) (s : timeouts) : res (bool * timeouts) :=
  n ← load (dll_timeout s) wsi;
  match pending s !! wsi with
  | None => Fault UseAfterFree
  | Some p =>
      if negb (prev n =? NULL) && (limit p <? lws_compare_time_t k sec (set_at p)) then s ← close_timeout wsi s; Ok (true, s)
      else Ok (false, s)
  end.

(** The loop over the list; it returns the connections it closed. *)
Fixpoint timeout_loop (fuel : nat) (k : times) (now d : Z) (s : timeouts) : res (list Z * timeouts) :=
  if d =? NULL then Ok ([], s)
  else
    match fuel with
    | O => Fault Unfinished
    | S f =>
        n ← load (dll_timeout s) d;
        '(gone, s) ← service_timeout_check k d now s;
        '(closed, s) ← timeout_loop f k now (next n) s;
        Ok (if gone : bool then d :: closed else closed, s)
    end.

(** Once per second: the clock and the connections. *)
Definition check_timeouts (k : times) (s : timeouts) : res (list Z * times * timeouts) :=
  let now := clock (time_readings s) in
  let s := Timeouts (dll_timeout s) (pending s) (S (time_readings s)) (closings s) in
  match check_clock now k with
  | None => Ok ([], clock_jump now k, s)
  | Some k =>
      first ← load (dll_timeout s) head;
      '(closed, s) ← timeout_loop (size (dll_timeout s)) k now (next first) s;
      Ok (closed, k, s)
  end.

End timeouts.

(** ** The list of timeouts *)

(** [nodes] are the connections; those of [l] have a timeout. *)
Record timing (head : Z) (nodes : gset Z) (s : timeouts) (l : list Z) : Prop := {
  tg_dll : dll (dll_timeout s) head l;
  tg_pending w : w ∈ nodes → is_Some (pending s !! w);
  tg_nodes w : w ∈ l → w ∈ nodes;
  tg_free w : w ∈ nodes → w ≠ head ∧ (w ∈ l ∨ unlinked (dll_timeout s) w);
}.

Lemma timing_frame head nodes s s' l :
  timing head nodes s l → dll_timeout s' = dll_timeout s → (∀ w, w ∈ nodes → is_Some (pending s' !! w)) → timing head nodes s' l.
Proof. intros [Hd Hp Hn Hf] E Hp'. by split; rewrite ?E. Qed.

Lemma timeout_remove head nodes s l w :
  timing head nodes s l → w ∈ nodes →
  ∃ h, lws_dll_remove w (dll_timeout s) = Ok h ∧ unlinked h w ∧ timing head nodes (set_timeout_dll h s) (filter (λ v, v ≠ w) l).
Proof.
  intros [Hd Hp Hn Hf] Hw. destruct (Hf w Hw) as [Hh [Hin|Hu]].
  - apply list_elem_of_split in Hin as (l1 & l2 & ->). destruct (remove_ok _ _ _ _ _ Hd) as (h & E & Hd' & Ew & Hfr).
    exists h. split; [done|]. destruct (dll_lookup _ _ _ w Hd) as [Hw0 _]; [right; apply elem_of_app; right; by left|].
    assert (unlinked h w) as Hu by (split; [done|]; by exists NULL). split; [done|].
    pose proof Hd as [[_ Hnd]%NoDup_cons _]. rewrite filter_out_middle by done.
    split; cbn [set_timeout_dll dll_timeout pending]; [done|done| |].
    + intros v Hv. apply Hn. rewrite elem_of_app, elem_of_cons in *. tauto.
    + intros v Hv. destruct (Hf v Hv) as [Hvh Hv']. split; [done|]. destruct (decide (v = w)) as [->|Hne]; [by right|].
      destruct Hv' as [Hv'|[Hv0 [nx Ev]]]; [left; rewrite elem_of_app, elem_of_cons in Hv'; rewrite elem_of_app; tauto|].
      right. split; [done|]. exists nx. rewrite Hfr; [done|]. intros [->|Hin]%elem_of_cons; [done|].
      by apply (unlinked_not_in _ _ _ v Hd); [split; [done|]; exists nx|].
  - exists (dll_timeout s). split; [by apply remove_unlinked|]. split; [done|].
    rewrite filter_out_absent by by apply (unlinked_not_in _ _ _ _ Hd). by destruct s.
Qed.

Lemma timeout_add head nodes s l w :
  timing head nodes s l → w ∈ nodes →
  ∃ h, lws_dll_add_front w head (dll_timeout s) = Ok h ∧ timing head nodes (set_timeout_dll h s) (if decide (w ∈ l) then l else w :: l).
Proof.
  intros [Hd Hp Hn Hf] Hw. destruct (Hf w Hw) as [Hh Hw']. destruct (decide (w ∈ l)) as [Hin|Hout].
  - exists (dll_timeout s). split; [|by destruct s]. pose proof Hin as (l1 & l2 & ->)%list_elem_of_split.
    destruct (dll_nil_unlinked _ _ _ _ _ Hd) as (n & En & Hpn). destruct (dll_lookup _ _ _ w Hd) as [Hw0 _]; [by right|].
    unfold lws_dll_add_front. rewrite (load_ok _ _ _ Hw0 En), res_bind_ok. by rewrite (proj2 (Z.eqb_neq _ _)) by done.
  - destruct Hw' as [?|Hu]; [done|]. destruct (add_front_ok _ _ _ _ Hd Hu Hh) as (h & E & Hd' & Hfr). exists h. split; [done|].
    split; cbn [set_timeout_dll dll_timeout pending]; [done|done| |].
    + intros v [->|Hv]%elem_of_cons; [done|by apply Hn].
    + intros v Hv. destruct (Hf v Hv) as [Hvh Hv']. split; [done|]. destruct (decide (v = w)) as [->|Hne]; [left; by left|].
      destruct Hv' as [Hv'|[Hv0 [nx Ev]]]; [left; by right|]. right. split; [done|]. exists nx. rewrite Hfr; [done|].
      rewrite !elem_of_cons. intros [->|[->|Hin]]; [done|done|]. by apply (unlinked_not_in _ _ _ v Hd); [split; [done|]; exists nx|].
Qed.

Lemma set_timeout_ok head clock nodes s l w reason secs :
  timing head nodes s l → w ∈ nodes →
  ∃ s', set_timeout_ head clock w reason secs s = Ok s'
    ∧ timing head nodes s' (if reason =? 0 then filter (λ v, v ≠ w) l else if decide (w ∈ l) then l else w :: l)
    ∧ pending s' = <[w := Timeout (u16 secs) (clock (time_readings s)) (s8 reason)]> (pending s)
    ∧ time_readings s' = S (time_readings s) ∧ closings s' = closings s.
Proof.
  intros Ht Hw. unfold set_timeout_. destruct (tg_pending _ _ _ _ Ht w Hw) as [p ->].
  assert (∀ v, v ∈ nodes → is_Some (<[w := Timeout (u16 secs) (clock (time_readings s)) (s8 reason)]> (pending s) !! v)) as Hp.
  { intros v Hv. destruct (decide (v = w)) as [->|]; [rewrite lookup_insert_eq; by eexists|]. rewrite lookup_insert_ne by done. by apply (tg_pending _ _ _ _ Ht). }
  destruct (reason =? 0).
  - destruct (timeout_remove _ _ _ _ _ Ht Hw) as (h & -> & _ & Ht'). rewrite res_bind_ok. eexists. split; [done|]. split; [|done]. by apply (timing_frame _ _ _ _ _ Ht').
  - destruct (timeout_add _ _ _ _ _ Ht Hw) as (h & -> & Ht'). rewrite res_bind_ok. eexists. split; [done|]. split; [|done]. by apply (timing_frame _ _ _ _ _ Ht').
Qed.

Lemma timing_without head nodes s l w :
  timing head nodes s l → w ∉ l → timing head (nodes ∖ {[w]}) s l.
Proof.
  intros [Hd Hp Hn Hf] Hw. split; [done|..].
  - intros v [Hv _]%elem_of_difference. by apply Hp.
  - intros v Hv. apply elem_of_difference. split; [by apply Hn|]. rewrite elem_of_singleton. by intros ->.
  - intros v [Hv _]%elem_of_difference. by apply Hf.
Qed.

(** ** What callbacks may do *)

(** While [todo] wait for their turn, a callback sets or cancels timeouts of
    none of them and closes nobody. *)
Definition calm_call (nodes : gset Z) (todo : list Z) (c : timeout_call) : bool :=
  match c with
  | SetTimeout w _ secs => bool_decide (w ∈ nodes ∧ w ∉ todo) && negb (secs =? LWS_TO_KILL_SYNC)
  | CloseWsi _ => false
  end.

Definition named (c : timeout_call) : Z := match c with SetTimeout w _ _ => w | CloseWsi w => w end.

Section checks.
Context (head : Z) (clock : nat → Z) (on_close : nat → Z → list timeout_call).

(** The callbacks of those of [l] that are overdue, the first close numbered
    [c], are calm, and do not name connections that were closed; the connections
    they name. *)
Fixpoint calm (E : Z → bool) (c : nat) (nodes : gset Z) (l : list Z) : bool :=
  match l with
  | [] => true
  | w :: l => if E w then forallb (calm_call (nodes ∖ {[w]}) l) (on_close c w) && calm E (S c) (nodes ∖ {[w]}) l else calm E c nodes l
  end.

Fixpoint touched (E : Z → bool) (c : nat) (l : list Z) : list Z :=
  match l with
  | [] => []
  | w :: l => if E w then (named <$> on_close c w) ++ touched E (S c) l else touched E c l
  end.

Lemma steps_calm nodes todo cs : ∀ s pre,
  timing head nodes s (pre ++ todo) → forallb (calm_call nodes todo) cs = true →
  ∃ s' pre', timeout_steps head clock cs s = Ok s' ∧ timing head nodes s' (pre' ++ todo) ∧ closings s' = closings s
    ∧ (∀ v, v ∉ named <$> cs → (v ∈ pre' ↔ v ∈ pre) ∧ pending s' !! v = pending s !! v)
    ∧ (∀ v, v ∈ todo → pending s' !! v = pending s !! v).
Proof.
  induction cs as [|c cs IH]; intros s pre Ht Hcs; [by exists s, pre|]. cbn [forallb] in Hcs. apply andb_prop in Hcs as [Hc Hcs].
  destruct c as [w reason secs|w]; [|done]. cbn [calm_call] in Hc. apply andb_prop in Hc as [[Hw Hwt]%bool_decide_eq_true Hsec%negb_true_iff].
  cbn [timeout_steps timeout_step]. rewrite Hsec. set (secs' := if _ =? LWS_TO_KILL_ASYNC then 0 else secs).
  destruct (set_timeout_ok head clock nodes s _ w reason secs' Ht Hw) as (s1 & -> & Ht1 & Ep & _ & Ec). rewrite res_bind_ok.
  assert (∃ pre1, (if reason =? 0 then filter (λ v, v ≠ w) (pre ++ todo) else if decide (w ∈ pre ++ todo) then pre ++ todo else w :: pre ++ todo) = pre1 ++ todo
            ∧ ∀ v, v ≠ w → (v ∈ pre1 ↔ v ∈ pre)) as (pre1 & E1 & Hpre1).
  { destruct (reason =? 0); [|destruct (decide _)].
    - exists (filter (λ v, v ≠ w) pre). rewrite filter_app, (filter_out_absent todo) by done. split; [done|]. intros v Hv. rewrite list_elem_of_filter. tauto.
    - by exists pre.
    - exists (w :: pre). split; [done|]. intros v Hv. rewrite elem_of_cons. tauto. }
  rewrite E1 in Ht1. destruct (IH s1 pre1 Ht1 Hcs) as (s' & pre' & E' & Ht' & Ec' & Hv' & Hl'). exists s', pre'. split; [done|]. split; [done|]. split; [congruence|].
  split.
  - intros v. cbn [fmap list_fmap named]. intros [Hvw Hv]%not_elem_of_cons. destruct (Hv' v Hv) as [H1 H2]. rewrite H1, H2, Hpre1, Ep by done.
    by rewrite lookup_insert_ne by done.
  - intros v Hv. rewrite Hl', Ep by done. apply lookup_insert_ne. by intros ->.
Qed.

(** Closing a connection, with [todo] still to come. *)
Lemma close_calm nodes s pre w todo :
  timing head nodes s (pre ++ w :: todo) → forallb (calm_call (nodes ∖ {[w]}) todo) (on_close (closings s) w) = true →
  ∃ s' pre', close_timeout head clock on_close w s = Ok s' ∧ timing head (nodes ∖ {[w]}) s' (pre' ++ todo) ∧ closings s' = S (closings s)
    ∧ (∀ v, v ≠ w → v ∉ named <$> on_close (closings s) w → (v ∈ pre' ↔ v ∈ pre) ∧ pending s' !! v = pending s !! v)
    ∧ (∀ v, v ∈ todo → pending s' !! v = pending s !! v).
Proof.
  intros Ht Hcs. assert (w ∈ nodes) as Hw by (apply (tg_nodes _ _ _ _ Ht); apply elem_of_app; right; by left).
  pose proof (tg_dll _ _ _ _ Ht) as [[_ Hnd]%NoDup_cons _]. pose proof (NoDup_drop_middle _ _ _ Hnd) as [_ Hwl].
  unfold close_timeout, remove_from_timeout_list. destruct (timeout_remove _ _ _ _ _ Ht Hw) as (h & -> & _ & Ht1). rewrite !res_bind_ok.
  rewrite filter_out_middle in Ht1 by done. cbn [set_timeout_dll dll_timeout pending time_readings closings].
  set (s1 := Timeouts h (pending s) (time_readings s) (S (closings s))).
  assert (timing head (nodes ∖ {[w]}) s1 (pre ++ todo)) as Ht1'.
  { apply timing_without; [|done]. apply (timing_frame _ _ _ _ _ Ht1); [done|apply (tg_pending _ _ _ _ Ht1)]. }
  destruct (steps_calm (nodes ∖ {[w]}) todo _ s1 pre Ht1' Hcs) as (s2 & pre2 & -> & Ht2 & Ec2 & Hv2 & Hl2).
  exists s2, pre2. split_and!; try done. intros v _ Hv. by apply Hv2.
Qed.

(** The connections whose time is up at [now]. *)
Definition overdue (k : times) (now : Z) (s : timeouts) (v : Z) : bool :=
  match pending s !! v with Some p => limit p <? lws_compare_time_t k now (set_at p) | None => false end.

Lemma next_of h l1 d l2 : dll h head (l1 ++ d :: l2) → d ≠ NULL ∧ ∃ p, h !! d = Some (Node p (default NULL (hd_error l2))) ∧ p ≠ NULL.
Proof.
  intros (_ & Hd & L & x & m & q & c & _ & _ & Hx & _ & Ed & Hs)%dll_at. split; [done|]. exists x. split; [|done]. rewrite Ed. do 2 f_equal.
  destruct l2 as [|y l2]; [by destruct Hs as [-> _]|by destruct Hs as [-> _]].
Qed.

Lemma loop_closes k now E todo : ∀ nodes s pre fuel,
  timing head nodes s (pre ++ todo) → (∀ v, v ∈ todo → overdue k now s v = E v) → calm E (closings s) nodes todo = true → (length todo < fuel)%nat →
  ∃ s' pre', timeout_loop head clock on_close fuel k now (default NULL (hd_error todo)) s = Ok (filter E todo, s')
    ∧ timing head (nodes ∖ list_to_set (filter E todo)) s' pre'
    ∧ (∀ v, v ∉ filter E todo → v ∉ touched E (closings s) todo → (v ∈ pre' ↔ v ∈ pre ++ todo) ∧ pending s' !! v = pending s !! v).
Proof.
  induction todo as [|w todo IH]; intros nodes s pre fuel Ht HE Hcalm Hf; (destruct fuel as [|fuel]; [cbn in Hf; lia|]).
  { exists s, pre. split; [done|]. rewrite app_nil_r in *. split; [|done]. by replace (nodes ∖ list_to_set (filter E [])) with nodes by set_solver. }
  cbn [length] in Hf. destruct (next_of _ _ _ _ (tg_dll _ _ _ _ Ht)) as (Hw0 & p & Ew & Hp0). cbn [hd_error default from_option id timeout_loop].
  rewrite (proj2 (Z.eqb_neq w NULL)) by done. rewrite (load_ok _ _ _ Hw0 Ew), res_bind_ok. cbn [next]. unfold service_timeout_check.
  rewrite (load_ok _ _ _ Hw0 Ew), res_bind_ok. cbn [prev]. rewrite (proj2 (Z.eqb_neq p NULL)) by done. cbn [negb andb].
  assert (w ∈ nodes) as Hw by (apply (tg_nodes _ _ _ _ Ht); apply elem_of_app; right; by left).
  destruct (tg_pending _ _ _ _ Ht w Hw) as [pw Epw]. rewrite Epw. pose proof (HE w (list_elem_of_here _ _)) as Ew'. unfold overdue in Ew'. rewrite Epw in Ew'.
  rewrite Ew'. cbn [calm touched] in *. pose proof (tg_dll _ _ _ _ Ht) as [[_ Hnd]%NoDup_cons _]. pose proof (NoDup_drop_middle _ _ _ Hnd) as [_ Hwl].
  rewrite elem_of_app in Hwl. destruct (E w) eqn:EEw.
  - apply andb_prop in Hcalm as [Hc Hcalm]. destruct (close_calm nodes s pre w todo Ht Hc) as (s1 & pre1 & -> & Ht1 & Ec1 & Hv1 & Hl1). rewrite !res_bind_ok.
    destruct (IH (nodes ∖ {[w]}) s1 pre1 fuel Ht1) as (s' & pre' & -> & Ht' & Hv').
    + intros v Hv. unfold overdue. rewrite Hl1 by done. apply HE. by right.
    + by rewrite Ec1.
    + lia.
    + rewrite res_bind_ok, filter_cons_True by by rewrite EEw. exists s', pre'. split; [done|]. split.
      * cbn [list_to_set]. by replace (nodes ∖ ({[w]} ∪ list_to_set (filter E todo))) with (nodes ∖ {[w]} ∖ list_to_set (filter E todo)) by set_solver.
      * intros v [Hvw Hvf]%not_elem_of_cons Hvt. rewrite elem_of_app in Hvt. rewrite Ec1 in Hv'. destruct (Hv' v Hvf ltac:(tauto)) as [H1 H2].
        destruct (Hv1 v Hvw ltac:(tauto)) as [H3 H4]. rewrite H1, H2, H4, !elem_of_app, elem_of_cons, H3. tauto.
  - rewrite !res_bind_ok. specialize (IH nodes s (pre ++ [w]) fuel). rewrite <- app_assoc in IH. cbn [app] in IH.
    destruct (IH Ht) as (s' & pre' & -> & Ht' & Hv'); [intros v Hv; apply HE; by right|done|lia|].
    rewrite res_bind_ok, filter_cons_False by (rewrite EEw; by intros []). by exists s', pre'.
Qed.

End checks.

(** [C12] Once per second, the connections whose timeout has passed are closed,
    each once, and no others; the list stays well linked and every other
    connection keeps its timeout, also when the callbacks of those that are
    closed set or cancel timeouts of connections that have had their turn and
    were not closed.  (A callback that cancels the timeout of the connection
    looked at next ends the check early, see [cancelling_next_ends_check].) *)
Theorem overdue_connections_closed head clock on_close nodes k k' s l
    (Hclock : check_clock (clock (time_readings s)) k = Some k')
    (Ht : timing head nodes s l)
    (Hcalm : calm on_close (overdue k' (clock (time_readings s)) s) (closings s) nodes l = true) :
  let closed := filter (overdue k' (clock (time_readings s)) s) l in
  ∃ s' l', check_timeouts head clock on_close k s = Ok (closed, k', s') ∧ timing head (nodes ∖ list_to_set closed) s' l'
    ∧ ∀ v, v ∉ closed → v ∉ touched on_close (overdue k' (clock (time_readings s)) s) (closings s) l →
        (v ∈ l' ↔ v ∈ l) ∧ pending s' !! v = pending s !! v.
Proof.
  intros closed. unfold check_timeouts. rewrite Hclock. set (s1 := Timeouts (dll_timeout s) (pending s) (S (time_readings s)) (closings s)).
  assert (timing head nodes s1 ([] ++ l)) as Ht1 by (apply (timing_frame _ _ _ _ _ Ht); [done|apply (tg_pending _ _ _ _ Ht)]).
  pose proof (tg_dll _ _ _ _ Ht) as Hd. destruct (dll_lookup _ _ _ head Hd) as [Hh0 _]; [by left|]. pose proof (dll_size _ _ _ Hd) as Hsz.
  pose proof Hd as [_ (q & _ & _ & nx & Eh & Hseg)]. cbn [s1 dll_timeout]. rewrite (load_ok _ _ _ Hh0 Eh), res_bind_ok. cbn [next].
  assert (nx = default NULL (hd_error l)) as -> by (destruct l; by destruct Hseg as [-> _]).
  destruct (loop_closes head clock on_close k' (clock (time_readings s)) _ l nodes s1 [] (size (dll_timeout s)) Ht1 (λ _ _, eq_refl) Hcalm ltac:(lia))
    as (s' & l' & E & Ht' & Hv'). change (overdue k' (clock (time_readings s)) s1) with (overdue k' (clock (time_readings s)) s) in *.
  rewrite E, res_bind_ok. by exists s', l'.
Qed.

(** A clock that jumps forward does not make timeouts pass: at the check
    that notices it a timeout has the age it had at the check before, and ages
    with the clock from then on. *)
Theorem jump_keeps_ages k now set later
    (Hlast : last_timeout_check_s k ≠ 0)
    (Hjump : 100 < now - last_timeout_check_s k <= INT_MAX)
    (Hset : set <= last_timeout_check_s k)
    (Hlater : now <= later)
    (Hage : last_timeout_check_s k - set + (later - now) <= INT_MAX) :
  ∃ k', check_clock now k = Some k' ∧ lws_compare_time_t k' later set = last_timeout_check_s k - set + (later - now).
Proof.
  unfold check_clock, clock_jump. rewrite (proj2 (Z.eqb_neq (last_timeout_check_s k) 0)) by done. rewrite (proj2 (Z.ltb_lt 100 (now - last_timeout_check_s k))) by lia. cbn [negb andb].
  unfold lws_compare_time_t. cbn [last_timeout_check_s time_discontiguity time_fixup]. rewrite (proj2 (Z.ltb_lt _ now)) by lia.
  rewrite (proj2 (Z.ltb_ge now now)) by lia. unfold INT_MAX in *.
  assert (s32 (now - 1 + (now - last_timeout_check_s k) - now) = now - 1 - last_timeout_check_s k) as -> by (rewrite s32_small; unfold INT_MIN, INT_MAX; lia).
  rewrite (proj2 (Z.eqb_neq _ 0)) by lia. eexists. split; [done|]. cbn [time_discontiguity time_fixup]. rewrite (proj2 (Z.ltb_ge later now)), (proj2 (Z.ltb_lt set now)) by lia.
  rewrite s32_small; unfold INT_MIN, INT_MAX; lia.
Qed.

(** ** Timed callbacks of protocols *)

(** struct lws_timed_vh_protocol *)
Record timed := Timed { t_protocol : Z; t_time : Z; t_reason : Z; tsi_req : Z }.

#[global] Instance timed_eq_dec : EqDecision timed.
Proof. solve_decision. Defined.

(** The vhosts with their timed_vh_protocol_list. *)
Abbreviation vh_timers := (list (Z * list timed)).

(** The vhost's list gets a new first element. *)
Definition lws_timed_callback_vh_protocol (mem : bool) (self now : Z) (vh prot reason secs : Z) (vs : vh_timers) : Z * vh_timers :=
  if mem then
    let p := Timed prot (now + secs) reason (if self <? 0 then 0 else self) in
    (0, (λ v, if v.1 =? vh then (v.1, p :: v.2) else v) <$> vs)
  else (1, vs).

Definition ripe (now tsi : Z) (q : timed) : bool := (t_time q <=? now) && (tsi_req q =? tsi).

(** How many are due. *)
Definition count_ripe (now tsi : Z) (vs : vh_timers) : nat :=
  foldr (λ v n, length (filter (ripe now tsi) v.2) + n)%nat 0%nat vs.

(** The timers due are moved from the list to the array [tmr] of [n]. *)
Fixpoint collect_list (n : nat) (now tsi vh : Z) (l : list timed) (tmr : list (Z * timed)) : list timed * list (Z * timed) :=
  match l with
  | [] => ([], tmr)
  | q :: l' =>
      if (length tmr =? n)%nat then (l, tmr)
      else if ripe now tsi q then collect_list n now tsi vh l' (tmr ++ [(vh, q)])
      else let '(rest, tmr) := collect_list n now tsi vh l' tmr in (q :: rest, tmr)
  end.

Fixpoint collect (n : nat) (now tsi : Z) (vs : vh_timers) (tmr : list (Z * timed)) : vh_timers * list (Z * timed) :=
  match vs with
  | [] => ([], tmr)
  | (vh, l) :: vs =>
      let '(l, tmr) := collect_list n now tsi vh l tmr in
      let '(vs, tmr) := collect n now tsi vs tmr in ((vh, l) :: vs, tmr)
  end.

(** The callbacks, with the vhosts' lists; [on_timed] is what the [i]-th of
    them does to the lists. *)
Fixpoint call_timed (on_timed : nat → Z * timed → vh_timers → vh_timers) (i : nat) (tmr : list (Z * timed)) (vs : vh_timers) : vh_timers :=
  match tmr with [] => vs | t :: tmr => call_timed on_timed (S i) tmr (on_timed i t vs) end.

(** Phase 3 of lws_service_periodic_checks; [mem]: the two allocations succeed. *)
Definition timed_callbacks (on_timed : nat → Z * timed → vh_timers → vh_timers) (mem : bool) (now tsi : Z) (vs : vh_timers) :
    list (Z * timed) * vh_timers :=
  let n := count_ripe now tsi vs in
  if (n =? 0)%nat || negb mem then ([], vs)
  else let '(vs, tmr) := collect n now tsi vs [] in (tmr, call_timed on_timed 0 tmr vs).

(** ** Lemmas: collecting *)

Lemma collect_list_ok n now tsi vh l tmr :
  (length tmr + length (filter (ripe now tsi) l) ≤ n)%nat →
  collect_list n now tsi vh l tmr = (filter (λ q, ¬ ripe now tsi q) l, tmr ++ (pair vh <$> filter (ripe now tsi) l)).
Proof.
  revert tmr. induction l as [|q l IH]; intros tmr Hn; [by rewrite app_nil_r|]. cbn [collect_list].
  destruct (ripe now tsi q) eqn:Eq.
  - rewrite (filter_cons_True (ripe now tsi) q) in * by by rewrite Eq. rewrite (filter_cons_False (λ q, ¬ ripe now tsi q)) by (rewrite Eq; intros H; by apply H). cbn [length fmap list_fmap] in *.
    rewrite (proj2 (Nat.eqb_neq _ _)) by lia. rewrite IH by (rewrite length_app; cbn; lia). by rewrite <- app_assoc.
  - rewrite (filter_cons_False (ripe now tsi) q) in * by (rewrite Eq; intros []). rewrite (filter_cons_True (λ q, ¬ ripe now tsi q)) by (rewrite Eq; intros []).
    destruct (Nat.eqb_spec (length tmr) n) as [En|]; [|by rewrite IH by lia].
    assert (filter (ripe now tsi) l = []) as E0 by (apply length_zero_iff_nil; lia). rewrite E0, app_nil_r. do 2 f_equal.
    clear -E0. induction l as [|y l IH]; [done|]. destruct (ripe now tsi y) eqn:Ey.
    + by rewrite filter_cons_True in E0 by by rewrite Ey.
    + rewrite filter_cons_False in E0 by (rewrite Ey; intros []). rewrite filter_cons_True by (rewrite Ey; intros []). f_equal. by apply IH.
Qed.

(** The timers due, and what is left. *)
Definition ripe_timers (now tsi : Z) (vs : vh_timers) : list (Z * timed) := v ← vs; pair v.1 <$> filter (ripe now tsi) v.2.
Definition unripe_timers (now tsi : Z) (vs : vh_timers) : vh_timers := (λ v, (v.1, filter (λ q, ¬ ripe now tsi q) v.2)) <$> vs.

Lemma collect_ok n now tsi vs tmr :
  (length tmr + count_ripe now tsi vs ≤ n)%nat → collect n now tsi vs tmr = (unripe_timers now tsi vs, tmr ++ ripe_timers now tsi vs).
Proof.
  revert tmr. induction vs as [|[vh l] vs IH]; intros tmr Hn; [by rewrite app_nil_r|]. cbn [collect count_ripe foldr snd] in *.
  rewrite collect_list_ok by lia. rewrite IH; [cbn; by rewrite <- app_assoc|]. rewrite length_app, length_fmap. unfold count_ripe. lia.
Qed.

(** Every timed callback that is due is called once, in the order of the
    vhosts and their lists, and taken out before any callback runs; none is
    called early, and none is lost when memory is short. *)
Theorem timed_callbacks_called_once on_timed mem now tsi vs :
  timed_callbacks on_timed mem now tsi vs
    = (if mem then (ripe_timers now tsi vs, call_timed on_timed 0 (ripe_timers now tsi vs) (unripe_timers now tsi vs)) else ([], vs))
  ∧ ripe_timers now tsi (unripe_timers now tsi vs) = []
  ∧ ∀ vh q, (∃ l, (vh, l) ∈ vs ∧ q ∈ l) ↔ (vh, q) ∈ ripe_timers now tsi vs ∨ ∃ l, (vh, l) ∈ unripe_timers now tsi vs ∧ q ∈ l.
Proof.
  assert (∀ vh q, (vh, q) ∈ ripe_timers now tsi vs ↔ ripe now tsi q ∧ ∃ l, (vh, l) ∈ vs ∧ q ∈ l) as Hripe.
  { intros vh q. unfold ripe_timers. rewrite list_elem_of_bind. split.
    - intros ([v l] & (q' & [= -> ->] & [Hq Hl]%list_elem_of_filter)%list_elem_of_fmap & Hv). split; [done|]. by exists l.
    - intros (Hq & l & Hv & Hl). exists (vh, l). split; [|done]. apply list_elem_of_fmap. exists q. split; [done|]. by apply list_elem_of_filter. }
  split; [|split].
  - unfold timed_callbacks. destruct mem; cbn [negb]; [rewrite orb_false_r|by rewrite orb_true_r]. destruct (Nat.eqb_spec (count_ripe now tsi vs) 0) as [E0|_].
    + assert (unripe_timers now tsi vs = vs ∧ ripe_timers now tsi vs = []) as [-> ->]; [|done].
      pose proof (collect_ok 0 now tsi vs [] ltac:(cbn; lia)) as Ec. assert (collect 0 now tsi vs [] = (vs, [])) as Ev.
      { clear. induction vs as [|[vh l] vs IH]; [done|]. cbn [collect]. by destruct l; cbn; rewrite IH. }
      rewrite Ev in Ec. by injection Ec as <- <-.
    + by rewrite collect_ok by (cbn; lia).
  - clear. induction vs as [|[vh l] vs IH]; [done|]. unfold ripe_timers, unripe_timers in *. cbn [fmap list_fmap mbind list_bind fst snd]. rewrite IH, app_nil_r.
    assert (filter (ripe now tsi) (filter (λ q, ¬ ripe now tsi q) l) = []) as ->; [|done].
    induction l as [|q l IHl]; [done|]. rewrite (filter_cons (λ q, ¬ ripe now tsi q)). case_decide as Hq; [|done]. by rewrite filter_cons_False.
  - intros vh q. rewrite Hripe. unfold unripe_timers. split.
    + intros (l & Hv & Hq). destruct (decide (ripe now tsi q)) as [Hr|Hr]; [left; split; [done|by exists l]|right].
      eexists. split; [apply list_elem_of_fmap; by exists (vh, l)|]. by apply list_elem_of_filter.
    + intros [[_ ?]|(l & ([v' l'] & [= -> ->] & Hv)%list_elem_of_fmap & [_ Hq]%list_elem_of_filter)]; [done|]. by exists l'.
Qed.

(** ** Examples *)

(** The head is 1; connections 10 and 12 have waited for 30 seconds, of five
    allowed, and 11 for two, at time 1030. *)
Definition three_timeouts : timeouts :=
  Timeouts (list_to_map [(1, Node 0 10); (10, Node 1 11); (11, Node 10 12); (12, Node 11 0); (13, Node 0 0)])
    (list_to_map [(10, Timeout 5 1000 1); (11, Timeout 5 1028 1); (12, Timeout 5 1000 1); (13, Timeout 0 0 0)]) 0 0.

Definition at_1030 (n : nat) : Z := 1030.

Definition steady : times := Times 1029 0 0.

(** The callback of 10 gives 13 a timeout, and then a shorter one. *)
Definition sets_13 (n : nat) (w : Z) : list timeout_call :=
  if w =? 10 then [SetTimeout 13 1 60; SetTimeout 13 1 LWS_TO_KILL_ASYNC] else [].

Lemma three_timing : timing 1 {[10; 11; 12; 13]} three_timeouts [10; 11; 12].
Proof.
  split.
  - split; [by_compute|]. exists 12. cbn [seg].
    repeat (split; [done|split; [done|eexists; split; [reflexivity|]]]). by split.
  - intros w Hw. assert (w = 10 ∨ w = 11 ∨ w = 12 ∨ w = 13) as [->|[->|[->| ->]]] by set_solver; by eexists.
  - intros w Hw. set_solver.
  - intros w Hw. assert (w = 10 ∨ w = 11 ∨ w = 12 ∨ w = 13) as [->|[->|[->| ->]]] by set_solver; (split; [done|]);
      first [left; by_compute | right; split; [done|]; by exists NULL].
Qed.

Lemma overdue_connections_closed_witness :
  filter (overdue (Times 1030 0 0) 1030 three_timeouts) [10; 11; 12] = [10; 12]
  ∧ ∃ s' l', check_timeouts 1 at_1030 sets_13 steady three_timeouts = Ok ([10; 12], Times 1030 0 0, s')
    ∧ timing 1 ({[10; 11; 12; 13]} ∖ list_to_set [10; 12]) s' l'
    ∧ ∀ v, v ∉ [10; 12] → v ∉ touched sets_13 (overdue (Times 1030 0 0) 1030 three_timeouts) 0 [10; 11; 12] →
        (v ∈ l' ↔ v ∈ [10; 11; 12]) ∧ pending s' !! v = pending three_timeouts !! v.
Proof.
  split; [reflexivity|].
  exact (overdue_connections_closed 1 at_1030 sets_13 {[10; 11; 12; 13]} steady (Times 1030 0 0) three_timeouts [10; 11; 12]
           eq_refl three_timing ltac:(vm_compute; reflexivity)).
Defined.

Lemma jump_keeps_ages_witness :
  ∃ k', check_clock 1464083100 (Times 60 0 0) = Some k' ∧ lws_compare_time_t k' 1464083105 50 = 15.
Proof. apply (jump_keeps_ages (Times 60 0 0) 1464083100 50 1464083105); cbn; unfold INT_MAX; lia. Defined.

(** Only the last jump is remembered: a timeout that was set before two of
    them passes at the second one, here after 11 of 1000 seconds. *)
Theorem second_jump_expires :
  check_clock 10000 (Times 60 0 0) = Some (Times 10000 10000 9940)
  ∧ lws_compare_time_t (Times 10000 10000 9940) 10000 50 = 10
  ∧ check_clock 10001 (Times 10000 10000 9940) = Some (Times 10001 10000 9940)
  ∧ check_clock 20000 (Times 10001 10000 9940) = Some (Times 20000 20000 9999)
  ∧ lws_compare_time_t (Times 20000 20000 9999) 20000 50 = 9951.
Proof. by split_and!. Qed.

(** A callback that cancels the timeout of the connection that would be looked
    at next ends the check: 12 is not closed this time. *)
Definition cancels_11 (n : nat) (w : Z) : list timeout_call := if w =? 10 then [SetTimeout 11 0 0] else [].

Theorem cancelling_next_ends_check :
  ∃ s', check_timeouts 1 at_1030 cancels_11 steady three_timeouts = Ok ([10], Times 1030 0 0, s').
Proof. eexists. vm_compute. reflexivity. Qed.

(** So does one that closes it. *)
Definition closes_11 (n : nat) (w : Z) : list timeout_call := if w =? 10 then [CloseWsi 11] else [].

Theorem closing_next_ends_check :
  ∃ s', check_timeouts 1 at_1030 closes_11 steady three_timeouts = Ok ([10], Times 1030 0 0, s').
Proof. eexists. vm_compute. reflexivity. Qed.

(** A timeout of more than 65535 seconds is cut to sixteen bits: one of 65541
    passes after six. *)
Theorem long_timeout_wraps :
  (s ← lws_set_timeout 1 at_1030 (λ _ _, []) 13 1 65541 three_timeouts;
   '(closed, _, _) ← check_timeouts 1 (λ _, 1036) (λ _ _, []) steady s; Ok closed) = Ok [13; 10; 11; 12].
Proof. vm_compute. reflexivity. Qed.
