(* ===== verification/AhPool.v ===== *)
(** * The pool of header stores

    A connection that reads an HTTP request needs a header store (struct
    allocated_headers, "ah"), and there are at most max_http_header_pool of
    them; a peer can be held to ip_limit_ah of them.  A connection that cannot
    have one goes to the front of a list of waiting connections and is not
    polled for input; a store that is given back goes to the last one in the
    list that is allowed to have it (roles/http/server/parsers.c,
    misc/peer-limits.c).

    The waiting list is linked through wsi->http.ah_wait_list.  The contents
    of a store are the business of the request parser; here it has an owner.
    What the functions do to other parts of the server is a list of effects. *)

From stdpp Require Import base numbers list gmap.
From Stdlib Require Import ZArith Lia.
From S2P Require Import Prelude Dll Poll.

(** The fields of struct allocated_headers the pool uses. *)
Record ah := Ah { ah_wsi : Z; in_use : bool; assigned : Z }.

Inductive pool_effect :=
  | Pollin (wsi : Z) (on : bool)      (** _lws_change_pollfd *)
  | HoldTimeout (wsi : Z).            (** __lws_set_timeout(wsi, PENDING_TIMEOUT_HOLDING_AH, ...) *)

(** pt->http, the fields http.ah, http.ah_wait_list and peer of the
    connections, and the field http.count_ah of the peers. *)
Record pool := Pool {
  ahs : gmap Z ah;                    (** the stores that are allocated *)
  ah_list : list Z;
  ah_pool_length : Z;
  ah_count_in_use : Z;
  ah_wait_list : Z;
  ah_wait_next : gmap Z Z;
  ah_wait_list_length : Z;
  http_ah : gmap Z Z;
  count_ah : gmap Z Z;
  allocations : nat;
  effects : list pool_effect;
}.

Definition set_wait (head : Z) (next : gmap Z Z) (len : Z) (s : pool) : pool :=
  Pool (ahs s) (ah_list s) (ah_pool_length s) (ah_count_in_use s) head next len (http_ah s) (count_ah s) (allocations s) (effects s).
Definition emit (e : pool_effect) (s : pool) : pool :=
  Pool (ahs s) (ah_list s) (ah_pool_length s) (ah_count_in_use s) (ah_wait_list s) (ah_wait_next s) (ah_wait_list_length s)
    (http_ah s) (count_ah s) (allocations s) (effects s ++ [e]).
Definition set_ahs (m : gmap Z ah) (s : pool) : pool :=
  Pool m (ah_list s) (ah_pool_length s) (ah_count_in_use s) (ah_wait_list s) (ah_wait_next s) (ah_wait_list_length s)
    (http_ah s) (count_ah s) (allocations s) (effects s).
Definition set_http_ah (m : gmap Z Z) (s : pool) : pool :=
  Pool (ahs s) (ah_list s) (ah_pool_length s) (ah_count_in_use s) (ah_wait_list s) (ah_wait_next s) (ah_wait_list_length s)
    m (count_ah s) (allocations s) (effects s).
Definition set_count_ah (m : gmap Z Z) (s : pool) : pool :=
  Pool (ahs s) (ah_list s) (ah_pool_length s) (ah_count_in_use s) (ah_wait_list s) (ah_wait_next s) (ah_wait_list_length s)
    (http_ah s) m (allocations s) (effects s).
Definition set_in_use (n : Z) (s : pool) : pool :=
  Pool (ahs s) (ah_list s) (ah_pool_length s) n (ah_wait_list s) (ah_wait_next s) (ah_wait_list_length s)
    (http_ah s) (count_ah s) (allocations s) (effects s).
Definition set_list (m : gmap Z ah) (l : list Z) (len : Z) (n : nat) (s : pool) : pool :=
  Pool m l len (ah_count_in_use s) (ah_wait_list s) (ah_wait_next s) (ah_wait_list_length s) (http_ah s) (count_ah s) n (effects s).

(** What does not change: the limits, the peer of a connection (NULL for
    none), whether it is in the poll table and has bytes buffered, the clock,
    which allocations fail and where the others are: an address, for the number
    of the allocation and the stores that are allocated already (memory that was
    freed may be given out again). *)
Record pool_conf := PoolConf {
  max_http_header_pool : Z;
  ip_limit_ah : Z;
  peer : Z → Z;
  in_fds : Z → bool;
  rx_buffered : Z → bool;
  time_now : Z;
  oom : nat → bool;
  malloc_addr : nat → gset Z → Z;
}.

Section pool.
Context (conf : pool_conf) (service : Z → pool → res pool).

(** *** The waiting list *)

(** A pointer to a link of the list: the head, or the field of a connection. *)
Definition link := option Z.

Definition deref (l : link) (s : pool) : res Z :=
  match l with None => Ok (ah_wait_list s) | Some w => field (ah_wait_next s) w end.

Definition assign (l : link) (v : Z) (s : pool) : res pool :=
  match l with
  | None => Ok (set_wait v (ah_wait_next s) (ah_wait_list_length s) s)
  | Some w => _ ← field (ah_wait_next s) w; Ok (set_wait (ah_wait_list s) (<[w := v]> (ah_wait_next s)) (ah_wait_list_length s) s)
  end.

(** The link that points to [wsi], if any does. *)
Fixpoint find_link (fuel : nat) (wsi : Z) (pwsi : link) (s : pool) : res (option link) :=
  w ← deref pwsi s;
  if w =? NULL then Ok None
  else if w =? wsi then Ok (Some pwsi)
  else match fuel with O => Fault Unfinished | S f => find_link f wsi (Some w) s end.

Definition wait_fuel (s : pool) : nat := size (ah_wait_next s).

Definition lws_header_ensure_we_are_on_waiting_list (wsi : Z) (s : pool) : res pool :=
  o ← find_link (wait_fuel s) wsi None s;
  match o with
  | Some _ => Ok s
  | None =>
      s ← assign (Some wsi) (ah_wait_list s) s;
      Ok (emit (Pollin wsi false) (set_wait wsi (ah_wait_next s) (ah_wait_list_length s + 1) s))
  end.

Definition lws_remove_from_ah_waiting_list (wsi : Z) (s : pool) : res (Z * pool) :=
  o ← find_link (wait_fuel s) wsi None s;
  match o with
  | None => Ok (0, s)
  | Some pwsi =>
      nx ← deref (Some wsi) s;
      s ← assign pwsi nx s;
      s ← assign (Some wsi) NULL s;
      Ok (1, set_wait (ah_wait_list s) (ah_wait_next s) (ah_wait_list_length s - 1) s)
  end.

(** *** Stores *)

Definition lws_create_ah (s : pool) : option Z * pool :=
  let n := allocations s in
  if oom conf n then (None, set_list (ahs s) (ah_list s) (ah_pool_length s) (S n) s)
  else
    let a := malloc_addr conf n (dom (ahs s)) in
    (Some a, set_list (<[a := Ah NULL false 0]> (ahs s)) (a :: ah_list s) (ah_pool_length s + 1) (S n) s).

Definition lws_destroy_ah (a : Z) (s : pool) : Z * pool :=
  if bool_decide (a ∈ ah_list s) then
    (0, set_list (delete a (ahs s)) (filter (λ b, b ≠ a) (ah_list s)) (ah_pool_length s - 1) (allocations s) s)
  else (1, s).

(** lws_peer_confirm_ah_attach_ok: nonzero when the peer has its share. *)
Definition lws_peer_confirm_ah_attach_ok (p : Z) (s : pool) : res bool :=
  if p =? NULL then Ok false
  else if ip_limit_ah conf =? 0 then Ok false
  else n ← field (count_ah s) p; Ok (ip_limit_ah conf <=? n).

Definition lws_peer_track_ah_detach (p : Z) (s : pool) : res pool :=
  if p =? NULL then Ok s
  else
    n ← field (count_ah s) p;
    _ ← check (negb (n =? 0)) AssertFailed;
    Ok (set_count_ah (<[p := n - 1]> (count_ah s)) s).

Definition peer_took_ah (p : Z) (s : pool) : res pool :=
  if p =? NULL then Ok s else n ← field (count_ah s) p; Ok (set_count_ah (<[p := n + 1]> (count_ah s)) s).

(** __lws_header_table_reset: what it does besides clearing the store. *)
Definition lws_header_table_reset (wsi : Z) (autoservice : bool) (s : pool) : res pool :=
  a ← field (http_ah s) wsi;
  _ ← check (negb (a =? NULL)) AssertFailed;
  r ← field (ahs s) a;
  _ ← check (ah_wsi r =? wsi) AssertFailed;
  let s := set_ahs (<[a := Ah (ah_wsi r) (in_use r) (time_now conf)]> (ahs s)) (emit (HoldTimeout wsi) s) in
  if in_fds conf wsi && rx_buffered conf wsi && autoservice then service wsi s else Ok s.

(** lws_header_table_attach *)
Definition lws_header_table_attach (wsi : Z) (autoservice : bool) (s : pool) : res (Z * pool) :=
  a ← field (http_ah s) wsi;
  if negb (a =? NULL) then s ← lws_header_table_reset wsi autoservice s; Ok (0, s)
  else
    n ← (if ah_count_in_use s =? max_http_header_pool conf then Ok true else lws_peer_confirm_ah_attach_ok (peer conf wsi) s);
    if (n : bool) then s ← lws_header_ensure_we_are_on_waiting_list wsi s; Ok (1, s)
    else
      '(_, s) ← lws_remove_from_ah_waiting_list wsi s;
      let '(a, s) := lws_create_ah s in
      match a with
      | None => s ← lws_header_ensure_we_are_on_waiting_list wsi s; Ok (1, s)
      | Some a =>
          let s := set_http_ah (<[wsi := a]> (http_ah s)) (set_ahs (<[a := Ah wsi true 0]> (ahs s)) s) in
          let s := set_in_use (ah_count_in_use s + 1) s in
          s ← peer_took_ah (peer conf wsi) s;
          s ← lws_header_table_reset wsi autoservice (emit (Pollin wsi true) s);
          Ok (0, s)
      end.

(** The last waiting connection that may have a store, and the link to it. *)
Fixpoint last_eligible (fuel : nat) (pwsi : link) (best : option (Z * link)) (s : pool) : res (option (Z * link)) :=
  w ← deref pwsi s;
  if w =? NULL then Ok best
  else
    match fuel with
    | O => Fault Unfinished
    | S f =>
        full ← lws_peer_confirm_ah_attach_ok (peer conf w) s;
        last_eligible f (Some w) (if (full : bool) then best else Some (w, pwsi)) s
    end.

(** __lws_header_table_detach, for connections of the server. *)
Definition lws_header_table_detach (wsi : Z) (autoservice : bool) (s : pool) : res (Z * pool) :=
  a ← field (http_ah s) wsi;
  '(_, s) ← lws_remove_from_ah_waiting_list wsi s;
  if a =? NULL then Ok (0, s)
  else
    r ← field (ahs s) a;
    _ ← check (0 <? ah_count_in_use s) AssertFailed;
    _ ← check (in_use r) AssertFailed;
    let s := set_http_ah (<[wsi := NULL]> (http_ah s)) s in
    s ← (if ah_wsi r =? NULL then Ok s else lws_peer_track_ah_detach (peer conf wsi) s);
    let s := set_ahs (<[a := Ah NULL true 0]> (ahs s)) s in
    o ← last_eligible (wait_fuel s) None None s;
    match o with
    | None =>
        let '(_, s) := lws_destroy_ah a s in
        Ok (0, set_in_use (ah_count_in_use s - 1) s)
    | Some (w, pwsi) =>
        let s := set_ahs (<[a := Ah w true 0]> (ahs s)) (set_http_ah (<[w := a]> (http_ah s)) s) in
        s ← lws_header_table_reset w autoservice s;
        s ← peer_took_ah (peer conf w) s;
        let s := if in_fds conf w then emit (Pollin w true) s else s in
        nx ← deref (Some w) s;
        s ← assign pwsi nx s;
        s ← assign (Some w) NULL s;
        let s := set_wait (ah_wait_list s) (ah_wait_next s) (ah_wait_list_length s - 1) s in
        _ ← check (Bool.eqb (negb (ah_wait_list_length s =? 0)) (negb (ah_wait_list s =? NULL))) AssertFailed;
        Ok (0, s)
    end.

End pool.

(** ** The waiting list as a list *)

Fixpoint chain (nx : gmap Z Z) (a : Z) (l : list Z) : Prop :=
  match l with
  | [] => a = NULL
  | x :: l => a = x ∧ x ≠ NULL ∧ ∃ b, nx !! x = Some b ∧ chain nx b l
  end.

Record waits (s : pool) (l : list Z) : Prop := {
  wt_chain : chain (ah_wait_next s) (ah_wait_list s) l;
  wt_nodup : NoDup l;
  wt_length : ah_wait_list_length s = Z.of_nat (length l);
}.

Lemma chain_frame nx nx' a l : (∀ x, x ∈ l → nx' !! x = nx !! x) → chain nx a l → chain nx' a l.
Proof.
  revert a. induction l as [|x l IH]; intros a Hf; [done|]. intros (-> & Hx & b & E & Hc). split; [done|]. split; [done|].
  exists b. split; [by rewrite Hf by left|]. apply IH; [|done]. intros y Hy. apply Hf. by right.
Qed.

Lemma chain_elem nx a l x : chain nx a l → x ∈ l → x ≠ NULL ∧ is_Some (nx !! x).
Proof.
  revert a. induction l as [|y l IH]; intros a; [by intros _ ?%elem_of_nil|].
  intros (-> & Hy & b & E & Hc) [->|Hx]%elem_of_cons; [by split; [|eexists]|]. by apply (IH b).
Qed.

Lemma waits_size s l : waits s l → (length l ≤ wait_fuel s)%nat.
Proof.
  intros [Hc Hn _]. unfold wait_fuel. rewrite <- (size_list_to_set (C := gset Z)) by done. rewrite <- size_dom. apply subseteq_size.
  intros x Hx%elem_of_list_to_set. apply elem_of_dom. by apply (chain_elem _ _ _ x Hc).
Qed.

(** What a link points to. *)
Definition pointee (s : pool) (p : link) : Z :=
  match p with None => ah_wait_list s | Some v => default NULL (ah_wait_next s !! v) end.

Definition link_ok (s : pool) (p : link) : Prop := ∀ v, p = Some v → v ≠ NULL ∧ is_Some (ah_wait_next s !! v).

Lemma deref_ok s p : link_ok s p → deref p s = Ok (pointee s p).
Proof. destruct p as [v|]; [|done]. intros Hp. destruct (Hp v eq_refl) as [Hv [b E]]. cbn. by rewrite (field_ok _ _ _ Hv E), E. Qed.

(** The first step along the list. *)
Lemma chain_step s p x l : chain (ah_wait_next s) (pointee s p) (x :: l) →
  pointee s p = x ∧ x ≠ NULL ∧ link_ok s (Some x) ∧ chain (ah_wait_next s) (pointee s (Some x)) l.
Proof. intros (-> & Hx & b & E & Hc). split_and!; [done|done| |by cbn; rewrite E]. intros v [= <-]. by split; [|eexists]. Qed.

(** The link to what follows [l1] is the last of [l1], or the one before. *)
Lemma find_link_spec s w l1 rest : ∀ p fuel,
  chain (ah_wait_next s) (pointee s p) (l1 ++ rest) → link_ok s p → (length l1 ≤ fuel)%nat → w ∉ l1 →
  (rest = [] ∨ ∃ l2, rest = w :: l2) →
  find_link fuel w p s = Ok (match rest with [] => None | _ => Some (from_option Some p (last l1)) end).
Proof.
  induction l1 as [|x l1 IH]; intros p fuel Hc Hp Hf Hw Hr.
  - destruct Hr as [->|[l2 ->]]; destruct fuel; cbn [find_link app last from_option] in *; rewrite (deref_ok _ _ Hp), res_bind_ok.
    1,2: cbn in Hc; by rewrite Hc.
    1,2: apply chain_step in Hc as (-> & Hx & _); rewrite (proj2 (Z.eqb_neq _ NULL)) by done; by rewrite Z.eqb_refl.
  - destruct fuel as [|fuel]; [cbn in Hf; lia|]. cbn [find_link app] in *. rewrite (deref_ok _ _ Hp), res_bind_ok.
    apply chain_step in Hc as (-> & Hx & Hl & Hc). apply not_elem_of_cons in Hw as [Hxw Hw].
    rewrite (proj2 (Z.eqb_neq _ NULL)), (proj2 (Z.eqb_neq _ _)) by congruence. rewrite (IH (Some x) fuel Hc Hl) by (done || cbn in Hf; lia).
    destruct Hr as [->|[l2 ->]]; [done|]. do 2 f_equal. destruct l1 as [|y l1]; [done|]. rewrite last_cons_cons.
    by destruct (last (y :: l1)) eqn:El; [|apply last_None in El].
Qed.

Lemma find_link_in s l1 w l2 : waits s (l1 ++ w :: l2) → find_link (wait_fuel s) w None s = Ok (Some (last l1)).
Proof.
  intros Hw. pose proof (waits_size _ _ Hw) as Hsz. rewrite length_app in Hsz. destruct Hw as [Hc Hn _].
  rewrite (find_link_spec s w l1 (w :: l2)); [by destruct (last l1)|done|done|lia| |by right; exists l2].
  apply NoDup_drop_middle in Hn as [_ Hn]. rewrite elem_of_app in Hn. tauto.
Qed.

Lemma find_link_out s l w : waits s l → w ∉ l → find_link (wait_fuel s) w None s = Ok None.
Proof.
  intros Hw Hin. pose proof (waits_size _ _ Hw). destruct Hw as [Hc Hn _]. rewrite <- (app_nil_r l) in Hc.
  by rewrite (find_link_spec s w l []) by (done || by left).
Qed.

(** Taking a connection out of the list. *)
Lemma unlink_ok s l1 w l2 :
  waits s (l1 ++ w :: l2) →
  ∃ head nx, (v ← deref (Some w) s; s ← assign (last l1) v s; s ← assign (Some w) NULL s;
              Ok (set_wait (ah_wait_list s) (ah_wait_next s) (ah_wait_list_length s - 1) s))
             = Ok (set_wait head nx (ah_wait_list_length s - 1) s)
    ∧ waits (set_wait head nx (ah_wait_list_length s - 1) s) (l1 ++ l2) ∧ dom nx = dom (ah_wait_next s).
Proof.
  intros [Hc Hn Hl].
  assert (∀ nx a, chain nx a (l1 ++ w :: l2) → NoDup (l1 ++ w :: l2) → w ≠ NULL ∧ ∃ b, nx !! w = Some b ∧ chain nx b l2
    ∧ match last l1 with
      | None => chain nx b (l1 ++ l2)
      | Some x => x ≠ NULL ∧ x ≠ w ∧ x ∈ l1 ∧ is_Some (nx !! x) ∧ chain (<[x := b]> nx) a (l1 ++ l2)
      end) as Hgen.
  { clear. induction l1 as [|x l1 IH]; intros nx a Hc Hn; cbn [app] in *.
    - destruct Hc as (-> & Hw & b & E & Hc). split; [done|]. by exists b.
    - destruct Hc as (-> & Hx & c & Ex & Hc). apply NoDup_cons in Hn as [Hxn Hn]. destruct (IH nx c Hc Hn) as (Hw & b & E & Hb & Hlast).
      split; [done|]. exists b. split; [done|]. split; [done|].
      assert (x ≠ w ∧ x ∉ l2) as [Hxw Hx2] by (rewrite elem_of_app, elem_of_cons in Hxn; naive_solver).
      destruct l1 as [|y l1].
      + cbn [last app] in *. split_and!; try done; [by left|]. split; [done|]. split; [done|]. exists b. rewrite lookup_insert_eq. split; [done|].
        apply (chain_frame nx); [|done]. intros z Hz. apply lookup_insert_ne. by intros ->.
      + rewrite last_cons_cons. destruct (last (y :: l1)) as [z|] eqn:El; [|by apply last_None in El].
        destruct Hlast as (Hz & Hzw & Hzin & Hzs & Hchain). split_and!; try done; [by right|]. split; [done|]. split; [done|].
        exists c. rewrite lookup_insert_ne; [by split|]. intros ->. apply Hxn. apply elem_of_app. by left. }
  destruct (Hgen _ _ Hc Hn) as (Hw & b & Eb & Hb & Hlast). clear Hgen.
  apply NoDup_drop_middle in Hn as [Hn Hwn]. rewrite length_app in Hl. cbn [length] in Hl.
  cbn [deref]. rewrite (field_ok _ _ _ Hw Eb), res_bind_ok. destruct (last l1) as [x|] eqn:El.
  - destruct Hlast as (Hx & Hxw & Hxin & [c Ec] & Hchain). cbn [assign]. rewrite (field_ok _ _ _ Hx Ec), !res_bind_ok.
    cbn [set_wait ah_wait_next]. rewrite (field_ok _ _ b) by (first [done | by rewrite lookup_insert_ne by congruence]). rewrite !res_bind_ok.
    eexists _, _. split; [done|]. split; [split; cbn [set_wait ah_wait_next ah_wait_list ah_wait_list_length]|].
    + apply (chain_frame (<[x := b]> (ah_wait_next s))); [|done]. intros y Hy. apply lookup_insert_ne. by intros ->.
    + done.
    + rewrite length_app. lia.
    + cbn [set_wait ah_wait_next]. rewrite !dom_insert_L. assert (w ∈ dom (ah_wait_next s) ∧ x ∈ dom (ah_wait_next s)) by (split; apply elem_of_dom; by eexists). set_solver.
  - apply last_None in El as ->. cbn [assign app]. rewrite !res_bind_ok. cbn [set_wait ah_wait_next]. rewrite (field_ok _ _ _ Hw Eb), !res_bind_ok.
    eexists _, _. split; [done|]. split; [split; cbn [set_wait ah_wait_next ah_wait_list ah_wait_list_length]|].
    + apply (chain_frame (ah_wait_next s)); [|done]. intros y Hy. apply lookup_insert_ne. by intros ->.
    + done.
    + cbn in Hl. lia.
    + cbn [set_wait ah_wait_next]. rewrite dom_insert_L. assert (w ∈ dom (ah_wait_next s)) by (apply elem_of_dom; by eexists). set_solver.
Qed.

Lemma size_without (o : gset Z) w : w ∈ o → Z.of_nat (size (o ∖ {[w]})) = Z.of_nat (size o) - 1.
Proof.
  intros Hw. assert (size o = S (size (o ∖ {[w]}))); [|lia]. rewrite (size_difference o {[w]}), size_singleton by set_solver.
  assert (size o ≠ 0%nat) by (intros E%size_empty_inv; set_solver). lia.
Qed.

(** ** What the pool promises *)

(** The connections that have a store, and those that wait for one, newest
    first; and what the rest of the server was told. *)
Record apool := APool { owners : gset Z; waiting : list Z; told : list pool_effect }.

Inductive pool_op := Attach (w : Z) (autoservice : bool) | Detach (w : Z) (autoservice : bool).

Section spec.
Context (conf : pool_conf).

(** How many stores the connections of a peer have. *)
Definition share (p : Z) (o : gset Z) : nat := size (filter (λ v, peer conf v = p) o).

(** The connection's peer has its share. *)
Definition at_limit (w : Z) (o : gset Z) : bool :=
  negb (peer conf w =? NULL) && negb (ip_limit_ah conf =? 0) && (ip_limit_ah conf <=? Z.of_nat (share (peer conf w) o)).

Definition apool_step (op : pool_op) (a : apool) : Z * apool :=
  match op with
  | Attach w _ =>
      if bool_decide (w ∈ owners a) then (0, APool (owners a) (waiting a) (told a ++ [HoldTimeout w]))
      else if (Z.of_nat (size (owners a)) =? max_http_header_pool conf) || at_limit w (owners a) then
        (1, if bool_decide (w ∈ waiting a) then a else APool (owners a) (w :: waiting a) (told a ++ [Pollin w false]))
      else (0, APool ({[w]} ∪ owners a) (filter (λ v, v ≠ w) (waiting a)) (told a ++ [Pollin w true; HoldTimeout w]))
  | Detach w _ =>
      let wt := filter (λ v, v ≠ w) (waiting a) in
      if bool_decide (w ∈ owners a) then
        let o := owners a ∖ {[w]} in
        (0, match last (filter (λ v, at_limit v o = false) wt) with
            | None => APool o wt (told a)
            | Some v => APool ({[v]} ∪ o) (filter (λ u, u ≠ v) wt)
                          (told a ++ HoldTimeout v :: if in_fds conf v then [Pollin v true] else [])
            end)
      else (0, APool (owners a) wt (told a))
  end.

(** *** Shares *)

Lemma share_add p w o : w ∉ o → share p ({[w]} ∪ o) = ((if decide (peer conf w = p) then 1 else 0) + share p o)%nat.
Proof.
  intros Hw. unfold share. case_decide as Hp.
  - assert (filter (λ v, peer conf v = p) ({[w]} ∪ o) = {[w]} ∪ filter (λ v, peer conf v = p) o) as ->.
    { apply set_eq. intros x. rewrite elem_of_filter, !elem_of_union, elem_of_singleton, elem_of_filter. naive_solver. }
    rewrite size_union by (intros x; rewrite elem_of_singleton, elem_of_filter; naive_solver). by rewrite size_singleton.
  - assert (filter (λ v, peer conf v = p) ({[w]} ∪ o) = filter (λ v, peer conf v = p) o) as ->; [|done].
    apply set_eq. intros x. rewrite !elem_of_filter, elem_of_union, elem_of_singleton. naive_solver.
Qed.

Lemma share_remove p w o : w ∈ o → share p o = ((if decide (peer conf w = p) then 1 else 0) + share p (o ∖ {[w]}))%nat.
Proof. intros Hw. rewrite <- share_add by set_solver. f_equal. apply set_eq. intros x. destruct (decide (x = w)); set_solver. Qed.

(** The counters of the peers of [conns] agree with the owners. *)
Definition counts (s : pool) (conns o : gset Z) : Prop :=
  ∀ w, w ∈ conns → peer conf w ≠ NULL → count_ah s !! peer conf w = Some (Z.of_nat (share (peer conf w) o)).

Lemma confirm_ok s conns o w : counts s conns o → w ∈ conns →
  lws_peer_confirm_ah_attach_ok conf (peer conf w) s = Ok (at_limit w o).
Proof.
  intros Hc Hw. unfold lws_peer_confirm_ah_attach_ok, at_limit. destruct (Z.eqb_spec (peer conf w) NULL) as [|Hp]; [done|].
  destruct (ip_limit_ah conf =? 0); [done|]. by rewrite (field_ok _ _ _ Hp (Hc w Hw Hp)).
Qed.

Lemma track_detach_ok s conns o w : counts s conns o → w ∈ conns → w ∈ o →
  ∃ m, lws_peer_track_ah_detach (peer conf w) s = Ok (set_count_ah m s) ∧ counts (set_count_ah m s) conns (o ∖ {[w]}).
Proof.
  intros Hc Hw Ho. unfold lws_peer_track_ah_detach. destruct (Z.eqb_spec (peer conf w) NULL) as [E|Hp].
  - exists (count_ah s). split; [by destruct s|]. intros v Hv Hpv. cbn. rewrite (Hc v Hv Hpv). rewrite (share_remove _ w o) by done.
    by rewrite decide_False by congruence.
  - rewrite (field_ok _ _ _ Hp (Hc w Hw Hp)), res_bind_ok. pose proof (share_remove (peer conf w) w o Ho) as Es. rewrite decide_True in Es by done.
    rewrite check_true, res_bind_ok by (rewrite (proj2 (Z.eqb_neq _ _)) by lia; done). eexists. split; [done|].
    intros v Hv Hpv. cbn [set_count_ah count_ah]. destruct (decide (peer conf v = peer conf w)) as [->|Hne].
    + rewrite lookup_insert_eq. f_equal. lia.
    + rewrite lookup_insert_ne by congruence. rewrite (Hc v Hv Hpv), (share_remove _ w o) by done. by rewrite decide_False by congruence.
Qed.

Lemma took_ok s conns o w : counts s conns o → w ∈ conns → w ∉ o →
  ∃ m, peer_took_ah (peer conf w) s = Ok (set_count_ah m s) ∧ counts (set_count_ah m s) conns ({[w]} ∪ o).
Proof.
  intros Hc Hw Ho. unfold peer_took_ah. destruct (Z.eqb_spec (peer conf w) NULL) as [E|Hp].
  - exists (count_ah s). split; [by destruct s|]. intros v Hv Hpv. cbn. rewrite (Hc v Hv Hpv), share_add by done.
    by rewrite decide_False by congruence.
  - rewrite (field_ok _ _ _ Hp (Hc w Hw Hp)), res_bind_ok. eexists. split; [done|].
    intros v Hv Hpv. cbn [set_count_ah count_ah]. destruct (decide (peer conf v = peer conf w)) as [->|Hne].
    + rewrite lookup_insert_eq, share_add, decide_True by done. f_equal. lia.
    + rewrite lookup_insert_ne by congruence. rewrite (Hc v Hv Hpv), share_add by done. by rewrite decide_False by congruence.
Qed.

(** *** The oldest one that may have a store *)

Lemma last_eligible_from s conns o l : ∀ p best fuel,
  counts s conns o → chain (ah_wait_next s) (pointee s p) l → link_ok s p → (length l ≤ fuel)%nat → (∀ v, v ∈ l → v ∈ conns) →
  (last (filter (λ v, at_limit v o = false) l) = None ∧ last_eligible conf fuel p best s = Ok best)
  ∨ ∃ l1 v l2, l = l1 ++ v :: l2 ∧ last (filter (λ v, at_limit v o = false) l) = Some v
      ∧ last_eligible conf fuel p best s = Ok (Some (v, from_option Some p (last l1))).
Proof.
  induction l as [|x l IH]; intros p best fuel Hc Hch Hp Hf Hin.
  - left. split; [done|]. destruct fuel; cbn [last_eligible]; rewrite (deref_ok _ _ Hp), res_bind_ok; cbn in Hch; by rewrite Hch.
  - destruct fuel as [|fuel]; [cbn in Hf; lia|]. cbn [last_eligible]. rewrite (deref_ok _ _ Hp), res_bind_ok.
    apply chain_step in Hch as (-> & Hx & Hl & Hch). rewrite (proj2 (Z.eqb_neq _ _)) by done.
    rewrite (confirm_ok s conns o x Hc) by (apply Hin; by left). rewrite res_bind_ok.
    destruct (IH (Some x) (if at_limit x o then best else Some (x, p)) fuel Hc Hch Hl) as [[E1 E2]|(l1 & v & l2 & -> & E1 & E2)];
      [cbn in Hf; lia|intros; apply Hin; by right|..].
    + destruct (at_limit x o) eqn:Ex.
      * left. rewrite filter_cons_False by congruence. by split.
      * right. exists [], x, l. rewrite filter_cons_True by done. apply last_None in E1. rewrite E1. by split_and!.
    + right. exists (x :: l1), v, l2. split; [done|]. split.
      * rewrite filter_cons. case_decide; [|done]. destruct (filter _ (l1 ++ v :: l2)) as [|y k]; [done|]. by rewrite last_cons_cons.
      * rewrite E2. do 3 f_equal. destruct l1 as [|y l1]; [done|]. rewrite last_cons_cons. by destruct (last (y :: l1)) eqn:El; [|apply last_None in El].
Qed.

End spec.

(** ** The operations *)

Section ops.
Context (conf : pool_conf) (service : Z → pool → res pool) (conns : gset Z).
Context (Hoom : ∀ n, oom conf n = false) (Hmalloc : ∀ n X, malloc_addr conf n X ∉ X ∧ malloc_addr conf n X ≠ NULL).
Context (Hrx : ∀ w, rx_buffered conf w = false).

(** The stores and their owners. *)
Record stores (s : pool) (o : gset Z) : Prop := {
  st_owner w : w ∈ o ↔ ∃ a, http_ah s !! w = Some a ∧ a ≠ NULL;
  st_store w a : http_ah s !! w = Some a → a ≠ NULL → ahs s !! a = Some (Ah w true (default 0 (assigned <$> ahs s !! a)));
  st_owned a r : ahs s !! a = Some r → http_ah s !! ah_wsi r = Some a ∧ a ≠ NULL;
  st_list : NoDup (ah_list s);
  st_listed a : a ∈ ah_list s ↔ is_Some (ahs s !! a);
  st_length : ah_pool_length s = Z.of_nat (size o);
  st_in_use : ah_count_in_use s = Z.of_nat (size o);
}.

Record pool_ok (s : pool) (a : apool) : Prop := {
  pk_waits : waits s (waiting a);
  pk_stores : stores s (owners a);
  pk_counts : counts conf s conns (owners a);
  pk_conns : dom (http_ah s) = conns ∧ dom (ah_wait_next s) = conns ∧ NULL ∉ conns;
  pk_waiting w : w ∈ waiting a → w ∈ conns ∧ w ∉ owners a;
  pk_told : effects s = told a;
}.

Lemma owners_conns s a w : pool_ok s a → w ∈ owners a → w ∈ conns.
Proof.
  intros Hp Ho. destruct (pk_conns _ _ Hp) as (<- & _). apply elem_of_dom. apply (st_owner _ _ (pk_stores _ _ Hp)) in Ho as (x & E & _). by exists x.
Qed.

Lemma conn_field {A} (m : gmap Z A) w : NULL ∉ conns → dom m = conns → w ∈ conns → ∃ x, field m w = Ok x ∧ m !! w = Some x.
Proof.
  intros H0 Hd Hw. assert (is_Some (m !! w)) as [x E] by (apply elem_of_dom; by rewrite Hd). exists x. split; [|done].
  apply field_ok; [|done]. by intros ->.
Qed.

Lemma remove_waiting_ok s a w : pool_ok s a → w ∈ conns →
  ∃ r head nx len, lws_remove_from_ah_waiting_list w s = Ok (r, set_wait head nx len s)
    ∧ waits (set_wait head nx len s) (filter (λ v, v ≠ w) (waiting a)) ∧ dom nx = conns.
Proof.
  intros Hp Hw. pose proof (pk_waits _ _ Hp) as Hwt. destruct (pk_conns _ _ Hp) as (_ & Hd & _). unfold lws_remove_from_ah_waiting_list.
  destruct (decide (w ∈ waiting a)) as [Hin|Hout].
  - apply list_elem_of_split in Hin as (l1 & l2 & El). rewrite El in *. rewrite (find_link_in _ _ _ _ Hwt), res_bind_ok.
    destruct (unlink_ok s l1 w l2 Hwt) as (head & nx & E & Hwt' & Hdom). exists 1, head, nx, (ah_wait_list_length s - 1).
    rewrite filter_out_middle by apply Hwt. split; [|split; [done|congruence]].
    apply bind_Ok_inv in E as (v & Ev & E). apply bind_Ok_inv in E as (s1 & E1 & E). apply bind_Ok_inv in E as (s2 & E2 & E).
    rewrite Ev, res_bind_ok, E1, res_bind_ok, E2, res_bind_ok.
    apply (f_equal (λ r : res pool, match r with Ok s => s | Fault _ => s end)) in E. by rewrite E.
  - rewrite (find_link_out _ _ _ Hwt Hout), res_bind_ok. exists 0, (ah_wait_list s), (ah_wait_next s), (ah_wait_list_length s).
    split; [by destruct s|]. split; [|done]. rewrite filter_out_absent by done. destruct Hwt. by split.
Qed.

Lemma ensure_waiting_ok s a w : pool_ok s a → w ∈ conns → w ∉ owners a →
  ∃ s', lws_header_ensure_we_are_on_waiting_list w s = Ok s'
    ∧ pool_ok s' (if bool_decide (w ∈ waiting a) then a else APool (owners a) (w :: waiting a) (told a ++ [Pollin w false])).
Proof.
  intros Hp Hw Ho. pose proof (pk_waits _ _ Hp) as Hwt. destruct (pk_conns _ _ Hp) as (Hd1 & Hd & H0). unfold lws_header_ensure_we_are_on_waiting_list.
  case_bool_decide as Hin.
  - apply list_elem_of_split in Hin as (l1 & l2 & El). rewrite El in Hwt. rewrite (find_link_in _ _ _ _ Hwt), res_bind_ok. by exists s.
  - rewrite (find_link_out _ _ _ Hwt Hin), res_bind_ok. cbn [assign]. destruct (conn_field (ah_wait_next s) w H0 Hd Hw) as (x & -> & Ex).
    rewrite !res_bind_ok. eexists. split; [done|].
    destruct Hp as [[Hc Hn Hl] [S1 S2 S3 S4 S5 S6 S7] Hcnt _ Hwa Ht]. cbn [set_wait ah_wait_next ah_wait_list ah_wait_list_length].
    split; cbn [owners waiting told].
    + split; cbn [emit set_wait ah_wait_next ah_wait_list ah_wait_list_length].
      * split; [done|]. split; [by intros ->|]. exists (ah_wait_list s). rewrite lookup_insert_eq. split; [done|].
        apply (chain_frame (ah_wait_next s)); [|done]. intros y Hy. apply lookup_insert_ne. by intros ->.
      * by constructor.
      * cbn [length]. lia.
    + by split.
    + done.
    + cbn [emit set_wait ah_wait_next http_ah]. split_and!; try done. rewrite dom_insert_L, Hd. set_solver.
    + intros v [->|Hv]%elem_of_cons; [done|]. by apply Hwa.
    + cbn [emit effects set_wait]. by rewrite Ht.
Qed.

(** Clearing a store for its owner. *)
Lemma reset_ok s o w a auto : stores s o → http_ah s !! w = Some a → a ≠ NULL → w ≠ NULL →
  ∃ m, lws_header_table_reset conf service w auto s = Ok (set_ahs m (emit (HoldTimeout w) s))
    ∧ stores (set_ahs m (emit (HoldTimeout w) s)) o.
Proof.
  intros Hst Ew Ha Hw. pose proof (st_store _ _ Hst w a Ew Ha) as Ea. unfold lws_header_table_reset.
  rewrite (field_ok _ _ _ Hw Ew), res_bind_ok, check_true, res_bind_ok by (by rewrite (proj2 (Z.eqb_neq _ _))).
  rewrite (field_ok _ _ _ Ha Ea), res_bind_ok. cbn [ah_wsi in_use]. rewrite check_true, res_bind_ok by apply Z.eqb_refl. cbv zeta.
  rewrite Hrx, andb_false_r. cbn [andb]. eexists. split; [done|]. destruct Hst as [S1 S2 S3 S4 S5 S6 S7].
  split; cbn [set_ahs emit ahs http_ah ah_list ah_pool_length ah_count_in_use allocations]; try done.
  - intros v b Ev Hb. destruct (decide (b = a)) as [->|Hne].
    + rewrite lookup_insert_eq. cbn. specialize (S2 v a Ev Hb). rewrite Ea in S2. injection S2 as ->. done.
    + rewrite !lookup_insert_ne by congruence. by apply S2.
  - intros b r Eb. destruct (decide (b = a)) as [->|Hne].
    + rewrite lookup_insert_eq in Eb. by injection Eb as <-.
    + rewrite lookup_insert_ne in Eb by congruence. by apply S3.
  - intros b. rewrite S5, lookup_insert. case_decide; [|done]. subst. rewrite Ea. by split; eexists.
Qed.

(** A store for a connection that has none. *)
Lemma stores_add s s' o w :
  stores s o → http_ah s !! w = Some NULL →
  let a := malloc_addr conf (allocations s) (dom (ahs s)) in
  ahs s' = <[a := Ah w true 0]> (<[a := Ah NULL false 0]> (ahs s)) → http_ah s' = <[w := a]> (http_ah s) → ah_list s' = a :: ah_list s →
  ah_pool_length s' = ah_pool_length s + 1 → ah_count_in_use s' = ah_count_in_use s + 1 → allocations s' = S (allocations s) →
  stores s' ({[w]} ∪ o).
Proof.
  intros [S1 S2 S3 S4 S5 S6 S7] Ew a E1 E2 E3 E4 E5 E6. rewrite insert_insert_eq in E1.
  assert (ahs s !! a = None) as Ha.
  { apply not_elem_of_dom. apply Hmalloc. }
  assert (w ∉ o) as Hwo by (intros (b & E & Hb)%S1; congruence).
  split; rewrite ?E1, ?E2, ?E3, ?E4, ?E5, ?E6.
  - intros v. rewrite elem_of_union, elem_of_singleton. destruct (decide (v = w)) as [->|Hv].
    + rewrite lookup_insert_eq. split; [|by left]. intros _. exists a. split; [done|apply Hmalloc].
    + rewrite lookup_insert_ne by congruence. rewrite <- S1. naive_solver.
  - intros v b. destruct (decide (v = w)) as [->|Hv].
    + rewrite lookup_insert_eq. intros [= <-] _. by rewrite lookup_insert_eq.
    + rewrite lookup_insert_ne by congruence. intros Ev Hb. specialize (S2 v b Ev Hb).
      assert (a ≠ b) by (intros <-; congruence). by rewrite !lookup_insert_ne by done.
  - intros b r. destruct (decide (b = a)) as [->|Hb].
    + rewrite lookup_insert_eq. intros [= <-]. cbn [ah_wsi]. rewrite lookup_insert_eq. split; [done|apply Hmalloc].
    + rewrite lookup_insert_ne by congruence. intros Eb. destruct (S3 b r Eb) as [Er Hb0]. split; [|done]. rewrite lookup_insert_ne; [done|].
      intros ?. congruence.
  - constructor; [|done]. rewrite S5, Ha. by intros [? ?].
  - intros b. rewrite elem_of_cons, S5, lookup_insert. case_decide as Hb; [subst|]; naive_solver.
  - rewrite size_union, size_singleton by set_solver. lia.
  - rewrite size_union, size_singleton by set_solver. lia.
Qed.

(** A store that is freed. *)
Lemma stores_drop s s' o w a :
  stores s o → http_ah s !! w = Some a → a ≠ NULL →
  ahs s' = delete a (ahs s) → http_ah s' = <[w := NULL]> (http_ah s) → ah_list s' = filter (λ b, b ≠ a) (ah_list s) →
  ah_pool_length s' = ah_pool_length s - 1 → ah_count_in_use s' = ah_count_in_use s - 1 → allocations s' = allocations s →
  stores s' (o ∖ {[w]}).
Proof.
  intros [S1 S2 S3 S4 S5 S6 S7] Ew Ha E1 E2 E3 E4 E5 E6.
  assert (w ∈ o) as Hwo by (apply S1; by exists a). pose proof (S2 w a Ew Ha) as Ea.
  split; rewrite ?E1, ?E2, ?E3, ?E4, ?E5, ?E6.
  - intros v. rewrite elem_of_difference, elem_of_singleton. destruct (decide (v = w)) as [->|Hv].
    + rewrite lookup_insert_eq. naive_solver.
    + rewrite lookup_insert_ne by congruence. rewrite <- S1. naive_solver.
  - intros v b. destruct (decide (v = w)) as [->|Hv]; [rewrite lookup_insert_eq; by intros [= <-]|].
    rewrite lookup_insert_ne by congruence. intros Ev Hb. specialize (S2 v b Ev Hb).
    assert (a ≠ b) by (intros <-; congruence). by rewrite !lookup_delete_ne by done.
  - intros b r. destruct (decide (b = a)) as [->|Hb]; [by rewrite lookup_delete_eq|]. rewrite lookup_delete_ne by congruence.
    intros Eb. destruct (S3 b r Eb) as [Er Hb0]. split; [|done]. rewrite lookup_insert_ne; [done|]. intros ?. congruence.
  - by apply NoDup_filter.
  - intros b. rewrite list_elem_of_filter, S5. destruct (decide (b = a)) as [->|Hb]; [rewrite lookup_delete_eq|rewrite lookup_delete_ne by congruence].
    + split; [naive_solver|]. by intros [? ?].
    + naive_solver.
  - rewrite size_without by done. lia.
  - rewrite size_without by done. lia.
Qed.

(** A store that goes from [w] to [v]. *)
Lemma stores_give s s' o w v a :
  stores s o → http_ah s !! w = Some a → a ≠ NULL → http_ah s !! v = Some NULL →
  ahs s' = <[a := Ah v true 0]> (<[a := Ah NULL true 0]> (ahs s)) → http_ah s' = <[v := a]> (<[w := NULL]> (http_ah s)) →
  ah_list s' = ah_list s → ah_pool_length s' = ah_pool_length s → ah_count_in_use s' = ah_count_in_use s → allocations s' = allocations s →
  stores s' ({[v]} ∪ o ∖ {[w]}).
Proof.
  intros [S1 S2 S3 S4 S5 S6 S7] Ew Ha Ev E1 E2 E3 E4 E5 E6. rewrite insert_insert_eq in E1.
  assert (w ∈ o) as Hwo by (apply S1; by exists a). pose proof (S2 w a Ew Ha) as Ea.
  assert (v ∉ o) as Hvo by (intros (b & E & Hb)%S1; congruence). assert (v ≠ w) as Hvw by congruence.
  assert (Z.of_nat (size ({[v]} ∪ o ∖ {[w]})) = Z.of_nat (size o)) as Hsz.
  { rewrite size_union, size_singleton by set_solver. rewrite Nat2Z.inj_add, size_without by done. lia. }
  split; rewrite ?E1, ?E2, ?E3, ?E4, ?E5, ?E6; try done.
  - intros u. rewrite elem_of_union, elem_of_difference, !elem_of_singleton. destruct (decide (u = v)) as [->|Hu].
    + rewrite lookup_insert_eq. split; [|by left]. intros _. by exists a.
    + rewrite lookup_insert_ne by congruence. destruct (decide (u = w)) as [->|Hu'].
      * rewrite lookup_insert_eq. naive_solver.
      * rewrite lookup_insert_ne by congruence. rewrite <- S1. naive_solver.
  - intros u b. destruct (decide (u = v)) as [->|Hu].
    + rewrite lookup_insert_eq. intros [= <-] _. by rewrite lookup_insert_eq.
    + rewrite lookup_insert_ne by congruence. destruct (decide (u = w)) as [->|Hu']; [rewrite lookup_insert_eq; by intros [= <-]|].
      rewrite lookup_insert_ne by congruence. intros Eu Hb. specialize (S2 u b Eu Hb).
      assert (a ≠ b) by (intros <-; congruence). by rewrite !lookup_insert_ne by done.
  - intros b r. destruct (decide (b = a)) as [->|Hb].
    + rewrite lookup_insert_eq. intros [= <-]. cbn [ah_wsi]. by rewrite lookup_insert_eq.
    + rewrite lookup_insert_ne by congruence. intros Eb. destruct (S3 b r Eb) as [Er Hb0]. split; [|done].
      rewrite !lookup_insert_ne; [done|intros ?; congruence..].
  - intros b. rewrite S5, lookup_insert. case_decide; [|done]. subst. rewrite Ea. by split; eexists.
  - lia.
  - lia.
Qed.

Lemma http_ah_of s a w : pool_ok s a → w ∈ conns →
  w ≠ NULL ∧ ∃ x, field (http_ah s) w = Ok x ∧ http_ah s !! w = Some x ∧ (w ∈ owners a ↔ x ≠ NULL).
Proof using Type.
  intros Hp Hw. destruct (pk_conns _ _ Hp) as (Hd & _ & H0). split; [by intros ->|].
  destruct (conn_field (http_ah s) w H0 Hd Hw) as (x & Ef & Ex). exists x. split; [done|]. split; [done|].
  rewrite (st_owner _ _ (pk_stores _ _ Hp)), Ex. split; [by intros (y & [= <-] & Hy)|by exists x].
Qed.

Lemma attach_ok s a w auto : pool_ok s a → w ∈ conns →
  ∃ s', lws_header_table_attach conf service w auto s = Ok ((apool_step conf (Attach w auto) a).1, s')
    ∧ pool_ok s' (apool_step conf (Attach w auto) a).2.
Proof.
  intros Hp Hw. destruct (http_ah_of s a w Hp Hw) as (Hw0 & x & Ef & Ex & Hx). unfold lws_header_table_attach. cbn [apool_step].
  rewrite Ef, res_bind_ok. pose proof (pk_stores _ _ Hp) as Hst. case_bool_decide as Ho.
  - rewrite (proj2 (Z.eqb_neq _ _)) by by apply Hx. cbn [negb].
    destruct (reset_ok s (owners a) w x auto Hst Ex (proj1 Hx Ho) Hw0) as (m & -> & Hst'). rewrite res_bind_ok. eexists. split; [done|].
    destruct Hp as [[? ? ?] _ Hc Hd Hwa Ht]. split; try done. cbn. by rewrite Ht.
  - assert (x = NULL) as -> by (destruct (decide (x = NULL)); [done|tauto]). cbn [Z.eqb NULL negb]. rewrite (st_in_use _ _ Hst).
    assert ((if Z.of_nat (size (owners a)) =? max_http_header_pool conf then Ok true else lws_peer_confirm_ah_attach_ok conf (peer conf w) s)
      = Ok ((Z.of_nat (size (owners a)) =? max_http_header_pool conf) || at_limit conf w (owners a))) as ->.
    { destruct (_ =? max_http_header_pool conf); [done|]. by rewrite (confirm_ok conf s conns (owners a) w (pk_counts _ _ Hp) Hw). }
    rewrite res_bind_ok. destruct ((_ =? max_http_header_pool conf) || _).
    + destruct (ensure_waiting_ok s a w Hp Hw Ho) as (s' & -> & Hp'). rewrite res_bind_ok. by exists s'.
    + destruct (remove_waiting_ok s a w Hp Hw) as (r & head & nx & len & -> & Hwt & Hdn). rewrite res_bind_ok. set (s1 := set_wait head nx len s) in *.
      unfold lws_create_ah. rewrite Hoom. change (allocations s1) with (allocations s). change (ahs s1) with (ahs s). set (b := malloc_addr conf (allocations s) (dom (ahs s))).
      cbn [set_list ahs]. cbv zeta. set (s2 := set_in_use _ _).
      assert (counts conf s2 conns (owners a)) as Hc2 by exact (pk_counts _ _ Hp).
      destruct (took_ok conf s2 conns (owners a) w Hc2 Hw Ho) as (m & -> & Hc3). rewrite res_bind_ok.
      set (s3 := emit (Pollin w true) (set_count_ah m s2)).
      assert (stores s3 ({[w]} ∪ owners a)) as Hst3 by (by apply (stores_add s s3 (owners a) w Hst Ex)).
      destruct (reset_ok s3 _ w b auto Hst3) as (m4 & -> & Hst4); [by cbn; rewrite lookup_insert_eq|apply Hmalloc|done|].
      rewrite res_bind_ok. eexists. split; [done|]. destruct Hp as [_ _ _ (Hd1 & Hd2 & H0) Hwa Ht]. split; cbn [owners waiting told snd].
      * destruct Hwt as [W1 W2 W3]. by split.
      * done.
      * exact Hc3.
      * split; [|split; [exact Hdn|done]]. cbn. rewrite dom_insert_L, Hd1. set_solver.
      * intros v [Hvw Hv]%list_elem_of_filter. destruct (Hwa v Hv). split; [done|]. set_solver.
      * cbn. rewrite Ht. by rewrite <- app_assoc.
Qed.

Lemma detach_ok s a w auto : pool_ok s a → w ∈ conns →
  ∃ s', lws_header_table_detach conf service w auto s = Ok ((apool_step conf (Detach w auto) a).1, s')
    ∧ pool_ok s' (apool_step conf (Detach w auto) a).2.
Proof.
  intros Hp Hw. destruct (http_ah_of s a w Hp Hw) as (Hw0 & x & Ef & Ex & Hx). unfold lws_header_table_detach. cbn [apool_step]. cbv zeta.
  rewrite Ef, res_bind_ok. pose proof (pk_stores _ _ Hp) as Hst.
  destruct (remove_waiting_ok s a w Hp Hw) as (r & head & nx & len & -> & Hwt & Hdn). rewrite res_bind_ok. set (s1 := set_wait head nx len s) in *.
  set (wt := filter (λ v, v ≠ w) (waiting a)) in *. pose proof (pk_conns _ _ Hp) as (Hd1 & Hd2 & H0).
  assert (∀ v, v ∈ wt → v ∈ waiting a ∧ v ≠ w) as Hwtin by (intros v [? ?]%list_elem_of_filter; done).
  case_bool_decide as Ho.
  2:{ assert (x = NULL) as -> by (destruct (decide (x = NULL)); [done|tauto]). cbn [Z.eqb NULL]. eexists. split; [done|]. cbn [snd].
      destruct Hp as [_ Hst' Hc _ Hwa Ht]. split; try done; cbn [owners waiting told].
      - by destruct Hst'. - intros v [Hv _]%Hwtin. by apply Hwa. }
  assert (x ≠ NULL) as Hx0 by by apply Hx. rewrite (proj2 (Z.eqb_neq _ _)) by done.
  pose proof (st_store _ _ Hst w x Ex Hx0) as Eax. change (ahs s1) with (ahs s). rewrite (field_ok _ _ _ Hx0 Eax), res_bind_ok. cbn [ah_wsi in_use].
  change (ah_count_in_use s1) with (ah_count_in_use s). rewrite (st_in_use _ _ Hst).
  assert (size (owners a) ≠ 0%nat) by (intros E%size_empty_inv; set_solver).
  rewrite (check_true (0 <? _)), res_bind_ok, (check_true true), res_bind_ok by (done || apply Z.ltb_lt; lia).
  rewrite (proj2 (Z.eqb_neq w NULL)) by done. set (s2 := set_http_ah _ s1).
  destruct (track_detach_ok conf s2 conns (owners a) w) as (m & -> & Hc3); [exact (pk_counts _ _ Hp)|done|done|]. rewrite res_bind_ok.
  set (o := owners a ∖ {[w]}) in *. set (s3 := set_ahs _ (set_count_ah m s2)).
  assert (waits s3 wt) as Hwt3 by (destruct Hwt; by split).
  destruct (last_eligible_from conf s3 conns o wt None None (wait_fuel s3)) as [[E1 E2]|(l1 & v & l2 & El & E1 & E2)];
    [exact Hc3|apply Hwt3|done|by apply waits_size|intros v [Hv _]%Hwtin; by apply (pk_waiting _ _ Hp)|..].
  - rewrite E1, E2, res_bind_ok. unfold lws_destroy_ah. change (ah_list s3) with (ah_list s).
    rewrite bool_decide_eq_true_2 by (apply (st_listed _ _ Hst); by eexists). eexists. split; [done|]. cbn [snd].
    destruct Hp as [_ _ _ _ Hwa Ht]. split; cbn [owners waiting told].
    + destruct Hwt3. by split.
    + apply (stores_drop s _ (owners a) w x Hst Ex Hx0); try done. cbn. by rewrite delete_insert_eq.
    + exact Hc3.
    + split_and!; try done. cbn. rewrite dom_insert_L, Hd1. set_solver.
    + intros v [Hv _]%Hwtin. destruct (Hwa v Hv). split; [done|]. set_solver.
    + exact Ht.
  - rewrite E1, E2, res_bind_ok. assert (v ∈ wt) as Hv by (rewrite El; apply elem_of_app; right; by left).
    destruct (Hwtin v Hv) as [Hvwa Hvw]. destruct (pk_waiting _ _ Hp v Hvwa) as [Hvc Hvo].
    destruct (http_ah_of s a v Hp Hvc) as (Hv0 & y & _ & Ey & Hy). assert (y = NULL) as -> by (destruct (decide (y = NULL)); [done|tauto]).
    set (s4 := set_ahs (<[x := Ah v true 0]> _) _).
    assert (stores s4 ({[v]} ∪ o)) as Hst4 by (by apply (stores_give s s4 (owners a) w v x Hst Ex Hx0 Ey)).
    destruct (reset_ok s4 _ v x auto Hst4) as (m5 & -> & Hst5); [by cbn; rewrite lookup_insert_eq|done|done|]. rewrite res_bind_ok.
    set (s5 := set_ahs m5 _) in *.
    destruct (took_ok conf s5 conns o v) as (m6 & -> & Hc6); [exact Hc3|done|set_solver|]. rewrite res_bind_ok. cbv zeta.
    set (s6 := if in_fds conf v then emit (Pollin v true) (set_count_ah m6 s5) else set_count_ah m6 s5).
    assert (ah_wait_next s6 = ah_wait_next s3 ∧ ah_wait_list s6 = ah_wait_list s3 ∧ ah_wait_list_length s6 = ah_wait_list_length s3
      ∧ http_ah s6 = http_ah s4 ∧ count_ah s6 = m6
      ∧ effects s6 = effects s ++ HoldTimeout v :: (if in_fds conf v then [Pollin v true] else [])) as (F1 & F2 & F3 & F4 & F5 & F6).
    { unfold s6. destruct (in_fds conf v); cbn; split_and!; try done. by rewrite <- app_assoc. }
    assert (waits s6 (l1 ++ v :: l2)) as Hwt6 by (rewrite <- El; destruct Hwt3; split; congruence).
    destruct (unlink_ok s6 l1 v l2 Hwt6) as (head' & nx' & E & Hwt7 & Hdn7).
    apply bind_Ok_inv in E as (u & Eu & E). apply bind_Ok_inv in E as (s7 & E7 & E). apply bind_Ok_inv in E as (s8 & E8 & E).
    rewrite Eu, res_bind_ok. change (from_option Some None (last l1)) with (from_option Some (None : link) (last l1)).
    replace (from_option Some (None : link) (last l1)) with (last l1) by by destruct (last l1).
    rewrite E7, res_bind_ok, E8, res_bind_ok.
    apply (f_equal (λ r : res pool, match r with Ok s => s | Fault _ => s end)) in E. rewrite E.
    pose proof Hwt7 as [W1 W2 W3]. cbn [set_wait ah_wait_next ah_wait_list ah_wait_list_length] in W1, W3.
    rewrite check_true, res_bind_ok.
    2:{ cbn [set_wait ah_wait_list ah_wait_list_length]. rewrite W3. destruct (l1 ++ l2) as [|z k].
        - cbn in W1. by rewrite W1.
        - destruct W1 as (-> & Hz & _). rewrite (proj2 (Z.eqb_neq z _)) by done. by rewrite (proj2 (Z.eqb_neq _ _)) by (cbn [length]; lia). }
    eexists. split; [done|]. cbn [snd]. rewrite El, filter_out_middle by (rewrite <- El; apply Hwt3).
    destruct Hp as [_ _ _ _ Hwa Ht]. split; cbn [owners waiting told].
    + done.
    + destruct Hst5 as [S1 S2 S3 S4 S5 S6 S7]. unfold s6. by destruct (in_fds conf v).
    + intros u' Hu Hpu. cbn [set_wait count_ah]. rewrite F5. exact (Hc6 u' Hu Hpu).
    + cbn [set_wait http_ah ah_wait_next]. rewrite F4, Hdn7, F1. split_and!; try done. cbn. rewrite !dom_insert_L, Hd1. set_solver.
    + intros u' Hu. assert (u' ∈ wt ∧ u' ≠ v) as [Hu1 Hu2].
      { pose proof (wt_nodup _ _ Hwt3) as Hn. rewrite El in Hn |- *. apply NoDup_drop_middle in Hn as [_ Hn]. split; [|by intros ->].
        rewrite elem_of_app in Hu. rewrite elem_of_app, elem_of_cons. tauto. }
      destruct (Hwtin u' Hu1) as [Hu3 _]. destruct (Hwa u' Hu3). split; [done|]. set_solver.
    + cbn [set_wait effects]. by rewrite F6, Ht.
Qed.

End ops.

Section runs.
Context (conf : pool_conf) (service : Z → pool → res pool).

Definition pool_step (op : pool_op) (s : pool) : res (Z * pool) :=
  match op with
  | Attach w auto => lws_header_table_attach conf service w auto s
  | Detach w auto => lws_header_table_detach conf service w auto s
  end.

Fixpoint pool_run (ops : list pool_op) (s : pool) : res (list Z * pool) :=
  match ops with
  | [] => Ok ([], s)
  | op :: ops => '(r, s) ← pool_step op s; '(rs, s) ← pool_run ops s; Ok (r :: rs, s)
  end.

Fixpoint apool_run (ops : list pool_op) (a : apool) : list Z * apool :=
  match ops with
  | [] => ([], a)
  | op :: ops => let '(r, a) := apool_step conf op a in let '(rs, a) := apool_run ops a in (r :: rs, a)
  end.

Definition op_wsi (op : pool_op) : Z := match op with Attach w _ | Detach w _ => w end.

End runs.

(** [C13] While no allocation fails and no waiting connection has input
    buffered (see [autoservice_breaks_waiting_list]), attaching and detaching
    header stores in any order never fails an
    assertion and keeps the stores, the waiting list, its length and the
    counters of stores and peers consistent: the connections with a store, the
    waiting list, the results and what is polled are those of a set of owners
    and a queue in which a store that is given back goes to the connection
    that has waited longest and whose peer is below its limit.  malloc() is only
    assumed to return an address that is not in use: the memory of a freed store
    may be given out again. *)
Theorem pool_refines_queue conf service conns ops s a
    (Hoom : ∀ n, oom conf n = false)
    (Hmalloc : ∀ n X, malloc_addr conf n X ∉ X ∧ malloc_addr conf n X ≠ NULL)
    (Hrx : ∀ w, rx_buffered conf w = false)
    (Hok : pool_ok conf conns s a)
    (Hops : Forall (λ op, op_wsi op ∈ conns) ops) :
  ∃ s', pool_run conf service ops s = Ok ((apool_run conf ops a).1, s') ∧ pool_ok conf conns s' (apool_run conf ops a).2.
Proof.
  revert s a Hok. induction Hops as [|op ops Hop Hops IH]; intros s a Hok; [by exists s|]. cbn [pool_run apool_run].
  assert (∃ s', pool_step conf service op s = Ok ((apool_step conf op a).1, s') ∧ pool_ok conf conns s' (apool_step conf op a).2) as (s1 & -> & Hok1).
  { destruct op; [by apply attach_ok|by apply detach_ok]. }
  destruct (apool_step conf op a) as [r a1]. cbn [fst snd] in *. rewrite res_bind_ok. destruct (IH s1 a1 Hok1) as (s' & -> & Hok').
  destruct (apool_run conf ops a1) as [rs a2]. cbn [fst snd] in *. rewrite res_bind_ok. by exists s'.
Qed.

(** ** Nobody waits without a reason *)

Section fair.
Context (conf : pool_conf).

Record fair (a : apool) : Prop := {
  fr_limit : Z.of_nat (size (owners a)) <= max_http_header_pool conf;
  fr_share w : w ∈ owners a → peer conf w ≠ NULL → ip_limit_ah conf ≠ 0 → Z.of_nat (share conf (peer conf w) (owners a)) <= ip_limit_ah conf;
  fr_apart w : w ∈ waiting a → w ∉ owners a;
  fr_waits w : w ∈ waiting a → Z.of_nat (size (owners a)) = max_http_header_pool conf ∨ at_limit conf w (owners a) = true;
}.

Lemma at_limit_true w o : at_limit conf w o = true ↔
  peer conf w ≠ NULL ∧ ip_limit_ah conf ≠ 0 ∧ ip_limit_ah conf <= Z.of_nat (share conf (peer conf w) o).
Proof.
  unfold at_limit. rewrite !andb_true_iff, !negb_true_iff, !Z.eqb_neq, Z.leb_le. tauto.
Qed.

Lemma at_limit_mono w v o : v ∉ o → at_limit conf w o = true → at_limit conf w ({[v]} ∪ o) = true.
Proof. intros Hv. rewrite !at_limit_true, share_add by done. case_decide; intros; lia. Qed.

Lemma share_bound v o : v ∉ o → at_limit conf v o = false → peer conf v ≠ NULL → ip_limit_ah conf ≠ 0 →
  Z.of_nat (share conf (peer conf v) ({[v]} ∪ o)) <= ip_limit_ah conf.
Proof.
  intros Hv Hl Hp Hi. rewrite share_add, decide_True by done. destruct (Z.ltb_spec (Z.of_nat (share conf (peer conf v) o)) (ip_limit_ah conf)); [lia|].
  assert (at_limit conf v o = true) by (apply at_limit_true; lia). congruence.
Qed.

Lemma fair_step op a : 0 <= max_http_header_pool conf → fair a → fair (apool_step conf op a).2.
Proof.
  intros H0 [Hlim Hsh Hap Hwt]. destruct op as [w auto|w auto]; cbn [apool_step]; cbv zeta.
  - case_bool_decide as Ho; [by split|]. destruct (Z.eqb_spec (Z.of_nat (size (owners a))) (max_http_header_pool conf)) as [Em|Em]; cbn [orb].
    + cbn [snd]. case_bool_decide; [by split|]. split; cbn [owners waiting]; try done.
      * intros v [->|Hv]%elem_of_cons; [done|by apply Hap]. * intros v _. by left.
    + destruct (at_limit conf w (owners a)) eqn:El.
      * cbn [snd]. case_bool_decide; [by split|]. split; cbn [owners waiting]; try done.
        -- intros v [->|Hv]%elem_of_cons; [done|by apply Hap].
        -- intros v [->|Hv]%elem_of_cons; [by right|by apply Hwt].
      * split; cbn [snd owners waiting].
        -- rewrite size_union, size_singleton by set_solver. lia.
        -- intros v Hv Hp Hi. destruct (decide (peer conf v = peer conf w)) as [E|Hne]; [rewrite E; apply share_bound; congruence|].
           rewrite share_add, decide_False by congruence. apply Hsh; try done. rewrite elem_of_union, elem_of_singleton in Hv. naive_solver.
        -- intros v [Hvw Hv]%list_elem_of_filter. specialize (Hap v Hv). set_solver.
        -- intros v [Hvw Hv]%list_elem_of_filter. right. apply at_limit_mono; [done|]. by destruct (Hwt v Hv).
  - case_bool_decide as Ho.
    2:{ split; cbn [snd owners waiting]; try done; intros v [_ Hv]%list_elem_of_filter; [by apply Hap|by apply Hwt]. }
    set (o := owners a ∖ {[w]}). set (wt := filter (λ v, v ≠ w) (waiting a)).
    assert (Z.of_nat (size o) = Z.of_nat (size (owners a)) - 1) as Hso by by apply size_without.
    assert (∀ v, v ∈ o → peer conf v ≠ NULL → ip_limit_ah conf ≠ 0 → Z.of_nat (share conf (peer conf v) o) <= ip_limit_ah conf) as Hsho.
    { intros v [Hv _]%elem_of_difference Hp Hi. specialize (Hsh v Hv Hp Hi). rewrite (share_remove conf _ w (owners a)) in Hsh by done. unfold o. lia. }
    assert (∀ v, v ∈ wt → v ∈ waiting a ∧ v ≠ w) as Hwtin by (intros v [? ?]%list_elem_of_filter; done).
    destruct (last (filter (λ v, at_limit conf v o = false) wt)) as [v|] eqn:El; cbn [snd].
    + apply last_Some_elem_of in El as [Hvl Hv]%list_elem_of_filter. destruct (Hwtin v Hv) as [Hvw Hne]. pose proof (Hap v Hvw) as Hvo.
      assert (v ∉ o) as Hvo' by set_solver. split; cbn [owners waiting].
      * rewrite size_union, size_singleton by set_solver. lia.
      * intros u Hu Hp Hi. destruct (decide (peer conf u = peer conf v)) as [E|Hn]; [rewrite E; apply share_bound; congruence|].
        rewrite share_add, decide_False by congruence. apply Hsho; try done. rewrite elem_of_union, elem_of_singleton in Hu. naive_solver.
      * intros u [Huv Hu]%list_elem_of_filter. destruct (Hwtin u Hu) as [Huw _]. specialize (Hap u Huw). set_solver.
      * intros u [Huv Hu]%list_elem_of_filter. destruct (Hwtin u Hu) as [Huw _]. rewrite size_union, size_singleton, Nat2Z.inj_add by set_solver.
        destruct (Hwt u Huw) as [Hfull|Hu']; [left; lia|]. destruct (Hwt v Hvw) as [Hfull|Hv']; [left; lia|]. right.
        apply at_limit_true in Hu' as (Hpu & Hi & Hu'). apply at_limit_true in Hv' as (Hpv & _ & Hv').
        rewrite (share_remove conf _ w (owners a)) in Hu' by done. rewrite (share_remove conf _ w (owners a)) in Hv' by done. fold o in Hu', Hv'.
        apply at_limit_true. rewrite share_add by done. split_and!; try done.
        assert (peer conf w = peer conf v) as Ewv.
        { destruct (decide (peer conf w = peer conf v)); [done|]. assert (at_limit conf v o = true); [|congruence]. apply at_limit_true. split_and!; try done; lia. }
        rewrite Ewv in Hu'. lia.
    + apply last_None in El. split; cbn [owners waiting].
      * lia.
      * done.
      * intros u Hu. destruct (Hwtin u Hu) as [Huw _]. specialize (Hap u Huw). set_solver.
      * intros u Hu. right. destruct (at_limit conf u o) eqn:E; [done|].
        assert (u ∈ filter (λ v, at_limit conf v o = false) wt) as Hin by by apply list_elem_of_filter. rewrite El in Hin. by apply elem_of_nil in Hin.
Qed.

End fair.

(** [C40] While no allocation fails and no waiting connection has input
    buffered, however connections attach and detach, at most max_http_header_pool
    of them have a header store and no peer has more than its limit; and no
    connection is left waiting while it could have a store: at every moment all
    stores are in use or its peer is at its limit. *)
Theorem nobody_waits_needlessly conf service conns ops s a
    (Hoom : ∀ n, oom conf n = false)
    (Hmalloc : ∀ n X, malloc_addr conf n X ∉ X ∧ malloc_addr conf n X ≠ NULL)
    (Hrx : ∀ w, rx_buffered conf w = false)
    (Hok : pool_ok conf conns s a)
    (Hfair : fair conf a)
    (Hmax : 0 <= max_http_header_pool conf)
    (Hops : Forall (λ op, op_wsi op ∈ conns) ops) :
  ∃ rs s' l, pool_run conf service ops s = Ok (rs, s') ∧ waits s' l
    ∧ ah_count_in_use s' <= max_http_header_pool conf
    ∧ (∀ w n, http_ah s' !! w = Some n → n ≠ NULL → peer conf w ≠ NULL → ip_limit_ah conf ≠ 0 →
         ∃ c, count_ah s' !! peer conf w = Some c ∧ c <= ip_limit_ah conf)
    ∧ (∀ w, w ∈ l → http_ah s' !! w = Some NULL
         ∧ (ah_count_in_use s' = max_http_header_pool conf
            ∨ peer conf w ≠ NULL ∧ ∃ c, count_ah s' !! peer conf w = Some c ∧ ip_limit_ah conf <= c)).
Proof.
  assert (∃ rs s' a', pool_run conf service ops s = Ok (rs, s') ∧ pool_ok conf conns s' a' ∧ fair conf a') as (rs & s' & a' & E & Hok' & Hf).
  { clear -Hoom Hmalloc Hrx Hok Hfair Hmax Hops. revert s a Hok Hfair. induction Hops as [|op ops Hop Hops IH]; intros s a Hok Hfair; [by exists [], s, a|].
    cbn [pool_run].
    assert (∃ s', pool_step conf service op s = Ok ((apool_step conf op a).1, s') ∧ pool_ok conf conns s' (apool_step conf op a).2) as (s1 & -> & Hok1).
    { destruct op; [by apply attach_ok|by apply detach_ok]. }
    rewrite res_bind_ok. destruct (IH s1 _ Hok1 (fair_step conf op a Hmax Hfair)) as (rs & s' & a' & -> & Hok' & Hf'). rewrite res_bind_ok. by eexists _, s', a'. }
  pose proof (pk_stores _ _ _ _ Hok') as Hst. pose proof (st_in_use _ _ Hst) as Hu. exists rs, s', (waiting a'). split; [done|].
  split; [apply Hok'|]. split; [rewrite Hu; apply Hf|]. split.
  - intros w n Ew Hn Hp Hi. assert (w ∈ owners a') as Ho by (apply (st_owner _ _ Hst); by exists n).
    eexists. split; [apply (pk_counts _ _ _ _ Hok'); [by apply (owners_conns conf conns s' a')|done]|]. by apply (fr_share _ _ Hf).
  - intros w Hw. destruct (pk_waiting _ _ _ _ Hok' w Hw) as [Hc Ho]. split.
    + destruct (http_ah_of conf conns s' a' w Hok' Hc) as (_ & x & _ & Ex & Hx). destruct (decide (x = NULL)); [by subst|tauto].
    + destruct (fr_waits _ _ Hf w Hw) as [Hfull|(Hp & Hi & Hl)%at_limit_true]; [left; lia|]. right. split; [done|].
      eexists. split; [by apply (pk_counts _ _ _ _ Hok')|done].
Qed.

(** ** Examples *)

Definition pool_init (conns peers : gset Z) : pool :=
  Pool ∅ [] 0 0 NULL (gset_to_gmap NULL conns) 0 (gset_to_gmap NULL conns) (gset_to_gmap 0 peers) 0 [].

Lemma pool_init_ok conf conns peers :
  NULL ∉ conns → (∀ w, w ∈ conns → peer conf w ≠ NULL → peer conf w ∈ peers) →
  pool_ok conf conns (pool_init conns peers) (APool ∅ [] []).
Proof.
  intros H0 Hp. split; cbn [owners waiting told].
  - by split; [|constructor|].
  - split; cbn; try done.
    + intros w. split; [set_solver|]. intros (a & [_ <-]%lookup_gset_to_gmap_Some & ?). done.
    + by intros w a [_ <-]%lookup_gset_to_gmap_Some.
    + constructor.
    + intros a. split; [by intros ?%elem_of_nil|by intros [? ?]].
  - intros w Hw Hpw. cbn. apply lookup_gset_to_gmap_Some. split; [by apply Hp|]. unfold share.
    assert (filter (λ v, peer conf v = peer conf w) (∅ : gset Z) = ∅) as -> by set_solver. by rewrite size_empty.
  - cbn. by rewrite dom_gset_to_gmap.
  - by intros w ?%elem_of_nil.
  - done.
Qed.

(** Two stores, one for each peer; 21 and 22 are connections of one peer. *)
Definition two_stores : pool_conf :=
  PoolConf 2 1 (λ w, if (w =? 21) || (w =? 22) then 7 else NULL) (λ _, true) (λ _, false) 1000 (λ _, false) (λ n X, fresh ({[NULL]} ∪ X)).

Definition four_conns : gset Z := {[21; 22; 23; 24]}.

Definition some_ops : list pool_op :=
  [Attach 21 false; Attach 22 false; Attach 23 false; Attach 24 false; Detach 21 true].

Lemma two_stores_hyps :
  (∀ n, oom two_stores n = false) ∧ (∀ n X, malloc_addr two_stores n X ∉ X ∧ malloc_addr two_stores n X ≠ NULL) ∧ (∀ w, rx_buffered two_stores w = false)
  ∧ pool_ok two_stores four_conns (pool_init four_conns {[7]}) (APool ∅ [] []) ∧ Forall (λ op, op_wsi op ∈ four_conns) some_ops.
Proof.
  split; [done|]. split; [intros n X; cbn; pose proof (is_fresh ({[NULL]} ∪ X)); set_solver|]. split; [done|]. split; [|by_compute].
  apply pool_init_ok; [by_compute|]. intros w _. cbn. destruct (_ || _); [set_solver|done].
Qed.

Lemma pool_refines_queue_witness :
  let a := APool ∅ [] [] in
  ((∀ n, oom two_stores n = false) ∧ (∀ n X, malloc_addr two_stores n X ∉ X ∧ malloc_addr two_stores n X ≠ NULL) ∧ (∀ w, rx_buffered two_stores w = false)
    ∧ pool_ok two_stores four_conns (pool_init four_conns {[7]}) a ∧ Forall (λ op, op_wsi op ∈ four_conns) some_ops)
  ∧ ((apool_run two_stores some_ops a).1 = [0; 1; 0; 1; 0]
     ∧ owners (apool_run two_stores some_ops a).2 = {[22; 23]} ∧ waiting (apool_run two_stores some_ops a).2 = [24])
  ∧ ∃ s', pool_run two_stores (λ _ s, Ok s) some_ops (pool_init four_conns {[7]}) = Ok ((apool_run two_stores some_ops a).1, s')
      ∧ pool_ok two_stores four_conns s' (apool_run two_stores some_ops a).2.
Proof.
  intros a. destruct two_stores_hyps as (H1 & H2 & H4 & H5 & H6). split; [done|]. split; [by_compute|].
  exact (pool_refines_queue two_stores (λ _ s, Ok s) four_conns some_ops (pool_init four_conns {[7]}) a H1 H2 H4 H5 H6).
Defined.

Lemma nobody_waits_needlessly_witness :
  let s := pool_init four_conns {[7]} in
  ((∀ n, oom two_stores n = false) ∧ (∀ n X, malloc_addr two_stores n X ∉ X ∧ malloc_addr two_stores n X ≠ NULL) ∧ (∀ w, rx_buffered two_stores w = false)
    ∧ pool_ok two_stores four_conns s (APool ∅ [] []) ∧ fair two_stores (APool ∅ [] []) ∧ 0 <= max_http_header_pool two_stores
    ∧ Forall (λ op, op_wsi op ∈ four_conns) some_ops)
  ∧ ∃ rs s' l, pool_run two_stores (λ _ s, Ok s) some_ops s = Ok (rs, s') ∧ waits s' l
    ∧ ah_count_in_use s' <= max_http_header_pool two_stores
    ∧ (∀ w n, http_ah s' !! w = Some n → n ≠ NULL → peer two_stores w ≠ NULL → ip_limit_ah two_stores ≠ 0 →
         ∃ c, count_ah s' !! peer two_stores w = Some c ∧ c <= ip_limit_ah two_stores)
    ∧ (∀ w, w ∈ l → http_ah s' !! w = Some NULL
         ∧ (ah_count_in_use s' = max_http_header_pool two_stores
            ∨ peer two_stores w ≠ NULL ∧ ∃ c, count_ah s' !! peer two_stores w = Some c ∧ ip_limit_ah two_stores <= c)).
Proof.
  intros s. destruct two_stores_hyps as (H1 & H2 & H4 & H5 & H6).
  assert (fair two_stores (APool ∅ [] [])) as H7 by (split; cbn [owners waiting]; [by vm_compute|set_solver|by intros w ?%elem_of_nil|by intros w ?%elem_of_nil]).
  assert (0 <= max_http_header_pool two_stores) as H8 by (cbn; lia). split; [done|].
  exact (nobody_waits_needlessly two_stores (λ _ s, Ok s) four_conns some_ops s (APool ∅ [] []) H1 H2 H4 H5 H7 H8 H6).
Defined.

(** A waiting connection with buffered input is served while the store is
    handed to it.  When serving it ends its transaction, it leaves the waiting
    list there; the list and its length are then changed a second time and
    the assertion on them fails. *)
Theorem autoservice_breaks_waiting_list :
  let conf := PoolConf 2 0 (λ _, NULL) (λ _, true) (λ w, w =? 24) 1000 (λ _, false) (λ n X, fresh ({[NULL]} ∪ X)) in
  let serve w s := '(_, s) ← lws_header_table_detach conf (λ _ s, Ok s) w false s; Ok s in
  pool_run conf serve [Attach 21 false; Attach 23 false; Attach 24 false; Detach 23 true] (pool_init four_conns ∅) = Fault AssertFailed.
Proof. vm_compute. reflexivity. Qed.
