(* ===== verification/Peers.v ===== *)
(** * Peers and their limits

    The server keeps a record (struct lws_peer) of every address that has or
    had connections, in a hash table, and refuses connections from an address
    that has ip_limit_wsi of them.  A peer without connections is on a waiting
    list and is freed when it has been there for more than ten seconds
    (misc/peer-limits.c; what lws_adopt_descriptor_vhost of core/adopt.c and
    __lws_free_wsi of core/libwebsockets.c do with peers).

    Peers are linked twice, through [next] in their hash chain and through
    [peer_wait_list] in the waiting list.  Addresses are those of IPv4, as
    built.  The counters have 32 bits and count objects in memory. *)

From stdpp Require Import base numbers list gmap.
From Stdlib Require Import ZArith Lia.
From S2P Require Import Prelude Dll Poll AhPool.

(** ** State *)

(** struct lws_peer without its two links; [total_wsi] is not used. *)
Record lws_peer := Peer {
  paddr : list Z;
  phash : Z;
  count_wsi : Z;
  http_count_ah : Z;
  time_created : Z;
  time_closed_all : Z;
}.

(** The peers that are allocated, with their links; the fields of the context;
    [wsi->peer] of the connections, and which have a header store. *)
Record peers := Peers {
  info : gmap Z lws_peer;
  hash_next : gmap Z Z;
  wait_next : gmap Z Z;
  pl_hash_table : list Z;
  peer_wait_list : Z;
  count_peers : Z;
  next_cull : Z;
  wsi_peer : gmap Z Z;
  has_ah : gset Z;
}.

Definition set_info (m : gmap Z lws_peer) (s : peers) : peers :=
  Peers m (hash_next s) (wait_next s) (pl_hash_table s) (peer_wait_list s) (count_peers s) (next_cull s) (wsi_peer s) (has_ah s).
Definition set_waiting (head : Z) (m : gmap Z Z) (s : peers) : peers :=
  Peers (info s) (hash_next s) m (pl_hash_table s) head (count_peers s) (next_cull s) (wsi_peer s) (has_ah s).
Definition set_table (t : list Z) (m : gmap Z Z) (s : peers) : peers :=
  Peers (info s) m (wait_next s) t (peer_wait_list s) (count_peers s) (next_cull s) (wsi_peer s) (has_ah s).
Definition set_count_peers (n : Z) (s : peers) : peers :=
  Peers (info s) (hash_next s) (wait_next s) (pl_hash_table s) (peer_wait_list s) n (next_cull s) (wsi_peer s) (has_ah s).
Definition set_next_cull (t : Z) (s : peers) : peers :=
  Peers (info s) (hash_next s) (wait_next s) (pl_hash_table s) (peer_wait_list s) (count_peers s) t (wsi_peer s) (has_ah s).
Definition set_wsi (m : gmap Z Z) (o : gset Z) (s : peers) : peers :=
  Peers (info s) (hash_next s) (wait_next s) (pl_hash_table s) (peer_wait_list s) (count_peers s) (next_cull s) m o.

Definition set_count_wsi (n : Z) (p : lws_peer) : lws_peer :=
  Peer (paddr p) (phash p) n (http_count_ah p) (time_created p) (time_closed_all p).
Definition set_peer_ah (n : Z) (p : lws_peer) : lws_peer :=
  Peer (paddr p) (phash p) (count_wsi p) n (time_created p) (time_closed_all p).
Definition set_closed (t : Z) (p : lws_peer) : lws_peer :=
  Peer (paddr p) (phash p) (count_wsi p) (http_count_ah p) (time_created p) t.

(** ** Linked lists

    [lws_start_foreach_llp]: a link is the head of a list or the field of one
    of its nodes. *)

Definition llp_deref (head : Z) (nx : gmap Z Z) (l : option Z) : res Z :=
  match l with None => Ok head | Some x => field nx x end.

Definition llp_assign (head : Z) (nx : gmap Z Z) (l : option Z) (v : Z) : res (Z * gmap Z Z) :=
  match l with
  | None => Ok (v, nx)
  | Some x => _ ← field nx x; Ok (head, <[x := v]> nx)
  end.

(** The link that points to [x], if any does. *)
Fixpoint llp_find (fuel : nat) (head : Z) (nx : gmap Z Z) (x : Z) (l : option Z) : res (option (option Z)) :=
  y ← llp_deref head nx l;
  if y =? NULL then Ok None
  else if y =? x then Ok (Some l)
  else match fuel with O => Fault Unfinished | S fuel => llp_find fuel head nx x (Some y) end.

(** ** The functions of peer-limits.c *)

Definition lws_peer_remove_from_peer_wait_list (peer : Z) (s : peers) : res peers :=
  o ← llp_find (size (wait_next s)) (peer_wait_list s) (wait_next s) peer None;
  match o with
  | None => Ok s
  | Some p =>
      n ← field (wait_next s) peer;
      '(head, nx) ← llp_assign (peer_wait_list s) (wait_next s) p n;
      _ ← field nx peer;
      Ok (set_waiting head (<[peer := NULL]> nx) s)
  end.

Definition lws_peer_add_to_peer_wait_list (peer : Z) (s : peers) : res peers :=
  s ← lws_peer_remove_from_peer_wait_list peer s;
  _ ← field (wait_next s) peer;
  Ok (set_waiting peer (<[peer := peer_wait_list s]> (wait_next s)) s).

(** The loop over the bytes of the address; [n] is the number of the first. *)
Fixpoint hash_loop (n : Z) (q : list Z) (hash : Z) : Z :=
  match q with
  | [] => hash
  | c :: q => hash_loop (n + 1) q (Z.lxor (u32 (Z.lor (u32 (Z.shiftl hash 4)) (Z.shiftr hash 28) * n)) c)
  end.

Definition peer_hash (elements : Z) (q : list Z) : res Z :=
  if elements =? 0 then Fault DivByZero else Ok (hash_loop 0 q 0 `mod` elements).

(** The peer with address [q] in a chain. *)
Fixpoint peer_search (fuel : nat) (q : list Z) (x : Z) (s : peers) : res Z :=
  if x =? NULL then Ok NULL
  else
    p ← field (info s) x;
    if bool_decide (q = paddr p) then Ok x
    else
      match fuel with
      | O => Fault Unfinished
      | S fuel => n ← field (hash_next s) x; peer_search fuel q n s
      end.

(** [name]: what getpeername tells, [None] if it fails or for a unix socket.
    [mem]: the block lws_zalloc gives. *)
Definition lws_get_or_create_peer (name : option (list Z)) (mem : option Z) (now : Z) (s : peers) : res (Z * peers) :=
  match name with
  | None => Ok (NULL, s)
  | Some q =>
      hash ← peer_hash (Z.of_nat (length (pl_hash_table s))) q;
      head ← elem (pl_hash_table s) hash;
      x ← peer_search (size (info s)) q head s;
      if negb (x =? NULL) then Ok (x, s)
      else
        match mem with
        | None => Ok (NULL, s)
        | Some x =>
            let s := set_info (<[x := Peer q hash 0 0 now now]> (info s)) (set_count_peers (count_peers s + 1) s) in
            t ← store (pl_hash_table s) hash x;
            let s := set_table t (<[x := head]> (hash_next s)) s in
            let s := set_waiting (peer_wait_list s) (<[x := NULL]> (wait_next s)) s in
            s ← lws_peer_add_to_peer_wait_list x s;
            Ok (x, s)
        end
  end.

Definition lws_peer_destroy (peer : Z) (s : peers) : res (Z * peers) :=
  p ← field (info s) peer;
  head ← elem (pl_hash_table s) (phash p);
  o ← llp_find (size (hash_next s)) head (hash_next s) peer None;
  match o with
  | None => Ok (1, s)
  | Some l =>
      n ← field (hash_next s) peer;
      '(head, nx) ← llp_assign head (hash_next s) l n;
      t ← store (pl_hash_table s) (phash p) head;
      let s := set_table t (delete peer nx) s in
      let s := set_waiting (peer_wait_list s) (delete peer (wait_next s)) (set_info (delete peer (info s)) s) in
      Ok (0, set_count_peers (count_peers s - 1) s)
  end.

(** The loop over the waiting list, at link [l]. *)
Fixpoint cull_loop (fuel : nat) (t : Z) (l : option Z) (s : peers) : res peers :=
  df ← llp_deref (peer_wait_list s) (wait_next s) l;
  if df =? NULL then Ok s
  else
    match fuel with
    | O => Fault Unfinished
    | S fuel =>
        p ← field (info s) df;
        if 10 <? t - time_closed_all p then
          n ← field (wait_next s) df;
          '(head, nx) ← llp_assign (peer_wait_list s) (wait_next s) l n;
          _ ← field nx df;
          '(_, s) ← lws_peer_destroy df (set_waiting head (<[df := NULL]> nx) s);
          cull_loop fuel t l s
        else cull_loop fuel t (Some df) s
    end.

Definition lws_peer_cull_peer_wait_list (t : Z) (s : peers) : res peers :=
  if negb (next_cull s =? 0) && (t <? next_cull s) then Ok s
  else cull_loop (size (wait_next s)) t None (set_next_cull (t + 5) s).

Definition lws_peer_add_wsi (peer wsi : Z) (s : peers) : res peers :=
  if peer =? NULL then Ok s
  else
    p ← field (info s) peer;
    let s := set_info (<[peer := set_count_wsi (count_wsi p + 1) p]> (info s)) s in
    lws_peer_remove_from_peer_wait_list peer (set_wsi (<[wsi := peer]> (wsi_peer s)) (has_ah s) s).

Definition lws_peer_track_wsi_close (peer now : Z) (s : peers) : res peers :=
  if peer =? NULL then Ok s
  else
    p ← field (info s) peer;
    if count_wsi p =? 0 then Fault AssertFailed
    else
      let p := set_count_wsi (count_wsi p - 1) p in
      if (count_wsi p =? 0) && (http_count_ah p =? 0) then
        lws_peer_add_to_peer_wait_list peer (set_info (<[peer := set_closed now p]> (info s)) s)
      else Ok (set_info (<[peer := p]> (info s)) s).

Definition lws_peer_track_ah_detach (peer : Z) (s : peers) : res peers :=
  if peer =? NULL then Ok s
  else
    p ← field (info s) peer;
    if http_count_ah p =? 0 then Fault AssertFailed
    else Ok (set_info (<[peer := set_peer_ah (http_count_ah p - 1) p]> (info s)) s).

(** ** What happens to a connection *)

(** A connection is refused because of its peer, or closed because there is no
    memory for it, or adopted. *)
Inductive adoption := Refused | NoWsi | Adopted.

#[global] Instance adoption_eq_dec : EqDecision adoption.
Proof. solve_decision. Defined.

(** lws_adopt_descriptor_vhost of a socket, up to where the peer has been told
    of it; [new_wsi] is what lws_create_new_server_wsi gives. *)
Definition adopt_socket (ip_limit_wsi : Z) (name : option (list Z)) (mem : option Z) (new_wsi : option Z) (now : Z) (s : peers) :
    res (adoption * peers) :=
  '(peer, s) ← lws_get_or_create_peer name mem now s;
  full ← (if (peer =? NULL) || (ip_limit_wsi =? 0) then Ok false
          else p ← field (info s) peer; Ok (ip_limit_wsi <=? count_wsi p));
  if full : bool then Ok (Refused, s)
  else
    match new_wsi with
    | None => Ok (NoWsi, s)
    | Some w =>
        let s := set_wsi (<[w := NULL]> (wsi_peer s)) (has_ah s) s in
        s ← lws_peer_add_wsi peer w s;
        Ok (Adopted, s)
    end.

(** A connection gets a header store: [wsi->peer->http.count_ah++]. *)
Definition wsi_takes_ah (w : Z) (s : peers) : res peers :=
  peer ← field (wsi_peer s) w;
  let s := set_wsi (wsi_peer s) ({[w]} ∪ has_ah s) s in
  if peer =? NULL then Ok s
  else p ← field (info s) peer; Ok (set_info (<[peer := set_peer_ah (http_count_ah p + 1) p]> (info s)) s).

(** It gives it back. *)
Definition wsi_drops_ah (w : Z) (s : peers) : res peers :=
  peer ← field (wsi_peer s) w;
  lws_peer_track_ah_detach peer (set_wsi (wsi_peer s) (has_ah s ∖ {[w]}) s).

(** What __lws_free_wsi does with stores and peers: a header store is given
    back first. *)
Definition lws_free_wsi (w now : Z) (s : peers) : res peers :=
  s ← (if bool_decide (w ∈ has_ah s) then wsi_drops_ah w s else Ok s);
  peer ← field (wsi_peer s) w;
  s ← lws_peer_track_wsi_close peer now s;
  Ok (set_wsi (delete w (wsi_peer s)) (has_ah s) s).

(** ** Lemmas: linked lists *)

Lemma chain_size nx a l : chain nx a l → NoDup l → (length l ≤ size nx)%nat.
Proof.
  intros Hc Hn. rewrite <- (size_list_to_set (C := gset Z)) by done. rewrite <- size_dom. apply subseteq_size.
  intros x Hx%elem_of_list_to_set. apply elem_of_dom. by apply (chain_elem _ _ _ x Hc).
Qed.

(** What the link after the nodes [l1] points to. *)
Definition pointed (head : Z) (nx : gmap Z Z) (l : option Z) : Z := match l with None => head | Some x => default NULL (nx !! x) end.

Lemma chain_after nx head l1 l2 :
  chain nx head (l1 ++ l2) → chain nx (pointed head nx (last l1)) l2 ∧ llp_deref head nx (last l1) = Ok (pointed head nx (last l1)).
Proof.
  revert head. induction l1 as [|x l1 IH]; intros head Hc; [done|]. destruct Hc as (-> & Hx & b & E & Hc). destruct (IH b Hc) as [IH1 IH2].
  destruct l1 as [|y l1]; [cbn [last pointed llp_deref] in *; by rewrite E, (field_ok _ _ _ Hx E)|]. rewrite last_cons_cons.
  destruct (last (y :: l1)) as [z|] eqn:El; [done|by apply last_None in El].
Qed.

Lemma llp_find_spec nx head x l1 l2 l3 fuel :
  chain nx head (l1 ++ l2 ++ l3) → (length l2 ≤ fuel)%nat → x ∉ l2 → (l3 = [] ∨ ∃ l4, l3 = x :: l4) →
  llp_find fuel head nx x (last l1) = Ok (match l3 with [] => None | _ => Some (last (l1 ++ l2)) end).
Proof.
  revert l1 fuel. induction l2 as [|y l2 IH]; intros l1 fuel Hc Hf Hx Hr.
  - rewrite app_nil_r. cbn [app] in Hc. destruct (chain_after _ _ _ _ Hc) as [Hp Hd].
    destruct fuel; cbn [llp_find]; rewrite Hd; cbn [mbind res_bind]; (destruct Hr as [->|[l4 ->]]; [cbn in Hp; by rewrite Hp|]);
      destruct Hp as (-> & Hn & _); rewrite (proj2 (Z.eqb_neq _ NULL)) by done; by rewrite Z.eqb_refl.
  - destruct fuel as [|fuel]; [cbn in Hf; lia|]. cbn [llp_find]. destruct (chain_after _ _ _ _ Hc) as [Hp Hd]. rewrite Hd. cbn [mbind res_bind].
    cbn [app] in Hp. destruct Hp as (-> & Hn & _). apply not_elem_of_cons in Hx as [Hxy Hx].
    rewrite (proj2 (Z.eqb_neq _ NULL)), (proj2 (Z.eqb_neq y x)) by congruence.
    specialize (IH (l1 ++ [y]) fuel). rewrite last_snoc, <- !app_assoc in IH. cbn [app] in IH. apply IH; [done|cbn in Hf; lia|done|done].
Qed.

Lemma llp_find_in nx head x l1 l2 :
  chain nx head (l1 ++ x :: l2) → NoDup (l1 ++ x :: l2) → llp_find (size nx) head nx x None = Ok (Some (last l1)).
Proof.
  intros Hc Hn. pose proof (chain_size _ _ _ Hc Hn) as Hsz. rewrite length_app in Hsz. apply NoDup_drop_middle in Hn as [_ Hn].
  rewrite elem_of_app in Hn. apply (llp_find_spec nx head x [] l1 (x :: l2)); [done|lia|tauto|eauto].
Qed.

Lemma llp_find_out nx head x l : chain nx head l → NoDup l → x ∉ l → llp_find (size nx) head nx x None = Ok None.
Proof.
  intros Hc Hn Hx. pose proof (chain_size _ _ _ Hc Hn) as Hsz. rewrite <- (app_nil_r l) in Hc.
  apply (llp_find_spec nx head x [] l []); auto.
Qed.

(** A node is taken out of a list. *)
Lemma unlink nx head l1 x l2 :
  chain nx head (l1 ++ x :: l2) → NoDup (l1 ++ x :: l2) →
  ∃ n head' nx', x ≠ NULL ∧ field nx x = Ok n ∧ llp_assign head nx (last l1) n = Ok (head', nx') ∧ chain nx' head' (l1 ++ l2)
    ∧ dom nx' = dom nx ∧ field nx' x = Ok n.
Proof.
  revert head. induction l1 as [|y l1 IH]; intros head Hc Hn; cbn [app] in *.
  - destruct Hc as (-> & Hx & n & E & Hc). exists n, n, nx. rewrite (field_ok _ _ _ Hx E). by split_and!.
  - destruct Hc as (-> & Hy & b & E & Hc). apply NoDup_cons in Hn as [Hyn Hn]. destruct (IH b Hc Hn) as (n & head' & nx' & Hx & Ef & Ea & Hc' & Hd & Ex).
    assert (y ≠ x ∧ y ∉ l1 ++ l2) as [Hyx Hyl] by (rewrite !elem_of_app, elem_of_cons in *; naive_solver).
    exists n. destruct l1 as [|z l1].
    + cbn [last llp_assign] in *. injection Ea as <- <-. rewrite (field_ok _ _ _ Hy E). cbn [mbind res_bind]. exists y, (<[y := n]> nx).
      split_and!; try done.
      * split; [done|]. split; [done|]. exists n. rewrite lookup_insert_eq. split; [done|]. apply (chain_frame nx); [|done].
        intros w Hw. apply lookup_insert_ne. by intros ->.
      * rewrite dom_insert_L. assert (y ∈ dom nx) by (apply elem_of_dom; by eexists). set_solver.
      * unfold field in *. by rewrite lookup_insert_ne by done.
    + rewrite last_cons_cons. destruct (last (z :: l1)) as [q|] eqn:El; [|by apply last_None in El]. cbn [llp_assign] in *.
      destruct (field nx q) eqn:Eq; [|done]. cbn [mbind res_bind] in *. injection Ea as <- <-. exists y, (<[q := n]> nx). split_and!; try done.
      split; [done|]. split; [done|]. exists b. rewrite lookup_insert_ne; [by split|]. intros ->. apply last_Some in El as (l & El).
      apply Hyl, elem_of_app. left. rewrite El. apply elem_of_app. right. by left.
Qed.

Lemma chain_insert nx head l x n : x ∉ l → chain nx head l → chain (<[x := n]> nx) head l.
Proof. intros Hx. apply chain_frame. intros y Hy. apply lookup_insert_ne. by intros ->. Qed.

Lemma chain_delete nx head l x : x ∉ l → chain nx head l → chain (delete x nx) head l.
Proof. intros Hx. apply chain_frame. intros y Hy. apply lookup_delete_ne. by intros ->. Qed.

Lemma chain_null nx head l : chain nx head l → head ≠ NULL ∨ l = [].
Proof. destruct l; [by right|]. intros (-> & H & _). by left. Qed.

(** ** The table and the waiting list as lists *)

(** [chains b] are the peers with hash [b], [wl] those that wait. *)
Record tabled (s : peers) (chains : Z → list Z) (wl : list Z) : Prop := {
  tb_size : 0 < Z.of_nat (length (pl_hash_table s));
  tb_chain : ∀ b head, elem (pl_hash_table s) b = Ok head → chain (hash_next s) head (chains b) ∧ NoDup (chains b);
  tb_chains : ∀ b p, p ∈ chains b ↔ ∃ r, info s !! p = Some r ∧ phash r = b;
  tb_wait : chain (wait_next s) (peer_wait_list s) wl ∧ NoDup wl;
  tb_waiting : ∀ p, p ∈ wl → is_Some (info s !! p);
  tb_next : dom (hash_next s) = dom (info s);
  tb_wnext : dom (wait_next s) = dom (info s);
  tb_peer : ∀ p r, info s !! p = Some r → p ≠ NULL ∧ peer_hash (Z.of_nat (length (pl_hash_table s))) (paddr r) = Ok (phash r);
  tb_addr : ∀ p q r r', info s !! p = Some r → info s !! q = Some r' → paddr r = paddr r' → p = q;
  tb_count : count_peers s = Z.of_nat (size (info s));
}.

Lemma peer_hash_elem (n : nat) (t : list Z) q : (0 < n)%nat → length t = n → ∃ b head, peer_hash (Z.of_nat n) q = Ok b ∧ elem t b = Ok head ∧ 0 <= b < Z.of_nat n.
Proof.
  intros Hn Ht. unfold peer_hash. rewrite (proj2 (Z.eqb_neq _ _)) by lia. pose proof (Z.mod_pos_bound (hash_loop 0 q 0) (Z.of_nat n) ltac:(lia)) as Hb.
  destruct (lookup_lt_is_Some_2 t (Z.to_nat (hash_loop 0 q 0 `mod` Z.of_nat n))) as [head E]; [lia|]. eexists _, head. split; [done|]. split; [|done].
  unfold elem. rewrite (proj2 (Z.ltb_ge _ _)) by lia. by rewrite E.
Qed.

(** The fields of peers that are not links may change. *)
Lemma tabled_update s chains wl x p p' :
  tabled s chains wl → info s !! x = Some p → paddr p' = paddr p → phash p' = phash p → tabled (set_info (<[x := p']> (info s)) s) chains wl.
Proof.
  intros [T1 T2 T3 T4 T5 T6 T7 T8 T9 T10] E Ea Eh. split; cbn; try done.
  - intros b q. rewrite T3. destruct (decide (q = x)) as [->|Hq]; [|by rewrite lookup_insert_ne by done].
    rewrite lookup_insert_eq. split; intros (r & Er & Hr); [exists p'|exists p]; split; try done; congruence.
  - intros q Hq. destruct (decide (q = x)) as [->|]; [rewrite lookup_insert_eq; by eexists|rewrite lookup_insert_ne by done; by apply T5].
  - rewrite dom_insert_lookup_L by (by eexists). done.
  - rewrite dom_insert_lookup_L by (by eexists). done.
  - intros q r. destruct (decide (q = x)) as [->|]; [rewrite lookup_insert_eq; intros [= <-]; rewrite Ea, Eh; by apply T8|].
    rewrite lookup_insert_ne by done. apply T8.
  - intros q1 q2 r1 r2 E1 E2 Ers.
    assert (∀ q r, <[x := p']> (info s) !! q = Some r → ∃ r0, info s !! q = Some r0 ∧ paddr r0 = paddr r) as Hold.
    { intros q r. destruct (decide (q = x)) as [->|]; [rewrite lookup_insert_eq; intros [= <-]; by exists p|].
      rewrite lookup_insert_ne by done. intros Er. by exists r. }
    destruct (Hold _ _ E1) as (r1' & E1' & Ea1). destruct (Hold _ _ E2) as (r2' & E2' & Ea2). apply (T9 _ _ _ _ E1' E2'). congruence.
  - rewrite map_size_insert_Some by (by eexists). done.
Qed.

Lemma tabled_wsi s chains wl m o : tabled s chains wl → tabled (set_wsi m o s) chains wl.
Proof. by intros []. Qed.

(** Taking a peer off the waiting list, and putting it there. *)
Lemma remove_waiting s chains wl x :
  tabled s chains wl →
  ∃ head nx wl', lws_peer_remove_from_peer_wait_list x s = Ok (set_waiting head nx s) ∧ tabled (set_waiting head nx s) chains wl'
    ∧ ∀ y, y ∈ wl' ↔ y ∈ wl ∧ y ≠ x.
Proof.
  intros [T1 T2 T3 [Tc Tn] T5 T6 T7 T8 T9 T10]. unfold lws_peer_remove_from_peer_wait_list. destruct (decide (x ∈ wl)) as [Hx|Hx].
  - apply list_elem_of_split in Hx as (l1 & l2 & ->). rewrite (llp_find_in _ _ _ _ _ Tc Tn). cbn [mbind res_bind].
    destruct (unlink _ _ _ _ _ Tc Tn) as (n & head' & nx' & Hx0 & -> & Ea & Hc' & Hd & Ex). cbn [mbind res_bind]. rewrite Ea. cbn [mbind res_bind]. rewrite Ex.
    cbn [mbind res_bind]. eexists _, _, (l1 ++ l2). pose proof Tn as Tn'. apply NoDup_drop_middle in Tn' as [Tn' Hx]. split; [done|].
    split; [|intros y; rewrite !elem_of_app, elem_of_cons in *; naive_solver].
    split; cbn; try done.
    + split; [|done]. by apply chain_insert.
    + intros y Hy. apply T5. rewrite elem_of_app, elem_of_cons in *. naive_solver.
    + rewrite dom_insert_L, Hd. assert (x ∈ dom (wait_next s)); [|set_solver]. rewrite T7. apply elem_of_dom, T5. apply elem_of_app. right. by left.
  - rewrite (llp_find_out _ _ _ _ Tc Tn Hx). cbn [mbind res_bind]. exists (peer_wait_list s), (wait_next s), wl.
    assert (set_waiting (peer_wait_list s) (wait_next s) s = s) as -> by by destruct s. split; [done|]. split; [by split|].
    intros y. split; [|by intros [? _]]. intros Hy. split; [done|]. by intros ->.
Qed.

Lemma add_waiting s chains wl x :
  tabled s chains wl → is_Some (info s !! x) →
  ∃ head nx wl', lws_peer_add_to_peer_wait_list x s = Ok (set_waiting head nx s) ∧ tabled (set_waiting head nx s) chains wl'
    ∧ ∀ y, y ∈ wl' ↔ y = x ∨ y ∈ wl.
Proof.
  intros Ht Hx. destruct (remove_waiting s chains wl x Ht) as (head & nx & wl' & E & Ht' & Hwl). unfold lws_peer_add_to_peer_wait_list.
  rewrite E. cbn [mbind res_bind]. destruct Ht' as [T1 T2 T3 [Tc Tn] T5 T6 T7 T8 T9 T10]. cbn in *. destruct Hx as [r Er].
  destruct (T8 _ _ Er) as [Hx0 _]. assert (x ∈ dom nx) as [b Eb]%elem_of_dom by (rewrite T7; apply elem_of_dom; by eexists).
  rewrite (field_ok _ _ _ Hx0 Eb). cbn [mbind res_bind]. assert (x ∉ wl') as Hxw by (rewrite Hwl; tauto).
  eexists _, _, (x :: wl'). split; [done|]. split.
  - split; cbn; try done.
    + split; [|by apply NoDup_cons]. split; [done|]. split; [done|]. exists head. rewrite lookup_insert_eq. split; [done|]. by apply chain_insert.
    + intros y [->|Hy]%elem_of_cons; [by eexists|by apply T5].
    + by rewrite dom_insert_lookup_L by (by eexists).
  - intros y. rewrite elem_of_cons, Hwl. destruct (decide (y = x)); naive_solver.
Qed.

(** Looking for an address in a chain. *)
Lemma search_chain s q head l fuel :
  chain (hash_next s) head l → (∀ x, x ∈ l → x ≠ NULL ∧ is_Some (info s !! x)) → (length l ≤ fuel)%nat →
  (∀ x r, x ∈ l → info s !! x = Some r → paddr r ≠ q) ∧ peer_search fuel q head s = Ok NULL
  ∨ ∃ x r, x ∈ l ∧ info s !! x = Some r ∧ paddr r = q ∧ peer_search fuel q head s = Ok x.
Proof.
  revert head fuel. induction l as [|x l IH]; intros head fuel Hc Hi Hf.
  { left. cbn in Hc. subst head. split; [by intros x r ?%elem_of_nil|]. by destruct fuel. }
  destruct Hc as (-> & Hx & b & Eb & Hc). destruct (Hi x (list_elem_of_here _ _)) as [_ [r Er]].
  destruct fuel as [|fuel]; [cbn in Hf; lia|]. cbn [peer_search]. rewrite (proj2 (Z.eqb_neq x NULL)) by done.
  rewrite (field_ok _ _ _ Hx Er). cbn [mbind res_bind]. case_bool_decide as Eq.
  { right. exists x, r. split; [left|done]. }
  rewrite (field_ok _ _ _ Hx Eb). cbn [mbind res_bind].
  destruct (IH b fuel Hc) as [[Hno E]|(y & ry & Hy & Ey & Eq' & E)].
  - intros y Hy. apply Hi. by right.
  - cbn in Hf. lia.
  - left. split; [|done]. intros y ry [->|Hy]%elem_of_cons Ey; [|by eapply Hno]. rewrite Er in Ey. injection Ey as <-. congruence.
  - right. exists y, ry. split; [by right|done].
Qed.

Lemma search_ok s chains wl q :
  tabled s chains wl →
  ∃ b head, peer_hash (Z.of_nat (length (pl_hash_table s))) q = Ok b ∧ elem (pl_hash_table s) b = Ok head ∧ 0 <= b
    ∧ (b < Z.of_nat (length (pl_hash_table s)))
    ∧ ((∀ x r, info s !! x = Some r → paddr r ≠ q) ∧ peer_search (size (info s)) q head s = Ok NULL
       ∨ ∃ x r, info s !! x = Some r ∧ paddr r = q ∧ peer_search (size (info s)) q head s = Ok x).
Proof.
  intros [T1 T2 T3 T4 T5 T6 T7 T8 T9 T10]. destruct (peer_hash_elem (length (pl_hash_table s)) (pl_hash_table s) q) as (b & head & Eb & Eh & Hb); [lia|done|].
  exists b, head. split; [done|]. split; [done|]. split; [lia|]. split; [lia|]. destruct (T2 _ _ Eh) as [Hc Hn].
  pose proof (chain_size _ _ _ Hc Hn) as Hsz. rewrite <- size_dom, T6, size_dom in Hsz.
  destruct (search_chain s q head (chains b) (size (info s)) Hc) as [[Hno E]|(x & r & Hx & Ex & Eq & E)]; [|done| |].
  - intros x (r & Er & _)%T3. split; [by apply (T8 x r)|by eexists].
  - left. split; [|done]. intros x r Er Eq. apply (Hno x r); [|done|done]. apply T3. exists r. split; [done|].
    destruct (T8 _ _ Er) as [_ Eh']. rewrite Eq, Eb in Eh'. by injection Eh'.
  - right. by exists x, r.
Qed.

(** A new peer. *)
Lemma create_ok s chains wl q x now :
  tabled s chains wl → (∀ x r, info s !! x = Some r → paddr r ≠ q) → x ≠ NULL → info s !! x = None →
  ∃ s' chains' wl' b, lws_get_or_create_peer (Some q) (Some x) now s = Ok (x, s') ∧ tabled s' chains' wl'
    ∧ (∀ y, y ∈ wl' ↔ y = x ∨ y ∈ wl) ∧ info s' = <[x := Peer q b 0 0 now now]> (info s)
    ∧ wsi_peer s' = wsi_peer s ∧ has_ah s' = has_ah s ∧ next_cull s' = next_cull s.
Proof.
  intros Ht Hq Hx Hnew. destruct (search_ok s chains wl q Ht) as (b & head & Eb & Eh & Hb0 & Hbn & [[_ Es]|(y & r & Ey & Eq & _)]); [|by destruct (Hq y r)].
  unfold lws_get_or_create_peer. rewrite Eb. cbn [mbind res_bind]. rewrite Eh. cbn [mbind res_bind]. rewrite Es. cbn [mbind res_bind]. rewrite Z.eqb_refl. cbn [negb].
  cbn [set_info set_count_peers pl_hash_table]. replace b with (Z.of_nat (Z.to_nat b)) by lia. rewrite store_ok by lia. cbn [mbind res_bind]. rewrite Z2Nat.id by lia.
  set (s1 := set_waiting _ _ _). destruct Ht as [T1 T2 T3 [Tc Tn] T5 T6 T7 T8 T9 T10].
  assert (∀ b, x ∉ chains b) as Hxc by (intros b' (r & Er & _)%T3; congruence).
  assert (x ∉ wl) as Hxw by (intros [r Er]%T5; congruence).
  set (chains' := λ b', if b' =? b then x :: chains b' else chains b').
  assert (tabled s1 chains' wl) as Ht1.
  { assert (length (<[Z.to_nat b := x]> (pl_hash_table s)) = length (pl_hash_table s)) as El by apply length_insert.
    split; cbn; rewrite ?El; try done.
    - intros b' h'. unfold elem. destruct (Z.ltb_spec b' 0); [done|]. unfold chains'. destruct (Z.eqb_spec b' b) as [->|Hne].
      + rewrite list_lookup_insert_eq by lia. intros [= <-]. destruct (T2 _ _ Eh) as [Hc Hn]. split; [|by apply NoDup_cons].
        split; [done|]. split; [done|]. exists head. rewrite lookup_insert_eq. split; [done|]. by apply chain_insert.
      + rewrite list_lookup_insert_ne by lia. intros Eh'. destruct (T2 b' h') as [Hc Hn]; [unfold elem; by rewrite (proj2 (Z.ltb_ge _ _)) by lia|].
        split; [by apply chain_insert|done].
    - intros b' p. unfold chains'. destruct (Z.eqb_spec b' b) as [->|Hne]; [rewrite elem_of_cons|]; rewrite T3.
      + destruct (decide (p = x)) as [->|]; [rewrite lookup_insert_eq|by rewrite lookup_insert_ne by done; naive_solver].
        split; [intros _; by eexists|by left].
      + destruct (decide (p = x)) as [->|]; [rewrite lookup_insert_eq, Hnew; split; intros (r & Er & Hr); [done|by injection Er as <-; cbn in Hr]|].
        by rewrite lookup_insert_ne by done.
    - split; [|done]. by apply chain_insert.
    - intros p Hp. rewrite lookup_insert_ne by (by intros ->). by apply T5.
    - by rewrite !dom_insert_L, T6.
    - by rewrite !dom_insert_L, T7.
    - intros p r. destruct (decide (p = x)) as [->|]; [rewrite lookup_insert_eq; intros [= <-]; by split|]. rewrite lookup_insert_ne by done. apply T8.
    - intros p1 p2 r1 r2. destruct (decide (p1 = x)) as [->|], (decide (p2 = x)) as [->|]; rewrite ?lookup_insert_eq, ?lookup_insert_ne by done; try done.
      + intros [= <-] E2 Ers. by destruct (Hq _ _ E2).
      + intros E1 [= <-] Ers. by destruct (Hq _ _ E1).
      + apply T9.
    - rewrite map_size_insert_None by done. lia. }
  destruct (add_waiting s1 chains' wl x Ht1) as (h2 & nx2 & wl' & E2 & Ht2 & Hwl); [by eexists; apply lookup_insert_eq|].
  rewrite E2. cbn [mbind res_bind]. eexists _, chains', wl', b. split; [done|]. split; [exact Ht2|]. by split_and!.
Qed.

(** A peer that does not wait any more is freed. *)
Lemma destroy_ok s chains wl x r :
  tabled s chains wl → info s !! x = Some r → x ∉ wl →
  ∃ s' chains', lws_peer_destroy x s = Ok (0, s') ∧ tabled s' chains' wl ∧ info s' = delete x (info s)
    ∧ wait_next s' = delete x (wait_next s) ∧ peer_wait_list s' = peer_wait_list s
    ∧ wsi_peer s' = wsi_peer s ∧ has_ah s' = has_ah s ∧ next_cull s' = next_cull s.
Proof.
  intros [T1 T2 T3 [Tc Tn] T5 T6 T7 T8 T9 T10] Er Hxw. destruct (T8 _ _ Er) as [Hx Eh].
  destruct (peer_hash_elem (length (pl_hash_table s)) (pl_hash_table s) (paddr r)) as (b & head & Eb & Eh' & Hb); [lia|done|].
  rewrite Eh in Eb. injection Eb as <-. unfold lws_peer_destroy. rewrite (field_ok _ _ _ Hx Er). cbn [mbind res_bind]. rewrite Eh'. cbn [mbind res_bind].
  destruct (T2 _ _ Eh') as [Hc Hn]. assert (x ∈ chains (phash r)) as Hin by (apply T3; by exists r).
  apply list_elem_of_split in Hin as (l1 & l2 & El). rewrite El in *. rewrite (llp_find_in _ _ _ _ _ Hc Hn). cbn [mbind res_bind].
  destruct (unlink _ _ _ _ _ Hc Hn) as (n & head' & nx' & _ & -> & Ea & Hc' & Hd & _). cbn [mbind res_bind]. rewrite Ea. cbn [mbind res_bind].
  assert (store (pl_hash_table s) (phash r) head' = Ok (<[Z.to_nat (phash r) := head']> (pl_hash_table s))) as ->
    by (rewrite <- (Z2Nat.id (phash r)) at 1 by lia; apply store_ok; lia).
  cbn [mbind res_bind]. pose proof Hn as Hn'. apply NoDup_drop_middle in Hn' as [Hn' Hxl].
  set (chains' := λ b', if b' =? phash r then l1 ++ l2 else chains b').
  assert (∀ b y, b ≠ phash r → y ∈ chains b → y ∉ l1 ++ x :: l2) as Hdis.
  { intros b' y Hne (r1 & E1 & H1)%T3. rewrite <- El. intros (r2 & E2 & H2)%T3. rewrite E1 in E2. injection E2 as <-. congruence. }
  eexists _, chains'. split; [done|]. split; [|by split_and!].
  assert (length (<[Z.to_nat (phash r) := head']> (pl_hash_table s)) = length (pl_hash_table s)) as Elen by apply length_insert.
  split; cbn; rewrite ?Elen; try done.
  - intros b' h'. unfold elem. destruct (Z.ltb_spec b' 0); [done|]. unfold chains'. destruct (Z.eqb_spec b' (phash r)) as [->|Hne].
    + rewrite list_lookup_insert_eq by lia. intros [= <-]. split; [by apply chain_delete|done].
    + rewrite list_lookup_insert_ne by lia. intros E'. destruct (T2 b' h') as [Hcb Hnb]; [unfold elem; by rewrite (proj2 (Z.ltb_ge _ _)) by lia|].
      split; [|done]. apply chain_delete; [intros Hxb; apply (Hdis b' x Hne Hxb); apply elem_of_app; right; by left|].
      destruct (last l1) as [z|] eqn:Ez; [|cbn in Ea; by injection Ea as _ <-]. cbn [llp_assign] in Ea. destruct (field (hash_next s) z); [|done].
      cbn [mbind res_bind] in Ea. injection Ea as _ <-. apply chain_insert; [|done]. intros Hzb. apply (Hdis b' z Hne Hzb).
      apply last_Some in Ez as (l & ->). rewrite !elem_of_app. left. right. by left.
  - intros b' p. unfold chains'. destruct (decide (p = x)) as [->|Hp].
    + rewrite lookup_delete_eq. split; [|by intros (? & ? & _)]. destruct (Z.eqb_spec b' (phash r)) as [->|Hne]; [done|].
      intros Hxb. destruct (Hdis b' x Hne Hxb). apply elem_of_app. right. by left.
    + rewrite lookup_delete_ne by done. rewrite <- T3. destruct (Z.eqb_spec b' (phash r)) as [->|Hne]; [|done].
      rewrite El, !elem_of_app, elem_of_cons. naive_solver.
  - split; [|done]. by apply chain_delete.
  - intros p Hp. rewrite lookup_delete_ne by (by intros ->). by apply T5.
  - by rewrite !dom_delete_L, Hd, T6.
  - by rewrite !dom_delete_L, T7.
  - intros p rp [_ Ep]%lookup_delete_Some. by apply T8.
  - intros p1 p2 r1 r2 [_ E1]%lookup_delete_Some [_ E2]%lookup_delete_Some. by apply T9.
  - rewrite map_size_delete_Some by (by eexists). assert (size (info s) ≠ 0%nat) by (intros E0%map_size_empty_iff; by rewrite E0 in Er). lia.
Qed.

(** The peers that have waited long enough at time [t]. *)
Definition expired (t : Z) (r : lws_peer) : Prop := 10 < t - time_closed_all r.

#[global] Instance expired_dec t r : Decision (expired t r).
Proof. unfold expired. apply _. Defined.

Lemma cull_loop_ok t todo : ∀ kept s chains fuel,
  tabled s chains (kept ++ todo) → (length todo ≤ fuel)%nat →
  ∃ s' chains' wl, cull_loop fuel t (last kept) s = Ok s' ∧ tabled s' chains' wl
    ∧ (∀ p r, info s' !! p = Some r ↔ info s !! p = Some r ∧ ¬ (p ∈ todo ∧ expired t r))
    ∧ (∀ p, p ∈ wl ↔ p ∈ kept ++ todo ∧ is_Some (info s' !! p))
    ∧ wsi_peer s' = wsi_peer s ∧ has_ah s' = has_ah s ∧ next_cull s' = next_cull s.
Proof.
  induction todo as [|x todo IH]; intros kept s chains fuel Ht Hf.
  - destruct (chain_after _ _ _ _ (proj1 (tb_wait _ _ _ Ht))) as [Hc Hd]. cbn in Hc. exists s, chains, (kept ++ []).
    split; [destruct fuel; cbn [cull_loop]; rewrite Hd, Hc; done|]. split; [done|]. split; [intros p r; split; [intros ?; split; [done|]; by intros [?%elem_of_nil _]|tauto]|].
    split; [|done]. intros p. split; [intros Hp; split; [done|]; by apply (tb_waiting _ _ _ Ht)|tauto].
  - destruct fuel as [|fuel]; [cbn in Hf; lia|]. cbn [length] in Hf. destruct (tb_wait _ _ _ Ht) as [Tc Tn].
    destruct (chain_after _ _ _ _ Tc) as [Hc Hd]. destruct Hc as (Ep & Hx & _). cbn [cull_loop]. rewrite Hd, Ep. cbn [mbind res_bind].
    rewrite (proj2 (Z.eqb_neq x NULL)) by done. destruct (tb_waiting _ _ _ Ht x) as [r Er]; [apply elem_of_app; right; by left|].
    rewrite (field_ok _ _ _ Hx Er). cbn [mbind res_bind]. destruct (Z.ltb_spec 10 (t - time_closed_all r)) as [Hold|Hyoung].
    + destruct (unlink _ _ _ _ _ Tc Tn) as (n & head' & nx' & _ & -> & Ea & Hc' & Hdn & Ex). cbn [mbind res_bind]. rewrite Ea. cbn [mbind res_bind].
      rewrite Ex. cbn [mbind res_bind]. pose proof Tn as Tn'. apply NoDup_drop_middle in Tn' as [Tn' Hxl]. set (s1 := set_waiting _ _ _).
      assert (tabled s1 chains (kept ++ todo)) as Ht1.
      { destruct Ht as [T1 T2 T3 T4 T5 T6 T7 T8 T9 T10]. split; cbn; try done.
        - split; [by apply chain_insert|done].
        - intros p Hp. apply T5. rewrite elem_of_app, elem_of_cons in *. naive_solver.
        - rewrite dom_insert_L, Hdn, T7. assert (x ∈ dom (info s)) by (apply elem_of_dom; by eexists). set_solver. }
      destruct (destroy_ok s1 chains _ x r Ht1 Er Hxl) as (s2 & chains2 & E2 & Ht2 & Hi2 & _ & _ & Hw2 & Ha2 & Hn2). rewrite E2. cbn [mbind res_bind].
      destruct (IH kept s2 chains2 fuel Ht2 ltac:(lia)) as (s' & chains' & wl & E' & Ht' & Hi' & Hwl & Hw' & Ha' & Hn'). exists s', chains', wl.
      split; [done|]. split; [done|]. split; [|split; [|by rewrite Hw', Ha', Hn', Hw2, Ha2, Hn2]].
      * intros p rp. rewrite Hi', Hi2. cbn [s1 info set_waiting]. rewrite lookup_delete_Some, elem_of_cons.
        destruct (decide (p = x)) as [->|]; [|naive_solver]. split; [naive_solver|]. intros [Erp Hno]. rewrite Er in Erp. injection Erp as <-. destruct Hno. by split; [left|].
      * intros p. rewrite Hwl, !elem_of_app, elem_of_cons. split; [naive_solver|]. intros [Hp [rp Erp]]. split; [|by eexists].
        apply Hi' in Erp as [Erp _]. rewrite Hi2 in Erp. apply lookup_delete_Some in Erp. naive_solver.
    + specialize (IH (kept ++ [x]) s chains fuel). rewrite <- app_assoc, last_snoc in IH. cbn [app] in IH.
      destruct (IH Ht ltac:(lia)) as (s' & chains' & wl & E' & Ht' & Hi' & Hwl & Hrest). exists s', chains', wl. split; [done|]. split; [done|].
      split; [|split; [|done]].
      * intros p rp. rewrite Hi', elem_of_cons. destruct (decide (p = x)) as [->|]; [|naive_solver]. rewrite Er. split.
        -- intros [[= <-] _]. split; [done|]. unfold expired. intros [_ ?]. lia.
        -- intros [[= <-] _]. split; [done|]. unfold expired. intros [_ ?]. lia.
      * exact Hwl.
Qed.

(** ** What the peers are for

    The connections and the address of the peer each counts for; the addresses
    the server knows, with the time from which a peer without connections is
    idle; the connections with a header store. *)

Record clients := Clients {
  conn : gmap Z (option (list Z));
  known : gmap (list Z) Z;
  stores : gset Z;
  cull_at : Z;
}.

(** The connections of an address, and those of them with a header store. *)
Definition conns (m : gmap Z (option (list Z))) (q : list Z) : Z := Z.of_nat (size (filter (λ c, c.2 = Some q) m)).
Definition storing (m : gmap Z (option (list Z))) (o : gset Z) (q : list Z) : Z :=
  Z.of_nat (size (filter (λ w, m !! w = Some (Some q)) o)).

(** The address a new connection counts for: that of a known peer, or of a
    new one when there is memory for it. *)
Definition meet (name : option (list Z)) (room : bool) (now : Z) (k : gmap (list Z) Z) : option (list Z) * gmap (list Z) Z :=
  match name with
  | None => (None, k)
  | Some q =>
      match k !! q with
      | Some _ => (Some q, k)
      | None => if room then (Some q, <[q := now]> k) else (None, k)
      end
  end.

Definition spec_adopt (ip_limit_wsi : Z) (name : option (list Z)) (room : bool) (new_wsi : option Z) (now : Z) (a : clients) : adoption * clients :=
  let '(who, k) := meet name room now (known a) in
  let full := match who with None => false | Some q => negb (ip_limit_wsi =? 0) && (ip_limit_wsi <=? conns (conn a) q) end in
  match full, new_wsi with
  | true, _ => (Refused, Clients (conn a) k (stores a) (cull_at a))
  | false, None => (NoWsi, Clients (conn a) k (stores a) (cull_at a))
  | false, Some w => (Adopted, Clients (<[w := who]> (conn a)) k (stores a) (cull_at a))
  end.

Definition spec_free (w now : Z) (a : clients) : clients :=
  let m := delete w (conn a) in
  let k := match conn a !! w with
           | Some (Some q) => if conns m q =? 0 then <[q := now]> (known a) else known a
           | _ => known a
           end in
  Clients m k (stores a ∖ {[w]}) (cull_at a).

Definition spec_cull (t : Z) (a : clients) : clients :=
  if negb (cull_at a =? 0) && (t <? cull_at a) then a
  else Clients (conn a) (filter (λ c, ¬ (conns (conn a) c.1 = 0 ∧ 10 < t - c.2)) (known a)) (stores a) (t + 5).

(** ** Counting *)

Lemma conns_insert m w o q : m !! w = None → conns (<[w := o]> m) q = (if decide (o = Some q) then 1 else 0) + conns m q.
Proof.
  intros Hw. unfold conns. destruct (decide (o = Some q)) as [->|Ho].
  - rewrite map_filter_insert_True by done. rewrite map_size_insert_None; [lia|]. apply map_lookup_filter_None. by left.
  - rewrite map_filter_insert_False by done. by rewrite delete_id.
Qed.

Lemma conns_delete m w o q : m !! w = Some o → conns m q = (if decide (o = Some q) then 1 else 0) + conns (delete w m) q.
Proof. intros Hw. rewrite <- (insert_delete_id m w o Hw) at 1. by rewrite conns_insert by apply lookup_delete_eq. Qed.

Lemma conns_pos m w q : m !! w = Some (Some q) → 0 < conns m q.
Proof. intros Hw. rewrite (conns_delete _ _ _ _ Hw), decide_True by done. unfold conns. lia. Qed.

Lemma conns_none m q : (∀ w, m !! w ≠ Some (Some q)) → conns m q = 0.
Proof.
  intros H. unfold conns. assert (filter (λ c : Z * option (list Z), c.2 = Some q) m = ∅) as ->; [|by rewrite map_size_empty].
  apply map_empty. intros w. apply map_lookup_filter_None. right. intros o Ew Eo. cbn in Eo. subst o. by destruct (H w).
Qed.

Lemma size_filter_add (P : Z → Prop) `{∀ x, Decision (P x)} w (o : gset Z) :
  w ∉ o → size (filter P ({[w]} ∪ o)) = ((if decide (P w) then 1 else 0) + size (filter P o))%nat.
Proof.
  intros Hw. destruct (decide (P w)).
  - assert (filter P ({[w]} ∪ o) = {[w]} ∪ filter P o) as -> by set_solver. rewrite size_union by set_solver. by rewrite size_singleton.
  - assert (filter P ({[w]} ∪ o) = filter P o) as -> by set_solver. done.
Qed.

Lemma storing_add m o w q : w ∉ o → storing m ({[w]} ∪ o) q = (if decide (m !! w = Some (Some q)) then 1 else 0) + storing m o q.
Proof. intros Hw. unfold storing. rewrite size_filter_add by done. destruct (decide _); lia. Qed.

Lemma storing_remove m o w q : w ∈ o → storing m o q = (if decide (m !! w = Some (Some q)) then 1 else 0) + storing m (o ∖ {[w]}) q.
Proof.
  intros Hw. assert (o = {[w]} ∪ (o ∖ {[w]})) as Eo; [|rewrite Eo at 1; apply storing_add; set_solver].
  apply set_eq. intros x. destruct (decide (x = w)); set_solver.
Qed.

Lemma storing_frame m m' o q : (∀ w, w ∈ o → m !! w = m' !! w) → storing m o q = storing m' o q.
Proof. intros H. unfold storing. do 2 f_equal. apply set_eq. intros w. rewrite !elem_of_filter. split; (intros [E Hw]; split; [|done]); (rewrite H in * by done; done). Qed.

Lemma storing_conns m o q : storing m o q ≤ conns m q.
Proof.
  unfold storing, conns. apply inj_le. rewrite <- size_dom. apply subseteq_size. intros w [Ew _]%elem_of_filter.
  apply elem_of_dom. exists (Some q). by apply map_lookup_filter_Some.
Qed.

(** ** How the two correspond *)

(** The addresses known are those of the peers. *)
Definition knows (i : gmap Z lws_peer) (k : gmap (list Z) Z) : Prop :=
  ∀ q t, k !! q = Some t ↔ ∃ p r, i !! p = Some r ∧ paddr r = q ∧ time_closed_all r = t.

(** A peer counts its connections and their stores, and waits without
    connections. *)
Definition counting (i : gmap Z lws_peer) (m : gmap Z (option (list Z))) (o : gset Z) (wl : list Z) : Prop :=
  ∀ p r, i !! p = Some r →
    count_wsi r = conns m (paddr r) ∧ http_count_ah r = storing m o (paddr r) ∧ (p ∈ wl ↔ conns m (paddr r) = 0).

(** [x] is the peer of address [who]. *)
Definition peer_of (i : gmap Z lws_peer) (who : option (list Z)) (x : Z) : Prop :=
  match who with None => x = NULL | Some q => ∃ r, i !! x = Some r ∧ paddr r = q end.

(** [wsi->peer] of the connections. *)
Definition pointing (i : gmap Z lws_peer) (wp : gmap Z Z) (m : gmap Z (option (list Z))) : Prop :=
  dom wp = dom m ∧ ∀ w o, m !! w = Some o → w ≠ NULL ∧ ∃ x, wp !! w = Some x ∧ peer_of i o x.

Record related (s : peers) (a : clients) (chains : Z → list Z) (wl : list Z) : Prop := {
  rl_tabled : tabled s chains wl;
  rl_knows : knows (info s) (known a);
  rl_counting : counting (info s) (conn a) (stores a) wl;
  rl_pointing : pointing (info s) (wsi_peer s) (conn a);
  rl_stores : has_ah s = stores a;
  rl_storing : stores a ⊆ dom (conn a);
  rl_cull : next_cull s = cull_at a;
}.

Lemma knows_insert i k x r :
  knows i k → (∀ p r', i !! p = Some r' → paddr r' = paddr r → p = x) → (∀ r', i !! x = Some r' → paddr r' = paddr r) →
  knows (<[x := r]> i) (<[paddr r := time_closed_all r]> k).
Proof.
  intros Hk Hone Hsame q t. destruct (decide (q = paddr r)) as [->|Hq].
  - rewrite lookup_insert_eq. split; [intros [= <-]; exists x, r; by rewrite lookup_insert_eq|]. intros (p & r' & Ep & Ea & <-).
    destruct (decide (p = x)) as [->|Hp]; [rewrite lookup_insert_eq in Ep; by injection Ep as <-|]. rewrite lookup_insert_ne in Ep by done. by destruct Hp; eapply Hone.
  - rewrite lookup_insert_ne by done. rewrite (Hk q t). split; intros (p & r' & Ep & Ea & Et).
    + exists p, r'. rewrite lookup_insert_ne; [done|]. intros ->. apply Hq. rewrite <- Ea. by apply Hsame.
    + destruct (decide (p = x)) as [->|]; [rewrite lookup_insert_eq in Ep; injection Ep as <-; by destruct Hq|].
      rewrite lookup_insert_ne in Ep by done. by exists p, r'.
Qed.

(** The other fields of a peer do not matter. *)
Lemma knows_update i k x r r' :
  knows i k → i !! x = Some r → paddr r' = paddr r → time_closed_all r' = time_closed_all r → knows (<[x := r']> i) k.
Proof.
  intros Hk E Ea Et q t. rewrite (Hk q t). split; intros (p & r1 & Ep & E1 & E2).
  - destruct (decide (p = x)) as [->|]; [|exists p, r1; by rewrite lookup_insert_ne by done]. exists x, r'. rewrite lookup_insert_eq, Ea, Et.
    rewrite E in Ep. by injection Ep as <-.
  - destruct (decide (p = x)) as [->|]; [|exists p, r1; by rewrite lookup_insert_ne in Ep by done]. rewrite lookup_insert_eq in Ep. injection Ep as <-.
    exists x, r. by rewrite <- Ea, <- Et.
Qed.

Lemma peer_of_insert i who x y r : peer_of i who y → (∀ r', i !! x = Some r' → paddr r' = paddr r) → peer_of (<[x := r]> i) who y.
Proof.
  intros Hy Hs. destruct who as [q|]; [|done]. destruct Hy as (r1 & E1 & Eq). destruct (decide (y = x)) as [->|].
  - exists r. rewrite lookup_insert_eq. split; [done|]. by rewrite <- (Hs _ E1).
  - exists r1. by rewrite lookup_insert_ne by done.
Qed.

Lemma pointing_insert i wp m x r : pointing i wp m → (∀ r', i !! x = Some r' → paddr r' = paddr r) → pointing (<[x := r]> i) wp m.
Proof.
  intros [Hd Hp] Hs. split; [done|]. intros w o Ew. destruct (Hp w o Ew) as (Hw & y & Ey & Hy). split; [done|]. exists y.
  split; [done|by apply peer_of_insert].
Qed.

Lemma peer_null i who x s chains wl : tabled s chains wl → i = info s → peer_of i who x → (x =? NULL) = bool_decide (who = None).
Proof.
  intros Ht -> Hp. destruct who as [q|]; cbn in Hp; [|subst x; done]. destruct Hp as (r & Er & _). rewrite (proj2 (Z.eqb_neq _ _)); [done|].
  by apply (tb_peer _ _ _ Ht x r).
Qed.

(** ** The operations *)

Lemma meet_ok s a chains wl name mem now :
  related s a chains wl → (∀ x, mem = Some x → x ≠ NULL ∧ info s !! x = None) →
  ∃ x s' chains' wl', lws_get_or_create_peer name mem now s = Ok (x, s')
    ∧ related s' (Clients (conn a) (meet name (bool_decide (is_Some mem)) now (known a)).2 (stores a) (cull_at a)) chains' wl'
    ∧ peer_of (info s') (meet name (bool_decide (is_Some mem)) now (known a)).1 x.
Proof.
  intros [Rt Rk Rc Rp Rs Ro Ru] Hm. destruct name as [q|]; [|exists NULL, s, chains, wl; by split_and!]. cbn [meet].
  destruct (search_ok s chains wl q Rt) as (b & head & Eb & Eh & _ & _ & [[Hno Es]|(x & r & Ex & Eq & Es)]).
  - assert (known a !! q = None) as ->.
    { destruct (known a !! q) as [t|] eqn:E; [|done]. apply Rk in E as (p & r & Ep & Er & _). by destruct (Hno p r). }
    destruct mem as [x|]; cbn [is_Some]; [rewrite bool_decide_true by (by eexists)|rewrite bool_decide_false by (by intros [? ?])].
    + destruct (Hm x eq_refl) as [Hx Hnew].
      destruct (create_ok s chains wl q x now Rt Hno Hx Hnew) as (s' & chains' & wl' & b' & E & Ht & Hwl & Hi & Hw & Ha & Hn).
      assert (∀ w, conn a !! w ≠ Some (Some q)) as Hnone.
      { intros w Ew. destruct (proj2 Rp w _ Ew) as (_ & y & _ & r & Er & Erq). by destruct (Hno y r). }
      assert (∀ r', info s !! x = Some r' → paddr r' = q) as Hfr by (intros r' E'; congruence).
      exists x, s', chains', wl'. split; [done|]. cbn [fst snd]. split; [|exists (Peer q b' 0 0 now now); by rewrite Hi, lookup_insert_eq].
      split; cbn [conn known stores cull_at]; try congruence; try done; rewrite Hi.
      * apply (knows_insert _ _ x (Peer q b' 0 0 now now)); [done| |done]. intros p r' Ep Er. by destruct (Hno p r').
      * intros p r'. rewrite Hwl. destruct (decide (p = x)) as [->|Hp]; [rewrite lookup_insert_eq; intros [= <-]|rewrite lookup_insert_ne by done; intros Er].
        -- cbn [count_wsi http_count_ah paddr]. pose proof (conns_none _ _ Hnone) as Hc. pose proof (storing_conns (conn a) (stores a) q).
           unfold storing in *. split; [done|]. split; [lia|]. split; [done|by left].
        -- destruct (Rc p r' Er) as (? & ? & ?). split; [done|]. split; [done|]. naive_solver.
      * rewrite Hw. by apply pointing_insert.
    + unfold lws_get_or_create_peer. rewrite Eb. cbn [mbind res_bind]. rewrite Eh. cbn [mbind res_bind]. rewrite Es. cbn [mbind res_bind]. rewrite Z.eqb_refl.
      exists NULL, s, chains, wl. by split_and!.
  - assert (known a !! q = Some (time_closed_all r)) as -> by (apply Rk; by exists x, r).
    unfold lws_get_or_create_peer. rewrite Eb. cbn [mbind res_bind]. rewrite Eh. cbn [mbind res_bind]. rewrite Es. cbn [mbind res_bind].
    rewrite (proj2 (Z.eqb_neq _ _)) by (by apply (tb_peer _ _ _ Rt x r)). exists x, s, chains, wl. split; [done|]. split; [by split|]. by exists r.
Qed.

(** The new connection counts for its peer. *)
Lemma add_wsi_ok s a chains wl who x w :
  related s a chains wl → peer_of (info s) who x → w ≠ NULL → conn a !! w = None →
  ∃ s' chains' wl', lws_peer_add_wsi x w (set_wsi (<[w := NULL]> (wsi_peer s)) (has_ah s) s) = Ok s'
    ∧ related s' (Clients (<[w := who]> (conn a)) (known a) (stores a) (cull_at a)) chains' wl'.
Proof.
  intros [Rt Rk Rc Rp Rs Ro Ru] Hx Hw Hnew. assert (w ∉ stores a) as Hws by (intros Hs; apply Ro, elem_of_dom in Hs as [? ?]; congruence).
  assert (∀ q, storing (<[w := who]> (conn a)) (stores a) q = storing (conn a) (stores a) q) as Hst.
  { intros q. apply storing_frame. intros v Hv. apply lookup_insert_ne. by intros ->. }
  unfold lws_peer_add_wsi. rewrite (peer_null _ _ _ _ _ _ Rt eq_refl Hx). destruct who as [q|].
  - rewrite bool_decide_false by done. destruct Hx as (r & Er & Eq). destruct (tb_peer _ _ _ Rt x r Er) as [Hx0 _]. cbn [set_wsi info].
    rewrite (field_ok _ _ _ Hx0 Er). cbn [mbind res_bind set_info info wsi_peer has_ah]. set (r' := set_count_wsi _ r). set (s1 := set_wsi _ _ _).
    assert (tabled s1 chains wl) as Ht1 by exact (tabled_wsi _ _ _ _ _ (tabled_update _ chains wl x r r' (tabled_wsi _ _ _ _ _ Rt) Er eq_refl eq_refl)).
    destruct (remove_waiting s1 chains wl x Ht1) as (head & nx & wl' & E & Ht' & Hwl). exists (set_waiting head nx s1), chains, wl'. split; [done|].
    assert (∀ r2, info s !! x = Some r2 → paddr r2 = paddr r') as Hsame by (intros r2 E2; rewrite Er in E2; by injection E2 as <-).
    split; cbn [conn known stores cull_at]; try done; cbn [s1 set_waiting set_wsi set_info info wsi_peer].
    + by apply (knows_update _ _ x r).
    + intros p rp. rewrite Hst, conns_insert, Hwl by done. destruct (decide (p = x)) as [->|Hp].
      * rewrite lookup_insert_eq. intros [= <-]. destruct (Rc x r Er) as (E1 & E2 & _). cbn [r' set_count_wsi count_wsi paddr http_count_ah].
        rewrite Eq, decide_True by done. rewrite Eq in *. split; [lia|]. split; [done|]. unfold conns. split; [by intros [_ ?]|lia].
      * rewrite lookup_insert_ne by done. intros Ep. destruct (Rc p rp Ep) as (E1 & E2 & E3).
        assert (paddr rp ≠ q) by (intros Epq; apply Hp; eapply (tb_addr _ _ _ Rt); [done|done|congruence]).
        rewrite decide_False by congruence. split; [lia|]. split; [done|]. rewrite E3. cbn. naive_solver.
    + destruct Rp as [Hd Hp]. split; [rewrite insert_insert_eq, !dom_insert_L; congruence|]. intros v o. destruct (decide (v = w)) as [->|Hv].
      * rewrite lookup_insert_eq. intros [= <-]. split; [done|]. exists x. rewrite insert_insert_eq, lookup_insert_eq. split; [done|].
        exists r'. by rewrite lookup_insert_eq.
      * rewrite insert_insert_eq, !lookup_insert_ne by done. intros Ev. destruct (Hp v o Ev) as (Hv0 & y & Ey & Hy). split; [done|]. exists y.
        split; [done|by apply peer_of_insert].
    + set_solver.
  - rewrite bool_decide_true by done. eexists _, chains, wl. split; [done|]. split; cbn [conn known stores cull_at set_wsi info wsi_peer]; try done.
    + by apply tabled_wsi.
    + intros p rp Ep. rewrite Hst, conns_insert by done. apply (Rc p rp Ep).
    + destruct Rp as [Hd Hp]. split; [rewrite !dom_insert_L; congruence|]. intros v o. destruct (decide (v = w)) as [->|Hv].
      * rewrite !lookup_insert_eq. intros [= <-]. split; [done|]. by exists NULL.
      * rewrite !lookup_insert_ne by done. apply Hp.
    + set_solver.
Qed.

(** The peer of a connection counts one store more or less. *)
Definition recount (x d : Z) (s : peers) : peers :=
  match info s !! x with Some r => set_info (<[x := set_peer_ah (http_count_ah r + d) r]> (info s)) s | None => s end.

Lemma recount_ok s a chains wl w who x o d :
  related s a chains wl → conn a !! w = Some who → wsi_peer s !! w = Some x → o ⊆ dom (conn a) →
  (∀ q, storing (conn a) o q = (if decide (Some who = Some (Some q)) then d else 0) + storing (conn a) (stores a) q) →
  related (recount x d (set_wsi (wsi_peer s) o s)) (Clients (conn a) (known a) o (cull_at a)) chains wl.
Proof.
  intros [Rt Rk Rc Rp Rs Ro Ru] Ew Ex Hsub Hst. destruct (proj2 Rp w who Ew) as (_ & y & Ey & Hy). rewrite Ex in Ey. injection Ey as <-.
  unfold recount. cbn [set_wsi info]. destruct who as [q|].
  - destruct Hy as (r & Er & Eq). rewrite Er. set (r' := set_peer_ah _ r).
    assert (∀ r2, info s !! x = Some r2 → paddr r2 = paddr r') as Hsame by (intros r2 E2; rewrite Er in E2; by injection E2 as <-).
    split; cbn [conn known stores cull_at]; try done; cbn [set_wsi set_info info wsi_peer].
    + exact (tabled_update _ chains wl x r r' (tabled_wsi _ _ _ _ _ Rt) Er eq_refl eq_refl).
    + by apply (knows_update _ _ x r).
    + intros p rp. rewrite Hst. destruct (decide (p = x)) as [->|Hp].
      * rewrite lookup_insert_eq. intros [= <-]. destruct (Rc x r Er) as (E1 & E2 & E3). cbn [r' set_peer_ah count_wsi paddr http_count_ah].
        rewrite Eq, decide_True by done. rewrite Eq in *. split; [done|]. split; [lia|done].
      * rewrite lookup_insert_ne by done. intros Ep. destruct (Rc p rp Ep) as (E1 & E2 & E3).
        assert (paddr rp ≠ q) by (intros Epq; apply Hp; eapply (tb_addr _ _ _ Rt); [done|done|congruence]).
        rewrite decide_False by congruence. done.
    + by apply pointing_insert.
  - cbn in Hy. subst x. destruct (info s !! NULL) as [r|] eqn:E0; [by destruct (tb_peer _ _ _ Rt _ _ E0)|].
    split; cbn [conn known stores cull_at set_wsi info wsi_peer]; try done; [by apply tabled_wsi|]. intros p rp Ep. rewrite Hst. by apply (Rc p rp Ep).
Qed.

Lemma takes_ok s a chains wl w :
  related s a chains wl → w ∈ dom (conn a) → w ∉ stores a →
  ∃ s', wsi_takes_ah w s = Ok s' ∧ related s' (Clients (conn a) (known a) ({[w]} ∪ stores a) (cull_at a)) chains wl.
Proof.
  intros R [who Ew]%elem_of_dom Hns. pose proof R as [Rt Rk Rc Rp Rs Ro Ru]. destruct (proj2 Rp w who Ew) as (Hw & x & Ex & Hx).
  exists (recount x 1 (set_wsi (wsi_peer s) ({[w]} ∪ stores a) s)). split.
  - unfold wsi_takes_ah. rewrite (field_ok _ _ _ Hw Ex). cbn [mbind res_bind]. rewrite (peer_null _ _ _ _ _ _ Rt eq_refl Hx), Rs. unfold recount.
    cbn [set_wsi info]. destruct who as [q|].
    + destruct Hx as (r & Er & _). rewrite bool_decide_false, Er by done. by rewrite (field_ok _ _ _ (proj1 (tb_peer _ _ _ Rt x r Er)) Er).
    + rewrite bool_decide_true by done. cbn in Hx. subst x. destruct (info s !! NULL) as [r|] eqn:E0; [by destruct (tb_peer _ _ _ Rt _ _ E0)|done].
  - eapply recount_ok; [done|done|done| |].
    + assert (w ∈ dom (conn a)) by (apply elem_of_dom; by eexists). set_solver.
    + intros q. by rewrite storing_add, Ew by done.
Qed.

Lemma drops_ok s a chains wl w :
  related s a chains wl → w ∈ stores a →
  ∃ s', wsi_drops_ah w s = Ok s' ∧ related s' (Clients (conn a) (known a) (stores a ∖ {[w]}) (cull_at a)) chains wl.
Proof.
  intros R Hs. pose proof R as [Rt Rk Rc Rp Rs Ro Ru]. pose proof (Ro _ Hs) as [who Ew]%elem_of_dom. destruct (proj2 Rp w who Ew) as (Hw & x & Ex & Hx).
  exists (recount x (-1) (set_wsi (wsi_peer s) (stores a ∖ {[w]}) s)). split.
  - unfold wsi_drops_ah, lws_peer_track_ah_detach. rewrite (field_ok _ _ _ Hw Ex). cbn [mbind res_bind]. rewrite (peer_null _ _ _ _ _ _ Rt eq_refl Hx), Rs.
    unfold recount. cbn [set_wsi info]. destruct who as [q|].
    + destruct Hx as (r & Er & Eq). rewrite bool_decide_false, Er by done. rewrite (field_ok _ _ _ (proj1 (tb_peer _ _ _ Rt x r Er)) Er).
      cbn [mbind res_bind]. destruct (Rc x r Er) as (_ & E2 & _). pose proof (storing_remove (conn a) (stores a) w q Hs) as E3.
      rewrite decide_True, <- Eq in E3 by done. unfold storing in *. by rewrite (proj2 (Z.eqb_neq _ _)) by lia.
    + rewrite bool_decide_true by done. cbn in Hx. subst x. destruct (info s !! NULL) as [r|] eqn:E0; [by destruct (tb_peer _ _ _ Rt _ _ E0)|done].
  - eapply recount_ok; [done|done|done|set_solver|]. intros q. rewrite (storing_remove (conn a) (stores a) w q Hs), Ew. destruct (decide _); lia.
Qed.

(** A connection without a store is closed. *)
Lemma close_ok s a chains wl w now :
  related s a chains wl → w ∈ dom (conn a) → w ∉ stores a →
  ∃ x s1 chains' wl', wsi_peer s !! w = Some x ∧ lws_peer_track_wsi_close x now s = Ok s1
    ∧ related (set_wsi (delete w (wsi_peer s1)) (has_ah s1) s1) (spec_free w now a) chains' wl'.
Proof.
  intros [Rt Rk Rc Rp Rs Ro Ru] [who Ew]%elem_of_dom Hns. destruct (proj2 Rp w who Ew) as (Hw & x & Ex & Hx). exists x.
  assert (stores a ∖ {[w]} = stores a) as Est by set_solver. unfold spec_free. rewrite Ew, Est.
  assert (∀ q, storing (delete w (conn a)) (stores a) q = storing (conn a) (stores a) q) as Hst.
  { intros q. apply storing_frame. intros v Hv. apply lookup_delete_ne. by intros ->. }
  assert (∀ i, pointing i (wsi_peer s) (conn a) → pointing i (delete w (wsi_peer s)) (delete w (conn a))) as Hpt.
  { intros i [Hd Hp]. split; [by rewrite !dom_delete_L, Hd|]. intros v o [Hv Ev]%lookup_delete_Some. rewrite lookup_delete_ne by done. by apply Hp. }
  assert (stores a ⊆ dom (delete w (conn a))) as Hsub by (rewrite dom_delete_L; set_solver).
  unfold lws_peer_track_wsi_close. rewrite (peer_null _ _ _ _ _ _ Rt eq_refl Hx). destruct who as [q|].
  - rewrite bool_decide_false by done. destruct Hx as (r & Er & Eq). pose proof (proj1 (tb_peer _ _ _ Rt x r Er)) as Hx0.
    rewrite (field_ok _ _ _ Hx0 Er). cbn [mbind res_bind]. destruct (Rc x r Er) as (E1 & E2 & E3). rewrite Eq in *.
    pose proof (conns_delete _ _ _ q Ew) as Ec. rewrite decide_True in Ec by done.
    assert (0 <= conns (delete w (conn a)) q) by (unfold conns; lia). rewrite (proj2 (Z.eqb_neq _ _)) by lia.
    assert (count_wsi (set_count_wsi (count_wsi r - 1) r) = conns (delete w (conn a)) q) as Ecw by (cbn; lia). rewrite Ecw.
    pose proof (storing_conns (delete w (conn a)) (stores a) q) as Hle. rewrite Hst in Hle.
    assert ((conns (delete w (conn a)) q =? 0) && (http_count_ah (set_count_wsi (count_wsi r - 1) r) =? 0) = (conns (delete w (conn a)) q =? 0)) as ->.
    { cbn. destruct (Z.eqb_spec (conns (delete w (conn a)) q) 0) as [E0|]; [|done]. apply Z.eqb_eq. unfold storing in *. lia. }
    assert (∀ r' wl', paddr r' = q → count_wsi r' = count_wsi r - 1 → http_count_ah r' = http_count_ah r →
              (∀ y, y ≠ x → (y ∈ wl' ↔ y ∈ wl)) → (x ∈ wl' ↔ conns (delete w (conn a)) q = 0) →
              counting (<[x := r']> (info s)) (delete w (conn a)) (stores a) wl') as Hcount.
    { intros r' wl' Ea' Ec' Eh' Hy Hxw p rp. rewrite Hst. destruct (decide (p = x)) as [->|Hp].
      - rewrite lookup_insert_eq. intros [= <-]. rewrite Ea'. split; [lia|]. split; [lia|done].
      - rewrite lookup_insert_ne by done. intros Ep. destruct (Rc p rp Ep) as (F1 & F2 & F3). pose proof (conns_delete _ _ _ (paddr rp) Ew) as Fc.
        rewrite decide_False in Fc by (intros [= ->]; apply Hp; by eapply (tb_addr _ _ _ Rt)). rewrite Hy by done. split; [lia|]. split; [done|]. rewrite F3. lia. }
    assert (∀ r', paddr r' = q → ∀ r2, info s !! x = Some r2 → paddr r2 = paddr r') as Hsame by (intros r' Ea' r2 F2; rewrite Er in F2; injection F2 as <-; congruence).
    destruct (Z.eqb_spec (conns (delete w (conn a)) q) 0) as [E0|E0].
    + set (r' := set_closed _ _). set (s1 := set_info _ s).
      assert (tabled s1 chains wl) as Ht1 by (by apply (tabled_update s chains wl x r r' Rt Er)).
      destruct (add_waiting s1 chains wl x Ht1) as (head & nx & wl' & E & Ht' & Hwl); [cbn; rewrite lookup_insert_eq; by eexists|].
      exists (set_waiting head nx s1), chains, wl'. split; [done|]. split; [done|].
      split; cbn [conn known stores cull_at]; try done; cbn [s1 set_waiting set_wsi set_info info wsi_peer].
      * by apply tabled_wsi.
      * rewrite <- Eq. apply (knows_insert _ _ x r'); [done| |apply Hsame; done]. intros p rp Ep Epa. eapply (tb_addr _ _ _ Rt); [done|done|]. exact Epa.
      * apply Hcount; try done; [intros y Hy; rewrite Hwl; naive_solver|]. rewrite Hwl. split; [done|by left].
      * apply Hpt. apply pointing_insert; [done|by apply Hsame].
    + eexists _, chains, wl. split; [done|]. split; [done|]. split; cbn [conn known stores cull_at]; try done; cbn [set_wsi set_info info wsi_peer].
      * apply tabled_wsi. by apply (tabled_update s chains wl x r).
      * by apply (knows_update _ _ x r).
      * apply Hcount; try done. rewrite E3. lia.
      * apply Hpt. apply pointing_insert; [done|by apply Hsame].
  - rewrite bool_decide_true by done. exists s, chains, wl. split; [done|]. split; [done|]. split; cbn [conn known stores cull_at set_wsi info wsi_peer]; try done.
    + by apply tabled_wsi.
    + intros p rp Ep. rewrite Hst. pose proof (conns_delete _ _ _ (paddr rp) Ew) as Fc. rewrite decide_False in Fc by done.
      destruct (Rc p rp Ep) as (F1 & F2 & F3). split; [lia|]. split; [done|]. rewrite F3. lia.
    + by apply Hpt.
Qed.

Lemma free_ok s a chains wl w now :
  related s a chains wl → w ∈ dom (conn a) → ∃ s' chains' wl', lws_free_wsi w now s = Ok s' ∧ related s' (spec_free w now a) chains' wl'.
Proof.
  intros R Hw. unfold lws_free_wsi. rewrite (rl_stores _ _ _ _ R). pose proof Hw as [who Ew]%elem_of_dom.
  assert (w ≠ NULL) as Hw0 by apply (proj2 (rl_pointing _ _ _ _ R) w who Ew). case_bool_decide as Hs.
  - destruct (drops_ok s a chains wl w R Hs) as (s1 & -> & R1). cbn [mbind res_bind].
    destruct (close_ok s1 _ chains wl w now R1) as (x & s2 & chains' & wl' & Ex & Ec & R2); [done|set_solver|].
    rewrite (field_ok _ _ _ Hw0 Ex). cbn [mbind res_bind]. rewrite Ec. cbn [mbind res_bind]. eexists _, chains', wl'. split; [done|].
    unfold spec_free in *. cbn [conn known stores cull_at] in R2. replace (stores a ∖ {[w]} ∖ {[w]}) with (stores a ∖ {[w]}) in R2 by set_solver. done.
  - cbn [mbind res_bind]. destruct (close_ok s a chains wl w now R Hw Hs) as (x & s2 & chains' & wl' & Ex & Ec & R2).
    rewrite (field_ok _ _ _ Hw0 Ex). cbn [mbind res_bind]. rewrite Ec. cbn [mbind res_bind]. by eexists _, chains', wl'.
Qed.

(** A cull forgets the addresses that have been idle. *)
Lemma cull_ok s a chains wl t :
  related s a chains wl → ∃ s' chains' wl', lws_peer_cull_peer_wait_list t s = Ok s' ∧ related s' (spec_cull t a) chains' wl'.
Proof.
  intros [Rt Rk Rc Rp Rs Ro Ru]. unfold lws_peer_cull_peer_wait_list, spec_cull. rewrite Ru. destruct (_ && _); [by exists s, chains, wl|].
  assert (tabled (set_next_cull (t + 5) s) chains wl) as Ht by by destruct Rt.
  destruct (tb_wait _ _ _ Rt) as [Hc Hn]. pose proof (chain_size _ _ _ Hc Hn) as Hsz.
  destruct (cull_loop_ok t wl [] _ chains (size (wait_next s)) Ht Hsz) as (s' & chains' & wl' & E & Ht' & Hi & Hwl & Hw & Ha & Hu).
  cbn [last set_next_cull info wsi_peer has_ah next_cull] in *. exists s', chains', wl'. split; [exact E|].
  assert (∀ p r, info s !! p = Some r → (p ∈ wl ↔ conns (conn a) (paddr r) = 0)) as Hidle by apply Rc.
  split; cbn [conn known stores cull_at]; try congruence; try done.
  - intros q since. rewrite map_lookup_filter_Some, (Rk q since). cbn [fst snd]. split.
    + intros [(p & r & Ep & <- & <-) Hno]. exists p, r. split; [|done]. apply Hi. split; [done|]. unfold expired. intros [Hp ?]. apply Hno. by rewrite <- (Hidle p r Ep).
    + intros (p & r & [Ep Hno]%Hi & <- & <-). split; [by exists p, r|]. intros [H0 ?]. apply Hno. by rewrite (Hidle p r Ep).
  - intros p r Er. pose proof Er as [Ep _]%Hi. destruct (Rc p r Ep) as (E1 & E2 & E3). split; [done|]. split; [done|]. rewrite Hwl, <- E3. cbn [app].
    split; [tauto|]. intros ?. split; [done|by eexists].
  - rewrite Hw. destruct Rp as [Hd Hp]. split; [done|]. intros w o Ew. destruct (Hp w o Ew) as (Hw0 & x & Ex & Hx). split; [done|]. exists x.
    split; [done|]. destruct o as [q|]; [|done]. destruct Hx as (r & Er & Eq). exists r. split; [|done]. apply Hi. split; [done|]. intros [Hin _].
    apply (Hidle x r Er) in Hin. pose proof (conns_pos _ _ _ Ew). rewrite Eq in Hin. lia.
Qed.

Lemma adopt_ok limit s a chains wl name mem new_wsi now :
  related s a chains wl → (∀ x, mem = Some x → x ≠ NULL ∧ info s !! x = None) → (∀ w, new_wsi = Some w → w ≠ NULL ∧ conn a !! w = None) →
  ∃ s' chains' wl', adopt_socket limit name mem new_wsi now s = Ok ((spec_adopt limit name (bool_decide (is_Some mem)) new_wsi now a).1, s')
    ∧ related s' (spec_adopt limit name (bool_decide (is_Some mem)) new_wsi now a).2 chains' wl'.
Proof.
  intros R Hm Hw. destruct (meet_ok s a chains wl name mem now R Hm) as (x & s1 & chains1 & wl1 & E & R1 & Hx). unfold adopt_socket, spec_adopt. rewrite E.
  cbn [mbind res_bind]. destruct (meet _ _ _ _) as [who k]. cbn [fst snd] in *. rewrite (peer_null _ _ _ _ _ _ (rl_tabled _ _ _ _ R1) eq_refl Hx).
  set (full := match who with None => false | Some q => _ end).
  assert ((if bool_decide (who = None) || (limit =? 0) then Ok false else p ← field (info s1) x; Ok (limit <=? count_wsi p)) = Ok full) as ->.
  { unfold full. destruct who as [q|]; [rewrite bool_decide_false by done|by rewrite bool_decide_true by done]. cbn [orb]. destruct (limit =? 0); [done|].
    destruct Hx as (r & Er & <-). rewrite (field_ok _ _ _ (proj1 (tb_peer _ _ _ (rl_tabled _ _ _ _ R1) x r Er)) Er). cbn [mbind res_bind].
    by rewrite (proj1 (rl_counting _ _ _ _ R1 x r Er)). }
  cbn [mbind res_bind]. destruct full; [by exists s1, chains1, wl1|]. destruct new_wsi as [w|]; [|by exists s1, chains1, wl1].
  destruct (Hw w eq_refl) as [Hw0 Hnew]. destruct (add_wsi_ok s1 _ chains1 wl1 who x w R1 Hx Hw0 Hnew) as (s2 & chains2 & wl2 & -> & R2).
  by exists s2, chains2, wl2.
Qed.

(** ** The end of the context *)

(** lws_context_destroy2 frees the peers of one chain, *)
Fixpoint destroy_chain (fuel : nat) (nu : Z) (s : peers) : res peers :=
  df ← elem (pl_hash_table s) nu;
  if df =? NULL then Ok s
  else
    match fuel with
    | O => Fault Unfinished
    | S fuel =>
        n ← field (hash_next s) df;
        t ← store (pl_hash_table s) nu n;
        destroy_chain fuel nu
          (set_info (delete df (info s)) (set_waiting (peer_wait_list s) (delete df (wait_next s)) (set_table t (delete df (hash_next s)) s)))
    end.

(** and then of the next ones, and the table. *)
Fixpoint destroy_chains (todo : nat) (nu : Z) (s : peers) : res peers :=
  match todo with
  | O => Ok (set_table [] (hash_next s) s)
  | S todo => s ← destroy_chain (size (info s)) nu s; destroy_chains todo (nu + 1) s
  end.

Definition destroy_peers (s : peers) : res peers := destroy_chains (length (pl_hash_table s)) 0 s.

Lemma destroy_chain_ok nu l : ∀ s head fuel,
  elem (pl_hash_table s) nu = Ok head → chain (hash_next s) head l → NoDup l → (length l ≤ fuel)%nat →
  ∃ s', destroy_chain fuel nu s = Ok s' ∧ length (pl_hash_table s') = length (pl_hash_table s)
    ∧ (∀ b, b ≠ nu → elem (pl_hash_table s') b = elem (pl_hash_table s) b)
    ∧ (∀ p r, info s' !! p = Some r ↔ info s !! p = Some r ∧ p ∉ l)
    ∧ (∀ p, p ∉ l → hash_next s' !! p = hash_next s !! p) ∧ (dom (hash_next s) = dom (info s) → dom (hash_next s') = dom (info s')).
Proof.
  induction l as [|x l IH]; intros s head fuel Eh Hc Hn Hf.
  { cbn in Hc. subst head. exists s. split; [by destruct fuel; cbn; rewrite Eh|]. split_and!; try done. intros p r. split; [|tauto]. intros ?. split; [done|].
    by intros ?%elem_of_nil. }
  destruct fuel as [|fuel]; [cbn in Hf; lia|]. destruct Hc as (-> & Hx & n & En & Hc). apply NoDup_cons in Hn as [Hxl Hn].
  cbn [destroy_chain]. rewrite Eh. cbn [mbind res_bind]. rewrite (proj2 (Z.eqb_neq _ NULL)), (field_ok _ _ _ Hx En) by done. cbn [mbind res_bind].
  assert (0 <= nu ∧ nu < Z.of_nat (length (pl_hash_table s))) as [Hnu Hlen].
  { unfold elem in Eh. destruct (Z.ltb_spec nu 0); [done|]. destruct (_ !! Z.to_nat nu) eqn:El; [|done]. apply lookup_lt_Some in El. lia. }
  assert (store (pl_hash_table s) nu n = Ok (<[Z.to_nat nu := n]> (pl_hash_table s))) as -> by (rewrite <- (Z2Nat.id nu) at 1 by lia; apply store_ok; lia).
  cbn [mbind res_bind]. set (s1 := set_info _ _).
  destruct (IH s1 n fuel) as (s' & E & Hl & He & Hi & Hh & Hd).
  - cbn. unfold elem. rewrite (proj2 (Z.ltb_ge _ _)) by lia. by rewrite list_lookup_insert_eq by lia.
  - cbn. by apply chain_delete.
  - done.
  - cbn in Hf. lia.
  - exists s'. split; [done|]. split; [rewrite Hl; cbn; apply length_insert|]. split; [|split; [|split]].
    + intros b Hb. rewrite He by done. cbn. unfold elem. destruct (Z.ltb_spec b 0); [done|]. by rewrite list_lookup_insert_ne by lia.
    + intros p r. rewrite Hi. cbn. rewrite lookup_delete_Some, not_elem_of_cons. naive_solver.
    + intros p [Hp Hpl]%not_elem_of_cons. rewrite Hh by done. cbn. by rewrite lookup_delete_ne.
    + intros Ed. apply Hd. cbn. by rewrite !dom_delete_L, Ed.
Qed.

Lemma destroy_chains_ok chains todo : ∀ nu s,
  0 <= nu → Z.of_nat todo + nu = Z.of_nat (length (pl_hash_table s)) →
  (∀ b head, nu <= b → elem (pl_hash_table s) b = Ok head → chain (hash_next s) head (chains b) ∧ NoDup (chains b)) →
  (∀ b c p, p ∈ chains b → p ∈ chains c → b = c) → dom (hash_next s) = dom (info s) →
  (∀ p r, info s !! p = Some r → ∃ b, nu <= b < Z.of_nat (length (pl_hash_table s)) ∧ p ∈ chains b) →
  ∃ s', destroy_chains todo nu s = Ok s' ∧ info s' = ∅.
Proof.
  induction todo as [|todo IH]; intros nu s Hnu Hlen Hc Hdis Hd Hin; cbn [destroy_chains].
  - eexists. split; [done|]. cbn. apply map_empty. intros p. destruct (info s !! p) as [r|] eqn:E; [|done]. destruct (Hin p r E) as (b & Hb & _). lia.
  - destruct (lookup_lt_is_Some_2 (pl_hash_table s) (Z.to_nat nu)) as [head Eh]; [lia|].
    assert (elem (pl_hash_table s) nu = Ok head) as Eh' by (unfold elem; rewrite (proj2 (Z.ltb_ge _ _)) by lia; by rewrite Eh).
    destruct (Hc nu head (Z.le_refl _) Eh') as [Hcn Hnd]. pose proof (chain_size _ _ _ Hcn Hnd) as Hsz. rewrite <- size_dom, Hd, size_dom in Hsz.
    destruct (destroy_chain_ok nu (chains nu) s head (size (info s)) Eh' Hcn Hnd Hsz) as (s1 & -> & Hl & He & Hi & Hh & Hd1). cbn [mbind res_bind].
    apply IH; [lia|rewrite Hl; lia| |done|by apply Hd1|].
    + intros b h Hb Ehb. rewrite He in Ehb by lia. destruct (Hc b h) as [Hcb Hnb]; [lia|done|]. split; [|done]. apply (chain_frame (hash_next s)); [|done].
      intros y Hy. apply Hh. intros Hy'. pose proof (Hdis _ _ _ Hy Hy'). lia.
    + intros p r [Ep Hp]%Hi. destruct (Hin p r Ep) as (b & Hb & Hpb). exists b. rewrite Hl. split; [|done]. destruct (decide (b = nu)) as [->|]; [done|lia].
Qed.

Lemma destroy_peers_ok s chains wl : tabled s chains wl → ∃ s', destroy_peers s = Ok s' ∧ info s' = ∅.
Proof.
  intros [T1 T2 T3 T4 T5 T6 T7 T8 T9 T10]. apply (destroy_chains_ok chains); [done|lia|by eauto| |done|].
  - intros b c p (r1 & E1 & <-)%T3 (r2 & E2 & <-)%T3. congruence.
  - intros p r Er. exists (phash r). split; [|apply T3; by exists r]. destruct (T8 p r Er) as [_ Eh].
    destruct (peer_hash_elem (length (pl_hash_table s)) (pl_hash_table s) (paddr r)) as (b & head & Eb & _ & Hb); [lia|done|]. rewrite Eh in Eb. by injection Eb as <-.
Qed.

(** ** Histories *)

(** What happens to the peers: a socket is accepted, a connection is freed,
    gets or gives back a header store, the waiting list is culled. *)
Inductive op :=
  | OAdopt (name : option (list Z)) (mem new_wsi : option Z) (now : Z)
  | OFree (w now : Z)
  | OTake (w : Z)
  | ODrop (w : Z)
  | OCull (t : Z).

Definition step (ip_limit_wsi : Z) (o : op) (s : peers) : res (option adoption * peers) :=
  match o with
  | OAdopt name mem w now => '(r, s) ← adopt_socket ip_limit_wsi name mem w now s; Ok (Some r, s)
  | OFree w now => s ← lws_free_wsi w now s; Ok (None, s)
  | OTake w => s ← wsi_takes_ah w s; Ok (None, s)
  | ODrop w => s ← wsi_drops_ah w s; Ok (None, s)
  | OCull t => s ← lws_peer_cull_peer_wait_list t s; Ok (None, s)
  end.

Definition spec_step (ip_limit_wsi : Z) (o : op) (a : clients) : option adoption * clients :=
  match o with
  | OAdopt name mem w now => prod_map Some id (spec_adopt ip_limit_wsi name (bool_decide (is_Some mem)) w now a)
  | OFree w now => (None, spec_free w now a)
  | OTake w => (None, Clients (conn a) (known a) ({[w]} ∪ stores a) (cull_at a))
  | ODrop w => (None, Clients (conn a) (known a) (stores a ∖ {[w]}) (cull_at a))
  | OCull t => (None, spec_cull t a)
  end.

(** Memory that is given out is not in use; a connection has one store at
    most. *)
Definition op_ok (o : op) (s : peers) (a : clients) : Prop :=
  match o with
  | OAdopt _ mem w _ =>
      default True ((λ x, x ≠ NULL ∧ info s !! x = None) <$> mem) ∧ default True ((λ x, x ≠ NULL ∧ conn a !! x = None) <$> w)
  | OFree w _ => w ∈ dom (conn a)
  | OTake w => w ∈ dom (conn a) ∧ w ∉ stores a
  | ODrop w => w ∈ stores a
  | OCull _ => True
  end.

Fixpoint run (ip_limit_wsi : Z) (ops : list op) (s : peers) : res (list (option adoption) * peers) :=
  match ops with
  | [] => Ok ([], s)
  | o :: ops => '(r, s) ← step ip_limit_wsi o s; '(rs, s) ← run ip_limit_wsi ops s; Ok (r :: rs, s)
  end.

Fixpoint spec_run (ip_limit_wsi : Z) (ops : list op) (a : clients) : list (option adoption) * clients :=
  match ops with
  | [] => ([], a)
  | o :: ops =>
      let '(r, a) := spec_step ip_limit_wsi o a in
      let '(rs, a) := spec_run ip_limit_wsi ops a in (r :: rs, a)
  end.

Fixpoint ops_ok (ip_limit_wsi : Z) (ops : list op) (s : peers) (a : clients) : Prop :=
  match ops with
  | [] => True
  | o :: ops =>
      op_ok o s a ∧
      match step ip_limit_wsi o s with
      | Ok (_, s) => ops_ok ip_limit_wsi ops s (spec_step ip_limit_wsi o a).2
      | Fault _ => True
      end
  end.

(** The table of a new context. *)
Definition no_peers (pl_hash_elements : nat) : peers := Peers ∅ ∅ ∅ (replicate pl_hash_elements NULL) NULL 0 0 ∅ ∅.
Definition no_clients : clients := Clients ∅ ∅ ∅ 0.

Lemma peers_step_ok limit o s a chains wl :
  related s a chains wl → op_ok o s a →
  ∃ s' chains' wl', step limit o s = Ok ((spec_step limit o a).1, s') ∧ related s' (spec_step limit o a).2 chains' wl'.
Proof.
  intros R Hok. destruct o as [name mem w now|w now|w|w|t]; cbn [step spec_step op_ok fst snd] in *.
  - destruct Hok as [Hm Hw]. destruct (adopt_ok limit s a chains wl name mem w now R) as (s' & chains' & wl' & E & R').
    + by intros x ->.
    + by intros x ->.
    + rewrite E. cbn [mbind res_bind]. destruct (spec_adopt _ _ _ _ _ _) as [r a']. by exists s', chains', wl'.
  - destruct (free_ok s a chains wl w now R Hok) as (s' & chains' & wl' & -> & R'). by exists s', chains', wl'.
  - destruct Hok as [Hw Hs]. destruct (takes_ok s a chains wl w R Hw Hs) as (s' & -> & R'). by exists s', chains, wl.
  - destruct (drops_ok s a chains wl w R Hok) as (s' & -> & R'). by exists s', chains, wl.
  - destruct (cull_ok s a chains wl t R) as (s' & chains' & wl' & -> & R'). by exists s', chains', wl'.
Qed.

Lemma peers_run_ok limit ops : ∀ s a chains wl,
  related s a chains wl → ops_ok limit ops s a →
  ∃ s' chains' wl', run limit ops s = Ok ((spec_run limit ops a).1, s') ∧ related s' (spec_run limit ops a).2 chains' wl'.
Proof.
  induction ops as [|o ops IH]; intros s a chains wl R Hok; [by exists s, chains, wl|]. destruct Hok as [Ho Hok].
  destruct (peers_step_ok limit o s a chains wl R Ho) as (s1 & chains1 & wl1 & E1 & R1). cbn [run spec_run]. rewrite E1 in *. cbn [mbind res_bind].
  destruct (spec_step limit o a) as [r a1]. cbn [fst snd] in *. destruct (IH s1 a1 chains1 wl1 R1 Hok) as (s' & chains' & wl' & -> & R').
  destruct (spec_run limit ops a1) as [rs a2]. by exists s', chains', wl'.
Qed.

Lemma no_peers_related n : (0 < n)%nat → related (no_peers n) no_clients (λ _, []) [].
Proof.
  intros Hn. split; try done.
  - split; cbn; try done.
    + rewrite length_replicate. lia.
    + intros b head. unfold elem. destruct (b <? 0); [done|]. destruct (replicate n NULL !! Z.to_nat b) as [v|] eqn:E; [|done].
      apply lookup_replicate in E as [-> _]. intros [= <-]. split; [done|by apply NoDup_nil].
    + intros b p. split; [by intros ?%elem_of_nil|]. by intros (? & ? & _).
    + split; [done|by apply NoDup_nil].
    + by intros p ?%elem_of_nil.
  - intros q t. split; [done|]. by intros (? & ? & ? & _).
Qed.

(** The limit in the specification. *)
Lemma spec_step_limit limit o a :
  (∀ w m t now n, o = OAdopt n m (Some w) now → conn a !! w = t → t = None) →
  0 < limit → (∀ q, conns (conn a) q <= limit) → ∀ q, conns (conn (spec_step limit o a).2) q <= limit.
Proof.
  intros Hfresh Hl Ha q. destruct o as [name mem w now|w now|w|w|t]; cbn [spec_step snd conn]; [| |done|done|].
  - unfold spec_adopt. destruct (meet _ _ _ _) as [who k]. destruct who as [q'|]; [rewrite (proj2 (Z.eqb_neq limit 0)) by lia; cbn [negb andb];
      destruct (Z.leb_spec limit (conns (conn a) q'))|]; [apply Ha| |]; (destruct w as [w|]; [|apply Ha]); cbn [prod_map id snd conn];
      rewrite conns_insert by (by eapply Hfresh); specialize (Ha q).
    + destruct (decide _) as [E|]; [injection E as ->|]; lia.
    + done.
  - cbn [spec_free conn]. destruct (conn a !! w) as [o|] eqn:E; [|by rewrite delete_id]. specialize (Ha q). rewrite (conns_delete _ _ _ q E) in Ha. destruct (decide _); lia.
  - unfold spec_cull. by destruct (_ && _).
Qed.

Lemma spec_run_limit limit ops : ∀ s a chains wl,
  0 < limit → related s a chains wl → ops_ok limit ops s a → (∀ q, conns (conn a) q <= limit) → ∀ q, conns (conn (spec_run limit ops a).2) q <= limit.
Proof.
  induction ops as [|o ops IH]; intros s a chains wl Hl R Hok Ha; [done|]. destruct Hok as [Ho Hok].
  destruct (peers_step_ok limit o s a chains wl R Ho) as (s1 & chains1 & wl1 & E1 & R1). rewrite E1 in Hok. cbn [spec_run].
  pose proof (spec_step_limit limit o a) as Hs. destruct (spec_step limit o a) as [r a1]. cbn [fst snd] in *. destruct (spec_run limit ops a1) as [rs a2] eqn:E2.
  cbn [snd]. replace a2 with (spec_run limit ops a1).2 by by rewrite E2. apply (IH s1 a1 chains1 wl1 Hl R1 Hok). apply Hs; [|done|done].
  intros w m t now n -> <-. by destruct Ho as [_ [_ ?]].
Qed.

(** [C14] The chained hash table of peers and its waiting list behave as a map
    of addresses whatever happens: as long as memory given out is not in use,
    no assertion, link or counter goes wrong and every search ends;
    connections are refused exactly when their address has ip_limit_wsi
    connections, so that no address ever has more; a peer's record is freed
    by a cull exactly when it has had no connection for more than ten seconds,
    so that no connection is left with a freed peer; and at the end of the
    context each peer that remains is freed once. *)
Theorem peers_refine_map limit n ops :
  (0 < n)%nat → 0 <= limit → ops_ok limit ops (no_peers n) no_clients →
  ∃ s s' chains wl,
    run limit ops (no_peers n) = Ok ((spec_run limit ops no_clients).1, s)
    ∧ related s (spec_run limit ops no_clients).2 chains wl
    ∧ (limit ≠ 0 → ∀ q, conns (conn (spec_run limit ops no_clients).2) q <= limit)
    ∧ destroy_peers s = Ok s' ∧ info s' = ∅.
Proof.
  intros Hn Hl Hok. pose proof (no_peers_related n Hn) as R0. destruct (peers_run_ok limit ops _ _ _ _ R0 Hok) as (s & chains & wl & E & R).
  destruct (destroy_peers_ok s chains wl (rl_tabled _ _ _ _ R)) as (s' & Ed & Hi). exists s, s', chains, wl. split; [done|]. split; [done|].
  split; [|done]. intros Hz. apply (spec_run_limit limit ops _ _ _ _ ltac:(lia) R0 Hok). intros q. cbn. unfold conns. rewrite map_filter_empty, map_size_empty. lia.
Qed.

(** Two connections of one address are allowed and a third is not; the record
    of the address outlives them by more than ten seconds. *)
Definition day_ops : list op :=
  [OAdopt (Some [10; 0; 0; 1]) (Some 100) (Some 1) 1000; OTake 1; OAdopt (Some [10; 0; 0; 1]) None (Some 2) 1001;
   OAdopt (Some [10; 0; 0; 1]) None (Some 3) 1001; OAdopt (Some [10; 0; 0; 2]) (Some 200) (Some 3) 1002; OFree 1 1003; OFree 2 1004;
   OCull 1010; OAdopt (Some [10; 0; 0; 1]) None None 1011; OCull 1016].

Lemma peers_refine_map_witness :
  ops_ok 2 day_ops (no_peers 64) no_clients
  ∧ (spec_run 2 day_ops no_clients).1
      = [Some Adopted; None; Some Adopted; Some Refused; Some Adopted; None; None; None; Some NoWsi; None]
  ∧ known (spec_run 2 day_ops no_clients).2 = {[ [10; 0; 0; 2] := 1002 ]}
  ∧ ∃ s s' chains wl,
      run 2 day_ops (no_peers 64) = Ok ((spec_run 2 day_ops no_clients).1, s)
      ∧ related s (spec_run 2 day_ops no_clients).2 chains wl
      ∧ (2 ≠ 0 → ∀ q, conns (conn (spec_run 2 day_ops no_clients).2) q <= 2)
      ∧ destroy_peers s = Ok s' ∧ info s' = ∅.
Proof.
  assert (ops_ok 2 day_ops (no_peers 64) no_clients) as Hok.
  { vm_compute. repeat (split; try done); try (by intros ?); try (eexists; reflexivity). all: try discriminate. }
  split; [exact Hok|]. split; [vm_compute; reflexivity|]. split; [vm_compute; reflexivity|].
  apply (peers_refine_map 2 64 day_ops); [lia|lia|exact Hok].
Defined.
