(* ===== verification/Lejp.v ===== *)
(** * The JSON stream parser

    misc/lejp.c, which reads the configuration of the server
    (roles/http/server/lejp-conf.c): a state machine that is given the text in
    pieces and calls back for every name, value, array and object, with the
    path to it.

    The positions of struct lejp_ctx (sp, ipos, ppos, npos) are naturals: the
    arrays they point into end before the 8 bit fields overflow, and an access
    past an array is a fault.  The user's callback is a parameter, which may
    have a state of its own and leaves the context as it is. *)

From stdpp Require Import base numbers list strings.
From Stdlib Require Import ZArith Lia.
From S2P Require Import Prelude Utf8.

Inductive lejp_states :=
  | LEJP_IDLE | LEJP_MEMBERS | LEJP_M_P | LEJP_MP_STRING | LEJP_MP_STRING_ESC
  | LEJP_MP_STRING_ESC_U1 | LEJP_MP_STRING_ESC_U2 | LEJP_MP_STRING_ESC_U3 | LEJP_MP_STRING_ESC_U4
  | LEJP_MP_DELIM | LEJP_MP_VALUE | LEJP_MP_VALUE_NUM_INT | LEJP_MP_VALUE_NUM_EXP | LEJP_MP_VALUE_TOK
  | LEJP_MP_COMMA_OR_END | LEJP_MP_ARRAY_END.

#[global] Instance lejp_states_eq_dec : EqDecision lejp_states.
Proof. solve_decision. Defined.

(** LEJP_FLAG_WS_KEEP: whitespace matters. *)
Definition ws_keep (s : lejp_states) : bool :=
  match s with
  | LEJP_MP_STRING | LEJP_MP_STRING_ESC | LEJP_MP_STRING_ESC_U1 | LEJP_MP_STRING_ESC_U2 | LEJP_MP_STRING_ESC_U3
  | LEJP_MP_STRING_ESC_U4 | LEJP_MP_VALUE_NUM_INT | LEJP_MP_VALUE_NUM_EXP | LEJP_MP_VALUE_TOK => true
  | _ => false
  end.

Inductive lejp_callbacks :=
  | LEJPCB_CONSTRUCTED | LEJPCB_DESTRUCTED | LEJPCB_START | LEJPCB_COMPLETE | LEJPCB_FAILED | LEJPCB_PAIR_NAME
  | LEJPCB_VAL_TRUE | LEJPCB_VAL_FALSE | LEJPCB_VAL_NULL | LEJPCB_VAL_NUM_INT | LEJPCB_VAL_NUM_FLOAT
  | LEJPCB_VAL_STR_START | LEJPCB_VAL_STR_CHUNK | LEJPCB_VAL_STR_END
  | LEJPCB_ARRAY_START | LEJPCB_ARRAY_END | LEJPCB_OBJECT_START | LEJPCB_OBJECT_END.

#[global] Instance lejp_callbacks_eq_dec : EqDecision lejp_callbacks.
Proof. solve_decision. Defined.

(** enum lejp_reasons *)
Definition LEJP_CONTINUE : Z := -1.
Definition LEJP_REJECT_IDLE_NO_BRACE : Z := -2.
Definition LEJP_REJECT_MEMBERS_NO_CLOSE : Z := -3.
Definition LEJP_REJECT_MP_NO_OPEN_QUOTE : Z := -4.
Definition LEJP_REJECT_MP_STRING_UNDERRUN : Z := -5.
Definition LEJP_REJECT_MP_ILLEGAL_CTRL : Z := -6.
Definition LEJP_REJECT_MP_STRING_ESC_ILLEGAL_ESC : Z := -7.
Definition LEJP_REJECT_ILLEGAL_HEX : Z := -8.
Definition LEJP_REJECT_MP_DELIM_MISSING_COLON : Z := -9.
Definition LEJP_REJECT_MP_DELIM_BAD_VALUE_START : Z := -10.
Definition LEJP_REJECT_MP_VAL_NUM_INT_NO_FRAC : Z := -11.
Definition LEJP_REJECT_MP_VAL_NUM_FORMAT : Z := -12.
Definition LEJP_REJECT_MP_VAL_NUM_EXP_BAD_EXP : Z := -13.
Definition LEJP_REJECT_MP_VAL_TOK_UNKNOWN : Z := -14.
Definition LEJP_REJECT_MP_C_OR_E_UNDERF : Z := -15.
Definition LEJP_REJECT_MP_C_OR_E_NOTARRAY : Z := -16.
Definition LEJP_REJECT_MP_ARRAY_END_MISSING : Z := -17.
Definition LEJP_REJECT_STACK_OVERFLOW : Z := -18.
Definition LEJP_REJECT_MP_DELIM_ISTACK : Z := -19.
Definition LEJP_REJECT_NUM_TOO_LONG : Z := -20.
Definition LEJP_REJECT_MP_C_OR_E_NEITHER : Z := -21.
Definition LEJP_REJECT_CALLBACK : Z := -23.

Definition LEJP_MAX_DEPTH : nat := 12.
Definition LEJP_MAX_INDEX_DEPTH : nat := 5.
Definition LEJP_MAX_PATH : nat := 128.
Definition LEJP_STRING_CHUNK : nat := 254.

(** enum num_flags *)
Definition LEJP_SEEN_MINUS : Z := 1.
Definition LEJP_SEEN_POINT : Z := 2.
Definition LEJP_SEEN_POST_POINT : Z := 4.
Definition LEJP_SEEN_EXP : Z := 8.

(** struct _lejp_stack; the flag LEJP_FLAG_WS_COMMENTLINE of the state is a
    field of its own. *)
Record stack := Stack { st_s : lejp_states; st_comment : bool; st_p : nat; st_i : nat; st_b : Z }.

(** struct lejp_ctx; its fields i and f are [idx] and [numf]. *)
Record lejp_ctx := Lejp {
  st : list stack;
  idx : list Z;
  wild : list Z;
  path : list Z;
  buf : list Z;
  line : Z;
  uni : Z;
  npos : nat;
  dcount : Z;
  numf : Z;
  sp : nat;
  ipos : nat;
  ppos : nat;
  path_match : Z;
  path_match_len : nat;
  wildcount : nat;
}.

Definition set_st (x : list stack) (ctx : lejp_ctx) : lejp_ctx :=
  Lejp x (idx ctx) (wild ctx) (path ctx) (buf ctx) (line ctx) (uni ctx) (npos ctx) (dcount ctx) (numf ctx) (sp ctx) (ipos ctx) (ppos ctx) (path_match ctx) (path_match_len ctx) (wildcount ctx).
Definition set_idx (x : list Z) (ctx : lejp_ctx) : lejp_ctx :=
  Lejp (st ctx) x (wild ctx) (path ctx) (buf ctx) (line ctx) (uni ctx) (npos ctx) (dcount ctx) (numf ctx) (sp ctx) (ipos ctx) (ppos ctx) (path_match ctx) (path_match_len ctx) (wildcount ctx).
Definition set_wild (x : list Z) (ctx : lejp_ctx) : lejp_ctx :=
  Lejp (st ctx) (idx ctx) x (path ctx) (buf ctx) (line ctx) (uni ctx) (npos ctx) (dcount ctx) (numf ctx) (sp ctx) (ipos ctx) (ppos ctx) (path_match ctx) (path_match_len ctx) (wildcount ctx).
Definition set_path (x : list Z) (ctx : lejp_ctx) : lejp_ctx :=
  Lejp (st ctx) (idx ctx) (wild ctx) x (buf ctx) (line ctx) (uni ctx) (npos ctx) (dcount ctx) (numf ctx) (sp ctx) (ipos ctx) (ppos ctx) (path_match ctx) (path_match_len ctx) (wildcount ctx).
Definition set_buf (x : list Z) (ctx : lejp_ctx) : lejp_ctx :=
  Lejp (st ctx) (idx ctx) (wild ctx) (path ctx) x (line ctx) (uni ctx) (npos ctx) (dcount ctx) (numf ctx) (sp ctx) (ipos ctx) (ppos ctx) (path_match ctx) (path_match_len ctx) (wildcount ctx).
Definition set_line (x : Z) (ctx : lejp_ctx) : lejp_ctx :=
  Lejp (st ctx) (idx ctx) (wild ctx) (path ctx) (buf ctx) x (uni ctx) (npos ctx) (dcount ctx) (numf ctx) (sp ctx) (ipos ctx) (ppos ctx) (path_match ctx) (path_match_len ctx) (wildcount ctx).
Definition set_uni (x : Z) (ctx : lejp_ctx) : lejp_ctx :=
  Lejp (st ctx) (idx ctx) (wild ctx) (path ctx) (buf ctx) (line ctx) x (npos ctx) (dcount ctx) (numf ctx) (sp ctx) (ipos ctx) (ppos ctx) (path_match ctx) (path_match_len ctx) (wildcount ctx).
Definition set_npos (x : nat) (ctx : lejp_ctx) : lejp_ctx :=
  Lejp (st ctx) (idx ctx) (wild ctx) (path ctx) (buf ctx) (line ctx) (uni ctx) x (dcount ctx) (numf ctx) (sp ctx) (ipos ctx) (ppos ctx) (path_match ctx) (path_match_len ctx) (wildcount ctx).
Definition set_dcount (x : Z) (ctx : lejp_ctx) : lejp_ctx :=
  Lejp (st ctx) (idx ctx) (wild ctx) (path ctx) (buf ctx) (line ctx) (uni ctx) (npos ctx) x (numf ctx) (sp ctx) (ipos ctx) (ppos ctx) (path_match ctx) (path_match_len ctx) (wildcount ctx).
Definition set_numf (x : Z) (ctx : lejp_ctx) : lejp_ctx :=
  Lejp (st ctx) (idx ctx) (wild ctx) (path ctx) (buf ctx) (line ctx) (uni ctx) (npos ctx) (dcount ctx) x (sp ctx) (ipos ctx) (ppos ctx) (path_match ctx) (path_match_len ctx) (wildcount ctx).
Definition set_sp (x : nat) (ctx : lejp_ctx) : lejp_ctx :=
  Lejp (st ctx) (idx ctx) (wild ctx) (path ctx) (buf ctx) (line ctx) (uni ctx) (npos ctx) (dcount ctx) (numf ctx) x (ipos ctx) (ppos ctx) (path_match ctx) (path_match_len ctx) (wildcount ctx).
Definition set_ipos (x : nat) (ctx : lejp_ctx) : lejp_ctx :=
  Lejp (st ctx) (idx ctx) (wild ctx) (path ctx) (buf ctx) (line ctx) (uni ctx) (npos ctx) (dcount ctx) (numf ctx) (sp ctx) x (ppos ctx) (path_match ctx) (path_match_len ctx) (wildcount ctx).
Definition set_ppos (x : nat) (ctx : lejp_ctx) : lejp_ctx :=
  Lejp (st ctx) (idx ctx) (wild ctx) (path ctx) (buf ctx) (line ctx) (uni ctx) (npos ctx) (dcount ctx) (numf ctx) (sp ctx) (ipos ctx) x (path_match ctx) (path_match_len ctx) (wildcount ctx).
Definition set_path_match (x : Z) (ctx : lejp_ctx) : lejp_ctx :=
  Lejp (st ctx) (idx ctx) (wild ctx) (path ctx) (buf ctx) (line ctx) (uni ctx) (npos ctx) (dcount ctx) (numf ctx) (sp ctx) (ipos ctx) (ppos ctx) x (path_match_len ctx) (wildcount ctx).
Definition set_path_match_len (x : nat) (ctx : lejp_ctx) : lejp_ctx :=
  Lejp (st ctx) (idx ctx) (wild ctx) (path ctx) (buf ctx) (line ctx) (uni ctx) (npos ctx) (dcount ctx) (numf ctx) (sp ctx) (ipos ctx) (ppos ctx) (path_match ctx) x (wildcount ctx).
Definition set_wildcount (x : nat) (ctx : lejp_ctx) : lejp_ctx :=
  Lejp (st ctx) (idx ctx) (wild ctx) (path ctx) (buf ctx) (line ctx) (uni ctx) (npos ctx) (dcount ctx) (numf ctx) (sp ctx) (ipos ctx) (ppos ctx) (path_match ctx) (path_match_len ctx) x.

(** The codes of the characters the parser compares with. *)
Definition QUOTE : Z := 34.
Definition BACKSLASH : Z := 92.
Definition DOT : Z := 46.
Definition STAR : Z := 42.

Definition esc_char : list Z := [34; 92; 47; 98; 102; 110; 114; 116; 0].
Definition esc_tran : list Z := [34; 92; 47; 8; 12; 10; 13; 9; 0].
Definition tokens : list Z := bs "rue alse ull " ++ [0].

(** What becomes of a character: go on with the next one, look at it again,
    the document is complete, or it is refused. *)
Inductive verdict := Continue | Redo | Complete | Reject (code : Z).

Section lejp.
Context {U : Type} (callback : lejp_ctx → lejp_callbacks → U → Z * U) (paths : list (list Z)).

Abbreviation outcome := (verdict * lejp_ctx * U)%type.

(** A callback that can refuse. *)
Definition call_or_reject (r : lejp_callbacks) (ctx : lejp_ctx) (u : U) (k : U → res outcome) : res outcome :=
  let '(x, u) := callback ctx r u in if negb (x =? 0) then Ok (Reject LEJP_REJECT_CALLBACK, ctx, u) else k u.

Definition top (ctx : lejp_ctx) : res stack := elem (st ctx) (Z.of_nat (sp ctx)).
Definition below (ctx : lejp_ctx) : res stack := elem (st ctx) (Z.of_nat (sp ctx) - 1).

(** ctx->st[ctx->sp].s = s *)
Definition set_state (s : lejp_states) (ctx : lejp_ctx) : res lejp_ctx :=
  e ← top ctx;
  l ← store (st ctx) (Z.of_nat (sp ctx)) (Stack s false (st_p e) (st_i e) (st_b e));
  Ok (set_st l ctx).

Definition set_comment (b : bool) (ctx : lejp_ctx) : res lejp_ctx :=
  e ← top ctx;
  l ← store (st ctx) (Z.of_nat (sp ctx)) (Stack (st_s e) b (st_p e) (st_i e) (st_b e));
  Ok (set_st l ctx).

(** ctx->path[ctx->ppos] = '\0' *)
Definition end_path (ctx : lejp_ctx) : res lejp_ctx :=
  l ← store (path ctx) (Z.of_nat (ppos ctx)) 0; Ok (set_path l ctx).

(** ctx->path[ctx->ppos++] = c *)
Definition push_path (c : Z) (ctx : lejp_ctx) : res lejp_ctx :=
  l ← store (path ctx) (Z.of_nat (ppos ctx)) c; Ok (set_ppos (S (ppos ctx)) (set_path l ctx)).

(** ** Matching the path *)

(** The rest of a path after what a * takes, which ends at a dot unless the
    pattern ends with the *. *)
Fixpoint eat (last : bool) (p : list Z) : list Z :=
  match p with
  | [] => []
  | c :: p' => if negb (c =? DOT) || last then eat last p' else p
  end.

(** The comparison of the path from [p] on with the pattern from [q] on;
    [len] is the length of the whole path. *)
Fixpoint match_path (len : nat) (q p : list Z) (ctx : lejp_ctx) : res (bool * lejp_ctx) :=
  match p, q with
  | c :: p', d :: q' =>
      if negb (d =? STAR) then
        if negb (c =? d) then Ok (false, ctx) else match_path len q' p' ctx
      else
        w ← store (wild ctx) (Z.of_nat (wildcount ctx)) (Z.of_nat (len - length p));
        match_path len q' (eat (bool_decide (q' = [])) p) (set_wildcount (S (wildcount ctx)) (set_wild w ctx))
  | _, _ => Ok (bool_decide (p = [] ∧ q = []), ctx)
  end.

(** The loop over the patterns from number [n] on. *)
Fixpoint match_paths (n : nat) (qs : list (list Z)) (ctx : lejp_ctx) : res lejp_ctx :=
  match qs with
  | [] => Ok (set_wildcount 0 ctx)
  | q :: qs =>
      match c_str (path ctx) with
      | None => Fault OutOfBounds
      | Some p =>
          '(ok, ctx) ← match_path (length p) q p (set_wildcount 0 ctx);
          if (ok : bool) then Ok (set_path_match_len (ppos ctx) (set_path_match (Z.of_nat n + 1) ctx))
          else match_paths (S n) qs ctx
      end
  end.

Definition lejp_check_path_match (ctx : lejp_ctx) : res lejp_ctx :=
  if path_match ctx =? 0 then match_paths 0 paths ctx else Ok ctx.

(** ** The cases of the parser *)

(** emit_string_char: a character of a value, or of the name of a pair. *)
Definition emit_string_char (c : Z) (ctx : lejp_ctx) (u : U) : res outcome :=
  value ← (if (sp ctx =? 0)%nat then Ok true else e ← below ctx; Ok (negb (bool_decide (st_s e = LEJP_MP_DELIM))));
  if (value : bool) then
    l ← store (buf ctx) (Z.of_nat (npos ctx)) c;
    let ctx := set_npos (S (npos ctx)) (set_buf l ctx) in
    if (npos ctx =? LEJP_STRING_CHUNK)%nat then
      call_or_reject LEJPCB_VAL_STR_CHUNK ctx u (λ u, Ok (Continue, set_npos 0 ctx, u))
    else Ok (Continue, ctx, u)
  else ctx ← push_path c ctx; Ok (Continue, ctx, u).

(** add_stack_level *)
Definition add_stack_level (s : lejp_states) (ctx : lejp_ctx) (u : U) : res outcome :=
  e ← top ctx;
  ctx ← (if negb (ppos ctx =? 0)%nat && negb (bool_decide (st_s e = LEJP_MP_COMMA_OR_END))
            && negb (bool_decide (st_s e = LEJP_MP_ARRAY_END))
         then push_path DOT ctx else Ok ctx);
  e ← top ctx;
  l ← store (st ctx) (Z.of_nat (sp ctx)) (Stack (st_s e) (st_comment e) (ppos ctx) (ipos ctx) (st_b e));
  let ctx := set_sp (S (sp ctx)) (set_st l ctx) in
  if (sp ctx =? LEJP_MAX_DEPTH)%nat then Ok (Reject LEJP_REJECT_STACK_OVERFLOW, ctx, u)
  else
    ctx ← end_path ctx;
    e ← top ctx;
    l ← store (st ctx) (Z.of_nat (sp ctx)) (Stack s false (st_p e) (st_i e) 0);
    Ok (Continue, set_st l ctx, u).

(** append_npos *)
Definition append_npos (c : Z) (ctx : lejp_ctx) (u : U) : res outcome :=
  if (LEJP_STRING_CHUNK + 1 <=? npos ctx)%nat then Ok (Reject LEJP_REJECT_NUM_TOO_LONG, ctx, u)
  else l ← store (buf ctx) (Z.of_nat (npos ctx)) c; Ok (Continue, set_npos (S (npos ctx)) (set_buf l ctx), u).

(** The path was made shorter, perhaps shorter than what matched. *)
Definition drop_match (ctx : lejp_ctx) : lejp_ctx :=
  if negb (path_match ctx =? 0) && (ppos ctx <=? path_match_len ctx)%nat then set_path_match 0 ctx else ctx.

(** Back to the path and the index depth of the level below. *)
Definition drop_path (ctx : lejp_ctx) : res lejp_ctx :=
  ctx ← (if (sp ctx =? 0)%nat then Ok ctx else e ← below ctx; Ok (set_ipos (st_i e) (set_ppos (st_p e) ctx)));
  ctx ← end_path ctx;
  Ok (drop_match ctx).

(** ctx->i[ctx->ipos - 1]++ if there is one. *)
Definition next_index (ctx : lejp_ctx) : res lejp_ctx :=
  if (ipos ctx =? 0)%nat then Ok ctx
  else
    n ← elem (idx ctx) (Z.of_nat (ipos ctx) - 1);
    l ← store (idx ctx) (Z.of_nat (ipos ctx) - 1) (u16 (n + 1));
    Ok (set_idx l ctx).

(** LEJP_MP_ARRAY_END, also reached by goto array_end. *)
Definition array_end (c : Z) (ctx : lejp_ctx) (u : U) : res outcome :=
  ctx ← end_path ctx;
  if c =? 44 then
    ctx ← next_index ctx;
    ctx ← set_state LEJP_MP_VALUE ctx;
    ctx ← (if (sp ctx =? 0)%nat then Ok ctx else e ← below ctx; Ok (set_ppos (st_p e) ctx));
    ctx ← end_path ctx;
    Ok (Continue, ctx, u)
  else if negb (c =? 93) then Ok (Reject LEJP_REJECT_MP_ARRAY_END_MISSING, ctx, u)
  else
    ctx ← set_state LEJP_MP_COMMA_OR_END ctx;
    let '(_, u) := callback ctx LEJPCB_ARRAY_END u in
    Ok (Continue, ctx, u).

(** LEJP_MP_STRING *)
Definition case_string (c : Z) (ctx : lejp_ctx) (u : U) : res outcome :=
  if c =? QUOTE then
    if (sp ctx =? 0)%nat then Ok (Reject LEJP_REJECT_MP_STRING_UNDERRUN, ctx, u)
    else
      e ← below ctx;
      if negb (bool_decide (st_s e = LEJP_MP_DELIM)) then
        l ← store (buf ctx) (Z.of_nat (npos ctx)) 0;
        let ctx := set_buf l ctx in
        let '(x, u) := callback ctx LEJPCB_VAL_STR_END u in
        if x <? 0 then Ok (Reject LEJP_REJECT_CALLBACK, ctx, u) else Ok (Continue, set_sp (sp ctx - 1) ctx, u)
      else Ok (Continue, set_sp (sp ctx - 1) ctx, u)
  else if c =? BACKSLASH then ctx ← set_state LEJP_MP_STRING_ESC ctx; Ok (Continue, ctx, u)
  else if c <? 32 then Ok (Reject LEJP_REJECT_MP_ILLEGAL_CTRL, ctx, u)
  else emit_string_char c ctx u.

(** LEJP_MP_STRING_ESC: the search goes on to the NUL that ends the table. *)
Definition case_esc (c : Z) (ctx : lejp_ctx) (u : U) : res outcome :=
  if c =? 117 then ctx ← set_state LEJP_MP_STRING_ESC_U1 ctx; Ok (Continue, set_uni 0 ctx, u)
  else
    match list_find (eq c) esc_char with
    | Some (n, _) =>
        t ← elem esc_tran (Z.of_nat n);
        ctx ← set_state LEJP_MP_STRING ctx;
        emit_string_char t ctx u
    | None => Ok (Reject LEJP_REJECT_MP_STRING_ESC_ILLEGAL_ESC, ctx, u)
    end.

(** LEJP_MP_STRING_ESC_U1 to U4: ctx->uni after a digit. *)
Definition uni_digit (c old : Z) : option Z :=
  let uni := u16 (Z.shiftl old 4) in
  if is_digit c then Some (Z.lor uni (c - 48))
  else if (97 <=? c) && (c <=? 102) then Some (c - 97 + 10)
  else if (65 <=? c) && (c <=? 70) then Some (c - 65 + 10)
  else None.

(** The byte to emit after digit number [n], if any. *)
Definition uni_byte (n uni : Z) : option Z :=
  if n =? 2 then if uni <? 8 then None else Some (Z.lor 224 (Z.land (Z.shiftr uni 4) 15))
  else if n =? 3 then
    if 128 <=? uni then Some (Z.lor 128 (Z.land (Z.shiftr uni 2) 63))
    else if uni <? 8 then None else Some (Z.lor 192 (Z.shiftr uni 2))
  else if n =? 4 then Some (if 128 <=? uni then Z.lor 128 (Z.land uni 63) else u8 uni)
  else None.

Definition case_uni (n : Z) (next : lejp_states) (c : Z) (ctx : lejp_ctx) (u : U) : res outcome :=
  match uni_digit c (uni ctx) with
  | None => Ok (Reject LEJP_REJECT_ILLEGAL_HEX, ctx, u)
  | Some x =>
      ctx ← set_state next (set_uni x ctx);
      match uni_byte n x with Some b => emit_string_char b ctx u | None => Ok (Continue, ctx, u) end
  end.

(** LEJP_MP_VALUE *)
Definition case_value (c : Z) (ctx : lejp_ctx) (u : U) : res outcome :=
  if is_digit c then
    ctx ← set_state LEJP_MP_VALUE_NUM_INT (set_numf 0 (set_dcount 0 (set_npos 0 ctx)));
    Ok (Redo, ctx, u)
  else if c =? QUOTE then
    ctx ← set_state LEJP_MP_COMMA_OR_END ctx;
    l ← store (buf ctx) 0 0;
    let ctx := set_buf l (set_npos 0 ctx) in
    call_or_reject LEJPCB_VAL_STR_START ctx u (add_stack_level LEJP_MP_STRING ctx)
  else if c =? 123 then
    ctx ← set_state LEJP_MP_COMMA_OR_END ctx;
    ctx ← lejp_check_path_match ctx;
    call_or_reject LEJPCB_OBJECT_START ctx u (add_stack_level LEJP_MEMBERS (set_path_match 0 ctx))
  else if c =? 91 then
    ctx ← set_state LEJP_MP_ARRAY_END ctx;
    ctx ← push_path 91 ctx;
    ctx ← push_path 93 ctx;
    ctx ← end_path ctx;
    call_or_reject LEJPCB_ARRAY_START ctx u (λ u,
      l ← store (idx ctx) (Z.of_nat (ipos ctx)) 0;
      let ctx := set_ipos (S (ipos ctx)) (set_idx l ctx) in
      if (LEJP_MAX_INDEX_DEPTH <? ipos ctx)%nat then Ok (Reject LEJP_REJECT_MP_DELIM_ISTACK, ctx, u)
      else add_stack_level LEJP_MP_VALUE ctx u)
  else if c =? 93 then
    if (sp ctx =? 0)%nat then Ok (Reject LEJP_REJECT_MP_C_OR_E_UNDERF, ctx, u)
    else
      let ctx := set_sp (sp ctx - 1) ctx in
      e ← top ctx;
      if negb (bool_decide (st_s e = LEJP_MP_ARRAY_END)) then Ok (Reject LEJP_REJECT_MP_C_OR_E_NOTARRAY, ctx, u)
      else ctx ← drop_path ctx; array_end c ctx u
  else if (c =? 116) || (c =? 102) || (c =? 110) then
    ctx ← set_state LEJP_MP_VALUE_TOK (set_uni (if c =? 116 then 0 else if c =? 102 then 4 else 9) ctx);
    Ok (Continue, ctx, u)
  else Ok (Reject LEJP_REJECT_MP_DELIM_BAD_VALUE_START, ctx, u).

(** LEJP_MP_VALUE_NUM_INT *)
Definition case_num_int (c : Z) (ctx : lejp_ctx) (u : U) : res outcome :=
  if (npos ctx =? 0)%nat && (c =? 45) then append_npos c (set_numf (Z.lor (numf ctx) LEJP_SEEN_MINUS) ctx) u
  else if (dcount ctx <? 20) && is_digit c then
    let f := if negb (Z.land (numf ctx) LEJP_SEEN_POINT =? 0) then Z.lor (numf ctx) LEJP_SEEN_POST_POINT else numf ctx in
    append_npos c (set_dcount (dcount ctx + 1) (set_numf f ctx)) u
  else if c =? DOT then
    if (dcount ctx =? 0) || negb (Z.land (numf ctx) LEJP_SEEN_POINT =? 0) then Ok (Reject LEJP_REJECT_MP_VAL_NUM_FORMAT, ctx, u)
    else append_npos c (set_numf (Z.lor (numf ctx) LEJP_SEEN_POINT) ctx) u
  else if Z.land (numf ctx) (Z.lor LEJP_SEEN_POINT LEJP_SEEN_POST_POINT) =? LEJP_SEEN_POINT then
    Ok (Reject LEJP_REJECT_MP_VAL_NUM_INT_NO_FRAC, ctx, u)
  else if (c =? 101) || (c =? 69) then
    if negb (Z.land (numf ctx) LEJP_SEEN_EXP =? 0) then Ok (Reject LEJP_REJECT_MP_VAL_NUM_FORMAT, ctx, u)
    else
      ctx ← set_state LEJP_MP_VALUE_NUM_EXP (set_numf (Z.lor (numf ctx) LEJP_SEEN_EXP) ctx);
      append_npos c ctx u
  else if dcount ctx =? 0 then Ok (Reject LEJP_REJECT_MP_VAL_NUM_FORMAT, ctx, u)
  else
    l ← store (buf ctx) (Z.of_nat (npos ctx)) 0;
    let ctx := set_buf l ctx in
    call_or_reject (if negb (Z.land (numf ctx) LEJP_SEEN_POINT =? 0) then LEJPCB_VAL_NUM_FLOAT else LEJPCB_VAL_NUM_INT) ctx u
      (λ u, ctx ← set_state LEJP_MP_COMMA_OR_END ctx; Ok (Redo, ctx, u)).

(** LEJP_MP_VALUE_NUM_EXP *)
Definition case_num_exp (c : Z) (ctx : lejp_ctx) (u : U) : res outcome :=
  ctx ← set_state LEJP_MP_VALUE_NUM_INT ctx;
  if is_digit c then Ok (Redo, ctx, u)
  else if (c =? 43) || (c =? 45) then append_npos c ctx u
  else Ok (Reject LEJP_REJECT_MP_VAL_NUM_EXP_BAD_EXP, ctx, u).

(** LEJP_MP_VALUE_TOK: the callback and ctx->buf at the end of a token. *)
Definition tok_end (n : Z) : option (lejp_callbacks * list Z) :=
  if n =? 3 then Some (LEJPCB_VAL_TRUE, [49; 0]) else if n =? 8 then Some (LEJPCB_VAL_FALSE, [48; 0])
  else if n =? 12 then Some (LEJPCB_VAL_NULL, [0]) else None.

Definition case_tok (c : Z) (ctx : lejp_ctx) (u : U) : res outcome :=
  t ← elem tokens (uni ctx);
  if negb (c =? t) then Ok (Reject LEJP_REJECT_MP_VAL_TOK_UNKNOWN, ctx, u)
  else
    let ctx := set_uni (u16 (uni ctx + 1)) ctx in
    t ← elem tokens (uni ctx);
    if negb (t =? 32) then Ok (Continue, ctx, u)
    else
      match tok_end (uni ctx) with
      | Some (r, text) =>
          l ← memcpy (buf ctx) 0 text;
          let ctx := set_buf l ctx in
          call_or_reject r ctx u (λ u, ctx ← set_state LEJP_MP_COMMA_OR_END ctx; Ok (Continue, ctx, u))
      | None => ctx ← set_state LEJP_MP_COMMA_OR_END ctx; Ok (Continue, ctx, u)
      end.

(** LEJP_MP_COMMA_OR_END *)
Definition case_comma_or_end (c : Z) (ctx : lejp_ctx) (u : U) : res outcome :=
  ctx ← end_path ctx;
  if c =? 44 then
    ctx ← set_state LEJP_M_P ctx;
    if (sp ctx =? 0)%nat then Ok (Continue, set_path_match 0 (set_ppos 0 ctx), u)
    else
      e ← below ctx;
      ctx ← end_path (set_ppos (st_p e) ctx);
      let ctx := drop_match ctx in
      if negb (bool_decide (st_s e = LEJP_MP_ARRAY_END)) then Ok (Continue, ctx, u)
      else
        ctx ← next_index ctx;
        ctx ← set_state LEJP_MP_VALUE ctx;
        Ok (Continue, ctx, u)
  else if c =? 93 then
    if (sp ctx =? 0)%nat then Ok (Reject LEJP_REJECT_MP_C_OR_E_UNDERF, ctx, u)
    else
      let ctx := set_sp (sp ctx - 1) ctx in
      e ← top ctx;
      if negb (bool_decide (st_s e = LEJP_MP_ARRAY_END)) then Ok (Reject LEJP_REJECT_MP_C_OR_E_NOTARRAY, ctx, u)
      else ctx ← drop_path ctx; Ok (Redo, ctx, u)
  else if c =? 125 then
    if (sp ctx =? 0)%nat then
      ctx ← lejp_check_path_match ctx;
      call_or_reject LEJPCB_OBJECT_END ctx u (λ u, let '(_, u) := callback ctx LEJPCB_COMPLETE u in Ok (Complete, ctx, u))
    else
      ctx ← drop_path (set_sp (sp ctx - 1) ctx);
      ctx ← lejp_check_path_match ctx;
      call_or_reject LEJPCB_OBJECT_END ctx u (λ u, Ok (Continue, ctx, u))
  else Ok (Reject LEJP_REJECT_MP_C_OR_E_NEITHER, ctx, u).

(** The switch over the states. *)
Definition lejp_switch (s : lejp_states) (c : Z) (ctx : lejp_ctx) (u : U) : res outcome :=
  match s with
  | LEJP_IDLE =>
      if negb (c =? 123) then Ok (Reject LEJP_REJECT_IDLE_NO_BRACE, ctx, u)
      else call_or_reject LEJPCB_OBJECT_START ctx u (λ u, ctx ← set_state LEJP_MEMBERS ctx; Ok (Continue, ctx, u))
  | LEJP_MEMBERS =>
      if c =? 125 then ctx ← set_state LEJP_IDLE ctx; Ok (Reject LEJP_REJECT_MEMBERS_NO_CLOSE, ctx, u)
      else ctx ← set_state LEJP_M_P ctx; Ok (Redo, ctx, u)
  | LEJP_M_P =>
      if negb (c =? QUOTE) then Ok (Reject LEJP_REJECT_MP_NO_OPEN_QUOTE, ctx, u)
      else ctx ← set_state LEJP_MP_DELIM ctx; add_stack_level LEJP_MP_STRING ctx u
  | LEJP_MP_STRING => case_string c ctx u
  | LEJP_MP_STRING_ESC => case_esc c ctx u
  | LEJP_MP_STRING_ESC_U1 => case_uni 1 LEJP_MP_STRING_ESC_U2 c ctx u
  | LEJP_MP_STRING_ESC_U2 => case_uni 2 LEJP_MP_STRING_ESC_U3 c ctx u
  | LEJP_MP_STRING_ESC_U3 => case_uni 3 LEJP_MP_STRING_ESC_U4 c ctx u
  | LEJP_MP_STRING_ESC_U4 => case_uni 4 LEJP_MP_STRING c ctx u
  | LEJP_MP_DELIM =>
      if negb (c =? 58) then Ok (Reject LEJP_REJECT_MP_DELIM_MISSING_COLON, ctx, u)
      else
        ctx ← set_state LEJP_MP_VALUE ctx;
        ctx ← end_path ctx;
        ctx ← lejp_check_path_match ctx;
        call_or_reject LEJPCB_PAIR_NAME ctx u (λ u, Ok (Continue, ctx, u))
  | LEJP_MP_VALUE => case_value c ctx u
  | LEJP_MP_VALUE_NUM_INT => case_num_int c ctx u
  | LEJP_MP_VALUE_NUM_EXP => case_num_exp c ctx u
  | LEJP_MP_VALUE_TOK => case_tok c ctx u
  | LEJP_MP_COMMA_OR_END => case_comma_or_end c ctx u
  | LEJP_MP_ARRAY_END => array_end c ctx u
  end.

Definition is_ws (c : Z) : bool := (c =? 32) || (c =? 9) || (c =? 10) || (c =? 13) || (c =? 35).

(** One turn of the loop for the character [c]. *)
Definition lejp_char (c : Z) (ctx : lejp_ctx) (u : U) : res outcome :=
  e ← top ctx;
  ctx ← (if c =? 10 then set_comment false (set_line (u32 (line ctx + 1)) ctx) else Ok ctx);
  if is_ws c && negb (ws_keep (st_s e)) then
    ctx ← (if c =? 35 then set_comment true ctx else Ok ctx); Ok (Continue, ctx, u)
  else
    e' ← top ctx;
    if st_comment e' then Ok (Continue, ctx, u) else lejp_switch (st_s e) c ctx u.

(** goto redo_character, at most [n] times. *)
Fixpoint lejp_redo (n : nat) (c : Z) (ctx : lejp_ctx) (u : U) : res outcome :=
  '(v, ctx, u) ← lejp_char c ctx u;
  match v with
  | Redo => match n with O => Fault Unfinished | S n => lejp_redo n c ctx u end
  | _ => Ok (v, ctx, u)
  end.

(** A character is looked at three times at most. *)
Fixpoint lejp_loop (json : list Z) (ctx : lejp_ctx) (u : U) : res (Z * lejp_ctx * U) :=
  match json with
  | [] => Ok (LEJP_CONTINUE, ctx, u)
  | c :: json =>
      '(v, ctx, u) ← lejp_redo 2 c ctx u;
      match v with
      | Complete => Ok (Z.of_nat (length json), ctx, u)
      | Reject code => let '(_, u) := callback ctx LEJPCB_FAILED u in Ok (u8 code, ctx, u)
      | _ => lejp_loop json ctx u
      end
  end.

Definition lejp_parse (json : list Z) (ctx : lejp_ctx) (u : U) : res (Z * lejp_ctx * U) :=
  let u := if (sp ctx =? 0)%nat && (ppos ctx =? 0)%nat then (callback ctx LEJPCB_START u).2 else u in
  lejp_loop json ctx u.

(** What a context held before is not cleared. *)
Definition lejp_construct (ctx : lejp_ctx) (u : U) : res (lejp_ctx * U) :=
  l ← store (st ctx) 0 (Stack LEJP_IDLE false 0 0 0);
  p ← store (path ctx) 0 0;
  let ctx := set_line 1 (set_path p (set_path_match 0 (set_ppos 0 (set_ipos 0 (set_sp 0 (set_st l ctx)))))) in
  Ok (ctx, (callback ctx LEJPCB_CONSTRUCTED u).2).

Definition lejp_destruct (ctx : lejp_ctx) (u : U) : U := (callback ctx LEJPCB_DESTRUCTED u).2.

(** The loop of lwsws_get_config (roles/http/server/lejp-conf.c) over what
    read() gives, up to 128 bytes at a time. *)
Fixpoint config_loop (reads : list (list Z)) (m : Z) (ctx : lejp_ctx) (u : U) : res (Z * lejp_ctx * U) :=
  match reads with
  | [] => Ok (m, ctx, u)
  | buf :: reads =>
      '(r, ctx, u) ← lejp_parse buf ctx u;
      let m := s8 r in
      if m =? LEJP_CONTINUE then config_loop reads m ctx u else Ok (m, ctx, u)
  end.

(** 0, or 2 for a parsing error. *)
Definition lwsws_get_config (reads : list (list Z)) (ctx : lejp_ctx) (u : U) : res (Z * U) :=
  '(ctx, u) ← lejp_construct ctx u;
  '(m, ctx, u) ← config_loop reads (-1) ctx u;
  let u := lejp_destruct ctx u in
  Ok (if m <? 0 then 2 else 0, u).

End lejp.

(** From now on the callbacks go to [cb2]. *)
Definition lejp_change_callback {U} (cb1 cb2 : lejp_ctx → lejp_callbacks → U → Z * U) (ctx : lejp_ctx) (u : U) : U :=
  (cb2 ctx LEJPCB_START (cb2 ctx LEJPCB_CONSTRUCTED (cb1 ctx LEJPCB_DESTRUCTED u).2).2).2.

(** lejp_get_wildcard: what a * of the matching pattern stands for, as far as
    it fits in [len] bytes with a NUL, and its length. *)
Fixpoint wildcard_loop (n : nat) (ctx : lejp_ctx) (start : Z) (pos : Z) : res (list Z) :=
  match n with
  | O => Ok []
  | S n =>
      if pos <? Z.of_nat (ppos ctx) then
        c ← elem (path ctx) pos;
        if (pos =? start) || negb (c =? DOT) then l ← wildcard_loop n ctx start (pos + 1); Ok (c :: l) else Ok []
      else Ok []
  end.

Definition lejp_get_wildcard (ctx : lejp_ctx) (wildcard len : nat) : res (Z * list Z) :=
  if (wildcount ctx <=? wildcard)%nat || (len =? 0)%nat then Ok (0, [])
  else
    start ← elem (wild ctx) (Z.of_nat wildcard);
    l ← wildcard_loop (len - 1) ctx start start;
    Ok (Z.of_nat (length l) + 1, l ++ [0]).
