(* ===== verification/LejpOk.v ===== *)
(** * The JSON parser reads JSON

    A document of names, strings, numbers, words, arrays and objects, written
    with any whitespace and comments, given to lejp_parse (Lejp.v) in pieces of
    any size, makes the callbacks the document asks for. *)

From stdpp Require Import base numbers list strings.
From Stdlib Require Import ZArith Lia.
From S2P Require Import Prelude Utf8 Lejp.

(** ** JSON *)

(** A character of a string: as it is, escaped by a letter, or by its number
    in digits 0 to 9 (see [hex_letters_lose_digits] for the others). *)
Inductive piece := Plain (c : Z) | Esc (c b : Z) | Uni (d1 d2 d3 d4 : Z).

Definition escapes : list (Z * Z) := [(34, 34); (92, 92); (47, 47); (98, 8); (102, 12); (110, 10); (114, 13); (116, 9)].

Definition piece_ok (p : piece) : Prop :=
  match p with
  | Plain c => 32 <= c < 256 ∧ c ≠ QUOTE ∧ c ≠ BACKSLASH
  | Esc c b => (c, b) ∈ escapes
  | Uni d1 d2 d3 d4 => 0 <= d1 <= 9 ∧ 0 <= d2 <= 9 ∧ 0 <= d3 <= 9 ∧ 0 <= d4 <= 9
  end.

#[global] Instance piece_ok_dec p : Decision (piece_ok p).
Proof. destruct p; cbn; apply _. Defined.

Definition piece_text (p : piece) : list Z :=
  match p with
  | Plain c => [c]
  | Esc c _ => [BACKSLASH; c]
  | Uni d1 d2 d3 d4 => [BACKSLASH; 117; 48 + d1; 48 + d2; 48 + d3; 48 + d4]
  end.

Definition piece_bytes (p : piece) : list Z :=
  match p with
  | Plain c => [c]
  | Esc _ b => [b]
  | Uni d1 d2 d3 d4 => utf8_encode (d1 * 4096 + d2 * 256 + d3 * 16 + d4)
  end.

Definition str_text (s : list piece) : list Z := concat (piece_text <$> s).
Definition str_bytes (s : list piece) : list Z := concat (piece_bytes <$> s).

(** A number: its digits, those after the point, and the exponent with its
    letter and sign. *)
Record number := Number { num_int : list Z; num_frac : option (list Z); num_exp : option (Z * list Z * list Z) }.

Definition digits (l : list Z) : Prop := l ≠ [] ∧ Forall (λ c, is_digit c = true) l.

Definition exp_ok (e : Z * list Z * list Z) : Prop :=
  let '(x, sign, ds) := e in (x = 101 ∨ x = 69) ∧ (sign = [] ∨ sign = [43] ∨ sign = [45]) ∧ digits ds.

Definition number_digits (n : number) : nat :=
  length (num_int n) + length (default [] (num_frac n)) + match num_exp n with Some (_, _, ds) => length ds | None => 0 end.

Definition number_ok (n : number) : Prop :=
  digits (num_int n) ∧ match num_frac n with Some f => digits f | None => True end
  ∧ match num_exp n with Some e => exp_ok e | None => True end ∧ (number_digits n ≤ 20)%nat.

#[global] Instance digits_dec l : Decision (digits l).
Proof. unfold digits. apply _. Defined.

#[global] Instance number_ok_dec n : Decision (number_ok n).
Proof. unfold number_ok. destruct n as [i [f|] [[[x s] e]|]]; cbn; apply _. Defined.

Definition number_text (n : number) : list Z :=
  num_int n ++ match num_frac n with Some f => DOT :: f | None => [] end
  ++ match num_exp n with Some (x, sign, ds) => x :: sign ++ ds | None => [] end.

Inductive word := WTrue | WFalse | WNull.

Inductive json :=
  | JStr (s : list piece)
  | JNum (n : number)
  | JWord (w : word)
  | JArr (l : list json)
  | JObj (l : list (list piece * json)).

(** ** How it is written *)

Inductive token := TStr (s : list piece) | TNum (n : number) | TWord (w : word) | TChar (c : Z).

Definition word_text (w : word) : list Z :=
  match w with WTrue => bs "true" | WFalse => bs "false" | WNull => bs "null" end.

Definition token_text (t : token) : list Z :=
  match t with
  | TStr s => QUOTE :: str_text s ++ [QUOTE]
  | TNum n => number_text n
  | TWord w => word_text w
  | TChar c => [c]
  end.

(** Elements with commas between them. *)
Fixpoint commas (l : list (list token)) : list token :=
  match l with [] => [] | [x] => x | x :: l => x ++ TChar 44 :: commas l end.

Fixpoint toks (v : json) : list token :=
  match v with
  | JStr s => [TStr s]
  | JNum n => [TNum n]
  | JWord w => [TWord w]
  | JArr l => TChar 91 :: commas (toks <$> l) ++ [TChar 93]
  | JObj l => TChar 123 :: commas ((λ m, TStr m.1 :: TChar 58 :: toks m.2) <$> l) ++ [TChar 125]
  end.

(** Spaces, tabs, line ends and comments. *)
Inductive blank : list Z → Prop :=
  | blank_nil : blank []
  | blank_space c l : c ∈ [32; 9; 10; 13] → blank l → blank (c :: l)
  | blank_comment x l : 10 ∉ x → blank l → blank (35 :: x ++ 10 :: l).

(** Tokens with blanks before them, and then [rest]. *)
Inductive written (rest : list Z) : list token → list Z → Prop :=
  | written_nil : written rest [] rest
  | written_cons w t ts text : blank w → written rest ts text → written rest (t :: ts) (w ++ token_text t ++ text).

(** ** What is called back *)

(** The reason, the path, and the text of a value. *)
Definition event : Type := lejp_callbacks * list Z * list Z.

Definition view (ctx : lejp_ctx) (r : lejp_callbacks) : event :=
  match r with
  | LEJPCB_PAIR_NAME | LEJPCB_VAL_STR_START | LEJPCB_ARRAY_START | LEJPCB_OBJECT_START => (r, take (ppos ctx) (path ctx), [])
  | LEJPCB_VAL_NUM_INT | LEJPCB_VAL_NUM_FLOAT | LEJPCB_VAL_STR_CHUNK | LEJPCB_VAL_STR_END =>
      (r, take (ppos ctx) (path ctx), take (npos ctx) (buf ctx))
  | LEJPCB_VAL_TRUE | LEJPCB_VAL_FALSE | LEJPCB_VAL_NULL => (r, take (ppos ctx) (path ctx), default [] (c_str (buf ctx)))
  | _ => (r, [], [])
  end.

(** A user that keeps what it is told, except that parsing (re)starts. *)
Definition logger (ctx : lejp_ctx) (r : lejp_callbacks) (log : list event) : Z * list event :=
  (0, if bool_decide (r = LEJPCB_START) then log else log ++ [view ctx r]).

(** The bytes of a string after [acc], in chunks of LEJP_STRING_CHUNK. *)
Fixpoint str_events (π acc bytes : list Z) : list event :=
  match bytes with
  | [] => [(LEJPCB_VAL_STR_END, π, acc)]
  | b :: bytes =>
      if (S (length acc) =? LEJP_STRING_CHUNK)%nat then (LEJPCB_VAL_STR_CHUNK, π, acc ++ [b]) :: str_events π [] bytes
      else str_events π (acc ++ [b]) bytes
  end.

Definition word_event (w : word) (π : list Z) : event :=
  match w with
  | WTrue => (LEJPCB_VAL_TRUE, π, bs "1")
  | WFalse => (LEJPCB_VAL_FALSE, π, bs "0")
  | WNull => (LEJPCB_VAL_NULL, π, [])
  end.

(** The path of a member. *)
Definition member_path (π name : list Z) : list Z := match π with [] => name | _ => π ++ DOT :: name end.

Fixpoint events (π : list Z) (v : json) : list event :=
  match v with
  | JStr s => (LEJPCB_VAL_STR_START, π, []) :: str_events π [] (str_bytes s)
  | JNum n => [(if num_frac n is Some _ then LEJPCB_VAL_NUM_FLOAT else LEJPCB_VAL_NUM_INT, π, number_text n)]
  | JWord w => [word_event w π]
  | JArr l =>
      let π := π ++ [91; 93] in
      (LEJPCB_ARRAY_START, π, []) :: concat (events π <$> l) ++ [(LEJPCB_ARRAY_END, [], [])]
  | JObj l =>
      (LEJPCB_OBJECT_START, π, [])
        :: concat ((λ m, let π := member_path π (str_bytes m.1) in (LEJPCB_PAIR_NAME, π, []) :: events π m.2) <$> l)
        ++ [(LEJPCB_OBJECT_END, [], [])]
  end.

(** ** What there is room for *)

(** A value at depth [n] of the stack, with a path of [p] bytes and [i]
    indices in use: objects are not empty, and stack, path and indices do not
    overflow. *)
Fixpoint fits (n p i : nat) (v : json) : Prop :=
  match v with
  | JStr s => Forall piece_ok s ∧ (n < 11)%nat
  | JNum m => number_ok m
  | JWord _ => True
  | JArr l => (n < 11)%nat ∧ (p + 2 < LEJP_MAX_PATH)%nat ∧ (i < LEJP_MAX_INDEX_DEPTH)%nat
      ∧ (fix go l := match l with [] => True | v :: l => fits (S n) (p + 2) (S i) v ∧ go l end) l
  | JObj l => (n < 10)%nat ∧ l ≠ []
      ∧ (fix go l := match l with
         | [] => True
         | (s, v) :: l =>
             let p := ((if p =? 0 then 0 else p + 1) + length (str_bytes s))%nat in
             (Forall piece_ok s ∧ (p < LEJP_MAX_PATH)%nat ∧ fits (S n) p i v) ∧ go l
         end) l
  end.

(** ** The context between characters *)

Lemma elem_app {A} (l1 l2 : list A) x (z : Z) : z = Z.of_nat (length l1) → elem (l1 ++ x :: l2) z = Ok x.
Proof. intros ->. apply elem_ok. by rewrite lookup_app_r, Nat.sub_diag by lia. Qed.

Lemma store_app {A} (l1 l2 : list A) x y (z : Z) : z = Z.of_nat (length l1) → store (l1 ++ x :: l2) z y = Ok (l1 ++ y :: l2).
Proof.
  intros ->. rewrite store_ok by (rewrite length_app; cbn; lia). by rewrite insert_app_r_alt, Nat.sub_diag by lia.
Qed.

(** The parser is in state [s] above the levels [B] of the stack, the path is
    [π] and [ip] indices are in use. *)
Record sees (ctx : lejp_ctx) (B : list stack) (s : lejp_states) (π : list Z) (ip : nat) : Prop := {
  se_st : ∃ e A, st ctx = B ++ e :: A ∧ st_s e = s ∧ st_comment e = false;
  se_sp : sp ctx = length B;
  se_depth : length (st ctx) = LEJP_MAX_DEPTH;
  se_path : ∃ x rest, path ctx = π ++ x :: rest ∧ (s = LEJP_MP_VALUE → x = 0);
  se_ppos : ppos ctx = length π;
  se_plen : length (path ctx) = LEJP_MAX_PATH;
  se_ipos : ipos ctx = ip;
  se_ilen : length (idx ctx) = LEJP_MAX_INDEX_DEPTH ∧ (ip ≤ LEJP_MAX_INDEX_DEPTH)%nat;
  se_wild : length (wild ctx) = LEJP_MAX_INDEX_DEPTH;
  se_buf : length (buf ctx) = (LEJP_STRING_CHUNK + 1)%nat;
}.

Lemma sees_top ctx B s π ip : sees ctx B s π ip → ∃ e, top ctx = Ok e ∧ st_s e = s ∧ st_comment e = false.
Proof.
  intros H. destruct (se_st _ _ _ _ _ H) as (e & A & E & Es & Ec). exists e. unfold top. rewrite E, (se_sp _ _ _ _ _ H). by rewrite elem_app.
Qed.

Lemma sees_below ctx B e s π ip : sees ctx (B ++ [e]) s π ip → below ctx = Ok e.
Proof.
  intros H. destruct (se_st _ _ _ _ _ H) as (e' & A & E & _). unfold below. rewrite E, (se_sp _ _ _ _ _ H), <- app_assoc. cbn [app].
  apply elem_app. rewrite length_app. cbn. lia.
Qed.

Lemma set_state_ok ctx B s s' π ip : sees ctx B s π ip → (s' = LEJP_MP_VALUE → path ctx !! length π = Some 0) →
  ∃ ctx', set_state s' ctx = Ok ctx' ∧ sees ctx' B s' π ip ∧ buf ctx' = buf ctx ∧ npos ctx' = npos ctx ∧ uni ctx' = uni ctx
    ∧ dcount ctx' = dcount ctx ∧ numf ctx' = numf ctx ∧ path ctx' = path ctx.
Proof.
  intros H Hz. pose proof H as [(e & A & E & Es & Ec) Hsp Hd (x & rest & Ep & _) Hpp Hpl Hi Hil Hw Hb].
  unfold set_state, top. rewrite E, Hsp, elem_app, res_bind_ok, store_app by done. rewrite res_bind_ok. eexists. split; [done|].
  split; [|by cbn]. split; cbn; try done.
  - by eexists _, A.
  - rewrite <- Hd, E, !length_app. done.
  - exists x, rest. split; [done|]. intros Hs. specialize (Hz Hs). rewrite Ep, lookup_app_r, Nat.sub_diag in Hz by lia. by injection Hz as ->.
Qed.

Lemma end_path_ok ctx B s π ip : sees ctx B s π ip →
  ∃ ctx', end_path ctx = Ok ctx' ∧ sees ctx' B s π ip ∧ path ctx' !! length π = Some 0 ∧ take (length π) (path ctx') = π
    ∧ buf ctx' = buf ctx ∧ npos ctx' = npos ctx ∧ uni ctx' = uni ctx ∧ st ctx' = st ctx.
Proof.
  intros H. pose proof H as [Hst Hsp Hd (x & rest & Ep & _) Hpp Hpl Hi Hil Hw Hb].
  unfold end_path. rewrite Ep, Hpp, store_app by done. rewrite res_bind_ok. eexists. split; [done|]. split.
  - split; cbn; try done; [by exists 0, rest|]. rewrite <- Hpl, Ep, !length_app. done.
  - cbn. split_and!; try done; [by rewrite lookup_app_r, Nat.sub_diag by lia|by rewrite take_app_length].
Qed.

Lemma push_path_ok c ctx B s π ip : sees ctx B s π ip → s ≠ LEJP_MP_VALUE → (S (length π) < LEJP_MAX_PATH)%nat →
  ∃ ctx', push_path c ctx = Ok ctx' ∧ sees ctx' B s (π ++ [c]) ip ∧ buf ctx' = buf ctx ∧ npos ctx' = npos ctx ∧ uni ctx' = uni ctx
    ∧ st ctx' = st ctx.
Proof.
  intros H Hs Hl. pose proof H as [Hst Hsp Hd (x & rest & Ep & _) Hpp Hpl Hi Hil Hw Hb].
  unfold push_path. rewrite Ep, Hpp, store_app by done. rewrite res_bind_ok. eexists. split; [done|]. split; [|by cbn].
  assert (∃ y r, rest = y :: r) as (y & r & ->).
  { destruct rest as [|y r]; [|by exists y, r]. rewrite Ep, length_app in Hpl. cbn in Hpl. lia. }
  split; cbn; try done; [|rewrite length_app; cbn; lia|rewrite <- Hpl, Ep, !length_app; done].
  exists y, r. split; [by rewrite <- app_assoc|done].
Qed.

(** The last level of the stack becomes the current one. *)
Lemma pop_ok ctx B e s π ip : sees ctx (B ++ [e]) s π ip → st_comment e = false → st_s e ≠ LEJP_MP_VALUE →
  sees (set_sp (sp ctx - 1) ctx) B (st_s e) π ip.
Proof.
  intros [(e' & A & E & Es & Ec) Hsp Hd (x & rest & Ep & Hx) Hpp Hpl Hi Hil Hw Hb] He Hs. split; cbn; try done.
  - exists e, (e' :: A). rewrite E, <- app_assoc. by split_and!.
  - rewrite Hsp, length_app. cbn. lia.
  - by exists x, rest.
Qed.

(** The prefix of the path that the level below remembers. *)
Definition base (B : list stack) (π : list Z) : list Z :=
  match last B with None => [] | Some e => take (st_p e) π end.

(** The levels below remember a prefix of the path. *)
Definition based (B : list stack) (π : list Z) : Prop :=
  match last B with None => True | Some e => (st_p e ≤ length π)%nat end.

Lemma base_snoc B e π : base (B ++ [e]) π = take (st_p e) π.
Proof. unfold base. by rewrite last_snoc. Qed.

(** Going back to a prefix of the path. *)
Lemma shorten_ok n ctx B s π ip : sees ctx B s π ip → (n ≤ length π)%nat → s ≠ LEJP_MP_VALUE → sees (set_ppos n ctx) B s (take n π) ip.
Proof.
  intros [Hst Hsp Hd (x & rest & Ep & Hx) Hpp Hpl Hi Hil Hw Hb] Hn Hs. split; cbn; try done; [|by rewrite length_take, Nat.min_l].
  destruct (drop n π ++ x :: rest) as [|y r] eqn:E; [by destruct (drop n π)|]. exists y, r.
  by rewrite <- E, app_assoc, take_drop.
Qed.

Lemma set_ipos_ok n ctx B s π ip : sees ctx B s π ip → (n ≤ LEJP_MAX_INDEX_DEPTH)%nat → sees (set_ipos n ctx) B s π n.
Proof. intros [Hst Hsp Hd Hp Hpp Hpl Hi [Hil _] Hw Hb] Hn. by split. Qed.

Lemma drop_match_ok ctx B s π ip : sees ctx B s π ip →
  sees (drop_match ctx) B s π ip ∧ path (drop_match ctx) = path ctx ∧ buf (drop_match ctx) = buf ctx ∧ npos (drop_match ctx) = npos ctx.
Proof. intros [Hst Hsp Hd Hp Hpp Hpl Hi Hil Hw Hb]. unfold drop_match. destruct (_ && _); (split; [by split|done]). Qed.

(** ** Matching does not fail *)

Definition stars (q : list Z) : nat := length (filter (λ c, c = STAR) q).

Lemma eat_suffix b p : ∃ x, p = x ++ eat b p.
Proof. induction p as [|c p [x IH]]; [by exists []|]. cbn. destruct (_ || _); [exists (c :: x); cbn; by f_equal|by exists []]. Qed.

(** Only the fields of the match change. *)
Definition same_but_match (ctx ctx' : lejp_ctx) : Prop :=
  st ctx' = st ctx ∧ sp ctx' = sp ctx ∧ path ctx' = path ctx ∧ ppos ctx' = ppos ctx ∧ ipos ctx' = ipos ctx ∧ idx ctx' = idx ctx
  ∧ length (wild ctx') = length (wild ctx) ∧ buf ctx' = buf ctx ∧ npos ctx' = npos ctx ∧ uni ctx' = uni ctx.

Lemma same_but_match_sees ctx ctx' B s π ip : same_but_match ctx ctx' → sees ctx B s π ip → sees ctx' B s π ip.
Proof.
  intros (E1 & E2 & E3 & E4 & E5 & E6 & E7 & E8 & E9 & E10) [Hst Hsp Hd Hp Hpp Hpl Hi Hil Hw Hb].
  split; rewrite ?E1, ?E2, ?E3, ?E4, ?E5, ?E6, ?E7, ?E8; done.
Qed.

Lemma match_path_ok len q p ctx :
  (wildcount ctx + stars q ≤ length (wild ctx))%nat → ∃ ok ctx', match_path len q p ctx = Ok (ok, ctx') ∧ same_but_match ctx ctx'.
Proof.
  revert p ctx. induction q as [|d q IH]; intros p ctx Hn; cbn [match_path]; [destruct p; eexists _, ctx; by repeat split|].
  destruct p as [|c p]; [by eexists _, ctx; repeat split|]. unfold stars in Hn. rewrite filter_cons in Hn.
  destruct (Z.eqb_spec d STAR) as [->|Hd]; cbn [negb].
  - rewrite decide_True in Hn by done. cbn [length] in Hn. rewrite store_ok by lia. rewrite res_bind_ok.
    set (ctx1 := set_wildcount _ _). destruct (IH (eat (bool_decide (q = [])) (c :: p)) ctx1) as (ok & ctx' & E & Hs).
    { cbn [ctx1 set_wildcount set_wild wildcount wild]. rewrite length_insert. unfold stars. lia. }
    exists ok, ctx'. split; [done|]. destruct Hs as (E1 & E2 & E3 & E4 & E5 & E6 & E7 & E8). split_and!; try apply E8; try done.
    rewrite E7. cbn. by rewrite length_insert.
  - rewrite decide_False in Hn by done. destruct (negb (c =? d)); [by eexists _, ctx; repeat split|]. by apply IH.
Qed.

Lemma match_paths_ok n qs ctx : Forall (λ q, (stars q ≤ LEJP_MAX_INDEX_DEPTH)%nat) qs → length (wild ctx) = LEJP_MAX_INDEX_DEPTH →
  0 ∈ path ctx → ∃ ctx', match_paths n qs ctx = Ok ctx' ∧ same_but_match ctx ctx'.
Proof.
  intros Hq. revert n ctx. induction Hq as [|q qs Hq Hqs IH]; intros n ctx Hw H0; cbn [match_paths]; [by eexists; repeat split|].
  assert (∃ p, c_str (path ctx) = Some p) as [p ->].
  { clear -H0. induction (path ctx) as [|b l IHl]; [by apply not_elem_of_nil in H0|]. cbn. destruct (Z.eqb_spec b 0); [by eexists|].
    apply elem_of_cons in H0 as [Eb|H0]; [congruence|]. destruct (IHl H0) as [p ->]. by eexists. }
  destruct (match_path_ok (length p) q p (set_wildcount 0 ctx)) as (ok & ctx1 & -> & Hs); [cbn; lia|]. rewrite res_bind_ok.
  destruct Hs as (E1 & E2 & E3 & E4 & E5 & E6 & E7 & E8 & E9 & E10). cbn in *. destruct ok; [by eexists; repeat split|].
  destruct (IH (S n) ctx1) as (ctx' & E & Hs); [congruence|by rewrite E3|]. exists ctx'. split; [done|].
  destruct Hs as (F1 & F2 & F3 & F4 & F5 & F6 & F7 & F8 & F9 & F10). repeat split; congruence.
Qed.

Section parser.
Context (paths : list (list Z)) (Hpaths : Forall (λ q, (stars q ≤ LEJP_MAX_INDEX_DEPTH)%nat) paths).

#[local] Abbreviation char := (lejp_char logger paths).
#[local] Abbreviation loop := (lejp_loop logger paths).

Context (after : list Z).
#[local] Abbreviation spaced := (written after).

Lemma check_match_ok ctx B s π ip : sees ctx B s π ip → path ctx !! length π = Some 0 →
  ∃ ctx', lejp_check_path_match paths ctx = Ok ctx' ∧ sees ctx' B s π ip ∧ path ctx' = path ctx ∧ st ctx' = st ctx.
Proof.
  intros H Hz. unfold lejp_check_path_match. destruct (_ =? 0); [|by exists ctx].
  destruct (match_paths_ok 0 paths ctx Hpaths (se_wild _ _ _ _ _ H)) as (ctx' & E & Hs); [by eapply list_elem_of_lookup_2|].
  exists ctx'. split; [done|]. split; [by apply (same_but_match_sees ctx)|]. destruct Hs as (? & _ & ? & _). done.
Qed.

(** *** Turns of the loop *)

Lemma loop_continue c t ctx u ctx' u' : char c ctx u = Ok (Continue, ctx', u') → loop (c :: t) ctx u = loop t ctx' u'.
Proof. intros E. cbn [lejp_loop lejp_redo]. by rewrite E. Qed.

Lemma loop_redo c t ctx u ctx1 u1 ctx2 u2 :
  char c ctx u = Ok (Redo, ctx1, u1) → char c ctx1 u1 = Ok (Continue, ctx2, u2) → loop (c :: t) ctx u = loop t ctx2 u2.
Proof. intros E1 E2. cbn [lejp_loop lejp_redo]. rewrite E1, res_bind_ok. by rewrite E2. Qed.

Lemma char_switch c ctx B s π ip u : sees ctx B s π ip → is_ws c = false ∨ ws_keep s = true → c ≠ 10 →
  char c ctx u = lejp_switch logger paths s c ctx u.
Proof.
  intros H Hc Hn. destruct (sees_top _ _ _ _ _ H) as (e & Et & Es & Ec). unfold lejp_char. rewrite Et, res_bind_ok.
  rewrite (proj2 (Z.eqb_neq c 10)) by done. rewrite res_bind_ok, Es.
  assert (is_ws c && negb (ws_keep s) = false) as -> by (destruct Hc as [->| ->]; [done|by rewrite andb_false_r]).
  by rewrite Et, res_bind_ok, Ec.
Qed.

(** *** Blanks *)

Lemma set_comment_ok b ctx B s π ip : sees ctx B s π ip →
  ∃ ctx', set_comment b ctx = Ok ctx' ∧ (b = false → sees ctx' B s π ip)
    ∧ (∀ b', set_comment b' ctx' = set_comment b' ctx) ∧ ∃ e, top ctx' = Ok e ∧ st_s e = s ∧ st_comment e = b.
Proof.
  intros H. pose proof H as [(e & A & E & Es & Ec) Hsp Hd Hp Hpp Hpl Hi Hil Hw Hb].
  assert (∀ b, set_comment b ctx = Ok (set_st (B ++ Stack (st_s e) b (st_p e) (st_i e) (st_b e) :: A) ctx)) as Hset.
  { intros b'. unfold set_comment, top. rewrite E, Hsp, elem_app, res_bind_ok, store_app by done. done. }
  rewrite Hset. eexists. split; [done|]. split_and!.
  - intros ->. split; cbn; try done; [by eexists _, A|]. rewrite <- Hd, E, !length_app. done.
  - intros b'. rewrite Hset. unfold set_comment, top. cbn. rewrite Hsp, elem_app, res_bind_ok, store_app by done. done.
  - eexists. unfold top. cbn. rewrite Hsp, elem_app by done. by split_and!.
Qed.

Lemma set_line_ok n ctx B s π ip : sees ctx B s π ip → sees (set_line n ctx) B s π ip.
Proof. intros [Hst Hsp Hd Hp Hpp Hpl Hi Hil Hw Hb]. by split. Qed.

Lemma is_ws_in c : c ∈ [32; 9; 10; 13] → is_ws c = true ∧ c ≠ 35.
Proof. intros H. repeat (apply elem_of_cons in H as [->|H]; [done|]). by apply not_elem_of_nil in H. Qed.

Lemma space_ok c ctx B s π ip u : sees ctx B s π ip → ws_keep s = false → c ∈ [32; 9; 10; 13] →
  ∃ ctx', char c ctx u = Ok (Continue, ctx', u) ∧ sees ctx' B s π ip.
Proof.
  intros H Hs Hc. destruct (is_ws_in _ Hc) as [Hw H35]. destruct (sees_top _ _ _ _ _ H) as (e & Et & Es & Ec).
  unfold lejp_char. rewrite Et, res_bind_ok, Hw, Es, Hs. cbn [negb andb]. destruct (Z.eqb_spec c 10) as [->|].
  - destruct (set_comment_ok false (set_line (u32 (line ctx + 1)) ctx) B s π ip) as (ctx' & -> & H' & _); [by apply set_line_ok|].
    rewrite res_bind_ok. cbn. exists ctx'. split; [done|by apply H'].
  - rewrite res_bind_ok, (proj2 (Z.eqb_neq c 35)) by done. by exists ctx.
Qed.

Lemma comment_ok x t ctx0 ctx B s π ip u : sees ctx0 B s π ip → ws_keep s = false → set_comment true ctx0 = Ok ctx → 10 ∉ x →
  ∃ ctx', loop (x ++ 10 :: t) ctx u = loop t ctx' u ∧ sees ctx' B s π ip.
Proof.
  intros H0 Hs Hset Hx. destruct (set_comment_ok true ctx0 B s π ip H0) as (c1 & E1 & _ & Hidem & e & Et & Es & Ec).
  rewrite Hset in E1. injection E1 as <-. induction x as [|c x IH].
  - cbn [app]. assert (char 10 ctx u = Ok (Continue, set_line (u32 (line ctx + 1)) (default ctx0 (match set_comment false ctx0 with Ok c => Some c | _ => None end)), u)) as E.
    { unfold lejp_char. rewrite Et, res_bind_ok, Es, Hs. cbn [Z.eqb Pos.eqb]. specialize (Hidem false).
      destruct (set_comment_ok false ctx0 B s π ip H0) as (c2 & E2 & _). rewrite E2 in Hidem |- *. cbn [default].
      unfold set_comment in Hidem |- *. unfold top in *. cbn [set_line st sp]. destruct (elem _ _); [|done]. rewrite res_bind_ok in Hidem |- *. cbn [set_line st].
      destruct (store _ _ _); [|done]. rewrite res_bind_ok in Hidem |- *. injection Hidem as <-. done. }
    rewrite (loop_continue _ _ _ _ _ _ E). destruct (set_comment_ok false ctx0 B s π ip H0) as (c2 & E2 & Hc2 & _). rewrite E2. cbn [default].
    eexists. split; [done|]. by apply set_line_ok, Hc2.
  - apply not_elem_of_cons in Hx as [Hc Hx]. cbn [app]. assert (char c ctx u = Ok (Continue, ctx, u)) as E; [|rewrite (loop_continue _ _ _ _ _ _ E); by apply IH].
    unfold lejp_char. rewrite Et, res_bind_ok, Es, Hs. rewrite (proj2 (Z.eqb_neq c 10)) by congruence. rewrite res_bind_ok, andb_true_r.
    destruct (is_ws c); [|by rewrite Et, res_bind_ok, Ec]. destruct (c =? 35); [|done]. specialize (Hidem true). rewrite Hset in Hidem. by rewrite Hidem.
Qed.

Lemma blank_ok w t ctx B s π ip u : blank w → sees ctx B s π ip → ws_keep s = false →
  ∃ ctx', loop (w ++ t) ctx u = loop t ctx' u ∧ sees ctx' B s π ip.
Proof.
  intros Hw. revert ctx. induction Hw as [|c l Hc Hw IH|x l Hx Hw IH]; intros ctx H Hs; [by exists ctx|..].
  - destruct (space_ok c ctx B s π ip u H Hs Hc) as (ctx1 & E & H1). cbn [app]. rewrite (loop_continue _ _ _ _ _ _ E). by apply IH.
  - destruct (set_comment_ok true ctx B s π ip H) as (ctx1 & E1 & _). cbn [app].
    assert (char 35 ctx u = Ok (Continue, ctx1, u)) as E.
    { destruct (sees_top _ _ _ _ _ H) as (e & Et & Es & Ec). unfold lejp_char. rewrite Et, res_bind_ok, Es, Hs. cbn. by rewrite E1. }
    rewrite (loop_continue _ _ _ _ _ _ E), <- app_assoc. cbn [app].
    destruct (comment_ok x (l ++ t) ctx ctx1 B s π ip u H Hs E1 Hx) as (ctx2 & -> & H2). by apply IH.
Qed.

(** *** Strings *)

(** What ctx->uni is after digits 0 to 9. *)
Definition add_digit (old d : Z) : Z := Z.lor (u16 (Z.shiftl old 4)) d.

Lemma uni_digit_dec d old : 0 <= d <= 9 → uni_digit (48 + d) old = Some (add_digit old d).
Proof.
  intros Hd. unfold uni_digit. rewrite (proj2 (is_digit_iff (48 + d))) by lia. unfold add_digit. do 2 f_equal. lia.
Qed.

Definition option_list {A} (o : option A) : list A := match o with Some x => [x] | None => [] end.

(** The bytes that the four digits emit are the character in UTF-8. *)
Lemma uni_bytes d1 d2 d3 d4 : 0 <= d1 <= 9 → 0 <= d2 <= 9 → 0 <= d3 <= 9 → 0 <= d4 <= 9 →
  let x1 := add_digit 0 d1 in let x2 := add_digit x1 d2 in let x3 := add_digit x2 d3 in let x4 := add_digit x3 d4 in
  option_list (uni_byte 1 x1) ++ option_list (uni_byte 2 x2) ++ option_list (uni_byte 3 x3) ++ option_list (uni_byte 4 x4)
  = utf8_encode (d1 * 4096 + d2 * 256 + d3 * 16 + d4).
Proof.
  intros H1 H2 H3 H4. assert (∀ d, 0 <= d <= 9 → d ∈ seqZ 0 10) as Hin by (intros d Hd; apply elem_of_seqZ; lia).
  assert (Forall (λ d1, Forall (λ d2, Forall (λ d3, Forall (λ d4,
    let x1 := add_digit 0 d1 in let x2 := add_digit x1 d2 in let x3 := add_digit x2 d3 in let x4 := add_digit x3 d4 in
    option_list (uni_byte 1 x1) ++ option_list (uni_byte 2 x2) ++ option_list (uni_byte 3 x3) ++ option_list (uni_byte 4 x4)
    = utf8_encode (d1 * 4096 + d2 * 256 + d3 * 16 + d4)) (seqZ 0 10)) (seqZ 0 10)) (seqZ 0 10)) (seqZ 0 10)) as H by by_compute.
  rewrite Forall_forall in H. specialize (H d1 (Hin _ H1)). rewrite Forall_forall in H. specialize (H d2 (Hin _ H2)).
  rewrite Forall_forall in H. specialize (H d3 (Hin _ H3)). rewrite Forall_forall in H. exact (H d4 (Hin _ H4)).
Qed.

(** A string goes to the name of a pair or to a value: [P s bytes] says the
    parser is in state [s] and [bytes] came out so far; there is room for [N]. *)
Section string.
Context (P : lejp_states → list Z → lejp_ctx → list event → Prop) (N : nat).
Context (P_sees : ∀ s b ctx u, P s b ctx u → ∃ B π ip, sees ctx B s π ip).
Context (P_emit : ∀ s b c ctx u, P s b ctx u → (S (length b) ≤ N)%nat →
  ∃ ctx' u', emit_string_char logger c ctx u = Ok (Continue, ctx', u') ∧ P s (b ++ [c]) ctx' u' ∧ uni ctx' = uni ctx).
Context (P_state : ∀ s s' b ctx u, P s b ctx u → s' ≠ LEJP_MP_VALUE → ∃ ctx', set_state s' ctx = Ok ctx' ∧ P s' b ctx' u ∧ uni ctx' = uni ctx).
Context (P_uni : ∀ s b ctx u x, P s b ctx u → P s b (set_uni x ctx) u).

Lemma string_switch s b c ctx u : P s b ctx u → ws_keep s = true → c ≠ 10 → char c ctx u = lejp_switch logger paths s c ctx u.
Proof. intros H Hs Hc. destruct (P_sees _ _ _ _ H) as (B & π & ip & Hsees). eapply char_switch; [done|by right|done]. Qed.

Lemma uni_step n s next b d ctx u :
  (∀ c ctx u, lejp_switch logger paths s c ctx u = case_uni logger n next c ctx u) → ws_keep s = true → next ≠ LEJP_MP_VALUE → 0 <= d <= 9 →
  P s b ctx u → let y := add_digit (uni ctx) d in (length (b ++ option_list (uni_byte n y)) ≤ N)%nat →
  ∃ ctx' u', char (48 + d) ctx u = Ok (Continue, ctx', u') ∧ P next (b ++ option_list (uni_byte n y)) ctx' u' ∧ uni ctx' = y.
Proof.
  intros Hsw Hk Hnext Hd H y Hlen. rewrite (string_switch _ _ _ _ _ H Hk), Hsw by lia. unfold case_uni. rewrite (uni_digit_dec d _ Hd).
  destruct (P_state s next b (set_uni y ctx) u) as (ctx1 & E & H1 & Eu); [by apply P_uni|done|]. fold y. rewrite E, res_bind_ok.
  destruct (uni_byte n y) as [c|]; cbn [option_list] in *.
  - rewrite length_app in Hlen. cbn in Hlen. destruct (P_emit next b c ctx1 u H1) as (ctx2 & u2 & E2 & H2 & Eu2); [lia|]. exists ctx2, u2.
    split_and!; [done..|by rewrite Eu2, Eu].
  - exists ctx1, u. rewrite app_nil_r. split_and!; [done..|by rewrite Eu].
Qed.

Lemma esc_step c x b ctx u : (c, x) ∈ escapes → P LEJP_MP_STRING_ESC b ctx u → (S (length b) ≤ N)%nat →
  ∃ ctx' u', char c ctx u = Ok (Continue, ctx', u') ∧ P LEJP_MP_STRING (b ++ [x]) ctx' u'.
Proof.
  intros Hin H Hlen.
  assert (c ≠ 10 ∧ c ≠ 117 ∧ ∃ n, list_find (eq c) esc_char = Some (n, c) ∧ elem esc_tran (Z.of_nat n) = Ok x) as (Hc & Hu & n & En & Ex).
  { unfold escapes in Hin. repeat (apply elem_of_cons in Hin as [[= -> ->]|Hin]; [split; [done|]; split; [done|]; eexists; split; vm_compute; reflexivity|]).
    by apply not_elem_of_nil in Hin. }
  rewrite (string_switch _ _ _ _ _ H eq_refl Hc). cbn [lejp_switch]. unfold case_esc. rewrite (proj2 (Z.eqb_neq _ _)) by done. rewrite En, Ex, res_bind_ok.
  destruct (P_state _ LEJP_MP_STRING _ _ _ H) as (ctx1 & -> & H1 & _); [done|]. rewrite res_bind_ok.
  destruct (P_emit _ _ x _ _ H1 Hlen) as (ctx2 & u2 & E & H2 & _). by exists ctx2, u2.
Qed.

Lemma piece_step p b t ctx u : piece_ok p → P LEJP_MP_STRING b ctx u → (length (b ++ piece_bytes p) ≤ N)%nat →
  ∃ ctx' u', loop (piece_text p ++ t) ctx u = loop t ctx' u' ∧ P LEJP_MP_STRING (b ++ piece_bytes p) ctx' u'.
Proof.
  intros Hok H Hlen. assert (∀ ctx u, P LEJP_MP_STRING b ctx u → ∃ ctx', char BACKSLASH ctx u = Ok (Continue, ctx', u) ∧ P LEJP_MP_STRING_ESC b ctx' u) as Hesc.
  { clear ctx u H. intros ctx u H. rewrite (string_switch _ _ _ _ _ H) by done. cbn. destruct (P_state _ LEJP_MP_STRING_ESC _ _ _ H) as (ctx1 & -> & H1 & _); [done|]. by exists ctx1. }
  destruct p as [c|c x|d1 d2 d3 d4]; cbn [piece_ok piece_text piece_bytes app] in *.
  - destruct Hok as (Hr & Hq & Hb). rewrite length_app in Hlen. cbn in Hlen. destruct (P_emit _ _ c _ _ H) as (ctx1 & u1 & E & H1 & _); [lia|].
    exists ctx1, u1. split; [|done]. apply loop_continue. rewrite (string_switch _ _ _ _ _ H) by (done || lia). cbn [lejp_switch]. unfold case_string.
    rewrite !(proj2 (Z.eqb_neq _ _)), (proj2 (Z.ltb_ge _ _)) by (done || lia). done.
  - destruct (Hesc _ _ H) as (ctx1 & E1 & H1). rewrite length_app in Hlen. cbn in Hlen.
    destruct (esc_step c x b ctx1 u Hok H1) as (ctx2 & u2 & E2 & H2); [lia|]. exists ctx2, u2.
    by rewrite (loop_continue _ _ _ _ _ _ E1), (loop_continue _ _ _ _ _ _ E2).
  - destruct Hok as (Hd1 & Hd2 & Hd3 & Hd4). destruct (Hesc _ _ H) as (ctx1 & E1 & H1).
    assert (∃ ctx2, char 117 ctx1 u = Ok (Continue, ctx2, u) ∧ P LEJP_MP_STRING_ESC_U1 b ctx2 u ∧ uni ctx2 = 0) as (ctx2 & E2 & H2 & Eu2).
    { rewrite (string_switch _ _ _ _ _ H1) by done. cbn. destruct (P_state _ LEJP_MP_STRING_ESC_U1 _ _ _ H1) as (ctx2 & -> & H2 & _); [done|].
      exists (set_uni 0 ctx2). split_and!; [done|by apply P_uni|done]. }
    pose proof (uni_bytes d1 d2 d3 d4 Hd1 Hd2 Hd3 Hd4) as Hbytes. cbv zeta in Hbytes. rewrite <- Hbytes in Hlen |- *. rewrite <- Eu2 in Hlen |- *.
    rewrite !length_app in Hlen.
    destruct (uni_step 1 LEJP_MP_STRING_ESC_U1 LEJP_MP_STRING_ESC_U2 b d1 ctx2 u (λ _ _ _, eq_refl) eq_refl ltac:(done) Hd1 H2) as (ctx3 & u3 & E3 & H3 & Eu3); [rewrite length_app; lia|].
    destruct (uni_step 2 LEJP_MP_STRING_ESC_U2 LEJP_MP_STRING_ESC_U3 _ d2 ctx3 u3 (λ _ _ _, eq_refl) eq_refl ltac:(done) Hd2 H3) as (ctx4 & u4 & E4 & H4 & Eu4); [rewrite Eu3, !length_app; lia|].
    destruct (uni_step 3 LEJP_MP_STRING_ESC_U3 LEJP_MP_STRING_ESC_U4 _ d3 ctx4 u4 (λ _ _ _, eq_refl) eq_refl ltac:(done) Hd3 H4) as (ctx5 & u5 & E5 & H5 & Eu5); [rewrite Eu4, Eu3, !length_app; lia|].
    destruct (uni_step 4 LEJP_MP_STRING_ESC_U4 LEJP_MP_STRING _ d4 ctx5 u5 (λ _ _ _, eq_refl) eq_refl ltac:(done) Hd4 H5) as (ctx6 & u6 & E6 & H6 & _); [rewrite Eu5, Eu4, Eu3, !length_app; lia|].
    exists ctx6, u6. split.
    + rewrite (loop_continue _ _ _ _ _ _ E1), (loop_continue _ _ _ _ _ _ E2), (loop_continue _ _ _ _ _ _ E3), (loop_continue _ _ _ _ _ _ E4),
        (loop_continue _ _ _ _ _ _ E5), (loop_continue _ _ _ _ _ _ E6). done.
    + rewrite Eu5, Eu4, Eu3, <- !app_assoc in H6. exact H6.
Qed.

Lemma string_step s b t ctx u : Forall piece_ok s → P LEJP_MP_STRING b ctx u → (length (b ++ str_bytes s) ≤ N)%nat →
  ∃ ctx' u', loop (str_text s ++ t) ctx u = loop t ctx' u' ∧ P LEJP_MP_STRING (b ++ str_bytes s) ctx' u'.
Proof.
  intros Hok. revert b ctx u. induction Hok as [|p s Hp Hs IH]; intros b ctx u H Hlen.
  - exists ctx, u. cbn. by rewrite app_nil_r.
  - unfold str_text, str_bytes in *. cbn [fmap list_fmap concat] in *. rewrite app_assoc in Hlen.
    destruct (piece_step p b (concat (piece_text <$> s) ++ t) ctx u Hp H) as (ctx1 & u1 & E1 & H1); [rewrite length_app in Hlen; lia|].
    destruct (IH _ _ _ H1 Hlen) as (ctx2 & u2 & E2 & H2). exists ctx2, u2. rewrite <- app_assoc, E1, E2. by rewrite app_assoc.
Qed.

End string.

(** The path after a push from state [s0]. *)
Definition dotted (s0 : lejp_states) (π : list Z) : list Z :=
  if bool_decide (π ≠ []) && negb (bool_decide (s0 = LEJP_MP_COMMA_OR_END)) && negb (bool_decide (s0 = LEJP_MP_ARRAY_END))
  then π ++ [DOT] else π.

Lemma dotted_same s0 π : s0 = LEJP_MP_COMMA_OR_END ∨ s0 = LEJP_MP_ARRAY_END → dotted s0 π = π.
Proof. unfold dotted. intros [-> | ->]; [by rewrite andb_false_r|]. by rewrite (andb_false_r (_ && _)). Qed.

Lemma push_ok s ctx B s0 π ip (u : list event) :
  sees ctx B s0 π ip → s0 ≠ LEJP_MP_VALUE → (length B < 11)%nat → (length (dotted s0 π) < LEJP_MAX_PATH)%nat →
  ∃ ctx' b, add_stack_level s ctx u = Ok (Continue, ctx', u) ∧ sees ctx' (B ++ [Stack s0 false (length (dotted s0 π)) ip b]) s (dotted s0 π) ip
    ∧ npos ctx' = npos ctx ∧ buf ctx' = buf ctx.
Proof.
  intros H Hs0 HB Hlen. unfold add_stack_level. destruct (sees_top _ _ _ _ _ H) as (e & Et & Es & Ec). rewrite Et, res_bind_ok, Es.
  assert (∃ ctx1, (if negb (ppos ctx =? 0)%nat && negb (bool_decide (s0 = LEJP_MP_COMMA_OR_END)) && negb (bool_decide (s0 = LEJP_MP_ARRAY_END))
    then push_path DOT ctx else Ok ctx) = Ok ctx1 ∧ sees ctx1 B s0 (dotted s0 π) ip ∧ buf ctx1 = buf ctx ∧ npos ctx1 = npos ctx ∧ top ctx1 = Ok e)
    as (ctx1 & -> & H1 & Eb & En & Et1).
  { rewrite (se_ppos _ _ _ _ _ H). unfold dotted in *.
    assert (negb (length π =? 0)%nat = bool_decide (π ≠ [])) as -> by (destruct π; [done|by rewrite bool_decide_eq_true_2]).
    destruct (_ && _ && _); [|by exists ctx]. rewrite length_app in Hlen. cbn in Hlen.
    destruct (push_path_ok DOT ctx B s0 π ip H Hs0) as (ctx1 & E & H1 & Eb & En & _ & Est); [lia|]. exists ctx1. split_and!; try done.
    unfold top in *. by rewrite Est, (se_sp _ _ _ _ _ H1), <- (se_sp _ _ _ _ _ H). }
  rewrite res_bind_ok, Et1, res_bind_ok. destruct H1 as [(e' & A & E & _) Hsp Hd (x & rest & Ep & _) Hpp Hpl Hi Hil Hw Hb].
  assert (∃ a A', A = a :: A') as (a & A' & ->).
  { destruct A as [|a A']; [|by eexists _, _]. rewrite E, length_app in Hd. unfold LEJP_MAX_DEPTH in Hd. cbn in Hd. lia. }
  rewrite E, Hsp, store_app, res_bind_ok by done. cbn [set_sp sp set_st]. rewrite Es, Ec, Hpp, Hi.
  rewrite (proj2 (Nat.eqb_neq _ _)) by (unfold LEJP_MAX_DEPTH; lia). unfold end_path. cbn [set_sp set_st path ppos].
  rewrite Hpp, Ep, store_app, res_bind_ok by done. unfold top.
  set (e1 := Stack s0 false _ ip _). replace (B ++ e1 :: a :: A') with ((B ++ [e1]) ++ a :: A') by (by rewrite <- app_assoc).
  rewrite res_bind_ok. cbn [set_path st sp set_sp set_st].
  rewrite elem_app, res_bind_ok, store_app, res_bind_ok by (rewrite length_app; cbn; lia).
  eexists _, _. split; [done|]. split; [|by cbn]. split; cbn; try done.
  - by eexists _, A'.
  - rewrite length_app. cbn. lia.
  - rewrite <- Hd, E, !length_app. cbn. lia.
  - by exists 0, rest.
  - rewrite <- Hpl, Ep, !length_app. done.
Qed.

(** *** Names *)

Definition in_name (B : list stack) (e : stack) (π : list Z) (ip : nat) (s : lejp_states) (b : list Z) (ctx : lejp_ctx) (u : list event) : Prop :=
  sees ctx (B ++ [e]) s (π ++ b) ip.

Lemma name_ok s0 s t ctx B π ip u :
  sees ctx B s0 π ip → s0 = LEJP_M_P ∨ s0 = LEJP_MEMBERS → Forall piece_ok s → (length B < 11)%nat →
  (length (dotted LEJP_MP_DELIM π) + length (str_bytes s) < LEJP_MAX_PATH)%nat →
  ∃ ctx', loop (token_text (TStr s) ++ t) ctx u = loop t ctx' u ∧ sees ctx' B LEJP_MP_DELIM (dotted LEJP_MP_DELIM π ++ str_bytes s) ip.
Proof.
  intros H0 Hs0 Hs HB Hlen. cbn [token_text app].
  assert (∃ ctx', sees ctx' B LEJP_M_P π ip
    ∧ ∀ ctx2 u2, char QUOTE ctx' u = Ok (Continue, ctx2, u2) → loop (QUOTE :: (str_text s ++ [QUOTE]) ++ t) ctx u = loop ((str_text s ++ [QUOTE]) ++ t) ctx2 u2)
    as (ctxq & H & Hfirst).
  { destruct Hs0 as [-> | ->].
    - exists ctx. split; [done|]. intros ctx2 u2 E. by apply loop_continue.
    - destruct (set_state_ok ctx B LEJP_MEMBERS LEJP_M_P π ip H0) as (ctx1 & E1 & H1 & _); [done|]. exists ctx1. split; [done|].
      intros ctx2 u2 E2. apply (loop_redo _ _ _ _ ctx1 u); [|done]. rewrite (char_switch _ _ _ _ _ _ _ H0) by (done || by left). cbn. by rewrite E1. }
  clear H0 Hs0 s0. destruct (set_state_ok ctxq B LEJP_M_P LEJP_MP_DELIM π ip H) as (ctx1 & E1 & H1 & _); [done|].
  destruct (push_ok LEJP_MP_STRING ctx1 B LEJP_MP_DELIM π ip u H1) as (ctx2 & b & E2 & H2 & _); [done|done|lia|].
  set (π1 := dotted LEJP_MP_DELIM π) in *. set (e := Stack LEJP_MP_DELIM false (length π1) ip b) in *.
  assert (char QUOTE ctxq u = Ok (Continue, ctx2, u)) as E.
  { rewrite (char_switch _ _ _ _ _ _ _ H) by (done || by left). cbn. by rewrite E1, res_bind_ok. }
  rewrite (Hfirst _ _ E), <- app_assoc.
  assert (∀ ctx s b, sees ctx (B ++ [e]) s (π1 ++ b) ip → (sp ctx =? 0)%nat = false) as Hsp.
  { intros c s' b' Hc. rewrite (se_sp _ _ _ _ _ Hc), length_app. cbn. apply Nat.eqb_neq. lia. }
  destruct (string_step (λ s b ctx u', s ≠ LEJP_MP_VALUE ∧ sees ctx (B ++ [e]) s (π1 ++ b) ip ∧ u' = u) (length (str_bytes s))
    ltac:(intros ? ? ? ? (_ & ? & _); eauto)) with (s := s) (b := @nil Z) (t := [QUOTE] ++ t) (ctx := ctx2) (u := u)
    as (ctx3 & u3 & E3 & _ & H3 & ->); [..|done|].
  - intros s0 b0 c ctx0 u0 (Hs0 & H0 & ->) Hb0. unfold emit_string_char. rewrite (Hsp _ _ _ H0), (sees_below _ _ _ _ _ _ H0), res_bind_ok. cbn.
    destruct (push_path_ok c ctx0 _ _ _ _ H0 Hs0) as (ctx' & -> & H' & _ & _ & Eu & _); [rewrite length_app; lia|]. rewrite res_bind_ok.
    exists ctx', u. rewrite <- app_assoc in H'. done.
  - intros s0 s' b0 ctx0 u0 (Hs0 & H0 & ->) Hs'. destruct (set_state_ok ctx0 _ _ s' _ _ H0) as (ctx' & -> & H' & _ & _ & Eu & _); [done|].
    exists ctx'. by split_and!.
  - intros s0 b0 ctx0 u0 x (Hs0 & H0 & ->). split_and!; [done| |done]. destruct H0 as [Hst Hsp' Hd Hp Hpp Hpl Hi Hil Hw Hb]. by split.
  - done.
  - split_and!; [done| |done]. by rewrite app_nil_r.
  - cbn [app] in *. rewrite E3. eexists. split; [|apply (pop_ok ctx3 B e _ _ _ H3); done]. apply loop_continue.
    rewrite (char_switch _ _ _ _ _ _ _ H3) by (done || by right). cbn. unfold case_string. cbn. rewrite (Hsp _ _ _ H3), (sees_below _ _ _ _ _ _ H3), res_bind_ok. done.
Qed.

(** *** Values that are strings *)

Lemma sees_path ctx B s π ip : sees ctx B s π ip → take (ppos ctx) (path ctx) = π ∧ (length π < LEJP_MAX_PATH)%nat.
Proof.
  intros H. destruct (se_path _ _ _ _ _ H) as (x & rest & Ep & _). pose proof (se_plen _ _ _ _ _ H) as Hl. rewrite (se_ppos _ _ _ _ _ H), Ep in *.
  rewrite take_app_length, length_app in *. cbn in Hl. split; [done|lia].
Qed.

Lemma set_buf_ok l ctx B s π ip : sees ctx B s π ip → length l = length (buf ctx) → sees (set_buf l ctx) B s π ip.
Proof. intros [Hst Hsp Hd Hp Hpp Hpl Hi Hil Hw Hb] Hl. split; cbn; try done. rewrite Hl. exact Hb. Qed.

Lemma set_npos_ok n ctx B s π ip : sees ctx B s π ip → sees (set_npos n ctx) B s π ip.
Proof. intros [Hst Hsp Hd Hp Hpp Hpl Hi Hil Hw Hb]. by split. Qed.

Lemma take_insert_snoc {A} (l : list A) acc (c : A) : take (length acc) l = acc → (length acc < length l)%nat →
  take (S (length acc)) (<[length acc := c]> l) = acc ++ [c].
Proof. intros Ht Hl. rewrite (take_S_r _ _ c) by (by apply list_lookup_insert_eq). by rewrite take_insert_ge, Ht by lia. Qed.

(** ctx->buf holds [acc], and the callbacks made so far with what follows are
    those for the whole string. *)
Definition in_value (B : list stack) (π : list Z) (ip : nat) (u0 : list event) (s : lejp_states) (b : list Z) (ctx : lejp_ctx) (u : list event) : Prop :=
  s ≠ LEJP_MP_VALUE ∧ sees ctx B s π ip ∧ ∃ acc evs, npos ctx = length acc ∧ take (length acc) (buf ctx) = acc ∧ (length acc < LEJP_STRING_CHUNK)%nat
    ∧ u = u0 ++ evs ∧ ∀ rest, str_events π [] (b ++ rest) = evs ++ str_events π acc rest.

Lemma emit_value B e π ip u0 s b c ctx u : st_s e ≠ LEJP_MP_DELIM → in_value (B ++ [e]) π ip u0 s b ctx u →
  ∃ ctx' u', emit_string_char logger c ctx u = Ok (Continue, ctx', u') ∧ in_value (B ++ [e]) π ip u0 s (b ++ [c]) ctx' u' ∧ uni ctx' = uni ctx.
Proof.
  intros He (Hs & H & acc & evs & En & Eb & Hacc & -> & Hev). unfold emit_string_char.
  rewrite (sees_below _ _ _ _ _ _ H), (se_sp _ _ _ _ _ H), length_app. cbn [length]. rewrite (proj2 (Nat.eqb_neq _ _)) by lia.
  rewrite res_bind_ok, bool_decide_eq_false_2 by done. cbn [negb]. rewrite res_bind_ok, En. pose proof (se_buf _ _ _ _ _ H) as Hlb.
  rewrite store_ok by lia. rewrite res_bind_ok. cbv zeta. cbn [set_npos set_buf npos].
  assert (take (S (length acc)) (<[length acc:=c]> (buf ctx)) = acc ++ [c]) as Et by (apply take_insert_snoc; [done|lia]).
  assert (∀ n, sees (set_npos n (set_buf (<[length acc:=c]> (buf ctx)) ctx)) (B ++ [e]) s π ip) as H' by (intros n; apply set_npos_ok, set_buf_ok; [done|by rewrite length_insert]).
  assert (∀ rest, str_events π [] ((b ++ [c]) ++ rest) = evs ++ str_events π acc (c :: rest)) as Hev' by (intros rest; by rewrite <- app_assoc, <- Hev).
  destruct (S (length acc) =? LEJP_STRING_CHUNK)%nat eqn:Ec.
  - unfold call_or_reject, logger at 1. cbn [Z.eqb negb].
    eexists _, _. split; [done|]. split; [|done]. split; [done|]. split; [apply (H' 0%nat)|]. exists [], (evs ++ [(LEJPCB_VAL_STR_CHUNK, π, acc ++ [c])]).
    split_and!; try done; [unfold LEJP_STRING_CHUNK; cbn; lia|..].
    + rewrite bool_decide_eq_false_2 by done. unfold view. destruct (sees_path _ _ _ _ _ (H' 0%nat)) as [Ep _].
      cbn [set_npos set_buf path ppos npos buf] in Ep |- *. by rewrite Ep, Et, <- app_assoc.
    + intros rest. rewrite Hev', <- app_assoc. cbn [str_events]. by rewrite Ec.
  - eexists _, _. split; [done|]. split; [|done]. split; [done|]. split; [apply (H' (S (length acc)))|]. exists (acc ++ [c]), evs.
    split_and!; cbn; rewrite ?length_app, ?Nat.add_1_r; try done; [apply Nat.eqb_neq in Ec; lia|].
    intros rest. rewrite Hev'. cbn [str_events]. by rewrite Ec.
Qed.

Lemma str_value_ok s t ctx B π ip u :
  sees ctx B LEJP_MP_VALUE π ip → Forall piece_ok s → (length B < 11)%nat →
  ∃ ctx', loop (token_text (TStr s) ++ t) ctx u = loop t ctx' (u ++ events π (JStr s)) ∧ sees ctx' B LEJP_MP_COMMA_OR_END π ip.
Proof.
  intros H Hs HB. cbn [token_text app]. destruct (sees_path _ _ _ _ _ H) as [_ Hπ].
  destruct (set_state_ok ctx B _ LEJP_MP_COMMA_OR_END π ip H) as (ctx1 & E1 & H1 & Eb1 & _); [done|].
  pose proof (se_buf _ _ _ _ _ H1) as Hlb. set (ctx2 := set_buf (<[0%nat := 0]> (buf ctx1)) (set_npos 0 ctx1)).
  assert (sees ctx2 B LEJP_MP_COMMA_OR_END π ip) as H2 by (apply set_buf_ok; [by apply set_npos_ok|by rewrite length_insert]).
  set (u1 := u ++ [(LEJPCB_VAL_STR_START, π, [])]).
  destruct (push_ok LEJP_MP_STRING ctx2 B _ π ip u1 H2) as (ctx3 & b & E3 & H3 & En3 & Eb3); [done|done|by rewrite dotted_same by tauto|].
  rewrite dotted_same in H3 by tauto.
  set (e := Stack LEJP_MP_COMMA_OR_END false (length π) ip b) in *.
  assert (char QUOTE ctx u = Ok (Continue, ctx3, u1)) as E.
  { rewrite (char_switch _ _ _ _ _ _ _ H) by (done || by left). cbn [lejp_switch]. unfold case_value. cbn [is_digit QUOTE Z.leb Z.eqb Z.compare Pos.compare Pos.compare_cont andb Pos.eqb].
    rewrite E1, res_bind_ok. rewrite (store_ok (buf ctx1) 0) by lia. rewrite res_bind_ok. cbv zeta. fold ctx2. unfold call_or_reject, logger at 1.
    cbn [Z.eqb negb]. rewrite bool_decide_eq_false_2 by done. unfold view. destruct (sees_path _ _ _ _ _ H2) as [-> _]. exact E3. }
  rewrite (loop_continue _ _ _ _ _ _ E), <- app_assoc.
  destruct (string_step (in_value (B ++ [e]) π ip u1) (length (str_bytes s)) ltac:(intros ? ? ? ? (_ & ? & _); eauto))
    with (s := s) (b := @nil Z) (t := [QUOTE] ++ t) (ctx := ctx3) (u := u1) as (ctx4 & u4 & E4 & H4); [..|done|].
  - intros s0 b0 c ctx0 u0 H0 _. by apply emit_value.
  - intros s0 s' b0 ctx0 u0 (Hs0 & H0 & Hrest) Hs'. destruct (set_state_ok ctx0 _ _ s' _ _ H0) as (ctx' & -> & H' & Eb & En & Eu & _); [done|].
    exists ctx'. split; [done|]. split; [|done]. unfold in_value. by rewrite Eb, En.
  - intros s0 b0 ctx0 u0 x (Hs0 & [Hst Hsp' Hd Hp Hpp Hpl Hi Hil Hw Hb] & Hrest). split; [done|]. split; [by split|done].
  - done.
  - split; [done|]. split; [done|]. exists [], []. rewrite app_nil_r. split_and!; try done. unfold LEJP_STRING_CHUNK. cbn. lia.
  - cbn [app] in *. rewrite E4. destruct H4 as (_ & H4 & acc & evs & En4 & Et4 & Hacc & -> & Hev). specialize (Hev []).
    rewrite app_nil_r in Hev. pose proof (se_buf _ _ _ _ _ H4) as Hlb4.
    set (ctx5 := set_buf (<[length acc := 0]> (buf ctx4)) ctx4).
    assert (sees ctx5 (B ++ [e]) LEJP_MP_STRING π ip) as H5 by (apply set_buf_ok; [done|by rewrite length_insert]).
    eexists. split; [|apply (pop_ok ctx5 B e _ _ _ H5); done]. cbn [events]. rewrite Hev. cbn [str_events].
    apply loop_continue. rewrite (char_switch _ _ _ _ _ _ _ H4) by (done || by right). cbn [lejp_switch]. unfold case_string. cbn [Z.eqb QUOTE Pos.eqb].
    rewrite (sees_below _ _ _ _ _ _ H4), (se_sp _ _ _ _ _ H4), length_app. cbn [length]. rewrite (proj2 (Nat.eqb_neq _ _)) by lia. rewrite res_bind_ok.
    rewrite bool_decide_eq_false_2 by done. cbn [negb]. rewrite En4, store_ok by lia. rewrite res_bind_ok. fold ctx5. unfold logger. cbn [Z.ltb Z.compare].
    rewrite bool_decide_eq_false_2 by done. unfold view. destruct (sees_path _ _ _ _ _ H5) as [-> _]. cbn [ctx5 set_buf npos buf sp]. rewrite En4.
    rewrite take_insert_ge, Et4 by done. unfold u1. rewrite (se_sp _ _ _ _ _ H4), length_app, <- !app_assoc. done.
Qed.

(** *** Words *)

Lemma set_uni_ok n ctx B s π ip : sees ctx B s π ip → sees (set_uni n ctx) B s π ip.
Proof. intros [Hst Hsp Hd Hp Hpp Hpl Hi Hil Hw Hb]. by split. Qed.

Lemma word_char c k t' ctx B π ip u : sees ctx B LEJP_MP_VALUE_TOK π ip → uni ctx = k → elem tokens k = Ok c → elem tokens (k + 1) = Ok t' →
  c ≠ 10 → 0 <= k < 65535 → t' ≠ 32 → char c ctx u = Ok (Continue, set_uni (k + 1) ctx, u).
Proof.
  intros H Ek Ec Et Hc Hk Ht. rewrite (char_switch _ _ _ _ _ _ _ H) by (done || by right). cbn [lejp_switch]. unfold case_tok.
  rewrite Ek, Ec, res_bind_ok, Z.eqb_refl. cbn [negb set_uni uni]. rewrite u16_small, Et, res_bind_ok, (proj2 (Z.eqb_neq _ _)) by (done || lia). done.
Qed.

Lemma word_last c k r text ctx B π ip u : sees ctx B LEJP_MP_VALUE_TOK π ip → uni ctx = k → elem tokens k = Ok c → elem tokens (k + 1) = Ok 32 →
  c ≠ 10 → 0 <= k < 65535 → tok_end (k + 1) = Some (r, text ++ [0]) → no_nul text → (length text < 10)%nat →
  r = LEJPCB_VAL_TRUE ∨ r = LEJPCB_VAL_FALSE ∨ r = LEJPCB_VAL_NULL →
  ∃ ctx', char c ctx u = Ok (Continue, ctx', u ++ [(r, π, text)]) ∧ sees ctx' B LEJP_MP_COMMA_OR_END π ip.
Proof.
  intros H Ek Ec Et Hc Hk Er Hn Hl Hr. rewrite (char_switch _ _ _ _ _ _ _ H) by (done || by right). cbn [lejp_switch]. unfold case_tok.
  rewrite Ek, Ec, res_bind_ok, Z.eqb_refl. cbn [negb set_uni uni]. rewrite u16_small, Et, res_bind_ok, Z.eqb_refl by lia. cbn [negb set_uni uni buf].
  rewrite Er. pose proof (se_buf _ _ _ _ _ H) as Hb. rewrite memcpy_Ok by (rewrite length_app; unfold LEJP_STRING_CHUNK in Hb; cbn; lia). rewrite res_bind_ok. cbv zeta.
  set (ctx1 := set_buf _ _). assert (sees ctx1 B LEJP_MP_VALUE_TOK π ip) as H1.
  { apply set_buf_ok; [by apply set_uni_ok|]. cbn. rewrite length_blit; [done|]. rewrite length_app. unfold LEJP_STRING_CHUNK in Hb. cbn. lia. }
  unfold call_or_reject, logger at 1. cbn [Z.eqb negb]. destruct (set_state_ok ctx1 B _ LEJP_MP_COMMA_OR_END π ip H1) as (ctx2 & -> & H2 & _); [done|].
  rewrite res_bind_ok. exists ctx2. split; [|done]. do 3 f_equal. rewrite bool_decide_eq_false_2 by (by destruct Hr as [-> |[-> | ->]]). do 2 f_equal.
  destruct (sees_path _ _ _ _ _ H1) as [Ep _]. assert (default [] (c_str (buf ctx1)) = text) as Eb.
  { cbn [ctx1 set_buf buf]. unfold blit. rewrite take_0, app_nil_l, <- app_assoc. cbn [app]. by rewrite c_str_terminated. }
  by destruct Hr as [-> |[-> | ->]]; cbn [view]; rewrite Ep, Eb.
Qed.

(** The middle of a word. *)
Lemma word_chars cs pre x rest t ctx B π ip u : tokens = pre ++ cs ++ x :: rest → Forall (λ c, c ≠ 32 ∧ c ≠ 10) cs → x ≠ 32 →
  sees ctx B LEJP_MP_VALUE_TOK π ip → uni ctx = Z.of_nat (length pre) →
  ∃ ctx', loop (cs ++ t) ctx u = loop t ctx' u ∧ sees ctx' B LEJP_MP_VALUE_TOK π ip ∧ uni ctx' = Z.of_nat (length (pre ++ cs)).
Proof.
  intros Et Hcs Hx. revert pre ctx Et. induction Hcs as [|c cs [Hc Hn] Hcs IH]; intros pre ctx Et H Eu; [exists ctx; by rewrite app_nil_r|].
  assert (length pre < 100)%nat as Hpre by (apply (f_equal length) in Et; rewrite length_app in Et; cbn in Et; lia).
  assert (∃ y l, cs ++ x :: rest = y :: l ∧ y ≠ 32) as (y & l & Ey & Hy) by (destruct Hcs as [|c' cs' [? ?] ?]; cbn; eauto).
  cbn [app]. destruct (IH (pre ++ [c]) (set_uni (Z.of_nat (length pre) + 1) ctx)) as (ctx' & E & H' & Eu').
  - rewrite Et, <- app_assoc. done.
  - by apply set_uni_ok.
  - rewrite length_app. cbn. lia.
  - exists ctx'. rewrite <- app_assoc in Eu'. split_and!; [|done|done]. rewrite <- E. apply loop_continue.
    eapply (word_char c (Z.of_nat (length pre)) y); try done; [rewrite Et; cbn [app]; by apply elem_app| |lia].
    rewrite Et. cbn [app]. rewrite Ey. replace (pre ++ c :: y :: l) with ((pre ++ [c]) ++ y :: l) by (by rewrite <- app_assoc).
    apply elem_app. rewrite length_app. cbn. lia.
Qed.

Lemma word_ok w t ctx B π ip u : sees ctx B LEJP_MP_VALUE π ip →
  ∃ ctx', loop (token_text (TWord w) ++ t) ctx u = loop t ctx' (u ++ events π (JWord w)) ∧ sees ctx' B LEJP_MP_COMMA_OR_END π ip.
Proof.
  intros H. set (c := match w with WTrue => 116 | WFalse => 102 | WNull => 110 end).
  set (pre := match w with WTrue => [] | WFalse => bs "rue " | WNull => bs "rue alse " end).
  set (cs := match w with WTrue => bs "ru" | WFalse => bs "als" | WNull => bs "ul" end).
  set (x := match w with WTrue => 101 | WFalse => 101 | WNull => 108 end).
  set (rest := match w with WTrue => bs " alse ull " ++ [0] | WFalse => bs " ull " ++ [0] | WNull => bs " " ++ [0] end).
  set (k := match w with WTrue => 0 | WFalse => 4 | WNull => 9 end).
  destruct (set_state_ok (set_uni k ctx) B _ LEJP_MP_VALUE_TOK π ip (set_uni_ok _ _ _ _ _ _ H)) as (ctx1 & E & H1 & _ & _ & Eu & _); [done|].
  assert (char c ctx u = Ok (Continue, ctx1, u)) as E1.
  { rewrite (char_switch _ _ _ _ _ _ _ H) by (destruct w; done || by left). cbn [lejp_switch]. unfold case_value.
    destruct w; cbv [c is_digit]; cbn [Z.leb Z.eqb Z.compare Pos.compare Pos.compare_cont andb orb Pos.eqb QUOTE]; cbv [k] in E; by rewrite E. }
  destruct (word_chars cs pre x rest (x :: t) ctx1 B π ip u) as (ctx2 & E2 & H2 & Eu2); [by destruct w|destruct w; by_compute|by destruct w|done|rewrite Eu; by destruct w|].
  destruct (word_last x (Z.of_nat (length (pre ++ cs))) (word_event w π).1.1 (word_event w π).2 ctx2 B π ip u) as (ctx3 & E3 & H3);
    [done|done|by destruct w|by destruct w|by destruct w|destruct w; cbn; lia|by destruct w|destruct w; by_compute|destruct w; cbn; lia|destruct w; cbn; tauto|].
  exists ctx3. split; [|done]. replace (token_text (TWord w) ++ t) with (c :: cs ++ x :: t) by (by destruct w).
  rewrite (loop_continue _ _ _ _ _ _ E1), E2, (loop_continue _ _ _ _ _ _ E3). by destruct w.
Qed.

(** *** Numbers *)

(** The number so far is [txt], with [d] digits and the flags [f]. *)
Definition in_num (ctx : lejp_ctx) (B : list stack) (s : lejp_states) (π : list Z) (ip : nat) (txt : list Z) (d f : Z) : Prop :=
  sees ctx B s π ip ∧ npos ctx = length txt ∧ take (length txt) (buf ctx) = txt ∧ dcount ctx = d ∧ numf ctx = f.

Lemma append_ok c ctx B s π ip txt d f (u : list event) : in_num ctx B s π ip txt d f → (length txt < 100)%nat →
  ∃ ctx', append_npos c ctx u = Ok (Continue, ctx', u) ∧ in_num ctx' B s π ip (txt ++ [c]) d f.
Proof.
  intros (H & En & Et & Ed & Ef) Hl. pose proof (se_buf _ _ _ _ _ H) as Hb. unfold LEJP_STRING_CHUNK in *. unfold append_npos, LEJP_STRING_CHUNK. rewrite En.
  rewrite (proj2 (Nat.leb_gt _ _)) by lia. rewrite store_ok by lia. rewrite res_bind_ok. eexists. split; [done|].
  split; [apply set_npos_ok, set_buf_ok; [done|by rewrite length_insert]|]. cbn. rewrite length_app, Nat.add_1_r. split_and!; try done. apply take_insert_snoc; [done|lia].
Qed.

Lemma num_state s' ctx B s π ip txt d f f' d' : in_num ctx B s π ip txt d f → s' ≠ LEJP_MP_VALUE →
  ∃ ctx', set_state s' (set_dcount d' (set_numf f' ctx)) = Ok ctx' ∧ in_num ctx' B s' π ip txt d' f'.
Proof.
  intros (H & En & Et & _) Hs. assert (sees (set_dcount d' (set_numf f' ctx)) B s π ip) as H' by (destruct H; by split).
  destruct (set_state_ok _ _ _ s' _ _ H') as (ctx' & E & H1 & Eb & En' & _ & Ed & Ef & _); [done|]. exists ctx'. split; [done|].
  split; [done|]. rewrite Eb, En', Ed, Ef. done.
Qed.

Lemma num_set ctx B s π ip txt d f d' f' : in_num ctx B s π ip txt d f → in_num (set_dcount d' (set_numf f' ctx)) B s π ip txt d' f'.
Proof. intros (H & En & Et & _). split; [destruct H; by split|done]. Qed.

(** The flags after a digit. *)
Definition after_digit (f : Z) : Z := if negb (Z.land f LEJP_SEEN_POINT =? 0) then Z.lor f LEJP_SEEN_POST_POINT else f.

Lemma num_switch c ctx B s π ip txt d f u : in_num ctx B s π ip txt d f → ws_keep s = true → c ≠ 10 → char c ctx u = lejp_switch logger paths s c ctx u.
Proof. intros (H & _) Hs Hc. apply (char_switch c ctx B s π ip u H); [by right|done]. Qed.

Lemma digit_ok c ctx B π ip txt d f u : in_num ctx B LEJP_MP_VALUE_NUM_INT π ip txt d f → is_digit c = true → d < 20 → (length txt < 100)%nat →
  ∃ ctx', char c ctx u = Ok (Continue, ctx', u) ∧ in_num ctx' B LEJP_MP_VALUE_NUM_INT π ip (txt ++ [c]) (d + 1) (after_digit f).
Proof.
  intros H Hc Hd Hl. pose proof (proj1 (is_digit_iff c) Hc) as Hr. rewrite (num_switch c _ _ _ _ _ _ _ _ _ H) by (done || lia). cbn [lejp_switch].
  unfold case_num_int. pose proof H as (_ & _ & _ & Ed & Ef). rewrite (proj2 (Z.eqb_neq c 45)), andb_false_r, Ed, (proj2 (Z.ltb_lt _ _)), Hc, Ef by lia. cbn [andb].
  apply append_ok; [by eapply num_set|done].
Qed.

Lemma digits_ok ds t ctx B π ip txt d f u :
  in_num ctx B LEJP_MP_VALUE_NUM_INT π ip txt d f → Forall (λ c, is_digit c = true) ds → d + Z.of_nat (length ds) <= 20 →
  (length txt + length ds < 100)%nat → after_digit (after_digit f) = after_digit f →
  ∃ ctx', loop (ds ++ t) ctx u = loop t ctx' u ∧ in_num ctx' B LEJP_MP_VALUE_NUM_INT π ip (txt ++ ds) (d + Z.of_nat (length ds)) (if ds is [] then f else after_digit f).
Proof.
  intros H Hds. revert ctx txt d f H. induction Hds as [|c ds Hc Hds IH]; intros ctx txt d f H Hd Hl Hf.
  - exists ctx. cbn [length app]. by rewrite app_nil_r, Z.add_0_r.
  - cbn [length] in *. destruct (digit_ok c ctx B π ip txt d f u H Hc) as (ctx1 & E1 & H1); [lia|lia|].
    destruct (IH ctx1 (txt ++ [c]) (d + 1) (after_digit f) H1) as (ctx2 & E2 & H2); [lia|rewrite length_app; cbn; lia|congruence|].
    exists ctx2. cbn [app]. rewrite (loop_continue _ _ _ _ _ _ E1), E2. split; [done|]. rewrite <- app_assoc in H2. cbn [app] in H2.
    replace (d + 1 + Z.of_nat (length ds)) with (d + Z.of_nat (S (length ds))) in H2 by lia. destruct ds; [done|by rewrite Hf in H2].
Qed.

(** The first digit of a value. *)
Lemma first_digit_ok c t ctx B π ip u : sees ctx B LEJP_MP_VALUE π ip → is_digit c = true →
  ∃ ctx', loop (c :: t) ctx u = loop t ctx' u ∧ in_num ctx' B LEJP_MP_VALUE_NUM_INT π ip [c] 1 0.
Proof.
  intros H Hc. pose proof (proj1 (is_digit_iff c) Hc) as Hr. set (ctx0 := set_npos 0 ctx).
  assert (in_num ctx0 B LEJP_MP_VALUE π ip [] (dcount ctx) (numf ctx)) as H0 by (split; [by apply set_npos_ok|done]).
  assert (∃ ctx1, set_state LEJP_MP_VALUE_NUM_INT (set_numf 0 (set_dcount 0 ctx0)) = Ok ctx1 ∧ in_num ctx1 B LEJP_MP_VALUE_NUM_INT π ip [] 0 0) as (ctx1 & E1 & H1).
  { by apply (num_state _ _ _ _ _ _ _ _ _ 0 0 H0). }
  destruct (digit_ok c ctx1 B π ip [] 0 0 u H1 Hc) as (ctx2 & E2 & H2); [lia|cbn; lia|]. exists ctx2. split; [|exact H2].
  apply (loop_redo _ _ _ _ ctx1 u); [|exact E2]. rewrite (char_switch _ _ _ _ _ _ _ H) by (lia || (left; unfold is_ws; zcases; cbn; lia || done)).
  cbn [lejp_switch]. unfold case_value. rewrite Hc. fold ctx0. by rewrite E1.
Qed.

Lemma point_ok ctx t B π ip txt d u : in_num ctx B LEJP_MP_VALUE_NUM_INT π ip txt d 0 → 0 < d → (0 < length txt < 100)%nat →
  ∃ ctx', loop (DOT :: t) ctx u = loop t ctx' u ∧ in_num ctx' B LEJP_MP_VALUE_NUM_INT π ip (txt ++ [DOT]) d 2.
Proof.
  intros H Hd Hl. pose proof H as (_ & En & _ & Ed & Ef).
  destruct (append_ok DOT _ _ _ _ _ _ _ _ u (num_set _ _ _ _ _ _ _ _ d 2 H)) as (ctx' & E & H'); [lia|]. exists ctx'. split; [|done]. apply loop_continue.
  rewrite (num_switch _ _ _ _ _ _ _ _ _ _ H) by done. cbn [lejp_switch]. unfold case_num_int. rewrite En, Ed, Ef, (proj2 (Nat.eqb_neq _ _)) by lia.
  cbn [andb is_digit DOT Z.leb Z.compare Pos.compare Pos.compare_cont Z.eqb Pos.eqb]. rewrite andb_false_r, (proj2 (Z.eqb_neq _ _)) by lia. cbn [orb Z.land Z.eqb negb LEJP_SEEN_POINT].
  rewrite <- Ed in E. destruct ctx. exact E.
Qed.

Lemma exp_letter_ok x ctx t B π ip txt d f u : in_num ctx B LEJP_MP_VALUE_NUM_INT π ip txt d f → x = 101 ∨ x = 69 → f = 0 ∨ f = 6 → (0 < length txt < 100)%nat →
  ∃ ctx', loop (x :: t) ctx u = loop t ctx' u ∧ in_num ctx' B LEJP_MP_VALUE_NUM_EXP π ip (txt ++ [x]) d (Z.lor f 8).
Proof.
  intros H Hx Hf Hl. pose proof H as (_ & En & _ & Ed & Ef). destruct (num_state LEJP_MP_VALUE_NUM_EXP _ _ _ _ _ _ _ _ (Z.lor f 8) d H) as (ctx1 & E1 & H1); [done|].
  destruct (append_ok x _ _ _ _ _ _ _ _ u H1) as (ctx' & E & H'); [lia|]. exists ctx'. split; [|done]. apply loop_continue.
  rewrite (num_switch _ _ _ _ _ _ _ _ _ _ H) by (done || lia). cbn [lejp_switch]. unfold case_num_int. rewrite En, Ef, (proj2 (Nat.eqb_neq _ _)) by lia.
  assert (set_numf (Z.lor f 8) ctx = set_dcount d (set_numf (Z.lor f 8) ctx)) as Es by (rewrite <- Ed; by destruct ctx).
  trans (set_state LEJP_MP_VALUE_NUM_EXP (set_numf (Z.lor f 8) ctx) ≫= λ c, append_npos x c u); [|rewrite Es, E1; exact E].
  by destruct Hx as [-> | ->], Hf as [-> | ->]; cbn; rewrite andb_false_r.
Qed.

(** The sign and digits of an exponent. *)
Lemma exp_digits_ok sign ds ctx t B π ip txt d f u : in_num ctx B LEJP_MP_VALUE_NUM_EXP π ip txt d f → sign = [] ∨ sign = [43] ∨ sign = [45] → digits ds →
  f = 8 ∨ f = 14 → d + Z.of_nat (length ds) <= 20 → (length txt + length ds + 1 < 100)%nat →
  ∃ ctx', loop (sign ++ ds ++ t) ctx u = loop t ctx' u ∧ in_num ctx' B LEJP_MP_VALUE_NUM_INT π ip (txt ++ sign ++ ds) (d + Z.of_nat (length ds)) f.
Proof.
  intros H Hsign [Hds Hdig] Hf Hd Hl. assert (after_digit f = f) as Haf by (by destruct Hf as [-> | ->]).
  destruct (num_state LEJP_MP_VALUE_NUM_INT _ _ _ _ _ _ _ _ f d H) as (ctx1 & E1 & H1); [done|].
  assert (set_dcount d (set_numf f ctx) = ctx) as Es by (destruct H as (_ & _ & _ & <- & <-); by destruct ctx). rewrite Es in E1.
  assert (∀ c, c ≠ 10 → char c ctx u = case_num_exp c ctx u) as Hch by (intros c Hc; by apply (num_switch _ _ _ _ _ _ _ _ _ _ H)).
  destruct ds as [|c ds]; [done|]. assert (sign = [] ∨ ∃ c, sign = [c] ∧ (c = 43 ∨ c = 45)) as [->|(c' & -> & Hc')] by naive_solver.
  - inversion Hdig as [|? ? Hc Hdig']; subst. cbn [app length] in *. pose proof (proj1 (is_digit_iff c) Hc) as Hr.
    destruct (digit_ok c ctx1 B π ip txt d f u H1 Hc) as (ctx2 & E2 & H2); [lia|lia|].
    destruct (digits_ok ds t ctx2 B π ip (txt ++ [c]) (d + 1) (after_digit f) u H2 Hdig') as (ctx3 & E3 & H3); [lia|rewrite length_app; cbn; lia|congruence|].
    exists ctx3. split.
    + rewrite <- E3. apply (loop_redo _ _ _ _ ctx1 u); [|exact E2]. rewrite Hch by lia. unfold case_num_exp. by rewrite E1, res_bind_ok, Hc.
    + rewrite <- app_assoc, !Haf in H3. replace (d + Z.of_nat (S (length ds))) with (d + 1 + Z.of_nat (length ds)) by lia. by destruct ds.
  - destruct (append_ok c' ctx1 B _ π ip txt d f u H1) as (ctx2 & E2 & H2); [lia|].
    destruct (digits_ok (c :: ds) t ctx2 B π ip (txt ++ [c']) d f u H2 Hdig) as (ctx3 & E3 & H3); [lia|rewrite length_app; cbn in *; lia|congruence|].
    exists ctx3. split; [|by rewrite <- app_assoc, Haf in H3]. rewrite <- E3. cbn [app]. apply loop_continue. rewrite Hch by lia. unfold case_num_exp.
    rewrite E1, res_bind_ok. by destruct Hc' as [-> | ->].
Qed.

(** After a value a character is looked at again once at most. *)
Lemma array_end_no_redo c ctx (u : list event) v ctx' u' : array_end logger c ctx u = Ok (v, ctx', u') → v ≠ Redo.
Proof.
  unfold array_end, logger. intros E. apply bind_Ok_inv in E as (ctx1 & _ & E). destruct (c =? 44).
  - do 4 (apply bind_Ok_inv in E as (? & _ & E)). by injection E as <- _ _.
  - destruct (negb (c =? 93)); [by injection E as <- _ _|]. apply bind_Ok_inv in E as (? & _ & E). by injection E as <- _ _.
Qed.

Lemma comma_redo c ctx (u : list event) ctx' u' : case_comma_or_end logger paths c ctx u = Ok (Redo, ctx', u') →
  c = 93 ∧ ∃ e, top ctx' = Ok e ∧ st_s e = LEJP_MP_ARRAY_END.
Proof.
  unfold case_comma_or_end, call_or_reject, logger. intros E. apply bind_Ok_inv in E as (ctx1 & _ & E).
  destruct (c =? 44); [|destruct (Z.eqb_spec c 93) as [->|]].
  - apply bind_Ok_inv in E as (ctx2 & _ & E). destruct (_ =? _)%nat; [done|]. apply bind_Ok_inv in E as (e & _ & E). apply bind_Ok_inv in E as (ctx3 & _ & E).
    cbv zeta in E. destruct (negb _); [done|]. do 2 (apply bind_Ok_inv in E as (? & _ & E)). done.
  - destruct (_ =? _)%nat; [done|]. cbv zeta in E. apply bind_Ok_inv in E as (e & Et & E). destruct (bool_decide _) eqn:Es; cbn in E; [|done].
    apply bind_Ok_inv in E as (ctx2 & Edrop & E). injection E as <- _. split; [done|]. exists e. split; [|by apply bool_decide_eq_true in Es].
    rewrite <- Et. unfold drop_path, end_path, drop_match in Edrop. unfold top. apply bind_Ok_inv in Edrop as (ctx3 & E3 & Edrop).
    apply bind_Ok_inv in Edrop as (ctx4 & E4 & Edrop). apply bind_Ok_inv in E4 as (l & _ & E4). injection E4 as <-. injection Edrop as <-.
    assert (st ctx3 = st ctx1 ∧ sp ctx3 = sp (set_sp (sp ctx1 - 1) ctx1)) as [E5 E6].
    { destruct (_ =? _)%nat; [by injection E3 as <-|]. apply bind_Ok_inv in E3 as (e3 & _ & E3). by injection E3 as <-. }
    by destruct (_ && _); cbn; rewrite E5, E6.
  - destruct (c =? 125); [|done]. destruct (_ =? _)%nat; repeat (apply bind_Ok_inv in E as (? & _ & E)); done.
Qed.

Lemma redo_enough c ctx B π ip u : sees ctx B LEJP_MP_COMMA_OR_END π ip → lejp_redo logger paths 2 c ctx u = lejp_redo logger paths 1 c ctx u.
Proof.
  intros H. cbn [lejp_redo]. destruct (char c ctx u) as [[[v ctx1] u1]|] eqn:E; [|done]. rewrite !res_bind_ok. destruct v; try done.
  assert (c = 93 ∧ ∃ e, top ctx1 = Ok e ∧ st_s e = LEJP_MP_ARRAY_END) as (-> & e & Et & Es).
  { destruct (is_ws c) eqn:Hws.
    - unfold lejp_char in E. destruct (sees_top _ _ _ _ _ H) as (e & Et & Es & Ec). rewrite Et, res_bind_ok, Es, Hws in E. cbn [andb negb ws_keep] in E.
      repeat (apply bind_Ok_inv in E as (? & _ & E)). done.
    - rewrite (char_switch _ _ _ _ _ _ _ H) in E; [by apply comma_redo in E|by left|by intros ->]. }
  destruct (char 93 ctx1 u1) as [[[v ctx2] u2]|] eqn:E2; [|done]. rewrite !res_bind_ok. destruct v; try done. exfalso.
  unfold lejp_char in E2. rewrite Et, res_bind_ok, Es in E2. cbn [Z.eqb Pos.eqb] in E2. rewrite res_bind_ok in E2. cbn [is_ws Z.eqb Pos.eqb orb andb] in E2. rewrite Et, res_bind_ok in E2.
  destruct (st_comment e); [done|]. by apply array_end_no_redo in E2.
Qed.

(** What can follow a number. *)
Definition ends_number (c : Z) : Prop := is_ws c = true ∨ c = 44 ∨ c = 93 ∨ c = 125.

Lemma number_end c t ctx B π ip txt d f u : in_num ctx B LEJP_MP_VALUE_NUM_INT π ip txt d f → ends_number c → 0 < d → (0 < length txt < 100)%nat →
  f = 0 ∨ f = 6 ∨ f = 8 ∨ f = 14 →
  ∃ ctx', loop (c :: t) ctx u = loop (c :: t) ctx' (u ++ [(if negb (Z.land f LEJP_SEEN_POINT =? 0) then LEJPCB_VAL_NUM_FLOAT else LEJPCB_VAL_NUM_INT, π, txt)])
    ∧ sees ctx' B LEJP_MP_COMMA_OR_END π ip.
Proof.
  intros H Hc Hd Hl Hf. set (r := if negb (Z.land f LEJP_SEEN_POINT =? 0) then LEJPCB_VAL_NUM_FLOAT else LEJPCB_VAL_NUM_INT).
  assert (is_digit c = false ∧ c ≠ 45 ∧ c ≠ DOT ∧ c ≠ 101 ∧ c ≠ 69) as (Hdig & H45 & Hdot & H101 & H69).
  { unfold ends_number, is_ws in Hc. assert (c ∈ [32; 9; 10; 13; 35; 44; 93; 125]) as Hin by (rewrite !elem_of_cons; zcases; cbn in Hc; intuition congruence).
    repeat (apply elem_of_cons in Hin as [->|Hin]; [by vm_compute|]). by apply not_elem_of_nil in Hin. }
  assert (∀ ctx0, in_num ctx0 B LEJP_MP_VALUE_NUM_INT π ip txt d f → ∃ ctx', case_num_int logger c ctx0 u = Ok (Redo, ctx', u ++ [(r, π, txt)])
    ∧ sees ctx' B LEJP_MP_COMMA_OR_END π ip) as Hcase.
  { clear H ctx. intros ctx H. pose proof H as (Hs & En & Et & Ed & Ef). unfold case_num_int. rewrite Hdig, andb_false_r, !(proj2 (Z.eqb_neq c _)), andb_false_r by done. cbn [orb].
    rewrite Ef, Ed. assert ((Z.land f (Z.lor LEJP_SEEN_POINT LEJP_SEEN_POST_POINT) =? LEJP_SEEN_POINT) = false) as -> by (by destruct Hf as [->|[->|[->| ->]]]).
    rewrite (proj2 (Z.eqb_neq d 0)) by lia. pose proof (se_buf _ _ _ _ _ Hs) as Hb. unfold LEJP_STRING_CHUNK in Hb. rewrite En, store_ok by lia. rewrite res_bind_ok. cbv zeta.
    set (ctx1 := set_buf _ ctx). change (numf ctx1) with (numf ctx). rewrite Ef. fold r.
    assert (sees ctx1 B LEJP_MP_VALUE_NUM_INT π ip) as H1 by (apply set_buf_ok; [done|by rewrite length_insert]).
    destruct (set_state_ok ctx1 _ _ LEJP_MP_COMMA_OR_END _ _ H1) as (ctx2 & E2 & H2 & _); [done|]. unfold call_or_reject, logger. cbn [Z.eqb negb]. rewrite E2, res_bind_ok.
    exists ctx2. split; [|done]. do 4 f_equal. destruct (sees_path _ _ _ _ _ H1) as [Ep _].
    rewrite bool_decide_eq_false_2 by (unfold r; by destruct (negb _)). do 2 f_equal.
    assert (take (npos ctx1) (buf ctx1) = txt) as Eb by (cbn [ctx1 set_buf npos buf]; by rewrite En, take_insert_ge).
    unfold r. by destruct (negb _); cbn [view]; rewrite Ep, Eb. }
  assert (∃ ctx', char c ctx u = Ok (Redo, ctx', u ++ [(r, π, txt)]) ∧ sees ctx' B LEJP_MP_COMMA_OR_END π ip) as (ctx' & E & H').
  { destruct (Z.eqb_spec c 10) as [->|Hn]; [|rewrite (num_switch _ _ _ _ _ _ _ _ _ _ H) by done; by apply Hcase].
    pose proof H as (Hs & En & Et & Ed & Ef). destruct (sees_top _ _ _ _ _ Hs) as (e & Etop & Es & Ec). unfold lejp_char. rewrite Etop, res_bind_ok, Es. cbn [Z.eqb Pos.eqb].
    assert (set_comment false (set_line (u32 (line ctx + 1)) ctx) = Ok (set_line (u32 (line ctx + 1)) ctx)) as ->.
    { destruct (se_st _ _ _ _ _ Hs) as (e' & A & E' & _). unfold set_comment, top in *. cbn [set_line st sp]. rewrite Etop, res_bind_ok.
      rewrite (se_sp _ _ _ _ _ Hs), E', elem_app in Etop by done. injection Etop as ->. rewrite (se_sp _ _ _ _ _ Hs), E', store_app by done. rewrite res_bind_ok.
      destruct e as [s0 cm p i b]. cbn in Ec |- *. subst cm. destruct ctx. cbn in E' |- *. by rewrite E'. }
    rewrite res_bind_ok. cbn [ws_keep negb]. rewrite andb_false_r. change (top (set_line (u32 (line ctx + 1)) ctx)) with (top ctx). rewrite Etop, res_bind_ok, Ec. cbn [lejp_switch].
    apply Hcase. split; [by apply set_line_ok|done]. }
  exists ctx'. split; [|done]. cbn [lejp_loop]. rewrite (redo_enough c ctx' B π ip _ H'). remember 1%nat as one. cbn [lejp_redo]. rewrite E, res_bind_ok. by subst one.
Qed.

Lemma num_value_ok n c t ctx B π ip u : sees ctx B LEJP_MP_VALUE π ip → number_ok n → ends_number c →
  ∃ ctx', loop (token_text (TNum n) ++ c :: t) ctx u = loop (c :: t) ctx' (u ++ events π (JNum n)) ∧ sees ctx' B LEJP_MP_COMMA_OR_END π ip.
Proof.
  intros H ([Hne Hint] & Hfrac & Hexp & Hlen) Hc. unfold number_digits in Hlen. destruct n as [ds fr ex]. cbn [num_int num_frac num_exp token_text number_text] in *.
  destruct ds as [|d0 ds]; [done|]. inversion Hint as [|? ? Hd0 Hds]; subst. cbn [length] in Hlen.
  destruct (first_digit_ok d0 (ds ++ match fr with Some f => DOT :: f | None => [] end ++ match ex with Some (x, sign, es) => x :: sign ++ es | None => [] end ++ c :: t) ctx B π ip u H Hd0)
    as (ctx1 & E1 & H1).
  destruct (digits_ok ds (match fr with Some f => DOT :: f | None => [] end ++ match ex with Some (x, sign, es) => x :: sign ++ es | None => [] end ++ c :: t) ctx1 B π ip [d0] 1 0 u H1 Hds)
    as (ctx2 & E2 & H2); [lia|cbn; lia|done|].
  assert (in_num ctx2 B LEJP_MP_VALUE_NUM_INT π ip (d0 :: ds) (1 + Z.of_nat (length ds)) 0) as H2' by (by destruct ds). clear H2.
  assert (∃ ctx3 f, loop (match fr with Some f => DOT :: f | None => [] end ++ match ex with Some (x, sign, es) => x :: sign ++ es | None => [] end ++ c :: t) ctx2 u
    = loop (match ex with Some (x, sign, es) => x :: sign ++ es | None => [] end ++ c :: t) ctx3 u ∧ f = (if fr is Some _ then 6 else 0)
    ∧ in_num ctx3 B LEJP_MP_VALUE_NUM_INT π ip (d0 :: ds ++ match fr with Some f => DOT :: f | None => [] end)
        (1 + Z.of_nat (length ds) + Z.of_nat (length (default [] fr))) f) as (ctx3 & f & E3 & Hf & H3).
  { destruct fr as [fs|]; [|exists ctx2, 0; cbn [default from_option length Z.of_nat app]; rewrite app_nil_r, Z.add_0_r; done]. destruct Hfrac as [Hfne Hfs]. cbn [default from_option id] in *.
    cbn [app]. destruct (point_ok ctx2 (fs ++ match ex with Some (x, sign, es) => x :: sign ++ es | None => [] end ++ c :: t) B π ip _ _ u H2') as (c3 & E & Hc3); [lia|cbn; lia|].
    destruct (digits_ok fs (match ex with Some (x, sign, es) => x :: sign ++ es | None => [] end ++ c :: t) c3 B π ip _ _ _ u Hc3 Hfs) as (c4 & E4 & H4); [lia|rewrite length_app; cbn; lia|done|].
    exists c4, 6. split_and!; [by rewrite E, E4|done|]. rewrite <- app_assoc in H4. cbn [app] in H4. by destruct fs. }
  assert (∃ ctx4 f4, loop (match ex with Some (x, sign, es) => x :: sign ++ es | None => [] end ++ c :: t) ctx3 u = loop (c :: t) ctx4 u
    ∧ (f4 = f ∨ f4 = Z.lor f 8) ∧ ∃ d, 0 < d ∧ in_num ctx4 B LEJP_MP_VALUE_NUM_INT π ip
        ((d0 :: ds ++ match fr with Some f => DOT :: f | None => [] end) ++ match ex with Some (x, sign, es) => x :: sign ++ es | None => [] end) d f4)
    as (ctx4 & f4 & E4 & Hf4 & d & Hd & H4).
  { destruct ex as [[[x sign] es]|]; [|exists ctx3, f; split_and!; [done|by left|]; eexists; rewrite app_nil_r; split; [|exact H3]; lia].
    destruct Hexp as (Hx & Hsign & Hes). assert (length (match fr with Some f => DOT :: f | None => [] end) ≤ 20)%nat by (destruct fr; cbn in *; lia).
    cbn [app]. rewrite <- app_assoc.
    destruct (exp_letter_ok x ctx3 (sign ++ es ++ c :: t) B π ip _ _ f u H3 Hx) as (c4 & E & Hc4); [destruct fr; tauto|cbn; rewrite length_app; lia|].
    destruct (exp_digits_ok sign es c4 (c :: t) B π ip _ _ _ u Hc4 Hsign Hes) as (c5 & E5 & H5); [destruct fr; subst f; cbn; tauto|lia|rewrite length_app; cbn; rewrite length_app; lia|].
    exists c5, (Z.lor f 8). split_and!; [by rewrite E, E5|by right|]. eexists. split; [|rewrite <- app_assoc in H5; exact H5]. lia. }
  destruct (number_end c t ctx4 B π ip _ d f4 u H4 Hc Hd) as (ctx5 & E5 & H5).
  { assert (length (match fr with Some f => DOT :: f | None => [] end) ≤ 20)%nat by (destruct fr; cbn in *; lia).
    assert (length (match ex with Some (x, sign, es) => x :: sign ++ es | None => [] end) ≤ 22)%nat.
    { destruct ex as [[[x sign] es]|]; [|cbn; lia]. destruct Hexp as (_ & Hsign & _). cbn. rewrite length_app. destruct Hsign as [->|[->| ->]]; cbn; lia. }
    rewrite length_app. cbn. rewrite length_app. lia. }
  { destruct fr, Hf4; subst; cbn; tauto. }
  exists ctx5. split; [|done]. unfold number_text. cbn [num_int num_frac num_exp]. rewrite <- !app_assoc. cbn [app]. rewrite E1, E2, E3, E4, E5. do 2 f_equal.
  cbn [events num_frac]. unfold number_text. cbn [num_int num_frac num_exp]. cbn [app]. rewrite <- app_assoc. do 3 f_equal. destruct fr, Hf4; subst; done.
Qed.

(** *** Punctuation *)

(** The level below, if any, remembers a prefix of the path and the indices in use. *)
Definition inv (B : list stack) (π : list Z) (ip : nat) : Prop :=
  match last B with
  | None => True
  | Some e => (st_p e ≤ length π)%nat ∧ st_i e = ip ∧ st_comment e = false ∧ (st_s e = LEJP_MP_COMMA_OR_END ∨ st_s e = LEJP_MP_ARRAY_END)
  end.

(** The indices in use when a level ends that had [ip0] of them. *)
Definition up_ip (B : list stack) (ip ip0 : nat) : nat := match last B with None => ip | Some _ => ip0 end.

(** The path when a level ends. *)
Definition up (B : list stack) (π : list Z) : list Z := match last B with None => π | Some e => take (st_p e) π end.

Lemma log_call r ctx (u : list event) k : r ≠ LEJPCB_START → call_or_reject logger r ctx u k = k (u ++ [view ctx r]).
Proof. intros Hr. unfold call_or_reject, logger. cbn [Z.eqb negb]. by rewrite bool_decide_eq_false_2. Qed.

Lemma colon_ok ctx B π ip u : sees ctx B LEJP_MP_DELIM π ip →
  ∃ ctx', char 58 ctx u = Ok (Continue, ctx', u ++ [(LEJPCB_PAIR_NAME, π, [])]) ∧ sees ctx' B LEJP_MP_VALUE π ip.
Proof.
  intros H. destruct (end_path_ok _ _ _ _ _ H) as (ctx1 & E1 & H1 & Hz & _). destruct (set_state_ok _ _ _ LEJP_MP_VALUE _ _ H1) as (ctx2 & E2 & H2 & _ & _ & _ & _ & _ & Ep2); [done|].
  assert (∃ ctx0, set_state LEJP_MP_VALUE ctx = Ok ctx0 ∧ end_path ctx0 = Ok ctx2) as (ctx0 & E0 & E0').
  { unfold set_state, top, end_path in *. destruct (elem (st ctx) _) as [e|] eqn:Ee; cbn in *; [|by destruct (store _ _ 0); cbn in *; simplify_eq; cbn in *; rewrite Ee in E2].
    destruct (store (path ctx) _ 0) as [l|] eqn:El; cbn in *; [|done]. injection E1 as <-. cbn in *. rewrite Ee in E2. cbn in E2.
    destruct (store (st ctx) _ _) as [l2|]; cbn in *; [|done]. injection E2 as <-. eexists. split; [done|]. cbn. by rewrite El. }
  destruct (check_match_ok ctx2 B _ π ip H2) as (ctx3 & E3 & H3 & _); [by rewrite Ep2|]. exists ctx3. split; [|done].
  rewrite (char_switch _ _ _ _ _ _ _ H) by (done || by left). cbn [lejp_switch Z.eqb Pos.eqb negb]. rewrite E0, res_bind_ok, E0', res_bind_ok, E3, res_bind_ok, log_call by done.
  cbn [view]. by destruct (sees_path _ _ _ _ _ H3) as [-> _].
Qed.

Lemma drop_path_ok ctx B s π ip ip0 : sees ctx B s π ip → s ≠ LEJP_MP_VALUE → inv B π ip0 → (ip0 ≤ LEJP_MAX_INDEX_DEPTH)%nat →
  ∃ ctx', drop_path ctx = Ok ctx' ∧ sees ctx' B s (up B π) (up_ip B ip ip0) ∧ path ctx' !! length (up B π) = Some 0.
Proof.
  intros H Hs Hi Hip0. unfold drop_path, up, up_ip, inv in *. assert (∃ ctx1, (if (sp ctx =? 0)%nat then Ok ctx else e ← below ctx; Ok (set_ipos (st_i e) (set_ppos (st_p e) ctx))) = Ok ctx1
    ∧ sees ctx1 B s (match last B with None => π | Some e => take (st_p e) π end) (match last B with None => ip | Some _ => ip0 end)) as (ctx1 & -> & H1).
  { rewrite (se_sp _ _ _ _ _ H). destruct B as [|e B _] using rev_ind; [by exists ctx|]. rewrite last_snoc in *. destruct Hi as (Hp & <- & _).
    rewrite length_app. cbn [length]. rewrite (proj2 (Nat.eqb_neq _ _)), (sees_below _ _ _ _ _ _ H), res_bind_ok by lia. eexists. split; [done|].
    eapply set_ipos_ok; [by apply shorten_ok|done]. }
  rewrite res_bind_ok. destruct (end_path_ok _ _ _ _ _ H1) as (ctx2 & -> & H2 & Hz & _). rewrite res_bind_ok. eexists. split; [done|].
  destruct (drop_match_ok _ _ _ _ _ H2) as (H3 & Ep & _). split; [done|]. by rewrite Ep.
Qed.

Lemma next_index_ok ctx B s π ip : sees ctx B s π ip → ∃ ctx', next_index ctx = Ok ctx' ∧ sees ctx' B s π ip ∧ path ctx' = path ctx.
Proof.
  intros H. unfold next_index. rewrite (se_ipos _ _ _ _ _ H). destruct (se_ilen _ _ _ _ _ H) as [Hl Hi]. destruct (Nat.eqb_spec ip 0) as [|Hip]; [by exists ctx|].
  replace (Z.of_nat ip - 1) with (Z.of_nat (ip - 1)) by lia. destruct (lookup_lt_is_Some_2 (idx ctx) (ip - 1)) as [n En]; [lia|].
  rewrite (elem_ok _ _ _ En), res_bind_ok, store_ok by lia. rewrite res_bind_ok. eexists. split; [done|]. split; [|done]. destruct H. split; cbn; try done. by rewrite length_insert.
Qed.

(** A comma of an object, of an array, and of the outermost object. *)
Lemma comma_member_ok ctx B e π ip u : sees ctx (B ++ [e]) LEJP_MP_COMMA_OR_END π ip → st_s e = LEJP_MP_COMMA_OR_END → (st_p e ≤ length π)%nat →
  ∃ ctx', char 44 ctx u = Ok (Continue, ctx', u) ∧ sees ctx' (B ++ [e]) LEJP_M_P (take (st_p e) π) ip.
Proof.
  intros H He Hp. rewrite (char_switch _ _ _ _ _ _ _ H) by (done || by left). cbn [lejp_switch]. unfold case_comma_or_end.
  destruct (end_path_ok _ _ _ _ _ H) as (ctx1 & -> & H1 & _). rewrite res_bind_ok. cbn [Z.eqb Pos.eqb]. destruct (set_state_ok _ _ _ LEJP_M_P _ _ H1) as (ctx2 & -> & H2 & _); [done|].
  rewrite res_bind_ok, (se_sp _ _ _ _ _ H2), length_app. cbn [length]. rewrite (proj2 (Nat.eqb_neq _ _)), (sees_below _ _ _ _ _ _ H2), res_bind_ok by lia.
  destruct (end_path_ok _ _ _ _ _ (shorten_ok (st_p e) _ _ _ _ _ H2 Hp ltac:(done))) as (ctx3 & -> & H3 & _). rewrite res_bind_ok, He. cbv zeta.
  rewrite bool_decide_eq_false_2 by done. cbn [negb]. eexists. split; [done|]. by apply drop_match_ok.
Qed.

Lemma comma_element_ok ctx B e π ip u : sees ctx (B ++ [e]) LEJP_MP_COMMA_OR_END π ip → st_s e = LEJP_MP_ARRAY_END → (st_p e ≤ length π)%nat →
  ∃ ctx', char 44 ctx u = Ok (Continue, ctx', u) ∧ sees ctx' (B ++ [e]) LEJP_MP_VALUE (take (st_p e) π) ip.
Proof.
  intros H He Hp. rewrite (char_switch _ _ _ _ _ _ _ H) by (done || by left). cbn [lejp_switch]. unfold case_comma_or_end.
  destruct (end_path_ok _ _ _ _ _ H) as (ctx1 & -> & H1 & _). rewrite res_bind_ok. cbn [Z.eqb Pos.eqb]. destruct (set_state_ok _ _ _ LEJP_M_P _ _ H1) as (ctx2 & -> & H2 & _); [done|].
  rewrite res_bind_ok, (se_sp _ _ _ _ _ H2), length_app. cbn [length]. rewrite (proj2 (Nat.eqb_neq _ _)), (sees_below _ _ _ _ _ _ H2), res_bind_ok by lia.
  destruct (end_path_ok _ _ _ _ _ (shorten_ok (st_p e) _ _ _ _ _ H2 Hp ltac:(done))) as (ctx3 & -> & H3 & Hz & _). rewrite res_bind_ok, He. cbv zeta.
  rewrite bool_decide_eq_true_2 by done. cbn [negb]. destruct (drop_match_ok _ _ _ _ _ H3) as (H4 & Ep4 & _).
  destruct (next_index_ok _ _ _ _ _ H4) as (ctx5 & -> & H5 & Ep5). rewrite res_bind_ok.
  destruct (set_state_ok _ _ _ LEJP_MP_VALUE _ _ H5) as (ctx6 & -> & H6 & _); [intros _; by rewrite Ep5, Ep4|]. rewrite res_bind_ok. by exists ctx6.
Qed.

Lemma comma_root_ok ctx π ip u : sees ctx [] LEJP_MP_COMMA_OR_END π ip →
  ∃ ctx', char 44 ctx u = Ok (Continue, ctx', u) ∧ sees ctx' [] LEJP_M_P [] ip.
Proof.
  intros H. rewrite (char_switch _ _ _ _ _ _ _ H) by (done || by left). cbn [lejp_switch]. unfold case_comma_or_end.
  destruct (end_path_ok _ _ _ _ _ H) as (ctx1 & -> & H1 & _). rewrite res_bind_ok. cbn [Z.eqb Pos.eqb]. destruct (set_state_ok _ _ _ LEJP_M_P _ _ H1) as (ctx2 & -> & H2 & _); [done|].
  rewrite res_bind_ok, (se_sp _ _ _ _ _ H2). cbn. eexists. split; [done|]. assert (sees (set_ppos 0 ctx2) [] LEJP_M_P [] ip) as H3 by (by apply (shorten_ok 0 _ _ _ π); [done|lia|]).
  destruct H3. by split.
Qed.

Lemma open_array_ok ctx B π ip u : sees ctx B LEJP_MP_VALUE π ip → (length B < 11)%nat → (length π + 2 < LEJP_MAX_PATH)%nat → (ip < LEJP_MAX_INDEX_DEPTH)%nat →
  ∃ ctx' b, char 91 ctx u = Ok (Continue, ctx', u ++ [(LEJPCB_ARRAY_START, π ++ [91; 93], [])])
    ∧ sees ctx' (B ++ [Stack LEJP_MP_ARRAY_END false (length (π ++ [91; 93])) (S ip) b]) LEJP_MP_VALUE (π ++ [91; 93]) (S ip).
Proof.
  intros H HB Hπ Hip. rewrite (char_switch _ _ _ _ _ _ _ H) by (done || by left). cbn [lejp_switch]. unfold case_value. cbn [is_digit QUOTE Z.leb Z.eqb Z.compare Pos.compare Pos.compare_cont andb Pos.eqb].
  destruct (set_state_ok _ _ _ LEJP_MP_ARRAY_END _ _ H) as (ctx1 & -> & H1 & _); [done|]. rewrite res_bind_ok.
  destruct (push_path_ok 91 _ _ _ _ _ H1) as (ctx2 & -> & H2 & _); [done|lia|]. rewrite res_bind_ok.
  destruct (push_path_ok 93 _ _ _ _ _ H2) as (ctx3 & -> & H3 & _); [done|rewrite length_app; cbn; lia|]. rewrite res_bind_ok, <- app_assoc in *. cbn [app] in *.
  destruct (end_path_ok _ _ _ _ _ H3) as (ctx4 & -> & H4 & _). rewrite res_bind_ok, log_call by done. cbn [view]. destruct (sees_path _ _ _ _ _ H4) as [-> Hl].
  destruct (se_ilen _ _ _ _ _ H4) as [Hil _]. rewrite (se_ipos _ _ _ _ _ H4), store_ok by lia. rewrite res_bind_ok. cbv zeta. set (ctx5 := set_ipos _ _).
  rewrite (proj2 (Nat.ltb_ge _ _)) by (cbn; lia).
  assert (sees ctx5 B LEJP_MP_ARRAY_END (π ++ [91; 93]) (S ip)) as H5 by (eapply set_ipos_ok; [|lia]; destruct H4; split; cbn; try done; by rewrite length_insert).
  destruct (push_ok LEJP_MP_VALUE ctx5 B _ _ _ (u ++ [(LEJPCB_ARRAY_START, π ++ [91; 93], [])]) H5) as (ctx6 & b & E6 & H6 & _); [done|done|by rewrite dotted_same by tauto|].
  rewrite dotted_same in H6 by tauto. by exists ctx6, b.
Qed.

Lemma open_object_ok ctx B π ip u : sees ctx B LEJP_MP_VALUE π ip → (length B < 11)%nat →
  ∃ ctx' b, char 123 ctx u = Ok (Continue, ctx', u ++ [(LEJPCB_OBJECT_START, π, [])])
    ∧ sees ctx' (B ++ [Stack LEJP_MP_COMMA_OR_END false (length π) ip b]) LEJP_MEMBERS π ip.
Proof.
  intros H HB. rewrite (char_switch _ _ _ _ _ _ _ H) by (done || by left). cbn [lejp_switch]. unfold case_value. cbn [is_digit QUOTE Z.leb Z.eqb Z.compare Pos.compare Pos.compare_cont andb Pos.eqb].
  destruct (se_path _ _ _ _ _ H) as (x & rest & Ep & Hx). rewrite Hx in Ep by done.
  destruct (set_state_ok _ _ _ LEJP_MP_COMMA_OR_END _ _ H) as (ctx1 & -> & H1 & _ & _ & _ & _ & _ & Ep1); [done|]. rewrite res_bind_ok.
  destruct (check_match_ok ctx1 B _ π ip H1) as (ctx2 & -> & H2 & _); [by rewrite Ep1, Ep, lookup_app_r, Nat.sub_diag by lia|]. rewrite res_bind_ok, log_call by done. cbn [view].
  destruct (sees_path _ _ _ _ _ H2) as [-> Hl].
  assert (sees (set_path_match 0 ctx2) B LEJP_MP_COMMA_OR_END π ip) as H3 by (destruct H2; by split).
  destruct (push_ok LEJP_MEMBERS _ B _ _ _ (u ++ [(LEJPCB_OBJECT_START, π, [])]) H3) as (ctx4 & b & E4 & H4 & _); [done|done|by rewrite dotted_same by tauto|].
  rewrite dotted_same in H4 by tauto. by exists ctx4, b.
Qed.

(** The ] of an array, in state LEJP_MP_ARRAY_END of the level it ends on. *)
Lemma array_end_ok ctx B π ip u : sees ctx B LEJP_MP_ARRAY_END π ip →
  ∃ ctx', array_end logger 93 ctx u = Ok (Continue, ctx', u ++ [(LEJPCB_ARRAY_END, [], [])]) ∧ sees ctx' B LEJP_MP_COMMA_OR_END π ip.
Proof.
  intros H. unfold array_end. destruct (end_path_ok _ _ _ _ _ H) as (ctx1 & -> & H1 & _). rewrite res_bind_ok. cbn [Z.eqb Pos.eqb negb].
  destruct (set_state_ok _ _ _ LEJP_MP_COMMA_OR_END _ _ H1) as (ctx2 & -> & H2 & _); [done|]. rewrite res_bind_ok. by exists ctx2.
Qed.

Lemma pop_array ctx B e s π ip ip0 : sees ctx (B ++ [e]) s π ip → st_s e = LEJP_MP_ARRAY_END → st_comment e = false → inv B π ip0 →
  (ip0 ≤ LEJP_MAX_INDEX_DEPTH)%nat →
  let ctx1 := set_sp (sp ctx - 1) ctx in
  (sp ctx =? 0)%nat = false ∧ ∃ e1 ctx2, top ctx1 = Ok e1 ∧ st_s e1 = LEJP_MP_ARRAY_END ∧ drop_path ctx1 = Ok ctx2 ∧ sees ctx2 B LEJP_MP_ARRAY_END (up B π) (up_ip B ip ip0).
Proof.
  intros H He Hc Hi Hip0 ctx1. split; [rewrite (se_sp _ _ _ _ _ H), length_app; cbn; apply Nat.eqb_neq; lia|].
  pose proof (pop_ok _ _ _ _ _ _ H Hc ltac:(by rewrite He)) as H1. rewrite He in H1. destruct (sees_top _ _ _ _ _ H1) as (e1 & Et & Es & _).
  destruct (drop_path_ok _ _ _ _ _ _ H1 ltac:(done) Hi Hip0) as (ctx2 & E & H2 & _). by exists e1, ctx2.
Qed.

Lemma close_array_ok t ctx B e s π ip ip0 u : sees ctx (B ++ [e]) s π ip → s = LEJP_MP_COMMA_OR_END ∨ s = LEJP_MP_VALUE →
  st_s e = LEJP_MP_ARRAY_END → st_comment e = false → inv B π ip0 → (ip0 ≤ LEJP_MAX_INDEX_DEPTH)%nat →
  ∃ ctx', loop (93 :: t) ctx u = loop t ctx' (u ++ [(LEJPCB_ARRAY_END, [], [])]) ∧ sees ctx' B LEJP_MP_COMMA_OR_END (up B π) (up_ip B ip ip0).
Proof.
  intros H Hs He Hc Hi Hip0. destruct Hs as [-> | ->].
  - destruct (end_path_ok _ _ _ _ _ H) as (ctx1 & E1 & H1 & _). destruct (pop_array _ _ _ _ _ _ _ H1 He Hc Hi Hip0) as (Hsp & e1 & ctx2 & Et & Ee & E2 & H2).
    destruct (array_end_ok ctx2 B _ _ u H2) as (ctx3 & E3 & H3). exists ctx3. split; [|done]. apply (loop_redo _ _ _ _ ctx2 u).
    + rewrite (char_switch _ _ _ _ _ _ _ H) by (done || by left). cbn [lejp_switch]. unfold case_comma_or_end. rewrite E1, res_bind_ok. cbn [Z.eqb Pos.eqb]. rewrite Hsp. cbv zeta.
      rewrite Et, res_bind_ok, bool_decide_eq_true_2 by done. cbn [negb]. by rewrite E2.
    + by rewrite (char_switch _ _ _ _ _ _ _ H2) by (done || by left).
  - destruct (pop_array _ _ _ _ _ _ _ H He Hc Hi Hip0) as (Hsp & e1 & ctx2 & Et & Ee & E2 & H2). destruct (array_end_ok ctx2 B _ _ u H2) as (ctx3 & E3 & H3). exists ctx3.
    split; [|done]. apply loop_continue. rewrite (char_switch _ _ _ _ _ _ _ H) by (done || by left). cbn [lejp_switch]. unfold case_value.
    cbn [is_digit QUOTE Z.leb Z.eqb Z.compare Pos.compare Pos.compare_cont andb Pos.eqb]. rewrite Hsp. cbv zeta. rewrite Et, res_bind_ok, bool_decide_eq_true_2 by done. cbn [negb].
    by rewrite E2, res_bind_ok.
Qed.

Lemma close_object_ok ctx B e π ip u : sees ctx (B ++ [e]) LEJP_MP_COMMA_OR_END π ip → st_s e = LEJP_MP_COMMA_OR_END → st_comment e = false → inv B π ip →
  ∃ ctx', char 125 ctx u = Ok (Continue, ctx', u ++ [(LEJPCB_OBJECT_END, [], [])]) ∧ sees ctx' B LEJP_MP_COMMA_OR_END (up B π) ip.
Proof.
  intros H He Hc Hi. rewrite (char_switch _ _ _ _ _ _ _ H) by (done || by left). cbn [lejp_switch]. unfold case_comma_or_end.
  destruct (end_path_ok _ _ _ _ _ H) as (ctx1 & -> & H1 & _). rewrite res_bind_ok. cbn [Z.eqb Pos.eqb].
  rewrite (proj2 (Nat.eqb_neq (sp ctx1) 0)) by (rewrite (se_sp _ _ _ _ _ H1), length_app; cbn; lia).
  pose proof (pop_ok _ _ _ _ _ _ H1 Hc ltac:(by rewrite He)) as H2. rewrite He in H2.
  destruct (drop_path_ok _ _ _ _ _ _ H2 ltac:(done) Hi (proj2 (se_ilen _ _ _ _ _ H))) as (ctx3 & -> & H3 & Hz).
  assert (up_ip B ip ip = ip) as Eip by (unfold up_ip; by destruct (last B)). rewrite Eip in H3.
  rewrite res_bind_ok. destruct (check_match_ok ctx3 B _ _ ip H3 Hz) as (ctx4 & -> & H4 & _). rewrite res_bind_ok, log_call by done. by exists ctx4.
Qed.

Lemma close_root_ok t ctx π ip u : sees ctx [] LEJP_MP_COMMA_OR_END π ip →
  ∃ ctx', loop (125 :: t) ctx u = Ok (Z.of_nat (length t), ctx', u ++ [(LEJPCB_OBJECT_END, [], []); (LEJPCB_COMPLETE, [], [])]).
Proof.
  intros H. assert (∃ ctx', char 125 ctx u = Ok (Complete, ctx', u ++ [(LEJPCB_OBJECT_END, [], []); (LEJPCB_COMPLETE, [], [])])) as [ctx' E].
  { rewrite (char_switch _ _ _ _ _ _ _ H) by (done || by left). cbn [lejp_switch]. unfold case_comma_or_end.
    destruct (end_path_ok _ _ _ _ _ H) as (ctx1 & -> & H1 & Hz & _). rewrite res_bind_ok. cbn [Z.eqb Pos.eqb]. rewrite (se_sp _ _ _ _ _ H1). cbn [length Nat.eqb].
    destruct (check_match_ok ctx1 [] _ _ ip H1 Hz) as (ctx4 & -> & H4 & _). rewrite res_bind_ok, log_call by done. eexists. cbn. by rewrite <- app_assoc. }
  exists ctx'. cbn [lejp_loop lejp_redo]. by rewrite E.
Qed.

(** *** Documents *)

Lemma json_ind' (P : json → Prop) :
  (∀ s, P (JStr s)) → (∀ n, P (JNum n)) → (∀ w, P (JWord w)) → (∀ l, Forall P l → P (JArr l)) → (∀ l, Forall (λ m, P m.2) l → P (JObj l)) → ∀ v, P v.
Proof.
  intros Hs Hn Hw Ha Ho. fix go 1. intros [s|n|w|l|l]; [apply Hs|apply Hn|apply Hw|apply Ha|apply Ho].
  - induction l as [|v l IH]; constructor; [apply go|exact IH].
  - induction l as [|[s v] l IH]; constructor; [apply go|exact IH].
Qed.

Lemma fits_arr n p i l : fits n p i (JArr l) →
  (n < 11)%nat ∧ (p + 2 < LEJP_MAX_PATH)%nat ∧ (i < LEJP_MAX_INDEX_DEPTH)%nat ∧ Forall (fits (S n) (p + 2) (S i)) l.
Proof. intros (Hn & Hp & Hi & Hl). split_and!; try done. clear Hn Hp Hi. induction l as [|v l IH]; [done|]. destruct Hl. constructor; [done|by apply IH]. Qed.

Definition member_fits (n p i : nat) (m : list piece * json) : Prop :=
  let p := ((if p =? 0 then 0 else p + 1) + length (str_bytes m.1))%nat in
  Forall piece_ok m.1 ∧ (p < LEJP_MAX_PATH)%nat ∧ fits n p i m.2.

Lemma fits_obj n p i l : fits n p i (JObj l) → (n < 10)%nat ∧ l ≠ [] ∧ Forall (member_fits (S n) p i) l.
Proof. intros (Hn & Hne & Hl). split_and!; try done. clear Hn Hne. induction l as [|[s v] l IH]; [done|]. destruct Hl. constructor; [done|by apply IH]. Qed.

(** The next token, after blanks. *)
Lemma spaced_token t ts text ctx B s π ip u : spaced (t :: ts) text → sees ctx B s π ip → ws_keep s = false →
  ∃ ctx' text', loop text ctx u = loop (token_text t ++ text') ctx' u ∧ spaced ts text' ∧ sees ctx' B s π ip.
Proof.
  intros Hsp H Hs. inversion Hsp as [|w t' ts' text' Hw Hts]; subst. destruct (blank_ok w (token_text t ++ text') ctx B s π ip u Hw H Hs) as (ctx' & E & H').
  by exists ctx', text'.
Qed.

Lemma spaced_head c ts text : spaced (TChar c :: ts) text → c = 44 ∨ c = 93 ∨ c = 125 → ∃ c0 t0, text = c0 :: t0 ∧ ends_number c0.
Proof.
  intros Hsp Hc. inversion Hsp as [|w t' ts' text' Hw Hts]; subst. destruct Hw as [|c0 l Hin Hw|x l Hx Hw]; cbn.
  - eexists _, _. split; [done|]. by right.
  - eexists _, _. split; [done|]. left. by apply is_ws_in.
  - eexists _, _. split; [done|]. by left.
Qed.

(** What a value leaves of the path. *)
Definition kept (B : list stack) (π π' : list Z) : Prop :=
  match last B with None => True | Some e => (st_p e ≤ length π')%nat ∧ take (st_p e) π' = take (st_p e) π end.

(** An array of the outermost object leaves its index behind. *)
Definition ip_after (B : list stack) (v : json) (ip : nat) : nat :=
  match B, v with [], JArr _ => S ip | _, _ => ip end.

Definition reads (v : json) : Prop :=
  ∀ ctx B π ip u c ts text, sees ctx B LEJP_MP_VALUE π ip → inv B π ip → fits (length B) (length π) ip v → c = 44 ∨ c = 93 ∨ c = 125 →
  spaced (toks v ++ TChar c :: ts) text →
  ∃ ctx' π' text', loop text ctx u = loop text' ctx' (u ++ events π v) ∧ spaced (TChar c :: ts) text'
    ∧ sees ctx' B LEJP_MP_COMMA_OR_END π' (ip_after B v ip) ∧ kept B π π'.

Lemma kept_refl B π ip : inv B π ip → kept B π π.
Proof. unfold inv, kept. destruct (last B) as [e|]; [|done]. by intros (Hp & _). Qed.

Lemma reads_str s : reads (JStr s).
Proof.
  intros ctx B π ip u c ts text H Hi [Hs HB] Hc Hsp. cbn [toks app] in Hsp. destruct (spaced_token _ _ _ _ _ _ _ _ u Hsp H eq_refl) as (ctx1 & text1 & -> & Hsp1 & H1).
  destruct (str_value_ok s text1 ctx1 B π ip u H1 Hs HB) as (ctx2 & -> & H2). exists ctx2, π, text1. split_and!; try done; [by destruct B|by eapply kept_refl].
Qed.

Lemma reads_word w : reads (JWord w).
Proof.
  intros ctx B π ip u c ts text H Hi _ Hc Hsp. cbn [toks app] in Hsp. destruct (spaced_token _ _ _ _ _ _ _ _ u Hsp H eq_refl) as (ctx1 & text1 & -> & Hsp1 & H1).
  destruct (word_ok w text1 ctx1 B π ip u H1) as (ctx2 & -> & H2). exists ctx2, π, text1. split_and!; try done; [by destruct B|by eapply kept_refl].
Qed.

Lemma reads_num n : reads (JNum n).
Proof.
  intros ctx B π ip u c ts text H Hi Hn Hc Hsp. cbn [toks app] in Hsp. destruct (spaced_token _ _ _ _ _ _ _ _ u Hsp H eq_refl) as (ctx1 & text1 & -> & Hsp1 & H1).
  destruct (spaced_head _ _ _ Hsp1 Hc) as (c0 & t0 & -> & Hc0). destruct (num_value_ok n c0 t0 ctx1 B π ip u H1 Hn Hc0) as (ctx2 & -> & H2).
  exists ctx2, π, (c0 :: t0). split_and!; try done; [by destruct B|by eapply kept_refl].
Qed.

(** A level below that remembers all of the path. *)
Lemma inv_snoc B e π ip : st_p e = length π → st_i e = ip → st_comment e = false → st_s e = LEJP_MP_COMMA_OR_END ∨ st_s e = LEJP_MP_ARRAY_END → inv (B ++ [e]) π ip.
Proof. intros Hp Hi Hc Hs. unfold inv. rewrite last_snoc. split_and!; try done. lia. Qed.

Lemma kept_snoc B e π π' : kept (B ++ [e]) π π' → st_p e = length π → (length π ≤ length π')%nat ∧ take (length π) π' = π.
Proof. unfold kept. rewrite last_snoc. intros [Hl Ht] Hp. rewrite Hp in *. split; [done|]. by rewrite Ht, take_ge. Qed.

Lemma ip_after_snoc B e v ip : ip_after (B ++ [e]) v ip = ip.
Proof. by destruct B. Qed.

Lemma ip_after_arr B l ip : ip_after B (JArr l) ip = up_ip B (S ip) ip.
Proof. destruct B as [|e B _] using rev_ind; [done|]. unfold up_ip. by rewrite last_snoc, ip_after_snoc. Qed.

(** The elements of an array, and the ] behind them. *)
Lemma reads_elements l ctx B e π ip u ts text :
  Forall reads l → l ≠ [] → Forall (fits (S (length B)) (length π) ip) l → sees ctx (B ++ [e]) LEJP_MP_VALUE π ip →
  st_p e = length π → st_i e = ip → st_comment e = false → st_s e = LEJP_MP_ARRAY_END → spaced (commas (toks <$> l) ++ TChar 93 :: ts) text →
  ∃ ctx' π' text', loop text ctx u = loop text' ctx' (u ++ concat (events π <$> l)) ∧ spaced (TChar 93 :: ts) text'
    ∧ sees ctx' (B ++ [e]) LEJP_MP_COMMA_OR_END π' ip ∧ (length π ≤ length π')%nat ∧ take (length π) π' = π.
Proof.
  intros Hr Hne Hf H Hp Hi Hc He Hsp. assert (inv (B ++ [e]) π ip) as Hinv by (apply inv_snoc; tauto).
  revert ctx u text Hne Hf H Hsp. induction Hr as [|v l Hv Hr IH]; intros ctx u text Hne Hf H Hsp; [done|]. inversion Hf as [|? ? Hfv Hfl]; subst.
  assert (fits (length (B ++ [e])) (length π) (st_i e) v) as Hfv' by (by rewrite length_app, Nat.add_1_r).
  destruct l as [|v2 l].
  - cbn [fmap list_fmap commas concat] in *. destruct (Hv _ _ _ _ u 93 ts text H Hinv Hfv') as (ctx' & π' & text' & E & Hsp' & H' & Hk); [tauto|done|].
    rewrite ip_after_snoc in H'. apply kept_snoc in Hk as [Hl' Ht']; [|done]. exists ctx', π', text'. rewrite app_nil_r. by split_and!.
  - cbn [fmap list_fmap commas] in Hsp. rewrite <- app_assoc in Hsp. cbn [app] in Hsp.
    destruct (Hv _ _ _ _ u 44 _ text H Hinv Hfv' (or_introl eq_refl) Hsp) as (ctx1 & π1 & text1 & E1 & Hsp1 & H1 & Hk). rewrite ip_after_snoc in H1. apply kept_snoc in Hk as [Hl1 Ht1]; [|done].
    destruct (spaced_token _ _ _ _ _ _ _ _ (u ++ events π v) Hsp1 H1 eq_refl) as (ctx2 & text2 & E2 & Hsp2 & H2). cbn [token_text app] in E2.
    destruct (comma_element_ok ctx2 B e π1 _ (u ++ events π v) H2 He) as (ctx3 & E3 & H3); [lia|]. rewrite Hp, Ht1 in H3.
    destruct (IH ctx3 (u ++ events π v) text2) as (ctx' & π' & text' & E' & Hrest); [done|done|done|exact Hsp2|].
    exists ctx', π', text'. split; [|done]. rewrite E1, E2, (loop_continue _ _ _ _ _ _ E3), E'. cbn [fmap list_fmap concat]. by rewrite <- app_assoc.
Qed.

Lemma reads_arr l : Forall reads l → reads (JArr l).
Proof.
  intros Hr ctx B π ip u c ts text H Hi (HB & Hπ & Hip & Hf)%fits_arr Hc Hsp. cbn [toks app] in Hsp. rewrite <- app_assoc in Hsp. cbn [app] in Hsp.
  destruct (spaced_token _ _ _ _ _ _ _ _ u Hsp H eq_refl) as (ctx1 & text1 & -> & Hsp1 & H1). cbn [token_text app].
  destruct (open_array_ok ctx1 B π ip u H1 HB Hπ Hip) as (ctx2 & b & E2 & H2). rewrite (loop_continue _ _ _ _ _ _ E2). set (e := Stack _ _ _ _ _) in *. set (π1 := π ++ [91; 93]) in *.
  set (u1 := u ++ _). assert (∃ ctx3 π3 text3 s, loop text1 ctx2 u1 = loop text3 ctx3 (u1 ++ concat (events π1 <$> l)) ∧ spaced (TChar 93 :: TChar c :: ts) text3
    ∧ sees ctx3 (B ++ [e]) s π3 (S ip) ∧ (s = LEJP_MP_COMMA_OR_END ∨ s = LEJP_MP_VALUE) ∧ (length π1 ≤ length π3)%nat ∧ take (length π1) π3 = π1)
    as (ctx3 & π3 & text3 & s & -> & Hsp3 & H3 & Hs & Hl3 & Ht3).
  { destruct l as [|v l].
    - exists ctx2, π1, text1, LEJP_MP_VALUE. cbn. rewrite app_nil_r. split_and!; try done; [tauto|by rewrite take_ge].
    - destruct (reads_elements (v :: l) ctx2 B e π1 (S ip) u1 (TChar c :: ts) text1) as (ctx3 & π3 & text3 & E3 & Hsp3 & H3 & Hk); [done|done| |done..|].
      + unfold π1. rewrite length_app. exact Hf.
      + exists ctx3, π3, text3, LEJP_MP_COMMA_OR_END. split_and!; try done; tauto. }
  destruct (spaced_token _ _ _ _ _ _ _ _ (u1 ++ concat (events π1 <$> l)) Hsp3 H3) as (ctx4 & text4 & -> & Hsp4 & H4); [by destruct Hs as [-> | ->]|]. cbn [token_text app].
  assert (inv B π3 ip ∧ kept B π (up B π3)) as [Hi3 Hk3].
  { unfold inv, kept, up in *. destruct (last B) as [e0|]; [|done]. destruct Hi as (Hp0 & Hrest). unfold π1 in *. rewrite length_app in *.
    assert (take (st_p e0) π3 = take (st_p e0) π) as Et.
    { rewrite <- (take_app_le π [91; 93] (st_p e0)) by lia. rewrite <- Ht3, take_take. f_equal. lia. }
    split; [split; [lia|done]|]. rewrite length_take. split; [lia|]. by rewrite take_take, Nat.min_id. }
  destruct (close_array_ok text4 ctx4 B e s π3 (S ip) ip (u1 ++ concat (events π1 <$> l)) H4 Hs eq_refl eq_refl Hi3) as (ctx5 & -> & H5); [lia|].
  exists ctx5, (up B π3), text4. split_and!; try done.
  - cbn [events]. fold π1. unfold u1. by rewrite <- !app_assoc.
  - by rewrite ip_after_arr.
Qed.

(** *** Objects *)

Lemma dotted_member π name : dotted LEJP_MP_DELIM π ++ name = member_path π name.
Proof. unfold dotted, member_path. destruct π as [|c π]; [done|]. rewrite bool_decide_eq_true_2 by done. rewrite (bool_decide_eq_false_2 (LEJP_MP_DELIM = LEJP_MP_COMMA_OR_END)), (bool_decide_eq_false_2 (LEJP_MP_DELIM = LEJP_MP_ARRAY_END)) by done. cbn. by rewrite <- app_assoc. Qed.

Lemma length_member π name : length (member_path π name) = ((if length π =? 0 then 0 else length π + 1) + length name)%nat.
Proof. destruct π as [|c π]; [done|]. unfold member_path. rewrite length_app. cbn [length Nat.eqb]. lia. Qed.

Lemma take_member π name n : (n ≤ length π)%nat → take n (member_path π name) = take n π.
Proof. intros Hn. destruct π as [|c π]; [by replace n with 0%nat by (cbn in Hn; lia)|]. unfold member_path. by rewrite take_app_le. Qed.

Definition member_events (π : list Z) (m : list piece * json) : list event :=
  let π := member_path π (str_bytes m.1) in (LEJPCB_PAIR_NAME, π, []) :: events π m.2.

Definition member_toks (m : list piece * json) : list token := TStr m.1 :: TChar 58 :: toks m.2.

Lemma reads_member m ctx B s0 π ip u c ts text :
  reads m.2 → sees ctx B s0 π ip → s0 = LEJP_M_P ∨ s0 = LEJP_MEMBERS → inv B π ip → (length B < 11)%nat → member_fits (length B) (length π) ip m →
  c = 44 ∨ c = 93 ∨ c = 125 → spaced (member_toks m ++ TChar c :: ts) text →
  ∃ ctx' π' text', loop text ctx u = loop text' ctx' (u ++ member_events π m) ∧ spaced (TChar c :: ts) text'
    ∧ sees ctx' B LEJP_MP_COMMA_OR_END π' (ip_after B m.2 ip) ∧ kept B π π'.
Proof.
  intros Hr H Hs0 Hi HB (Hs & Hp & Hf) Hc Hsp. unfold member_toks in Hsp. cbn [app] in Hsp. set (mp := member_path π (str_bytes m.1)).
  destruct (spaced_token _ _ _ _ _ _ _ _ u Hsp H) as (ctx1 & text1 & -> & Hsp1 & H1); [by destruct Hs0 as [-> | ->]|].
  pose proof (dotted_member π (str_bytes m.1)) as Edot. pose proof (length_member π (str_bytes m.1)) as Elen. fold mp in Edot, Elen.
  destruct (name_ok s0 m.1 text1 ctx1 B π ip u H1 Hs0 Hs HB) as (ctx2 & -> & H2); [rewrite <- length_app, Edot, Elen; exact Hp|]. rewrite Edot in H2.
  destruct (spaced_token _ _ _ _ _ _ _ _ u Hsp1 H2 eq_refl) as (ctx3 & text3 & -> & Hsp3 & H3). cbn [token_text app].
  destruct (colon_ok ctx3 B mp ip u H3) as (ctx4 & E4 & H4). rewrite (loop_continue _ _ _ _ _ _ E4).
  assert (inv B mp ip) as Hi'.
  { unfold inv in *. destruct (last B) as [e|]; [|done]. destruct Hi as [Hle Hrest]. split; [|done]. rewrite Elen. destruct (Nat.eqb_spec (length π) 0); lia. }
  destruct (Hr ctx4 B mp ip (u ++ [(LEJPCB_PAIR_NAME, mp, [])]) c ts text3 H4 Hi') as (ctx5 & π' & text5 & -> & Hsp5 & H5 & Hk); [by rewrite Elen|done|done|].
  exists ctx5, π', text5. split_and!; try done.
  - unfold member_events. fold mp. by rewrite <- app_assoc.
  - unfold kept, inv in *. destruct (last B) as [e|]; [|done]. destruct Hk as [Hl Ht]. split; [done|]. rewrite Ht. apply take_member. by destruct Hi.
Qed.

(** The members of an object below the outermost one. *)
Lemma reads_members l ctx B e s0 π ip u ts text :
  Forall (λ m, reads m.2) l → l ≠ [] → Forall (member_fits (S (length B)) (length π) ip) l → (length B < 10)%nat → sees ctx (B ++ [e]) s0 π ip →
  s0 = LEJP_M_P ∨ s0 = LEJP_MEMBERS → st_p e = length π → st_i e = ip → st_comment e = false → st_s e = LEJP_MP_COMMA_OR_END →
  spaced (commas (member_toks <$> l) ++ TChar 125 :: ts) text →
  ∃ ctx' π' text', loop text ctx u = loop text' ctx' (u ++ concat (member_events π <$> l)) ∧ spaced (TChar 125 :: ts) text'
    ∧ sees ctx' (B ++ [e]) LEJP_MP_COMMA_OR_END π' ip ∧ (length π ≤ length π')%nat ∧ take (length π) π' = π.
Proof.
  intros Hr Hne Hf HB H Hs0 Hp Hi Hc He Hsp. assert (inv (B ++ [e]) π ip) as Hinv by (apply inv_snoc; tauto).
  revert ctx s0 u text Hne Hf H Hs0 Hsp. induction Hr as [|m l Hm Hr IH]; intros ctx s0 u text Hne Hf H Hs0 Hsp; [done|]. inversion Hf as [|? ? Hfm Hfl]; subst.
  assert (member_fits (length (B ++ [e])) (length π) (st_i e) m) as Hfm' by (by rewrite length_app, Nat.add_1_r).
  assert (length (B ++ [e]) < 11)%nat as HB' by (rewrite length_app; cbn; lia). destruct l as [|m2 l].
  - cbn [fmap list_fmap commas concat] in *. destruct (reads_member m _ _ _ _ _ u 125 ts text Hm H Hs0 Hinv HB' Hfm') as (ctx' & π' & text' & E & Hsp' & H' & Hk); [tauto|done|].
    rewrite ip_after_snoc in H'. apply kept_snoc in Hk as [Hl' Ht']; [|done]. exists ctx', π', text'. rewrite app_nil_r. by split_and!.
  - cbn [fmap list_fmap commas] in Hsp. rewrite <- app_assoc in Hsp. cbn [app] in Hsp.
    destruct (reads_member m _ _ _ _ _ u 44 _ text Hm H Hs0 Hinv HB' Hfm' (or_introl eq_refl) Hsp) as (ctx1 & π1 & text1 & E1 & Hsp1 & H1 & Hk). rewrite ip_after_snoc in H1.
    apply kept_snoc in Hk as [Hl1 Ht1]; [|done]. set (u1 := u ++ member_events π m) in *.
    destruct (spaced_token _ _ _ _ _ _ _ _ u1 Hsp1 H1 eq_refl) as (ctx2 & text2 & E2 & Hsp2 & H2). cbn [token_text app] in E2.
    destruct (comma_member_ok ctx2 B e π1 _ u1 H2 He) as (ctx3 & E3 & H3); [lia|]. rewrite Hp, Ht1 in H3.
    destruct (IH ctx3 LEJP_M_P u1 text2) as (ctx' & π' & text' & E' & Hrest); [done|done|done|by left|exact Hsp2|].
    exists ctx', π', text'. split; [|done]. rewrite E1, E2, (loop_continue _ _ _ _ _ _ E3), E'. cbn [fmap list_fmap concat]. unfold u1. by rewrite <- app_assoc.
Qed.

Lemma reads_obj l : Forall (λ m, reads m.2) l → reads (JObj l).
Proof.
  intros Hr ctx B π ip u c ts text H Hi (HB & Hne & Hf)%fits_obj Hc Hsp. cbn [toks app] in Hsp. rewrite <- app_assoc in Hsp. cbn [app] in Hsp.
  destruct (spaced_token _ _ _ _ _ _ _ _ u Hsp H eq_refl) as (ctx1 & text1 & -> & Hsp1 & H1). cbn [token_text app].
  destruct (open_object_ok ctx1 B π ip u H1) as (ctx2 & b & E2 & H2); [lia|]. rewrite (loop_continue _ _ _ _ _ _ E2). set (e := Stack _ _ _ _ _) in *. set (u1 := u ++ _).
  destruct (reads_members l ctx2 B e LEJP_MEMBERS π ip u1 (TChar c :: ts) text1) as (ctx3 & π3 & text3 & -> & Hsp3 & H3 & Hl3 & Ht3);
    [done..|by right|done|done|done|done|exact Hsp1|].
  destruct (spaced_token _ _ _ _ _ _ _ _ (u1 ++ concat (member_events π <$> l)) Hsp3 H3 eq_refl) as (ctx4 & text4 & -> & Hsp4 & H4). cbn [token_text app].
  assert (inv B π3 ip ∧ kept B π (up B π3)) as [Hi3 Hk3].
  { unfold inv, kept, up in *. destruct (last B) as [e0|]; [|done]. destruct Hi as (Hp0 & Hrest).
    assert (take (st_p e0) π3 = take (st_p e0) π) as Et by (rewrite <- Ht3, take_take; f_equal; lia).
    split; [split; [lia|done]|]. rewrite length_take. split; [lia|]. by rewrite take_take, Nat.min_id. }
  destruct (close_object_ok ctx4 B e π3 ip (u1 ++ concat (member_events π <$> l)) H4 eq_refl eq_refl Hi3) as (ctx5 & E5 & H5). rewrite (loop_continue _ _ _ _ _ _ E5).
  exists ctx5, (up B π3), text4. split_and!; try done.
  - cbn [events]. unfold u1. rewrite <- !app_assoc. done.
  - by destruct B.
Qed.

Lemma reads_all v : reads v.
Proof. induction v using json_ind'; [apply reads_str|apply reads_num|apply reads_word|by apply reads_arr|by apply reads_obj]. Qed.

(** *** The outermost object *)

(** What there is room for: arrays of the outermost object use up an index
    each. *)
Fixpoint doc_fits (i : nat) (l : list (list piece * json)) : Prop :=
  match l with [] => True | m :: l => member_fits 0 0 i m ∧ doc_fits (ip_after [] m.2 i) l end.

Lemma reads_doc l ctx s0 ip u text :
  l ≠ [] → doc_fits ip l → sees ctx [] s0 [] ip → s0 = LEJP_M_P ∨ s0 = LEJP_MEMBERS → spaced (commas (member_toks <$> l) ++ [TChar 125]) text →
  ∃ ctx', loop text ctx u = Ok (Z.of_nat (length after), ctx', u ++ concat (member_events [] <$> l) ++ [(LEJPCB_OBJECT_END, [], []); (LEJPCB_COMPLETE, [], [])]).
Proof.
  revert ctx s0 ip u text. induction l as [|m l IH]; intros ctx s0 ip u text Hne Hf0 H Hs0 Hsp; [done|]. destruct Hf0 as [Hm Hf]. destruct l as [|m2 l].
  - cbn [fmap list_fmap commas concat] in *. destruct (reads_member m ctx [] s0 [] ip u 125 [] text (reads_all _) H Hs0 I) as (ctx1 & π1 & text1 & -> & Hsp1 & H1 & _); [cbn; lia|done|tauto|done|].
    destruct (spaced_token _ _ _ _ _ _ _ _ (u ++ member_events [] m) Hsp1 H1 eq_refl) as (ctx2 & text2 & -> & Hsp2 & H2). assert (text2 = after) as -> by (by inversion Hsp2). cbn [token_text app].
    destruct (close_root_ok after ctx2 π1 _ (u ++ member_events [] m) H2) as (ctx3 & ->). exists ctx3. by rewrite app_nil_r, <- app_assoc.
  - cbn [fmap list_fmap commas] in Hsp. rewrite <- app_assoc in Hsp. cbn [app] in Hsp.
    destruct (reads_member m ctx [] s0 [] ip u 44 _ text (reads_all _) H Hs0 I ltac:(cbn; lia) Hm (or_introl eq_refl) Hsp) as (ctx1 & π1 & text1 & -> & Hsp1 & H1 & _).
    destruct (spaced_token _ _ _ _ _ _ _ _ (u ++ member_events [] m) Hsp1 H1 eq_refl) as (ctx2 & text2 & -> & Hsp2 & H2). cbn [token_text app].
    destruct (comma_root_ok ctx2 π1 _ (u ++ member_events [] m) H2) as (ctx3 & E3 & H3). rewrite (loop_continue _ _ _ _ _ _ E3).
    destruct (IH ctx3 LEJP_M_P _ (u ++ member_events [] m) text2 ltac:(done) Hf H3 (or_introl eq_refl) Hsp2) as (ctx4 & ->). exists ctx4. cbn [fmap list_fmap concat]. by rewrite <- !app_assoc.
Qed.

(** A whole document from the start. *)
Lemma reads_document l ctx u text :
  l ≠ [] → doc_fits 0 l → sees ctx [] LEJP_IDLE [] 0 → spaced (toks (JObj l)) text →
  ∃ ctx', loop text ctx u = Ok (Z.of_nat (length after), ctx', u ++ events [] (JObj l) ++ [(LEJPCB_COMPLETE, [], [])]).
Proof.
  intros Hne Hf H Hsp. cbn [toks] in Hsp. destruct (spaced_token _ _ _ _ _ _ _ _ u Hsp H eq_refl) as (ctx1 & text1 & -> & Hsp1 & H1). cbn [token_text app].
  destruct (set_state_ok _ _ _ LEJP_MEMBERS _ _ H1) as (ctx2 & E2 & H2 & _); [done|].
  assert (char 123 ctx1 u = Ok (Continue, ctx2, u ++ [(LEJPCB_OBJECT_START, [], [])])) as E.
  { rewrite (char_switch _ _ _ _ _ _ _ H1) by (done || by left). cbn [lejp_switch Z.eqb Pos.eqb negb]. rewrite log_call by done. rewrite E2, res_bind_ok. cbn [view].
    by destruct (sees_path _ _ _ _ _ H1) as [-> _]. }
  rewrite (loop_continue _ _ _ _ _ _ E). destruct (reads_doc l ctx2 LEJP_MEMBERS 0 (u ++ [(LEJPCB_OBJECT_START, [], [])]) text1 Hne Hf H2 (or_intror eq_refl) Hsp1) as (ctx3 & ->).
  exists ctx3. cbn [events]. rewrite <- !app_assoc. cbn [app]. by rewrite <- !app_assoc.
Qed.

End parser.

(** ** In pieces *)

Section pieces.
Context (paths : list (list Z)).
#[local] Abbreviation loop := (lejp_loop logger paths).

(** Text in two pieces: the first asks for more, completes the document, or is
    refused. *)
Lemma loop_app a b ctx u r ctx' u' : loop (a ++ b) ctx u = Ok (r, ctx', u') →
  (∃ ctx1 u1, loop a ctx u = Ok (LEJP_CONTINUE, ctx1, u1) ∧ loop b ctx1 u1 = Ok (r, ctx', u'))
  ∨ (loop a ctx u = Ok (r - Z.of_nat (length b), ctx', u') ∧ 0 <= r - Z.of_nat (length b) < Z.of_nat (length a))
  ∨ last u' = Some (LEJPCB_FAILED, [], []).
Proof.
  revert ctx u. induction a as [|c a IH]; intros ctx u E; [left; by exists ctx, u|]. cbn [lejp_loop app] in *.
  destruct (lejp_redo _ _ _ _ _ _) as [[[v ctx1] u1]|]; [|done]. rewrite res_bind_ok in *. cbn [length]. destruct v.
  - destruct (IH _ _ E) as [H|[[H Hr]|H]]; [by left|right; left; split; [done|lia]|by right; right].
  - destruct (IH _ _ E) as [H|[[H Hr]|H]]; [by left|right; left; split; [done|lia]|by right; right].
  - right. left. injection E as <- <- <-. rewrite length_app. split; [do 3 f_equal; lia|lia].
  - right. right. cbn in E. injection E as _ _ <-. apply last_snoc.
Qed.

Lemma parse_logger a ctx u : lejp_parse logger paths a ctx u = loop a ctx u.
Proof. unfold lejp_parse, logger at 1. by destruct (_ && _). Qed.

Lemma config_loop_ok reads m ctx u r ctx' u' :
  loop (concat reads) ctx u = Ok (r, ctx', u') → last u' ≠ Some (LEJPCB_FAILED, [], []) → r ≠ LEJP_CONTINUE →
  Forall (λ x, (length x ≤ 128)%nat) reads →
  ∃ m' ctx1, config_loop logger paths reads m ctx u = Ok (m', ctx1, u') ∧ 0 <= m'.
Proof.
  intros E Hu Hr Hlen. revert m ctx u E. induction Hlen as [|x reads Hx Hlen IH]; intros m ctx u E; cbn [concat config_loop] in *.
  - cbn in E. injection E as <- <- <-. done.
  - rewrite parse_logger. destruct (loop_app x (concat reads) ctx u r ctx' u' E) as [(ctx1 & u1 & -> & E1)|[[-> Hrange]|H]]; [..|done].
    + rewrite res_bind_ok. cbv zeta. replace (s8 LEJP_CONTINUE =? LEJP_CONTINUE) with true by done. by apply IH.
    + rewrite res_bind_ok. cbv zeta. rewrite s8_small by lia. rewrite (proj2 (Z.eqb_neq _ _)) by (unfold LEJP_CONTINUE; lia). eexists _, _. split; [done|lia].
Qed.

End pieces.

(** A context before it is constructed: arrays of the right size. *)
Definition allocated (ctx : lejp_ctx) : Prop :=
  length (st ctx) = LEJP_MAX_DEPTH ∧ length (idx ctx) = LEJP_MAX_INDEX_DEPTH ∧ length (wild ctx) = LEJP_MAX_INDEX_DEPTH
  ∧ length (path ctx) = LEJP_MAX_PATH ∧ length (buf ctx) = (LEJP_STRING_CHUNK + 1)%nat.

Lemma construct_ok ctx u : allocated ctx →
  ∃ ctx', lejp_construct logger ctx u = Ok (ctx', u ++ [(LEJPCB_CONSTRUCTED, [], [])]) ∧ sees ctx' [] LEJP_IDLE [] 0.
Proof.
  intros (H1 & H2 & H3 & H4 & H5). destruct (st ctx) as [|e0 st0] eqn:Est; [done|]. destruct (path ctx) as [|p0 path0] eqn:Ep; [done|].
  unfold lejp_construct. rewrite Est, Ep. rewrite (store_ok (e0 :: st0) 0), (store_ok (p0 :: path0) 0) by (cbn; lia). rewrite !res_bind_ok. cbv zeta.
  eexists. split; [done|]. split; cbn; try done.
  - by eexists _, st0.
  - by eexists _, path0.
  - split; [done|]. lia.
Qed.

(** [C15] A configuration that is a JSON object, written with any blanks and
    comments between its tokens and read in pieces of up to 128 bytes, is
    accepted, and the parser makes exactly the callbacks the document asks for:
    every name with its path, every value with its text, every array and
    object with its start and end, in order, and the end of the document
    (strings longer than the buffer come in pieces).  The document has to fit:
    eleven levels, paths of 127 bytes, five indices, of which every array of
    the outermost object uses up one. *)
Theorem config_document_read paths l text rest reads ctx
    (Hpaths : Forall (λ q, (stars q ≤ LEJP_MAX_INDEX_DEPTH)%nat) paths)
    (Hctx : allocated ctx)
    (Hne : l ≠ [])
    (Hfits : doc_fits 0 l)
    (Htext : written rest (toks (JObj l)) text)
    (Hreads : concat reads = text)
    (Hlen : Forall (λ x, (length x ≤ 128)%nat) reads) :
  lwsws_get_config logger paths reads ctx []
  = Ok (0, (LEJPCB_CONSTRUCTED, [], []) :: events [] (JObj l) ++ [(LEJPCB_COMPLETE, [], []); (LEJPCB_DESTRUCTED, [], [])]).
Proof.
  destruct (construct_ok ctx [] Hctx) as (ctx1 & E1 & H1). unfold lwsws_get_config. rewrite E1, res_bind_ok. cbn [app].
  destruct (reads_document paths Hpaths rest l ctx1 [(LEJPCB_CONSTRUCTED, [], [])] text Hne Hfits H1 Htext) as (ctx2 & E2). rewrite <- Hreads in E2.
  destruct (config_loop_ok paths reads (-1) _ _ _ _ _ E2) as (m & ctx3 & -> & Hm).
  - rewrite app_assoc, last_snoc. done.
  - unfold LEJP_CONTINUE. lia.
  - done.
  - rewrite res_bind_ok, (proj2 (Z.ltb_ge _ _)) by done. unfold lejp_destruct. cbn [logger snd]. rewrite bool_decide_eq_false_2 by done. cbn [view app].
    by rewrite <- !app_assoc.
Qed.

(** ** Examples *)

(** A context with nothing in it. *)
Definition no_ctx : lejp_ctx :=
  Lejp (replicate LEJP_MAX_DEPTH (Stack LEJP_IDLE false 0 0 0)) (replicate LEJP_MAX_INDEX_DEPTH 0) (replicate LEJP_MAX_INDEX_DEPTH 0)
    (replicate LEJP_MAX_PATH 0) (replicate (LEJP_STRING_CHUNK + 1) 0) 0 0 0 0 0 0 0 0 0 0 0.

Definition plain (s : string) : list piece := Plain <$> bs s.

(** Two vhosts, one with a mount. *)
Definition some_conf : list (list piece * json) :=
  [(plain "vhosts", JArr [JObj [(plain "name", JStr (plain "a")); (plain "port", JNum (Number (bs "80") None None))];
                          JObj [(plain "mounts", JArr [JObj [(plain "origin", JStr (plain "/" ++ [Esc 110 10; Uni 0 2 3 3]))]; JArr []])]]);
   (plain "x", JWord WNull)].

Definition some_text : list Z := concat (token_text <$> toks (JObj some_conf)) ++ bs " # end".

Lemma written_plain rest ts : written rest ts (concat (token_text <$> ts) ++ rest).
Proof. induction ts as [|t ts IH]; [constructor|]. cbn [fmap list_fmap concat]. rewrite <- app_assoc. apply (written_cons rest [] t ts); [constructor|done]. Qed.

(** Pieces of [n] bytes. *)
Fixpoint cut (fuel n : nat) (l : list Z) : list (list Z) :=
  match fuel, l with S f, _ :: _ => take n l :: cut f n (drop n l) | _, _ => [] end.

Lemma some_conf_fits : doc_fits 0 some_conf.
Proof. cbn [doc_fits some_conf]. unfold member_fits. cbn [fst snd fits ip_after]. repeat (split; [first [by_compute|done|idtac]|]). all: by_compute || done. Qed.

Lemma config_document_read_witness :
  (Forall (λ q, (stars q ≤ LEJP_MAX_INDEX_DEPTH)%nat) [bs "vhosts[].*"] ∧ allocated no_ctx ∧ some_conf ≠ [] ∧ doc_fits 0 some_conf
    ∧ written (bs " # end") (toks (JObj some_conf)) some_text ∧ concat (cut 200 7 some_text) = some_text
    ∧ Forall (λ x, (length x ≤ 128)%nat) (cut 200 7 some_text))
  ∧ lwsws_get_config logger [bs "vhosts[].*"] (cut 200 7 some_text) no_ctx []
    = Ok (0, (LEJPCB_CONSTRUCTED, [], []) :: events [] (JObj some_conf) ++ [(LEJPCB_COMPLETE, [], []); (LEJPCB_DESTRUCTED, [], [])]).
Proof.
  assert (Forall (λ q, (stars q ≤ LEJP_MAX_INDEX_DEPTH)%nat) [bs "vhosts[].*"]) as H1 by by_compute. assert (allocated no_ctx) as H2 by by_compute.
  assert (some_conf ≠ []) as H3 by done. pose proof some_conf_fits as H4. pose proof (written_plain (bs " # end") (toks (JObj some_conf))) as H5. fold some_text in H5.
  assert (concat (cut 200 7 some_text) = some_text) as H6 by by_compute. assert (Forall (λ x, (length x ≤ 128)%nat) (cut 200 7 some_text)) as H7 by by_compute.
  split; [by split_and!|]. exact (config_document_read [bs "vhosts[].*"] some_conf some_text (bs " # end") (cut 200 7 some_text) no_ctx H1 H2 H3 H4 H5 H6 H7).
Defined.

(** The parser on a text, with the callbacks. *)
Definition try_parse (text : list Z) : res (Z * list event) :=
  '(ctx, u) ← lejp_construct logger no_ctx []; '(r, _, u) ← lejp_parse logger [] text ctx u; Ok (r, u).

Definition quoted (s : string) : list Z := QUOTE :: bs s ++ [QUOTE].

(** An index stays in use after an array of the outermost object, so the sixth
    of them is written past the index array. *)
Theorem sixth_array_overruns :
  let text := bs "{" ++ concat ((λ n, quoted n ++ bs ":[],") <$> ["a"; "b"; "c"; "d"; "e"; "f"]%string) in
  try_parse text = Fault OutOfBounds.
Proof. vm_compute. reflexivity. Qed.

(** A long name is written past the path. *)
Theorem long_name_overruns : try_parse (bs "{" ++ QUOTE :: replicate 129 97) = Fault OutOfBounds.
Proof. vm_compute. reflexivity. Qed.

(** A hexadecimal letter in a character number replaces the digits before it. *)
Theorem hex_letters_lose_digits :
  try_parse (bs "{" ++ quoted "a" ++ bs ":" ++ QUOTE :: BACKSLASH :: bs "u1eab" ++ [QUOTE])
  = Ok (LEJP_CONTINUE, [(LEJPCB_CONSTRUCTED, [], []); (LEJPCB_OBJECT_START, [], []); (LEJPCB_PAIR_NAME, bs "a", []);
                        (LEJPCB_VAL_STR_START, bs "a", []); (LEJPCB_VAL_STR_END, bs "a", [224; 194; 11])])
  ∧ utf8_encode 7851 = [225; 186; 171].
Proof. vm_compute. split; reflexivity. Qed.

(** Negative numbers and empty objects are refused, and what lejp_parse returns
    for a refused text is a positive number. *)
Theorem negative_number_refused :
  (∃ u, try_parse (bs "{" ++ quoted "a" ++ bs ":-1}") = Ok (256 + LEJP_REJECT_MP_DELIM_BAD_VALUE_START, u))
  ∧ (∃ u, try_parse (bs "{}") = Ok (256 + LEJP_REJECT_MEMBERS_NO_CLOSE, u)).
Proof. split; eexists; vm_compute; reflexivity. Qed.

(** A line end behind a number is counted twice. *)
Theorem line_end_after_number_counts_twice :
  let text := bs "{" ++ quoted "a" ++ bs ":1" ++ [10] in
  ∃ ctx u ctx' u', lejp_construct logger no_ctx [] = Ok (ctx, u) ∧ lejp_parse logger [] text ctx u = Ok (LEJP_CONTINUE, ctx', u') ∧ line ctx = 1 ∧ line ctx' = 3.
Proof. eexists _, _, _, _. split; [vm_compute; reflexivity|]. split; [vm_compute; reflexivity|]. split; reflexivity. Qed.

(** Between the members of the outermost object a new piece of text is taken
    for a new document. *)
Theorem start_is_repeated :
  let count := λ (_ : lejp_ctx) r (n : nat), (0, if bool_decide (r = LEJPCB_START) then S n else n) in
  ∃ ctx ctx1 ctx2, lejp_construct count no_ctx 0%nat = Ok (ctx, 0%nat)
    ∧ lejp_parse count [] (bs "{" ++ quoted "a" ++ bs ":1,") ctx 0%nat = Ok (LEJP_CONTINUE, ctx1, 1%nat)
    ∧ lejp_parse count [] (quoted "b" ++ bs ":2}") ctx1 1%nat = Ok (0, ctx2, 2%nat).
Proof. eexists _, _, _. split; [vm_compute; reflexivity|]. split; [vm_compute; reflexivity|]. vm_compute. reflexivity. Qed.
