(* ===== verification/Huffman.v ===== *)
(** * The Huffman code of HPACK

    Models roles/h2/huftable.h, the table the HTTP/2 header decoder walks one
    bit at a time, huftable_decode, and the part of lws_hpack_interpret (the
    state HPKS_DATA of hpack.c) that turns the bits of a string into its
    characters and judges the padding at its end.  [huf_literal] is the list of
    codes minihuf.c generated the table from, which is that of the standard.

    The claim is that the walk is the code: the bits that are accepted are the
    codes of the characters it gives, then less than a byte of ones. *)

From stdpp Require Import base numbers list strings.
From Stdlib Require Import ZArith Lia Ascii.
From S2P Require Import Prelude.

(** ** The code *)

Definition huf_lextable : list Z :=
  [66; 1; 92; 1; 102; 1; 116; 1; 140; 1; 70; 1; 117; 1; 64; 1; 69; 1; 64; 1; 1; 3; 1; 91;
   0; 36; 114; 1; 114; 1; 83; 1; 123; 1; 107; 1; 132; 1; 1; 6; 179; 1; 195; 1; 1; 140; 1; 138;
   1; 135; 142; 1; 15; 1; 164; 1; 183; 1; 200; 1; 1; 15; 1; 7; 1; 3; 254; 1; 2; 3; 1; 2;
   4; 5; 6; 7; 1; 14; 1; 12; 8; 11; 167; 1; 1; 123; 239; 1; 9; 142; 10; 1; 17; 1; 100; 1;
   249; 1; 1; 10; 10; 13; 12; 14; 1; 2; 15; 16; 17; 18; 1; 5; 1; 2; 19; 20; 21; 23; 22; 0;
   1; 2; 24; 25; 26; 27; 1; 2; 28; 29; 30; 31; 19; 1; 1; 15; 75; 1; 1; 12; 32; 37; 1; 8;
   33; 34; 124; 1; 35; 62; 1; 5; 38; 42; 63; 1; 39; 43; 40; 41; 44; 59; 45; 46; 1; 8; 1; 6;
   47; 51; 1; 45; 1; 2; 48; 49; 50; 97; 52; 53; 1; 2; 54; 55; 56; 57; 6; 1; 44; 1; 47; 1;
   1; 7; 58; 66; 60; 96; 1; 33; 1; 29; 61; 65; 64; 91; 67; 68; 1; 8; 1; 4; 1; 2; 69; 70;
   71; 72; 1; 2; 73; 74; 75; 76; 1; 4; 1; 2; 77; 78; 79; 80; 1; 2; 81; 82; 83; 84; 1; 17;
   1; 2; 85; 86; 87; 89; 88; 90; 1; 31; 1; 23; 92; 195; 93; 126; 94; 125; 95; 98; 1; 5; 99; 101;
   1; 2; 100; 102; 103; 104; 105; 111; 1; 5; 106; 107; 1; 2; 108; 109; 110; 112; 113; 118; 114; 117; 115; 116;
   1; 2; 119; 120; 121; 122; 127; 220; 208; 1; 128; 130; 46; 1; 1; 27; 1; 6; 230; 1; 129; 132; 1; 20;
   1; 48; 131; 162; 1; 2; 133; 134; 136; 146; 137; 138; 1; 2; 139; 140; 141; 143; 1; 6; 144; 145; 1; 18;
   1; 5; 1; 3; 147; 149; 148; 159; 150; 151; 1; 8; 152; 155; 66; 1; 1; 12; 153; 161; 1; 5; 1; 3;
   154; 156; 157; 158; 160; 163; 1; 7; 164; 169; 1; 9; 1; 3; 165; 166; 167; 172; 168; 174; 170; 173; 1; 27;
   1; 42; 171; 206; 1; 9; 175; 180; 1; 39; 1; 5; 176; 177; 1; 7; 1; 5; 178; 181; 179; 209; 182; 183;
   184; 194; 185; 186; 1; 4; 187; 189; 1; 7; 188; 191; 190; 196; 1; 13; 1; 10; 1; 8; 192; 193; 197; 231;
   1; 27; 198; 228; 27; 1; 1; 25; 199; 207; 200; 201; 1; 6; 202; 205; 13; 1; 23; 1; 255; 1; 203; 204;
   210; 213; 1; 20; 1; 9; 1; 2; 211; 212; 214; 221; 215; 225; 1; 7; 216; 217; 1; 9; 218; 219; 1; 8;
   222; 223; 224; 226; 227; 229; 232; 233; 234; 235; 236; 237; 238; 240; 241; 244; 242; 243; 1; 4; 1; 2; 245; 246;
   247; 248; 1; 2; 250; 251; 252; 253].

Definition lextable_terms : list Z :=
  [0; 0; 0; 3; 1; 0; 3; 0; 52; 15; 67; 3; 241; 60; 252; 60; 15; 48; 55; 247; 15; 195; 207; 3;
   60; 252; 192; 243; 240; 60; 252; 240; 207; 252; 204; 255; 252; 13; 52; 204; 207; 51; 240; 51; 12; 63; 195; 63;
   204; 48; 252; 207; 60; 240; 12; 207; 208; 3; 63; 51; 255; 255; 195; 243].

Definition HUFTABLE_0x100_PREV : Z := 118.

Definition huftable_decode (pos : Z) (c : bool) : res Z :=
  let q := pos + (if c then 1 else 0) in
  t ← elem lextable_terms (Z.shiftr q 3);
  e ← elem huf_lextable q;
  if negb (Z.land t (Z.shiftl 1 (Z.land q 7)) =? 0) then Ok (Z.lor e 32768) else Ok (pos + Z.shiftl e 1).

(** What the decoder keeps between the bits of a string: [hpack_pos],
    [huff_pad] and [zero_huff_padding] of struct lws_h2_netconn. *)
Record huffman := Huff { hpack_pos : Z; huff_pad : Z; zero_huff_padding : bool }.

(** A bit: more are needed, a character, the code that marks the end, or
    "Huffman err". *)
Inductive huff_out := HMore | HChar (c1 : Z) | HEot | HErr.

#[global] Instance huff_out_eq_dec : EqDecision huff_out.
Proof. solve_decision. Defined.
#[global] Instance huffman_eq_dec : EqDecision huffman.
Proof. solve_decision. Defined.

Definition huff_bit (b : bool) (h : huffman) : res (huff_out * huffman) :=
  let prev := hpack_pos h in
  p ← huftable_decode prev b;
  let p := u16 p in
  if p =? 65535 then Ok (HErr, Huff p (huff_pad h) (zero_huff_padding h))
  else if Z.land p 32768 =? 0 then
    Ok (HMore, Huff p (u8 (huff_pad h + 1)) (if b then zero_huff_padding h else true))
  else
    let c1 := u8 (Z.land p 32767) in
    let h := Huff 0 0 false in
    if (c1 =? 0) && (prev =? HUFTABLE_0x100_PREV) then Ok (HEot, h) else Ok (HChar c1, h).

(** At the end of a string: the padding is longer than a byte, or not ones. *)
Definition bad_padding (h : huffman) : bool :=
  (7 <? huff_pad h) || (zero_huff_padding h && negb (huff_pad h =? 0)).

(** The bits of a byte, the first one first: [(c >> 7) & 1; c <<= 1]. *)
Definition byte_bits (c : Z) : list bool := (λ i, Z.testbit c i) <$> [7; 6; 5; 4; 3; 2; 1; 0].

(** ** The reference: the list of codes *)

(** struct huf: the code and its length, for 0 to 255 and the end mark. *)
Definition huf_literal : list (Z * Z) :=
  [(8184, 13); (8388568, 23); (268435426, 28); (268435427, 28); (268435428, 28); (268435429, 28); (268435430, 28); (268435431, 28);
   (268435432, 28); (16777194, 24); (1073741820, 30); (268435433, 28); (268435434, 28); (1073741821, 30); (268435435, 28); (268435436, 28);
   (268435437, 28); (268435438, 28); (268435439, 28); (268435440, 28); (268435441, 28); (268435442, 28); (1073741822, 30); (268435443, 28);
   (268435444, 28); (268435445, 28); (268435446, 28); (268435447, 28); (268435448, 28); (268435449, 28); (268435450, 28); (268435451, 28);
   (20, 6); (1016, 10); (1017, 10); (4090, 12); (8185, 13); (21, 6); (248, 8); (2042, 11);
   (1018, 10); (1019, 10); (249, 8); (2043, 11); (250, 8); (22, 6); (23, 6); (24, 6);
   (0, 5); (1, 5); (2, 5); (25, 6); (26, 6); (27, 6); (28, 6); (29, 6);
   (30, 6); (31, 6); (92, 7); (251, 8); (32764, 15); (32, 6); (4091, 12); (1020, 10);
   (8186, 13); (33, 6); (93, 7); (94, 7); (95, 7); (96, 7); (97, 7); (98, 7);
   (99, 7); (100, 7); (101, 7); (102, 7); (103, 7); (104, 7); (105, 7); (106, 7);
   (107, 7); (108, 7); (109, 7); (110, 7); (111, 7); (112, 7); (113, 7); (114, 7);
   (252, 8); (115, 7); (253, 8); (8187, 13); (524272, 19); (8188, 13); (16380, 14); (34, 6);
   (32765, 15); (3, 5); (35, 6); (4, 5); (36, 6); (5, 5); (37, 6); (38, 6);
   (39, 6); (6, 5); (116, 7); (117, 7); (40, 6); (41, 6); (42, 6); (7, 5);
   (43, 6); (118, 7); (44, 6); (8, 5); (9, 5); (45, 6); (119, 7); (120, 7);
   (121, 7); (122, 7); (123, 7); (32766, 15); (2044, 11); (16381, 14); (8189, 13); (268435452, 28);
   (1048550, 20); (4194258, 22); (1048551, 20); (1048552, 20); (4194259, 22); (4194260, 22); (4194261, 22); (8388569, 23);
   (4194262, 22); (8388570, 23); (8388571, 23); (8388572, 23); (8388573, 23); (8388574, 23); (16777195, 24); (8388575, 23);
   (16777196, 24); (16777197, 24); (4194263, 22); (8388576, 23); (16777198, 24); (8388577, 23); (8388578, 23); (8388579, 23);
   (8388580, 23); (2097116, 21); (4194264, 22); (8388581, 23); (4194265, 22); (8388582, 23); (8388583, 23); (16777199, 24);
   (4194266, 22); (2097117, 21); (1048553, 20); (4194267, 22); (4194268, 22); (8388584, 23); (8388585, 23); (2097118, 21);
   (8388586, 23); (4194269, 22); (4194270, 22); (16777200, 24); (2097119, 21); (4194271, 22); (8388587, 23); (8388588, 23);
   (2097120, 21); (2097121, 21); (4194272, 22); (2097122, 21); (8388589, 23); (4194273, 22); (8388590, 23); (8388591, 23);
   (1048554, 20); (4194274, 22); (4194275, 22); (4194276, 22); (8388592, 23); (4194277, 22); (4194278, 22); (8388593, 23);
   (67108832, 26); (67108833, 26); (1048555, 20); (524273, 19); (4194279, 22); (8388594, 23); (4194280, 22); (33554412, 25);
   (67108834, 26); (67108835, 26); (67108836, 26); (134217694, 27); (134217695, 27); (67108837, 26); (16777201, 24); (33554413, 25);
   (524274, 19); (2097123, 21); (67108838, 26); (134217696, 27); (134217697, 27); (67108839, 26); (134217698, 27); (16777202, 24);
   (2097124, 21); (2097125, 21); (67108840, 26); (67108841, 26); (268435453, 28); (134217699, 27); (134217700, 27); (134217701, 27);
   (1048556, 20); (16777203, 24); (1048557, 20); (2097126, 21); (4194281, 22); (2097127, 21); (2097128, 21); (8388595, 23);
   (4194282, 22); (4194283, 22); (33554414, 25); (33554415, 25); (16777204, 24); (16777205, 24); (67108842, 26); (8388596, 23);
   (67108843, 26); (134217702, 27); (67108844, 26); (67108845, 26); (134217703, 27); (134217704, 27); (134217705, 27); (134217706, 27);
   (134217707, 27); (268435454, 28); (134217708, 27); (134217709, 27); (134217710, 27); (134217711, 27); (134217712, 27); (67108846, 26);
   (1073741823, 30)].

Definition EOT_CODE : nat := 256.

(** The bits of a code, as code_bit gives them. *)
Definition bits_of (e : Z * Z) : list bool := (λ i, Z.testbit e.1 (e.2 - 1 - i)) <$> seqZ 0 e.2.

Definition code_of (n : nat) : list bool := default [] (bits_of <$> huf_literal !! n).

(** A string as the standard codes it. *)
Definition huff_encode (s : list Z) : list bool := s ≫= (λ c, code_of (Z.to_nat c)).

(** All characters of a run of bits, while there are any. *)
Fixpoint huff_run (bits : list bool) (h : huffman) : res (option (list Z) * huffman) :=
  match bits with
  | [] => Ok (Some [], h)
  | b :: bits =>
      '(o, h) ← huff_bit b h;
      match o with
      | HMore => huff_run bits h
      | HChar c => r ← huff_run bits h; Ok (option_map (cons c) r.1, r.2)
      | HEot | HErr => Ok (None, h)
      end
  end.

(** ** Lemmas: the codes that are still possible *)

(** The codes that start with the bits read so far, with their other bits. *)
Definition codes := list (nat * list bool).

Definition all_codes : codes := imap (λ n e, (n, bits_of e)) huf_literal.

Definition next_bit (b : bool) (l : codes) : codes :=
  omap (λ e, match e.2 with d :: w => if Bool.eqb d b then Some (e.1, w) else None | [] => None end) l.

Lemma elem_of_next_bit b l n w : (n, w) ∈ next_bit b l ↔ (n, b :: w) ∈ l.
Proof.
  unfold next_bit. rewrite list_elem_of_omap. split.
  - intros ([m [|d v]] & H & E); cbn in E; [done|]. destruct (Bool.eqb d b) eqn:Ed; [|done].
    apply Bool.eqb_prop in Ed as ->. by injection E as -> ->.
  - intros H. exists (n, b :: w). split; [done|]. cbn. by rewrite Bool.eqb_reflx.
Qed.

Definition after_bits (p : list bool) : codes := foldl (λ l b, next_bit b l) all_codes p.

Lemma after_bits_snoc p b : after_bits (p ++ [b]) = next_bit b (after_bits p).
Proof. unfold after_bits. by rewrite foldl_app. Qed.

Lemma elem_of_after_bits p n w : (n, w) ∈ after_bits p ↔ (n, p ++ w) ∈ all_codes.
Proof.
  revert w. induction p as [|b p IH] using rev_ind; intros w; [done|].
  by rewrite after_bits_snoc, elem_of_next_bit, IH, <- app_assoc.
Qed.

Lemma elem_of_all_codes n w : (n, w) ∈ all_codes ↔ (n < 257)%nat ∧ w = code_of n.
Proof.
  unfold all_codes, code_of. rewrite elem_of_lookup_imap. split.
  - intros (i & e & E & Hi). injection E as -> ->. rewrite Hi. split; [|done]. by apply lookup_lt_Some in Hi.
  - intros [Hn ->]. destruct (lookup_lt_is_Some_2 huf_literal n Hn) as [e He]. exists n, e. by rewrite He.
Qed.

(** Position [pos] of the table stands for the codes [l], none of which is
    complete; [depth] bounds the length of the codes. *)
Fixpoint stands_for (depth : nat) (pos : Z) (l : codes) : bool :=
  match depth with
  | O => false
  | S depth =>
      forallb (λ e, negb (bool_decide (e.2 = []))) l
      && forallb (λ b,
           match huff_bit b (Huff pos 0 false) with
           | Ok (HMore, h) => stands_for depth (hpack_pos h) (next_bit b l)
           | Ok (HChar c, _) => bool_decide (next_bit b l = [(Z.to_nat c, [])]) && (0 <=? c) && (c <? 256)
           | Ok (HEot, _) => bool_decide (next_bit b l = [(EOT_CODE, [])])
           | _ => false
           end) [false; true]
  end.

Lemma table_stands : stands_for 31 0 all_codes = true.
Proof. vm_compute. reflexivity. Qed.

(** What a bit does depends on the position only; the rest is counted. *)
Lemma huff_bit_counts b pos pad z :
  huff_bit b (Huff pos pad z)
  = '(o, h) ← huff_bit b (Huff pos 0 false);
    Ok (o, match o with
           | HMore => Huff (hpack_pos h) (u8 (pad + 1)) (if b then z else true)
           | HErr => Huff (hpack_pos h) pad z
           | _ => h
           end).
Proof.
  unfold huff_bit. cbn [hpack_pos huff_pad zero_huff_padding]. destruct (huftable_decode pos b) as [p|]; [|done].
  cbn [mbind res_bind]. destruct (u16 p =? 65535); [done|]. destruct (Z.land (u16 p) 32768 =? 0); [done|].
  by destruct (_ && _).
Qed.

(** The decoder is inside of a code, after the bits [p]. *)
Definition inside (p : list bool) (h : huffman) : Prop :=
  (∃ depth, stands_for depth (hpack_pos h) (after_bits p) = true ∧ (length p + depth = 31)%nat)
  ∧ huff_pad h = Z.of_nat (length p) ∧ zero_huff_padding h = existsb negb p.

Definition root : huffman := Huff 0 0 false.

Lemma inside_root : inside [] root.
Proof. split; [exists 31%nat; split; [apply table_stands|done]|done]. Qed.

Lemma inside_short p h : inside p h → (length p ≤ 30)%nat.
Proof. intros ((d & Hs & Hd) & _). destruct d; [done|lia]. Qed.

Lemma inside_incomplete p h n : inside p h → (n, []) ∉ after_bits p.
Proof.
  intros ((d & Hs & _) & _) Hin. destruct d as [|d]; [done|]. cbn [stands_for] in Hs.
  apply andb_true_iff in Hs as [Hs _]. rewrite forallb_forall in Hs.
  specialize (Hs _ (proj1 (list_elem_of_In _ _) Hin)). by rewrite bool_decide_true in Hs.
Qed.

(** A bit of a string. *)
Lemma huff_bit_ok p h b :
  inside p h →
  ∃ o h', huff_bit b h = Ok (o, h') ∧
  match o with
  | HMore => inside (p ++ [b]) h'
  | HChar c => is_byte c ∧ after_bits (p ++ [b]) = [(Z.to_nat c, [])] ∧ h' = root
  | HEot => after_bits (p ++ [b]) = [(EOT_CODE, [])]
  | HErr => False
  end.
Proof.
  intros Hin. pose proof (inside_short _ _ Hin) as Hl. destruct Hin as ((d & Hs & Hd) & Hp & Hz).
  destruct h as [pos pad z]. cbn [hpack_pos huff_pad zero_huff_padding] in *. subst pad z.
  rewrite huff_bit_counts, after_bits_snoc. destruct d as [|d]; [done|]. cbn [stands_for] in Hs.
  apply andb_true_iff in Hs as [_ Hs]. rewrite forallb_forall in Hs. specialize (Hs b ltac:(destruct b; cbn; auto)).
  destruct (huff_bit b (Huff pos 0 false)) as [[o h]|] eqn:E; [|done]. cbn [mbind res_bind]. eexists o, _. split; [done|].
  destruct o as [|c| |]; [| | |done].
  - split; [|split; cbn [huff_pad zero_huff_padding]].
    + exists d. rewrite after_bits_snoc, length_app. cbn [hpack_pos length]. split; [done|lia].
    + rewrite length_app. cbn [length]. rewrite u8_small; lia.
    + rewrite existsb_app. cbn [existsb]. by destruct b, (existsb negb p).
  - rewrite !andb_true_iff in Hs. destruct Hs as [[Hs%bool_decide_eq_true H0] H1]. split; [unfold is_byte; lia|].
    split; [done|]. unfold huff_bit in E. destruct (huftable_decode _ _) as [q|]; [|done]. cbn [mbind res_bind] in E.
    destruct (u16 q =? 65535); [done|]. destruct (Z.land (u16 q) 32768 =? 0); [done|].
    destruct (_ && _); by simplify_eq.
  - by apply bool_decide_eq_true in Hs.
Qed.

(** ** Lemmas: runs of bits *)

(** What is read is what was coded. *)
Lemma huff_run_sound bits p h :
  inside p h →
  ∃ o h', huff_run bits h = Ok (o, h') ∧
  match o with
  | Some s => Forall is_byte s ∧ ∃ q, p ++ bits = huff_encode s ++ q ∧ inside q h'
  | None => ∃ s q, p ++ bits = huff_encode s ++ code_of EOT_CODE ++ q
  end.
Proof.
  revert p h. induction bits as [|b bits IH]; intros p h Hin; cbn [huff_run].
  { exists (Some []), h. split; [done|]. split; [constructor|]. exists p. by rewrite app_nil_r. }
  destruct (huff_bit_ok p h b Hin) as (o & h1 & -> & Ho). cbn [mbind res_bind].
  assert (∀ n, after_bits (p ++ [b]) = [(n, [])] → p ++ [b] = code_of n) as Hcode.
  { intros n E. assert ((n, []) ∈ after_bits (p ++ [b])) as Hn by (rewrite E; left).
    apply elem_of_after_bits, elem_of_all_codes in Hn as [_ Hn]. by rewrite app_nil_r in Hn. }
  replace (p ++ b :: bits) with ((p ++ [b]) ++ bits) by by rewrite <- app_assoc.
  destruct o as [|c| |]; [by apply IH| | |done].
  - destruct Ho as (Hc & Hl & ->). destruct (IH [] root inside_root) as (o & h' & -> & Ho). cbn [mbind res_bind fst snd].
    eexists _, h'. split; [done|]. rewrite (Hcode _ Hl). cbn [app] in Ho. destruct o as [s|]; cbn [option_map].
    + destruct Ho as (Hs & q & -> & Hq). split; [by constructor|]. exists q. split; [|done]. cbn. by rewrite <- app_assoc.
    + destruct Ho as (s & q & ->). exists (c :: s), q. cbn. by rewrite <- app_assoc.
  - eexists None, h1. split; [done|]. exists [], bits. by rewrite (Hcode _ Ho).
Qed.

(** The rest of a code is read as its character. *)
Lemma huff_run_rest c w p h rest :
  is_byte c → inside p h → code_of (Z.to_nat c) = p ++ w →
  huff_run (w ++ rest) h = (r ← huff_run rest root; Ok (option_map (cons c) r.1, r.2)).
Proof.
  intros Hc. revert p h. induction w as [|b w IH]; intros p h Hin Hw.
  { destruct (inside_incomplete _ _ (Z.to_nat c) Hin). apply elem_of_after_bits, elem_of_all_codes.
    unfold is_byte in Hc. split; [lia|done]. }
  cbn [app huff_run]. assert ((Z.to_nat c, w) ∈ after_bits (p ++ [b])) as Hmem.
  { apply elem_of_after_bits, elem_of_all_codes. unfold is_byte in Hc. rewrite <- app_assoc. split; [lia|done]. }
  destruct (huff_bit_ok p h b Hin) as (o & h1 & -> & Ho). cbn [mbind res_bind].
  destruct o as [|d| |]; [| | |done].
  - apply (IH (p ++ [b])); [done|]. by rewrite <- app_assoc.
  - destruct Ho as (Hd & Hl & ->). rewrite Hl in Hmem. apply list_elem_of_singleton in Hmem. injection Hmem as Hn ->.
    unfold is_byte in *. assert (d = c) as -> by lia. done.
  - rewrite Ho in Hmem. apply list_elem_of_singleton in Hmem. injection Hmem as Hn _. unfold is_byte, EOT_CODE in *. lia.
Qed.

Lemma huff_encode_cons c s : huff_encode (c :: s) = code_of (Z.to_nat c) ++ huff_encode s.
Proof. reflexivity. Qed.

Lemma huff_run_encode s rest :
  Forall is_byte s →
  huff_run (huff_encode s ++ rest) root = (r ← huff_run rest root; Ok (option_map (app s) r.1, r.2)).
Proof.
  induction 1 as [|c s Hc _ IH].
  - cbn. destruct (huff_run rest root) as [[[r|] h]|]; done.
  - rewrite huff_encode_cons, <- app_assoc.
    rewrite (huff_run_rest c _ [] root) by (done || apply inside_root). rewrite IH.
    destruct (huff_run rest root) as [[[r|] h]|]; done.
Qed.

Lemma huff_run_ones k :
  (k < 8)%nat → ∃ h, huff_run (replicate k true) root = Ok (Some [], h) ∧ bad_padding h = false.
Proof. intros Hk. do 8 (destruct k as [|k]; [eexists; split; vm_compute; reflexivity|]). lia. Qed.

(** The padding that is accepted. *)
Lemma good_padding q h : inside q h → bad_padding h = false → (length q < 8)%nat ∧ q = replicate (length q) true.
Proof.
  intros (_ & Hp & Hz) Hb. unfold bad_padding in Hb. apply orb_false_iff in Hb as [H7 Hb]. rewrite Hp in H7, Hb.
  split; [lia|]. destruct q as [|b q]; [done|]. rewrite (proj2 (Z.eqb_neq _ _)) in Hb by (cbn; lia).
  rewrite andb_true_r, Hz in Hb. symmetry. apply replicate_as_elem_of. split; [done|]. intros x Hx.
  destruct x; [done|]. rewrite (proj2 (existsb_exists _ _)) in Hb; [done|]. exists false. split; [by apply list_elem_of_In|done].
Qed.

(** ** Theorem *)

(** [C19] The Huffman decoder of HPACK is the code of the standard, exactly:
    the bits of any string of bytes are read without a fault, and they are
    accepted as [s], with good padding at the end, if and only if they are the
    codes of the characters of [s] followed by less than eight ones. *)
Theorem huffman_exact (cs s : list Z) :
  (∃ r, huff_run (cs ≫= byte_bits) root = Ok r)
  ∧ ((∃ h, huff_run (cs ≫= byte_bits) root = Ok (Some s, h) ∧ bad_padding h = false)
     ↔ Forall is_byte s ∧ ∃ k, (k < 8)%nat ∧ cs ≫= byte_bits = huff_encode s ++ replicate k true).
Proof.
  destruct (huff_run_sound (cs ≫= byte_bits) [] root inside_root) as (o & h' & E & Ho). split; [by eexists|]. split.
  - intros (h & E' & Hb). rewrite E in E'. injection E' as -> ->. destruct Ho as (Hs & q & Eq & Hq). split; [done|].
    destruct (good_padding _ _ Hq Hb) as [Hlen Hones]. exists (length q). split; [done|]. by rewrite <- Hones.
  - intros (Hs & k & Hk & Eq). rewrite Eq, huff_run_encode by done. destruct (huff_run_ones k Hk) as (h & -> & Hh).
    exists h. cbn. by rewrite app_nil_r.
Qed.
