(* ===== verification/HpackTable.v ===== *)
(** * The tables of HPACK

    Models the static and the dynamic table of roles/h2/hpack.c:
    lws_token_from_index, lws_dynamic_free, lws_dynamic_token_insert,
    lws_hpack_dynamic_size and lws_hpack_destroy_dynamic_header.

    The dynamic table is a ring of entries that name headers by their token, or
    LWS_HPACK_IGNORE_ENTRY for a header the server does not know, and that
    counts what it holds in its own way.  The claim is that it still has
    everything the peer may refer to: the table of the standard, which the peer
    keeps, is at all times the newest part of it. *)

From stdpp Require Import base numbers list strings.
From Stdlib Require Import ZArith Lia Ascii.
From S2P Require Import Prelude.

(** ** State *)

Definition LWS_HPACK_IGNORE_ENTRY : Z := 65535.

Record hpack_dt_entry := Entry {
  value : option (list Z);     (* malloc'd *)
  value_len : Z;
  hdr_len : Z;                 (* virtual, for accounting *)
  lws_hdr_idx : Z;
}.

Record hpack_dynamic_table := Dyn {
  entries : option (list hpack_dt_entry);    (* malloc'd *)
  virtual_payload_usage : Z;
  virtual_payload_max : Z;
  dpos : Z;
  used_entries : Z;
  num_entries : Z;
}.

#[global] Instance hpack_dt_entry_eq_dec : EqDecision hpack_dt_entry.
Proof. solve_decision. Defined.
#[global] Instance hpack_dynamic_table_eq_dec : EqDecision hpack_dynamic_table.
Proof. solve_decision. Defined.

Definition zero_entry : hpack_dt_entry := Entry None 0 0 0.

Definition static_hdr_len : list Z :=
  [0; 10; 7; 7; 5; 5; 7; 7; 7; 7; 7; 7; 7; 7; 7; 14; 15; 15; 13; 6; 27; 3; 5; 13;
   13; 19; 16; 16; 14; 16; 13; 12; 6; 4; 4; 6; 7; 4; 4; 8; 17; 13; 8; 19; 13; 4; 8; 12;
   18; 19; 5; 7; 7; 11; 6; 10; 25; 17; 10; 4; 3; 16].

Definition static_token : list Z :=
  [0; 35; 36; 36; 37; 37; 38; 38; 39; 39; 39; 39; 39; 39; 39; 40; 21; 22; 41; 17; 42; 43; 44; 25;
   24; 45; 46; 47; 27; 48; 49; 28; 26; 29; 50; 51; 52; 53; 3; 54; 19; 20; 55; 56; 57; 58; 59; 60;
   61; 62; 30; 31; 63; 64; 65; 66; 67; 68; 69; 70; 71; 72].

Definition http2_canned : list (list Z) :=
  [[]; []; bs "GET"; bs "POST"; bs "/"; bs "/index.html"; bs "http"; bs "https"; bs "200"; bs "204"; bs "206"; bs "304"; bs "400"; bs "404"; bs "500"; []; bs "gzip, deflate"].

(** ** The code *)

(** An index into the ring: [n = a % num; if (n < 0) n += num]. *)
Definition ring_index (a num : Z) : res Z :=
  if num =? 0 then Fault DivByZero
  else Ok (if Z.rem a num <? 0 then Z.rem a num + num else Z.rem a num).

Definition entry_at (d : hpack_dynamic_table) (i : Z) : res hpack_dt_entry :=
  match entries d with Some l => elem l i | None => Fault NullDeref end.

Definition put_entry (d : hpack_dynamic_table) (i : Z) (e : hpack_dt_entry) : res (list hpack_dt_entry) :=
  match entries d with Some l => store l i e | None => Fault NullDeref end.

(** The result; [*arg] and [*len] where they are set; [*hdr_len] where it is
    set; whether a GOAWAY "index out of range" is scheduled. *)
Record token_ref := Ref { tok : Z; arg : option (list Z * Z); ref_hdr_len : option Z; out_of_range : bool }.

Definition lws_token_from_index (d : hpack_dynamic_table) (index : Z) : res token_ref :=
  if index =? LWS_HPACK_IGNORE_ENTRY then Ok (Ref LWS_HPACK_IGNORE_ENTRY None None false)
  else if index <? 0 then Ok (Ref (-1) None None false)
  else if index <? Z.of_nat (length static_token) then
    t ← elem static_token index;
    h ← elem static_hdr_len index;
    Ok (Ref t (option_map (λ s, (s, Z.of_nat (length s))) (http2_canned !! Z.to_nat index)) (Some h) false)
  else if Z.of_nat (length static_token) + used_entries d <=? index then Ok (Ref (-1) None None true)
  else
    n ← ring_index (dpos d - 1 - (index - Z.of_nat (length static_token))) (num_entries d);
    e ← entry_at d n;
    Ok (Ref (lws_hdr_idx e) (option_map (λ v, (v, value_len e)) (value e)) (Some (hdr_len e)) false).

Definition lws_dynamic_free (d : hpack_dynamic_table) (idx : Z) : res hpack_dynamic_table :=
  e ← entry_at d idx;
  l ← put_entry d idx (Entry None 0 0 LWS_HPACK_IGNORE_ENTRY);
  Ok (Dyn (Some l) (u32 (virtual_payload_usage d - (value_len e + hdr_len e))) (virtual_payload_max d) (dpos d)
          (u16 (used_entries d - 1)) (num_entries d)).

(** The while loops: the oldest entries are freed as long as [more] says so. *)
Fixpoint evict (fuel : nat) (more : hpack_dynamic_table → bool) (d : hpack_dynamic_table) : res hpack_dynamic_table :=
  if negb (virtual_payload_usage d =? 0) && negb (used_entries d =? 0) && more d then
    match fuel with
    | O => Fault Unfinished
    | S fuel =>
        n ← ring_index (dpos d - used_entries d) (num_entries d);
        d ← lws_dynamic_free d n;
        evict fuel more d
    end
  else Ok d.

Definition too_full (need : Z) (d : hpack_dynamic_table) : bool :=
  u32 (virtual_payload_max d + 1024) <? u32 (virtual_payload_usage d + need).

Definition over_max (d : hpack_dynamic_table) : bool := virtual_payload_max d <? virtual_payload_usage d.

(** [arg] is the text at the pointer, [mem] that malloc gives memory. *)
Definition lws_dynamic_token_insert (mem : bool) (hlen lws_hdr_index : Z) (arg : res (list Z)) (len : Z)
    (d : hpack_dynamic_table) : res (Z * hpack_dynamic_table) :=
  match entries d with
  | None => Ok (1, d)
  | Some _ =>
      if num_entries d =? 0 then Fault DivByZero
      else
        let new_index := Z.rem (dpos d) (num_entries d) in
        d ← (if used_entries d =? num_entries d then lws_dynamic_free d new_index else Ok d);
        d ← evict (Z.to_nat (used_entries d)) (too_full (hlen + len)) d;
        let used := if used_entries d <? num_entries d then used_entries d + 1 else used_entries d in
        e ← entry_at d new_index;
        let known := negb (lws_hdr_index =? LWS_HPACK_IGNORE_ENTRY) in
        if known && negb mem then
          l ← put_entry d new_index (Entry None 0 (hdr_len e) (lws_hdr_idx e));
          Ok (1, Dyn (Some l) (virtual_payload_usage d) (virtual_payload_max d) (dpos d) used (num_entries d))
        else
          v ← (if known then t ← arg; Ok (Some t) else Ok None);
          l ← put_entry d new_index (Entry v (if known then u16 len else 0) (u16 hlen) (u16 lws_hdr_index));
          Ok (0, Dyn (Some l) (u32 (virtual_payload_usage d + hlen + len)) (virtual_payload_max d)
                     (Z.rem (dpos d + 1) (num_entries d)) used (num_entries d))
  end.

(** The copies [dte[n] = dyn->entries[m]] of the first [min] entries. *)
Fixpoint copy_entries (d : hpack_dynamic_table) (n : nat) (dte : list hpack_dt_entry) : res (list hpack_dt_entry) :=
  match n with
  | O => Ok dte
  | S n =>
      dte ← copy_entries d n dte;
      m ← ring_index (dpos d - used_entries d + Z.of_nat n) (num_entries d);
      e ← entry_at d m;
      store dte (Z.of_nat n) e
  end.

(** [limit] is the vhost's H2SET_HEADER_TABLE_SIZE, [alloc] whether there are
    that many bytes.  With the result, whether a GOAWAY is scheduled. *)
Definition lws_hpack_dynamic_size (alloc : Z → bool) (limit size : Z) (d : hpack_dynamic_table) :
    res (Z * bool * hpack_dynamic_table) :=
  if (s32 limit <? size) && (limit =? 65536) && (size =? 65537) then Ok (1, true, d)
  else
    let size := if s32 limit <? size then s32 limit else size in
    let d := Dyn (entries d) (virtual_payload_usage d) (u32 size) (dpos d) (used_entries d) (num_entries d) in
    let size := Z.quot size 8 in
    let min := Z.min size (used_entries d) in
    if size =? num_entries d then Ok (0, false, d)
    else
      let min := Z.min min (num_entries d) in
      let bytes := u64 (16 * (size + 1)) in
      if (bytes =? 0) || negb (alloc bytes) then Ok (1, false, d)
      else
        let dte := replicate (Z.to_nat (size + 1)) zero_entry in
        d ← evict (Z.to_nat (used_entries d)) over_max d;
        let min := Z.min min (used_entries d) in
        dte ← match entries d with Some _ => copy_entries d (Z.to_nat min) dte | None => Ok dte end;
        Ok (0, false, Dyn (Some dte) (virtual_payload_usage d) (virtual_payload_max d)
                          (u16 (if size =? 0 then 0 else Z.rem min size)) (u16 min) (u16 size)).

(** Every value, then the ring, is freed. *)
Fixpoint free_values (n : nat) (l : list hpack_dt_entry) : res (list hpack_dt_entry) :=
  match n with
  | O => Ok l
  | S n =>
      l ← free_values n l;
      e ← elem l (Z.of_nat n);
      store l (Z.of_nat n) (Entry None (value_len e) (hdr_len e) (lws_hdr_idx e))
  end.

Definition lws_hpack_destroy_dynamic_header (d : hpack_dynamic_table) : res hpack_dynamic_table :=
  match entries d with
  | None => Ok d
  | Some l =>
      _ ← free_values (Z.to_nat (num_entries d)) l;
      Ok (Dyn None (virtual_payload_usage d) (virtual_payload_max d) (dpos d) (used_entries d) (num_entries d))
  end.

(** zalloc'd with the connection. *)
Definition unsized_table : hpack_dynamic_table := Dyn None 0 0 0 0 0.

(** ** The reference: the table of the standard

    The peer's table: entries with the newest first, each of them counted with
    the lengths of its name and value and 32 more.  To make room, or when the
    size is changed, the oldest ones go until the rest fits.  Of a header the
    server does not know it keeps no value ([r_value]), and it may count less
    than the length of the name ([r_hlen]). *)

Record rfc_entry := Rfc { r_tok : Z; r_value : list Z; r_hlen : Z; r_nlen : Z; r_vlen : Z }.

Definition rfc_size (e : rfc_entry) : Z := 32 + r_nlen e + r_vlen e.

Fixpoint keep (room : Z) (l : list rfc_entry) : list rfc_entry :=
  match l with
  | [] => []
  | e :: l => if rfc_size e <=? room then e :: keep (room - rfc_size e) l else []
  end.

(** An entry as the ring has it. *)
Definition entry_of (e : rfc_entry) : hpack_dt_entry :=
  if r_tok e =? LWS_HPACK_IGNORE_ENTRY then Entry None 0 (r_hlen e) LWS_HPACK_IGNORE_ENTRY
  else Entry (Some (r_value e)) (Z.of_nat (length (r_value e))) (r_hlen e) (r_tok e).

(** A header that is known is kept with its value; one that is not has no
    text in the header store. *)
Definition rfc_ok (e : rfc_entry) : Prop :=
  0 <= r_tok e < 65536 ∧ 0 <= r_hlen e < 65536 ∧ r_hlen e <= r_nlen e ∧ Z.of_nat (length (r_value e)) < 65536
  ∧ Z.of_nat (length (r_value e)) <= r_vlen e
  ∧ (r_tok e = LWS_HPACK_IGNORE_ENTRY → r_value e = []).

#[global] Instance rfc_ok_dec e : Decision (rfc_ok e).
Proof. unfold rfc_ok. apply _. Defined.

Inductive table_op := TInsert (e : rfc_entry) | TResize (n : Z).

Definition rfc_step (o : table_op) (r : Z * list rfc_entry) : Z * list rfc_entry :=
  match o with
  | TInsert e => (r.1, keep r.1 (e :: r.2))
  | TResize n => (n, keep n r.2)
  end.

Definition table_step (alloc : Z → bool) (limit : Z) (o : table_op) (d : hpack_dynamic_table) :
    res (Z * hpack_dynamic_table) :=
  match o with
  | TInsert e =>
      lws_dynamic_token_insert true (r_hlen e) (r_tok e) (Ok (r_value e)) (Z.of_nat (length (r_value e))) d
  | TResize n => '(r, _, d) ← lws_hpack_dynamic_size alloc limit n d; Ok (r, d)
  end.

Fixpoint table_run (alloc : Z → bool) (limit : Z) (os : list table_op) (d : hpack_dynamic_table) :
    res (Z * hpack_dynamic_table) :=
  match os with
  | [] => Ok (0, d)
  | o :: os =>
      '(r, d) ← table_step alloc limit o d;
      if r =? 0 then table_run alloc limit os d else Ok (r, d)
  end.

(** What the operations need: a ring to insert into, and, to be made smaller,
    room for the entries that are in use, unless it is emptied. *)
Definition op_fits (limit : Z) (o : table_op) (d : hpack_dynamic_table) : Prop :=
  match o with
  | TInsert e => rfc_ok e ∧ num_entries d ≠ 0
  | TResize n => n = 0 ∨ (8 <= n <= limit ∧ used_entries d <= n / 8)
  end.

#[global] Instance op_fits_dec limit o d : Decision (op_fits limit o d).
Proof. destruct o; unfold op_fits; apply _. Defined.

Fixpoint ops_fit (alloc : Z → bool) (limit : Z) (os : list table_op) (d : hpack_dynamic_table) : bool :=
  match os with
  | [] => true
  | o :: os =>
      bool_decide (op_fits limit o d)
      && match table_step alloc limit o d with Ok (_, d) => ops_fit alloc limit os d | Fault _ => true end
  end.

(** ** Lemmas: the ring *)

Definition weight (e : hpack_dt_entry) : Z := value_len e + hdr_len e.

Definition usage (L : list hpack_dt_entry) : Z := foldr (λ e n, weight e + n) 0 L.

Definition entry_ok (e : hpack_dt_entry) : Prop := 0 <= value_len e < 65536 ∧ 0 <= hdr_len e < 65536.

(** The place of the [i]th newest entry. *)
Definition place (d : hpack_dynamic_table) (i : nat) : nat := Z.to_nat ((dpos d - 1 - Z.of_nat i) `mod` num_entries d).

(** The table holds the entries [L], the newest first. *)
Record holds (d : hpack_dynamic_table) (L : list hpack_dt_entry) : Prop := {
  h_ring : ∃ l, entries d = Some l ∧ Z.of_nat (length l) = num_entries d + 1
             ∧ ∀ i e, L !! i = Some e → l !! place d i = Some e;
  h_num : 0 <= num_entries d <= 8192;
  h_pos : 0 <= dpos d ∧ (num_entries d ≠ 0 → dpos d < num_entries d);
  h_used : used_entries d = Z.of_nat (length L) ∧ Z.of_nat (length L) <= num_entries d;
  h_usage : virtual_payload_usage d = usage L;
  h_ok : Forall entry_ok L;
}.

Lemma ring_index_ok a n : 0 < n → ring_index a n = Ok (a `mod` n).
Proof.
  intros Hn. unfold ring_index. rewrite (proj2 (Z.eqb_neq n 0)) by lia. f_equal.
  pose proof (Z.rem_bound_abs a n). pose proof (Z.quot_rem' a n). pose proof (Z.mod_pos_bound a n Hn).
  pose proof (Z.div_mod a n). destruct (Z.ltb_spec (Z.rem a n) 0).
  - apply Z.mod_unique with (q := Z.quot a n - 1); lia.
  - apply Z.mod_unique with (q := Z.quot a n); lia.
Qed.

Lemma usage_cons e L : usage (e :: L) = weight e + usage L.
Proof. reflexivity. Qed.

Lemma usage_app L M : usage (L ++ M) = usage L + usage M.
Proof. induction L as [|e L IH]; [done|]. cbn [app]. rewrite !usage_cons, IH. lia. Qed.

Lemma usage_bounds L : Forall entry_ok L → 0 <= usage L <= 131070 * Z.of_nat (length L).
Proof.
  induction 1 as [|e L He _ IH]; [cbn; lia|]. rewrite usage_cons. cbn [length]. unfold weight, entry_ok in *. lia.
Qed.

Lemma usage_prefix L k : Forall entry_ok L → usage (take k L) <= usage L.
Proof.
  intros H. rewrite <- (take_drop k L) at 2. rewrite usage_app.
  pose proof (usage_bounds (drop k L) ltac:(by apply Forall_drop)). lia.
Qed.

Lemma place_lt d L i : holds d L → num_entries d ≠ 0 → Z.of_nat (place d i) < num_entries d.
Proof.
  intros H Hn. pose proof (h_num _ _ H). unfold place.
  pose proof (Z.mod_pos_bound (dpos d - 1 - Z.of_nat i) (num_entries d)). lia.
Qed.

(** Two places in use are different ones. *)
Lemma place_inj d i j :
  Z.of_nat i < num_entries d → Z.of_nat j < num_entries d → place d i = place d j → i = j.
Proof.
  intros Hi Hj E. unfold place in E. set (n := num_entries d) in *.
  pose proof (Z.mod_pos_bound (dpos d - 1 - Z.of_nat i) n). pose proof (Z.mod_pos_bound (dpos d - 1 - Z.of_nat j) n).
  pose proof (Z.div_mod (dpos d - 1 - Z.of_nat i) n). pose proof (Z.div_mod (dpos d - 1 - Z.of_nat j) n).
  set (q := (dpos d - 1 - Z.of_nat i) `div` n) in *. set (r := (dpos d - 1 - Z.of_nat j) `div` n) in *.
  assert (Z.of_nat j - Z.of_nat i = n * (q - r)) by lia. destruct (Z.eq_dec (q - r) 0); [nia|].
  assert (q - r >= 1 ∨ q - r <= -1) as [|] by lia; nia.
Qed.

Lemma entry_at_place d L i e : holds d L → L !! i = Some e → entry_at d (Z.of_nat (place d i)) = Ok e.
Proof.
  intros H Hi. destruct (h_ring _ _ H) as (l & Hl & _ & Hp). unfold entry_at. rewrite Hl. apply elem_ok. by apply Hp.
Qed.

(** An entry is found by its index. *)
Lemma token_from_index_ok d L i e :
  holds d L → L !! i = Some e →
  lws_token_from_index d (62 + Z.of_nat i)
  = Ok (Ref (lws_hdr_idx e) (option_map (λ v, (v, value_len e)) (value e)) (Some (hdr_len e)) false).
Proof.
  intros H Hi. pose proof (lookup_lt_Some _ _ _ Hi) as Hlt. destruct (h_used _ _ H) as [Hu Hn]. pose proof (h_num _ _ H).
  unfold lws_token_from_index, LWS_HPACK_IGNORE_ENTRY. change (Z.of_nat (length static_token)) with 62.
  rewrite (proj2 (Z.eqb_neq _ _)), (proj2 (Z.ltb_ge _ _)), (proj2 (Z.ltb_ge _ _)), (proj2 (Z.leb_gt _ _)) by lia.
  rewrite ring_index_ok by lia. cbn [mbind res_bind].
  replace (dpos d - 1 - (62 + Z.of_nat i - 62)) with (dpos d - 1 - Z.of_nat i) by lia.
  pose proof (entry_at_place d L i e H Hi) as E. unfold place in E. rewrite Z2Nat.id in E.
  - by rewrite E.
  - apply Z.mod_pos_bound. lia.
Qed.

(** The oldest entry is freed. *)
Lemma free_oldest d L e :
  holds d (L ++ [e]) →
  ∃ d', lws_dynamic_free d (Z.of_nat (place d (length L))) = Ok d' ∧ holds d' L
    ∧ virtual_payload_max d' = virtual_payload_max d ∧ dpos d' = dpos d ∧ num_entries d' = num_entries d.
Proof.
  intros H. assert ((L ++ [e]) !! length L = Some e) as He by (rewrite lookup_app_r, Nat.sub_diag by lia; done).
  pose proof (entry_at_place _ _ _ _ H He) as Ee. destruct (h_ring _ _ H) as (l & Hl & Hlen & Hp).
  destruct (h_used _ _ H) as [Hu Hn]. rewrite length_app in Hu, Hn. cbn [length] in Hu, Hn. pose proof (h_num _ _ H) as Hnum.
  pose proof (place_lt _ _ (length L) H ltac:(lia)) as Hpl.
  pose proof (h_ok _ _ H) as Hok. apply Forall_app in Hok as [Hok1 Hok2]. apply Forall_singleton in Hok2.
  pose proof (usage_bounds L Hok1). unfold lws_dynamic_free, put_entry. rewrite Ee, Hl. cbn [mbind res_bind].
  rewrite store_ok by lia. cbn [mbind res_bind]. eexists. split; [done|]. split; [|done].
  split; cbn [entries virtual_payload_usage dpos used_entries num_entries]; try apply H; [|split|..|done].
  - eexists. split; [done|]. split; [by rewrite length_insert|]. intros i e' Hi. pose proof (lookup_lt_Some _ _ _ Hi).
    change (place _ i) with (place d i). rewrite list_lookup_insert_ne.
    + apply Hp. by rewrite lookup_app_l.
    + intros E. apply place_inj in E; lia.
  - rewrite u16_small; lia.
  - lia.
  - rewrite (h_usage _ _ H), usage_app. cbn. unfold entry_ok, weight in *. rewrite u32_small; lia.
Qed.

Definition same_ring (d d' : hpack_dynamic_table) : Prop :=
  virtual_payload_max d' = virtual_payload_max d ∧ dpos d' = dpos d ∧ num_entries d' = num_entries d.

Lemma same_ring_trans a b c : same_ring a b → same_ring b c → same_ring a c.
Proof. unfold same_ring. intuition congruence. Qed.

(** The loop frees the oldest entries, and none of [k] newest ones that are
    not too many. *)
Lemma evict_ok more d L :
  holds d L →
  ∃ m d', evict (length L) more d = Ok d' ∧ (m ≤ length L)%nat ∧ holds d' (take m L) ∧ same_ring d d'
    ∧ (virtual_payload_usage d' = 0 ∨ m = 0%nat ∨ more d' = false)
    ∧ ∀ k, (k ≤ length L)%nat → (∀ d'', holds d'' (take k L) → same_ring d d'' → more d'' = false) → (k ≤ m)%nat.
Proof.
  revert d. induction L as [|e L IH] using rev_ind; intros d H.
  { exists 0%nat, d. destruct (h_used _ _ H) as [Hu _]. cbn [length evict] in *. rewrite Hu. cbn. rewrite andb_false_r.
    do 4 (split; [done|]). split; [by right; left|]. by intros. }
  destruct (negb (virtual_payload_usage d =? 0) && negb (used_entries d =? 0) && more d) eqn:E.
  - rewrite length_app. cbn [length]. rewrite Nat.add_1_r. cbn [evict]. rewrite E.
    destruct (h_used _ _ H) as [Hu Hn]. rewrite length_app in Hu, Hn. cbn [length] in Hu, Hn. pose proof (h_num _ _ H).
    rewrite ring_index_ok by lia. cbn [mbind res_bind]. rewrite Hu.
    replace (dpos d - Z.of_nat (length L + 1)) with (dpos d - 1 - Z.of_nat (length L)) by lia.
    destruct (free_oldest d L e H) as (d1 & E1 & H1 & Hs1). unfold place in E1. rewrite Z2Nat.id in E1 by (apply Z.mod_pos_bound; lia).
    rewrite E1. cbn [mbind res_bind]. destruct (IH d1 H1) as (m & d' & E' & Hm & H' & Hs' & Hf & Hk).
    exists m, d'. split; [done|]. split; [lia|]. rewrite (take_app_le L [e] m) by lia. split; [done|].
    split; [by eapply same_ring_trans|]. split; [done|]. intros k Hk1 Hk2.
    destruct (decide (k = S (length L))) as [->|].
    + rewrite take_ge in Hk2 by (rewrite length_app; cbn; lia). rewrite (Hk2 d H) in E by done. by rewrite andb_false_r in E.
    + apply Hk; [lia|]. intros d'' Hd Hsd. apply Hk2; [by rewrite take_app_le by lia|]. by eapply same_ring_trans.
  - exists (length (L ++ [e])), d. split; [destruct (length (L ++ [e])); cbn [evict]; by rewrite E|].
    rewrite take_ge by done. do 3 (split; [done|]). split; [|by intros].
    destruct (h_used _ _ H) as [Hu _]. rewrite !andb_false_iff, !negb_false_iff, !Z.eqb_eq in E. rewrite Hu in E.
    destruct E as [[|]|]; [by left|right; left; lia|by right; right].
Qed.

(** ** Lemmas: the operations *)

(** Bits of a put: the places that keep their entries. *)
Lemma holds_push d L e need :
  holds d L → Z.of_nat (length L) < num_entries d → entry_ok e → weight e = need →
  ∃ l, put_entry d (dpos d) e = Ok l
    ∧ holds (Dyn (Some l) (u32 (virtual_payload_usage d + need)) (virtual_payload_max d)
                 (Z.rem (dpos d + 1) (num_entries d)) (used_entries d + 1) (num_entries d)) (e :: L).
Proof.
  intros H Hlt He Hw. destruct (h_ring _ _ H) as (l & Hl & Hlen & Hp). destruct (h_pos _ _ H) as [Hp0 Hp1].
  pose proof (h_num _ _ H) as Hnum. specialize (Hp1 ltac:(lia)). destruct (h_used _ _ H) as [Hu Hn].
  pose proof (usage_bounds _ (h_ok _ _ H)) as Hus. exists (<[Z.to_nat (dpos d) := e]> l). unfold put_entry. rewrite Hl.
  rewrite <- (Z2Nat.id (dpos d)) at 1 by lia. rewrite store_ok by lia. split; [done|].
  rewrite Z.rem_mod_nonneg by lia. set (d' := Dyn _ _ _ _ _ _).
  assert (∀ i, place d' (S i) = place d i) as Hplace.
  { intros i. unfold place, d'. cbn [dpos num_entries]. f_equal.
    replace ((dpos d + 1) `mod` num_entries d - 1 - Z.of_nat (S i))
      with ((dpos d + 1) `mod` num_entries d - (Z.of_nat i + 2)) by lia.
    rewrite Zminus_mod_idemp_l. f_equal. lia. }
  assert (place d' 0 = Z.to_nat (dpos d)) as Hplace0.
  { unfold place, d'. cbn [dpos num_entries]. f_equal. change (Z.of_nat 0) with 0. rewrite Z.sub_0_r, Zminus_mod_idemp_l.
    rewrite Z.mod_small; lia. }
  split; cbn [entries virtual_payload_usage dpos used_entries num_entries length d'].
  - eexists. split; [done|]. split; [by rewrite length_insert|]. intros [|i] e' Hi.
    + injection Hi as <-. rewrite Hplace0. apply list_lookup_insert_eq. lia.
    + cbn in Hi. pose proof (lookup_lt_Some _ _ _ Hi). rewrite Hplace. rewrite list_lookup_insert_ne; [by apply Hp|].
      intros E. rewrite <- Hplace0, <- Hplace in E. apply place_inj in E; cbn [num_entries d']; lia.
  - lia.
  - pose proof (Z.mod_pos_bound (dpos d + 1) (num_entries d)). lia.
  - lia.
  - rewrite (h_usage _ _ H), usage_cons, Hw. rewrite u32_small; [lia|]. unfold weight, entry_ok in *. lia.
  - constructor; [done|]. apply H.
Qed.

Lemma rfc_entry_ok e : rfc_ok e → entry_ok (entry_of e).
Proof. unfold rfc_ok, entry_ok, entry_of. intros. case_match; cbn; lia. Qed.

Lemma rfc_weight e : rfc_ok e → weight (entry_of e) = r_hlen e + Z.of_nat (length (r_value e)).
Proof.
  unfold rfc_ok, weight, entry_of. intros (_ & _ & _ & _ & _ & H). destruct (Z.eqb_spec (r_tok e) LWS_HPACK_IGNORE_ENTRY) as [E|];
    cbn; [rewrite (H E); cbn|]; lia.
Qed.

(** The first step of an insertion: a full ring loses its oldest entry. *)
Lemma make_place d L :
  holds d L → num_entries d ≠ 0 →
  ∃ m d', (if used_entries d =? num_entries d then lws_dynamic_free d (dpos d) else Ok d) = Ok d'
    ∧ holds d' (take m L) ∧ same_ring d d' ∧ (m ≤ length L)%nat ∧ Z.of_nat m < num_entries d
    ∧ ∀ k, (k ≤ length L)%nat → Z.of_nat k < num_entries d → (k ≤ m)%nat.
Proof.
  intros H Hn0. destruct (h_used _ _ H) as [Hu Hn]. pose proof (h_num _ _ H). destruct (h_pos _ _ H) as [Hp0 Hp1].
  specialize (Hp1 Hn0). rewrite Hu. destruct (Z.eqb_spec (Z.of_nat (length L)) (num_entries d)) as [Hf|Hf].
  - destruct L as [|e L _] using rev_ind; [cbn in Hf; lia|]. rewrite length_app in *. cbn [length] in *.
    destruct (free_oldest d L e H) as (d' & E & H' & Hs). exists (length L), d'.
    assert (Z.of_nat (place d (length L)) = dpos d) as Epl.
    { unfold place. rewrite Z2Nat.id by (apply Z.mod_pos_bound; lia).
      replace (dpos d - 1 - Z.of_nat (length L)) with (dpos d + (-1) * num_entries d) by lia.
      rewrite Z.mod_add by lia. apply Z.mod_small. lia. }
    rewrite Epl in E. rewrite take_app_length. repeat split; try apply H'; try apply Hs; try done; lia.
  - exists (length L), d. rewrite take_ge by done. do 3 (split; [done|]). split; [done|]. split; [lia|]. by intros.
Qed.

Lemma token_insert_ok d L e :
  holds d L → num_entries d ≠ 0 → rfc_ok e → 0 <= virtual_payload_max d <= 65536 →
  ∃ m d', lws_dynamic_token_insert true (r_hlen e) (r_tok e) (Ok (r_value e)) (Z.of_nat (length (r_value e))) d = Ok (0, d')
    ∧ holds d' (entry_of e :: take m L) ∧ virtual_payload_max d' = virtual_payload_max d ∧ num_entries d' = num_entries d
    ∧ ∀ k, (k ≤ length L)%nat → Z.of_nat k < num_entries d →
           usage (take k L) + weight (entry_of e) <= virtual_payload_max d → (k ≤ m)%nat.
Proof.
  intros H Hn0 He Hmax. pose proof He as (Ht & Hh & _ & Hv & _ & Hig). destruct (h_ring _ _ H) as (l & Hl & _).
  destruct (h_pos _ _ H) as [Hp0 Hp1]. specialize (Hp1 Hn0). pose proof (h_num _ _ H) as Hnum.
  destruct (make_place d L H Hn0) as (m1 & d1 & E1 & H1 & (Hx1 & Hs1 & Hn1) & Hm1 & Hm1n & Hk1).
  destruct (evict_ok (too_full (r_hlen e + Z.of_nat (length (r_value e)))) d1 _ H1)
    as (m2 & d2 & E2 & Hm2 & H2 & (Hx2 & Hs2 & Hn2) & _ & Hk2).
  rewrite length_take, Nat.min_l in E2, Hm2, Hk2 by done. rewrite take_take, Nat.min_l in H2 by done.
  destruct (h_used _ _ H2) as [Hu2 _]. rewrite length_take, Nat.min_l in Hu2 by lia.
  destruct (holds_push d2 (take m2 L) (entry_of e) (r_hlen e + Z.of_nat (length (r_value e))) H2) as (l' & El' & H').
  { rewrite length_take. lia. } { by apply rfc_entry_ok. } { by apply rfc_weight. }
  unfold lws_dynamic_token_insert. rewrite Hl. rewrite (proj2 (Z.eqb_neq _ _)) by done.
  rewrite (Z.rem_small (dpos d)) by lia. rewrite E1. cbn [mbind res_bind].
  assert (Z.to_nat (used_entries d1) = m1) as ->.
  { destruct (h_used _ _ H1) as [-> _]. rewrite length_take, Nat.min_l by done. lia. }
  rewrite E2. cbn [mbind res_bind]. rewrite (proj2 (Z.ltb_lt (used_entries d2) _)) by lia.
  assert (∃ e', entry_at d2 (dpos d) = Ok e') as [e' ->].
  { destruct (h_ring _ _ H2) as (l2 & Hl2 & Hlen2 & _). unfold entry_at. rewrite Hl2.
    destruct (lookup_lt_is_Some_2 l2 (Z.to_nat (dpos d))) as [x Hx]; [lia|]. exists x.
    rewrite <- (Z2Nat.id (dpos d)) by lia. by apply elem_ok. }
  cbn [mbind res_bind]. cbn [negb]. rewrite andb_false_r.
  assert (dpos d2 = dpos d) as Ed by lia. rewrite Ed in El', H' |- *. exists m2.
  assert (Entry (if negb (r_tok e =? LWS_HPACK_IGNORE_ENTRY) then Some (r_value e) else None)
            (if negb (r_tok e =? LWS_HPACK_IGNORE_ENTRY) then u16 (Z.of_nat (length (r_value e))) else 0)
            (u16 (r_hlen e)) (u16 (r_tok e)) = entry_of e) as Een.
  { rewrite !u16_small by lia. unfold entry_of. by destruct (Z.eqb_spec (r_tok e) LWS_HPACK_IGNORE_ENTRY) as [->|]. }
  eexists. split; [|split; [exact H'|]].
  { destruct (negb (r_tok e =? LWS_HPACK_IGNORE_ENTRY)); cbn [mbind res_bind]; rewrite Een, El'; cbn [mbind res_bind];
      by rewrite <- Z.add_assoc. }
  cbn [virtual_payload_max num_entries]. split; [lia|]. split; [lia|]. intros k Hk Hkn Hfit.
  apply Hk2; [by apply Hk1|]. intros d'' Hd'' (Hx'' & _). rewrite take_take, Nat.min_l in Hd'' by by apply Hk1.
  unfold too_full. apply Z.ltb_ge. rewrite (h_usage _ _ Hd''). rewrite (rfc_weight e He) in Hfit.
  pose proof (usage_bounds (take k L) ltac:(apply Forall_take, (h_ok _ _ H))).
  rewrite !u32_small by lia. lia.
Qed.

(** The copies: the oldest entry is the first one. *)
Lemma copy_entries_ok d L dte n :
  holds d L → (n ≤ length L)%nat → (n ≤ length dte)%nat →
  ∃ dte', copy_entries d n dte = Ok dte' ∧ length dte' = length dte
    ∧ ∀ i, (i < n)%nat → dte' !! i = L !! (length L - 1 - i)%nat.
Proof.
  intros H. induction n as [|n IH]; intros Hn Hd; [exists dte; split; [done|]; split; [done|lia]|].
  destruct IH as (dte' & E & Hlen & Hi); [lia|lia|]. cbn [copy_entries]. rewrite E. cbn [mbind res_bind].
  destruct (h_used _ _ H) as [Hu Hnum]. rewrite ring_index_ok by lia. cbn [mbind res_bind]. rewrite Hu.
  destruct (lookup_lt_is_Some_2 L (length L - 1 - n)) as [e He]; [lia|].
  pose proof (entry_at_place _ _ _ _ H He) as Ee. unfold place in Ee. rewrite Z2Nat.id in Ee by (apply Z.mod_pos_bound; lia).
  replace (dpos d - Z.of_nat (length L) + Z.of_nat n) with (dpos d - 1 - Z.of_nat (length L - 1 - n)) by lia.
  rewrite Ee. cbn [mbind res_bind]. rewrite store_ok by lia. eexists. split; [done|]. rewrite length_insert. split; [done|].
  intros i Hlt. destruct (decide (i = n)) as [->|].
  - rewrite list_lookup_insert_eq by lia. done.
  - rewrite list_lookup_insert_ne by done. apply Hi. lia.
Qed.

(** The new ring, with the entries in order. *)
Lemma holds_copied d dte L size max :
  length dte = Z.to_nat (size + 1) → 0 <= size <= 8192 → Z.of_nat (length L) <= size → Forall entry_ok L →
  (∀ i, (i < length L)%nat → dte !! i = L !! (length L - 1 - i)%nat) →
  virtual_payload_usage d = usage L →
  holds (Dyn (Some dte) (virtual_payload_usage d) max
             (u16 (if size =? 0 then 0 else Z.rem (Z.of_nat (length L)) size)) (u16 (Z.of_nat (length L))) (u16 size)) L.
Proof.
  intros Hlen Hs HL Hok Hd Hu. rewrite (u16_small size), (u16_small (Z.of_nat _)) by lia.
  assert ((if size =? 0 then 0 else Z.rem (Z.of_nat (length L)) size)
          = if Z.of_nat (length L) =? size then 0 else Z.of_nat (length L)) as ->.
  { destruct (Z.eqb_spec size 0) as [->|]; [by destruct (Z.eqb_spec (Z.of_nat (length L)) 0); lia|].
    destruct (Z.eqb_spec (Z.of_nat (length L)) size) as [->|]; [by apply Z.rem_same|]. apply Z.rem_small. lia. }
  rewrite u16_small by (destruct (_ =? _); lia).
  split; cbn [entries virtual_payload_usage dpos used_entries num_entries]; try done; try lia.
  - exists dte. split; [done|]. split; [lia|]. intros i e Hi. pose proof (lookup_lt_Some _ _ _ Hi).
    rewrite <- Hi. transitivity (L !! (length L - 1 - (length L - 1 - i))%nat); [|f_equal; lia].
    rewrite <- Hd by lia. unfold place. cbn [dpos num_entries]. f_equal. apply Nat2Z.inj.
    rewrite Z2Nat.id by (apply Z.mod_pos_bound; lia). destruct (Z.eqb_spec (Z.of_nat (length L)) size).
    + replace (0 - 1 - Z.of_nat i) with (size - 1 - Z.of_nat i + (-1) * size) by lia.
      rewrite Z.mod_add by lia. rewrite Z.mod_small; lia.
    + rewrite Z.mod_small; lia.
  - destruct (Z.eqb_spec (Z.of_nat (length L)) size); lia.
Qed.

Section Resizing.
  Context (alloc : Z → bool) (limit : Z).
  Hypothesis Halloc : ∀ b, 0 < b <= 131088 → alloc b = true.
  Hypothesis Hlimit : limit <= 65536.

(** The start of it, for a size the peer may ask for. *)
Lemma dynamic_size_unfold n d :
  0 <= n <= limit →
  lws_hpack_dynamic_size alloc limit n d
  = let d := Dyn (entries d) (virtual_payload_usage d) n (dpos d) (used_entries d) (num_entries d) in
    if n / 8 =? num_entries d then Ok (0, false, d)
    else
      let min := Z.min (Z.min (n / 8) (used_entries d)) (num_entries d) in
      d ← evict (Z.to_nat (used_entries d)) over_max d;
      let min := Z.min min (used_entries d) in
      dte ← match entries d with
            | Some _ => copy_entries d (Z.to_nat min) (replicate (Z.to_nat (n / 8 + 1)) zero_entry)
            | None => Ok (replicate (Z.to_nat (n / 8 + 1)) zero_entry)
            end;
      Ok (0, false, Dyn (Some dte) (virtual_payload_usage d) (virtual_payload_max d)
                        (u16 (if n / 8 =? 0 then 0 else Z.rem min (n / 8))) (u16 min) (u16 (n / 8))).
Proof.
  intros Hn. unfold lws_hpack_dynamic_size. rewrite (s32_small limit) by (unfold INT_MIN, INT_MAX; lia).
  rewrite (proj2 (Z.ltb_ge _ _)) by lia. cbn [andb]. rewrite (u32_small n) by lia. rewrite Z.quot_div_nonneg by lia.
  cbn [used_entries num_entries]. destruct (n / 8 =? num_entries d); [done|].
  assert (0 <= n / 8 <= 8192) by (split; [apply Z.div_pos; lia|apply Z.div_le_upper_bound; lia]).
  rewrite u64_small by lia. rewrite (proj2 (Z.eqb_neq _ 0)) by lia. rewrite Halloc by lia. done.
Qed.

Lemma resize_ok d L n :
  holds d L → 0 <= limit → n = 0 ∨ (8 <= n <= limit ∧ used_entries d <= n / 8) →
  ∃ m d', lws_hpack_dynamic_size alloc limit n d = Ok (0, false, d')
    ∧ holds d' (take m L) ∧ virtual_payload_max d' = n ∧ num_entries d' = n / 8
    ∧ ∀ k, (k ≤ length L)%nat → Z.of_nat k <= n / 8 → usage (take k L) <= n → (k ≤ m)%nat.
Proof.
  intros H Hl0 Hn. assert (0 <= n <= limit) as Hnl by lia. pose proof (h_num _ _ H) as Hnum.
  assert (0 <= n / 8 <= 8192) as Hq by (split; [apply Z.div_pos; lia|apply Z.div_le_upper_bound; lia]).
  rewrite dynamic_size_unfold by done. cbv zeta. cbn [used_entries num_entries].
  assert (holds (Dyn (entries d) (virtual_payload_usage d) n (dpos d) (used_entries d) (num_entries d)) L) as H0
    by (destruct H; by split).
  set (d0 := Dyn _ _ n _ _ _) in *. destruct (Z.eqb_spec (n / 8) (num_entries d)) as [Eq|Ne].
  { exists (length L), d0. rewrite take_ge by done. do 4 (split; [done|]). by intros. }
  destruct (evict_ok over_max d0 L H0) as (m & d1 & E1 & Hm & H1 & (Hx1 & Hp1 & Hn1) & Hf & Hk).
  destruct (h_used _ _ H) as [Hu HL]. rewrite Hu, Nat2Z.id, E1. cbn [mbind res_bind].
  destruct (h_used _ _ H1) as [Hu1 _]. rewrite length_take, Nat.min_l in Hu1 by done. rewrite Hu1.
  destruct (h_ring _ _ H1) as (l1 & -> & _).
  set (min := Z.min (Z.min (Z.min (n / 8) (Z.of_nat (length L))) (num_entries d)) (Z.of_nat m)).
  assert (Z.to_nat min = if n =? 0 then 0%nat else m) as Emin.
  { unfold min. destruct (Z.eqb_spec n 0) as [->|]; [change (0 / 8) with 0|]; lia. }
  assert (Z.of_nat (if n =? 0 then 0%nat else m) = min) as Emin' by (rewrite <- Emin; unfold min; lia).
  set (m' := if n =? 0 then 0%nat else m) in *. assert (m' ≤ m)%nat as Hm' by (unfold m'; destruct (n =? 0); lia).
  destruct (copy_entries_ok d1 (take m L) (replicate (Z.to_nat (n / 8 + 1)) zero_entry) m' H1) as (dte & Ed & Hdl & Hdi).
  { rewrite length_take. lia. } { rewrite length_replicate. unfold min in Emin'. lia. }
  rewrite Emin, Ed. cbn [mbind res_bind]. rewrite length_replicate in Hdl.
  assert (length (take m' L) = m') as Hlm by (rewrite length_take; lia).
  assert (usage (take m L) = usage (take m' L)) as Hus.
  { unfold m'. destruct (Z.eqb_spec n 0) as [->|]; [|done]. rewrite <- (h_usage _ _ H1).
    pose proof (usage_bounds _ (h_ok _ _ H1)) as Hb. rewrite <- (h_usage _ _ H1) in Hb. destruct Hf as [->|[->|Hf]]; [done| |].
    - rewrite (h_usage _ _ H1). done.
    - unfold over_max in Hf. change (virtual_payload_max d1 = 0) in Hx1. rewrite Hx1 in Hf. change (usage (take 0 L)) with 0. lia. }
  eexists m', _. split; [done|]. cbn [virtual_payload_max num_entries]. rewrite <- Emin', <- Hlm at 1. rewrite <- Hlm at 2.
  split; [|split; [done|split; [rewrite u16_small; lia|]]].
  - rewrite Hlm. rewrite <- Emin'. rewrite <- Hlm at 1 2. apply holds_copied; try done.
    + rewrite Hlm. unfold min in Emin'. lia.
    + apply Forall_take, (h_ok _ _ H).
    + intros i Hi. rewrite Hlm in Hi. rewrite Hdi by done. rewrite Hlm, length_take, Nat.min_l by done.
      unfold m' in *. destruct (n =? 0); [lia|]. done.
    + rewrite <- Hus. apply H1.
  - intros k Hk1 Hk2 Hk3. unfold m'. destruct (Z.eqb_spec n 0) as [->|]; [change (0 / 8) with 0 in Hk2; lia|].
    apply Hk; [done|]. intros d'' Hd (Hxd & _). unfold over_max. change (virtual_payload_max d'' = n) in Hxd. rewrite (h_usage _ _ Hd), Hxd. lia.
Qed.

End Resizing.

(** ** Lemmas: the table of the standard *)

Definition total (R : list rfc_entry) : Z := foldr (λ e n, rfc_size e + n) 0 R.

Lemma total_cons e R : total (e :: R) = rfc_size e + total R.
Proof. reflexivity. Qed.

Lemma keep_prefix room R :
  0 <= room → ∃ k, (k ≤ length R)%nat ∧ keep room R = take k R ∧ total (keep room R) <= room.
Proof.
  revert room. induction R as [|e R IH]; intros room Hr; cbn [keep]; [exists 0%nat; cbn; split; [lia|done]|].
  destruct (Z.leb_spec (rfc_size e) room); [|exists 0%nat; cbn; split; [lia|done]].
  destruct (IH (room - rfc_size e)) as (k & Hk & E & Ht); [lia|]. exists (S k). cbn [length take]. rewrite total_cons, E in *.
  split; [lia|]. split; [done|lia].
Qed.

Lemma rfc_usage R : Forall rfc_ok R → usage (entry_of <$> R) + 32 * Z.of_nat (length R) <= total R.
Proof.
  induction 1 as [|e R He _ IH]; [done|]. rewrite fmap_cons, usage_cons, total_cons, (rfc_weight e He). cbn [length].
  unfold rfc_size. destruct He as (_ & _ & Hn & _ & Hv & _). lia.
Qed.

(** The newest entries of the ring are the peer's table. *)
Record serves (limit : Z) (d : hpack_dynamic_table) (r : Z * list rfc_entry) : Prop := {
  s_holds : ∃ L, holds d ((entry_of <$> r.2) ++ L);
  s_max : virtual_payload_max d = r.1 ∧ 0 <= r.1 <= limit;
  s_num : num_entries d = r.1 / 8;
  s_ok : Forall rfc_ok r.2;
  s_total : total r.2 <= r.1;
}.

(** A ring that keeps the [k] newest entries of the peer's. *)
Lemma prefix_app (R : list rfc_entry) (L : list hpack_dt_entry) k m :
  (k ≤ length R)%nat → (k ≤ m)%nat →
  ∃ L', take m ((entry_of <$> R) ++ L) = (entry_of <$> take k R) ++ L'.
Proof.
  intros Hk Hm. exists (drop k (take m ((entry_of <$> R) ++ L))).
  rewrite <- (take_drop k (take m _)) at 1. f_equal. rewrite take_take, Nat.min_l by done.
  rewrite take_app_le by (rewrite length_fmap; lia). by rewrite fmap_take.
Qed.

Lemma serves_insert limit d r e :
  limit <= 65536 → serves limit d r → rfc_ok e → num_entries d ≠ 0 →
  ∃ d', table_step (λ _, true) limit (TInsert e) d = Ok (0, d') ∧ serves limit d' (rfc_step (TInsert e) r).
Proof.
  intros Hl [(L & H) [Hx Hxr] Hn Hok Ht] He Hn0. destruct r as [max R]. cbn [fst snd] in *.
  destruct (token_insert_ok d _ e H Hn0 He) as (m & d' & E & H' & Hx' & Hn' & Hk); [lia|]. exists d'. split; [exact E|].
  cbn [rfc_step fst snd]. destruct (Z.leb_spec (rfc_size e) max) as [Hfit|Hfit].
  - cbn [keep]. rewrite (proj2 (Z.leb_le _ _)) by done.
    destruct (keep_prefix (max - rfc_size e) R) as (k & Hkl & Ek & Hkt); [lia|]. rewrite Ek in *.
    assert (Forall rfc_ok (take k R)) as Hokk by by apply Forall_take.
    pose proof (rfc_usage _ Hokk) as Hu. rewrite length_take, Nat.min_l in Hu by done.
    pose proof (rfc_weight e He) as Hw. destruct He as (Ht' & Hh & Hnl & Hv1 & Hv2 & Hig). unfold rfc_size in *.
    destruct (prefix_app R L k m Hkl) as (L' & EL').
    { apply Hk.
      - rewrite length_app, length_fmap. lia.
      - rewrite Hn. enough (Z.of_nat k + 1 <= max / 8) by lia. apply Z.div_le_lower_bound; [lia|].
        pose proof (usage_bounds (entry_of <$> take k R)) as Hb. enough (0 <= usage (entry_of <$> take k R)) by lia.
        apply Hb, Forall_fmap. eapply Forall_impl; [exact Hokk|]. apply rfc_entry_ok.
      - rewrite take_app_le by (rewrite length_fmap; lia). rewrite <- fmap_take. lia. }
    rewrite EL' in H'. split; cbn [fst snd].
    + exists L'. exact H'.
    + lia.
    + lia.
    + constructor; [done|by apply Forall_take].
    + rewrite total_cons. unfold rfc_size. lia.
  - cbn [keep]. rewrite (proj2 (Z.leb_gt _ _)) by done. split; cbn [fst snd]; [eexists; exact H'|lia|lia|constructor|cbn; lia].
Qed.

Lemma table_step_alloc alloc limit e d :
  table_step alloc limit (TInsert e) d = table_step (λ _, true) limit (TInsert e) d.
Proof. reflexivity. Qed.

Section Serving.
  Context (alloc : Z → bool) (limit : Z).
  Hypothesis Halloc : ∀ b, 0 < b <= 131088 → alloc b = true.
  Hypothesis Hlimit : 0 <= limit <= 65536.

Lemma serves_resize d r n :
  serves limit d r → op_fits limit (TResize n) d →
  ∃ d', table_step alloc limit (TResize n) d = Ok (0, d') ∧ serves limit d' (rfc_step (TResize n) r).
Proof.
  intros [(L & H) [Hx Hxr] Hn Hok Ht] Hfit. destruct r as [max R]. cbn [fst snd op_fits] in *.
  destruct (resize_ok alloc limit Halloc ltac:(lia) d _ n H ltac:(lia) Hfit) as (m & d' & E & H' & Hx' & Hn' & Hk).
  exists d'. unfold table_step. rewrite E. split; [done|]. cbn [rfc_step fst snd].
  destruct (keep_prefix n R) as (k & Hkl & Ek & Hkt); [lia|]. rewrite Ek in *.
  assert (Forall rfc_ok (take k R)) as Hokk by by apply Forall_take.
  pose proof (rfc_usage _ Hokk) as Hu. rewrite length_take, Nat.min_l in Hu by done.
  assert (0 <= usage (entry_of <$> take k R)) as Hu0.
  { apply usage_bounds, Forall_fmap. eapply Forall_impl; [exact Hokk|]. apply rfc_entry_ok. }
  destruct (prefix_app R L k m Hkl) as (L' & EL').
  { apply Hk.
    - rewrite length_app, length_fmap. lia.
    - apply Z.div_le_lower_bound; lia.
    - rewrite take_app_le by (rewrite length_fmap; lia). rewrite <- fmap_take. lia. }
  rewrite EL' in H'. split; cbn [fst snd]; [by eexists|lia|lia|done|done].
Qed.

Lemma serves_run os d r :
  serves limit d r → ops_fit alloc limit os d = true →
  ∃ d', table_run alloc limit os d = Ok (0, d') ∧ serves limit d' (foldl (flip rfc_step) r os).
Proof.
  revert d r. induction os as [|o os IH]; intros d r Hs Hf; cbn [table_run foldl flip]; [by eexists|].
  cbn [ops_fit] in Hf. apply andb_true_iff in Hf as [Ho%bool_decide_eq_true Hf].
  assert (∃ d', table_step alloc limit o d = Ok (0, d') ∧ serves limit d' (rfc_step o r)) as (d' & E & Hs').
  { destruct o as [e|n]; [|by apply serves_resize]. destruct Ho. rewrite table_step_alloc. by apply serves_insert; [lia|..]. }
  rewrite E in Hf |- *. cbn [mbind res_bind]. by apply IH.
Qed.

(** The ring of a new connection. *)
Lemma serves_new n : 8 <= n <= limit →
  ∃ d, lws_hpack_dynamic_size alloc limit n unsized_table = Ok (0, false, d) ∧ serves limit d (n, []).
Proof.
  intros Hn. assert (1 <= n / 8 <= 8192) as Hq by (split; [apply Z.div_le_lower_bound|apply Z.div_le_upper_bound]; lia).
  rewrite dynamic_size_unfold by (done || lia). unfold unsized_table. cbv zeta.
  cbn [num_entries entries used_entries virtual_payload_usage virtual_payload_max dpos].
  rewrite (proj2 (Z.eqb_neq _ _)) by lia. set (d0 := Dyn None 0 n 0 0 0).
  assert (evict (Z.to_nat 0) over_max d0 = Ok d0) as -> by reflexivity. cbn [mbind res_bind].
  change (entries d0) with (@None (list hpack_dt_entry)). change (used_entries d0) with 0. cbv iota. cbn [mbind res_bind].
  replace (Z.min (Z.min (Z.min (n / 8) 0) 0) 0) with (Z.of_nat (length ([] : list hpack_dt_entry))) by (cbn; lia).
  eexists. split; [done|].
  split; cbn [fst snd]; [|cbn; lia|cbn; rewrite u16_small; lia|constructor|cbn; lia].
  exists []. pose proof (holds_copied d0 (replicate (Z.to_nat (n / 8 + 1)) zero_entry) [] (n / 8) n) as Hc.
  rewrite (proj2 (Z.eqb_neq (n / 8) 0)) in Hc by lia. apply Hc; [apply length_replicate|lia|cbn; lia|done|cbn; lia|done].
Qed.

End Serving.

(** ** Theorems *)

(** [C18] The dynamic table serves the peer.  For a ring of any size from 8
    bytes that the vhost allows, and any sequence of insertions and size updates
    that keeps the conditions below, every operation succeeds, and every index
    into the table the standard prescribes, which the peer keeps by its own
    accounting, finds the same header and value here.

    The conditions ([op_fits], at each operation): a header is only inserted
    while the ring has places, not after an update to size 0
    ([insert_into_empty_table]); and an update sets the size to 0, or to one from
    8 bytes to the limit with places for all entries the ring has in use, since
    otherwise the code keeps the oldest ones ([shrinking_keeps_oldest]).
    Allocations succeed. *)
Theorem peer_table_served alloc limit n os :
  (∀ b, 0 < b <= 131088 → alloc b = true) → 8 <= n <= limit → limit <= 65536 →
  ∃ d0, lws_hpack_dynamic_size alloc limit n unsized_table = Ok (0, false, d0)
  ∧ (ops_fit alloc limit os d0 = true →
     ∃ d, table_run alloc limit os d0 = Ok (0, d)
     ∧ ∀ i e, (foldl (flip rfc_step) (n, []) os).2 !! i = Some e →
         lws_token_from_index d (62 + Z.of_nat i)
         = Ok (Ref (r_tok e)
                   (if r_tok e =? LWS_HPACK_IGNORE_ENTRY then None
                    else Some (r_value e, Z.of_nat (length (r_value e))))
                   (Some (r_hlen e)) false)).
Proof.
  intros Ha Hn Hl. destruct (serves_new alloc limit Ha ltac:(lia) n Hn) as (d0 & E0 & H0). exists d0. split; [done|].
  intros Hf. destruct (serves_run alloc limit Ha ltac:(lia) os d0 _ H0 Hf) as (d & E & [(L & H) _ _ _ _]). exists d.
  split; [done|]. intros i e Hi. rewrite (token_from_index_ok d _ i (entry_of e) H).
  - unfold entry_of. destruct (Z.eqb_spec (r_tok e) LWS_HPACK_IGNORE_ENTRY) as [->|]; done.
  - apply lookup_app_l_Some. by rewrite list_lookup_fmap, Hi.
Qed.

(** Some headers as a browser would have the server remember them. *)
Definition some_headers : list table_op :=
  [TInsert (Rfc 35 (bs "comlink.local") 10 10 13); TInsert (Rfc LWS_HPACK_IGNORE_ENTRY [] 0 3 1);
   TInsert (Rfc 69 (bs "agent/1") 10 10 7); TResize 0; TResize 256; TInsert (Rfc 26 (bs "a=b") 6 6 3);
   TInsert (Rfc 25 (replicate 180 65) 13 13 180); TInsert (Rfc 37 (bs "/app") 5 5 4)].

Lemma peer_table_served_witness :
  ∃ d0, lws_hpack_dynamic_size (λ _, true) 65536 4096 unsized_table = Ok (0, false, d0)
  ∧ ops_fit (λ _, true) 65536 some_headers d0 = true
  ∧ ∃ d, table_run (λ _, true) 65536 some_headers d0 = Ok (0, d)
    ∧ lws_token_from_index d 62 = Ok (Ref 37 (Some (bs "/app", 4)) (Some 5) false).
Proof.
  destruct (peer_table_served (λ _, true) 65536 4096 some_headers ltac:(done) ltac:(lia) ltac:(lia)) as (d0 & E & H).
  exists d0. split; [done|]. assert (ops_fit (λ _, true) 65536 some_headers d0 = true) as Hf.
  { vm_compute in E. injection E as <-. vm_compute. reflexivity. }
  split; [done|]. destruct (H Hf) as (d & Ed & Hd). exists d. split; [done|].
  apply (Hd 0%nat (Rfc 37 (bs "/app") 5 5 4)). vm_compute. reflexivity.
Defined.

Definition ring_of (n : Z) : hpack_dynamic_table :=
  match lws_hpack_dynamic_size (λ _, true) 65536 n unsized_table with Ok (_, _, d) => d | Fault _ => unsized_table end.

(** A peer that sets the size of the table to 0, as it may, and then sends a
    header to be indexed stops the server with a division by zero: the test of
    [num_entries] comes after [pos % num_entries]. *)
Lemma insert_into_empty_table :
  table_run (λ _, true) 65536 [TResize 0; TInsert (Rfc 69 (bs "x") 10 10 1)] (ring_of 4096) = Fault DivByZero.
Proof. vm_compute. reflexivity. Qed.

(** Made smaller than the entries in use, the table keeps its oldest entries
    where the standard keeps the newest ones: index 62 finds another header
    than the one the peer means. *)
Lemma shrinking_keeps_oldest :
  let os := ((λ t, TInsert (Rfc t [] 1 1 0)) <$> seqZ 40 10) ++ [TResize 64] in
  (r_tok <$> (foldl (flip rfc_step) (4096, []) os).2) = [49]
  ∧ ∃ d, table_run (λ _, true) 65536 os (ring_of 4096) = Ok (0, d)
    ∧ (∃ x, lws_token_from_index d 62 = Ok x ∧ tok x = 47).
Proof.
  split; [vm_compute; reflexivity|]. eexists. split; [vm_compute; reflexivity|]. eexists. split; vm_compute; reflexivity.
Qed.
