(* ===== verification/Hpack.v ===== *)
(** * The HPACK decoder and encoder

    Models the rest of roles/h2/hpack.c: lws_hpack_interpret, which takes the
    header block of a request one byte at a time and fills the header store of
    its stream, with the functions it calls, and lws_add_http2_header_by_name
    and its companions, which write the headers of a response.

    The state is that of the network connection the block comes from
    ([h2_netconn], the fields of struct lws_h2_netconn it uses), of the stream
    ([h2_stream]: the connection of HttpParse.v with what only HTTP/2 keeps in
    its header store), and the GOAWAY frames that are queued.  Queuing one also
    stops reading from the socket and asks for POLLOUT, which is not part of
    this state. *)

From stdpp Require Import base numbers list strings.
From Stdlib Require Import ZArith Lia Ascii.
From S2P Require Import Prelude Text HttpHead Lex HttpParse Huffman HpackTable.

(** ** State *)

Inductive http2_hpack_state := HPKS_TYPE | HPKS_IDX_EXT | HPKS_HLEN | HPKS_HLEN_EXT | HPKS_DATA.

Inductive http2_hpack_type :=
  | HPKT_INDEXED_HDR_7
  | HPKT_INDEXED_HDR_6_VALUE_INCR
  | HPKT_LITERAL_HDR_VALUE_INCR
  | HPKT_INDEXED_HDR_4_VALUE
  | HPKT_INDEXED_HDR_4_VALUE_NEVER
  | HPKT_LITERAL_HDR_VALUE
  | HPKT_LITERAL_HDR_VALUE_NEVER
  | HPKT_SIZE_5.

#[global] Instance http2_hpack_state_eq_dec : EqDecision http2_hpack_state.
Proof. solve_decision. Defined.
#[global] Instance http2_hpack_type_eq_dec : EqDecision http2_hpack_type.
Proof. solve_decision. Defined.

Definition H2_ERR_PROTOCOL_ERROR : Z := 1.
Definition H2_ERR_COMPRESSION_ERROR : Z := 9.
Definition LWS_H2_FRAME_TYPE_COUNT : Z := 10.

(** A GOAWAY that waits to be sent. *)
Record goaway := Goaway { ga_err : Z; ga_highest_sid : Z; ga_str : list Z }.

Record h2_netconn := H2n {
  dyn : hpack_dynamic_table;
  hpack : http2_hpack_state;
  hpack_type : http2_hpack_type;
  huff : bool;
  in_value : bool;                      (* value *)
  unknown_header : bool;
  is_first_header_char : bool;
  last_action_dyntable_resize : bool;
  hdr_idx : Z;
  hpack_len : Z;
  hpack_hdr_len : Z;
  hst : huffman;                        (* hpack_pos, huff_pad, zero_huff_padding *)
  first_hdr_char : Z;
  hpack_m : Z;
  ext_count : Z;
  ftype : Z;                            (* type *)
  highest_sid : Z;
  pps : list goaway;                    (* the newest first *)
}.

(** [no_state]: [ah->parser_state] is 255.  [fflags]: the flags of the
    fragments.  [forbidden]: how often a 403 was sent on the stream. *)
Record h2_stream := Stream {
  con : hcon;
  hdr_token_idx : Z;
  fflags : list Z;
  no_state : bool;
  seen_nonpseudoheader : bool;
  forbidden : nat;
}.

Record hp := Hp { net : h2_netconn; str : h2_stream }.

(** What the code uses of the context and the vhost, and the allocator. *)
Record h2_env := Env {
  hx : http_context;
  table_limit : Z;                      (* H2SET_HEADER_TABLE_SIZE *)
  alloc : Z → bool;
}.

Definition h2n_eta (h : h2_netconn) : h2_netconn :=
  H2n (dyn h) (hpack h) (hpack_type h) (huff h) (in_value h) (unknown_header h) (is_first_header_char h)
      (last_action_dyntable_resize h) (hdr_idx h) (hpack_len h) (hpack_hdr_len h) (hst h) (first_hdr_char h)
      (hpack_m h) (ext_count h) (ftype h) (highest_sid h) (pps h).

(** [h2n_setter f h v]: [h] with field [f] replaced by [v]. *)
Ltac h2n_setter f h v :=
  let t := eval cbv beta delta [h2n_eta] in (h2n_eta h) in
  match eval pattern (f h) in t with ?g _ => let r := eval cbv beta in (g v) in exact r end.

Definition set_dyn v (h : h2_netconn) : h2_netconn := ltac:(h2n_setter dyn h v).
Definition set_hpack v (h : h2_netconn) : h2_netconn := ltac:(h2n_setter hpack h v).
Definition set_hpack_type v (h : h2_netconn) : h2_netconn := ltac:(h2n_setter hpack_type h v).
Definition set_huff v (h : h2_netconn) : h2_netconn := ltac:(h2n_setter huff h v).
Definition set_in_value v (h : h2_netconn) : h2_netconn := ltac:(h2n_setter in_value h v).
Definition set_unknown_header v (h : h2_netconn) : h2_netconn := ltac:(h2n_setter unknown_header h v).
Definition set_is_first_header_char v (h : h2_netconn) : h2_netconn := ltac:(h2n_setter is_first_header_char h v).
Definition set_last_resize v (h : h2_netconn) : h2_netconn := ltac:(h2n_setter last_action_dyntable_resize h v).
Definition set_hdr_idx v (h : h2_netconn) : h2_netconn := ltac:(h2n_setter hdr_idx h v).
Definition set_hpack_len v (h : h2_netconn) : h2_netconn := ltac:(h2n_setter hpack_len h v).
Definition set_hpack_hdr_len v (h : h2_netconn) : h2_netconn := ltac:(h2n_setter hpack_hdr_len h v).
Definition set_hst v (h : h2_netconn) : h2_netconn := ltac:(h2n_setter hst h v).
Definition set_first_hdr_char v (h : h2_netconn) : h2_netconn := ltac:(h2n_setter first_hdr_char h v).
Definition set_hpack_m v (h : h2_netconn) : h2_netconn := ltac:(h2n_setter hpack_m h v).
Definition set_ext_count v (h : h2_netconn) : h2_netconn := ltac:(h2n_setter ext_count h v).
Definition set_ftype v (h : h2_netconn) : h2_netconn := ltac:(h2n_setter ftype h v).
Definition set_pps v (h : h2_netconn) : h2_netconn := ltac:(h2n_setter pps h v).

Definition ahs (s : h2_stream) : allocated_headers := ah (con s).

Definition set_ahs (a : allocated_headers) (s : h2_stream) : h2_stream :=
  Stream (Hcon a (rx_frame_type (con s)) (hdr_parsing_completed (con s))) (hdr_token_idx s) (fflags s) (no_state s)
         (seen_nonpseudoheader s) (forbidden s).

Definition set_hdr_token_idx (t : Z) (s : h2_stream) : h2_stream :=
  Stream (con s) t (fflags s) (no_state s) (seen_nonpseudoheader s) (forbidden s).

Definition set_fflags (l : list Z) (s : h2_stream) : h2_stream :=
  Stream (con s) (hdr_token_idx s) l (no_state s) (seen_nonpseudoheader s) (forbidden s).

Definition set_seen (b : bool) (s : h2_stream) : h2_stream :=
  Stream (con s) (hdr_token_idx s) (fflags s) (no_state s) b (forbidden s).

(** [ah->parser_state = 255] *)
Definition set_no_state (b : bool) (s : h2_stream) : h2_stream :=
  Stream (con s) (hdr_token_idx s) (fflags s) b (seen_nonpseudoheader s) (forbidden s).

(** [ah->parser_state = p] *)
Definition set_state (p : parser_states) (s : h2_stream) : h2_stream :=
  set_no_state false (set_ahs (set_parser_state p (ahs s)) s).

Definition state_is (p : parser_states) (s : h2_stream) : bool :=
  negb (no_state s) && bool_decide (parser_state (ahs s) = p).

(** [ah->parser_state] as the number it is. *)
Definition state_number (s : h2_stream) : Z :=
  if no_state s then 255
  else match parser_state (ahs s) with
       | WSI_TOKEN t => Z.of_nat t
       | WSI_TOKEN_NAME_PART => 96
       | WSI_TOKEN_SKIPPING => 97
       | WSI_TOKEN_SKIPPING_SAW_CR => 98
       | WSI_PARSING_COMPLETE => 99
       end.

Definition on_net (f : h2_netconn → h2_netconn) (w : hp) : hp := Hp (f (net w)) (str w).
Definition on_str (f : h2_stream → h2_stream) (w : hp) : hp := Hp (net w) (f (str w)).

(** ** Fragments *)

(** lws_h2_goaway and lws_pps_schedule; the reason is cut to 31 characters. *)
Definition lws_h2_goaway (e : h2_env) (err : Z) (reason : list Z) (h : h2_netconn) : h2_netconn :=
  if ftype h =? LWS_H2_FRAME_TYPE_COUNT then h
  else if negb (alloc e 56) then h
  else set_ftype LWS_H2_FRAME_TYPE_COUNT (set_pps (Goaway err (highest_sid h) (take 31 reason) :: pps h) h).

Definition WSI_TOKEN_HTTP_COLON_AUTHORITY : Z := 35.
Definition WSI_TOKEN_HTTP_COLON_METHOD : Z := 36.
Definition WSI_TOKEN_HTTP_COLON_PATH : Z := 37.
Definition WSI_TOKEN_HTTP_COLON_SCHEME : Z := 38.
Definition WSI_TOKEN_HTTP_COLON_STATUS : Z := 39.
Definition WSI_TOKEN_COLON_PROTOCOL : Z := 85.

Definition once_only (t : Z) : bool :=
  (t =? WSI_TOKEN_HTTP_COLON_AUTHORITY) || (t =? WSI_TOKEN_HTTP_COLON_METHOD) || (t =? WSI_TOKEN_HTTP_COLON_PATH)
  || (t =? WSI_TOKEN_COLON_PROTOCOL) || (t =? WSI_TOKEN_HTTP_COLON_SCHEME).

(** [ah->frag_index[t]] *)
Definition index_at (a : allocated_headers) (t : Z) : res nat :=
  if t <? 0 then Fault OutOfBounds else get_index a (Z.to_nat t).

Definition lws_frag_start (e : h2_env) (t : Z) (w : hp) : res (Z * hp) :=
  let w := on_str (set_hdr_token_idx (-1)) w in
  let a := ahs (str w) in
  if t =? 0 then Ok (1, w)
  else if (WSI_TOKEN_COUNT <=? nfrag a)%nat then Ok (1, w)
  else
    i ← index_at a t;
    dup ← (if once_only t && negb (i =? 0)%nat then f ← elem (fflags (str w)) (Z.of_nat i); Ok (Z.land f 1 =? 0)
           else Ok false);
    if dup : bool then Ok (1, on_net (lws_h2_goaway e H2_ERR_PROTOCOL_ERROR (bs "Duplicated pseudoheader")) w)
    else
      let a := if (nfrag a =? 0)%nat then set_nfrag 1 a else a in
      a ← put_frag (nfrag a) (Fragment (pos a) 0 0) a;
      fl ← store (fflags (str w)) (Z.of_nat (nfrag a)) 2;
      a ← (if negb (i =? 0)%nat then
             n ← last_frag (length (frags a)) a i;
             f ← get_frag a n;
             a ← put_frag n (Fragment (offset f) (flen f) (nfrag a)) a;
             if t =? Z.of_nat WSI_TOKEN_HTTP_COOKIE then
               a ← put_data 59 a;
               f ← get_frag a (nfrag a);
               put_frag (nfrag a) (Fragment (offset f) (S (flen f)) (fnext f)) a
             else Ok a
           else put_index (Z.to_nat t) (nfrag a) a);
      Ok (0, on_str (λ s, set_ahs a (set_fflags fl (set_hdr_token_idx t s))) w).

Definition lws_frag_append (e : h2_env) (c : Z) (w : hp) : res (Z * hp) :=
  a ← put_data c (ahs (str w));
  f ← get_frag a (nfrag a);
  a ← put_frag (nfrag a) (Fragment (offset f) (S (flen f)) (fnext f)) a;
  Ok (if (max_http_header_data (hx e) <=? pos a)%nat then 1 else 0, on_str (set_ahs a) w).

Definition lws_frag_end (e : h2_env) (w : hp) : res (Z * hp) :=
  '(r, w) ← lws_frag_append e 0 w;
  if negb (r =? 0) then Ok (1, w)
  else
    let a := ahs (str w) in
    f ← get_frag a (nfrag a);
    a ← put_frag (nfrag a) (Fragment (offset f) (pred (flen f)) (fnext f)) a;
    Ok (0, on_str (set_ahs (set_nfrag (S (nfrag a)) a)) w).

Definition lws_hdr_extant (s : h2_stream) (h : nat) : res bool :=
  n ← get_index (ahs s) h;
  if (n =? 0)%nat then Ok false
  else f ← elem (fflags s) (Z.of_nat n); Ok (negb (Z.land f 2 =? 0)).

(** It only logs, but reads the header to do so. *)
Definition lws_dump_header (s : h2_stream) (hdr : Z) : res unit :=
  if hdr =? LWS_HPACK_IGNORE_ENTRY then Ok tt
  else if hdr <? 0 then Fault OutOfBounds
  else _ ← lws_hdr_copy (ahs s) 199 (Z.to_nat hdr); Ok tt.

(** ** Names and indexes *)

(** lws_token_from_index, for the [int] that the number becomes. *)
Definition from_index (e : h2_env) (idx : Z) (w : hp) : res (token_ref * hp) :=
  r ← lws_token_from_index (dyn (net w)) (s32 idx);
  Ok (r, if out_of_range r then on_net (lws_h2_goaway e H2_ERR_COMPRESSION_ERROR (bs "index out of range")) w else w).

(** The characters of the loop that stops at a NUL. *)
Fixpoint up_to_nul (l : list Z) : list Z :=
  match l with
  | [] => []
  | c :: l => if c =? 0 then [] else c :: up_to_nul l
  end.

Fixpoint append_all (e : h2_env) (s : list Z) (w : hp) : res (Z * hp) :=
  match s with
  | [] => Ok (0, w)
  | c :: s =>
      '(r, w) ← lws_frag_append e c w;
      if negb (r =? 0) then Ok (1, w) else append_all e s w
  end.

Definition lws_hpack_use_idx_hdr (e : h2_env) (idx known_token : Z) (w : hp) : res (Z * hp) :=
  '(r, w) ← from_index e idx w;
  if tok r =? LWS_HPACK_IGNORE_ENTRY then Ok (0, w)
  else if tok r =? -1 then Ok (1, w)
  else
    let t := match arg r with Some _ => if 0 <? known_token then known_token else tok r | None => tok r end in
    if t =? LWS_HPACK_IGNORE_ENTRY then Ok (0, w)
    else
      let p := match arg r with Some (v, len) => up_to_nul (take (Z.to_nat len) v) | None => [] end in
      '(n, w) ← lws_frag_start e t w;
      if negb (n =? 0) then Ok (1, w)
      else
        '(n, w) ← append_all e p w;
        if negb (n =? 0) then Ok (1, w)
        else
          '(n, w) ← lws_frag_end e w;
          if negb (n =? 0) then Ok (1, w)
          else _ ← lws_dump_header (str w) t; Ok (0, w).

Definition lws_header_implies_psuedoheader_map : list Z := [7; 0; 0; 0; 248; 0; 0; 0; 0; 14; 4; 0; 0; 0; 0].

Definition lws_hpack_handle_pseudo_rules (e : h2_env) (m : Z) (w : hp) : res (Z * hp) :=
  if (m =? LWS_HPACK_IGNORE_ENTRY) || (m =? -1) then Ok (0, w)
  else
    b ← elem lws_header_implies_psuedoheader_map (Z.shiftr m 3);
    let pseudo := negb (Z.land b (Z.shiftl 1 (Z.land m 7)) =? 0) in
    if seen_nonpseudoheader (str w) && pseudo then
      Ok (1, on_net (lws_h2_goaway e H2_ERR_PROTOCOL_ERROR (bs "Pseudoheader after normal hdrs")) w)
    else Ok (0, if pseudo then w else on_str (set_seen true) w).

(** ** lws_hpack_interpret *)

(** lws_parse of one character.  The flags of the fragment it starts, and
    [hdr_token_idx] when that is the first one of its header, are set at the
    label excessive: that is when there is a new fragment for a new token. *)
Definition parse_one (e : h2_env) (c : Z) (w : hp) : res (parse_result * hp) :=
  let s := str w in
  '(r, _, k) ← lws_parse (hx e) [c] (con s);
  let started :=
    match parser_state (ah k) with
    | WSI_TOKEN t =>
        if negb (bool_decide (parser_state (ah k) = parser_state (ahs s))) && (nfrag (ah k) =? S (nfrag (ahs s)))%nat
           && negb (nfrag (ah k) =? WSI_TOKEN_COUNT)%nat
        then Some t else None
    | _ => None
    end in
  let s' := Stream k (hdr_token_idx s) (fflags s) false (seen_nonpseudoheader s)
                   (if decide (r = PForbidden) then S (forbidden s) else forbidden s) in
  match started with
  | None => Ok (r, Hp (net w) s')
  | Some t =>
      fl ← store (fflags s) (Z.of_nat (nfrag (ah k))) 2;
      i ← get_index (ahs s) t;
      Ok (r, Hp (net w) (set_fflags fl (if (i =? 0)%nat then set_hdr_token_idx (Z.of_nat t) s' else s')))
  end.

Definition is_literal (t : http2_hpack_type) : bool :=
  match t with HPKT_LITERAL_HDR_VALUE | HPKT_LITERAL_HDR_VALUE_INCR | HPKT_LITERAL_HDR_VALUE_NEVER => true | _ => false end.

(** A possibly extended integer of [mask] with nothing of it read yet. *)
Definition start_ext (mask : Z) (h : h2_netconn) : h2_netconn :=
  set_hpack HPKS_IDX_EXT (set_hpack_m mask (set_hpack_len 0 h)).

Definition away (e : h2_env) (err : Z) (reason : list Z) (w : hp) : res (Z * hp) :=
  Ok (1, on_net (lws_h2_goaway e err reason) w).

Definition resize (e : h2_env) (w : hp) : res (Z * hp) :=
  '(r, g, d) ← lws_hpack_dynamic_size (alloc e) (table_limit e) (s32 (hpack_len (net w))) (dyn (net w));
  let w := on_net (set_dyn d) w in
  Ok (r, if g : bool then on_net (lws_h2_goaway e H2_ERR_COMPRESSION_ERROR (bs "Asked for header table bigger than we told")) w else w).

(** case HPKS_TYPE *)
Definition hpks_type (e : h2_env) (c : Z) (w : hp) : res (Z * hp) :=
  let w := on_net (λ h, set_unknown_header false (set_hpack_hdr_len 0 (set_ext_count 0 (set_last_resize false
                     (set_hst (Huff (hpack_pos (hst h)) 0 false) (set_is_first_header_char true h)))))) w in
  let w := on_str (set_no_state true) w in
  if negb (Z.land c 128 =? 0) then
    let w := on_net (λ h, set_hdr_idx (Z.land c 127) (set_hpack_type HPKT_INDEXED_HDR_7 h)) w in
    if Z.land c 127 =? 127 then Ok (0, on_net (start_ext 127) w)
    else if hdr_idx (net w) =? 0 then away e H2_ERR_COMPRESSION_ERROR (bs "hdr index 0 seen") w
    else
      '(r, w) ← from_index e (hdr_idx (net w)) w;
      '(n, w) ← lws_hpack_handle_pseudo_rules e (tok r) w;
      if negb (n =? 0) then Ok (1, w)
      else
        '(n, w) ← lws_hpack_use_idx_hdr e (Z.land c 127) (-1) w;
        Ok (if negb (n =? 0) then 1 else 0, w)
  else if negb (Z.land c 64 =? 0) then
    let w := on_net (set_hdr_idx 0) w in
    if c =? 64 then
      Ok (0, on_net (λ h, set_hpack HPKS_HLEN (set_hpack_len 0 (set_in_value false (set_hpack_type HPKT_LITERAL_HDR_VALUE_INCR h)))) w)
    else
      let w := on_net (λ h, set_hdr_idx (Z.land c 63) (set_hpack_type HPKT_INDEXED_HDR_6_VALUE_INCR h)) w in
      if Z.land c 63 =? 63 then Ok (0, on_net (start_ext 63) w)
      else
        let w := on_net (λ h, set_hpack HPKS_HLEN (set_in_value true h)) w in
        if hdr_idx (net w) =? 0 then away e H2_ERR_COMPRESSION_ERROR (bs "hdr index 0 seen") w else Ok (0, w)
  else if (Z.land c 240 =? 16) || (Z.land c 240 =? 0) then
    if c =? 0 then
      Ok (0, on_net (λ h, set_in_value false (set_hpack HPKS_HLEN (set_hpack_type HPKT_LITERAL_HDR_VALUE h))) w)
    else if c =? 16 then
      Ok (0, on_net (λ h, set_in_value false (set_hpack HPKS_HLEN (set_hpack_type HPKT_LITERAL_HDR_VALUE_NEVER h))) w)
    else
      let t := if negb (Z.land c 16 =? 0) then HPKT_INDEXED_HDR_4_VALUE_NEVER else HPKT_INDEXED_HDR_4_VALUE in
      let w := on_net (λ h, set_hdr_idx 0 (set_hpack_type t h)) w in
      if Z.land c 15 =? 15 then Ok (0, on_net (start_ext 15) w)
      else Ok (0, on_net (λ h, set_hpack HPKS_HLEN (set_in_value true (set_hdr_idx (Z.land c 15) h))) w)
  else
    let w := on_net (λ h, set_hpack_len (Z.land c 31) (set_hpack_type HPKT_SIZE_5 h)) w in
    if hpack_len (net w) =? 31 then Ok (0, on_net (start_ext 31) w)
    else
      '(r, w) ← resize e (on_net (set_last_resize true) w);
      Ok (if negb (r =? 0) then 1 else 0, w).

(** A byte of an extended integer: whether it is complete. *)
Definition ext_byte (c : Z) (h : h2_netconn) : res (bool * h2_netconn) :=
  if 32 <=? ext_count h then Fault BadShift
  else
    let h := set_ext_count (u8 (ext_count h + 7))
               (set_hpack_len (Z.lor (hpack_len h) (u32 (Z.shiftl (Z.land c 127) (ext_count h)))) h) in
    if negb (Z.land c 128 =? 0) then Ok (false, h)
    else Ok (true, set_hpack_len (u32 (hpack_len h + hpack_m h)) h).

(** The integer is complete. *)
Definition idx_done (e : h2_env) (w : hp) : res (Z * hp) :=
  let h := net w in
  match hpack_type h with
  | HPKT_INDEXED_HDR_7 =>
      '(n, w) ← lws_hpack_use_idx_hdr e (hpack_len h) (s32 (hdr_idx h)) w;
      if negb (n =? 0) then Ok (1, w) else Ok (0, on_net (set_hpack HPKS_TYPE) w)
  | HPKT_SIZE_5 =>
      '(r, w) ← resize e (on_net (set_last_resize true) w);
      if negb (r =? 0) then Ok (1, w) else Ok (0, on_net (set_hpack HPKS_TYPE) w)
  | _ =>
      let w := on_net (set_hdr_idx (hpack_len h)) w in
      if hpack_len h =? 0 then away e H2_ERR_COMPRESSION_ERROR (bs "extended header index was 0") w
      else Ok (0, on_net (λ h, set_hpack HPKS_HLEN (set_in_value true h)) w)
  end.

(** case HPKS_IDX_EXT *)
Definition hpks_idx_ext (e : h2_env) (c : Z) (w : hp) : res (Z * hp) :=
  '(complete, h) ← ext_byte c (net w);
  let w := Hp h (str w) in
  if negb complete then Ok (0, w) else idx_done e w.

(** The label pre_data *)
Definition pre_data (e : h2_env) (w : hp) : res (Z * hp) :=
  let w := on_net (set_hpack HPKS_DATA) w in
  let h := net w in
  if negb (in_value h) || (hdr_idx h =? 0) then
    Ok (0, Hp (set_unknown_header false h)
              (set_state WSI_TOKEN_NAME_PART (set_ahs (set_lextable_pos (Some 0%nat) (ahs (str w))) (str w))))
  else if is_literal (hpack_type h) then
    Ok (0, on_net (set_hdr_idx (if no_state (str w) then LWS_HPACK_IGNORE_ENTRY else 1)) w)
  else
    '(r, w) ← from_index e (hdr_idx h) w;
    if (tok r =? LWS_HPACK_IGNORE_ENTRY) || (tok r =? -1) then Ok (0, on_net (set_hdr_idx LWS_HPACK_IGNORE_ENTRY) w)
    else
      '(n, w) ← lws_frag_start e (tok r) w;
      Ok (if negb (n =? 0) then 1 else 0, w).

(** case HPKS_HLEN *)
Definition hpks_hlen (e : h2_env) (c : Z) (w : hp) : res (Z * hp) :=
  let w := on_net (λ h, set_hpack_len (Z.land c 127) (set_hst (Huff 0 (huff_pad (hst h)) (zero_huff_padding (hst h)))
                     (set_huff (negb (Z.land c 128 =? 0)) h))) w in
  if hpack_len (net w) =? 127 then
    Ok (0, on_net (λ h, set_hpack HPKS_HLEN_EXT (set_ext_count 0 (set_hpack_len 0 (set_hpack_m 127 h)))) w)
  else pre_data e w.

(** case HPKS_HLEN_EXT *)
Definition hpks_hlen_ext (e : h2_env) (c : Z) (w : hp) : res (Z * hp) :=
  '(complete, h) ← ext_byte c (net w);
  let w := Hp h (str w) in
  if negb complete then Ok (0, w) else pre_data e w.

(** A character of a value; [Some r] when the function returns [r]. *)
Definition value_char (e : h2_env) (c1 : Z) (w : hp) : res (option Z * hp) :=
  let h := net w in
  if (hdr_idx h =? 0) || (hdr_idx h =? LWS_HPACK_IGNORE_ENTRY) then Ok (None, w)
  else
    '(o, c1, w) ←
      (if hdr_token_idx (str w) =? WSI_TOKEN_HTTP_COLON_PATH then
         '(r, c1, a) ← lws_parse_urldecode (max_http_header_data (hx e)) c1 (ahs (str w));
         let w := on_str (set_ahs a) w in
         match r with
         | LPUR_CONTINUE => Ok (None, c1, w)
         | LPUR_SWALLOW => Ok (Some 0, c1, w)
         | LPUR_EXCESSIVE | LPUR_FORBID =>
             Ok (Some 1, c1, on_net (lws_h2_goaway e H2_ERR_PROTOCOL_ERROR (bs "Evil URI")) w)
         | LPUR_FAIL => Ok (Some (-1), c1, w)
         end
       else Ok (None, c1, w));
    match o with
    | Some 0 => Ok (None, w)                  (* swallow *)
    | Some r => Ok (Some r, w)
    | None =>
        '(n, w) ← lws_frag_append e c1 w;
        Ok (if negb (n =? 0) then Some 1 else None, w)
    end.

(** A character of a name. *)
Definition name_char1 (e : h2_env) (c1 : Z) (w : hp) : res (option Z * hp) :=
  let w := on_net (λ h, set_hpack_hdr_len (u32 (hpack_hdr_len h + 1)) h) w in
  let w := on_net (λ h, if is_first_header_char h then set_first_hdr_char c1 (set_is_first_header_char false h) else h) w in
  if (65 <=? c1) && (c1 <=? 90) then
    Ok (Some 1, on_net (lws_h2_goaway e H2_ERR_COMPRESSION_ERROR (bs "Uppercase literal hpack hdr")) w)
  else if unknown_header (net w) then Ok (None, w)
  else
    '(r, w) ← parse_one e c1 w;
    Ok (None, if decide (r = PZero) then w else on_net (set_unknown_header true) w).

Definition data_char (e : h2_env) (c1 : Z) (w : hp) : res (option Z * hp) :=
  if in_value (net w) then value_char e c1 w else name_char1 e c1 w.

(** The loop over the bits of a byte of a string in Huffman code. *)
Fixpoint data_bits (e : h2_env) (bits : list bool) (w : hp) : res (option Z * hp) :=
  match bits with
  | [] => Ok (None, w)
  | b :: bits =>
      '(o, hs) ← huff_bit b (hst (net w));
      let w := on_net (set_hst hs) w in
      match o with
      | HErr => Ok (Some 1, w)
      | HEot => Ok (Some 1, on_net (lws_h2_goaway e H2_ERR_COMPRESSION_ERROR (bs "Huffman EOT seen")) w)
      | HMore => data_bits e bits w
      | HChar c1 =>
          '(r, w) ← data_char e c1 w;
          match r with
          | Some r => Ok (Some r, w)
          | None => data_bits e bits w
          end
      end
  end.

(** The header is to be indexed: what it is, and whether it may be. *)
Definition literal_token (w : hp) : option Z :=
  if unknown_header (net w) || state_is WSI_TOKEN_NAME_PART (str w) || state_is WSI_TOKEN_SKIPPING (str w) then
    if first_hdr_char (net w) =? 58 then None else Some LWS_HPACK_IGNORE_ENTRY
  else Some (state_number (str w)).

(** The label add_it *)
Definition add_it (e : h2_env) (m : Z) (w : hp) : res (Z * hp) :=
  let a := ahs (str w) in
  fl ← elem (fflags (str w)) (Z.of_nat (nfrag a));
  l ← store (fflags (str w)) (Z.of_nat (nfrag a)) (Z.lor fl 1);
  f ← get_frag a (nfrag a);
  '(r, d) ← lws_dynamic_token_insert (alloc e (Z.of_nat (flen f) + 1)) (hpack_hdr_len (net w)) m
              (text_at a (offset f) (flen f)) (Z.of_nat (flen f)) (dyn (net w));
  Ok (if negb (r =? 0) then 1 else 0, Hp (set_dyn d (net w)) (set_fflags l (str w))).

(** What is done with a header to be indexed: the result, and [m]. *)
Definition add_header (e : h2_env) (w : hp) : res (Z * Z * hp) :=
  match hpack_type (net w) with
  | HPKT_INDEXED_HDR_6_VALUE_INCR =>
      '(r, w) ← from_index e (hdr_idx (net w)) w;
      let w := match ref_hdr_len r with Some n => on_net (set_hpack_hdr_len n) w | None => w end in
      '(n, w) ← add_it e (tok r) w;
      Ok (n, tok r, w)
  | HPKT_LITERAL_HDR_VALUE_INCR =>
      match literal_token w with
      | None => Ok (1, 0, on_net (lws_h2_goaway e H2_ERR_PROTOCOL_ERROR (bs "Unknown pseudoheader")) w)
      | Some m => '(n, w) ← add_it e m w; Ok (n, m, w)
      end
  | _ => Ok (0, -1, w)
  end.

(** The header and its value are complete. *)
Definition header_done (e : h2_env) (w : hp) : res (Z * hp) :=
  '(r, m, w) ← add_header e w;
  if negb (r =? 0) then Ok (1, w)
  else
    '(r, w) ← (if negb (hdr_idx (net w) =? LWS_HPACK_IGNORE_ENTRY) then lws_frag_end e w else Ok (0, w));
    if negb (r =? 0) then Ok (1, w)
    else
      '(m, w) ← (if decide (hpack_type (net w) = HPKT_INDEXED_HDR_6_VALUE_INCR) then Ok (m, w)
                 else if is_literal (hpack_type (net w)) then
                   Ok (if state_number (str w) =? 255 then -1 else state_number (str w), w)
                 else '(r, w) ← from_index e (hdr_idx (net w)) w; Ok (tok r, w));
      _ ← (if (m =? -1) || (m =? LWS_HPACK_IGNORE_ENTRY) then Ok tt else lws_dump_header (str w) m);
      '(r, w) ← lws_hpack_handle_pseudo_rules e m w;
      if negb (r =? 0) then Ok (1, w)
      else Ok (0, on_net (λ h, set_hpack HPKS_TYPE (set_is_first_header_char true h)) w).

(** The name of a literal header is complete: h2 headers come without the
    colon. *)
Definition name_done (e : h2_env) (w : hp) : res hp :=
  let w := on_net (set_hdr_idx LWS_HPACK_IGNORE_ENTRY) w in
  w ← (if state_is WSI_TOKEN_NAME_PART (str w) then '(_, w) ← parse_one e 58 w; Ok w else Ok w);
  if state_is WSI_TOKEN_NAME_PART (str w) || state_is WSI_TOKEN_SKIPPING (str w) then
    Ok (Hp (set_unknown_header true (net w)) (set_seen true (set_no_state true (str w))))
  else Ok w.

(** After a byte of a string. *)
Definition data_end (e : h2_env) (w : hp) : res (Z * hp) :=
  let w := on_net (λ h, set_hpack_len (u32 (hpack_len h - 1)) h) w in
  if negb (hpack_len (net w) =? 0) then Ok (0, w)
  else if huff (net w) && bad_padding (hst (net w)) then
    away e H2_ERR_COMPRESSION_ERROR (bs "Huffman padding excessive or wrong") w
  else if in_value (net w) then header_done e w
  else
    w ← (if is_literal (hpack_type (net w)) then name_done e w else Ok w);
    Ok (0, on_net (λ h, set_ext_count 0 (set_hst (Huff (hpack_pos (hst h)) 0 false)
                          (set_hpack HPKS_HLEN (set_in_value true h)))) w).

(** case HPKS_DATA *)
Definition hpks_data (e : h2_env) (c : Z) (w : hp) : res (Z * hp) :=
  '(r, w) ← (if huff (net w) then data_bits e (byte_bits c) w else data_char e c w);
  match r with
  | Some r => Ok (r, w)
  | None => data_end e w
  end.

Definition lws_hpack_interpret (e : h2_env) (c : Z) (w : hp) : res (Z * hp) :=
  match hpack (net w) with
  | HPKS_TYPE => hpks_type e c w
  | HPKS_IDX_EXT => hpks_idx_ext e c w
  | HPKS_HLEN => hpks_hlen e c w
  | HPKS_HLEN_EXT => hpks_hlen_ext e c w
  | HPKS_DATA => hpks_data e c w
  end.

(** The bytes of a header block, as lws_h2_parser passes them on. *)
Fixpoint interpret_all (e : h2_env) (block : list Z) (w : hp) : res (Z * hp) :=
  match block with
  | [] => Ok (0, w)
  | c :: block =>
      '(r, w) ← lws_hpack_interpret e c w;
      if negb (r =? 0) then Ok (r, w) else interpret_all e block w
  end.

(** ** Headers of a response *)

(** What is written at [*p], and how many bytes there are up to [end]. *)
Record outbuf := Out { written : list Z; room : Z }.

Definition put_byte (c : Z) (o : outbuf) : res outbuf :=
  if room o <=? 0 then Fault OutOfBounds else Ok (Out (written o ++ [u8 c]) (room o - 1)).

Definition lws_h2_num_start (starting_bits num : Z) : Z :=
  let mask := Z.shiftl 1 starting_bits - 1 in
  if num <? mask then num else mask.

(** The do loop: seven bits a turn, so ten turns for 64 bits. *)
Fixpoint num_loop (fuel : nat) (num : Z) (o : outbuf) : res (Z * outbuf) :=
  match fuel with
  | O => Fault Unfinished
  | S fuel =>
      o ← put_byte (if 127 <? num then Z.lor 128 (Z.land num 127) else Z.land num 127) o;
      if room o <=? 0 then Ok (1, o)
      else
        let num := Z.shiftr num 7 in
        if num =? 0 then Ok (0, o) else num_loop fuel num o
  end.

Definition lws_h2_num (starting_bits num : Z) (o : outbuf) : res (Z * outbuf) :=
  let mask := Z.shiftl 1 starting_bits - 1 in
  if num <? mask then Ok (0, o) else num_loop 10 (num - mask) o.

Fixpoint put_bytes (s : list Z) (o : outbuf) : res outbuf :=
  match s with
  | [] => Ok o
  | c :: s => o ← put_byte c o; put_bytes s o
  end.

(** [name] is the string without its NUL. *)
Definition lws_add_http2_header_by_name (http2_substream : bool) (name value : list Z) (o : outbuf) : res (Z * outbuf) :=
  let name := match last name with Some 58 => removelast name | _ => name end in
  let len := Z.of_nat (length name) in
  let length := Z.of_nat (length value) in
  if http2_substream && bool_decide (take (Z.to_nat len) (bs "transfer-encoding") = name) then Ok (0, o)
  else if room o <? len + length + 8 then Ok (1, o)
  else
    o ← put_byte 0 o;
    o ← put_byte (lws_h2_num_start 7 len) o;
    '(r, o) ← lws_h2_num 7 len o;
    if negb (r =? 0) then Ok (1, o)
    else
      o ← put_bytes (tolower <$> name) o;
      o ← put_byte (lws_h2_num_start 7 length) o;
      '(r, o) ← lws_h2_num 7 length o;
      if negb (r =? 0) then Ok (1, o)
      else o ← put_bytes value o; Ok (0, o).

Definition lws_add_http2_header_by_token (http2_substream : bool) (token : nat) (value : list Z) (o : outbuf) :
    res (Z * outbuf) :=
  match lws_token_to_string token with
  | None => Ok (1, o)
  | Some name => lws_add_http2_header_by_name http2_substream name value o
  end.

Definition lws_add_http2_header_status (http2_substream : bool) (code : Z) (o : outbuf) : res (Z * outbuf) :=
  let status := dec_go 10 code [] in
  if (10 <=? length status)%nat then Fault OutOfBounds
  else
    '(r, o) ← lws_add_http2_header_by_token http2_substream (Z.to_nat WSI_TOKEN_HTTP_COLON_STATUS) status o;
    Ok (if negb (r =? 0) then 1 else 0, o).
