(* ===== verification/HpackStore.v ===== *)
(** * The header store as the HPACK decoder fills it

    What the fragments of struct allocated_headers hold while a header block
    is decoded, as a list of headers with their texts, and that
    lws_frag_start, lws_frag_append and lws_frag_end of hpack.c add to that
    list.  Shared by the theorems of HpackOk.v. *)

From stdpp Require Import base numbers list strings.
From Stdlib Require Import ZArith Lia Ascii.
From S2P Require Import Prelude Text HttpHead Lex HttpParse Huffman HpackTable Hpack.

(** ** The headers of a store *)

(** A header: the fragment it is in, its token and its text. *)
Record header := Header { hd_ix : nat; hd_tok : nat; hd_text : list Z }.

(** The first fragment of a token, 0 when it has none. *)
Fixpoint first_ix (t : nat) (P : list header) : nat :=
  match P with
  | [] => 0
  | r :: P => if (hd_tok r =? t)%nat then hd_ix r else first_ix t P
  end.

Fixpoint last_ix (t : nat) (P : list header) : nat :=
  match P with
  | [] => 0
  | r :: P => if (last_ix t P =? 0)%nat then if (hd_tok r =? t)%nat then hd_ix r else 0 else last_ix t P
  end.

Definition texts (t : nat) (P : list header) : list (list Z) := hd_text <$> filter (λ r, hd_tok r = t) P.

(** The fragment of a header, with the one that continues it. *)
Definition frag_is (a : allocated_headers) (r : header) (next : nat) : Prop :=
  ∃ off, frags a !! hd_ix r = Some (Fragment off (length (hd_text r)) next)
    ∧ (off + length (hd_text r) ≤ pos a)%nat
    ∧ take (length (hd_text r)) (drop off (data a)) = hd_text r.

Fixpoint chains (a : allocated_headers) (P : list header) : Prop :=
  match P with
  | [] => True
  | r :: P => frag_is a r (first_ix (hd_tok r) P) ∧ chains a P
  end.

(** The fragments are in order, after number [lo]. *)
Fixpoint increasing (lo : nat) (P : list header) : Prop :=
  match P with
  | [] => True
  | r :: P => (lo < hd_ix r)%nat ∧ (hd_tok r < WSI_TOKEN_COUNT)%nat ∧ increasing (hd_ix r) P
  end.

Definition no_frag : lws_fragment := Fragment 0 0 0.

(** The store has the headers [P] in fragments below [hi], and the others are
    as they were when the store was made. *)
Record stored (max : nat) (a : allocated_headers) (P : list header) (hi : nat) : Prop := {
  st_data : length (data a) = max;
  st_frags : length (frags a) = WSI_TOKEN_COUNT;
  st_index : length (frag_index a) = WSI_TOKEN_COUNT;
  st_first : ∀ t, (t < WSI_TOKEN_COUNT)%nat → frag_index a !! t = Some (first_ix t P);
  st_chains : chains a P;
  st_inc : increasing 0 P;
  st_below : Forall (λ r, hd_ix r < hi)%nat P;
  st_rest : ∀ i, (hi ≤ i < WSI_TOKEN_COUNT)%nat → frags a !! i = Some no_frag;
  st_pos : (pos a ≤ max)%nat;
}.

(** Between headers. *)
Definition closed (max : nat) (a : allocated_headers) (P : list header) : Prop := stored max a P (nfrag a).

(** Inside of the header [r]: its text ends at [pos]. *)
Definition opened (max : nat) (a : allocated_headers) (P : list header) (r : header) : Prop :=
  stored max a (P ++ [r]) (S (nfrag a)) ∧ hd_ix r = nfrag a
  ∧ frags a !! nfrag a = Some (Fragment (pos a - length (hd_text r)) (length (hd_text r)) 0)
  ∧ (length (hd_text r) ≤ pos a)%nat.

(** ** Lemmas: lists of headers *)

Lemma increasing_weaken lo lo' P : (lo ≤ lo')%nat → increasing lo' P → increasing lo P.
Proof. destruct P as [|r P]; [done|]. cbn. intuition lia. Qed.

Lemma increasing_pos lo P r : increasing lo P → r ∈ P → (lo < hd_ix r)%nat.
Proof.
  revert lo. induction P as [|q P IH]; intros lo; [by intros _ ?%elem_of_nil|]. cbn. intros (Hq & _ & H) [->|Hr]%elem_of_cons; [done|].
  specialize (IH _ H Hr). lia.
Qed.

Lemma increasing_snoc lo P r :
  increasing lo P → (lo < hd_ix r)%nat → Forall (λ q, hd_ix q < hd_ix r)%nat P → (hd_tok r < WSI_TOKEN_COUNT)%nat →
  increasing lo (P ++ [r]).
Proof.
  revert lo. induction P as [|q P IH]; intros lo; cbn; [done|]. intros (Hq & Ht & H) _ [Hlt HP]%Forall_cons Hr. auto.
Qed.

Lemma first_ix_pos lo t P : increasing lo P → first_ix t P = 0%nat ∨ (lo < first_ix t P)%nat.
Proof.
  revert lo. induction P as [|r P IH]; intros lo; cbn; [auto|]. intros (Hq & _ & H). destruct (hd_tok r =? t)%nat; [auto|].
  destruct (IH _ H); lia.
Qed.

Lemma last_ix_pos lo t P : increasing lo P → last_ix t P = 0%nat ∨ (lo < last_ix t P)%nat.
Proof.
  revert lo. induction P as [|r P IH]; intros lo; cbn; [auto|]. intros (Hq & _ & H).
  destruct (IH _ H) as [E|E]; [rewrite E; cbn; destruct (_ =? t)%nat; lia|]. rewrite (proj2 (Nat.eqb_neq _ _)) by lia. lia.
Qed.

Lemma last_first_0 lo t P : increasing lo P → last_ix t P = 0%nat ↔ first_ix t P = 0%nat.
Proof.
  revert lo. induction P as [|r P IH]; intros lo; cbn; [done|]. intros (Hq & _ & H). specialize (IH _ H).
  destruct (hd_tok r =? t)%nat; destruct (Nat.eqb_spec (last_ix t P) 0); lia.
Qed.

Lemma first_ix_app lo t P Q :
  increasing lo P → first_ix t (P ++ Q) = if (first_ix t P =? 0)%nat then first_ix t Q else first_ix t P.
Proof.
  revert lo. induction P as [|r P IH]; intros lo; cbn; [done|]. intros (Hq & _ & H). destruct (hd_tok r =? t)%nat.
  - by rewrite (proj2 (Nat.eqb_neq _ _)) by lia.
  - by eapply IH.
Qed.

Lemma first_ix_in t P : first_ix t P ≠ 0%nat → ∃ r, r ∈ P ∧ hd_ix r = first_ix t P ∧ hd_tok r = t.
Proof.
  induction P as [|r P IH]; cbn; [done|]. destruct (Nat.eqb_spec (hd_tok r) t) as [E|].
  - intros _. exists r. split; [left|done].
  - intros H. destruct (IH H) as (q & Hq & ?). exists q. split; [by right|done].
Qed.

Lemma last_ix_in t P : last_ix t P ≠ 0%nat → ∃ r, r ∈ P ∧ hd_ix r = last_ix t P ∧ hd_tok r = t.
Proof.
  induction P as [|r P IH]; cbn; [done|]. destruct (Nat.eqb_spec (last_ix t P) 0).
  - destruct (Nat.eqb_spec (hd_tok r) t); [|done]. intros _. exists r. split; [left|done].
  - intros H. destruct (IH H) as (q & Hq & ?). exists q. split; [by right|done].
Qed.

Lemma texts_app t P Q : texts t (P ++ Q) = texts t P ++ texts t Q.
Proof. unfold texts. by rewrite filter_app, fmap_app. Qed.

Lemma first_ix_texts lo t P : increasing lo P → first_ix t P = 0%nat ↔ texts t P = [].
Proof.
  revert lo. induction P as [|r P IH]; intros lo; cbn [first_ix increasing]; [done|]. intros (Hq & _ & H). unfold texts. rewrite filter_cons.
  destruct (Nat.eqb_spec (hd_tok r) t) as [->|Hne].
  - rewrite decide_True by done. cbn. split; [lia|done].
  - rewrite decide_False by done. by apply (IH _ H).
Qed.

(** ** Lemmas: changes of the store *)

(** Everything a header is made of is still there. *)
Definition keeps (a a' : allocated_headers) : Prop :=
  (pos a ≤ pos a')%nat ∧ length (data a') = length (data a) ∧ take (pos a) (data a') = take (pos a) (data a).

Lemma keeps_refl a : keeps a a.
Proof. done. Qed.

Lemma keeps_put a c : (pos a < length (data a))%nat → keeps a (set_pos (S (pos a)) (set_data (<[pos a := c]> (data a)) a)).
Proof. intros H. split; cbn; [lia|]. split; [by rewrite length_insert|]. by rewrite take_insert_ge by lia. Qed.

Lemma text_keeps a a' off n :
  keeps a a' → (off + n ≤ pos a)%nat → take n (drop off (data a')) = take n (drop off (data a)).
Proof.
  intros (_ & _ & Hd) Hn. rewrite !take_drop_commute. f_equal.
  replace (off + n)%nat with (Nat.min (off + n) (pos a)) by lia. by rewrite <- !take_take, Hd.
Qed.

Lemma frag_is_keeps a a' r n :
  keeps a a' → frags a' !! hd_ix r = frags a !! hd_ix r → frag_is a r n → frag_is a' r n.
Proof.
  intros Hk Ef (off & E & Ho & Ht). exists off. rewrite Ef, (text_keeps _ _ _ _ Hk Ho). destruct Hk. split; [done|]. split; [lia|done].
Qed.

Lemma chains_keeps a a' P :
  keeps a a' → (∀ r, r ∈ P → frags a' !! hd_ix r = frags a !! hd_ix r) → chains a P → chains a' P.
Proof.
  intros Hk. induction P as [|r P IH]; intros Hf; cbn; [done|]. intros [Hr HP]. split.
  - eapply frag_is_keeps; [done| |done]. apply Hf. left.
  - apply IH; [|done]. intros q Hq. apply Hf. by right.
Qed.

Definition set_next (n : nat) (f : lws_fragment) : lws_fragment := Fragment (offset f) (flen f) n.

(** A header is put behind the others: the last one of its token goes on with
    it. *)
Lemma chains_snoc lo a a' P r :
  keeps a a' → increasing lo P → chains a P →
  (∀ q, q ∈ P → frags a' !! hd_ix q
     = (if decide (hd_ix q = last_ix (hd_tok r) P) then option_map (set_next (hd_ix r)) else id) (frags a !! hd_ix q)) →
  frag_is a' r 0 → chains a' (P ++ [r]).
Proof.
  intros Hk. revert lo. induction P as [|q P IH]; intros lo Hi Hc Hf Hr; [done|]. cbn [app chains] in *.
  destruct Hi as (Hq & Hqt & Hi). destruct Hc as [Hqf Hc]. split.
  - specialize (Hf q (list_elem_of_here _ _)). rewrite (first_ix_app _ _ _ _ Hi). cbn [first_ix last_ix] in Hf |- *.
    destruct Hqf as (off & E & Ho & Ht).
    assert (∀ n, frags a' !! hd_ix q = Some (Fragment off (length (hd_text q)) n) → frag_is a' q n) as Hfin.
    { intros n En. exists off. rewrite (text_keeps _ _ _ _ Hk Ho). destruct Hk. split; [done|]. split; [lia|done]. }
    apply Hfin. rewrite Hf, E. pose proof (last_first_0 _ (hd_tok r) _ Hi) as Hlf.
    destruct (last_ix_pos _ (hd_tok r) _ Hi) as [E0|E0].
    + rewrite E0. cbn [Nat.eqb]. destruct (Nat.eqb_spec (hd_tok q) (hd_tok r)) as [Et|Et].
      * rewrite decide_True by done. cbn. rewrite Et, (proj1 Hlf E0), !Nat.eqb_refl. done.
      * rewrite decide_False by lia. cbn [id]. rewrite (proj2 (Nat.eqb_neq (hd_tok r) (hd_tok q))) by congruence.
        destruct (Nat.eqb_spec (first_ix (hd_tok q) P) 0) as [->|]; done.
    + rewrite (proj2 (Nat.eqb_neq (last_ix _ _) 0)) by lia. rewrite decide_False by lia. cbn [id].
      destruct (Nat.eqb_spec (first_ix (hd_tok q) P) 0) as [E1|]; [|done]. rewrite E1.
      destruct (Nat.eqb_spec (hd_tok r) (hd_tok q)) as [Et|]; [|done]. rewrite Et in *. lia.
  - apply (IH _ Hi Hc); [|done]. intros q' Hq'. rewrite (Hf q' (list_elem_of_further _ _ _ Hq')). cbn [last_ix].
    pose proof (increasing_pos _ _ _ Hi Hq'). destruct (last_ix_pos _ (hd_tok r) _ Hi) as [E0|E0].
    + rewrite E0. cbn [Nat.eqb]. rewrite (decide_False (P := hd_ix q' = 0%nat)) by lia. rewrite decide_False; [done|].
      destruct (_ =? _)%nat; lia.
    + by rewrite (proj2 (Nat.eqb_neq (last_ix _ _) 0)) by lia.
Qed.

(** ** Lemmas: walking along a chain *)

Lemma increasing_length lo hi P : increasing lo P → Forall (λ r, hd_ix r < hi)%nat P → (length P + lo < hi)%nat ∨ P = [].
Proof.
  revert lo. induction P as [|r P IH]; intros lo; [auto|]. cbn. intros (Hr & _ & Hi) [Hlt HP]%Forall_cons. left.
  destruct (IH _ Hi HP) as [| ->]; cbn; lia.
Qed.

Lemma chain_length max a P hi : stored max a P hi → (hi ≤ WSI_TOKEN_COUNT)%nat → (length P < WSI_TOKEN_COUNT)%nat.
Proof.
  intros H Hhi. destruct (increasing_length _ _ _ (st_inc _ _ _ _ H) (st_below _ _ _ _ H)) as [| ->]; [lia|]. unfold WSI_TOKEN_COUNT. cbn. lia.
Qed.

Lemma last_frag_chain lo a P t fuel :
  increasing lo P → chains a P → first_ix t P ≠ 0%nat → (length P ≤ fuel)%nat →
  last_frag fuel a (first_ix t P) = Ok (last_ix t P).
Proof.
  revert lo fuel. induction P as [|r P IH]; intros lo fuel; cbn [increasing chains first_ix last_ix length]; [done|].
  intros (Hr & _ & Hi) [(off & E & _) Hc] Hne Hf. pose proof (last_first_0 _ t _ Hi) as Hlf.
  destruct (Nat.eqb_spec (hd_tok r) t) as [Et|Ht].
  - rewrite Et in E. destruct fuel as [|fuel]; [lia|]. cbn [last_frag]. unfold get_frag. rewrite E. cbn [mbind res_bind fnext].
    destruct (Nat.eqb_spec (first_ix t P) 0) as [E0|E0].
    + by rewrite (proj2 Hlf E0).
    + rewrite (proj2 (Nat.eqb_neq (last_ix t P) 0)) by lia. eapply IH; [done..|lia].
  - rewrite (proj2 (Nat.eqb_neq (last_ix t P) 0)) by lia. eapply IH; [done..|lia].
Qed.

Lemma chains_lookup lo a P r : increasing lo P → chains a P → r ∈ P → ∃ n, frag_is a r n.
Proof.
  intros _. induction P as [|q P IH]; [by intros _ ?%elem_of_nil|]. cbn. intros [Hq Hc] [->|Hr]%elem_of_cons; [by eexists|auto].
Qed.

(** ** Lemmas: starting, filling and ending a header *)

(** What only a few steps change. *)
Definition same_stream (s s' : h2_stream) : Prop :=
  no_state s' = no_state s ∧ seen_nonpseudoheader s' = seen_nonpseudoheader s ∧ forbidden s' = forbidden s
  ∧ length (fflags s') = length (fflags s)
  ∧ parser_state (ahs s') = parser_state (ahs s) ∧ ups (ahs s') = ups (ahs s) ∧ ues (ahs s') = ues (ahs s).

Lemma same_stream_trans a b c : same_stream a b → same_stream b c → same_stream a c.
Proof. unfold same_stream. intuition congruence. Qed.

(** What separates a repeated header from the one before. *)
Definition sep (t : nat) (P : list header) : list Z :=
  if negb (first_ix t P =? 0)%nat && (t =? WSI_TOKEN_HTTP_COOKIE)%nat then [59] else [].

(** The fragment that is used next. *)
Definition next_ix (a : allocated_headers) : nat := Nat.max 1 (nfrag a).

(** The store with the header [Header ix t []] opened. *)
Definition open_frag (t ix : nat) (P : list header) (a : allocated_headers) : allocated_headers :=
  let fr := <[ix := Fragment (pos a) 0 0]> (frags a) in
  let fr := if (first_ix t P =? 0)%nat then fr else alter (set_next ix) (last_ix t P) fr in
  let ind := if (first_ix t P =? 0)%nat then <[t := ix]> (frag_index a) else frag_index a in
  set_frag_index ind (set_frags fr (set_nfrag ix a)).

Lemma stored_opened max a P t ix hi :
  stored max a P hi → (t < WSI_TOKEN_COUNT)%nat → (0 < ix)%nat → (hi ≤ ix < WSI_TOKEN_COUNT)%nat →
  opened max (open_frag t ix P a) P (Header ix t []).
Proof.
  intros H Ht Hix0 Hix. pose proof (st_below _ _ _ _ H) as Hb. pose proof (st_inc _ _ _ _ H) as Hi. rewrite Forall_forall in Hb.
  assert (last_ix t P ≠ 0%nat → last_ix t P < hi)%nat as Hlast.
  { intros Hne. destruct (last_ix_in t P Hne) as (r & Hr & <- & _). by apply Hb. }
  pose proof (last_first_0 _ t _ Hi) as Hlf.
  assert (∀ q, q ∈ P → frags (open_frag t ix P a) !! hd_ix q
     = (if decide (hd_ix q = last_ix t P) then option_map (set_next ix) else id) (frags a !! hd_ix q)) as Hq.
  { intros q Hq. pose proof (Hb q Hq). pose proof (increasing_pos _ _ _ Hi Hq). cbn.
    destruct (Nat.eqb_spec (first_ix t P) 0) as [E0|E0].
    - rewrite decide_False by lia. rewrite list_lookup_insert_ne by lia. done.
    - destruct (decide (hd_ix q = last_ix t P)) as [E|E].
      + rewrite E, list_lookup_alter_eq, list_lookup_insert_ne by lia. done.
      + rewrite list_lookup_alter_ne, list_lookup_insert_ne by lia. done. }
  assert (frags (open_frag t ix P a) !! ix = Some (Fragment (pos a) 0 0)) as Hnew.
  { cbn. pose proof (st_frags _ _ _ _ H). destruct (Nat.eqb_spec (first_ix t P) 0); [|rewrite list_lookup_alter_ne by lia];
      by rewrite list_lookup_insert_eq by lia. }
  split; [|split; [done|split; [etransitivity; [exact Hnew|]; cbn; do 2 f_equal; lia|cbn; lia]]]. split; try apply H.
  - cbn. destruct (first_ix t P =? 0)%nat; rewrite ?length_alter, length_insert; apply H.
  - cbn. destruct (first_ix t P =? 0)%nat; rewrite ?length_insert; apply H.
  - intros t' Ht'. rewrite (first_ix_app _ _ _ _ Hi). cbn [first_ix]. cbn. pose proof (st_first _ _ _ _ H t' Ht') as E.
    pose proof (st_index _ _ _ _ H). destruct (Nat.eqb_spec t t') as [->|].
    + destruct (first_ix t' P =? 0)%nat; [by rewrite list_lookup_insert_eq by lia|done].
    + destruct (Nat.eqb_spec (first_ix t P) 0); [rewrite list_lookup_insert_ne by done|]; rewrite E;
        by destruct (Nat.eqb_spec (first_ix t' P) 0) as [->|].
  - apply (chains_snoc 0 a); [done|done|apply H|done|]. exists (pos a). split; [done|]. cbn. split; [lia|done].
  - apply increasing_snoc; [done..| |done]. apply Forall_forall. intros q Hq'. pose proof (Hb q Hq'). cbn. lia.
  - apply Forall_app. split; [|by repeat constructor]. apply Forall_forall. intros q Hq'. pose proof (Hb q Hq'). cbn. lia.
  - intros i Hi'. cbn in *. pose proof (st_rest _ _ _ _ H i ltac:(lia)) as E.
    destruct (Nat.eqb_spec (first_ix t P) 0); [|rewrite list_lookup_alter_ne by lia]; by rewrite list_lookup_insert_ne by lia.
Qed.

Definition with_byte (c : Z) (a : allocated_headers) : allocated_headers :=
  set_pos (S (pos a)) (set_data (<[pos a := c]> (data a)) a).

Definition with_len (n : nat) (a : allocated_headers) : allocated_headers :=
  set_frags (<[nfrag a := Fragment (pos a - n) n 0]> (frags a)) a.

Lemma put_data_ok c a : (pos a < length (data a))%nat → put_data c a = Ok (with_byte c a).
Proof. intros H. unfold put_data. by rewrite (proj2 (Nat.ltb_lt _ _)). Qed.

Lemma put_frag_ok n f a : (n < length (frags a))%nat → put_frag n f a = Ok (set_frags (<[n := f]> (frags a)) a).
Proof. intros H. unfold put_frag. by rewrite (proj2 (Nat.ltb_lt _ _)). Qed.

Lemma get_frag_some n f a : frags a !! n = Some f → get_frag a n = Ok f.
Proof. intros H. unfold get_frag. by rewrite H. Qed.

Lemma get_index_some t n a : frag_index a !! t = Some n → get_index a t = Ok n.
Proof. intros H. unfold get_index. by rewrite H. Qed.

Lemma opened_lt max a P r : opened max a P r → (nfrag a < WSI_TOKEN_COUNT)%nat.
Proof.
  intros (H & _ & Hf & _). apply lookup_lt_Some in Hf. by rewrite (st_frags _ _ _ _ H) in Hf.
Qed.

(** *** The last header with another text *)

Lemma first_ix_last t' P ix t x y : first_ix t' (P ++ [Header ix t x]) = first_ix t' (P ++ [Header ix t y]).
Proof. induction P as [|q P IH]; cbn; [done|]. by rewrite IH. Qed.

Lemma increasing_last lo P ix t x y : increasing lo (P ++ [Header ix t x]) → increasing lo (P ++ [Header ix t y]).
Proof. revert lo. induction P as [|q P IH]; intros lo; cbn; naive_solver. Qed.

Lemma below_last lo P r q : increasing lo (P ++ [r]) → q ∈ P → (hd_ix q < hd_ix r)%nat.
Proof.
  revert lo. induction P as [|q' P IH]; intros lo; cbn; [by intros _ ?%elem_of_nil|].
  intros (_ & _ & Hi) [->|Hq]%elem_of_cons; [|by eapply IH]. apply (increasing_pos _ _ r Hi), elem_of_app. right. left.
Qed.

Lemma chains_last a a' P ix t x y :
  chains a (P ++ [Header ix t x]) → (∀ q n, q ∈ P → frag_is a q n → frag_is a' q n) → frag_is a' (Header ix t y) 0 →
  chains a' (P ++ [Header ix t y]).
Proof.
  intros Hc Hq Hr. induction P as [|q P IH]; cbn [app chains] in *; [done|]. destruct Hc as [Hqc Hc]. split.
  - rewrite (first_ix_last _ _ _ _ y x). apply Hq; [left|done].
  - apply IH; [done|]. intros q' n Hq'. apply Hq. by right.
Qed.

Lemma opened_text max a P r :
  opened max a P r → take (length (hd_text r)) (drop (pos a - length (hd_text r)) (data a)) = hd_text r.
Proof.
  intros (H & Hix & Hf & Hlen). destruct (chains_lookup _ _ _ r (st_inc _ _ _ _ H) (st_chains _ _ _ _ H)) as (n & off & E & _ & Et).
  { apply elem_of_app. right. left. }
  rewrite Hix, Hf in E. by injection E as <- _.
Qed.

(** A character more. *)
Lemma opened_append max a P ix t x c :
  opened max a P (Header ix t x) → (pos a < max)%nat →
  opened max (with_len (S (length x)) (with_byte c a)) P (Header ix t (x ++ [c])).
Proof.
  intros Ho Hp. pose proof (opened_lt _ _ _ _ Ho) as Hn. pose proof (opened_text _ _ _ _ Ho) as Hx.
  destruct Ho as (H & Hix & Hf & Hlen). cbn [hd_ix hd_text] in *. subst ix.
  pose proof (st_data _ _ _ _ H) as Hdata. pose proof (st_frags _ _ _ _ H) as Hfr.
  assert (frags (with_len (S (length x)) (with_byte c a)) !! nfrag a = Some (Fragment (pos a - length x) (length (x ++ [c])) 0)) as Hnew.
  { cbn. rewrite length_app, list_lookup_insert_eq by lia. cbn. do 2 f_equal; lia. }
  assert (length (x ++ [c]) = S (length x)) as Hlc by (rewrite length_app; cbn; lia).
  assert (keeps a (with_len (S (length x)) (with_byte c a))) as Hk by (apply (keeps_put a c); lia).
  split; [|split; [done|split; [etransitivity; [exact Hnew|]; cbn; do 2 f_equal; lia|cbn; lia]]].
  pose proof (st_below _ _ _ _ H) as Hb. apply Forall_app in Hb as [Hb _]. split; try apply H.
  - cbn. rewrite length_insert. apply H.
  - cbn. rewrite length_insert. apply H.
  - intros t' Ht'. rewrite (first_ix_last _ _ _ _ _ x). by apply H.
  - apply (chains_last a _ P _ _ x); [apply H| |].
    + intros q n Hq. apply frag_is_keeps; [done|]. cbn.
      pose proof (below_last _ _ _ _ (st_inc _ _ _ _ H) Hq) as Hlt. cbn in Hlt. by rewrite list_lookup_insert_ne by lia.
    + exists (pos a - length x)%nat. split; [exact Hnew|]. cbn [hd_text]. rewrite Hlc. split; [cbn; lia|]. cbn.
      rewrite take_drop_commute. replace (pos a - length x + S (length x))%nat with (S (pos a)) by lia.
      rewrite (take_S_r _ _ c) by (apply list_lookup_insert_eq; lia). rewrite take_insert_ge by lia.
      rewrite drop_app_le by (rewrite length_take; lia). f_equal. rewrite <- Hx at 2. rewrite take_drop_commute. do 2 f_equal. lia.
  - eapply increasing_last, H.
  - apply Forall_app. split; [done|]. repeat constructor.
  - intros i Hi. cbn in *. rewrite list_lookup_insert_ne by lia. apply (st_rest _ _ _ _ H). lia.
  - cbn. lia.
Qed.

(** Its NUL. *)
Lemma opened_close max a P r :
  opened max a P r → (pos a < max)%nat →
  closed max (set_nfrag (S (nfrag a)) (with_byte 0 a)) (P ++ [r]).
Proof.
  intros (H & Hix & Hf & Hlen) Hp. pose proof (st_data _ _ _ _ H). unfold closed. cbn [nfrag set_nfrag]. split; try apply H.
  - cbn. rewrite length_insert. apply H.
  - apply (chains_keeps a); [apply (keeps_put a 0); lia|done|apply H].
  - cbn. lia.
Qed.

(** ** The functions of hpack.c *)

Notation hmax e := (max_http_header_data (hx e)).

Lemma frag_append_ok e w P ix t x c :
  opened (hmax e) (ahs (str w)) P (Header ix t x) → (S (pos (ahs (str w))) < hmax e)%nat →
  ∃ s', lws_frag_append e c w = Ok (0, Hp (net w) s')
    ∧ opened (hmax e) (ahs s') P (Header ix t (x ++ [c])) ∧ same_stream (str w) s'
    ∧ hdr_token_idx s' = hdr_token_idx (str w) ∧ pos (ahs s') = S (pos (ahs (str w))).
Proof.
  intros Ho Hp. pose proof (opened_lt _ _ _ _ Ho) as Hn. pose proof Ho as (H & Hix & Hf & Hl).
  unfold lws_frag_append. rewrite put_data_ok by (rewrite (st_data _ _ _ _ H); lia). cbn [mbind res_bind].
  rewrite (get_frag_some (nfrag (with_byte c (ahs (str w)))) _ (with_byte c (ahs (str w))) Hf). cbn [mbind res_bind]. rewrite put_frag_ok by (cbn; rewrite (st_frags _ _ _ _ H); done).
  cbn [mbind res_bind offset flen fnext hd_text] in *.
  pose proof (opened_append _ _ _ _ _ _ c Ho ltac:(lia)) as Ho'. eexists. split.
  - cbn. rewrite (proj2 (Nat.leb_gt _ _)) by lia. done.
  - split; [|by split_and!]. unfold with_len in Ho'. cbn in Ho'.
    by replace (S (pos (ahs (str w))) - S (length x))%nat with (pos (ahs (str w)) - length x)%nat in Ho' by lia.
Qed.

Lemma append_all_ok e w P ix t x s :
  opened (hmax e) (ahs (str w)) P (Header ix t x) → (pos (ahs (str w)) + length s < hmax e)%nat →
  ∃ s', append_all e s w = Ok (0, Hp (net w) s')
    ∧ opened (hmax e) (ahs s') P (Header ix t (x ++ s)) ∧ same_stream (str w) s'
    ∧ hdr_token_idx s' = hdr_token_idx (str w) ∧ pos (ahs s') = (pos (ahs (str w)) + length s)%nat.
Proof.
  revert w x. induction s as [|c s IH]; intros w x Ho Hroom; cbn [append_all length] in *.
  - exists (str w). rewrite app_nil_r. destruct w. split; [done|]. split; [done|]. split; [done|]. cbn. split; [done|lia].
  - destruct (frag_append_ok e w P ix t x c Ho ltac:(lia)) as (s1 & E & Ho1 & Hs1 & Ht1 & Hp1). rewrite E. cbn [mbind res_bind].
    cbn [Z.eqb negb]. destruct (IH (Hp (net w) s1) (x ++ [c])) as (s' & E' & Ho' & Hs' & Ht' & Hp'); cbn [str]; [done|lia|].
    exists s'. rewrite E'. rewrite <- app_assoc in Ho'. split; [done|]. split; [done|]. cbn [str] in *.
    split; [by eapply same_stream_trans|]. split; [congruence|]. lia.
Qed.

Lemma frag_end_ok e w P r :
  opened (hmax e) (ahs (str w)) P r → (S (pos (ahs (str w))) < hmax e)%nat →
  ∃ s', lws_frag_end e w = Ok (0, Hp (net w) s')
    ∧ closed (hmax e) (ahs s') (P ++ [r]) ∧ same_stream (str w) s'
    ∧ hdr_token_idx s' = hdr_token_idx (str w) ∧ pos (ahs s') = S (pos (ahs (str w))) ∧ nfrag (ahs s') = S (hd_ix r).
Proof.
  intros Ho Hp. pose proof (opened_lt _ _ _ _ Ho) as Hn. pose proof Ho as (H & Hix & Hf & Hl). pose proof (st_frags _ _ _ _ H) as Hfr.
  unfold lws_frag_end, lws_frag_append. rewrite put_data_ok by (rewrite (st_data _ _ _ _ H); lia). cbn [mbind res_bind].
  rewrite (get_frag_some (nfrag (with_byte 0 (ahs (str w)))) _ (with_byte 0 (ahs (str w))) Hf). cbn [mbind res_bind]. rewrite put_frag_ok by (cbn; lia). cbn [mbind res_bind].
  cbn [pos set_frags with_byte set_pos]. rewrite (proj2 (Nat.leb_gt _ _)) by lia. cbn [Z.eqb negb mbind res_bind].
  cbn [on_str str ahs set_ahs con ah]. rewrite (get_frag_some _ (Fragment (pos (ahs (str w)) - length (hd_text r)) (S (length (hd_text r))) 0)).
  2:{ cbn. by rewrite list_lookup_insert_eq by lia. }
  cbn [mbind res_bind offset flen fnext pred]. rewrite put_frag_ok by (cbn; rewrite length_insert; lia). cbn [mbind res_bind].
  eexists. split; [done|]. pose proof (opened_close _ _ _ _ Ho ltac:(lia)) as Hc. cbn [ahs set_ahs con ah].
  split; [|by split_and!; cbn; [..|congruence]].
  match goal with |- closed _ ?a' _ => assert (a' = set_nfrag (S (nfrag (ahs (str w)))) (with_byte 0 (ahs (str w)))) as -> end; [|done].
  unfold set_nfrag, set_frags, with_byte, set_pos, set_data. cbn. f_equal.
  rewrite list_insert_insert_eq. by apply list_insert_id.
Qed.

(** The chain of the token is told of its new end, or started. *)
Lemma link_ok max a P t ix :
  stored max a P (nfrag a) → (t < WSI_TOKEN_COUNT)%nat → (0 < ix)%nat → (nfrag a ≤ ix < WSI_TOKEN_COUNT)%nat →
  let a2 := set_frags (<[ix := Fragment (pos a) 0 0]> (frags a)) (set_nfrag ix a) in
  if (first_ix t P =? 0)%nat then put_index t ix a2 = Ok (open_frag t ix P a)
  else ∃ f, last_frag (length (frags a2)) a2 (first_ix t P) = Ok (last_ix t P)
         ∧ get_frag a2 (last_ix t P) = Ok f ∧ put_frag (last_ix t P) (set_next ix f) a2 = Ok (open_frag t ix P a).
Proof.
  intros H Ht Hix0 Hix a2. pose proof (st_frags _ _ _ _ H) as Hfr. pose proof (st_inc _ _ _ _ H) as Hinc.
  pose proof (st_below _ _ _ _ H) as Hb. rewrite Forall_forall in Hb. unfold open_frag.
  destruct (Nat.eqb_spec (first_ix t P) 0) as [E0|E0].
  - unfold put_index. cbn [frag_index set_frags set_nfrag a2]. by rewrite (proj2 (Nat.ltb_lt _ _)) by (rewrite (st_index _ _ _ _ H); lia).
  - assert (chains a2 P) as Hc.
    { apply (chains_keeps a); [done| |apply H]. intros q Hq. cbn. pose proof (Hb q Hq). by rewrite list_lookup_insert_ne by lia. }
    pose proof (last_first_0 _ t _ Hinc) as Hlf. destruct (last_ix_in t P ltac:(lia)) as (r & Hr & Er & _).
    destruct (chains_lookup _ _ _ r Hinc Hc Hr) as (n & off & Ef & _). rewrite Er in Ef. exists (Fragment off (length (hd_text r)) n).
    split; [|split].
    + apply (last_frag_chain 0); try done. cbn. rewrite length_insert, Hfr.
      destruct (increasing_length _ _ _ Hinc (st_below _ _ _ _ H)) as [| ->]; cbn; lia.
    + by apply get_frag_some.
    + pose proof (lookup_lt_Some _ _ _ Ef) as Hlt. rewrite put_frag_ok by done. f_equal. rewrite list_insert_alter. cbn [frags set_frags a2] in *.
      match goal with |- set_frags ?l _ = _ =>
        assert (l = alter (set_next ix) (last_ix t P) (<[ix := Fragment (pos a) 0 0]> (frags a))) as -> end; [|done].
      apply list_alter_ext; [|done]. intros f' Ef'. rewrite Ef in Ef'. by injection Ef' as <-.
Qed.

(** A header the block names by an index. *)
Lemma frag_start_ok e w P t :
  let a := ahs (str w) in
  closed (hmax e) a P → length (fflags (str w)) = WSI_TOKEN_COUNT → (0 < t < WSI_TOKEN_COUNT)%nat →
  (nfrag a < WSI_TOKEN_COUNT)%nat → (once_only (Z.of_nat t) = true → first_ix t P = 0%nat) → (pos a < hmax e)%nat →
  ∃ s', lws_frag_start e (Z.of_nat t) w = Ok (0, Hp (net w) s')
    ∧ opened (hmax e) (ahs s') P (Header (next_ix a) t (sep t P)) ∧ same_stream (str w) s'
    ∧ hdr_token_idx s' = Z.of_nat t ∧ pos (ahs s') = (pos a + length (sep t P))%nat.
Proof.
  intros a H Hfl Ht Hn Honce Hp. unfold lws_frag_start. change (ahs (str (on_str (set_hdr_token_idx (-1)) w))) with a.
  change (fflags (str (on_str (set_hdr_token_idx (-1)) w))) with (fflags (str w)).
  rewrite (proj2 (Z.eqb_neq _ _)) by lia. rewrite (proj2 (Nat.leb_gt _ _)) by done.
  unfold index_at. rewrite (proj2 (Z.ltb_ge _ _)) by lia. rewrite Nat2Z.id.
  rewrite (get_index_some _ _ _ (st_first _ _ _ _ H t ltac:(lia))). cbn [mbind res_bind].
  assert (once_only (Z.of_nat t) && negb (first_ix t P =? 0)%nat = false) as ->.
  { destruct (once_only (Z.of_nat t)); [|done]. by rewrite Honce. }
  cbn [mbind res_bind]. pose proof (st_frags _ _ _ _ H) as Hfr.
  assert ((if (nfrag a =? 0)%nat then set_nfrag 1 a else a) = set_nfrag (next_ix a) a) as ->.
  { unfold next_ix. destruct (Nat.eqb_spec (nfrag a) 0) as [E|]; [rewrite E; done|]. rewrite Nat.max_r by lia. by destruct a. }
  assert (0 < next_ix a < WSI_TOKEN_COUNT ∧ nfrag a ≤ next_ix a)%nat as [Hix Hix'] by (unfold next_ix, WSI_TOKEN_COUNT in *; lia).
  cbn [nfrag set_nfrag pos]. rewrite put_frag_ok by (cbn; lia). cbn [mbind res_bind nfrag set_frags set_nfrag]. rewrite store_ok by lia.
  cbn [mbind res_bind]. change (frags (set_nfrag (next_ix a) a)) with (frags a).
  pose proof (link_ok _ _ _ t (next_ix a) H ltac:(lia) ltac:(lia) ltac:(lia)) as Hl.
  pose proof (stored_opened _ _ _ t (next_ix a) _ H ltac:(lia) ltac:(lia) ltac:(lia)) as Ho.
  assert (same_stream (str w) (set_ahs (open_frag t (next_ix a) P a)
            (set_fflags (<[next_ix a := 2]> (fflags (str w))) (set_hdr_token_idx (Z.of_nat t) (str w))))) as Hs.
  { split_and!; try done. cbn. by rewrite length_insert. }
  unfold sep. destruct (Nat.eqb_spec (first_ix t P) 0) as [E0|E0]; cbn [negb andb].
  - rewrite Hl. cbn [mbind res_bind]. eexists. split; [done|]. split; [exact Ho|]. split; [exact Hs|]. cbn. split; [done|lia].
  - destruct Hl as (f & E1 & E2 & E3). rewrite E1. cbn [mbind res_bind]. rewrite E2. cbn [mbind res_bind].
    change (Fragment (offset f) (flen f) (next_ix a)) with (set_next (next_ix a) f). rewrite E3. cbn [mbind res_bind].
    destruct (Nat.eqb_spec t WSI_TOKEN_HTTP_COOKIE) as [->|Htc].
    + rewrite Z.eqb_refl. rewrite put_data_ok by (cbn; rewrite (st_data _ _ _ _ H); done). cbn [mbind res_bind].
      pose proof (opened_append _ _ _ _ _ _ 59 Ho ltac:(done)) as Ho'. destruct Ho as (Ho & Hoix & Hof & Hol).
      rewrite (get_frag_some (nfrag (with_byte 59 (open_frag WSI_TOKEN_HTTP_COOKIE (next_ix a) P a))) _ (with_byte 59 (open_frag WSI_TOKEN_HTTP_COOKIE (next_ix a) P a)) Hof).
      cbn [mbind res_bind]. rewrite put_frag_ok by (pose proof (st_frags _ _ _ _ Ho) as Hlf; cbn in Hlf |- *; lia). cbn [mbind res_bind].
      eexists. split; [done|]. split; [|split; [exact Hs|cbn; split; [done|lia]]]. unfold with_len in Ho'. cbn in Ho' |- *. cbn in Hol.
      by replace (S (pos a) - 1)%nat with (pos a - 0)%nat in Ho' by lia.
    + rewrite (proj2 (Z.eqb_neq _ _)) by lia. eexists. split; [done|]. split; [exact Ho|]. split; [exact Hs|]. cbn. split; [done|lia].
Qed.

(** ** Reading the store *)

Lemma texts_cons t r P : texts t (r :: P) = if (hd_tok r =? t)%nat then hd_text r :: texts t P else texts t P.
Proof. unfold texts. rewrite filter_cons. destruct (Nat.eqb_spec (hd_tok r) t); [by rewrite decide_True|by rewrite decide_False]. Qed.

Lemma total_length_chain lo a P t h fuel len :
  increasing lo P → chains a P → first_ix t P ≠ 0%nat → (length P ≤ fuel)%nat →
  ∃ n, total_length_loop fuel a h (first_ix t P) len = Ok n.
Proof.
  revert lo fuel len. induction P as [|r P IH]; intros lo fuel len; cbn [increasing chains first_ix length]; [done|].
  intros (Hr & _ & Hi) [(off & E & _) Hc] Hne Hf. destruct (Nat.eqb_spec (hd_tok r) t) as [Et|Ht]; [|eapply IH; [done..|lia]].
  rewrite Et in E. destruct fuel as [|fuel]; [lia|]. cbn [total_length_loop]. rewrite (get_frag_some _ _ _ E).
  cbn [mbind res_bind fnext flen]. destruct (Nat.eqb_spec (first_ix t P) 0); [by eexists|]. eapply IH; [done..|lia].
Qed.

Lemma copy_chain lo a P t h fuel len dst :
  increasing lo P → chains a P → first_ix t P ≠ 0%nat → (length P ≤ fuel)%nat → (pos a ≤ length (data a))%nat →
  ∃ r, copy_loop fuel a h (first_ix t P) len dst = Ok r.
Proof.
  revert lo fuel len dst. induction P as [|r P IH]; intros lo fuel len dst; cbn [increasing chains first_ix length]; [done|].
  intros (Hr & _ & Hi) [(off & E & Ho & _) Hc] Hne Hf Hp. destruct (Nat.eqb_spec (hd_tok r) t) as [Et|Ht]; [|eapply IH; [done..|lia|done]].
  rewrite Et in E. destruct fuel as [|fuel]; [lia|]. cbn [copy_loop]. rewrite (get_frag_some _ _ _ E).
  cbn [mbind res_bind fnext flen offset]. destruct (len <=? _); [by eexists|]. unfold text_at.
  rewrite (proj2 (Nat.leb_le _ _)) by lia. cbn [mbind res_bind].
  destruct (Nat.eqb_spec (first_ix t P) 0) as [E0|E0]; [by eexists|]. eapply IH; [done..|lia|done].
Qed.

Lemma dump_header_ok max s P t :
  closed max (ahs s) P → (nfrag (ahs s) ≤ WSI_TOKEN_COUNT)%nat → (t < WSI_TOKEN_COUNT)%nat → lws_dump_header s (Z.of_nat t) = Ok tt.
Proof.
  intros H Hn Ht. pose proof (chain_length _ _ _ _ H Hn) as Hlen. pose proof (st_frags _ _ _ _ H) as Hfr.
  unfold lws_dump_header. rewrite (proj2 (Z.ltb_ge _ _)), Nat2Z.id by lia. destruct (_ =? _); [done|].
  unfold lws_hdr_copy, lws_hdr_total_length. rewrite (get_index_some _ _ _ (st_first _ _ _ _ H t Ht)). cbn [mbind res_bind].
  destruct (Nat.eqb_spec (first_ix t P) 0) as [E0|E0]; [done|].
  destruct (total_length_chain 0 (ahs s) P t t (length (frags (ahs s))) 0 (st_inc _ _ _ _ H) (st_chains _ _ _ _ H) E0 ltac:(lia)) as (n & ->).
  cbn [mbind res_bind]. destruct (n =? 0)%nat; [done|]. destruct (199 <=? Z.of_nat n); [done|].
  pose proof (st_pos _ _ _ _ H). pose proof (st_data _ _ _ _ H).
  destruct (copy_chain 0 (ahs s) P t t (length (frags (ahs s))) 199 [] (st_inc _ _ _ _ H) (st_chains _ _ _ _ H) E0 ltac:(lia) ltac:(lia)) as (r & ->).
  done.
Qed.

(** Each of the texts of a header can be read. *)
Lemma copy_fragment_chain lo a P t i x :
  increasing lo P → chains a P → texts t P !! i = Some x →
  first_ix t P ≠ 0%nat ∧ ∃ ix off n, copy_fragment_loop a (first_ix t P) i = Ok (Some ix)
    ∧ frags a !! ix = Some (Fragment off (length x) n) ∧ (off + length x ≤ pos a)%nat ∧ take (length x) (drop off (data a)) = x.
Proof.
  revert lo i. induction P as [|r P IH]; intros lo i; cbn [increasing chains first_ix]; [done|]. rewrite texts_cons.
  intros (Hr & _ & Hi) [(off & E & Ho & Hx) Hc]. destruct (Nat.eqb_spec (hd_tok r) t) as [Et|Ht]; [|by eapply IH].
  rewrite Et in E. destruct i as [|i]; cbn [lookup list_lookup].
  - intros [= <-]. split; [lia|]. exists (hd_ix r), off, (first_ix t P). by split_and!.
  - intros Hx'. destruct (IH _ _ Hi Hc Hx') as (Hne & Hex). split; [lia|]. cbn [copy_fragment_loop].
    rewrite (get_frag_some _ _ _ E). cbn [mbind res_bind fnext]. by rewrite (proj2 (Nat.eqb_neq _ _)).
Qed.

Lemma hdr_copy_fragment_ok max a P hi t i x :
  stored max a P hi → (t < WSI_TOKEN_COUNT)%nat → texts t P !! i = Some x →
  lws_hdr_copy_fragment a (Z.of_nat (length x) + 1) t i = Ok (Z.of_nat (length x), x).
Proof.
  intros H Ht Hx. destruct (copy_fragment_chain _ _ _ _ _ _ (st_inc _ _ _ _ H) (st_chains _ _ _ _ H) Hx) as (Hne & ix & off & n & E & Ef & Ho & Et).
  unfold lws_hdr_copy_fragment. rewrite (get_index_some _ _ _ (st_first _ _ _ _ H t Ht)). cbn [mbind res_bind].
  rewrite (proj2 (Nat.eqb_neq _ _)) by done. rewrite E. cbn [mbind res_bind]. rewrite (get_frag_some _ _ _ Ef). cbn [mbind res_bind flen offset].
  rewrite (proj2 (Z.leb_gt _ _)) by lia. unfold text_at. pose proof (st_pos _ _ _ _ H). pose proof (st_data _ _ _ _ H).
  rewrite (proj2 (Nat.leb_le _ _)) by lia. cbn [mbind res_bind]. by rewrite Et.
Qed.

(** A header that is not there has no fragment. *)
Lemma hdr_none max a P hi t :
  stored max a P hi → (t < WSI_TOKEN_COUNT)%nat → texts t P = [] → lws_hdr_total_length a t = Ok 0%nat.
Proof.
  intros H Ht Hx. unfold lws_hdr_total_length. rewrite (get_index_some _ _ _ (st_first _ _ _ _ H t Ht)). cbn [mbind res_bind].
  by rewrite (proj2 (first_ix_texts _ _ _ (st_inc _ _ _ _ H)) Hx).
Qed.

(** The text of the header that is being read. *)
Lemma opened_text_at max a P r :
  opened max a P r → text_at a (pos a - length (hd_text r)) (length (hd_text r)) = Ok (hd_text r).
Proof.
  intros Ho. pose proof (opened_text _ _ _ _ Ho) as Hx. destruct Ho as (H & _ & _ & Hl). unfold text_at.
  pose proof (st_pos _ _ _ _ H). pose proof (st_data _ _ _ _ H). rewrite (proj2 (Nat.leb_le _ _)) by lia. by rewrite Hx.
Qed.
