(* ===== verification/HpackOk.v ===== *)
(** * What a header block means

    The syntax of header blocks as the standard gives it ([field], [block])
    and what they mean ([step]): the headers in order, and the peer's dynamic
    table.  The claims are that lws_hpack_interpret, given the bytes of a block
    one at a time, fills the header store of the stream with exactly the
    headers the block means; and that what lws_add_http2_header_by_name writes
    is such a block. *)

From stdpp Require Import base numbers list strings.
From Stdlib Require Import ZArith Lia Ascii.
From S2P Require Import Prelude Text HttpHead Lex HttpParse Huffman HpackTable Hpack HpackStore.

(** ** Strings *)

(** A string of a block: its bytes, and the characters they stand for. *)
Record hstring := HStr { coded : bool; raw : list Z; chars : list Z }.

(** In Huffman code or as it is; there is at least one byte. *)
Definition string_ok (s : hstring) : Prop :=
  raw s ≠ [] ∧ Forall is_byte (raw s) ∧ Forall is_byte (chars s) ∧ (Z.of_nat (length (raw s)) < 2 ^ 28)
  ∧ if coded s then
      let bits := raw s ≫= byte_bits in let code := huff_encode (chars s) in
      bits = code ++ replicate (length bits - length code) true ∧ (length bits - length code < 8)%nat
    else chars s = raw s.

#[global] Instance string_ok_dec s : Decision (string_ok s).
Proof. unfold string_ok. destruct (coded s); apply _. Defined.

(** An integer with a prefix of [bits] bits, whose other bits are [hi]. *)
Fixpoint groups (fuel : nat) (n : Z) : list Z :=
  match fuel with
  | O => []
  | S fuel => if n <? 128 then [n] else (128 + n mod 128) :: groups fuel (n / 128)
  end.

Definition int_bytes (bits hi n : Z) : list Z :=
  if n <? 2 ^ bits - 1 then [hi + n] else (hi + (2 ^ bits - 1)) :: groups 5 (n - (2 ^ bits - 1)).

Definition string_bytes (s : hstring) : list Z :=
  int_bytes 7 (if coded s then 128 else 0) (Z.of_nat (length (raw s))) ++ raw s.

(** ** Fields and what they mean *)

(** Whether a header goes to the dynamic table. *)
Inductive indexing := Incremental | Without | Never.

Inductive field :=
  | FIndexed (i : Z)
  | FNamed (x : indexing) (i : Z) (v : hstring)
  | FLiteral (x : indexing) (name v : hstring)
  | FResize (n : Z).

#[global] Instance indexing_eq_dec : EqDecision indexing.
Proof. solve_decision. Defined.

Definition field_bytes (f : field) : list Z :=
  match f with
  | FIndexed i => int_bytes 7 128 i
  | FNamed Incremental i v => int_bytes 6 64 i ++ string_bytes v
  | FNamed Without i v => int_bytes 4 0 i ++ string_bytes v
  | FNamed Never i v => int_bytes 4 16 i ++ string_bytes v
  | FLiteral Incremental name v => 64 :: string_bytes name ++ string_bytes v
  | FLiteral Without name v => 0 :: string_bytes name ++ string_bytes v
  | FLiteral Never name v => 16 :: string_bytes name ++ string_bytes v
  | FResize n => int_bytes 5 32 n
  end.

Definition block_bytes (fs : list field) : list Z := fs ≫= field_bytes.

(** The peer's table with its size; the headers with their texts; whether a
    header was seen after which there are no pseudo headers; and what is used
    of the space for the text and of the fragments. *)
Record meaning := Mean {
  m_table : Z * list rfc_entry;
  m_headers : list (nat * list Z);
  m_regular : bool;
  m_used : nat;
  m_frags : nat;
}.

(** The tokens that are headers, and the pseudo headers among them
    (":protocol" is taken for an ordinary one). *)
Definition header_token (t : nat) : bool :=
  (0 <? t)%nat && (t <? 87)%nat && negb (is_method t) && negb (t =? WSI_TOKEN_CHALLENGE)%nat
  && negb (t =? WSI_TOKEN_SWORIGIN)%nat.

Definition pseudo (t : nat) : bool := (35 <=? t)%nat && (t <=? 39)%nat.

Definition present (t : nat) (m : meaning) : bool := existsb (λ h, h.1 =? t)%nat (m_headers m).

(** What comes before a repeated header. *)
Definition separator (literal : bool) (t : nat) (m : meaning) : list Z :=
  if negb (present t m) then []
  else if literal then [32]
  else if (t =? WSI_TOKEN_HTTP_COOKIE)%nat then [59] else [].

(** A header is added: pseudo headers come first and once, and there is room
    for it. *)
Definition add (max : nat) (literal : bool) (t : nat) (v : list Z) (m : meaning) : option meaning :=
  let text := separator literal t m ++ v in
  let ix := if literal then S (m_frags m) else Nat.max 1 (m_frags m) in
  if negb (header_token t) then None
  else if pseudo t && m_regular m then None
  else if (pseudo t || (t =? 85)%nat) && present t m then None
  else if negb (ix <? WSI_TOKEN_COUNT)%nat then None
  else if negb (m_used m + length text + 1 <? max)%nat then None
  else Some (Mean (m_table m) (m_headers m ++ [(t, text)]) (m_regular m || negb (pseudo t)) (m_used m + length text + 1) (S ix)).

(** A header is put into the peer's table. *)
Definition remember (r : rfc_entry) (m : meaning) : option meaning :=
  if bool_decide (rfc_ok r) && (8 <=? (m_table m).1) && (m_frags m <? WSI_TOKEN_COUNT)%nat then
    Some (Mean (rfc_step (TInsert r) (m_table m)) (m_headers m) (m_regular m) (m_used m) (m_frags m))
  else None.

Definition remember_if (x : indexing) (r : rfc_entry) (m : meaning) : option meaning :=
  match x with Incremental => remember r m | _ => Some m end.

(** What an index stands for: the token, what the server counts for the name,
    the length of the name, and the value. *)
Definition at_index (m : meaning) (i : Z) : option rfc_entry :=
  if i <? 1 then None
  else if i <? 62 then
    t ← static_token !! Z.to_nat i;
    h ← static_hdr_len !! Z.to_nat i;
    Some (Rfc t (default [] (http2_canned !! Z.to_nat i)) h h 0)
  else (m_table m).2 !! Z.to_nat (i - 62).

(** Paths that need no decoding: they start with a slash, no two slashes and
    no slash and point are together, and there are no escapes or arguments. *)
Fixpoint plain_from (slash : bool) (s : list Z) : bool :=
  match s with
  | [] => true
  | c :: s =>
      negb (existsb (Z.eqb c) [0; 37; 38; 59; 61; 43; 63]) && negb (slash && ((c =? 47) || (c =? 46)))
      && plain_from (c =? 47) s
  end.

Definition plain_value (t : nat) (v : list Z) : bool :=
  if (t =? 37)%nat then plain_from false v else true.

(** The token of a literal name. *)
Definition known_token (nm : list Z) : option nat :=
  fst <$> list_find (λ w, w = nm ∨ w = nm ++ [58]) set.

Definition lower (nm : list Z) : bool := forallb (λ c, negb ((65 <=? c) && (c <=? 90)) && negb (c =? 13)) nm.

(** No name of the table starts it. *)
Definition unknown_name (nm : list Z) : bool :=
  negb (bool_decide (head nm = Some 58))
  && forallb (λ w, bool_decide (w = []) || negb (bool_decide (w `prefix_of` nm ++ [58]))) set.

Definition step (e : h2_env) (f : field) (m : meaning) : option meaning :=
  let max := max_http_header_data (hx e) in
  match f with
  | FIndexed i =>
      if 127 <=? i then None
      else
        r ← at_index m i;
        if r_tok r =? LWS_HPACK_IGNORE_ENTRY then Some m
        else add max false (Z.to_nat (r_tok r)) (up_to_nul (r_value r)) m
  | FNamed x i v =>
      if negb (bool_decide (string_ok v)) || (2 ^ 28 <=? i) then None
      else
        r ← at_index m i;
        if r_tok r =? LWS_HPACK_IGNORE_ENTRY then
          remember_if x (Rfc LWS_HPACK_IGNORE_ENTRY [] 0 (r_nlen r) (Z.of_nat (length (chars v)))) m
        else
          let t := Z.to_nat (r_tok r) in
          if negb (plain_value t (chars v)) || (bool_decide (x = Incremental) && present t m) then None
          else
            m ← add max false t (chars v) m;
            remember_if x (Rfc (r_tok r) (chars v) (r_hlen r) (r_nlen r) (Z.of_nat (length (chars v)))) m
  | FLiteral x name v =>
      let nm := chars name in
      let n := Z.of_nat (length nm) in
      if negb (bool_decide (string_ok name ∧ string_ok v)) || negb (lower nm) || (2 ^ 16 <=? n) then None
      else
        match known_token nm with
        | Some t =>
            if negb (plain_value t (chars v)) || (bool_decide (x = Incremental) && present t m) then None
            else
              m ← add max true t (chars v) m;
              remember_if x (Rfc (Z.of_nat t) (chars v) n n (Z.of_nat (length (chars v)))) m
        | None =>
            if unknown_name nm then
              m ← remember_if x (Rfc LWS_HPACK_IGNORE_ENTRY [] n n (Z.of_nat (length (chars v)))) m;
              Some (Mean (m_table m) (m_headers m) true (m_used m) (m_frags m))
            else None
        end
  | FResize n =>
      if (n =? 0) || ((8 <=? n) && ((m_table m).1 <=? n) && (n <=? table_limit e)) then
        Some (Mean (rfc_step (TResize n) (m_table m)) (m_headers m) (m_regular m) (m_used m) (m_frags m))
      else None
  end.

Fixpoint steps (e : h2_env) (fs : list field) (m : meaning) : option meaning :=
  match fs with
  | [] => Some m
  | f :: fs => m ← step e f m; steps e fs m
  end.

(** ** Lemmas: blocks in pieces *)

Lemma interpret_app e b1 b2 w w1 :
  interpret_all e b1 w = Ok (0, w1) → interpret_all e (b1 ++ b2) w = interpret_all e b2 w1.
Proof.
  revert w. induction b1 as [|c b1 IH]; intros w; cbn [interpret_all app]; [by intros [= ->]|].
  destruct (lws_hpack_interpret e c w) as [[r w']|]; [|done]. cbn [mbind res_bind]. destruct (Z.eqb_spec r 0) as [->|]; cbn [negb].
  - apply IH.
  - intros [= -> ->]. done.
Qed.

(** What does not depend on the string that is being read. *)
Definition core (h : h2_netconn) : h2_netconn := set_hpack_len 0 (set_hst root h).

Lemma huff_run_app b1 b2 h s h' :
  huff_run (b1 ++ b2) h = Ok (Some s, h') →
  ∃ s1 s2 h1, huff_run b1 h = Ok (Some s1, h1) ∧ huff_run b2 h1 = Ok (Some s2, h') ∧ s = s1 ++ s2.
Proof.
  revert h s. induction b1 as [|b b1 IH]; intros h s; cbn [app huff_run].
  { intros E. by exists [], s, h. }
  destruct (huff_bit b h) as [[o h1]|]; [|done]. cbn [mbind res_bind]. destruct o as [|c| |]; [apply IH| |done|done].
  destruct (huff_run (b1 ++ b2) h1) as [[[s'|] h2]|] eqn:E; [|done..]. cbn [mbind res_bind fst snd option_map].
  intros [= <- <-]. destruct (IH _ _ E) as (s1 & s2 & h3 & E1 & E2 & ->). rewrite E1. cbn. by exists (c :: s1), s2, h3.
Qed.

(** The strings as the decoder reads them. *)
Lemma coded_run s : string_ok s → coded s = true →
  ∃ h, huff_run (raw s ≫= byte_bits) root = Ok (Some (chars s), h) ∧ bad_padding h = false.
Proof.
  intros (_ & _ & Hc & _ & Hs) Ec. rewrite Ec in Hs. destruct Hs as [E Hk]. rewrite E, huff_run_encode by done.
  destruct (huff_run_ones _ Hk) as (h & -> & Hh). exists h. cbn. by rewrite app_nil_r.
Qed.

Section Strings.
  Context (e : h2_env) (I : list Z → hp → Prop) (cs : list Z).

  (** [I d w]: the characters [d] have been read. *)
  Hypothesis I_frame : ∀ d w w', I d w → str w' = str w → core (net w') = core (net w) → I d w'.
  Hypothesis I_data : ∀ d w, I d w → hpack (net w) = HPKS_DATA.
  Hypothesis I_step : ∀ d c r w, cs = d ++ c :: r → I d w →
    ∃ w', data_char e c w = Ok (None, w') ∧ I (d ++ [c]) w'
      ∧ hpack_len (net w') = hpack_len (net w) ∧ hst (net w') = hst (net w) ∧ huff (net w') = huff (net w).

Lemma data_bits_ok bits d s r w h' :
  cs = d ++ s ++ r → I d w → huff_run bits (hst (net w)) = Ok (Some s, h') →
  ∃ w', data_bits e bits w = Ok (None, w') ∧ I (d ++ s) w'
    ∧ hpack_len (net w') = hpack_len (net w) ∧ hst (net w') = h' ∧ huff (net w') = huff (net w).
Proof.
  revert d s w. induction bits as [|b bits IH]; intros d s w Hcs HI; cbn [huff_run data_bits].
  { intros [= <- <-]. exists w. rewrite app_nil_r. done. }
  destruct (huff_bit b (hst (net w))) as [[o h1]|]; [|done]. cbn [mbind res_bind].
  assert (I d (on_net (set_hst h1) w)) as HI1 by by eapply I_frame.
  destruct o as [|c| |]; [|..|done|done].
  - intros E. destruct (IH d s (on_net (set_hst h1) w)) as (w' & Ew & Hw & Hl & Hh & Hu); [done..|]. by exists w'.
  - destruct (huff_run bits h1) as [[[s'|] h2]|] eqn:E; [|done..]. cbn [mbind res_bind fst snd option_map]. intros [= <- <-].
    destruct (I_step d c (s' ++ r) _ Hcs HI1) as (w1 & E1 & HI2 & Hl1 & Hh1 & Hu1). rewrite E1. cbn [mbind res_bind].
    destruct (IH (d ++ [c]) s' w1) as (w' & Ew & Hw & Hl & Hh & Hu).
    { by rewrite <- app_assoc. } { done. } { by rewrite Hh1. }
    exists w'. rewrite <- app_assoc in Hw. split; [done|]. split; [done|]. split; [by rewrite Hl, Hl1|]. split; [done|by rewrite Hu, Hu1].
Qed.

(** The bytes of a string in Huffman code, up to the last one. *)
Lemma coded_bytes bytes d s w h' :
  cs = d ++ s → I d w → huff (net w) = true → bytes ≠ [] → hpack_len (net w) = Z.of_nat (length bytes) →
  Z.of_nat (length bytes) < 2 ^ 28 → huff_run (bytes ≫= byte_bits) (hst (net w)) = Ok (Some s, h') →
  ∃ w', I cs w' ∧ hpack_len (net w') = 1 ∧ hst (net w') = h' ∧ huff (net w') = true
    ∧ ∀ more w'', data_end e w' = Ok (0, w'') → interpret_all e (bytes ++ more) w = interpret_all e more w''.
Proof.
  revert d s w. induction bytes as [|c bytes IH]; intros d s w Hcs HI Hu Hne Hl Hlt Hrun; [done|]. cbn [mbind list_bind] in Hrun.
  destruct (huff_run_app _ _ _ _ _ Hrun) as (s1 & s2 & h1 & E1 & E2 & ->).
  destruct (data_bits_ok _ d s1 s2 w h1 Hcs HI E1) as (w1 & Ew & HI1 & Hl1 & Hh1 & Hu1). cbn [length] in *.
  assert (lws_hpack_interpret e c w = data_end e w1) as Estep.
  { unfold lws_hpack_interpret. rewrite (I_data _ _ HI). unfold hpks_data. rewrite Hu, Ew. done. }
  destruct bytes as [|c' bytes].
  - exists w1. cbn in E2. injection E2 as <- <-. rewrite app_nil_r in Hcs. rewrite Hcs. rewrite Hl1, Hl, Hu1. split_and!; try done.
    intros more w'' Ed. cbn [app interpret_all]. rewrite Estep, Ed. done.
  - set (w2 := on_net (λ h, set_hpack_len (u32 (hpack_len h - 1)) h) w1).
    assert (data_end e w1 = Ok (0, w2)) as Ed.
    { unfold data_end. cbn [on_net net hpack_len set_hpack_len]. rewrite Hl1, Hl, u32_small by (cbn [length] in *; lia).
      rewrite (proj2 (Z.eqb_neq _ _)) by (cbn [length] in *; lia). cbn [negb]. unfold w2, on_net. by rewrite Hl1, Hl. }
    destruct (IH (d ++ s1) s2 w2) as (w' & HI' & Hl' & Hh' & Hu' & Hmore).
    + by rewrite <- app_assoc.
    + by eapply I_frame.
    + cbn. by rewrite Hu1.
    + done.
    + cbn [w2 on_net net hpack_len set_hpack_len]. rewrite Hl1, Hl, u32_small; cbn [length] in *; lia.
    + cbn [length] in *. lia.
    + cbn. by rewrite Hh1.
    + exists w'. split_and!; try done. intros more w'' Ed'. cbn [app interpret_all]. rewrite Estep, Ed. cbn [mbind res_bind Z.eqb negb].
      by apply Hmore.
Qed.

(** The bytes of a string as it is. *)
Lemma plain_bytes bytes d w :
  cs = d ++ bytes → I d w → huff (net w) = false → bytes ≠ [] → hpack_len (net w) = Z.of_nat (length bytes) →
  Z.of_nat (length bytes) < 2 ^ 28 →
  ∃ w', I cs w' ∧ hpack_len (net w') = 1 ∧ huff (net w') = false
    ∧ ∀ more w'', data_end e w' = Ok (0, w'') → interpret_all e (bytes ++ more) w = interpret_all e more w''.
Proof.
  revert d w. induction bytes as [|c bytes IH]; intros d w Hcs HI Hu Hne Hl Hlt; [done|]. cbn [length] in *.
  destruct (I_step d c bytes w Hcs HI) as (w1 & Ew & HI1 & Hl1 & Hh1 & Hu1).
  assert (lws_hpack_interpret e c w = data_end e w1) as Estep.
  { unfold lws_hpack_interpret. rewrite (I_data _ _ HI). unfold hpks_data. rewrite Hu, Ew. done. }
  destruct bytes as [|c' bytes].
  - exists w1. rewrite Hcs, Hl1, Hl, Hu1. split_and!; try done. intros more w'' Ed. cbn [app interpret_all]. rewrite Estep, Ed. done.
  - set (w2 := on_net (λ h, set_hpack_len (u32 (hpack_len h - 1)) h) w1).
    assert (data_end e w1 = Ok (0, w2)) as Ed.
    { unfold data_end. cbn [on_net net hpack_len set_hpack_len]. rewrite Hl1, Hl, u32_small by (cbn [length] in *; lia).
      rewrite (proj2 (Z.eqb_neq _ _)) by (cbn [length] in *; lia). cbn [negb]. unfold w2, on_net. by rewrite Hl1, Hl. }
    destruct (IH (d ++ [c]) w2) as (w' & HI' & Hl' & Hu' & Hmore).
    + by rewrite <- app_assoc.
    + by eapply I_frame.
    + cbn. by rewrite Hu1.
    + done.
    + cbn [w2 on_net net hpack_len set_hpack_len]. rewrite Hl1, Hl, u32_small; cbn [length] in *; lia.
    + cbn [length] in *. lia.
    + exists w'. split_and!; try done. intros more w'' Ed'. cbn [app interpret_all]. rewrite Estep, Ed. cbn [mbind res_bind Z.eqb negb].
      by apply Hmore.
Qed.

(** A string of either kind. *)
Lemma string_read s w :
  string_ok s → chars s = cs → I [] w → huff (net w) = coded s → hst (net w) = root →
  hpack_len (net w) = Z.of_nat (length (raw s)) →
  ∃ w', I cs w' ∧ hpack_len (net w') = 1 ∧ (huff (net w') && bad_padding (hst (net w')) = false)
    ∧ ∀ more w'', data_end e w' = Ok (0, w'') → interpret_all e (raw s ++ more) w = interpret_all e more w''.
Proof.
  intros Hs Ecs HI Hu Hh Hl. pose proof Hs as (Hne & _ & _ & Hlt & Hk). destruct (coded s) eqn:Ec.
  - destruct (coded_run s Hs Ec) as (h' & Hrun & Hp). rewrite <- Hh in Hrun. rewrite Ecs in Hrun.
    destruct (coded_bytes (raw s) [] cs w h' eq_refl HI Hu Hne Hl Hlt Hrun) as (w' & HI' & Hl' & Hh' & Hu' & Hm).
    exists w'. rewrite Hu', Hh', Hp. by split_and!.
  - destruct (plain_bytes (raw s) [] w ltac:(by rewrite <- Ecs) HI Hu Hne Hl Hlt) as (w' & HI' & Hl' & Hu' & Hm).
    exists w'. rewrite Hu'. by split_and!.
Qed.

End Strings.

(** ** Lemmas: integers *)

(** The state without what belongs to the string or integer being read. *)
Definition view (h : h2_netconn) : h2_netconn :=
  set_hpack HPKS_TYPE (set_huff false (set_hpack_m 0 (set_ext_count 0 (core h)))).

(** The bytes of an extended integer, the last one of which completes it. *)
Fixpoint ext_all (bytes : list Z) (h : h2_netconn) : option h2_netconn :=
  match bytes with
  | [] => None
  | c :: bytes =>
      match ext_byte c h with
      | Ok (true, h') => match bytes with [] => Some h' | _ => None end
      | Ok (false, h') => ext_all bytes h'
      | Fault _ => None
      end
  end.

Lemma ext_byte_ok c h x :
  0 <= ext_count h < 32 → 0 <= hpack_len h < 2 ^ ext_count h → 0 <= x < 128 → Z.land c 127 = x →
  hpack_len h + x * 2 ^ ext_count h + hpack_m h < 2 ^ 32 → 0 <= hpack_m h →
  ext_byte c h = Ok (if Z.land c 128 =? 0
                     then (true, set_ext_count (ext_count h + 7) (set_hpack_len (hpack_len h + x * 2 ^ ext_count h + hpack_m h) h))
                     else (false, set_ext_count (ext_count h + 7) (set_hpack_len (hpack_len h + x * 2 ^ ext_count h) h))).
Proof.
  intros Hc Hl Hx Ex Hs Hm. unfold ext_byte. rewrite (proj2 (Z.leb_gt _ _)) by lia. rewrite Ex, (u8_small (ext_count h + 7)) by lia.
  pose proof (Z.pow_pos_nonneg 2 (ext_count h) ltac:(lia) ltac:(lia)).
  assert (Z.lor (hpack_len h) (u32 (Z.shiftl x (ext_count h))) = hpack_len h + x * 2 ^ ext_count h) as ->.
  { rewrite u32_small by (rewrite Z.shiftl_mul_pow2; nia). rewrite Z.lor_comm, lor_shiftl_add; lia. }
  destruct (Z.land c 128 =? 0); cbn [negb]; [|done]. cbn [hpack_len hpack_m set_ext_count set_hpack_len]. rewrite u32_small by nia. done.
Qed.

Lemma ext_byte_last n h :
  0 <= ext_count h < 32 → 0 <= hpack_len h < 2 ^ ext_count h → 0 <= n < 128 →
  hpack_len h + n * 2 ^ ext_count h + hpack_m h < 2 ^ 32 → 0 <= hpack_m h →
  ext_byte n h = Ok (true, set_ext_count (ext_count h + 7) (set_hpack_len (hpack_len h + n * 2 ^ ext_count h + hpack_m h) h)).
Proof.
  intros. rewrite (ext_byte_ok n h n); try done.
  - assert (Z.land n 128 = 0) as ->; [|done].
    apply (forall_bytes_dec (λ c, c < 128 → Z.land c 128 = 0)); [by_compute|unfold is_byte; lia|lia].
  - rewrite (land_mask n 7) by lia. by apply Z.mod_small.
Qed.

Lemma ext_byte_more n h :
  0 <= ext_count h < 32 → 0 <= hpack_len h < 2 ^ ext_count h → 0 <= n →
  hpack_len h + n * 2 ^ ext_count h + hpack_m h < 2 ^ 32 → 0 <= hpack_m h →
  ext_byte (128 + n mod 128) h
  = Ok (false, set_ext_count (ext_count h + 7) (set_hpack_len (hpack_len h + n mod 128 * 2 ^ ext_count h) h)).
Proof.
  intros Hc Hl Hn Hs Hm. pose proof (Z.mod_pos_bound n 128 ltac:(lia)) as Hmod. pose proof (Z.mod_le n 128 Hn ltac:(lia)).
  pose proof (Z.pow_pos_nonneg 2 (ext_count h) ltac:(lia) ltac:(lia)). rewrite (ext_byte_ok _ h (n mod 128)); try done.
  - assert (Z.land (128 + n mod 128) 128 = 128) as ->; [|done].
    apply (forall_bytes_dec (λ c, 128 <= c → Z.land c 128 = 128)); [by_compute|unfold is_byte; lia|lia].
  - rewrite (land_mask _ 7) by lia. change (2 ^ 7) with 128. replace (128 + n mod 128) with (n mod 128 + 1 * 128) by lia.
    rewrite Z.mod_add by lia. apply Z.mod_small. lia.
  - nia.
Qed.

Lemma ext_groups fuel n h :
  0 <= n < 2 ^ (7 * Z.of_nat (S fuel)) → 0 <= ext_count h → ext_count h + 7 * Z.of_nat fuel <= 28 →
  0 <= hpack_len h < 2 ^ ext_count h → 0 <= hpack_m h → hpack_len h + n * 2 ^ ext_count h + hpack_m h < 2 ^ 32 →
  ∃ k, ext_all (groups (S fuel) n) h = Some (set_ext_count k (set_hpack_len (hpack_len h + n * 2 ^ ext_count h + hpack_m h) h)).
Proof.
  revert n h. induction fuel as [|fuel IH]; intros n h Hn Hc Hc28 Hl Hm Hs.
  { change (2 ^ (7 * Z.of_nat 1)) with 128 in Hn. cbn [groups]. rewrite (proj2 (Z.ltb_lt _ _)) by lia. cbn [ext_all].
    rewrite ext_byte_last by lia. by eexists. }
  change (groups (S (S fuel)) n) with (if n <? 128 then [n] else (128 + n mod 128) :: groups (S fuel) (n / 128)).
  destruct (Z.ltb_spec n 128) as [Hlt|Hge]; cbn [ext_all].
  { rewrite ext_byte_last by lia. by eexists. }
  rewrite ext_byte_more by lia. set (h1 := set_ext_count _ _).
  pose proof (Z.pow_pos_nonneg 2 (ext_count h) ltac:(lia) Hc) as Hpow.
  pose proof (Z.mod_pos_bound n 128 ltac:(lia)) as Hmod. pose proof (Z.div_mod n 128 ltac:(lia)) as Hdm.
  assert (2 ^ (ext_count h + 7) = 128 * 2 ^ ext_count h) as Epow by (rewrite Z.pow_add_r by lia; lia).
  destruct (IH (n / 128) h1) as (k & Ek).
  - split; [apply Z.div_pos; lia|]. apply Z.div_lt_upper_bound; [lia|].
    replace (7 * Z.of_nat (S (S fuel))) with (7 + 7 * Z.of_nat (S fuel)) in Hn by lia. rewrite Z.pow_add_r in Hn by lia. lia.
  - cbn. lia.
  - cbn [h1 ext_count set_ext_count]. lia.
  - cbn [h1 hpack_len ext_count set_ext_count set_hpack_len]. rewrite Epow. nia.
  - done.
  - cbn [h1 hpack_len ext_count hpack_m set_ext_count set_hpack_len]. rewrite Epow. nia.
  - exists k. rewrite Ek. cbn [h1 hpack_len ext_count hpack_m set_ext_count set_hpack_len]. rewrite Epow.
    f_equal. unfold set_ext_count, set_hpack_len. cbn. f_equal. nia.
Qed.

(** Go on with the block when there is no error. *)
Definition go_on (e : h2_env) (more : list Z) (r : res (Z * hp)) : res (Z * hp) :=
  '(r, w) ← r; if negb (r =? 0) then Ok (r, w) else interpret_all e more w.

Lemma go_on_ok e more w : go_on e more (Ok (0, w)) = interpret_all e more w.
Proof. reflexivity. Qed.

Lemma ext_byte_state c h b h1 : ext_byte c h = Ok (b, h1) → hpack h1 = hpack h.
Proof.
  unfold ext_byte. destruct (32 <=? ext_count h); [done|]. destruct (negb _); by intros [= <- <-].
Qed.

Lemma ext_run e st done' bytes w h' more :
  (∀ c w, hpack (net w) = st → lws_hpack_interpret e c w
     = '(complete, h) ← ext_byte c (net w); if negb complete then Ok (0, Hp h (str w)) else done' (Hp h (str w))) →
  hpack (net w) = st → ext_all bytes (net w) = Some h' →
  interpret_all e (bytes ++ more) w = go_on e more (done' (Hp h' (str w))).
Proof.
  intros Hst. revert w. induction bytes as [|c bytes IH]; intros w Hs; cbn [ext_all]; [done|].
  cbn [app interpret_all]. rewrite (Hst c w Hs). destruct (ext_byte c (net w)) as [[b h1]|] eqn:E; [|done].
  cbn [mbind res_bind]. destruct b; cbn [negb].
  - destruct bytes; [|done]. by intros [= ->].
  - intros Ea. cbn [negb Z.eqb]. apply (IH (Hp h1 (str w))); [|done]. cbn. by rewrite (ext_byte_state _ _ _ _ E).
Qed.

Lemma idx_ext_run e bytes w h' more :
  hpack (net w) = HPKS_IDX_EXT → ext_all bytes (net w) = Some h' →
  interpret_all e (bytes ++ more) w = go_on e more (idx_done e (Hp h' (str w))).
Proof. apply ext_run. intros c w' Hs. unfold lws_hpack_interpret. by rewrite Hs. Qed.

Lemma hlen_ext_run e bytes w h' more :
  hpack (net w) = HPKS_HLEN_EXT → ext_all bytes (net w) = Some h' →
  interpret_all e (bytes ++ more) w = go_on e more (pre_data e (Hp h' (str w))).
Proof. apply ext_run. intros c w' Hs. unfold lws_hpack_interpret. by rewrite Hs. Qed.

Lemma length_masks (cd : bool) n :
  0 <= n < 128 →
  Z.land ((if cd then 128 else 0) + n) 127 = n ∧ negb (Z.land ((if cd then 128 else 0) + n) 128 =? 0) = cd.
Proof.
  intros Hn. assert (is_byte n) as Hb by (unfold is_byte; lia). destruct cd.
  - revert n Hb Hn. refine (forall_bytes_dec (λ n, 0 <= n < 128 → Z.land (128 + n) 127 = n ∧ negb (Z.land (128 + n) 128 =? 0) = true) _). by_compute.
  - revert n Hb Hn. refine (forall_bytes_dec (λ n, 0 <= n < 128 → Z.land (0 + n) 127 = n ∧ negb (Z.land (0 + n) 128 =? 0) = false) _). by_compute.
Qed.

(** The length of a string. *)
Lemma hlen_read e w n cd more :
  hpack (net w) = HPKS_HLEN → huff_pad (hst (net w)) = 0 → zero_huff_padding (hst (net w)) = false → 0 <= n < 2 ^ 28 →
  ∃ h1, interpret_all e (int_bytes 7 (if cd : bool then 128 else 0) n ++ more) w = go_on e more (pre_data e (Hp h1 (str w)))
    ∧ view h1 = view (net w) ∧ huff h1 = cd ∧ hst h1 = root ∧ hpack_len h1 = n.
Proof.
  intros Hs Hpad Hz Hn. unfold int_bytes. change (2 ^ 7 - 1) with 127.
  assert (∀ m, 0 <= m < 128 → lws_hpack_interpret e ((if cd then 128 else 0) + m) w
            = hpks_hlen e ((if cd then 128 else 0) + m) w) as Eh by (intros m _; unfold lws_hpack_interpret; by rewrite Hs).
  destruct (Z.ltb_spec n 127) as [Hlt|Hge].
  - exists (set_hpack_len n (set_hst root (set_huff cd (net w)))). split; [|done]. cbn [app interpret_all].
    destruct (length_masks cd n ltac:(lia)) as [E1 E2]. rewrite Eh by lia. unfold hpks_hlen. rewrite E1, E2.
    unfold on_net. cbv beta. cbn [net str hpack_len set_hpack_len]. rewrite Hpad, Hz, (proj2 (Z.eqb_neq n 127)) by lia. done.
  - set (h0 := set_hpack HPKS_HLEN_EXT (set_ext_count 0 (set_hpack_len 0 (set_hpack_m 127 (set_hpack_len 127 (set_hst root (set_huff cd (net w)))))))).
    destruct (ext_groups 4 (n - 127) h0) as (k & Ek); try (cbn; lia).
    eexists. split; [|split; [|split; [|split]]].
    + cbn [app interpret_all]. destruct (length_masks cd 127 ltac:(lia)) as [E1 E2]. rewrite Eh by lia. unfold hpks_hlen. rewrite E1, E2.
      unfold on_net. cbv beta. cbn [net str hpack_len set_hpack_len]. rewrite Hpad, Hz. change (127 =? 127) with true. cbv iota. cbn [mbind res_bind Z.eqb negb].
      apply (hlen_ext_run e _ (Hp h0 (str w)) _ more eq_refl Ek).
    + done.
    + done.
    + done.
    + cbn. change (2 ^ 0) with 1. lia.
Qed.

(** ** The decoder between fields *)

Definition listed (P : list header) : list (nat * list Z) := (λ r, (hd_tok r, hd_text r)) <$> P.

Definition regular_in (m : meaning) : Prop := ∃ h, h ∈ m_headers m ∧ pseudo h.1 = false.

(** The stream has the headers [P]. *)
Record stream_is (max : nat) (s : h2_stream) (P : list header) (m : meaning) : Prop := {
  si_closed : closed max (ahs s) P;
  si_listed : listed P = m_headers m;
  si_pos : pos (ahs s) = m_used m;
  si_nfrag : nfrag (ahs s) = m_frags m;
  si_flags : length (fflags s) = WSI_TOKEN_COUNT;
  si_seen : seen_nonpseudoheader s = m_regular m;
  si_ups : present 37 m = false → ups (ahs s) = URIPS_IDLE;
  si_ues : ues (ahs s) = URIES_IDLE;
  si_tok : regular_in m → hdr_token_idx s ≠ 37;
  si_reg : regular_in m → m_regular m = true;
  si_forbidden : forbidden s = 0%nat;
}.

(** The table of the network connection, and the GOAWAYs it has queued. *)
Record net_is (e : h2_env) (g : list goaway) (h : h2_netconn) (m : meaning) : Prop := {
  ni_serves : serves (table_limit e) (dyn h) (m_table m);
  ni_pps : pps h = g;
}.

Definition rep (e : h2_env) (g : list goaway) (w : hp) (m : meaning) : Prop :=
  hpack (net w) = HPKS_TYPE ∧ net_is e g (net w) m ∧ ∃ P, stream_is (hmax e) (str w) P m.

(** What the server is given: memory, its table limit, and no limits of its
    own for single headers. *)
Record env_ok (e : h2_env) : Prop := {
  eo_alloc : ∀ b, alloc e b = true;
  eo_limit : 0 <= table_limit e <= 65536;
  eo_tokens : token_limits (hx e) = None;
  eo_role : h1_server (hx e) = false;
}.

(** ** Lemmas: the meaning and the store *)

Lemma first_ix_listed lo P t : increasing lo P → first_ix t P = 0%nat ↔ existsb (λ h, h.1 =? t)%nat (listed P) = false.
Proof.
  revert lo. induction P as [|r P IH]; intros lo; cbn [increasing first_ix]; [done|]. intros (Hr & _ & Hi). cbn.
  destruct (Nat.eqb_spec (hd_tok r) t); cbn [orb]; [split; [lia|done]|]. by apply (IH _ Hi).
Qed.

Lemma first_ix_present max s P m t : stream_is max s P m → first_ix t P = 0%nat ↔ present t m = false.
Proof.
  intros H. unfold present. rewrite <- (si_listed _ _ _ _ H). apply (first_ix_listed 0), (si_closed _ _ _ _ H).
Qed.

Lemma listed_app P Q : listed (P ++ Q) = listed P ++ listed Q.
Proof. apply fmap_app. Qed.

Lemma header_token_lt t : header_token t = true → (0 < t < 87)%nat ∧ is_method t = false ∧ t ≠ WSI_TOKEN_CHALLENGE ∧ t ≠ WSI_TOKEN_SWORIGIN.
Proof.
  unfold header_token. rewrite !andb_true_iff, !negb_true_iff, !Nat.ltb_lt, !Nat.eqb_neq. intuition.
Qed.

Lemma once_only_spec t : header_token t = true → once_only (Z.of_nat t) = true → pseudo t || (t =? 85)%nat = true.
Proof.
  intros H. destruct (header_token_lt t H) as (Ht & _). revert H. assert (t ∈ seq 0 87) as Hin by (apply elem_of_seq; lia).
  revert t Hin Ht. assert (forallb (λ t, negb (header_token t) || negb (once_only (Z.of_nat t)) || (pseudo t || (t =? 85)%nat)) (seq 0 87) = true) as Hall by (vm_compute; reflexivity).
  intros t Hin _ H1 H2. rewrite forallb_forall in Hall. specialize (Hall t (proj1 (list_elem_of_In _ _) Hin)). by rewrite H1, H2 in Hall.
Qed.

Lemma add_inv max lit t v m m' :
  add max lit t v m = Some m' →
  header_token t = true ∧ (pseudo t && m_regular m = false) ∧ ((pseudo t || (t =? 85)%nat) && present t m = false)
  ∧ ((if lit then S (m_frags m) else Nat.max 1 (m_frags m)) < WSI_TOKEN_COUNT)%nat
  ∧ (m_used m + length (separator lit t m ++ v) + 1 < max)%nat
  ∧ m' = Mean (m_table m) (m_headers m ++ [(t, separator lit t m ++ v)]) (m_regular m || negb (pseudo t))
              (m_used m + length (separator lit t m ++ v) + 1) (S (if lit then S (m_frags m) else Nat.max 1 (m_frags m))).
Proof.
  unfold add. destruct (header_token t); [|done]. cbn [negb]. destruct (pseudo t && m_regular m); [done|].
  destruct ((pseudo t || (t =? 85)%nat) && present t m); [done|].
  destruct (Nat.ltb_spec (if lit then S (m_frags m) else Nat.max 1 (m_frags m)) WSI_TOKEN_COUNT); [|done]. cbn [negb].
  destruct (Nat.ltb_spec (m_used m + length (separator lit t m ++ v) + 1) max); [|done]. cbn [negb]. by intros [= <-].
Qed.

(** The rule for the order of headers. *)
Lemma pseudo_rules_ok e t w :
  header_token t = true → pseudo t && seen_nonpseudoheader (str w) = false →
  lws_hpack_handle_pseudo_rules e (Z.of_nat t) w
  = Ok (0, on_str (set_seen (seen_nonpseudoheader (str w) || negb (pseudo t))) w).
Proof.
  intros Ht Hs. destruct (header_token_lt t Ht) as (Hlt & _). unfold lws_hpack_handle_pseudo_rules, LWS_HPACK_IGNORE_ENTRY.
  rewrite (proj2 (Z.eqb_neq _ _)), (proj2 (Z.eqb_neq _ _)) by lia. cbn [orb].
  assert (∃ b, elem lws_header_implies_psuedoheader_map (Z.shiftr (Z.of_nat t) 3) = Ok b
               ∧ negb (Z.land b (Z.shiftl 1 (Z.land (Z.of_nat t) 7)) =? 0) = pseudo t) as (b & Eb & Ep).
  { assert (forallb (λ t, negb (header_token t) || match elem lws_header_implies_psuedoheader_map (Z.shiftr (Z.of_nat t) 3) with
              | Ok b => Bool.eqb (negb (Z.land b (Z.shiftl 1 (Z.land (Z.of_nat t) 7)) =? 0)) (pseudo t) | Fault _ => false end) (seq 0 87) = true)
      as Hall by (vm_compute; reflexivity).
    rewrite forallb_forall in Hall. specialize (Hall t ltac:(apply list_elem_of_In, elem_of_seq; lia)). rewrite Ht in Hall. cbn [negb orb] in Hall.
    destruct (elem _ _) as [b|]; [|done]. exists b. split; [done|]. by apply Bool.eqb_prop. }
  rewrite Eb. cbn [mbind res_bind]. rewrite Ep. destruct (pseudo t); cbn [andb negb] in *.
  - rewrite Hs. cbn. do 2 f_equal. destruct w as [h s], s. cbn in *. by rewrite Hs.
  - rewrite andb_false_r, orb_true_r. done.
Qed.

(** What an index stands for. *)
Lemma from_index_ok e g w m i r :
  net_is e g (net w) m → at_index m i = Some r → i < 2 ^ 28 →
  ∃ ar, from_index e i w = Ok (Ref (r_tok r) ar (Some (r_hlen r)) false, w)
    ∧ (r_tok r ≠ LWS_HPACK_IGNORE_ENTRY →
       match ar with Some (v, len) => up_to_nul (take (Z.to_nat len) v) | None => [] end = up_to_nul (r_value r))
    ∧ 0 <= r_hlen r < 65536 ∧ r_hlen r <= r_nlen r ∧ 0 <= r_tok r.
Proof.
  intros Hn Hr Hi. unfold from_index, at_index in *. destruct (Z.ltb_spec i 1); [done|].
  rewrite s32_small by (unfold INT_MIN, INT_MAX; lia). destruct (Z.ltb_spec i 62) as [Hs|Hd].
  - assert (i ∈ seqZ 1 61) as Hin by (apply elem_of_seqZ; lia).
    assert (forallb (λ i, match lws_token_from_index unsized_table i, static_token !! Z.to_nat i, static_hdr_len !! Z.to_nat i with
              | Ok (Ref t ar (Some h) false), Some t', Some h' => bool_decide (t = t' ∧ h = h' ∧ 0 <= h < 65536 ∧ 0 <= t
                 ∧ match ar with Some (v, len) => up_to_nul (take (Z.to_nat len) v) | None => [] end = up_to_nul (default [] (http2_canned !! Z.to_nat i)))
              | _, _, _ => false end) (seqZ 1 61) = true) as Hall by (vm_compute; reflexivity).
    rewrite forallb_forall in Hall. specialize (Hall i (proj1 (list_elem_of_In _ _) Hin)).
    assert (lws_token_from_index (dyn (net w)) i = lws_token_from_index unsized_table i) as ->.
    { unfold lws_token_from_index. change (Z.of_nat (length static_token)) with 62. by rewrite (proj2 (Z.ltb_lt i 62)). }
    destruct (lws_token_from_index unsized_table i) as [[t ar [h|] [|]]|]; try done.
    destruct (static_token !! Z.to_nat i) as [t'|]; [|done]. destruct (static_hdr_len !! Z.to_nat i) as [h'|]; [|done].
    apply bool_decide_eq_true in Hall as (-> & -> & Hh & Ht & Hv). cbn in Hr. injection Hr as <-. cbn [mbind res_bind out_of_range r_tok r_hlen r_value r_nlen].
    exists ar. split; [done|]. split; [done|]. lia.
  - destruct (ni_serves _ _ _ _ Hn) as [(L & HL) _ _ Hok _].
    assert (((entry_of <$> (m_table m).2) ++ L) !! Z.to_nat (i - 62) = Some (entry_of r)) as Hl.
    { apply lookup_app_l_Some. by rewrite list_lookup_fmap, Hr. }
    pose proof (token_from_index_ok _ _ _ _ HL Hl) as E. replace (62 + Z.of_nat (Z.to_nat (i - 62))) with i in E by lia. rewrite E.
    rewrite Forall_forall in Hok. destruct (Hok r (list_elem_of_lookup_2 _ _ _ Hr)) as (Ht & Hh & Hnl & Hv & _).
    cbn [mbind res_bind out_of_range]. unfold entry_of. destruct (Z.eqb_spec (r_tok r) LWS_HPACK_IGNORE_ENTRY) as [->|];
      cbn; eexists; (split; [done|]); (split; [|unfold LWS_HPACK_IGNORE_ENTRY; lia]); [done|]. intros _. by rewrite Nat2Z.id, take_ge by lia.
Qed.

(** ** Lemmas: a header more *)

Lemma present_added max lit t v m m' u :
  add max lit t v m = Some m' → present u m' = present u m || (t =? u)%nat.
Proof.
  intros Ha. apply add_inv in Ha as (_ & _ & _ & _ & _ & ->). unfold present. cbn. by rewrite existsb_app; cbn; rewrite orb_false_r.
Qed.

Lemma stream_added max s P m m' lit t v s' ix :
  stream_is max s P m → add max lit t v m = Some m' →
  closed max (ahs s') (P ++ [Header ix t (separator lit t m ++ v)]) → pos (ahs s') = m_used m' → nfrag (ahs s') = m_frags m' →
  length (fflags s') = WSI_TOKEN_COUNT → seen_nonpseudoheader s' = m_regular m' → ues (ahs s') = URIES_IDLE →
  (t ≠ 37%nat → ups (ahs s') = ups (ahs s) ∨ ups (ahs s') = URIPS_IDLE) →
  (hdr_token_idx s' = Z.of_nat t ∨ (present t m = true ∧ hdr_token_idx s' = hdr_token_idx s)) → forbidden s' = 0%nat →
  stream_is max s' (P ++ [Header ix t (separator lit t m ++ v)]) m'.
Proof.
  intros H Ha Hc Hpos Hnf Hfl Hseen Hues Hups Htok Hfb. pose proof (present_added _ _ _ _ _ _ 37 Ha) as H37.
  apply add_inv in Ha as (Ht & Hps & Hpr & _ & _ & Em').
  assert (regular_in m' → regular_in m ∨ pseudo t = false) as Hreg.
  { subst m'. intros (h & [Hh|Hh%list_elem_of_singleton]%elem_of_app & Hp); [left; by exists h|right; by subst h]. }
  split; try done.
  - rewrite listed_app, (si_listed _ _ _ _ H), Em'. done.
  - rewrite H37. intros [Hn37 Ht37]%orb_false_iff. apply Nat.eqb_neq in Ht37. destruct (Hups Ht37) as [->| ->]; [|done]. by apply (si_ups _ _ _ _ H).
  - intros Hr. destruct Htok as [E|[Hp E]]; rewrite E.
    + destruct (decide (t = 37%nat)) as [->|]; [|lia]. destruct (Hreg Hr) as [Hr'|]; [|done].
      rewrite (si_reg _ _ _ _ H Hr') in Hps. done.
    + destruct (Hreg Hr) as [Hr'|Hnp]; [by apply (si_tok _ _ _ _ H)|]. apply (si_tok _ _ _ _ H).
      unfold present in Hp. apply existsb_exists in Hp as (h & Hh & Et). apply Nat.eqb_eq in Et. exists h.
      split; [by apply list_elem_of_In|]. by rewrite Et.
  - intros Hr. subst m'. cbn. destruct (Hreg Hr) as [Hr'|Hp]; [by rewrite (si_reg _ _ _ _ H Hr')|by rewrite Hp, orb_true_r].
Qed.

Lemma separator_sep max s P m t : stream_is max s P m → separator false t m = sep t P.
Proof.
  intros H. unfold separator, sep. pose proof (first_ix_present _ _ _ _ t H) as Hf. destruct (present t m); cbn [negb].
  - destruct (Nat.eqb_spec (first_ix t P) 0) as [E|]; [by apply Hf in E|]. done.
  - by rewrite (proj2 Hf eq_refl).
Qed.

Lemma fresh_once max s P m t :
  stream_is max s P m → header_token t = true → (pseudo t || (t =? 85)%nat) && present t m = false →
  once_only (Z.of_nat t) = true → first_ix t P = 0%nat.
Proof.
  intros H Ht Hp Ho. apply (first_ix_present _ _ _ _ t H). rewrite (once_only_spec t Ht Ho) in Hp. done.
Qed.

(** ** A header of the tables *)

Lemma use_idx_ok e g h s P m m' i r b nst :
  net_is e g h m → stream_is (hmax e) s P m → at_index m i = Some r → i < 2 ^ 28 → r_tok r ≠ LWS_HPACK_IGNORE_ENTRY →
  add (hmax e) false (Z.to_nat (r_tok r)) (up_to_nul (r_value r)) m = Some m' → m_regular m' = b →
  ∃ s' P', lws_hpack_use_idx_hdr e i (-1) (Hp h (set_seen b (set_no_state nst s))) = Ok (0, Hp h s') ∧ stream_is (hmax e) s' P' m'.
Proof.
  intros Hn Hs Hr Hi Hig Ha Hb. destruct (from_index_ok e g (Hp h (set_seen b (set_no_state nst s))) m i r Hn Hr Hi) as (ar & Ef & Har & _ & _ & Ht0).
  specialize (Har Hig). pose proof (add_inv _ _ _ _ _ _ Ha) as (Ht & Hps & Hpr & Hix & Hroom & Em').
  destruct (header_token_lt _ Ht) as (Hlt & _). set (t := Z.to_nat (r_tok r)) in *.
  assert (r_tok r = Z.of_nat t) as Et by (unfold t; lia). unfold lws_hpack_use_idx_hdr. rewrite Ef. cbn [mbind res_bind tok arg].
  rewrite (proj2 (Z.eqb_neq _ _)), (proj2 (Z.eqb_neq _ (-1))) by lia.
  assert (match ar with Some _ => if 0 <? -1 then -1 else r_tok r | None => r_tok r end = Z.of_nat t) as -> by (destruct ar; done).
  rewrite (proj2 (Z.eqb_neq _ _)) by (rewrite <- Et; done). rewrite Har. cbn [negb].
  set (w := Hp h (set_seen b (set_no_state nst s))).
  pose proof (si_pos _ _ _ _ Hs) as Hpos. pose proof (si_nfrag _ _ _ _ Hs) as Hnf. rewrite (separator_sep _ _ _ _ t Hs) in Hroom.
  rewrite length_app in Hroom.
  destruct (frag_start_ok e w P t) as (s1 & E1 & Ho1 & Hs1 & Htk1 & Hp1).
  { apply Hs. } { apply Hs. } { unfold WSI_TOKEN_COUNT in *. lia. } { cbn [w str]. change (ahs _) with (ahs s). rewrite Hnf. lia. }
  { by apply (fresh_once _ _ _ _ _ Hs). } { cbn [w str]. change (ahs _) with (ahs s). lia. }
  change (ahs (str w)) with (ahs s) in *. rewrite E1. cbn [mbind res_bind Z.eqb negb].
  destruct (append_all_ok e (Hp (net w) s1) P _ t _ (up_to_nul (r_value r)) Ho1) as (s2 & E2 & Ho2 & Hs2 & Htk2 & Hp2); cbn [str net] in *; [lia|].
  rewrite E2. cbn [mbind res_bind Z.eqb negb].
  destruct (frag_end_ok e (Hp (net w) s2) P _ Ho2) as (s3 & E3 & Hc3 & Hs3 & Htk3 & Hp3 & Hn3); cbn [str net hd_ix] in *; [lia|].
  rewrite E3. cbn [mbind res_bind Z.eqb negb]. cbn [str].
  assert (same_stream (str w) s3) as Hall by (eapply same_stream_trans; [|exact Hs3]; eapply same_stream_trans; [exact Hs1|done]).
  rewrite (dump_header_ok (hmax e) s3 _ t Hc3); [| |unfold WSI_TOKEN_COUNT; lia].
  2:{ rewrite Hn3. unfold next_ix. rewrite Hnf. lia. }
  cbn [mbind res_bind]. exists s3. eexists. split; [done|]. destruct Hall as (A1 & A2 & A3 & A4 & A5 & A6 & A7).
  cbn [w str] in *. change (ahs (set_seen b (set_no_state nst s))) with (ahs s) in *.
  eapply (stream_added _ s P m m' false t (up_to_nul (r_value r))); try done.
  - by rewrite (separator_sep _ _ _ _ t Hs).
  - rewrite Em'. cbn [m_used]. rewrite (separator_sep _ _ _ _ t Hs), length_app. lia.
  - rewrite Em', Hn3. cbn [m_frags]. unfold next_ix. by rewrite Hnf.
  - rewrite A4. apply Hs.
  - by rewrite A2.
  - rewrite A7. apply Hs.
  - left. by rewrite A6.
  - left. congruence.
  - rewrite A3. apply Hs.
Qed.

(** The first byte of an integer. *)
Lemma prefix_byte_7 i : 0 <= i < 128 → Z.land (128 + i) 127 = i ∧ Z.land (128 + i) 128 = 128.
Proof.
  intros Hn. assert (is_byte i) as Hb by (unfold is_byte; lia). revert i Hb Hn.
  refine (forall_bytes_dec (λ n, 0 <= n < 128 → Z.land (128 + n) 127 = n ∧ Z.land (128 + n) 128 = 128) _). by_compute.
Qed.

(** The state a field starts with. *)
Definition begun (w : hp) : hp :=
  on_str (set_no_state true)
    (on_net (λ h, set_unknown_header false (set_hpack_hdr_len 0 (set_ext_count 0 (set_last_resize false
                     (set_hst (Huff (hpack_pos (hst h)) 0 false) (set_is_first_header_char true h)))))) w).

Lemma hpks_type_7 e i w :
  1 <= i < 127 →
  hpks_type e (128 + i) w
  = (let w := on_net (λ h, set_hdr_idx i (set_hpack_type HPKT_INDEXED_HDR_7 h)) (begun w) in
     '(r, w) ← from_index e i w;
     '(n, w) ← lws_hpack_handle_pseudo_rules e (tok r) w;
     if negb (n =? 0) then Ok (1, w)
     else '(n, w) ← lws_hpack_use_idx_hdr e i (-1) w; Ok (if negb (n =? 0) then 1 else 0, w)).
Proof.
  intros Hi. destruct (prefix_byte_7 i ltac:(lia)) as [E1 E2]. unfold hpks_type. rewrite E2, E1. change (128 =? 0) with false. cbn [negb].
  rewrite (proj2 (Z.eqb_neq i 127)) by lia. cbn [on_net on_str net hdr_idx set_hdr_idx]. rewrite (proj2 (Z.eqb_neq i 0)) by lia. done.
Qed.

Lemma net_is_view e g h h' m : net_is e g h m → dyn h' = dyn h → pps h' = pps h → net_is e g h' m.
Proof. intros [H1 H2] Ed Ep. split; congruence. Qed.

Lemma indexed_ok e g w m m' i :
  rep e g w m → step e (FIndexed i) m = Some m' →
  ∃ w', interpret_all e (field_bytes (FIndexed i)) w = Ok (0, w') ∧ rep e g w' m'.
Proof.
  intros (Hst & Hn & P & Hs) E. cbn [step] in E. destruct (Z.leb_spec 127 i) as [|Hi]; [done|].
  destruct (at_index m i) as [r|] eqn:Er; [|done]. cbn [mbind option_bind] in E.
  assert (1 <= i) as Hi1 by (unfold at_index in Er; destruct (Z.ltb_spec i 1); [done|lia]).
  cbn [field_bytes]. unfold int_bytes. change (2 ^ 7 - 1) with 127. rewrite (proj2 (Z.ltb_lt _ _)) by done. cbn [interpret_all].
  unfold lws_hpack_interpret. rewrite Hst, hpks_type_7 by lia. cbv zeta.
  set (w1 := on_net _ (begun w)). assert (net_is e g (net w1) m) as Hn1 by by eapply net_is_view.
  assert (w1 = Hp (net w1) (set_no_state true (str w))) as Ew1 by done.
  destruct (from_index_ok e g w1 m i r Hn1 Er ltac:(lia)) as (ar & -> & _ & _ & _ & Ht0). cbn [mbind res_bind tok].
  destruct (Z.eqb_spec (r_tok r) LWS_HPACK_IGNORE_ENTRY) as [Ei|Hig].
  - injection E as <-. unfold lws_hpack_handle_pseudo_rules. rewrite Ei, Z.eqb_refl. cbn [orb mbind res_bind Z.eqb negb].
    unfold lws_hpack_use_idx_hdr. destruct (from_index_ok e g w1 m i r Hn1 Er ltac:(lia)) as (ar' & -> & _). cbn [mbind res_bind tok].
    rewrite Ei, Z.eqb_refl. cbn [mbind res_bind Z.eqb negb]. eexists. split; [done|]. split; [done|]. split; [done|]. exists P.
    destruct Hs. by split.
  - pose proof (add_inv _ _ _ _ _ _ E) as (Ht & Hps & _ & _ & _ & Em').
    assert (r_tok r = Z.of_nat (Z.to_nat (r_tok r))) as Et by lia. pose proof (pseudo_rules_ok e (Z.to_nat (r_tok r)) w1 Ht) as Hrule. rewrite <- Et in Hrule. rewrite Hrule.
    2:{ change (seen_nonpseudoheader (str w1)) with (seen_nonpseudoheader (str w)). by rewrite (si_seen _ _ _ _ Hs). }
    cbn [mbind res_bind Z.eqb negb].
    destruct (use_idx_ok e g (net w1) (str w) P m m' i r (m_regular m') true Hn1 Hs Er ltac:(lia) Hig E eq_refl) as (s' & P' & Eu & Hs').
    assert (on_str (set_seen (seen_nonpseudoheader (str w1) || negb (pseudo (Z.to_nat (r_tok r))))) w1
            = Hp (net w1) (set_seen (m_regular m') (set_no_state true (str w)))) as ->.
    { unfold on_str. rewrite Em'. cbn [m_regular]. change (seen_nonpseudoheader (str w1)) with (seen_nonpseudoheader (str w)).
      by rewrite (si_seen _ _ _ _ Hs). }
    rewrite Eu. cbn [mbind res_bind Z.eqb negb]. eexists. split; [done|]. split; [done|]. cbn [net str]. split; [|by exists P'].
    rewrite Em'. destruct Hn1. by split.
Qed.

(** ** A change of the table's size *)

Lemma size_masks n :
  0 <= n < 32 →
  Z.land (32 + n) 128 = 0 ∧ Z.land (32 + n) 64 = 0 ∧ (Z.land (32 + n) 240 =? 16) || (Z.land (32 + n) 240 =? 0) = false ∧ Z.land (32 + n) 31 = n.
Proof.
  intros Hn. assert (is_byte n) as Hb by (unfold is_byte; lia). revert n Hb Hn.
  refine (forall_bytes_dec (λ n, 0 <= n < 32 → Z.land (32 + n) 128 = 0 ∧ Z.land (32 + n) 64 = 0
    ∧ (Z.land (32 + n) 240 =? 16) || (Z.land (32 + n) 240 =? 0) = false ∧ Z.land (32 + n) 31 = n) _). by_compute.
Qed.

Lemma hpks_type_5 e n w :
  0 <= n < 32 →
  hpks_type e (32 + n) w
  = (let w := on_net (λ h, set_hpack_len n (set_hpack_type HPKT_SIZE_5 h)) (begun w) in
     if n =? 31 then Ok (0, on_net (start_ext 31) w)
     else '(r, w) ← resize e (on_net (set_last_resize true) w); Ok (if negb (r =? 0) then 1 else 0, w)).
Proof.
  intros Hn. destruct (size_masks n Hn) as (E1 & E2 & E3 & E4). unfold hpks_type. rewrite E1, E2, E3, E4. done.
Qed.

Lemma resize_done e g h s P m n :
  env_ok e → net_is e g h m → stream_is (hmax e) s P m → hpack_len h = n →
  n = 0 ∨ (8 <= n ∧ (m_table m).1 <= n ∧ n <= table_limit e) →
  ∃ d, resize e (Hp h s) = Ok (0, Hp (set_dyn d h) s)
    ∧ serves (table_limit e) d (rfc_step (TResize n) (m_table m)).
Proof.
  intros He [Hsv Hp] Hs Hl Hn. pose proof (eo_limit _ He) as Hlim.
  destruct (serves_resize (alloc e) (table_limit e) ltac:(intros; apply (eo_alloc _ He)) Hlim (dyn h) (m_table m) n Hsv) as (d & E & Hd).
  { cbn. destruct Hn as [->|(H8 & Hge & Hle)]; [by left|right]. split; [lia|].
    destruct Hsv as [(L & HL) _ Hnum _ _]. destruct (h_used _ _ HL) as [-> Hu]. rewrite Hnum in Hu.
    pose proof (Z.div_le_mono (m_table m).1 n 8 ltac:(lia) Hge). lia. }
  exists d. split; [|done]. unfold resize. cbn [net]. rewrite Hl. unfold table_step in E. rewrite s32_small by (unfold INT_MIN, INT_MAX; lia).
  destruct (lws_hpack_dynamic_size (alloc e) (table_limit e) n (dyn h)) as [[[r gg] d']|] eqn:Ed; [|done].
  cbn [mbind res_bind] in E |- *. injection E as -> ->.
  rewrite dynamic_size_unfold in Ed; [|intros; apply (eo_alloc _ He)|lia|lia]. cbv zeta in Ed. cbn [num_entries used_entries] in Ed.
  destruct (n / 8 =? num_entries (dyn h)).
  { by injection Ed as <- _. }
  destruct (evict _ _ _) as [d1|]; [|done]. cbn [mbind res_bind] in Ed.
  destruct (match entries d1 with Some _ => _ | None => _ end) as [dte|]; [|done]. cbn [mbind res_bind] in Ed. by injection Ed as <- _.
Qed.

Definition resized (n : Z) (m : meaning) : meaning :=
  Mean (rfc_step (TResize n) (m_table m)) (m_headers m) (m_regular m) (m_used m) (m_frags m).

Lemma stream_is_kept max s P m m' nst :
  stream_is max s P m → m_headers m' = m_headers m → m_used m' = m_used m → m_frags m' = m_frags m → m_regular m' = m_regular m →
  stream_is max (set_no_state nst s) P m'.
Proof.
  intros H E1 E2 E3 E4. destruct m as [tb hs rg us fr], m' as [tb' hs' rg' us' fr']. cbn in E1, E2, E3, E4. subst.
  split; try apply H.
Qed.

Lemma idx_done_size e g h s P m n :
  env_ok e → net_is e g h m → stream_is (hmax e) s P m → hpack_type h = HPKT_SIZE_5 → hpack_len h = n →
  n = 0 ∨ (8 <= n ∧ (m_table m).1 <= n ∧ n <= table_limit e) →
  ∃ w', idx_done e (Hp h s) = Ok (0, w') ∧ rep e g w' (resized n m).
Proof.
  intros He Hn Hs Ht Hl Hg. unfold idx_done. cbn [net]. rewrite Ht.
  destruct (resize_done e g (set_last_resize true h) s P m n He) as (d & E & Hd); try done.
  { by eapply net_is_view. }
  change (on_net (set_last_resize true) (Hp h s)) with (Hp (set_last_resize true h) s). rewrite E. cbn [mbind res_bind Z.eqb negb].
  eexists. split; [done|]. split; [done|]. split; [split; [done|apply Hn]|]. exists P. destruct Hs. by split.
Qed.

Lemma hp_eta w : Hp (net w) (str w) = w.
Proof. by destruct w. Qed.

Lemma resize_field_ok e g w m m' n :
  env_ok e → rep e g w m → step e (FResize n) m = Some m' →
  ∃ w', interpret_all e (field_bytes (FResize n)) w = Ok (0, w') ∧ rep e g w' m'.
Proof.
  intros He (Hst & Hn & P & Hs) E. cbn [step] in E.
  destruct ((n =? 0) || ((8 <=? n) && ((m_table m).1 <=? n) && (n <=? table_limit e))) eqn:Eg; [|done]. injection E as <-.
  assert (n = 0 ∨ (8 <= n ∧ (m_table m).1 <= n ∧ n <= table_limit e)) as Hg.
  { rewrite orb_true_iff, !andb_true_iff, Z.eqb_eq, !Z.leb_le in Eg. lia. }
  assert (0 <= n <= 65536) as Hn0 by (pose proof (eo_limit _ He); lia).
  cbn [field_bytes]. unfold int_bytes. change (2 ^ 5 - 1) with 31. destruct (Z.ltb_spec n 31) as [Hlt|Hge].
  - cbn [interpret_all]. unfold lws_hpack_interpret. rewrite Hst, hpks_type_5 by lia. cbv zeta. rewrite (proj2 (Z.eqb_neq n 31)) by lia.
    set (w1 := on_net (set_last_resize true) _). destruct (resize_done e g (net w1) (str w1) P m n He) as (d & E & Hd); try done.
    { by eapply net_is_view. } { destruct Hs. by split. }
    rewrite (hp_eta w1) in E. rewrite E. cbn [mbind res_bind Z.eqb negb]. eexists. split; [done|]. split; [done|].
    split; [split; [done|apply Hn]|]. exists P. destruct Hs. by split.
  - cbn [app interpret_all]. unfold lws_hpack_interpret. rewrite Hst, hpks_type_5 by lia. cbv zeta. change (31 =? 31) with true. cbv iota.
    cbn [mbind res_bind Z.eqb negb]. set (w1 := on_net (start_ext 31) _).
    destruct (ext_groups 4 (n - 31) (net w1)) as (k & Ek); try (cbn; lia).
    pose proof (idx_ext_run e _ w1 _ [] eq_refl Ek) as Er. rewrite app_nil_r in Er. rewrite Er. clear Er Ek.
    set (h1 := set_ext_count k _).
    destruct (idx_done_size e g h1 (str w1) P m n He) as (w' & Ew & Hw'); try done.
    { by eapply net_is_view. }
    { by apply (stream_is_kept _ _ _ m). }
    { cbn [h1 hpack_len set_ext_count set_hpack_len]. change (hpack_len (net w1)) with 0. change (ext_count (net w1)) with 0. change (hpack_m (net w1)) with 31. change (2 ^ 0) with 1. lia. }
    exists w'. rewrite Ew. done.
Qed.
