(* ===== verification/HpackField.v ===== *)
(** * Headers with a value in the block

    That the decoder of Hpack.v reads the headers of a block that come with a
    value, and so whole blocks: the rest of the proof begun in HpackOk.v, and
    its theorem. *)

From stdpp Require Import base numbers list strings.
From Stdlib Require Import ZArith Lia Ascii.
From S2P Require Import Prelude Text HttpHead Lex HttpParse Huffman HpackTable Hpack HpackStore HpackOk.

(** ** Lemmas: the characters of a value *)

(** What reading a value keeps of the stream. *)
Record kept (s0 s : h2_stream) : Prop := {
  k_no_state : no_state s = no_state s0;
  k_seen : seen_nonpseudoheader s = seen_nonpseudoheader s0;
  k_forbidden : forbidden s = forbidden s0;
  k_flags : length (fflags s) = length (fflags s0);
  k_state : parser_state (ahs s) = parser_state (ahs s0);
  k_token : hdr_token_idx s = hdr_token_idx s0;
  k_ues : ues (ahs s) = URIES_IDLE;
  k_ups : hdr_token_idx s0 ≠ 37 → ups (ahs s) = ups (ahs s0);
}.

Lemma stream_kept_refl s : ues (ahs s) = URIES_IDLE → kept s s.
Proof. by split. Qed.

Lemma kept_same s0 s s' : kept s0 s → same_stream s s' → hdr_token_idx s' = hdr_token_idx s → kept s0 s'.
Proof.
  intros [A1 A2 A3 A4 A5 A6 A7 A8] (B1 & B2 & B3 & B4 & B5 & B6 & B7) B8. split; try congruence. intros H. rewrite B6. by apply A8.
Qed.

(** A character of a path that is left as it is. *)
Lemma plain_char max P r c cs slash a :
  opened max a P r → ues a = URIES_IDLE → plain_from slash (c :: cs) = true →
  (ups a = URIPS_IDLE ∨ (ups a = URIPS_SEEN_SLASH ∧ slash = true)) →
  ∃ u, lws_parse_urldecode max c a = Ok (LPUR_CONTINUE, c, set_ups u a) ∧ (u = URIPS_IDLE ∨ (u = URIPS_SEEN_SLASH ∧ (c =? 47) = true)).
Proof.
  intros (H & _) Hues Hp Hu. cbn [plain_from] in Hp. apply andb_true_iff in Hp as [[Hc Hs]%andb_true_iff _]. apply negb_true_iff in Hc, Hs.
  cbn [existsb] in Hc. rewrite !orb_false_iff in Hc. destruct Hc as (E0 & E37 & E38 & E59 & E61 & E43 & E63 & _).
  assert (∀ b, urldecode_args max c false (set_ups b a) = Ok (LPUR_CONTINUE, c, set_ups b a)) as Hargs.
  { intros b. unfold urldecode_args. change (get_index (set_ups b a)) with (get_index a).
    rewrite (get_index_some _ _ _ (st_first _ _ _ _ H WSI_TOKEN_HTTP_URI_ARGS ltac:(unfold WSI_TOKEN_HTTP_URI_ARGS, WSI_TOKEN_COUNT; lia))).
    cbn [mbind res_bind]. by rewrite E63. }
  unfold lws_parse_urldecode, urldecode_escape. rewrite Hues, E37. unfold urldecode_path. destruct Hu as [Hu|[Hu ->]]; rewrite Hu.
  - unfold urldecode_idle. rewrite E0, E38, E59. cbn [orb andb].
    rewrite (get_index_some _ _ _ (st_first _ _ _ _ H WSI_TOKEN_HTTP_URI_ARGS ltac:(unfold WSI_TOKEN_HTTP_URI_ARGS, WSI_TOKEN_COUNT; lia))).
    cbn [mbind res_bind]. rewrite E61. cbn [andb]. rewrite E61, E43. cbn [andb]. destruct ((c =? 47) && (first_ix WSI_TOKEN_HTTP_URI_ARGS (P ++ [r]) =? 0)%nat) eqn:Esl.
    + rewrite Hargs. exists URIPS_SEEN_SLASH. split; [done|]. right. split; [done|]. by apply andb_true_iff in Esl as [? _].
    + assert (a = set_ups URIPS_IDLE a) as Ea by (rewrite <- Hu; by destruct a). pose proof (Hargs URIPS_IDLE) as Ha. rewrite <- Ea in Ha. rewrite Ha.
      exists URIPS_IDLE. rewrite <- Ea. auto.
  - cbn [andb] in Hs. apply orb_false_iff in Hs as [-> ->]. cbn [mbind res_bind]. rewrite Hargs. exists URIPS_IDLE. auto.
Qed.

Lemma plain_from_app s1 s2 slash :
  plain_from slash (s1 ++ s2) = true → plain_from (match last s1 with Some c => c =? 47 | None => slash end) s2 = true.
Proof.
  revert slash. induction s1 as [|c s1 IH]; intros slash; cbn [app plain_from]; [done|]. intros [_ Hp]%andb_true_iff.
  specialize (IH _ Hp). rewrite last_cons. by destruct (last s1).
Qed.

Lemma opened_ups max a P r u : opened max a P r → opened max (set_ups u a) P r.
Proof.
  intros (H & Hix & Hf & Hl). split; [|done]. destruct H. split; try done.
  clear -st_chains. revert st_chains. generalize (P ++ [r]) as Q. induction Q as [|q Q IH]; [done|]. cbn. intros [Hq HQ]. auto.
Qed.

(** The stream while a value is read: [d] of it is there. *)
Record reading (e : h2_env) (h0 : h2_netconn) (s0 : h2_stream) (P : list header) (ix t : nat) (x d : list Z) (w : hp) : Prop := {
  rd_core : core (net w) = core h0;
  rd_opened : opened (hmax e) (ahs (str w)) P (Header ix t (x ++ d));
  rd_kept : kept s0 (str w);
  rd_pos : pos (ahs (str w)) = (pos (ahs s0) + length d)%nat;
  rd_path : hdr_token_idx s0 = 37 →
            ups (ahs (str w)) = URIPS_IDLE ∨ (ups (ahs (str w)) = URIPS_SEEN_SLASH ∧ last d = Some 47);
}.

Definition value_state (h0 : h2_netconn) : Prop :=
  hpack h0 = HPKS_DATA ∧ in_value h0 = true ∧ hdr_idx h0 ≠ 0 ∧ hdr_idx h0 ≠ LWS_HPACK_IGNORE_ENTRY.

Lemma net_core_fields h h0 : core h = core h0 →
  hpack h = hpack h0 ∧ in_value h = in_value h0 ∧ hdr_idx h = hdr_idx h0 ∧ dyn h = dyn h0 ∧ pps h = pps h0
  ∧ hpack_type h = hpack_type h0 ∧ unknown_header h = unknown_header h0 ∧ first_hdr_char h = first_hdr_char h0
  ∧ hpack_hdr_len h = hpack_hdr_len h0 ∧ huff h = huff h0 ∧ is_first_header_char h = is_first_header_char h0.
Proof. destruct h, h0. cbn. intros [=]. by split_and!. Qed.

Lemma reading_step e h0 s0 P ix t x cs d c r w :
  value_state h0 → (hdr_token_idx s0 = 37 → plain_from false cs = true) → (pos (ahs s0) + length cs < hmax e)%nat →
  cs = d ++ c :: r → reading e h0 s0 P ix t x d w →
  ∃ w', data_char e c w = Ok (None, w') ∧ reading e h0 s0 P ix t x (d ++ [c]) w'
    ∧ hpack_len (net w') = hpack_len (net w) ∧ hst (net w') = hst (net w) ∧ huff (net w') = huff (net w).
Proof.
  intros (Hv1 & Hv2 & Hv3 & Hv4) Hpl Hroom Ecs [Hc Ho Hk Hp Hpa]. destruct (net_core_fields _ _ Hc) as (C1 & C2 & C3 & _).
  assert (length cs = length d + S (length r))%nat as Hlen by (rewrite Ecs, length_app; done).
  unfold data_char. rewrite C2, Hv2. unfold value_char. rewrite C3.
  rewrite (proj2 (Z.eqb_neq _ 0)) by done. rewrite (proj2 (Z.eqb_neq _ LWS_HPACK_IGNORE_ENTRY)) by done. cbn [orb].
  rewrite (k_token _ _ Hk). unfold WSI_TOKEN_HTTP_COLON_PATH. destruct (Z.eqb_spec (hdr_token_idx s0) 37) as [E37|N37].
  - specialize (Hpa E37). specialize (Hpl E37). rewrite Ecs in Hpl. apply plain_from_app in Hpl.
    destruct (plain_char _ _ _ _ _ _ _ Ho (k_ues _ _ Hk) Hpl) as (u & Eu & Hu).
    { destruct Hpa as [Hpa|[Hpa Hl]]; [by left|right]. rewrite Hl. done. }
    rewrite Eu. cbn [mbind res_bind].
    destruct (frag_append_ok e (on_str (set_ahs (set_ups u (ahs (str w)))) w) P ix t (x ++ d) c) as (s' & E & Ho' & Hs & Ht & Hp').
    { apply opened_ups, Ho. } { cbn. change (pos (set_ups u (ahs (str w)))) with (pos (ahs (str w))). lia. }
    rewrite E. cbn [mbind res_bind Z.eqb negb]. eexists. split; [done|]. split; [|done]. cbn [net str] in *.
    change (str (on_str (set_ahs (set_ups u (ahs (str w)))) w)) with (set_ahs (set_ups u (ahs (str w))) (str w)) in *.
    destruct Hs as (B1 & B2 & B3 & B4 & B5 & B6 & B7). destruct Hk as [A1 A2 A3 A4 A5 A6 A7 A8].
    split; cbn [net str]; [done|by rewrite app_assoc| | |].
    + split; cbn in *; congruence.
    + rewrite Hp'. cbn. rewrite length_app. cbn. change (pos (set_ups u (ahs (str w)))) with (pos (ahs (str w))). lia.
    + intros _. change (ups (ahs s') = u) in B6. rewrite B6, last_snoc. destruct Hu as [Hu|[Hu E47]]; [by left|right].
      apply Z.eqb_eq in E47. by subst c.
  - cbn [mbind res_bind]. destruct (frag_append_ok e w P ix t (x ++ d) c Ho) as (s' & E & Ho' & Hs & Ht & Hp'); [lia|].
    rewrite E. cbn [mbind res_bind Z.eqb negb]. eexists. split; [done|]. split; [|done].
    split; cbn [net str]; [done|by rewrite app_assoc|by eapply kept_same| |done]. rewrite Hp', Hp, length_app. cbn. lia.
Qed.

(** A whole value. *)
Lemma value_read e h0 s0 P ix t x v :
  string_ok v → value_state h0 → (hdr_token_idx s0 = 37 → plain_from false (chars v) = true ∧ ups (ahs s0) = URIPS_IDLE) →
  (pos (ahs s0) + length (chars v) < hmax e)%nat → ues (ahs s0) = URIES_IDLE →
  opened (hmax e) (ahs s0) P (Header ix t x) → huff h0 = coded v → hst h0 = root → hpack_len h0 = Z.of_nat (length (raw v)) →
  ∃ h1 s1, core h1 = core h0 ∧ hpack_len h1 = 0 ∧ opened (hmax e) (ahs s1) P (Header ix t (x ++ chars v)) ∧ kept s0 s1
    ∧ pos (ahs s1) = (pos (ahs s0) + length (chars v))%nat
    ∧ ∀ more w'', header_done e (Hp h1 s1) = Ok (0, w'') → interpret_all e (raw v ++ more) (Hp h0 s0) = interpret_all e more w''.
Proof.
  intros Hv Hst Hpl Hroom Hues Ho Hu Hh Hl.
  destruct (string_read e (reading e h0 s0 P ix t x) (chars v)) with (s := v) (w := Hp h0 s0) as (w' & HI & Hl' & Hpad & Hmore); try done.
  - intros d w w' [A1 A2 A3 A4 A5] Es Ec. split; rewrite ?Es; try done. by rewrite Ec.
  - intros d w [A1 _ _ _ _]. destruct (net_core_fields _ _ A1) as (-> & _). apply Hst.
  - intros d c r w Ecs. apply (reading_step e h0 s0 P ix t x (chars v) d c r w Hst); [|done|done]. intros E37. by apply Hpl.
  - split; cbn [net str length]; [done|by rewrite app_nil_r|by apply stream_kept_refl|lia|]. intros E37. left. by apply Hpl.
  - destruct HI as [A1 A2 A3 A4 A5]. exists (set_hpack_len 0 (net w')), (str w'). split_and!; try done.
    intros more w'' Ed. apply Hmore. unfold data_end, on_net. cbv beta zeta. rewrite Hl'. change (u32 (1 - 1)) with 0.
    cbn [net hpack_len set_hpack_len Z.eqb negb huff hst in_value]. rewrite Hpad. destruct (net_core_fields _ _ A1) as (_ & -> & _).
    destruct Hst as (_ & -> & _). done.
Qed.

(** A value nobody asked for. *)
Lemma ignored_read e h0 s0 v :
  string_ok v → hpack h0 = HPKS_DATA → in_value h0 = true → hdr_idx h0 = LWS_HPACK_IGNORE_ENTRY →
  huff h0 = coded v → hst h0 = root → hpack_len h0 = Z.of_nat (length (raw v)) →
  ∃ h1, core h1 = core h0 ∧ hpack_len h1 = 0
    ∧ ∀ more w'', header_done e (Hp h1 s0) = Ok (0, w'') → interpret_all e (raw v ++ more) (Hp h0 s0) = interpret_all e more w''.
Proof.
  intros Hv Hst Hin Hi Hu Hh Hl.
  destruct (string_read e (λ _ w, core (net w) = core h0 ∧ str w = s0) (chars v)) with (s := v) (w := Hp h0 s0)
    as (w' & [A1 A2] & Hl' & Hpad & Hmore); try done.
  - intros d w w' [A1 A2] Es Ec. split; congruence.
  - intros d w [A1 _]. by destruct (net_core_fields _ _ A1) as (-> & _).
  - intros d c r w _ [A1 A2]. destruct (net_core_fields _ _ A1) as (_ & C2 & C3 & _). exists w. split; [|done].
    unfold data_char, value_char. rewrite C2, C3, Hin, Hi. done.
  - exists (set_hpack_len 0 (net w')). split_and!; try done.
    intros more w'' Ed. apply Hmore. unfold data_end, on_net. cbv beta zeta. rewrite Hl'. change (u32 (1 - 1)) with 0.
    cbn [net str hpack_len set_hpack_len Z.eqb negb huff hst in_value]. rewrite Hpad, A2. destruct (net_core_fields _ _ A1) as (_ & -> & _).
    by rewrite Hin.
Qed.

(** ** Lemmas: the end of a header *)

Lemma remember_inv r m m' :
  remember r m = Some m' →
  rfc_ok r ∧ 8 <= (m_table m).1 ∧ (m_frags m < WSI_TOKEN_COUNT)%nat
  ∧ m' = Mean (rfc_step (TInsert r) (m_table m)) (m_headers m) (m_regular m) (m_used m) (m_frags m).
Proof.
  unfold remember. destruct (bool_decide_reflect (rfc_ok r)); [|done]. destruct (Z.leb_spec 8 (m_table m).1); [|done].
  destruct (Nat.ltb_spec (m_frags m) WSI_TOKEN_COUNT); [|done]. by intros [= <-].
Qed.

Lemma add_it_ok e g h s tb r off nx :
  env_ok e → serves (table_limit e) (dyn h) tb → pps h = g → rfc_ok r → 8 <= tb.1 →
  (nfrag (ahs s) < WSI_TOKEN_COUNT)%nat → length (fflags s) = WSI_TOKEN_COUNT →
  frags (ahs s) !! nfrag (ahs s) = Some (Fragment off (length (r_value r)) nx) →
  text_at (ahs s) off (length (r_value r)) = Ok (r_value r) → hpack_hdr_len h = r_hlen r →
  ∃ d l, add_it e (r_tok r) (Hp h s) = Ok (0, Hp (set_dyn d h) (set_fflags l s))
    ∧ serves (table_limit e) d (rfc_step (TInsert r) tb) ∧ length l = WSI_TOKEN_COUNT.
Proof.
  intros He Hsv Hg Hr Hm Hn Hfl Hf Ht Hh. pose proof (eo_limit _ He).
  destruct (serves_insert (table_limit e) (dyn h) tb r ltac:(lia) Hsv Hr) as (d & E & Hd).
  { destruct Hsv as [_ _ -> _ _]. pose proof (Z.div_le_lower_bound tb.1 8 1 ltac:(lia) ltac:(lia)). lia. }
  cbn [table_step] in E. unfold add_it. cbn [str net]. destruct (lookup_lt_is_Some_2 (fflags s) (nfrag (ahs s))) as (fl & Efl); [lia|].
  rewrite (elem_ok _ _ _ Efl). cbn [mbind res_bind]. rewrite store_ok by lia.
  cbn [mbind res_bind]. rewrite (get_frag_some _ _ _ Hf). cbn [mbind res_bind flen offset]. rewrite (eo_alloc _ He), Ht, Hh, E.
  cbn [mbind res_bind Z.eqb negb]. exists d. eexists. split; [done|]. split; [done|]. by rewrite length_insert.
Qed.

(** What header_done does with the token of the header. *)
Definition final_token (e : h2_env) (m : Z) (w : hp) : res (Z * hp) :=
  if decide (hpack_type (net w) = HPKT_INDEXED_HDR_6_VALUE_INCR) then Ok (m, w)
  else if is_literal (hpack_type (net w)) then Ok (if state_number (str w) =? 255 then -1 else state_number (str w), w)
  else '(r, w) ← from_index e (hdr_idx (net w)) w; Ok (tok r, w).

(** The state between headers. *)
Definition at_type (h : h2_netconn) : h2_netconn := set_hpack HPKS_TYPE (set_is_first_header_char true h).

Lemma finish_known e w mm h s P ix t text :
  add_header e w = Ok (0, mm, Hp h s) → hdr_idx h ≠ LWS_HPACK_IGNORE_ENTRY →
  opened (hmax e) (ahs s) P (Header ix t text) → (S (pos (ahs s)) < hmax e)%nat → (ix < WSI_TOKEN_COUNT)%nat →
  header_token t = true → pseudo t && seen_nonpseudoheader s = false →
  (∀ s', kept s s' → final_token e mm (Hp h s') = Ok (Z.of_nat t, Hp h s')) → ues (ahs s) = URIES_IDLE →
  ∃ s', header_done e w = Ok (0, Hp (at_type h) (set_seen (seen_nonpseudoheader s || negb (pseudo t)) s'))
    ∧ closed (hmax e) (ahs s') (P ++ [Header ix t text]) ∧ kept s s' ∧ pos (ahs s') = S (pos (ahs s)) ∧ nfrag (ahs s') = S ix.
Proof.
  intros Ea Hi Ho Hroom Hix Ht Hps Hfin Hues. destruct (header_token_lt _ Ht) as (Hlt & _).
  destruct (frag_end_ok e (Hp h s) P _ Ho Hroom) as (s' & E & Hc & Hs & Htk & Hpos & Hn). cbn [str net hd_ix] in *.
  assert (kept s s') as Hk by (eapply kept_same; [by apply stream_kept_refl|done|done]).
  exists s'. split; [|by split_and!]. unfold header_done. rewrite Ea. cbn [mbind res_bind Z.eqb negb net].
  rewrite (proj2 (Z.eqb_neq _ _)) by done. cbn [negb]. rewrite E. cbn [mbind res_bind Z.eqb negb].
  change (if decide (hpack_type (net (Hp h s')) = HPKT_INDEXED_HDR_6_VALUE_INCR) then Ok (mm, Hp h s') else _) with (final_token e mm (Hp h s')).
  rewrite (Hfin s' Hk). cbn [mbind res_bind]. unfold LWS_HPACK_IGNORE_ENTRY. rewrite (proj2 (Z.eqb_neq _ (-1))), (proj2 (Z.eqb_neq _ 65535)) by lia.
  cbn [orb str]. rewrite (dump_header_ok (hmax e) s' _ t Hc); [|lia|unfold WSI_TOKEN_COUNT; lia]. cbn [mbind res_bind].
  rewrite pseudo_rules_ok; [|done|by cbn; rewrite (k_seen _ _ Hk)]. cbn [mbind res_bind Z.eqb negb str].
  by rewrite (k_seen _ _ Hk).
Qed.

Lemma stream_is_table max s P m m' :
  stream_is max s P m → m_headers m' = m_headers m → m_used m' = m_used m → m_frags m' = m_frags m → m_regular m' = m_regular m →
  stream_is max s P m'.
Proof.
  intros H E1 E2 E3 E4. destruct m as [tb hs rg us fr], m' as [tb' hs' rg' us' fr']. cbn in E1, E2, E3, E4. subst.
  split; apply H.
Qed.

Lemma remember_if_kept x r m m' :
  remember_if x r m = Some m' → m_headers m' = m_headers m ∧ m_used m' = m_used m ∧ m_frags m' = m_frags m ∧ m_regular m' = m_regular m.
Proof. destruct x; cbn; [|by intros [= <-]..]. intros (_ & _ & _ & ->)%remember_inv. done. Qed.

(** ** A header the server knows *)

(** The header [t] has been opened for the value that follows. *)
Record opened_for (e : h2_env) (s : h2_stream) (P : list header) (m : meaning) (lit : bool) (t ix : nat) (v : list Z)
    (h0 : h2_netconn) (s0 : h2_stream) : Prop := {
  of_value : value_state h0;
  of_opened : opened (hmax e) (ahs s0) P (Header ix t (separator lit t m));
  of_ix : ix = if lit then S (m_frags m) else Nat.max 1 (m_frags m);
  of_pos : pos (ahs s0) = (m_used m + length (separator lit t m))%nat;
  of_ues : ues (ahs s0) = URIES_IDLE;
  of_plain : hdr_token_idx s0 = 37 → plain_from false v = true ∧ ups (ahs s0) = URIPS_IDLE;
  of_ups : ups (ahs s0) = ups (ahs s) ∨ ups (ahs s0) = URIPS_IDLE;
  of_token : hdr_token_idx s0 = Z.of_nat t ∨ (present t m = true ∧ hdr_token_idx s0 = hdr_token_idx s);
  of_seen : seen_nonpseudoheader s0 = m_regular m;
  of_forbidden : forbidden s0 = 0%nat;
  of_flags : length (fflags s0) = WSI_TOKEN_COUNT;
}.

(** The header goes into the peer's table, if it is to. *)
Lemma insert_header e g x h1 s1 P ix t v m1 m' r :
  env_ok e → serves (table_limit e) (dyn h1) (m_table m1) → pps h1 = g → remember_if x r m1 = Some m' → r_tok r = Z.of_nat t → r_value r = v →
  opened (hmax e) (ahs s1) P (Header ix t v) → (ix < WSI_TOKEN_COUNT)%nat → length (fflags s1) = WSI_TOKEN_COUNT →
  ∃ h2 l,
    match x with
    | Incremental => '(n, w) ← add_it e (Z.of_nat t) (Hp (set_hpack_hdr_len (r_hlen r) h1) s1); Ok (n, Z.of_nat t, w)
    | _ => Ok (0, -1, Hp h1 s1)
    end = Ok (0, match x with Incremental => Z.of_nat t | _ => -1 end, Hp h2 (set_fflags l s1))
    ∧ serves (table_limit e) (dyn h2) (m_table m') ∧ pps h2 = g ∧ length l = WSI_TOKEN_COUNT
    ∧ hpack_type h2 = hpack_type h1 ∧ hdr_idx h2 = hdr_idx h1 ∧ match x with Incremental => True | _ => h2 = h1 end.
Proof.
  intros He Hsv Hg Hr Et Ev Ho Hix Hfl. pose proof Ho as (_ & Hoix & Hf & _). cbn [hd_ix hd_text] in *. destruct x; cbn [remember_if] in Hr.
  - apply remember_inv in Hr as (Hok & H8 & _ & ->). rewrite <- Ev in *. rewrite <- Et.
    destruct (add_it_ok e g (set_hpack_hdr_len (r_hlen r) h1) s1 (m_table m1) r _ _ He Hsv Hg Hok H8 ltac:(lia) Hfl Hf) as (d & l & E & Hd & Hl).
    + apply (opened_text_at _ _ _ _ Ho).
    + done.
    + rewrite E. cbn [mbind res_bind]. eexists _, l. split; [done|]. by split_and!.
  - injection Hr as <-. exists h1, (fflags s1). destruct s1. by split_and!.
  - injection Hr as <-. exists h1, (fflags s1). destruct s1. by split_and!.
Qed.

Lemma kept_flags s l : ues (ahs s) = URIES_IDLE → length l = length (fflags s) → kept s (set_fflags l s).
Proof. by split. Qed.

Lemma kept_trans a b c : kept a b → kept b c → kept a c.
Proof.
  intros [A1 A2 A3 A4 A5 A6 A7 A8] [B1 B2 B3 B4 B5 B6 B7 B8]. split; try congruence. intros H. rewrite B8 by congruence. by apply A8.
Qed.

Lemma known_value e g s P m m1 m' lit x t ix v r h0 s0 more :
  env_ok e → net_is e g h0 m → stream_is (hmax e) s P m → add (hmax e) lit t (chars v) m = Some m1 →
  remember_if x r m1 = Some m' → r_tok r = Z.of_nat t → r_value r = chars v → (x = Incremental → present t m = false) →
  string_ok v → opened_for e s P m lit t ix (chars v) h0 s0 →
  huff h0 = coded v → hst h0 = root → hpack_len h0 = Z.of_nat (length (raw v)) →
  (∀ h1 s1, core h1 = core h0 → kept s0 s1 → add_header e (Hp h1 s1)
     = match x with
       | Incremental => '(n, w) ← add_it e (Z.of_nat t) (Hp (set_hpack_hdr_len (r_hlen r) h1) s1); Ok (n, Z.of_nat t, w)
       | _ => Ok (0, -1, Hp h1 s1)
       end) →
  (∀ h2 s1, kept s0 s1 → hpack_type h2 = hpack_type h0 → match x with Incremental => True | _ => core h2 = core h0 end →
     final_token e (match x with Incremental => Z.of_nat t | _ => -1 end) (Hp h2 s1) = Ok (Z.of_nat t, Hp h2 s1)) →
  ∃ w', interpret_all e (raw v ++ more) (Hp h0 s0) = interpret_all e more w' ∧ rep e g w' m'.
Proof.
  intros He [Hsv Hg] Hs Ha Hr Et Ev Hinc Hv [Q1 Q2 Q3 Q4 Q5 Q6 Q7 Q8 Q9 Q10 Q11] Hu Hh Hl Hadd Hfin.
  pose proof (add_inv _ _ _ _ _ _ Ha) as (Ht & Hps & Hpr & Hix & Hroom & Em1). rewrite <- Q3 in *. rewrite length_app in *.
  destruct (value_read e h0 s0 P ix t (separator lit t m) v Hv Q1 Q6 ltac:(lia) Q5 Q2 Hu Hh Hl) as (h1 & s1 & Hc1 & _ & Ho1 & Hk1 & Hp1 & Hmore).
  destruct (net_core_fields _ _ Hc1) as (C1 & C2 & C3 & C4 & C5 & C6 & _).
  assert (∃ h2 l, add_header e (Hp h1 s1) = Ok (0, match x with Incremental => Z.of_nat t | _ => -1 end, Hp h2 (set_fflags l s1))
            ∧ serves (table_limit e) (dyn h2) (m_table m') ∧ pps h2 = g ∧ length l = WSI_TOKEN_COUNT
            ∧ hpack_type h2 = hpack_type h1 ∧ hdr_idx h2 = hdr_idx h1 ∧ match x with Incremental => True | _ => h2 = h1 end)
    as (h2 & l & Ea & Hsv2 & Hg2 & Hl2 & Ht2 & Hi2 & Hx2).
  { rewrite (Hadd h1 s1 Hc1 Hk1). destruct x.
    - assert (separator lit t m = []) as Esep by (unfold separator; by rewrite Hinc). rewrite Esep in Ho1. cbn [app] in Ho1.
      apply (insert_header e g Incremental h1 s1 P ix t (chars v) m1); try done; [|congruence|by rewrite (k_flags _ _ Hk1)].
      rewrite Em1. cbn [m_table]. by rewrite C4.
    - injection Hr as <-. exists h1, (fflags s1). rewrite Em1. cbn [m_table]. rewrite (k_flags _ _ Hk1), C4, C5. destruct s1. by split_and!.
    - injection Hr as <-. exists h1, (fflags s1). rewrite Em1. cbn [m_table]. rewrite (k_flags _ _ Hk1), C4, C5. destruct s1. by split_and!. }
  set (s2 := set_fflags l s1) in *. assert (kept s0 s2) as Hk2.
  { eapply kept_trans; [exact Hk1|]. apply kept_flags; [apply Hk1|]. by rewrite (k_flags _ _ Hk1), Hl2. }
  destruct (finish_known e (Hp h1 s1) _ h2 s2 P ix t (separator lit t m ++ chars v) Ea) as (s3 & E3 & Hc3 & Hk3 & Hp3 & Hn3).
  { rewrite Hi2, C3. apply Q1. } { exact Ho1. } { change (ahs s2) with (ahs s1). lia. } { lia. } { done. }
  { by rewrite (k_seen _ _ Hk2), Q9. }
  { intros s' Hk'. apply Hfin; [by eapply kept_trans|congruence|]. destruct x; [done|congruence..]. }
  { apply Hk2. }
  eexists. split; [by apply Hmore|]. split; [done|]. split; [by split|]. eexists.
  pose proof (kept_trans _ _ _ Hk2 Hk3) as [K1 K2 K3 K4 K5 K6 K7 K8]. destruct (remember_if_kept _ _ _ _ Hr) as (M1 & M2 & M3 & M4).
  apply (stream_is_table _ _ _ m1); try done. eapply (stream_added _ s P m m1 lit t (chars v)); cbn [str]; try done.
  - rewrite Em1. cbn [m_used]. change (ahs (set_seen _ s3)) with (ahs s3). rewrite Hp3. change (ahs s2) with (ahs s1). lia.
  - rewrite Em1. cbn [m_frags]. change (ahs (set_seen _ s3)) with (ahs s3). lia.
  - change (length (fflags s3) = WSI_TOKEN_COUNT). congruence.
  - rewrite Em1. cbn [m_regular]. change (seen_nonpseudoheader s2 || negb (pseudo t) = m_regular m || negb (pseudo t)).
    by rewrite (k_seen _ _ Hk2), Q9.
  - intros N37. change (ahs (set_seen _ s3)) with (ahs s3). destruct (decide (hdr_token_idx s0 = 37)) as [E37|].
    + destruct Q8 as [E|[Hp E]]; [lia|]. exfalso. rewrite E in E37. apply (si_tok _ _ _ _ Hs); [|done].
      unfold present in Hp. apply existsb_exists in Hp as (h & Hh' & Eh). apply Nat.eqb_eq in Eh. exists h. split; [by apply list_elem_of_In|].
      rewrite Eh. destruct (pseudo t); [|done]. exfalso. cbn [orb andb] in Hpr. unfold present in Hpr.
      apply not_true_iff_false in Hpr. apply Hpr, existsb_exists. exists h. split; [done|]. by apply Nat.eqb_eq.
    + rewrite (K8 n). done.
  - change (hdr_token_idx (set_seen _ s3)) with (hdr_token_idx s3). by rewrite K6.
  - change (forbidden s3 = 0%nat). congruence.
Qed.

(** ** A header the server does not know *)

Lemma frag_unused max s P m :
  stream_is max s P m → (m_frags m < WSI_TOKEN_COUNT)%nat → frags (ahs s) !! nfrag (ahs s) = Some no_frag.
Proof. intros H Hm. apply (st_rest _ _ _ _ (si_closed _ _ _ _ H)). rewrite (si_nfrag _ _ _ _ H). lia. Qed.

Lemma ignored_value e g s P m m' x r v h0 more :
  env_ok e → net_is e g h0 m → stream_is (hmax e) s P m → remember_if x r m = Some m' → r_tok r = LWS_HPACK_IGNORE_ENTRY → string_ok v →
  hpack h0 = HPKS_DATA → in_value h0 = true → hdr_idx h0 = LWS_HPACK_IGNORE_ENTRY →
  huff h0 = coded v → hst h0 = root → hpack_len h0 = Z.of_nat (length (raw v)) →
  (∀ h1, core h1 = core h0 → add_header e (Hp h1 s)
     = match x with
       | Incremental => '(n, w) ← add_it e LWS_HPACK_IGNORE_ENTRY (Hp (set_hpack_hdr_len (r_hlen r) h1) s); Ok (n, LWS_HPACK_IGNORE_ENTRY, w)
       | _ => Ok (0, -1, Hp h1 s)
       end) →
  (∀ h2 l, hpack_type h2 = hpack_type h0 → hdr_idx h2 = hdr_idx h0 → ∃ k, (k = -1 ∨ k = LWS_HPACK_IGNORE_ENTRY)
     ∧ final_token e (match x with Incremental => LWS_HPACK_IGNORE_ENTRY | _ => -1 end) (Hp h2 (set_fflags l s)) = Ok (k, Hp h2 (set_fflags l s))) →
  ∃ w', interpret_all e (raw v ++ more) (Hp h0 s) = interpret_all e more w' ∧ rep e g w' m'.
Proof.
  intros He [Hsv Hg] Hs Hr Et Hv Hst Hin Hi Hu Hh Hl Hadd Hfin.
  destruct (ignored_read e h0 s v Hv Hst Hin Hi Hu Hh Hl) as (h1 & Hc1 & _ & Hmore).
  destruct (net_core_fields _ _ Hc1) as (C1 & C2 & C3 & C4 & C5 & C6 & _).
  assert (∃ h2 l, add_header e (Hp h1 s) = Ok (0, match x with Incremental => LWS_HPACK_IGNORE_ENTRY | _ => -1 end, Hp h2 (set_fflags l s))
            ∧ serves (table_limit e) (dyn h2) (m_table m') ∧ pps h2 = g ∧ length l = WSI_TOKEN_COUNT
            ∧ hpack_type h2 = hpack_type h1 ∧ hdr_idx h2 = hdr_idx h1)
    as (h2 & l & Ea & Hsv2 & Hg2 & Hl2 & Ht2 & Hi2).
  { rewrite (Hadd h1 Hc1). pose proof (si_flags _ _ _ _ Hs) as Hfl. destruct x; cbn [remember_if] in Hr.
    - apply remember_inv in Hr as (Hok & H8 & Hfr & ->). pose proof (frag_unused _ _ _ _ Hs Hfr) as Hf.
      assert (r_value r = []) as Ev by by apply Hok.
      destruct (add_it_ok e g (set_hpack_hdr_len (r_hlen r) h1) s (m_table m) r 0 0 He) as (d & l & E & Hd & Hlen); try done.
      + cbn. by rewrite C4.
      + cbn. congruence.
      + by rewrite (si_nfrag _ _ _ _ Hs).
      + by rewrite Ev.
      + rewrite Ev. done.
      + rewrite Et in E. rewrite E. cbn [mbind res_bind]. eexists _, l. split; [done|]. cbn. by rewrite C5.
    - injection Hr as <-. exists h1, (fflags s). rewrite C4, C5. destruct s. by split_and!.
    - injection Hr as <-. exists h1, (fflags s). rewrite C4, C5. destruct s. by split_and!. }
  destruct (Hfin h2 l) as (k & Hk & Ek); [congruence..|].
  eexists. split.
  - apply Hmore. unfold header_done. rewrite Ea. cbn [mbind res_bind Z.eqb negb net]. rewrite Hi2, C3, Hi, Z.eqb_refl. cbn [negb mbind res_bind Z.eqb].
    change (if decide (hpack_type (net (Hp h2 (set_fflags l s))) = HPKT_INDEXED_HDR_6_VALUE_INCR) then Ok (_, Hp h2 (set_fflags l s)) else _)
      with (final_token e (match x with Incremental => LWS_HPACK_IGNORE_ENTRY | _ => -1 end) (Hp h2 (set_fflags l s))).
    rewrite Ek. cbn [mbind res_bind]. assert ((k =? -1) || (k =? LWS_HPACK_IGNORE_ENTRY) = true) as -> by (destruct Hk as [-> | ->]; done).
    cbn [mbind res_bind]. unfold lws_hpack_handle_pseudo_rules.
    assert ((k =? LWS_HPACK_IGNORE_ENTRY) || (k =? -1) = true) as -> by (destruct Hk as [-> | ->]; done). cbn [mbind res_bind Z.eqb negb]. done.
  - split; [done|]. split; [by split|]. exists P. destruct (remember_if_kept _ _ _ _ Hr) as (M1 & M2 & M3 & M4).
    apply (stream_is_table _ _ _ m); try done. cbn [str]. destruct Hs. by split.
Qed.

(** ** A header whose name is in the tables *)

Definition named_type (x : indexing) : http2_hpack_type :=
  match x with
  | Incremental => HPKT_INDEXED_HDR_6_VALUE_INCR
  | Without => HPKT_INDEXED_HDR_4_VALUE
  | Never => HPKT_INDEXED_HDR_4_VALUE_NEVER
  end.

Definition named_bits (x : indexing) : Z := match x with Incremental => 6 | _ => 4 end.
Definition named_high (x : indexing) : Z := match x with Incremental => 64 | Without => 0 | Never => 16 end.

Lemma named_bytes x i v : field_bytes (FNamed x i v) = int_bytes (named_bits x) (named_high x) i ++ string_bytes v.
Proof. by destruct x. Qed.

(** The state before the length of the value. *)
Definition before_value (ty : http2_hpack_type) (i : Z) (w0 : hp) (h : h2_netconn) : Prop :=
  hpack h = HPKS_HLEN ∧ in_value h = true ∧ hdr_idx h = i ∧ hpack_type h = ty ∧ huff_pad (hst h) = 0
  ∧ zero_huff_padding (hst h) = false ∧ dyn h = dyn (net w0) ∧ pps h = pps (net w0) ∧ hpack_hdr_len h = 0.

Lemma named_masks_6 n : 0 <= n < 64 → Z.land (64 + n) 128 = 0 ∧ (Z.land (64 + n) 64 =? 0) = false ∧ Z.land (64 + n) 63 = n.
Proof.
  intros Hn. assert (is_byte n) as Hb by (unfold is_byte; lia). revert n Hb Hn.
  refine (forall_bytes_dec (λ n, 0 <= n < 64 → Z.land (64 + n) 128 = 0 ∧ (Z.land (64 + n) 64 =? 0) = false ∧ Z.land (64 + n) 63 = n) _). by_compute.
Qed.

Lemma named_masks_4 (b : bool) n :
  let c := (if b then 16 else 0) + n in
  0 <= n < 16 → Z.land c 128 = 0 ∧ Z.land c 64 = 0 ∧ (Z.land c 240 =? 16) || (Z.land c 240 =? 0) = true ∧ Z.land c 15 = n
                ∧ (Z.land c 16 =? 0) = negb b.
Proof.
  intros c Hn. assert (is_byte n) as Hb by (unfold is_byte; lia). subst c. revert n Hb Hn. destruct b.
  - refine (forall_bytes_dec (λ n, 0 <= n < 16 → Z.land (16 + n) 128 = 0 ∧ Z.land (16 + n) 64 = 0
      ∧ (Z.land (16 + n) 240 =? 16) || (Z.land (16 + n) 240 =? 0) = true ∧ Z.land (16 + n) 15 = n ∧ (Z.land (16 + n) 16 =? 0) = negb true) _). by_compute.
  - refine (forall_bytes_dec (λ n, 0 <= n < 16 → Z.land (0 + n) 128 = 0 ∧ Z.land (0 + n) 64 = 0
      ∧ (Z.land (0 + n) 240 =? 16) || (Z.land (0 + n) 240 =? 0) = true ∧ Z.land (0 + n) 15 = n ∧ (Z.land (0 + n) 16 =? 0) = negb false) _). by_compute.
Qed.

(** The first byte of the field. *)
Lemma hpks_type_named e x n w :
  0 < n < 2 ^ named_bits x →
  ∃ h, hpks_type e (named_high x + n) w = Ok (0, Hp h (set_no_state true (str w)))
    ∧ hpack_type h = named_type x ∧ dyn h = dyn (net w) ∧ pps h = pps (net w) ∧ hpack_hdr_len h = 0 ∧ huff_pad (hst h) = 0
    ∧ zero_huff_padding (hst h) = false ∧ ext_count h = 0
    ∧ if n <? 2 ^ named_bits x - 1 then hpack h = HPKS_HLEN ∧ in_value h = true ∧ hdr_idx h = n
      else hpack h = HPKS_IDX_EXT ∧ hpack_m h = 2 ^ named_bits x - 1 ∧ hpack_len h = 0.
Proof.
  intros Hn. unfold hpks_type. destruct x; cbn [named_high named_bits named_type] in *.
  - change (2 ^ 6) with 64 in *. destruct (named_masks_6 n ltac:(lia)) as (-> & -> & ->). cbn [Z.eqb negb].
    rewrite (proj2 (Z.eqb_neq (64 + n) 64)) by lia. destruct (Z.eqb_spec n 63) as [E|].
    + rewrite (proj2 (Z.ltb_ge _ _)) by lia. eexists. split; [done|]. by split_and!.
    + rewrite (proj2 (Z.ltb_lt n _)) by lia. cbn [on_net on_str net hdr_idx set_hdr_idx set_hpack set_in_value].
      rewrite (proj2 (Z.eqb_neq n 0)) by lia. eexists. split; [done|]. by split_and!.
  - change (2 ^ 4) with 16 in *. destruct (named_masks_4 false n ltac:(lia)) as (-> & -> & -> & -> & ->). cbn [Z.eqb negb].
    rewrite (proj2 (Z.eqb_neq (0 + n) 0)), (proj2 (Z.eqb_neq (0 + n) 16)) by lia. destruct (Z.eqb_spec n 15) as [E|].
    + rewrite (proj2 (Z.ltb_ge _ _)) by lia. eexists. split; [done|]. by split_and!.
    + rewrite (proj2 (Z.ltb_lt n _)) by lia. eexists. split; [done|]. by split_and!.
  - change (2 ^ 4) with 16 in *. destruct (named_masks_4 true n ltac:(lia)) as (-> & -> & -> & -> & ->). cbn [Z.eqb negb].
    rewrite (proj2 (Z.eqb_neq (16 + n) 0)), (proj2 (Z.eqb_neq (16 + n) 16)) by lia. destruct (Z.eqb_spec n 15) as [E|].
    + rewrite (proj2 (Z.ltb_ge _ _)) by lia. eexists. split; [done|]. by split_and!.
    + rewrite (proj2 (Z.ltb_lt n _)) by lia. eexists. split; [done|]. by split_and!.
Qed.

Lemma named_index e x i w more :
  hpack (net w) = HPKS_TYPE → 0 < i < 2 ^ 28 →
  ∃ h, interpret_all e (int_bytes (named_bits x) (named_high x) i ++ more) w = interpret_all e more (Hp h (set_no_state true (str w)))
    ∧ before_value (named_type x) i w h.
Proof.
  intros Hst Hi. unfold int_bytes. assert (0 < 2 ^ named_bits x <= 64) as Hb by (destruct x; cbn; lia).
  assert (15 <= 2 ^ named_bits x - 1) as Hb15 by (destruct x; cbn; lia).
  destruct (Z.ltb_spec i (2 ^ named_bits x - 1)) as [Hlt|Hge].
  - destruct (hpks_type_named e x i w ltac:(lia)) as (h & E & H1 & H2 & H3 & H4 & H5 & H6 & H7 & H8).
    rewrite (proj2 (Z.ltb_lt i _)) in H8 by done. exists h. split; [|by destruct H8 as (? & ? & ?); split_and!]. cbn [app interpret_all].
    unfold lws_hpack_interpret. rewrite Hst, E. done.
  - destruct (hpks_type_named e x (2 ^ named_bits x - 1) w ltac:(lia)) as (h & E & H1 & H2 & H3 & H4 & H5 & H6 & H7 & H8).
    rewrite Z.ltb_irrefl in H8. destruct H8 as (H8 & H9 & H10).
    assert (2 ^ ext_count h = 1) as Epow by by rewrite H7.
    destruct (ext_groups 4 (i - (2 ^ named_bits x - 1)) h) as (k & Ek); rewrite ?H7, ?H9, ?H10; try lia.
    cbn [app interpret_all]. unfold lws_hpack_interpret at 1. rewrite Hst, E. cbn [mbind res_bind Z.eqb negb].
    rewrite (idx_ext_run e _ (Hp h (set_no_state true (str w))) _ more H8 Ek). rewrite H9, H10, Epow. cbn [str].
    set (h1 := set_ext_count k _). assert (hpack_len h1 = i) as Hl by (cbn; lia).
    unfold idx_done. cbn [net]. change (hpack_type h1) with (hpack_type h). rewrite H1, Hl, (proj2 (Z.eqb_neq i 0)) by lia.
    eexists. split; [|shelve]. destruct x; cbn [named_type]; rewrite go_on_ok; done.
    Unshelve. by split_and!.
Qed.

Lemma view_fields h h0 : view h = view h0 →
  in_value h = in_value h0 ∧ hdr_idx h = hdr_idx h0 ∧ dyn h = dyn h0 ∧ pps h = pps h0 ∧ hpack_type h = hpack_type h0
  ∧ unknown_header h = unknown_header h0 ∧ first_hdr_char h = first_hdr_char h0 ∧ hpack_hdr_len h = hpack_hdr_len h0
  ∧ is_first_header_char h = is_first_header_char h0.
Proof. destruct h, h0. cbn. intros [=]. by split_and!. Qed.

(** The length of a string and then its bytes. *)
Lemma string_start e w s more :
  string_ok s → hpack (net w) = HPKS_HLEN → huff_pad (hst (net w)) = 0 → zero_huff_padding (hst (net w)) = false →
  ∃ h1, interpret_all e (string_bytes s ++ more) w = go_on e (raw s ++ more) (pre_data e (Hp h1 (str w)))
    ∧ view h1 = view (net w) ∧ huff h1 = coded s ∧ hst h1 = root ∧ hpack_len h1 = Z.of_nat (length (raw s)).
Proof.
  intros (_ & _ & _ & Hl & _) H1 H2 H3. unfold string_bytes. rewrite <- app_assoc. apply hlen_read; try done. lia.
Qed.

Lemma named_final e g x h2 s1 m i r :
  net_is e g h2 m → at_index m i = Some r → i < 2 ^ 28 → hpack_type h2 = named_type x → x ≠ Incremental → hdr_idx h2 = i →
  ∀ k, final_token e k (Hp h2 s1) = Ok (r_tok r, Hp h2 s1).
Proof.
  intros Hn Hr Hi Ht Hx Hh k. unfold final_token. cbn [net]. rewrite Ht, decide_False by by destruct x.
  assert (is_literal (named_type x) = false) as -> by by destruct x. rewrite Hh.
  destruct (from_index_ok e g (Hp h2 s1) m i r Hn Hr Hi) as (ar & -> & _). done.
Qed.

Lemma set_len_ignored h : hpack_hdr_len h = 0 → set_hpack_hdr_len 0 h = h.
Proof. destruct h. cbn. by intros ->. Qed.

(** The bytes of the value come next. *)
Record named_at (e : h2_env) (g : list goaway) (m : meaning) (x : indexing) (i : Z) (v : hstring) (h : h2_netconn) : Prop := {
  na_net : net_is e g h m;
  na_data : hpack h = HPKS_DATA;
  na_value : in_value h = true;
  na_idx : hdr_idx h = i;
  na_type : hpack_type h = named_type x;
  na_hlen : hpack_hdr_len h = 0;
  na_huff : huff h = coded v;
  na_hst : hst h = root;
  na_len : hpack_len h = Z.of_nat (length (raw v));
}.

Lemma named_read e g w m x i v more :
  hpack (net w) = HPKS_TYPE → net_is e g (net w) m → string_ok v → 0 < i < 2 ^ 28 →
  ∃ h2, named_at e g m x i v h2
    ∧ interpret_all e (field_bytes (FNamed x i v) ++ more) w
      = go_on e (raw v ++ more)
          ('(r, w) ← from_index e i (Hp h2 (set_no_state true (str w)));
           if (tok r =? LWS_HPACK_IGNORE_ENTRY) || (tok r =? -1) then Ok (0, on_net (set_hdr_idx LWS_HPACK_IGNORE_ENTRY) w)
           else '(n, w) ← lws_frag_start e (tok r) w; Ok (if negb (n =? 0) then 1 else 0, w)).
Proof.
  intros Hst Hn Hv Hi. rewrite named_bytes, <- app_assoc.
  destruct (named_index e x i w (string_bytes v ++ more) Hst Hi) as (h & -> & B1 & B2 & B3 & B4 & B5 & B6 & B7 & B8 & B9).
  destruct (string_start e (Hp h (set_no_state true (str w))) v more Hv B1 B5 B6) as (h1 & -> & Hvw & Hu & Hh & Hl). cbn [net str] in *.
  destruct (view_fields _ _ Hvw) as (V1 & V2 & V3 & V4 & V5 & V6 & V7 & V8 & _). exists (set_hpack HPKS_DATA h1). split.
  - split; cbn; try congruence. eapply net_is_view; [exact Hn|cbn; congruence..].
  - unfold pre_data, on_net. cbn [net str]. change (in_value (set_hpack HPKS_DATA h1)) with (in_value h1).
    change (hdr_idx (set_hpack HPKS_DATA h1)) with (hdr_idx h1). change (hpack_type (set_hpack HPKS_DATA h1)) with (hpack_type h1).
    rewrite V1, V2, V5, B2, B3, B4. rewrite (proj2 (Z.eqb_neq i 0)) by lia. cbn [negb orb].
    assert (is_literal (named_type x) = false) as -> by by destruct x. done.
Qed.

Lemma from_ignored e w : from_index e LWS_HPACK_IGNORE_ENTRY w = Ok (Ref LWS_HPACK_IGNORE_ENTRY None None false, w).
Proof. unfold from_index. by rewrite s32_small by (unfold LWS_HPACK_IGNORE_ENTRY, INT_MIN, INT_MAX; lia). Qed.

Lemma named_unknown e g s P m m' x i v nl h2 more :
  env_ok e → stream_is (hmax e) s P m → string_ok v → named_at e g m x i v h2 →
  remember_if x (Rfc LWS_HPACK_IGNORE_ENTRY [] 0 nl (Z.of_nat (length (chars v)))) m = Some m' →
  ∃ w', interpret_all e (raw v ++ more) (Hp (set_hdr_idx LWS_HPACK_IGNORE_ENTRY h2) s) = interpret_all e more w' ∧ rep e g w' m'.
Proof.
  intros He Hs Hv [N1 N2 N3 N4 N5 N6 N7 N8 N9] E. eapply (ignored_value e g); try done.
  - by eapply net_is_view; [exact N1|..].
  - intros h3 Hc3. destruct (net_core_fields _ _ Hc3) as (C1 & C2 & C3 & C4 & C5 & C6 & C7 & C8 & C9 & _). cbn in C3, C6, C9. unfold add_header. cbn [net].
    rewrite C6, N5. destruct x; cbn [named_type]; [|done..]. cbn [r_hlen]. rewrite C3, from_ignored.
    cbn [mbind res_bind tok ref_hdr_len]. rewrite set_len_ignored by congruence. done.
  - intros h3 l Ht3 Hi3. cbn in Ht3, Hi3. unfold final_token. cbn [net]. rewrite Ht3, N5. destruct x; cbn [named_type is_literal].
    + rewrite decide_True by done. exists LWS_HPACK_IGNORE_ENTRY. auto.
    + rewrite decide_False by done. rewrite Hi3, from_ignored. exists LWS_HPACK_IGNORE_ENTRY. auto.
    + rewrite decide_False by done. rewrite Hi3, from_ignored. exists LWS_HPACK_IGNORE_ENTRY. auto.
Qed.

Lemma index_not_ignored e g w m i r :
  net_is e g (net w) m → at_index m i = Some r → i < 2 ^ 28 → i ≠ LWS_HPACK_IGNORE_ENTRY.
Proof.
  intros Hn Er Hi ->. destruct (from_index_ok e g w m _ r Hn Er Hi) as (ar & Ef & _). by rewrite from_ignored in Ef.
Qed.

Lemma named_known e g s P m m1 m' x i v r t h2 s1 more :
  env_ok e → stream_is (hmax e) s P m → string_ok v → named_at e g m x i v h2 → at_index m i = Some r → 1 <= i < 2 ^ 28 →
  r_tok r = Z.of_nat t → plain_value t (chars v) = true → bool_decide (x = Incremental) && present t m = false →
  add (hmax e) false t (chars v) m = Some m1 →
  remember_if x (Rfc (r_tok r) (chars v) (r_hlen r) (r_nlen r) (Z.of_nat (length (chars v)))) m1 = Some m' →
  opened (hmax e) (ahs s1) P (Header (next_ix (ahs s)) t (sep t P)) → same_stream (set_no_state true s) s1 →
  hdr_token_idx s1 = Z.of_nat t → pos (ahs s1) = (pos (ahs s) + length (sep t P))%nat →
  ∃ w', interpret_all e (raw v ++ more) (Hp h2 s1) = interpret_all e more w' ∧ rep e g w' m'.
Proof.
  intros He Hs Hv [N1 N2 N3 N4 N5 N6 N7 N8 N9] Er Hi Et Epl Einc Ea E Ho1 (A1 & A2 & A3 & A4 & A5 & A6 & A7) Htk1 Hp1.
  change (ahs (set_no_state true s)) with (ahs s) in *. pose proof (si_pos _ _ _ _ Hs) as Hpos. pose proof (si_nfrag _ _ _ _ Hs) as Hnf.
  pose proof (add_inv _ _ _ _ _ _ Ea) as (Ht & Hps & Hpr & Hix & Hroom & Em1).
  eapply (known_value e g s P m m1 m' false x t (Nat.max 1 (m_frags m)) v _ h2 s1 more He N1 Hs Ea E); cbn [r_tok r_value r_hlen]; try done.
  - intros ->. by destruct (present t m).
  - split; try done.
    + split_and!; [done|done|lia|]. rewrite N4. apply (index_not_ignored e g (Hp h2 s1) m i r N1 Er). lia.
    + rewrite (separator_sep _ _ _ _ t Hs). unfold next_ix in Ho1. by rewrite Hnf in Ho1.
    + rewrite (separator_sep _ _ _ _ t Hs). lia.
    + rewrite A7. apply Hs.
    + rewrite Htk1. intros E37. assert (t = 37%nat) as E37' by lia. rewrite E37' in Epl. split; [exact Epl|]. rewrite A6. apply Hs.
      rewrite E37' in Hpr. by cbn in Hpr.
    + left. by rewrite A6.
    + left. done.
    + rewrite A2. apply Hs.
    + rewrite A3. apply Hs.
    + rewrite A4. apply Hs.
  - intros h3 s3 Hc3 Hk3. destruct (net_core_fields _ _ Hc3) as (C1 & C2 & C3 & C4 & C5 & C6 & C7 & C8 & C9 & _). unfold add_header. cbn [net].
    rewrite C6, N5. destruct x; cbn [named_type]; [|done..]. rewrite C3, N4.
    destruct (from_index_ok e g (Hp h3 s3) m i r) as (ar' & -> & _); [by eapply net_is_view; [exact N1|..]|done|lia|].
    cbn [mbind res_bind ref_hdr_len tok]. by rewrite Et.
  - intros h3 s3 Hk3 Ht3 Hx3. rewrite N5 in Ht3. destruct x.
    + unfold final_token. cbn [net]. rewrite Ht3. by rewrite decide_True.
    + rewrite <- Et. destruct (net_core_fields _ _ Hx3) as (_ & _ & C3 & C4 & C5 & _).
      apply (named_final e g Without h3 s3 m i); try done; [by eapply net_is_view; [exact N1|..]|lia|congruence].
    + rewrite <- Et. destruct (net_core_fields _ _ Hx3) as (_ & _ & C3 & C4 & C5 & _).
      apply (named_final e g Never h3 s3 m i); try done; [by eapply net_is_view; [exact N1|..]|lia|congruence].
Qed.

Lemma named_ok e g w m m' x i v more :
  env_ok e → rep e g w m → step e (FNamed x i v) m = Some m' →
  ∃ w', interpret_all e (field_bytes (FNamed x i v) ++ more) w = interpret_all e more w' ∧ rep e g w' m'.
Proof.
  intros He (Hst & Hn & P & Hs) E. cbn [step] in E. destruct (bool_decide_reflect (string_ok v)) as [Hv|]; [|done]. cbn [negb orb] in E.
  destruct (Z.leb_spec (2 ^ 28) i) as [|Hi]; [done|]. destruct (at_index m i) as [r|] eqn:Er; [|done]. cbn [mbind option_bind] in E.
  assert (1 <= i) as Hi1 by (unfold at_index in Er; destruct (Z.ltb_spec i 1); [done|lia]).
  destruct (named_read e g w m x i v more Hst Hn Hv ltac:(lia)) as (h2 & Hat & ->). pose proof (na_net _ _ _ _ _ _ _ Hat) as Hn2.
  destruct (from_index_ok e g (Hp h2 (set_no_state true (str w))) m i r Hn2 Er Hi) as (ar & -> & _ & Hhl & _ & Ht0).
  cbn [mbind res_bind tok]. destruct (Z.eqb_spec (r_tok r) LWS_HPACK_IGNORE_ENTRY) as [Ei|Hig]; cbn [orb].
  { rewrite go_on_ok. apply (named_unknown e g _ P m m' x i v (r_nlen r)); try done. by apply (stream_is_kept _ _ _ m). }
  rewrite (proj2 (Z.eqb_neq _ _)) by lia. set (t := Z.to_nat (r_tok r)) in *. assert (r_tok r = Z.of_nat t) as Et by lia.
  destruct (plain_value t (chars v)) eqn:Epl; [|done]. cbn [negb orb] in E.
  destruct (bool_decide (x = Incremental) && present t m) eqn:Einc; [done|].
  destruct (add (hmax e) false t (chars v) m) as [m1|] eqn:Ea; [|done]. cbn [mbind option_bind] in E.
  pose proof (add_inv _ _ _ _ _ _ Ea) as (Ht & Hps & Hpr & Hix & Hroom & Em1). rewrite length_app in Hroom.
  destruct (header_token_lt _ Ht) as (Hlt & _). pose proof (si_pos _ _ _ _ Hs) as Hpos. pose proof (si_nfrag _ _ _ _ Hs) as Hnf.
  rewrite Et. destruct (frag_start_ok e (Hp h2 (set_no_state true (str w))) P t) as (s1 & E1 & Ho1 & Hs1 & Htk1 & Hp1); cbn [str] in *;
    change (ahs (set_no_state true (str w))) with (ahs (str w)) in *.
  { apply Hs. } { apply Hs. } { unfold WSI_TOKEN_COUNT in *. lia. } { rewrite Hnf. lia. } { by apply (fresh_once _ _ _ _ _ Hs). } { lia. }
  cbn [net] in E1. rewrite E1. cbn [mbind res_bind Z.eqb negb]. rewrite go_on_ok.
  by apply (named_known e g (str w) P m m1 m' x i v r t).
Qed.
