(* ===== verification/HpackBlock.v ===== *)
(** * Header blocks

    That the decoder of Hpack.v reads the headers of a block whose name is in
    the block too, with the header name matcher of Lex.v; and the theorem
    about whole blocks, for which HpackOk.v has what blocks mean. *)

From stdpp Require Import base numbers list strings.
From Stdlib Require Import ZArith Lia Ascii.
From S2P Require Import Prelude Text HttpHead Lex HttpParse Huffman HpackTable Hpack HpackStore HpackOk HpackField.

(** ** Lemmas: a name becomes known *)

Lemma stored_ext max a a' P hi :
  stored max a P hi → data a' = data a → frags a' = frags a → frag_index a' = frag_index a → pos a' = pos a → stored max a' P hi.
Proof.
  intros [] E1 E2 E3 E4. split; rewrite ?E1, ?E2, ?E3, ?E4; try done.
  apply (chains_keeps a); [|by intros; rewrite E2|done]. split; [lia|]. by rewrite E1.
Qed.

(** The text a fragment of the HTTP/1 parser starts with. *)
Definition literal_sep (t : nat) (P : list header) : list Z := if (first_ix t P =? 0)%nat then [] else [32].

Lemma start_fragment_ok max t P a :
  closed max a P → (t < WSI_TOKEN_COUNT)%nat → (S (nfrag a) < WSI_TOKEN_COUNT)%nat → (pos a < max)%nat → current_token_limit a = max →
  ∃ a', start_fragment max t a = Ok (CGo, a') ∧ opened max a' P (Header (S (nfrag a)) t (literal_sep t P))
    ∧ pos a' = (pos a + length (literal_sep t P))%nat ∧ parser_state a' = parser_state a ∧ ups a' = ups a ∧ ues a' = ues a
    ∧ nfrag a' = S (nfrag a).
Proof.
  intros H Ht Hn Hp Hlim. pose proof (st_frags _ _ _ _ H) as Hfr. pose proof (st_data _ _ _ _ H) as Hd.
  pose proof (link_ok max a P t (S (nfrag a)) H Ht ltac:(lia) ltac:(lia)) as Hl.
  pose proof (stored_opened max a P t (S (nfrag a)) _ H Ht ltac:(lia) ltac:(lia)) as Ho.
  unfold start_fragment, excessive. cbn [nfrag set_nfrag]. rewrite (proj2 (Nat.eqb_neq _ _)) by lia.
  rewrite put_frag_ok by (cbn; lia). cbn [mbind res_bind]. change (frags (set_nfrag (S (nfrag a)) a)) with (frags a).
  change (pos (set_nfrag (S (nfrag a)) a)) with (pos a). set (a2 := set_frags _ _) in *. unfold literal_sep.
  assert (get_index a2 t = Ok (first_ix t P)) as -> by (apply (get_index_some t _ a2), (st_first _ _ _ _ H t Ht)).
  cbn [mbind res_bind]. change (nfrag a2) with (S (nfrag a)). destruct (Nat.eqb_spec (first_ix t P) 0) as [E0|E0].
  - rewrite Hl. cbn [mbind res_bind]. eexists. split; [done|]. split; [exact Ho|]. cbn. by split_and!; [lia|..].
  - destruct Hl as (f & E1 & E2 & E3). rewrite E1. cbn [mbind res_bind]. rewrite E2. cbn [mbind res_bind].
    change (Fragment (offset f) (flen f) (S (nfrag a))) with (set_next (S (nfrag a)) f). rewrite E3. cbn [mbind res_bind].
    pose proof (opened_append _ _ _ _ _ _ 32 Ho ltac:(done)) as Ho'. destruct Ho as (Ho & _ & Hof & Hol). set (a3 := open_frag _ _ _ _) in *.
    unfold issue_char, lws_pos_in_bounds. change (pos a3) with (pos a) in *. rewrite (proj2 (Nat.ltb_lt _ _)) by done. cbn [mbind res_bind Z.eqb negb].
    rewrite (get_frag_some _ _ _ Hof). cbn [mbind res_bind flen hd_text length]. change (current_token_limit a3) with (current_token_limit a).
    rewrite Hlim. assert ((0 <? max)%nat = true) as -> by (apply Nat.ltb_lt; lia). rewrite orb_true_r.
    rewrite put_data_ok by (change (data a3) with (data a); change (pos a3) with (pos a); lia). cbn [mbind res_bind Z.eqb negb].
    rewrite put_frag_ok by (pose proof (st_frags _ _ _ _ Ho) as Hlf; cbn in Hlf |- *; lia). cbn [mbind res_bind Z.ltb Z.compare].
    eexists. split; [done|]. split; [|cbn; by split_and!; [lia|..]]. unfold with_len in Ho'. cbn in Ho' |- *.
    by replace (S (pos a) - 1)%nat with (pos a - 0)%nat in Ho' by lia.
Qed.

(** The stream [s0] while a name is read: the parser's state and its place in
    the table of names. *)
Definition naming (st : parser_states) (p : option nat) (s0 : h2_stream) : h2_stream :=
  set_state st (set_ahs (set_lextable_pos p (ahs s0)) s0).

Lemma parse_one_go e c h s a' :
  parse_char (hx e) c (ahs s) = Ok (CGo, a') → (∀ t, parser_state a' ≠ WSI_TOKEN t) →
  parse_one e c (Hp h s) = Ok (PZero, Hp h (set_no_state false (set_ahs a' s))).
Proof.
  intros E Hst. unfold parse_one. cbn [str net lws_parse]. change (ah (con s)) with (ahs s). rewrite E. cbn [mbind res_bind ah].
  destruct (parser_state a') as [t| | | |]; [by destruct (Hst t)|done..].
Qed.

Lemma parse_one_started e c h s a' t i :
  parse_char (hx e) c (ahs s) = Ok (CGo, a') → parser_state a' = WSI_TOKEN t → parser_state (ahs s) ≠ WSI_TOKEN t →
  nfrag a' = S (nfrag (ahs s)) → (S (nfrag (ahs s)) < WSI_TOKEN_COUNT)%nat → length (fflags s) = WSI_TOKEN_COUNT → get_index (ahs s) t = Ok i →
  parse_one e c (Hp h s)
  = Ok (PZero, Hp h (set_fflags (<[S (nfrag (ahs s)) := 2]> (fflags s))
                       ((if (i =? 0)%nat then set_hdr_token_idx (Z.of_nat t) else id) (set_no_state false (set_ahs a' s))))).
Proof.
  intros E Hst Hst0 Hn Hlt Hfl Hi. unfold parse_one. cbn [str net lws_parse]. change (ah (con s)) with (ahs s). rewrite E. cbn [mbind res_bind ah].
  rewrite Hst, Hn, bool_decide_eq_false_2 by congruence. rewrite Nat.eqb_refl, (proj2 (Nat.eqb_neq _ _)) by lia. cbn [negb andb].
  rewrite store_ok by lia. cbn [mbind res_bind]. rewrite Hi. cbn [mbind res_bind]. by destruct (i =? 0)%nat.
Qed.

Lemma name_goes_on e c h s0 p l :
  env_ok e → at_names p l → (65 <=? c) && (c <=? 90) = false →
  match lex_char p c with
  | Ok LexUnknown =>
      deriv c l = [] ∧ parse_one e c (Hp h (naming WSI_TOKEN_NAME_PART (Some p) s0)) = Ok (PZero, Hp h (naming WSI_TOKEN_SKIPPING None s0))
  | Ok (LexAt q) =>
      at_names q (deriv c l)
      ∧ parse_one e c (Hp h (naming WSI_TOKEN_NAME_PART (Some p) s0)) = Ok (PZero, Hp h (naming WSI_TOKEN_NAME_PART (Some q) s0))
  | Ok (LexKnown n) => deriv c l = [(n, [])]
  | Fault _ => False
  end.
Proof.
  intros He Hat Hc. pose proof (lex_char_names p l c Hat) as Hl. set (s := naming _ _ _).
  assert (parse_char (hx e) c (ahs s) = name_char (hx e) c (ahs s)) as Ep by done. unfold name_char, tolower in Ep. rewrite Hc in Ep.
  change (lextable_pos (ahs s)) with (Some p) in Ep. cbn [mbind res_bind] in Ep. unfold lex_char in *.
  destruct (lex_step lex_fuel p c) as [[q|]|]; cbn [mbind res_bind] in *; [| |done].
  - destruct (lextable_at q) as [b|]; cbn [mbind res_bind] in *; [|done]. destruct (b <? FAIL_CHAR); [by destruct (lextable_at (S q))|].
    split; [done|]. by rewrite (parse_one_go _ _ _ _ _ Ep).
  - split; [done|]. rewrite (eo_role _ He) in Ep. by rewrite (parse_one_go _ _ _ _ _ Ep).
Qed.

Lemma name_known e c h s0 P p t m :
  env_ok e → (65 <=? c) && (c <=? 90) = false → lex_char p c = Ok (LexKnown (Z.of_nat t)) → header_token t = true →
  stream_is (hmax e) s0 P m → (S (m_frags m) < WSI_TOKEN_COUNT)%nat → (m_used m < hmax e)%nat →
  ∃ s1, parse_one e c (Hp h (naming WSI_TOKEN_NAME_PART (Some p) s0)) = Ok (PZero, Hp h s1)
    ∧ opened (hmax e) (ahs s1) P (Header (S (m_frags m)) t (separator true t m))
    ∧ pos (ahs s1) = (m_used m + length (separator true t m))%nat
    ∧ parser_state (ahs s1) = WSI_TOKEN t ∧ no_state s1 = false ∧ ups (ahs s1) = URIPS_IDLE ∧ ues (ahs s1) = URIES_IDLE
    ∧ seen_nonpseudoheader s1 = m_regular m ∧ forbidden s1 = 0%nat ∧ length (fflags s1) = WSI_TOKEN_COUNT
    ∧ hdr_token_idx s1 = if present t m then hdr_token_idx s0 else Z.of_nat t.
Proof.
  intros He Hc Hk Ht Hs Hn Hroom. destruct (header_token_lt _ Ht) as (Hlt & Hm & Hch & Hsw). set (s := naming _ _ _).
  pose proof (si_closed _ _ _ _ Hs) as Hcl. pose proof (si_nfrag _ _ _ _ Hs) as Hnf. pose proof (si_pos _ _ _ _ Hs) as Hpos.
  pose proof (st_first _ _ _ _ Hcl t ltac:(unfold WSI_TOKEN_COUNT; lia)) as Hfirst. pose proof (first_ix_present _ _ _ _ t Hs) as Hf.
  assert (literal_sep t P = separator true t m) as Esep.
  { unfold literal_sep, separator. destruct (Nat.eqb_spec (first_ix t P) 0) as [E0|E0], (present t m); try done.
    - by apply Hf in E0.
    - by destruct E0; apply Hf. }
  assert (∃ a', parse_char (hx e) c (ahs s) = Ok (CGo, a') ∧ opened (hmax e) a' P (Header (S (m_frags m)) t (separator true t m))
            ∧ pos a' = (m_used m + length (separator true t m))%nat ∧ parser_state a' = WSI_TOKEN t ∧ ups a' = URIPS_IDLE
            ∧ ues a' = ues (ahs s0) ∧ nfrag a' = S (m_frags m)) as (a' & Ep & Ho & Hp' & Hst & Hups & Hues & Hn').
  { assert (parse_char (hx e) c (ahs s) = name_char (hx e) c (ahs s)) as -> by done. unfold name_char, tolower. rewrite Hc.
    change (lextable_pos (ahs s)) with (Some p). cbn [mbind res_bind]. unfold lex_char in Hk.
    destruct (lex_step lex_fuel p c) as [[q|]|]; cbn [mbind res_bind] in *; [|done|done].
    destruct (lextable_at q) as [b|]; cbn [mbind res_bind] in *; [|done]. destruct (b <? FAIL_CHAR); [|done].
    destruct (lextable_at (S q)) as [b1|]; cbn [mbind res_bind] in *; [|done]. injection Hk as ->. rewrite Nat2Z.id.
    unfold known_name. rewrite Hm. cbn [mbind res_bind]. rewrite (proj2 (Nat.eqb_neq t WSI_TOKEN_SWORIGIN)), (eo_tokens _ He) by done. cbn [mbind res_bind].
    rewrite (proj2 (Nat.eqb_neq t WSI_TOKEN_CHALLENGE)) by done. set (a1 := set_current_token_limit _ _).
    destruct (start_fragment_ok (hmax e) t P a1) as (a' & Ea & Ho & Hp' & Hst & Hups & Hues & Hn').
    { by apply (stored_ext _ (ahs s0)). } { unfold WSI_TOKEN_COUNT. lia. } { change (nfrag a1) with (nfrag (ahs s0)). lia. }
    { change (pos a1) with (pos (ahs s0)). lia. } { done. }
    change (nfrag a1) with (nfrag (ahs s0)) in *. change (pos a1) with (pos (ahs s0)) in *. rewrite Esep, Hnf, Hpos in *. exists a'. by split_and!. }
  rewrite (parse_one_started _ _ _ _ a' t (first_ix t P) Ep Hst); [| |change (nfrag (ahs s)) with (nfrag (ahs s0)); lia..| |].
  2:{ done. } 2:{ apply Hs. } 2:{ by apply (get_index_some t _ (ahs s)). }
  eexists. split; [done|]. pose proof (si_flags _ _ _ _ Hs) as Hfl. change (fflags s) with (fflags s0).
  destruct (Nat.eqb_spec (first_ix t P) 0) as [E0|E0].
  - rewrite (proj1 Hf E0) in *. cbn. rewrite length_insert. split_and!; try done; [by rewrite Hues; apply Hs|apply Hs|apply Hs].
  - destruct (present t m) eqn:Epr; [|by destruct E0; apply Hf]. cbn. rewrite length_insert.
    split_and!; try done; [by rewrite Hues; apply Hs|apply Hs|apply Hs].
Qed.

(** ** Lemmas: the characters of a name *)

(** The names that go on from [d]. *)
Definition possible (d : list Z) : names := foldl (λ l c, deriv c l) all_names d.

Lemma possible_snoc d c : possible (d ++ [c]) = deriv c (possible d).
Proof. unfold possible. by rewrite foldl_app. Qed.

Lemma elem_of_possible n d w : (n, w) ∈ possible d ↔ (n, d ++ w) ∈ all_names.
Proof.
  revert w. induction d as [|c d IH] using rev_ind; intros w; [done|]. by rewrite possible_snoc, elem_of_deriv, IH, <- app_assoc.
Qed.

Lemma deriv_nil c : deriv c [] = [].
Proof. done. Qed.

(** What reading a name changes on the network connection. *)
Definition core_name (h : h2_netconn) : h2_netconn :=
  set_first_hdr_char 0 (set_is_first_header_char false (set_hpack_hdr_len 0 (core h))).

Lemma core_name_fields h h0 : core_name h = core_name h0 →
  hpack h = hpack h0 ∧ in_value h = in_value h0 ∧ hdr_idx h = hdr_idx h0 ∧ dyn h = dyn h0 ∧ pps h = pps h0
  ∧ hpack_type h = hpack_type h0 ∧ unknown_header h = unknown_header h0 ∧ huff h = huff h0.
Proof. destruct h, h0. cbn. intros [=]. by split_and!. Qed.

(** The name [d] has been read. *)
Record name_net (h0 : h2_netconn) (d : list Z) (h : h2_netconn) : Prop := {
  nn_core : core_name h = core_name h0;
  nn_len : hpack_hdr_len h = Z.of_nat (length d);
  nn_first : is_first_header_char h = match d with [] => true | _ => false end;
  nn_char : d ≠ [] → head d = Some (first_hdr_char h);
}.

(** The name was that of the header [t], which has been opened. *)
Record opened_as (e : h2_env) (s0 : h2_stream) (P : list header) (m : meaning) (t : nat) (s1 : h2_stream) : Prop := {
  oa_opened : opened (hmax e) (ahs s1) P (Header (S (m_frags m)) t (separator true t m));
  oa_pos : pos (ahs s1) = (m_used m + length (separator true t m))%nat;
  oa_state : parser_state (ahs s1) = WSI_TOKEN t;
  oa_no_state : no_state s1 = false;
  oa_ups : ups (ahs s1) = URIPS_IDLE;
  oa_ues : ues (ahs s1) = URIES_IDLE;
  oa_seen : seen_nonpseudoheader s1 = m_regular m;
  oa_forbidden : forbidden s1 = 0%nat;
  oa_flags : length (fflags s1) = WSI_TOKEN_COUNT;
  oa_token : hdr_token_idx s1 = if present t m then hdr_token_idx s0 else Z.of_nat t;
}.

Lemma name_opens e c h s0 P p t m :
  env_ok e → (65 <=? c) && (c <=? 90) = false → lex_char p c = Ok (LexKnown (Z.of_nat t)) → header_token t = true →
  stream_is (hmax e) s0 P m → (S (m_frags m) < WSI_TOKEN_COUNT)%nat → (m_used m < hmax e)%nat →
  ∃ s1, parse_one e c (Hp h (naming WSI_TOKEN_NAME_PART (Some p) s0)) = Ok (PZero, Hp h s1) ∧ opened_as e s0 P m t s1.
Proof.
  intros He Hc Hk Ht Hs Hn Hroom. destruct (name_known e c h s0 P p t m He Hc Hk Ht Hs Hn Hroom) as (s1 & E & H). exists s1.
  split; [done|]. destruct H as (? & ? & ? & ? & ? & ? & ? & ? & ? & ?). by split.
Qed.

(** What the parser makes of a name up to [d]: it goes on, there is no such
    name, or it is a header. *)
Definition name_stream (e : h2_env) (s0 : h2_stream) (P : list header) (m : meaning) (d : list Z) (s : h2_stream) : Prop :=
  (∃ p, s = naming WSI_TOKEN_NAME_PART (Some p) s0 ∧ at_names p (possible d))
  ∨ (s = naming WSI_TOKEN_SKIPPING None s0 ∧ possible d = [])
  ∨ (∃ t, (Z.of_nat t, d) ∈ all_names ∧ opened_as e s0 P m t s).

(** The parser reads one more character, as long as no name is complete that
    cannot be a header. *)
Lemma name_parse e h s0 P m d c s :
  env_ok e → stream_is (hmax e) s0 P m → (∀ t, (Z.of_nat t, d ++ [c]) ∈ all_names → header_token t = true) →
  ((∃ n, (n, d ++ [c]) ∈ all_names) → (S (m_frags m) < WSI_TOKEN_COUNT)%nat ∧ (m_used m < hmax e)%nat) →
  (65 <=? c) && (c <=? 90) = false → c ≠ 13 → (∀ n, (n, d) ∉ all_names) → name_stream e s0 P m d s →
  ∃ s', parse_one e c (Hp h s) = Ok (PZero, Hp h s') ∧ name_stream e s0 P m (d ++ [c]) s'.
Proof.
  intros He Hs Ht Hroom Hc H13 Hd [(p & -> & Hat)|[[-> Hp]|(t & Hin & _)]]; [| |by destruct (Hd (Z.of_nat t))].
  - pose proof (name_goes_on e c h s0 p _ He Hat Hc) as Hg. destruct (lex_char p c) as [[|q|n]|] eqn:El; [| | |done].
    + destruct Hg as [Hn ->]. eexists. split; [done|]. right. left. by rewrite possible_snoc.
    + destruct Hg as [Hn ->]. eexists. split; [done|]. left. exists q. by rewrite possible_snoc.
    + assert ((n, d ++ [c]) ∈ all_names) as Hin.
      { rewrite <- (app_nil_r (d ++ [c])). apply elem_of_possible. rewrite possible_snoc, Hg. left. }
      pose proof (proj1 (Forall_forall _ _) all_names_tokens _ Hin) as Hn. cbn in Hn. assert (n = Z.of_nat (Z.to_nat n)) as En by lia. rewrite En in *.
      destruct Hroom as [Hr1 Hr2]; [by eexists|].
      destruct (name_opens e c h s0 P p (Z.to_nat n) m He Hc El (Ht _ Hin) Hs Hr1 Hr2) as (s1 & E & Ho). exists s1. split; [done|].
      right. right. by exists (Z.to_nat n).
  - exists (naming WSI_TOKEN_SKIPPING None s0). split; [|right; left; by rewrite possible_snoc, Hp].
    rewrite (parse_one_go _ _ _ _ (ahs (naming WSI_TOKEN_SKIPPING None s0))); [done| |done].
    unfold parse_char. change (parser_state (ahs (naming WSI_TOKEN_SKIPPING None s0))) with WSI_TOKEN_SKIPPING. cbv iota.
    by rewrite (proj2 (Z.eqb_neq c 13)).
Qed.

(** Names of which no proper part is a name, and that may be names of headers
    there is room for. *)
Record name_fits (e : h2_env) (m : meaning) (nm : list Z) : Prop := {
  nf_lower : lower nm = true;
  nf_prefix : ∀ n d r, nm = d ++ r → r ≠ [] → (n, d) ∉ all_names;
  nf_header : ∀ n, (n, nm) ∈ all_names → header_token (Z.to_nat n) = true ∧ (S (m_frags m) < WSI_TOKEN_COUNT)%nat ∧ (m_used m < hmax e)%nat;
}.

Lemma lower_char d c r : lower (d ++ c :: r) = true → (65 <=? c) && (c <=? 90) = false ∧ c ≠ 13.
Proof.
  unfold lower. rewrite forallb_app. intros [_ H]%andb_true_iff. cbn [forallb] in H. apply andb_true_iff in H as [H _].
  apply andb_true_iff in H as [H1 H2]. apply negb_true_iff in H1, H2. apply Z.eqb_neq in H2. done.
Qed.

Definition name_state (h0 : h2_netconn) : Prop := hpack h0 = HPKS_DATA ∧ in_value h0 = false ∧ unknown_header h0 = false.

Lemma name_step e h0 s0 P m nm d c r w :
  env_ok e → stream_is (hmax e) s0 P m → name_fits e m nm → name_state h0 → (Z.of_nat (length nm) < 2 ^ 16) → nm = d ++ c :: r →
  name_net h0 d (net w) → name_stream e s0 P m d (str w) →
  ∃ w', data_char e c w = Ok (None, w') ∧ (name_net h0 (d ++ [c]) (net w') ∧ name_stream e s0 P m (d ++ [c]) (str w'))
    ∧ hpack_len (net w') = hpack_len (net w) ∧ hst (net w') = hst (net w) ∧ huff (net w') = huff (net w).
Proof.
  intros He Hs [Hlow Hpre Hhdr] (Hst & Hin & Hunk) Hlen Enm [Hc Hl Hf Hch] Hstr. destruct (core_name_fields _ _ Hc) as (C1 & C2 & C3 & C4 & C5 & C6 & C7 & _).
  rewrite Enm in Hlow. destruct (lower_char _ _ _ Hlow) as [Hup H13]. assert (length nm = length d + S (length r))%nat as Hln by (rewrite Enm, length_app; done).
  unfold data_char. rewrite C2, Hin. unfold name_char1.
  set (h1 := net (on_net _ (on_net _ w))). assert (on_net (λ h, if is_first_header_char h then set_first_hdr_char c (set_is_first_header_char false h) else h)
    (on_net (λ h, set_hpack_hdr_len (u32 (hpack_hdr_len h + 1)) h) w) = Hp h1 (str w)) as -> by done. rewrite Hup.
  assert (unknown_header h1 = unknown_header (net w)) as Eu by (unfold h1, on_net; cbn; by destruct (is_first_header_char (net w))).
  cbn [net]. rewrite Eu, C7, Hunk.
  assert (d ++ [c] = nm → ∀ t, (Z.of_nat t, d ++ [c]) ∈ all_names → header_token t = true ∧ (S (m_frags m) < WSI_TOKEN_COUNT)%nat ∧ (m_used m < hmax e)%nat) as Hfull.
  { intros Eq t Hin'. rewrite Eq in Hin'. specialize (Hhdr _ Hin'). by rewrite Nat2Z.id in Hhdr. }
  assert (r ≠ [] → ∀ n, (n, d ++ [c]) ∉ all_names) as Hpart.
  { intros Hr n. apply (Hpre n _ r); [|done]. by rewrite <- app_assoc. }
  destruct (name_parse e h1 s0 P m d c (str w)) as (s' & E & Hs'); try done.
  { intros t Ht. destruct r as [|c' r]; [|by destruct (Hpart ltac:(done) (Z.of_nat t))]. by apply Hfull. }
  { intros (n & Hn). destruct r as [|c' r]; [|by destruct (Hpart ltac:(done) n)].
    pose proof (proj1 (Forall_forall _ _) all_names_tokens _ Hn) as Hb. cbn in Hb. replace n with (Z.of_nat (Z.to_nat n)) in Hn by lia. by apply (Hfull (eq_sym Enm) _ Hn). }
  { intros n. by apply (Hpre n d (c :: r)). }
  rewrite E. cbn [mbind res_bind]. rewrite decide_True by done. eexists. split; [done|]. cbn [net str].
  assert (hpack_hdr_len h1 = Z.of_nat (length (d ++ [c]))) as El1.
  { assert (hpack_hdr_len h1 = u32 (hpack_hdr_len (net w) + 1)) as -> by (unfold h1, on_net; cbn; by destruct (is_first_header_char (net w))).
    rewrite Hl, u32_small, length_app by (cbn; lia). cbn. lia. }
  split; [split; [|done]|unfold h1, on_net; cbn; by destruct (is_first_header_char (net w))]. split; [|done|..].
  - rewrite <- Hc. unfold h1, on_net. cbn. by destruct (is_first_header_char (net w)).
  - unfold h1, on_net. cbn. rewrite Hf. destruct d; [done|]. cbn. by rewrite Hf.
  - intros _. unfold h1, on_net. cbn. rewrite Hf. destruct d as [|c0 d]; [done|]. cbn. rewrite <- (Hch ltac:(done)). done.
Qed.

Lemma name_read e h0 s0 P m w name :
  env_ok e → stream_is (hmax e) s0 P m → name_fits e m (chars name) → name_state h0 → (Z.of_nat (length (chars name)) < 2 ^ 16) →
  string_ok name → name_net h0 [] (net w) → name_stream e s0 P m [] (str w) →
  huff (net w) = coded name → hst (net w) = root → hpack_len (net w) = Z.of_nat (length (raw name)) →
  ∃ w', name_net h0 (chars name) (net w') ∧ name_stream e s0 P m (chars name) (str w') ∧ hpack_len (net w') = 1
    ∧ (huff (net w') && bad_padding (hst (net w')) = false)
    ∧ ∀ more w'', data_end e w' = Ok (0, w'') → interpret_all e (raw name ++ more) w = interpret_all e more w''.
Proof.
  intros He Hs Hfit Hst Hlen Hok Hnn Hns Hu Hh Hl.
  destruct (string_read e (λ d w, name_net h0 d (net w) ∧ name_stream e s0 P m d (str w)) (chars name)) with (s := name) (w := w)
    as (w' & [HI1 HI2] & Hl' & Hpad & Hmore); try done.
  - intros d w1 w2 [[A1 A2 A3 A4] A5] Es Ec. rewrite Es. split; [|done]. destruct (net_core_fields _ _ Ec) as (_ & _ & _ & _ & _ & _ & _ & D8 & D9 & _ & D11).
    split; [|congruence|congruence|intros Hd; rewrite D8; by apply A4]. unfold core_name. rewrite Ec. exact A1.
  - intros d w1 [[A1 _ _ _] _]. destruct (core_name_fields _ _ A1) as (-> & _). apply Hst.
  - intros d c r w1 Ecs [A1 A2]. by apply (name_step e h0 s0 P m (chars name) d c r w1).
  - exists w'. by split_and!.
Qed.

(** The name is complete; the length of the value comes next. *)
Record after_name (h0 : h2_netconn) (nm : list Z) (unknown : bool) (h : h2_netconn) : Prop := {
  an_hlen : hpack h = HPKS_HLEN;
  an_value : in_value h = true;
  an_idx : hdr_idx h = LWS_HPACK_IGNORE_ENTRY;
  an_type : hpack_type h = hpack_type h0;
  an_unknown : unknown_header h = unknown;
  an_pad : huff_pad (hst h) = 0 ∧ zero_huff_padding (hst h) = false;
  an_table : dyn h = dyn h0 ∧ pps h = pps h0;
  an_len : hpack_hdr_len h = Z.of_nat (length nm);
  an_char : nm ≠ [] → head nm = Some (first_hdr_char h);
}.

Lemma data_end_name e h0 nm w w1 :
  name_state h0 → is_literal (hpack_type h0) = true → name_net h0 nm (net w) → hpack_len (net w) = 1 →
  huff (net w) && bad_padding (hst (net w)) = false →
  name_done e (on_net (set_hpack_len 0) w) = Ok w1 →
  data_end e w = Ok (0, on_net (λ h, set_ext_count 0 (set_hst (Huff (hpack_pos (hst h)) 0 false) (set_hpack HPKS_HLEN (set_in_value true h)))) w1).
Proof.
  intros (Hst & Hin & Hunk) Hlit [Hc _ _ _] Hl Hpad E. destruct (core_name_fields _ _ Hc) as (C1 & C2 & C3 & C4 & C5 & C6 & C7 & _).
  unfold data_end. unfold on_net at 1 2 3. cbn [net hpack_len set_hpack_len]. rewrite Hl. change (u32 (1 - 1)) with 0. cbn [Z.eqb negb].
  unfold on_net in E. unfold on_net. cbn [net str huff hst in_value set_hpack_len hpack_type] in *. rewrite Hl, Hpad, C2, Hin, C6, Hlit.
  change (u32 (1 - 1)) with 0. rewrite E. done.
Qed.

Lemma after_name_net h0 nm unknown h :
  name_net h0 nm h → unknown_header h0 = false →
  after_name h0 nm unknown
    (set_ext_count 0 (set_hst (Huff (hpack_pos (hst h)) 0 false) (set_hpack HPKS_HLEN (set_in_value true
       ((if unknown then set_unknown_header true else id) (set_hdr_idx LWS_HPACK_IGNORE_ENTRY (set_hpack_len 0 h))))))).
Proof.
  intros [Hc Hl Hf Hch] Hu. destruct (core_name_fields _ _ Hc) as (C1 & C2 & C3 & C4 & C5 & C6 & C7 & _).
  destruct unknown; split; cbn; try done; congruence.
Qed.

Lemma state_is_naming st p s0 q : state_is q (naming st p s0) = bool_decide (st = q).
Proof. reflexivity. Qed.

Lemma state_is_opened e s0 P m t s1 q : opened_as e s0 P m t s1 → (∀ t, q ≠ WSI_TOKEN t) → state_is q s1 = false.
Proof.
  intros H Hq. unfold state_is. rewrite (oa_no_state _ _ _ _ _ _ H), (oa_state _ _ _ _ _ _ H). cbn.
  apply bool_decide_eq_false. intros E. by destruct (Hq t).
Qed.

Lemma name_end_known e h0 s0 P m t nm w :
  env_ok e → stream_is (hmax e) s0 P m → name_state h0 → is_literal (hpack_type h0) = true → name_net h0 nm (net w) →
  name_stream e s0 P m nm (str w) → hpack_len (net w) = 1 → huff (net w) && bad_padding (hst (net w)) = false →
  (Z.of_nat t, nm) ∈ all_names ∨ (Z.of_nat t, nm ++ [58]) ∈ all_names →
  header_token t = true → (S (m_frags m) < WSI_TOKEN_COUNT)%nat → (m_used m < hmax e)%nat →
  ∃ h1 s1, data_end e w = Ok (0, Hp h1 s1) ∧ opened_as e s0 P m t s1 ∧ after_name h0 nm false h1.
Proof.
  intros He Hs Hst Hlit Hnn Hns Hl Hpad Hor Ht Hn Hroom.
  assert (∃ s1, name_done e (on_net (set_hpack_len 0) w) = Ok (Hp (set_hdr_idx LWS_HPACK_IGNORE_ENTRY (set_hpack_len 0 (net w))) s1)
            ∧ opened_as e s0 P m t s1) as (s1 & Ed & Ho).
  { unfold name_done, on_net. cbn [net str]. destruct Hor as [Hin|Hin].
    - assert (opened_as e s0 P m t (str w)) as Ho.
      { destruct Hns as [(p & _ & Hat)|[[_ Hp]|(t' & Hin' & Ho)]].
        - assert ((Z.of_nat t, []) ∈ possible nm) as Hin0 by by apply elem_of_possible; rewrite app_nil_r. by destruct (at_names_words _ _ _ _ Hat Hin0).
        - assert ((Z.of_nat t, []) ∈ possible nm) as Hin0 by by apply elem_of_possible; rewrite app_nil_r. rewrite Hp in Hin0. by apply elem_of_nil in Hin0.
        - destruct (names_prefix_free _ _ _ _ Hin Hin') as [Et _]; [done|]. apply Nat2Z.inj in Et. by subst t'. }
      rewrite !(state_is_opened _ _ _ _ _ _ _ Ho) by done. cbn [mbind res_bind str]. rewrite !(state_is_opened _ _ _ _ _ _ _ Ho) by done. by eexists.
    - assert ((Z.of_nat t, [58]) ∈ possible nm) as Hin0 by by apply elem_of_possible.
      destruct Hns as [(p & Es & Hat)|[[_ Hp]|(t' & Hin' & _)]].
      + rewrite Es, state_is_naming. cbn [bool_decide decide]. rewrite bool_decide_eq_true_2 by done.
        pose proof (lex_char_names p _ 58 Hat) as Hlc. assert ((Z.of_nat t, []) ∈ deriv 58 (possible nm)) as Hd by by apply elem_of_deriv.
        destruct (lex_char p 58) as [[|q|n]|] eqn:El; [by rewrite Hlc in Hd; apply elem_of_nil in Hd|by destruct (at_names_words _ _ _ _ Hlc Hd)| |done].
        rewrite Hlc in Hd. apply list_elem_of_singleton in Hd. injection Hd as <-.
        destruct (name_opens e 58 (set_hdr_idx LWS_HPACK_IGNORE_ENTRY (set_hpack_len 0 (net w))) s0 P p t m He eq_refl El Ht Hs Hn Hroom) as (s1 & E & Ho).
        rewrite E. cbn [mbind res_bind str]. rewrite !(state_is_opened _ _ _ _ _ _ _ Ho) by done. by eexists.
      + rewrite Hp in Hin0. by apply elem_of_nil in Hin0.
      + destruct (names_prefix_free _ _ _ _ Hin' Hin) as [_ Ew]; [by eexists|]. apply (f_equal length) in Ew. rewrite length_app in Ew. cbn in Ew. lia. }
  rewrite (data_end_name e h0 nm w _ Hst Hlit Hnn Hl Hpad Ed). eexists _, s1. split; [done|]. split; [done|].
  by apply (after_name_net h0 nm false (net w) Hnn), Hst.
Qed.

Lemma name_end_unknown e h0 s0 P m nm w :
  env_ok e → stream_is (hmax e) s0 P m → name_state h0 → is_literal (hpack_type h0) = true → name_net h0 nm (net w) →
  name_stream e s0 P m nm (str w) → hpack_len (net w) = 1 → huff (net w) && bad_padding (hst (net w)) = false →
  (∀ n, (n, nm) ∉ all_names) → (∀ n, (n, nm ++ [58]) ∉ all_names) →
  ∃ h1 st p, data_end e w = Ok (0, Hp h1 (set_seen true (set_no_state true (naming st p s0)))) ∧ after_name h0 nm true h1.
Proof.
  intros He Hs Hst Hlit Hnn Hns Hl Hpad Hno Hno'.
  assert (∃ st p, name_done e (on_net (set_hpack_len 0) w)
            = Ok (Hp (set_unknown_header true (set_hdr_idx LWS_HPACK_IGNORE_ENTRY (set_hpack_len 0 (net w)))) (set_seen true (set_no_state true (naming st p s0)))))
    as (st & p & Ed).
  { unfold name_done, on_net. cbn [net str]. set (h1 := set_hdr_idx _ _).
    destruct Hns as [(p & Es & Hat)|[[Es _]|(t & Hin & _)]]; [| |by destruct (Hno (Z.of_nat t))]; rewrite Es, !state_is_naming.
    - rewrite bool_decide_eq_true_2 by done. pose proof (name_goes_on e 58 h1 s0 p _ He Hat eq_refl) as Hg.
      destruct (lex_char p 58) as [[|q|n]|] eqn:El; [| | |done].
      + destruct Hg as [_ ->]. cbn [mbind res_bind str]. rewrite !state_is_naming. by eexists _, _.
      + destruct Hg as [_ ->]. cbn [mbind res_bind str]. rewrite !state_is_naming. by eexists _, _.
      + destruct (Hno' n). apply elem_of_possible, elem_of_deriv. rewrite Hg. left.
    - cbn [mbind res_bind str]. rewrite bool_decide_eq_false_2 by done. cbn [mbind res_bind str]. rewrite !state_is_naming. by eexists _, _. }
  rewrite (data_end_name e h0 nm w _ Hst Hlit Hnn Hl Hpad Ed). eexists _, st, p. split; [done|].
  by apply (after_name_net h0 nm true (net w) Hnn), Hst.
Qed.

(** ** A header whose name is in the block *)

Definition literal_type (x : indexing) : http2_hpack_type :=
  match x with
  | Incremental => HPKT_LITERAL_HDR_VALUE_INCR
  | Without => HPKT_LITERAL_HDR_VALUE
  | Never => HPKT_LITERAL_HDR_VALUE_NEVER
  end.

Lemma literal_type_literal x : is_literal (literal_type x) = true.
Proof. by destruct x. Qed.

Lemma literal_bytes x name v : field_bytes (FLiteral x name v) = named_high x :: string_bytes name ++ string_bytes v.
Proof. by destruct x. Qed.

Lemma chars_not_nil s : string_ok s → chars s ≠ [].
Proof.
  intros (Hne & _ & _ & _ & H) E. destruct (coded s); [|congruence]. rewrite E in H. cbn [huff_encode mbind list_bind] in H.
  destruct H as [_ H]. destruct (raw s) as [|c bytes]; [done|]. cbn [mbind list_bind] in H. rewrite length_app in H.
  assert (length (byte_bits c) = 8)%nat as Hb by reflexivity. cbn in H. lia.
Qed.

(** The name is what the parser reads. *)
Lemma literal_start e g w m x name more :
  hpack (net w) = HPKS_TYPE → net_is e g (net w) m → string_ok name →
  ∃ h0, name_state h0 ∧ net_is e g h0 m ∧ hpack_type h0 = literal_type x ∧ name_net h0 [] h0
    ∧ huff h0 = coded name ∧ hst h0 = root ∧ hpack_len h0 = Z.of_nat (length (raw name))
    ∧ interpret_all e (named_high x :: string_bytes name ++ more) w
      = interpret_all e (raw name ++ more) (Hp h0 (naming WSI_TOKEN_NAME_PART (Some 0%nat) (set_no_state true (str w)))).
Proof.
  intros Hst Hn Hok.
  assert (∃ h, hpks_type e (named_high x) w = Ok (0, Hp h (set_no_state true (str w))) ∧ hpack h = HPKS_HLEN ∧ in_value h = false
            ∧ hpack_type h = literal_type x ∧ hpack_hdr_len h = 0 ∧ is_first_header_char h = true ∧ huff_pad (hst h) = 0 ∧ zero_huff_padding (hst h) = false
            ∧ dyn h = dyn (net w) ∧ pps h = pps (net w)) as (h & E & B1 & B2 & B3 & B4 & B5 & B6 & B7 & B8 & B9).
  { destruct x; eexists; (split; [reflexivity|]); by split_and!. }
  destruct (string_start e (Hp h (set_no_state true (str w))) name more Hok B1 B6 B7) as (h1 & E1 & Hvw & Hu & Hh & Hl). cbn [net str] in *.
  destruct (view_fields _ _ Hvw) as (V1 & V2 & V3 & V4 & V5 & V6 & V7 & V8 & V9). exists (set_unknown_header false (set_hpack HPKS_DATA h1)). split_and!; try done.
  - unfold name_state. cbn. split_and!; congruence.
  - eapply net_is_view; [exact Hn|cbn; congruence..].
  - cbn. congruence.
  - split; cbn; [done|change (Z.of_nat 0) with 0; congruence|congruence|done].
  - cbn [interpret_all]. unfold lws_hpack_interpret. rewrite Hst, E. cbn [mbind res_bind Z.eqb negb]. rewrite E1. unfold pre_data, on_net. cbn [net str].
    change (in_value (set_hpack HPKS_DATA h1)) with (in_value h1). rewrite V1, B2. cbn [negb orb]. by rewrite go_on_ok.
Qed.

Lemma literal_value_start e h0 nm u h1 s1 v more :
  after_name h0 nm u h1 → is_literal (hpack_type h0) = true → string_ok v →
  ∃ h2, interpret_all e (string_bytes v ++ more) (Hp h1 s1) = interpret_all e (raw v ++ more) (Hp h2 s1)
    ∧ hpack h2 = HPKS_DATA ∧ in_value h2 = true ∧ hdr_idx h2 = (if no_state s1 then LWS_HPACK_IGNORE_ENTRY else 1)
    ∧ hpack_type h2 = hpack_type h0 ∧ unknown_header h2 = u ∧ dyn h2 = dyn h0 ∧ pps h2 = pps h0 ∧ hpack_hdr_len h2 = Z.of_nat (length nm)
    ∧ (nm ≠ [] → head nm = Some (first_hdr_char h2)) ∧ huff h2 = coded v ∧ hst h2 = root ∧ hpack_len h2 = Z.of_nat (length (raw v)).
Proof.
  intros [A1 A2 A3 A4 A5 [A6 A6'] [A7 A7'] A8 A9] Hlit Hv.
  destruct (string_start e (Hp h1 s1) v more Hv A1 A6 A6') as (h2 & -> & Hvw & Hu & Hh & Hl). cbn [net str] in *.
  destruct (view_fields _ _ Hvw) as (V1 & V2 & V3 & V4 & V5 & V6 & V7 & V8 & V9).
  exists (set_hdr_idx (if no_state s1 then LWS_HPACK_IGNORE_ENTRY else 1) (set_hpack HPKS_DATA h2)). split.
  - unfold pre_data, on_net. cbn [net str]. change (in_value (set_hpack HPKS_DATA h2)) with (in_value h2).
    change (hdr_idx (set_hpack HPKS_DATA h2)) with (hdr_idx h2). change (hpack_type (set_hpack HPKS_DATA h2)) with (hpack_type h2).
    rewrite V1, V2, V5, A2, A3, A4, Hlit. change (LWS_HPACK_IGNORE_ENTRY =? 0) with false. cbn [negb orb]. by rewrite go_on_ok.
  - cbn. split_and!; try congruence. intros Hne. rewrite V7. by apply A9.
Qed.

(** ** The names of the step of a block *)

Lemma known_token_inv nm t : nm ≠ [] → known_token nm = Some t → (Z.of_nat t, nm) ∈ all_names ∨ (Z.of_nat t, nm ++ [58]) ∈ all_names.
Proof.
  intros Hne. unfold known_token. destruct (list_find _ set) as [[i w]|] eqn:E; [|done]. intros [= ->].
  apply list_find_Some in E as (E & [->| ->] & _); [left|right]; apply elem_of_all_names; rewrite Nat2Z.id; split_and!; try done; try lia.
  by destruct nm.
Qed.

Lemma known_fits e m nm t :
  lower nm = true → (Z.of_nat t, nm) ∈ all_names ∨ (Z.of_nat t, nm ++ [58]) ∈ all_names →
  header_token t = true → (S (m_frags m) < WSI_TOKEN_COUNT)%nat → (m_used m < hmax e)%nat → name_fits e m nm.
Proof.
  intros Hlow Hor Ht Hn Hroom. split; [done| |].
  - intros n d r -> Hr Hin. assert (∃ w, (Z.of_nat t, (d ++ r) ++ w) ∈ all_names) as (w & Hw) by (destruct Hor; [exists []; by rewrite app_nil_r|by eexists]).
    destruct (names_prefix_free _ _ _ _ Hin Hw) as [_ E]; [exists (r ++ w); by rewrite app_assoc|].
    apply (f_equal length) in E. rewrite !length_app in E. destruct r; [done|]. cbn in E. lia.
  - intros n Hin. destruct Hor as [Hw|Hw].
    + destruct (names_prefix_free _ _ _ _ Hin Hw) as [-> _]; [done|]. by rewrite Nat2Z.id.
    + destruct (names_prefix_free _ _ _ _ Hin Hw) as [_ E]; [by eexists|]. apply (f_equal length) in E. rewrite length_app in E. cbn in E. lia.
Qed.

Lemma unknown_inv nm : unknown_name nm = true → head nm ≠ Some 58 ∧ ∀ n d r, nm ++ [58] = d ++ r → (n, d) ∉ all_names.
Proof.
  unfold unknown_name. intros [H1 H2]%andb_true_iff. apply negb_true_iff, bool_decide_eq_false in H1. split; [done|].
  intros n d r E Hin. apply elem_of_all_names in Hin as (Hne & _ & Hin). rewrite forallb_forall in H2.
  specialize (H2 d (proj1 (list_elem_of_In _ _) (list_elem_of_lookup_2 _ _ _ Hin))). rewrite bool_decide_eq_false_2 in H2 by done. cbn [orb] in H2.
  apply negb_true_iff, bool_decide_eq_false in H2. destruct H2. by exists r.
Qed.

Lemma unknown_fits e m nm : lower nm = true → unknown_name nm = true → name_fits e m nm.
Proof.
  intros Hlow [_ H]%unknown_inv. split; [done| |].
  - intros n d r -> _. apply (H n d (r ++ [58])). by rewrite app_assoc.
  - intros n Hin. by destruct (H n nm [58] eq_refl).
Qed.

Lemma set_len_same h n : hpack_hdr_len h = n → set_hpack_hdr_len n h = h.
Proof. intros <-. by destruct h. Qed.

Lemma pseudo_absent t m : (pseudo t || (t =? 85)%nat) && present t m = false → present t m = true → pseudo t = false.
Proof. intros H Hp. rewrite Hp, andb_true_r in H. by apply orb_false_iff in H as [H _]. Qed.

Lemma token_not_path max s P m t : stream_is max s P m → present t m = true → pseudo t = false → hdr_token_idx s ≠ 37.
Proof.
  intros Hs Hp Ht. apply (si_tok _ _ _ _ Hs). unfold present in Hp. apply existsb_exists in Hp as (h & Hh & E). apply Nat.eqb_eq in E.
  exists h. split; [by apply list_elem_of_In|]. by rewrite E.
Qed.

Lemma literal_known e g s0 P m m1 m' x t name v h0 h1 s1 more :
  env_ok e → net_is e g h0 m → stream_is (hmax e) s0 P m → string_ok v → hpack_type h0 = literal_type x →
  after_name h0 (chars name) false h1 → opened_as e s0 P m t s1 → Z.of_nat (length (chars name)) < 2 ^ 16 →
  plain_value t (chars v) = true → bool_decide (x = Incremental) && present t m = false → add (hmax e) true t (chars v) m = Some m1 →
  remember_if x (Rfc (Z.of_nat t) (chars v) (Z.of_nat (length (chars name))) (Z.of_nat (length (chars name))) (Z.of_nat (length (chars v)))) m1 = Some m' →
  ∃ w', interpret_all e (string_bytes v ++ more) (Hp h1 s1) = interpret_all e more w' ∧ rep e g w' m'.
Proof.
  intros He Hn Hs Hv Hty Han [O1 O2 O3 O4 O5 O6 O7 O8 O9 O10] Hlen Epl Einc Ea E.
  assert (is_literal (hpack_type h0) = true) as Hlit by (rewrite Hty; apply literal_type_literal).
  destruct (literal_value_start e h0 _ _ h1 s1 v more Han Hlit Hv) as (h2 & -> & V1 & V2 & V3 & V4 & V5 & V6 & V7 & V8 & V9 & V10 & V11 & V12).
  rewrite O4 in V3. pose proof (add_inv _ _ _ _ _ _ Ea) as (Ht & Hps & Hpr & Hix & Hroom & Em1). destruct (header_token_lt _ Ht) as (Hlt & _).
  assert (∀ s, kept s1 s → state_number s = Z.of_nat t) as Hnum.
  { intros s Hk. unfold state_number. by rewrite (k_no_state _ _ Hk), (k_state _ _ Hk), O4, O3. }
  eapply (known_value e g s0 P m m1 m' true x t (S (m_frags m)) v _ h2 s1 more He); cbn [r_tok r_value r_hlen]; try done.
  - by eapply net_is_view; [exact Hn|..].
  - intros ->. by destruct (present t m).
  - split; try done.
    + split_and!; [done|done|by rewrite V3|by rewrite V3].
    + intros E37. split; [|done]. rewrite O10 in E37. destruct (present t m) eqn:Ep.
      * by destruct (token_not_path _ _ _ _ t Hs Ep (pseudo_absent t m ltac:(by rewrite Ep) Ep)).
      * assert (t = 37%nat) as Et by lia. by rewrite Et in Epl.
    + by right.
    + rewrite O10. destruct (present t m); auto.
  - intros h3 s3 Hc3 Hk3. destruct (net_core_fields _ _ Hc3) as (_ & _ & _ & _ & _ & C6 & C7 & _ & C9 & _). unfold add_header. cbn [net].
    rewrite C6, V4, Hty. destruct x; cbn [literal_type]; [|done..]. unfold literal_token. cbn [net str]. rewrite C7, V5.
    unfold state_is. rewrite (k_no_state _ _ Hk3), (k_state _ _ Hk3), O4, O3. cbn [negb andb orb].
    rewrite !bool_decide_eq_false_2 by done. cbn [orb]. rewrite (Hnum s3 Hk3), set_len_same by (rewrite C9; exact V8). done.
  - intros h3 s3 Hk3 Ht3 _. unfold final_token. cbn [net str]. rewrite Ht3, V4, Hlit, decide_False by (rewrite Hty; by destruct x).
    rewrite (Hnum s3 Hk3), (proj2 (Z.eqb_neq _ _)) by lia. done.
Qed.

Lemma literal_unknown e g s0 P m m1 x name v h0 h1 st p more :
  env_ok e → net_is e g h0 m → stream_is (hmax e) s0 P m → string_ok name → string_ok v → hpack_type h0 = literal_type x →
  after_name h0 (chars name) true h1 → unknown_name (chars name) = true →
  remember_if x (Rfc LWS_HPACK_IGNORE_ENTRY [] (Z.of_nat (length (chars name))) (Z.of_nat (length (chars name))) (Z.of_nat (length (chars v)))) m = Some m1 →
  ∃ w', interpret_all e (string_bytes v ++ more) (Hp h1 (set_seen true (set_no_state true (naming st p s0)))) = interpret_all e more w'
    ∧ rep e g w' (Mean (m_table m1) (m_headers m1) true (m_used m1) (m_frags m1)).
Proof.
  intros He Hn Hs Hname Hv Hty Han Hunk E. assert (is_literal (hpack_type h0) = true) as Hlit by (rewrite Hty; apply literal_type_literal).
  set (s2 := set_seen true (set_no_state true (naming st p s0))).
  destruct (literal_value_start e h0 _ _ h1 s2 v more Han Hlit Hv) as (h2 & -> & V1 & V2 & V3 & V4 & V5 & V6 & V7 & V8 & V9 & V10 & V11 & V12).
  set (reg := λ m, Mean (m_table m) (m_headers m) true (m_used m) (m_frags m)).
  assert (stream_is (hmax e) s2 P (reg m)) as Hs2.
  { destruct Hs. split; try done. by apply (stored_ext _ (ahs s0)). }
  assert (first_hdr_char h2 ≠ 58) as Hchar.
  { pose proof (V9 (chars_not_nil _ Hname)) as Hhd. destruct (unknown_inv _ Hunk) as [Hne _]. intros E58. by rewrite Hhd, E58 in Hne. }
  set (r := Rfc LWS_HPACK_IGNORE_ENTRY [] _ _ _) in E.
  apply (ignored_value e g s2 P (reg m) (reg m1) x r v h2 more He); try done.
  - destruct Hn. split; cbn; congruence.
  - destruct x; cbn [remember_if] in E |- *; [|by injection E as <-..]. unfold remember in *. cbn [m_table m_frags reg].
    destruct (bool_decide (rfc_ok r) && _ && _); [|done]. by injection E as <-.
  - intros h3 Hc3. destruct (net_core_fields _ _ Hc3) as (_ & _ & _ & _ & _ & C6 & C7 & C8 & C9 & _). unfold add_header. cbn [net].
    rewrite C6, V4, Hty. destruct x; cbn [literal_type]; [|done..]. unfold literal_token. cbn [net str]. rewrite C7, V5. cbn [orb].
    rewrite C8, (proj2 (Z.eqb_neq _ _)) by done. cbn [r r_hlen]. rewrite set_len_same by (rewrite C9; exact V8). done.
  - intros h3 l Ht3 _. unfold final_token. cbn [net str]. rewrite Ht3, V4, Hlit, decide_False by (rewrite Hty; by destruct x). exists (-1). auto.
Qed.

Lemma literal_ok e g w m m' x name v more :
  env_ok e → rep e g w m → step e (FLiteral x name v) m = Some m' →
  ∃ w', interpret_all e (field_bytes (FLiteral x name v) ++ more) w = interpret_all e more w' ∧ rep e g w' m'.
Proof.
  intros He (Hst & Hn & P & Hs) E. cbn [step] in E. destruct (bool_decide_reflect (string_ok name ∧ string_ok v)) as [[Hname Hv]|]; [|done]. cbn [negb orb] in E.
  destruct (lower (chars name)) eqn:Elow; [|done]. cbn [negb orb] in E. destruct (Z.leb_spec (2 ^ 16) (Z.of_nat (length (chars name)))) as [|Hlen]; [done|].
  rewrite literal_bytes. cbn [app]. rewrite <- app_assoc.
  destruct (literal_start e g w m x name (string_bytes v ++ more) Hst Hn Hname) as (h0 & Hns & Hn0 & Hty & Hnn & Hu & Hh & Hl & ->).
  assert (is_literal (hpack_type h0) = true) as Hlit by (rewrite Hty; apply literal_type_literal).
  set (s0 := set_no_state true (str w)). assert (stream_is (hmax e) s0 P m) as Hs0 by by apply (stream_is_kept _ _ _ m).
  assert (name_fits e m (chars name) → ∃ w1, name_net h0 (chars name) (net w1) ∧ name_stream e s0 P m (chars name) (str w1) ∧ hpack_len (net w1) = 1
            ∧ (huff (net w1) && bad_padding (hst (net w1)) = false)
            ∧ ∀ more w'', data_end e w1 = Ok (0, w'') →
                interpret_all e (raw name ++ more) (Hp h0 (naming WSI_TOKEN_NAME_PART (Some 0%nat) s0)) = interpret_all e more w'') as Hread.
  { intros Hfit. apply (name_read e h0 s0 P m (Hp h0 _) name); try done. left. exists 0%nat. split; [done|]. apply at_names_start. }
  destruct (known_token (chars name)) as [t|] eqn:Ek.
  - destruct (plain_value t (chars v)) eqn:Epl; [|done]. cbn [negb orb] in E.
    destruct (bool_decide (x = Incremental) && present t m) eqn:Einc; [done|].
    destruct (add (hmax e) true t (chars v) m) as [m1|] eqn:Ea; [|done]. cbn [mbind option_bind] in E.
    pose proof (add_inv _ _ _ _ _ _ Ea) as (Ht & _ & _ & Hix & Hroom & _). rewrite length_app in Hroom.
    pose proof (known_token_inv _ _ (chars_not_nil _ Hname) Ek) as Hor.
    destruct Hread as (w1 & R1 & R2 & R3 & R4 & Hmore); [by apply (known_fits e m _ t); [..|lia]|].
    destruct (name_end_known e h0 s0 P m t (chars name) w1) as (h1 & s1 & Ed & Ho & Han); try done; [lia|].
    rewrite (Hmore _ _ Ed). by apply (literal_known e g s0 P m m1 m' x t name v h0).
  - destruct (unknown_name (chars name)) eqn:Eun; [|done]. destruct (remember_if x _ m) as [m1|] eqn:Er; [|done]. cbn [mbind option_bind] in E. injection E as <-.
    destruct (unknown_inv _ Eun) as [_ Hno]. destruct Hread as (w1 & R1 & R2 & R3 & R4 & Hmore); [by apply unknown_fits|].
    destruct (name_end_unknown e h0 s0 P m (chars name) w1) as (h1 & st & p & Ed & Han); try done.
    { intros n. by apply (Hno n _ [58]). } { intros n. apply (Hno n _ []). by rewrite app_nil_r. }
    rewrite (Hmore _ _ Ed). by apply (literal_unknown e g s0 P m m1 x name v h0).
Qed.

(** ** Whole blocks *)

Lemma step_ok e g w m m' f more :
  env_ok e → rep e g w m → step e f m = Some m' →
  ∃ w', interpret_all e (field_bytes f ++ more) w = interpret_all e more w' ∧ rep e g w' m'.
Proof.
  intros He Hr E. destruct f as [i|x i v|x name v|n].
  - destruct (indexed_ok e g w m m' i Hr E) as (w' & Ew & Hw). exists w'. by rewrite (interpret_app _ _ _ _ _ Ew).
  - by apply (named_ok e g w m).
  - by apply (literal_ok e g w m).
  - destruct (resize_field_ok e g w m m' n He Hr E) as (w' & Ew & Hw). exists w'. by rewrite (interpret_app _ _ _ _ _ Ew).
Qed.

Lemma steps_ok e g w m m' fs :
  env_ok e → rep e g w m → steps e fs m = Some m' → ∃ w', interpret_all e (block_bytes fs) w = Ok (0, w') ∧ rep e g w' m'.
Proof.
  intros He. revert w m. induction fs as [|f fs IH]; intros w m Hr; cbn [steps].
  - intros [= <-]. by exists w.
  - destruct (step e f m) as [m1|] eqn:E; [|done]. cbn [mbind option_bind]. intros Es.
    destruct (step_ok e g w m m1 f (block_bytes fs) He Hr E) as (w1 & E1 & Hr1). destruct (IH w1 m1 Hr1 Es) as (w' & E' & Hr').
    exists w'. split; [|done]. by rewrite <- E', <- E1.
Qed.

(** A stream that has just been given its header store, and what it means. *)
Definition new_stream (text : list Z) (tok : Z) : h2_stream :=
  Stream (Hcon (_lws_header_table_reset (_lws_create_ah text)) 0 false) tok (replicate WSI_TOKEN_COUNT 0) false false 0.

Definition no_headers (table : Z * list rfc_entry) : meaning := Mean table [] false 0 0.

Lemma new_stream_is text tok tb : stream_is (length text) (new_stream text tok) [] (no_headers tb).
Proof.
  split; try done.
  - split; try done; try lia.
    + intros t Ht. cbn. by apply lookup_replicate_2.
    + intros i Hi. cbn. apply lookup_replicate_2. lia.
    + cbn. lia.
  - intros (h & []%elem_of_nil & _).
  - intros (h & []%elem_of_nil & _).
Qed.

(** The texts of the headers with token [t], in order. *)
Definition texts_of (t : nat) (hs : list (nat * list Z)) : list (list Z) := snd <$> filter (λ h, h.1 = t) hs.

Lemma texts_listed t P : texts_of t (listed P) = texts t P.
Proof.
  induction P as [|r P IH]; [done|]. unfold texts_of, listed, texts in *. cbn [fmap list_fmap]. rewrite !filter_cons. cbn [fst].
  destruct (decide (hd_tok r = t)); cbn [fmap list_fmap snd]; congruence.
Qed.

Lemma rep_reads e g w m t :
  rep e g w m → (t < WSI_TOKEN_COUNT)%nat →
  (∀ i x, texts_of t (m_headers m) !! i = Some x →
     lws_hdr_copy_fragment (ahs (str w)) (Z.of_nat (length x) + 1) t i = Ok (Z.of_nat (length x), x))
  ∧ (texts_of t (m_headers m) = [] → lws_hdr_total_length (ahs (str w)) t = Ok 0%nat).
Proof.
  intros (_ & _ & P & Hs) Ht. rewrite <- (si_listed _ _ _ _ Hs), texts_listed. split.
  - intros i x. by apply (hdr_copy_fragment_ok _ _ _ _ _ _ _ (si_closed _ _ _ _ Hs)).
  - by apply (hdr_none _ _ _ _ _ (si_closed _ _ _ _ Hs)).
Qed.

(** ** What the standard makes of a block *)

(** The header a field stands for, by the peer's table: its token and its value
    (which has no NUL, by the standard; one would end it).  Names the server has
    no token for are left out. *)
Definition field_header (tb : Z * list rfc_entry) (f : field) : option (nat * list Z) :=
  match f with
  | FIndexed i =>
      r ← at_index (no_headers tb) i;
      if r_tok r =? LWS_HPACK_IGNORE_ENTRY then None else Some (Z.to_nat (r_tok r), up_to_nul (r_value r))
  | FNamed _ i v =>
      r ← at_index (no_headers tb) i;
      if r_tok r =? LWS_HPACK_IGNORE_ENTRY then None else Some (Z.to_nat (r_tok r), chars v)
  | FLiteral _ name v => t ← known_token (chars name); Some (t, chars v)
  | FResize _ => None
  end.

(** The peer's table after a field.  Of an entry whose name the server has no
    token for only the lengths matter. *)
Definition field_table (tb : Z * list rfc_entry) (f : field) : Z * list rfc_entry :=
  match f with
  | FNamed Incremental i v =>
      match at_index (no_headers tb) i with
      | Some r =>
          let n := Z.of_nat (length (chars v)) in
          rfc_step (TInsert (if r_tok r =? LWS_HPACK_IGNORE_ENTRY then Rfc LWS_HPACK_IGNORE_ENTRY [] 0 (r_nlen r) n
                             else Rfc (r_tok r) (chars v) (r_hlen r) (r_nlen r) n)) tb
      | None => tb
      end
  | FLiteral Incremental name v =>
      let k := Z.of_nat (length (chars name)) in
      let n := Z.of_nat (length (chars v)) in
      rfc_step (TInsert (match known_token (chars name) with
                         | Some t => Rfc (Z.of_nat t) (chars v) k k n
                         | None => Rfc LWS_HPACK_IGNORE_ENTRY [] k k n
                         end)) tb
  | FResize n => rfc_step (TResize n) tb
  | _ => tb
  end.

Fixpoint block_headers (fs : list field) (tb : Z * list rfc_entry) : list (nat * list Z) :=
  match fs with
  | [] => []
  | f :: fs => option_list (field_header tb f) ++ block_headers fs (field_table tb f)
  end.

Definition block_table (fs : list field) (tb : Z * list rfc_entry) : Z * list rfc_entry := foldl field_table tb fs.

(** The texts the store has for the values of a header: the values, but that a
    repeated one may come after a space or a semicolon. *)
Definition joined (vs xs : list (list Z)) : Prop :=
  length xs = length vs
  ∧ ∀ i v x, vs !! i = Some v → xs !! i = Some x → x = v ∨ (0 < i)%nat ∧ (x = 32 :: v ∨ x = 59 :: v).

(** A field that is accepted adds its header and changes the table as the
    standard says. *)
Lemma add_header max lit t v m m' :
  add max lit t v m = Some m' → m_table m' = m_table m ∧ m_headers m' = m_headers m ++ [(t, separator lit t m ++ v)].
Proof. unfold add. cbv zeta. do 5 (match goal with |- context [if ?b then None else _] => destruct b; [done|] end). by intros [= <-]. Qed.

Lemma remember_header x r m m' :
  remember_if x r m = Some m' →
  m_table m' = (if bool_decide (x = Incremental) then rfc_step (TInsert r) (m_table m) else m_table m) ∧ m_headers m' = m_headers m.
Proof. destruct x; cbn; [|by intros [= <-]..]. unfold remember. case_match; [|done]. by intros [= <-]. Qed.

Lemma step_meaning e f m m' :
  step e f m = Some m' →
  m_table m' = field_table (m_table m) f
  ∧ match field_header (m_table m) f with
    | Some (t, v) => ∃ lit, m_headers m' = m_headers m ++ [(t, separator lit t m ++ v)]
    | None => m_headers m' = m_headers m
    end.
Proof.
  assert (∀ i, at_index (no_headers (m_table m)) i = at_index m i) as Ei by done.
  destruct f as [i|x i v|x name v|n]; cbn [step field_header field_table]; cbv zeta; rewrite ?Ei.
  - destruct (127 <=? i); [done|]. destruct (at_index m i) as [r|]; [|done]. cbn.
    destruct (r_tok r =? LWS_HPACK_IGNORE_ENTRY); [by intros [= <-]|]. intros [E1 E2]%add_header. split; [done|]. by exists false.
  - destruct (_ || _); [done|]. destruct (at_index m i) as [r|]; [|done]. cbn.
    destruct (r_tok r =? LWS_HPACK_IGNORE_ENTRY).
    + intros [E1 E2]%remember_header. split; [|done]. rewrite E1. by destruct x.
    + destruct (_ || _); [done|]. destruct (add _ _ _ _ m) as [m1|] eqn:E1; [|done]. cbn. intros [E3 E4]%remember_header.
      apply add_header in E1 as [E1 E2]. split; [rewrite E3, E1; by destruct x|]. rewrite E4, E2. by exists false.
  - destruct (_ || _ || _); [done|]. destruct (known_token (chars name)) as [t|]; cbn.
    + destruct (_ || _); [done|]. destruct (add _ _ _ _ m) as [m1|] eqn:E1; [|done]. cbn. intros [E3 E4]%remember_header.
      apply add_header in E1 as [E1 E2]. split; [rewrite E3, E1; by destruct x|]. rewrite E4, E2. by exists true.
    + destruct (unknown_name _); [|done]. destruct (remember_if _ _ m) as [m1|] eqn:E1; [|done]. cbn. intros [= <-].
      apply remember_header in E1 as [E1 E2]. cbn [m_table m_headers]. split; [rewrite E1; by destruct x|done].
  - destruct (_ || _); [|done]. by intros [= <-].
Qed.

Lemma texts_of_app t hs1 hs2 : texts_of t (hs1 ++ hs2) = texts_of t hs1 ++ texts_of t hs2.
Proof. unfold texts_of. by rewrite filter_app, fmap_app. Qed.

Lemma texts_of_one t u x : texts_of t [(u, x)] = if decide (u = t) then [x] else [].
Proof. unfold texts_of. rewrite filter_cons. cbn [fst]. by case_decide. Qed.

Lemma separator_first lit t m : texts_of t (m_headers m) = [] → separator lit t m = [].
Proof.
  intros E. unfold separator. assert (present t m = false) as ->; [|done]. apply not_true_is_false. intros (h & Hh & Et)%existsb_exists.
  apply Nat.eqb_eq in Et. assert (h.2 ∈ texts_of t (m_headers m)) as Hin.
  { unfold texts_of. apply list_elem_of_fmap. exists h. split; [done|]. apply list_elem_of_filter. split; [done|]. by apply list_elem_of_In. }
  rewrite E in Hin. by apply elem_of_nil in Hin.
Qed.

Lemma joined_snoc vs xs v x :
  joined vs xs → x = v ∨ vs ≠ [] ∧ (x = 32 :: v ∨ x = 59 :: v) → joined (vs ++ [v]) (xs ++ [x]).
Proof.
  intros [Hl Hj] Hx. split; [rewrite !length_app; cbn; lia|]. intros i v' x' Ev Ex.
  destruct (decide (i < length vs)%nat) as [Hi|Hi].
  - rewrite lookup_app_l in Ev, Ex by lia. by apply (Hj i).
  - rewrite lookup_app_r in Ev, Ex by lia. assert (i = length vs) as -> by (apply lookup_lt_Some in Ev; cbn in Ev; lia).
    rewrite Nat.sub_diag in Ev. rewrite Hl, Nat.sub_diag in Ex. injection Ev as <-. injection Ex as <-.
    destruct Hx as [->|[Hne Hx]]; [by left|]. right. split; [|done]. destruct vs; [done|cbn; lia].
Qed.

Lemma steps_meaning e t fs : ∀ m m' done,
  steps e fs m = Some m' → joined done (texts_of t (m_headers m)) →
  m_table m' = block_table fs (m_table m) ∧ joined (done ++ texts_of t (block_headers fs (m_table m))) (texts_of t (m_headers m')).
Proof.
  induction fs as [|f fs IH]; intros m m' vs E Hj; [injection E as <-; by rewrite app_nil_r|].
  cbn [steps] in E. destruct (step e f m) as [m1|] eqn:E1; [|done]. cbn in E. apply step_meaning in E1 as [Et Eh].
  cbn [block_headers block_table foldl]. rewrite <- Et. rewrite texts_of_app, app_assoc. apply (IH m1 m' _ E).
  destruct (field_header (m_table m) f) as [[u v]|]; [change (option_list _) with [(u, v)]|change (texts_of t (option_list _)) with ([] : list (list Z)); by rewrite app_nil_r, Eh].
  destruct Eh as [lit ->]. rewrite texts_of_app, !texts_of_one. case_decide as Hu; [subst u|by rewrite !app_nil_r].
  apply joined_snoc; [done|]. destruct (decide (vs = [])) as [->|Hne].
  - left. destruct Hj as [Hl _]. by rewrite separator_first by by apply length_zero_iff_nil.
  - unfold separator. destruct (negb _); [by left|]. destruct lit; [right; split; [done|]; by left|].
    destruct (t =? WSI_TOKEN_HTTP_COOKIE)%nat; [right; split; [done|]; by right|by left].
Qed.

(** A new stream on a connection whose ring serves the peer's table. *)
Lemma rep_new e h text tok tb :
  length text = hmax e → hpack h = HPKS_TYPE → serves (table_limit e) (dyn h) tb →
  rep e (pps h) (Hp h (new_stream text tok)) (no_headers tb).
Proof. intros Htext Hst Htb. split; [done|]. split; [by split|]. exists []. rewrite <- Htext. apply new_stream_is. Qed.

(** ** Claims *)

(** [C16] Header blocks are read as they are meant.  On a new stream, and with
    the connection's ring serving the peer's dynamic table, the bytes of an
    accepted header block (indexed fields, fields with a name from the tables or
    with a name of their own, strings in Huffman code or not, changes of the
    table's size) are taken one at a time without an error or a GOAWAY; the
    values the standard gives each header can then be read back in their order
    with lws_hdr_copy_fragment (a repeated one possibly with a space or a
    semicolon before it), and no other header is there; and the ring serves the
    table the peer has after the block, so that the next block is read right
    too.

    Accepted ([steps]) are the blocks whose headers fit the header store, with
    the pseudo headers first and once, names in lower case that do not start
    with a known name without being it, and: strings that are not empty
    (HpackSend.empty_value_eats_block); indexes below 127 for indexed fields
    (HpackSend.long_index_out_of_bounds); no :path with an escape,
    a query or parts to be cleaned; size changes that do not shrink the table
    unless to 0, and no insertion into a table of fewer than 8 bytes; no literal
    name that is one of the table's methods, sec-websocket-origin or the
    challenge of old websocket drafts; strings under 2^28 bytes, integers in
    their shortest form; and no
    incremental indexing of a header that the block already had, whose value
    would enter the ring with its separator ([repeated_incremental_spoils_table]). *)
Theorem header_block_read e h text tok tb fs
    (He : env_ok e) (Htext : length text = hmax e) (Hst : hpack h = HPKS_TYPE) (Htb : serves (table_limit e) (dyn h) tb)
    (Hfs : is_Some (steps e fs (no_headers tb))) :
  ∃ h' s',
    interpret_all e (block_bytes fs) (Hp h (new_stream text tok)) = Ok (0, Hp h' s')
    ∧ hpack h' = HPKS_TYPE ∧ pps h' = pps h ∧ serves (table_limit e) (dyn h') (block_table fs tb)
    ∧ ∀ t, (t < WSI_TOKEN_COUNT)%nat → ∃ xs, joined (texts_of t (block_headers fs tb)) xs
        ∧ (∀ i x, xs !! i = Some x → lws_hdr_copy_fragment (ahs s') (Z.of_nat (length x) + 1) t i = Ok (Z.of_nat (length x), x))
        ∧ (xs = [] → lws_hdr_total_length (ahs s') t = Ok 0%nat).
Proof.
  pose proof (rep_new e h text tok tb Htext Hst Htb) as Hr. destruct Hfs as [m' Hfs]. destruct (steps_ok e _ _ _ _ fs He Hr Hfs) as ([h' s'] & E & Hr'). exists h', s'. split; [done|].
  pose proof Hr' as (Ht' & [Hsv Hp'] & _). split; [done|]. split; [done|].
  split; [destruct (steps_meaning e 0 fs (no_headers tb) m' [] Hfs) as [Et _]; [done|]; cbn [no_headers m_table] in Et; by rewrite <- Et|].
  intros t Ht. destruct (steps_meaning e t fs (no_headers tb) m' [] Hfs) as [_ Hj]; [done|].
  exists (texts_of t (m_headers m')). split; [exact Hj|]. by apply (rep_reads e (pps h) (Hp h' s')).
Qed.

(** A server with room for 1024 bytes of headers, and a block that has fields
    of all kinds. *)
Definition sample_env : h2_env := Env (Context_ 1024 None false false) 65536 (λ _, true).

Definition plain (s : list Z) : hstring := HStr false s s.

Definition sample_net : h2_netconn :=
  H2n (ring_of 4096) HPKS_TYPE HPKT_INDEXED_HDR_7 false false false false false 0 0 0 root 0 0 0 1 1 [].

Definition sample_block : list field :=
  [FResize 8192; FIndexed 2; FIndexed 6; FNamed Without 4 (plain (bs "/comlink/status"));
   FNamed Incremental 1 (HStr true [241; 227; 194; 229; 242; 58; 107; 160; 171; 144; 244; 255] (bs "www.example.com"));
   FLiteral Incremental (plain (bs "x-custom")) (plain (replicate 200 65)); FLiteral Without (plain (bs "accept")) (plain (bs "text/html"));
   FLiteral Never (plain (bs "accept")) (plain (bs "text/plain")); FNamed Incremental 32 (plain (bs "a=b")); FIndexed 62; FIndexed 63].

Lemma ring_serves : serves 65536 (ring_of 4096) (4096, []).
Proof.
  destruct (serves_new (λ _, true) 65536 ltac:(done) ltac:(lia) 4096 ltac:(lia)) as (d & E & H). unfold ring_of. by rewrite E.
Qed.

Lemma header_block_read_witness :
  (texts_of 35 (block_headers sample_block (4096, [])) = [bs "www.example.com"]
   ∧ texts_of 17 (block_headers sample_block (4096, [])) = [bs "text/html"; bs "text/plain"]
   ∧ texts_of 26 (block_headers sample_block (4096, [])) = [bs "a=b"; bs "a=b"]
   ∧ texts_of 27 (block_headers sample_block (4096, [])) = [])
  ∧ ∃ h' s',
    interpret_all sample_env (block_bytes sample_block) (Hp sample_net (new_stream (replicate 1024 0) 0)) = Ok (0, Hp h' s')
    ∧ hpack h' = HPKS_TYPE ∧ pps h' = pps sample_net ∧ serves 65536 (dyn h') (block_table sample_block (4096, []))
    ∧ ∀ t, (t < WSI_TOKEN_COUNT)%nat → ∃ xs, joined (texts_of t (block_headers sample_block (4096, []))) xs
        ∧ (∀ i x, xs !! i = Some x → lws_hdr_copy_fragment (ahs s') (Z.of_nat (length x) + 1) t i = Ok (Z.of_nat (length x), x))
        ∧ (xs = [] → lws_hdr_total_length (ahs s') t = Ok 0%nat).
Proof.
  split; [by vm_compute|].
  apply (header_block_read sample_env sample_net (replicate 1024 0) 0 (4096, []) sample_block).
  - split; [done|cbn; lia|done|done].
  - reflexivity.
  - reflexivity.
  - exact ring_serves.
  - vm_compute. by eexists.
Defined.

(** Two cookies that are to be indexed, as a browser may send them: the second
    one's value enters the ring with the semicolon that joins it to the first
    one in the header store, and the peer's index for it, in the next request,
    stands for ";c=d" instead of "c=d". *)
Definition two_cookies : list field := [FNamed Incremental 32 (plain (bs "a=b")); FNamed Incremental 32 (plain (bs "c=d"))].

Theorem repeated_incremental_spoils_table :
  ∃ h1 s1 h2 s2,
    interpret_all sample_env (block_bytes two_cookies) (Hp sample_net (new_stream (replicate 1024 0) 0)) = Ok (0, Hp h1 s1)
    ∧ interpret_all sample_env (block_bytes [FIndexed 62]) (Hp h1 (new_stream (replicate 1024 0) 0)) = Ok (0, Hp h2 s2)
    ∧ lws_hdr_copy_fragment (ahs s2) 5 26 0 = Ok (4, bs ";c=d")
    ∧ block_headers [FIndexed 62] (block_table two_cookies (4096, [])) = [(26%nat, bs "c=d")].
Proof. do 4 eexists. split; [vm_compute; reflexivity|]. split; [vm_compute; reflexivity|]. split; vm_compute; reflexivity. Qed.
