(* ===== verification/HpackSend.v ===== *)
(** * The headers the server sends

    That lws_add_http2_header_by_name of hpack.c writes the headers of a
    response as the standard has them, never past the end of the buffer, and
    that the decoder of Hpack.v reads them back. *)

From stdpp Require Import base numbers list strings.
From Stdlib Require Import ZArith Lia Ascii.
From S2P Require Import Prelude Text HttpHead Lex HttpParse Huffman HpackTable Hpack HpackStore HpackOk HpackField HpackBlock.

(** ** Lemmas: bytes and integers *)

Lemma put_byte_ok c o : is_byte c → 0 < room o → put_byte c o = Ok (Out (written o ++ [c]) (room o - 1)).
Proof. intros Hc Hr. unfold put_byte. rewrite (proj2 (Z.leb_gt _ _)) by done. by rewrite u8_small by (unfold is_byte in Hc; lia). Qed.

Lemma put_bytes_ok s o :
  Forall is_byte s → Z.of_nat (length s) <= room o → put_bytes s o = Ok (Out (written o ++ s) (room o - Z.of_nat (length s))).
Proof.
  revert o. induction s as [|c s IH]; intros o Hs Hr; cbn [put_bytes length] in *.
  - rewrite app_nil_r, Z.sub_0_r. by destruct o.
  - apply Forall_cons in Hs as [Hc Hs]. rewrite put_byte_ok by (done || lia). cbn [mbind res_bind]. rewrite IH by (done || (cbn; lia)). cbn [written room].
    rewrite <- app_assoc. cbn [app]. do 2 f_equal. lia.
Qed.

Lemma groups_step fuel n : groups (S fuel) n = if n <? 128 then [n] else (128 + n mod 128) :: groups fuel (n / 128).
Proof. done. Qed.

Lemma seven_bits n : 0 <= n →
  (if 127 <? n then Z.lor 128 (Z.land n 127) else Z.land n 127) = (if n <? 128 then n else 128 + n mod 128).
Proof.
  intros Hn. rewrite (land_mask n 7) by lia. change (2 ^ 7) with 128. destruct (Z.ltb_spec 127 n), (Z.ltb_spec n 128); try lia.
  - pose proof (Z.mod_pos_bound n 128 ltac:(lia)). revert H1. generalize (n mod 128). intros k Hk.
    apply (forall_bytes_dec (λ k, k < 128 → Z.lor 128 k = 128 + k)); [by_compute|unfold is_byte; lia|lia].
  - by apply Z.mod_small.
Qed.

(** The loop writes the groups, and leaves at least a byte. *)
Lemma num_loop_ok f1 f2 n o :
  (f2 ≤ f1)%nat → 0 <= n < 2 ^ (7 * Z.of_nat (S f2)) → Z.of_nat (length (groups (S f2) n)) < room o →
  num_loop (S f1) n o = Ok (0, Out (written o ++ groups (S f2) n) (room o - Z.of_nat (length (groups (S f2) n)))).
Proof.
  revert f1 n o. induction f2 as [|f2 IH]; intros f1 n o Hf Hn Hr; cbn [num_loop].
  - change (2 ^ (7 * Z.of_nat 1)) with 128 in Hn. rewrite groups_step, (proj2 (Z.ltb_lt _ _)) in * by lia. cbn [length] in *.
    rewrite seven_bits, (proj2 (Z.ltb_lt n 128)) by lia. rewrite put_byte_ok by (unfold is_byte; lia). cbn [mbind res_bind room].
    rewrite (proj2 (Z.leb_gt _ _)) by lia. rewrite Z.shiftr_div_pow2, Z.div_small by lia. done.
  - rewrite groups_step in *. destruct (Z.ltb_spec n 128) as [Hlt|Hge]; cbn [length] in *.
    + rewrite seven_bits, (proj2 (Z.ltb_lt n 128)) by lia. rewrite put_byte_ok by (unfold is_byte; lia). cbn [mbind res_bind room].
      rewrite (proj2 (Z.leb_gt _ _)) by lia. rewrite Z.shiftr_div_pow2, Z.div_small by lia. done.
    + pose proof (Z.mod_pos_bound n 128 ltac:(lia)). rewrite seven_bits, (proj2 (Z.ltb_ge n 128)) by lia.
      rewrite put_byte_ok by (unfold is_byte; lia). cbn [mbind res_bind room].
      rewrite (proj2 (Z.leb_gt _ _)) by lia. rewrite Z.shiftr_div_pow2 by lia. change (2 ^ 7) with 128.
      assert (1 <= n / 128) by (apply Z.div_le_lower_bound; lia). rewrite (proj2 (Z.eqb_neq _ _)) by lia. destruct f1 as [|f1]; [lia|].
      rewrite (IH f1); cbn [written room]; [|lia| |lia].
      * rewrite <- app_assoc. cbn [app]. do 3 f_equal. lia.
      * split; [lia|]. apply Z.div_lt_upper_bound; [lia|]. replace (7 * Z.of_nat (S (S f2))) with (7 + 7 * Z.of_nat (S f2)) in Hn by lia.
        rewrite Z.pow_add_r in Hn by lia. lia.
Qed.

(** How many bytes an integer needs. *)
Lemma groups_length k n fuel : 0 <= n < 2 ^ (7 * Z.of_nat (S k)) → (length (groups fuel n) ≤ S k)%nat.
Proof.
  revert n fuel. induction k as [|k IH]; intros n [|fuel] Hn; try (cbn; lia); rewrite groups_step.
  - change (2 ^ (7 * Z.of_nat 1)) with 128 in Hn. rewrite (proj2 (Z.ltb_lt _ _)) by lia. cbn. lia.
  - destruct (n <? 128); [cbn; lia|]. cbn [length]. apply le_n_S, IH. split; [apply Z.div_pos; lia|]. apply Z.div_lt_upper_bound; [lia|].
    replace (7 * Z.of_nat (S (S k))) with (7 + 7 * Z.of_nat (S k)) in Hn by lia. rewrite Z.pow_add_r in Hn by lia. lia.
Qed.

Lemma int_ok n o :
  0 <= n < 2 ^ 28 → Z.of_nat (length (int_bytes 7 0 n)) < room o →
  (o ← put_byte (lws_h2_num_start 7 n) o; lws_h2_num 7 n o)
  = Ok (0, Out (written o ++ int_bytes 7 0 n) (room o - Z.of_nat (length (int_bytes 7 0 n)))).
Proof.
  intros Hn. unfold int_bytes, lws_h2_num_start, lws_h2_num. change (Z.shiftl 1 7 - 1) with 127. change (2 ^ 7 - 1) with 127.
  destruct (Z.ltb_spec n 127) as [Hlt|Hge]; cbn [length]; intros Hr; rewrite put_byte_ok by (unfold is_byte; lia); cbn [mbind res_bind].
  - done.
  - rewrite (num_loop_ok 9 4); cbn [written room]; [|lia|split; [lia|]; apply Z.lt_trans with (2 ^ 28); [lia|by_compute]|lia].
    rewrite <- app_assoc. cbn [app]. do 3 f_equal. lia.
Qed.

(** ** Lemmas: a header *)

(** Names are given with or without their colon. *)
Definition bare (name : list Z) : list Z := match last name with Some 58 => removelast name | _ => name end.

Definition sent_field (h : list Z * list Z) : field := FLiteral Without (plain (tolower <$> bare h.1)) (plain h.2).

(** Headers that are sent, with sizes for which eight bytes more than the
    texts are enough. *)
Definition sendable (h : list Z * list Z) : Prop :=
  take (length (bare h.1)) (bs "transfer-encoding") ≠ bare h.1 ∧ Forall is_byte (bare h.1) ∧ Forall is_byte h.2
  ∧ Z.of_nat (length (bare h.1)) < 16511 ∧ Z.of_nat (length h.2) < 2 ^ 21.

#[global] Instance sendable_dec h : Decision (sendable h).
Proof. unfold sendable. apply _. Defined.

Lemma tolower_byte c : is_byte c → is_byte (tolower c).
Proof. unfold tolower, is_byte. destruct (Z.leb_spec 65 c), (Z.leb_spec c 90); cbn [andb]; lia. Qed.

Lemma int_length n : 0 <= n →
  (n < 16511 → (length (int_bytes 7 0 n) ≤ 3)%nat) ∧ (n < 2 ^ 21 → (length (int_bytes 7 0 n) ≤ 4)%nat).
Proof.
  intros H0. unfold int_bytes. change (2 ^ 7 - 1) with 127. destruct (Z.ltb_spec n 127); cbn [length]; [split; lia|]. split; intros H1.
  - pose proof (groups_length 1 (n - 127) 5 ltac:(change (2 ^ (7 * Z.of_nat 2)) with 16384; lia)). lia.
  - pose proof (groups_length 2 (n - 127) 5 ltac:(change (2 ^ (7 * Z.of_nat 3)) with (2 ^ 21); lia)). lia.
Qed.

Lemma string_written s o :
  Forall is_byte s → Z.of_nat (length s) < 2 ^ 28 → Z.of_nat (length (int_bytes 7 0 (Z.of_nat (length s)))) + Z.of_nat (length s) <= room o →
  (Z.of_nat (length (int_bytes 7 0 (Z.of_nat (length s)))) < room o) →
  (o ← put_byte (lws_h2_num_start 7 (Z.of_nat (length s))) o;
   '(r, o) ← lws_h2_num 7 (Z.of_nat (length s)) o;
   if negb (r =? 0) then Ok (1, o) else o ← put_bytes s o; Ok (0, o))
  = Ok (0, Out (written o ++ string_bytes (plain s)) (room o - Z.of_nat (length (string_bytes (plain s))))).
Proof.
  intros Hs Hl Hr Hr'. pose proof (int_ok (Z.of_nat (length s)) o ltac:(lia) Hr') as E.
  destruct (put_byte _ o) as [o1|]; [|done]. cbn [mbind res_bind] in *. rewrite E. cbn [mbind res_bind Z.eqb negb].
  rewrite put_bytes_ok by (done || (cbn [room]; lia)). cbn [mbind res_bind written room string_bytes plain coded raw].
  unfold string_bytes. cbn [plain coded raw]. rewrite length_app, app_assoc. do 3 f_equal. lia.
Qed.

Lemma header_written h o :
  sendable h → Z.of_nat (length (bare h.1)) + Z.of_nat (length h.2) + 8 <= room o →
  lws_add_http2_header_by_name true h.1 h.2 o
  = Ok (0, Out (written o ++ field_bytes (sent_field h)) (room o - Z.of_nat (length (field_bytes (sent_field h)))))
  ∧ Z.of_nat (length (field_bytes (sent_field h))) <= Z.of_nat (length (bare h.1)) + Z.of_nat (length h.2) + 8.
Proof.
  destruct h as [name value]. cbn [fst snd]. intros (Hte & Hn & Hv & Hnl & Hvl) Hr. cbn [fst snd] in *.
  set (nm := bare name) in *. destruct (int_length (Z.of_nat (length nm)) ltac:(lia)) as [Hi1 _]. destruct (int_length (Z.of_nat (length value)) ltac:(lia)) as [_ Hi2].
  specialize (Hi1 Hnl). specialize (Hi2 Hvl).
  assert (length (int_bytes 7 0 (Z.of_nat (length value))) < length value + 4)%nat as Hi3 by (destruct value; [vm_compute; lia|cbn [length] in *; lia]).
  assert (length (tolower <$> nm) = length nm) as El by apply length_fmap.
  assert (Forall is_byte (tolower <$> nm)) as Hlow by (apply Forall_fmap; eapply Forall_impl; [exact Hn|]; apply tolower_byte).
  assert (field_bytes (sent_field (name, value)) = 0 :: string_bytes (plain (tolower <$> nm)) ++ string_bytes (plain value)) as -> by done.
  assert (∀ s, length (string_bytes (plain s)) = (length (int_bytes 7 0 (Z.of_nat (length s))) + length s)%nat) as Hsl.
  { intros s. unfold string_bytes. cbn [plain coded raw]. by rewrite length_app. }
  split; [|cbn [length]; rewrite length_app, !Hsl, El; lia].
  unfold lws_add_http2_header_by_name. change (match last name with Some 58 => removelast name | _ => name end) with nm. cbv zeta.
  rewrite Nat2Z.id, bool_decide_eq_false_2 by done. cbn [andb]. rewrite (proj2 (Z.ltb_ge _ _)) by lia.
  rewrite put_byte_ok by (unfold is_byte; lia). cbn [mbind res_bind].
  pose proof (string_written (tolower <$> nm) (Out (written o ++ [0]) (room o - 1)) Hlow ltac:(rewrite El; lia)) as E1. rewrite El in E1.
  specialize (E1 ltac:(cbn [room]; lia) ltac:(cbn [room]; lia)). cbn [written room] in E1.
  destruct (put_byte (lws_h2_num_start 7 (Z.of_nat (length nm))) _) as [o1|]; [|done]. cbn [mbind res_bind] in *.
  destruct (lws_h2_num 7 (Z.of_nat (length nm)) o1) as [[r o2]|]; [|done]. cbn [mbind res_bind] in *. destruct (negb (r =? 0)); [done|].
  destruct (put_bytes (tolower <$> nm) o2) as [o3|]; [|done]. cbn [mbind res_bind] in *. injection E1 as ->.
  rewrite string_written; cbn [written room]; [|done|lia|rewrite Hsl, El; lia|rewrite Hsl, El; lia].
  cbn [length]. rewrite length_app. do 3 f_equal; [|lia]. by rewrite <- !app_assoc.
Qed.

(** ** The headers of a response *)

(** The calls a response makes, one for each header. *)
Fixpoint write_all (hs : list (list Z * list Z)) (o : outbuf) : res (Z * outbuf) :=
  match hs with
  | [] => Ok (0, o)
  | h :: hs =>
      '(r, o) ← lws_add_http2_header_by_name true h.1 h.2 o;
      if negb (r =? 0) then Ok (r, o) else write_all hs o
  end.

(** The room that is enough for them. *)
Fixpoint room_for (hs : list (list Z * list Z)) : Z :=
  match hs with
  | [] => 0
  | h :: hs => Z.of_nat (length (bare h.1)) + Z.of_nat (length h.2) + 8 + room_for hs
  end.

Lemma room_for_pos hs : 0 <= room_for hs.
Proof. induction hs; cbn; lia. Qed.

Lemma write_all_ok hs o :
  Forall sendable hs → room_for hs <= room o →
  ∃ o', write_all hs o = Ok (0, o') ∧ written o' = written o ++ block_bytes (sent_field <$> hs) ∧ 0 <= room o'
    ∧ Z.of_nat (length (written o')) + room o' = Z.of_nat (length (written o)) + room o.
Proof.
  revert o. induction hs as [|h hs IH]; intros o Hs Hr; cbn [write_all room_for] in *.
  - exists o. rewrite app_nil_r. split; [done|]. split; [done|]. lia.
  - apply Forall_cons in Hs as [Hh Hs]. pose proof (room_for_pos hs). destruct (header_written h o Hh ltac:(lia)) as [-> Hlen]. cbn [mbind res_bind Z.eqb negb].
    match goal with |- context [write_all hs ?o1] => destruct (IH o1 Hs) as (o' & E & Ew & Hr0 & Hsum) end; cbn [written room] in *; [lia|].
    exists o'. split; [exact E|]. rewrite Ew, <- app_assoc. split; [done|]. split; [done|]. rewrite Ew in Hsum. rewrite !length_app in *. lia.
Qed.

(** The headers of a response by their tokens, as the other side is to have
    them; names without a token are left out. *)
Definition sent_headers (hs : list (list Z * list Z)) : list (nat * list Z) :=
  omap (λ h, t ← known_token (tolower <$> bare h.1); Some (t, h.2)) hs.

Lemma block_headers_sent hs tb : block_headers (sent_field <$> hs) tb = sent_headers hs.
Proof.
  induction hs as [|h hs IH]; [done|]. rewrite fmap_cons. cbn [block_headers]. change (field_table tb (sent_field h)) with tb. rewrite IH.
  unfold sent_headers at 2. cbn [omap list_omap]. change (field_header tb (sent_field h)) with (t ← known_token (tolower <$> bare h.1); Some (t, h.2)).
  by destruct (known_token _).
Qed.

(** [C17] What the server sends is read as it was meant.  With room for the
    texts and eight bytes more for each header, the calls of
    lws_add_http2_header_by_name for the headers of a response all succeed
    and stay inside of the buffer; and the decoder, given the bytes that were
    written as the block of a new stream, takes them without an error or a
    GOAWAY; the values given for each known header can be read back in their
    order (a repeated one possibly after a space), and no other header is there.

    Each header ([sendable]) has a name under 16511 bytes that is not the start
    of "transfer-encoding" (see [short_names_dropped]) and a value under 2^21
    bytes: when the lengths of both need four bytes, eight more than the texts
    are not enough (see [long_header_overflows]).  For the second half the fields are also
    ones that header_block_read is about ([steps]): values and names are not
    empty ([empty_value_eats_block]), names do not start with a known name
    without being it, pseudo headers come first and once, a :path needs no
    decoding, and all fit the header store of the reader. *)
Theorem sent_headers_read hs n e h text tok tb
    (Hs : Forall sendable hs) (Hroom : room_for hs <= n)
    (He : env_ok e) (Htext : length text = hmax e) (Hst : hpack h = HPKS_TYPE) (Htb : serves (table_limit e) (dyn h) tb)
    (Hfs : is_Some (steps e (sent_field <$> hs) (no_headers tb))) :
  ∃ o h' s',
    write_all hs (Out [] n) = Ok (0, o) ∧ Z.of_nat (length (written o)) <= n
    ∧ interpret_all e (written o) (Hp h (new_stream text tok)) = Ok (0, Hp h' s') ∧ pps h' = pps h
    ∧ ∀ t, (t < WSI_TOKEN_COUNT)%nat → ∃ xs, joined (texts_of t (sent_headers hs)) xs
        ∧ (∀ i x, xs !! i = Some x → lws_hdr_copy_fragment (ahs s') (Z.of_nat (length x) + 1) t i = Ok (Z.of_nat (length x), x))
        ∧ (xs = [] → lws_hdr_total_length (ahs s') t = Ok 0%nat).
Proof.
  destruct (write_all_ok hs (Out [] n) Hs Hroom) as (o & E & Ew & Hr & Hsum). cbn [written room app length] in *.
  destruct Hfs as [m' Hfs]. destruct (steps_ok e _ _ _ _ _ He (rep_new e h text tok tb Htext Hst Htb) Hfs) as ([h' s'] & Ei & Hr').
  exists o, h', s'. rewrite Ew. split; [done|]. split; [rewrite Ew in Hsum; lia|]. split; [done|]. split; [apply Hr'|].
  intros t Ht. rewrite <- (block_headers_sent hs tb). destruct (steps_meaning e t _ (no_headers tb) m' [] Hfs) as [_ Hj]; [done|].
  exists (texts_of t (m_headers m')). split; [exact Hj|]. by apply (rep_reads e (pps h) (Hp h' s')).
Qed.

Definition sample_headers : list (list Z * list Z) :=
  [(bs ":status", bs "200"); (bs "Content-Type:", bs "application/json"); (bs "content-length:", bs "42"); (bs "x-frame-options", bs "deny")].

Lemma sent_headers_read_witness :
  (texts_of 39 (sent_headers sample_headers) = [bs "200"] ∧ texts_of 28 (sent_headers sample_headers) = [bs "application/json"])
  ∧ ∃ o h' s',
    write_all sample_headers (Out [] 120) = Ok (0, o) ∧ Z.of_nat (length (written o)) <= 120
    ∧ interpret_all sample_env (written o) (Hp sample_net (new_stream (replicate 1024 0) 0)) = Ok (0, Hp h' s') ∧ pps h' = pps sample_net
    ∧ ∀ t, (t < WSI_TOKEN_COUNT)%nat → ∃ xs, joined (texts_of t (sent_headers sample_headers)) xs
        ∧ (∀ i x, xs !! i = Some x → lws_hdr_copy_fragment (ahs s') (Z.of_nat (length x) + 1) t i = Ok (Z.of_nat (length x), x))
        ∧ (xs = [] → lws_hdr_total_length (ahs s') t = Ok 0%nat).
Proof.
  split; [by vm_compute|].
  apply (sent_headers_read sample_headers 120 sample_env sample_net (replicate 1024 0) 0 (4096, [])).
  - apply (bool_decide_unpack (Forall sendable sample_headers)). vm_compute. exact I.
  - vm_compute. discriminate.
  - split; [done|cbn; lia|done|done].
  - reflexivity.
  - reflexivity.
  - exact ring_serves.
  - vm_compute. by eexists.
Defined.

(** ** Blocks the decoder gets wrong *)

Definition try (block : list Z) : res (Z * hp) := interpret_all sample_env block (Hp sample_net (new_stream (replicate 1024 0) 0)).

(** A table of size 0 and then a header to be indexed: the division by zero of
    lws_dynamic_token_insert. *)
Lemma empty_table_crashes : try (block_bytes [FResize 0; FLiteral Incremental (plain (bs "a")) (plain (bs "b"))]) = Fault DivByZero.
Proof. vm_compute. reflexivity. Qed.

(** An empty value, which the standard allows: its length is counted down from
    0, and the fields that follow are taken for characters of the value. *)
Lemma empty_value_eats_block :
  ∃ w, try ([0; 6] ++ bs "accept" ++ [0; 130]) = Ok (0, w) ∧ hpack (net w) = HPKS_DATA ∧ hpack_len (net w) = 2 ^ 32 - 1
    ∧ lws_hdr_total_length (ahs (str w)) 36 = Ok 0%nat.
Proof. eexists. split; [vm_compute; reflexivity|]. by split_and!. Qed.

(** Fields with an index of 127 and more that has a value: the prefix 127 is
    used as the token, past the end of [frag_index]. *)
Lemma long_index_out_of_bounds :
  try (block_bytes (replicate 66 (FNamed Incremental 58 (plain (bs "x")))) ++ int_bytes 7 128 127) = Fault OutOfBounds.
Proof. vm_compute. reflexivity. Qed.

(** As many headers with names from the tables as there are fragments, and
    then one with its own name: the limit is tested for equality after it was
    passed. *)
Lemma too_many_headers_out_of_bounds :
  try (block_bytes (replicate 94 (FNamed Without 58 (plain (bs "x"))) ++ [FLiteral Without (plain (bs "accept")) (plain (bs "x"))]) )
  = Fault OutOfBounds.
Proof. vm_compute. reflexivity. Qed.

(** Integers may have any number of bytes: the shift gets past the width. *)
Lemma long_integer_shifts : try [255; 128; 128; 128; 128; 128; 0] = Fault BadShift.
Proof. vm_compute. reflexivity. Qed.

(** A name that only starts like a pseudo header is taken for it, and the rest
    of the name for the start of the value. *)
Lemma long_pseudo_name :
  ∃ w, try (block_bytes [FLiteral Without (plain (bs ":pathx")) (plain (bs "/a"))]) = Ok (0, w)
    ∧ lws_hdr_copy_fragment (ahs (str w)) 5 37 0 = Ok (3, bs "x/a").
Proof. eexists. split; [vm_compute; reflexivity|]. vm_compute. reflexivity. Qed.

(** Not only "transfer-encoding" is left out of a response, but every name it
    starts with. *)
Lemma short_names_dropped : lws_add_http2_header_by_name true (bs "trans:") (bs "x") (Out [] 100) = Ok (0, Out [] 100).
Proof. vm_compute. reflexivity. Qed.

Lemma put_bytes_over s o : Forall is_byte s → 0 <= room o < Z.of_nat (length s) → put_bytes s o = Fault OutOfBounds.
Proof.
  revert o. induction s as [|c s IH]; intros o Hs Hr; cbn [put_bytes length] in *; [lia|]. apply Forall_cons in Hs as [Hc Hs].
  destruct (decide (room o = 0)) as [E|]; [unfold put_byte; by rewrite E|]. rewrite put_byte_ok by (done || lia). cbn [mbind res_bind].
  apply IH; [done|]. cbn. lia.
Qed.

(** Eight bytes more than the texts are one too few when the name and the
    value both need three bytes more for their length: the last byte of the
    value is written past the end of the buffer. *)
Lemma long_header_overflows name value :
  length name = Z.to_nat 16511 → length value = Z.to_nat 16511 → Forall is_byte name → Forall is_byte value → last name ≠ Some 58 →
  lws_add_http2_header_by_name true name value (Out [] (16511 + 16511 + 8)) = Fault OutOfBounds.
Proof.
  intros Hn Hv Hnb Hvb Hl. unfold lws_add_http2_header_by_name.
  assert (match last name with Some 58 => removelast name | _ => name end = name) as ->.
  { destruct (last name) as [c|]; [|done]. destruct (decide (c = 58)) as [->|]; [done|]. repeat (destruct c as [|c|c]; try done). }
  cbv zeta. rewrite Hn, Hv, Z2Nat.id by lia. rewrite bool_decide_eq_false_2.
  2:{ intros E. apply (f_equal length) in E. rewrite length_take, Hn in E. change (length (bs "transfer-encoding")) with 17%nat in E. lia. }
  cbn [andb room]. change (16511 + 16511 + 8 <? 16511 + 16511 + 8) with false. cbv iota. rewrite put_byte_ok by (cbn; unfold is_byte; lia). cbn [mbind res_bind written room app].
  assert (length (tolower <$> name) = Z.to_nat 16511) as El by (rewrite length_fmap; exact Hn).
  assert (Z.of_nat (length (int_bytes 7 0 16511)) = 4) as Ei by (vm_compute; reflexivity).
  pose proof (string_written (tolower <$> name) (Out [0] (16511 + 16511 + 8 - 1))) as E1. rewrite El, Z2Nat.id, Ei in E1 by lia. cbn [room] in E1.
  specialize (E1 ltac:(apply Forall_fmap; eapply Forall_impl; [exact Hnb|apply tolower_byte]) ltac:(lia) ltac:(lia) ltac:(lia)).
  destruct (put_byte (lws_h2_num_start 7 16511) _) as [o1|]; [|done]. cbn [mbind res_bind] in *.
  destruct (lws_h2_num 7 16511 o1) as [[r o2]|]; [|done]. cbn [mbind res_bind] in *. destruct (negb (r =? 0)); [done|].
  destruct (put_bytes (tolower <$> name) o2) as [o3|]; [|done]. cbn [mbind res_bind] in *. injection E1 as ->.
  assert (Z.of_nat (length (string_bytes (plain (tolower <$> name)))) = 4 + 16511) as Es.
  { unfold string_bytes. cbn [plain coded raw]. rewrite length_app, El, Z2Nat.id by lia. lia. }
  rewrite Es. match goal with |- context [put_byte _ ?o] => pose proof (int_ok 16511 o ltac:(lia) ltac:(cbn [room]; rewrite Ei; lia)) as E2 end.
  destruct (put_byte (lws_h2_num_start 7 16511) _) as [o4|]; [|done]. cbn [mbind res_bind] in *. rewrite E2. cbn [mbind res_bind Z.eqb negb].
  rewrite put_bytes_over; [done|done|]. cbn [room]. rewrite Ei, Hv, Z2Nat.id by lia. lia.
Qed.
